(* ===== verification/_CoqProject ===== *)
-Q . S2P
Prelude.v
Crc32c.v
Os.v
RedoLog.v
RedoLayout.v
RedoWriter.v
RedoOps.v
RedoReplay.v
RedoSession.v
RedoCrash.v
E2fsck.v
RedoTheorems.v
RedoLimits.v
ExtErr.v
UnixIo.v
UnixIoProofs.v
UnixIoLimits.v
Region.v
EaRefcount.v
Badblocks.v
Bitops.v
BitmapOps.v
BitArray.v
BitArrayProofs.v
GenBitmap.v
GenBitmapProofs.v
BitmapTheorems.v
Rbtree.v
RbtreeProofs.v
RbtreeBalance.v
RbtreeErase.v
RbtreeList.v
RbtreeTheorems.v
RbBitmap.v
RbBitmapProofs.v
RbExtents.v
RbRemove.v
RbOps.v
RbRange.v
RbInstance.v
BitmapAgree.v
RbTheorems.v
Icount.v
IcountProofs.v
IcountTheorems.v
BlkNum.v
BlkNumProofs.v
Crc16.v
Csum.v
CsumProofs.v
CsumTheorems.v
CsumGroup.v
Alloc.v
AllocProofs.v
AllocInodes.v
AllocGdt.v
AllocSearch.v
AllocNewInode.v
AllocNewRange.v
AllocWitness.v
Extent.v
ExtentProofs.v
ExtentTheorems.v
ExtentInode.v
ExtentSetBmap.v
ExtentLimits.v
Dirhash.v
Jbd.v
Revoke.v
Crc32Be.v
Buffer.v
Recovery.v
RecoverySpec.v
RecoveryProofs.v
Journal.v
JournalProofs.v
JournalTheorems.v
JournalUnix.v
JournalLimits.v
JournalCheck.v
