(* ===== verification/Prelude.v ===== *)
(** * Verification of rfsck: a redo log under a file-system checker

    rfsck makes a file-system checker robust against interruption: while it runs, the
    checker's writes go to a redo log instead of the device; when the run is over the log is
    sealed and replayed.  The repository holds the log library ([rfsck-lib]), a checker for
    ext2/3/4 that uses it ([rfsck-ext], a fork of e2fsprogs) and one for XFS ([rfsck-xfs]).
    This library models the log, the path from the checker to the device, and the parts of
    the ext library that the checker keeps its knowledge of the file system in, and proves
    what they promise.

    ** The program's parts and the files that model them

    - [Prelude]: this documentation, machine integers with their wrap-around ([u8] .. [u64],
      [s32]), the [machine] hint database, little-endian encodings, byte ranges of files.
    - [Crc32c]: [rfsck-ext/lib/ext2fs/crc32c.c] and the generator of its table,
      [gen_crc32ctable.c]; the class [Checksum] is what the log uses of it.
    - [Os]: the system calls the code makes.  A file is its durable contents and the writes
      not yet forced; a crash keeps any subset of those; every call may fail or be short
      according to a plan; the history of states is recorded for crash arguments.
    - [RedoLog]: [rfsck-lib/redo.h] and [redo.c], every function: [rfsck_open],
      [rfsck_txn_begin], [rfsck_txn_end], [rfsck_write], [rfsck_flush], [redo_mark_done],
      [rfsck_replay], [rfsck_close].  The global [redo_data] is a field of the state; a
      function is an element of the state monad [M], whose [None] is undefined behaviour.  The
      class [Heap] is the memory the code reads without having set it (what [malloc] leaves, the
      variable [retval] of [rfsck_txn_begin]) and the unused memory after the array
      [replay_blocks], which [rfsck_replay] overruns: past it the behaviour is undefined.
    - [RedoLayout], [RedoWriter], [RedoOps], [RedoReplay], [RedoSession], [RedoCrash]: the log
      as an abstract list of records ([entry]), the invariant [log_inv] that ties it to the
      bytes of the file, what each operation does to it, the replay of a sealed log, sessions
      of transactions, and the states a crash may leave.
    - [E2fsck]: the loop of passes of [rfsck-ext/e2fsck/e2fsck.c] and the calls to the log in
      [main] of [unix.c].  A pass is a parameter.
    - [RedoTheorems]: the properties of the log.  [RedoLimits]: where it does not do what it
      means to.
    - [ExtErr]: error codes.
    - [UnixIo]: the I/O channel [rfsck-ext/lib/ext2fs/unix_io.c], where a raw write goes to the
      log when it is enabled: raw transfers, the write-back cache of eight blocks, flush,
      close, byte writes.  [UnixIoProofs]: the cache is invisible.  [UnixIoLimits]: lost
      errors, and reads that do not see the log.
    - [Region]: the allocator of [rfsck-ext/e2fsck/region.c].
    - [EaRefcount]: the sorted table of [rfsck-ext/e2fsck/ea_refcount.c].
    - [Badblocks]: the sorted lists of blocks or inodes of [rfsck-ext/lib/ext2fs/badblocks.c].
    - [Bitops]: [rfsck-ext/lib/ext2fs/bitops.c].
    - [BitmapOps]: [struct ext2_bitmap_ops] of [bmap64.h] as the class [BitmapOps], and the
      class [BitmapLaws] of what an implementation promises; [BitmapExact] is what only bit
      arrays promise besides.
    - [BitArray], [BitArrayProofs]: the implementation of [blkmap64_ba.c] and the instance of
      the two classes.
    - [GenBitmap], [GenBitmapProofs]: 32-bit bitmaps ([gen_bitmap.c]) and the functions of
      [gen_bitmap64.c], proved against the class.  [BitmapTheorems]: the properties.
    - [Rbtree]: the red-black trees of [rbtree.c] and [rbtree.h], every function, on a memory of
      nodes that point to their children and their parent; [None] is the access to a null or
      dangling pointer.  [RbtreeProofs] (a tree at a position of a larger one, the frame of a
      rotation), [RbtreeBalance] and [RbtreeErase] (insertion and removal keep the colours and
      the black height), [RbtreeList]: each function as an operation on the list of the nodes in
      order, the interface its users are proved against.  [RbtreeTheorems]: the properties.
    - [RbBitmap]: the bitmaps of [blkmap64_rb.c], every operation: extents in memory, the write
      and the read cursor and the cached next extent; [Fault] is an access to freed memory.
      [RbBitmapProofs] (the invariant [St]: a tree, no memory lost, valid cursors),
      [RbExtents], [RbRemove], [RbOps], [RbRange]: what insertion, removal, the
      searches, copy and resize, and the transfer of ranges do to the set of numbers.
      [RbInstance]: the second instance of [BitmapLaws].  [RbTheorems]: the properties, and
      where trees differ from arrays.  [BitmapAgree]: the implementations answer alike.
    - [Icount], [IcountProofs], [IcountTheorems]: the inode counts of [icount.c], over the
      bitmap interface and the class [TdbOps] of the database operations, which may fail (with
      [TdbLaws]).
    - [BlkNum], [BlkNumProofs]: [blknum.c] and [i_block.c]: counters split into halves, the
      table of group descriptors as bytes, group geometry, sizes and block counts of inodes.
    - [Crc16]: [crc16.c].  [Csum]: [csum.c], the checksums of metadata, over the raw bytes of each
      structure, and the record lengths of [dir_iterate.c].  [CsumProofs], [CsumTheorems] (one
      family of objects, [cobj], for all blocks and inodes), [CsumGroup] (group descriptors and
      bitmaps): the properties.
    - [Alloc]: [alloc_stats.c], the searches and allocations of [alloc.c], and
      [ext2fs_set_gdt_csum], over the bitmap interface: the record [alloc_fs] adds the inode
      counters and the two bitmaps to the superblock and the descriptors; new blocks are cleared
      over the class [BlockIo] of a channel, with the buffer of the caller or by
      [ext2fs_zero_blocks2] of [mkjournal.c].  [AllocProofs] (blocks:
      [blocks_ok], [blocks_counted]), [AllocInodes] (inodes: [inodes_ok], [inodes_counted]),
      [AllocGdt], [AllocSearch], [AllocNewInode], [AllocNewRange]: the properties;
      [AllocWitness]: a small file system they are applied to.
    - [Extent]: the extent trees of [extent.c]: opening, every move of [ext2fs_extent_get], the
      search, and every change with its splits, over the bytes of the nodes; the class
      [ExtentEnv] is the device, the inode and the allocator, and [Xundef] the access to a
      null pointer.  [ExtentProofs] (the leaves of a tree as a list, moves as a walk over it),
      [ExtentTheorems] (the search): the properties of reading.  [ExtentInode] (a node as a list
      of extents, each change at a position of that list), [ExtentSetBmap] (extents as a map,
      each case of a change): the property of changing a tree inside the inode.
      [ExtentLimits]: trees of one and two levels they are applied to, and where walks and
      changes go wrong.
    - [Dirhash]: the hashes of directory entries of [dirhash.c], a reference for them, and their
      properties.
    - [Jbd]: the on-disk format and the data of the journal ([kernel-jbd.h], [jfs_compat.h],
      [jfs_user.h]): big-endian fields at their offsets, features, transaction identifiers
      modulo 2^32, buffers, the journal in memory.
    - [Revoke]: the user-space part of [e2fsck/revoke.c], a hash table of revoked blocks.
      [Crc32Be]: the CRC-32 of transactions ([crc32c.c], [gen_crc32ctable.c]).
    - [Buffer]: the buffer functions of [e2fsck/journal.c] over an I/O channel, which is the
      class [IoChannel] with its laws [IoLaws]; the monad [J] of the journal code, whose results
      are a value ([Done]), undefined behaviour ([Undef]) or a loop that has not ended yet
      ([OutOfFuel]); a channel in memory with plans of read and write errors.
    - [Recovery]: [e2fsck/recovery.c], every function that is compiled in user space.
      [RecoverySpec]: what a log on disk says ([log_at], a list of transactions and a torn
      tail) and what recovery must make of it ([spec_replay]).  [RecoveryProofs]: each pass on
      such a log.
    - [Journal]: the rest of [e2fsck/journal.c]: the journal inode, loading, checking, resetting
      and releasing the journal, recovery and the run around it.  Answers to questions are an
      arbitrary function of the questions asked so far.  [JournalProofs], [JournalTheorems],
      [JournalUnix] (the channel of [UnixIo] keeps the laws), [JournalCheck]: the properties;
      [JournalLimits]: where recovery does not do what it means to, and the witnesses.

    ** What the theorems show

    - The log: a run whose passes return leaves exactly the writes of its transactions on the
      device, durably ([main_repairs]); a crash at any point leaves a log that replay either
      rejects without a change or applies in full ([session_crash_atomic]); replay applies
      exactly the committed transactions of a sealed log ([replay_applies_committed]); each
      operation keeps the invariant, and its error paths are described.  These hold without I/O
      errors, for sessions in which no
      transaction's end record takes the last slot of a key block and the log is replayed once
      ([session_ok], [scan_ok]), and in memory that happens to suit the program ([lucky]: the
      uninitialised [retval] is 0 and the array [replay_blocks] has unused memory after it).
      [RedoLimits] shows that the restrictions are the code's: [boundary_txn_corrupted],
      [interrupted_replay_corrupts], [replay_overruns_heap], [txn_begin_uninitialised],
      [txn_end_flush_ignored].
    - The checksum: the table-driven CRC is the bit-at-a-time one, and finds every error burst
      of four bytes.
    - The channel: with redo mode off and no faults, reads, writes and byte writes through the
      cache are those of a plain device; a flush that returns 0 has left everything on the
      device, whatever fails, and one that does not loses nothing ([unix_flush_correct]).
    - Bitmaps: every operation is that of a set, at cluster granularity, for any implementation
      that keeps the laws; the bit array keeps them, with its searches by bytes and words and
      its masked comparisons proved equal to bit-by-bit ones.
    - Red-black trees: insertion and removal keep the tree and its order and never follow a null
      pointer ([rb_insert_spec], [rb_erase_spec]); a search visits at most [2 log2 (n + 1)] nodes
      ([search_logarithmic]).  The bitmaps on them answer any history of legal operations as a set
      does (unmarking a number before a marked one apart), whatever the cursors hold, pass the code's own check and lose no memory
      ([rb_refines_set]); what is stored from a buffer is read back ([rb_range_roundtrip]); behind
      the generic functions trees and arrays cannot be told apart ([implementations_agree]), but
      for what unmark returns and for the search for a clear number in an empty set.
    - Counters and descriptors read back as stored and do not disturb each other; the groups
      partition the blocks.
    - Metadata checksums: what an update stores verifies ([csum_set_verify],
      [group_csum_roundtrip], [bitmap_csum_roundtrip]), damage within four bytes is found
      ([csum_detects_damage]), and blocks and inodes are bound to their numbers
      ([csum_binds_place], for inodes of the same generation); the CRC-16 table is the bit-at-a-time CRC.
    - Allocation: the counters of groups and superblock are the numbers of clear bits, and every
      update keeps them so ([block_stats_counts], [inode_stats_counts],
      [block_stats_range_counts]); the searches end, return what is free and miss nothing
      ([new_block_spec], [alloc_block_spec], [new_inode_spec], [get_free_blocks_spec],
      [alloc_range_spec]), new blocks are full of zeros and no other block is written, and an inode
      is freed only in a group flagged uninitialised; except that the search for a run may go round for ever, in the cases
      [new_range_spec] and [get_free_blocks_for_ever] describe.  These are proved for bitmaps with
      [BitmapExact], which bit arrays have; in an empty tree the search for a clear number fails.
    - Extent trees: a walk visits every leaf once and in order ([walk_visits_all]); a search from
      any position finds the leaf that maps a block, and reports rightly that there is none
      ([goto_finds]); setting the mapping of a block in a tree inside the inode is the update of
      a map, in each of the cases the code distinguishes ([set_bmap_updates_map]).  A walk that goes on after a search, and a change that moves a block to
      another node, may go wrong ([next_leaf_after_goto], [set_bmap_across_nodes]).
    - Directory hashes: each is the hash its specification describes, MD4 and TEA included
      ([dirhash_reference]); for names of ASCII characters the signed and the unsigned version
      agree ([dirhash_ascii]).
    - The region allocator, the lists of blocks, the reference counts and the inode counts
      refine sets and maps ([region_allocate_spec], [u32_list_refines_set],
      [refcount_refines_map], [icount_refines_map]), with what failures of memory and of the
      database leave; the full map of inode counts has no room for the last inode.
    - The journal: recovery implements its specification on every log of committed transactions
      with a torn tail, whatever the features ([journal_recover_correct]); it may be interrupted
      between any two of its writes, with any of them lost, and run again
      ([interrupted_recovery]); through the write-back cache of a channel without the redo log the
      result is on the device ([journal_recover_device]); run by the checker it empties the journal
      ([recover_ext3_journal_correct]).  The revoke table refines a map; a journal that is loaded
      is well formed (but its log may start outside it, [load_accepts_bad_start]); the questions about a missing journal end unless the user never decides.
      The limits: a log that makes the scan run for ever, errors that are dropped, blocks that
      are overwritten, and recovery under the redo log, which never takes.

    ** Bounds and fuel

    Loops of the code are fixpoints on the number of turns the code can make (the length of an
    array, a counter, the distance to an alignment boundary), so fuel never ends a loop early;
    the lemma of each loop states the bound it needs.  Replay is bounded by the number of key
    blocks, the retry of [get_refcount_el] by one, since the table is not full after the first.
    Loops over the nodes of a red-black tree take as much fuel as there are nodes in memory.
    The passes over the journal have no bound in the code ([scan_never_ends]), nor have the
    questions of [no_has_journal]: they take fuel and say [OutOfFuel] when it is gone, and the
    theorems state from how much fuel on the result is there.  So do the searches for runs of
    blocks, which return after [2 * blocks + 2] turns or never.  A search in an extent tree takes a turn
    for each entry it passes, and a step of a walk at most two turns for each level.
    Sizes and offsets are unbounded integers kept inside their width by hypotheses such as
    [fits] where the code does not check, and wrapped ([u32], [u64], [s32]) where it computes.

    ** What is not modelled

    Diagnostics (printf, [com_err]), the release of memory, statistics, device opening and
    ioctls; the checker's passes; the database (tdb) of the ext library; the superblock of an external journal, and
    the moving of the journal inode ([e2fsck_move_ext3_journal], [e2fsck_fix_ext3_journal_hint]);
    the XFS port apart from the check its copy of the log leaves out; the tools, libraries and
    tests beside the checker.  The inode and the block map of the journal are parameters, and so are the
    callbacks the allocation functions make.  Of [mkjournal.c] only the clearing of blocks is modelled.  Of extent trees, the splitting of nodes and changes
    of deeper trees are modelled and run on examples, but not proved. *)
From Stdlib Require Import ZArith Lia.
From stdpp Require Import base tactics numbers list gmap.

#[global] Open Scope Z_scope.

(** * Machine integers *)

Definition u8 (z : Z) : Z := z mod 2 ^ 8.
Definition u16 (z : Z) : Z := z mod 2 ^ 16.
Definition u32 (z : Z) : Z := z mod 2 ^ 32.
Definition u64 (z : Z) : Z := z mod 2 ^ 64.
Definition s32 (z : Z) : Z := (z + 2 ^ 31) mod 2 ^ 32 - 2 ^ 31.
Definition s64 (z : Z) : Z := (z + 2 ^ 63) mod 2 ^ 64 - 2 ^ 63.

(** [in_u w z]: [z] is representable as an unsigned [w]-bit integer. *)
Definition in_u (w z : Z) : Prop := 0 <= z < 2 ^ w.

Create HintDb machine.
Create Rewrite HintDb machine.

Ltac pow2_norm :=
  change (2 ^ 8) with 256 in *; change (2 ^ 16) with 65536 in *;
  change (2 ^ 31) with 2147483648 in *; change (2 ^ 32) with 4294967296 in *;
  change (2 ^ 63) with 9223372036854775808 in *;
  change (2 ^ 64) with 18446744073709551616 in *.

(** Linear arithmetic over the wrapping conversions. *)
Ltac mlia :=
  unfold in_u, u8, u16, u32, u64, s32, s64 in *; pow2_norm;
  try Z.div_mod_to_equations; lia.

Lemma u32_small z : in_u 32 z -> u32 z = z.
Proof. unfold in_u, u32. apply Z.mod_small. Qed.

Lemma u64_small z : in_u 64 z -> u64 z = z.
Proof. unfold in_u, u64. apply Z.mod_small. Qed.

Lemma s32_small z : - 2 ^ 31 <= z < 2 ^ 31 -> s32 z = z.
Proof. intros. unfold s32. rewrite Z.mod_small; pow2_norm; lia. Qed.

Lemma u32_range z : in_u 32 (u32 z).
Proof. unfold in_u, u32. apply Z.mod_pos_bound. lia. Qed.

Lemma u64_range z : in_u 64 (u64 z).
Proof. unfold in_u, u64. apply Z.mod_pos_bound. lia. Qed.

Lemma u32_s32 z : u32 (s32 z) = u32 z.
Proof. mlia. Qed.

Lemma s32_u32 z : s32 (u32 z) = s32 z.
Proof. mlia. Qed.

#[export] Hint Resolve u32_range u64_range : machine.
#[export] Hint Rewrite u32_s32 s32_u32 : machine.

(** Bit-level reasoning on unsigned values. *)
Lemma in_u_testbit w z i : 0 <= w -> in_u w z -> w <= i -> Z.testbit z i = false.
Proof.
  intros Hw [H0 H1] Hi. destruct (decide (z = 0)) as [->|Hz]; [apply Z.bits_0|].
  apply Z.bits_above_log2; [lia|].
  assert (Z.log2 z < w) by (apply Z.log2_lt_pow2; lia). lia.
Qed.

Lemma in_u_of_testbit w z :
  0 <= w -> 0 <= z -> (forall i, w <= i -> Z.testbit z i = false) -> in_u w z.
Proof.
  intros Hw H0 H. split; [done|].
  destruct (decide (z = 0)) as [->|Hz]; [apply Z.pow_pos_nonneg; lia|].
  apply Z.log2_lt_pow2; [lia|].
  destruct (decide (Z.log2 z < w)) as [|Hge]; [done|].
  assert (Hb := Z.bit_log2 z ltac:(lia)). rewrite H in Hb; [done|lia].
Qed.

Lemma lxor_in_u w a b : 0 <= w -> in_u w a -> in_u w b -> in_u w (Z.lxor a b).
Proof.
  intros Hw Ha Hb. apply in_u_of_testbit; [done| |].
  - apply Z.lxor_nonneg. unfold in_u in *. lia.
  - intros i Hi. by rewrite Z.lxor_spec, !(in_u_testbit w) by done.
Qed.

Lemma shiftr_in_u w a n : 0 <= w -> 0 <= n -> in_u w a -> in_u w (Z.shiftr a n).
Proof.
  intros Hw Hn Ha. apply in_u_of_testbit; [done| |].
  - apply Z.shiftr_nonneg. unfold in_u in *. lia.
  - intros i Hi. rewrite Z.shiftr_spec by lia. apply (in_u_testbit w); auto with lia.
Qed.

Lemma land_in_u w a b : 0 <= w -> 0 <= a -> in_u w b -> in_u w (Z.land a b).
Proof.
  intros Hw Ha Hb. apply in_u_of_testbit; [done| |].
  - apply Z.land_nonneg. lia.
  - intros i Hi. by rewrite Z.land_spec, (in_u_testbit w b), andb_false_r by done.
Qed.

(** * Little-endian encoding of a [w]-byte unsigned integer *)

Fixpoint le_bytes (n : nat) (z : Z) : list Z :=
  match n with
  | O => []
  | S n' => z mod 256 :: le_bytes n' (z / 256)
  end.

Fixpoint le_val (l : list Z) : Z :=
  match l with
  | [] => 0
  | b :: l' => b mod 256 + 256 * le_val l'
  end.

Lemma length_le_bytes n z : length (le_bytes n z) = n.
Proof. revert z. induction n as [|n IH]; intros z; simpl; [done|]. by rewrite IH. Qed.

Lemma le_val_bytes n z : le_val (le_bytes n z) = z mod 2 ^ (8 * Z.of_nat n).
Proof.
  revert z. induction n as [|n IH]; intros z; cbn [le_bytes le_val].
  - by rewrite Z.mod_1_r.
  - rewrite IH, Z.mod_mod by lia.
    replace (8 * Z.of_nat (S n)) with (8 + 8 * Z.of_nat n) by lia.
    rewrite Z.pow_add_r by lia. change (2 ^ 8) with 256.
    rewrite (Z.rem_mul_r z 256) by lia. lia.
Qed.

Lemma le_val_bytes_small n z :
  0 <= z < 2 ^ (8 * Z.of_nat n) -> le_val (le_bytes n z) = z.
Proof. intros. rewrite le_val_bytes. by apply Z.mod_small. Qed.

Lemma le_val_range l : 0 <= le_val l < 2 ^ (8 * Z.of_nat (length l)).
Proof.
  induction l as [|b l IH]; cbn [le_val length]; [done|].
  replace (8 * Z.of_nat (S (length l))) with (8 + 8 * Z.of_nat (length l)) by lia.
  rewrite Z.pow_add_r by lia. change (2 ^ 8) with 256.
  pose proof (Z.mod_pos_bound b 256). lia.
Qed.

Lemma le_bytes_range n z : Forall (in_u 8) (le_bytes n z).
Proof.
  revert z. induction n as [|n IH]; intros z; simpl; constructor; [|done].
  unfold in_u. apply Z.mod_pos_bound. lia.
Qed.

Lemma le_val_inj l1 l2 :
  Forall (in_u 8) l1 -> Forall (in_u 8) l2 -> length l1 = length l2 ->
  le_val l1 = le_val l2 -> l1 = l2.
Proof.
  intros H1. revert l2. induction H1 as [|b1 l1 Hb1 H1 IH]; intros [|b2 l2] H2 HL H; try done.
  apply Forall_cons in H2 as [Hb2 H2]. cbn [le_val] in H. unfold in_u in Hb1, Hb2.
  rewrite !Z.mod_small in H by (pow2_norm; lia). pow2_norm.
  injection HL as HL. f_equal; [lia|]. apply IH; [done..|]. lia.
Qed.

#[export] Hint Resolve le_bytes_range : machine.
#[export] Hint Rewrite length_le_bytes : machine.

(** * Byte ranges of a file

    A file is the list of its bytes.  [slice off n l] is what [pread] of [n]
    bytes at [off] returns (short at end of file); [splice off d l] is the
    contents after a [pwrite] of [d] at [off]: a write past the end leaves a
    hole of zero bytes. *)

Definition slice (off n : nat) (l : list Z) : list Z := take n (drop off l).

Definition splice (off : nat) (d l : list Z) : list Z :=
  take off l ++ replicate (off - length l) 0 ++ d ++ drop (off + length d) l.

Lemma length_slice off n l : length (slice off n l) = (n `min` (length l - off))%nat.
Proof. unfold slice. by rewrite length_take, length_drop. Qed.

Lemma length_splice off d l :
  length (splice off d l) = (length l `max` (off + length d))%nat.
Proof.
  unfold splice. rewrite !length_app, length_take, length_replicate, length_drop. lia.
Qed.

Lemma lookup_slice off n l i :
  slice off n l !! i = if decide (i < n)%nat then l !! (off + i)%nat else None.
Proof.
  unfold slice. case_decide.
  - by rewrite lookup_take_lt, lookup_drop by done.
  - by rewrite lookup_take_ge by lia.
Qed.

Lemma lookup_splice off d l i :
  splice off d l !! i =
    if decide (i < off)%nat then
      (if decide (i < length l)%nat then l !! i else Some 0)
    else if decide (i < off + length d)%nat then d !! (i - off)%nat
    else l !! i.
Proof.
  unfold splice. destruct (decide (i < off)%nat) as [Hi|Hi].
  - destruct (decide (i < length l)%nat) as [Hl|Hl].
    + by rewrite lookup_app_l, lookup_take_lt by (rewrite ?length_take; lia).
    + rewrite lookup_app_r by (rewrite length_take; lia).
      rewrite lookup_app_l by (rewrite length_replicate, length_take; lia).
      rewrite lookup_replicate_2; [done|rewrite length_take; lia].
  - rewrite lookup_app_r by (rewrite length_take; lia).
    rewrite lookup_app_r by (rewrite length_replicate, length_take; lia).
    rewrite length_take, length_replicate.
    destruct (decide (i < off + length d)%nat) as [Hd|Hd].
    + rewrite lookup_app_l by lia. f_equal. lia.
    + rewrite lookup_app_r, lookup_drop by lia. f_equal. lia.
Qed.

(** Reading back what was written. *)
Lemma slice_splice_eq off d l : slice off (length d) (splice off d l) = d.
Proof.
  apply list_eq. intros i. rewrite lookup_slice. case_decide.
  - rewrite lookup_splice, decide_False, decide_True by lia. f_equal. lia.
  - by rewrite lookup_ge_None_2 by lia.
Qed.

(** A write does not disturb a disjoint range that was already in the file. *)
Lemma slice_splice_disjoint off d l o n :
  (o + n <= length l)%nat -> (o + n <= off \/ off + length d <= o)%nat ->
  slice o n (splice off d l) = slice o n l.
Proof.
  intros Hl Hd. apply list_eq. intros i. rewrite !lookup_slice. case_decide; [|done].
  rewrite lookup_splice. repeat case_decide; try done; lia.
Qed.

Lemma slice_slice a n b m l :
  (b + m <= n)%nat -> slice b m (slice a n l) = slice (a + b) m l.
Proof.
  intros. apply list_eq. intros i. rewrite !lookup_slice. case_decide; [|done].
  rewrite decide_True by lia. f_equal. lia.
Qed.

Lemma slice_app_l o n l1 l2 :
  (o + n <= length l1)%nat -> slice o n (l1 ++ l2) = slice o n l1.
Proof.
  intros. apply list_eq. intros i. rewrite !lookup_slice. case_decide; [|done].
  by rewrite lookup_app_l by lia.
Qed.

Lemma slice_app_r o n l1 l2 :
  (length l1 <= o)%nat -> slice o n (l1 ++ l2) = slice (o - length l1) n l2.
Proof.
  intros. apply list_eq. intros i. rewrite !lookup_slice. case_decide; [|done].
  rewrite lookup_app_r by lia. f_equal. lia.
Qed.

Lemma slice_full l : slice 0 (length l) l = l.
Proof. unfold slice. by rewrite drop_0, firstn_all. Qed.

Lemma splice_nil_in off l : (off <= length l)%nat -> splice off [] l = l.
Proof.
  intros. unfold splice. replace (off - length l)%nat with 0%nat by lia.
  simpl. rewrite Nat.add_0_r. apply take_drop.
Qed.

Lemma splice_splice_same off d1 d2 l :
  length d1 = length d2 -> splice off d2 (splice off d1 l) = splice off d2 l.
Proof.
  intros Hd. apply list_eq. intros i. rewrite !lookup_splice, length_splice.
  repeat case_decide; try done; try lia.
Qed.

Lemma splice_comm off1 d1 off2 d2 l :
  (off1 + length d1 <= off2 \/ off2 + length d2 <= off1)%nat ->
  (off1 + length d1 <= length l)%nat -> (off2 + length d2 <= length l)%nat ->
  splice off1 d1 (splice off2 d2 l) = splice off2 d2 (splice off1 d1 l).
Proof.
  intros. apply list_eq. intros i. rewrite !lookup_splice, !length_splice.
  repeat case_decide; try done; try lia.
Qed.

#[export] Hint Rewrite length_slice length_splice : machine.

(** The same with offsets and sizes as integers, the way the code has them. *)
Definition zlen (l : list Z) : Z := Z.of_nat (length l).
Definition zslice (off n : Z) (l : list Z) : list Z := slice (Z.to_nat off) (Z.to_nat n) l.
Definition zsplice (off : Z) (d l : list Z) : list Z := splice (Z.to_nat off) d l.

Lemma splice_z off d l : splice off d l = zsplice (Z.of_nat off) d l.
Proof. unfold zsplice. by rewrite Nat2Z.id. Qed.

Lemma zlen_nonneg l : 0 <= zlen l.
Proof. unfold zlen. lia. Qed.

Lemma zlen_app l1 l2 : zlen (l1 ++ l2) = zlen l1 + zlen l2.
Proof. unfold zlen. rewrite length_app. lia. Qed.

Lemma zlen_splice off d l : 0 <= off -> zlen (zsplice off d l) = zlen l `max` (off + zlen d).
Proof. intros. unfold zlen, zsplice. rewrite length_splice. lia. Qed.

(** A full-length slice lies inside the file. *)
Lemma zslice_inside o n d l : zslice o n l = d -> zlen d = n -> 0 < n -> 0 <= o -> o + n <= zlen l.
Proof.
  intros <-. unfold zlen, zslice. rewrite length_slice. lia.
Qed.

Lemma zslice_zsplice_eq off n d l : zlen d = n -> zslice off n (zsplice off d l) = d.
Proof.
  intros <-. unfold zslice, zsplice, zlen. rewrite Nat2Z.id. apply slice_splice_eq.
Qed.

Lemma zslice_zsplice_disjoint off d l o n :
  0 <= off -> 0 <= o -> o + n <= zlen l -> o + n <= off \/ off + zlen d <= o ->
  zslice o n (zsplice off d l) = zslice o n l.
Proof.
  unfold zslice, zsplice, zlen. intros. destruct (decide (n <= 0)).
  - replace (Z.to_nat n) with 0%nat by lia. done.
  - apply slice_splice_disjoint; lia.
Qed.

Lemma zslice_0 o l : zslice o 0 l = [].
Proof. reflexivity. Qed.

Lemma zslice_all n l : zlen l = n -> zslice 0 n l = l.
Proof. intros <-. unfold zslice, zlen. rewrite Nat2Z.id. apply slice_full. Qed.

Lemma take_zlen l n : zlen l <= n -> take (Z.to_nat n) l = l.
Proof. unfold zlen. intros. apply take_ge. lia. Qed.

(** Byte-wise views of [zslice] and [zsplice]. *)
Lemma lookup_zslice o n l (x : nat) :
  0 <= o -> o <= Z.of_nat x < o + n -> zslice o n l !! (x - Z.to_nat o)%nat = l !! x.
Proof.
  intros Ho Hx. unfold zslice. rewrite lookup_slice, decide_True by lia. f_equal. lia.
Qed.

Lemma zslice_ext o n l1 l2 :
  0 <= o -> (forall x : nat, o <= Z.of_nat x < o + n -> l1 !! x = l2 !! x) ->
  zslice o n l1 = zslice o n l2.
Proof.
  intros Ho Hx. apply list_eq. intros i. destruct (decide (Z.of_nat i < n)) as [Hi|Hi].
  - unfold zslice. rewrite !lookup_slice, !decide_True by lia. apply Hx. lia.
  - unfold zslice. by rewrite !lookup_slice, !decide_False by lia.
Qed.

Lemma zslice_agree o n l1 l2 (x : nat) :
  0 <= o -> zslice o n l1 = zslice o n l2 -> o <= Z.of_nat x < o + n -> l1 !! x = l2 !! x.
Proof.
  intros Ho Heq Hx. rewrite <- (lookup_zslice o n l1 x), <- (lookup_zslice o n l2 x) by done.
  by rewrite Heq.
Qed.

Lemma lookup_zsplice_out off d l (x : nat) :
  0 <= off -> (Z.of_nat x < off \/ off + zlen d <= Z.of_nat x) -> Z.of_nat x < zlen l \/ off + zlen d <= zlen l ->
  zsplice off d l !! x = l !! x.
Proof.
  intros Ho Hx Hl. unfold zsplice, zlen in *. rewrite lookup_splice.
  repeat case_decide; try done; lia.
Qed.

Lemma zlen_zslice o n l : 0 <= o -> 0 <= n -> o + n <= zlen l -> zlen (zslice o n l) = n.
Proof. intros. unfold zlen, zslice in *. rewrite length_slice. lia. Qed.

Lemma zslice_split o n m l :
  0 <= o -> 0 <= n -> 0 <= m -> zslice o (n + m) l = zslice o n l ++ zslice (o + n) m l.
Proof.
  intros. unfold zslice, slice. rewrite !Z2Nat.inj_add by lia.
  by rewrite <- take_take_drop, drop_drop.
Qed.

Lemma zslice_app o n m l : 
  0 <= o -> 0 <= n -> 0 <= m -> o + n <= zlen l ->
  take (Z.to_nat n) (zslice o (n + m) l) = zslice o n l /\
  drop (Z.to_nat n) (zslice o (n + m) l) = zslice (o + n) m l.
Proof.
  intros Ho Hn Hm Hl. rewrite zslice_split by lia.
  assert (length (zslice o n l) = Z.to_nat n) by (pose proof (zlen_zslice o n l); unfold zlen in *; lia).
  by rewrite take_app_length', drop_app_length'.
Qed.

Lemma zsplice_nil o l : 0 <= o -> o <= zlen l -> zsplice o [] l = l.
Proof. intros. unfold zsplice. apply splice_nil_in. unfold zlen in *. lia. Qed.

(** Two adjacent writes are one. *)
Lemma zsplice_app o d1 d2 l :
  0 <= o -> zsplice (o + zlen d1) d2 (zsplice o d1 l) = zsplice o (d1 ++ d2) l.
Proof.
  intros Ho. unfold zsplice, zlen. rewrite Z2Nat.inj_add, Nat2Z.id by lia.
  apply list_eq. intros i. rewrite !lookup_splice, length_app, length_splice.
  repeat case_decide; try lia; try done.
  - by rewrite lookup_app_l by lia.
  - rewrite lookup_app_r by lia. f_equal. lia.
Qed.

#[global] Opaque zslice zsplice.
