(* ===== verification/Crc32c.v ===== *)
(** CRC-32C, the checksum of the redo log.

    Models [rfsck-ext/lib/ext2fs/crc32c.c] (the slicing-by-8 routine
    [crc32_body] behind [ext2fs_crc32c_le]) and the table generator
    [gen_crc32ctable.c].  The bit-at-a-time branch of [crc32_le_generic] is the
    reference the optimised routine is proved equal to, for every alignment of
    the buffer.  [Checksum] is the interface the redo log uses: the ext and xfs
    copies of the log call two different implementations. *)
From Stdlib Require Import ZArith Lia.
From stdpp Require Import base tactics numbers list.
From S2P Require Import Prelude.

(** * The bit-at-a-time reference *)

(** [CRC32C_POLY_LE] *)
Definition CRC32C_POLY_LE : Z := 0x82F63B78.

(** One step of the shift register: [(crc >> 1) ^ ((crc & 1) ? polynomial : 0)]. *)
Definition crc_bit (crc : Z) : Z :=
  Z.lxor (Z.shiftr crc 1) (if Z.testbit crc 0 then CRC32C_POLY_LE else 0).

(** The register after eight zero bits. *)
Definition crc_byte0 (crc : Z) : Z := Nat.iter 8 crc_bit crc.

(** The [CRC_LE_BITS == 1] branch of [crc32_le_generic]. *)
Definition crc32_le_bitwise (crc : Z) (p : list Z) : Z :=
  foldl (fun c b => crc_byte0 (Z.lxor c b)) crc p.

(** * Table generation ([gen_crc32ctable.c]) *)

(** The inner loop [for (j = 0; j < LE_TABLE_SIZE; j += 2 * i)]. *)
Fixpoint init_row0_inner (fuel : nat) (i j : nat) (crc : Z) (t : list Z) : list Z :=
  match fuel with
  | O => t
  | S fuel' =>
      if decide (j < 256)%nat then
        init_row0_inner fuel' i (j + 2 * i) crc (<[(i + j)%nat := Z.lxor crc (t !!! j)]> t)
      else t
  end.

(** The outer loop [for (i = LE_TABLE_SIZE >> 1; i; i >>= 1)]. *)
Fixpoint init_row0 (fuel : nat) (i : nat) (crc : Z) (t : list Z) : list Z :=
  match fuel with
  | O => t
  | S fuel' =>
      if decide (i = 0)%nat then t
      else
        let crc := crc_bit crc in
        init_row0 fuel' (i / 2) crc (init_row0_inner 256 i 0 crc t)
  end.

(** One entry of row [j] from the same entry of row [j - 1]:
    [crc = crc32ctable_le[0][crc & 0xff] ^ (crc >> 8)]. *)
Definition init_next (row0 : list Z) (crc : Z) : Z :=
  Z.lxor (row0 !!! Z.to_nat (Z.land crc 255)) (Z.shiftr crc 8).

Fixpoint init_rows (row0 row : list Z) (n : nat) : list (list Z) :=
  match n with
  | O => []
  | S n' => row :: init_rows row0 (init_next row0 <$> row) n'
  end.

(** [crc32cinit_le]: the [LE_TABLE_ROWS] = 8 rows. *)
Definition crc32cinit_le : list (list Z) :=
  let row0 := init_row0 9 128 1 (replicate 256 0) in
  init_rows row0 row0 8.

(** The generated header [crc32c_table.h] holds the evaluated table. *)
Definition crc32ctable_le : list (list Z) := Eval vm_compute in crc32cinit_le.

(** * Slicing-by-8 ([crc32_body]) *)

Definition tab (t : list (list Z)) (row : nat) (q : Z) : Z :=
  (t !!! row) !!! Z.to_nat (Z.land q 255).

(** [DO_CRC(x)]: [t0[(crc ^ (x)) & 255] ^ (crc >> 8)] *)
Definition DO_CRC (t : list (list Z)) (crc x : Z) : Z :=
  Z.lxor (tab t 0 (Z.lxor crc x)) (Z.shiftr crc 8).

(** [DO_CRC4] and [DO_CRC8] *)
Definition DO_CRC4 (t : list (list Z)) (q : Z) : Z :=
  Z.lxor (Z.lxor (Z.lxor (tab t 3 q) (tab t 2 (Z.shiftr q 8)))
                 (tab t 1 (Z.shiftr q 16)))
         (tab t 0 (Z.shiftr q 24)).

Definition DO_CRC8 (t : list (list Z)) (q : Z) : Z :=
  Z.lxor (Z.lxor (Z.lxor (tab t 7 q) (tab t 6 (Z.shiftr q 8)))
                 (tab t 5 (Z.shiftr q 16)))
         (tab t 4 (Z.shiftr q 24)).

(** The alignment loop: one byte at a time until the address is a multiple of
    four or the buffer is exhausted. *)
Fixpoint crc32_align (t : list (list Z)) (addr : Z) (crc : Z) (buf : list Z) : Z * list Z :=
  match buf with
  | [] => (crc, [])
  | x :: buf' =>
      if decide (Z.land addr 3 = 0) then (crc, buf)
      else crc32_align t (addr + 1) (DO_CRC t crc x) buf'
  end.

(** The main loop: [len] double words. *)
Fixpoint crc32_words (t : list (list Z)) (len : nat) (crc : Z) (buf : list Z) : Z * list Z :=
  match len with
  | O => (crc, buf)
  | S len' =>
      let q := Z.lxor crc (le_val (take 4 buf)) in
      let crc := DO_CRC8 t q in
      let q := le_val (take 4 (drop 4 buf)) in
      crc32_words t len' (Z.lxor crc (DO_CRC4 t q)) (drop 8 buf)
  end.

(** [crc32_body]; [addr] is the address of the buffer. *)
Definition crc32_body (addr crc : Z) (buf : list Z) (t : list (list Z)) : Z :=
  let '(crc, buf) := crc32_align t addr crc buf in
  let len := (length buf / 8)%nat in
  let '(crc, buf) := crc32_words t len crc buf in
  foldl (DO_CRC t) crc buf.

(** [crc32_le_generic] as compiled ([CRC_LE_BITS == 64], little endian). *)
Definition crc32_le_generic (addr crc : Z) (p : list Z) (t : list (list Z)) : Z :=
  crc32_body addr crc p t.

Definition ext2fs_crc32c_le (addr crc : Z) (p : list Z) : Z :=
  crc32_le_generic addr crc p crc32ctable_le.

(** * The interface of the redo log *)

Class Checksum := {
  crc32c_le : Z -> list Z -> Z;
  crc32c_le_range crc p : in_u 32 crc -> Forall (in_u 8) p -> in_u 32 (crc32c_le crc p)
}.

(** The seed [~0] converted to [uint32_t]. *)
Definition crc_seed : Z := 2 ^ 32 - 1.

(** * Algebra of the shift register *)

Lemma crc_bit_lxor a b : crc_bit (Z.lxor a b) = Z.lxor (crc_bit a) (crc_bit b).
Proof.
  unfold crc_bit. rewrite Z.lxor_spec, Z.shiftr_lxor.
  destruct (Z.testbit a 0), (Z.testbit b 0); cbn [xorb]; rewrite ?Z.lxor_0_r.
  - replace (Z.lxor (Z.lxor (Z.shiftr a 1) CRC32C_POLY_LE)
                    (Z.lxor (Z.shiftr b 1) CRC32C_POLY_LE))
      with (Z.lxor (Z.lxor (Z.shiftr a 1) (Z.shiftr b 1))
                   (Z.lxor CRC32C_POLY_LE CRC32C_POLY_LE)).
    + by rewrite Z.lxor_nilpotent, Z.lxor_0_r.
    + rewrite !Z.lxor_assoc. f_equal. rewrite <- !Z.lxor_assoc. f_equal. apply Z.lxor_comm.
  - rewrite !Z.lxor_assoc. f_equal. apply Z.lxor_comm.
  - by rewrite !Z.lxor_assoc.
  - done.
Qed.

Lemma iter_crc_bit_lxor n a b :
  Nat.iter n crc_bit (Z.lxor a b) = Z.lxor (Nat.iter n crc_bit a) (Nat.iter n crc_bit b).
Proof. induction n as [|n IH]; simpl; [done|]. by rewrite IH, crc_bit_lxor. Qed.

Lemma crc_bit_range c : in_u 32 c -> in_u 32 (crc_bit c).
Proof.
  intros H. unfold crc_bit. apply lxor_in_u; [lia|by apply shiftr_in_u|].
  unfold CRC32C_POLY_LE. destruct (Z.testbit c 0); unfold in_u; lia.
Qed.

Lemma iter_crc_bit_range n c : in_u 32 c -> in_u 32 (Nat.iter n crc_bit c).
Proof. induction n; simpl; auto using crc_bit_range. Qed.

(** The top bit of the next state is the bit shifted out: the step is reversible. *)
Lemma crc_bit_top c : in_u 32 c -> Z.testbit (crc_bit c) 31 = Z.testbit c 0.
Proof.
  intros H. unfold crc_bit. rewrite Z.lxor_spec, Z.shiftr_spec by lia.
  change (31 + 1) with 32. rewrite (in_u_testbit 32 c 32) by (auto; lia).
  by destruct (Z.testbit c 0).
Qed.

Lemma lxor_cancel_r a b c : Z.lxor a c = Z.lxor b c -> a = b.
Proof.
  intros H. rewrite <- (Z.lxor_0_r a), <- (Z.lxor_0_r b), <- (Z.lxor_nilpotent c).
  by rewrite <- !Z.lxor_assoc, H.
Qed.

Lemma crc_bit_inj a b : in_u 32 a -> in_u 32 b -> crc_bit a = crc_bit b -> a = b.
Proof.
  intros Ha Hb H.
  assert (H0 : Z.testbit a 0 = Z.testbit b 0) by (rewrite <- !crc_bit_top by done; by rewrite H).
  unfold crc_bit in H. rewrite H0 in H. apply lxor_cancel_r in H.
  apply Z.bits_inj'. intros n Hn. destruct (decide (n = 0)) as [->|]; [done|].
  replace n with ((n - 1) + 1) by lia. rewrite <- !Z.shiftr_spec by lia. by rewrite H.
Qed.

Lemma iter_crc_bit_inj n a b :
  in_u 32 a -> in_u 32 b -> Nat.iter n crc_bit a = Nat.iter n crc_bit b -> a = b.
Proof.
  intros Ha Hb. induction n as [|n IH]; simpl; [done|]. intros H.
  apply IH, crc_bit_inj; auto using iter_crc_bit_range.
Qed.

Lemma crc_byte0_range c : in_u 32 c -> in_u 32 (crc_byte0 c).
Proof. apply (iter_crc_bit_range 8). Qed.

Lemma crc_byte0_inj a b : in_u 32 a -> in_u 32 b -> crc_byte0 a = crc_byte0 b -> a = b.
Proof. apply (iter_crc_bit_inj 8). Qed.

Lemma byte_in_u32 b : in_u 8 b -> in_u 32 b.
Proof. mlia. Qed.

Lemma crc32_le_bitwise_range crc p :
  in_u 32 crc -> Forall (in_u 8) p -> in_u 32 (crc32_le_bitwise crc p).
Proof.
  intros Hc Hp. revert crc Hc. induction Hp as [|b p Hb Hp IH]; intros crc Hc; simpl; [done|].
  apply IH, crc_byte0_range, lxor_in_u; auto using byte_in_u32. lia.
Qed.

(** * Shifting whole bytes through the register *)

Lemma crc_bit_even c : Z.testbit c 0 = false -> crc_bit c = Z.shiftr c 1.
Proof. intros H. unfold crc_bit. by rewrite H, Z.lxor_0_r. Qed.

Lemma iter_crc_bit_shift n a :
  0 <= a -> Nat.iter n crc_bit (Z.shiftl a (Z.of_nat n)) = a.
Proof.
  intros Ha. induction n as [|n IH].
  - by rewrite Z.shiftl_0_r.
  - rewrite Nat.iter_succ_r, crc_bit_even.
    + rewrite Z.shiftr_shiftl_l by lia.
      replace (Z.of_nat (S n) - 1) with (Z.of_nat n) by lia. apply IH.
    + apply Z.shiftl_spec_low. lia.
Qed.

(** Split a word into its low bits and the rest. *)
Lemma lxor_low_high c n :
  0 <= n -> c = Z.lxor (Z.land c (Z.ones n)) (Z.shiftl (Z.shiftr c n) n).
Proof.
  intros Hn. apply Z.bits_inj'. intros i Hi. rewrite Z.lxor_spec, Z.land_spec.
  destruct (decide (i < n)).
  - rewrite Z.ones_spec_low, andb_true_r, Z.shiftl_spec_low, xorb_false_r by lia. done.
  - rewrite Z.ones_spec_high, andb_false_r, Z.shiftl_spec, Z.shiftr_spec by lia.
    cbn [xorb]. f_equal. lia.
Qed.

Lemma crc_byte0_iter c : crc_byte0 c = Nat.iter 8 crc_bit c.
Proof. reflexivity. Qed.

(** Eight bits: table lookup on the low byte, shift of the rest. *)
Lemma crc_byte0_split c :
  0 <= c -> crc_byte0 c = Z.lxor (crc_byte0 (Z.land c 255)) (Z.shiftr c 8).
Proof.
  intros Hc. unfold crc_byte0. rewrite (lxor_low_high c 8) at 1 by lia.
  rewrite iter_crc_bit_lxor. f_equal.
  apply (iter_crc_bit_shift 8). by apply Z.shiftr_nonneg.
Qed.

(** * The generated table *)

(** Entry [i] of row [r] is the register after [8 * (r + 1)] zero bits from [i]. *)
Definition row_ok (r : nat) (i : nat) : bool :=
  bool_decide ((crc32ctable_le !!! r) !!! i
               = Nat.iter (8 * (r + 1)) crc_bit (Z.of_nat i)).

Lemma crc32ctable_all :
  forallb (fun r => forallb (row_ok r) (seq 0 256)) (seq 0 8) = true.
Proof. vm_compute. reflexivity. Qed.

Lemma tab_ok r q :
  (r < 8)%nat -> 0 <= q ->
  tab crc32ctable_le r q = Nat.iter (8 * (r + 1)) crc_bit (Z.land q 255).
Proof.
  intros Hr Hq.
  assert (Hb : in_u 8 (Z.land q 255)) by (apply land_in_u; unfold in_u; lia).
  pose proof crc32ctable_all as H. rewrite forallb_forall in H.
  specialize (H r). rewrite in_seq in H. specialize (H ltac:(split; lia)).
  rewrite forallb_forall in H. specialize (H (Z.to_nat (Z.land q 255))).
  rewrite in_seq in H. specialize (H ltac:(unfold in_u in Hb; lia)).
  unfold row_ok in H. apply bool_decide_eq_true_1 in H.
  unfold tab. rewrite H. f_equal. unfold in_u in Hb. lia.
Qed.

Lemma DO_CRC_ok crc x :
  in_u 32 crc -> in_u 8 x -> DO_CRC crc32ctable_le crc x = crc_byte0 (Z.lxor crc x).
Proof.
  intros Hc Hx. unfold DO_CRC.
  assert (0 <= Z.lxor crc x) by (apply Z.lxor_nonneg; unfold in_u in *; lia).
  rewrite tab_ok by lia. rewrite (crc_byte0_split (Z.lxor crc x)) by assumption.
  unfold crc_byte0. rewrite Z.shiftr_lxor. f_equal.
  replace (Z.shiftr x 8) with 0; [by rewrite Z.lxor_0_r|].
  rewrite Z.shiftr_div_pow2 by lia. symmetry. apply Z.div_small. mlia.
Qed.

(** * Slicing *)

Lemma iter_crc_split k c :
  0 <= c ->
  Nat.iter (8 * (k + 1)) crc_bit c
  = Z.lxor (Nat.iter (8 * (k + 1)) crc_bit (Z.land c 255))
           (Nat.iter (8 * k) crc_bit (Z.shiftr c 8)).
Proof.
  intros Hc. replace (8 * (k + 1))%nat with (8 * k + 8)%nat by lia.
  rewrite !Nat.iter_add, <- !crc_byte0_iter, (crc_byte0_split c Hc).
  apply iter_crc_bit_lxor.
Qed.

Lemma iter_crc_0 n : Nat.iter n crc_bit 0 = 0.
Proof. induction n as [|n IH]; simpl; [done|]. by rewrite IH. Qed.

Lemma shiftr_shiftr_nn a n m : 0 <= n -> 0 <= m -> Z.shiftr (Z.shiftr a n) m = Z.shiftr a (n + m).
Proof. intros. by apply Z.shiftr_shiftr. Qed.

(** The register after [8 * (k + 4)] bits, a word at a time. *)
Lemma iter_crc_word k q :
  in_u 32 q ->
  Nat.iter (8 * (k + 4)) crc_bit q
  = Z.lxor (Z.lxor (Z.lxor (Nat.iter (8 * (k + 4)) crc_bit (Z.land q 255))
                           (Nat.iter (8 * (k + 3)) crc_bit (Z.land (Z.shiftr q 8) 255)))
                   (Nat.iter (8 * (k + 2)) crc_bit (Z.land (Z.shiftr q 16) 255)))
           (Nat.iter (8 * (k + 1)) crc_bit (Z.land (Z.shiftr q 24) 255)).
Proof.
  intros Hq. assert (H0 : 0 <= q) by (unfold in_u in Hq; lia).
  replace (k + 4)%nat with (k + 3 + 1)%nat by lia. rewrite (iter_crc_split (k + 3) q) by done.
  replace (k + 3)%nat with (k + 2 + 1)%nat by lia.
  rewrite (iter_crc_split (k + 2) (Z.shiftr q 8)) by by apply Z.shiftr_nonneg.
  rewrite shiftr_shiftr_nn by lia. change (8 + 8) with 16.
  replace (k + 2)%nat with (k + 1 + 1)%nat by lia.
  rewrite (iter_crc_split (k + 1) (Z.shiftr q 16)) by by apply Z.shiftr_nonneg.
  rewrite shiftr_shiftr_nn by lia. change (16 + 8) with 24.
  rewrite (iter_crc_split k (Z.shiftr q 24)) by by apply Z.shiftr_nonneg.
  rewrite shiftr_shiftr_nn by lia. change (24 + 8) with 32.
  replace (Z.shiftr q 32) with 0.
  - by rewrite iter_crc_0, Z.lxor_0_r, !Z.lxor_assoc.
  - symmetry. rewrite Z.shiftr_div_pow2 by lia. apply Z.div_small. apply Hq.
Qed.

Lemma shiftr_nonneg_u q n : in_u 32 q -> 0 <= Z.shiftr q n.
Proof. intros [H _]. by apply Z.shiftr_nonneg. Qed.

Lemma DO_CRC4_ok q : in_u 32 q -> DO_CRC4 crc32ctable_le q = Nat.iter 32 crc_bit q.
Proof.
  intros Hq. unfold DO_CRC4. rewrite !tab_ok by first [lia | by apply shiftr_nonneg_u | apply Hq].
  symmetry. apply (iter_crc_word 0 q Hq).
Qed.

Lemma DO_CRC8_ok q : in_u 32 q -> DO_CRC8 crc32ctable_le q = Nat.iter 64 crc_bit q.
Proof.
  intros Hq. unfold DO_CRC8. rewrite !tab_ok by first [lia | by apply shiftr_nonneg_u | apply Hq].
  symmetry. apply (iter_crc_word 4 q Hq).
Qed.

(** Feeding a byte after [n] bits is feeding it shifted, before them. *)
Lemma iter_crc_feed n c b :
  0 <= b -> Z.lxor (Nat.iter n crc_bit c) b
            = Nat.iter n crc_bit (Z.lxor c (Z.shiftl b (Z.of_nat n))).
Proof. intros Hb. by rewrite iter_crc_bit_lxor, iter_crc_bit_shift. Qed.

Lemma le_val_cons_lxor b l : in_u 8 b -> le_val (b :: l) = Z.lxor b (Z.shiftl (le_val l) 8).
Proof.
  intros Hb. cbn [le_val]. rewrite Z.mod_small by apply Hb.
  assert (Hl : 0 <= le_val l) by apply le_val_range.
  rewrite Z.shiftl_mul_pow2 by lia. change (2 ^ 8) with 256.
  rewrite <- Z.add_nocarry_lxor; [lia|]. apply Z.bits_inj'. intros i Hi.
  rewrite Z.land_spec, Z.bits_0. destruct (decide (i < 8)).
  - change 256 with (2 ^ 8). by rewrite Z.mul_pow2_bits_low, andb_false_r by lia.
  - by rewrite (in_u_testbit 8) by (auto; lia).
Qed.

(** A run of bytes is the register advanced from the seed xored with the word. *)
Lemma bitwise_word crc p :
  in_u 32 crc -> Forall (in_u 8) p ->
  crc32_le_bitwise crc p
  = Nat.iter (8 * length p) crc_bit (Z.lxor crc (le_val p)).
Proof.
  intros Hc Hp. revert crc Hc. induction Hp as [|b p Hb Hp IH]; intros crc Hc.
  - cbn. by rewrite Z.lxor_0_r.
  - assert (Hb' := byte_in_u32 _ Hb). cbn [crc32_le_bitwise foldl].
    change (foldl _ ?x p) with (crc32_le_bitwise x p).
    rewrite IH by (apply crc_byte0_range, lxor_in_u; auto; lia).
    unfold crc_byte0. rewrite iter_crc_feed by apply le_val_range.
    rewrite <- Nat.iter_add, le_val_cons_lxor, Z.lxor_assoc by done.
    f_equal. cbn [length]. lia.
Qed.

Lemma Forall_take_drop {A} (P : A -> Prop) n l :
  Forall P l -> Forall P (take n l) /\ Forall P (drop n l).
Proof. intros H. split; [by apply Forall_take|by apply Forall_drop]. Qed.

Lemma le_val4_range l : (length l <= 4)%nat -> in_u 32 (le_val l).
Proof.
  intros H. pose proof (le_val_range l) as [? Hl]. split; [done|].
  eapply Z.lt_le_trans; [exact Hl|]. apply Z.pow_le_mono_r; lia.
Qed.

Lemma crc32_le_bitwise_app crc p1 p2 :
  crc32_le_bitwise crc (p1 ++ p2) = crc32_le_bitwise (crc32_le_bitwise crc p1) p2.
Proof. unfold crc32_le_bitwise. apply foldl_app. Qed.

(** One turn of the main loop consumes eight bytes. *)
Lemma words_step crc w1 w2 :
  in_u 32 crc -> Forall (in_u 8) w1 -> Forall (in_u 8) w2 ->
  length w1 = 4%nat -> length w2 = 4%nat ->
  Z.lxor (DO_CRC8 crc32ctable_le (Z.lxor crc (le_val w1))) (DO_CRC4 crc32ctable_le (le_val w2))
  = crc32_le_bitwise crc (w1 ++ w2).
Proof.
  intros Hc H1 H2 L1 L2.
  assert (in_u 32 (Z.lxor crc (le_val w1))) by (apply lxor_in_u; auto using le_val4_range with lia).
  rewrite DO_CRC8_ok, DO_CRC4_ok by (auto using le_val4_range with lia).
  rewrite crc32_le_bitwise_app, (bitwise_word crc w1), L1 by done.
  rewrite bitwise_word, L2 by (auto using iter_crc_bit_range).
  rewrite (iter_crc_bit_lxor (8 * 4) _ (le_val w2)), <- (Nat.iter_add (8 * 4) (8 * 4)). done.
Qed.

Lemma crc32_words_ok n crc p :
  in_u 32 crc -> Forall (in_u 8) p -> (8 * n <= length p)%nat ->
  crc32_words crc32ctable_le n crc p
  = (crc32_le_bitwise crc (take (8 * n) p), drop (8 * n) p).
Proof.
  revert crc p. induction n as [|n IH]; intros crc p Hc Hp Hl; [done|].
  cbn [crc32_words].
  destruct (Forall_take_drop _ 4 p Hp) as [H1 H1']. destruct (Forall_take_drop _ 4 _ H1') as [H2 _].
  rewrite words_step by (auto; rewrite length_take, ?length_drop; lia).
  assert (E : take 4 p ++ take 4 (drop 4 p) = take 8 p).
  { exact (take_take_drop p 4 4). }
  rewrite E. destruct (Forall_take_drop _ 8 p Hp) as [H3 H4].
  rewrite IH by (auto using crc32_le_bitwise_range; rewrite length_drop; lia).
  rewrite drop_drop, <- crc32_le_bitwise_app, take_take_drop.
  f_equal; [f_equal|]; f_equal; lia.
Qed.

Lemma fold_DO_CRC crc p :
  in_u 32 crc -> Forall (in_u 8) p ->
  foldl (DO_CRC crc32ctable_le) crc p = crc32_le_bitwise crc p.
Proof.
  intros Hc Hp. revert crc Hc. induction Hp as [|b p Hb Hp IH]; intros crc Hc; [done|].
  cbn [foldl crc32_le_bitwise]. rewrite DO_CRC_ok by done.
  apply IH, crc_byte0_range, lxor_in_u; auto using byte_in_u32. lia.
Qed.

Lemma crc32_align_ok addr crc p :
  in_u 32 crc -> Forall (in_u 8) p ->
  exists n, crc32_align crc32ctable_le addr crc p
            = (crc32_le_bitwise crc (take n p), drop n p).
Proof.
  intros Hc Hp. revert addr crc Hc. induction Hp as [|b p Hb Hp IH]; intros addr crc Hc.
  - by exists 0%nat.
  - cbn [crc32_align]. case_decide; [by exists 0%nat|].
    rewrite DO_CRC_ok by done.
    destruct (IH (addr + 1) (crc_byte0 (Z.lxor crc b))) as [n Hn].
    { apply crc_byte0_range, lxor_in_u; auto using byte_in_u32. lia. }
    rewrite Hn. by exists (S n).
Qed.

(** The optimised routine computes the reference, whatever the alignment. *)
Lemma ext2fs_crc32c_le_bitwise addr crc p :
  in_u 32 crc -> Forall (in_u 8) p ->
  ext2fs_crc32c_le addr crc p = crc32_le_bitwise crc p.
Proof.
  intros Hc Hp. unfold ext2fs_crc32c_le, crc32_le_generic, crc32_body.
  destruct (crc32_align_ok addr crc p Hc Hp) as [n ->].
  destruct (Forall_take_drop _ n p Hp) as [H1 H2].
  assert (Hc1 := crc32_le_bitwise_range _ _ Hc H1).
  set (q := drop n p) in *.
  assert (Hq : (8 * (length q / 8) <= length q)%nat) by (apply Nat.Div0.mul_div_le).
  rewrite crc32_words_ok by done.
  destruct (Forall_take_drop _ (8 * (length q / 8)) q H2) as [H3 H4].
  rewrite fold_DO_CRC by (auto using crc32_le_bitwise_range).
  rewrite <- (crc32_le_bitwise_app _ _ (drop _ q)), take_drop. unfold q.
  by rewrite <- crc32_le_bitwise_app, take_drop.
Qed.

(** [rfsck-ext] links the log against [ext2fs_crc32c_le]. *)
#[export, refine] Instance ext2fs_checksum : Checksum :=
  { crc32c_le := ext2fs_crc32c_le 0 }.
Proof.
  intros crc p Hc Hp. rewrite ext2fs_crc32c_le_bitwise by done. by apply crc32_le_bitwise_range.
Defined.

(** * Properties *)

(** C8: the slicing-by-8 CRC-32C of [crc32c.c], run on the generated table, returns
    for every seed, every buffer and every buffer address what the bit-at-a-time
    algorithm returns. *)
Theorem crc32c_slicing_equiv addr crc p :
  in_u 32 crc -> Forall (in_u 8) p ->
  ext2fs_crc32c_le addr crc p = crc32_le_bitwise crc p.
Proof. apply ext2fs_crc32c_le_bitwise. Qed.

Lemma crc32c_slicing_equiv_witness :
  ext2fs_crc32c_le 3 crc_seed [49; 50; 51; 52; 53; 54; 55; 56; 57; 58; 59; 60]
  = crc32_le_bitwise crc_seed [49; 50; 51; 52; 53; 54; 55; 56; 57; 58; 59; 60].
Proof.
  apply crc32c_slicing_equiv; [unfold in_u, crc_seed; lia|].
  repeat constructor; unfold in_u; lia.
Defined.

(** Bytes after a point cannot hide a difference of the register before it. *)
Lemma crc32_le_bitwise_inj c1 c2 p :
  in_u 32 c1 -> in_u 32 c2 -> Forall (in_u 8) p ->
  crc32_le_bitwise c1 p = crc32_le_bitwise c2 p -> c1 = c2.
Proof.
  intros H1 H2 Hp. revert c1 c2 H1 H2. induction Hp as [|b p Hb Hp IH]; intros c1 c2 H1 H2 H; [done|].
  assert (Hb' := byte_in_u32 _ Hb). cbn [crc32_le_bitwise foldl] in H.
  apply IH in H; [|apply crc_byte0_range, lxor_in_u; auto; lia..].
  apply crc_byte0_inj in H; [|apply lxor_in_u; auto; lia..]. by apply lxor_cancel_r in H.
Qed.

(** Two buffers that differ inside a window of four bytes only have different checksums. *)
Lemma crc32c_burst addr1 addr2 crc pre w1 w2 post :
  in_u 32 crc -> Forall (in_u 8) (pre ++ w1 ++ post) -> Forall (in_u 8) (pre ++ w2 ++ post) ->
  length w1 = length w2 -> (length w1 <= 4)%nat ->
  ext2fs_crc32c_le addr1 crc (pre ++ w1 ++ post) = ext2fs_crc32c_le addr2 crc (pre ++ w2 ++ post) -> w1 = w2.
Proof.
  intros Hc H1 H2 HL H4 H. rewrite !ext2fs_crc32c_le_bitwise in H by done.
  apply Forall_app in H1 as [Hpre H1]. apply Forall_app in H2 as [_ H2].
  apply Forall_app in H1 as [Hw1 Hpost]. apply Forall_app in H2 as [Hw2 _].
  rewrite !crc32_le_bitwise_app in H.
  assert (Hs := crc32_le_bitwise_range _ _ Hc Hpre).
  apply crc32_le_bitwise_inj in H; auto using crc32_le_bitwise_range.
  rewrite (bitwise_word _ w1), (bitwise_word _ w2), HL in H by done.
  apply iter_crc_bit_inj in H;
    [|apply lxor_in_u; auto using le_val4_range with lia..].
  rewrite !(Z.lxor_comm (crc32_le_bitwise crc pre)) in H. apply lxor_cancel_r in H.
  by apply le_val_inj.
Qed.

(** CRC-32C detects every corruption confined to four consecutive bytes: two
    buffers that agree outside a window of at most four bytes and differ inside
    it have different checksums. *)
Theorem crc32c_detects_burst addr1 addr2 crc pre w1 w2 post :
  in_u 32 crc -> Forall (in_u 8) (pre ++ w1 ++ post) -> Forall (in_u 8) (pre ++ w2 ++ post) ->
  length w1 = length w2 -> (length w1 <= 4)%nat -> w1 <> w2 ->
  ext2fs_crc32c_le addr1 crc (pre ++ w1 ++ post)
  <> ext2fs_crc32c_le addr2 crc (pre ++ w2 ++ post).
Proof. intros Hc H1 H2 HL H4 Hne H. by apply Hne, (crc32c_burst addr1 addr2 crc pre w1 w2 post). Qed.

Lemma crc32c_detects_burst_witness :
  ext2fs_crc32c_le 0 crc_seed ([1] ++ [7; 9] ++ [2])
  <> ext2fs_crc32c_le 1 crc_seed ([1] ++ [7; 8] ++ [2]).
Proof.
  apply (crc32c_detects_burst 0 1 crc_seed [1] [7; 9] [7; 8] [2]);
    try (repeat constructor; unfold in_u, crc_seed; lia).
  done.
Defined.
