(* ===== verification/Os.v ===== *)
(** The operating-system calls the program uses: [open], [pread], [pwrite],
    [fsync], [close] on files that survive a crash.

    A file has its durable contents and the writes that [fsync] has not yet
    forced out; a crash keeps the durable contents and any selection of the
    pending writes, in order.  The states the files went through are recorded, so
    that a theorem can speak of a crash between any two calls.  Each call consumes one entry of a fault plan, so
    the error branches of the callers (failed and short transfers) are reachable
    in the model. *)
From Stdlib Require Import ZArith Lia.
From stdpp Require Import base tactics numbers list gmap strings.
From S2P Require Import Prelude.

(** * Files *)

Record file := mkFile {
  f_synced : list Z;
  f_pending : list (nat * list Z)
}.

Definition apply_write (c : list Z) (w : nat * list Z) : list Z := splice w.1 w.2 c.

(** What a read sees: the durable bytes with every pending write applied. *)
Definition f_cur (f : file) : list Z := foldl apply_write (f_synced f) (f_pending f).

Definition f_empty : file := mkFile [] [].

Definition f_pwrite (off : nat) (d : list Z) (f : file) : file :=
  mkFile (f_synced f) (f_pending f ++ [(off, d)]).

Definition f_fsync (f : file) : file := mkFile (f_cur f) [].

(** The pending writes a crash lets through. *)
Fixpoint survive (keep : list bool) (ws : list (nat * list Z)) : list (nat * list Z) :=
  match keep, ws with
  | true :: keep', w :: ws' => w :: survive keep' ws'
  | false :: keep', _ :: ws' => survive keep' ws'
  | _, _ => []
  end.

Definition f_crash (keep : list bool) (f : file) : file :=
  mkFile (foldl apply_write (f_synced f) (survive keep (f_pending f))) [].

(** * The state of the system *)

Inductive io_outcome :=
  | IoFull                  (* the call does all it was asked to do *)
  | IoShort (n : nat)       (* at most [n] bytes are transferred *)
  | IoFail.                 (* the call returns -1 *)

Record os := mkOs {
  os_names : gmap string Z;     (* path -> inode *)
  os_files : gmap Z file;       (* inode -> file *)
  os_fds : gmap Z Z;            (* open descriptor -> inode *)
  os_plan : list io_outcome;    (* outcomes of the next calls; then [IoFull] *)
  os_hist : list (gmap Z file); (* the files before each change so far, newest first *)
  os_pos : gmap Z Z             (* file offset of each descriptor; 0 when absent *)
}.

Definition os_set_file (ino : Z) (f : file) (o : os) : os :=
  mkOs (os_names o) (<[ino := f]> (os_files o)) (os_fds o) (os_plan o)
       (os_files o :: os_hist o) (os_pos o).

Definition next_outcome (o : os) : io_outcome * os :=
  match os_plan o with
  | [] => (IoFull, o)
  | x :: p => (x, mkOs (os_names o) (os_files o) (os_fds o) p (os_hist o) (os_pos o))
  end.

(** The file behind a descriptor. *)
Definition fd_file (o : os) (fd : Z) : option (Z * file) :=
  ino ← os_fds o !! fd; f ← os_files o !! ino; Some (ino, f).

(** The bytes a descriptor currently shows. *)
Definition fd_cur (o : os) (fd : Z) : option (list Z) :=
  (fun p => f_cur p.2) <$> fd_file o fd.

(** [pwrite(fd, buf, size, off)]: -1, or the number of bytes written. *)
Definition pwrite (fd : Z) (buf : list Z) (off : Z) (o : os) : Z * os :=
  let '(x, o) := next_outcome o in
  match fd_file o fd with
  | None => (-1, o)
  | Some (ino, f) =>
      if decide (s64 off < 0) then (-1, o)
      else
        match x with
        | IoFail => (-1, o)
        | IoFull =>
            (Z.of_nat (length buf), os_set_file ino (f_pwrite (Z.to_nat (s64 off)) buf f) o)
        | IoShort n =>
            (Z.of_nat (length (take n buf)),
             os_set_file ino (f_pwrite (Z.to_nat (s64 off)) (take n buf) f) o)
        end
  end.

(** [pread(fd, buf, size, off)]: -1, or the bytes read. *)
Definition pread (fd : Z) (size off : Z) (o : os) : option (list Z) * os :=
  let '(x, o) := next_outcome o in
  match fd_file o fd with
  | None => (None, o)
  | Some (ino, f) =>
      if decide (s64 off < 0) then (None, o)
      else
        match x with
        | IoFail => (None, o)
        | IoFull => (Some (slice (Z.to_nat (s64 off)) (Z.to_nat size) (f_cur f)), o)
        | IoShort n => (Some (take n (slice (Z.to_nat (s64 off)) (Z.to_nat size) (f_cur f))), o)
        end
  end.

(** [fsync(fd)] *)
Definition fsync (fd : Z) (o : os) : Z * os :=
  let '(x, o) := next_outcome o in
  match fd_file o fd with
  | None => (-1, o)
  | Some (ino, f) =>
      match x with
      | IoFull => (0, os_set_file ino (f_fsync f) o)
      | _ => (-1, o)
      end
  end.

(** [lseek(fd, off, SEEK_SET)]: the new offset or -1. *)
Definition lseek (fd : Z) (off : Z) (o : os) : Z * os :=
  let '(x, o) := next_outcome o in
  match fd_file o fd, x with
  | Some _, IoFull =>
      if decide (s64 off < 0) then (-1, o)
      else (s64 off, mkOs (os_names o) (os_files o) (os_fds o) (os_plan o) (os_hist o)
                          (<[fd := s64 off]> (os_pos o)))
  | _, _ => (-1, o)
  end.

Definition fd_pos (o : os) (fd : Z) : Z := default 0 (os_pos o !! fd).
Definition advance (fd n : Z) (o : os) : os :=
  mkOs (os_names o) (os_files o) (os_fds o) (os_plan o) (os_hist o) (<[fd := fd_pos o fd + n]> (os_pos o)).

(** [read(fd, buf, size)] and [write(fd, buf, size)] at the file offset, which they advance. *)
Definition sys_read (fd : Z) (size : Z) (o : os) : option (list Z) * os :=
  match pread fd size (fd_pos o fd) o with
  | (Some d, o) => (Some d, advance fd (zlen d) o)
  | (None, o) => (None, o)
  end.

Definition sys_write (fd : Z) (buf : list Z) (o : os) : Z * os :=
  let '(n, o) := pwrite fd buf (fd_pos o fd) o in
  if decide (n < 0) then (n, o) else (n, advance fd n o).

(** The lowest key from [k] upwards that is not in [m]. *)
Fixpoint free_key {A} (fuel : nat) (k : Z) (m : gmap Z A) : Z :=
  match fuel with
  | O => k
  | S fuel' => match m !! k with Some _ => free_key fuel' (k + 1) m | None => k end
  end.

(** The lowest descriptor that is not open. *)
Definition new_fd (o : os) : Z := free_key (S (size (os_fds o))) 0 (os_fds o).
Definition new_ino (o : os) : Z := free_key (S (size (os_files o))) 0 (os_files o).

(** [open(path, O_RDWR [| O_CREAT])]: the new descriptor or -1. *)
Definition sys_open (path : string) (creat : bool) (o : os) : Z * os :=
  let '(x, o) := next_outcome o in
  match x with
  | IoFail | IoShort _ => (-1, o)
  | IoFull =>
      let fd := new_fd o in
      match os_names o !! path with
      | Some ino =>
          (fd, mkOs (os_names o) (os_files o) (<[fd := ino]> (os_fds o)) (os_plan o) (os_hist o)
                    (delete fd (os_pos o)))
      | None =>
          if creat then
            let ino := new_ino o in
            (fd, mkOs (<[path := ino]> (os_names o)) (<[ino := f_empty]> (os_files o))
                      (<[fd := ino]> (os_fds o)) (os_plan o)
                      (os_files o :: os_hist o) (delete fd (os_pos o)))
          else (-1, o)
      end
  end.

(** [close(fd)] *)
Definition sys_close (fd : Z) (o : os) : Z * os :=
  let '(x, o) := next_outcome o in
  match os_fds o !! fd, x with
  | Some _, IoFull =>
      (0, mkOs (os_names o) (os_files o) (delete fd (os_fds o)) (os_plan o) (os_hist o) (os_pos o))
  | _, _ => (-1, o)
  end.

(** * Lemmas on files *)

Lemma f_cur_pwrite off d f : f_cur (f_pwrite off d f) = splice off d (f_cur f).
Proof. unfold f_cur, f_pwrite. cbn. by rewrite foldl_app. Qed.

Lemma f_cur_fsync f : f_cur (f_fsync f) = f_cur f.
Proof. reflexivity. Qed.

Lemma f_crash_fsync keep f : f_cur (f_crash keep (f_fsync f)) = f_cur f.
Proof. unfold f_crash, f_fsync, f_cur. cbn. by destruct keep as [|[]]. Qed.

Lemma survive_elem keep ws w : w ∈ survive keep ws -> w ∈ ws.
Proof.
  revert ws. induction keep as [|b keep IH]; intros ws; [by intros ?%not_elem_of_nil|].
  destruct b, ws as [|w' ws]; cbn; try by intros ?%not_elem_of_nil.
  - rewrite !elem_of_cons. intros [->|H]; [by left|right; by apply IH].
  - rewrite elem_of_cons. intros H. right. by apply IH.
Qed.

(** * Lemmas on the calls when no fault is planned *)

Definition faultless (o : os) : Prop := os_plan o = [].

Lemma next_outcome_faultless o : faultless o -> next_outcome o = (IoFull, o).
Proof. unfold faultless, next_outcome. by intros ->. Qed.

Lemma fd_file_set o fd ino ino' f' :
  os_fds o !! fd = Some ino ->
  fd_file (os_set_file ino' f' o) fd
  = if decide (ino = ino') then Some (ino, f') else fd_file o fd.
Proof.
  intros H. unfold fd_file, os_set_file. cbn. rewrite H. cbn.
  case_decide as E; [subst; by rewrite lookup_insert_eq|by rewrite lookup_insert_ne].
Qed.

(** * Fresh descriptors and inodes *)

Lemma free_key_delete {A} fuel k k' (m : gmap Z A) :
  k' < k -> free_key fuel k (delete k' m) = free_key fuel k m.
Proof.
  revert k. induction fuel as [|fuel IH]; intros k Hk; [done|]. cbn.
  rewrite lookup_delete_ne by lia. destruct (m !! k); [apply IH; lia|done].
Qed.

Lemma free_key_ge {A} fuel k (m : gmap Z A) : k <= free_key fuel k m.
Proof.
  revert k. induction fuel as [|fuel IH]; intros k; cbn; [lia|].
  destruct (m !! k); [|lia]. specialize (IH (k + 1)). lia.
Qed.

Lemma free_key_fresh {A} fuel k (m : gmap Z A) :
  (size m < fuel)%nat -> m !! free_key fuel k m = None.
Proof.
  revert k m. induction fuel as [|fuel IH]; intros k m Hs; [lia|]. cbn.
  destruct (m !! k) as [x|] eqn:Hk; [|done].
  rewrite <- (free_key_delete fuel (k + 1) k) by lia.
  assert (Hsz : (size (delete k m) < fuel)%nat).
  { rewrite map_size_delete_Some by (by exists x).
    enough (size m <> 0%nat) by lia. intros ->%map_size_empty_inv. by rewrite lookup_empty in Hk. }
  pose proof (IH (k + 1) (delete k m) Hsz) as Hf.
  rewrite lookup_delete_ne in Hf; [done|]. pose proof (free_key_ge fuel (k + 1) (delete k m)). lia.
Qed.

Lemma new_fd_fresh o : os_fds o !! new_fd o = None.
Proof. apply free_key_fresh. lia. Qed.

Lemma new_ino_fresh o : os_files o !! new_ino o = None.
Proof. apply free_key_fresh. lia. Qed.

Lemma new_fd_nonneg o : 0 <= new_fd o.
Proof. apply free_key_ge. Qed.
