(* ===== verification/RedoLog.v ===== *)
(** The redo log library: [rfsck-lib/redo.h] and [rfsck-lib/redo.c] (the copy in
    [rfsck-ext/lib/ext2fs/redo.c] is the same text).

    The structures are records with the fields of the C structures and their
    little-endian layout; the global [redo_data] is a field of the state [st];
    every operation is a function of the state monad [M], whose [None] is
    undefined behaviour (a null dereference or an index outside an array).
    Indeterminate values (an uninitialised local, the contents of [malloc]ed
    memory) are arguments. *)
From Stdlib Require Import ZArith Lia.
From stdpp Require Import base tactics numbers list gmap strings.
From S2P Require Import Prelude Crc32c Os.

(** * Constants of redo.h *)

Definition REDO_HEADER_MAGIC_NUMBER : list Z := [69; 50; 82; 69; 68; 79; 48; 49].
Definition REDO_BLOCK_MAGIC_NUMBER : list Z := [69; 50; 82; 69; 68; 79; 48; 50].
Definition E2REDO_STATE_FINISHED : Z := 1.
Definition TXN_CHKSM_CNST : Z := 0x3F921710.
Definition TXN_REPLAYED_CNST : Z := 0x2FC8310A.
Definition REDO_LOG_BLOCK_SIZE : Z := 4096.
(** [sizeof(struct redo_block_tag)] and [sizeof(struct redo_header)] *)
Definition TAG_SIZE : Z := 16.
Definition HEADER_SIZE : Z := 512.

(** * Structures *)

Record redo_header := mkHdr {
  h_magic : list Z;
  h_num_keys : Z;
  h_super_offset : Z;
  h_key_offset : Z;
  h_sb_crc : Z;
  h_state : Z;
  h_header_crc : Z;
  h_padding : list Z
}.

Record redo_block_tag := mkTag { t_offset : Z; t_size : Z; t_blk_crc : Z }.

Record redo_block := mkBlk {
  b_magic : Z;
  b_crc : Z;
  b_reserved : Z;
  b_tags : list redo_block_tag
}.

Record redo_private_data := mkRd {
  redo_fd : Z;
  dev_fd : Z;
  tdb_written : Z;
  redo_block_size : Z;
  num_keys : Z;
  keys_in_block : Z;
  redo_block_offset : Z;
  log_offset : Z;
  hdr : redo_header;
  keyb : redo_block;
  txn_begin_blk : Z;
  txn_begin_idx : Z;
  txn_id : Z;
  txn_csum : Z
}.

#[global] Instance tag_eq_dec : EqDecision redo_block_tag.
Proof. solve_decision. Defined.
#[global] Instance block_eq_dec : EqDecision redo_block.
Proof. solve_decision. Defined.
#[global] Instance header_eq_dec : EqDecision redo_header.
Proof. solve_decision. Defined.

Definition tag0 : redo_block_tag := mkTag 0 0 0.
#[global] Instance tag_inhabited : Inhabited redo_block_tag := populate tag0.

(** [calloc(1, REDO_LOG_BLOCK_SIZE)] *)
Definition blk0 : redo_block := mkBlk 0 0 0 (replicate 255 tag0).
#[global] Instance block_inhabited : Inhabited redo_block := populate blk0.

(** * Memory layout *)

Definition bytes_of_tag (t : redo_block_tag) : list Z :=
  le_bytes 8 (t_offset t) ++ le_bytes 4 (t_size t) ++ le_bytes 4 (t_blk_crc t).

Definition bytes_of_tags (ts : list redo_block_tag) : list Z := concat (bytes_of_tag <$> ts).

Definition bytes_of_block (b : redo_block) : list Z :=
  le_bytes 4 (b_magic b) ++ le_bytes 4 (b_crc b) ++ le_bytes 8 (b_reserved b)
  ++ bytes_of_tags (b_tags b).

Definition bytes_of_header (h : redo_header) : list Z :=
  h_magic h ++ le_bytes 8 (h_num_keys h) ++ le_bytes 8 (h_super_offset h)
  ++ le_bytes 8 (h_key_offset h) ++ le_bytes 4 (h_sb_crc h) ++ le_bytes 4 (h_state h)
  ++ le_bytes 4 (h_header_crc h) ++ h_padding h.

Definition parse_tag (l : list Z) : redo_block_tag :=
  mkTag (le_val (slice 0 8 l)) (le_val (slice 8 4 l)) (le_val (slice 12 4 l)).

Fixpoint parse_tags (n : nat) (l : list Z) : list redo_block_tag :=
  match n with
  | O => []
  | S n' => parse_tag (take 16 l) :: parse_tags n' (drop 16 l)
  end.

Definition parse_block (l : list Z) : redo_block :=
  mkBlk (le_val (slice 0 4 l)) (le_val (slice 4 4 l)) (le_val (slice 8 8 l))
        (parse_tags 255 (drop 16 l)).

Definition parse_header (l : list Z) : redo_header :=
  mkHdr (slice 0 8 l) (le_val (slice 8 8 l)) (le_val (slice 16 8 l)) (le_val (slice 24 8 l))
        (le_val (slice 32 4 l)) (le_val (slice 36 4 l)) (le_val (slice 40 4 l)) (slice 44 468 l).

(** * Field updates *)

Definition set_hdr (h : redo_header) (d : redo_private_data) : redo_private_data :=
  mkRd (redo_fd d) (dev_fd d) (tdb_written d) (redo_block_size d) (num_keys d) (keys_in_block d)
       (redo_block_offset d) (log_offset d) h (keyb d) (txn_begin_blk d) (txn_begin_idx d)
       (txn_id d) (txn_csum d).

Definition set_keyb (b : redo_block) (d : redo_private_data) : redo_private_data :=
  mkRd (redo_fd d) (dev_fd d) (tdb_written d) (redo_block_size d) (num_keys d) (keys_in_block d)
       (redo_block_offset d) (log_offset d) (hdr d) b (txn_begin_blk d) (txn_begin_idx d)
       (txn_id d) (txn_csum d).

Definition set_block_size (z : Z) (d : redo_private_data) : redo_private_data :=
  mkRd (redo_fd d) (dev_fd d) (tdb_written d) z (num_keys d) (keys_in_block d)
       (redo_block_offset d) (log_offset d) (hdr d) (keyb d) (txn_begin_blk d) (txn_begin_idx d)
       (txn_id d) (txn_csum d).

(** [num_keys], [keys_in_block], [redo_block_offset], [log_offset] *)
Definition set_pos (nk kib rbo lo : Z) (d : redo_private_data) : redo_private_data :=
  mkRd (redo_fd d) (dev_fd d) (tdb_written d) (redo_block_size d) nk kib rbo lo (hdr d) (keyb d)
       (txn_begin_blk d) (txn_begin_idx d) (txn_id d) (txn_csum d).

Definition set_log_offset (lo : Z) (d : redo_private_data) : redo_private_data :=
  set_pos (num_keys d) (keys_in_block d) (redo_block_offset d) lo d.

Definition set_keys_in_block (k : Z) (d : redo_private_data) : redo_private_data :=
  set_pos (num_keys d) k (redo_block_offset d) (log_offset d) d.

(** [txn_begin_blk], [txn_begin_idx], [txn_id], [txn_csum] *)
Definition set_txn (bb bi id cs : Z) (d : redo_private_data) : redo_private_data :=
  mkRd (redo_fd d) (dev_fd d) (tdb_written d) (redo_block_size d) (num_keys d) (keys_in_block d)
       (redo_block_offset d) (log_offset d) (hdr d) (keyb d) bb bi id cs.

Definition set_txn_id (id : Z) (d : redo_private_data) : redo_private_data :=
  set_txn (txn_begin_blk d) (txn_begin_idx d) id (txn_csum d) d.

Definition set_txn_csum (cs : Z) (d : redo_private_data) : redo_private_data :=
  set_txn (txn_begin_blk d) (txn_begin_idx d) (txn_id d) cs d.

Definition set_magic_crc (m c r : Z) (b : redo_block) : redo_block := mkBlk m c r (b_tags b).

(** * State and monad *)

Record st := mkSt {
  st_os : os;
  st_rd : option redo_private_data    (* the global pointer [redo_data] *)
}.

(** What the C program reads or overwrites without having initialised or allocated it:
    [junk site n], the [n] bytes of indeterminate value that [malloc] returns at call site
    [site]; [indet], the value that an uninitialised local variable has; [slack], the
    number of key blocks that fit in the memory after the array [replay_blocks] without
    touching anything in use. *)
Class Heap := {
  junk : nat -> nat -> list Z;
  junk_length site n : length (junk site n) = n;
  indet : st -> Z;
  slack : nat
}.

(** The memory that the program is lucky to run in: the uninitialised [retval] of
    [rfsck_txn_begin] is 0, and one key block after [replay_blocks] is unused. *)
Record lucky `{Heap} : Prop := {
  lucky_indet s : indet s = 0;
  lucky_slack : (0 < slack)%nat
}.

(** A computation; [None] is undefined behaviour. *)
Definition M (A : Type) : Type := st -> option (A * st).

#[global] Instance M_ret : MRet M := fun A x s => Some (x, s).
#[global] Instance M_bind : MBind M := fun A B f m s =>
  match m s with Some (x, s') => f x s' | None => None end.

(** Dereference of [redo_data]: undefined when it is NULL. *)
Definition get_rd : M redo_private_data := fun s => (fun d => (d, s)) <$> st_rd s.
Definition put_rd (d : redo_private_data) : M unit := fun s =>
  Some (tt, mkSt (st_os s) (Some d)).
Definition modify_rd (f : redo_private_data -> redo_private_data) : M unit :=
  d ← get_rd; put_rd (f d).
Definition sys {A} (f : os -> A * os) : M A := fun s =>
  let '(x, o) := f (st_os s) in Some (x, mkSt o (st_rd s)).
Definition undef {A} : M A := fun _ => None.
Definition uninitialised `{Heap} : M Z := fun s => Some (indet s, s).

Section ops.
Context `{Checksum} `{Heap}.

(** [while (c = *str++) hash = ((hash << 5) + hash) + c;] *)
Fixpoint hash_loop (hash : Z) (str : list Z) : Z :=
  match str with
  | [] => hash
  | c :: str' =>
      if decide (c = 0) then hash
      else hash_loop (u32 (u32 (u32 (Z.shiftl hash 5) + hash) + c)) str'
  end.

Definition hash (str : list Z) : Z := hash_loop 5381 str.

(** [write_info] *)
Definition write_info (fd offset size : Z) (buf : list Z) (count_offset : bool) : M Z :=
  if decide (Z.of_nat (length buf) < size) then undef
  else
    retval ← sys (pwrite fd (take (Z.to_nat size) buf) offset);
    if decide (retval < 0) then mret 1
    else if decide (retval <> size) then mret 1
    else if count_offset then
      _ ← modify_rd (fun d => set_log_offset (u64 (log_offset d + size)) d);
      mret 0
    else mret 0.

(** [KEYS_PER_BLOCK(d)] *)
Definition KEYS_PER_BLOCK (d : redo_private_data) : Z := redo_block_size d / TAG_SIZE - 1.

(** A store to [redo_data->keyb->tags[redo_data->keys_in_block]]. *)
Definition store_tag (t : redo_block_tag) : M unit :=
  d ← get_rd;
  if decide (keys_in_block d < 255) then
    put_rd (set_keyb (mkBlk (b_magic (keyb d)) (b_crc (keyb d)) (b_reserved (keyb d))
                            (<[Z.to_nat (keys_in_block d) := t]> (b_tags (keyb d)))) d)
  else undef.

(** The assignments to [magic], [reserved] and [crc] that precede every write of
    the current key block; [rfsck_flush] and [redo_mark_done] leave [reserved]. *)
Definition seal_block (clear_reserved : bool) (b : redo_block) : redo_block :=
  let r := if clear_reserved then 0 else b_reserved b in
  let b := set_magic_crc (hash REDO_BLOCK_MAGIC_NUMBER) 0 r b in
  set_magic_crc (b_magic b) (crc32c_le crc_seed (bytes_of_block b)) r b.

Definition write_keyb : M Z :=
  d ← get_rd;
  write_info (redo_fd d) (redo_block_offset d) REDO_LOG_BLOCK_SIZE (bytes_of_block (keyb d)) false.

(** Start a new key block when the current one is full. *)
Definition roll_rd (d : redo_private_data) : redo_private_data :=
  if decide (keys_in_block d = KEYS_PER_BLOCK d) then
    set_pos (u64 (num_keys d + 1)) 0 (log_offset d) (u64 (log_offset d + REDO_LOG_BLOCK_SIZE))
      (set_keyb (set_magic_crc (hash REDO_BLOCK_MAGIC_NUMBER) 0 0 blk0) d)
  else d.

Definition roll_block : M unit := modify_rd roll_rd.

(** [rfsck_flush] *)
Definition rfsck_flush : M Z := fun s =>
  match st_rd s with
  | None => Some (1, s)
  | Some _ =>
      (_ ← modify_rd (fun d => set_keyb (seal_block false (keyb d)) d);
       retval ← write_keyb;
       if decide (retval <> 0) then mret retval
       else d ← get_rd; sys (fsync (redo_fd d))) s
  end.

(** [rfsck_txn_begin]: [if(retval)] tests a local that was never assigned. *)
Definition rfsck_txn_begin : M Z :=
  d ← get_rd;
  let t := mkTag 0 0 (u32 (txn_id d)) in
  _ ← store_tag t;
  let tag_crc := crc32c_le crc_seed (bytes_of_tag t) in
  _ ← modify_rd (set_txn_csum (Z.lxor TXN_CHKSM_CNST tag_crc));
  retval ← uninitialised;
  if decide (retval <> 0) then mret retval
  else
    _ ← modify_rd (fun d => set_keyb (seal_block true (keyb d)) d);
    _ ← modify_rd (fun d => set_keys_in_block (u64 (keys_in_block d + 1)) d);
    retval ← write_keyb;
    if decide (retval <> 0) then mret retval
    else _ ← roll_block; mret 0.

(** [rfsck_txn_end] *)
Definition rfsck_txn_end : M Z :=
  d ← get_rd;
  let t := mkTag 0 0 (u32 (txn_id d)) in
  _ ← store_tag t;
  let tag_crc := crc32c_le crc_seed (bytes_of_tag t) in
  let csum := Z.lxor (txn_csum d) tag_crc in
  _ ← modify_rd (set_txn_csum csum);
  _ ← store_tag (mkTag csum 0 (u32 (txn_id d)));
  _ ← modify_rd (fun d => set_keys_in_block (u64 (keys_in_block d + 1)) d);
  _ ← modify_rd (fun d => set_txn_id (s32 (txn_id d + 1)) d);
  _ ← modify_rd (fun d => set_keyb (seal_block true (keyb d)) d);
  retval ← write_keyb;
  if decide (retval <> 0) then mret retval
  else
    _ ← roll_block;
    _ ← modify_rd (set_txn_csum 0);
    _ ← rfsck_flush;
    mret 0.

(** [rfsck_write] *)
Definition rfsck_write (offset size : Z) (buf : list Z) : M Z :=
  if decide (Z.of_nat (length buf) < size) then undef
  else
    let t := mkTag offset size (crc32c_le crc_seed (take (Z.to_nat size) buf)) in
    d ← get_rd;
    _ ← store_tag t;
    let tag_crc := crc32c_le crc_seed (bytes_of_tag t) in
    _ ← modify_rd (fun d => set_txn_csum (Z.lxor (txn_csum d) tag_crc) d);
    retval ← write_info (redo_fd d) (log_offset d) size buf true;
    if decide (retval <> 0) then mret retval
    else
      _ ← modify_rd (fun d => set_keyb (seal_block true (keyb d)) d);
      retval ← write_keyb;
      if decide (retval <> 0) then mret retval
      else
        _ ← modify_rd (fun d => set_keys_in_block (u64 (keys_in_block d + 1)) d);
        _ ← roll_block;
        mret retval.

(** The header fields that [redo_setup] fills in; the padding is whatever
    [malloc] returned. *)
Definition setup_header (padding : list Z) : redo_header :=
  let h := mkHdr REDO_HEADER_MAGIC_NUMBER 0 0 HEADER_SIZE 0 0 0 padding in
  mkHdr REDO_HEADER_MAGIC_NUMBER 0 0 HEADER_SIZE 0 0
        (crc32c_le crc_seed (bytes_of_header h)) padding.

(** [redo_setup]; [mem] is what [malloc] returns for [redo_data]. *)
Definition redo_setup (mem : option redo_private_data) (dev_fd redo_fd : Z) : M Z := fun s =>
  let s := match st_rd s, mem with
           | None, Some junk =>
               mkSt (st_os s)
                    (Some (mkRd (RedoLog.redo_fd junk) (RedoLog.dev_fd junk) 0
                                (redo_block_size junk) (num_keys junk) (keys_in_block junk)
                                (redo_block_offset junk) (log_offset junk) (hdr junk) (keyb junk)
                                (txn_begin_blk junk) (txn_begin_idx junk) (txn_id junk)
                                (txn_csum junk)))
           | _, _ => s
           end in
  match st_rd s with
  | None => Some (1, s)
  | Some d =>
      if decide (tdb_written d <> 0) then Some (0, s)
      else
        let d := mkRd redo_fd dev_fd 1 REDO_LOG_BLOCK_SIZE 0 0 HEADER_SIZE
                      (HEADER_SIZE + REDO_LOG_BLOCK_SIZE)
                      (setup_header (h_padding (hdr d))) blk0
                      (txn_begin_blk d) (txn_begin_idx d) 1 (txn_csum d) in
        Some (0, mkSt (st_os s) (Some d))
  end.

(** [records_written] *)
Definition records_written (rd : option redo_private_data) : Z :=
  match rd with
  | None => 1
  | Some d =>
      if decide (keys_in_block d > 0) then 0
      else if decide (keys_in_block d = 0 /\ num_keys d > 0) then 0
      else 1
  end.

(** The assignments to [hdr.num_keys], [hdr.state] and [hdr.header_crc]. *)
Definition mark_header (mark_done : bool) (nk : Z) (h : redo_header) : redo_header :=
  let h0 := mkHdr (h_magic h) nk (h_super_offset h) (h_key_offset h) (h_sb_crc h)
                  (if mark_done then 1 else 0) 0 (h_padding h) in
  mkHdr (h_magic h) nk (h_super_offset h) (h_key_offset h) (h_sb_crc h)
        (if mark_done then 1 else 0) (crc32c_le crc_seed (bytes_of_header h0)) (h_padding h).

(** [redo_mark_done] *)
Definition redo_mark_done (mark_done : bool) : M Z := fun s =>
  match st_rd s with
  | None => Some (0, s)
  | Some _ =>
      (_ ← modify_rd (fun d => set_keyb (seal_block false (keyb d)) d);
       retval ← write_keyb;
       if decide (retval <> 0) then mret retval
       else
         retval ← rfsck_flush;
         if decide (retval <> 0) then mret retval
         else
           _ ← modify_rd (fun d => set_hdr (mark_header mark_done (num_keys d) (hdr d)) d);
           d ← get_rd;
           retval ← write_info (redo_fd d) 0 HEADER_SIZE (bytes_of_header (hdr d)) false;
           if decide (retval <> 0) then mret retval
           else rfsck_flush) s
  end.

(** [rfsck_close] *)
Definition rfsck_close : M Z := fun s =>
  match st_rd s with
  | None => Some (0, s)
  | Some d =>
      (cl ← sys (sys_close (redo_fd d));
       if decide (cl < 0) then mret cl else mret 0) s
  end.

End ops.

(** * Replay *)

Record replay_st := mkRp {
  rp_os : os;
  rp_rd : redo_private_data;
  rp_keyb : redo_block;               (* the key block read last *)
  rp_blocks : list redo_block;        (* [replay_blocks], and the unused memory after it *)
  rp_keys_offset : list Z;
  rp_log_offset : Z;
  rp_replay_offset : Z;               (* [replay_log_offset] *)
  rp_is_replayed : bool;
  rp_retval : Z
}.

Section replay.
Context `{Checksum} `{Heap}.

(** A [pread] of at most [length old] bytes into a buffer that held [old]. *)
Definition read_into (old new : list Z) : list Z := new ++ drop (length new) old.

Definition rp_sys {A} (f : os -> A * os) (p : replay_st) : A * replay_st :=
  let '(x, o) := f (rp_os p) in
  (x, mkRp o (rp_rd p) (rp_keyb p) (rp_blocks p) (rp_keys_offset p) (rp_log_offset p)
           (rp_replay_offset p) (rp_is_replayed p) (rp_retval p)).

Definition rp_set_rd (d : redo_private_data) (p : replay_st) : replay_st :=
  mkRp (rp_os p) d (rp_keyb p) (rp_blocks p) (rp_keys_offset p) (rp_log_offset p)
       (rp_replay_offset p) (rp_is_replayed p) (rp_retval p).
Definition rp_set_keyb (b : redo_block) (p : replay_st) : replay_st :=
  mkRp (rp_os p) (rp_rd p) b (rp_blocks p) (rp_keys_offset p) (rp_log_offset p)
       (rp_replay_offset p) (rp_is_replayed p) (rp_retval p).
Definition rp_set_blocks (l : list redo_block) (p : replay_st) : replay_st :=
  mkRp (rp_os p) (rp_rd p) (rp_keyb p) l (rp_keys_offset p) (rp_log_offset p)
       (rp_replay_offset p) (rp_is_replayed p) (rp_retval p).
Definition rp_set_keys_offset (l : list Z) (p : replay_st) : replay_st :=
  mkRp (rp_os p) (rp_rd p) (rp_keyb p) (rp_blocks p) l (rp_log_offset p)
       (rp_replay_offset p) (rp_is_replayed p) (rp_retval p).
Definition rp_set_log_offset (z : Z) (p : replay_st) : replay_st :=
  mkRp (rp_os p) (rp_rd p) (rp_keyb p) (rp_blocks p) (rp_keys_offset p) z
       (rp_replay_offset p) (rp_is_replayed p) (rp_retval p).
Definition rp_set_replay_offset (z : Z) (p : replay_st) : replay_st :=
  mkRp (rp_os p) (rp_rd p) (rp_keyb p) (rp_blocks p) (rp_keys_offset p) (rp_log_offset p)
       z (rp_is_replayed p) (rp_retval p).
Definition rp_set_is_replayed (b : bool) (p : replay_st) : replay_st :=
  mkRp (rp_os p) (rp_rd p) (rp_keyb p) (rp_blocks p) (rp_keys_offset p) (rp_log_offset p)
       (rp_replay_offset p) b (rp_retval p).
Definition rp_set_retval (z : Z) (p : replay_st) : replay_st :=
  mkRp (rp_os p) (rp_rd p) (rp_keyb p) (rp_blocks p) (rp_keys_offset p) (rp_log_offset p)
       (rp_replay_offset p) (rp_is_replayed p) z.

(** [write_info] with [count_offset == 0], as replay calls it. *)
Definition rp_write_info (fd offset size : Z) (buf : list Z) (p : replay_st) : Z * replay_st :=
  let '(retval, p) := rp_sys (pwrite fd (take (Z.to_nat size) buf) offset) p in
  if decide (retval < 0) then (1, p) else if decide (retval <> size) then (1, p) else (0, p).

(** Outcome of a piece of the loop: go on, [goto free_end], or a store outside of the
    memory that is there for it. *)
Inductive flow := Go (p : replay_st) | FreeEnd (p : replay_st) | Undef.

(** One redo record: read its data at [replay_log_offset], write it to the device. *)
Definition replay_record (t : redo_block_tag) (p : replay_st) : flow :=
  let buf := junk 2 (Z.to_nat (t_size t)) in
  let '(r, p) := rp_sys (pread (redo_fd (rp_rd p)) (t_size t) (rp_replay_offset p)) p in
  match r with
  | None => FreeEnd (rp_set_retval (-1) p)
  | Some d =>
      let '(retval, p) :=
        rp_write_info (dev_fd (rp_rd p)) (t_offset t) (t_size t) (read_into buf d) p in
      if decide (retval <> 0) then FreeEnd (rp_set_retval retval p)
      else Go (rp_set_replay_offset (u64 (rp_replay_offset p + t_size t)) (rp_set_retval retval p))
  end.

(** [while (j < keys_per_block) { ... }]: stops at the end record
    ([i == keyb_count && j == count]); also says whether it did. *)
Fixpoint replay_inner (fuel : nat) (kpb i j keyb_count count : Z) (p : replay_st)
  : flow * bool * Z :=
  match fuel with
  | O => (Go p, false, j)
  | S fuel' =>
      if decide (j < kpb) then
        if decide (i = keyb_count /\ j = count) then (Go p, true, j)
        else
          match replay_record (b_tags (rp_blocks p !!! Z.to_nat i) !!! Z.to_nat j) p with
          | FreeEnd p => (FreeEnd p, false, j)
          | Undef => (Undef, false, j)
          | Go p => replay_inner fuel' kpb i (j + 1) keyb_count count p
          end
      else (Go p, false, j)
  end.

(** [for (i = txn_begin_blk; i <= keyb_count && txn_replayed == 0; i++) { ... }] *)
Fixpoint replay_outer (fuel : nat) (kpb i keyb_count count : Z) (p : replay_st) : flow :=
  match fuel with
  | O => Go p
  | S fuel' =>
      if decide (i <= keyb_count) then
        let j := if decide (i = txn_begin_blk (rp_rd p)) then txn_begin_idx (rp_rd p) + 1 else 0 in
        match replay_inner (Z.to_nat kpb + 1) kpb i j keyb_count count p with
        | (FreeEnd p, _, _) => FreeEnd p
        | (Undef, _, _) => Undef
        | (Go p, txn_replayed, j) =>
            let p := if decide (j = kpb)
                     then rp_set_replay_offset (u64 (rp_replay_offset p + REDO_LOG_BLOCK_SIZE)) p
                     else p in
            if txn_replayed then Go p else replay_outer fuel' kpb (i + 1) keyb_count count p
        end
      else Go p
  end.

(** "Mark txn as replayed", and the reset of the transaction fields. *)
Definition mark_replayed (p : replay_st) : replay_st :=
  let bb := txn_begin_blk (rp_rd p) in
  let bi := txn_begin_idx (rp_rd p) in
  let b := rp_blocks p !!! Z.to_nat bb in
  let t := b_tags b !!! Z.to_nat bi in
  let b := mkBlk (b_magic b) (b_crc b) (b_reserved b)
                 (<[Z.to_nat bi := mkTag TXN_REPLAYED_CNST (t_size t) (t_blk_crc t)]> (b_tags b)) in
  let p := rp_set_blocks (<[Z.to_nat bb := b]> (rp_blocks p)) p in
  let '(retval, p) :=
    rp_write_info (redo_fd (rp_rd p)) (rp_keys_offset p !!! Z.to_nat bb) REDO_LOG_BLOCK_SIZE
                  (bytes_of_block b) p in
  rp_set_rd (set_txn 0 0 0 0 (rp_rd p)) (rp_set_retval retval p).

(** The [txn_begin] record of a transaction. *)
Definition replay_begin (keyb_count count : Z) (t : redo_block_tag) (p : replay_st) : replay_st :=
  let p := rp_set_rd (set_txn_id (s32 (t_blk_crc t)) (rp_rd p)) p in
  if decide (t_offset t = TXN_REPLAYED_CNST) then rp_set_is_replayed true p
  else
    let temp_csum := crc32c_le crc_seed (bytes_of_tag t) in
    rp_set_is_replayed false
      (rp_set_rd (set_txn keyb_count count (txn_id (rp_rd p)) (Z.lxor TXN_CHKSM_CNST temp_csum)
                          (rp_rd p)) p).

(** The [txn_end] record: the checksum is computed, a mismatch is only printed. *)
Definition replay_end (kpb keyb_count count : Z) (t : redo_block_tag) (p : replay_st) : flow :=
  if rp_is_replayed p then Go (rp_set_rd (set_txn_id 0 (rp_rd p)) p)
  else
    let t0 := mkTag 0 (t_size t) (t_blk_crc t) in
    let b := rp_keyb p in
    let p := rp_set_keyb (mkBlk (b_magic b) (b_crc b) (b_reserved b)
                                (<[Z.to_nat count := t0]> (b_tags b))) p in
    let temp_csum := crc32c_le crc_seed (bytes_of_tag t0) in
    let p := rp_set_rd (set_txn_csum (Z.lxor (txn_csum (rp_rd p)) temp_csum) (rp_rd p)) p in
    let bb := txn_begin_blk (rp_rd p) in
    match replay_outer (Z.to_nat (keyb_count - bb + 1)) kpb bb keyb_count count p with
    | FreeEnd p => FreeEnd p
    | Undef => Undef
    | Go p => Go (mark_replayed p)
    end.

(** The body of the loop over the tags of one key block. *)
Definition replay_tag (kpb keyb_count count : Z) (p : replay_st) : flow :=
  let t := b_tags (rp_keyb p) !!! Z.to_nat count in
  let p := rp_set_log_offset (u64 (rp_log_offset p + t_size t)) p in
  if decide (t_size t = 0 /\ t_blk_crc t = 0 /\ t_offset t = 0) then Go p
  else if decide (t_size t = 0 /\ t_blk_crc t > 0) then
    if decide (txn_id (rp_rd p) = 0) then Go (replay_begin keyb_count count t p)
    else replay_end kpb keyb_count count t p
  else if rp_is_replayed p then Go p
  else
    let temp_csum := crc32c_le crc_seed (bytes_of_tag t) in
    Go (rp_set_rd (set_txn_csum (Z.lxor (txn_csum (rp_rd p)) temp_csum) (rp_rd p)) p).

Fixpoint replay_tags (fuel : nat) (kpb keyb_count count : Z) (p : replay_st) : flow :=
  match fuel with
  | O => Go p
  | S fuel' =>
      if decide (count < kpb) then
        match replay_tag kpb keyb_count count p with
        | FreeEnd p => FreeEnd p
        | Undef => Undef
        | Go p => replay_tags fuel' kpb keyb_count (count + 1) p
        end
      else Go p
  end.

(** One turn of [while (keyb_count <= hdr->num_keys)].  The store to
    [replay_blocks[keyb_count]] is undefined past the memory that is there for it. *)
Definition replay_block (kpb keyb_count : Z) (p : replay_st) : flow :=
  let '(r, p) := rp_sys (pread (redo_fd (rp_rd p)) REDO_LOG_BLOCK_SIZE (rp_log_offset p)) p in
  match r with
  | None => FreeEnd (rp_set_retval (-1) p)
  | Some d =>
      let p := rp_set_retval (Z.of_nat (length d)) p in
      let b := parse_block (read_into (bytes_of_block (rp_keyb p)) d) in
      let p := rp_set_keyb b p in
      let k := Z.to_nat keyb_count in
      let p := rp_set_keys_offset (<[k := rp_log_offset p]> (rp_keys_offset p)) p in
      match rp_blocks p !! k with
      | None => Undef
      | Some old =>
          let p := rp_set_blocks
                     (<[k := mkBlk (b_magic b) (b_crc b) (b_reserved old) (b_tags b)]>
                        (rp_blocks p)) p in
          let p := rp_set_log_offset (u64 (rp_log_offset p + REDO_LOG_BLOCK_SIZE)) p in
          replay_tags (Z.to_nat kpb) kpb keyb_count 0 p
      end
  end.

Fixpoint replay_loop (fuel : nat) (kpb nkeys keyb_count : Z) (p : replay_st) : flow :=
  match fuel with
  | O => Go p
  | S fuel' =>
      if decide (keyb_count <= nkeys) then
        match replay_block kpb keyb_count p with
        | FreeEnd p => FreeEnd p
        | Undef => Undef
        | Go p => replay_loop fuel' kpb nkeys (keyb_count + 1) p
        end
      else Go p
  end.

(** The checks on the header; [None] when replay goes on. *)
Definition header_crc_ok (h : redo_header) : bool :=
  bool_decide (h_header_crc h
               = crc32c_le crc_seed
                   (bytes_of_header (mkHdr (h_magic h) (h_num_keys h) (h_super_offset h)
                      (h_key_offset h) (h_sb_crc h) (h_state h) 0 (h_padding h)))).

(** The state of the loop before its first turn: [calloc] gives [replay_blocks] exactly
    [num_keys] key blocks (and [keys_offset] one element more); what is after them in
    memory is not the array's. *)
Definition replay_start (o : os) (d : redo_private_data) (h : redo_header) (retval : Z) : replay_st :=
  mkRp o (set_txn 0 0 0 0 d) (parse_block (junk 1 4096))
       (replicate (Z.to_nat (h_num_keys h)) blk0 ++ replicate slack (parse_block (junk 3 4096)))
       (replicate (Z.to_nat (h_num_keys h) + 1) 0)
       (h_key_offset h) (HEADER_SIZE + REDO_LOG_BLOCK_SIZE) false retval.

(** [rfsck_replay].  [check_state] is true in [rfsck-lib]; the copy in
    [rfsck-xfs/libxfs] has the test on [hdr->state] commented out. *)
Definition rfsck_replay (check_state flush : bool) : M Z := fun s =>
  match st_rd s with
  | None => Some (1, s)
  | Some d =>
      let d := set_block_size REDO_LOG_BLOCK_SIZE d in
      let '(r, o) := pread (redo_fd d) HEADER_SIZE 0 (st_os s) in
      match r with
      | None => Some (-1, mkSt o (Some d))
      | Some hb =>
          let h := parse_header (read_into (junk 0 512) hb) in
          if negb (header_crc_ok h) then Some (1, mkSt o (Some d))
          else if check_state && bool_decide (h_state h <> E2REDO_STATE_FINISHED)
          then Some (1, mkSt o (Some d))
          else
            let kpb := KEYS_PER_BLOCK d in
            let nkeys := h_num_keys h in
            match replay_loop (Z.to_nat nkeys + 1) kpb nkeys 0
                    (replay_start o d h (Z.of_nat (length hb))) with
            | Undef => None
            | FreeEnd p => Some (rp_retval p, mkSt (rp_os p) (Some (rp_rd p)))
            | Go p =>
                if flush then
                  let '(retval, o) := fsync (dev_fd (rp_rd p)) (rp_os p) in
                  Some (retval, mkSt o (Some (rp_rd p)))
                else Some (rp_retval p, mkSt (rp_os p) (Some (rp_rd p)))
            end
      end
  end.

(** [rfsck_open]; [mem] is what [malloc] returns in [redo_setup]. *)
Definition rfsck_open (check_state : bool) (mem : option redo_private_data)
  (redo : option string) (dev_fd : Z) : M Z :=
  match redo with
  | None => mret 1
  | Some path =>
      if decide (dev_fd < 1) then mret 1
      else
        fd0 ← sys (sys_open path true);
        if decide (fd0 = -1) then mret 1
        else
          fd ← sys (sys_open path false);
          if decide (fd = -1) then mret 1
          else
            _ ← redo_setup mem dev_fd fd;
            _ ← rfsck_replay check_state true;
            d ← get_rd;
            write_info (redo_fd d) 0 HEADER_SIZE (bytes_of_header (hdr d)) false
  end.

End replay.
