(* ===== verification/RedoLayout.v ===== *)
(** The on-disk layout of the redo log: encoding and decoding of the structures
    of [redo.h], and the positions of key blocks and data in the log file.

    A log is a sequence of entries (transaction begin, redo record, transaction
    end).  Key block [k] holds the tags of entries [255 k .. 255 k + 254] and is
    followed by the data of those entries. *)
From Stdlib Require Import ZArith Lia.
From stdpp Require Import base tactics numbers list gmap strings.
From S2P Require Import Prelude Crc32c Os RedoLog.

(** Sizes such as 255 stay folded under [simpl]. *)
#[global] Arguments Nat.mul : simpl never.
#[global] Arguments Nat.div : simpl never.
#[global] Arguments Nat.modulo : simpl never.
#[global] Arguments Nat.sub : simpl nomatch.
#[global] Arguments replicate : simpl never.
#[global] Arguments take : simpl never.
#[global] Arguments drop : simpl never.
#[global] Arguments Z.mul : simpl never.
#[global] Arguments Z.add : simpl never.

(** * Encoding and decoding *)

Definition wf_tag (t : redo_block_tag) : Prop :=
  in_u 64 (t_offset t) /\ in_u 32 (t_size t) /\ in_u 32 (t_blk_crc t).

Definition wf_block (b : redo_block) : Prop :=
  in_u 32 (b_magic b) /\ in_u 32 (b_crc b) /\ in_u 64 (b_reserved b) /\
  length (b_tags b) = 255%nat /\ Forall wf_tag (b_tags b).

Definition wf_header (h : redo_header) : Prop :=
  length (h_magic h) = 8%nat /\ in_u 64 (h_num_keys h) /\ in_u 64 (h_super_offset h) /\
  in_u 64 (h_key_offset h) /\ in_u 32 (h_sb_crc h) /\ in_u 32 (h_state h) /\
  in_u 32 (h_header_crc h) /\ length (h_padding h) = 468%nat.

Lemma length_bytes_of_tag t : length (bytes_of_tag t) = 16%nat.
Proof. unfold bytes_of_tag. by rewrite !length_app, !length_le_bytes. Qed.

Lemma length_bytes_of_tags ts : length (bytes_of_tags ts) = (16 * length ts)%nat.
Proof.
  unfold bytes_of_tags. induction ts as [|t ts IH]; [done|].
  cbn [fmap list_fmap concat]. rewrite length_app, length_bytes_of_tag, IH. cbn. lia.
Qed.

Lemma length_bytes_of_block b :
  length (bytes_of_block b) = (16 + 16 * length (b_tags b))%nat.
Proof.
  unfold bytes_of_block. rewrite !length_app, !length_le_bytes, length_bytes_of_tags. lia.
Qed.

Lemma zlen_wf_header h : wf_header h -> zlen (bytes_of_header h) = HEADER_SIZE.
Proof.
  intros (Hm & _ & _ & _ & _ & _ & _ & Hp). unfold bytes_of_header, zlen.
  rewrite !length_app, !length_le_bytes, Hm, Hp. done.
Qed.

Lemma zlen_bytes_of_block b :
  length (b_tags b) = 255%nat -> zlen (bytes_of_block b) = REDO_LOG_BLOCK_SIZE.
Proof. intros Hl. unfold zlen. by rewrite length_bytes_of_block, Hl. Qed.

Lemma le_val_bytes8 z : in_u 64 z -> le_val (le_bytes 8 z) = z.
Proof. intros. by apply le_val_bytes_small. Qed.

Lemma le_val_bytes4 z : in_u 32 z -> le_val (le_bytes 4 z) = z.
Proof. intros. by apply le_val_bytes_small. Qed.

(** Reading a field back: skip what precedes it, drop what follows. *)
Lemma slice_here a l n : length a = n -> slice 0 n (a ++ l) = a.
Proof. intros <-. unfold slice. by rewrite drop_0, take_app_length. Qed.

Lemma slice_here_end a n : length a = n -> slice 0 n a = a.
Proof. intros <-. apply slice_full. Qed.

Lemma slice_skip a l o n : (length a <= o)%nat -> slice o n (a ++ l) = slice (o - length a) n l.
Proof. apply slice_app_r. Qed.

Ltac read_fields :=
  repeat (rewrite slice_skip by (rewrite ?length_le_bytes; lia));
  rewrite ?length_le_bytes; simpl Nat.sub;
  rewrite ?slice_here, ?slice_here_end by (rewrite ?length_le_bytes; lia);
  rewrite ?le_val_bytes8, ?le_val_bytes4 by assumption; try done.

Lemma parse_bytes_of_tag t : wf_tag t -> parse_tag (bytes_of_tag t) = t.
Proof.
  intros (H1 & H2 & H3). destruct t as [o s c]. unfold parse_tag, bytes_of_tag.
  cbn [t_offset t_size t_blk_crc] in *.
  f_equal; read_fields.
Qed.

Lemma parse_bytes_of_tags ts :
  Forall wf_tag ts -> parse_tags (length ts) (bytes_of_tags ts) = ts.
Proof.
  induction 1 as [|t ts Ht _ IH]; [done|].
  cbn [length parse_tags]. unfold bytes_of_tags. cbn [fmap list_fmap concat].
  rewrite take_app_length', drop_app_length' by by rewrite length_bytes_of_tag.
  rewrite parse_bytes_of_tag by done. f_equal. apply IH.
Qed.

Lemma parse_bytes_of_block b : wf_block b -> parse_block (bytes_of_block b) = b.
Proof.
  intros (H1 & H2 & H3 & Hl & Ht). destruct b as [m c r ts]. unfold parse_block, bytes_of_block.
  cbn [b_magic b_crc b_reserved b_tags] in *. f_equal; [by read_fields..|].
  rewrite !app_assoc, drop_app_length' by by rewrite !length_app, !length_le_bytes.
  rewrite <- Hl. by apply parse_bytes_of_tags.
Qed.

Lemma parse_bytes_of_header h : wf_header h -> parse_header (bytes_of_header h) = h.
Proof.
  intros (Hm & H1 & H2 & H3 & H4 & H5 & H6 & Hp).
  destruct h as [mg nk so ko sc stt hc pad]. unfold parse_header, bytes_of_header.
  cbn [h_magic h_num_keys h_super_offset h_key_offset h_sb_crc h_state h_header_crc h_padding] in *.
  f_equal; repeat (rewrite slice_skip by (rewrite ?length_le_bytes, ?Hm; lia));
    rewrite ?length_le_bytes, ?Hm; simpl Nat.sub;
    rewrite ?slice_here, ?slice_here_end by (rewrite ?length_le_bytes; lia);
    rewrite ?le_val_bytes8, ?le_val_bytes4 by assumption; done.
Qed.

Lemma bytes_of_tag_range t : Forall (in_u 8) (bytes_of_tag t).
Proof. unfold bytes_of_tag. rewrite !Forall_app. auto with machine. Qed.

Lemma bytes_of_tags_range ts : Forall (in_u 8) (bytes_of_tags ts).
Proof.
  unfold bytes_of_tags. apply Forall_concat, Forall_fmap, Forall_true.
  intros t. apply bytes_of_tag_range.
Qed.

Lemma bytes_of_block_range b : Forall (in_u 8) (bytes_of_block b).
Proof. unfold bytes_of_block. rewrite !Forall_app. auto using bytes_of_tags_range with machine. Qed.

Lemma bytes_of_header_range h :
  Forall (in_u 8) (h_magic h) -> Forall (in_u 8) (h_padding h) ->
  Forall (in_u 8) (bytes_of_header h).
Proof. intros. unfold bytes_of_header. rewrite !Forall_app. auto 20 with machine. Qed.

#[export] Hint Resolve bytes_of_tag_range bytes_of_tags_range bytes_of_block_range : machine.

(** * Entries *)

Inductive entry :=
  | EBegin (id : Z)
  | EWrite (off : Z) (data : list Z)
  | EEnd (id csum : Z).

Definition data_of (e : entry) : list Z :=
  match e with EWrite _ d => d | _ => [] end.

Definition dsum (es : list entry) : Z := foldr (fun e n => zlen (data_of e) + n) 0 es.

(** Offset of key block [k], and of the data of entry [p] of block [k]. *)
Definition blkoff (es : list entry) (k : nat) : Z :=
  HEADER_SIZE + REDO_LOG_BLOCK_SIZE * Z.of_nat k + dsum (take (255 * k) es).
Definition datapos (es : list entry) (k p : nat) : Z :=
  HEADER_SIZE + REDO_LOG_BLOCK_SIZE * (Z.of_nat k + 1) + dsum (take p es).
Definition dataoff (es : list entry) (p : nat) : Z := datapos es (p / 255) p.

Lemma dsum_app es1 es2 : dsum (es1 ++ es2) = dsum es1 + dsum es2.
Proof. unfold dsum. induction es1 as [|e es1 IH]; cbn; [done|]. rewrite IH. lia. Qed.

Lemma dsum_nil : dsum [] = 0.
Proof. done. Qed.

Lemma dsum_one e : dsum [e] = zlen (data_of e).
Proof. unfold dsum. cbn. lia. Qed.

Lemma dsum_nonneg es : 0 <= dsum es.
Proof.
  unfold dsum. induction es as [|e es IH]; cbn; [done|]. pose proof (zlen_nonneg (data_of e)). lia.
Qed.

Lemma dsum_take_S es p e :
  es !! p = Some e -> dsum (take (S p) es) = dsum (take p es) + zlen (data_of e).
Proof. intros H. by rewrite (take_S_r _ _ _ H), dsum_app, dsum_one. Qed.

Lemma dsum_take_mono es p q : (p <= q)%nat -> dsum (take p es) <= dsum (take q es).
Proof.
  intros Hpq. replace q with (p + (q - p))%nat by lia.
  rewrite <- take_take_drop, dsum_app. pose proof (dsum_nonneg (take (q - p) (drop p es))). lia.
Qed.

Lemma dsum_take_all es p : (length es <= p)%nat -> dsum (take p es) = dsum es.
Proof. intros. by rewrite take_ge. Qed.

(** Positions do not move when the log grows. *)
Lemma dsum_take_snoc es e p : (p <= length es)%nat -> dsum (take p (es ++ [e])) = dsum (take p es).
Proof. intros. by rewrite take_app_le. Qed.

#[global] Opaque dsum.
