(* ===== verification/RedoWriter.v ===== *)
(** Writing the redo log: the invariant that ties the in-memory cursor and the
    bytes of the log file to the sequence of entries logged so far, and the
    proof that [rfsck_txn_begin], [rfsck_write], [rfsck_txn_end], [rfsck_flush]
    and [redo_mark_done] preserve it and append exactly the entry they should. *)
From Stdlib Require Import ZArith Lia.
From stdpp Require Import base tactics numbers list gmap strings.
From S2P Require Import Prelude Crc32c Os RedoLog RedoLayout.

(** * Symbolic execution of the monad *)

Lemma bind_some {A B} (m : M A) (f : A -> M B) s x s' :
  m s = Some (x, s') -> mbind f m s = f x s'.
Proof. unfold mbind, M_bind. by intros ->. Qed.

Definition st_with_rd (d : redo_private_data) (s : st) : st :=
  mkSt (st_os s) (Some d).
Definition st_set_file (ino : Z) (f : file) (s : st) : st :=
  mkSt (os_set_file ino f (st_os s)) (st_rd s).

(** What the operations see of a state: the log file and the device behind the
    two descriptors of [redo_data], two different files, and no planned fault. *)
Record view (s : st) (d : redo_private_data) (ri di : Z) (rf df : file) : Prop := {
  v_rd : st_rd s = Some d;
  v_rfd : os_fds (st_os s) !! redo_fd d = Some ri;
  v_rf : os_files (st_os s) !! ri = Some rf;
  v_dfd : os_fds (st_os s) !! dev_fd d = Some di;
  v_df : os_files (st_os s) !! di = Some df;
  v_ne : ri <> di;
  v_plan : os_plan (st_os s) = []
}.

Lemma view_with_rd s d d' ri di rf df :
  view s d ri di rf df -> redo_fd d' = redo_fd d -> dev_fd d' = dev_fd d ->
  view (st_with_rd d' s) d' ri di rf df.
Proof. intros [] H1 H2. split; cbn; congruence. Qed.

Lemma view_set_redo s d ri di rf rf' df :
  view s d ri di rf df -> view (st_set_file ri rf' s) d ri di rf' df.
Proof.
  intros []. split; cbn; try done; [by rewrite lookup_insert_eq|by rewrite lookup_insert_ne].
Qed.

Lemma view_set_dev s d ri di rf df df' :
  view s d ri di rf df -> view (st_set_file di df' s) d ri di rf df'.
Proof.
  intros []. split; cbn; try done; [by rewrite lookup_insert_ne|by rewrite lookup_insert_eq].
Qed.

Lemma get_rd_view s d ri di rf df : view s d ri di rf df -> get_rd s = Some (d, s).
Proof. intros []. unfold get_rd. by rewrite v_rd0. Qed.

Lemma modify_rd_view f s d ri di rf df :
  view s d ri di rf df -> modify_rd f s = Some (tt, st_with_rd (f d) s).
Proof. intros Hv. unfold modify_rd. by rewrite (bind_some _ _ _ _ _ (get_rd_view _ _ _ _ _ _ Hv)). Qed.

(** Run one assignment to [*redo_data], naming the new structure and its view. *)
Ltac name_rd Hv d' Hv' :=
  lazymatch goal with |- context [st_with_rd ?x _] => set (d' := x) end;
  pose proof (view_with_rd _ _ d' _ _ _ _ Hv eq_refl eq_refl) as Hv'.
Ltac run_modify Hv d' Hv' :=
  rewrite (bind_some _ _ _ _ _ (modify_rd_view _ _ _ _ _ _ _ Hv)); name_rd Hv d' Hv'.
Ltac run_get Hv :=
  rewrite (bind_some _ _ _ _ _ (get_rd_view _ _ _ _ _ _ Hv)).

(** ** System calls on the two files *)

Lemma s64_pos z : 0 <= z < 2 ^ 63 -> s64 z = z.
Proof. mlia. Qed.

Lemma pwrite_full o fd ino f buf off :
  os_fds o !! fd = Some ino -> os_files o !! ino = Some f -> os_plan o = [] ->
  0 <= off < 2 ^ 63 ->
  pwrite fd buf off o = (zlen buf, os_set_file ino (f_pwrite (Z.to_nat off) buf f) o).
Proof.
  intros Hfd Hf Hp Hoff. unfold pwrite. rewrite next_outcome_faultless by done.
  unfold fd_file. rewrite Hfd. cbn. rewrite Hf. cbn. rewrite s64_pos by done.
  by rewrite decide_False by lia.
Qed.

Lemma pread_full o fd ino f size off :
  os_fds o !! fd = Some ino -> os_files o !! ino = Some f -> os_plan o = [] ->
  0 <= off < 2 ^ 63 ->
  pread fd size off o = (Some (zslice off size (f_cur f)), o).
Proof.
  intros Hfd Hf Hp Hoff. unfold pread. rewrite next_outcome_faultless by done.
  unfold fd_file. rewrite Hfd. cbn. rewrite Hf. cbn. rewrite s64_pos by done.
  by rewrite decide_False by lia.
Qed.

Lemma fsync_full o fd ino f :
  os_fds o !! fd = Some ino -> os_files o !! ino = Some f -> os_plan o = [] ->
  fsync fd o = (0, os_set_file ino (f_fsync f) o).
Proof.
  intros Hfd Hf Hp. unfold fsync. rewrite next_outcome_faultless by done.
  unfold fd_file. rewrite Hfd. cbn. by rewrite Hf.
Qed.

Lemma write_info_view s d ri di rf df off size buf :
  view s d ri di rf df -> 0 <= off < 2 ^ 63 -> zlen buf = size ->
  write_info (redo_fd d) off size buf false s
  = Some (0, st_set_file ri (f_pwrite (Z.to_nat off) buf rf) s).
Proof.
  intros [] Hoff Hl. unfold write_info.
  rewrite decide_False by (unfold zlen in Hl; lia). rewrite take_zlen by lia.
  unfold mbind, M_bind, sys. rewrite (pwrite_full _ _ ri rf) by done.
  pose proof (zlen_nonneg buf). rewrite decide_False, decide_False by lia. done.
Qed.

Lemma write_info_count_view s d ri di rf df off size buf :
  view s d ri di rf df -> 0 <= off < 2 ^ 63 -> zlen buf = size ->
  write_info (redo_fd d) off size buf true s
  = Some (0, st_with_rd (set_log_offset (u64 (log_offset d + size)) d)
               (st_set_file ri (f_pwrite (Z.to_nat off) buf rf) s)).
Proof.
  intros [] Hoff Hl. unfold write_info.
  rewrite decide_False by (unfold zlen in Hl; lia). rewrite take_zlen by lia.
  unfold mbind, M_bind, sys. rewrite (pwrite_full _ _ ri rf) by done.
  pose proof (zlen_nonneg buf). rewrite decide_False, decide_False by lia.
  unfold modify_rd, get_rd, mbind, M_bind. cbn. rewrite v_rd0. done.
Qed.

(** * The invariant of the log *)

Section writer.
Context `{Checksum}.

Definition tag_of (e : entry) : redo_block_tag :=
  match e with
  | EBegin id => mkTag 0 0 id
  | EWrite off d => mkTag off (zlen d) (crc32c_le crc_seed d)
  | EEnd id cs => mkTag cs 0 id
  end.

Definition wf_entry (e : entry) : Prop :=
  match e with
  | EBegin id => in_u 32 id
  | EWrite off d => in_u 64 off /\ in_u 32 (zlen d) /\ Forall (in_u 8) d
  | EEnd id cs => in_u 32 id /\ in_u 32 cs
  end.

Definition block_tags (es : list entry) (k : nat) : list redo_block_tag :=
  take 255 (drop (255 * k) (tag_of <$> es) ++ replicate 255 tag0).

Definition block_at (es : list entry) (c : list Z) (k : nat) : Prop :=
  exists m crc, in_u 32 m /\ in_u 32 crc /\
    zslice (blkoff es k) REDO_LOG_BLOCK_SIZE c = bytes_of_block (mkBlk m crc 0 (block_tags es k)).

Definition data_at (es : list entry) (c : list Z) (p : nat) : Prop :=
  forall e, es !! p = Some e -> zslice (dataoff es p) (zlen (data_of e)) c = data_of e.

(** The bytes of the log file hold the entries. *)
Definition log_disk (es : list entry) (c : list Z) : Prop :=
  (forall k, (255 * k < length es)%nat -> block_at es c k) /\ (forall p, data_at es c p).

Record log_inv (es : list entry) (d : redo_private_data) (c : list Z) : Prop := {
  li_bs : redo_block_size d = REDO_LOG_BLOCK_SIZE;
  li_nk : num_keys d = Z.of_nat (length es / 255);
  li_kib : keys_in_block d = Z.of_nat (length es `mod` 255);
  li_rbo : redo_block_offset d = blkoff es (length es / 255);
  li_lo : log_offset d = dataoff es (length es);
  li_tags : b_tags (keyb d) = block_tags es (length es / 255);
  li_res : b_reserved (keyb d) = 0;
  li_wf : Forall wf_entry es;
  li_disk : log_disk es c
}.

Lemma crc_seed_range : in_u 32 crc_seed.
Proof. unfold in_u, crc_seed. lia. Qed.

Lemma wf_tag_of e : wf_entry e -> wf_tag (tag_of e).
Proof.
  destruct e as [id|off d|id cs]; cbn; unfold wf_tag; cbn.
  - intros. split_and!; [mlia..|done].
  - intros (? & ? & ?). split_and!; [done..|]. apply crc32c_le_range; [apply crc_seed_range|done].
  - intros [? ?]. split_and!; [mlia..|done].
Qed.

Lemma length_block_tags es k : length (block_tags es k) = 255%nat.
Proof. unfold block_tags. rewrite length_take, length_app, length_replicate. lia. Qed.

Lemma lookup_block_tags es k j :
  (j < 255)%nat ->
  block_tags es k !! j = Some (default tag0 (tag_of <$> es !! (255 * k + j)%nat)).
Proof.
  intros Hj. unfold block_tags. rewrite lookup_take_lt by done.
  destruct (es !! (255 * k + j)%nat) as [e|] eqn:E.
  - rewrite lookup_app_l.
    + by rewrite lookup_drop, list_lookup_fmap, E.
    + rewrite length_drop, length_fmap. apply lookup_lt_Some in E. lia.
  - apply lookup_ge_None in E. rewrite lookup_app_r by (rewrite length_drop, length_fmap; lia).
    cbn. apply lookup_replicate_2. rewrite length_drop, length_fmap. lia.
Qed.

Lemma wf_block_tags es k : Forall wf_entry es -> Forall wf_tag (block_tags es k).
Proof.
  intros Hwf. apply Forall_lookup_2. intros j t Hj.
  assert (j < 255)%nat by (apply lookup_lt_Some in Hj; by rewrite length_block_tags in Hj).
  rewrite lookup_block_tags in Hj by done. injection Hj as <-.
  destruct (es !! (255 * k + j)%nat) as [e|] eqn:E; cbn.
  - eapply wf_tag_of, Forall_lookup_1; done.
  - unfold wf_tag. cbn. split_and!; mlia.
Qed.

(** ** Positions *)

Lemma blkoff_snoc es e k :
  (255 * k <= length es)%nat -> blkoff (es ++ [e]) k = blkoff es k.
Proof. intros. unfold blkoff. by rewrite dsum_take_snoc. Qed.

Lemma dataoff_snoc es e p : (p <= length es)%nat -> dataoff (es ++ [e]) p = dataoff es p.
Proof. intros. unfold dataoff, datapos. by rewrite dsum_take_snoc. Qed.

Lemma block_tags_snoc_old es e k :
  (255 * (k + 1) <= length es)%nat -> block_tags (es ++ [e]) k = block_tags es k.
Proof.
  intros Hk. unfold block_tags. rewrite fmap_app, drop_app_le, <- app_assoc by (rewrite length_fmap; lia).
  rewrite !take_app_le by (rewrite length_drop, length_fmap; lia). done.
Qed.

(** Storing the new tag at its slot is appending the entry. *)
Lemma block_tags_snoc_cur es e :
  <[(length es `mod` 255)%nat := tag_of e]> (block_tags es (length es / 255))
  = block_tags (es ++ [e]) (length es / 255).
Proof.
  pose proof (Nat.div_mod_eq (length es) 255) as Hdm.
  pose proof (Nat.mod_upper_bound (length es) 255 ltac:(lia)) as Hm.
  apply list_eq. intros j. destruct (decide (j < 255)%nat) as [Hj|Hj].
  - rewrite lookup_block_tags by done.
    destruct (decide (j = length es `mod` 255)%nat) as [->|Hne].
    + rewrite list_lookup_insert_eq by (rewrite length_block_tags; lia).
      rewrite lookup_app_r by lia.
      replace (255 * (length es / 255) + length es `mod` 255 - length es)%nat with 0%nat by lia.
      done.
    + rewrite list_lookup_insert_ne, lookup_block_tags by done. do 3 f_equal.
      destruct (decide (255 * (length es / 255) + j < length es)%nat).
      * by rewrite lookup_app_l.
      * rewrite !lookup_ge_None_2; [done|rewrite length_app; cbn; lia|lia].
  - rewrite !lookup_ge_None_2; [done|rewrite length_block_tags; lia|].
    rewrite length_insert, length_block_tags. lia.
Qed.

Lemma block_tags_fresh es k :
  (length es <= 255 * k)%nat -> block_tags es k = replicate 255 tag0.
Proof.
  intros. unfold block_tags. rewrite drop_ge by (rewrite length_fmap; lia).
  cbn [app]. apply take_ge. by rewrite length_replicate.
Qed.

Lemma blkoff_le_dataoff es k p :
  (k <= p / 255)%nat -> blkoff es k + REDO_LOG_BLOCK_SIZE <= dataoff es p.
Proof.
  intros Hk. unfold blkoff, dataoff, datapos, REDO_LOG_BLOCK_SIZE.
  pose proof (dsum_take_mono es (255 * k) p ltac:(pose proof (Nat.div_mod_eq p 255); lia)). lia.
Qed.

Lemma dataoff_le_blkoff es p e k :
  es !! p = Some e -> (p / 255 < k)%nat -> dataoff es p + zlen (data_of e) <= blkoff es k.
Proof.
  intros He Hk. unfold blkoff, dataoff, datapos, REDO_LOG_BLOCK_SIZE.
  pose proof (dsum_take_S es p e He).
  pose proof (dsum_take_mono es (S p) (255 * k)
    ltac:(pose proof (Nat.div_mod_eq p 255); pose proof (Nat.mod_upper_bound p 255); lia)). lia.
Qed.

Lemma dataoff_mono es p e q :
  es !! p = Some e -> (p < q)%nat -> dataoff es p + zlen (data_of e) <= dataoff es q.
Proof.
  intros He Hq. unfold dataoff, datapos, REDO_LOG_BLOCK_SIZE.
  pose proof (dsum_take_S es p e He). pose proof (dsum_take_mono es (S p) q ltac:(lia)).
  pose proof (Nat.Div0.div_le_mono p q 255 ltac:(lia)). lia.
Qed.

Lemma blkoff_step es k k' :
  (k < k')%nat -> blkoff es k + REDO_LOG_BLOCK_SIZE <= blkoff es k'.
Proof.
  intros Hk. unfold blkoff, REDO_LOG_BLOCK_SIZE.
  pose proof (dsum_take_mono es (255 * k) (255 * k') ltac:(lia)). lia.
Qed.

Lemma blkoff_pos es k : HEADER_SIZE <= blkoff es k.
Proof.
  unfold blkoff, HEADER_SIZE, REDO_LOG_BLOCK_SIZE.
  pose proof (dsum_nonneg (take (255 * k) es)). lia.
Qed.

Lemma dataoff_pos es p : HEADER_SIZE <= dataoff es p.
Proof.
  unfold dataoff, datapos, HEADER_SIZE, REDO_LOG_BLOCK_SIZE.
  pose proof (dsum_nonneg (take p es)). lia.
Qed.

(** ** Appending an entry to the file

    [c1] is the file after the data of the entry has been written at the end of
    the log, [c2] after the current key block has been rewritten. *)

Definition data_appended (es : list entry) (e : entry) (c c1 : list Z) : Prop :=
  zlen c <= zlen c1 /\
  zslice (dataoff es (length es)) (zlen (data_of e)) c1 = data_of e /\
  forall o n, 0 <= o -> o + n <= dataoff es (length es) -> o + n <= zlen c ->
              zslice o n c1 = zslice o n c.

Lemma data_appended_none es e c : data_of e = [] -> data_appended es e c c.
Proof. intros He. unfold data_appended. rewrite He. split_and!; [lia|apply zslice_0|done]. Qed.

Lemma data_appended_write es off d c :
  data_appended es (EWrite off d) c (zsplice (dataoff es (length es)) d c).
Proof.
  pose proof (dataoff_pos es (length es)) as Hp. unfold HEADER_SIZE in Hp.
  split_and!.
  - rewrite zlen_splice by lia. lia.
  - by apply zslice_zsplice_eq.
  - intros o n Ho Hn Hl. apply zslice_zsplice_disjoint; lia.
Qed.

(** Everything but key block [k] is on disk. *)
Definition log_disk_but (k : nat) (es : list entry) (c : list Z) : Prop :=
  (forall k', (255 * k' < length es)%nat -> k' <> k -> block_at es c k') /\
  (forall p, data_at es c p).

Lemma log_disk_weaken k es c : log_disk es c -> log_disk_but k es c.
Proof. intros [Hb Hd]. split; eauto. Qed.

Lemma block_at_inside es c k :
  block_at es c k -> blkoff es k + REDO_LOG_BLOCK_SIZE <= zlen c.
Proof.
  intros (m & crc & _ & _ & Hs). pose proof (blkoff_pos es k) as Hp. unfold HEADER_SIZE in Hp.
  eapply zslice_inside; [exact Hs| |done|lia]. apply zlen_bytes_of_block, length_block_tags.
Qed.

(** Data of length zero is on disk wherever; other data lies inside the file. *)
Lemma data_at_inside es c p e :
  data_at es c p -> es !! p = Some e ->
  zlen (data_of e) = 0 \/ dataoff es p + zlen (data_of e) <= zlen c.
Proof.
  intros Hd He. pose proof (zlen_nonneg (data_of e)). pose proof (dataoff_pos es p) as Hp.
  unfold HEADER_SIZE in Hp. destruct (decide (zlen (data_of e) = 0)); [by left|right].
  eapply zslice_inside; [by apply Hd|done|lia..].
Qed.

Lemma zslice_zero_len o n c d : n = 0 -> zlen d = 0 -> zslice o n c = d.
Proof. intros -> Hd. rewrite zslice_0. destruct d; [done|]. unfold zlen in Hd. cbn in Hd. lia. Qed.

(** Rewriting key block [k] disturbs neither data nor the other key blocks. *)
Lemma data_at_write_block es c k x p :
  zlen x = REDO_LOG_BLOCK_SIZE -> data_at es c p -> data_at es (zsplice (blkoff es k) x c) p.
Proof.
  intros Hx Hd e He. pose proof (blkoff_pos es k) as Hbp. unfold HEADER_SIZE in Hbp.
  pose proof (data_at_inside es c p e Hd He) as [Hz|Hin].
  { rewrite Hz. by apply zslice_zero_len. }
  pose proof (dataoff_pos es p) as Hp. unfold HEADER_SIZE in Hp.
  rewrite zslice_zsplice_disjoint; [by apply Hd|lia..|]. rewrite Hx.
  destruct (decide (p / 255 < k)%nat); [left; by apply dataoff_le_blkoff|].
  right. apply blkoff_le_dataoff. lia.
Qed.

Lemma block_at_write_block es c k k' x :
  zlen x = REDO_LOG_BLOCK_SIZE -> k' <> k -> block_at es c k' ->
  block_at es (zsplice (blkoff es k) x c) k'.
Proof.
  intros Hx Hne Hat. pose proof (block_at_inside es c k' Hat).
  destruct Hat as (m & crc & Hm & Hc & Hs). exists m, crc. split_and!; [done..|]. rewrite <- Hs.
  pose proof (blkoff_pos es k) as Hbp. pose proof (blkoff_pos es k') as Hbp'. unfold HEADER_SIZE in *.
  apply zslice_zsplice_disjoint; [lia..|]. rewrite Hx.
  destruct (decide (k' < k)%nat); [left|right]; apply blkoff_step; lia.
Qed.

(** Writing the missing key block completes the log. *)
Lemma log_disk_write_block k es c m crc :
  log_disk_but k es c -> in_u 32 m -> in_u 32 crc ->
  log_disk es (zsplice (blkoff es k) (bytes_of_block (mkBlk m crc 0 (block_tags es k))) c).
Proof.
  intros [Hb Hd] Hm Hc.
  assert (Hlb : zlen (bytes_of_block (mkBlk m crc 0 (block_tags es k))) = REDO_LOG_BLOCK_SIZE)
    by (apply zlen_bytes_of_block, length_block_tags).
  split; [|intros p; by apply data_at_write_block].
  intros k' Hk'. destruct (decide (k' = k)) as [->|Hne].
  - exists m, crc. split_and!; [done..|]. by apply zslice_zsplice_eq.
  - apply block_at_write_block; auto.
Qed.

(** Appending the data of an entry leaves only the current block to write. *)
Lemma log_disk_append_data es e c c1 :
  log_disk es c -> data_appended es e c c1 -> log_disk_but (length es / 255) (es ++ [e]) c1.
Proof.
  set (n := length es). intros [Hb Hd] (Hl & Hdat & Hold). fold n in Hdat, Hold, Hb.
  pose proof (Nat.div_mod_eq n 255) as Hdm. pose proof (Nat.mod_upper_bound n 255 ltac:(lia)).
  assert (HBS : 0 < REDO_LOG_BLOCK_SIZE) by done.
  split.
  - intros k' Hk' Hne. rewrite length_app in Hk'. cbn in Hk'. fold n in Hk'.
    assert (Hk : (k' < n / 255)%nat) by lia.
    pose proof (Hb k' ltac:(fold n; lia)) as Hat. pose proof (block_at_inside _ _ _ Hat).
    destruct Hat as (m' & crc' & Hm' & Hc' & Hs). exists m', crc'. split_and!; [done..|].
    rewrite blkoff_snoc, block_tags_snoc_old by (fold n; lia). rewrite <- Hs.
    pose proof (blkoff_pos es k') as Hbp'. unfold HEADER_SIZE in Hbp'.
    pose proof (blkoff_le_dataoff es k' n ltac:(lia)). apply Hold; lia.
  - intros p e' He'. destruct (decide (p < n)%nat) as [Hp|Hp].
    + rewrite lookup_app_l in He' by done. rewrite dataoff_snoc by (fold n; lia).
      pose proof (data_at_inside es c p e' (Hd p) He') as [Hz|Hin].
      { rewrite Hz. by apply zslice_zero_len. }
      pose proof (dataoff_pos es p) as Hdp. unfold HEADER_SIZE in Hdp.
      pose proof (dataoff_mono es p e' n He' Hp). rewrite Hold; [by apply Hd|lia..].
    + assert (p = n) as ->.
      { apply lookup_lt_Some in He'. rewrite length_app in He'. cbn in He'. fold n in He'. lia. }
      rewrite lookup_app_r, Nat.sub_diag in He' by (fold n; lia). injection He' as <-.
      by rewrite dataoff_snoc by (fold n; lia).
Qed.

(** ** The cursor after an entry *)

Definition fits (es : list entry) : Prop := dataoff es (length es) < 2 ^ 63.

Lemma div_mod_succ n :
  (n `mod` 255 = 254 /\ S n / 255 = S (n / 255) /\ S n `mod` 255 = 0)%nat \/
  (n `mod` 255 < 254 /\ S n / 255 = n / 255 /\ S n `mod` 255 = S (n `mod` 255))%nat.
Proof.
  pose proof (Nat.div_mod_eq n 255) as H1. pose proof (Nat.mod_upper_bound n 255 ltac:(lia)) as H2.
  pose proof (Nat.div_mod_eq (S n) 255) as H3. pose proof (Nat.mod_upper_bound (S n) 255 ltac:(lia)) as H4.
  destruct (decide (n `mod` 255 = 254)%nat); [left|right]; lia.
Qed.

(** The cursor fields just before [roll_block]. *)
Record advanced (es : list entry) (e : entry) (d : redo_private_data) : Prop := {
  ad_bs : redo_block_size d = REDO_LOG_BLOCK_SIZE;
  ad_nk : num_keys d = Z.of_nat (length es / 255);
  ad_kib : keys_in_block d = Z.of_nat (length es `mod` 255) + 1;
  ad_rbo : redo_block_offset d = blkoff es (length es / 255);
  ad_lo : log_offset d = dataoff es (length es) + zlen (data_of e);
  ad_tags : b_tags (keyb d) = block_tags (es ++ [e]) (length es / 255);
  ad_res : b_reserved (keyb d) = 0
}.

Lemma log_inv_roll es e d c :
  advanced es e d -> Forall wf_entry es -> wf_entry e -> log_disk (es ++ [e]) c ->
  fits (es ++ [e]) -> log_inv (es ++ [e]) (roll_rd d) c.
Proof.
  intros [] Hwf He Hdisk Hfit.
  assert (Hlen : length (es ++ [e]) = S (length es)) by (rewrite length_app; cbn; lia).
  assert (Hsum : dsum (take (S (length es)) (es ++ [e])) = dsum es + zlen (data_of e)).
  { rewrite take_ge by lia. by rewrite dsum_app, dsum_one. }
  assert (Hsum0 : dsum (take (length es) es) = dsum es) by by apply dsum_take_all.
  unfold fits in Hfit. rewrite Hlen in Hfit. unfold dataoff, datapos in Hfit, ad_lo0.
  rewrite Hsum in Hfit. rewrite Hsum0 in ad_lo0.
  pose proof (dsum_nonneg es). pose proof (zlen_nonneg (data_of e)).
  unfold roll_rd, KEYS_PER_BLOCK. rewrite ad_bs0, ad_kib0.
  change (REDO_LOG_BLOCK_SIZE / TAG_SIZE - 1) with 255.
  unfold REDO_LOG_BLOCK_SIZE, HEADER_SIZE in *.
  destruct (div_mod_succ (length es)) as [(Hm & Hd & Hm')|(Hm & Hd & Hm')].
  - rewrite decide_True by lia. rewrite Hd in Hfit. split; cbn; rewrite ?Hlen, ?Hd, ?Hm'; try done.
    + rewrite ad_nk0, u64_small; unfold in_u; pow2_norm; lia.
    + rewrite ad_lo0. unfold blkoff, REDO_LOG_BLOCK_SIZE, HEADER_SIZE.
      rewrite dsum_take_all; [rewrite dsum_app, dsum_one; lia|].
      rewrite Hlen. pose proof (Nat.div_mod_eq (length es) 255). lia.
    + rewrite ad_lo0, u64_small by (unfold in_u; pow2_norm; lia).
      unfold dataoff, datapos, REDO_LOG_BLOCK_SIZE, HEADER_SIZE. rewrite Hsum, Hd. lia.
    + symmetry. apply block_tags_fresh. rewrite Hlen.
      pose proof (Nat.div_mod_eq (length es) 255). lia.
    + apply Forall_app. split; [done|]. by apply Forall_singleton.
  - rewrite decide_False by lia. split; rewrite ?Hlen, ?Hd, ?Hm'; try done.
    + rewrite ad_kib0. lia.
    + rewrite blkoff_snoc; [done|]. pose proof (Nat.div_mod_eq (length es) 255). lia.
    + rewrite ad_lo0. unfold dataoff, datapos, REDO_LOG_BLOCK_SIZE, HEADER_SIZE.
      rewrite Hsum, Hd. lia.
    + apply Forall_app. split; [done|]. by apply Forall_singleton.
Qed.

End writer.

(** * What the writer does to the log file

    Writes outside the header, and flushes; every earlier state of the two files
    is in the history. *)

Inductive log_io (ri di : Z) (df : file) (h0 : list (gmap Z file)) (f0 : file)
  : list (gmap Z file) -> file -> Prop :=
  | log_io_refl : log_io ri di df h0 f0 h0 f0
  | log_io_write h f off d m :
      log_io ri di df h0 f0 h f -> HEADER_SIZE <= off -> m !! ri = Some f -> m !! di = Some df ->
      log_io ri di df h0 f0 (m :: h) (f_pwrite (Z.to_nat off) d f)
  | log_io_fsync h f m :
      log_io ri di df h0 f0 h f -> m !! ri = Some f -> m !! di = Some df ->
      log_io ri di df h0 f0 (m :: h) (f_fsync f).

Lemma log_io_trans ri di df h0 f0 h1 f1 h2 f2 :
  log_io ri di df h0 f0 h1 f1 -> log_io ri di df h1 f1 h2 f2 -> log_io ri di df h0 f0 h2 f2.
Proof. intros H1 H2. induction H2; eauto using log_io. Qed.

#[export] Hint Constructors log_io : machine.
#[export] Hint Resolve log_io_trans : machine.
