(* ===== verification/RedoOps.v ===== *)
(** Functional specifications of the writing operations of [redo.c]: each one
    appends one entry to the log, keeps the invariant [log_inv], touches neither
    the device nor the header of the log file, and returns 0. *)
From Stdlib Require Import ZArith Lia.
From stdpp Require Import base tactics numbers list gmap strings.
From S2P Require Import Prelude Crc32c Os RedoLog RedoLayout RedoWriter.

Section ops.
Context `{Checksum} `{Heap}.

Lemma hash_loop_range h str : in_u 32 h -> in_u 32 (hash_loop h str).
Proof.
  revert h. induction str as [|c str IH]; intros h Hh; cbn [hash_loop]; [done|].
  case_decide; [done|]. apply IH. apply u32_range.
Qed.

Lemma hash_range str : in_u 32 (hash str).
Proof. apply hash_loop_range. unfold in_u. lia. Qed.

Lemma seal_block_tags r b : b_tags (seal_block r b) = b_tags b.
Proof. done. Qed.

Lemma seal_block_shape r b :
  b_reserved b = 0 ->
  exists m c, in_u 32 m /\ in_u 32 c /\ seal_block r b = mkBlk m c 0 (b_tags b).
Proof.
  intros Hr. unfold seal_block, set_magic_crc. rewrite Hr. cbn [b_magic b_tags].
  eexists _, _. split_and!; [apply hash_range| |by destruct r].
  apply crc32c_le_range; [apply crc_seed_range|apply bytes_of_block_range].
Qed.

(** ** Single steps *)

Lemma store_tag_view t s d ri di rf df :
  view s d ri di rf df -> keys_in_block d < 255 ->
  store_tag t s
  = Some (tt, st_with_rd
       (set_keyb (mkBlk (b_magic (keyb d)) (b_crc (keyb d)) (b_reserved (keyb d))
                        (<[Z.to_nat (keys_in_block d) := t]> (b_tags (keyb d)))) d) s).
Proof.
  intros Hv Hk. unfold store_tag. run_get Hv.
  by rewrite decide_True.
Qed.

Lemma write_keyb_view s d ri di rf df :
  view s d ri di rf df -> 0 <= redo_block_offset d < 2 ^ 63 ->
  length (b_tags (keyb d)) = 255%nat ->
  write_keyb s
  = Some (0, st_set_file ri
               (f_pwrite (Z.to_nat (redo_block_offset d)) (bytes_of_block (keyb d)) rf) s).
Proof.
  intros Hv Ho Hl. unfold write_keyb. run_get Hv.
  eapply write_info_view; [done..|]. by apply zlen_bytes_of_block.
Qed.

(** Run a store to the tag array. *)
Ltac run_store Hv Hk d' Hv' :=
  rewrite (bind_some _ _ _ _ _ (store_tag_view _ _ _ _ _ _ _ Hv Hk)); name_rd Hv d' Hv'.

(** ** The state after an operation *)

(** [s'] is [s] with one more entry in the log: same header, same transaction
    counter unless the entry ends a transaction, same device. *)
Record logged (es' : list entry) (ri di : Z) (rf df : file) (d : redo_private_data)
  (s s' : st) (d' : redo_private_data) (rf' : file) : Prop := {
  lg_view : view s' d' ri di rf' df;
  lg_inv : log_inv es' d' (f_cur rf');
  lg_io : log_io ri di df (os_hist (st_os s)) rf (os_hist (st_os s')) rf';
  lg_hdr : hdr d' = hdr d
}.

Lemma roll_rd_hdr d : hdr (roll_rd d) = hdr d.
Proof. unfold roll_rd. by case_decide. Qed.
Lemma roll_rd_txn_id d : txn_id (roll_rd d) = txn_id d.
Proof. unfold roll_rd. by case_decide. Qed.
Lemma roll_rd_txn_csum d : txn_csum (roll_rd d) = txn_csum d.
Proof. unfold roll_rd. by case_decide. Qed.
Lemma roll_rd_fds d : redo_fd (roll_rd d) = redo_fd d /\ dev_fd (roll_rd d) = dev_fd d.
Proof. unfold roll_rd. by case_decide. Qed.

Lemma kib_lt es d c : log_inv es d c -> keys_in_block d < 255.
Proof.
  intros Hi. rewrite (li_kib _ _ _ Hi).
  pose proof (Nat.mod_upper_bound (length es) 255 ltac:(lia)). lia.
Qed.

Lemma rbo_range es d c : log_inv es d c -> fits es -> 0 <= redo_block_offset d < 2 ^ 63.
Proof.
  intros Hi Hf. rewrite (li_rbo _ _ _ Hi). unfold fits in Hf.
  pose proof (blkoff_pos es (length es / 255)).
  pose proof (blkoff_le_dataoff es (length es / 255) (length es) ltac:(lia)).
  unfold HEADER_SIZE, REDO_LOG_BLOCK_SIZE in *. lia.
Qed.

Lemma fits_snoc es e : fits (es ++ [e]) -> fits es /\ dataoff es (length es) + zlen (data_of e) < 2 ^ 63.
Proof.
  unfold fits. rewrite length_app. cbn [length]. intros Hf.
  pose proof (dataoff_mono (es ++ [e]) (length es) e (length es + 1)
    ltac:(by rewrite lookup_app_r, Nat.sub_diag) ltac:(lia)) as Hm.
  rewrite dataoff_snoc in Hm by done. pose proof (zlen_nonneg (data_of e)). lia.
Qed.

(** Storing the tag of [e], and sealing the block. *)
Lemma stored_tags es d c e :
  log_inv es d c ->
  <[Z.to_nat (keys_in_block d) := tag_of e]> (b_tags (keyb d))
  = block_tags (es ++ [e]) (length es / 255).
Proof.
  intros Hi. rewrite (li_kib _ _ _ Hi), (li_tags _ _ _ Hi), Nat2Z.id.
  apply block_tags_snoc_cur.
Qed.

Lemma u64_succ_kib es d c :
  log_inv es d c -> u64 (keys_in_block d + 1) = Z.of_nat (length es `mod` 255) + 1.
Proof.
  intros Hi. pose proof (kib_lt _ _ _ Hi). rewrite <- (li_kib _ _ _ Hi).
  apply u64_small. unfold in_u. rewrite (li_kib _ _ _ Hi) in *. pow2_norm. lia.
Qed.

Lemma f_cur_pwrite_z off d f : 0 <= off -> f_cur (f_pwrite (Z.to_nat off) d f) = zsplice off d (f_cur f).
Proof. intros. apply f_cur_pwrite. Qed.

(** The magic and checksum of a block that is about to be written. *)
Definition sealed (b : redo_block) : Prop := in_u 32 (b_magic b) /\ in_u 32 (b_crc b).

Lemma seal_block_sealed r b : b_reserved b = 0 -> sealed (seal_block r b).
Proof. intros Hr. by destruct (seal_block_shape r b Hr) as (m & c & Hm & Hc & ->). Qed.

Lemma seal_block_reserved r b : b_reserved b = 0 -> b_reserved (seal_block r b) = 0.
Proof. intros Hr. by destruct (seal_block_shape r b Hr) as (m & c & _ & _ & ->). Qed.

(** The common end of the three operations: data already appended, the sealed
    key block written, the cursor advanced. *)
Lemma log_inv_append es e d rf rf1 dk :
  log_inv es d (f_cur rf) -> data_appended es e (f_cur rf) (f_cur rf1) ->
  wf_entry e -> fits (es ++ [e]) -> advanced es e dk -> sealed (keyb dk) ->
  log_inv (es ++ [e]) (roll_rd dk)
    (f_cur (f_pwrite (Z.to_nat (redo_block_offset dk)) (bytes_of_block (keyb dk)) rf1)).
Proof.
  intros Hi Hd He Hf Ha [Hm Hc]. apply log_inv_roll; [done|apply Hi|done| |done].
  pose proof (blkoff_pos es (length es / 255)) as Hp. unfold HEADER_SIZE in Hp.
  rewrite (ad_rbo _ _ _ Ha), f_cur_pwrite_z by lia.
  pose proof (ad_tags _ _ _ Ha) as Ht. pose proof (ad_res _ _ _ Ha) as Hr.
  destruct (keyb dk) as [m c r ts]. cbn in Hm, Hc, Ht, Hr. subst r ts.
  rewrite <- (blkoff_snoc es e) by (pose proof (Nat.div_mod_eq (length es) 255); lia).
  apply log_disk_write_block; [|done..].
  eapply log_disk_append_data; [apply Hi|done].
Qed.

Lemma log_io_keyb ri di df h0 f0 h f es d c b m :
  log_inv es d c -> log_io ri di df h0 f0 h f -> m !! ri = Some f -> m !! di = Some df ->
  log_io ri di df h0 f0 (m :: h) (f_pwrite (Z.to_nat (redo_block_offset d)) b f).
Proof.
  intros Hi Hio Hm1 Hm2. constructor; [done| |done..]. rewrite (li_rbo _ _ _ Hi). apply blkoff_pos.
Qed.

(** ** [rfsck_txn_begin] *)
Lemma uninitialised_bind {A} (f : Z -> M A) s : (uninitialised ≫= f) s = f (indet s) s.
Proof. done. Qed.

Lemma txn_begin_spec es s d ri di rf df :
  lucky -> view s d ri di rf df -> log_inv es d (f_cur rf) -> in_u 32 (txn_id d) ->
  fits (es ++ [EBegin (txn_id d)]) ->
  exists s' d' rf',
    rfsck_txn_begin s = Some (0, s') /\
    logged (es ++ [EBegin (txn_id d)]) ri di rf df d s s' d' rf' /\
    txn_id d' = txn_id d /\
    txn_csum d' = Z.lxor TXN_CHKSM_CNST (crc32c_le crc_seed (bytes_of_tag (mkTag 0 0 (txn_id d)))).
Proof.
  intros Hlk Hv Hi Hid Hf. set (e := EBegin (txn_id d)) in *.
  pose proof (fits_snoc _ _ Hf) as [Hf0 _].
  pose proof (kib_lt _ _ _ Hi) as Hk. pose proof (rbo_range _ _ _ Hi Hf0) as Hrbo.
  pose proof (stored_tags _ _ _ e Hi) as Hst. cbn [tag_of e] in Hst.
  unfold rfsck_txn_begin. run_get Hv.
  rewrite (u32_small (txn_id d)) by done.
  run_store Hv Hk d1 Hv1.
  run_modify Hv1 d2 Hv2.
  rewrite uninitialised_bind, lucky_indet by done. rewrite decide_False by lia.
  run_modify Hv2 d3 Hv3.
  run_modify Hv3 d4 Hv4.
  assert (Ht4 : b_tags (keyb d4) = block_tags (es ++ [e]) (length es / 255)) by done.
  rewrite (bind_some _ _ _ _ _ (write_keyb_view _ _ _ _ _ _ Hv4 Hrbo
             ltac:(by rewrite Ht4, length_block_tags))).
  assert (Hv5 := view_set_redo _ _ _ _ _ (f_pwrite (Z.to_nat (redo_block_offset d4))
                    (bytes_of_block (keyb d4)) rf) _ Hv4).
  rewrite decide_False by lia.
  unfold roll_block. rewrite (bind_some _ _ _ _ _ (modify_rd_view _ _ _ _ _ _ _ Hv5)).
  destruct (roll_rd_fds d4) as [Hr1 Hr2].
  assert (Hv6 := view_with_rd _ _ (roll_rd d4) _ _ _ _ Hv5 Hr1 Hr2).
  eexists _, (roll_rd d4), _. split; [reflexivity|].
  rewrite roll_rd_txn_id, roll_rd_txn_csum. split; [|split; reflexivity].
  split; [exact Hv6| | |by rewrite roll_rd_hdr].
  - apply (log_inv_append es e d rf); [done|by apply data_appended_none|done..| |].
    + split; try apply Hi; try done; cbn; [by rewrite (u64_succ_kib _ _ _ Hi)|].
      rewrite (li_lo _ _ _ Hi). unfold zlen. cbn. lia.
    + apply seal_block_sealed. apply (li_res _ _ _ Hi).
  - eapply (log_io_keyb _ _ _ _ _ _ _ es d (f_cur rf)); [done|constructor|apply Hv..].
Qed.

(** ** [rfsck_write] *)
Lemma write_spec es s d ri di rf df off buf :
  view s d ri di rf df -> log_inv es d (f_cur rf) -> wf_entry (EWrite off buf) ->
  fits (es ++ [EWrite off buf]) ->
  exists s' d' rf',
    rfsck_write off (zlen buf) buf s = Some (0, s') /\
    logged (es ++ [EWrite off buf]) ri di rf df d s s' d' rf' /\
    txn_id d' = txn_id d /\
    txn_csum d' = Z.lxor (txn_csum d)
                    (crc32c_le crc_seed (bytes_of_tag (tag_of (EWrite off buf)))).
Proof.
  intros Hv Hi Hwf Hf. set (e := EWrite off buf) in *.
  pose proof (fits_snoc _ _ Hf) as [Hf0 Hfd]. cbn [data_of e] in Hfd.
  pose proof (kib_lt _ _ _ Hi) as Hk. pose proof (rbo_range _ _ _ Hi Hf0) as Hrbo.
  pose proof (dataoff_pos es (length es)) as Hdp. unfold HEADER_SIZE in Hdp.
  pose proof (zlen_nonneg buf) as Hbn. pose proof (li_lo _ _ _ Hi) as Hlo.
  pose proof (stored_tags _ _ _ e Hi) as Hst. cbn [tag_of e] in Hst.
  unfold rfsck_write. rewrite decide_False by (unfold zlen; lia). rewrite take_zlen by lia.
  run_get Hv.
  run_store Hv Hk d1 Hv1.
  run_modify Hv1 d2 Hv2.
  rewrite (bind_some _ _ _ _ _ (write_info_count_view _ d2 _ _ _ _ (log_offset d) (zlen buf) buf
             Hv2 ltac:(lia) eq_refl)).
  assert (Hv3 := view_set_redo _ _ _ _ _ (f_pwrite (Z.to_nat (log_offset d)) buf rf) _ Hv2).
  set (d4 := set_log_offset _ d2). assert (Hv4 := view_with_rd _ _ d4 _ _ _ _ Hv3 eq_refl eq_refl).
  rewrite decide_False by lia.
  run_modify Hv4 d5 Hv5.
  assert (Ht5 : b_tags (keyb d5) = block_tags (es ++ [e]) (length es / 255)) by done.
  rewrite (bind_some _ _ _ _ _ (write_keyb_view _ _ _ _ _ _ Hv5 Hrbo
             ltac:(by rewrite Ht5, length_block_tags))).
  assert (Hv6 := view_set_redo _ _ _ _ _ (f_pwrite (Z.to_nat (redo_block_offset d5))
     (bytes_of_block (keyb d5)) (f_pwrite (Z.to_nat (log_offset d)) buf rf)) _ Hv5).
  rewrite decide_False by lia.
  run_modify Hv6 d7 Hv7.
  unfold roll_block. rewrite (bind_some _ _ _ _ _ (modify_rd_view _ _ _ _ _ _ _ Hv7)).
  destruct (roll_rd_fds d7) as [Hr1 Hr2].
  assert (Hv8 := view_with_rd _ _ (roll_rd d7) _ _ _ _ Hv7 Hr1 Hr2).
  eexists _, (roll_rd d7), _. split; [reflexivity|].
  rewrite roll_rd_txn_id, roll_rd_txn_csum. split; [|split; reflexivity].
  split; [exact Hv8| | |by rewrite roll_rd_hdr].
  - change (redo_block_offset d5) with (redo_block_offset d7). change (keyb d5) with (keyb d7).
    apply (log_inv_append es e d rf); [done| |done..| |].
    + rewrite f_cur_pwrite_z, Hlo by lia. apply data_appended_write.
    + split; try apply Hi; try done; cbn; [by rewrite (u64_succ_kib _ _ _ Hi)|].
      rewrite Hlo. apply u64_small. unfold in_u. pow2_norm. lia.
    + apply seal_block_sealed. apply (li_res _ _ _ Hi).
  - eapply (log_io_keyb _ _ _ _ _ _ _ es d (f_cur rf)); [done| |apply Hv5..].
    constructor; [constructor|rewrite Hlo; apply dataoff_pos|apply Hv..].
Qed.

(** ** [rfsck_flush] *)

(** The files between the calls of a flush: the key block is written, then forced
    out. *)
Definition flush_files (es : list entry) (ri di : Z) (rf df : file) (s s' : st) (rf' : file) : Prop :=
  exists m c m1,
    in_u 32 m /\ in_u 32 c /\
    let rf1 := f_pwrite (Z.to_nat (blkoff es (length es / 255)))
                 (bytes_of_block (mkBlk m c 0 (block_tags es (length es / 255)))) rf in
    rf' = f_fsync rf1 /\ m1 !! ri = Some rf1 /\ m1 !! di = Some df /\
    os_hist (st_os s') = m1 :: os_files (st_os s) :: os_hist (st_os s).

Lemma flush_spec es s d ri di rf df :
  view s d ri di rf df -> log_inv es d (f_cur rf) -> fits es ->
  exists s' d' rf',
    rfsck_flush s = Some (0, s') /\ logged es ri di rf df d s s' d' rf' /\
    txn_id d' = txn_id d /\ txn_csum d' = txn_csum d /\ f_pending rf' = [] /\
    block_at es (f_cur rf') (length es / 255) /\ flush_files es ri di rf df s s' rf'.
Proof.
  intros Hv Hi Hf. pose proof (rbo_range _ _ _ Hi Hf) as Hrbo.
  unfold rfsck_flush. rewrite (v_rd _ _ _ _ _ _ Hv).
  run_modify Hv d1 Hv1.
  assert (Ht : b_tags (keyb d1) = block_tags es (length es / 255)) by apply (li_tags _ _ _ Hi).
  rewrite (bind_some _ _ _ _ _ (write_keyb_view _ _ _ _ _ _ Hv1 Hrbo
             ltac:(by rewrite Ht, length_block_tags))).
  set (rf1 := f_pwrite _ _ rf). assert (Hv2 := view_set_redo _ _ _ _ _ rf1 _ Hv1).
  rewrite decide_False by lia. run_get Hv2.
  unfold sys. rewrite (fsync_full _ _ ri rf1) by apply Hv2.
  eexists _, d1, (f_fsync rf1). split; [reflexivity|].
  destruct (seal_block_shape false (keyb d) (li_res _ _ _ Hi)) as (m & c & Hm & Hc & Hs).
  assert (Hrf1 : f_cur rf1 = zsplice (blkoff es (length es / 255))
                   (bytes_of_block (mkBlk m c 0 (block_tags es (length es / 255)))) (f_cur rf)).
  { unfold rf1. rewrite f_cur_pwrite_z by (cbn; lia). cbn [redo_block_offset d1 set_keyb keyb].
    by rewrite (li_rbo _ _ _ Hi), Hs, (li_tags _ _ _ Hi). }
  split; [|split_and!; [done..| |]]; rewrite ?f_cur_fsync.
  2:{ exists m, c. split_and!; [done..|]. rewrite Hrf1. apply zslice_zsplice_eq.
      apply zlen_bytes_of_block, length_block_tags. }
  2:{ exists m, c, (<[ri := rf1]> (os_files (st_os s))).
      rewrite <- (li_rbo _ _ _ Hi), <- (li_tags _ _ _ Hi), <- Hs. cbv zeta.
      split_and!; [done..|by rewrite lookup_insert_eq| |done].
      rewrite lookup_insert_ne by apply Hv. apply Hv. }
  split; [exact (view_set_redo _ _ _ _ _ (f_fsync rf1) _ Hv2)| |constructor|done].
  - split; try apply Hi. rewrite f_cur_fsync, Hrf1.
    apply log_disk_write_block; [apply log_disk_weaken, Hi|done..].
  - eapply (log_io_keyb _ _ _ _ _ _ _ es d (f_cur rf)); [done|constructor|apply Hv..].
  - apply Hv2.
  - apply Hv2.
Qed.

(** ** [rfsck_txn_end] *)
Lemma txn_end_spec es s d ri di rf df cs :
  view s d ri di rf df -> log_inv es d (f_cur rf) -> in_u 32 (txn_id d) ->
  cs = Z.lxor (txn_csum d) (crc32c_le crc_seed (bytes_of_tag (mkTag 0 0 (txn_id d)))) ->
  in_u 32 cs -> fits (es ++ [EEnd (txn_id d) cs]) ->
  exists s' d' rf',
    rfsck_txn_end s = Some (0, s') /\
    logged (es ++ [EEnd (txn_id d) cs]) ri di rf df d s s' d' rf' /\
    txn_id d' = s32 (txn_id d + 1) /\ f_pending rf' = [].
Proof.
  intros Hv Hi Hid Hcs Hcr Hf. set (e := EEnd (txn_id d) cs) in *.
  pose proof (fits_snoc _ _ Hf) as [Hf0 _].
  pose proof (kib_lt _ _ _ Hi) as Hk. pose proof (rbo_range _ _ _ Hi Hf0) as Hrbo.
  pose proof (stored_tags _ _ _ e Hi) as Hst. cbn [tag_of e] in Hst.
  unfold rfsck_txn_end. run_get Hv.
  rewrite (u32_small (txn_id d)) by done. rewrite <- Hcs.
  run_store Hv Hk d1 Hv1.
  run_modify Hv1 d2 Hv2.
  run_store Hv2 Hk d3 Hv3.
  run_modify Hv3 d4 Hv4.
  run_modify Hv4 d5 Hv5.
  run_modify Hv5 d6 Hv6.
  assert (Ht6 : b_tags (keyb d6) = block_tags (es ++ [e]) (length es / 255)).
  { cbn. rewrite list_insert_insert_eq. exact Hst. }
  rewrite (bind_some _ _ _ _ _ (write_keyb_view _ _ _ _ _ _ Hv6 Hrbo
             ltac:(by rewrite Ht6, length_block_tags))).
  set (rf1 := f_pwrite _ _ rf). assert (Hv7 := view_set_redo _ _ _ _ _ rf1 _ Hv6).
  rewrite decide_False by lia.
  unfold roll_block. rewrite (bind_some _ _ _ _ _ (modify_rd_view _ _ _ _ _ _ _ Hv7)).
  destruct (roll_rd_fds d6) as [Hr1 Hr2].
  assert (Hv8 := view_with_rd _ _ (roll_rd d6) _ _ _ _ Hv7 Hr1 Hr2).
  run_modify Hv8 d9 Hv9.
  assert (Hi6 : log_inv (es ++ [e]) (roll_rd d6) (f_cur rf1)).
  { apply (log_inv_append es e d rf); [done|by apply data_appended_none|done..| |].
    + split; try apply Hi; try done; cbn; [by rewrite (u64_succ_kib _ _ _ Hi)|].
      rewrite (li_lo _ _ _ Hi). unfold zlen. cbn. lia.
    + apply seal_block_sealed. apply (li_res _ _ _ Hi). }
  assert (Hi9 : log_inv (es ++ [e]) d9 (f_cur rf1)) by (destruct Hi6; by split).
  destruct (flush_spec _ _ _ _ _ _ _ Hv9 Hi9 Hf) as (s' & d' & rf' & Hfl & Hlg & Hid' & _ & Hp & _).
  rewrite (bind_some _ _ _ _ _ Hfl). exists s', d', rf'. split; [reflexivity|].
  split; [|split; [|done]].
  - destruct Hlg. split; try done.
    + eapply log_io_trans; [|exact lg_io0].
      eapply (log_io_keyb _ _ _ _ _ _ _ es d (f_cur rf)); [done|constructor|apply Hv..].
    + rewrite lg_hdr0. exact (roll_rd_hdr d6).
  - rewrite Hid'. exact (roll_rd_txn_id d6).
Qed.

(** ** [redo_mark_done] *)

Lemma log_disk_header es c h :
  log_disk es c -> zlen h = HEADER_SIZE -> log_disk es (zsplice 0 h c).
Proof.
  intros [Hb Hd] Hl. split.
  - intros k Hk. pose proof (block_at_inside _ _ _ (Hb k Hk)).
    destruct (Hb k Hk) as (m & crc & Hm & Hc & Hs). exists m, crc. split_and!; [done..|].
    pose proof (blkoff_pos es k) as Hp. unfold HEADER_SIZE in *.
    rewrite zslice_zsplice_disjoint; [done|lia..].
  - intros p e He. pose proof (data_at_inside es c p e (Hd p) He) as [Hz|Hin].
    { rewrite Hz. by apply zslice_zero_len. }
    pose proof (dataoff_pos es p) as Hp. unfold HEADER_SIZE in *.
    rewrite zslice_zsplice_disjoint; [by apply Hd|lia..].
Qed.

Lemma log_io_header ri di df h0 h f f' :
  log_io ri di df h0 f h f' -> HEADER_SIZE <= zlen (f_cur f) ->
  HEADER_SIZE <= zlen (f_cur f') /\
  zslice 0 HEADER_SIZE (f_cur f') = zslice 0 HEADER_SIZE (f_cur f).
Proof.
  induction 1 as [|h f' off d m Hio IH Hoff|h f' m Hio IH]; intros Hl; [done| |by apply IH].
  destruct (IH Hl) as [Hl' Heq]. unfold HEADER_SIZE in *. rewrite f_cur_pwrite_z by lia.
  split; [rewrite zlen_splice by lia; lia|]. rewrite zslice_zsplice_disjoint; [done|lia..].
Qed.

Lemma mark_header_wf b nk h :
  wf_header h -> Forall (in_u 8) (h_magic h) -> Forall (in_u 8) (h_padding h) -> in_u 64 nk ->
  wf_header (mark_header b nk h).
Proof.
  intros (H1 & _ & H3 & H4 & H5 & _ & _ & H8) Hm Hp Hnk. unfold wf_header, mark_header.
  cbn [h_magic h_num_keys h_super_offset h_key_offset h_sb_crc h_state h_header_crc h_padding].
  split_and!; try done; [destruct b; mlia|].
  apply crc32c_le_range; [apply crc_seed_range|]. by apply bytes_of_header_range.
Qed.

(** The header is well formed and its bytes are bytes. *)
Definition hdr_ok (h : redo_header) : Prop :=
  wf_header h /\ Forall (in_u 8) (h_magic h) /\ Forall (in_u 8) (h_padding h) /\
  h_key_offset h = HEADER_SIZE.

Lemma hdr_ok_mark b nk h : hdr_ok h -> in_u 64 nk -> hdr_ok (mark_header b nk h).
Proof. intros (H1 & H2 & H3 & H4) Hn. split_and!; [by apply mark_header_wf|done..]. Qed.

Lemma num_keys_range es d c : log_inv es d c -> fits es -> in_u 64 (num_keys d).
Proof.
  intros Hi Hf. rewrite (li_nk _ _ _ Hi). unfold fits, dataoff, datapos in Hf.
  pose proof (dsum_nonneg (take (length es) es)).
  unfold in_u, HEADER_SIZE, REDO_LOG_BLOCK_SIZE in *. pow2_norm. lia.
Qed.

(** The files between the calls of [redo_mark_done]: everything but the header is
    forced out before the header [h] is written. *)
Definition mark_files (es : list entry) (ri di : Z) (rf df : file) (s s' : st)
  (h : redo_header) (rf' : file) : Prop :=
  exists h3 rf3 m3 m4 m5 m c,
    log_io ri di df (os_hist (st_os s)) rf h3 rf3 /\ f_pending rf3 = [] /\
    log_disk es (f_cur rf3) /\ block_at es (f_cur rf3) (length es / 255) /\
    in_u 32 m /\ in_u 32 c /\
    let rf4 := f_pwrite 0 (bytes_of_header h) rf3 in
    let rf5 := f_pwrite (Z.to_nat (blkoff es (length es / 255)))
                 (bytes_of_block (mkBlk m c 0 (block_tags es (length es / 255)))) rf4 in
    os_hist (st_os s') = m5 :: m4 :: m3 :: h3 /\ rf' = f_fsync rf5 /\
    (m3 !! ri = Some rf3 /\ m4 !! ri = Some rf4 /\ m5 !! ri = Some rf5) /\
    (m3 !! di = Some df /\ m4 !! di = Some df /\ m5 !! di = Some df).

Lemma mark_done_spec b es s d ri di rf df :
  view s d ri di rf df -> log_inv es d (f_cur rf) -> fits es -> hdr_ok (hdr d) ->
  exists s' d' rf',
    redo_mark_done b s = Some (0, s') /\ view s' d' ri di rf' df /\
    log_inv es d' (f_cur rf') /\ hdr d' = mark_header b (num_keys d) (hdr d) /\
    zslice 0 HEADER_SIZE (f_cur rf') = bytes_of_header (hdr d') /\
    f_pending rf' = [] /\ txn_id d' = txn_id d /\
    block_at es (f_cur rf') (length es / 255) /\ mark_files es ri di rf df s s' (hdr d') rf'.
Proof.
  intros Hv Hi Hf Hh. pose proof (rbo_range _ _ _ Hi Hf) as Hrbo.
  pose proof (num_keys_range _ _ _ Hi Hf) as Hnk.
  unfold redo_mark_done. rewrite (v_rd _ _ _ _ _ _ Hv). run_modify Hv d1 Hv1.
  assert (Ht : b_tags (keyb d1) = block_tags es (length es / 255)) by apply (li_tags _ _ _ Hi).
  rewrite (bind_some _ _ _ _ _ (write_keyb_view _ _ _ _ _ _ Hv1 Hrbo
             ltac:(by rewrite Ht, length_block_tags))).
  set (rf1 := f_pwrite _ _ rf). assert (Hv2 := view_set_redo _ _ _ _ _ rf1 _ Hv1).
  assert (Hi2 : log_inv es d1 (f_cur rf1)).
  { split; try apply Hi. unfold rf1. rewrite f_cur_pwrite_z by (cbn; lia).
    cbn [redo_block_offset d1 set_keyb]. rewrite (li_rbo _ _ _ Hi).
    destruct (seal_block_shape false (keyb d) (li_res _ _ _ Hi)) as (m & c & Hm & Hc & Hs).
    unfold d1. cbn [keyb set_keyb]. rewrite Hs, (li_tags _ _ _ Hi).
    apply log_disk_write_block; [apply log_disk_weaken, Hi|done..]. }
  rewrite decide_False by lia.
  destruct (flush_spec _ _ _ _ _ _ _ Hv2 Hi2 Hf) as (s3 & d3 & rf3 & Hfl & Hlg & Hid & _ & Hp3 & Hb3 & _).
  rewrite (bind_some _ _ _ _ _ Hfl). rewrite decide_False by lia.
  destruct Hlg as [Hv3 Hi3 Hio3 Hhd3]. run_modify Hv3 d4 Hv4.
  assert (Hn3 : num_keys d3 = num_keys d) by (rewrite (li_nk _ _ _ Hi3), (li_nk _ _ _ Hi); done).
  assert (Hh4 : hdr d4 = mark_header b (num_keys d) (hdr d)) by (cbn; by rewrite Hn3, Hhd3).
  assert (Hhw : hdr_ok (hdr d4)) by (rewrite Hh4; by apply hdr_ok_mark).
  pose proof (zlen_wf_header _ (proj1 Hhw)) as Hlen.
  run_get Hv4.
  rewrite (bind_some _ _ _ _ _ (write_info_view _ d4 _ _ _ _ 0 HEADER_SIZE (bytes_of_header (hdr d4))
             Hv4 ltac:(lia) Hlen)).
  set (rf5 := f_pwrite _ _ rf3). assert (Hv5 := view_set_redo _ _ _ _ _ rf5 _ Hv4).
  rewrite decide_False by lia.
  assert (Hc5 : f_cur rf5 = zsplice 0 (bytes_of_header (hdr d4)) (f_cur rf3)) by by apply f_cur_pwrite_z.
  assert (Hi5 : log_inv es d4 (f_cur rf5)).
  { rewrite Hc5. destruct Hi3. split; try done. by apply log_disk_header. }
  destruct (flush_spec _ _ _ _ _ _ _ Hv5 Hi5 Hf) as (s6 & d6 & rf6 & Hfl6 & Hlg6 & Hid6 & _ & Hp6 & Hb6 & Hff6).
  destruct Hlg6 as [Hv6 Hi6 Hio6 Hhd6].
  exists s6, d6, rf6. split_and!; try done.
  - by rewrite Hhd6, Hh4.
  - destruct (log_io_header _ _ _ _ _ _ _ Hio6) as [_ ->].
    + rewrite Hc5, zlen_splice, Hlen by lia. lia.
    + rewrite Hhd6, Hc5. by apply zslice_zsplice_eq.
  - rewrite Hid6. exact Hid.
  - destruct Hff6 as (mm & cc & m1 & Hmm & Hcc & Hrf6 & Hm1 & Hm2 & Hh6).
    eexists _, rf3, _, _, _, mm, cc. rewrite Hhd6. cbv zeta. split_and!;
      [|done|apply Hi3|done|done|done|exact Hh6|exact Hrf6|apply Hv3|apply Hv5|done|apply Hv3|apply Hv5|done].
    eapply log_io_trans; [|exact Hio3].
    eapply (log_io_keyb _ _ _ _ _ _ _ es d (f_cur rf)); [done|constructor|apply Hv..].
Qed.

End ops.
