(* ===== verification/RedoReplay.v ===== *)
(** Replaying the redo log: [rfsck_replay] of a log that the writer produced
    applies to the device the records of every completed transaction, in order,
    and nothing else.

    The proof follows the nesting of the C loops: one record, the tags of one
    transaction inside a key block, the key blocks of a transaction, the tags of
    a key block, the key blocks of the log. *)
From Stdlib Require Import ZArith Lia.
From stdpp Require Import base tactics numbers list gmap strings.
From S2P Require Import Prelude Crc32c Os RedoLog RedoLayout RedoWriter RedoOps.

(** * Specification *)

(** The effect of one record on the contents of the device. *)
Definition dev_apply (dev : list Z) (e : entry) : list Z :=
  match e with EWrite off d => zsplice off d dev | _ => dev end.

(** The device after the completed transactions of [es]; [cur] are the records of
    the transaction that is open. *)
Fixpoint committed_dev (dev : list Z) (cur es : list entry) : list Z :=
  match es with
  | [] => dev
  | EBegin _ :: es' => committed_dev dev [] es'
  | EEnd _ _ :: es' => committed_dev (foldl dev_apply dev cur) [] es'
  | e :: es' => committed_dev dev (cur ++ [e]) es'
  end.

(** A record [rfsck_replay] can replay: not empty, at an offset [pwrite] takes. *)
Definition replayable (e : entry) : Prop :=
  match e with EWrite off d => 0 < zlen d /\ 0 <= off < 2 ^ 63 | _ => True end.

(** The shape of a log, read from entry [q] with the transaction begun at entry
    [open]: begin, records, end; a transaction other than the first does not
    begin in slot 0 of a key block; [fin] holds of the transaction open at the end. *)
Fixpoint scan_ok (fin : option nat -> Prop) (q : nat) (open : option nat) (es : list entry) : Prop :=
  match es with
  | [] => fin open
  | EBegin id :: es' =>
      open = None /\ 0 < id < 2 ^ 31 /\ (q = 0%nat \/ (q `mod` 255)%nat <> 0%nat) /\
      scan_ok fin (S q) (Some q) es'
  | (EWrite _ _ as e) :: es' => is_Some open /\ replayable e /\ scan_ok fin (S q) open es'
  | EEnd id _ :: es' => is_Some open /\ 0 < id /\ scan_ok fin (S q) None es'
  end.

Definition is_write (e : entry) : Prop := match e with EWrite _ _ => True | _ => False end.

(** Entries [a .. b - 1]. *)
Definition sub_entries (es : list entry) (a b : nat) : list entry := take (b - a) (drop a es).

Lemma sub_entries_nil es a : sub_entries es a a = [].
Proof. unfold sub_entries. by rewrite Nat.sub_diag. Qed.

Lemma sub_entries_snoc es a b e :
  (a <= b)%nat -> es !! b = Some e -> sub_entries es a (S b) = sub_entries es a b ++ [e].
Proof.
  intros Hab He. unfold sub_entries. replace (S b - a)%nat with (S (b - a)) by lia.
  apply take_S_r. rewrite lookup_drop. rewrite <- He. f_equal. lia.
Qed.

Lemma sub_entries_cons es a b e :
  (a < b)%nat -> es !! a = Some e -> sub_entries es a b = e :: sub_entries es (S a) b.
Proof.
  intros Hab He. unfold sub_entries. rewrite (drop_S _ _ _ He).
  replace (b - a)%nat with (S (b - S a)) by lia. done.
Qed.

Lemma sub_entries_split es a b c :
  (a <= b <= c)%nat -> sub_entries es a c = sub_entries es a b ++ sub_entries es b c.
Proof.
  intros Habc. unfold sub_entries. replace (c - a)%nat with ((b - a) + (c - b))%nat by lia.
  rewrite <- take_take_drop, drop_drop. do 3 f_equal. lia.
Qed.

Lemma sub_entries_lookup es a b q e :
  (a <= q < b)%nat -> es !! q = Some e -> e ∈ sub_entries es a b.
Proof.
  intros Hq He. apply list_elem_of_lookup. exists (q - a)%nat. unfold sub_entries.
  rewrite lookup_take_lt, lookup_drop by lia. rewrite <- He. f_equal. lia.
Qed.

(** * Views of the replay state *)

Record rview (p : replay_st) (ri di : Z) (rf df : file) : Prop := {
  rv_rfd : os_fds (rp_os p) !! redo_fd (rp_rd p) = Some ri;
  rv_rf : os_files (rp_os p) !! ri = Some rf;
  rv_dfd : os_fds (rp_os p) !! dev_fd (rp_rd p) = Some di;
  rv_df : os_files (rp_os p) !! di = Some df;
  rv_ne : ri <> di;
  rv_plan : os_plan (rp_os p) = []
}.

(** The fields that replaying the records of a transaction leaves alone. *)
Record same_ctl (p p' : replay_st) : Prop := {
  sc_rd : rp_rd p' = rp_rd p;
  sc_keyb : rp_keyb p' = rp_keyb p;
  sc_blocks : rp_blocks p' = rp_blocks p;
  sc_koff : rp_keys_offset p' = rp_keys_offset p;
  sc_lo : rp_log_offset p' = rp_log_offset p;
  sc_rep : rp_is_replayed p' = rp_is_replayed p
}.

Lemma same_ctl_refl p : same_ctl p p.
Proof. by split. Qed.

Lemma same_ctl_trans p1 p2 p3 : same_ctl p1 p2 -> same_ctl p2 p3 -> same_ctl p1 p3.
Proof. intros [] []. split; congruence. Qed.

#[export] Hint Resolve same_ctl_refl : machine.

(** A change of [replay_log_offset] or [retval] alone is invisible to the views. *)
Lemma rview_replay_offset z p ri di rf df :
  rview p ri di rf df -> rview (rp_set_replay_offset z p) ri di rf df.
Proof. intros []. by split. Qed.

(** The tag that replay remembers for entry [q]. *)
Definition tag_at (p : replay_st) (q : nat) : redo_block_tag :=
  b_tags (rp_blocks p !!! (q / 255)%nat) !!! (q `mod` 255)%nat.

Section replay.
Context `{Checksum} `{Heap}.
Variable es : list entry.
Hypothesis Hwf : Forall wf_entry es.
Hypothesis Hfits : fits es.
Variable fin : option nat -> Prop.

Lemma datapos_S i q e :
  es !! q = Some e -> datapos es i (S q) = datapos es i q + zlen (data_of e).
Proof. intros He. unfold datapos. rewrite (dsum_take_S _ _ _ He). lia. Qed.

Lemma datapos_next i q : datapos es (S i) q = datapos es i q + REDO_LOG_BLOCK_SIZE.
Proof. unfold datapos, REDO_LOG_BLOCK_SIZE. lia. Qed.

Lemma datapos_range i q :
  (i <= length es / 255)%nat -> 0 <= datapos es i q < 2 ^ 63.
Proof.
  intros Hi. unfold fits, dataoff in Hfits. unfold datapos, HEADER_SIZE, REDO_LOG_BLOCK_SIZE in *.
  pose proof (dsum_nonneg (take q es)).
  assert (dsum (take q es) <= dsum (take (length es) es)).
  { destruct (decide (q <= length es)%nat); [by apply dsum_take_mono|].
    by rewrite !dsum_take_all by lia. }
  lia.
Qed.

(** ** One record *)
Lemma replay_record_spec p ri di rf df q off d :
  rview p ri di rf df -> es !! q = Some (EWrite off d) -> replayable (EWrite off d) ->
  data_at es (f_cur rf) q -> rp_replay_offset p = dataoff es q ->
  exists p' df',
    replay_record (tag_of (EWrite off d)) p = Go p' /\ same_ctl p p' /\
    rview p' ri di rf df' /\ f_cur df' = zsplice off d (f_cur df) /\
    rp_replay_offset p' = datapos es (q / 255) (S q).
Proof.
  intros [] He [Hd Hoff] Hdat Hro. specialize (Hdat _ He). cbn [data_of] in Hdat.
  assert (Hq : (q < length es)%nat) by by eapply lookup_lt_Some.
  assert (Hqi : (q / 255 <= length es / 255)%nat) by (apply Nat.Div0.div_le_mono; lia).
  pose proof (datapos_range (q / 255) q Hqi) as Hr1.
  pose proof (datapos_range (q / 255) (S q) Hqi) as Hr2.
  unfold replay_record, rp_sys. cbn [t_size t_offset tag_of].
  rewrite Hro, (pread_full _ _ ri rf) by done. rewrite Hdat.
  unfold rp_write_info, rp_sys, read_into. cbn [rp_os rp_rd].
  rewrite take_app_le, take_zlen by (unfold zlen; lia).
  rewrite (pwrite_full _ _ di df) by done. cbn [rp_os].
  rewrite decide_False, decide_False by lia. cbn [rp_set_retval rp_replay_offset].
  rewrite decide_False by lia.
  eexists _, _. split; [reflexivity|]. split_and!; [by split| |..].
  - split; cbn; try done; [by rewrite lookup_insert_ne|by rewrite lookup_insert_eq].
  - apply f_cur_pwrite_z. lia.
  - cbn. rewrite (datapos_S _ _ _ He), u64_small; [done|].
    rewrite (datapos_S _ _ _ He) in Hr2. cbn [data_of] in *. unfold in_u, dataoff. pow2_norm. lia.
Qed.

(** Replay knows the tags and data of the records [a .. b - 1]. *)
Definition records_known (p : replay_st) (rf : file) (a b : nat) : Prop :=
  (b <= length es)%nat /\
  forall q, (a <= q < b)%nat ->
    exists off d, es !! q = Some (EWrite off d) /\ replayable (EWrite off d) /\
      tag_at p q = tag_of (EWrite off d) /\ data_at es (f_cur rf) q.

Lemma records_known_tail p p' rf a a' b :
  records_known p rf a b -> (a <= a')%nat -> same_ctl p p' -> records_known p' rf a' b.
Proof.
  intros [Hb Hk] Ha Hs. split; [done|]. intros q Hq.
  destruct (Hk q ltac:(lia)) as (off & d & H1 & H2 & H3 & H4).
  exists off, d. split_and!; try done. unfold tag_at in *. by rewrite (sc_blocks _ _ Hs).
Qed.

Lemma flat_div i j : (j < 255)%nat -> ((255 * i + j) / 255 = i)%nat.
Proof. intros. rewrite Nat.mul_comm, Nat.div_add_l, (Nat.div_small j) by lia. lia. Qed.

Lemma flat_mod i j : (j < 255)%nat -> ((255 * i + j) `mod` 255 = j)%nat.
Proof. intros. rewrite Nat.add_comm, Nat.mul_comm, Nat.Div0.mod_add. by apply Nat.mod_small. Qed.

(** ** The tags of a transaction inside key block [i]: from slot [j] to slot [stop],
    which is the end record or the end of the block. *)
Lemma replay_inner_spec (n fuel i j stop kc count : nat) p ri di rf df :
  n = (stop - j)%nat -> (n < fuel)%nat -> (j <= stop <= 255)%nat -> (count < 255)%nat ->
  (i < kc /\ stop = 255 \/ i = kc /\ stop = count)%nat ->
  rview p ri di rf df -> records_known p rf (255 * i + j) (255 * i + stop) ->
  rp_replay_offset p = datapos es i (255 * i + j) ->
  exists p' df',
    replay_inner fuel 255 (Z.of_nat i) (Z.of_nat j) (Z.of_nat kc) (Z.of_nat count) p
    = (Go p', bool_decide (i = kc), Z.of_nat stop) /\
    same_ctl p p' /\ rview p' ri di rf df' /\
    f_cur df' = foldl dev_apply (f_cur df) (sub_entries es (255 * i + j) (255 * i + stop)) /\
    rp_replay_offset p' = datapos es i (255 * i + stop).
Proof.
  revert fuel j p df. induction n as [|n IH];
    intros [|fuel] j p df Hn Hfu Hj Hc Hcase Hv Hk Hro; try lia.
  - assert (stop = j) as -> by lia. cbn [replay_inner].
    exists p, df. split; [|split_and!; [by split|done| |done]].
    + destruct Hcase as [[Hi Hs]|[-> ->]].
      * rewrite decide_False, bool_decide_eq_false_2 by lia. by subst.
      * by rewrite decide_True, decide_True, bool_decide_eq_true_2 by lia.
    + by rewrite sub_entries_nil.
  - assert (Hjs : (j < stop)%nat) by lia.
    destruct (proj2 Hk (255 * i + j)%nat ltac:(lia)) as (off & d & He & Hr & Ht & Hd).
    cbn [replay_inner]. rewrite decide_True, decide_False by lia.
    rewrite !Nat2Z.id. unfold tag_at in Ht. rewrite flat_div, flat_mod in Ht by lia. rewrite Ht.
    destruct (replay_record_spec p ri di rf df _ off d Hv He Hr Hd) as (p1 & df1 & -> & Hs1 & Hv1 & Hc1 & Hro1).
    { rewrite Hro. unfold dataoff. by rewrite flat_div by lia. }
    rewrite flat_div in Hro1 by lia.
    replace (Z.of_nat j + 1) with (Z.of_nat (S j)) by lia.
    destruct (IH fuel (S j) p1 df1) as (p2 & df2 & HR & Hs2 & Hv2 & Hc2 & Hro2); try done; try lia.
    { eapply records_known_tail; [exact Hk|lia|done]. }
    { rewrite Hro1. f_equal. lia. }
    rewrite HR. exists p2, df2.
    split; [done|]. split_and!; [by eapply same_ctl_trans|done| |done].
    rewrite Hc2, Hc1. rewrite (sub_entries_cons es (255 * i + j) (255 * i + stop) _ ltac:(lia) He). cbn [foldl dev_apply].
    do 2 f_equal. lia.
Qed.

Lemma replay_outer_S fuel kpb i kc count p :
  replay_outer (S fuel) kpb i kc count p =
    if decide (i <= kc) then
      let j := if decide (i = txn_begin_blk (rp_rd p)) then txn_begin_idx (rp_rd p) + 1 else 0 in
      match replay_inner (Z.to_nat kpb + 1) kpb i j kc count p with
      | (FreeEnd p, _, _) => FreeEnd p
      | (Undef, _, _) => Undef
      | (Go p, txn_replayed, j) =>
          let p := if decide (j = kpb)
                   then rp_set_replay_offset (u64 (rp_replay_offset p + REDO_LOG_BLOCK_SIZE)) p
                   else p in
          if txn_replayed then Go p else replay_outer fuel kpb (i + 1) kc count p
      end
    else Go p.
Proof. reflexivity. Qed.

(** ** The key blocks of a transaction. *)
Lemma replay_outer_spec (n i kc count : nat) p ri di rf df :
  n = (kc - i)%nat -> (i <= kc <= length es / 255)%nat -> (count < 255)%nat ->
  txn_begin_blk (rp_rd p) <= Z.of_nat i -> 0 <= txn_begin_idx (rp_rd p) < 255 ->
  let j := if decide (Z.of_nat i = txn_begin_blk (rp_rd p))
           then S (Z.to_nat (txn_begin_idx (rp_rd p))) else 0%nat in
  (255 * i + j <= 255 * kc + count)%nat ->
  rview p ri di rf df -> records_known p rf (255 * i + j) (255 * kc + count) ->
  rp_replay_offset p = datapos es i (255 * i + j) ->
  exists p' df',
    replay_outer (S n) 255 (Z.of_nat i) (Z.of_nat kc) (Z.of_nat count) p = Go p' /\
    same_ctl p p' /\ rview p' ri di rf df' /\
    f_cur df' = foldl dev_apply (f_cur df) (sub_entries es (255 * i + j) (255 * kc + count)) /\
    rp_replay_offset p' = datapos es kc (255 * kc + count).
Proof.
  revert i p df. induction n as [|n IH]; intros i p df Hn Hi Hc Hbb Hbi j Hq Hv Hk Hro.
  all: rewrite replay_outer_S, decide_True by lia; cbv zeta.
  all: replace (if decide (Z.of_nat i = txn_begin_blk (rp_rd p)) then txn_begin_idx (rp_rd p) + 1 else 0)
      with (Z.of_nat j) by (unfold j; case_decide; lia).
  all: assert (Hj : (j <= 255)%nat) by (unfold j; case_decide; lia).
  - assert (i = kc) as -> by lia.
    destruct (replay_inner_spec (count - j) 256 kc j count kc count p ri di rf df)
      as (p1 & df1 & HR & Hs1 & Hv1 & Hc1 & Hro1); try done; try lia.
    change (Z.to_nat 255 + 1)%nat with 256%nat.
    rewrite HR, bool_decide_eq_true_2, decide_False by lia. by exists p1, df1.
  - assert (Hik : (i < kc)%nat) by lia.
    destruct (replay_inner_spec (255 - j) 256 i j 255 kc count p ri di rf df)
      as (p1 & df1 & HR & Hs1 & Hv1 & Hc1 & Hro1); try done; try lia.
    { destruct Hk as [Hb Hk]. split; [lia|]. intros q Hq'. apply Hk. lia. }
    change (Z.to_nat 255 + 1)%nat with 256%nat.
    rewrite HR, bool_decide_eq_false_2 by lia. rewrite decide_True by lia.
    assert (Hpos : u64 (rp_replay_offset p1 + REDO_LOG_BLOCK_SIZE) = datapos es (S i) (255 * S i)).
    { rewrite Hro1. replace (255 * S i)%nat with (255 * i + 255)%nat by lia.
      rewrite datapos_next. apply u64_small.
      pose proof (datapos_range (S i) (255 * i + 255) ltac:(lia)) as Hr. rewrite datapos_next in Hr.
      unfold in_u. pow2_norm. lia. }
    set (p2 := rp_set_replay_offset _ p1).
    assert (Hs2 : same_ctl p p2) by (destruct Hs1; by split).
    replace (Z.of_nat i + 1) with (Z.of_nat (S i)) by lia.
    pose proof (sc_rd _ _ Hs2) as Hrd2.
    assert (Hj2 : (if decide (Z.of_nat (S i) = txn_begin_blk (rp_rd p2))
                   then S (Z.to_nat (txn_begin_idx (rp_rd p2))) else 0%nat) = 0%nat)
      by (rewrite Hrd2, decide_False by lia; done).
    destruct (IH (S i) p2 df1) as (p3 & df3 & HR3 & Hs3 & Hv3 & Hc3 & Hro3);
      rewrite ?Hj2, ?Hrd2, ?Nat.add_0_r; try done; try lia.
    { by apply rview_replay_offset. }
    { eapply records_known_tail; [exact Hk|lia|done]. }
    exists p3, df3. split; [exact HR3|]. rewrite Hj2, Nat.add_0_r in Hc3.
    split_and!; [by eapply same_ctl_trans|done| |done].
    rewrite Hc3, Hc1. rewrite <- foldl_app. f_equal.
    replace (255 * i + 255)%nat with (255 * S i)%nat by lia. symmetry. apply sub_entries_split. lia.
Qed.

(** ** The state between two tags

    [kb] key blocks have been read, [q] entries processed; the device holds [dev];
    [open] is the entry that began the open transaction, [cur] its records. *)

Definition open_state (q : nat) (open : option nat) (cur : list entry) (p : replay_st) : Prop :=
  match open with
  | None =>
      txn_id (rp_rd p) = 0 /\
      ((q <= length es)%nat -> rp_replay_offset p = datapos es ((q - 1) / 255) q)
  | Some b =>
      txn_id (rp_rd p) <> 0 /\ rp_is_replayed p = false /\ (b < q)%nat /\
      (exists id, es !! b = Some (EBegin id)) /\
      txn_begin_blk (rp_rd p) = Z.of_nat (b / 255) /\
      txn_begin_idx (rp_rd p) = Z.of_nat (b `mod` 255) /\
      rp_replay_offset p = datapos es (b / 255) (S b) /\
      cur = sub_entries es (S b) q /\
      forall q' e, (b < q' < q)%nat -> es !! q' = Some e -> is_write e /\ replayable e
  end.

(** What replay knows after reading [kb] key blocks, and what the log still holds. *)
Record log_known (kb : nat) (p : replay_st) (ri di : Z) (rf df : file) : Prop := {
  lk_view : rview p ri di rf df;
  lk_kb : (kb <= S (length es / 255))%nat;
  lk_room : (kb <= length (rp_blocks p))%nat;
  lk_len : length (rp_blocks p) = (length es / 255 + slack)%nat;
  lk_klen : length (rp_keys_offset p) = S (length es / 255);
  lk_blen : forall i, (i < kb)%nat -> length (b_tags (rp_blocks p !!! i)) = 255%nat;
  lk_tags : forall q e, (q < 255 * kb)%nat -> es !! q = Some e -> is_write e ->
                        tag_at p q = tag_of e;
  lk_koff : forall i, (i < kb)%nat -> rp_keys_offset p !!! i = blkoff es i;
  lk_data : forall q, data_at es (f_cur rf) q;
  lk_blocks : forall k, (kb <= k <= length es / 255)%nat -> block_at es (f_cur rf) k
}.

Lemma log_known_ctl kb p p' ri di rf df df' :
  log_known kb p ri di rf df -> rp_blocks p' = rp_blocks p ->
  rp_keys_offset p' = rp_keys_offset p -> rview p' ri di rf df' ->
  log_known kb p' ri di rf df'.
Proof.
  intros [] Hb Hk Hv. split; rewrite ?Hb, ?Hk; try done.
  unfold tag_at. by rewrite Hb.
Qed.

Record replay_inv (kb q : nat) (open : option nat) (dev : list Z) (cur : list entry)
  (p : replay_st) (ri di : Z) (rf df : file) : Prop := {
  ri_known : log_known kb p ri di rf df;
  ri_dev : f_cur df = dev;
  ri_open : open_state q open cur p
}.

(** Marking a transaction as replayed rewrites one key block of the log and one
    tag of [replay_blocks]; everything the rest of the replay needs survives. *)
Lemma mark_replayed_spec kb b p ri di rf df :
  log_known kb p ri di rf df -> (b < 255 * kb)%nat -> (b < length es)%nat ->
  txn_begin_blk (rp_rd p) = Z.of_nat (b / 255) ->
  txn_begin_idx (rp_rd p) = Z.of_nat (b `mod` 255) ->
  (forall e, es !! b = Some e -> is_write e -> False) ->
  exists rf',
    log_known kb (mark_replayed p) ri di rf' df /\
    rp_rd (mark_replayed p) = set_txn 0 0 0 0 (rp_rd p) /\
    rp_keyb (mark_replayed p) = rp_keyb p /\
    rp_log_offset (mark_replayed p) = rp_log_offset p /\
    rp_replay_offset (mark_replayed p) = rp_replay_offset p.
Proof.
  intros [Hv Hkb Hroom Hlen Hklen Hbl Ht Hko Hda Hbk] Hb Hbn Hbb Hbi Hnw.
  set (bb := (b / 255)%nat) in *. set (bi := (b `mod` 255)%nat) in *.
  assert (Hbbk : (bb < kb)%nat) by (apply Nat.Div0.div_lt_upper_bound; lia).
  assert (Hbbn : (bb <= length es / 255)%nat) by (apply Nat.Div0.div_le_mono; lia).
  pose proof (blkoff_pos es bb) as Hbp. unfold HEADER_SIZE in Hbp.
  assert (Hbr : blkoff es bb < 2 ^ 63).
  { pose proof (blkoff_le_dataoff es bb (length es) ltac:(lia)). unfold fits in Hfits.
    unfold REDO_LOG_BLOCK_SIZE in *. lia. }
  unfold mark_replayed. rewrite Hbb, Hbi, !Nat2Z.id.
  set (blk := mkBlk _ _ _ _). assert (Hblk : length (b_tags blk) = 255%nat).
  { cbn. rewrite length_insert. by apply Hbl. }
  pose proof (zlen_bytes_of_block blk Hblk) as Hzb.
  unfold rp_write_info, rp_sys. cbn [rp_set_blocks rp_os rp_rd rp_keys_offset].
  rewrite (Hko bb Hbbk), take_zlen by lia. destruct Hv.
  rewrite (pwrite_full _ _ ri rf) by (done || lia). rewrite Hzb.
  rewrite decide_False by done. rewrite decide_False by lia.
  set (rf' := f_pwrite _ _ rf).
  assert (Hrf' : f_cur rf' = zsplice (blkoff es bb) (bytes_of_block blk) (f_cur rf))
    by (apply f_cur_pwrite_z; lia).
  exists rf'. split; [|done]. split; try done.
  - split; cbn; try done; [by rewrite lookup_insert_eq|by rewrite lookup_insert_ne].
  - cbn. by rewrite length_insert.
  - cbn. by rewrite length_insert.
  - cbn. intros i Hi. destruct (decide (i = bb)) as [->|Hne].
    + by rewrite list_lookup_total_insert_eq by lia.
    + rewrite list_lookup_total_insert_ne by done. by apply Hbl.
  - intros q' e Hq' He Hw. rewrite <- (Ht q' e Hq' He Hw). unfold tag_at. cbn.
    destruct (decide (q' / 255 = bb)%nat) as [Heq|Hne].
    + rewrite Heq, list_lookup_total_insert_eq by lia. cbn.
      apply list_lookup_total_insert_ne. intros Hbm.
      assert (q' = b) as -> by (rewrite (Nat.div_mod_eq q' 255), (Nat.div_mod_eq b 255); unfold bb, bi in *; lia).
      by eapply Hnw.
    + by rewrite list_lookup_total_insert_ne by done.
  - intros q'. rewrite Hrf'. by apply data_at_write_block.
  - intros k' Hk'. rewrite Hrf'. apply block_at_write_block; [done|lia|by apply Hbk].
Qed.

(** ** One tag *)

Record tag_step (k count : nat) (p p' : replay_st) : Prop := {
  ts_lo : rp_log_offset p' = datapos es k (S (255 * k + count));
  ts_klen : length (b_tags (rp_keyb p')) = length (b_tags (rp_keyb p));
  ts_keyb : forall j, j <> count -> b_tags (rp_keyb p') !! j = b_tags (rp_keyb p) !! j
}.

Lemma datapos_S_none i q : es !! q = None -> datapos es i (S q) = datapos es i q.
Proof.
  intros Hq%lookup_ge_None. unfold datapos. by rewrite !dsum_take_all by lia.
Qed.

Lemma log_offset_step k q t :
  t = default tag0 (tag_of <$> es !! q) -> (k <= length es / 255)%nat ->
  u64 (datapos es k q + t_size t) = datapos es k (S q).
Proof.
  intros -> Hk. pose proof (datapos_range k (S q) Hk) as Hr.
  destruct (es !! q) as [e|] eqn:He; cbn.
  - rewrite (datapos_S _ _ _ He) in *.
    replace (t_size (tag_of e)) with (zlen (data_of e)) by by destruct e.
    apply u64_small. unfold in_u. pow2_norm. lia.
  - rewrite (datapos_S_none _ _ He) in *. rewrite Z.add_0_r. apply u64_small.
    unfold in_u. pow2_norm. lia.
Qed.

(** The loops started at the begin record [b] replay the records up to the end
    record [255 k + count]. *)
Lemma replay_txn_spec (b k count : nat) p ri di rf df :
  let q := (255 * k + count)%nat in
  (k <= length es / 255)%nat -> (count < 255)%nat -> (b < q)%nat ->
  txn_begin_blk (rp_rd p) = Z.of_nat (b / 255) ->
  txn_begin_idx (rp_rd p) = Z.of_nat (b `mod` 255) ->
  rview p ri di rf df -> records_known p rf (S b) q ->
  rp_replay_offset p = datapos es (b / 255) (S b) ->
  exists p' df',
    replay_outer (Z.to_nat (Z.of_nat k - Z.of_nat (b / 255) + 1)) 255 (Z.of_nat (b / 255))
                 (Z.of_nat k) (Z.of_nat count) p = Go p' /\
    same_ctl p p' /\ rview p' ri di rf df' /\
    f_cur df' = foldl dev_apply (f_cur df) (sub_entries es (S b) q) /\
    rp_replay_offset p' = datapos es k q.
Proof.
  intros q Hk Hc Hb Hbb Hbi Hv Hkn Hro. unfold q in *.
  pose proof (Nat.div_mod_eq b 255) as Hdm. pose proof (Nat.mod_upper_bound b 255 ltac:(lia)) as Hmb.
  replace (Z.to_nat (Z.of_nat k - Z.of_nat (b / 255) + 1)) with (S (k - b / 255)) by lia.
  pose proof (replay_outer_spec (k - b / 255) (b / 255) k count p ri di rf df) as H1.
  cbv zeta in H1. rewrite Hbb, Hbi, decide_True, Nat2Z.id in H1 by done.
  replace (255 * (b / 255) + S (b `mod` 255))%nat with (S b) in H1 by lia.
  apply H1; try done; lia.
Qed.

Lemma known_records kb b q cur p ri di rf df :
  log_known kb p ri di rf df -> open_state q (Some b) cur p ->
  (q <= 255 * kb)%nat -> (q <= length es)%nat -> records_known p rf (S b) q.
Proof.
  intros [Hv Hkb Hroom Hlen Hklen Hbl Ht Hko Hda Hbk] (_ & _ & _ & _ & _ & _ & _ & _ & Hall) Hq Hn.
  split; [done|]. intros q' Hq'.
  destruct (lookup_lt_is_Some_2 es q' ltac:(lia)) as [e He].
  destruct (Hall q' e ltac:(lia) He) as [Hw Hr]. pose proof (Ht q' e ltac:(lia) He Hw) as Htag.
  destruct e as [|off d|]; [done| |done]. by exists off, d.
Qed.

(** The end record: the records of the transaction go to the device. *)
Lemma replay_end_spec k count b dev cur p ri di rf df id cs :
  let q := (255 * k + count)%nat in
  replay_inv (S k) q (Some b) dev cur p ri di rf df -> (k <= length es / 255)%nat ->
  (count < 255)%nat -> es !! q = Some (EEnd id cs) ->
  exists p' rf' df',
    replay_end 255 (Z.of_nat k) (Z.of_nat count) (tag_of (EEnd id cs)) p = Go p' /\
    replay_inv (S k) (S q) None (foldl dev_apply dev cur) [] p' ri di rf' df' /\
    rp_log_offset p' = rp_log_offset p /\
    length (b_tags (rp_keyb p')) = length (b_tags (rp_keyb p)) /\
    (forall j, j <> count -> b_tags (rp_keyb p') !! j = b_tags (rp_keyb p) !! j).
Proof.
  intros q [Hkn Hdev Ho] Hk Hc He.
  pose proof Ho as (Hid & Hrep & Hbq & [idb Heb] & Hbb & Hbi & Hro & Hcur & Hall).
  assert (Hbn : (b < length es)%nat) by by eapply lookup_lt_Some.
  assert (Hqn : (q < length es)%nat) by by eapply lookup_lt_Some.
  unfold replay_end. rewrite Hrep. cbv zeta. set (p1 := rp_set_rd _ _).
  change (txn_begin_blk (rp_rd p1)) with (txn_begin_blk (rp_rd p)). rewrite Hbb.
  assert (Hkn1 : log_known (S k) p1 ri di rf df).
  { eapply log_known_ctl; [exact Hkn|done..|]. by destruct Hkn as [[] _ _ _ _ _ _ _ _ _]; split. }
  destruct (replay_txn_spec b k count p1 ri di rf df) as (p2 & df2 & -> & Hs2 & Hv2 & Hc2 & Hro2);
    [done..|apply Hkn1|eapply (known_records (S k) b q cur p1); [done|exact Ho|unfold q; lia..]|done|].
  assert (Hkn2 : log_known (S k) p2 ri di rf df2)
    by (destruct Hs2; by eapply log_known_ctl).
  pose proof (sc_rd _ _ Hs2) as Hrd2.
  destruct (mark_replayed_spec (S k) b p2 ri di rf df2 Hkn2)
    as (rf3 & Hkn3 & Hrd3 & Hkb3 & Hlo3 & Hro3); [unfold q in *; lia|done|..].
  { by rewrite Hrd2. } { by rewrite Hrd2. } { intros e' He' Hw. by simplify_eq. }
  exists (mark_replayed p2), rf3, df2. split; [done|]. split_and!.
  - split; [done|by rewrite Hc2, Hdev, Hcur|]. split; [by rewrite Hrd3|].
    intros _. rewrite Hro3, Hro2. replace (S q - 1)%nat with q by lia.
    rewrite (datapos_S _ _ _ He). change (zlen (data_of (EEnd id cs))) with 0.
    rewrite Z.add_0_r. unfold q. by rewrite flat_div by lia.
  - rewrite Hlo3. by destruct Hs2.
  - rewrite Hkb3, (sc_keyb _ _ Hs2). cbn. by rewrite length_insert.
  - intros j Hj. rewrite Hkb3, (sc_keyb _ _ Hs2). cbn.
    rewrite Nat2Z.id. by rewrite list_lookup_insert_ne.
Qed.

Lemma open_state_ctl q open cur p p' :
  open_state q open cur p -> rp_is_replayed p' = rp_is_replayed p ->
  rp_replay_offset p' = rp_replay_offset p -> txn_id (rp_rd p') = txn_id (rp_rd p) ->
  txn_begin_blk (rp_rd p') = txn_begin_blk (rp_rd p) ->
  txn_begin_idx (rp_rd p') = txn_begin_idx (rp_rd p) -> open_state q open cur p'.
Proof. intros Ho E1 E2 E3 E4 E5. unfold open_state in *. by rewrite E1, E2, E3, E4, E5. Qed.

Lemma replay_inv_ctl kb q open dev cur p p' ri di rf df :
  replay_inv kb q open dev cur p ri di rf df ->
  rp_os p' = rp_os p -> redo_fd (rp_rd p') = redo_fd (rp_rd p) ->
  dev_fd (rp_rd p') = dev_fd (rp_rd p) -> rp_blocks p' = rp_blocks p ->
  rp_keys_offset p' = rp_keys_offset p -> forall q' open' cur', open_state q' open' cur' p' ->
  replay_inv kb q' open' dev cur' p' ri di rf df.
Proof.
  intros [Hk Hd Ho] E1 E2 E3 E4 E5 q' open' cur' Ho'. split; [|done|done].
  eapply log_known_ctl; [exact Hk|done..|]. destruct Hk as [[] _ _ _ _ _ _ _ _ _].
  split; by rewrite ?E1, ?E2, ?E3.
Qed.

(** Past the last entry of the log, the state stays as it is. *)
Lemma open_state_past q open cur p :
  (length es <= q)%nat -> open_state q open cur p -> open_state (S q) open cur p.
Proof.
  intros Hq Ho. destruct open as [b|]; cbn in *.
  - destruct Ho as (H1 & H2 & H3 & H4 & H5 & H6 & H7 & -> & H9). split_and!; try done; [lia|..].
    + unfold sub_entries. rewrite !take_ge; [done|rewrite length_drop; lia..].
    + intros q' e Hq' He. apply H9 with q'; [|done]. apply lookup_lt_Some in He. lia.
  - destruct Ho as [H1 _]. split; [done|lia].
Qed.

(** A record joins the open transaction. *)
Lemma open_state_write q b cur p e :
  open_state q (Some b) cur p -> es !! q = Some e -> is_write e -> replayable e ->
  open_state (S q) (Some b) (cur ++ [e]) p.
Proof.
  intros (H1 & H2 & H3 & H4 & H5 & H6 & H7 & -> & H9) He Hw Hr. split_and!; try done; [lia|..].
  - symmetry. apply sub_entries_snoc; [lia|done].
  - intros q' e' Hq' He'. destruct (decide (q' = q)) as [->|]; [by simplify_eq|].
    apply H9 with q'; [lia|done].
Qed.

(** A begin record opens a transaction. *)
Lemma replay_begin_spec (k count : nat) id cur p :
  let q := (255 * k + count)%nat in
  open_state q None cur p -> es !! q = Some (EBegin id) -> 0 < id < 2 ^ 31 -> (count < 255)%nat ->
  (q = 0%nat \/ (q `mod` 255)%nat <> 0%nat) ->
  open_state (S q) (Some q) [] (replay_begin (Z.of_nat k) (Z.of_nat count) (tag_of (EBegin id)) p).
Proof.
  intros q [_ Hro] He Hid Hc Hal. unfold replay_begin. cbn [tag_of t_offset t_blk_crc].
  assert (Hdiv : (q / 255)%nat = k) by (unfold q; by apply flat_div).
  assert (Hmod : (q `mod` 255)%nat = count) by (unfold q; by apply flat_mod).
  rewrite decide_False by (unfold TXN_REPLAYED_CNST; lia).
  assert (s32 id = id) as Hs by mlia.
  cbn. rewrite Hs, Hdiv, Hmod. split_and!; try done; [lia|lia|by exists id|..].
  - rewrite Hro by (apply lookup_lt_Some in He; lia).
    rewrite (datapos_S _ _ _ He). change (zlen (data_of (EBegin id))) with 0.
    replace ((q - 1) / 255)%nat with k; [lia|]. subst q.
    destruct Hal as [Hz|Hne]; [rewrite Hz; assert (k = 0%nat) as -> by lia; done|].
    rewrite Hmod in Hne.
    replace (255 * k + count - 1)%nat with (255 * k + (count - 1))%nat by lia.
    symmetry. apply flat_div. lia.
  - by rewrite sub_entries_nil.
  - intros q' e Hq' _. lia.
Qed.

Lemma replay_tag_spec (k count : nat) open dev cur p ri di rf df :
  let q := (255 * k + count)%nat in
  replay_inv (S k) q open dev cur p ri di rf df -> (k <= length es / 255)%nat ->
  (count < 255)%nat -> rp_log_offset p = datapos es k q ->
  b_tags (rp_keyb p) !! count = Some (default tag0 (tag_of <$> es !! q)) ->
  scan_ok fin q open (drop q es) ->
  exists p' open' dev' cur' rf' df',
    replay_tag 255 (Z.of_nat k) (Z.of_nat count) p = Go p' /\ tag_step k count p p' /\
    replay_inv (S k) (S q) open' dev' cur' p' ri di rf' df' /\
    scan_ok fin (S q) open' (drop (S q) es) /\
    committed_dev dev' cur' (drop (S q) es) = committed_dev dev cur (drop q es).
Proof.
  intros q Hinv Hk Hc Hlo Ht Hscan. pose proof (ri_open _ _ _ _ _ _ _ _ _ _ Hinv) as Ho.
  unfold replay_tag. rewrite Nat2Z.id, (list_lookup_total_correct _ _ _ Ht). cbv zeta.
  rewrite Hlo, (log_offset_step k q _ eq_refl Hk).
  set (p0 := rp_set_log_offset _ p).
  assert (Hinv0 : replay_inv (S k) q open dev cur p0 ri di rf df)
    by (eapply replay_inv_ctl; done || exact Ho).
  assert (Hts0 : tag_step k count p p0) by (by split).
  destruct (es !! q) as [e|] eqn:He; cbn [fmap option_fmap option_map default from_option Datatypes.id].
  2:{ pose proof (proj1 (lookup_ge_None _ _) He).
      rewrite decide_True by done. exists p0, open, dev, cur, rf, df.
      rewrite drop_ge in Hscan by lia. rewrite !drop_ge by lia. split_and!; try done.
      eapply replay_inv_ctl; [exact Hinv0|done..|]. by apply open_state_past. }
  rewrite (drop_S _ _ _ He) in *. destruct e as [id|off d|id cs]; cbn in Hscan.
  - destruct Hscan as (-> & Hid & Hal & Hscan). cbn [tag_of t_size t_blk_crc t_offset].
    rewrite decide_False, decide_True by lia.
    change (rp_rd p0) with (rp_rd p). rewrite decide_True by apply Ho.
    pose proof (replay_begin_spec k count id cur p0 Ho He Hid Hc Hal) as Hb.
    eexists _, (Some q), dev, [], rf, df. split; [reflexivity|]. split; [|split; [|done]].
    + unfold replay_begin. by case_decide; split.
    + eapply replay_inv_ctl; [exact Hinv0|..|exact Hb]; unfold replay_begin; by case_decide.
  - destruct Hscan as ([b ->] & Hr & Hscan). cbn [tag_of t_size t_blk_crc t_offset].
    pose proof Hr as [Hd Hoff]. rewrite decide_False, decide_False by lia.
    pose proof (open_state_write _ _ _ _ _ Ho He I Hr) as Ho'.
    change (rp_is_replayed p0) with (rp_is_replayed p).
    replace (rp_is_replayed p) with false by (symmetry; apply Ho).
    eexists _, (Some b), dev, (cur ++ [EWrite off d]), rf, df. split; [reflexivity|].
    split; [by split|split; [|done]].
    eapply replay_inv_ctl; [exact Hinv0|done..|]. by eapply open_state_ctl; [exact Ho'|..].
  - destruct Hscan as ([b ->] & Hid & Hscan).
    destruct (replay_end_spec k count b dev cur p0 ri di rf df id cs Hinv0 Hk Hc He)
      as (p' & rf' & df' & HR & Hinv' & H1 & H2 & H3).
    cbn [tag_of t_size t_blk_crc t_offset] in *. rewrite decide_False, decide_True by lia.
    rewrite decide_False by apply Ho.
    exists p', None, (foldl dev_apply dev cur), [], rf', df'.
    by split_and!.
Qed.

(** ** The tags of a key block *)
Lemma replay_tags_spec (n k count : nat) open dev cur p ri di rf df :
  (n + count = 255)%nat -> (k <= length es / 255)%nat ->
  replay_inv (S k) (255 * k + count) open dev cur p ri di rf df ->
  rp_log_offset p = datapos es k (255 * k + count) ->
  (forall j, (count <= j < 255)%nat ->
     b_tags (rp_keyb p) !! j = Some (default tag0 (tag_of <$> es !! (255 * k + j)%nat))) ->
  scan_ok fin (255 * k + count) open (drop (255 * k + count) es) ->
  exists p' open' dev' cur' rf' df',
    replay_tags n 255 (Z.of_nat k) (Z.of_nat count) p = Go p' /\
    replay_inv (S k) (255 * S k) open' dev' cur' p' ri di rf' df' /\
    rp_log_offset p' = blkoff es (S k) /\
    length (b_tags (rp_keyb p')) = length (b_tags (rp_keyb p)) /\
    scan_ok fin (255 * S k) open' (drop (255 * S k) es) /\
    committed_dev dev' cur' (drop (255 * S k) es) = committed_dev dev cur (drop (255 * k + count) es).
Proof.
  revert count open dev cur p rf df.
  induction n as [|n IH]; intros count open dev cur p rf df Hn Hk Hinv Hlo Ht Hscan.
  - assert (count = 255%nat) as -> by lia.
    replace (255 * k + 255)%nat with (255 * S k)%nat in * by lia.
    exists p, open, dev, cur, rf, df. split_and!; try done.
    rewrite Hlo. unfold datapos, blkoff, REDO_LOG_BLOCK_SIZE. lia.
  - cbn [replay_tags]. rewrite decide_True by lia.
    destruct (replay_tag_spec k count open dev cur p ri di rf df Hinv Hk ltac:(lia) Hlo
                (Ht count ltac:(lia)) Hscan)
      as (p1 & o1 & dev1 & cur1 & rf1 & df1 & -> & [Hlo1 Hkl1 Hkb1] & Hinv1 & Hsc1 & Hcd1).
    replace (Z.of_nat count + 1) with (Z.of_nat (S count)) by lia.
    replace (S (255 * k + count))%nat with (255 * k + S count)%nat in * by lia.
    destruct (IH (S count) o1 dev1 cur1 p1 rf1 df1)
      as (p2 & o2 & dev2 & cur2 & rf2 & df2 & HR & Hinv2 & Hlo2 & Hkl2 & Hsc2 & Hcd2);
      try done; [lia| |].
    { intros j Hj. rewrite Hkb1 by lia. apply Ht. lia. }
    exists p2, o2, dev2, cur2, rf2, df2. split_and!; try done.
    + by rewrite Hkl2.
    + by rewrite Hcd2.
Qed.

(** ** One key block *)
Lemma read_into_full old new : (length old <= length new)%nat -> read_into old new = new.
Proof. intros Hl. unfold read_into. rewrite drop_ge by done. apply app_nil_r. Qed.

Lemma parse_block_at m crc k :
  in_u 32 m -> in_u 32 crc ->
  parse_block (bytes_of_block (mkBlk m crc 0 (block_tags es k))) = mkBlk m crc 0 (block_tags es k).
Proof.
  intros Hm Hc. apply parse_bytes_of_block. unfold wf_block. cbn.
  split_and!; [done|done|mlia|apply length_block_tags|by apply wf_block_tags].
Qed.

Lemma replay_block_spec (k : nat) open dev cur p ri di rf df :
  (k <= length es / 255)%nat -> (k < length es / 255 + slack)%nat -> length (b_tags (rp_keyb p)) = 255%nat ->
  replay_inv k (255 * k) open dev cur p ri di rf df -> rp_log_offset p = blkoff es k ->
  scan_ok fin (255 * k) open (drop (255 * k) es) ->
  exists p' open' dev' cur' rf' df',
    replay_block 255 (Z.of_nat k) p = Go p' /\
    replay_inv (S k) (255 * S k) open' dev' cur' p' ri di rf' df' /\
    rp_log_offset p' = blkoff es (S k) /\ length (b_tags (rp_keyb p')) = 255%nat /\
    scan_ok fin (255 * S k) open' (drop (255 * S k) es) /\
    committed_dev dev' cur' (drop (255 * S k) es) = committed_dev dev cur (drop (255 * k) es).
Proof.
  intros Hk Hsk Hl255 [Hkn Hdev Ho] Hlo Hscan.
  pose proof Hkn as [Hv Hkb Hroom Hlen Hklen Hbl Ht Hko Hda Hbk].
  destruct (Hbk k ltac:(lia)) as (m & crc & Hm & Hc & Hsl).
  pose proof (blkoff_pos es k) as Hbp. unfold HEADER_SIZE in Hbp.
  pose proof (datapos_range k (255 * k) Hk) as Hdr.
  assert (Hbd : blkoff es k + REDO_LOG_BLOCK_SIZE = datapos es k (255 * k))
    by (unfold blkoff, datapos, REDO_LOG_BLOCK_SIZE; lia).
  unfold REDO_LOG_BLOCK_SIZE in Hbd.
  unfold replay_block, rp_sys. destruct Hv as [V1 V2 V3 V4 V5 V6].
  rewrite Hlo, (pread_full _ _ ri rf) by (done || lia). rewrite Hsl. cbv zeta.
  set (B := mkBlk m crc 0 (block_tags es k)).
  pose proof (zlen_bytes_of_block B (length_block_tags es k)) as HzB.
  cbn [rp_keyb rp_set_retval]. rewrite read_into_full.
  2:{ pose proof (zlen_bytes_of_block (rp_keyb p) Hl255). unfold zlen in *. lia. }
  rewrite (parse_block_at m crc k Hm Hc : parse_block (bytes_of_block B) = B).
  rewrite Nat2Z.id.
  destruct (lookup_lt_is_Some_2 (rp_blocks p) k ltac:(lia)) as [old Hold].
  cbn [rp_blocks rp_set_keys_offset rp_set_keyb rp_set_retval]. rewrite Hold.
  set (p1 := rp_set_log_offset _ _).
  assert (Hlo1 : rp_log_offset p1 = datapos es k (255 * k)).
  { cbn. unfold REDO_LOG_BLOCK_SIZE. rewrite u64_small; [done|].
    unfold in_u. pow2_norm. lia. }
  assert (Hinv1 : replay_inv (S k) (255 * k) open dev cur p1 ri di rf df).
  { split; [|done|by eapply open_state_ctl; [exact Ho|..]].
    split; try done; cbn.
    - lia.
    - rewrite length_insert. lia.
    - by rewrite length_insert.
    - by rewrite length_insert.
    - intros i Hi. destruct (decide (i = k)) as [->|Hne].
      + rewrite list_lookup_total_insert_eq by lia. cbn. apply length_block_tags.
      + rewrite list_lookup_total_insert_ne by done. apply Hbl. lia.
    - intros q e Hq He Hw. unfold tag_at. cbn.
      destruct (decide (q / 255 = k)%nat) as [Heq|Hne].
      + pose proof (Nat.div_mod_eq q 255) as Hdm.
        pose proof (Nat.mod_upper_bound q 255 ltac:(lia)) as Hmb.
        rewrite Heq, list_lookup_total_insert_eq by lia. cbn.
        apply list_lookup_total_correct. rewrite lookup_block_tags by done.
        replace (255 * k + q `mod` 255)%nat with q by lia. by rewrite He.
      + rewrite list_lookup_total_insert_ne by done. apply Ht; [|done..].
        pose proof (Nat.div_mod_eq q 255) as Hdm.
        pose proof (Nat.mod_upper_bound q 255 ltac:(lia)) as Hmb. lia.
    - intros i Hi. destruct (decide (i = k)) as [->|Hne].
      + by rewrite list_lookup_total_insert_eq by lia.
      + rewrite list_lookup_total_insert_ne by done. apply Hko. lia.
    - intros k' Hk'. apply Hbk. lia. }
  destruct (replay_tags_spec 255 k 0 open dev cur p1 ri di rf df)
    as (p2 & o2 & dev2 & cur2 & rf2 & df2 & HR & Hinv2 & Hlo2 & Hkl2 & Hsc2 & Hcd2);
    rewrite ?Nat.add_0_r in *; try done.
  { intros j Hj. cbn. apply lookup_block_tags. lia. }
  change (Z.to_nat 255) with 255%nat. change (Z.of_nat 0) with 0 in HR. rewrite HR.
  exists p2, o2, dev2, cur2, rf2, df2. split_and!; try done.
  - rewrite Hkl2. apply length_block_tags.
Qed.

(** ** The key blocks of the log *)

(** [n] turns of the loop, as long as there is memory for the key blocks. *)
Lemma replay_turns_spec (n m k : nat) open dev cur p ri di rf df :
  (n + k <= S (length es / 255))%nat -> (n + k <= length es / 255 + slack)%nat ->
  length (b_tags (rp_keyb p)) = 255%nat ->
  replay_inv k (255 * k) open dev cur p ri di rf df -> rp_log_offset p = blkoff es k ->
  scan_ok fin (255 * k) open (drop (255 * k) es) ->
  exists p' open' dev' cur' rf' df',
    replay_loop (n + m) 255 (Z.of_nat (length es / 255)) (Z.of_nat k) p
    = replay_loop m 255 (Z.of_nat (length es / 255)) (Z.of_nat (n + k)) p' /\
    replay_inv (n + k) (255 * (n + k)) open' dev' cur' p' ri di rf' df' /\
    rp_log_offset p' = blkoff es (n + k) /\ length (b_tags (rp_keyb p')) = 255%nat /\
    scan_ok fin (255 * (n + k)) open' (drop (255 * (n + k)) es) /\
    committed_dev dev' cur' (drop (255 * (n + k)) es) = committed_dev dev cur (drop (255 * k) es).
Proof.
  revert k open dev cur p rf df.
  induction n as [|n IH]; intros k open dev cur p rf df Hn Hs Hl Hinv Hlo Hscan.
  { by exists p, open, dev, cur, rf, df. }
  destruct (replay_block_spec k open dev cur p ri di rf df)
    as (p1 & o1 & dev1 & cur1 & rf1 & df1 & Hb & Hinv1 & Hlo1 & Hl1 & Hsc1 & Hcd1);
    try done; [lia..|].
  destruct (IH (S k) o1 dev1 cur1 p1 rf1 df1)
    as (p2 & o2 & dev2 & cur2 & rf2 & df2 & HR & Hinv2 & Hlo2 & Hl2 & Hsc2 & Hcd2); try done; [lia..|].
  replace (S n + k)%nat with (n + S k)%nat by lia.
  exists p2, o2, dev2, cur2, rf2, df2. split_and!; try done; [|by rewrite Hcd2].
  cbn [Nat.add replay_loop]. rewrite decide_True by lia. rewrite Hb.
  by replace (Z.of_nat k + 1) with (Z.of_nat (S k)) by lia.
Qed.

(** The loop with room for all key blocks. *)
Lemma replay_loop_spec dev p ri di rf df :
  (0 < slack)%nat -> length (b_tags (rp_keyb p)) = 255%nat ->
  replay_inv 0 0 None dev [] p ri di rf df -> rp_log_offset p = blkoff es 0 ->
  scan_ok fin 0 None es ->
  exists p' rf' df',
    replay_loop (length es / 255 + 1) 255 (Z.of_nat (length es / 255)) 0 p = Go p' /\
    rview p' ri di rf' df' /\ f_cur df' = committed_dev dev [] es /\
    exists open', fin open' /\ (open' = None -> txn_id (rp_rd p') = 0).
Proof.
  intros Hs Hl Hinv Hlo Hscan. set (n := S (length es / 255)).
  destruct (replay_turns_spec n 0 0 None dev [] p ri di rf df)
    as (p' & open' & dev' & cur' & rf' & df' & HR & Hinv' & _ & _ & Hsc & Hcd); try done; [lia..|].
  assert (Hdrop : drop (255 * (n + 0)) es = []).
  { apply drop_ge. pose proof (Nat.div_mod_eq (length es) 255).
    pose proof (Nat.mod_upper_bound (length es) 255 ltac:(lia)). lia. }
  rewrite Hdrop in *. cbn [committed_dev scan_ok] in *. rewrite drop_0 in Hcd.
  replace (length es / 255 + 1)%nat with (n + 0)%nat by lia.
  exists p', rf', df'. split_and!; [exact HR|apply Hinv'|rewrite <- Hcd; apply Hinv'|].
  exists open'. split; [done|]. intros ->. apply Hinv'.
Qed.

(** The loop without: its last turn stores past the end of [replay_blocks]. *)
Lemma replay_loop_undef dev p ri di rf df :
  slack = 0%nat -> length (b_tags (rp_keyb p)) = 255%nat ->
  replay_inv 0 0 None dev [] p ri di rf df -> rp_log_offset p = blkoff es 0 ->
  scan_ok fin 0 None es ->
  replay_loop (length es / 255 + 1) 255 (Z.of_nat (length es / 255)) 0 p = Undef.
Proof.
  intros Hs Hl Hinv Hlo Hscan. set (n := (length es / 255)%nat) in *.
  destruct (replay_turns_spec n 1 0 None dev [] p ri di rf df)
    as (p' & open' & dev' & cur' & rf' & df' & HR & Hinv' & Hlo' & _); try done; [lia..|].
  fold n in HR. change (Z.of_nat 0) with 0 in HR. rewrite HR. cbn [replay_loop]. rewrite decide_True by lia.
  destruct Hinv' as [[[V1 V2 V3 V4 V5 V6] Hkb Hroom Hlen Hklen Hbl Ht Hko Hda Hbk] _ _].
  unfold replay_block, rp_sys. pose proof (blkoff_pos es (n + 0)) as Hbp. unfold HEADER_SIZE in Hbp.
  pose proof (datapos_range (n + 0) (255 * (n + 0)) ltac:(lia)) as Hdr.
  assert (blkoff es (n + 0) + 4096 = datapos es (n + 0) (255 * (n + 0)))
    by (unfold blkoff, datapos, REDO_LOG_BLOCK_SIZE; lia).
  rewrite Hlo', (pread_full _ _ ri rf') by (done || lia).
  cbv zeta. rewrite Nat2Z.id. cbn [rp_blocks rp_set_keys_offset rp_set_keyb rp_set_retval].
  by rewrite lookup_ge_None_2 by lia.
Qed.

(** ** The whole replay

    A log file that holds a valid header, marked finished, the key blocks and the
    data of [es]. *)
Record sealed_log (h : redo_header) (c : list Z) : Prop := {
  sl_hdr : zslice 0 HEADER_SIZE c = bytes_of_header h;
  sl_ok : hdr_ok h;
  sl_crc : header_crc_ok h = true;
  sl_state : h_state h = E2REDO_STATE_FINISHED;
  sl_nk : h_num_keys h = Z.of_nat (length es / 255);
  sl_data : forall q, data_at es c q;
  sl_blocks : forall k, (k <= length es / 255)%nat -> block_at es c k
}.

Lemma replay_start_inv o d h rv ri di rf df :
  os_fds o !! redo_fd d = Some ri -> os_files o !! ri = Some rf ->
  os_fds o !! dev_fd d = Some di -> os_files o !! di = Some df -> ri <> di -> os_plan o = [] ->
  sealed_log h (f_cur rf) ->
  replay_inv 0 0 None (f_cur df) [] (replay_start o d h rv) ri di rf df.
Proof.
  intros H1 H2 H3 H4 H5 H6 []. split; [|done|by split].
  split; try done; cbn; try lia.
  - rewrite length_app, !length_replicate, sl_nk0, Nat2Z.id. lia.
  - rewrite length_replicate, sl_nk0, Nat2Z.id. lia.
  - intros k Hk. apply sl_blocks0. lia.
Qed.

(** The replay of a finished log reaches the loop over the key blocks. *)
Lemma replay_enters cst fl s d ri di rf df h :
  view s d ri di rf df -> sealed_log h (f_cur rf) ->
  let d0 := set_block_size REDO_LOG_BLOCK_SIZE d in
  let p0 := replay_start (st_os s) d0 h 512 in
  replay_inv 0 0 None (f_cur df) [] p0 ri di rf df /\
  length (b_tags (rp_keyb p0)) = 255%nat /\ rp_log_offset p0 = blkoff es 0 /\
  rfsck_replay cst fl s =
  match replay_loop (length es / 255 + 1) 255 (Z.of_nat (length es / 255)) 0 p0 with
  | Undef => None
  | FreeEnd p => Some (rp_retval p, mkSt (rp_os p) (Some (rp_rd p)))
  | Go p => if fl then let '(retval, o) := fsync (dev_fd (rp_rd p)) (rp_os p) in
                       Some (retval, mkSt o (Some (rp_rd p)))
            else Some (rp_retval p, mkSt (rp_os p) (Some (rp_rd p)))
  end.
Proof.
  intros Hv Hsl d0 p0. pose proof Hsl as [S1 S2 S3 S4 S5 S6 S7]. destruct Hv as [V1 V2 V3 V4 V5 V6 V7].
  split_and!; [by apply replay_start_inv|done|cbn; by destruct S2 as (_ & _ & _ & ->)|].
  unfold rfsck_replay. rewrite V1. cbv zeta.
  rewrite (pread_full _ _ ri rf) by (done || lia). rewrite S1.
  assert (Hlb : length (bytes_of_header h) = 512%nat).
  { pose proof (zlen_wf_header _ (proj1 S2)) as Hz. unfold zlen, HEADER_SIZE in Hz. lia. }
  rewrite read_into_full by (rewrite junk_length; lia).
  rewrite parse_bytes_of_header by apply S2. rewrite S3. cbn [negb].
  rewrite bool_decide_eq_false_2 by (intros Hx; by apply Hx). by rewrite andb_false_r, S5, Nat2Z.id, Hlb.
Qed.

Lemma replay_spec cst s d ri di rf df h :
  (0 < slack)%nat -> view s d ri di rf df -> sealed_log h (f_cur rf) -> scan_ok fin 0 None es ->
  exists s' d' rf' df',
    rfsck_replay cst true s = Some (0, s') /\ view s' d' ri di rf' df' /\
    f_cur df' = committed_dev (f_cur df) [] es /\ f_pending df' = [] /\
    exists open', fin open' /\ (open' = None -> txn_id d' = 0).
Proof.
  intros Hs Hv Hsl Hscan.
  destruct (replay_enters cst true s d ri di rf df h Hv Hsl) as (Hi0 & Hl0 & Hlo0 & ->).
  destruct (replay_loop_spec _ _ ri di rf df Hs Hl0 Hi0 Hlo0 Hscan)
    as (p1 & rf1 & df1 & -> & [W1 W2 W3 W4 W5 W6] & Hc1 & Hfin1).
  rewrite (fsync_full _ _ di df1) by done.
  eexists _, (rp_rd p1), rf1, (f_fsync df1). split; [reflexivity|]. split_and!; [..|done].
  - split; cbn; try done; [by rewrite lookup_insert_ne|by rewrite lookup_insert_eq].
  - by rewrite f_cur_fsync.
  - done.
Qed.

Lemma replay_undef cst fl s d ri di rf df h :
  slack = 0%nat -> view s d ri di rf df -> sealed_log h (f_cur rf) -> scan_ok fin 0 None es ->
  rfsck_replay cst fl s = None.
Proof.
  intros Hs Hv Hsl Hscan.
  destruct (replay_enters cst fl s d ri di rf df h Hv Hsl) as (Hi0 & Hl0 & Hlo0 & ->).
  by rewrite (replay_loop_undef _ _ ri di rf df Hs Hl0 Hi0 Hlo0 Hscan).
Qed.

End replay.
