(* ===== verification/RedoSession.v ===== *)
(** Whole runs of a checker that repairs through the redo log: the transactions of
    a session, [redo_mark_done], a crash at any point, and the replay.

    [e2fsck_run] and the calls of [main] around it (rfsck-ext/e2fsck/e2fsck.c and
    unix.c) are modelled here; the checker's passes are arguments. *)
From Stdlib Require Import ZArith Lia.
From stdpp Require Import base tactics numbers list gmap strings.
From S2P Require Import Prelude Crc32c Os RedoLog RedoLayout RedoWriter RedoOps RedoReplay.

(** * Programs *)

(** A write a pass makes, and the writes of one transaction. *)
Definition wr : Type := Z * list Z.

(** [if (retval) return retval;] between two calls. *)
Definition andthen (m k : M Z) : M Z := r ← m; if decide (r <> 0) then mret r else k.

Section programs.
Context `{Checksum} `{Heap}.

Fixpoint run_writes (ws : list wr) : M Z :=
  match ws with
  | [] => mret 0
  | w :: ws' => andthen (rfsck_write w.1 (zlen w.2) w.2) (run_writes ws')
  end.

Definition run_txn (ws : list wr) : M Z :=
  andthen rfsck_txn_begin (andthen (run_writes ws) rfsck_txn_end).

Fixpoint run_txns (ts : list (list wr)) : M Z :=
  match ts with [] => mret 0 | ws :: ts' => andthen (run_txn ws) (run_txns ts') end.

(** * Specification *)

(** The effect of the transactions on the device. *)
Definition apply_txn (dev : list Z) (ws : list wr) : list Z :=
  foldl (fun c w => zsplice w.1 w.2 c) dev ws.
Definition apply_txns (dev : list Z) (ts : list (list wr)) : list Z := foldl apply_txn dev ts.

Definition wf_wr (w : wr) : Prop :=
  0 <= w.1 < 2 ^ 63 /\ 0 < zlen w.2 < 2 ^ 32 /\ Forall (in_u 8) w.2.

(** The checksum that [rfsck_txn_end] stores. *)
Definition tag_csum (t : redo_block_tag) : Z := crc32c_le crc_seed (bytes_of_tag t).
Definition write_entry (w : wr) : entry := EWrite w.1 w.2.
Definition csum_begin (id : Z) : Z := Z.lxor TXN_CHKSM_CNST (tag_csum (mkTag 0 0 id)).
Definition csum_step (cs : Z) (w : wr) : Z := Z.lxor cs (tag_csum (tag_of (write_entry w))).
Definition csum_of (id : Z) (ws : list wr) : Z :=
  Z.lxor (foldl csum_step (csum_begin id) ws) (tag_csum (mkTag 0 0 id)).

Definition txn_entries (id : Z) (ws : list wr) : list entry :=
  EBegin id :: (write_entry <$> ws) ++ [EEnd id (csum_of id ws)].

Fixpoint txns_entries (id : Z) (ts : list (list wr)) : list entry :=
  match ts with [] => [] | ws :: ts' => txn_entries id ws ++ txns_entries (id + 1) ts' end.

(** No transaction but the first begins in slot 0 of a key block; [q] is the
    number of entries before [ts]. *)
Fixpoint starts_ok (q : nat) (ts : list (list wr)) : bool :=
  match ts with
  | [] => true
  | ws :: ts' =>
      bool_decide (q = 0%nat \/ (q `mod` 255)%nat <> 0%nat) && starts_ok (q + length ws + 2) ts'
  end.

(** * Lemmas *)

Lemma andthen_ok m k s s' : m s = Some (0, s') -> andthen m k s = k s'.
Proof. intros Hm. unfold andthen. rewrite (bind_some _ _ _ _ _ Hm). by rewrite decide_False by lia. Qed.

Lemma dataoff_app es1 es2 p : (p <= length es1)%nat -> dataoff (es1 ++ es2) p = dataoff es1 p.
Proof. intros. unfold dataoff, datapos. by rewrite take_app_le. Qed.

Lemma dataoff_le_end es p : (p <= length es)%nat -> dataoff es p <= dataoff es (length es).
Proof.
  intros Hp. unfold dataoff, datapos, REDO_LOG_BLOCK_SIZE.
  pose proof (dsum_take_mono es p (length es) Hp). pose proof (Nat.Div0.div_le_mono p (length es) 255 Hp).
  lia.
Qed.

Lemma fits_app es1 es2 : fits (es1 ++ es2) -> fits es1.
Proof.
  unfold fits. intros Hf. rewrite <- (dataoff_app es1 es2 (length es1)) by lia.
  pose proof (dataoff_le_end (es1 ++ es2) (length es1) ltac:(rewrite length_app; lia)). lia.
Qed.

Lemma wf_write_entry w : wf_wr w -> wf_entry (write_entry w).
Proof. intros (H1 & H2 & H3). cbn. split_and!; [mlia..|done]. Qed.

Lemma tag_csum_range t : in_u 32 (tag_csum t).
Proof. apply crc32c_le_range; [apply crc_seed_range|apply bytes_of_tag_range]. Qed.

Lemma csum_fold_range cs ws : in_u 32 cs -> in_u 32 (foldl csum_step cs ws).
Proof.
  revert cs. induction ws as [|w ws IH]; intros cs Hcs; [done|]. cbn. apply IH.
  apply lxor_in_u; [lia|done|apply tag_csum_range].
Qed.

Lemma csum_of_range id ws : in_u 32 (csum_of id ws).
Proof.
  apply lxor_in_u; [lia| |apply tag_csum_range]. apply csum_fold_range.
  apply lxor_in_u; [lia|unfold in_u, TXN_CHKSM_CNST; lia|apply tag_csum_range].
Qed.

(** ** What a run writes *)

Lemma logged_refl es s d ri di rf df :
  view s d ri di rf df -> log_inv es d (f_cur rf) -> logged es ri di rf df d s s d rf.
Proof. intros. by split; [| |constructor|..]. Qed.

Lemma logged_trans es1 es2 ri di rf df d s s1 d1 rf1 s2 d2 rf2 :
  logged es1 ri di rf df d s s1 d1 rf1 -> logged es2 ri di rf1 df d1 s1 s2 d2 rf2 ->
  logged es2 ri di rf df d s s2 d2 rf2.
Proof.
  intros [] []. split; try done; [by eapply log_io_trans|congruence].
Qed.

Lemma run_writes_spec ws : forall es s d ri di rf df,
  view s d ri di rf df -> log_inv es d (f_cur rf) -> Forall wf_wr ws ->
  fits (es ++ (write_entry <$> ws)) ->
  exists s' d' rf',
    run_writes ws s = Some (0, s') /\
    logged (es ++ (write_entry <$> ws)) ri di rf df d s s' d' rf' /\
    txn_id d' = txn_id d /\ txn_csum d' = foldl csum_step (txn_csum d) ws.
Proof.
  induction ws as [|[off buf] ws IH]; intros es s d ri di rf df Hv Hi Hwf Hf.
  - rewrite app_nil_r. exists s, d, rf. split_and!; try done. by apply logged_refl.
  - apply Forall_cons in Hwf as [Hw Hws]. rewrite fmap_cons, cons_middle, app_assoc in *.
    destruct (write_spec es s d ri di rf df off buf) as (s1 & d1 & rf1 & HR & Hl & Hid & Hcs);
      try done; [by apply (wf_write_entry (off, buf))|by eapply fits_app|].
    destruct (IH _ s1 d1 ri di rf1 df (lg_view _ _ _ _ _ _ _ _ _ _ Hl)
                (lg_inv _ _ _ _ _ _ _ _ _ _ Hl) Hws Hf) as (s2 & d2 & rf2 & HR2 & Hl2 & Hid2 & Hcs2).
    exists s2, d2, rf2. cbn [run_writes fst snd]. rewrite (andthen_ok _ _ _ _ HR).
    split_and!; [done|by eapply logged_trans|congruence|]. by rewrite Hcs2, Hcs.
Qed.

Lemma run_txn_spec ws es s d ri di rf df :
  lucky -> view s d ri di rf df -> log_inv es d (f_cur rf) -> 0 <= txn_id d < 2 ^ 31 - 1 -> Forall wf_wr ws ->
  fits (es ++ txn_entries (txn_id d) ws) ->
  exists s' d' rf',
    run_txn ws s = Some (0, s') /\
    logged (es ++ txn_entries (txn_id d) ws) ri di rf df d s s' d' rf' /\
    txn_id d' = txn_id d + 1 /\ f_pending rf' = [].
Proof.
  intros Hlk Hv Hi Hid Hwf. unfold txn_entries. rewrite cons_middle, !app_assoc. intros Hf.
  assert (Hidu : in_u 32 (txn_id d)) by (unfold in_u; lia).
  pose proof (fits_app _ _ Hf) as Hf1. pose proof (fits_app _ _ Hf1) as Hf0.
  destruct (txn_begin_spec es s d ri di rf df) as (s1 & d1 & rf1 & HR1 & Hl1 & Hid1 & Hcs1); try done.
  destruct (run_writes_spec ws _ s1 d1 ri di rf1 df (lg_view _ _ _ _ _ _ _ _ _ _ Hl1)
              (lg_inv _ _ _ _ _ _ _ _ _ _ Hl1) Hwf Hf1) as (s2 & d2 & rf2 & HR2 & Hl2 & Hid2 & Hcs2).
  assert (Hide : txn_id d2 = txn_id d) by congruence.
  assert (Hcse : Z.lxor (txn_csum d2) (tag_csum (mkTag 0 0 (txn_id d))) = csum_of (txn_id d) ws)
    by (by rewrite Hcs2, Hcs1).
  destruct (txn_end_spec _ s2 d2 ri di rf2 df (csum_of (txn_id d) ws)
              (lg_view _ _ _ _ _ _ _ _ _ _ Hl2) (lg_inv _ _ _ _ _ _ _ _ _ _ Hl2))
    as (s3 & d3 & rf3 & HR3 & Hl3 & Hid3 & Hp3); rewrite ?Hide; try done.
  { apply csum_of_range. }
  rewrite Hide in Hl3, Hid3. exists s3, d3, rf3. unfold run_txn.
  rewrite (andthen_ok _ _ _ _ HR1), (andthen_ok _ _ _ _ HR2).
  split_and!; [done|by eauto using logged_trans|rewrite Hid3; mlia|done].
Qed.

Lemma run_txns_spec ts : lucky -> forall es s d ri di rf df,
  view s d ri di rf df -> log_inv es d (f_cur rf) -> 0 <= txn_id d ->
  txn_id d + Z.of_nat (length ts) < 2 ^ 31 -> Forall (Forall wf_wr) ts ->
  fits (es ++ txns_entries (txn_id d) ts) ->
  exists s' d' rf',
    run_txns ts s = Some (0, s') /\
    logged (es ++ txns_entries (txn_id d) ts) ri di rf df d s s' d' rf' /\
    txn_id d' = txn_id d + Z.of_nat (length ts).
Proof.
  intros Hlk.
  induction ts as [|ws ts IH]; intros es s d ri di rf df Hv Hi Hid Hn Hwf Hf; cbn [txns_entries length].
  - rewrite app_nil_r. exists s, d, rf. split_and!; [done|by apply logged_refl|lia].
  - apply Forall_cons in Hwf as [Hw Hws]. cbn [txns_entries length] in *. rewrite app_assoc in *.
    destruct (run_txn_spec ws es s d ri di rf df) as (s1 & d1 & rf1 & HR1 & Hl1 & Hid1 & _); try done;
      [lia|by eapply fits_app|].
    destruct (IH _ s1 d1 ri di rf1 df (lg_view _ _ _ _ _ _ _ _ _ _ Hl1)
                (lg_inv _ _ _ _ _ _ _ _ _ _ Hl1)) as (s2 & d2 & rf2 & HR2 & Hl2 & Hid2);
      rewrite ?Hid1; try done; [lia..|].
    rewrite Hid1 in Hl2, Hid2. exists s2, d2, rf2. cbn [run_txns].
    rewrite (andthen_ok _ _ _ _ HR1). split_and!; [done|by eapply logged_trans|lia].
Qed.

(** ** What replay makes of it *)

Lemma scan_ok_writes fin ws : forall q b es',
  Forall wf_wr ws -> scan_ok fin (q + length ws) (Some b) es' ->
  scan_ok fin q (Some b) ((write_entry <$> ws) ++ es').
Proof.
  induction ws as [|w ws IH]; intros q b es' Hwf Hs; cbn in *; [by rewrite Nat.add_0_r in Hs|].
  apply Forall_cons in Hwf as [(Hw1 & Hw2 & _) Hws]. split_and!; [by exists b|lia|lia|lia|].
  apply IH; [done|]. by rewrite Nat.add_succ_comm.
Qed.

Lemma scan_ok_txns ts : forall q id,
  0 < id -> id + Z.of_nat (length ts) <= 2 ^ 31 -> Forall (Forall wf_wr) ts ->
  starts_ok q ts = true -> scan_ok (fun o => o = None) q None (txns_entries id ts).
Proof.
  induction ts as [|ws ts IH]; intros q id Hid Hn Hwf Hst; [done|].
  apply Forall_cons in Hwf as [Hw Hws]. cbn [length] in Hn. cbn in Hst.
  apply andb_true_iff in Hst as [Hst1%bool_decide_eq_true Hst2].
  cbn. split_and!; [done|lia|lia|done|]. rewrite <- app_assoc.
  apply scan_ok_writes; [done|]. cbn. split_and!; [by exists q|lia|].
  apply IH; [lia|lia|done|]. by replace (S (S (q + length ws)))%nat with (q + length ws + 2)%nat by lia.
Qed.

Lemma committed_writes ws : forall dev cur es',
  committed_dev dev cur ((write_entry <$> ws) ++ es')
  = committed_dev dev (cur ++ (write_entry <$> ws)) es'.
Proof.
  induction ws as [|w ws IH]; intros dev cur es'; cbn; [by rewrite app_nil_r|].
  rewrite IH. by rewrite <- app_assoc.
Qed.

Lemma foldl_dev_apply dev ws : foldl dev_apply dev (write_entry <$> ws) = apply_txn dev ws.
Proof. unfold apply_txn. revert dev. induction ws as [|w ws IH]; intros dev; [done|]. cbn. apply IH. Qed.

Lemma committed_txns ts : forall id dev,
  committed_dev dev [] (txns_entries id ts) = apply_txns dev ts.
Proof.
  induction ts as [|ws ts IH]; intros id dev; [done|].
  cbn. rewrite <- app_assoc, committed_writes. cbn. rewrite foldl_dev_apply. apply IH.
Qed.

(** * The log after [redo_setup] and the header write of [rfsck_open] *)

Record fresh_log (s : st) (d : redo_private_data) (ri di : Z) (rf df : file) : Prop := {
  fr_view : view s d ri di rf df;
  fr_inv : log_inv [] d (f_cur rf);
  fr_hdr : hdr_ok (hdr d);
  fr_state : h_state (hdr d) = 0;
  fr_disk : zslice 0 HEADER_SIZE (f_cur rf) = bytes_of_header (hdr d);
  fr_id : txn_id d = 1
}.

Lemma log_inv_setup mem rfd dfd c :
  log_inv [] (mkRd rfd dfd 1 REDO_LOG_BLOCK_SIZE 0 0 HEADER_SIZE (HEADER_SIZE + REDO_LOG_BLOCK_SIZE)
                   (setup_header (h_padding (hdr mem))) blk0 (txn_begin_blk mem) (txn_begin_idx mem) 1
                   (txn_csum mem)) c.
Proof.
  split; try done. split; [cbn; lia|]. intros p e He. by rewrite lookup_nil in He.
Qed.

(** ** [rfsck_open] of a log that does not exist yet *)

(** Memory for [redo_data]: any contents, the padding of the header a string of bytes. *)
Definition mem_ok (mem : redo_private_data) : Prop :=
  length (h_padding (hdr mem)) = 468%nat /\ Forall (in_u 8) (h_padding (hdr mem)).

Lemma setup_header_ok pad :
  length pad = 468%nat -> Forall (in_u 8) pad -> hdr_ok (setup_header pad).
Proof.
  intros Hl Hp.
  assert (Hm : Forall (in_u 8) REDO_HEADER_MAGIC_NUMBER)
    by (repeat (apply Forall_cons; split; [unfold in_u; lia|]); apply Forall_nil_2).
  split_and!; [|done..]. unfold wf_header, setup_header.
  cbn [h_magic h_num_keys h_super_offset h_key_offset h_sb_crc h_state h_header_crc h_padding].
  split_and!; try done; try (unfold HEADER_SIZE; mlia).
  apply crc32c_le_range; [apply crc_seed_range|]. by apply bytes_of_header_range.
Qed.

Lemma open_new path mem dfd di df s :
  st_rd s = None -> os_names (st_os s) !! path = None -> os_plan (st_os s) = [] ->
  1 <= dfd -> os_fds (st_os s) !! dfd = Some di -> os_files (st_os s) !! di = Some df ->
  mem_ok mem -> header_crc_ok (parse_header (junk 0 512)) = false ->
  exists s' d ri rf,
    rfsck_open true (Some mem) (Some path) dfd s = Some (0, s') /\ fresh_log s' d ri di rf df /\
    os_names (st_os s') !! path = Some ri.
Proof.
  intros Hrd Hnm Hpl Hd1 Hdfd Hdf [Hpl1 Hpl2] Hjunk.
  pose proof (new_fd_fresh (st_os s)) as Hf0. pose proof (new_ino_fresh (st_os s)) as Hi0.
  pose proof (new_fd_nonneg (st_os s)) as Hn0.
  set (ino := new_ino (st_os s)) in *. set (fd0 := new_fd (st_os s)) in *.
  assert (Hne : ino <> di) by (intros E; rewrite E in Hi0; congruence).
  assert (Hfd0 : fd0 <> dfd) by (intros E; rewrite E in Hf0; congruence).
  unfold rfsck_open. rewrite decide_False by lia.
  unfold mbind at 1, M_bind at 1, sys at 1, sys_open at 1. rewrite next_outcome_faultless by done.
  rewrite Hnm. fold ino fd0. rewrite decide_False by lia.
  set (o1 := mkOs _ _ _ _ _ _).
  pose proof (new_fd_fresh o1) as Hf1. pose proof (new_fd_nonneg o1) as Hn1.
  unfold mbind at 1, M_bind at 1, sys at 1, sys_open at 1. cbn [st_os].
  rewrite next_outcome_faultless by done. cbn [o1 os_names]. rewrite lookup_insert_eq. fold o1.
  set (fd1 := new_fd o1) in *. rewrite decide_False by lia.
  unfold mbind at 1, M_bind at 1, redo_setup at 1. cbn [st_rd]. rewrite Hrd. cbn [st_rd tdb_written].
  rewrite decide_False by lia. cbn [st_os].
  set (d0 := mkRd _ _ _ _ _ _ _ _ _ _ _ _ _ _). set (o2 := mkOs _ _ _ _ _ _).
  assert (Hfd1 : fd1 <> dfd).
  { intros E. rewrite E in Hf1. cbn in Hf1. rewrite lookup_insert_ne in Hf1 by done. congruence. }
  assert (Hv : view (mkSt o2 (Some d0)) d0 ino di f_empty df).
  { split; cbn; try done; [by rewrite lookup_insert_eq|by rewrite lookup_insert_eq| |].
    - by rewrite !lookup_insert_ne.
    - by rewrite lookup_insert_ne. }
  unfold mbind at 1, M_bind at 1, rfsck_replay at 1. cbn [st_rd st_os].
  rewrite (pread_full _ _ ino f_empty) by (apply Hv || lia).
  change (zslice 0 HEADER_SIZE (f_cur f_empty)) with (@nil Z) at 1.
  unfold read_into at 1. cbn [length drop app]. rewrite drop_0, Hjunk. cbn [negb].
  set (d1 := set_block_size _ d0).
  assert (Hv1 : view (mkSt o2 (Some d1)) d1 ino di f_empty df) by (destruct Hv; by split).
  run_get Hv1.
  assert (Hok : hdr_ok (hdr d1)) by by apply setup_header_ok.
  pose proof (zlen_wf_header _ (proj1 Hok)) as Hlen.
  rewrite (write_info_view _ d1 _ _ _ _ 0 HEADER_SIZE _ Hv1 ltac:(lia) Hlen).
  eexists _, d1, ino, _. split; [reflexivity|]. split_and!; [|by cbn; rewrite lookup_insert_eq].
  split; [by eapply view_set_redo|apply (log_inv_setup mem)|done|done| |done].
  rewrite f_cur_pwrite_z by lia. by apply zslice_zsplice_eq.
Qed.

(** [redo_mark_done(1)] seals the log for replay. *)
Lemma mark_header_crc b nk h : header_crc_ok (mark_header b nk h) = true.
Proof. unfold header_crc_ok, mark_header. by rewrite bool_decide_eq_true_2. Qed.

Lemma seal_spec es s d ri di rf df :
  view s d ri di rf df -> log_inv es d (f_cur rf) -> fits es -> hdr_ok (hdr d) ->
  exists s' d' rf',
    redo_mark_done true s = Some (0, s') /\ view s' d' ri di rf' df /\
    sealed_log es (hdr d') (f_cur rf') /\ f_pending rf' = [] /\
    Forall wf_entry es.
Proof.
  intros Hv Hi Hf Hh.
  destruct (mark_done_spec true es s d ri di rf df Hv Hi Hf Hh)
    as (s' & d' & rf' & HR & Hv' & Hi' & Hh' & Hsl & Hp & _ & Hb & _).
  pose proof (num_keys_range _ _ _ Hi Hf) as Hnk.
  exists s', d', rf'. split_and!; try done; [|apply Hi].
  split; try done.
  - rewrite Hh'. by apply hdr_ok_mark.
  - rewrite Hh'. apply mark_header_crc.
  - by rewrite Hh'.
  - rewrite Hh'. apply (li_nk _ _ _ Hi).
  - apply (li_disk _ _ _ Hi').
  - intros k Hk. destruct (decide (k = length es / 255)%nat) as [->|Hne]; [done|].
    apply (li_disk _ _ _ Hi'). pose proof (Nat.div_mod_eq (length es) 255). lia.
Qed.

(** The hypotheses on the transactions of a session. *)
Record session_ok (ts : list (list wr)) : Prop := {
  so_wr : Forall (Forall wf_wr) ts;
  so_starts : starts_ok 0 ts = true;
  so_n : 1 + Z.of_nat (length ts) < 2 ^ 31;
  so_fits : fits (txns_entries 1 ts)
}.

Lemma session_sealed ts s d ri di rf df :
  lucky -> fresh_log s d ri di rf df -> session_ok ts ->
  exists s' d' rf',
    andthen (run_txns ts) (redo_mark_done true) s = Some (0, s') /\ view s' d' ri di rf' df /\
    sealed_log (txns_entries 1 ts) (hdr d') (f_cur rf') /\ f_pending rf' = [] /\
    Forall wf_entry (txns_entries 1 ts).
Proof.
  intros Hlk [Hv Hi Hh _ _ Hid] [Hw _ Hn Hf].
  destruct (run_txns_spec ts Hlk [] s d ri di rf df Hv Hi) as (s1 & d1 & rf1 & HR1 & Hl1 & _);
    rewrite ?Hid; try done. rewrite Hid, app_nil_l in Hl1.
  destruct (seal_spec _ s1 d1 ri di rf1 df (lg_view _ _ _ _ _ _ _ _ _ _ Hl1)
              (lg_inv _ _ _ _ _ _ _ _ _ _ Hl1) Hf) as (s2 & d2 & rf2 & HR2 & Hv2 & Hs2 & Hp2 & Hw2).
  { by rewrite (lg_hdr _ _ _ _ _ _ _ _ _ _ Hl1). }
  exists s2, d2, rf2. by rewrite (andthen_ok _ _ _ _ HR1).
Qed.

Lemma sealed_replay ts cst s d ri di rf df h :
  lucky -> view s d ri di rf df -> sealed_log (txns_entries 1 ts) h (f_cur rf) -> session_ok ts ->
  Forall wf_entry (txns_entries 1 ts) ->
  exists s' d' rf' df',
    rfsck_replay cst true s = Some (0, s') /\ view s' d' ri di rf' df' /\
    f_cur df' = apply_txns (f_cur df) ts /\ f_pending df' = [] /\ txn_id d' = 0.
Proof.
  intros Hlk Hv Hs [Hw Hst Hn Hf] Hwf.
  destruct (replay_spec (txns_entries 1 ts) Hwf Hf (fun o => o = None) cst s d ri di rf df h (lucky_slack Hlk) Hv Hs)
    as (s' & d' & rf' & df' & HR & Hv' & Hc & Hp & open' & -> & Hid).
  { apply scan_ok_txns; [lia|lia|done|done]. }
  exists s', d', rf', df'. split_and!; try done; [by rewrite Hc, committed_txns|by apply Hid].
Qed.

End programs.
