(* ===== verification/RedoCrash.v ===== *)
(** Crashes: the states of the disk between any two system calls of a session,
    and what [rfsck_replay] makes of each of them after a reboot. *)
From Stdlib Require Import ZArith Lia.
From stdpp Require Import base tactics numbers list gmap strings.
From S2P Require Import Prelude Crc32c Os RedoLog RedoLayout RedoWriter RedoOps RedoReplay RedoSession.

(** * Crash and reboot *)

(** The states the files were in between [s] and [s'], the last one included. *)
Definition disk_states (s s' : st) : list (gmap Z file) :=
  os_files (st_os s')
  :: take (length (os_hist (st_os s')) - length (os_hist (st_os s))) (os_hist (st_os s')).

(** A crash keeps the durable bytes of every file and a choice of its pending writes. *)
Definition crash_files (keeps : Z -> list bool) (m : gmap Z file) : gmap Z file :=
  map_imap (fun i f => Some (f_crash (keeps i) f)) m.

(** The machine after the reboot: the surviving files, opened again. *)
Record rebooted (keeps : Z -> list bool) (m : gmap Z file) (ri di : Z) (s1 : st)
  (d1 : redo_private_data) : Prop := {
  rb_files : os_files (st_os s1) = crash_files keeps m;
  rb_rd : st_rd s1 = Some d1;
  rb_rfd : os_fds (st_os s1) !! redo_fd d1 = Some ri;
  rb_dfd : os_fds (st_os s1) !! dev_fd d1 = Some di;
  rb_plan : os_plan (st_os s1) = []
}.

Lemma lookup_crash_files keeps m i :
  crash_files keeps m !! i = f_crash (keeps i) <$> m !! i.
Proof. unfold crash_files. rewrite map_lookup_imap. by destruct (m !! i). Qed.

Lemma rebooted_view keeps m ri di s1 d1 rf df :
  rebooted keeps m ri di s1 d1 -> m !! ri = Some rf -> m !! di = Some df -> ri <> di ->
  view s1 d1 ri di (f_crash (keeps ri) rf) (f_crash (keeps di) df).
Proof.
  intros [] Hr Hd Hne. split; try done; by rewrite rb_files0, lookup_crash_files, ?Hr, ?Hd.
Qed.

(** A file without pending writes loses nothing. *)
Lemma f_crash_synced keep f : f_pending f = [] -> f_cur (f_crash keep f) = f_cur f.
Proof. intros Hp. unfold f_crash, f_cur. rewrite Hp. cbn. by destruct keep as [|[]]. Qed.

Lemma survive_all ws : survive (replicate (length ws) true) ws = ws.
Proof. induction ws as [|w ws IH]; [done|]. cbn [length]. rewrite replicate_S. cbn [survive]. by rewrite IH. Qed.

(** A crash may also let every pending write through. *)
Lemma f_crash_all f : f_cur (f_crash (replicate (length (f_pending f)) true) f) = f_cur f.
Proof. unfold f_crash, f_cur. cbn [f_synced f_pending foldl]. by rewrite survive_all. Qed.

Lemma survive_nil keep : survive keep [] = [].
Proof. by destruct keep as [|[]]. Qed.

(** * The header stays on disk *)

Definition hdr_durable (h : redo_header) (f : file) : Prop :=
  zslice 0 HEADER_SIZE (f_synced f) = bytes_of_header h /\
  HEADER_SIZE <= zlen (f_synced f) /\
  Forall (fun w => HEADER_SIZE <= Z.of_nat w.1) (f_pending f).

Lemma writes_keep_header ws c :
  Forall (fun w : nat * list Z => HEADER_SIZE <= Z.of_nat w.1) ws -> HEADER_SIZE <= zlen c ->
  zslice 0 HEADER_SIZE (foldl apply_write c ws) = zslice 0 HEADER_SIZE c /\
  HEADER_SIZE <= zlen (foldl apply_write c ws).
Proof.
  revert c. induction ws as [|w ws IH]; intros c Hws Hc; [done|].
  apply Forall_cons in Hws as [Hw Hws]. cbn.
  assert (Ha : apply_write c w = zsplice (Z.of_nat w.1) w.2 c) by apply splice_z.
  unfold HEADER_SIZE in *. destruct (IH (apply_write c w) Hws) as [-> Hl].
  { rewrite Ha, zlen_splice by lia. lia. }
  split; [|done]. rewrite Ha. apply zslice_zsplice_disjoint; lia.
Qed.

Lemma crash_keeps_header h keep f :
  hdr_durable h f -> zslice 0 HEADER_SIZE (f_cur (f_crash keep f)) = bytes_of_header h.
Proof.
  intros (H1 & H2 & H3). unfold f_cur, f_crash. cbn [f_synced f_pending foldl].
  rewrite (proj1 (writes_keep_header (survive keep (f_pending f)) (f_synced f) ltac:(
    apply Forall_forall; intros w Hw%survive_elem; by eapply Forall_forall in H3) H2)). done.
Qed.

Lemma log_io_durable ri di df h0 f0 h f hd :
  log_io ri di df h0 f0 h f -> hdr_durable hd f0 -> hdr_durable hd f.
Proof.
  induction 1 as [|h f off d m _ IH Hoff|h f m _ IH]; intros Hd; [done|..];
    destruct (IH Hd) as (H1 & H2 & H3).
  - split_and!; [done..|]. cbn. apply Forall_app. split; [done|]. apply Forall_singleton. cbn.
    unfold HEADER_SIZE in *. lia.
  - destruct (writes_keep_header (f_pending f) (f_synced f) H3 H2) as [Hz Hl].
    split_and!; [by rewrite <- H1|done|done].
Qed.

(** Every recorded state of the two files comes from the writer. *)
Lemma log_io_hist ri di df h0 f0 h f :
  log_io ri di df h0 f0 h f ->
  exists new, h = new ++ h0 /\
    Forall (fun m => exists h' f', m !! ri = Some f' /\ m !! di = Some df /\
                                   log_io ri di df h0 f0 h' f') new.
Proof.
  induction 1 as [|h f off d m Hio (new & -> & IH) Hoff Hm1 Hm2|h f m Hio (new & -> & IH) Hm1 Hm2].
  - by exists [].
  - exists (m :: new). split; [done|]. constructor; [by eauto 10|done].
  - exists (m :: new). split; [done|]. constructor; [by eauto 10|done].
Qed.

Section crash.
Context `{Checksum} `{Heap}.

(** ** What a log on disk can be: not finished, or complete *)

Definition unfinished (c : list Z) : Prop :=
  exists h, zslice 0 HEADER_SIZE c = bytes_of_header h /\ hdr_ok h /\
            h_state h <> E2REDO_STATE_FINISHED.

Definition log_settled (es : list entry) (c : list Z) : Prop :=
  unfinished c \/ exists h, sealed_log es h c.

(** A log that is not marked finished is not replayed: nothing changes. *)
Lemma replay_unfinished flush s d ri di rf df :
  view s d ri di rf df -> unfinished (f_cur rf) ->
  exists s', rfsck_replay true flush s = Some (1, s') /\ st_os s' = st_os s.
Proof.
  intros [V1 V2 V3 V4 V5 V6 V7] (h & Hsl & Hok & Hst).
  unfold rfsck_replay. rewrite V1. cbv zeta.
  rewrite (pread_full _ _ ri rf) by (done || lia). rewrite Hsl.
  assert (Hlb : length (bytes_of_header h) = 512%nat).
  { pose proof (zlen_wf_header _ (proj1 Hok)) as Hz. unfold zlen, HEADER_SIZE in Hz. lia. }
  rewrite read_into_full by (rewrite junk_length; lia).
  rewrite parse_bytes_of_header by apply Hok.
  destruct (header_crc_ok h); cbn [negb]; [|by eexists].
  rewrite bool_decide_eq_true_2 by done. cbn. by eexists.
Qed.

(** The log while it is being sealed: the header and the last key block are in
    flight, everything else is on disk. *)
Lemma log_settled_sealing es keep h0 h rf3 m c :
  f_pending rf3 = [] -> hdr_durable h0 rf3 -> hdr_ok h0 -> h_state h0 <> E2REDO_STATE_FINISHED ->
  log_disk es (f_cur rf3) -> block_at es (f_cur rf3) (length es / 255) ->
  hdr_ok h -> header_crc_ok h = true -> h_state h = E2REDO_STATE_FINISHED ->
  h_num_keys h = Z.of_nat (length es / 255) -> in_u 32 m -> in_u 32 c ->
  let k := (length es / 255)%nat in
  let rf4 := f_pwrite 0 (bytes_of_header h) rf3 in
  let rf5 := f_pwrite (Z.to_nat (blkoff es k)) (bytes_of_block (mkBlk m c 0 (block_tags es k))) rf4 in
  log_settled es (f_cur (f_crash keep rf4)) /\ log_settled es (f_cur (f_crash keep rf5)).
Proof.
  intros Hp Hd0 Hok0 Hst0 Hdisk Hblk Hok Hcrc Hst Hnk Hm Hc k rf4 rf5.
  pose proof (blkoff_pos es k) as Hbp.
  assert (Hlh : zlen (bytes_of_header h) = HEADER_SIZE) by (apply zlen_wf_header, Hok).
  assert (Hlk : zlen (bytes_of_block (mkBlk m c 0 (block_tags es k))) = REDO_LOG_BLOCK_SIZE)
    by (apply zlen_bytes_of_block, length_block_tags).
  assert (Hun : forall ws, Forall (fun w : nat * list Z => HEADER_SIZE <= Z.of_nat w.1) ws ->
                  log_settled es (foldl apply_write (f_synced rf3) ws)).
  { intros ws Hws. left. exists h0. split_and!; try done.
    destruct Hd0 as (Hz & Hl & _). rewrite <- Hz. exact (proj1 (writes_keep_header _ _ Hws Hl)). }
  assert (Hcur : f_cur rf3 = f_synced rf3) by (unfold f_cur; by rewrite Hp).
  assert (Hall : forall k', (k' <= length es / 255)%nat -> block_at es (f_cur rf3) k').
  { intros k' Hk'. destruct (decide (k' = length es / 255)%nat) as [->|Hne]; [done|].
    apply Hdisk. pose proof (Nat.div_mod_eq (length es) 255). lia. }
  pose proof (log_disk_header es (f_cur rf3) (bytes_of_header h) Hdisk Hlh) as Hdisk4.
  assert (H4 : sealed_log es h (zsplice 0 (bytes_of_header h) (f_cur rf3))).
  { split; try done; [by apply zslice_zsplice_eq|apply Hdisk4|].
    intros k' Hk'. pose proof (Hall k' Hk') as Hat. pose proof (block_at_inside _ _ _ Hat).
    destruct Hat as (m' & c' & Hm' & Hc' & Hs). exists m', c'. split_and!; [done..|].
    pose proof (blkoff_pos es k') as Hp'. unfold HEADER_SIZE in *.
    rewrite zslice_zsplice_disjoint; [done|lia..]. }
  assert (H5 : sealed_log es h (zsplice (blkoff es k) (bytes_of_block (mkBlk m c 0 (block_tags es k)))
                                 (zsplice 0 (bytes_of_header h) (f_cur rf3)))).
  { destruct H4 as [S1 S2 S3 S4 S5 S6 S7]. split; try done.
    - etransitivity; [|exact S1]. unfold HEADER_SIZE in *. apply zslice_zsplice_disjoint; [lia..| |lia].
      rewrite zlen_splice by lia. lia.
    - intros q. by apply data_at_write_block.
    - intros k' Hk'. destruct (decide (k' = k)) as [->|Hne].
      + exists m, c. split_and!; [done..|]. by apply zslice_zsplice_eq.
      + apply block_at_write_block; auto. }
  assert (Hbk : HEADER_SIZE <= Z.of_nat (Z.to_nat (blkoff es k))) by (unfold HEADER_SIZE in *; lia).
  assert (E4 : forall l, foldl apply_write (f_synced rf3) ((0%nat, bytes_of_header h) :: l)
                 = foldl apply_write (zsplice 0 (bytes_of_header h) (f_cur rf3)) l)
    by (intros l; rewrite Hcur; cbn [foldl]; unfold apply_write at 2; cbn [fst snd]; by rewrite splice_z).
  assert (E5 : forall c0 d, apply_write c0 (Z.to_nat (blkoff es k), d) = zsplice (blkoff es k) d c0)
    by (intros; unfold apply_write; cbn; rewrite splice_z; by rewrite Z2Nat.id by (unfold HEADER_SIZE in *; lia)).
  unfold f_cur at 1 2, f_crash, rf5, rf4. cbn [f_synced f_pending f_pwrite]. rewrite Hp. cbn [app foldl].
  split; [destruct keep as [|[] keep]|destruct keep as [|[] [|[] keep]]]; cbn [survive];
    rewrite ?survive_nil;
    first [apply Hun; by auto using Forall_nil_2, Forall_cons_2|rewrite E4];
    cbn [foldl]; rewrite ?E5; right; by exists h.
Qed.

(** ** Every disk state of a session is settled *)

Lemma disk_states_split (s s' : st) new :
  os_hist (st_os s') = new ++ os_hist (st_os s) -> disk_states s s' = os_files (st_os s') :: new.
Proof.
  intros Hh. unfold disk_states. rewrite Hh, length_app.
  by rewrite Nat.add_sub, take_app_length.
Qed.

Definition settled_state (es : list entry) (ri di : Z) (df : file) (m : gmap Z file) : Prop :=
  exists rf, m !! ri = Some rf /\ m !! di = Some df /\
             forall keep, log_settled es (f_cur (f_crash keep rf)).

Lemma log_io_settled es ri di df h0 rf h rf' hd :
  log_io ri di df h0 rf h rf' -> hdr_durable hd rf -> hdr_ok hd ->
  h_state hd <> E2REDO_STATE_FINISHED ->
  exists new, h = new ++ h0 /\ Forall (settled_state es ri di df) new.
Proof.
  intros Hio Hd Hok Hst. destruct (log_io_hist _ _ _ _ _ _ _ Hio) as (new & -> & Hnew).
  exists new. split; [done|]. eapply Forall_impl; [exact Hnew|].
  intros m (h' & f' & Hm1 & Hm2 & Hio'). exists f'. split_and!; [done..|].
  intros keep. left. exists hd. split_and!; [|done..].
  apply crash_keeps_header. by eapply log_io_durable.
Qed.

Lemma mark_files_settled es ri di rf df s s' h rf' hd d' :
  mark_files es ri di rf df s s' h rf' -> view s' d' ri di rf' df ->
  hdr_durable hd rf -> hdr_ok hd -> h_state hd <> E2REDO_STATE_FINISHED ->
  hdr_ok h -> header_crc_ok h = true -> h_state h = E2REDO_STATE_FINISHED ->
  h_num_keys h = Z.of_nat (length es / 255) ->
  exists new, os_hist (st_os s') = new ++ os_hist (st_os s) /\
    Forall (settled_state es ri di df) (os_files (st_os s') :: new).
Proof.
  intros (h3 & rf3 & m3 & m4 & m5 & m & c & Hio & Hp & Hdisk & Hblk & Hm & Hc & Hh & Hrf' & (M3 & M4 & M5) & (N3 & N4 & N5))
    Hv Hd Hok Hst Hok' Hcrc Hst' Hnk.
  destruct (log_io_settled es _ _ _ _ _ _ _ hd Hio Hd Hok Hst) as (new & -> & Hnew).
  pose proof (log_io_durable _ _ _ _ _ _ _ hd Hio Hd) as Hd3.
  assert (Hseal : forall keep, _ /\ _) by
    (intros keep; exact (log_settled_sealing es keep hd h rf3 m c Hp Hd3 Hok Hst Hdisk Hblk Hok' Hcrc Hst' Hnk Hm Hc)).
  exists (m5 :: m4 :: m3 :: new). split; [done|].
  repeat constructor; [..|done].
  - exists rf'. split_and!; [apply Hv..|]. intros keep. rewrite Hrf', f_crash_fsync.
    rewrite <- f_crash_all. apply Hseal.
  - eexists. split_and!; [done..|]. intros keep. apply Hseal.
  - eexists. split_and!; [done..|]. intros keep. apply Hseal.
  - exists rf3. split_and!; [done..|]. intros keep. left. exists hd.
    split_and!; [by apply crash_keeps_header|done..].
Qed.

Lemma session_states ts s d ri di rf df :
  lucky -> fresh_log s d ri di rf df -> hdr_durable (hdr d) rf -> session_ok ts ->
  exists s',
    andthen (run_txns ts) (redo_mark_done true) s = Some (0, s') /\
    Forall (settled_state (txns_entries 1 ts) ri di df) (disk_states s s').
Proof.
  intros Hlk [Hv Hi Hh Hst _ Hid] Hdur [Hw _ Hn Hf].
  assert (Hne : h_state (hdr d) <> E2REDO_STATE_FINISHED) by by rewrite Hst.
  destruct (run_txns_spec ts Hlk [] s d ri di rf df Hv Hi) as (s1 & d1 & rf1 & HR1 & Hl1 & _);
    rewrite ?Hid; try done. rewrite Hid, app_nil_l in Hl1.
  destruct Hl1 as [Hv1 Hi1 Hio1 Hh1].
  pose proof (num_keys_range _ _ _ Hi1 Hf) as Hnk.
  destruct (mark_done_spec true _ s1 d1 ri di rf1 df Hv1 Hi1 Hf)
    as (s2 & d2 & rf2 & HR2 & Hv2 & Hi2 & Hh2 & _ & _ & _ & _ & Hmf); [by rewrite Hh1|].
  exists s2. rewrite (andthen_ok _ _ _ _ HR1). split; [done|].
  destruct (log_io_settled (txns_entries 1 ts) _ _ _ _ _ _ _ (hdr d) Hio1 Hdur Hh Hne) as (new1 & E1 & F1).
  destruct (mark_files_settled _ _ _ _ _ _ _ _ _ (hdr d) d2 Hmf Hv2) as (new2 & E2 & F2); try done.
  { by eapply log_io_durable. }
  { rewrite Hh2, Hh1. by apply hdr_ok_mark. }
  { rewrite Hh2. apply mark_header_crc. }
  { by rewrite Hh2. }
  { rewrite Hh2. apply (li_nk _ _ _ Hi1). }
  rewrite E1, app_assoc in E2. rewrite (disk_states_split s s2 _ E2).
  apply Forall_cons in F2 as [F2a F2b]. apply Forall_cons. split; [done|]. by apply Forall_app.
Qed.

(** What recovery may do: nothing, or everything. *)
Definition all_or_nothing (ts : list (list wr)) (di : Z) (df : file) (s1 : st) : Prop :=
  (exists s2, rfsck_replay true true s1 = Some (1, s2) /\
              os_files (st_os s2) = os_files (st_os s1) /\
              exists df2, os_files (st_os s2) !! di = Some df2 /\ f_cur df2 = f_cur df) \/
  (exists s2 df2, rfsck_replay true true s1 = Some (0, s2) /\
              os_files (st_os s2) !! di = Some df2 /\
              f_cur df2 = apply_txns (f_cur df) ts /\ f_pending df2 = []).

Lemma settled_recovers ts ri di df m keeps s1 d1 :
  lucky -> settled_state (txns_entries 1 ts) ri di df m -> rebooted keeps m ri di s1 d1 -> ri <> di ->
  f_pending df = [] -> session_ok ts -> Forall wf_entry (txns_entries 1 ts) ->
  all_or_nothing ts di df s1.
Proof.
  intros Hlk (rf & Hm1 & Hm2 & Hset) Hrb Hne Hp Hok Hwf.
  pose proof (rebooted_view _ _ _ _ _ _ _ _ Hrb Hm1 Hm2 Hne) as Hv.
  pose proof (f_crash_synced (keeps di) df Hp) as Hdf.
  destruct (Hset (keeps ri)) as [Hun|[h Hs]].
  - left. destruct (replay_unfinished true s1 d1 _ _ _ _ Hv Hun) as (s2 & HR & Hos).
    exists s2. rewrite Hos. split_and!; [done..|]. eexists. split; [apply Hv|done].
  - right. destruct (sealed_replay ts true s1 d1 _ _ _ _ h Hlk Hv Hs Hok Hwf)
      as (s2 & d2 & rf2 & df2 & HR & Hv2 & Hc & Hp2 & _).
    exists s2, df2. split_and!; [done|apply Hv2|by rewrite Hc, Hdf|done].
Qed.

End crash.
