(* ===== verification/E2fsck.v ===== *)
(** The control flow of the checker around the redo log: [e2fsck_run]
    (rfsck-ext/e2fsck/e2fsck.c) and the redo calls of [main]
    (rfsck-ext/e2fsck/unix.c).

    The passes, and the work [main] does before and after them, are arguments:
    programs that may write through the log, change the flags of the context, or
    leave by [longjmp]. *)
From Stdlib Require Import ZArith Lia.
From stdpp Require Import base tactics numbers list gmap strings.
From S2P Require Import Prelude Crc32c Os RedoLog RedoLayout RedoWriter RedoOps RedoReplay RedoSession.

(** * Flags of the context (e2fsck.h) *)

Definition E2F_FLAG_ABORT : Z := 0x1.
Definition E2F_FLAG_CANCEL : Z := 0x2.
Definition E2F_FLAG_RESTART : Z := 0x4.
Definition E2F_FLAG_SIGNAL_MASK : Z := Z.lor E2F_FLAG_ABORT E2F_FLAG_CANCEL.
Definition E2F_FLAG_RUN_RETURN : Z := Z.lor E2F_FLAG_SIGNAL_MASK E2F_FLAG_RESTART.
Definition E2F_FLAG_SETJMP_OK : Z := 0x10.

(** How a pass ends: it returns, or it jumps to [ctx->abort_loc]; with the flags. *)
Inductive pass_exit := Ret (flags : Z) | LongJmp (flags : Z).

Definition pass_t : Type := Z -> M pass_exit.

(** A pass that makes the writes [ws] and returns with [flags] added. *)
Definition writing_pass `{Checksum} (ws : list wr) (add : Z) : pass_t := fun flags =>
  _ ← run_writes ws; mret (Ret (Z.lor flags add)).

Section run.
Context `{Checksum} `{Heap}.
Variable is_redo_enabled : bool.
Variable e2fsck_mmp_update : M Z.

Definition redo_begin : M Z := if is_redo_enabled then rfsck_txn_begin else mret 0.
Definition redo_end : M Z := if is_redo_enabled then rfsck_txn_end else mret 0.

(** The [for] loop of [e2fsck_run]; [fatal_error] sets the abort flag and jumps. *)
Fixpoint run_passes (passes : list pass_t) (flags : Z) : M pass_exit :=
  match passes with
  | [] => mret (Ret flags)
  | e2fsck_pass :: passes' =>
      _ ← redo_begin;
      if decide (Z.land flags E2F_FLAG_RUN_RETURN <> 0) then mret (Ret flags)
      else
        err ← e2fsck_mmp_update;
        if decide (err <> 0) then mret (LongJmp (Z.lor flags E2F_FLAG_ABORT))
        else
          x ← e2fsck_pass flags;
          match x with
          | LongJmp fl => mret (LongJmp fl)
          | Ret fl => _ ← redo_end; run_passes passes' fl
          end
  end.

(** [e2fsck_run]: the result, and the flags it leaves in the context. *)
Definition e2fsck_run (passes : list pass_t) (flags : Z) : M (Z * Z) :=
  x ← run_passes passes (Z.lor flags E2F_FLAG_SETJMP_OK);
  let fl := match x with Ret fl | LongJmp fl => Z.land fl (Z.lnot E2F_FLAG_SETJMP_OK) end in
  if decide (Z.land fl E2F_FLAG_RUN_RETURN <> 0) then mret (Z.land fl E2F_FLAG_RUN_RETURN, fl)
  else mret (0, fl).

(** What [main] does with the log once the file system is open: [before] is its
    work up to [e2fsck_run], [after] the rest.  The result says whether it jumps
    back to [restart]. *)
Definition main_check (before after : M Z) (passes : list pass_t) (flags : Z) : M bool :=
  _ ← redo_begin;
  _ ← before;
  _ ← redo_end;
  r ← e2fsck_run passes flags;
  let '(run_result, fl) := r in
  _ ← redo_begin;
  _ ← after;
  if decide (run_result = E2F_FLAG_RESTART) then
    (if is_redo_enabled then
       _ ← rfsck_txn_end;
       _ ← redo_mark_done true;
       _ ← rfsck_replay true true;
       _ ← redo_mark_done false;
       mret true
     else mret true)
  else
    (if is_redo_enabled then
       _ ← rfsck_txn_end;
       _ ← redo_mark_done true;
       _ ← rfsck_replay true true;
       _ ← rfsck_close;
       mret false
     else mret false).

End run.

(** * A run without restart is a session *)

Section theorems.
Context `{Checksum} `{Heap}.

Definition no_mmp : M Z := mret 0.

Lemma andthen_inv m k s s' :
  andthen m k s = Some (0, s') -> exists s1, m s = Some (0, s1) /\ k s1 = Some (0, s').
Proof.
  unfold andthen, mbind, M_bind. destruct (m s) as [[r s1]|]; [|done].
  case_decide as Hr; [intros [=]; congruence|]. assert (r = 0) as -> by lia. by exists s1.
Qed.

Lemma bind_eq {A B} (m : M A) (f g : A -> M B) s :
  (forall x s', f x s' = g x s') -> mbind f m s = mbind g m s.
Proof. intros Hfg. unfold mbind, M_bind. destruct (m s) as [[x s']|]; [apply Hfg|done]. Qed.

Lemma mret_bind {A B} (x : A) (f : A -> M B) s : mbind f (mret x : M A) s = f x s.
Proof. done. Qed.

Lemma bind_assoc {A B C} (m : M A) (f : A -> M B) (g : B -> M C) s :
  mbind g (mbind f m) s = mbind (fun x => mbind g (f x)) m s.
Proof. unfold mbind, M_bind. by destruct (m s) as [[x s']|]. Qed.

(** The transactions of the passes, when no pass asks to stop. *)
Lemma run_passes_txns wss : forall flags s s',
  Z.land flags E2F_FLAG_RUN_RETURN = 0 ->
  run_txns wss s = Some (0, s') ->
  run_passes true no_mmp ((fun ws => writing_pass ws 0) <$> wss) flags s = Some (Ret flags, s').
Proof.
  induction wss as [|ws wss IH]; intros flags s s' Hfl Hrun; cbn [run_txns fmap list_fmap] in *.
  { by injection Hrun as ->. }
  apply andthen_inv in Hrun as (s3 & Htx & Hrest).
  apply andthen_inv in Htx as (s1 & Hb & Htx). apply andthen_inv in Htx as (s2 & Hw & He).
  cbn [run_passes]. unfold redo_begin, redo_end, no_mmp, writing_pass.
  rewrite (bind_some _ _ _ _ _ Hb). rewrite decide_False by lia. rewrite mret_bind.
  rewrite decide_False by lia. rewrite bind_assoc, (bind_some _ _ _ _ _ Hw), mret_bind.
  rewrite (bind_some _ _ _ _ _ He), Z.lor_0_r. by apply IH.
Qed.

Lemma land_run_return_setjmp flags :
  Z.land (Z.lor flags E2F_FLAG_SETJMP_OK) E2F_FLAG_RUN_RETURN = Z.land flags E2F_FLAG_RUN_RETURN.
Proof.
  rewrite Z.land_lor_distr_l.
  change (Z.land E2F_FLAG_SETJMP_OK E2F_FLAG_RUN_RETURN) with 0. apply Z.lor_0_r.
Qed.

Lemma e2fsck_run_txns wss flags s s' :
  Z.land flags E2F_FLAG_RUN_RETURN = 0 -> run_txns wss s = Some (0, s') ->
  exists fl, e2fsck_run true no_mmp ((fun ws => writing_pass ws 0) <$> wss) flags s = Some ((0, fl), s').
Proof.
  intros Hfl Hrun. unfold e2fsck_run.
  rewrite (bind_some _ _ _ _ _ (run_passes_txns wss _ s s' ltac:(by rewrite land_run_return_setjmp) Hrun)).
  cbv zeta. rewrite decide_False; [by eexists|]. intros Hne. apply Hne.
  rewrite Z.land_lor_distr_l.
  change (Z.land E2F_FLAG_SETJMP_OK (Z.lnot E2F_FLAG_SETJMP_OK)) with 0.
  rewrite Z.lor_0_r, <- Z.land_assoc, (Z.land_comm (Z.lnot _)), Z.land_assoc, Hfl. apply Z.land_0_l.
Qed.

Lemma run_txns_app ts1 ts2 s s' :
  run_txns (ts1 ++ ts2) s = Some (0, s') ->
  exists s1, run_txns ts1 s = Some (0, s1) /\ run_txns ts2 s1 = Some (0, s').
Proof.
  revert s. induction ts1 as [|ws ts1 IH]; intros s; cbn; [by eauto|].
  intros Hrun. apply andthen_inv in Hrun as (s1 & H1 & H2). destruct (IH _ H2) as (s2 & H3 & H4).
  exists s2. by rewrite (andthen_ok _ _ _ _ H1).
Qed.

End theorems.
