(* ===== verification/RedoTheorems.v ===== *)
(** The properties of the redo log and of the checker that repairs through it. *)
From Stdlib Require Import ZArith Lia.
From stdpp Require Import base tactics numbers list gmap strings.
From S2P Require Import Prelude Crc32c Os RedoLog RedoLayout RedoWriter RedoOps RedoReplay RedoSession.
From S2P Require Import RedoCrash E2fsck.

(** * A concrete log, for the witnesses *)

(** Memory that happens to be zeroed, with one key block of unused memory after the heap
    array. *)
#[export] Instance zero_heap : Heap := {|
  junk := fun _ n => replicate n 0;
  junk_length := fun _ n => length_replicate n 0;
  indet := fun _ => 0;
  slack := 1
|}.

Lemma zero_lucky : @lucky zero_heap.
Proof. split; [done|cbn; lia]. Qed.

Definition mem0 : redo_private_data :=
  mkRd 0 0 0 0 0 0 0 0 (mkHdr [] 0 0 0 0 0 0 (replicate 468 0)) blk0 0 0 0 0.

(** What [redo_setup] leaves in [redo_data], with the log at descriptor 4 and the
    device at descriptor 3. *)
Definition demo_rd : redo_private_data :=
  mkRd 4 3 1 REDO_LOG_BLOCK_SIZE 0 0 HEADER_SIZE (HEADER_SIZE + REDO_LOG_BLOCK_SIZE)
       (setup_header (replicate 468 0)) blk0 0 0 1 0.

Definition demo_log : file := mkFile (bytes_of_header (hdr demo_rd)) [].
Definition demo_dev : file := mkFile (replicate 16 7) [].

Definition demo_os : os :=
  mkOs (<["redo" := 1]> ∅) (<[0 := demo_dev]> (<[1 := demo_log]> ∅)) (<[3 := 0]> (<[4 := 1]> ∅)) [] [] ∅.

Definition demo_st : st := mkSt demo_os (Some demo_rd).

Lemma demo_fresh : fresh_log demo_st demo_rd 1 0 demo_log demo_dev.
Proof.
  split.
  - by split.
  - apply (log_inv_setup mem0).
  - apply setup_header_ok; [done|]. by apply Forall_replicate; unfold in_u.
  - done.
  - apply zslice_all, zlen_wf_header, setup_header_ok; [done|]. by apply Forall_replicate; unfold in_u.
  - done.
Qed.

Definition demo_txns : list (list wr) := [[(0, [1; 2])]; [(1, [3]); (20, [4])]; []].

Lemma demo_wr off d :
  0 <= off < 2 ^ 63 -> 0 < zlen d < 2 ^ 32 -> forallb (fun z => (0 <=? z) && (z <? 256)) d = true ->
  wf_wr (off, d).
Proof.
  intros H1 H2 H3. split_and!; cbn; try lia. apply Forall_forall. intros z Hz.
  apply list_elem_of_In in Hz. rewrite forallb_forall in H3. specialize (H3 z Hz).
  apply andb_true_iff in H3 as [H4%Z.leb_le H5%Z.ltb_lt]. unfold in_u. lia.
Qed.

Lemma demo_session_ok : session_ok demo_txns.
Proof.
  split; [|done|done|done].
  repeat first [apply Forall_nil_2 | apply Forall_cons_2 | apply demo_wr; done].
Qed.

Section theorems.
Context `{Checksum} `{Heap}.

(** C1: in memory where the program is lucky ([lucky]: the [retval] that [rfsck_txn_begin]
    tests uninitialised is 0, and the memory after the too short array [replay_blocks] is
    unused for one key block; [RedoLimits] shows what happens otherwise), a run of the
    checker on a new log, without I/O errors and with passes that return normally, leaves on
    the device, durably, exactly the writes of all its transactions (those [main] makes before
    the passes, those of each pass, those [main] makes after them), applied in order:
    logging, sealing and replaying compose to direct execution.  The writes must not be
    empty, must fit the log, and no transaction may end in the last slot of a key block
    with another one after it ([session_ok]). *)
Theorem main_repairs pre post wss flags s d ri di rf df :
  lucky -> fresh_log s d ri di rf df -> session_ok (pre :: wss ++ [post]) ->
  Z.land flags E2F_FLAG_RUN_RETURN = 0 ->
  exists s' df',
    main_check true no_mmp (run_writes pre) (run_writes post)
               ((fun ws => writing_pass ws 0) <$> wss) flags s = Some (false, s') /\
    os_files (st_os s') !! di = Some df' /\
    f_synced df' = apply_txns (f_cur df) (pre :: wss ++ [post]) /\ f_pending df' = [].
Proof.
  intros Hlk Hfr Hok Hfl.
  destruct (session_sealed _ _ _ _ _ _ _ Hlk Hfr Hok) as (s5 & d5 & rf5 & Hrun & Hv5 & Hs5 & _ & Hwf).
  destruct (sealed_replay _ true _ _ _ _ _ _ _ Hlk Hv5 Hs5 Hok Hwf)
    as (s6 & d6 & rf6 & df6 & Hrep & Hv6 & Hc6 & Hp6 & _).
  apply andthen_inv in Hrun as (s4 & Hrun & Hmark).
  cbn [run_txns] in Hrun. apply andthen_inv in Hrun as (s1 & Hpre & Hrun).
  apply run_txns_app in Hrun as (s2 & Hwss & Hpost).
  apply andthen_inv in Hpost as (s3 & Hpost & [= <-]).
  destruct (e2fsck_run_txns wss flags s1 s2 Hfl Hwss) as [fl Hrr].
  apply andthen_inv in Hpre as (a1 & Ha1 & Hpre). apply andthen_inv in Hpre as (a2 & Ha2 & Ha3).
  apply andthen_inv in Hpost as (b1 & Hb1 & Hpost). apply andthen_inv in Hpost as (b2 & Hb2 & Hb3).
  unfold main_check, redo_begin, redo_end.
  rewrite (bind_some _ _ _ _ _ Ha1), (bind_some _ _ _ _ _ Ha2), (bind_some _ _ _ _ _ Ha3).
  rewrite (bind_some _ _ _ _ _ Hrr), (bind_some _ _ _ _ _ Hb1), (bind_some _ _ _ _ _ Hb2).
  rewrite decide_False by done. rewrite (bind_some _ _ _ _ _ Hb3), (bind_some _ _ _ _ _ Hmark).
  rewrite (bind_some _ _ _ _ _ Hrep).
  unfold mbind at 1, M_bind at 1, rfsck_close. rewrite (v_rd _ _ _ _ _ _ Hv6).
  unfold mbind at 1, M_bind at 1, sys, sys_close. rewrite next_outcome_faultless by apply Hv6.
  rewrite (v_rfd _ _ _ _ _ _ Hv6). rewrite decide_False by lia.
  eexists _, df6. split; [reflexivity|]. split_and!; [apply Hv6| |done].
  rewrite <- Hc6. unfold f_cur. by rewrite Hp6.
Qed.

(** C2: crash atomicity of the repair: wherever the machine stops during a session and its
    sealing (between any two system calls, with any subset of the unforced writes lost), the
    replay after the reboot either reports that the log is not finished and changes no
    file, or applies every transaction of the session, durably.  Assumed: the memory is
    [lucky] (the uninitialised [retval] is 0 and a key block of unused memory follows the
    array [replay_blocks]), the header of the log is durable and the device has no unforced
    writes at the start, no system call fails, and the session is [session_ok]: no
    transaction but the last ends in the last slot of a key block. *)
Theorem session_crash_atomic ts s d ri di rf df :
  lucky -> fresh_log s d ri di rf df -> hdr_durable (hdr d) rf -> f_pending df = [] -> session_ok ts ->
  exists s',
    andthen (run_txns ts) (redo_mark_done true) s = Some (0, s') /\
    forall m keeps s1 d1, m ∈ disk_states s s' -> rebooted keeps m ri di s1 d1 ->
      all_or_nothing ts di df s1.
Proof.
  intros Hlk Hfr Hdur Hp Hok.
  destruct (session_states _ _ _ _ _ _ _ Hlk Hfr Hdur Hok) as (s' & Hrun & Hall).
  destruct (session_sealed _ _ _ _ _ _ _ Hlk Hfr Hok) as (_ & _ & _ & _ & _ & _ & _ & Hwf).
  exists s'. split; [done|]. intros m keeps s1 d1 Hm Hrb.
  eapply settled_recovers; [done|by eapply Forall_forall in Hall|done|apply Hfr|done..].
Qed.

(** C3: replay of a finished log that was not replayed before and in which no transaction
    but the first begins in slot 0 of a key block ([scan_ok]), complete at the end or not, with
    no I/O error and one key block of unused memory after the array [replay_blocks]: exactly
    the records of the transactions that have their end record reach the device, in order,
    durably; an open transaction at the end of the log is ignored. *)
Theorem replay_applies_committed cst es h s d ri di rf df :
  (0 < slack)%nat -> Forall wf_entry es -> fits es -> view s d ri di rf df ->
  sealed_log es h (f_cur rf) -> scan_ok (fun _ => True) 0 None es ->
  exists s' d' rf' df',
    rfsck_replay cst true s = Some (0, s') /\ view s' d' ri di rf' df' /\
    f_cur df' = committed_dev (f_cur df) [] es /\ f_pending df' = [].
Proof.
  intros Hsl Hwf Hf Hv Hs Hsc.
  destruct (replay_spec es Hwf Hf (fun _ => True) cst s d ri di rf df h Hsl Hv Hs Hsc)
    as (s' & d' & rf' & df' & ? & ? & ? & ? & _). by exists s', d', rf', df'.
Qed.

(** [rfsck_open] of a log that does not exist creates it, with a valid header marked
    unfinished, an empty key block and transaction counter 1, and leaves the device alone. *)
Theorem open_creates_log path mem dfd di df s :
  st_rd s = None -> os_names (st_os s) !! path = None -> os_plan (st_os s) = [] ->
  1 <= dfd -> os_fds (st_os s) !! dfd = Some di -> os_files (st_os s) !! di = Some df ->
  mem_ok mem -> header_crc_ok (parse_header (junk 0 512)) = false ->
  exists s' d ri rf,
    rfsck_open true (Some mem) (Some path) dfd s = Some (0, s') /\
    fresh_log s' d ri di rf df /\ os_names (st_os s') !! path = Some ri.
Proof.
  intros. destruct (open_new path mem dfd di df s) as (s' & d & ri & rf & ? & ? & ?); try done.
  by exists s', d, ri, rf.
Qed.

(** C7: when no system call fails, [rfsck_txn_end] appends the end record with the running
    checksum, keeps the log invariant, counts the transaction, leaves device and header alone,
    and returns 0 with everything it logged forced to disk.  (It ignores the result of
    [rfsck_flush]: with a failing [fsync] it returns 0 as well, see
    [RedoLimits.txn_end_flush_ignored].) *)
Theorem txn_end_durable es s d ri di rf df :
  view s d ri di rf df -> log_inv es d (f_cur rf) -> 0 <= txn_id d < 2 ^ 31 - 1 ->
  in_u 32 (txn_csum d) ->
  let cs := Z.lxor (txn_csum d) (tag_csum (mkTag 0 0 (txn_id d))) in
  fits (es ++ [EEnd (txn_id d) cs]) ->
  exists s' d' rf',
    rfsck_txn_end s = Some (0, s') /\ view s' d' ri di rf' df /\
    log_inv (es ++ [EEnd (txn_id d) cs]) d' (f_cur rf') /\ hdr d' = hdr d /\
    txn_id d' = txn_id d + 1 /\ f_pending rf' = [].
Proof.
  intros Hv Hi Hid Hcs cs Hf.
  destruct (txn_end_spec es s d ri di rf df cs) as (s' & d' & rf' & HR & [] & Hid' & Hp); try done.
  { unfold in_u. lia. }
  { apply lxor_in_u; [lia|done|apply tag_csum_range]. }
  exists s', d', rf'. split_and!; try done. rewrite Hid'. mlia.
Qed.

(** [rfsck_write] appends its record: tag in the current key block, data at the log
    offset, both in the file; the invariant, the header and the device are kept, also when
    the record fills the key block and a new one is started. *)
Theorem write_appends es s d ri di rf df off buf :
  view s d ri di rf df -> log_inv es d (f_cur rf) -> wf_entry (EWrite off buf) ->
  fits (es ++ [EWrite off buf]) ->
  exists s' d' rf',
    rfsck_write off (zlen buf) buf s = Some (0, s') /\ view s' d' ri di rf' df /\
    log_inv (es ++ [EWrite off buf]) d' (f_cur rf') /\ hdr d' = hdr d /\
    txn_id d' = txn_id d /\ txn_csum d' = csum_step (txn_csum d) (off, buf).
Proof.
  intros Hv Hi Hw Hf.
  destruct (write_spec es s d ri di rf df off buf) as (s' & d' & rf' & HR & [] & Hid & Hcs); try done.
  by exists s', d', rf'.
Qed.

(** ** Errors *)

Definition pending_fault (o : os) (x : io_outcome) : Prop := exists p, os_plan o = x :: p.

Lemma pwrite_fault fd buf off x o :
  pending_fault o x -> (x = IoFail \/ exists n, x = IoShort n /\ (n < length buf)%nat) ->
  (pwrite fd buf off o).1 <> zlen buf \/ (pwrite fd buf off o).1 < 0.
Proof.
  intros [p Hp] Hx. unfold pwrite, next_outcome. rewrite Hp.
  destruct (fd_file _ fd) as [[ino f]|]; [|by right].
  case_decide; [by right|]. destruct Hx as [->|(n & -> & Hn)]; [by right|left].
  cbn. unfold zlen. rewrite length_take. lia.
Qed.

Lemma write_info_fault fd off size buf co x s :
  pending_fault (st_os s) x -> zlen buf = size ->
  (x = IoFail \/ exists n, x = IoShort n /\ (n < length buf)%nat) ->
  exists o', write_info fd off size buf co s = Some (1, mkSt o' (st_rd s)).
Proof.
  intros Hp Hl Hx. unfold write_info. rewrite decide_False by (unfold zlen in Hl; lia).
  rewrite take_zlen by lia. unfold mbind, M_bind, sys.
  pose proof (pwrite_fault fd buf off x (st_os s) Hp Hx) as Hr.
  destruct (pwrite fd buf off (st_os s)) as [r o']. cbn in Hr. exists o'.
  case_decide; [done|]. by rewrite decide_True by lia.
Qed.

(** A failed or short write of the data of a record: [rfsck_write] returns 1, and the
    log offset, the slot counter and the block counter do not move. *)
Theorem write_io_error s d x off buf :
  st_rd s = Some d -> keys_in_block d < 255 -> pending_fault (st_os s) x ->
  (x = IoFail \/ exists n, x = IoShort n /\ (n < length buf)%nat) ->
  exists s' d',
    rfsck_write off (zlen buf) buf s = Some (1, s') /\ st_rd s' = Some d' /\
    log_offset d' = log_offset d /\ keys_in_block d' = keys_in_block d /\
    num_keys d' = num_keys d /\ redo_block_offset d' = redo_block_offset d.
Proof.
  intros Hrd Hk Hp Hx. unfold rfsck_write. rewrite decide_False by (unfold zlen; lia). rewrite take_zlen by lia.
  unfold get_rd, store_tag, modify_rd, put_rd, mbind, M_bind, get_rd. rewrite Hrd. cbn.
  rewrite Hrd. cbn. rewrite decide_True by done. cbn.
  match goal with |- context [write_info ?fd ?o ?n ?b true ?s1] =>
    destruct (write_info_fault fd o n b true x s1) as [o' ->]; [done|done|done|] end.
  rewrite decide_True by lia. by eexists _, _.
Qed.

(** A header that fails its checksum, or is not marked finished, stops [rfsck_replay]
    with result 1 before anything is changed. *)
Theorem replay_rejects_header flush s d ri di rf df h :
  view s d ri di rf df -> zslice 0 HEADER_SIZE (f_cur rf) = bytes_of_header h -> hdr_ok h ->
  header_crc_ok h = false \/ h_state h <> E2REDO_STATE_FINISHED ->
  exists s', rfsck_replay true flush s = Some (1, s') /\ st_os s' = st_os s.
Proof.
  intros Hv Hsl Hok Hbad. destruct (decide (h_state h = E2REDO_STATE_FINISHED)) as [Hfin|Hst].
  - destruct Hbad as [Hcrc|]; [|done]. destruct Hv as [V1 V2 V3 V4 V5 V6 V7].
    unfold rfsck_replay. rewrite V1. cbv zeta.
    rewrite (pread_full _ _ ri rf) by (done || lia). rewrite Hsl.
    rewrite read_into_full, parse_bytes_of_header by
      (apply Hok || (rewrite junk_length; pose proof (zlen_wf_header _ (proj1 Hok)) as Hz;
                     unfold zlen, HEADER_SIZE in Hz; lia)).
    rewrite Hcrc. by eexists.
  - destruct (replay_unfinished flush s d ri di rf df Hv) as (s' & HR & Hos); [by exists h|].
    by exists s'.
Qed.

(** The layouts of the log are lossless: a well-formed header, key block or tag is read
    back as it was written. *)
Theorem layout_roundtrip h b t :
  wf_header h -> wf_block b -> wf_tag t ->
  parse_header (bytes_of_header h) = h /\ parse_block (bytes_of_block b) = b /\
  parse_tag (bytes_of_tag t) = t.
Proof.
  intros. split_and!; [by apply parse_bytes_of_header|by apply parse_bytes_of_block|by apply parse_bytes_of_tag].
Qed.

End theorems.

(** * Witnesses: the theorems at the demo log *)

#[local] Existing Instance ext2fs_checksum.

Lemma main_repairs_witness :
  exists s' df',
    main_check true no_mmp (run_writes [(0, [1; 2])]) (run_writes [])
               ((fun ws => writing_pass ws 0) <$> [[(1, [3]); (20, [4])]]) 0 demo_st = Some (false, s') /\
    os_files (st_os s') !! 0 = Some df' /\
    f_synced df' = apply_txns (f_cur demo_dev) demo_txns /\ f_pending df' = [].
Proof.
  exact (main_repairs [(0, [1; 2])] [] [[(1, [3]); (20, [4])]] 0 _ _ _ _ _ _ zero_lucky demo_fresh demo_session_ok eq_refl).
Defined.

Lemma demo_durable : hdr_durable (hdr demo_rd) demo_log.
Proof.
  pose proof (fr_disk _ _ _ _ _ _ demo_fresh) as Hd. pose proof (fr_hdr _ _ _ _ _ _ demo_fresh) as Hh.
  split_and!; [exact Hd| |apply Forall_nil_2].
  rewrite (zlen_wf_header _ (proj1 Hh) : zlen (f_synced demo_log) = HEADER_SIZE). lia.
Qed.

Lemma session_crash_atomic_witness :
  exists s',
    andthen (run_txns demo_txns) (redo_mark_done true) demo_st = Some (0, s') /\
    forall m keeps s1 d1, m ∈ disk_states demo_st s' -> rebooted keeps m 1 0 s1 d1 ->
      all_or_nothing demo_txns 0 demo_dev s1.
Proof.
  exact (session_crash_atomic demo_txns _ _ _ _ _ _ zero_lucky demo_fresh demo_durable eq_refl demo_session_ok).
Defined.

(** The log of the demo session, sealed. *)
Lemma demo_sealed :
  exists s' d' rf',
    view s' d' 1 0 rf' demo_dev /\ sealed_log (txns_entries 1 demo_txns) (hdr d') (f_cur rf') /\
    Forall wf_entry (txns_entries 1 demo_txns).
Proof.
  destruct (session_sealed _ _ _ _ _ _ _ zero_lucky demo_fresh demo_session_ok)
    as (s' & d' & rf' & _ & Hv & Hs & _ & Hwf). by exists s', d', rf'.
Qed.

Lemma demo_scan : scan_ok (fun _ => True) 0 None (txns_entries 1 demo_txns).
Proof. cbn. split_and!; try done; try (by eexists); first [by left|by right]. Qed.

Lemma replay_applies_committed_witness :
  exists s s' d' rf' df',
    rfsck_replay true true s = Some (0, s') /\ view s' d' 1 0 rf' df' /\
    f_cur df' = committed_dev (f_cur demo_dev) [] (txns_entries 1 demo_txns) /\ f_pending df' = [].
Proof.
  destruct demo_sealed as (s & d & rf & Hv & Hs & Hwf). exists s.
  exact (replay_applies_committed true _ _ _ _ _ _ _ _ (lucky_slack zero_lucky) Hwf ltac:(done) Hv Hs demo_scan).
Defined.

(** A system with the device open and no log yet. *)
Definition bare_st : st :=
  mkSt (mkOs ∅ (<[0 := demo_dev]> ∅) (<[3 := 0]> ∅) [] [] ∅) None.

Lemma open_creates_log_witness :
  exists s' d ri rf,
    rfsck_open true (Some mem0) (Some "redo") 3 bare_st = Some (0, s') /\
    fresh_log s' d ri 0 rf demo_dev /\ os_names (st_os s') !! "redo" = Some ri.
Proof.
  apply (open_creates_log "redo" mem0 3 0 demo_dev bare_st); try done.
  split; [done|]. by apply Forall_replicate; unfold in_u.
Defined.

Lemma txn_end_durable_witness :
  exists s' d' rf',
    rfsck_txn_end demo_st = Some (0, s') /\ view s' d' 1 0 rf' demo_dev /\
    log_inv ([] ++ [EEnd 1 (Z.lxor 0 (tag_csum (mkTag 0 0 1)))]) d' (f_cur rf') /\
    hdr d' = hdr demo_rd /\ txn_id d' = 2 /\ f_pending rf' = [].
Proof.
  apply (txn_end_durable [] demo_st demo_rd 1 0 demo_log demo_dev);
    [apply demo_fresh|apply demo_fresh|done|by unfold in_u|done].
Defined.

Lemma write_appends_witness :
  exists s' d' rf',
    rfsck_write 40 2 [8; 9] demo_st = Some (0, s') /\ view s' d' 1 0 rf' demo_dev /\
    log_inv ([] ++ [EWrite 40 [8; 9]]) d' (f_cur rf') /\ hdr d' = hdr demo_rd /\
    txn_id d' = 1 /\ txn_csum d' = csum_step 0 (40, [8; 9]).
Proof.
  apply (write_appends [] demo_st demo_rd 1 0 demo_log demo_dev 40 [8; 9]);
    [apply demo_fresh|apply demo_fresh| |done].
  apply (wf_write_entry (40, [8; 9])). by apply demo_wr.
Defined.

Definition faulty_st (x : io_outcome) : st :=
  mkSt (mkOs (os_names demo_os) (os_files demo_os) (os_fds demo_os) [x] [] ∅) (Some demo_rd).

Lemma write_io_error_witness :
  exists s' d',
    rfsck_write 40 2 [8; 9] (faulty_st (IoShort 1)) = Some (1, s') /\ st_rd s' = Some d' /\
    log_offset d' = log_offset demo_rd /\ keys_in_block d' = 0 /\
    num_keys d' = 0 /\ redo_block_offset d' = HEADER_SIZE.
Proof.
  apply (write_io_error (faulty_st (IoShort 1)) demo_rd (IoShort 1) 40 [8; 9]); [done|done|by exists []|].
  right. exists 1%nat. split; [done|]. cbn. lia.
Defined.

Lemma replay_rejects_header_witness :
  exists s', rfsck_replay true true demo_st = Some (1, s') /\ st_os s' = demo_os.
Proof.
  apply (replay_rejects_header true demo_st demo_rd 1 0 demo_log demo_dev (hdr demo_rd));
    [apply demo_fresh..|]. by right.
Defined.

Lemma layout_roundtrip_witness :
  let b := mkBlk 1 2 0 (replicate 255 tag0) in
  let t := mkTag 512 4 77 in
  parse_header (bytes_of_header (hdr demo_rd)) = hdr demo_rd /\
  parse_block (bytes_of_block b) = b /\ parse_tag (bytes_of_tag t) = t.
Proof.
  apply (layout_roundtrip (hdr demo_rd) (mkBlk 1 2 0 (replicate 255 tag0)) (mkTag 512 4 77)).
  - apply (proj1 (fr_hdr _ _ _ _ _ _ demo_fresh)).
  - split_and!; cbn; [mlia|mlia|mlia|done|]. apply Forall_replicate. split_and!; cbn; mlia.
  - split_and!; cbn; mlia.
Defined.
