(* ===== verification/RedoLimits.v ===== *)
(** Where the redo log does not keep its promise: runs of the code, evaluated on
    concrete logs, whose outcome is not the one the design calls for. *)
From Stdlib Require Import ZArith Lia.
From stdpp Require Import base tactics numbers list gmap strings.
From S2P Require Import Prelude Crc32c Os RedoLog RedoLayout RedoWriter RedoOps RedoReplay RedoSession.
From S2P Require Import RedoCrash E2fsck RedoTheorems.

#[local] Existing Instance ext2fs_checksum.
#[local] Existing Instance zero_heap.

(** The result of a run and the first bytes of the device after it. *)
Definition run_dev {A} (m : M A) (s : st) : option (A * list Z) :=
  match m s with
  | Some (x, s') => (fun f => (x, take 16 (f_cur f))) <$> os_files (st_os s') !! 0
  | None => None
  end.

(** * A log image: header, key blocks and data of the entries at their offsets *)

Definition image_blocks (es : list entry) (c : list Z) : list Z :=
  foldl (fun c k => zsplice (blkoff es k) (bytes_of_block (mkBlk 0 0 0 (block_tags es k))) c)
        c (seq 0 (S (length es / 255))).

Definition image_data (es : list entry) (c : list Z) : list Z :=
  foldl (fun c q => match es !! q with
                    | Some e => zsplice (dataoff es q) (data_of e) c
                    | None => c end) c (seq 0 (length es)).

Definition image_header (es : list entry) : redo_header :=
  mark_header true (Z.of_nat (length es / 255)) (setup_header (replicate 468 0)).

Definition image (es : list entry) : list Z :=
  image_data es (image_blocks es (bytes_of_header (image_header es))).

(** The demo system with this log, and the given outcomes of the next calls. *)
Definition image_st (es : list entry) (plan : list io_outcome) : st :=
  mkSt (mkOs (<["redo" := 1]> ∅) (<[0 := demo_dev]> (<[1 := mkFile (image es) []]> ∅))
             (<[3 := 0]> (<[4 := 1]> ∅)) plan [] ∅) (Some demo_rd).

(** A boolean check that the image holds the entries. *)
Definition data_ok (es : list entry) (c : list Z) : bool :=
  forallb (fun q => match es !! q with
                    | Some e => bool_decide (zslice (dataoff es q) (zlen (data_of e)) c = data_of e)
                    | None => true end) (seq 0 (length es)).

Definition blocks_ok (es : list entry) (c : list Z) : bool :=
  forallb (fun k => bool_decide (zslice (blkoff es k) REDO_LOG_BLOCK_SIZE c
                                 = bytes_of_block (mkBlk 0 0 0 (block_tags es k))))
          (seq 0 (S (length es / 255))).

Definition header_ok (es : list entry) (c : list Z) : bool :=
  bool_decide (zslice 0 HEADER_SIZE c = bytes_of_header (image_header es)).

Lemma image_sealed es :
  Z.of_nat (length es / 255) < 2 ^ 32 ->
  header_ok es (image es) && data_ok es (image es) && blocks_ok es (image es) = true ->
  sealed_log es (image_header es) (image es).
Proof.
  intros Hn Hb. apply andb_true_iff in Hb as [Hb Hbl]. apply andb_true_iff in Hb as [Hh Hd].
  split; [by apply bool_decide_eq_true in Hh| |apply mark_header_crc|done|done| |].
  - apply hdr_ok_mark; [|unfold in_u; lia].
    apply setup_header_ok; [done|]. by apply Forall_replicate; unfold in_u.
  - intros q e He. unfold data_ok in Hd. rewrite forallb_forall in Hd.
    specialize (Hd q). rewrite He in Hd. refine (proj1 (bool_decide_eq_true _) (Hd _)). apply in_seq.
    apply lookup_lt_Some in He. lia.
  - intros k Hk. exists 0, 0. split_and!; [by unfold in_u..|].
    unfold blocks_ok in Hbl. rewrite forallb_forall in Hbl.
    refine (proj1 (bool_decide_eq_true _) (Hbl k _)). apply in_seq. lia.
Qed.

(** * Transactions at a key-block boundary *)

(** 253 records fill the first key block up to its last slot; the second
    transaction begins in slot 0 of the next one. *)
Definition boundary_txns : list (list wr) := [replicate 253 (0, [1]); [(5, [9])]].

(** A transaction that begins in slot 0 of a key block is replayed with the wrong
    data: the log holds the two transactions, replay reports success, and the byte that
    the second one logged for offset 5 is not what the device gets. *)
Theorem boundary_txn_corrupted :
  sealed_log (txns_entries 1 boundary_txns) (image_header (txns_entries 1 boundary_txns))
             (image (txns_entries 1 boundary_txns)) /\
  take 16 (apply_txns (f_cur demo_dev) boundary_txns) = [1; 7; 7; 7; 7; 9; 7; 7; 7; 7; 7; 7; 7; 7; 7; 7] /\
  run_dev (rfsck_replay true true) (image_st (txns_entries 1 boundary_txns) [])
  = Some (0, [1; 7; 7; 7; 7; 0; 7; 7; 7; 7; 7; 7; 7; 7; 7; 7]).
Proof.
  split_and!; [|by vm_compute..]. apply image_sealed; [done|]. by vm_compute.
Qed.

(** * A replay that is interrupted and started again *)

Definition two_txns : list (list wr) := [[(0, [1])]; [(1, [2])]].

(** The first replay stops when the read of the second transaction's data fails. *)
Definition replay_twice : M Z := _ ← rfsck_replay true true; rfsck_replay true true.
Definition stop_after_first : list io_outcome := replicate 5 IoFull ++ [IoFail].

(** Replay is not idempotent after an interruption: when the first attempt stops after
    the first transaction, the second attempt skips that transaction without skipping its
    data, and writes the first transaction's bytes where the second's belong. *)
Theorem interrupted_replay_corrupts :
  sealed_log (txns_entries 1 two_txns) (image_header (txns_entries 1 two_txns))
             (image (txns_entries 1 two_txns)) /\
  run_dev (rfsck_replay true true) (image_st (txns_entries 1 two_txns) stop_after_first)
  = Some (-1, [1; 7; 7; 7; 7; 7; 7; 7; 7; 7; 7; 7; 7; 7; 7; 7]) /\
  take 16 (apply_txns (f_cur demo_dev) two_txns) = [1; 2; 7; 7; 7; 7; 7; 7; 7; 7; 7; 7; 7; 7; 7; 7] /\
  run_dev replay_twice (image_st (txns_entries 1 two_txns) stop_after_first)
  = Some (0, [1; 1; 7; 7; 7; 7; 7; 7; 7; 7; 7; 7; 7; 7; 7; 7]).
Proof.
  split_and!; [|by vm_compute..]. apply image_sealed; [done|]. by vm_compute.
Qed.

(** * Restart of the checker *)

(** A run whose first pass asks for a restart, then the run after it, which asks
    for nothing; the log is opened again in between, as [unix_open] does. *)
Definition restarting_run : M bool :=
  main_check true no_mmp (run_writes [(0, [1])]) (run_writes [(2, [3])])
    [writing_pass [(1, [2])] E2F_FLAG_RESTART; writing_pass [(5, [9])] 0] 0.

Definition restarted_run : M bool :=
  _ ← restarting_run;
  _ ← rfsck_open true None (Some "redo") 3;
  main_check true no_mmp (run_writes [(8, [11])]) (run_writes [(9, [12])])
    [writing_pass [(10, [13])] 0] 0.

(** When a pass asks for a restart, the loop of [e2fsck_run] has already begun the next
    transaction: [main] begins another one inside it, replay takes the second begin record
    for an end record, and what [main] writes before it restarts (offset 2) never reaches
    the device. *)
Theorem restart_loses_writes :
  run_dev restarting_run demo_st = Some (true, [1; 2; 7; 7; 7; 7; 7; 7; 7; 7; 7; 7; 7; 7; 7; 7]).
Proof. by vm_compute. Qed.

(** After a replay the transaction counter is 0, the begin record of the next
    transaction is then indistinguishable from an empty slot, and everything the restarted
    run repairs (offsets 8, 9 and 10) is lost although every call returns success. *)
Theorem restarted_run_lost :
  run_dev restarted_run demo_st = Some (false, [1; 2; 7; 7; 7; 7; 7; 7; 7; 7; 7; 7; 7; 7; 7; 7]).
Proof. by vm_compute. Qed.

(** * The state check that the XFS copy leaves out *)

(** A session that was never sealed: its header still says "not finished". *)
Definition unsealed_session : M Z := run_txns two_txns.

(** With the test on the header's state commented out, as in [rfsck-xfs/libxfs/redo.c],
    a log that was never marked finished is replayed, where [rfsck-lib] refuses it. *)
Theorem xfs_replays_unfinished_log :
  run_dev (_ ← unsealed_session; rfsck_replay true true) demo_st
  = Some (1, replicate 16 7) /\
  run_dev (_ ← unsealed_session; rfsck_replay false true) demo_st
  = Some (0, [1; 2; 7; 7; 7; 7; 7; 7; 7; 7; 7; 7; 7; 7; 7; 7]).
Proof. split; by vm_compute. Qed.

(** * Checks that are missing *)

Section general.
Context `{Checksum} `{Heap}.

(** Replace the checksum in the end records. *)
Definition set_csum (cs : Z) (e : entry) : entry :=
  match e with EEnd id _ => EEnd id cs | _ => e end.

Lemma committed_set_csum cs es : forall dev cur,
  committed_dev dev cur (set_csum cs <$> es) = committed_dev dev cur es.
Proof. induction es as [|[id|off d|id c] es IH]; intros dev cur; cbn; auto. Qed.

Lemma scan_set_csum cs fin es : forall q open,
  scan_ok fin q open es -> scan_ok fin q open (set_csum cs <$> es).
Proof. induction es as [|[id|off d|id c] es IH]; intros q open; cbn; [done|..]; intuition auto. Qed.

(** The transaction checksum decides nothing: whatever value the end records hold, replay
    returns 0 and applies the transactions. *)
Theorem replay_ignores_txn_checksum cs cst es h s d ri di rf df :
  (0 < slack)%nat -> in_u 32 cs -> Forall wf_entry (set_csum cs <$> es) -> fits (set_csum cs <$> es) ->
  view s d ri di rf df -> sealed_log (set_csum cs <$> es) h (f_cur rf) ->
  scan_ok (fun _ => True) 0 None es ->
  exists s' d' rf' df',
    rfsck_replay cst true s = Some (0, s') /\ view s' d' ri di rf' df' /\
    f_cur df' = committed_dev (f_cur df) [] es.
Proof.
  intros Hsl Hcs Hwf Hf Hv Hs Hsc.
  destruct (replay_spec _ Hwf Hf (fun _ => True) cst s d ri di rf df h Hsl Hv Hs)
    as (s' & d' & rf' & df' & HR & Hv' & Hc & _); [by apply scan_set_csum|].
  exists s', d', rf', df'. by rewrite <- (committed_set_csum cs).
Qed.

(** Every replay of a finished log that was not replayed before stores one element past the
    end of the heap array [replay_blocks] (the array has [num_keys] elements, the loop runs to
    [num_keys] inclusive): without unused memory after it the replay is undefined. *)
Theorem replay_overruns_heap cst fl es h s d ri di rf df :
  slack = 0%nat -> Forall wf_entry es -> fits es -> view s d ri di rf df ->
  sealed_log es h (f_cur rf) -> scan_ok (fun _ => True) 0 None es ->
  rfsck_replay cst fl s = None.
Proof.
  intros Hsl Hwf Hf Hv Hs Hsc.
  exact (replay_undef es Hwf Hf (fun _ => True) cst fl s d ri di rf df h Hsl Hv Hs Hsc).
Qed.

(** [rfsck_txn_begin] tests a variable it never assigned: when that holds anything but 0,
    the function returns that value and no begin record is counted; the files are not
    touched. *)
Theorem txn_begin_uninitialised s d ri di rf df :
  (forall s', indet s' = indet s) -> indet s <> 0 -> view s d ri di rf df ->
  0 <= keys_in_block d < 255 ->
  exists s' d', rfsck_txn_begin s = Some (indet s, s') /\ st_os s' = st_os s /\
    st_rd s' = Some d' /\ keys_in_block d' = keys_in_block d /\ num_keys d' = num_keys d.
Proof.
  intros Hc Hne Hv Hk. pose proof (v_rd _ _ _ _ _ _ Hv) as Hrd.
  unfold rfsck_txn_begin, store_tag, modify_rd, put_rd, uninitialised, mbind, M_bind, get_rd.
  rewrite Hrd. cbn. rewrite Hrd. cbn. rewrite decide_True by lia. cbn. rewrite Hc, decide_True by done.
  by eexists _, _.
Qed.

End general.

(** ** Witnesses *)

Lemma two_txns_image :
  Forall wf_entry (txns_entries 1 two_txns) /\ fits (txns_entries 1 two_txns) /\
  scan_ok (fun _ => True) 0 None (txns_entries 1 two_txns) /\
  view (image_st (txns_entries 1 two_txns) []) demo_rd 1 0
       (mkFile (image (txns_entries 1 two_txns)) []) demo_dev /\
  sealed_log (txns_entries 1 two_txns) (image_header (txns_entries 1 two_txns))
             (image (txns_entries 1 two_txns)).
Proof.
  assert (Hw : Forall (Forall wf_wr) two_txns).
  { repeat first [apply Forall_nil_2 | apply Forall_cons_2 | apply demo_wr; done]. }
  split_and!.
  - destruct (session_sealed two_txns _ _ _ _ _ _ zero_lucky demo_fresh) as (? & ? & ? & _ & _ & _ & _ & Hwf); [|done].
    by split.
  - done.
  - cbn. split_and!; try done; try (by eexists); first [by left|by right].
  - by split.
  - apply image_sealed; [done|]. by vm_compute.
Qed.

Lemma replay_ignores_txn_checksum_witness :
  exists s' d' rf' df',
    rfsck_replay true true (image_st (set_csum 5 <$> txns_entries 1 two_txns) []) = Some (0, s') /\
    view s' d' 1 0 rf' df' /\
    f_cur df' = committed_dev (f_cur demo_dev) [] (txns_entries 1 two_txns).
Proof.
  apply (replay_ignores_txn_checksum 5 true (txns_entries 1 two_txns)
           (image_header (set_csum 5 <$> txns_entries 1 two_txns)) _ demo_rd 1 0
           (mkFile (image (set_csum 5 <$> txns_entries 1 two_txns)) []) demo_dev).
  - cbn. lia.
  - by unfold in_u.
  - destruct two_txns_image as (Hwf & _). apply Forall_fmap.
    eapply Forall_impl; [exact Hwf|]. intros [id|off d|id c]; cbn; [done|done|].
    intros [? _]. split; [done|by unfold in_u].
  - done.
  - by split.
  - apply image_sealed; [done|]. by vm_compute.
  - apply two_txns_image.
Defined.

(** A heap in which the memory after the array belongs to something else. *)
Definition tight_heap : Heap := {|
  junk := fun _ n => replicate n 0;
  junk_length := fun _ n => length_replicate n 0;
  indet := fun _ => 0;
  slack := 0
|}.

Lemma replay_overruns_heap_witness :
  @rfsck_replay _ tight_heap true true (image_st (txns_entries 1 two_txns) []) = None.
Proof.
  destruct two_txns_image as (H1 & H2 & H3 & H4 & H5).
  exact (@replay_overruns_heap _ tight_heap true true _ _ _ _ _ _ _ _ eq_refl H1 H2 H4 H5 H3).
Defined.

(** A stack on which the uninitialised variable is 1. *)
Definition dirty_stack : Heap := {|
  junk := fun _ n => replicate n 0;
  junk_length := fun _ n => length_replicate n 0;
  indet := fun _ => 1;
  slack := 1
|}.

(** A whole run of the checker on such a stack: no transaction gets a begin record, so replay
    takes the first end record for a begin record and the second for its end.  The run
    reports success; what [main] wrote before and after the passes is lost, and the writes of
    the pass (3 at offset 1, 4 at offset 11) reach the device with the bytes that [main]
    logged first. *)
Theorem dirty_stack_run :
  run_dev (@main_check _ dirty_stack true no_mmp (run_writes [(0, [1; 2])]) (run_writes [(9, [5])])
             ((fun ws => writing_pass ws 0) <$> [[(1, [3]); (11, [4])]]) 0) demo_st
  = Some (false, [7; 1; 7; 7; 7; 7; 7; 7; 7; 7; 7; 2; 7; 7; 7; 7]).
Proof. by vm_compute. Qed.

Definition faulty_flush : st :=
  mkSt (mkOs (os_names demo_os) (os_files demo_os) (os_fds demo_os) [IoFull; IoFull; IoFail] [] ∅)
       (Some demo_rd).

(** [rfsck_txn_end] ignores the result of [rfsck_flush]: when the [fsync] fails it returns 0
    with the end record not forced to disk. *)
Theorem txn_end_flush_ignored :
  exists s' rf', rfsck_txn_end (faulty_flush) = Some (0, s') /\
    os_files (st_os s') !! 1 = Some rf' /\ f_pending rf' <> [].
Proof. eexists _, _. split_and!; [by vm_compute|by vm_compute|done]. Qed.
