(* ===== verification/ExtErr.v ===== *)
(** Error codes of the ext2 library (lib/ext2fs/ext2_err.et.in) and of the system
    that the models return. *)
From Stdlib Require Import ZArith.
#[local] Open Scope Z_scope.

(** The base that the error table compiler derives from the table name [ext2]. *)
Definition EXT2_ET_BASE : Z := 2133571328.

Definition EXT2_ET_SHORT_READ : Z := EXT2_ET_BASE + 36.
Definition EXT2_ET_SHORT_WRITE : Z := EXT2_ET_BASE + 37.
Definition EXT2_ET_BAD_INODE_NUM : Z := EXT2_ET_BASE + 41.
Definition EXT2_ET_BAD_BLOCK_NUM : Z := EXT2_ET_BASE + 42.
Definition EXT2_ET_UNSUPP_FEATURE : Z := EXT2_ET_BASE + 67.
Definition EXT2_ET_RO_UNSUPP_FEATURE : Z := EXT2_ET_BASE + 68.
Definition EXT2_ET_LLSEEK_FAILED : Z := EXT2_ET_BASE + 69.
Definition EXT2_ET_NO_MEMORY : Z := EXT2_ET_BASE + 70.
Definition EXT2_ET_INVALID_ARGUMENT : Z := EXT2_ET_BASE + 71.
Definition EXT2_ET_FILE_RO : Z := EXT2_ET_BASE + 77.
Definition EXT2_ET_UNIMPLEMENTED : Z := EXT2_ET_BASE + 80.
Definition EXT2_ET_JOURNAL_TOO_SMALL : Z := EXT2_ET_BASE + 85.
Definition EXT2_ET_JOURNAL_UNSUPP_VERSION : Z := EXT2_ET_BASE + 86.
Definition EXT2_ET_LOAD_EXT_JOURNAL : Z := EXT2_ET_BASE + 87.
Definition EXT2_ET_NO_JOURNAL : Z := EXT2_ET_BASE + 88.
Definition EXT2_ET_FILESYSTEM_CORRUPTED : Z := EXT2_ET_BASE + 174.
Definition EXT2_ET_BAD_CRC : Z := EXT2_ET_BASE + 175.
Definition EXT2_ET_CORRUPT_JOURNAL_SB : Z := EXT2_ET_BASE + 176.

(** The [errno] of a failed transfer. *)
Definition EIO : Z := 5.
Definition ENOENT : Z := 2.
Definition ENOMEM : Z := 12.
Definition EINVAL : Z := 22.
Definition EOVERFLOW : Z := 75.

(** Structure magic numbers. *)
Definition EXT2_ET_MAGIC_BLOCK_BITMAP : Z := EXT2_ET_BASE + 8.
Definition EXT2_ET_MAGIC_INODE_BITMAP : Z := EXT2_ET_BASE + 9.
Definition EXT2_ET_MAGIC_GENERIC_BITMAP : Z := EXT2_ET_BASE + 10.
Definition EXT2_ET_FILE_TOO_BIG : Z := EXT2_ET_BASE + 82.
Definition EXT2_ET_MAGIC_GENERIC_BITMAP64 : Z := EXT2_ET_BASE + 109.
Definition EXT2_ET_MAGIC_BLOCK_BITMAP64 : Z := EXT2_ET_BASE + 110.
Definition EXT2_ET_MAGIC_INODE_BITMAP64 : Z := EXT2_ET_BASE + 111.
Definition EXT2_ET_MAGIC_BADBLOCKS_LIST : Z := EXT2_ET_BASE + 2.
Definition EXT2_ET_MAGIC_BADBLOCKS_ITERATE : Z := EXT2_ET_BASE + 3.
Definition EXT2_ET_MAGIC_ICOUNT : Z := EXT2_ET_BASE + 13.
Definition EXT2_ET_TDB_SUCCESS : Z := EXT2_ET_BASE + 96.
Definition EXT2_ET_DIRHASH_UNSUPP : Z := EXT2_ET_BASE + 89.
Definition EXT2_ET_RO_FILSYS : Z := EXT2_ET_BASE + 21.
Definition EXT2_ET_EXTENT_HEADER_BAD : Z := EXT2_ET_BASE + 119.
Definition EXT2_ET_INODE_NOT_EXTENT : Z := EXT2_ET_BASE + 123.
Definition EXT2_ET_EXTENT_NO_NEXT : Z := EXT2_ET_BASE + 124.
Definition EXT2_ET_EXTENT_NO_PREV : Z := EXT2_ET_BASE + 125.
Definition EXT2_ET_EXTENT_NO_UP : Z := EXT2_ET_BASE + 126.
Definition EXT2_ET_EXTENT_NO_DOWN : Z := EXT2_ET_BASE + 127.
Definition EXT2_ET_NO_CURRENT_NODE : Z := EXT2_ET_BASE + 128.
Definition EXT2_ET_OP_NOT_SUPPORTED : Z := EXT2_ET_BASE + 129.
Definition EXT2_ET_CANT_INSERT_EXTENT : Z := EXT2_ET_BASE + 130.
Definition EXT2_ET_CANT_SPLIT_EXTENT : Z := EXT2_ET_BASE + 131.
Definition EXT2_ET_EXTENT_NOT_FOUND : Z := EXT2_ET_BASE + 132.
Definition EXT2_ET_EXTENT_INVALID_LENGTH : Z := EXT2_ET_BASE + 134.
Definition EXT2_ET_EXTENT_CSUM_INVALID : Z := EXT2_ET_BASE + 148.
