(* ===== verification/UnixIo.v ===== *)
(** The block cache of the I/O manager: [rfsck-ext/lib/ext2fs/unix_io.c].

    The channel and its private data are the record [uio]; a cache slot has the
    fields of [struct unix_cache], its buffer included.  The functions run in the
    monad of the redo log, because with [is_redo_enabled] the raw writes go there. *)
From Stdlib Require Import ZArith Lia.
From stdpp Require Import base tactics numbers list gmap strings.
From S2P Require Import Prelude Crc32c Os RedoLog RedoLayout RedoWriter ExtErr.

Definition CACHE_SIZE : nat := 8.
Definition WRITE_DIRECT_SIZE : Z := 4.
Definition READ_DIRECT_SIZE : Z := 4.

Record unix_cache := mkCache {
  c_buf : list Z;
  c_block : Z;
  c_access_time : Z;
  c_dirty : bool;
  c_in_use : bool
}.

Record uio := mkUio {
  u_block_size : Z;           (* channel->block_size *)
  u_align : Z;                (* channel->align *)
  u_writethrough : bool;      (* channel->flags & CHANNEL_FLAGS_WRITETHROUGH *)
  u_dev : Z;                  (* data->dev *)
  u_force_bounce : bool;      (* data->flags & IO_FLAG_FORCE_BOUNCE *)
  u_access_time : Z;
  u_offset : Z;
  u_cache : list unix_cache;
  u_bytes_read : Z;           (* data->io_stats *)
  u_bytes_written : Z
}.

Definition cache0 : unix_cache := mkCache [] 0 0 false false.
#[global] Instance cache_inhabited : Inhabited unix_cache := populate cache0.

Definition set_cache (cs : list unix_cache) (u : uio) : uio :=
  mkUio (u_block_size u) (u_align u) (u_writethrough u) (u_dev u) (u_force_bounce u)
        (u_access_time u) (u_offset u) cs (u_bytes_read u) (u_bytes_written u).
Definition set_atime (t : Z) (u : uio) : uio :=
  mkUio (u_block_size u) (u_align u) (u_writethrough u) (u_dev u) (u_force_bounce u)
        t (u_offset u) (u_cache u) (u_bytes_read u) (u_bytes_written u).
Definition set_stats (r w : Z) (u : uio) : uio :=
  mkUio (u_block_size u) (u_align u) (u_writethrough u) (u_dev u) (u_force_bounce u)
        (u_access_time u) (u_offset u) (u_cache u) r w.
Definition set_blksize (bs : Z) (u : uio) : uio :=
  mkUio bs (u_align u) (u_writethrough u) (u_dev u) (u_force_bounce u)
        (u_access_time u) (u_offset u) (u_cache u) (u_bytes_read u) (u_bytes_written u).
Definition set_offset (off : Z) (u : uio) : uio :=
  mkUio (u_block_size u) (u_align u) (u_writethrough u) (u_dev u) (u_force_bounce u)
        (u_access_time u) off (u_cache u) (u_bytes_read u) (u_bytes_written u).

(** Changes of one slot. *)
Definition c_touch (t : Z) (c : unix_cache) : unix_cache :=
  mkCache (c_buf c) (c_block c) t (c_dirty c) (c_in_use c).
Definition c_fill (b : list Z) (c : unix_cache) : unix_cache :=
  mkCache b (c_block c) (c_access_time c) (c_dirty c) (c_in_use c).
Definition c_set_dirty (d : bool) (c : unix_cache) : unix_cache :=
  mkCache (c_buf c) (c_block c) (c_access_time c) d (c_in_use c).
Definition c_set_in_use (b : bool) (c : unix_cache) : unix_cache :=
  mkCache (c_buf c) (c_block c) (c_access_time c) (c_dirty c) b.

Definition slot (u : uio) (i : nat) : unix_cache := u_cache u !!! i.
Definition upd_slot (i : nat) (f : unix_cache -> unix_cache) (u : uio) : uio :=
  set_cache (<[i := f (slot u i)]> (u_cache u)) u.

(** [IS_ALIGNED(size, align)]; the alignment of a buffer address is an argument. *)
Definition IS_ALIGNED (n align : Z) : bool := bool_decide (Z.land n (align - 1) = 0).

Section unix_io.
Context `{Checksum}.
Variable is_redo_enabled : bool.
(** [channel->read_error] and [channel->write_error], when they are set: block,
    count, buffer, size, bytes transferred, error; the result and the buffer. *)
Variable read_error : option (Z -> Z -> list Z -> Z -> Z -> Z -> M (Z * list Z)).
Variable write_error : option (Z -> Z -> list Z -> Z -> Z -> Z -> M Z).

Definition location (u : uio) (block : Z) : Z := s64 (block * u_block_size u + u_offset u).
Definition xfer_size (u : uio) (count : Z) : Z :=
  if decide (count < 0) then - count else s32 (count * u_block_size u).

(** The buffer after [n] bytes [d] were transferred into it. *)
Definition fill (buf d : list Z) : list Z := d ++ drop (length d) buf.

(** [memset(buf + actual, 0, size - actual)] *)
Definition zero_tail (buf : list Z) (actual size : Z) : list Z :=
  splice (Z.to_nat actual) (replicate (Z.to_nat (size - actual)) 0) buf.

(** The label [error_out] of [raw_read_blk]. *)
Definition read_error_out (block count : Z) (buf : list Z) (size actual retval : Z) : M (Z * list Z) :=
  let buf := if decide (0 <= actual < size) then zero_tail buf actual size else buf in
  match read_error with
  | Some h => h block count buf size actual retval
  | None => mret (retval, buf)
  end.

(** The loop at [bounce_read]: [done] is what has been copied to the buffer. *)
Fixpoint bounce_read (fuel : nat) (u : uio) (block count : Z) (buf : list Z) (size really_read : Z)
  : M (Z * list Z) :=
  match fuel with
  | O => mret (0, buf)
  | S fuel' =>
      if decide (0 < size) then
        r ← sys (sys_read (u_dev u) (u_block_size u));
        let actual := match r with Some d => zlen d | None => -1 end in
        if decide (actual <> u_block_size u) then
          (* actual = really_read; buf and size go back to the start *)
          if decide (really_read < 0) then
            read_error_out block count buf (size + really_read) 0 EIO
          else read_error_out block count buf (size + really_read) really_read EXT2_ET_SHORT_READ
        else
          let actual := if decide (u_block_size u < size) then u_block_size u else size in
          let buf := splice (Z.to_nat really_read) (take (Z.to_nat actual) (default [] r)) buf in
          bounce_read fuel' u block count buf (size - actual) (really_read + actual)
      else mret (0, buf)
  end.

(** [raw_read_blk]; [buf] is the contents of the buffer before, [buf_al] whether its
    address is aligned.  Returns the error code, the buffer and the channel. *)
Definition raw_read_blk (u : uio) (block count : Z) (buf : list Z) (buf_al : bool)
  : M (Z * list Z * uio) :=
  let size := xfer_size u count in
  let u := set_stats (u64 (u_bytes_read u + size)) (u_bytes_written u) u in
  let location := location u block in
  let aligned := bool_decide (u_align u = 0) || (buf_al && IS_ALIGNED size (u_align u)) in
  let ret (m : M (Z * list Z)) := r ← m; mret (r.1, r.2, u) in
  if u_force_bounce u then
    l ← sys (lseek (u_dev u) location);
    if decide (l <> location) then ret (read_error_out block count buf size 0 EIO)
    else ret (bounce_read (Z.to_nat size + 1) u block count buf size 0)
  else
    r ← (if aligned then sys (pread (u_dev u) size location) else mret None);
    let got := match r with Some d => d | None => [] end in
    if decide (aligned = true /\ zlen got = size) then mret (0, fill buf got, u)
    else
      let buf := fill buf got in
      l ← sys (lseek (u_dev u) location);
      if decide (l <> location) then ret (read_error_out block count buf size 0 EIO)
      else if aligned then
        r ← sys (sys_read (u_dev u) size);
        match r with
        | None => ret (read_error_out block count buf size 0 EIO)
        | Some d =>
            let buf := fill buf d in
            if decide (zlen d <> size)
            then ret (read_error_out block count buf size (zlen d) EXT2_ET_SHORT_READ)
            else mret (0, buf, u)
        end
      else ret (bounce_read (Z.to_nat size + 1) u block count buf size 0).

Definition write_error_out (block count : Z) (buf : list Z) (size actual retval : Z) : M Z :=
  match write_error with
  | Some h => h block count buf size actual retval
  | None => mret retval
  end.

(** The loop at [bounce_write]; [bounce] is the contents of [data->bounce]. *)
Fixpoint bounce_write (fuel : nat) (u : uio) (block count : Z) (buf bounce : list Z)
  (size location : Z) : M Z :=
  match fuel with
  | O => mret 0
  | S fuel' =>
      if decide (0 < size) then
        let bs := u_block_size u in
        r ← (if decide (size < bs) then
               r ← sys (sys_read (u_dev u) bs);
               mret (match r with
                     | None => None
                     | Some d => Some (zero_tail (fill bounce d) (zlen d) bs)
                     end)
             else mret (Some bounce));
        match r with
        | None => write_error_out block count buf size (-1) EIO
        | Some bounce =>
            let actual := if decide (bs < size) then bs else size in
            let bounce := splice 0 (take (Z.to_nat actual) buf) bounce in
            l ← sys (lseek (u_dev u) location);
            if decide (l <> location) then write_error_out block count buf size actual EIO
            else
              n ← sys (sys_write (u_dev u) (take (Z.to_nat bs) bounce));
              if decide (n < 0) then write_error_out block count buf size n EIO
              else if decide (n <> bs) then write_error_out block count buf size n EXT2_ET_SHORT_WRITE
              else bounce_write fuel' u block count (drop (Z.to_nat n) buf) bounce (size - n) (location + n)
        end
      else mret 0
  end.

(** [raw_write_blk] *)
Definition raw_write_blk (u : uio) (block count : Z) (buf : list Z) (buf_al : bool) (bounce : list Z)
  : M (Z * uio) :=
  let size := if decide (count = 1) then u_block_size u else xfer_size u count in
  let u := set_stats (u_bytes_read u) (u64 (u_bytes_written u + size)) u in
  let location := location u block in
  let aligned := bool_decide (u_align u = 0) || (buf_al && IS_ALIGNED size (u_align u)) in
  let ret (m : M Z) := r ← m; mret (r, u) in
  if u_force_bounce u then
    l ← sys (lseek (u_dev u) location);
    if decide (l <> location) then ret (write_error_out block count buf size 0 EIO)
    else ret (bounce_write (Z.to_nat size + 1) u block count buf bounce size location)
  else if aligned && is_redo_enabled then ret (rfsck_write (u64 location) (u32 size) buf)
  else
    n ← (if aligned then sys (pwrite (u_dev u) (take (Z.to_nat size) buf) location) else mret 0);
    if decide (aligned = true /\ n = size) then mret (0, u)
    else
      l ← sys (lseek (u_dev u) location);
      if decide (l <> location) then ret (write_error_out block count buf size n EIO)
      else if aligned then
        n ← sys (sys_write (u_dev u) (take (Z.to_nat size) buf));
        if decide (n < 0) then ret (write_error_out block count buf size n EIO)
        else if decide (n <> size) then ret (write_error_out block count buf size n EXT2_ET_SHORT_WRITE)
        else mret (0, u)
      else ret (bounce_write (Z.to_nat size + 1) u block count buf bounce size location).

(** [alloc_cache] / [free_cache]: every slot unused, with a fresh buffer. *)
Definition fresh_slot (bs : Z) : unix_cache := mkCache (replicate (Z.to_nat bs) 0) 0 0 false false.
Definition alloc_cache (u : uio) : uio :=
  set_atime 0 (set_cache (replicate CACHE_SIZE (fresh_slot (u_block_size u))) u).

(** [find_cached_block]: the scan, from slot [i]; [unused] is the first unused slot,
    [oldest] the least recently used one with its time.  The result is the slot
    found, or the one to reuse. *)
Fixpoint find_scan (i : nat) (cs : list unix_cache) (block : Z) (unused : option nat)
  (oldest : option (nat * Z)) : nat + option nat :=
  match cs with
  | [] => inr (match unused with Some i => Some i | None => fst <$> oldest end)
  | c :: cs' =>
      if negb (c_in_use c)
      then find_scan (S i) cs' block (match unused with None => Some i | _ => unused end) oldest
      else if decide (c_block c = block) then inl i
      else
        let older := match oldest with
                     | None => true
                     | Some (_, t) => bool_decide (c_access_time c < t)
                     end in
        find_scan (S i) cs' block unused (if older then Some (i, c_access_time c) else oldest)
  end.

Definition find_cached_block (u : uio) (block : Z) : (nat + option nat) * uio :=
  match find_scan 0 (u_cache u) block None None with
  | inl i =>
      let t := s32 (u_access_time u + 1) in
      (inl i, upd_slot i (c_touch t) (set_atime t u))
  | inr e => (inr e, u)
  end.

(** [reuse_cache]; the result of the write is dropped. *)
Definition reuse_cache (u : uio) (i : nat) (block : Z) : M uio :=
  let c := slot u i in
  u ← (if c_dirty c && c_in_use c then
         r ← raw_write_blk u (c_block c) 1 (c_buf c) true [];
         mret r.2
       else mret u);
  let t := s32 (u_access_time u + 1) in
  mret (upd_slot i (fun c => mkCache (c_buf c) block t false true) (set_atime t u)).

(** [flush_cached_blocks], from slot [i], [n] slots. *)
Fixpoint flush_loop (n : nat) (i : nat) (invalidate : bool) (retval2 : Z) (u : uio) : M (Z * uio) :=
  match n with
  | O => mret (retval2, u)
  | S n' =>
      let c := slot u i in
      if negb (c_in_use c) then flush_loop n' (S i) invalidate retval2 u
      else
        let u := if invalidate then upd_slot i (c_set_in_use false) u else u in
        if negb (c_dirty c) then flush_loop n' (S i) invalidate retval2 u
        else
          r ← raw_write_blk u (c_block c) 1 (c_buf c) true [];
          let '(retval, u) := r in
          if decide (retval <> 0) then flush_loop n' (S i) invalidate retval u
          else flush_loop n' (S i) invalidate retval2 (upd_slot i (c_set_dirty false) u)
  end.

Definition flush_cached_blocks (invalidate : bool) (u : uio) : M (Z * uio) :=
  flush_loop CACHE_SIZE 0 invalidate 0 u.

(** The [for] loop that looks for the end of the run of uncached blocks: [i] blocks
    so far, [reuse] the slots to reuse for them. *)
Fixpoint uncached_run (fuel : nat) (i : Z) (count block : Z) (reuse : list nat) (u : uio)
  : Z * list nat * uio :=
  match fuel with
  | O => (i, reuse, u)
  | S fuel' =>
      if decide (i < count) then
        match find_cached_block u (u64 (block + i)) with
        | (inl _, u) => (i, reuse, u)
        | (inr e, u) => uncached_run fuel' (i + 1) count block (reuse ++ [default 0%nat e]) u
        end
      else (i, reuse, u)
  end.

(** "Save the results in the cache" *)
Fixpoint save_blocks (reuse : list nat) (block : Z) (cp : list Z) (u : uio) : M uio :=
  match reuse with
  | [] => mret u
  | i :: reuse' =>
      u ← reuse_cache u i block;
      let bs := Z.to_nat (u_block_size u) in
      save_blocks reuse' (u64 (block + 1)) (drop bs cp) (upd_slot i (c_fill (take bs cp)) u)
  end.

(** The [while] loop of [unix_read_blk64]; the result holds the blocks read so far. *)
Fixpoint read_loop (fuel : nat) (block count : Z) (acc : list Z) (u : uio) : M (Z * list Z * uio) :=
  match fuel with
  | O => mret (0, acc, u)
  | S fuel' =>
      if decide (0 < count) then
        match find_cached_block u block with
        | (inl i, u) =>
            read_loop fuel' (u64 (block + 1)) (count - 1)
                      (acc ++ take (Z.to_nat (u_block_size u)) (c_buf (slot u i))) u
        | (inr e, u) =>
            let i0 := default 0%nat e in
            if decide (count = 1) then
              u ← reuse_cache u i0 block;
              r ← raw_read_blk u block 1 (c_buf (slot u i0)) true;
              let '(retval, b, u) := r in
              let u := upd_slot i0 (c_fill b) u in
              if decide (retval <> 0)
              then mret (retval, acc, upd_slot i0 (c_set_in_use false) u)
              else mret (0, acc ++ take (Z.to_nat (u_block_size u)) b, u)
            else
              let '(i, reuse, u) := uncached_run (Z.to_nat count) 1 count block [i0] u in
              r ← raw_read_blk u block i (replicate (Z.to_nat (i * u_block_size u)) 0) true;
              let '(retval, b, u) := r in
              if decide (retval <> 0) then mret (retval, acc ++ b, u)
              else
                u ← save_blocks reuse block b u;
                read_loop fuel' (u64 (block + i)) (count - i) (acc ++ b) u
        end
      else mret (0, acc, u)
  end.

(** [unix_read_blk64]: the error code, the bytes delivered, the channel. *)
Definition unix_read_blk64 (block count : Z) (u : uio) : M (Z * list Z * uio) :=
  if decide (count < 0 \/ count > WRITE_DIRECT_SIZE) then
    r ← flush_cached_blocks false u;
    let '(retval, u) := r in
    if decide (retval <> 0) then mret (retval, [], u)
    else raw_read_blk u block count (replicate (Z.to_nat (xfer_size u count)) 0) true
  else read_loop (Z.to_nat count) block count [] u.

(** The [while] loop of [unix_write_blk64]. *)
Fixpoint write_loop (fuel : nat) (block : Z) (cp : list Z) (u : uio) : M uio :=
  match fuel with
  | O => mret u
  | S fuel' =>
      let '(f, u) := find_cached_block u block in
      r ← (match f with
           | inl i => mret (i, u)
           | inr e => u ← reuse_cache u (default 0%nat e) block; mret (default 0%nat e, u)
           end);
      let '(i, u) := r in
      let bs := Z.to_nat (u_block_size u) in
      let u := upd_slot i (fun c => c_set_dirty (negb (u_writethrough u)) (c_fill (take bs cp) c)) u in
      write_loop fuel' (u64 (block + 1)) (drop bs cp) u
  end.

(** [unix_write_blk64] *)
Definition unix_write_blk64 (block count : Z) (buf : list Z) (u : uio) : M (Z * uio) :=
  if decide (count < 0 \/ count > WRITE_DIRECT_SIZE) then
    r ← flush_cached_blocks true u;
    let '(retval, u) := r in
    if decide (retval <> 0) then mret (retval, u)
    else raw_write_blk u block count buf true []
  else
    r ← (if u_writethrough u then raw_write_blk u block count buf true [] else mret (0, u));
    let '(retval, u) := r in
    u ← write_loop (Z.to_nat count) block buf u;
    mret (retval, u).

(** [unix_write_byte] *)
Definition unix_write_byte (offset size : Z) (buf : list Z) (u : uio) : M (Z * uio) :=
  if decide (u_align u <> 0) then mret (EXT2_ET_UNIMPLEMENTED, u)
  else
    r ← flush_cached_blocks true u;
    let '(retval, u) := r in
    if decide (retval <> 0) then mret (retval, u)
    else if is_redo_enabled then
      a ← rfsck_write (u64 (offset + u_offset u)) (u32 size) buf; mret (a, u)
    else
      l ← sys (lseek (u_dev u) (s64 (offset + u_offset u)));
      if decide (l < 0) then mret (EIO, u)
      else
        n ← sys (sys_write (u_dev u) (take (Z.to_nat size) buf));
        if decide (n < 0) then mret (EIO, u)
        else if decide (n <> size) then mret (EXT2_ET_SHORT_WRITE, u)
        else mret (0, u).

(** [unix_flush] *)
Definition unix_flush (u : uio) : M (Z * uio) :=
  r ← flush_cached_blocks false u;
  let '(retval, u) := r in
  if is_redo_enabled then a ← rfsck_flush; mret (a, u)
  else if decide (retval <> 0) then mret (retval, u)
  else
    n ← sys (fsync (u_dev u));
    if decide (n <> 0) then mret (EIO, u) else mret (0, u).

(** [unix_set_blksize] *)
Definition unix_set_blksize (blksize : Z) (u : uio) : M (Z * uio) :=
  if decide (u_block_size u <> blksize) then
    r ← flush_cached_blocks false u;
    let '(retval, u) := r in
    if decide (retval <> 0) then mret (retval, u)
    else mret (0, alloc_cache (set_blksize blksize u))
  else mret (0, u).

(** [unix_close] of the last reference; the channel is gone afterwards. *)
Definition unix_close (u : uio) : M Z :=
  r ← flush_cached_blocks false u;
  let '(retval, u) := r in
  n ← sys (sys_close (u_dev u));
  mret (if decide (n < 0) then EIO else retval).

(** [unix_set_option] for the option ["offset"], after [strtoull]: the value. *)
Definition unix_set_option_offset (tmp : Z) (u : uio) : Z * uio :=
  let u := set_offset (s64 tmp) u in
  if decide (u_offset u < 0) then (EXT2_ET_INVALID_ARGUMENT, u) else (0, u).

End unix_io.
