(* ===== verification/UnixIoProofs.v ===== *)
(** The block cache is transparent: without redo and without I/O faults, the
    channel behaves as the flat byte array [D] (the device with the cached blocks
    written over it): reads return the bytes of [D], writes update [D], a flush
    makes the device equal to [D]. *)
From Stdlib Require Import ZArith Lia.
From stdpp Require Import base tactics numbers list gmap strings.
From S2P Require Import Prelude Crc32c Os RedoLog RedoLayout RedoWriter RedoOps ExtErr UnixIo.

Section cache.
Context `{Checksum}.
Variable rerr : option (Z -> Z -> list Z -> Z -> Z -> Z -> M (Z * list Z)).
Variable werr : option (Z -> Z -> list Z -> Z -> Z -> Z -> M Z).
(** Block size, offset of the file system on the device, number of blocks. *)
Variables bs off nb : Z.
Hypothesis Hbs : 0 < bs < 2 ^ 16.
Hypothesis Hoff : 0 <= off.
Hypothesis Hnb : 0 <= nb.
Hypothesis Hmax : nb * bs + off < 2 ^ 63.

Definition loc (b : Z) : Z := b * bs + off.

Lemma loc_range b : 0 <= b < nb -> 0 <= loc b /\ loc b + bs <= nb * bs + off.
Proof. unfold loc. nia. Qed.

(** Different blocks do not overlap. *)
Lemma loc_disjoint b1 b2 : b1 <> b2 -> loc b1 + bs <= loc b2 \/ loc b2 + bs <= loc b1.
Proof. unfold loc. nia. Qed.

(** * The invariant of the cache *)

Record cok (cs : list unix_cache) (c D : list Z) : Prop := {
  ck_len : length cs = CACHE_SIZE;
  ck_size : zlen D = zlen c;
  ck_dev : nb * bs + off <= zlen c;
  ck_buf : forall i k, cs !! i = Some k -> zlen (c_buf k) = bs;
  ck_used : forall i k, cs !! i = Some k -> c_in_use k = true ->
    0 <= c_block k < nb /\ zslice (loc (c_block k)) bs D = c_buf k /\
    (c_dirty k = false -> zslice (loc (c_block k)) bs c = c_buf k);
  ck_dist : forall i j k k', cs !! i = Some k -> cs !! j = Some k' ->
    c_in_use k = true -> c_in_use k' = true -> c_block k = c_block k' -> i = j;
  ck_rest : forall x : nat,
    (forall i k, cs !! i = Some k -> c_in_use k = true ->
       ~ (loc (c_block k) <= Z.of_nat x < loc (c_block k) + bs)) -> D !! x = c !! x
}.

(** No slot holds block [b]. *)
Definition uncached (cs : list unix_cache) (b : Z) : Prop :=
  forall i k, cs !! i = Some k -> c_in_use k = true -> c_block k <> b.

Lemma uncached_agree cs c D b :
  cok cs c D -> 0 <= b < nb -> uncached cs b -> zslice (loc b) bs c = zslice (loc b) bs D.
Proof.
  intros Hok Hb Hun. apply zslice_ext; [apply loc_range; done|].
  intros x Hx. symmetry. apply (ck_rest _ _ _ Hok). intros i k Hk Hu Hcov.
  pose proof (loc_disjoint _ _ (Hun i k Hk Hu)). lia.
Qed.

(** A slot changed in nothing but its access time. *)
Lemma cok_touch cs c D i k t :
  cok cs c D -> cs !! i = Some k -> cok (<[i := c_touch t k]> cs) c D.
Proof.
  intros [] Hk.
  assert (Hlk : forall j k', <[i := c_touch t k]> cs !! j = Some k' ->
    exists k0, cs !! j = Some k0 /\ c_buf k' = c_buf k0 /\ c_block k' = c_block k0 /\
               c_dirty k' = c_dirty k0 /\ c_in_use k' = c_in_use k0).
  { intros j k' Hj. destruct (decide (i = j)) as [->|Hne].
    - rewrite list_lookup_insert_eq in Hj by (by eapply lookup_lt_Some). injection Hj as <-.
      by exists k.
    - rewrite list_lookup_insert_ne in Hj by done. by exists k'. }
  split; try done.
  - by rewrite length_insert.
  - intros j k' (k0 & H0 & -> & _)%Hlk. by eapply ck_buf0.
  - intros j k' (k0 & H0 & -> & -> & -> & ->)%Hlk. by apply ck_used0 with j.
  - intros j1 j2 k1 k2 (a & Ha & _ & Hab & _ & Hau)%Hlk (b & Hb & _ & Hbb & _ & Hbu)%Hlk.
    rewrite Hab, Hau, Hbb, Hbu. by apply ck_dist0.
  - intros x Hx. apply ck_rest0. intros j k0 Hj Hu.
    destruct (decide (i = j)) as [->|Hne].
    + simplify_eq. apply (Hx j (c_touch t k)); [|done].
      by rewrite list_lookup_insert_eq by (by eapply lookup_lt_Some).
    + apply (Hx j k0); [by rewrite list_lookup_insert_ne|done].
Qed.

(** Inversion of an update of one slot. *)
Lemma insert_lookup cs (i j : nat) (k k' : unix_cache) :
  <[i := k]> cs !! j = Some k' ->
  (j = i /\ k' = k /\ (i < length cs)%nat) \/ (j <> i /\ cs !! j = Some k').
Proof.
  intros Hj. destruct (decide (j = i)) as [->|Hne].
  - left. assert (i < length cs)%nat by (apply lookup_lt_Some in Hj; by rewrite length_insert in Hj).
    rewrite list_lookup_insert_eq in Hj by done. by simplify_eq.
  - right. by rewrite list_lookup_insert_ne in Hj by done.
Qed.

(** Writing a cached block back to the device. *)
Lemma cok_write_back cs c D i k :
  cok cs c D -> cs !! i = Some k -> c_in_use k = true ->
  cok (<[i := c_set_dirty false k]> cs) (zsplice (loc (c_block k)) (c_buf k) c) D.
Proof.
  intros [] Hk Hu. destruct (ck_used0 i k Hk Hu) as (Hb & HD & _).
  pose proof (ck_buf0 i k Hk) as Hl. destruct (loc_range _ Hb) as [Hl1 Hl2].
  assert (Hz : zlen (zsplice (loc (c_block k)) (c_buf k) c) = zlen c) by (rewrite zlen_splice by lia; lia).
  split.
  - by rewrite length_insert.
  - by rewrite Hz.
  - lia.
  - intros j k' [(-> & -> & _)|[_ Hj]]%insert_lookup; [done|by eapply ck_buf0].
  - intros j k' [(-> & -> & _)|[Hne Hj]]%insert_lookup Hu'; cbn.
    + split_and!; [lia|lia|done|]. intros _. by apply zslice_zsplice_eq.
    + destruct (ck_used0 j k' Hj Hu') as (Hb' & HD' & Hc'). split_and!; [lia|lia|done|].
      intros Hd. rewrite <- (Hc' Hd). destruct (loc_range _ Hb') as [R3 R4].
      assert (c_block k' <> c_block k) as Hbne by (intros E; by apply Hne, (ck_dist0 j i k' k)).
      pose proof (loc_disjoint _ _ Hbne). apply zslice_zsplice_disjoint; lia.
  - intros j1 j2 k1 k2 [(-> & -> & _)|[Hn1 J1]]%insert_lookup [(-> & -> & _)|[Hn2 J2]]%insert_lookup; cbn;
      intros U1 U2 E; [done|by apply (ck_dist0 i j2 k k2)|by apply (ck_dist0 j1 i k1 k)|by apply (ck_dist0 j1 j2 k1 k2)].
  - intros x Hx. destruct (decide (loc (c_block k) <= Z.of_nat x < loc (c_block k) + bs)) as [Hin|Hout].
    + apply (zslice_agree (loc (c_block k)) bs); [lia| |done].
      rewrite HD. symmetry. by apply zslice_zsplice_eq.
    + rewrite lookup_zsplice_out by lia. apply ck_rest0. intros j k' Hj Hu'.
      destruct (decide (j = i)) as [->|Hne]; [by simplify_eq|].
      apply (Hx j k'); [by rewrite list_lookup_insert_ne|done].
Qed.

(** A slot that is out of use, with a buffer of the right size. *)
Definition idle (k : unix_cache) : Prop := c_in_use k = false /\ zlen (c_buf k) = bs.

(** Taking a clean slot out of use. *)
Lemma cok_drop cs c D i k k' :
  cok cs c D -> cs !! i = Some k -> (c_in_use k = true -> c_dirty k = false) -> idle k' ->
  cok (<[i := k']> cs) c D.
Proof.
  intros [] Hk Hcl [Hi1 Hi2]. split; try done.
  - by rewrite length_insert.
  - intros j k0 [(-> & -> & _)|[_ Hj]]%insert_lookup; [done|by eapply ck_buf0].
  - intros j k0 [(-> & -> & _)|[_ Hj]]%insert_lookup Hu; [congruence|by apply ck_used0 with j].
  - intros j1 j2 k1 k2 [(-> & -> & _)|[Hn1 J1]]%insert_lookup [(-> & -> & _)|[Hn2 J2]]%insert_lookup
      U1 U2 E; try congruence. by apply (ck_dist0 j1 j2 k1 k2).
  - intros x Hx.
    assert (Hx' : forall j k0, cs !! j = Some k0 -> j <> i -> c_in_use k0 = true ->
                  ~ (loc (c_block k0) <= Z.of_nat x < loc (c_block k0) + bs)).
    { intros j k0 Hj Hne Hu. apply (Hx j k0); [by rewrite list_lookup_insert_ne|done]. }
    destruct (c_in_use k) eqn:Hu.
    + destruct (ck_used0 i k Hk Hu) as (Hb & HD & HC). specialize (HC (Hcl eq_refl)).
      destruct (loc_range _ Hb) as [R1 R2].
      destruct (decide (loc (c_block k) <= Z.of_nat x < loc (c_block k) + bs)) as [Hin|Hout].
      * apply (zslice_agree (loc (c_block k)) bs); [lia|congruence|done].
      * apply ck_rest0. intros j k0 Hj Hu0. destruct (decide (j = i)) as [->|Hne]; [by simplify_eq|].
        by apply Hx' with j.
    + apply ck_rest0. intros j k0 Hj Hu0. destruct (decide (j = i)) as [->|Hne]; [simplify_eq; congruence|].
      by apply Hx' with j.
Qed.

(** Loading the current bytes of block [b] into an idle slot. *)
Lemma cok_load cs c D i k0 k :
  cok (<[i := k0]> cs) c D -> idle k0 -> (i < length cs)%nat -> 0 <= c_block k < nb ->
  uncached (<[i := k0]> cs) (c_block k) -> zslice (loc (c_block k)) bs D = c_buf k ->
  c_in_use k = true -> c_dirty k = false -> cok (<[i := k]> cs) c D.
Proof.
  intros Hok [Hi1 Hi2] Hlen Hb Hun HD Hu Hcl. pose proof (uncached_agree _ _ _ _ Hok Hb Hun) as Hag.
  assert (Hne : forall j k', cs !! j = Some k' -> j <> i -> c_in_use k' = true -> c_block k' <> c_block k).
  { intros j k' Hj Hji Hu'. apply (Hun j k'); [by rewrite list_lookup_insert_ne|done]. }
  destruct Hok. destruct (loc_range _ Hb) as [R1 R2].
  assert (HO : forall j k', cs !! j = Some k' -> j <> i -> <[i := k0]> cs !! j = Some k')
    by (intros; by rewrite list_lookup_insert_ne).
  split; try done.
  - by rewrite length_insert in *.
  - intros j k' [(-> & -> & _)|[Hji Hj]]%insert_lookup; [|by eapply ck_buf0, HO].
    rewrite <- HD. apply zlen_zslice; lia.
  - intros j k' [(-> & -> & _)|[Hji Hj]]%insert_lookup Hu'.
    + split_and!; [lia|lia|done|]. intros _. by rewrite Hag.
    + apply ck_used0 with j; [by apply HO|done].
  - intros j1 j2 k1 k2 [(-> & -> & _)|[Hn1 J1]]%insert_lookup [(-> & -> & _)|[Hn2 J2]]%insert_lookup
      U1 U2 E; [done|by destruct (Hne j2 k2 J2 Hn2 U2)|by destruct (Hne j1 k1 J1 Hn1 U1)|].
    apply (ck_dist0 j1 j2 k1 k2); auto.
  - intros x Hx. apply ck_rest0. intros j k' [(-> & -> & _)|[Hji Hj]]%insert_lookup Hu'; [congruence|].
    apply (Hx j k'); [by rewrite list_lookup_insert_ne|done].
Qed.

(** Storing new bytes for block [b] in the slot that holds it. *)
Lemma cok_store cs c D i k data t :
  cok cs c D -> cs !! i = Some k -> c_in_use k = true -> zlen data = bs ->
  cok (<[i := mkCache data (c_block k) t true true]> cs) c (zsplice (loc (c_block k)) data D).
Proof.
  intros [] Hk Hu Hd. destruct (ck_used0 i k Hk Hu) as (Hb & _ & _). destruct (loc_range _ Hb) as [R1 R2].
  assert (Hlt : (i < length cs)%nat) by by eapply lookup_lt_Some.
  split; try done.
  - by rewrite length_insert.
  - rewrite zlen_splice by lia. lia.
  - intros j k' [(-> & -> & _)|[Hji Hj]]%insert_lookup; [done|by eapply ck_buf0].
  - intros j k' [(-> & -> & _)|[Hji Hj]]%insert_lookup Hu'; cbn.
    + split_and!; [lia|lia|by apply zslice_zsplice_eq|done].
    + destruct (ck_used0 j k' Hj Hu') as (Hb' & HD' & Hc'). split_and!; [lia|lia| |done].
      assert (c_block k' <> c_block k) as Hbne by (intros E; by apply Hji, (ck_dist0 j i k' k)).
      pose proof (loc_disjoint _ _ Hbne). destruct (loc_range _ Hb') as [R3 R4].
      rewrite <- HD'. apply zslice_zsplice_disjoint; lia.
  - intros j1 j2 k1 k2 [(-> & -> & _)|[Hn1 J1]]%insert_lookup [(-> & -> & _)|[Hn2 J2]]%insert_lookup; cbn;
      intros U1 U2 E; [done|by apply (ck_dist0 i j2 k k2)|by apply (ck_dist0 j1 i k1 k)|by apply (ck_dist0 j1 j2 k1 k2)].
  - intros x Hx. pose proof (Hx i _ (list_lookup_insert_eq _ _ _ Hlt) eq_refl) as Hxi. cbn in Hxi.
    rewrite lookup_zsplice_out by lia. apply ck_rest0. intros j k' Hj Hu'.
    destruct (decide (j = i)) as [->|Hne]; [by simplify_eq|].
    apply (Hx j k'); [by rewrite list_lookup_insert_ne|done].
Qed.

(** * The channel *)

Lemma mret_bind_M {A B} (x : A) (f : A -> M B) s : mbind f (mret x : M A) s = f x s.
Proof. done. Qed.

Lemma bind_assoc_M {A B C} (m : M A) (f : A -> M B) (g : B -> M C) s :
  mbind g (mbind f m) s = mbind (fun x => mbind g (f x)) m s.
Proof. unfold mbind, M_bind. by destruct (m s) as [[x s']|]. Qed.

(** The configuration the theorems are about: buffered I/O on an open device. *)
Record io (s : st) (u : uio) (di : Z) (df : file) : Prop := {
  io_bs : u_block_size u = bs;
  io_off : u_offset u = off;
  io_align : u_align u = 0;
  io_bounce : u_force_bounce u = false;
  io_wt : u_writethrough u = false;
  io_fd : os_fds (st_os s) !! u_dev u = Some di;
  io_file : os_files (st_os s) !! di = Some df;
  io_plan : os_plan (st_os s) = []
}.

Record chan (s : st) (u : uio) (di : Z) (df : file) (D : list Z) : Prop := {
  ch_io : io s u di df;
  ch_ck : cok (u_cache u) (f_cur df) D
}.

Lemma io_same s u u' di df :
  io s u di df -> u_block_size u' = u_block_size u -> u_offset u' = u_offset u ->
  u_align u' = u_align u -> u_force_bounce u' = u_force_bounce u ->
  u_writethrough u' = u_writethrough u -> u_dev u' = u_dev u -> io s u' di df.
Proof. intros [] E1 E2 E3 E4 E5 E6. split; congruence. Qed.

Lemma io_upd s u di df i f : io s u di df -> io s (upd_slot i f u) di df.
Proof. intros Hi. by eapply io_same. Qed.

Lemma io_set_file s u di df df' : io s u di df -> io (st_set_file di df' s) u di df'.
Proof. intros []. split; cbn; try done. by rewrite lookup_insert_eq. Qed.

Lemma location_loc s u di df b :
  io s u di df -> 0 <= loc b < 2 ^ 63 -> location u b = loc b.
Proof.
  intros [] Hb. unfold location. rewrite io_bs0, io_off0. by apply s64_pos.
Qed.

Lemma xfer_blocks s u di df n : io s u di df -> 0 <= n < 2 ^ 15 -> xfer_size u n = n * bs.
Proof.
  intros [] Hn. unfold xfer_size. rewrite decide_False, io_bs0 by lia.
  apply s32_small. change (2 ^ 15) with 32768 in Hn. change (2 ^ 16) with 65536 in Hbs. nia.
Qed.

(** A transfer of [sz] bytes to the device, at block [b]. *)
Lemma raw_write_size s u di df b n sz buf :
  io s u di df -> 0 <= loc b < 2 ^ 63 ->
  (if decide (n = 1) then u_block_size u else xfer_size u n) = sz -> zlen buf = sz ->
  exists u',
    raw_write_blk false werr u b n buf true [] s
    = Some ((0, u'), st_set_file di (f_pwrite (Z.to_nat (loc b)) buf df) s) /\
    u_cache u' = u_cache u /\ u_access_time u' = u_access_time u /\
    io (st_set_file di (f_pwrite (Z.to_nat (loc b)) buf df) s) u' di
       (f_pwrite (Z.to_nat (loc b)) buf df).
Proof.
  intros Hi Hb Hsz Hl. unfold raw_write_blk. rewrite Hsz. cbv zeta. set (u1 := set_stats _ _ u).
  assert (Hi1 : io s u1 di df) by (by eapply io_same; [exact Hi|..]).
  rewrite (location_loc s u1 di df b Hi1 Hb).
  rewrite (io_bounce _ _ _ _ Hi1), (io_align _ _ _ _ Hi1).
  rewrite bool_decide_eq_true_2 by done. cbn [orb andb].
  rewrite take_zlen by lia. unfold mbind at 1, M_bind at 1, sys.
  rewrite (pwrite_full _ _ di df) by (done || apply Hi1). rewrite decide_True by (split; [done|lia]).
  exists u1. split_and!; [done..|]. by eapply io_set_file.
Qed.

(** A transfer of [sz] bytes from the device, at block [b]. *)
Lemma raw_read_size s u di df b n sz buf :
  io s u di df -> 0 <= loc b < 2 ^ 63 -> xfer_size u n = sz -> 0 <= sz -> zlen buf = sz ->
  loc b + sz <= zlen (f_cur df) ->
  exists u',
    raw_read_blk rerr u b n buf true s = Some ((0, zslice (loc b) sz (f_cur df), u'), s) /\
    u_cache u' = u_cache u /\ u_access_time u' = u_access_time u /\ io s u' di df.
Proof.
  intros Hi Hb Hsz Hpos Hl Hdev. unfold raw_read_blk. rewrite Hsz. cbv zeta. set (u1 := set_stats _ _ u).
  assert (Hi1 : io s u1 di df) by (by eapply io_same; [exact Hi|..]).
  rewrite (location_loc s u1 di df b Hi1 Hb).
  rewrite (io_bounce _ _ _ _ Hi1), (io_align _ _ _ _ Hi1).
  rewrite bool_decide_eq_true_2 by done. cbn [orb andb].
  unfold mbind at 1, M_bind at 1, sys.
  rewrite (pread_full _ _ di df) by (done || apply Hi1).
  assert (Hz : zlen (zslice (loc b) sz (f_cur df)) = sz) by (apply zlen_zslice; lia).
  rewrite decide_True by done. exists u1. split_and!; try done.
  unfold fill. rewrite drop_ge, app_nil_r by (unfold zlen in *; lia).
  by destruct s.
Qed.

(** The same for [n] whole blocks. *)
Lemma raw_write_ok s u di df b n buf :
  io s u di df -> 0 <= b -> 0 < n < 2 ^ 15 -> b + n <= nb -> zlen buf = n * bs ->
  exists u',
    raw_write_blk false werr u b n buf true [] s
    = Some ((0, u'), st_set_file di (f_pwrite (Z.to_nat (loc b)) buf df) s) /\
    u_cache u' = u_cache u /\ u_access_time u' = u_access_time u /\
    io (st_set_file di (f_pwrite (Z.to_nat (loc b)) buf df) s) u' di
       (f_pwrite (Z.to_nat (loc b)) buf df).
Proof.
  intros Hi Hb Hn Hbn Hl. eapply raw_write_size; [done|unfold loc; nia| |exact Hl].
  case_decide; [subst; rewrite (io_bs _ _ _ _ Hi); lia|]. eapply xfer_blocks; [done|lia].
Qed.

Lemma raw_read_ok s u di df b n buf :
  io s u di df -> 0 <= b -> 0 < n < 2 ^ 15 -> b + n <= nb -> zlen buf = n * bs ->
  nb * bs + off <= zlen (f_cur df) ->
  exists u',
    raw_read_blk rerr u b n buf true s = Some ((0, zslice (loc b) (n * bs) (f_cur df), u'), s) /\
    u_cache u' = u_cache u /\ u_access_time u' = u_access_time u /\ io s u' di df.
Proof.
  intros Hi Hb Hn Hbn Hl Hdev.
  apply raw_read_size; [done|unfold loc; nia|eapply xfer_blocks; [done|lia]|nia|done|unfold loc; nia].
Qed.

(** ** [find_cached_block] *)
Lemma find_scan_spec cs : forall i0 b un old,
  match find_scan i0 cs b un old with
  | inl i => exists j k, i = (i0 + j)%nat /\ cs !! j = Some k /\ c_in_use k = true /\ c_block k = b
  | inr e =>
      uncached cs b /\
      (forall n, (i0 + length cs <= n)%nat ->
         (un = None -> old = None -> (0 < length cs)%nat) ->
         (forall j, un = Some j -> (j < n)%nat) -> (forall j t, old = Some (j, t) -> (j < n)%nat) ->
         exists i, e = Some i /\ (i < n)%nat)
  end.
Proof.
  induction cs as [|k cs IH]; intros i0 b un old; cbn [find_scan].
  - split; [by intros j k Hj; rewrite lookup_nil in Hj|]. intros n Hn Hne Hun Hold.
    destruct un as [j|]; [by eauto|]. destruct old as [[j t]|]; cbn; [by eauto|].
    specialize (Hne eq_refl eq_refl). cbn in Hne. lia.
  - destruct (c_in_use k) eqn:Hu; cbn [negb].
    + case_decide as Hblk.
      { exists 0%nat, k. by rewrite Nat.add_0_r. }
      match goal with |- context [find_scan (S i0) cs b un ?o] => set (old' := o) end.
      specialize (IH (S i0) b un old').
      assert (Ho' : forall n, (i0 < n)%nat -> (forall j t, old = Some (j, t) -> (j < n)%nat) ->
                    forall j t, old' = Some (j, t) -> (j < n)%nat).
      { intros n Hn Ho j t. unfold old'. destruct old as [[j0 t0]|]; [case_bool_decide|];
          first [by intros Ho1; injection Ho1 as <- _|apply Ho]. }
      assert (Hn' : old' = None -> False).
      { unfold old'. destruct old as [[j t]|]; [|done]. by case_bool_decide. }
      destruct (find_scan (S i0) cs b un old') as [i|e].
      * destruct IH as (j & k' & -> & Hj & ? & ?). exists (S j), k'. split_and!; try done. lia.
      * destruct IH as [IH1 IH2]. split.
        { intros [|j] k' Hj Hu'; cbn in Hj; [by simplify_eq|by eapply IH1]. }
        intros n Hn Hne Hun Hold. cbn in Hn. apply IH2; [lia|intros ? Ho; by destruct (Hn' Ho)|done|].
        apply Ho'; [lia|done].
    + specialize (IH (S i0) b (match un with None => Some i0 | _ => un end) old).
      destruct (find_scan (S i0) cs b _ old) as [i|e].
      * destruct IH as (j & k' & -> & Hj & ? & ?). exists (S j), k'. split_and!; try done. lia.
      * destruct IH as [IH1 IH2]. split.
        { intros [|j] k' Hj Hu'; cbn in Hj; [simplify_eq; congruence|by eapply IH1]. }
        intros n Hn Hne Hun Hold. cbn in Hn. apply IH2; [lia| | |done].
        { intros Hun'. by destruct un. }
        { intros j. destruct un as [j'|]; [intros [= <-]; by apply Hun|intros [= <-]; lia]. }
Qed.

Lemma find_cached_spec u b :
  length (u_cache u) = CACHE_SIZE ->
  (exists i k t, find_cached_block u b
     = (inl i, upd_slot i (c_touch t) (set_atime t u)) /\
     u_cache u !! i = Some k /\ c_in_use k = true /\ c_block k = b) \/
  (exists i k, find_cached_block u b = (inr (Some i), u) /\ u_cache u !! i = Some k /\
     uncached (u_cache u) b).
Proof.
  intros Hlen. unfold find_cached_block. pose proof (find_scan_spec (u_cache u) 0 b None None) as Hs.
  destruct (find_scan 0 (u_cache u) b None None) as [i|e].
  - left. destruct Hs as (j & k & -> & Hj & Hu & Hb). exists j, k. eexists. split; [reflexivity|done].
  - right. destruct Hs as [Hun He]. destruct (He CACHE_SIZE) as (i & -> & Hi);
      [rewrite Hlen; lia|intros _ _; rewrite Hlen; unfold CACHE_SIZE; lia|done|done|].
    destruct (lookup_lt_is_Some_2 (u_cache u) i) as [k Hk]; [by rewrite Hlen|]. by exists i, k.
Qed.

Lemma slot_lookup u i k : u_cache u !! i = Some k -> slot u i = k.
Proof. intros Hk. by apply list_lookup_total_correct. Qed.

Lemma cache_upd i f u : u_cache (upd_slot i f u) = <[i := f (slot u i)]> (u_cache u).
Proof. done. Qed.

(** A hit changes only an access time. *)
Lemma chan_hit s u di df D i k t :
  chan s u di df D -> u_cache u !! i = Some k ->
  let u' := upd_slot i (c_touch t) (set_atime t u) in
  chan s u' di df D /\ u_cache u' !! i = Some (c_touch t k).
Proof.
  intros [Hi Hc] Hk u'. unfold u', upd_slot.
  rewrite (slot_lookup (set_atime t u) i k Hk). cbn.
  assert (i < length (u_cache u))%nat by by eapply lookup_lt_Some.
  split; [|by rewrite list_lookup_insert_eq].
  split; [by eapply io_same|]. by apply cok_touch.
Qed.

(** ** [reuse_cache]: the old block reaches the device, the slot is free. *)
Lemma reuse_spec s u di df D i k b :
  chan s u di df D -> u_cache u !! i = Some k ->
  exists s' u' df' t,
    reuse_cache false werr u i b s = Some (u', s') /\ io s' u' di df' /\
    u_cache u' = <[i := mkCache (c_buf k) b t false true]> (u_cache u) /\
    cok (<[i := c_set_in_use false k]> (u_cache u)) (f_cur df') D.
Proof.
  intros [Hi Hc] Hk. unfold reuse_cache. rewrite (slot_lookup u i k Hk).
  pose proof (ck_buf _ _ _ Hc i k Hk) as Hl.
  assert (Hid : idle (c_set_in_use false k)) by done.
  destruct (c_dirty k && c_in_use k) eqn:Hdu.
  - apply andb_true_iff in Hdu as [Hd Hu].
    destruct (ck_used _ _ _ Hc i k Hk Hu) as (Hb & _ & _). destruct (loc_range _ Hb) as [R1 R2].
    destruct (raw_write_ok s u di df (c_block k) 1 (c_buf k) Hi) as (u1 & HR & Hcu & Htu & Hi1); [lia..|].
    rewrite bind_assoc_M, (bind_some _ _ _ _ _ HR). cbn [snd]. rewrite mret_bind_M.
    eexists _, _, _, _. split; [reflexivity|]. split_and!.
    + by eapply io_same; [exact Hi1|..].
    + unfold upd_slot. rewrite (slot_lookup _ i k) by (cbn; by rewrite Hcu). cbn. by rewrite Hcu.
    + rewrite f_cur_pwrite_z by lia.
      pose proof (cok_write_back _ _ _ i k Hc Hk Hu) as Hwb.
      rewrite <- (list_insert_insert_eq (u_cache u) i (c_set_in_use false k) (c_set_dirty false k)).
      apply (cok_drop _ _ _ i (c_set_dirty false k)); [exact Hwb| |done|done].
      rewrite list_lookup_insert_eq; [done|by eapply lookup_lt_Some].
  - rewrite mret_bind_M. eexists _, _, df, _. split; [reflexivity|]. split_and!.
    + by eapply io_same; [exact Hi|..].
    + unfold upd_slot. by rewrite (slot_lookup _ i k) by done.
    + eapply cok_drop; [done|done| |done]. intros Hu. rewrite Hu, andb_true_r in Hdu. done.
Qed.

Lemma uncached_insert cs i k b :
  uncached cs b -> (c_in_use k = true -> c_block k <> b) -> uncached (<[i := k]> cs) b.
Proof. intros Hun Hk j k' [(-> & -> & _)|[_ Hj]]%insert_lookup; [done|by eapply Hun]. Qed.

(** The slot reserved for block [b], filled with the current bytes of [b]. *)
Lemma cok_fill cs c D i k b t :
  cok (<[i := c_set_in_use false k]> cs) c D -> cs !! i = Some k -> zlen (c_buf k) = bs ->
  0 <= b < nb -> uncached cs b ->
  cok (<[i := mkCache (zslice (loc b) bs D) b t false true]> cs) c D.
Proof.
  intros Hc Hk Hl Hb Hun.
  eapply cok_load; [exact Hc|done|by eapply lookup_lt_Some|done| |done|done|done].
  by apply uncached_insert.
Qed.

(** ** The loop of [unix_write_blk64] *)
Lemma write_step s u di df D b data :
  chan s u di df D -> 0 <= b < nb -> zlen data = bs ->
  exists s' u' df',
    (forall n cp, take (Z.to_nat bs) cp = data ->
       write_loop false werr (S n) b cp u s
       = write_loop false werr n (u64 (b + 1)) (drop (Z.to_nat bs) cp) u' s') /\
    chan s' u' di df' (zsplice (loc b) data D).
Proof.
  intros Hch Hb Hl. pose proof Hch as [Hi Hc].
  destruct (find_cached_spec u b (ck_len _ _ _ Hc)) as [(i & k & t & Hf & Hk & Hu & Hkb)|(i & k & Hf & Hk & Hun)].
  - destruct (chan_hit s u di df D i k t Hch Hk) as [[Hi1 Hc1] Hk1].
    set (u1 := upd_slot i (c_touch t) (set_atime t u)) in *.
    eexists s, _, df. split.
    { intros n cp Hcp. cbn [write_loop]. rewrite Hf. fold u1. rewrite mret_bind_M. cbv beta iota.
      rewrite (io_bs _ _ _ _ Hi1), (io_wt _ _ _ _ Hi1), Hcp. reflexivity. }
    split; [by apply io_upd|]. rewrite cache_upd, (slot_lookup _ _ _ Hk1), <- Hkb.
    replace (c_set_dirty _ _) with (mkCache data (c_block k) t true true) by (cbn; by rewrite <- Hu).
    apply (cok_store _ _ _ i (c_touch t k)); done.
  - destruct (reuse_spec s u di df D i k b Hch Hk) as (s1 & u1 & df1 & t & HR & Hi1 & Hcs & Hc1).
    eexists s1, _, df1. split.
    { intros n cp Hcp. cbn [write_loop]. rewrite Hf. cbn [default from_option id].
      rewrite bind_assoc_M, (bind_some _ _ _ _ _ HR), mret_bind_M.
      rewrite (io_bs _ _ _ _ Hi1), (io_wt _ _ _ _ Hi1), Hcp. reflexivity. }
    split; [by apply io_upd|].
    assert (Hlt : (i < length (u_cache u))%nat) by by eapply lookup_lt_Some.
    pose proof (ck_buf _ _ _ Hc i k Hk) as Hkl.
    pose proof (cok_fill _ _ _ i k b t Hc1 Hk Hkl Hb Hun) as Hc2.
    assert (Hk1 : u_cache u1 !! i = Some (mkCache (c_buf k) b t false true))
      by (rewrite Hcs; by apply list_lookup_insert_eq).
    rewrite cache_upd, (slot_lookup _ _ _ Hk1), Hcs, list_insert_insert_eq.
    pose proof (cok_store _ _ _ i (mkCache (zslice (loc b) bs D) b t false true) data t Hc2
                  (list_lookup_insert_eq _ _ _ Hlt) eq_refl Hl) as Hc3.
    by rewrite list_insert_insert_eq in Hc3.
Qed.

Lemma write_loop_ok n : forall b cp s u di df D,
  chan s u di df D -> 0 <= b -> b + Z.of_nat n <= nb -> zlen cp = Z.of_nat n * bs ->
  exists s' u' df',
    write_loop false werr n b cp u s = Some (u', s') /\
    chan s' u' di df' (zsplice (loc b) cp D).
Proof.
  induction n as [|n IH]; intros b cp s u di df D Hch Hb Hbn Hl.
  - assert (cp = []) as -> by (destruct cp; [done|]; unfold zlen in Hl; cbn in Hl; lia).
    exists s, u, df. split; [done|]. pose proof Hch as [_ Hc].
    rewrite zsplice_nil; [done|unfold loc; nia|].
    rewrite (ck_size _ _ _ Hc). pose proof (ck_dev _ _ _ Hc). unfold loc. nia.
  - assert (Hsplit : cp = take (Z.to_nat bs) cp ++ drop (Z.to_nat bs) cp) by by rewrite take_drop.
    assert (Htl : zlen (take (Z.to_nat bs) cp) = bs) by (unfold zlen in *; rewrite length_take; nia).
    assert (Hdl : zlen (drop (Z.to_nat bs) cp) = Z.of_nat n * bs) by (unfold zlen in *; rewrite length_drop; nia).
    destruct (write_step s u di df D b _ Hch ltac:(lia) Htl) as (s1 & u1 & df1 & Hw & Hch1).
    rewrite (Hw n cp eq_refl).
    assert (Hb1 : u64 (b + 1) = b + 1) by (apply u64_small; unfold in_u; pow2_norm; nia).
    rewrite Hb1.
    destruct (IH (b + 1) (drop (Z.to_nat bs) cp) s1 u1 di df1 _ Hch1) as (s2 & u2 & df2 & HR & Hch2);
      [lia|lia|done|].
    exists s2, u2, df2. split; [done|]. rewrite Hsplit at 1. rewrite <- zsplice_app by (unfold loc; nia).
    rewrite Htl. by replace (loc b + bs) with (loc (b + 1)) by (unfold loc; lia).
Qed.

(** ** [flush_cached_blocks] *)

(** When every cached block is clean, the device is the logical array. *)
Lemma clean_eq cs c D :
  cok cs c D -> (forall i k, cs !! i = Some k -> c_in_use k = true -> c_dirty k = false) -> D = c.
Proof.
  intros Hc Hcl. apply list_eq. intros x.
  destruct (decide (Exists (fun k => c_in_use k = true /\ loc (c_block k) <= Z.of_nat x < loc (c_block k) + bs) cs))
    as [Hex|Hno].
  - apply Exists_exists in Hex as (k & [i Hk]%list_elem_of_lookup & Hu & Hx).
    destruct (ck_used _ _ _ Hc i k Hk Hu) as (Hb & HD & HC). specialize (HC (Hcl i k Hk Hu)).
    apply (zslice_agree (loc (c_block k)) bs); [apply loc_range; done|congruence|done].
  - apply (ck_rest _ _ _ Hc). intros i k Hk Hu Hx. apply Hno, Exists_exists.
    exists k. split; [by eapply list_elem_of_lookup_2|done].
Qed.

Definition flushed_slot (invalidate : bool) (k : unix_cache) : Prop :=
  (c_in_use k = true -> c_dirty k = false) /\ (invalidate = true -> c_in_use k = false).

Lemma flush_slot s u di df D i k inv r n :
  chan s u di df D -> u_cache u !! i = Some k ->
  exists s' u' df' k',
    flush_loop false werr (S n) i inv r u s = flush_loop false werr n (S i) inv r u' s' /\
    chan s' u' di df' D /\ u_cache u' = <[i := k']> (u_cache u) /\ flushed_slot inv k'.
Proof.
  intros [Hi Hc] Hk. cbn [flush_loop]. rewrite (slot_lookup _ _ _ Hk).
  pose proof (ck_buf _ _ _ Hc i k Hk) as Hl.
  assert (Hlt : (i < length (u_cache u))%nat) by by eapply lookup_lt_Some.
  destruct (c_in_use k) eqn:Hu; cbn [negb].
  2:{ exists s, u, df, k. rewrite list_insert_id by done. split_and!; try done.
      split; [rewrite Hu; done|done]. }
  set (k1 := if inv then c_set_in_use false k else k).
  set (u1 := if inv then upd_slot i (c_set_in_use false) u else u).
  assert (Hcs1 : u_cache u1 = <[i := k1]> (u_cache u)).
  { unfold u1, k1. destruct inv; [by rewrite cache_upd, (slot_lookup _ _ _ Hk)|].
    symmetry. by apply list_insert_id. }
  assert (Hi1 : io s u1 di df) by (unfold u1; destruct inv; [by apply io_upd|done]).
  assert (Hdrop : forall c0, cok (<[i := c_set_dirty false k]> (u_cache u)) c0 D ->
                  cok (<[i := c_set_dirty false k1]> (u_cache u)) c0 D).
  { intros c0 H0. unfold k1. destruct inv; [|done].
    rewrite <- (list_insert_insert_eq (u_cache u) i _ (c_set_dirty false k)).
    apply (cok_drop _ _ _ i (c_set_dirty false k)); [done|by apply list_lookup_insert_eq|done|done]. }
  destruct (c_dirty k) eqn:Hd; cbn [negb].
  - destruct (ck_used _ _ _ Hc i k Hk Hu) as (Hb & _ & _). destruct (loc_range _ Hb) as [R1 R2].
    destruct (raw_write_ok s u1 di df (c_block k) 1 (c_buf k) Hi1) as (u2 & HR & Hcu & Htu & Hi2); [lia..|].
    rewrite (bind_some _ _ _ _ _ HR). rewrite decide_False by lia.
    eexists _, _, _, (c_set_dirty false k1). split; [reflexivity|].
    assert (Hk2 : u_cache u2 !! i = Some k1) by (rewrite Hcu, Hcs1; by apply list_lookup_insert_eq).
    split_and!; [split; [by apply io_upd|]| |].
    + rewrite cache_upd, (slot_lookup _ _ _ Hk2), Hcu, Hcs1, list_insert_insert_eq.
      rewrite f_cur_pwrite_z by lia. apply Hdrop. by apply cok_write_back.
    + by rewrite cache_upd, (slot_lookup _ _ _ Hk2), Hcu, Hcs1, list_insert_insert_eq.
    + unfold k1. by destruct inv.
  - exists s, u1, df, k1. split; [done|]. split_and!; [split; [done|]|done|].
    + rewrite Hcs1. unfold k1. destruct inv; [|by rewrite list_insert_id].
      by apply (cok_drop _ _ _ i k).
    + unfold k1. destruct inv; split; cbn; done.
Qed.

Lemma flush_loop_ok n : forall i inv r s u di df D,
  (i + n = CACHE_SIZE)%nat -> chan s u di df D ->
  exists s' u' df',
    flush_loop false werr n i inv r u s = Some ((r, u'), s') /\ chan s' u' di df' D /\
    (forall j k, (i <= j)%nat -> u_cache u' !! j = Some k -> flushed_slot inv k) /\
    (forall j, (j < i)%nat -> u_cache u' !! j = u_cache u !! j).
Proof.
  induction n as [|n IH]; intros i inv r s u di df D Hn Hch.
  - exists s, u, df. split_and!; try done. intros j k Hj Hk. exfalso.
    apply lookup_lt_Some in Hk. rewrite (ck_len _ _ _ (ch_ck _ _ _ _ _ Hch)) in Hk. lia.
  - destruct (lookup_lt_is_Some_2 (u_cache u) i) as [k Hk].
    { rewrite (ck_len _ _ _ (ch_ck _ _ _ _ _ Hch)). lia. }
    destruct (flush_slot s u di df D i k inv r n Hch Hk) as (s1 & u1 & df1 & k1 & -> & Hch1 & Hcs1 & Hf1).
    destruct (IH (S i) inv r s1 u1 di df1 D ltac:(lia) Hch1) as (s2 & u2 & df2 & HR & Hch2 & Hlo & Hhi).
    exists s2, u2, df2. split_and!; try done.
    + intros j k' Hj Hk'. destruct (decide (j = i)) as [->|Hne]; [|apply (Hlo j); [lia|done]].
      rewrite Hhi, Hcs1, list_lookup_insert_eq in Hk' by (lia || by eapply lookup_lt_Some). by simplify_eq.
    + intros j Hj. rewrite Hhi, Hcs1 by lia. by rewrite list_lookup_insert_ne by lia.
Qed.

(** Flushing makes the device equal to the logical array; with [invalidate] nothing
    stays cached. *)
Lemma flush_ok inv s u di df D :
  chan s u di df D ->
  exists s' u' df',
    flush_cached_blocks false werr inv u s = Some ((0, u'), s') /\ chan s' u' di df' D /\
    f_cur df' = D /\ (inv = true -> forall b, uncached (u_cache u') b).
Proof.
  intros Hch. destruct (flush_loop_ok CACHE_SIZE 0 inv 0 s u di df D eq_refl Hch)
    as (s' & u' & df' & HR & Hch' & Hfl & _).
  exists s', u', df'. split_and!; try done.
  - symmetry. eapply clean_eq; [apply Hch'|]. intros i k Hk. by apply (Hfl i k ltac:(lia) Hk).
  - intros Hinv b i k Hk Hu. destruct (Hfl i k ltac:(lia) Hk) as [_ Hf]. rewrite (Hf Hinv) in Hu. done.
Qed.

(** ** The loop of [unix_read_blk64] *)

(** Consecutive uncached blocks agree with the device. *)
Lemma uncached_run_agree cs c D b (n : nat) :
  cok cs c D -> 0 <= b -> b + Z.of_nat n <= nb ->
  (forall j, 0 <= j < Z.of_nat n -> uncached cs (b + j)) ->
  zslice (loc b) (Z.of_nat n * bs) c = zslice (loc b) (Z.of_nat n * bs) D.
Proof.
  intros Hc Hb Hn Hun. apply zslice_ext; [unfold loc; nia|]. intros x Hx.
  set (j := (Z.of_nat x - loc b) / bs).
  assert (Hj : 0 <= j < Z.of_nat n).
  { unfold j. split; [apply Z.div_pos; lia|]. apply Z.div_lt_upper_bound; lia. }
  assert (Hin : loc (b + j) <= Z.of_nat x < loc (b + j) + bs).
  { unfold loc in *. pose proof (Z.div_mod (Z.of_nat x - (b * bs + off)) bs ltac:(lia)) as Hdm.
    pose proof (Z.mod_pos_bound (Z.of_nat x - (b * bs + off)) bs ltac:(lia)). fold j in Hdm. nia. }
  apply (zslice_agree (loc (b + j)) bs); [unfold loc; nia| |done].
  apply (uncached_agree cs); [done|lia|by apply Hun].
Qed.

Lemma uncached_touch cs i k t b :
  cs !! i = Some k -> uncached cs b -> uncached (<[i := c_touch t k]> cs) b.
Proof. intros Hk Hun. apply uncached_insert; [done|]. intros Hu. by apply (Hun i k). Qed.

Lemma uncached_run_ok fuel : forall i count b reuse s u di df D,
  chan s u di df D -> 0 <= b -> 0 <= i <= count -> b + count <= nb ->
  length reuse = Z.to_nat i -> Forall (fun j => (j < CACHE_SIZE)%nat) reuse ->
  (forall j, 0 <= j < i -> uncached (u_cache u) (b + j)) ->
  exists i' reuse' u',
    uncached_run fuel i count b reuse u = (i', reuse', u') /\ chan s u' di df D /\
    i <= i' <= count /\ length reuse' = Z.to_nat i' /\
    Forall (fun j => (j < CACHE_SIZE)%nat) reuse' /\
    (forall j, 0 <= j < i' -> uncached (u_cache u') (b + j)).
Proof.
  induction fuel as [|fuel IH]; intros i count b reuse s u di df D Hch Hb Hi Hn Hl Hr Hun; cbn [uncached_run].
  { exists i, reuse, u. by split_and!; try done; lia. }
  case_decide as Hlt; [|exists i, reuse, u; by split_and!; try done; lia].
  assert (Hu64 : u64 (b + i) = b + i) by (apply u64_small; unfold in_u; pow2_norm; nia).
  rewrite Hu64.
  destruct (find_cached_spec u (b + i) (ck_len _ _ _ (ch_ck _ _ _ _ _ Hch)))
    as [(j & k & t & -> & Hk & _)|(j & k & -> & Hk & Hun')].
  - destruct (chan_hit s u di df D j k t Hch Hk) as [Hch' _].
    eexists i, reuse, _. split; [reflexivity|]. split_and!; try done; try lia.
    intros j' Hj'. rewrite cache_upd, (slot_lookup (set_atime t u) j k Hk).
    by apply (uncached_touch (u_cache u)), Hun.
  - destruct (IH (i + 1) count b (reuse ++ [j]) s u di df D) as (i' & r' & u' & ? & ? & ? & ? & ? & ?);
      try done; try lia; [..|exists i', r', u'; split_and!; done || lia].
    + rewrite length_app. cbn. lia.
    + apply Forall_app. split; [done|]. apply Forall_singleton. cbn.
      apply lookup_lt_Some in Hk. by rewrite (ck_len _ _ _ (ch_ck _ _ _ _ _ Hch)) in Hk.
    + intros j' Hj'. destruct (decide (j' = i)) as [->|]; [done|]. apply Hun. lia.
Qed.

Lemma save_blocks_ok reuse : forall b s u di df D,
  chan s u di df D -> 0 <= b -> b + Z.of_nat (length reuse) <= nb ->
  Forall (fun j => (j < CACHE_SIZE)%nat) reuse ->
  (forall j, 0 <= j < Z.of_nat (length reuse) -> uncached (u_cache u) (b + j)) ->
  exists s' u' df',
    save_blocks false werr reuse b (zslice (loc b) (Z.of_nat (length reuse) * bs) D) u s = Some (u', s') /\
    chan s' u' di df' D.
Proof.
  induction reuse as [|i reuse IH]; intros b s u di df D Hch Hb Hn Hr Hun; cbn [save_blocks].
  { by exists s, u, df. }
  apply Forall_cons in Hr as [Hi Hr]. pose proof Hch as [Hio Hc].
  destruct (lookup_lt_is_Some_2 (u_cache u) i) as [k Hk]; [by rewrite (ck_len _ _ _ Hc)|].
  assert (Hlt : (i < length (u_cache u))%nat) by by eapply lookup_lt_Some.
  cbn [length] in *.
  destruct (reuse_spec s u di df D i k b Hch Hk) as (s1 & u1 & df1 & t & HR & Hi1 & Hcs & Hc1).
  rewrite (bind_some _ _ _ _ _ HR). rewrite (io_bs _ _ _ _ Hi1).
  assert (Hunb : uncached (u_cache u) b) by (rewrite <- (Z.add_0_r b); apply Hun; lia).
  pose proof (ck_buf _ _ _ Hc i k Hk) as Hkl.
  pose proof (cok_fill _ _ _ i k b t Hc1 Hk Hkl ltac:(lia) Hunb) as Hc2.
  assert (Hsz : nb * bs + off <= zlen D) by (rewrite (ck_size _ _ _ Hc); apply Hc).
  destruct (zslice_app (loc b) bs (Z.of_nat (length reuse) * bs) D) as [Ht Hd];
    [unfold loc; nia|lia|lia|unfold loc; nia|].
  replace (bs + Z.of_nat (length reuse) * bs) with (Z.of_nat (S (length reuse)) * bs) in Ht, Hd by lia.
  rewrite Ht, Hd. replace (loc b + bs) with (loc (b + 1)) by (unfold loc; lia).
  assert (Hb1 : u64 (b + 1) = b + 1) by (apply u64_small; unfold in_u; pow2_norm; nia).
  rewrite Hb1.
  assert (Hk1 : u_cache u1 !! i = Some (mkCache (c_buf k) b t false true))
    by (rewrite Hcs; by apply list_lookup_insert_eq).
  assert (Hcs2 : u_cache (upd_slot i (c_fill (zslice (loc b) bs D)) u1)
                 = <[i := mkCache (zslice (loc b) bs D) b t false true]> (u_cache u)).
  { rewrite cache_upd, (slot_lookup _ _ _ Hk1), Hcs. by rewrite list_insert_insert_eq. }
  apply (IH (b + 1) s1 (upd_slot i (c_fill (zslice (loc b) bs D)) u1) di df1 D); [|lia|lia|done|].
  - split; [by apply io_upd|]. by rewrite Hcs2.
  - intros j Hj. rewrite Hcs2. apply uncached_insert; [|cbn; lia].
    replace (b + 1 + j) with (b + (1 + j)) by lia. apply Hun. lia.
Qed.

Lemma read_loop_ok fuel : forall b count acc s u di df D,
  chan s u di df D -> 0 <= b -> 0 <= count < 2 ^ 15 -> count <= Z.of_nat fuel -> b + count <= nb ->
  exists s' u' df',
    read_loop false rerr werr fuel b count acc u s
    = Some ((0, acc ++ zslice (loc b) (count * bs) D, u'), s') /\ chan s' u' di df' D.
Proof.
  induction fuel as [|fuel IH]; intros b count acc s u di df D Hch Hb Hc0 Hf Hn; cbn [read_loop].
  { assert (count = 0) as -> by lia. rewrite Z.mul_0_l, zslice_0, app_nil_r. by exists s, u, df. }
  case_decide as Hpos.
  2:{ assert (count = 0) as -> by lia. rewrite Z.mul_0_l, zslice_0, app_nil_r. by exists s, u, df. }
  pose proof Hch as [Hio Hck].
  assert (Hsz : nb * bs + off <= zlen D) by (rewrite (ck_size _ _ _ Hck); apply Hck).
  assert (Hlocb : 0 <= loc b) by (unfold loc; nia).
  destruct (find_cached_spec u b (ck_len _ _ _ Hck)) as [(i & k & t & -> & Hk & Hu & Hkb)|(i & k & -> & Hk & Hun)].
  - destruct (chan_hit s u di df D i k t Hch Hk) as [Hch1 Hk1].
    rewrite (slot_lookup _ _ _ Hk1). cbn [c_touch c_buf].
    destruct (ck_used _ _ _ Hck i k Hk Hu) as (_ & HD & _). rewrite Hkb in HD.
    rewrite (io_bs _ _ _ _ (ch_io _ _ _ _ _ Hch1)), take_zlen by (rewrite (ck_buf _ _ _ Hck i k Hk); lia).
    assert (Hb1 : u64 (b + 1) = b + 1) by (apply u64_small; unfold in_u; pow2_norm; nia).
    rewrite Hb1.
    destruct (IH (b + 1) (count - 1) (acc ++ c_buf k) s _ di df D Hch1) as (s2 & u2 & df2 & -> & Hch2); [lia..|].
    exists s2, u2, df2. split; [|done]. rewrite <- app_assoc, <- HD. do 5 f_equal.
    replace (count * bs) with (bs + (count - 1) * bs) by lia. rewrite zslice_split by nia.
    by replace (loc (b + 1)) with (loc b + bs) by (unfold loc; lia).
  - cbn [default from_option id]. case_decide as Hone.
    + subst count. destruct (reuse_spec s u di df D i k b Hch Hk) as (s1 & u1 & df1 & t & HR & Hi1 & Hcs & Hc1).
      rewrite (bind_some _ _ _ _ _ HR).
      assert (Hlt : (i < length (u_cache u))%nat) by by eapply lookup_lt_Some.
      pose proof (ck_buf _ _ _ Hck i k Hk) as Hkl.
      assert (Hk1 : u_cache u1 !! i = Some (mkCache (c_buf k) b t false true))
        by (rewrite Hcs; by apply list_lookup_insert_eq).
      rewrite (slot_lookup _ _ _ Hk1). cbn [c_buf].
      destruct (raw_read_ok s1 u1 di df1 b 1 (c_buf k) Hi1) as (u2 & HR2 & Hcs2 & _ & Hi2);
        [lia|lia|lia|lia|apply Hc1|].
      rewrite (bind_some _ _ _ _ _ HR2). rewrite decide_False by lia.
      assert (Hag : zslice (loc b) (1 * bs) (f_cur df1) = zslice (loc b) (1 * bs) D).
      { rewrite Z.mul_1_l. eapply uncached_agree; [exact Hc1|lia|]. by apply uncached_insert. }
      rewrite Hag, Z.mul_1_l. rewrite (take_zlen (zslice (loc b) bs D)).
      2:{ cbn. rewrite (io_bs _ _ _ _ Hi2), zlen_zslice; [lia|lia|lia|unfold loc; nia]. }
      eexists s1, _, df1. split; [reflexivity|]. split; [by apply io_upd|].
      assert (Hk2 : u_cache u2 !! i = Some (mkCache (c_buf k) b t false true)) by by rewrite Hcs2.
      rewrite cache_upd, (slot_lookup _ _ _ Hk2), Hcs2, Hcs, list_insert_insert_eq.
      apply (cok_fill _ _ _ i k b t Hc1 Hk Hkl); [lia|done].
    + destruct (uncached_run_ok (Z.to_nat count) 1 count b [i] s u di df D Hch)
        as (n & reuse & u1 & -> & Hch1 & Hn1 & Hl1 & Hr1 & Hun1); try done; try lia.
      { apply Forall_singleton. apply lookup_lt_Some in Hk. by rewrite (ck_len _ _ _ Hck) in Hk. }
      { intros j Hj. replace (b + j) with b by lia. done. }
      destruct (raw_read_ok s u1 di df b n (replicate (Z.to_nat (n * u_block_size u1)) 0)
                  (ch_io _ _ _ _ _ Hch1)) as (u2 & HR2 & Hcs2 & _ & Hi2); [lia|lia|lia| |apply Hch1|].
      { unfold zlen. rewrite length_replicate, (io_bs _ _ _ _ (ch_io _ _ _ _ _ Hch1)). nia. }
      rewrite (bind_some _ _ _ _ _ HR2). rewrite decide_False by lia.
      assert (Hch2 : chan s u2 di df D) by (split; [done|rewrite Hcs2; apply Hch1]).
      assert (Hln : Z.of_nat (length reuse) = n) by lia.
      assert (Hag : zslice (loc b) (n * bs) (f_cur df) = zslice (loc b) (n * bs) D).
      { rewrite <- Hln. eapply uncached_run_agree; [apply Hch1|lia|lia|]. intros j Hj. apply Hun1. lia. }
      destruct (save_blocks_ok reuse b s u2 di df D Hch2) as (s3 & u3 & df3 & HR3 & Hch3); [lia|lia|done| |].
      { intros j Hj. rewrite Hcs2. apply Hun1. lia. }
      rewrite Hln in HR3. rewrite Hag, (bind_some _ _ _ _ _ HR3).
      assert (Hbn : u64 (b + n) = b + n) by (apply u64_small; unfold in_u; pow2_norm; nia).
      rewrite Hbn.
      destruct (IH (b + n) (count - n) (acc ++ zslice (loc b) (n * bs) D) s3 u3 di df3 D Hch3)
        as (s4 & u4 & df4 & -> & Hch4); [lia..|].
      exists s4, u4, df4. split; [|done]. rewrite <- app_assoc. do 5 f_equal.
      replace (count * bs) with (n * bs + (count - n) * bs) by lia. rewrite zslice_split by nia.
      by replace (loc (b + n)) with (loc b + n * bs) by (unfold loc; lia).
Qed.

(** * The operations of the channel *)

Lemma cok_no_cache cs c D c' :
  cok cs c D -> (forall b, uncached cs b) -> zlen c <= zlen c' -> cok cs c' c'.
Proof.
  intros [] Hun Hz. split; try done; [lia|].
  intros i k Hk Hu. by destruct (Hun (c_block k) i k Hk Hu).
Qed.

Lemma read_direct s u di df D b count sz :
  chan s u di df D -> (count < 0 \/ count > WRITE_DIRECT_SIZE) -> xfer_size u count = sz ->
  0 <= sz -> 0 <= loc b < 2 ^ 63 -> loc b + sz <= zlen D ->
  exists s' u' df',
    unix_read_blk64 false rerr werr b count u s = Some ((0, zslice (loc b) sz D, u'), s') /\
    chan s' u' di df' D.
Proof.
  intros Hch Hc Hsz Hpos Hb Hl. unfold unix_read_blk64. rewrite decide_True by done.
  destruct (flush_ok false s u di df D Hch) as (s1 & u1 & df1 & HR1 & Hch1 & HD1 & _).
  rewrite (bind_some _ _ _ _ _ HR1). rewrite decide_False by lia.
  assert (Hsz1 : xfer_size u1 count = sz).
  { rewrite <- Hsz. unfold xfer_size.
    by rewrite (io_bs _ _ _ _ (ch_io _ _ _ _ _ Hch1)), (io_bs _ _ _ _ (ch_io _ _ _ _ _ Hch)). }
  destruct (raw_read_size s1 u1 di df1 b count sz (replicate (Z.to_nat (xfer_size u1 count)) 0)
              (ch_io _ _ _ _ _ Hch1) Hb Hsz1 Hpos) as (u2 & HR2 & Hcs2 & _ & Hi2).
  { unfold zlen. rewrite length_replicate, Hsz1. lia. }
  { by rewrite HD1. }
  rewrite HR2, HD1. exists s1, u2, df1. split; [done|]. split; [done|]. rewrite Hcs2. apply Hch1.
Qed.

Lemma write_direct s u di df D b count sz buf :
  chan s u di df D -> (count < 0 \/ count > WRITE_DIRECT_SIZE) -> xfer_size u count = sz ->
  zlen buf = sz -> 0 <= loc b < 2 ^ 63 ->
  exists s' u' df',
    unix_write_blk64 false werr b count buf u s = Some ((0, u'), s') /\
    chan s' u' di df' (zsplice (loc b) buf D).
Proof.
  intros Hch Hc Hsz Hl Hb. unfold unix_write_blk64. rewrite decide_True by done.
  destruct (flush_ok true s u di df D Hch) as (s1 & u1 & df1 & HR1 & Hch1 & HD1 & Hun1).
  rewrite (bind_some _ _ _ _ _ HR1). rewrite decide_False by lia.
  destruct (raw_write_size s1 u1 di df1 b count sz buf (ch_io _ _ _ _ _ Hch1) Hb) as (u2 & HR2 & Hcs2 & _ & Hi2);
    [|done|].
  { rewrite decide_False by (unfold WRITE_DIRECT_SIZE in Hc; lia). rewrite <- Hsz. unfold xfer_size.
    by rewrite (io_bs _ _ _ _ (ch_io _ _ _ _ _ Hch1)), (io_bs _ _ _ _ (ch_io _ _ _ _ _ Hch)). }
  rewrite HR2. eexists _, u2, _. split; [reflexivity|]. split; [exact Hi2|].
  rewrite Hcs2, f_cur_pwrite_z, HD1 by lia.
  eapply cok_no_cache; [apply Hch1|by apply Hun1|]. rewrite zlen_splice, HD1 by lia. lia.
Qed.

(** * Theorems *)

Lemma unix_read_ok s u di df D b count :
  chan s u di df D -> 0 <= b -> 0 <= count < 2 ^ 15 -> b + count <= nb ->
  exists s' u' df',
    unix_read_blk64 false rerr werr b count u s
    = Some ((0, zslice (loc b) (count * bs) D, u'), s') /\ chan s' u' di df' D.
Proof.
  intros Hch Hb Hc Hn.
  destruct (decide (count > WRITE_DIRECT_SIZE)) as [Hd|Hd].
  - pose proof (ch_ck _ _ _ _ _ Hch) as Hck. pose proof (ck_size _ _ _ Hck). pose proof (ck_dev _ _ _ Hck).
    eapply read_direct; [done|by right|eapply xfer_blocks; [apply Hch|lia]|nia|unfold loc; nia|unfold loc; nia].
  - unfold unix_read_blk64. rewrite decide_False by lia. apply (read_loop_ok (Z.to_nat count) b count [] s u di df D); done || lia.
Qed.

(** C9: with redo mode off, no I/O fault, no alignment requirement, no bounce buffer and no
    write-through ([chan]), reading [count] blocks inside the device through the cache delivers exactly
    the bytes of the logical device (the device overlaid with the cached blocks), whatever mix
    of cached, dirty and uncached blocks there is, on the cached path as on the direct one, and
    changes nothing of it.  (In redo mode reads can be stale: [UnixIoLimits.redo_stale_read].) *)
Theorem unix_read_correct s u di df D b count :
  chan s u di df D -> 0 <= b -> 0 <= count < 2 ^ 15 -> b + count <= nb ->
  exists s' u' df',
    unix_read_blk64 false rerr werr b count u s
    = Some ((0, zslice (loc b) (count * bs) D, u'), s') /\ chan s' u' di df' D.
Proof. apply unix_read_ok. Qed.

Lemma unix_write_ok s u di df D b count buf :
  chan s u di df D -> 0 <= b -> 0 <= count < 2 ^ 15 -> b + count <= nb -> 0 < nb ->
  zlen buf = count * bs ->
  exists s' u' df',
    unix_write_blk64 false werr b count buf u s = Some ((0, u'), s') /\
    chan s' u' di df' (zsplice (loc b) buf D).
Proof.
  intros Hch Hb Hc Hn Hnb0 Hl.
  destruct (decide (count > WRITE_DIRECT_SIZE)) as [Hd|Hd].
  - eapply write_direct; [done|by right|eapply xfer_blocks; [apply Hch|lia]|done|].
    unfold WRITE_DIRECT_SIZE in Hd. unfold loc. nia.
  - unfold unix_write_blk64. rewrite decide_False by lia. rewrite (io_wt _ _ _ _ (ch_io _ _ _ _ _ Hch)).
    rewrite mret_bind_M.
    destruct (write_loop_ok (Z.to_nat count) b buf s u di df D Hch) as (s1 & u1 & df1 & HR & Hch1); [lia..|].
    rewrite (bind_some _ _ _ _ _ HR). by exists s1, u1, df1.
Qed.

(** C10: with redo mode off, no I/O fault, no alignment requirement, no bounce buffer and no
    write-through ([chan]), writing [count] blocks inside the device through the cache updates the
    logical device in exactly those blocks and returns 0, whichever blocks it evicts on the way.
    (With faults an evicted block can be lost: [UnixIoLimits.eviction_error_lost].) *)
Theorem unix_write_correct s u di df D b count buf :
  chan s u di df D -> 0 <= b -> 0 <= count < 2 ^ 15 -> b + count <= nb -> 0 < nb ->
  zlen buf = count * bs ->
  exists s' u' df',
    unix_write_blk64 false werr b count buf u s = Some ((0, u'), s') /\
    chan s' u' di df' (zsplice (loc b) buf D).
Proof. apply unix_write_ok. Qed.

Lemma unix_flush_ok s u di df D :
  chan s u di df D ->
  exists s' u' df',
    unix_flush false werr u s = Some ((0, u'), s') /\ chan s' u' di df' D /\
    f_synced df' = D /\ f_pending df' = [].
Proof.
  intros Hch. unfold unix_flush.
  destruct (flush_ok false s u di df D Hch) as (s1 & u1 & df1 & HR1 & [Hi1 Hc1] & HD1 & _).
  rewrite (bind_some _ _ _ _ _ HR1). rewrite decide_False by lia.
  unfold mbind, M_bind, sys. rewrite (fsync_full _ _ di df1) by apply Hi1.
  rewrite decide_False by lia. eexists _, u1, (f_fsync df1). split; [reflexivity|]. split_and!; try done.
  split; [|by rewrite f_cur_fsync]. eapply (io_set_file s1 u1 di df1 (f_fsync df1)) in Hi1. exact Hi1.
Qed.

(** ** Flushing when I/O may fail *)

(** The channel with any planned outcomes of the system calls. *)
Record fchan (s : st) (u : uio) (di : Z) (df : file) (D : list Z) : Prop := {
  fc_bs : u_block_size u = bs;
  fc_off : u_offset u = off;
  fc_align : u_align u = 0;
  fc_bounce : u_force_bounce u = false;
  fc_wt : u_writethrough u = false;
  fc_fd : os_fds (st_os s) !! u_dev u = Some di;
  fc_file : os_files (st_os s) !! di = Some df;
  fc_ck : cok (u_cache u) (f_cur df) D
}.

(** The device changed in nothing but the [n] bytes at [l]. *)
Definition scribbled (l n : Z) (c c' : list Z) : Prop :=
  zlen c' = zlen c /\ forall x : nat, ~ (l <= Z.of_nat x < l + n) -> c' !! x = c !! x.

Lemma scribbled_trans l n c1 c2 c3 : scribbled l n c1 c2 -> scribbled l n c2 c3 -> scribbled l n c1 c3.
Proof. intros [H1 H2] [H3 H4]. split; [congruence|]. intros x Hx. by rewrite H4, H2. Qed.

Lemma scribbled_splice l n d c :
  0 <= l -> zlen d <= n -> l + n <= zlen c -> scribbled l n c (zsplice l d c).
Proof.
  intros Hl Hd Hc. pose proof (zlen_nonneg d). split; [rewrite zlen_splice by lia; lia|].
  intros x Hx. apply lookup_zsplice_out; lia.
Qed.

(** Writing the bytes again makes up for it. *)
Lemma scribbled_rewrite l d c c' :
  0 <= l -> l + zlen d <= zlen c -> scribbled l (zlen d) c c' -> zsplice l d c' = zsplice l d c.
Proof.
  intros Hl Hin [Hz Hs]. apply list_eq. intros x.
  destruct (decide (l <= Z.of_nat x < l + zlen d)) as [Hx|Hx].
  - apply (zslice_agree l (zlen d)); [done| |done]. by rewrite !zslice_zsplice_eq.
  - rewrite !lookup_zsplice_out by lia. by apply Hs.
Qed.

(** Damage to the place of a dirty block is invisible through the cache. *)
Lemma cok_scribble cs c c' D i k :
  cok cs c D -> cs !! i = Some k -> c_in_use k = true -> c_dirty k = true ->
  scribbled (loc (c_block k)) bs c c' -> cok cs c' D.
Proof.
  intros [] Hk Hu Hd [Hz Hs]. split; try done; [congruence|lia| |].
  - intros j k' Hj Hu'. destruct (ck_used0 j k' Hj Hu') as (Hb & HD & HC). split_and!; [lia|lia|done|].
    intros Hcl. rewrite <- (HC Hcl). apply zslice_ext; [apply loc_range; lia|].
    intros x Hx. apply Hs. assert (Hne : c_block k' <> c_block k).
    { intros E. pose proof (ck_dist0 j i k' k Hj Hk Hu' Hu E) as ->. congruence. }
    pose proof (loc_disjoint _ _ Hne). lia.
  - intros x Hx. rewrite Hs; [by apply ck_rest0|]. by apply (Hx i k).
Qed.

(** [pwrite] with any outcome: -1 and nothing, or the bytes up to some length. *)
Lemma pwrite_any o fd di df buf l :
  os_fds o !! fd = Some di -> os_files o !! di = Some df -> 0 <= l < 2 ^ 63 ->
  l + zlen buf <= zlen (f_cur df) ->
  exists n o' df', pwrite fd buf l o = (n, o') /\ os_fds o' = os_fds o /\ os_pos o' = os_pos o /\
    os_files o' !! di = Some df' /\ scribbled l (zlen buf) (f_cur df) (f_cur df') /\
    (n = zlen buf -> f_cur df' = zsplice l buf (f_cur df)) /\
    (os_plan o = [] -> n = zlen buf /\ os_plan o' = []).
Proof.
  intros Hfd Hf Hl Hin. unfold pwrite. pose proof (zlen_nonneg buf).
  assert (Hno : exists x o1, next_outcome o = (x, o1) /\ os_fds o1 = os_fds o /\ os_files o1 = os_files o /\
                  os_pos o1 = os_pos o /\ (os_plan o = [] -> x = IoFull /\ os_plan o1 = [])).
  { unfold next_outcome. destruct (os_plan o) as [|x p] eqn:Hp; eexists _, _; by split_and!. }
  destruct Hno as (x & o1 & -> & E1 & E2 & E3 & E4). unfold fd_file. rewrite E1, Hfd. cbn [mbind option_bind].
  rewrite E2, Hf. cbn [mbind option_bind]. rewrite s64_pos by lia. rewrite decide_False by lia.
  assert (Hfull : forall m, let d := take m buf in
    scribbled l (zlen buf) (f_cur df) (f_cur (f_pwrite (Z.to_nat l) d df)) /\
    (Z.of_nat (length d) = zlen buf -> f_cur (f_pwrite (Z.to_nat l) d df) = zsplice l buf (f_cur df))).
  { intros m d. rewrite f_cur_pwrite_z by lia.
    assert (zlen d <= zlen buf) by (unfold d, zlen; rewrite length_take; lia). split.
    - apply scribbled_splice; lia.
    - intros Hd. f_equal. unfold d, zlen in *. rewrite length_take in Hd. apply take_ge. lia. }
  destruct x as [|m|].
  - destruct (Hfull (length buf)) as [H1 H2]. rewrite firstn_all in H1, H2.
    eexists _, _, _. split; [reflexivity|]. cbn. rewrite lookup_insert_eq. split_and!; try done.
    intros Hp. by destruct (E4 Hp).
  - destruct (Hfull m) as [H1 H2].
    eexists _, _, _. split; [reflexivity|]. cbn. rewrite lookup_insert_eq. split_and!; try done.
    intros Hp. by destruct (E4 Hp).
  - eexists _, _, df. split; [reflexivity|]. rewrite E2. split_and!; try done; [lia|].
    intros Hp. by destruct (E4 Hp).
Qed.

(** The write-back of one block, with any outcome of its system calls: a result of 0 means
    that the block is on the device. *)
Lemma raw_write_any s u di df D i k :
  fchan s u di df D -> u_cache u !! i = Some k -> c_in_use k = true ->
  exists r s' u' df',
    raw_write_blk false None u (c_block k) 1 (c_buf k) true [] s = Some ((r, u'), s') /\
    u_block_size u' = u_block_size u /\ u_offset u' = u_offset u /\ u_align u' = u_align u /\
    u_force_bounce u' = u_force_bounce u /\ u_writethrough u' = u_writethrough u /\
    u_dev u' = u_dev u /\ u_cache u' = u_cache u /\
    os_fds (st_os s') = os_fds (st_os s) /\ os_files (st_os s') !! di = Some df' /\
    scribbled (loc (c_block k)) bs (f_cur df) (f_cur df') /\
    (r = 0 -> f_cur df' = zsplice (loc (c_block k)) (c_buf k) (f_cur df)) /\
    (os_plan (st_os s) = [] -> r = 0 /\ os_plan (st_os s') = []).
Proof.
  intros [F1 F2 F3 F4 F5 F6 F7 Hc] Hk Hu. destruct (ck_used _ _ _ Hc i k Hk Hu) as (Hb & _ & _).
  destruct (loc_range _ Hb) as [R1 R2]. pose proof (ck_buf _ _ _ Hc i k Hk) as Hl.
  pose proof (ck_dev _ _ _ Hc) as Hdev.
  unfold raw_write_blk. rewrite decide_True by done. cbv zeta. set (u1 := set_stats _ _ u).
  assert (Hloc : location u1 (c_block k) = loc (c_block k)).
  { unfold location. cbn. rewrite F1, F2. by apply s64_pos; unfold loc in *; lia. }
  rewrite Hloc. change (u_force_bounce u1) with (u_force_bounce u). rewrite F4.
  change (u_align u1) with (u_align u). rewrite F3, bool_decide_eq_true_2 by done. cbn [orb andb].
  rewrite F1, take_zlen by lia. unfold mbind at 1, M_bind at 1, sys at 1.
  destruct (pwrite_any (st_os s) (u_dev u) di df (c_buf k) (loc (c_block k)) F6 F7 ltac:(lia) ltac:(lia))
    as (n1 & o1 & df1 & HP1 & E1 & _ & H1 & HS1 & HF1 & HN1). rewrite Hl in HS1, HF1, HN1.
  change (u_dev u1) with (u_dev u). rewrite HP1.
  destruct (decide (true = true /\ n1 = bs)) as [[_ Hn]|Hn].
  { eexists _, _, u1, df1. split; [reflexivity|]. split_and!; auto. intros Hp. by destruct (HN1 Hp). }
  assert (HN : os_plan (st_os s) = [] -> False) by (intros Hp; by destruct (HN1 Hp); apply Hn).
  unfold mbind at 1, M_bind at 1, sys at 1. cbn [st_os].
  unfold lseek. destruct (next_outcome o1) as [x o2] eqn:Ho2.
  assert (E2 : os_fds o2 = os_fds o1 /\ os_files o2 = os_files o1).
  { unfold next_outcome in Ho2. destruct (os_plan o1); by injection Ho2 as <- <-. }
  destruct E2 as [E2 E2'].
  unfold fd_file. rewrite E2, E1, F6. cbn [mbind option_bind]. rewrite E2', H1. cbn [mbind option_bind].
  destruct x as [|m|].
  - rewrite s64_pos by lia. rewrite decide_False by lia. rewrite (decide_False (P := loc (c_block k) <> loc (c_block k))) by lia.
    unfold mbind at 1, M_bind at 1, sys at 1, sys_write. cbn [st_os].
    set (o3 := mkOs _ _ _ _ _ _).
    assert (Hp : fd_pos o3 (u_dev u) = loc (c_block k)) by (unfold fd_pos, o3; cbn; by rewrite lookup_insert_eq).
    rewrite Hp.
    assert (Hz1 : zlen (f_cur df1) = zlen (f_cur df)) by apply HS1.
    destruct (pwrite_any o3 (u_dev u) di df1 (c_buf k) (loc (c_block k)))
      as (n2 & o4 & df2 & HP2 & E4 & _ & H4 & HS2 & HF2 & _); [cbn; congruence|cbn; congruence|lia|lia|].
    rewrite Hl in HS2, HF2. rewrite HP2.
    assert (Hres : scribbled (loc (c_block k)) bs (f_cur df) (f_cur df2)) by by eapply scribbled_trans.
    assert (Hok : n2 = bs -> f_cur df2 = zsplice (loc (c_block k)) (c_buf k) (f_cur df)).
    { intros E. rewrite (HF2 E). apply scribbled_rewrite; [lia|lia|by rewrite Hl]. }
    destruct (decide (n2 < 0)) as [Hneg|Hneg].
    + rewrite decide_True by done. eexists _, _, u1, df2. split; [reflexivity|].
      split_and!; try done; try (cbn; congruence); by intros []%HN.
    + rewrite decide_False by done. destruct (decide (n2 <> bs)) as [Hne|He].
      * eexists _, _, u1, df2. split; [reflexivity|]. split_and!; try done; try (cbn; congruence); by intros []%HN.
      * eexists _, _, u1, df2. split; [reflexivity|]. split_and!; try done; try (cbn; congruence).
        intros _. apply Hok. lia.
  - rewrite (decide_True (P := -1 <> loc (c_block k))) by lia.
    eexists _, _, u1, df1. split; [reflexivity|]. split_and!; try done; try (cbn; congruence); by intros []%HN.
  - rewrite (decide_True (P := -1 <> loc (c_block k))) by lia.
    eexists _, _, u1, df1. split; [reflexivity|]. split_and!; try done; try (cbn; congruence); by intros []%HN.
Qed.

(** One slot of the flush: the logical device stays, and unless an error is reported the
    slot is clean. *)
Lemma flush_slot_any s u di df D i k r n :
  fchan s u di df D -> u_cache u !! i = Some k ->
  exists r' s' u' df' k',
    flush_loop false None (S n) i false r u s = flush_loop false None n (S i) false r' u' s' /\
    fchan s' u' di df' D /\ u_cache u' = <[i := k']> (u_cache u) /\ (r <> 0 -> r' <> 0) /\
    (r' = 0 -> c_in_use k' = true -> c_dirty k' = false) /\
    (os_plan (st_os s) = [] -> r' = r /\ os_plan (st_os s') = []).
Proof.
  intros Hch Hk. pose proof Hch as [F1 F2 F3 F4 F5 F6 F7 Hc]. cbn [flush_loop]. rewrite (slot_lookup _ _ _ Hk).
  destruct (c_in_use k) eqn:Hu; cbn [negb].
  2:{ exists r, s, u, df, k. rewrite list_insert_id by done. split_and!; try done. congruence. }
  destruct (c_dirty k) eqn:Hd; cbn [negb].
  2:{ exists r, s, u, df, k. by rewrite list_insert_id by done. }
  destruct (raw_write_any s u di df D i k Hch Hk Hu)
    as (rv & s1 & u1 & df1 & HR & G1 & G2 & G3 & G4 & G5 & G6 & G7 & G8 & G9 & HS & HF & HN).
  rewrite (bind_some _ _ _ _ _ HR). destruct (decide (rv <> 0)) as [Hne|Hz].
  - exists rv, s1, u1, df1, k. split; [done|]. rewrite list_insert_id by done. split_and!; try done.
    + split; try congruence. rewrite G7. by eapply cok_scribble.
    + intros [? _]%HN. done.
  - exists r, s1, (upd_slot i (c_set_dirty false) u1), df1, (c_set_dirty false k). split; [done|].
    assert (Hk1 : u_cache u1 !! i = Some k) by congruence.
    assert (Hcs : u_cache (upd_slot i (c_set_dirty false) u1) = <[i := c_set_dirty false k]> (u_cache u))
      by (rewrite cache_upd, (slot_lookup _ _ _ Hk1); congruence).
    split_and!; try done; [|intros [_ Hp]%HN; done]. split; cbn [upd_slot set_cache u_block_size u_offset u_align u_force_bounce u_writethrough u_dev];
      try congruence. rewrite Hcs, (HF ltac:(lia)). by apply cok_write_back.
Qed.

Lemma flush_loop_any n : forall i r s u di df D,
  (i + n = CACHE_SIZE)%nat -> fchan s u di df D ->
  exists r' s' u' df',
    flush_loop false None n i false r u s = Some ((r', u'), s') /\ fchan s' u' di df' D /\ (r <> 0 -> r' <> 0) /\
    (r' = 0 -> forall j k, (i <= j)%nat -> u_cache u' !! j = Some k -> c_in_use k = true -> c_dirty k = false) /\
    (forall j, (j < i)%nat -> u_cache u' !! j = u_cache u !! j) /\
    (os_plan (st_os s) = [] -> r' = r /\ os_plan (st_os s') = []).
Proof.
  induction n as [|n IH]; intros i r s u di df D Hn Hch.
  - exists r, s, u, df. split_and!; try done. intros _ j k Hj Hk. exfalso.
    apply lookup_lt_Some in Hk. rewrite (ck_len _ _ _ (fc_ck _ _ _ _ _ Hch)) in Hk. lia.
  - destruct (lookup_lt_is_Some_2 (u_cache u) i) as [k Hk].
    { rewrite (ck_len _ _ _ (fc_ck _ _ _ _ _ Hch)). lia. }
    destruct (flush_slot_any s u di df D i k r n Hch Hk) as (r1 & s1 & u1 & df1 & k1 & -> & Hch1 & Hcs1 & Hr1 & Hf1 & Hp1).
    destruct (IH (S i) r1 s1 u1 di df1 D ltac:(lia) Hch1) as (r2 & s2 & u2 & df2 & HR & Hch2 & Hr2 & Hlo & Hhi & Hp2).
    exists r2, s2, u2, df2. split_and!; try done; [by auto| | |].
    + intros Hz j k' Hj Hk'. destruct (decide (j = i)) as [->|Hne]; [|apply (Hlo Hz j); [lia|done]].
      rewrite Hhi, Hcs1, list_lookup_insert_eq in Hk' by (lia || by eapply lookup_lt_Some). simplify_eq.
      apply Hf1. destruct (decide (r1 = 0)) as [|Hx]; [done|]. by destruct (Hr2 Hx).
    + intros j Hj. rewrite Hhi, Hcs1 by lia. by rewrite list_lookup_insert_ne by lia.
    + intros [-> Hp]%Hp1. by apply Hp2.
Qed.

(** C11: [unix_flush] with redo mode off, without alignment or bounce buffer, without write-through
    and without an error handler, whatever the system calls do (any plan of failures and short
    writes): it returns; a result of 0 means that the device itself, durably, is the logical
    device (the device overlaid with the cached blocks), with no dirty block left behind; whatever the result, the
    logical device is kept, so that a failed flush loses nothing; and without faults the result
    is 0.  (A block that was evicted with an error before the flush is no longer part of the logical
    device: [UnixIoLimits.eviction_error_lost].) *)
Theorem unix_flush_correct s u di df D :
  fchan s u di df D ->
  exists r s' u' df',
    unix_flush false None u s = Some ((r, u'), s') /\ fchan s' u' di df' D /\
    (r = 0 -> f_synced df' = D /\ f_pending df' = [] /\
              forall i k, u_cache u' !! i = Some k -> c_in_use k = true -> c_dirty k = false) /\
    (os_plan (st_os s) = [] -> r = 0).
Proof using Hbs Hoff Hnb Hmax.
  intros Hch. unfold unix_flush.
  destruct (flush_loop_any CACHE_SIZE 0 0 s u di df D eq_refl Hch)
    as (r & s1 & u1 & df1 & HR & Hch1 & _ & Hcl & _ & Hpl).
  fold (flush_cached_blocks false None false u) in HR. rewrite (bind_some _ _ _ _ _ HR).
  destruct (decide (r <> 0)) as [Hne|Hz].
  { exists r, s1, u1, df1. split_and!; try done. by intros []%Hpl. }
  assert (r = 0) as -> by lia. specialize (Hcl eq_refl).
  pose proof Hch1 as [F1 F2 F3 F4 F5 F6 F7 Hc].
  pose proof (clean_eq _ _ _ Hc ltac:(intros i k; apply Hcl; lia)) as HD.
  unfold mbind, M_bind, sys, fsync. destruct (next_outcome (st_os s1)) as [x o2] eqn:Ho2.
  assert (E2 : os_fds o2 = os_fds (st_os s1) /\ os_files o2 = os_files (st_os s1) /\ (os_plan (st_os s1) = [] -> x = IoFull)).
  { unfold next_outcome in Ho2. destruct (os_plan (st_os s1)); by injection Ho2 as <- <-. }
  destruct E2 as (E2 & E3 & E4). unfold fd_file. rewrite E2, F6. cbn [mbind option_bind]. rewrite E3, F7.
  cbn [mbind option_bind].
  assert (Herr : x <> IoFull -> exists r s' u' df',
    ((if decide (-1 <> 0) then mret (EIO, u1) else mret (0, u1)) : M (Z * uio)) (mkSt o2 (st_rd s1)) = Some ((r, u'), s') /\
    fchan s' u' di df' D /\ (r = 0 -> False) /\ (os_plan (st_os s) = [] -> r = 0)).
  { intros Hx. exists EIO, (mkSt o2 (st_rd s1)), u1, df1. split_and!; [done| |done|].
    - split; try done; cbn; congruence.
    - intros [_ Hp]%Hpl. by apply E4 in Hp. }
  destruct x as [|m|].
  - rewrite decide_False by lia. eexists 0, _, u1, (f_fsync df1). split; [reflexivity|]. split_and!; try done.
    + split; try done; cbn; [congruence|]. by rewrite lookup_insert_eq.
    + intros _. split_and!; [done..|]. intros i k. apply Hcl. lia.
  - destruct (Herr ltac:(done)) as (r' & s' & u' & df' & H1 & H2 & H3 & H4). exists r', s', u', df'. split_and!; done.
  - destruct (Herr ltac:(done)) as (r' & s' & u' & df' & H1 & H2 & H3 & H4). exists r', s', u', df'. split_and!; done.
Qed.

(** [unix_write_byte] of a range inside the device updates exactly that range of the
    logical device. *)
Theorem unix_write_byte_correct s u di df D o sz buf :
  chan s u di df D -> 0 <= o -> 0 < sz -> zlen buf = sz -> o + off + sz <= zlen D -> zlen D < 2 ^ 63 ->
  exists s' u' df',
    unix_write_byte false werr o sz buf u s = Some ((0, u'), s') /\
    chan s' u' di df' (zsplice (o + off) buf D).
Proof.
  intros Hch Ho Hsz Hl Hin Hmx. unfold unix_write_byte.
  rewrite decide_False by (rewrite (io_align _ _ _ _ (ch_io _ _ _ _ _ Hch)); lia).
  destruct (flush_ok true s u di df D Hch) as (s1 & u1 & df1 & HR1 & [Hi1 Hc1] & HD1 & Hun1).
  rewrite (bind_some _ _ _ _ _ HR1). rewrite decide_False by lia.
  rewrite (io_off _ _ _ _ Hi1), s64_pos by lia.
  unfold mbind at 1, M_bind at 1, sys at 1, lseek. rewrite next_outcome_faultless by apply Hi1.
  unfold fd_file. rewrite (io_fd _ _ _ _ Hi1). cbn [mbind option_bind].
  rewrite (io_file _ _ _ _ Hi1). cbn [mbind option_bind]. rewrite s64_pos, decide_False, decide_False by lia.
  set (o2 := mkOs _ _ _ _ _ _).
  unfold mbind at 1, M_bind at 1, sys at 1, sys_write. cbn [st_os].
  assert (Hp : fd_pos o2 (u_dev u1) = o + off) by (unfold fd_pos, o2; cbn; by rewrite lookup_insert_eq).
  rewrite Hp, take_zlen by lia. rewrite (pwrite_full o2 _ di df1) by (done || lia || apply Hi1).
  pose proof (zlen_nonneg buf). rewrite decide_False by lia. rewrite decide_False, decide_False by lia.
  eexists _, u1, (f_pwrite (Z.to_nat (o + off)) buf df1). split; [reflexivity|]. split.
  - destruct Hi1. split; cbn; try done. by rewrite lookup_insert_eq.
  - rewrite f_cur_pwrite_z, HD1 by lia. eapply cok_no_cache; [exact Hc1|by apply Hun1|].
    rewrite zlen_splice, HD1 by lia. lia.
Qed.

End cache.
