(* ===== verification/UnixIoLimits.v ===== *)
(** The block cache where its contract breaks: with the redo log enabled, and on
    write errors; and the witnesses of the theorems of [UnixIoProofs]. *)
From Stdlib Require Import ZArith Lia.
From stdpp Require Import base tactics numbers list gmap strings.
From S2P Require Import Prelude Crc32c Os RedoLog RedoLayout RedoWriter RedoOps ExtErr UnixIo UnixIoProofs.
From S2P Require Import RedoReplay RedoSession RedoCrash E2fsck RedoTheorems.

#[local] Existing Instance ext2fs_checksum.

(** * A small device: 12 blocks of 4 bytes *)

Definition small_dev : file := mkFile (replicate 48 7) [].

Definition small_st (plan : list io_outcome) : st :=
  mkSt (mkOs (<["redo" := 1]> ∅) (<[0 := small_dev]> (<[1 := demo_log]> ∅))
             (<[3 := 0]> (<[4 := 1]> ∅)) plan [] ∅) (Some demo_rd).

Definition small_uio (bounce : bool) : uio :=
  alloc_cache (mkUio 4 0 false 3 bounce 0 0 [] 0 0).

Definition no_rerr : option (Z -> Z -> list Z -> Z -> Z -> Z -> M (Z * list Z)) := None.
Definition no_werr : option (Z -> Z -> list Z -> Z -> Z -> Z -> M Z) := None.

Lemma small_chan : chan 4 0 12 (small_st []) (small_uio false) 0 small_dev (replicate 48 7).
Proof.
  split; [by split|]. split; try done.
  - intros i k Hk. cbn in Hk. apply list_elem_of_lookup_2 in Hk.
    repeat (apply elem_of_cons in Hk as [->|Hk]; [done|]). by apply not_elem_of_nil in Hk.
  - intros i k Hk Hu. cbn in Hk. apply list_elem_of_lookup_2 in Hk.
    repeat (apply elem_of_cons in Hk as [->|Hk]; [done|]). by apply not_elem_of_nil in Hk.
  - intros i j k k' Hk _ Hu. cbn in Hk. apply list_elem_of_lookup_2 in Hk.
    repeat (apply elem_of_cons in Hk as [->|Hk]; [done|]). by apply not_elem_of_nil in Hk.
Qed.

(** One-block writes of the byte [10 + b] to the blocks [bs]; the last error code. *)
Fixpoint write_blocks (redo : bool) (bs : list Z) (u : uio) : M (Z * uio) :=
  match bs with
  | [] => mret (0, u)
  | b :: bs' =>
      r ← unix_write_blk64 redo no_werr b 1 (replicate 4 (10 + b)) u;
      if decide (r.1 <> 0) then mret r else write_blocks redo bs' r.2
  end.

Definition result {A} (r : option (A * st)) : option A := fst <$> r.

(** With the redo log enabled the channel does not read its own writes: writing nine
    blocks evicts the first one into the log, and reading it back delivers the old bytes of
    the device, with success. *)
Theorem redo_stale_read :
  result ((w ← write_blocks true (seqZ 0 9) (small_uio false);
           r ← unix_read_blk64 true no_rerr no_werr 0 1 w.2;
           mret (w.1, r.1.1, r.1.2)) (small_st []))
  = Some (0, 0, [7; 7; 7; 7]).
Proof. by vm_compute. Qed.

(** Without the log the same program reads back what it wrote. *)
Theorem plain_read_back :
  result ((w ← write_blocks false (seqZ 0 9) (small_uio false);
           r ← unix_read_blk64 false no_rerr no_werr 0 1 w.2;
           mret (w.1, r.1.1, r.1.2)) (small_st []))
  = Some (0, 0, [10; 10; 10; 10]).
Proof. by vm_compute. Qed.

(** The device after a program. *)
Definition dev_after {A} (r : option (A * st)) : option (A * list Z) :=
  '(x, s) ← r; f ← os_files (st_os s) !! 0; Some (x, f_cur f).

(** An I/O error on the write-back of an evicted block is swallowed: the ninth write and
    the flush report success, and the first block is neither cached nor on the device. *)
Theorem eviction_error_lost :
  dev_after ((w ← write_blocks false (seqZ 0 9) (small_uio false);
              r ← unix_flush false no_werr w.2;
              mret (w.1, r.1)) (small_st [IoFail; IoFail]))
  = Some ((0, 0), replicate 4 7 ++ concat ((fun b => replicate 4 (10 + b)) <$> seqZ 1 8)
                  ++ replicate 12 7).
Proof. by vm_compute. Qed.

(** A failed write-back during an invalidating flush drops the dirty block for good: the
    large write reports the error, but a later flush reports success and the block never
    reaches the device. *)
Theorem invalidate_error_lost :
  dev_after ((w ← write_blocks false [0] (small_uio false);
              d ← unix_write_blk64 false no_werr 6 5 (replicate 20 99) w.2;
              r ← unix_flush false no_werr d.2;
              mret (d.1, r.1)) (small_st [IoFail; IoFail]))
  = Some ((EIO, 0), replicate 48 7).
Proof. by vm_compute. Qed.

(** With [IO_FLAG_FORCE_BOUNCE] the raw writes bypass the redo log even when it is
    enabled: the device changes before the log is sealed, and nothing is logged. *)
Theorem bounce_bypasses_redo :
  dev_after ((r ← raw_write_blk true no_werr (small_uio true) 1 1 (replicate 4 9) true (replicate 4 0);
              d ← get_rd; mret (r.1, keys_in_block d)) (small_st []))
  = Some ((0, 0), replicate 4 7 ++ replicate 4 9 ++ replicate 40 7).
Proof. by vm_compute. Qed.

(** * Witnesses *)

Lemma unix_read_correct_witness :
  exists s' u' df',
    unix_read_blk64 false no_rerr no_werr 2 3 (small_uio false) (small_st [])
    = Some ((0, zslice (loc 4 0 2) (3 * 4) (replicate 48 7), u'), s') /\
    chan 4 0 12 s' u' 0 df' (replicate 48 7).
Proof.
  apply (unix_read_correct no_rerr no_werr 4 0 12 ltac:(done) ltac:(done) ltac:(done) ltac:(done)
           (small_st []) (small_uio false) 0 small_dev (replicate 48 7) 2 3 small_chan); lia.
Defined.

Lemma unix_write_correct_witness :
  exists s' u' df',
    unix_write_blk64 false no_werr 3 2 (replicate 8 1) (small_uio false) (small_st [])
    = Some ((0, u'), s') /\
    chan 4 0 12 s' u' 0 df' (zsplice (loc 4 0 3) (replicate 8 1) (replicate 48 7)).
Proof.
  apply (unix_write_correct no_werr 4 0 12 ltac:(done) ltac:(done) ltac:(done) ltac:(done)
           (small_st []) (small_uio false) 0 small_dev (replicate 48 7) 3 2 (replicate 8 1) small_chan);
    done || lia.
Defined.

(** The channel after two blocks were written to its cache, with the outcomes [plan] ahead. *)
Definition dirty_uio : uio :=
  match unix_write_blk64 false no_werr 3 2 (replicate 8 1) (small_uio false) (small_st []) with
  | Some ((_, u), _) => u
  | None => small_uio false
  end.
Definition dirty_dev : list Z := zsplice (loc 4 0 3) (replicate 8 1) (replicate 48 7).

Lemma dirty_fchan plan : fchan 4 0 12 (small_st plan) dirty_uio 0 small_dev dirty_dev.
Proof.
  destruct (unix_write_ok no_werr 4 0 12 ltac:(done) ltac:(done) ltac:(done) ltac:(done)
              (small_st []) (small_uio false) 0 small_dev (replicate 48 7) 3 2 (replicate 8 1) small_chan)
    as (s' & u' & df' & HR & [Hi Hc]); [done || lia..|].
  assert (Hu : u' = dirty_uio) by (unfold dirty_uio; by rewrite HR).
  assert (Hs : os_files (st_os s') = os_files (st_os (small_st []))).
  { vm_compute in HR. injection HR as _ <-. reflexivity. }
  assert (Hd : df' = small_dev).
  { pose proof (io_file _ _ _ _ _ _ Hi) as Hf. rewrite Hs in Hf. by vm_compute in Hf; injection Hf as <-. }
  subst u' df'. destruct Hi. by split.
Qed.

(** Two dirty blocks, and the first write to the device is cut short. *)
Lemma unix_flush_correct_witness :
  exists r s' u' df',
    unix_flush false None dirty_uio (small_st [IoShort 2]) = Some ((r, u'), s') /\
    fchan 4 0 12 s' u' 0 df' dirty_dev /\
    (r = 0 -> f_synced df' = dirty_dev /\ f_pending df' = [] /\
              forall i k, u_cache u' !! i = Some k -> c_in_use k = true -> c_dirty k = false) /\
    (os_plan (st_os (small_st [IoShort 2])) = [] -> r = 0).
Proof.
  exact (unix_flush_correct 4 0 12 ltac:(done) ltac:(done) ltac:(done) ltac:(done)
           (small_st [IoShort 2]) dirty_uio 0 small_dev dirty_dev (dirty_fchan _)).
Defined.

(** The short write is repeated and the flush succeeds; with a failing [fsync] it reports the
    error. *)
Example flush_runs :
  (fun r => r.1.1) <$> unix_flush false None dirty_uio (small_st [IoShort 2]) = Some 0 /\
  (fun r => r.1.1) <$> unix_flush false None dirty_uio (small_st [IoFull; IoFull; IoFail]) = Some EIO.
Proof. split; by vm_compute. Qed.

Lemma unix_write_byte_correct_witness :
  exists s' u' df',
    unix_write_byte false no_werr 5 2 [1; 2] (small_uio false) (small_st []) = Some ((0, u'), s') /\
    chan 4 0 12 s' u' 0 df' (zsplice (5 + 0) [1; 2] (replicate 48 7)).
Proof.
  apply (unix_write_byte_correct no_werr 4 0 12 ltac:(done) ltac:(done) ltac:(done) ltac:(done)
           (small_st []) (small_uio false) 0 small_dev (replicate 48 7) 5 2 [1; 2] small_chan); done || lia.
Defined.
