(* ===== verification/Region.v ===== *)
(** Allocation of disjoint address ranges: [rfsck-ext/e2fsck/region.c], which pass 1
    uses to check that the parts of an extended-attribute block do not overlap.

    The linked list is a list of [(start, end)] pairs; the pointer [last] is the
    index of the element it points to. *)
From Stdlib Require Import ZArith Lia.
From stdpp Require Import base tactics numbers list.
From S2P Require Import Prelude.

Record region := mkRegion {
  r_min : Z;
  r_max : Z;
  r_allocated : list (Z * Z);
  r_last : option nat
}.

(** [region_create] *)
Definition region_create (min max : Z) : region := mkRegion min max [] None.

(** Where the search of [region_allocate] ends: a conflict, an element that grows at
    its start or end, one that closes the gap to its successor, or the place of a
    new element. *)
Inductive spot :=
  | Conflict
  | GrowStart (i : nat)
  | GrowEnd (i : nat)
  | Merge (i : nat)
  | InsertAt (i : nat).

(** The [for] loop; [i] is the index of the head of [l]. *)
Fixpoint search (start end_ : Z) (i : nat) (l : list (Z * Z)) : spot :=
  match l with
  | [] => InsertAt i
  | (rs, re) :: l' =>
      if decide ((start >= rs /\ start < re) \/ (end_ > rs /\ end_ <= re) \/ (start <= rs /\ end_ >= re))
      then Conflict
      else if decide (end_ = rs) then GrowStart i
      else if decide (start = re) then
        match l' with
        | (ns, ne) :: _ =>
            if decide (end_ > ns) then Conflict
            else if decide (end_ = ns) then Merge i
            else GrowEnd i
        | [] => GrowEnd i
        end
      else if decide (start < rs) then InsertAt i
      else search start end_ (S i) l'
  end.

Definition el (l : list (Z * Z)) (i : nat) : Z * Z := l !!! i.

(** Insertion of an element before index [i]; [region->last] is set when it is the
    last one, and otherwise still points to the same element. *)
Definition insert_el (i : nat) (e : Z * Z) (r : region) : region :=
  let l := r_allocated r in
  mkRegion (r_min r) (r_max r) (take i l ++ e :: drop i l)
           (if decide (i = length l) then Some i
            else (fun j => if decide (i <= j)%nat then S j else j) <$> r_last r).

(** [region_allocate]; [mem] says whether [malloc] succeeds. *)
Definition region_allocate (mem : bool) (r : region) (start n : Z) : Z * region :=
  let l := r_allocated r in
  let end_ := u64 (start + n) in
  let upd i e := mkRegion (r_min r) (r_max r) (<[i := e]> l) (r_last r) in
  let add i := if mem then (0, insert_el i (start, end_) r) else (-1, r) in
  if decide (start < r_min r \/ end_ > r_max r) then (-1, r)
  else if decide (n = 0) then (1, r)
  else
    match r_last r with
    | Some k =>
        if decide ((el l k).2 = start /\ S k = length l) then (0, upd k ((el l k).1, end_))
        else if decide (start > (el l k).2 /\ S k = length l) then add (S k)
        else
          match search start end_ 0 l with
          | Conflict => (1, r)
          | GrowStart i => (0, upd i (start, (el l i).2))
          | GrowEnd i => (0, upd i ((el l i).1, end_))
          | Merge i =>
              (0, mkRegion (r_min r) (r_max r)
                    (take i l ++ ((el l i).1, (el l (S i)).2) :: drop (S (S i)) l)
                    (if decide (S (S i) = length l) then Some i
                     else (fun j => if decide (S i < j)%nat then pred j else j) <$> r_last r))
          | InsertAt i => add i
          end
    | None =>
        match search start end_ 0 l with
        | Conflict => (1, r)
        | GrowStart i => (0, upd i (start, (el l i).2))
        | GrowEnd i => (0, upd i ((el l i).1, end_))
        | Merge i =>
            (0, mkRegion (r_min r) (r_max r)
                  (take i l ++ ((el l i).1, (el l (S i)).2) :: drop (S (S i)) l)
                  (if decide (S (S i) = length l) then Some i else None))
        | InsertAt i => add i
        end
    end.

(** * Specification *)

(** Address [x] is allocated. *)
Definition covers (l : list (Z * Z)) (x : Z) : Prop := exists e, e ∈ l /\ e.1 <= x < e.2.

(** Sorted above [lo], with a gap between neighbours. *)
Fixpoint chain (lo : Z) (l : list (Z * Z)) : Prop :=
  match l with
  | [] => True
  | (s, e) :: l' => lo < s /\ s < e /\ chain e l'
  end.

Definition below (hi : Z) (l : list (Z * Z)) : Prop := Forall (fun e => e.2 <= hi) l.

Record region_wf (r : region) : Prop := {
  rw_min : 0 <= r_min r;
  rw_max : r_max r < 2 ^ 64;
  rw_chain : chain (r_min r - 1) (r_allocated r);
  rw_below : below (r_max r) (r_allocated r);
  rw_last : r_last r = match length (r_allocated r) with O => None | S k => Some k end
}.

(** * The list after an allocation *)

(** What the search does to the list, as one recursive function. *)
Fixpoint alloc (s e : Z) (l : list (Z * Z)) : option (list (Z * Z)) :=
  match l with
  | [] => Some [(s, e)]
  | (rs, re) :: l' =>
      if decide (s < re /\ rs < e) then None
      else if decide (e = rs) then Some ((s, re) :: l')
      else if decide (s = re) then
        match l' with
        | (ns, ne) :: l'' =>
            if decide (e > ns) then None
            else if decide (e = ns) then Some ((rs, ne) :: l'')
            else Some ((rs, e) :: l')
        | [] => Some [(rs, e)]
        end
      else if decide (s < rs) then Some ((s, e) :: l)
      else cons (rs, re) <$> alloc s e l'
  end.

(** The list that a spot describes. *)
Definition at_spot (s e : Z) (p : spot) (l : list (Z * Z)) : option (list (Z * Z)) :=
  match p with
  | Conflict => None
  | GrowStart i => Some (<[i := (s, (el l i).2)]> l)
  | GrowEnd i => Some (<[i := ((el l i).1, e)]> l)
  | Merge i => Some (take i l ++ ((el l i).1, (el l (S i)).2) :: drop (S (S i)) l)
  | InsertAt i => Some (take i l ++ (s, e) :: drop i l)
  end.

Definition shift (p : spot) : spot :=
  match p with
  | Conflict => Conflict | GrowStart i => GrowStart (S i) | GrowEnd i => GrowEnd (S i)
  | Merge i => Merge (S i) | InsertAt i => InsertAt (S i)
  end.

Lemma search_shift s e l : forall i, search s e (S i) l = shift (search s e i l).
Proof.
  induction l as [|[rs re] l IH]; intros i; cbn [search]; [done|]. rewrite IH.
  destruct l as [|[ns ne] l]; repeat case_decide; done.
Qed.

Lemma at_spot_shift s e p x l :
  at_spot s e (shift p) (x :: l) = cons x <$> at_spot s e p l.
Proof. by destruct p. Qed.

Lemma search_alloc s e l lo :
  s < e -> chain lo l -> at_spot s e (search s e 0 l) l = alloc s e l.
Proof.
  revert lo. induction l as [|[rs re] l IH]; intros lo Hse Hc; [done|].
  cbn in Hc. destruct Hc as (Hlo & Hre & Hc). cbn [search alloc].
  destruct (decide (s < re /\ rs < e)) as [Hov|Hov].
  - by rewrite decide_True by lia.
  - rewrite decide_False by lia. case_decide as E1; [by subst|]. case_decide as E2.
    + subst. destruct l as [|[ns ne] l]; [done|]. repeat case_decide; by subst.
    + case_decide; [done|]. rewrite search_shift, at_spot_shift. by rewrite (IH re).
Qed.

(** ** Properties of [alloc] *)

Lemma covers_nil x : ~ covers [] x.
Proof. intros (e & He & _). by apply not_elem_of_nil in He. Qed.

Lemma covers_cons s e l x : covers ((s, e) :: l) x <-> s <= x < e \/ covers l x.
Proof.
  split.
  - intros (y & Hy & Hx). apply elem_of_cons in Hy as [->|Hy]; [by left|right; by exists y].
  - intros [Hx|(y & Hy & Hx)]; [exists (s, e)|exists y]; split; rewrite ?elem_of_cons; auto.
Qed.

Lemma chain_weaken lo lo' l : chain lo l -> lo' <= lo -> chain lo' l.
Proof. destruct l as [|[s e] l]; cbn; [done|]. intros (? & ? & ?) ?. split_and!; [lia|done|done]. Qed.

Lemma chain_above lo l x : chain lo l -> covers l x -> lo < x.
Proof.
  revert lo. induction l as [|[s e] l IH]; intros lo; cbn; [by intros _ ?%covers_nil|].
  intros (H1 & H2 & H3) [Hx|Hx]%covers_cons; [lia|]. specialize (IH e H3 Hx). lia.
Qed.

(** [alloc] fails exactly on an overlap. *)
Lemma alloc_none s e l lo :
  s < e -> chain lo l -> alloc s e l = None <-> exists x, s <= x < e /\ covers l x.
Proof.
  revert lo. induction l as [|[rs re] l IH]; intros lo Hse Hc.
  { cbn. split; [done|]. by intros (x & _ & ?%covers_nil). }
  destruct Hc as (Hlo & Hre & Hc). cbn [alloc].
  destruct (decide (s < re /\ rs < e)) as [Hov|Hov].
  { split; [|done]. intros _. exists (Z.max s rs). rewrite covers_cons. lia. }
  assert (Hhead : forall x, s <= x < e -> ~ rs <= x < re) by lia.
  assert (Htail : forall x, s <= x < e -> covers ((rs, re) :: l) x <-> covers l x).
  { intros x Hx. rewrite covers_cons. specialize (Hhead x Hx). tauto. }
  case_decide as E1.
  { split; [done|]. intros (x & Hx & Hcv). rewrite Htail in Hcv by done.
    pose proof (chain_above _ _ _ Hc Hcv). lia. }
  case_decide as E2.
  { subst. destruct l as [|[ns ne] l].
    - split; [done|]. intros (x & Hx & Hcv). rewrite Htail in Hcv by done. by apply covers_nil in Hcv.
    - destruct Hc as (Hc1 & Hc2 & Hc3). case_decide as E3.
      + split; [|done]. intros _. exists ns. rewrite !covers_cons. lia.
      + assert (Hno : ~ exists x, re <= x < e /\ covers ((rs, re) :: (ns, ne) :: l) x).
        { intros (x & Hx & Hcv). rewrite Htail, covers_cons in Hcv by done.
          destruct Hcv as [Hcv|Hcv]; [lia|]. pose proof (chain_above _ _ _ Hc3 Hcv). lia. }
        case_decide; split; done. }
  case_decide as E3.
  { split; [done|]. intros (x & Hx & Hcv). rewrite Htail in Hcv by done.
    pose proof (chain_above _ _ _ Hc Hcv). lia. }
  rewrite fmap_None, (IH re) by done.
  split; intros (x & Hx & Hcv); exists x; (split; [done|]); [by rewrite Htail|by rewrite Htail in Hcv].
Qed.

(** A successful [alloc] adds exactly the new range, and keeps the chain. *)
Lemma alloc_some s e l l' lo :
  s < e -> lo < s -> chain lo l -> alloc s e l = Some l' ->
  chain lo l' /\ (forall x, covers l' x <-> covers l x \/ s <= x < e).
Proof.
  revert l' lo. induction l as [|[rs re] l IH]; intros l' lo Hse Hlos Hc Ha.
  { cbn in Ha. simplify_eq. split; [done|]. intros x. rewrite covers_cons. pose proof (covers_nil x). tauto. }
  destruct Hc as (Hlo & Hre & Hc). cbn [alloc] in Ha.
  case_decide as Hov; [done|]. case_decide as E1.
  { simplify_eq. split; [by split_and!; [|lia|]|]. intros x. rewrite !covers_cons. intuition lia. }
  case_decide as E2.
  { subst. destruct l as [|[ns ne] l].
    - simplify_eq. split; [split_and!; try done; lia|]. intros x. rewrite !covers_cons.
      pose proof (covers_nil x). intuition lia.
    - destruct Hc as (Hc1 & Hc2 & Hc3). case_decide as E3; [done|]. case_decide as E4; simplify_eq.
      + split; [split_and!; try done; lia|]. intros x. rewrite !covers_cons. intuition lia.
      + split; [cbn; split_and!; try done; lia|]. intros x. rewrite !covers_cons. intuition lia. }
  case_decide as E3.
  { simplify_eq. split; [cbn; split_and!; try done; lia|]. intros x. rewrite !covers_cons. intuition lia. }
  apply fmap_Some in Ha as (l1 & Ha & ->).
  destruct (IH l1 re) as [Hc1 Hcv1]; [done|lia|done|done|].
  split; [done|]. intros x. rewrite !covers_cons, Hcv1. tauto.
Qed.

(** ** The two shortcuts through [region->last] *)
Lemma alloc_last s e l0 ls le lo :
  s < e -> chain lo (l0 ++ [(ls, le)]) -> le <= s ->
  alloc s e (l0 ++ [(ls, le)])
  = Some (if decide (s = le) then l0 ++ [(ls, e)] else l0 ++ [(ls, le); (s, e)]).
Proof.
  revert lo. induction l0 as [|[rs re] l0 IH]; intros lo Hse Hc Hle; cbn [app alloc].
  - destruct Hc as (? & ? & _). rewrite decide_False, decide_False by lia.
    case_decide; [by subst|]. by rewrite decide_False by lia.
  - destruct Hc as (Hc1 & Hc2 & Hc3).
    assert (Hlast : re < le).
    { assert (Hcv : covers (l0 ++ [(ls, le)]) (le - 1)).
      { exists (ls, le). split; [apply elem_of_app; right; by apply list_elem_of_singleton|]. cbn.
        enough (ls < le) by lia. clear -Hc3. revert re Hc3.
        induction l0 as [|[a b] l0 IH]; intros re; cbn; [lia|]. intros (_ & _ & Hc). by eapply IH. }
      pose proof (chain_above _ _ _ Hc3 Hcv). lia. }
    rewrite !decide_False by lia. rewrite (IH re) by done. cbn. by case_decide.
Qed.

Lemma search_bounds s e l : forall i,
  match search s e i l with
  | Conflict => True
  | GrowStart j | GrowEnd j => (j < i + length l)%nat
  | Merge j => (S j < i + length l)%nat
  | InsertAt j => (j <= i + length l)%nat
  end.
Proof.
  induction l as [|[rs re] l IH]; intros i; cbn [search length]; [lia|].
  specialize (IH (S i)). destruct (search s e (S i) l) eqn:E;
    destruct l as [|[ns ne] l]; repeat case_decide; cbn in *; try done; lia.
Qed.

(** ** [region_allocate] through [alloc] *)

Definition last_of (l : list (Z * Z)) : option nat :=
  match length l with O => None | S k => Some k end.

(** The result of the code when the range lies inside the region. *)
Lemma region_allocate_alloc r start n :
  region_wf r -> r_min r <= start -> 0 < n -> start + n <= r_max r ->
  region_allocate true r start n
  = match alloc start (start + n) (r_allocated r) with
    | None => (1, r)
    | Some l' => (0, mkRegion (r_min r) (r_max r) l' (last_of l'))
    end.
Proof.
  intros [Hmin Hmax Hc Hb Hl] Hs Hn He. unfold region_allocate.
  assert (u64 (start + n) = start + n) as -> by (apply u64_small; unfold in_u; lia).
  rewrite decide_False, decide_False by lia. set (e := start + n) in *.
  pose proof (search_alloc start e (r_allocated r) _ ltac:(lia) Hc) as Hsp.
  pose proof (search_bounds start e (r_allocated r) 0) as Hbd.
  destruct r as [mn mx l la]. cbn [r_min r_max r_allocated r_last] in *. rewrite Hl.
  destruct (length l) as [|k] eqn:Hlen.
  - apply nil_length_inv in Hlen. subst l. cbn. done.
  - assert (Hk : l !! k = Some (el l k)) by (apply list_lookup_lookup_total_lt; lia).
    assert (Hsplit : l = take k l ++ [el l k]).
    { rewrite <- (take_ge l (S k)) at 1 by lia. by rewrite (take_S_r _ _ _ Hk). }
    destruct (el l k) as [ls le] eqn:Eel. cbn [fst snd].
    case_decide as E1.
    { destruct E1 as [E1 _]. rewrite Hsplit at 2. rewrite (alloc_last start e _ ls le (mn - 1)); [|lia|by rewrite <- Hsplit|lia].
      rewrite decide_True by lia. unfold last_of. rewrite length_app, length_take. cbn [length].
      replace (k `min` length l + 1)%nat with (S k) by lia. do 2 f_equal.
      rewrite Hsplit at 1. rewrite insert_app_r_alt by (rewrite length_take; lia).
      rewrite length_take. by replace (k - k `min` length l)%nat with 0%nat by lia. }
    case_decide as E2.
    { destruct E2 as [E2 _]. rewrite Hsplit at 2. rewrite (alloc_last start e _ ls le (mn - 1)); [|lia|by rewrite <- Hsplit|lia].
      rewrite decide_False by lia. unfold insert_el, last_of. cbn [r_min r_max r_allocated r_last].
      rewrite decide_True by lia. rewrite length_app, length_take. cbn [length].
      replace (k `min` length l + 2)%nat with (S (S k)) by lia. do 2 f_equal.
      rewrite take_ge, drop_ge by lia. rewrite Hsplit at 1. by rewrite <- app_assoc. }
    rewrite <- Hsp. destruct (search start e 0 l) as [|i|i|i|i]; cbn [at_spot] in *; [done|..].
    + unfold last_of. rewrite length_insert, Hlen. done.
    + unfold last_of. rewrite length_insert, Hlen. done.
    + unfold last_of. rewrite length_app, length_take. cbn [length]. rewrite length_drop.
      replace (i `min` length l + S (length l - S (S i)))%nat with k by lia.
      destruct k as [|k]; [lia|]. do 2 f_equal. case_decide.
      * f_equal. lia.
      * cbn. f_equal. by rewrite decide_True by lia.
    + unfold insert_el, last_of. cbn [r_min r_max r_allocated r_last].
      rewrite length_app, length_take. cbn [length]. rewrite length_drop.
      replace (i `min` length l + S (length l - i))%nat with (S (S k)) by lia.
      do 2 f_equal. case_decide; [f_equal; lia|]. cbn. f_equal. by rewrite decide_True by lia.
Qed.

(** C38: [region_allocate] of a non-empty range: -1 outside the region, 1 exactly when some
    address of the range is already allocated, and otherwise 0, with exactly the new range
    added; the region stays well formed (sorted, disjoint, merged with its neighbours, the
    [last] pointer at the last element), and is unchanged whenever the result is not 0. *)
Theorem region_allocate_spec r start n :
  region_wf r -> 0 <= start -> 0 < n -> start + n < 2 ^ 64 ->
  let '(ret, r') := region_allocate true r start n in
  region_wf r' /\ r_min r' = r_min r /\ r_max r' = r_max r /\
  (ret = -1 <-> start < r_min r \/ start + n > r_max r) /\
  (ret = 1 <-> r_min r <= start /\ start + n <= r_max r /\
               exists x, start <= x < start + n /\ covers (r_allocated r) x) /\
  (ret = -1 \/ ret = 0 \/ ret = 1) /\ (ret <> 0 -> r' = r) /\
  (ret = 0 -> forall x, covers (r_allocated r') x <->
                        covers (r_allocated r) x \/ start <= x < start + n).
Proof.
  intros Hwf Hs Hn He.
  destruct (decide (start < r_min r \/ start + n > r_max r)) as [Hout|Hin].
  { unfold region_allocate. rewrite u64_small by (unfold in_u; lia). rewrite decide_True by done.
    split_and!; try done; try lia. }
  rewrite region_allocate_alloc by (done || lia). pose proof Hwf as [Hmin Hmax Hc Hb Hl].
  pose proof (alloc_none start (start + n) (r_allocated r) _ ltac:(lia) Hc) as Hnone.
  destruct (alloc start (start + n) (r_allocated r)) as [l'|] eqn:Ha.
  - destruct (alloc_some start (start + n) (r_allocated r) l' (r_min r - 1)) as [Hc' Hcv];
      [lia|lia|done|done|].
    split_and!; try done; try lia.
    + split; try done. cbn. apply Forall_forall. intros [a b] Hab. cbn.
      assert (Hlt : a < b).
      { clear -Hc' Hab. revert Hc'. generalize (r_min r - 1). induction l' as [|[p q] l' IH]; intros lo Hc.
        - by apply not_elem_of_nil in Hab.
        - destruct Hc as (_ & ? & Hc). apply elem_of_cons in Hab as [[= -> ->]|Hab]; [done|by eapply IH]. }
      assert (Hx : covers l' (b - 1)) by (exists (a, b); split; [done|cbn; lia]).
      apply Hcv in Hx as [(y & Hy & Hyx)|Hx]; [|lia].
      unfold below in Hb. rewrite Forall_forall in Hb. specialize (Hb y Hy). lia.
    + split; [lia|]. intros (_ & _ & Hex). by apply Hnone in Hex.
  - split_and!; try done; try lia.
    split; [|done]. intros _. split_and!; [lia|lia|by apply Hnone].
Qed.

(** Well-formedness at the start, and a failed [malloc]. *)
Lemma region_create_wf min max : 0 <= min -> max < 2 ^ 64 -> region_wf (region_create min max).
Proof. intros. by split; try constructor. Qed.

(** When memory runs out, [region_allocate] either does what it does with memory or returns
    -1 and leaves the region alone. *)
Theorem region_allocate_nomem r start n :
  region_allocate false r start n = region_allocate true r start n \/
  region_allocate false r start n = (-1, r).
Proof.
  unfold region_allocate. repeat (case_decide; [by left|]).
  destruct (r_last r) as [k|].
  - repeat (case_decide; [by auto|]). destruct (search _ _ _ _); auto.
  - destruct (search _ _ _ _); auto.
Qed.

(** The bytecode of the test program of region.c, up to its third print. *)
Definition demo_region : region :=
  let r := region_create 1 1001 in
  let r := (region_allocate true r 10 10).2 in
  let r := (region_allocate true r 30 10).2 in
  (region_allocate true r 1 8).2.

Lemma region_allocate_spec_witness :
  let '(ret, r') := region_allocate true (region_create 1 1001) 10 10 in
  region_wf r' /\ r_min r' = 1 /\ r_max r' = 1001 /\
  (ret = -1 <-> 10 < 1 \/ 10 + 10 > 1001) /\
  (ret = 1 <-> 1 <= 10 /\ 10 + 10 <= 1001 /\ exists x, 10 <= x < 10 + 10 /\ covers [] x) /\
  (ret = -1 \/ ret = 0 \/ ret = 1) /\ (ret <> 0 -> r' = region_create 1 1001) /\
  (ret = 0 -> forall x, covers (r_allocated r') x <-> covers [] x \/ 10 <= x < 10 + 10).
Proof.
  apply (region_allocate_spec (region_create 1 1001) 10 10); [by apply region_create_wf|lia|lia|lia].
Defined.
