(* ===== verification/EaRefcount.v ===== *)
(** Reference counts of extended-attribute blocks: [rfsck-ext/e2fsck/ea_refcount.c].

    The sorted array, its capacity, the number of entries in use and the cursor are
    the record [refcount]; an element is a pair of key and value. *)
From Stdlib Require Import ZArith Lia.
From stdpp Require Import base tactics numbers list sorting.
From S2P Require Import Prelude ExtErr.

Abbreviation el := (Z * Z)%type.

Record refcount := mkRc {
  rc_count : nat;
  rc_size : nat;
  rc_cursor : nat;
  rc_list : list el       (* the array: [rc_size] elements *)
}.

Section code.
(** What [realloc] leaves in the new part of the array. *)
Variable junk_el : el.

(** [ea_refcount_create], when memory is available. *)
Definition ea_refcount_create (size : nat) : refcount :=
  let size := if decide (size = 0%nat) then 500%nat else size in
  mkRc 0 size 0 (replicate size (0, 0)).

(** [refcount_collapse]: the loop, [n] turns from index [i]. *)
Fixpoint collapse_loop (n i j : nat) (l : list el) : nat * list el :=
  match n with
  | O => (j, l)
  | S n' =>
      let e : el := l !!! i in
      if decide (e.2 <> 0)
      then collapse_loop n' (S i) (S j) (if decide (i <> j) then <[j := e]> l else l)
      else collapse_loop n' (S i) j l
  end.

Definition refcount_collapse (rc : refcount) : refcount :=
  let '(j, l) := collapse_loop (rc_count rc) 0 0 (rc_list rc) in
  mkRc j (rc_size rc) (rc_cursor rc) l.

(** [insert_refcount_el]; [mem] says whether the array can be enlarged. *)
Definition insert_refcount_el (mem : bool) (rc : refcount) (ea_key : Z) (pos : nat)
  : option nat * refcount :=
  let grow := bool_decide (rc_size rc <= rc_count rc)%nat in
  if grow && negb mem then (None, rc)
  else
    let rc := if grow
              then mkRc (rc_count rc) (rc_size rc + 100) (rc_cursor rc)
                        (rc_list rc ++ replicate 100 junk_el)
              else rc in
    if decide (rc_count rc < pos)%nat then (None, rc)
    else
      let l := rc_list rc in
      let n := rc_count rc in
      (Some pos, mkRc (S n) (rc_size rc) (rc_cursor rc)
                      (take pos l ++ (ea_key, 0) :: take (n - pos) (drop pos l) ++ drop (S n) l)).

(** The binary search: the index of the key, or the final [low]. *)
Fixpoint bsearch (fuel : nat) (l : list el) (ea_key low high : Z) : Z + Z :=
  match fuel with
  | O => inr low
  | S fuel' =>
      if decide (low <= high) then
        let mid := Z.quot (low + high) 2 in
        let k := (l !!! Z.to_nat mid).1 in
        if decide (ea_key = k) then inl mid
        else if decide (ea_key < k) then bsearch fuel' l ea_key low (mid - 1)
        else bsearch fuel' l ea_key (mid + 1) high
      else inr low
  end.

(** [get_refcount_el]: the index of the element; [retry] is the code at the label. *)
Definition get_step (retry : refcount -> option nat * refcount) (mem : bool) (rc : refcount)
  (ea_key : Z) (create : bool) : option nat * refcount :=
  let high := Z.of_nat (rc_count rc) - 1 in
  let full (rc : refcount) := bool_decide (rc_size rc <= rc_count rc)%nat in
  if create && (bool_decide (rc_count rc = 0%nat)
                || bool_decide (ea_key > (rc_list rc !!! Z.to_nat high).1)) then
    let rc := if full rc then refcount_collapse rc else rc in
    insert_refcount_el mem rc ea_key (rc_count rc)
  else if decide (rc_count rc = 0%nat) then (None, rc)
  else
    let rc := if decide (rc_count rc <= rc_cursor rc)%nat
              then mkRc (rc_count rc) (rc_size rc) 0 (rc_list rc) else rc in
    if decide (ea_key = (rc_list rc !!! rc_cursor rc).1)
    then (Some (rc_cursor rc), mkRc (rc_count rc) (rc_size rc) (S (rc_cursor rc)) (rc_list rc))
    else
      match bsearch (rc_count rc + 1) (rc_list rc) ea_key 0 high with
      | inl mid =>
          (Some (Z.to_nat mid),
           mkRc (rc_count rc) (rc_size rc) (Z.to_nat mid + 1) (rc_list rc))
      | inr low =>
          if create then
            if full rc then
              let rc := refcount_collapse rc in
              if negb (full rc) then retry rc
              else insert_refcount_el mem rc ea_key (Z.to_nat low)
            else insert_refcount_el mem rc ea_key (Z.to_nat low)
          else (None, rc)
      end.

(** [fuel] bounds the jumps to [retry]; one is enough, since the array is not full
    after the first. *)
Fixpoint get_refcount_el (fuel : nat) (mem : bool) (rc : refcount) (ea_key : Z) (create : bool)
  : option nat * refcount :=
  get_step (match fuel with
            | O => fun rc => (None, rc)
            | S fuel' => fun rc => get_refcount_el fuel' mem rc ea_key create
            end) mem rc ea_key create.

Definition get_el (mem : bool) (rc : refcount) (ea_key : Z) (create : bool) : option nat * refcount :=
  get_refcount_el 1 mem rc ea_key create.

Definition set_value (i : nat) (v : Z) (rc : refcount) : refcount :=
  mkRc (rc_count rc) (rc_size rc) (rc_cursor rc) (<[i := ((rc_list rc !!! i).1, v)]> (rc_list rc)).

(** [ea_refcount_fetch]: the value (the code is always 0) and the new cursor. *)
Definition ea_refcount_fetch (rc : refcount) (ea_key : Z) : Z * refcount :=
  match get_el true rc ea_key false with
  | (None, rc) => (0, rc)
  | (Some i, rc) => ((rc_list rc !!! i).2, rc)
  end.

(** [ea_refcount_increment]: error code, new value. *)
Definition ea_refcount_increment (mem : bool) (rc : refcount) (ea_key : Z) : Z * option Z * refcount :=
  match get_el mem rc ea_key true with
  | (None, rc) => (EXT2_ET_NO_MEMORY, None, rc)
  | (Some i, rc) =>
      let v := u64 ((rc_list rc !!! i).2 + 1) in (0, Some v, set_value i v rc)
  end.

Definition ea_refcount_decrement (rc : refcount) (ea_key : Z) : Z * option Z * refcount :=
  match get_el true rc ea_key false with
  | (None, rc) => (EXT2_ET_INVALID_ARGUMENT, None, rc)
  | (Some i, rc) =>
      let v := (rc_list rc !!! i).2 in
      if decide (v = 0) then (EXT2_ET_INVALID_ARGUMENT, None, rc)
      else (0, Some (v - 1), set_value i (v - 1) rc)
  end.

Definition ea_refcount_store (mem : bool) (rc : refcount) (ea_key ea_value : Z) : Z * refcount :=
  match get_el mem rc ea_key (bool_decide (ea_value <> 0)) with
  | (None, rc) => (if decide (ea_value <> 0) then EXT2_ET_NO_MEMORY else 0, rc)
  | (Some i, rc) => (0, set_value i ea_value rc)
  end.

Definition ext2fs_get_refcount_size (rc : refcount) : nat := rc_size rc.

Definition ea_refcount_intr_begin (rc : refcount) : refcount :=
  mkRc (rc_count rc) (rc_size rc) 0 (rc_list rc).

(** [ea_refcount_intr_next]: the next key with a non-zero value, and the value;
    [fuel] is the number of entries left. *)
Fixpoint intr_next (fuel : nat) (rc : refcount) : option (Z * Z) * refcount :=
  if decide (rc_count rc <= rc_cursor rc)%nat then (None, rc)
  else
    let e : el := rc_list rc !!! rc_cursor rc in
    let rc := mkRc (rc_count rc) (rc_size rc) (S (rc_cursor rc)) (rc_list rc) in
    if decide (e.2 <> 0) then (Some e, rc)
    else match fuel with O => (None, rc) | S fuel' => intr_next fuel' rc end.

Definition ea_refcount_intr_next (rc : refcount) : option (Z * Z) * refcount :=
  intr_next (rc_count rc) rc.

End code.

(** * Specification: the counts as a function of the key *)

(** The entries in use. *)
Definition entries (rc : refcount) : list el := take (rc_count rc) (rc_list rc).

(** The value of a key, 0 when it has none. *)
Fixpoint assoc (l : list el) (k : Z) : Z :=
  match l with [] => 0 | e :: l' => if decide (e.1 = k) then e.2 else assoc l' k end.

Definition count_of (rc : refcount) (k : Z) : Z := assoc (entries rc) k.

Definition sorted (l : list el) : Prop := StronglySorted (fun a b : el => a.1 < b.1) l.

Record rc_wf (rc : refcount) : Prop := {
  rw_len : length (rc_list rc) = rc_size rc;
  rw_count : (rc_count rc <= rc_size rc)%nat;
  rw_sorted : sorted (entries rc)
}.

(** * Lists of entries *)

(** A filter that drops nothing is the identity. *)
Lemma filter_length_eq {A} (P : A -> Prop) `{!forall x, Decision (P x)} (l : list A) :
  length (filter P l) = length l -> filter P l = l.
Proof.
  induction l as [|x l IH]; [done|]. rewrite filter_cons. case_decide; cbn; intros HL.
  - f_equal. apply IH. by injection HL.
  - pose proof (length_filter P l). lia.
Qed.

(** An entry whose count is not zero. *)
Definition live (e : el) : Prop := e.2 <> 0.
#[global] Instance live_dec e : Decision (live e).
Proof. unfold live. apply _. Defined.


Lemma length_entries rc : rc_wf rc -> length (entries rc) = rc_count rc.
Proof. intros []. unfold entries. rewrite length_take. lia. Qed.

Lemma entries_lookup rc i :
  rc_wf rc -> (i < rc_count rc)%nat -> entries rc !! i = Some (rc_list rc !!! i).
Proof.
  intros [] Hi. unfold entries. rewrite lookup_take_lt by done. apply list_lookup_lookup_total_lt. lia.
Qed.

Lemma assoc_none l k : Forall (fun e : el => e.1 <> k) l -> assoc l k = 0.
Proof. induction 1 as [|e l He _ IH]; cbn; [done|]. by rewrite decide_False. Qed.

Lemma sorted_tail_ne e l k : sorted (e :: l) -> k <= e.1 -> Forall (fun e' : el => e'.1 <> k) l.
Proof.
  intros [_ He]%StronglySorted_inv Hk. eapply Forall_impl; [exact He|]. cbn. lia.
Qed.

Lemma assoc_lookup l i (e : el) : sorted l -> l !! i = Some e -> assoc l e.1 = e.2.
Proof.
  revert i. induction l as [|e0 l IH]; intros i Hs Hi; [done|]. cbn.
  apply StronglySorted_inv in Hs as [Hs He]. destruct i as [|i]; cbn in Hi.
  - simplify_eq. by rewrite decide_True.
  - rewrite Forall_forall in He. specialize (He e (list_elem_of_lookup_2 _ _ _ Hi)). cbn in He.
    rewrite decide_False by lia. by eapply IH.
Qed.

Lemma assoc_filter l k : sorted l -> assoc (filter live l) k = assoc l k.
Proof.
  induction l as [|e l IH]; intros Hs; [done|]. rewrite filter_cons.
  pose proof (StronglySorted_inv Hs) as [Hs' _]. specialize (IH Hs').
  destruct (decide (live e)) as [Hv|Hv]; cbn; [by case_decide|]. unfold live in Hv.
  case_decide as Hk; [|done].
  rewrite IH, assoc_none; [lia|]. eapply sorted_tail_ne; [exact Hs|lia].
Qed.

Lemma sorted_filter (P : el -> Prop) `{!forall x, Decision (P x)} l : sorted l -> sorted (filter P l).
Proof.
  induction 1 as [|e l Hs IH He]; [constructor|]. rewrite filter_cons. case_decide; [|done].
  constructor; [done|]. apply Forall_forall. intros x Hx. rewrite list_elem_of_filter in Hx.
  rewrite Forall_forall in He. apply He, Hx.
Qed.

Lemma sorted_lookup l i j (a b : el) : sorted l -> l !! i = Some a -> l !! j = Some b -> (i < j)%nat -> a.1 < b.1.
Proof.
  intros Hs. revert i j. induction Hs as [|e l Hs IH He]; intros i j Ha Hb Hij; [done|].
  destruct j as [|j]; [lia|]. destruct i as [|i]; cbn in *.
  - simplify_eq. rewrite Forall_forall in He. by apply He, (list_elem_of_lookup_2 _ j).
  - eapply IH; [exact Ha|exact Hb|lia].
Qed.

Lemma sorted_insert l pos k v :
  sorted l -> Forall (fun e : el => e.1 < k) (take pos l) -> Forall (fun e : el => k < e.1) (drop pos l) ->
  sorted (take pos l ++ (k, v) :: drop pos l).
Proof.
  intros Hs Hlo Hhi. rewrite <- (take_drop pos l) in Hs. revert Hs Hlo. 
  generalize (take pos l) as l1. generalize (drop pos l) as l2, Hhi. clear Hhi.
  intros l2 Hhi l1. induction l1 as [|e l1 IH]; cbn; intros Hs Hlo.
  - by constructor.
  - apply StronglySorted_inv in Hs as [Hs He]. apply Forall_cons in Hlo as [Hek Hlo].
    constructor; [by apply IH|]. rewrite Forall_app in *. destruct He as [He1 He2].
    split; [done|]. by constructor.
Qed.

Lemma assoc_app_none l1 l2 k : Forall (fun e : el => e.1 <> k) l1 -> assoc (l1 ++ l2) k = assoc l2 k.
Proof. induction 1 as [|e l1 He _ IH]; cbn; [done|]. by rewrite decide_False. Qed.

(** A new entry with value 0 is invisible. *)
Lemma assoc_insert l pos k k' :
  Forall (fun e : el => e.1 < k) (take pos l) -> Forall (fun e : el => k < e.1) (drop pos l) ->
  assoc (take pos l ++ (k, 0) :: drop pos l) k' = assoc l k'.
Proof.
  intros Hlo Hhi. rewrite <- (take_drop pos l) at 3. generalize (take pos l) as l1, (drop pos l) as l2, Hlo, Hhi.
  clear Hlo Hhi. intros l1 l2. induction l1 as [|e l1 IH]; cbn; intros Hlo Hhi.
  - case_decide as E; [|done]. subst. symmetry. apply assoc_none. eapply Forall_impl; [exact Hhi|]. cbn. lia.
  - apply Forall_cons in Hlo as [_ Hlo]. case_decide; [done|]. by apply IH.
Qed.

(** Changing the value of an entry changes the count of its key alone. *)
Lemma assoc_update l i e v k :
  sorted l -> l !! i = Some e ->
  assoc (<[i := (e.1, v)]> l) k = if decide (k = e.1) then v else assoc l k.
Proof.
  revert i. induction l as [|e0 l IH]; intros i Hs Hi; [done|].
  pose proof (StronglySorted_inv Hs) as [Hs' He]. destruct i as [|i]; cbn in Hi.
  - simplify_eq. cbn. repeat case_decide; try done; congruence.
  - change (<[S i := (e.1, v)]> (e0 :: l)) with (e0 :: <[i := (e.1, v)]> l). cbn [assoc].
    rewrite (IH i Hs' Hi). rewrite Forall_forall in He.
    specialize (He e (list_elem_of_lookup_2 _ _ _ Hi)). cbn in He.
    repeat case_decide; try done; lia.
Qed.

Lemma sorted_update l i e v : sorted l -> l !! i = Some e -> sorted (<[i := (e.1, v)]> l).
Proof.
  intros Hs. revert i. induction Hs as [|e0 l Hs IH He]; intros i Hi; [done|].
  destruct i as [|i]; cbn in Hi.
  - simplify_eq. by constructor.
  - change (<[S i := (e.1, v)]> (e0 :: l)) with (e0 :: <[i := (e.1, v)]> l).
    constructor; [by apply IH|]. rewrite Forall_forall in *. intros x [j Hx]%list_elem_of_lookup.
    destruct (decide (i = j)) as [->|Hne].
    + rewrite list_lookup_insert_eq in Hx by (by eapply lookup_lt_Some). simplify_eq. cbn.
      apply (He e), (list_elem_of_lookup_2 _ j), Hi.
    + rewrite list_lookup_insert_ne in Hx by done. apply He. by eapply list_elem_of_lookup_2.
Qed.

(** * [refcount_collapse] *)

Lemma collapse_loop_spec n : forall i j l,
  (j <= i)%nat -> (i + n <= length l)%nat ->
  let E := filter live (take n (drop i l)) in
  exists l', collapse_loop n i j l = ((j + length E)%nat, l') /\ length l' = length l /\
             take (j + length E) l' = take j l ++ E.
Proof.
  induction n as [|n IH]; intros i j l Hj Hn; cbn [collapse_loop].
  { exists l. cbn. rewrite Nat.add_0_r, app_nil_r. done. }
  assert (Hi : l !! i = Some (l !!! i)) by (apply list_lookup_lookup_total_lt; lia).
  rewrite (drop_S _ _ _ Hi). cbn [take]. rewrite filter_cons.
  destruct (decide (live (l !!! i))) as [Hv|Hv].
  - cbv zeta. destruct (decide (_ <> 0)) as [_|]; [|done].
    set (l1 := if decide (i <> j) then <[j := l !!! i]> l else l).
    assert (Hl1 : l1 = <[j := l !!! i]> l).
    { unfold l1. case_decide as E; [done|]. assert (i = j) as -> by (destruct (decide (i = j)); done).
      symmetry. by apply list_insert_id. }
    destruct (IH (S i) (S j) l1) as (l' & HR & Hlen & Htake); [lia|rewrite Hl1, length_insert; lia|].
    assert (Hdrop : drop (S i) l1 = drop (S i) l) by (rewrite Hl1; apply drop_insert_lt; lia).
    rewrite Hdrop in HR, Htake. exists l'. cbn [length].
    replace (j + S (length (filter live (take n (drop (S i) l)))))%nat
      with (S j + length (filter live (take n (drop (S i) l))))%nat by lia.
    split_and!; [done|by rewrite Hlen, Hl1, length_insert|].
    rewrite Htake, Hl1. rewrite (take_S_r _ j (l !!! i)).
    + rewrite take_insert_ge, <- app_assoc by lia. done.
    + apply list_lookup_insert_eq. lia.
  - cbv zeta. destruct (decide (_ <> 0)) as [|_]; [done|].
    destruct (IH (S i) j l) as (l' & HR & Hlen & Htake); [lia|lia|]. by exists l'.
Qed.

Lemma collapse_spec rc :
  rc_wf rc ->
  let rc' := refcount_collapse rc in
  rc_wf rc' /\ entries rc' = filter live (entries rc) /\
  rc_size rc' = rc_size rc /\ rc_cursor rc' = rc_cursor rc /\ (rc_count rc' <= rc_count rc)%nat.
Proof.
  intros [Hl Hc Hs]. unfold refcount_collapse.
  destruct (collapse_loop_spec (rc_count rc) 0 0 (rc_list rc)) as (l' & HR & Hlen & Htake); [lia|lia|].
  rewrite drop_0 in HR, Htake. fold (entries rc) in HR, Htake. rewrite HR. cbn [app] in Htake.
  assert (Hle : (length (filter live (entries rc)) <= rc_count rc)%nat).
  { pose proof (length_filter live (entries rc)).
    unfold entries in *. rewrite length_take in *. lia. }
  cbv zeta. cbn [Nat.add]. set (rc' := mkRc _ _ _ _).
  assert (HE : entries rc' = filter live (entries rc)) by exact Htake.
  split_and!; [|done|done|done|done]. split; [cbn; lia|cbn; lia|].
  rewrite HE. by apply sorted_filter.
Qed.

Section proofs.
Variable junk_el : el.

(** * [insert_refcount_el] *)

Lemma insert_spec mem rc k pos :
  rc_wf rc -> (pos <= rc_count rc)%nat ->
  Forall (fun e : el => e.1 < k) (take pos (entries rc)) ->
  Forall (fun e : el => k < e.1) (drop pos (entries rc)) ->
  (exists rc', insert_refcount_el junk_el mem rc k pos = (Some pos, rc') /\ rc_wf rc' /\
     entries rc' = take pos (entries rc) ++ (k, 0) :: drop pos (entries rc)) \/
  (insert_refcount_el junk_el mem rc k pos = (None, rc) /\ mem = false).
Proof.
  intros [Hl Hc Hs] Hpos Hlo Hhi. unfold insert_refcount_el.
  destruct (bool_decide (rc_size rc <= rc_count rc)%nat && negb mem) eqn:Hg.
  { right. apply andb_true_iff in Hg as [_ Hm]. by destruct mem. }
  left. set (rc1 := if bool_decide _ then _ else rc).
  assert (H1 : rc_count rc1 = rc_count rc /\ (rc_count rc < length (rc_list rc1))%nat /\
               length (rc_list rc1) = rc_size rc1 /\ take (rc_count rc) (rc_list rc1) = entries rc).
  { unfold rc1. case_bool_decide as Hfull; cbn [rc_count rc_list rc_size].
    - rewrite length_app, length_replicate, take_app_le by lia. unfold entries. split_and!; try done; lia.
    - split_and!; try done; lia. }
  destruct H1 as (Hc1 & Hlt & Hl1 & Ht1). rewrite Hc1, decide_False by lia.
  eexists. split; [reflexivity|].
  assert (HE : take (S (rc_count rc))
    (take pos (rc_list rc1) ++ (k, 0) :: take (rc_count rc - pos) (drop pos (rc_list rc1)) ++ drop (S (rc_count rc)) (rc_list rc1))
    = take pos (entries rc) ++ (k, 0) :: drop pos (entries rc)).
  { rewrite <- Ht1, take_take, Nat.min_l by lia.
    rewrite <- skipn_firstn_comm.
    rewrite app_comm_cons, app_assoc, take_app_le.
    - apply take_ge. rewrite length_app, length_take. cbn. rewrite length_drop, length_take. lia.
    - rewrite length_app, length_take. cbn. rewrite length_drop, length_take. lia. }
  set (rc2 := mkRc _ _ _ _).
  assert (HE2 : entries rc2 = take pos (entries rc) ++ (k, 0) :: drop pos (entries rc)) by exact HE.
  split; [|exact HE2]. split; [|cbn; lia|rewrite HE2; by apply sorted_insert].
  cbn [rc2 rc_list rc_size]. rewrite length_app, length_take. cbn [length].
  rewrite length_app, length_take, !length_drop. lia.
Qed.

(** * The binary search *)

Lemma bsearch_spec fuel : forall (E l : list el) k low high,
  (forall i, (i < length E)%nat -> E !! i = Some (l !!! i)) -> sorted E ->
  0 <= low <= high + 1 -> high < Z.of_nat (length E) -> high - low + 1 < Z.of_nat fuel ->
  (forall (i : nat) (e : el), E !! i = Some e -> Z.of_nat i < low -> e.1 < k) ->
  (forall (i : nat) (e : el), E !! i = Some e -> high < Z.of_nat i -> k < e.1) ->
  match bsearch fuel l k low high with
  | inl mid => exists (i : nat) (e : el), mid = Z.of_nat i /\ E !! i = Some e /\ e.1 = k
  | inr pos => 0 <= pos <= Z.of_nat (length E) /\
      (forall (i : nat) (e : el), E !! i = Some e -> Z.of_nat i < pos -> e.1 < k) /\
      (forall (i : nat) (e : el), E !! i = Some e -> pos <= Z.of_nat i -> k < e.1)
  end.
Proof.
  induction fuel as [|fuel IH]; intros E l k low high HE Hs Hlh Hh Hf Hlo Hhi; [lia|].
  cbn [bsearch]. cbv zeta. case_decide as Hle.
  2:{ split_and!; [lia|lia|done|]. intros i e Hi Hp. apply (Hhi i e Hi). lia. }
  set (mid := Z.quot (low + high) 2).
  assert (Hm : low <= mid <= high).
  { unfold mid. rewrite Z.quot_div_nonneg by lia. split; [apply Z.div_le_lower_bound; lia|].
    apply Z.div_le_upper_bound; lia. }
  assert (Hmi : E !! Z.to_nat mid = Some (l !!! Z.to_nat mid)) by (apply HE; lia).
  set (e := l !!! Z.to_nat mid) in *. clearbody e.
  assert (Hbefore : forall (i : nat) (e' : el), E !! i = Some e' -> Z.of_nat i < mid -> e'.1 < e.1).
  { intros i e' Hi Hlt. apply (sorted_lookup E i (Z.to_nat mid)); [done..|lia]. }
  assert (Hafter : forall (i : nat) (e' : el), E !! i = Some e' -> mid < Z.of_nat i -> e.1 < e'.1).
  { intros i e' Hi Hlt. apply (sorted_lookup E (Z.to_nat mid) i); [done..|lia]. }
  case_decide as Ek; [exists (Z.to_nat mid), e; split_and!; [lia|done|done]|].
  case_decide as Elt.
  - apply (IH E); try done; try lia. intros i e' Hi Hgt.
    destruct (decide (Z.of_nat i = mid)) as [Heq|Hne].
    + assert (i = Z.to_nat mid) as -> by lia. rewrite Hmi in Hi. injection Hi as <-. lia.
    + specialize (Hafter i e' Hi ltac:(lia)). lia.
  - apply (IH E); try done; try lia. intros i e' Hi Hgt.
    destruct (decide (Z.of_nat i = mid)) as [Heq|Hne].
    + assert (i = Z.to_nat mid) as -> by lia. rewrite Hmi in Hi. injection Hi as <-. lia.
    + specialize (Hbefore i e' Hi ltac:(lia)). lia.
Qed.

(** * [get_refcount_el] *)

(** What the lookup promises: the entries are those of before up to zero counts, and
    the index returned is the entry of the key. *)
Definition got (rc : refcount) (k : Z) (create mem : bool) (r : option nat * refcount) : Prop :=
  rc_wf r.2 /\ (forall k', count_of r.2 k' = count_of rc k') /\
  match r.1 with
  | Some i => exists e : el, entries r.2 !! i = Some e /\ e.1 = k
  | None => (create = false -> count_of rc k = 0) /\ (create = true -> mem = false)
  end.

Lemma got_insert rc0 rc k mem pos :
  rc_wf rc -> (forall k', count_of rc k' = count_of rc0 k') -> (pos <= rc_count rc)%nat ->
  Forall (fun e : el => e.1 < k) (take pos (entries rc)) ->
  Forall (fun e : el => k < e.1) (drop pos (entries rc)) ->
  got rc0 k true mem (insert_refcount_el junk_el mem rc k pos).
Proof.
  intros Hwf Hco Hpos Hlo Hhi.
  destruct (insert_spec mem rc k pos Hwf Hpos Hlo Hhi) as [(rc' & -> & Hwf' & HE)|[-> ->]]; [|done].
  split_and!; [done| |].
  - intros k'. cbn. unfold count_of in *. rewrite HE, assoc_insert by done. apply Hco.
  - exists (k, 0). cbn. rewrite HE, lookup_app_r by (rewrite length_take; lia).
    rewrite length_take, length_entries by done. by replace (pos - pos `min` rc_count rc)%nat with 0%nat by lia.
Qed.

Lemma collapse_counts rc k : rc_wf rc -> count_of (refcount_collapse rc) k = count_of rc k.
Proof.
  intros Hwf. destruct (collapse_spec rc Hwf) as (_ & HE & _). unfold count_of. rewrite HE.
  apply assoc_filter, Hwf.
Qed.

Lemma Forall_entries_lt rc k pos :
  (forall (i : nat) (e : el), entries rc !! i = Some e -> Z.of_nat i < Z.of_nat pos -> e.1 < k) ->
  Forall (fun e : el => e.1 < k) (take pos (entries rc)).
Proof.
  intros HE. apply Forall_lookup_2. intros i e Hi. apply lookup_take_Some in Hi as [Hi Hlt].
  apply (HE i e Hi). lia.
Qed.

Lemma Forall_entries_gt rc k pos :
  (forall (i : nat) (e : el), entries rc !! i = Some e -> Z.of_nat pos <= Z.of_nat i -> k < e.1) ->
  Forall (fun e : el => k < e.1) (drop pos (entries rc)).
Proof.
  intros HE. apply Forall_lookup_2. intros i e Hi. rewrite lookup_drop in Hi.
  apply (HE _ e Hi). lia.
Qed.

(** All keys are below [k] when the last one is. *)
Lemma entries_below rc k :
  rc_wf rc -> (0 < rc_count rc)%nat -> k > (rc_list rc !!! (rc_count rc - 1)%nat).1 ->
  Forall (fun e : el => e.1 < k) (entries rc).
Proof.
  intros Hwf Hpos Hk. apply Forall_lookup_2. intros i e Hi.
  pose proof (entries_lookup rc (rc_count rc - 1) Hwf ltac:(lia)) as Hlast.
  assert (Hib : (i < rc_count rc)%nat) by (apply lookup_lt_Some in Hi; by rewrite length_entries in Hi).
  destruct (decide (i = rc_count rc - 1)%nat) as [->|Hne]; [rewrite Hlast in Hi; injection Hi as <-; by apply Z.gt_lt|].
  apply (Z.lt_trans _ (rc_list rc !!! (rc_count rc - 1)%nat).1); [|by apply Z.gt_lt].
  exact (sorted_lookup _ _ _ _ _ (rw_sorted _ Hwf) Hi Hlast ltac:(lia)).
Qed.

Lemma got_append rc0 rc k mem :
  rc_wf rc -> (forall k', count_of rc k' = count_of rc0 k') ->
  Forall (fun e : el => e.1 < k) (entries rc) ->
  got rc0 k true mem (insert_refcount_el junk_el mem rc k (rc_count rc)).
Proof.
  intros Hwf Hco Hlt. apply got_insert; [done|done|lia|by apply Forall_take|].
  rewrite drop_ge by (by rewrite length_entries). constructor.
Qed.

Lemma got_search rc0 rc k mem low :
  rc_wf rc -> (forall k', count_of rc k' = count_of rc0 k') -> 0 <= low <= Z.of_nat (rc_count rc) ->
  (forall (i : nat) (e : el), entries rc !! i = Some e -> Z.of_nat i < low -> e.1 < k) ->
  (forall (i : nat) (e : el), entries rc !! i = Some e -> low <= Z.of_nat i -> k < e.1) ->
  got rc0 k true mem (insert_refcount_el junk_el mem rc k (Z.to_nat low)).
Proof.
  intros Hwf Hco Hlow Hlo Hhi.
  apply got_insert; [done|done|lia|apply Forall_entries_lt|apply Forall_entries_gt];
    intros i e Hi ?; [apply (Hlo i e Hi)|apply (Hhi i e Hi)]; lia.
Qed.

(** The cursor is no part of the contents. *)
Lemma wf_cursor rc c : rc_wf rc -> rc_wf (mkRc (rc_count rc) (rc_size rc) c (rc_list rc)).
Proof. intros []. by split. Qed.

Lemma get_step_spec retry mem rc k create :
  rc_wf rc ->
  (~ (rc_count rc < rc_size rc)%nat -> create = true -> forall rc', rc_wf rc' ->
     (forall k', count_of rc' k' = count_of rc k') -> (rc_count rc' < rc_size rc')%nat ->
     got rc k create mem (retry rc')) ->
  got rc k create mem (get_step junk_el retry mem rc k create).
Proof.
  intros Hwf Hretry. unfold get_step. cbv zeta beta.
  destruct (create && _) eqn:Happ.
  { apply andb_true_iff in Happ as [-> Happ]. apply orb_true_iff in Happ.
    assert (Hlt : Forall (fun e : el => e.1 < k) (entries rc)).
    { destruct (decide (rc_count rc = 0%nat)) as [Hz|Hnz]; [unfold entries; rewrite Hz; constructor|].
      destruct Happ as [?%bool_decide_eq_true|Hk%bool_decide_eq_true]; [done|].
      apply entries_below; [done|lia|]. by replace (rc_count rc - 1)%nat with (Z.to_nat (Z.of_nat (rc_count rc) - 1)) by lia. }
    clear Happ. case_bool_decide; [|by apply got_append].
    destruct (collapse_spec rc Hwf) as (Hwf' & HE & _). apply got_append; [done| |].
    - intros k'. by apply collapse_counts.
    - rewrite HE. apply Forall_forall. intros e He. rewrite list_elem_of_filter in He.
      rewrite Forall_forall in Hlt. apply Hlt, He. }
  destruct (decide (rc_count rc = 0%nat)) as [Hz|Hz].
  { split_and!; [done|done|]. cbn. split; [|intros ->].
    - intros _. unfold count_of, entries. by rewrite Hz.
    - rewrite bool_decide_eq_true_2 in Happ by done. done. }
  clear Happ.
  set (rc1 := if decide (rc_count rc <= rc_cursor rc)%nat then _ else rc).
  assert (H1 : rc_wf rc1 /\ rc_count rc1 = rc_count rc /\ rc_size rc1 = rc_size rc /\
               entries rc1 = entries rc /\ (rc_cursor rc1 < rc_count rc1)%nat).
  { unfold rc1. case_decide; cbn; split_and!; try done; try lia. by apply wf_cursor. }
  destruct H1 as (Hwf1 & Hc1 & Hs1 & HE1 & Hcur).
  assert (Hco1 : forall k', count_of rc1 k' = count_of rc k') by (intros; unfold count_of; by rewrite HE1).
  case_decide as Hk.
  { split_and!; [by apply wf_cursor|done|]. cbn. exists (rc_list rc1 !!! rc_cursor rc1).
    split; [by apply entries_lookup|done]. }
  pose proof (bsearch_spec (rc_count rc1 + 1) (entries rc1) (rc_list rc1) k 0 (Z.of_nat (rc_count rc) - 1)) as Hbs.
  rewrite (length_entries rc1 Hwf1) in Hbs.
  specialize (Hbs ltac:(intros; by apply entries_lookup) (rw_sorted _ Hwf1) ltac:(lia) ltac:(lia) ltac:(lia)
                ltac:(intros; lia)).
  specialize (Hbs ltac:(intros i e Hi Hgt; apply lookup_lt_Some in Hi; rewrite length_entries in Hi by done; lia)).
  destruct (bsearch _ _ k 0 _) as [mid|low].
  { destruct Hbs as (i & e & -> & Hi & He). rewrite Nat2Z.id.
    split_and!; [by apply wf_cursor|done|]. by exists e. }
  destruct Hbs as (Hlow & Hlo & Hhi). destruct create.
  - case_bool_decide as Hfull; [|by apply got_search].
    destruct (collapse_spec rc1 Hwf1) as (Hwf2 & HE2 & Hs2 & _ & Hle2).
    assert (Hco2 : forall k', count_of (refcount_collapse rc1) k' = count_of rc k')
      by (intros k'; rewrite collapse_counts by done; apply Hco1).
    case_bool_decide as Hfull2; cbn [negb].
    + assert (HEq : entries (refcount_collapse rc1) = entries rc1).
      { pose proof (rw_count _ Hwf1). rewrite HE2. apply filter_length_eq. rewrite <- HE2, !length_entries by done. lia. }
      pose proof (rw_count _ Hwf1). apply got_search; try done; [lia|by rewrite HEq..].
    + apply Hretry; try done; lia.
  - split_and!; [done|done|]. cbn. split; [|done]. intros _. rewrite <- Hco1. apply assoc_none.
    apply Forall_lookup_2. intros i e Hi He.
    destruct (decide (Z.of_nat i < low)); [specialize (Hlo i e Hi ltac:(lia))|specialize (Hhi i e Hi ltac:(lia))]; lia.
Qed.

Lemma get_el_spec mem rc k create :
  rc_wf rc -> got rc k create mem (get_el junk_el mem rc k create).
Proof.
  intros Hwf. apply get_step_spec; [done|]. intros _ -> rc' Hwf' Hco Hlt.
  assert (Hg : got rc' k true mem (get_refcount_el junk_el 0 mem rc' k true)).
  { apply get_step_spec; [done|]. intros Hn. lia. }
  change (got rc k true mem (get_refcount_el junk_el 0 mem rc' k true)).
  destruct (get_refcount_el junk_el 0 mem rc' k true) as [[i|] rc2]; destruct Hg as (H1 & H2 & H3); cbn [fst snd] in *.
  - split_and!; [done|intros k'; cbn; by rewrite H2|done].
  - split_and!; [done|intros k'; cbn; by rewrite H2|]. cbn. split; [done|apply H3].
Qed.

Lemma set_value_spec rc i (e : el) v :
  rc_wf rc -> entries rc !! i = Some e ->
  rc_wf (set_value i v rc) /\
  forall k, count_of (set_value i v rc) k = if decide (k = e.1) then v else count_of rc k.
Proof.
  intros Hwf Hi. assert (Hlt : (i < rc_count rc)%nat) by (apply lookup_lt_Some in Hi; by rewrite length_entries in Hi).
  pose proof (entries_lookup rc i Hwf Hlt) as Hi'. rewrite Hi in Hi'. injection Hi' as He.
  assert (HE : entries (set_value i v rc) = <[i := (e.1, v)]> (entries rc)).
  { unfold entries, set_value. cbn. rewrite take_insert_lt by done. by subst e. }
  destruct Hwf as [Hl Hc Hs]. split.
  - split; [cbn; by rewrite length_insert|done|]. rewrite HE. by apply sorted_update.
  - intros k. unfold count_of. rewrite HE. by apply assoc_update.
Qed.

(** The value read at the index [get_refcount_el] returns is the count of the key. *)
Lemma got_value rc rc' i (e : el) k :
  rc_wf rc' -> (forall k', count_of rc' k' = count_of rc k') -> entries rc' !! i = Some e -> e.1 = k ->
  (rc_list rc' !!! i).2 = count_of rc k.
Proof.
  intros Hwf Hco Hi He. rewrite <- Hco, <- He. unfold count_of.
  rewrite (assoc_lookup _ i e) by (done || apply Hwf).
  assert ((i < rc_count rc')%nat) by (apply lookup_lt_Some in Hi; by rewrite length_entries in Hi).
  rewrite entries_lookup in Hi by done. by injection Hi as <-.
Qed.

(** * Theorems *)

(** [ea_refcount_fetch] returns the count of the key, and changes no count. *)
Theorem fetch_spec rc k :
  rc_wf rc ->
  let '(v, rc') := ea_refcount_fetch junk_el rc k in
  v = count_of rc k /\ rc_wf rc' /\ forall k', count_of rc' k' = count_of rc k'.
Proof.
  intros Hwf. unfold ea_refcount_fetch. pose proof (get_el_spec true rc k false Hwf) as Hg.
  destruct (get_el junk_el true rc k false) as [[i|] rc']; destruct Hg as (H1 & H2 & H3); cbn [fst snd] in *.
  - destruct H3 as (e & Hi & He). split_and!; [by apply (got_value rc rc' i e)|done|done].
  - split_and!; [|done|done]. symmetry. by apply H3.
Qed.

(** [ea_refcount_increment] adds 1 to the count of the key (modulo 2^64), to no other, and
    reports the new count; it fails only for lack of memory, and then changes no count. *)
Theorem increment_spec mem rc k :
  rc_wf rc ->
  let '(err, v, rc') := ea_refcount_increment junk_el mem rc k in
  rc_wf rc' /\
  ((err = 0 /\ v = Some (u64 (count_of rc k + 1)) /\
    forall k', count_of rc' k' = if decide (k' = k) then u64 (count_of rc k + 1) else count_of rc k') \/
   (err = EXT2_ET_NO_MEMORY /\ mem = false /\ forall k', count_of rc' k' = count_of rc k')).
Proof.
  intros Hwf. unfold ea_refcount_increment. pose proof (get_el_spec mem rc k true Hwf) as Hg.
  destruct (get_el junk_el mem rc k true) as [[i|] rc']; destruct Hg as (H1 & H2 & H3); cbn [fst snd] in *.
  - destruct H3 as (e & Hi & He).
    pose proof (got_value rc rc' i e k H1 H2 Hi He) as Hv.
    rewrite Hv. destruct (set_value_spec rc' i e (u64 (count_of rc k + 1)) H1 Hi) as [Hw Hc].
    split; [done|]. left. split_and!; [done|done|]. intros k'. rewrite Hc, He. case_decide; [done|apply H2].
  - split; [done|]. right. split_and!; [done|by apply H3|done].
Qed.

(** [ea_refcount_decrement] fails exactly when the count is 0, and otherwise subtracts 1
    from the count of the key alone. *)
Theorem decrement_spec rc k :
  rc_wf rc ->
  let '(err, v, rc') := ea_refcount_decrement junk_el rc k in
  rc_wf rc' /\
  if decide (count_of rc k = 0)
  then err = EXT2_ET_INVALID_ARGUMENT /\ forall k', count_of rc' k' = count_of rc k'
  else err = 0 /\ v = Some (count_of rc k - 1) /\
       forall k', count_of rc' k' = if decide (k' = k) then count_of rc k - 1 else count_of rc k'.
Proof.
  intros Hwf. unfold ea_refcount_decrement. pose proof (get_el_spec true rc k false Hwf) as Hg.
  destruct (get_el junk_el true rc k false) as [[i|] rc']; destruct Hg as (H1 & H2 & H3); cbn [fst snd] in *.
  - destruct H3 as (e & Hi & He).
    pose proof (got_value rc rc' i e k H1 H2 Hi He) as Hv.
    rewrite Hv. case_decide as Hz; [done|].
    destruct (set_value_spec rc' i e (count_of rc k - 1) H1 Hi) as [Hw Hc].
    split; [done|]. split_and!; [done|done|]. intros k'. rewrite Hc, He. case_decide; [done|apply H2].
  - split; [done|]. rewrite decide_True by (by apply H3). done.
Qed.

(** [ea_refcount_store] makes the value the count of the key and changes no other count,
    unless memory for a new entry is missing. *)
Theorem store_spec mem rc k v :
  rc_wf rc ->
  let '(err, rc') := ea_refcount_store junk_el mem rc k v in
  rc_wf rc' /\
  ((err = 0 /\ forall k', count_of rc' k' = if decide (k' = k) then v else count_of rc k') \/
   (err = EXT2_ET_NO_MEMORY /\ mem = false /\ forall k', count_of rc' k' = count_of rc k')).
Proof.
  intros Hwf. unfold ea_refcount_store.
  pose proof (get_el_spec mem rc k (bool_decide (v <> 0)) Hwf) as Hg.
  destruct (get_el junk_el mem rc k (bool_decide (v <> 0))) as [[i|] rc']; destruct Hg as (H1 & H2 & H3); cbn [fst snd] in *.
  - destruct H3 as (e & Hi & He). destruct (set_value_spec rc' i e v H1 Hi) as [Hw Hc].
    split; [done|]. left. split; [done|]. intros k'. rewrite Hc, He. case_decide; [done|apply H2].
  - split; [done|]. destruct H3 as [H3 H4]. destruct (decide (v <> 0)) as [Hv|Hv].
    + right. split_and!; [done|apply H4; by apply bool_decide_eq_true_2|exact H2].
    + left. split; [done|]. intros k'. rewrite H2. destruct (decide (k' = k)) as [E|E]; [|done]. subst k'.
      assert (v = 0) as -> by lia. apply H3. by apply bool_decide_eq_false_2.
Qed.

End proofs.


(** * Iteration *)

(** The caller's loop: [ea_refcount_intr_next] until it returns 0. *)
Fixpoint iterate (fuel : nat) (rc : refcount) : list el :=
  match fuel with
  | O => []
  | S fuel' =>
      match ea_refcount_intr_next rc with
      | (None, _) => []
      | (Some e, rc') => e :: iterate fuel' rc'
      end
  end.

Lemma intr_next_spec fuel rc :
  rc_wf rc -> (rc_count rc - rc_cursor rc <= fuel)%nat ->
  let rest rc := filter live (drop (rc_cursor rc) (entries rc)) in
  let r := intr_next fuel rc in
  rc_wf r.2 /\ entries r.2 = entries rc /\ rc_count r.2 = rc_count rc /\
  match r.1 with
  | Some e => rest rc = e :: rest r.2 /\ (rc_cursor rc < rc_cursor r.2 <= rc_count rc)%nat
  | None => rest rc = []
  end.
Proof.
  revert rc. induction fuel as [|fuel IH]; intros rc Hwf Hf; cbv zeta;
    set (rc1 := mkRc (rc_count rc) (rc_size rc) (S (rc_cursor rc)) (rc_list rc)).
  { unfold intr_next. rewrite decide_True by lia. cbn. split_and!; try done.
    by rewrite drop_ge by (rewrite length_entries by done; lia). }
  cbn [intr_next]. fold rc1. destruct (decide (rc_count rc <= rc_cursor rc)%nat) as [Hend|Hin].
  { cbn. split_and!; try done. by rewrite drop_ge by (rewrite length_entries by done; lia). }
  assert (Hwf1 : rc_wf rc1) by (by apply wf_cursor).
  pose proof (entries_lookup rc (rc_cursor rc) Hwf ltac:(lia)) as He.
  rewrite (drop_S _ _ _ He), filter_cons. cbv zeta.
  destruct (decide (live (rc_list rc !!! rc_cursor rc))) as [Hl|Hl].
  - destruct (decide (_ <> 0)) as [_|]; [|done]. cbn. split_and!; try done; cbn; lia.
  - destruct (decide (_ <> 0)) as [|_]; [done|].
    destruct (IH rc1 Hwf1) as (H1 & H2 & H3 & H4); [cbn; lia|]. split_and!; try done.
    destruct (intr_next fuel rc1) as [[e|] rc2]; cbn in *; [|done].
    destruct H4 as [H4 H5]. split; [done|lia].
Qed.

Lemma iterate_spec fuel rc :
  rc_wf rc -> (rc_count rc - rc_cursor rc < fuel)%nat ->
  iterate fuel rc = filter live (drop (rc_cursor rc) (entries rc)).
Proof.
  revert rc. induction fuel as [|fuel IH]; intros rc Hwf Hf; [lia|]. cbn [iterate].
  unfold ea_refcount_intr_next. pose proof (intr_next_spec (rc_count rc) rc Hwf ltac:(lia)) as Hn.
  destruct (intr_next (rc_count rc) rc) as [[e|] rc']; destruct Hn as (H1 & H2 & H3 & H4); cbn [fst snd] in *.
  - destruct H4 as [H4 H5]. rewrite H4, IH by (done || lia). done.
  - by rewrite H4.
Qed.

(** Iteration from [ea_refcount_intr_begin] visits each key with a non-zero count exactly
    once, in ascending key order, with its count. *)
Theorem iterate_visits rc :
  rc_wf rc ->
  let l := iterate (S (rc_count rc)) (ea_refcount_intr_begin rc) in
  sorted l /\ forall k v, (k, v) ∈ l <-> v <> 0 /\ (k, v) ∈ entries rc /\ count_of rc k = v.
Proof.
  intros Hwf. cbv zeta. rewrite iterate_spec; [|by apply wf_cursor|cbn; lia].
  change (entries (ea_refcount_intr_begin rc)) with (entries rc).
  change (rc_cursor (ea_refcount_intr_begin rc)) with 0%nat. rewrite drop_0.
  split; [apply sorted_filter, Hwf|]. intros k v. rewrite list_elem_of_filter. split.
  - intros [Hl Hin]. split_and!; [done|done|]. apply list_elem_of_lookup in Hin as [i Hi].
    exact (assoc_lookup _ i (k, v) (rw_sorted _ Hwf) Hi).
  - intros (Hv & Hin & _). by split.
Qed.

(** ** Sequences of operations *)

(** A call, with the success of the allocation it may make. *)
Inductive rc_op := Rfetch (k : Z) | Rincrement (mem : bool) (k : Z) | Rdecrement (k : Z) | Rstore (mem : bool) (k v : Z).

(** The code and the value reported. *)
Definition run_op (junk_el : el) (op : rc_op) (rc : refcount) : Z * option Z * refcount :=
  match op with
  | Rfetch k => let '(v, rc) := ea_refcount_fetch junk_el rc k in (0, Some v, rc)
  | Rincrement mem k => ea_refcount_increment junk_el mem rc k
  | Rdecrement k => ea_refcount_decrement junk_el rc k
  | Rstore mem k v => let '(err, rc) := ea_refcount_store junk_el mem rc k v in (err, None, rc)
  end.

(** The same on a function from keys to counts. *)
Definition spec_op (op : rc_op) (f : Z -> Z) : Z * option Z * (Z -> Z) :=
  let put k v k' := if decide (k' = k) then v else f k' in
  match op with
  | Rfetch k => (0, Some (f k), f)
  | Rincrement _ k => (0, Some (u64 (f k + 1)), put k (u64 (f k + 1)))
  | Rdecrement k => if decide (f k = 0) then (EXT2_ET_INVALID_ARGUMENT, None, f) else (0, Some (f k - 1), put k (f k - 1))
  | Rstore _ k v => (0, None, put k v)
  end.

Definition starved (op : rc_op) : bool := match op with Rincrement mem _ | Rstore mem _ _ => negb mem | _ => false end.

(** Every call answers as the function does, or is refused for lack of memory without effect; at
    the end an iteration lists the counts that are not 0, in the order of the keys. *)
Fixpoint simulates (junk_el : el) (ops : list rc_op) (rc : refcount) (f : Z -> Z) : Prop :=
  match ops with
  | [] =>
      let l := iterate (S (rc_count rc)) (ea_refcount_intr_begin rc) in
      sorted l /\ forall k v, (k, v) ∈ l <-> v <> 0 /\ f k = v
  | op :: ops' =>
      let '(err, v, rc') := run_op junk_el op rc in
      (err, v) = (spec_op op f).1 /\ simulates junk_el ops' rc' (spec_op op f).2 \/
      (err, v) = (EXT2_ET_NO_MEMORY, None) /\ starved op = true /\ simulates junk_el ops' rc' f
  end.

Lemma run_op_spec junk_el op rc f :
  rc_wf rc -> (forall k, count_of rc k = f k) ->
  let '(err, v, rc') := run_op junk_el op rc in
  rc_wf rc' /\
  ((err, v) = (spec_op op f).1 /\ (forall k, count_of rc' k = (spec_op op f).2 k) \/
   (err, v) = (EXT2_ET_NO_MEMORY, None) /\ starved op = true /\ forall k, count_of rc' k = f k).
Proof.
  intros Hwf Hf. destruct op as [k|mem k|k|mem k v]; cbn [run_op spec_op starved].
  - pose proof (fetch_spec junk_el rc k Hwf) as H. destruct (ea_refcount_fetch junk_el rc k) as [v rc']. destruct H as (-> & H1 & H2).
    split; [done|]. left. split; [by rewrite Hf|]. intros k'. by rewrite H2.
  - pose proof (increment_spec junk_el mem rc k Hwf) as H. destruct (ea_refcount_increment junk_el mem rc k) as [[err v] rc'] eqn:E. destruct H as [H1 H2].
    split; [done|]. destruct H2 as [(-> & -> & H2)|(-> & -> & H2)].
    + left. split; [by rewrite Hf|]. intros k'. cbn. by rewrite H2, !Hf.
    + right. split_and!; [|done|intros k'; by rewrite H2]. unfold ea_refcount_increment in E. destruct (get_el _ _ _ _ _) as [[i|] rc1]; by inversion E.
  - pose proof (decrement_spec junk_el rc k Hwf) as H. destruct (ea_refcount_decrement junk_el rc k) as [[err v] rc'] eqn:E. destruct H as [H1 H2].
    split; [done|]. left. rewrite Hf in H2. destruct (decide (f k = 0)).
    + destruct H2 as [-> H2]. split; [|intros k'; by rewrite H2]. unfold ea_refcount_decrement in E.
      destruct (get_el _ _ _ _ _) as [[i|] rc1]; [destruct (decide (_ = 0))|]; by inversion E.
    + destruct H2 as (-> & -> & H2). split; [done|]. intros k'. cbn. by rewrite H2, Hf.
  - pose proof (store_spec junk_el mem rc k v Hwf) as H. destruct (ea_refcount_store junk_el mem rc k v) as [err rc']. destruct H as [H1 H2].
    split; [done|]. destruct H2 as [[-> H2]|(-> & -> & H2)].
    + left. split; [done|]. intros k'. cbn. by rewrite H2, Hf.
    + right. split_and!; [done|done|]. intros k'. by rewrite H2.
Qed.

Lemma assoc_elem l k : assoc l k <> 0 -> (k, assoc l k) ∈ l.
Proof.
  induction l as [|e l IH]; cbn; [done|]. destruct (decide (e.1 = k)) as [<-|]; intros H; [destruct e; by left|right; auto].
Qed.

Lemma simulates_from junk_el ops : forall rc f, rc_wf rc -> (forall k, count_of rc k = f k) -> simulates junk_el ops rc f.
Proof.
  induction ops as [|op ops IH]; intros rc f Hwf Hf; cbn [simulates].
  - destruct (iterate_visits rc Hwf) as [H1 H2]. split; [done|]. intros k v. rewrite H2, <- Hf. split; [tauto|]. intros [Hv <-]. split_and!; [done| |done].
    by apply assoc_elem.
  - pose proof (run_op_spec junk_el op rc f Hwf Hf) as H. destruct (run_op junk_el op rc) as [[err v] rc']. destruct H as [H1 [[H2 H3]|(H2 & H3 & H4)]]; [left|right]; auto.
Qed.


(** * Witnesses *)

(** Five counts stored out of order in a table for two entries. *)
Definition demo_rc : refcount :=
  foldl (fun rc e => (ea_refcount_store (7, 7) true rc e.1 e.2).2) (ea_refcount_create 2)
        [(30, 1); (10, 4); (20, 0); (5, 2); (40, 9)].

Lemma demo_rc_wf : rc_wf demo_rc.
Proof.
  split; [reflexivity|vm_compute; lia|]. vm_compute. repeat constructor; cbn; lia.
Qed.

Lemma fetch_spec_witness : (ea_refcount_fetch (7, 7) demo_rc 10).1 = 4 /\ count_of demo_rc 10 = 4.
Proof.
  pose proof (fetch_spec (7, 7) demo_rc 10 demo_rc_wf) as H.
  split; [|vm_compute; reflexivity]. destruct (ea_refcount_fetch (7, 7) demo_rc 10) as [v rc'].
  destruct H as [-> _]. vm_compute. reflexivity.
Defined.

Lemma increment_spec_witness : rc_wf (ea_refcount_increment (7, 7) true demo_rc 7).2.
Proof.
  pose proof (increment_spec (7, 7) true demo_rc 7 demo_rc_wf) as H.
  destruct (ea_refcount_increment (7, 7) true demo_rc 7) as [[err v] rc']. destruct H as [H _]. exact H.
Defined.

Lemma decrement_spec_witness :
  (ea_refcount_decrement (7, 7) demo_rc 5).1.1 = 0 /\ (ea_refcount_decrement (7, 7) demo_rc 20).1.1 = EXT2_ET_INVALID_ARGUMENT /\
  rc_wf (ea_refcount_decrement (7, 7) demo_rc 5).2.
Proof.
  split; [vm_compute; reflexivity|]. split; [vm_compute; reflexivity|].
  pose proof (decrement_spec (7, 7) demo_rc 5 demo_rc_wf) as H.
  destruct (ea_refcount_decrement (7, 7) demo_rc 5) as [[err v] rc']. destruct H as [H _]. exact H.
Defined.

Lemma store_spec_witness : rc_wf (ea_refcount_store (7, 7) false demo_rc 7 3).2.
Proof.
  pose proof (store_spec (7, 7) false demo_rc 7 3 demo_rc_wf) as H.
  destruct (ea_refcount_store (7, 7) false demo_rc 7 3) as [err rc']. destruct H as [H _]. exact H.
Defined.

Lemma iterate_visits_witness :
  iterate 100 (ea_refcount_intr_begin demo_rc) = [(5, 2); (10, 4); (30, 1); (40, 9)] /\
  sorted (iterate (S (rc_count demo_rc)) (ea_refcount_intr_begin demo_rc)).
Proof. split; [vm_compute; reflexivity|]. exact (proj1 (iterate_visits demo_rc demo_rc_wf)). Defined.
