(* ===== verification/Badblocks.v ===== *)
(** Lists of bad blocks and of inodes: [rfsck-ext/lib/ext2fs/badblocks.c].

    A list is a sorted array with its capacity and the number of entries in use.  The
    checker keeps the directories to rehash and the encrypted ones in such lists. *)
From Stdlib Require Import ZArith Lia.
From stdpp Require Import base tactics numbers list sorting gmap.
From S2P Require Import Prelude ExtErr.

(** [struct ext2_struct_u32_list] *)
Record u32_list := mkU32 {
  bb_magic : Z;
  bb_num : nat;
  bb_size : nat;
  bb_list : list Z;       (* the array: [bb_size] elements *)
  badblocks_flags : Z
}.

(** [struct ext2_struct_u32_iterate]; the list it is on is an argument of its operations. *)
Record u32_iterate := mkIter { it_magic : Z; it_ptr : nat }.

Section code.
(** What [realloc] leaves in the new part of the array. *)
Variable junk : Z.

(** [make_u32_list]: the code and the list; [None] is a read past the array that is copied.
    [mem] says which of the two allocations succeed. *)
Definition make_u32_list (mem : bool * bool) (size num : nat) (lst : option (list Z))
  : option (Z * option u32_list) :=
  if negb mem.1 then Some (EXT2_ET_NO_MEMORY, None)
  else
    let size := if decide (size = 0%nat) then 10%nat else size in
    if negb mem.2 then Some (EXT2_ET_NO_MEMORY, None)
    else
      match lst with
      | Some l => if decide (length l < size)%nat then None
                  else Some (0, Some (mkU32 EXT2_ET_MAGIC_BADBLOCKS_LIST num size (take size l) 0))
      | None => Some (0, Some (mkU32 EXT2_ET_MAGIC_BADBLOCKS_LIST num size (replicate size 0) 0))
      end.

Definition ext2fs_u32_list_create (mem : bool * bool) (size : nat) : option (Z * option u32_list) :=
  make_u32_list mem size 0 None.

(** [ext2fs_u32_copy] *)
Definition ext2fs_u32_copy (mem : bool * bool) (src : u32_list) : option (Z * option u32_list) :=
  r ← make_u32_list mem (bb_size src) (bb_num src) (Some (bb_list src));
  match r with
  | (0, Some dest) =>
      Some (0, Some (mkU32 (bb_magic dest) (bb_num dest) (bb_size dest) (bb_list dest) (badblocks_flags src)))
  | _ => Some r
  end.

(** The first loop of [ext2fs_u32_list_add], [n] turns from index [i]: [None] when the value
    is there, or the place for it. *)
Fixpoint find_place (n i : nat) (l : list Z) (blk : Z) : option nat :=
  match n with
  | O => Some i
  | S n' =>
      if decide (l !!! i = blk) then None
      else if decide (l !!! i > blk) then Some i
      else find_place n' (S i) l blk
  end.

(** The second loop: entries move up, [n] turns from index [i] down. *)
Fixpoint shift_up (n i : nat) (l : list Z) : list Z :=
  match n with O => l | S n' => shift_up n' (i - 1) (<[i := l !!! (i - 1)%nat]> l) end.

Definition bb_set (num : nat) (l : list Z) (bb : u32_list) : u32_list :=
  mkU32 (bb_magic bb) num (bb_size bb) l (badblocks_flags bb).

(** [ext2fs_u32_list_add] once there is room in the array. *)
Definition add_entry (bb : u32_list) (blk : Z) : u32_list :=
  let l := bb_list bb in
  let num := bb_num bb in
  let last := l !!! (num - 1)%nat in
  if bool_decide (num <> 0%nat) && bool_decide (last = blk) then bb
  else if bool_decide (num = 0%nat) || bool_decide (last < blk) then bb_set (S num) (<[num := blk]> l) bb
  else
    match find_place num 0 l blk with
    | None => bb
    | Some j => bb_set (S num) (<[j := blk]> (shift_up (num - j) num l)) bb
    end.

(** [ext2fs_u32_list_add]; [mem] says whether the array can be enlarged. *)
Definition ext2fs_u32_list_add (mem : bool) (bb : u32_list) (blk : Z) : Z * u32_list :=
  if decide (bb_magic bb <> EXT2_ET_MAGIC_BADBLOCKS_LIST) then (EXT2_ET_MAGIC_BADBLOCKS_LIST, bb)
  else if decide (bb_size bb <= bb_num bb)%nat then
    if mem then
      (0, add_entry (mkU32 (bb_magic bb) (bb_num bb) (bb_size bb + 100) (bb_list bb ++ replicate 100 junk)
                       (badblocks_flags bb)) blk)
    else (EXT2_ET_NO_MEMORY, bb)
  else (0, add_entry bb blk).

(** The binary search of [ext2fs_u32_list_find]. *)
Fixpoint find_loop (fuel : nat) (l : list Z) (blk low high : Z) : Z :=
  match fuel with
  | O => -1
  | S fuel' =>
      if decide (low < high) then
        let mid := u32 (u32 low + u32 high) / 2 in
        if decide (mid = low \/ mid = high) then -1
        else if decide (blk = l !!! Z.to_nat mid) then mid
        else if decide (blk < l !!! Z.to_nat mid) then find_loop fuel' l blk low mid
        else find_loop fuel' l blk mid high
      else -1
  end.

Definition ext2fs_u32_list_find (bb : u32_list) (blk : Z) : Z :=
  if decide (bb_magic bb <> EXT2_ET_MAGIC_BADBLOCKS_LIST) then -1
  else if decide (bb_num bb = 0%nat) then -1
  else
    let low := 0 in
    let high := Z.of_nat (bb_num bb) - 1 in
    if decide (blk = bb_list bb !!! Z.to_nat low) then low
    else if decide (blk = bb_list bb !!! Z.to_nat high) then high
    else find_loop (bb_num bb) (bb_list bb) blk low high.

Definition ext2fs_u32_list_test (bb : u32_list) (blk : Z) : Z :=
  if decide (ext2fs_u32_list_find bb blk < 0) then 0 else 1.

(** The loop of [ext2fs_u32_list_del]: entries move down, [n] turns from index [i]. *)
Fixpoint shift_down (n i : nat) (l : list Z) : list Z :=
  match n with O => l | S n' => shift_down n' (S i) (<[i := l !!! S i]> l) end.

Definition ext2fs_u32_list_del (bb : u32_list) (blk : Z) : Z * u32_list :=
  if decide (bb_num bb = 0%nat) then (-1, bb)
  else
    let remloc := ext2fs_u32_list_find bb blk in
    if decide (remloc < 0) then (-1, bb)
    else
      let i := Z.to_nat remloc in
      (0, bb_set (bb_num bb - 1) (shift_down (bb_num bb - 1 - i) i (bb_list bb)) bb).

(** [ext2fs_u32_list_iterate_begin] and [ext2fs_u32_list_iterate]: the latter returns 1 and
    an entry, or 0. *)
Definition ext2fs_u32_list_iterate_begin (mem : bool) (bb : u32_list) : Z * option u32_iterate :=
  if decide (bb_magic bb <> EXT2_ET_MAGIC_BADBLOCKS_LIST) then (EXT2_ET_MAGIC_BADBLOCKS_LIST, None)
  else if mem then (0, Some (mkIter EXT2_ET_MAGIC_BADBLOCKS_ITERATE 0))
  else (EXT2_ET_NO_MEMORY, None).

Definition ext2fs_u32_list_iterate (bb : u32_list) (it : u32_iterate) : Z * option Z * u32_iterate :=
  if decide (it_magic it <> EXT2_ET_MAGIC_BADBLOCKS_ITERATE) then (0, None, it)
  else if decide (bb_magic bb <> EXT2_ET_MAGIC_BADBLOCKS_LIST) then (0, None, it)
  else if decide (it_ptr it < bb_num bb)%nat
       then (1, Some (bb_list bb !!! it_ptr it), mkIter (it_magic it) (S (it_ptr it)))
  else (0, Some 0, it).

(** [ext2fs_u32_list_equal] *)
Definition ext2fs_u32_list_equal (bb1 bb2 : u32_list) : Z :=
  if decide (bb_magic bb1 <> EXT2_ET_MAGIC_BADBLOCKS_LIST) then EXT2_ET_MAGIC_BADBLOCKS_LIST
  else if decide (bb_magic bb2 <> EXT2_ET_MAGIC_BADBLOCKS_LIST) then EXT2_ET_MAGIC_BADBLOCKS_LIST
  else if decide (bb_num bb1 <> bb_num bb2) then 0
  else if decide (take (bb_num bb1) (bb_list bb1) <> take (bb_num bb1) (bb_list bb2)) then 0
  else 1.

Definition ext2fs_u32_list_count (bb : u32_list) : nat := bb_num bb.

End code.

(** * The list as a set *)

(** The entries in use. *)
Definition elems (bb : u32_list) : list Z := take (bb_num bb) (bb_list bb).

Definition set_of (bb : u32_list) : gset Z := list_to_set (elems bb).

(** Ascending, by positions. *)
Definition ascending (l : list Z) : Prop :=
  forall i j a b, l !! i = Some a -> l !! j = Some b -> (i < j)%nat -> a < b.

Record bb_wf (bb : u32_list) : Prop := {
  bw_magic : bb_magic bb = EXT2_ET_MAGIC_BADBLOCKS_LIST;
  bw_len : length (bb_list bb) = bb_size bb;
  bw_num : (bb_num bb <= bb_size bb)%nat;
  bw_size : (0 < bb_size bb)%nat;
  bw_int : Z.of_nat (bb_size bb) < 2 ^ 31;
  bw_asc : ascending (elems bb)
}.

Lemma ascending_sorted l : ascending l -> StronglySorted Z.lt l.
Proof.
  induction l as [|a l IH]; intros Ha; constructor.
  - apply IH. intros i j x y Hx Hy Hij. apply (Ha (S i) (S j)); [done|done|lia].
  - apply Forall_lookup_2. intros i x Hx. apply (Ha 0%nat (S i)); [done|done|lia].
Qed.

Lemma ascending_nodup l : ascending l -> NoDup l.
Proof.
  intros Ha. apply NoDup_alt. intros i j x Hi Hj.
  destruct (decide (i < j)%nat); [pose proof (Ha i j _ _ Hi Hj ltac:(lia)); lia|].
  destruct (decide (j < i)%nat); [pose proof (Ha j i _ _ Hj Hi ltac:(lia)); lia|lia].
Qed.

Lemma ascending_unique l1 l2 : ascending l1 -> ascending l2 -> (forall x, x ∈ l1 <-> x ∈ l2) -> l1 = l2.
Proof.
  intros H1 H2 Hx. assert (AntiSymm (=) Z.lt) by (intros ???; lia).
  apply (StronglySorted_unique Z.lt).
  - by apply ascending_sorted.
  - by apply ascending_sorted.
  - apply NoDup_Permutation; [by apply ascending_nodup..|done].
Qed.

(** A list in which [x] has been put at position [j]. *)
Lemma ascending_put l l' j x :
  ascending l -> (j <= length l)%nat ->
  (forall p, l' !! p = if decide (p < j)%nat then l !! p else if decide (p = j) then Some x else l !! (p - 1)%nat) ->
  (forall i a, l !! i = Some a -> (i < j)%nat -> a < x) -> (forall i a, l !! i = Some a -> (j <= i)%nat -> x < a) ->
  ascending l' /\ forall y, y ∈ l' <-> y ∈ l \/ y = x.
Proof.
  intros Ha Hj Hl Hlo Hhi. split.
  - intros p q a b Hp Hq Hpq. rewrite Hl in Hp, Hq.
    repeat case_decide; simplify_eq; try lia.
    + by apply (Ha p q).
    + by apply (Hlo p).
    + by apply (Ha p (q - 1)%nat); [done..|lia].
    + apply (Hhi (q - 1)%nat); [done|lia].
    + by apply (Ha (p - 1)%nat (q - 1)%nat); [done..|lia].
  - intros y. rewrite !list_elem_of_lookup. split.
    + intros [p Hp]. rewrite Hl in Hp. repeat case_decide; simplify_eq; eauto.
    + intros [[p Hp]| ->].
      * destruct (decide (p < j)%nat) as [Hlt|Hge].
        -- exists p. rewrite Hl. by rewrite decide_True.
        -- exists (S p). rewrite Hl, !decide_False by lia. by replace (S p - 1)%nat with p by lia.
      * exists j. rewrite Hl, decide_False by lia. by rewrite decide_True.
Qed.

(** A list from which position [j] has been taken out. *)
Lemma ascending_cut l l' j x :
  ascending l -> l !! j = Some x ->
  (forall p, l' !! p = if decide (p < j)%nat then l !! p else l !! S p) ->
  ascending l' /\ forall y, y ∈ l' <-> y ∈ l /\ y <> x.
Proof.
  intros Ha Hj Hl. split.
  - intros p q a b Hp Hq Hpq. rewrite Hl in Hp, Hq. repeat case_decide; try lia.
    + by apply (Ha p q).
    + by apply (Ha p (S q)); [done..|lia].
    + by apply (Ha (S p) (S q)); [done..|lia].
  - intros y. rewrite !list_elem_of_lookup. split.
    + intros [p Hp]. rewrite Hl in Hp. case_decide.
      * split; [eauto|]. pose proof (Ha _ _ _ _ Hp Hj ltac:(lia)). lia.
      * split; [eauto|]. pose proof (Ha _ _ _ _ Hj Hp ltac:(lia)). lia.
    + intros [[p Hp] Hne].
      destruct (decide (p < j)%nat) as [Hlt|Hge]; [exists p; rewrite Hl; by rewrite decide_True|].
      assert (p <> j) by (intros ->; simplify_eq).
      exists (p - 1)%nat. rewrite Hl, decide_False by lia. by replace (S (p - 1)) with p by lia.
Qed.

(** * The loops *)

Lemma lookup_shift_up n : forall i l p, (n <= i < length l)%nat ->
  shift_up n i l !! p = if decide (i - n < p <= i)%nat then l !! (p - 1)%nat else l !! p.
Proof.
  induction n as [|n IH]; intros i l p Hi; cbn [shift_up]; [case_decide; [lia|done]|].
  rewrite IH by (rewrite length_insert; lia).
  destruct (decide (p = i)) as [->|Hne].
  - rewrite decide_False by lia. rewrite decide_True by lia. rewrite list_lookup_insert_eq by lia.
    symmetry. apply list_lookup_lookup_total_lt. lia.
  - repeat case_decide; try lia; rewrite list_lookup_insert_ne by lia; done.
Qed.

Lemma length_shift_up n : forall i l, length (shift_up n i l) = length l.
Proof. induction n as [|n IH]; intros i l; cbn; [done|]. by rewrite IH, length_insert. Qed.

Lemma lookup_shift_down n : forall i l p, (i + n < length l)%nat ->
  shift_down n i l !! p = if decide (i <= p < i + n)%nat then l !! S p else l !! p.
Proof.
  induction n as [|n IH]; intros i l p Hi; cbn [shift_down]; [case_decide; [lia|done]|].
  rewrite IH by (rewrite length_insert; lia).
  destruct (decide (p = i)) as [->|Hne].
  - rewrite decide_False by lia. rewrite decide_True by lia. rewrite list_lookup_insert_eq by lia.
    symmetry. apply list_lookup_lookup_total_lt. lia.
  - repeat case_decide; try lia; rewrite list_lookup_insert_ne by lia; done.
Qed.

Lemma length_shift_down n : forall i l, length (shift_down n i l) = length l.
Proof. induction n as [|n IH]; intros i l; cbn; [done|]. by rewrite IH, length_insert. Qed.

(** The place that [find_place] finds separates the smaller entries from the larger ones. *)
Lemma find_place_spec n : forall i l blk,
  ascending (take (i + n) l) -> (i + n <= length l)%nat ->
  (forall p a, l !! p = Some a -> (p < i)%nat -> a < blk) ->
  match find_place n i l blk with
  | None => blk ∈ take (i + n) l
  | Some j => (j <= i + n)%nat /\ (forall p a, take (i + n) l !! p = Some a -> (p < j)%nat -> a < blk) /\
              (forall p a, take (i + n) l !! p = Some a -> (j <= p)%nat -> blk < a)
  end.
Proof.
  induction n as [|n IH]; intros i l blk Ha Hn Hlo; cbn [find_place].
  { split_and!; [lia| |].
    - intros p a [Hp _]%lookup_take_Some Hlt. by apply (Hlo p).
    - intros p a [_ Hlt]%lookup_take_Some Hge. lia. }
  assert (Hi : l !! i = Some (l !!! i)) by (apply list_lookup_lookup_total_lt; lia).
  assert (Hti : take (i + S n) l !! i = Some (l !!! i)) by (rewrite lookup_take_lt by lia; done).
  case_decide as Heq.
  { rewrite <- Heq. by eapply list_elem_of_lookup_2. }
  case_decide as Hgt.
  { split_and!; [lia| |].
    - intros p a [Hp _]%lookup_take_Some Hlt. by apply (Hlo p).
    - intros p a Hp Hge. destruct (decide (p = i)) as [->|Hne]; [rewrite Hti in Hp; simplify_eq; lia|].
      pose proof (Ha _ _ _ _ Hti Hp ltac:(lia)). lia. }
  replace (i + S n)%nat with (S i + n)%nat in * by lia. apply IH; [done|done|].
  intros p a Hp Hlt. destruct (decide (p = i)) as [->|Hne]; [rewrite Hi in Hp; simplify_eq; lia|].
  apply (Hlo p a Hp). lia.
Qed.

Lemma elems_lookup bb i : bb_wf bb -> (i < bb_num bb)%nat -> elems bb !! i = Some (bb_list bb !!! i).
Proof.
  intros [] Hi. unfold elems. rewrite lookup_take_lt by done. apply list_lookup_lookup_total_lt. lia.
Qed.

Lemma length_elems bb : bb_wf bb -> length (elems bb) = bb_num bb.
Proof. intros []. unfold elems. rewrite length_take. lia. Qed.

(** The search keeps the place of the value strictly between its bounds. *)
Lemma bb_search_spec fuel bb blk : forall low high,
  bb_wf bb -> 0 <= low -> high < Z.of_nat (bb_num bb) -> high - low < Z.of_nat fuel ->
  (forall p, elems bb !! p = Some blk -> low < Z.of_nat p < high) ->
  let r := find_loop fuel (bb_list bb) blk low high in
  (r = -1 /\ blk ∉ elems bb) \/ (0 <= r /\ elems bb !! Z.to_nat r = Some blk).
Proof.
  induction fuel as [|fuel IH]; intros low high Hwf Hl Hh Hf Hb; cbn [find_loop]; cbv zeta.
  { left. split; [done|]. intros [p Hp]%list_elem_of_lookup. apply Hb in Hp. lia. }
  pose proof (bw_int _ Hwf) as Hint. pose proof (bw_num _ Hwf) as Hnum.
  case_decide as Hlt; [|left; split; [done|]; intros [p Hp]%list_elem_of_lookup; apply Hb in Hp; lia].
  rewrite !(u32_small low), !(u32_small high), (u32_small (low + high)) by (unfold in_u; lia).
  set (mid := (low + high) / 2).
  assert (Hm : low <= mid < high) by (unfold mid; split; [apply Z.div_le_lower_bound|apply Z.div_lt_upper_bound]; lia).
  assert (Hm2 : high <= 2 * mid - low + 1).
  { unfold mid. pose proof (Z.mod_pos_bound (low + high) 2). pose proof (Z.div_mod (low + high) 2). lia. }
  case_decide as Hend.
  { left. split; [done|]. intros [p Hp]%list_elem_of_lookup. apply Hb in Hp. lia. }
  assert (Hmid : elems bb !! Z.to_nat mid = Some (bb_list bb !!! Z.to_nat mid)) by (apply elems_lookup; [done|lia]).
  case_decide as Heq; [right; split; [lia|]; by rewrite Hmid, Heq|].
  pose proof (bw_asc _ Hwf) as Ha.
  case_decide as Hb2; (apply IH; [done|lia|lia|lia|]); intros p Hp; pose proof (Hb p Hp).
  - destruct (decide (Z.of_nat p < mid)); [lia|].
    destruct (decide (Z.to_nat mid = p)) as [<-|]; [rewrite Hp in Hmid; congruence|].
    pose proof (Ha _ _ _ _ Hmid Hp ltac:(lia)). lia.
  - destruct (decide (mid < Z.of_nat p)); [lia|].
    destruct (decide (Z.to_nat mid = p)) as [<-|]; [rewrite Hp in Hmid; congruence|].
    pose proof (Ha _ _ _ _ Hp Hmid ltac:(lia)). lia.
Qed.

(** The check of the magic number passes. *)
Ltac pass_magic Hwf :=
  match goal with |- context [decide (bb_magic ?bb <> _)] =>
    let H := fresh in destruct (decide (bb_magic bb <> _)) as [H|_]; [by rewrite (bw_magic _ Hwf) in H|]
  end.

Lemma bb_find_spec bb blk : bb_wf bb ->
  let r := ext2fs_u32_list_find bb blk in
  (r = -1 /\ blk ∉ elems bb) \/ (0 <= r /\ elems bb !! Z.to_nat r = Some blk).
Proof.
  intros Hwf. unfold ext2fs_u32_list_find. cbv zeta. pass_magic Hwf.
  case_decide as Hz.
  { left. split; [done|]. unfold elems. rewrite Hz. cbn. apply not_elem_of_nil. }
  change (Z.to_nat 0) with 0%nat. pose proof (elems_lookup bb 0 Hwf ltac:(lia)) as H0.
  pose proof (elems_lookup bb (Z.to_nat (Z.of_nat (bb_num bb) - 1)) Hwf ltac:(lia)) as H1.
  case_decide as He0; [right; split; [lia|]; by rewrite He0|].
  case_decide as He1; [right; split; [lia|]; by rewrite He1|].
  apply bb_search_spec; [done|lia|lia|lia|]. intros p Hp.
  assert (Hpn : (p < bb_num bb)%nat) by (apply lookup_lt_Some in Hp; by rewrite length_elems in Hp).
  destruct (decide (p = 0%nat)) as [->|]; [rewrite Hp in H0; congruence|].
  destruct (decide (p = Z.to_nat (Z.of_nat (bb_num bb) - 1))) as [->|]; [rewrite Hp in H1; congruence|]. lia.
Qed.

(** The list after an insertion at [j]; [l'] is the new array. *)
Lemma put_wf bb l' j blk :
  bb_wf bb -> (bb_num bb < bb_size bb)%nat -> length l' = length (bb_list bb) -> (j <= bb_num bb)%nat ->
  (forall p, (p <= bb_num bb)%nat -> l' !! p =
     if decide (p < j)%nat then bb_list bb !! p else if decide (p = j) then Some blk else bb_list bb !! (p - 1)%nat) ->
  (forall i a, elems bb !! i = Some a -> (i < j)%nat -> a < blk) ->
  (forall i a, elems bb !! i = Some a -> (j <= i)%nat -> blk < a) ->
  bb_wf (bb_set (S (bb_num bb)) l' bb) /\ set_of (bb_set (S (bb_num bb)) l' bb) = {[blk]} ∪ set_of bb.
Proof.
  intros Hwf Hroom Hlen Hj Hl Hlo Hhi.
  destruct (ascending_put (elems bb) (elems (bb_set (S (bb_num bb)) l' bb)) j blk) as [Ha Hx]; try done.
  - apply Hwf.
  - by rewrite length_elems.
  - intros p. unfold elems. cbn [bb_num bb_set bb_list].
    destruct (decide (p < S (bb_num bb))%nat) as [Hp|Hp].
    + rewrite lookup_take_lt, Hl by lia. repeat case_decide; rewrite ?lookup_take_lt by lia; done.
    + rewrite lookup_take_ge by lia. rewrite decide_False by lia. rewrite decide_False by lia.
      rewrite lookup_take_ge by lia. done.
  - split; [destruct Hwf; split; cbn; try done; lia|].
    unfold set_of. apply set_eq. intros y. rewrite elem_of_union, elem_of_singleton, !elem_of_list_to_set, Hx. tauto.
Qed.

(** An entry that is there already changes nothing. *)
Lemma set_of_present bb blk : blk ∈ elems bb -> set_of bb = {[blk]} ∪ set_of bb.
Proof. intros Hin. unfold set_of. set_solver. Qed.

Lemma add_entry_ok bb blk :
  bb_wf bb -> (bb_num bb < bb_size bb)%nat ->
  bb_wf (add_entry bb blk) /\ set_of (add_entry bb blk) = {[blk]} ∪ set_of bb /\
  bb_size (add_entry bb blk) = bb_size bb.
Proof.
  intros Hwf Hroom. unfold add_entry. cbv zeta.
  pose proof (bw_asc _ Hwf) as Ha. pose proof (bw_len _ Hwf) as Hlen.
  destruct (decide (bb_num bb = 0%nat)) as [Hz|Hz].
  { rewrite bool_decide_eq_false_2 by lia. rewrite (bool_decide_eq_true_2 (bb_num bb = 0%nat)) by done. cbn [andb orb].
    destruct (put_wf bb (<[bb_num bb := blk]> (bb_list bb)) (bb_num bb) blk) as [H1 H2]; try done.
    - by rewrite length_insert.
    - intros p Hp. replace p with (bb_num bb) by lia. rewrite decide_False, decide_True by lia.
      apply list_lookup_insert_eq. lia.
    - intros i a Hi _. unfold elems in Hi. by rewrite Hz in Hi.
    - intros i a Hi _. unfold elems in Hi. by rewrite Hz in Hi. }
  rewrite bool_decide_eq_true_2 by done. rewrite (bool_decide_eq_false_2 (bb_num bb = 0%nat)) by done. cbn [andb orb].
  pose proof (elems_lookup bb (bb_num bb - 1) Hwf ltac:(lia)) as Hlast.
  case_bool_decide as Heq.
  { split_and!; [done| |done]. apply set_of_present. rewrite <- Heq. by eapply list_elem_of_lookup_2. }
  case_bool_decide as Hlt.
  { destruct (put_wf bb (<[bb_num bb := blk]> (bb_list bb)) (bb_num bb) blk) as [H1 H2]; try done.
    - by rewrite length_insert.
    - intros p Hp. destruct (decide (p = bb_num bb)) as [->|Hne].
      + rewrite decide_False by lia. apply list_lookup_insert_eq. lia.
      + rewrite decide_True by lia. by apply list_lookup_insert_ne.
    - intros i a Hi Hib. destruct (decide (i = bb_num bb - 1)%nat) as [->|]; [rewrite Hlast in Hi; simplify_eq; lia|].
      pose proof (Ha _ _ _ _ Hi Hlast ltac:(lia)). lia.
    - intros i a Hi%lookup_lt_Some. rewrite length_elems in Hi by done. lia. }
  pose proof (find_place_spec (bb_num bb) 0 (bb_list bb) blk Ha ltac:(pose proof (bw_num _ Hwf); lia)
                ltac:(intros; lia)) as Hf. cbn [Nat.add] in Hf. change (take (bb_num bb) (bb_list bb)) with (elems bb) in Hf.
  destruct (find_place (bb_num bb) 0 (bb_list bb) blk) as [j|]; [|by split_and!; [|apply set_of_present|]].
  destruct Hf as (Hj & Hlo & Hhi).
  destruct (put_wf bb (<[j := blk]> (shift_up (bb_num bb - j) (bb_num bb) (bb_list bb))) j blk) as [H1 H2]; try done.
  - by rewrite length_insert, length_shift_up.
  - intros p Hp. destruct (decide (p = j)) as [->|Hne].
    + rewrite decide_False by lia. apply list_lookup_insert_eq. rewrite length_shift_up. lia.
    + rewrite list_lookup_insert_ne by done. rewrite lookup_shift_up by lia. repeat case_decide; (done || lia).
Qed.

Section proofs.
Variable junk : Z.

(** Adding: the entry is in the set afterwards, unless there is no memory for it. *)
Lemma add_ok mem bb blk :
  bb_wf bb -> Z.of_nat (bb_size bb) + 100 < 2 ^ 31 ->
  let '(err, bb') := ext2fs_u32_list_add junk mem bb blk in
  bb_wf bb' /\
  (err = 0 /\ set_of bb' = {[blk]} ∪ set_of bb \/
   err = EXT2_ET_NO_MEMORY /\ mem = false /\ bb_num bb = bb_size bb /\ bb' = bb).
Proof.
  intros Hwf Hint. unfold ext2fs_u32_list_add. pass_magic Hwf. pose proof (bw_num _ Hwf) as Hnum.
  pose proof (bw_len _ Hwf) as Hlen. case_decide as Hfull.
  - destruct mem; [|split; [done|]; right; split_and!; (done || lia)].
    set (bb1 := mkU32 _ _ _ _ _).
    assert (He : elems bb1 = elems bb) by (unfold elems; cbn; by rewrite take_app_le by lia).
    assert (Hwf1 : bb_wf bb1).
    { destruct Hwf. split; [done|cbn [bb1 bb_list bb_size]; rewrite length_app, length_replicate; lia|cbn; lia..|by rewrite He]. }
    destruct (add_entry_ok bb1 blk Hwf1 ltac:(cbn; lia)) as (H1 & H2 & _).
    split; [done|]. left. split; [done|]. rewrite H2. unfold set_of. by rewrite He.
  - destruct (add_entry_ok bb blk Hwf ltac:(lia)) as (H1 & H2 & _). split; [done|]. by left.
Qed.

(** Deleting: the entry is gone afterwards; -1 says that it was not there. *)
Lemma del_ok bb blk :
  bb_wf bb ->
  let '(err, bb') := ext2fs_u32_list_del bb blk in
  bb_wf bb' /\ set_of bb' = set_of bb ∖ {[blk]} /\ (err = 0 /\ blk ∈ set_of bb \/ err = -1 /\ blk ∉ set_of bb).
Proof.
  intros Hwf. unfold ext2fs_u32_list_del. cbv zeta.
  assert (Hno : blk ∉ elems bb -> bb_wf bb /\ set_of bb = set_of bb ∖ {[blk]} /\
            (-1 = 0 /\ blk ∈ set_of bb \/ -1 = -1 /\ blk ∉ set_of bb)).
  { intros Hn. unfold set_of. split_and!; [done|set_solver|right; split; [done|by rewrite elem_of_list_to_set]]. }
  case_decide as Hz; [apply Hno; unfold elems; rewrite Hz; cbn; set_solver|].
  destruct (bb_find_spec bb blk Hwf) as [[-> Hn]|[Hr Hi]]; [by apply Hno|].
  set (r := ext2fs_u32_list_find bb blk) in *. rewrite decide_False by lia. clear Hno.
  assert (Hrn : (Z.to_nat r < bb_num bb)%nat) by (apply lookup_lt_Some in Hi; by rewrite length_elems in Hi).
  pose proof (bw_num _ Hwf) as Hnum. pose proof (bw_len _ Hwf) as Hlen.
  set (bb' := bb_set _ _ bb).
  destruct (ascending_cut (elems bb) (elems bb') (Z.to_nat r) blk (bw_asc _ Hwf) Hi) as [Ha Hx].
  { intros p. unfold elems. cbn [bb' bb_set bb_num bb_list].
    destruct (decide (p < bb_num bb - 1)%nat) as [Hp|Hp].
    - rewrite lookup_take_lt by done. rewrite lookup_shift_down by lia.
      repeat case_decide; rewrite ?lookup_take_lt by lia; (done || lia).
    - rewrite lookup_take_ge by lia. rewrite decide_False by lia. rewrite lookup_take_ge by lia. done. }
  split_and!.
  - destruct Hwf. split; [done|cbn; by rewrite length_shift_down|cbn; lia|done|done|done].
  - unfold set_of. apply set_eq. intros y. rewrite elem_of_difference, elem_of_singleton, !elem_of_list_to_set. apply Hx.
  - left. split; [done|]. unfold set_of. rewrite elem_of_list_to_set. by eapply list_elem_of_lookup_2.
Qed.

Lemma test_ok bb blk : bb_wf bb -> ext2fs_u32_list_test bb blk = if decide (blk ∈ set_of bb) then 1 else 0.
Proof.
  intros Hwf. unfold ext2fs_u32_list_test, set_of.
  destruct (bb_find_spec bb blk Hwf) as [[-> Hn]|[Hr Hi]].
  - rewrite decide_True, decide_False; [done| |lia]. by rewrite elem_of_list_to_set.
  - rewrite decide_False, decide_True; [done| |lia]. rewrite elem_of_list_to_set. by eapply list_elem_of_lookup_2.
Qed.

Lemma equal_ok bb1 bb2 : bb_wf bb1 -> bb_wf bb2 ->
  ext2fs_u32_list_equal bb1 bb2 = if decide (set_of bb1 = set_of bb2) then 1 else 0.
Proof.
  intros H1 H2. unfold ext2fs_u32_list_equal. pass_magic H1. pass_magic H2.
  assert (Hiff : elems bb1 = elems bb2 <-> set_of bb1 = set_of bb2).
  { split; [unfold set_of; by intros ->|]. intros Hs. apply ascending_unique; [apply H1|apply H2|].
    intros x. unfold set_of in Hs. rewrite <- !(elem_of_list_to_set (C := gset Z)). by rewrite Hs. }
  pose proof (length_elems bb1 H1) as L1. pose proof (length_elems bb2 H2) as L2.
  destruct (decide (set_of bb1 = set_of bb2)) as [Hs|Hs].
  - apply Hiff in Hs. assert (Hn : bb_num bb1 = bb_num bb2) by congruence.
    rewrite decide_False by lia. rewrite decide_False; [done|]. unfold elems in Hs. rewrite <- Hn in Hs. auto.
  - case_decide as Hn; [done|]. rewrite decide_True; [done|]. intros He. apply Hs, Hiff. unfold elems.
    by rewrite <- Hn.
Qed.

(** * Iteration *)

(** The entries delivered in [fuel] calls. *)
Fixpoint visit (fuel : nat) (bb : u32_list) (it : u32_iterate) : list Z :=
  match fuel with
  | O => []
  | S fuel' =>
      match ext2fs_u32_list_iterate bb it with
      | (1, Some x, it) => x :: visit fuel' bb it
      | _ => []
      end
  end.

Lemma visit_from fuel bb : bb_wf bb -> forall p, (p <= bb_num bb < p + fuel)%nat ->
  visit fuel bb (mkIter EXT2_ET_MAGIC_BADBLOCKS_ITERATE p) = drop p (elems bb).
Proof.
  intros Hwf. induction fuel as [|fuel IH]; intros p Hp; [lia|]. cbn [visit].
  unfold ext2fs_u32_list_iterate. cbn [it_magic it_ptr]. rewrite decide_False by (intros []; done). pass_magic Hwf.
  case_decide as Hlt.
  - rewrite IH by lia. symmetry. apply drop_S. by apply elems_lookup.
  - symmetry. apply drop_ge. rewrite length_elems by done. lia.
Qed.

(** C23: a list of blocks or inodes refines a finite set: add, delete, test, equality, the
    count and the iteration (each entry once, in ascending order) are those of the set, add fails for lack of memory
    alone and then changes nothing, and all keep the array sorted without duplicates. *)
Theorem u32_list_refines_set bb :
  bb_wf bb -> Z.of_nat (bb_size bb) + 100 < 2 ^ 31 ->
  (forall mem blk, let '(err, bb') := ext2fs_u32_list_add junk mem bb blk in
     bb_wf bb' /\ (err = 0 /\ set_of bb' = {[blk]} ∪ set_of bb \/
                   err = EXT2_ET_NO_MEMORY /\ mem = false /\ bb_num bb = bb_size bb /\ bb' = bb)) /\
  (forall blk, let '(err, bb') := ext2fs_u32_list_del bb blk in
     bb_wf bb' /\ set_of bb' = set_of bb ∖ {[blk]} /\ (err = 0 /\ blk ∈ set_of bb \/ err = -1 /\ blk ∉ set_of bb)) /\
  (forall blk, ext2fs_u32_list_test bb blk = if decide (blk ∈ set_of bb) then 1 else 0) /\
  (forall bb2, bb_wf bb2 -> ext2fs_u32_list_equal bb bb2 = if decide (set_of bb = set_of bb2) then 1 else 0) /\
  (exists dest, ext2fs_u32_copy (true, true) bb = Some (0, Some dest) /\ bb_wf dest /\ set_of dest = set_of bb) /\
  size (set_of bb) = ext2fs_u32_list_count bb /\
  exists it, ext2fs_u32_list_iterate_begin true bb = (0, Some it) /\
    let l := visit (S (bb_num bb)) bb it in StronglySorted Z.lt l /\ forall x, x ∈ l <-> x ∈ set_of bb.
Proof.
  intros Hwf Hint. split_and!.
  - intros mem blk. by apply add_ok.
  - intros blk. by apply del_ok.
  - intros blk. by apply test_ok.
  - intros bb2 H2. by apply equal_ok.
  - unfold ext2fs_u32_copy, make_u32_list. cbn [negb fst snd]. pose proof (bw_size _ Hwf). pose proof (bw_len _ Hwf) as Hl.
    rewrite (decide_False (P := bb_size bb = 0%nat)) by lia. rewrite decide_False by lia.
    eexists. split; [reflexivity|]. rewrite take_ge by lia. split; [|done].
    destruct Hwf. by split.
  - unfold set_of. rewrite size_list_to_set by (apply ascending_nodup, Hwf). by apply length_elems.
  - eexists. unfold ext2fs_u32_list_iterate_begin. pass_magic Hwf. split; [reflexivity|]. cbv zeta.
    rewrite visit_from by (done || lia). cbn [drop]. split; [apply ascending_sorted, Hwf|].
    intros x. unfold set_of. by rewrite elem_of_list_to_set.
Qed.
End proofs.

Definition demo_list : u32_list := mkU32 EXT2_ET_MAGIC_BADBLOCKS_LIST 3 3 [5; 7; 12] 0.

Lemma demo_list_wf : bb_wf demo_list.
Proof.
  split; try (vm_compute; lia); try done.
  intros i j a b Hi Hj Hij. change (elems demo_list) with [5; 7; 12] in *.
  pose proof (lookup_lt_Some _ _ _ Hj) as Hj3. cbn in Hj3.
  destruct i as [|[|[|i]]], j as [|[|[|j]]]; try lia; injection Hi as <-; injection Hj as <-; lia.
Qed.

Lemma u32_list_refines_set_witness :
  (let '(err, bb') := ext2fs_u32_list_add 0 true demo_list 6 in
   err = 0 /\ elems bb' = [5; 6; 7; 12]) /\
  ext2fs_u32_list_test demo_list 7 = if decide (7 ∈ set_of demo_list) then 1 else 0.
Proof.
  split; [split; vm_compute; reflexivity|].
  destruct (u32_list_refines_set 0 demo_list demo_list_wf ltac:(vm_compute; reflexivity)) as (_ & _ & Ht & _).
  apply Ht.
Defined.
