(* ===== verification/Bitops.v ===== *)
(** Bit operations on byte arrays: [rfsck-ext/lib/ext2fs/bitops.c] and the inline
    functions of [bitops.h].

    An array of bytes is a list of integers; [bit l n] is the abstract view, bit [n] of the
    array, and the lemmas say what each operation does to it. *)
From Stdlib Require Import ZArith Lia.
From stdpp Require Import base tactics numbers list.
From S2P Require Import Prelude.

Definition byte_at (l : list Z) (i : Z) : Z := l !!! Z.to_nat i.

(** * The operations *)

Definition bit_mask (nr : Z) : Z := Z.shiftl 1 (Z.land nr 7).

(** [ext2fs_set_bit64]: what it returns and the new array. *)
Definition ext2fs_set_bit64 (nr : Z) (l : list Z) : Z * list Z :=
  let i := Z.shiftr nr 3 in
  let mask := bit_mask nr in
  (Z.land mask (byte_at l i), <[Z.to_nat i := u8 (Z.lor (byte_at l i) mask)]> l).

Definition ext2fs_clear_bit64 (nr : Z) (l : list Z) : Z * list Z :=
  let i := Z.shiftr nr 3 in
  let mask := bit_mask nr in
  (Z.land mask (byte_at l i), <[Z.to_nat i := u8 (Z.land (byte_at l i) (Z.lnot mask))]> l).

Definition ext2fs_test_bit64 (nr : Z) (l : list Z) : Z :=
  Z.land (bit_mask nr) (byte_at l (Z.shiftr nr 3)).

(** [ext2fs_fast_set_bit64] and [ext2fs_fast_clear_bit64] return nothing. *)
Definition ext2fs_fast_set_bit64 (nr : Z) (l : list Z) : list Z :=
  let i := Z.shiftr nr 3 in <[Z.to_nat i := u8 (Z.lor (byte_at l i) (Z.shiftl 1 (Z.land nr 7)))]> l.

Definition ext2fs_fast_clear_bit64 (nr : Z) (l : list Z) : list Z :=
  let i := Z.shiftr nr 3 in
  <[Z.to_nat i := u8 (Z.land (byte_at l i) (Z.lnot (Z.shiftl 1 (Z.land nr 7))))]> l.

(** [popcount8] and [popcount32]: sums in parallel, in an [unsigned int]. *)
Definition popcount8 (w : Z) : Z :=
  let res := u32 (w - Z.land (Z.shiftr w 1) 0x55) in
  let res := u32 (Z.land res 0x33 + Z.land (Z.shiftr res 2) 0x33) in
  Z.land (u32 (res + Z.shiftr res 4)) 0x0f.

Definition popcount32 (w : Z) : Z :=
  let res := u32 (w - Z.land (Z.shiftr w 1) 0x55555555) in
  let res := u32 (Z.land res 0x33333333 + Z.land (Z.shiftr res 2) 0x33333333) in
  let res := Z.land (u32 (res + Z.shiftr res 4)) 0x0f0f0f0f in
  let res := u32 (res + Z.shiftr res 8) in
  Z.land (u32 (res + Z.shiftr res 16)) 0xff.

(** [ext2fs_bitcount]: [addr] is the address of the array; the state of each loop is the
    index of the next byte, the number of bytes left and the sum. *)
Fixpoint count_align (fuel : nat) (addr : Z) (l : list Z) (cp nbytes res : Z) : Z * Z * Z :=
  match fuel with
  | O => (cp, nbytes, res)
  | S fuel' =>
      if bool_decide (Z.land (addr + cp) 3 <> 0) && bool_decide (nbytes > 0)
      then count_align fuel' addr l (cp + 1) (nbytes - 1) (u32 (res + popcount8 (byte_at l cp)))
      else (cp, nbytes, res)
  end.

Fixpoint count_words (fuel : nat) (l : list Z) (p nbytes res : Z) : Z * Z * Z :=
  match fuel with
  | O => (p, nbytes, res)
  | S fuel' =>
      if bool_decide (nbytes > 4)
      then count_words fuel' l (p + 4) (nbytes - 4) (u32 (res + popcount32 (le_val (zslice p 4 l))))
      else (p, nbytes, res)
  end.

Fixpoint count_bytes (fuel : nat) (l : list Z) (cp nbytes res : Z) : Z :=
  match fuel with
  | O => res
  | S fuel' =>
      if bool_decide (nbytes > 0)
      then count_bytes fuel' l (cp + 1) (nbytes - 1) (u32 (res + popcount8 (byte_at l cp)))
      else res
  end.

(** The word read is little-endian; each loop makes at most [nbytes] turns. *)
Definition ext2fs_bitcount (addr : Z) (l : list Z) (nbytes : Z) : Z :=
  let fuel := Z.to_nat nbytes in
  let '(cp, nbytes, res) := count_align fuel addr l 0 nbytes 0 in
  let '(p, nbytes, res) := count_words fuel l cp nbytes res in
  count_bytes fuel l p nbytes res.

(** * The abstract view *)

Definition bytes (l : list Z) : Prop := Forall (in_u 8) l.

Lemma bytes_check l : forallb (fun b => (0 <=? b) && (b <? 256)) l = true -> bytes l.
Proof.
  intros H. rewrite forallb_forall in H. apply Forall_forall. intros b Hb%list_elem_of_In%H.
  unfold in_u. pow2_norm. lia.
Qed.

Definition bit (l : list Z) (n : Z) : bool := Z.testbit (byte_at l (n / 8)) (n mod 8).

(** [n] is the number of a bit of the array. *)
Definition has_bit (l : list Z) (n : Z) : Prop := 0 <= n < 8 * zlen l.

Lemma byte_at_range l i : bytes l -> in_u 8 (byte_at l i).
Proof.
  intros Hl. unfold byte_at. destruct (l !! Z.to_nat i) as [b|] eqn:Hi.
  - rewrite (list_lookup_total_correct _ _ _ Hi). eapply Forall_lookup_1; done.
  - rewrite list_lookup_total_alt, Hi. unfold in_u. cbn. lia.
Qed.

Lemma byte_at_lookup l i : 0 <= i < zlen l -> l !! Z.to_nat i = Some (byte_at l i).
Proof. intros Hi. apply list_lookup_lookup_total_lt. unfold zlen in Hi. lia. Qed.

Lemma byte_at_insert l i j b :
  0 <= i < zlen l -> 0 <= j -> byte_at (<[Z.to_nat i := b]> l) j = if decide (j = i) then b else byte_at l j.
Proof.
  intros Hi Hj. unfold byte_at, zlen in *. case_decide as E.
  - subst j. apply list_lookup_total_insert_eq. lia.
  - apply list_lookup_total_insert_ne. lia.
Qed.

Lemma shiftr3 n : Z.shiftr n 3 = n / 8.
Proof. rewrite Z.shiftr_div_pow2 by lia. done. Qed.

Lemma land7 n : Z.land n 7 = n mod 8.
Proof. change 7 with (Z.ones 3). rewrite Z.land_ones by lia. done. Qed.

Lemma testbit_mask nr i : 0 <= nr -> 0 <= i -> Z.testbit (bit_mask nr) i = bool_decide (i = nr mod 8).
Proof.
  intros Hn Hi. unfold bit_mask. rewrite land7, Z.shiftl_1_l.
  pose proof (Z.mod_pos_bound nr 8). case_bool_decide as E.
  - subst i. apply Z.pow2_bits_true. lia.
  - apply Z.pow2_bits_false. lia.
Qed.

(** Two non-negative integers with no bit in common. *)
Lemma land_zero_iff a b : 0 <= a -> Z.land a b = 0 <-> (forall i, 0 <= i -> Z.testbit a i = true -> Z.testbit b i = false).
Proof.
  intros Ha. split.
  - intros H i Hi Hb. assert (Hz := Z.land_spec a b i). rewrite H, Z.bits_0, Hb in Hz. done.
  - intros H. apply Z.bits_inj'. intros i Hi. rewrite Z.land_spec, Z.bits_0.
    destruct (Z.testbit a i) eqn:Hb; [|done]. by rewrite H.
Qed.

Lemma land_mask nr b : 0 <= nr -> Z.land (bit_mask nr) b = 0 <-> Z.testbit b (nr mod 8) = false.
Proof.
  intros Hn. rewrite land_zero_iff by (unfold bit_mask; apply Z.shiftl_nonneg; lia).
  pose proof (Z.mod_pos_bound nr 8). split.
  - intros H1. apply H1; [lia|]. rewrite testbit_mask by lia. by apply bool_decide_eq_true_2.
  - intros H1 i Hi. rewrite testbit_mask by lia. intros ->%bool_decide_eq_true. done.
Qed.

Lemma testbit_u8 z i : 0 <= i < 8 -> Z.testbit (u8 z) i = Z.testbit z i.
Proof. intros. unfold u8. apply Z.mod_pow2_bits_low. lia. Qed.

Lemma u8_range z : in_u 8 (u8 z).
Proof. unfold in_u, u8. apply Z.mod_pos_bound. lia. Qed.

(** The updates of one bit have the same shape: one byte changes. *)
Lemma bit_insert l nr b n :
  has_bit l nr -> 0 <= n ->
  bit (<[Z.to_nat (Z.shiftr nr 3) := u8 b]> l) n =
    if decide (n / 8 = nr / 8) then Z.testbit b (n mod 8) else bit l n.
Proof.
  intros [Hn0 Hn] H0. unfold bit. rewrite shiftr3.
  assert (0 <= nr / 8 < zlen l) by (split; [apply Z.div_pos; lia|apply Z.div_lt_upper_bound; lia]).
  rewrite byte_at_insert by (try apply Z.div_pos; lia). case_decide; [|done].
  apply testbit_u8, Z.mod_pos_bound. lia.
Qed.

Lemma same_bit n m : n / 8 = m / 8 -> n mod 8 = m mod 8 -> n = m.
Proof. intros. pose proof (Z.div_mod n 8). pose proof (Z.div_mod m 8). lia. Qed.

Lemma bytes_insert l i b : bytes l -> bytes (<[i := u8 b]> l).
Proof. intros. apply Forall_insert; [done|apply u8_range]. Qed.

Lemma zlen_insert i b l : zlen (<[i := b]> l) = zlen l.
Proof. unfold zlen. by rewrite length_insert. Qed.

(** * What the operations do *)

Lemma set_bit_bit l nr n :
  has_bit l nr -> 0 <= n -> bit (ext2fs_set_bit64 nr l).2 n = bool_decide (n = nr) || bit l n.
Proof.
  intros Hn H0. cbn. rewrite bit_insert by done. destruct Hn as [Hn _].
  case_decide as E; [|rewrite bool_decide_eq_false_2 by (intros ->; done); done].
  rewrite Z.lor_spec, testbit_mask by (pose proof (Z.mod_pos_bound n 8); lia).
  rewrite shiftr3, <- E, orb_comm. f_equal. apply bool_decide_ext. split; [intros; by apply same_bit|by intros ->].
Qed.

Lemma clear_bit_bit l nr n :
  has_bit l nr -> 0 <= n -> bit (ext2fs_clear_bit64 nr l).2 n = negb (bool_decide (n = nr)) && bit l n.
Proof.
  intros Hn H0. cbn. rewrite bit_insert by done. destruct Hn as [Hn _].
  case_decide as E; [|rewrite bool_decide_eq_false_2 by (intros ->; done); done].
  rewrite Z.land_spec, Z.lnot_spec, testbit_mask by (pose proof (Z.mod_pos_bound n 8); lia).
  rewrite shiftr3, <- E, andb_comm. do 2 f_equal. apply bool_decide_ext. split; [intros; by apply same_bit|by intros ->].
Qed.

Lemma test_bit_bit l nr : 0 <= nr -> ext2fs_test_bit64 nr l = 0 <-> bit l nr = false.
Proof. intros Hn. unfold ext2fs_test_bit64, bit. rewrite land_mask by done. by rewrite shiftr3. Qed.

Lemma test_bit_true l nr : 0 <= nr -> ext2fs_test_bit64 nr l <> 0 <-> bit l nr = true.
Proof. intros Hn. rewrite test_bit_bit by done. by rewrite not_false_iff_true. Qed.

(** * Population count *)

(** The number of one bits of a byte. *)
Definition ones8 (b : Z) : Z :=
  foldr (fun i acc => Z.b2z (Z.testbit b i) + acc) 0 (seqZ 0 8).

(** A property of the 256 bytes is decided by trying them. *)
Lemma byte_cases (P : Z -> bool) : forallb P (seqZ 0 256) = true -> forall b, in_u 8 b -> P b = true.
Proof.
  intros H b Hb. rewrite forallb_forall in H. apply H, list_elem_of_In, elem_of_seqZ.
  unfold in_u in Hb. pow2_norm. lia.
Qed.

Lemma popcount8_ones b : in_u 8 b -> popcount8 b = ones8 b.
Proof.
  intros Hb. apply Z.eqb_eq. revert b Hb.
  apply (byte_cases (fun b => popcount8 b =? ones8 b)). vm_compute. reflexivity.
Qed.

Lemma testbit_cat a x i :
  0 <= a < 256 -> 0 <= i -> Z.testbit (a + 256 * x) i = if decide (i < 8) then Z.testbit a i else Z.testbit x (i - 8).
Proof.
  intros Ha Hi. case_decide.
  - rewrite <- (Z.mod_pow2_bits_low (a + 256 * x) 8) by lia. f_equal. change (2 ^ 8) with 256.
    rewrite Z.mul_comm, Z.mod_add, Z.mod_small by lia. done.
  - replace (a + 256 * x) with (a + x * 2 ^ 8) by lia.
    replace x with ((a + x * 2 ^ 8) / 2 ^ 8) at 2 by (rewrite Z.div_add, Z.div_small; lia).
    rewrite Z.div_pow2_bits by lia. f_equal. lia.
Qed.

(** Shifting and masking works byte by byte when the mask lets no bit cross. *)
Lemma shland_cat k a x m M :
  0 <= k < 8 -> 0 <= a < 256 -> 0 <= m < 2 ^ (8 - k) ->
  Z.land (Z.shiftr (a + 256 * x) k) (m + 256 * M) =
  Z.land (Z.shiftr a k) m + 256 * Z.land (Z.shiftr x k) M.
Proof.
  intros Hk Ha Hm.
  assert (Hm8 : 2 ^ (8 - k) <= 2 ^ 8) by (apply Z.pow_le_mono_r; lia). change (2 ^ 8) with 256 in Hm8.
  assert (Hl : 0 <= Z.land (Z.shiftr a k) m < 256).
  { apply (land_in_u 8); [lia|apply Z.shiftr_nonneg; lia|unfold in_u; pow2_norm; lia]. }
  apply Z.bits_inj'. intros i Hi. rewrite testbit_cat by done.
  rewrite Z.land_spec, Z.shiftr_spec, !testbit_cat by lia.
  destruct (decide (i < 8)) as [Hi8|Hi8].
  - rewrite Z.land_spec, Z.shiftr_spec by lia. case_decide; [done|].
    rewrite (in_u_testbit (8 - k) m i) by (unfold in_u; lia). by rewrite !andb_false_r.
  - rewrite decide_False, Z.land_spec, Z.shiftr_spec by lia. do 2 f_equal. lia.
Qed.

Definition pop_step (r : Z) : Z :=
  let r := r - Z.land (Z.shiftr r 1) 0x55 in Z.land r 0x33 + Z.land (Z.shiftr r 2) 0x33.

Lemma pop_step_facts b : in_u 8 b ->
  0 <= b - Z.land (Z.shiftr b 1) 0x55 < 256 /\
  0 <= pop_step b <= 68 /\ pop_step b mod 16 <= 4 /\ pop_step b mod 16 + pop_step b / 16 = ones8 b /\
  0 <= ones8 b <= 8.
Proof.
  intros Hb.
  pose proof (byte_cases (fun b =>
    (0 <=? b - Z.land (Z.shiftr b 1) 0x55) && (b - Z.land (Z.shiftr b 1) 0x55 <? 256) &&
    (0 <=? pop_step b) && (pop_step b <=? 68) && (pop_step b mod 16 <=? 4) &&
    (pop_step b mod 16 + pop_step b / 16 =? ones8 b) && (0 <=? ones8 b) && (ones8 b <=? 8))
    ltac:(vm_compute; reflexivity) b Hb) as H.
  cbv beta in H. rewrite !andb_true_iff, !Z.leb_le, Z.ltb_lt, Z.eqb_eq in H. intuition.
Qed.

(** The first two steps of [popcount32] are [pop_step] on each byte. *)
Lemma popcount32_steps a b c d :
  in_u 8 a -> in_u 8 b -> in_u 8 c -> in_u 8 d ->
  let w := a + 256 * (b + 256 * (c + 256 * d)) in
  let res := u32 (w - Z.land (Z.shiftr w 1) 0x55555555) in
  u32 (Z.land res 0x33333333 + Z.land (Z.shiftr res 2) 0x33333333) =
  pop_step a + 256 * (pop_step b + 256 * (pop_step c + 256 * pop_step d)).
Proof.
  intros Ha Hb Hc Hd w.
  pose proof (pop_step_facts a Ha) as (Fa & Ga & _). pose proof (pop_step_facts b Hb) as (Fb & Gb & _).
  pose proof (pop_step_facts c Hc) as (Fc & Gc & _). pose proof (pop_step_facts d Hd) as (Fd & Gd & _).
  unfold in_u in *. change (2 ^ 8) with 256 in *.
  set (g x := x - Z.land (Z.shiftr x 1) 0x55).
  assert (Hs1 : w - Z.land (Z.shiftr w 1) 0x55555555 = g a + 256 * (g b + 256 * (g c + 256 * g d))).
  { unfold w. change 0x55555555 with (0x55 + 256 * (0x55 + 256 * (0x55 + 256 * 0x55))).
    rewrite !shland_cat by (lia || (cbn; lia)). unfold g. lia. }
  cbv zeta. rewrite Hs1. clear Hs1 w. unfold pop_step in *. fold (g a) (g b) (g c) (g d) in *.
  rewrite (u32_small (g a + _)) by (unfold in_u; pow2_norm; lia).
  set (W := g a + _). rewrite <- (Z.shiftr_0_r W) at 1. subst W.
  change 0x33333333 with (0x33 + 256 * (0x33 + 256 * (0x33 + 256 * 0x33))).
  rewrite !shland_cat by (lia || (cbn; lia)). rewrite !Z.shiftr_0_r. rewrite u32_small; [lia|].
  unfold in_u. pow2_norm. lia.
Qed.

Lemma land15_cat a x M : 0 <= a < 256 -> Z.land (a + 256 * x) (15 + 256 * M) = a mod 16 + 256 * Z.land x M.
Proof.
  intros Ha. rewrite <- (Z.shiftr_0_r (a + 256 * x)), shland_cat by lia. rewrite !Z.shiftr_0_r.
  change 15 with (Z.ones 4). by rewrite Z.land_ones by lia.
Qed.

Lemma nibble_sum r o t : 0 <= r -> r mod 16 + r / 16 = o -> o <= 8 -> (r + r / 16 + 16 * t) mod 16 = o.
Proof. intros. Z.div_mod_to_equations. lia. Qed.

Lemma nibble_bounds r o :
  0 <= r <= 68 /\ r mod 16 <= 4 /\ r mod 16 + r / 16 = o /\ 0 <= o <= 8 ->
  0 <= r mod 16 <= 4 /\ 0 <= r / 16 <= 4.
Proof. intros. Z.div_mod_to_equations. lia. Qed.

Lemma popcount32_ones a b c d :
  in_u 8 a -> in_u 8 b -> in_u 8 c -> in_u 8 d ->
  popcount32 (a + 256 * (b + 256 * (c + 256 * d))) = ones8 a + ones8 b + ones8 c + ones8 d.
Proof.
  intros Ha Hb Hc Hd. unfold popcount32. cbv zeta. rewrite popcount32_steps by done.
  pose proof (pop_step_facts a Ha) as (_ & Ga). pose proof (pop_step_facts b Hb) as (_ & Gb).
  pose proof (pop_step_facts c Hc) as (_ & Gc). pose proof (pop_step_facts d Hd) as (_ & Gd).
  generalize dependent (pop_step a). intros ra Ga. generalize dependent (pop_step b). intros rb Gb.
  generalize dependent (pop_step c). intros rc Gc. generalize dependent (pop_step d). intros rd Gd.
  generalize dependent (ones8 a). intros oa Ga. generalize dependent (ones8 b). intros ob Gb.
  generalize dependent (ones8 c). intros oc Gc. generalize dependent (ones8 d). intros od Gd.
  clear Ha Hb Hc Hd.
  set (W := ra + _). rewrite (Z.shiftr_div_pow2 W 4) by lia. change (2 ^ 4) with 16.
  assert (HW : W + W / 16 = (ra + ra / 16 + 16 * (rb mod 16)) + 256 * ((rb + rb / 16 + 16 * (rc mod 16)) + 256 *
     ((rc + rc / 16 + 16 * (rd mod 16)) + 256 * (rd + rd / 16)))) by (unfold W; Z.div_mod_to_equations; lia).
  rewrite HW. clear HW W.
  pose proof (nibble_bounds _ _ Ga). pose proof (nibble_bounds _ _ Gb).
  pose proof (nibble_bounds _ _ Gc). pose proof (nibble_bounds _ _ Gd).
  rewrite (u32_small (ra + ra / 16 + _ + _)) by (unfold in_u; pow2_norm; lia).
  change 0x0f0f0f0f with (15 + 256 * (15 + 256 * (15 + 256 * 15))).
  rewrite !land15_cat by lia.
  replace (Z.land (rd + rd / 16) 15) with ((rd + rd / 16) mod 16)
    by (symmetry; apply (Z.land_ones _ 4); lia).
  rewrite (nibble_sum ra oa), (nibble_sum rb ob), (nibble_sum rc oc) by lia.
  replace ((rd + rd / 16) mod 16) with od
    by (rewrite <- (nibble_sum rd od 0) by lia; f_equal; lia).
  rewrite !Z.shiftr_div_pow2 by lia. change 0xff with (Z.ones 8).
  rewrite Z.land_ones by lia. change (2 ^ 8) with 256. change (2 ^ 16) with 65536.
  rewrite <- (Z.div_unique (oa + _) 256 (ob + 256 * (oc + 256 * od)) oa) by lia.
  rewrite (u32_small (_ + (ob + _))) by (unfold in_u; pow2_norm; lia).
  rewrite <- (Z.div_unique _ 65536 (oc + od + 256 * od) (oa + ob + 256 * (ob + oc))) by lia.
  rewrite u32_small by (unfold in_u; pow2_norm; lia).
  symmetry. apply (Z.mod_unique _ 256 (ob + oc + 256 * (oc + od) + od + 65536 * od)); lia.
Qed.

(** The number of one bits among the [8 * n] bits of an array from byte [cp] on. *)
Definition ones_from (l : list Z) (cp n : Z) : Z :=
  foldr (fun i acc => Z.b2z (bit l i) + acc) 0 (seqZ (8 * cp) (8 * n)).

Lemma foldr_sum_app (f : Z -> Z) l1 l2 :
  foldr (fun i acc => f i + acc) 0 (l1 ++ l2) =
  foldr (fun i acc => f i + acc) 0 l1 + foldr (fun i acc => f i + acc) 0 l2.
Proof. induction l1 as [|x l1 IH]; cbn; [done|]. rewrite IH. lia. Qed.

Lemma ones_from_cons l cp n :
  0 <= cp -> 0 < n -> ones_from l cp n = ones8 (byte_at l cp) + ones_from l (cp + 1) (n - 1).
Proof.
  intros Hcp Hn. unfold ones_from. replace (8 * n) with (8 + 8 * (n - 1)) by lia.
  rewrite seqZ_app by lia. rewrite foldr_sum_app. f_equal; [|do 2 f_equal; lia].
  unfold ones8, bit. replace (8 * cp) with (cp * 8) by lia.
  change (seqZ 0 8) with [0; 1; 2; 3; 4; 5; 6; 7].
  assert (HS : seqZ (cp * 8) 8 = (fun i => cp * 8 + i) <$> [0; 1; 2; 3; 4; 5; 6; 7])
    by (change [0; 1; 2; 3; 4; 5; 6; 7] with (seqZ 0 8); rewrite fmap_add_seqZ; f_equal; lia).
  rewrite HS. cbn [fmap list_fmap foldr].
  rewrite !(Z.add_comm (cp * 8)), !Z.div_add, !Z.mod_add by lia. reflexivity.
Qed.

Lemma ones_from_0 l cp : ones_from l cp 0 = 0.
Proof. reflexivity. Qed.

#[local] Transparent zslice.

Lemma zslice_cons p n l :
  0 <= p < zlen l -> 0 < n -> zslice p n l = byte_at l p :: zslice (p + 1) (n - 1) l.
Proof.
  intros Hp Hn. unfold zslice, slice. rewrite (drop_S _ _ _ (byte_at_lookup l p Hp)).
  replace (Z.to_nat n) with (S (Z.to_nat (n - 1))) by lia.
  replace (S (Z.to_nat p)) with (Z.to_nat (p + 1)) by lia. reflexivity.
Qed.

#[local] Opaque zslice.

Lemma u32_add_l a b : u32 (u32 a + b) = u32 (a + b).
Proof. unfold u32. by rewrite Zplus_mod_idemp_l. Qed.

Lemma count_bytes_spec fuel l cp n res :
  bytes l -> 0 <= cp -> 0 <= n <= Z.of_nat fuel -> in_u 32 res ->
  count_bytes fuel l cp n res = u32 (res + ones_from l cp n).
Proof.
  intros Hl. revert cp n res. induction fuel as [|fuel IH]; intros cp n res Hcp Hn Hr; cbn [count_bytes].
  - assert (n = 0) as -> by lia. by rewrite ones_from_0, Z.add_0_r, u32_small.
  - case_bool_decide as Hp.
    + rewrite IH by (lia || apply u32_range). rewrite u32_add_l, (ones_from_cons l cp n) by lia.
      rewrite popcount8_ones by (by apply byte_at_range). f_equal. lia.
    + assert (n = 0) as -> by lia. by rewrite ones_from_0, Z.add_0_r, u32_small.
Qed.

Lemma count_align_spec fuel addr l cp n res :
  bytes l -> 0 <= cp -> 0 <= n <= Z.of_nat fuel -> in_u 32 res ->
  let '(cp', n', res') := count_align fuel addr l cp n res in
  cp <= cp' /\ 0 <= n' /\ cp' + n' = cp + n /\ in_u 32 res' /\
  u32 (res' + ones_from l cp' n') = u32 (res + ones_from l cp n).
Proof.
  intros Hl. revert cp n res. induction fuel as [|fuel IH]; intros cp n res Hcp Hn Hr; cbn [count_align].
  - split_and!; lia || done.
  - destruct (bool_decide (Z.land _ _ <> 0) && bool_decide (n > 0)) eqn:Hc; [|split_and!; lia || done].
    apply andb_true_iff in Hc as [_ Hp%bool_decide_eq_true].
    specialize (IH (cp + 1) (n - 1) (u32 (res + popcount8 (byte_at l cp))) ltac:(lia) ltac:(lia) (u32_range _)).
    destruct (count_align _ _ _ _ _ _) as [[cp' n'] res']. destruct IH as (H1 & H2 & H3 & H4 & H5).
    split_and!; [lia|lia|lia|done|]. rewrite H5, u32_add_l, (ones_from_cons l cp n) by lia.
    rewrite popcount8_ones by (by apply byte_at_range). f_equal. lia.
Qed.

Lemma count_words_spec fuel l p n res :
  bytes l -> 0 <= p -> 0 <= n <= Z.of_nat fuel -> p + n <= zlen l -> in_u 32 res ->
  let '(p', n', res') := count_words fuel l p n res in
  p <= p' /\ 0 <= n' /\ p' + n' = p + n /\ in_u 32 res' /\
  u32 (res' + ones_from l p' n') = u32 (res + ones_from l p n).
Proof.
  intros Hl. revert p n res. induction fuel as [|fuel IH]; intros p n res Hp Hn Hlen Hr; cbn [count_words].
  - split_and!; lia || done.
  - case_bool_decide as H4; [|split_and!; lia || done].
    set (res1 := u32 _).
    specialize (IH (p + 4) (n - 4) res1 ltac:(lia) ltac:(lia) ltac:(lia) (u32_range _)).
    destruct (count_words _ _ _ _ _) as [[p' n'] res']. destruct IH as (H1 & H2 & H3 & H5 & H6).
    split_and!; [lia|lia|lia|done|]. rewrite H6. unfold res1.
    rewrite !zslice_cons by lia. change (4 - 1 - 1 - 1 - 1) with 0. rewrite zslice_0. cbn [le_val].
    rewrite !(Z.mod_small (byte_at l _)) by (by apply (byte_at_range l)).
    rewrite Z.mul_0_r, Z.add_0_r, popcount32_ones by (by apply byte_at_range).
    rewrite u32_add_l, (ones_from_cons l p n), (ones_from_cons l (p + 1)), (ones_from_cons l (p + 1 + 1)),
      (ones_from_cons l (p + 1 + 1 + 1)) by lia.
    replace (p + 1 + 1 + 1 + 1) with (p + 4) by lia. replace (n - 1 - 1 - 1 - 1) with (n - 4) by lia.
    f_equal. lia.
Qed.

(** [ext2fs_bitcount] is the number of one bits of the first [nbytes] bytes (modulo 2^32, the
    width of the result), wherever the array lies in memory. *)
Theorem bitcount_counts addr l nbytes :
  bytes l -> 0 <= nbytes <= zlen l ->
  ext2fs_bitcount addr l nbytes = u32 (ones_from l 0 nbytes).
Proof.
  intros Hl Hn. unfold ext2fs_bitcount.
  pose proof (count_align_spec (Z.to_nat nbytes) addr l 0 nbytes 0 Hl ltac:(lia) ltac:(lia) ltac:(done)) as HA.
  destruct (count_align _ _ _ _ _ _) as [[cp n1] r1]. destruct HA as (H1 & H2 & H3 & H4 & H5).
  pose proof (count_words_spec (Z.to_nat nbytes) l cp n1 r1 Hl ltac:(lia) ltac:(lia) ltac:(lia) H4) as HW.
  destruct (count_words _ _ _ _ _) as [[p n2] r2]. destruct HW as (H6 & H7 & H8 & H9 & H10).
  rewrite count_bytes_spec by (done || lia). rewrite H10, H5. reflexivity.
Qed.

Lemma bitcount_counts_witness :
  ext2fs_bitcount 3 [255; 1; 128; 7; 15; 240; 85; 0; 3] 9 = u32 (ones_from [255; 1; 128; 7; 15; 240; 85; 0; 3] 0 9)
  /\ ones_from [255; 1; 128; 7; 15; 240; 85; 0; 3] 0 9 = 27.
Proof.
  split; [|reflexivity]. apply (bitcount_counts 3); [|vm_compute; split; discriminate].
  repeat (constructor; [unfold in_u; lia|]). constructor.
Defined.
