(* ===== verification/BitmapOps.v ===== *)
(** The interface between the generic bitmap functions ([gen_bitmap64.c]) and the
    implementations of bitmaps: [struct ext2_bitmap_ops] of
    [rfsck-ext/lib/ext2fs/bmap64.h], and what an implementation promises. *)
From Stdlib Require Import ZArith Lia.
From stdpp Require Import base tactics numbers list.
From S2P Require Import Prelude ExtErr.

(** The operations.  [T] is a bitmap with its range; the flag of an operation that
    allocates says whether there is memory. *)
Class BitmapOps (T : Type) := {
  op_start : T -> Z;
  op_end : T -> Z;
  op_real_end : T -> Z;
  op_set_end : Z -> T -> T;             (* the assignment to the field [end] *)
  op_copy_bmap : bool -> T -> Z * T;    (* the code, and the copy *)
  op_resize_bmap : bool -> T -> Z -> Z -> Z * T;
  op_mark_bmap : T -> Z -> Z * T;
  op_unmark_bmap : T -> Z -> Z * T;
  op_test_bmap : T -> Z -> Z;
  op_mark_bmap_extent : T -> Z -> Z -> T;
  op_unmark_bmap_extent : T -> Z -> Z -> T;
  op_test_clear_bmap_extent : T -> Z -> Z -> Z;
  op_set_bmap_range : T -> Z -> Z -> list Z -> Z * T;
  op_get_bmap_range : T -> Z -> Z -> list Z -> Z * list Z;   (* the buffer, and what it holds afterwards *)
  op_clear_bmap : T -> T;
  op_find_first_zero : option (T -> Z -> Z -> Z * option Z);   (* may be absent *)
  op_find_first_set : option (T -> Z -> Z -> Z * option Z)
}.

(** The first number of [s..e] where [P] is [want]. *)
Definition first_in (P : Z -> bool) (want : bool) (s e : Z) (r : Z * option Z) : Prop :=
  (exists x, r = (0, Some x) /\ s <= x <= e /\ P x = want /\ forall y, s <= y < x -> P y = negb want) \/
  (r = (ENOENT, None) /\ forall y, s <= y <= e -> P y = negb want).

(** What every implementation promises: it stores the set of numbers [bm_mem].  What
    [unmark_bmap] returns for a number that was not there, and [find_first_zero], differ between
    the implementations: see [BitmapExact]. *)
Class BitmapLaws (T : Type) `{BitmapOps T} := {
  bm_wf : T -> Prop;
  bm_mem : T -> Z -> bool;

  law_range b : bm_wf b -> 0 <= op_start b <= op_end b /\ op_end b <= op_real_end b < 2 ^ 64 - 1;

  law_set_end e b : bm_wf b -> op_start b <= e <= op_real_end b ->
    bm_wf (op_set_end e b) /\ op_start (op_set_end e b) = op_start b /\ op_end (op_set_end e b) = e /\
    op_real_end (op_set_end e b) = op_real_end b /\ forall n, bm_mem (op_set_end e b) n = bm_mem b n;

  law_test b n : bm_wf b -> op_start b <= n <= op_real_end b ->
    op_test_bmap b n <> 0 <-> bm_mem b n = true;

  law_mark b n : bm_wf b -> op_start b <= n <= op_real_end b ->
    let '(r, b') := op_mark_bmap b n in
    (r <> 0 <-> bm_mem b n = true) /\ bm_wf b' /\
    op_start b' = op_start b /\ op_end b' = op_end b /\ op_real_end b' = op_real_end b /\
    forall m, op_start b <= m <= op_real_end b -> bm_mem b' m = bool_decide (m = n) || bm_mem b m;

  law_unmark b n : bm_wf b -> op_start b <= n <= op_real_end b ->
    let '(r, b') := op_unmark_bmap b n in
    (bm_mem b n = true -> r <> 0) /\ bm_wf b' /\
    op_start b' = op_start b /\ op_end b' = op_end b /\ op_real_end b' = op_real_end b /\
    forall m, op_start b <= m <= op_real_end b -> bm_mem b' m = negb (bool_decide (m = n)) && bm_mem b m;

  law_mark_extent b n num : bm_wf b -> op_start b <= n -> 0 < num < 2 ^ 32 -> n + num - 1 <= op_real_end b ->
    let b' := op_mark_bmap_extent b n num in
    bm_wf b' /\ op_start b' = op_start b /\ op_end b' = op_end b /\ op_real_end b' = op_real_end b /\
    forall m, op_start b <= m <= op_real_end b ->
      bm_mem b' m = bool_decide (n <= m < n + num) || bm_mem b m;

  law_unmark_extent b n num : bm_wf b -> op_start b <= n -> 0 <= num < 2 ^ 32 -> n + num - 1 <= op_real_end b ->
    let b' := op_unmark_bmap_extent b n num in
    bm_wf b' /\ op_start b' = op_start b /\ op_end b' = op_end b /\ op_real_end b' = op_real_end b /\
    forall m, op_start b <= m <= op_real_end b ->
      bm_mem b' m = negb (bool_decide (n <= m < n + num)) && bm_mem b m;

  law_test_clear b n num : bm_wf b -> op_start b <= n -> 0 <= num < 2 ^ 32 -> n + num - 1 <= op_real_end b ->
    (op_test_clear_bmap_extent b n num = 1 /\ forall m, n <= m < n + num -> bm_mem b m = false) \/
    (op_test_clear_bmap_extent b n num = 0 /\ exists m, n <= m < n + num /\ bm_mem b m = true);

  law_clear b : bm_wf b ->
    let b' := op_clear_bmap b in
    bm_wf b' /\ op_start b' = op_start b /\ op_end b' = op_end b /\ op_real_end b' = op_real_end b /\
    forall m, op_start b <= m <= op_real_end b -> bm_mem b' m = false;

  law_copy b mem : bm_wf b ->
    let '(err, b') := op_copy_bmap mem b in
    (err = 0 /\ bm_wf b' /\ op_start b' = op_start b /\ op_end b' = op_end b /\ op_real_end b' = op_real_end b /\
     forall m, op_start b <= m <= op_real_end b -> bm_mem b' m = bm_mem b m) \/
    (err = EXT2_ET_NO_MEMORY /\ mem = false);

  (* the storage ends at a byte boundary, as that of block and inode bitmaps does *)
  law_resize b mem new_end new_real_end : bm_wf b -> (op_real_end b - op_start b + 1) mod 8 = 0 ->
    op_start b <= new_end <= new_real_end -> new_real_end < 2 ^ 64 - 1 ->
    let '(err, b') := op_resize_bmap mem b new_end new_real_end in
    op_start b' = op_start b /\ bm_wf b' /\
    (forall m, op_start b <= m <= op_end b -> m <= op_end b' -> bm_mem b' m = bm_mem b m) /\
    ((err = 0 /\ op_end b' = new_end /\ op_real_end b' = new_real_end /\
      forall m, op_end b < m <= new_end -> bm_mem b' m = false) \/
     (err = EXT2_ET_NO_MEMORY /\ mem = false /\ op_end b' = op_end b));

  law_find_set f b s e : op_find_first_set = Some f -> bm_wf b -> op_start b <= s <= e -> e <= op_real_end b ->
    first_in (bm_mem b) true s e (f b s e)
}.

(** What bit arrays promise besides, and red-black trees do not: [unmark_bmap] tells whether the
    number was there, and [find_first_zero] finds a clear number also in an empty set. *)
Class BitmapExact (T : Type) `{!BitmapOps T} `{!BitmapLaws T} := {
  law_unmark_clear (b : T) n : bm_wf b -> op_start b <= n <= op_real_end b -> (op_unmark_bmap b n).1 <> 0 -> bm_mem b n = true;
  law_find_zero f (b : T) s e : op_find_first_zero = Some f -> bm_wf b -> op_start b <= s <= e -> e <= op_real_end b ->
    first_in (bm_mem b) false s e (f b s e)
}.
