(* ===== verification/BitArray.v ===== *)
(** The bit-array implementation of bitmaps: [rfsck-ext/lib/ext2fs/blkmap64_ba.c], with
    [ext2fs_mem_is_zero] of [gen_bitmap.c].

    A bitmap is its range and its array of bytes; bit [n] of the array stands for the
    number [bm_start + n]. *)
From Stdlib Require Import ZArith Lia.
From stdpp Require Import base tactics numbers list.
From S2P Require Import Prelude ExtErr Bitops.

Record bmap := mkBmap {
  bm_start : Z;
  bm_end : Z;
  bm_real_end : Z;
  bm_array : list Z
}.

Definition set_array (a : list Z) (b : bmap) : bmap :=
  mkBmap (bm_start b) (bm_end b) (bm_real_end b) a.

(** The number of bytes of the array. *)
Definition ba_size (b : bmap) : Z := (bm_real_end b - bm_start b) / 8 + 1.

Section alloc.
(** What [malloc] and [realloc] leave in [n] new bytes. *)
Variable junk : Z -> list Z.

(** [ba_alloc_private_data]; [mem] says whether there is memory. *)
Definition ba_alloc_private_data (mem : bool) (b : bmap) : Z * bmap :=
  if mem then (0, set_array (junk (ba_size b)) b) else (EXT2_ET_NO_MEMORY, b).

Definition ba_new_bmap (mem : bool) (b : bmap) : Z * bmap :=
  let '(retval, b) := ba_alloc_private_data mem b in
  if decide (retval <> 0) then (retval, b)
  else
    let size := Z.to_nat (ba_size b) in
    (0, set_array (replicate size 0 ++ drop size (bm_array b)) b).

Definition ba_copy_bmap (mem : bool) (src dest : bmap) : Z * bmap :=
  let '(retval, dest) := ba_alloc_private_data mem dest in
  if decide (retval <> 0) then (retval, dest)
  else (0, set_array (zsplice 0 (zslice 0 (ba_size src) (bm_array src)) (bm_array dest)) dest).

(** [ba_resize_bmap]: the loop that clears the bits from [bitno] down to [bm_end + 1]. *)
Fixpoint clear_down (fuel : nat) (bitno : Z) (b : bmap) : bmap :=
  match fuel with
  | O => b
  | S fuel' =>
      if decide (bm_end b < bitno)
      then clear_down fuel' (bitno - 1)
             (set_array (ext2fs_clear_bit64 (u64 (bitno - bm_start b)) (bm_array b)).2 b)
      else b
  end.

Definition ba_resize_bmap (mem : bool) (b : bmap) (new_end new_real_end : Z) : Z * bmap :=
  let b := if decide (new_end > bm_end b)
           then let bitno := if decide (bm_real_end b > new_end) then new_end else bm_real_end b in
                clear_down (Z.to_nat (bitno - bm_end b)) bitno b
           else b in
  if decide (new_real_end = bm_real_end b)
  then (0, mkBmap (bm_start b) new_end (bm_real_end b) (bm_array b))
  else
    let size := (bm_real_end b - bm_start b) / 8 + 1 in
    let new_size := (new_real_end - bm_start b) / 8 + 1 in
    if bool_decide (size <> new_size) && negb mem then (EXT2_ET_NO_MEMORY, b)
    else
      let a := if decide (size <> new_size)
               then take (Z.to_nat new_size) (bm_array b) ++ junk (new_size - zlen (bm_array b))
               else bm_array b in
      let a := if decide (new_size > size)
               then zsplice size (replicate (Z.to_nat (new_size - size)) 0) a else a in
      (0, mkBmap (bm_start b) new_end new_real_end a).

End alloc.

Definition ba_mark_bmap (b : bmap) (arg : Z) : Z * bmap :=
  let '(r, a) := ext2fs_set_bit64 (u64 (arg - bm_start b)) (bm_array b) in (r, set_array a b).

Definition ba_unmark_bmap (b : bmap) (arg : Z) : Z * bmap :=
  let '(r, a) := ext2fs_clear_bit64 (u64 (arg - bm_start b)) (bm_array b) in (r, set_array a b).

Definition ba_test_bmap (b : bmap) (arg : Z) : Z :=
  ext2fs_test_bit64 (u64 (arg - bm_start b)) (bm_array b).

(** The loops of the extent operations: [n] turns are left, [i] is the next index. *)
Fixpoint mark_extent_loop (n : nat) (i : Z) (b : bmap) (arg : Z) : bmap :=
  match n with
  | O => b
  | S n' =>
      mark_extent_loop n' (i + 1)
        (set_array (ext2fs_fast_set_bit64 (u64 (arg + i - bm_start b)) (bm_array b)) b) arg
  end.

Definition ba_mark_bmap_extent (b : bmap) (arg num : Z) : bmap :=
  mark_extent_loop (Z.to_nat num) 0 b arg.

Fixpoint unmark_extent_loop (n : nat) (i : Z) (b : bmap) (arg : Z) : bmap :=
  match n with
  | O => b
  | S n' =>
      unmark_extent_loop n' (i + 1)
        (set_array (ext2fs_fast_clear_bit64 (u64 (arg + i - bm_start b)) (bm_array b)) b) arg
  end.

Definition ba_unmark_bmap_extent (b : bmap) (arg num : Z) : bmap :=
  unmark_extent_loop (Z.to_nat num) 0 b arg.

(** [ext2fs_mem_is_zero] of the [len] bytes at index [mem], 256 at a time. *)
Fixpoint mem_is_zero_loop (fuel : nat) (l : list Z) (mem len : Z) : Z :=
  match fuel with
  | O => 0
  | S fuel' =>
      if decide (len >= 256) then
        if decide (zslice mem 256 l <> replicate 256 0) then 0
        else mem_is_zero_loop fuel' l (mem + 256) (len - 256)
      else if decide (len <> 0)
      then Z.b2z (bool_decide (zslice mem len l = replicate (Z.to_nat len) 0))
      else 1
  end.

Definition ext2fs_mem_is_zero (l : list Z) (mem len : Z) : Z :=
  mem_is_zero_loop (Z.to_nat (len / 256 + 1)) l mem len.

(** [for (i = n; i > 0; i--, mark_bit--) acc |= 1 << mark_bit]. *)
Fixpoint mark_bits (n : nat) (mark_bit acc : Z) : Z :=
  match n with
  | O => acc
  | S n' => mark_bits n' (mark_bit - 1) (Z.lor acc (Z.shiftl 1 mark_bit))
  end.

(** The element of a [char] array. *)
Definition s8 (z : Z) : Z := (z + 2 ^ 7) mod 2 ^ 8 - 2 ^ 7.

(** The part of [ba_test_clear_bmap_extent] after the first byte. *)
Definition test_clear_tail (l : list Z) (start_byte len_bit len_byte : Z) : Z :=
  if decide (len_bit <> 0) then
    let last_bit := mark_bits (Z.to_nat len_bit) (len_bit - 1) 0 in
    if decide (Z.land last_bit (s8 (byte_at l (start_byte + len_byte))) <> 0) then 0
    else if decide (len_byte = 0) then 1
    else ext2fs_mem_is_zero l start_byte len_byte
  else ext2fs_mem_is_zero l start_byte len_byte.

Definition ba_test_clear_bmap_extent (b : bmap) (start len : Z) : Z :=
  let l := bm_array b in
  let len_byte := Z.shiftr len 3 in
  let len_bit := len mod 8 in
  let start := u64 (start - bm_start b) in
  let start_byte := Z.shiftr start 3 in
  let start_bit := start mod 8 in
  if decide (start_bit <> 0) then
    let mark_count := if decide (len < 8 - start_bit) then len else 8 - start_bit in
    let mark_bit := if decide (len < 8 - start_bit) then len + start_bit - 1 else 7 in
    let first_bit := mark_bits (Z.to_nat mark_count) mark_bit 0 in
    if decide (Z.land first_bit (s8 (byte_at l start_byte)) <> 0) then 0
    else if decide (len <= 8 - start_bit) then 1
    else test_clear_tail l (start_byte + 1) ((len - mark_count) mod 8) (Z.shiftr (len - mark_count) 3)
  else test_clear_tail l start_byte len_bit len_byte.

Definition ba_set_bmap_range (b : bmap) (start num : Z) (inp : list Z) : Z * bmap :=
  (0, set_array (zsplice (Z.shiftr start 3) (zslice 0 (Z.shiftr (num + 7) 3) inp) (bm_array b)) b).

Definition ba_get_bmap_range (b : bmap) (start num : Z) (out : list Z) : Z * list Z :=
  (0, zsplice 0 (zslice (Z.shiftr start 3) (Z.shiftr (num + 7) 3) (bm_array b)) out).

Definition ba_clear_bmap (b : bmap) : bmap :=
  let size := Z.to_nat (ba_size b) in
  set_array (replicate size 0 ++ drop size (bm_array b)) b.

(** * The searches

    [ba_find_first_zero] and [ba_find_first_set] differ in the bit they stop at and in the
    byte and the word they skip; [want] is that bit. *)
Section find.
Variable want : bool.
(** The address of the array. *)
Variable addr : Z.

Definition skip_byte : Z := if want then 0 else 0xff.
Definition skip_word : Z := if want then 0 else 2 ^ 64 - 1.
Definition stops (l : list Z) (bitpos : Z) : bool :=
  if want then bool_decide (ext2fs_test_bit64 bitpos l <> 0) else bool_decide (ext2fs_test_bit64 bitpos l = 0).

(** Bits until a byte boundary: the position found, or where the search goes on. *)
Fixpoint scan_to_byte (fuel : nat) (l : list Z) (bitpos count : Z) : Z + Z * Z :=
  match fuel with
  | O => inr (bitpos, count)
  | S fuel' =>
      if bool_decide (Z.land bitpos 7 <> 0) && bool_decide (count > 0)
      then if stops l bitpos then inl bitpos else scan_to_byte fuel' l (bitpos + 1) (count - 1)
      else inr (bitpos, count)
  end.

(** Bytes until an address that is a multiple of 8. *)
Fixpoint scan_to_word (fuel : nat) (l : list Z) (pos bitpos count : Z) : bool * Z * Z * Z :=
  match fuel with
  | O => (false, pos, bitpos, count)
  | S fuel' =>
      if bool_decide (count >= 8) && bool_decide (Z.land (addr + pos) 7 <> 0)
      then if decide (byte_at l pos <> skip_byte) then (true, pos, bitpos, count)
           else scan_to_word fuel' l (pos + 1) (bitpos + 8) (count - 8)
      else (false, pos, bitpos, count)
  end.

(** The loops over words and over bytes, [i] turns left: [i] at the end, and [pos]. *)
Fixpoint scan_words (i : nat) (l : list Z) (pos : Z) : nat * Z :=
  match i with
  | O => (O, pos)
  | S i' => if decide (le_val (zslice pos 8 l) <> skip_word) then (i, pos) else scan_words i' l (pos + 8)
  end.

Fixpoint scan_bytes (i : nat) (l : list Z) (pos : Z) : nat * Z :=
  match i with
  | O => (O, pos)
  | S i' => if decide (byte_at l pos <> skip_byte) then (i, pos) else scan_bytes i' l (pos + 1)
  end.

(** The last bits. *)
Fixpoint scan_bits (count : nat) (l : list Z) (bitpos : Z) : option Z :=
  match count with
  | O => None
  | S count' => if stops l bitpos then Some bitpos else scan_bits count' l (bitpos + 1)
  end.

Definition ba_find_first (b : bmap) (start end_ : Z) : Z * option Z :=
  let l := bm_array b in
  let bitpos := u64 (start - bm_start b) in
  let count := u64 (end_ - start + 1) in
  match scan_to_byte 8 l bitpos count with
  | inl bitpos => (0, Some (u64 (bitpos + bm_start b)))
  | inr (bitpos, count) =>
      if decide (count = 0) then (ENOENT, None)
      else
        let '(byte_found, pos, bitpos, count) := scan_to_word 8 l (Z.shiftr bitpos 3) bitpos count in
        let '(bitpos, count) :=
          if byte_found then (bitpos, count)
          else
            let max_loop_count := Z.shiftr count 6 in
            let '(i, pos) := scan_words (Z.to_nat max_loop_count) l pos in
            let count := count - 64 * (max_loop_count - Z.of_nat i) in
            let bitpos := bitpos + 64 * (max_loop_count - Z.of_nat i) in
            let max_loop_count := Z.shiftr count 3 in
            let '(i, pos) := scan_bytes (Z.to_nat max_loop_count) l pos in
            (bitpos + 8 * (max_loop_count - Z.of_nat i), count - 8 * (max_loop_count - Z.of_nat i)) in
        match scan_bits (Z.to_nat count) l bitpos with
        | Some bitpos => (0, Some (u64 (bitpos + bm_start b)))
        | None => (ENOENT, None)
        end
  end.

End find.

Definition ba_find_first_zero (addr : Z) (b : bmap) (start end_ : Z) : Z * option Z :=
  ba_find_first false addr b start end_.

Definition ba_find_first_set (addr : Z) (b : bmap) (start end_ : Z) : Z * option Z :=
  ba_find_first true addr b start end_.

Example ba_ex1 :
  let b := set_array (replicate 30 255) (mkBmap 1 200 240 []) in
  let b := (ba_unmark_bmap b 190).2 in
  ba_find_first_zero 5 b 3 200 = (0, Some 190) /\ ba_find_first_zero 5 b 3 189 = (ENOENT, None) /\
  ba_test_clear_bmap_extent (ba_unmark_bmap_extent b 12 100) 12 100 = 1 /\
  ba_test_clear_bmap_extent (ba_unmark_bmap_extent b 12 100) 12 101 = 0.
Proof. vm_compute. done. Qed.
