(* ===== verification/BitArrayProofs.v ===== *)
(** The bit-array implementation keeps the promises of [BitmapOps]. *)
From Stdlib Require Import ZArith Lia.
From stdpp Require Import base tactics numbers list.
From S2P Require Import Prelude ExtErr Bitops BitmapOps BitArray.

(** * Invariant and abstraction *)

Record ba_wf (b : bmap) : Prop := {
  bw_start : 0 <= bm_start b <= bm_end b;
  bw_end : bm_end b <= bm_real_end b < 2 ^ 64 - 1;
  bw_bytes : bytes (bm_array b);
  bw_len : ba_size b <= zlen (bm_array b)
}.

Definition ba_mem (b : bmap) (n : Z) : bool := bit (bm_array b) (n - bm_start b).

Lemma ba_bits b : ba_wf b -> bm_real_end b - bm_start b < 8 * zlen (bm_array b).
Proof.
  intros [? ? ? Hl]. unfold ba_size in Hl. pose proof (Z.mod_pos_bound (bm_real_end b - bm_start b) 8).
  pose proof (Z.div_mod (bm_real_end b - bm_start b) 8). lia.
Qed.

Lemma ba_index b n : ba_wf b -> bm_start b <= n <= bm_real_end b + 1 -> u64 (n - bm_start b) = n - bm_start b.
Proof. intros [] Hn. apply u64_small. unfold in_u. pow2_norm. lia. Qed.

Lemma ba_has_bit b n :
  ba_wf b -> bm_start b <= n <= bm_real_end b -> has_bit (bm_array b) (n - bm_start b).
Proof. intros Hwf Hn. pose proof (ba_bits b Hwf). split; lia. Qed.

(** A new array of the same length keeps the invariant. *)
Lemma ba_wf_set a b : ba_wf b -> bytes a -> zlen a = zlen (bm_array b) -> ba_wf (set_array a b).
Proof. intros [] Ha Hl. split; try done. change (ba_size b <= zlen a). lia. Qed.

(** * One bit *)

Lemma set_bit_bytes nr l : bytes l -> bytes (ext2fs_set_bit64 nr l).2 /\ zlen (ext2fs_set_bit64 nr l).2 = zlen l.
Proof. intros. cbn. split; [by apply bytes_insert|apply zlen_insert]. Qed.

Lemma clear_bit_bytes nr l : bytes l -> bytes (ext2fs_clear_bit64 nr l).2 /\ zlen (ext2fs_clear_bit64 nr l).2 = zlen l.
Proof. intros. cbn. split; [by apply bytes_insert|apply zlen_insert]. Qed.

Lemma ba_mark_spec b n :
  ba_wf b -> bm_start b <= n <= bm_real_end b ->
  let '(r, b') := ba_mark_bmap b n in
  (r <> 0 <-> ba_mem b n = true) /\ ba_wf b' /\
  bm_start b' = bm_start b /\ bm_end b' = bm_end b /\ bm_real_end b' = bm_real_end b /\
  forall m, bm_start b <= m <= bm_real_end b -> ba_mem b' m = bool_decide (m = n) || ba_mem b m.
Proof.
  intros Hwf Hn. unfold ba_mark_bmap. rewrite ba_index by (done || lia).
  pose proof (set_bit_bytes (n - bm_start b) (bm_array b) (bw_bytes _ Hwf)) as [Hb Hl].
  pose proof (ba_has_bit b n Hwf Hn) as Hh.
  destruct (ext2fs_set_bit64 _ _) as [r a] eqn:E. split_and!; try done.
  - replace r with (ext2fs_test_bit64 (n - bm_start b) (bm_array b)) by (by injection E).
    apply test_bit_true. lia.
  - by apply ba_wf_set.
  - intros m Hm. unfold ba_mem. cbn. replace a with (ext2fs_set_bit64 (n - bm_start b) (bm_array b)).2 by (by rewrite E).
    rewrite set_bit_bit by (done || lia). f_equal. apply bool_decide_ext. lia.
Qed.

Lemma ba_unmark_spec b n :
  ba_wf b -> bm_start b <= n <= bm_real_end b ->
  let '(r, b') := ba_unmark_bmap b n in
  (r <> 0 <-> ba_mem b n = true) /\ ba_wf b' /\
  bm_start b' = bm_start b /\ bm_end b' = bm_end b /\ bm_real_end b' = bm_real_end b /\
  forall m, bm_start b <= m <= bm_real_end b -> ba_mem b' m = negb (bool_decide (m = n)) && ba_mem b m.
Proof.
  intros Hwf Hn. unfold ba_unmark_bmap. rewrite ba_index by (done || lia).
  pose proof (clear_bit_bytes (n - bm_start b) (bm_array b) (bw_bytes _ Hwf)) as [Hb Hl].
  pose proof (ba_has_bit b n Hwf Hn) as Hh.
  destruct (ext2fs_clear_bit64 _ _) as [r a] eqn:E. split_and!; try done.
  - replace r with (ext2fs_test_bit64 (n - bm_start b) (bm_array b)) by (by injection E).
    apply test_bit_true. lia.
  - by apply ba_wf_set.
  - intros m Hm. unfold ba_mem. cbn. replace a with (ext2fs_clear_bit64 (n - bm_start b) (bm_array b)).2 by (by rewrite E).
    rewrite clear_bit_bit by (done || lia). do 2 f_equal. apply bool_decide_ext. lia.
Qed.

Lemma ba_test_spec b n :
  ba_wf b -> bm_start b <= n <= bm_real_end b -> ba_test_bmap b n <> 0 <-> ba_mem b n = true.
Proof.
  intros Hwf Hn. unfold ba_test_bmap. rewrite ba_index by (done || lia). apply test_bit_true. lia.
Qed.

(** * Extents *)

(** The body of an extent loop is the operation on one bit. *)
Lemma fast_set_eq b n : set_array (ext2fs_fast_set_bit64 (u64 (n - bm_start b)) (bm_array b)) b = (ba_mark_bmap b n).2.
Proof. reflexivity. Qed.

Lemma fast_clear_eq b n : set_array (ext2fs_fast_clear_bit64 (u64 (n - bm_start b)) (bm_array b)) b = (ba_unmark_bmap b n).2.
Proof. reflexivity. Qed.

Lemma mark_extent_loop_spec k : forall i b n,
  ba_wf b -> bm_start b <= n -> 0 <= i -> n + i + Z.of_nat k - 1 <= bm_real_end b ->
  let b' := mark_extent_loop k i b n in
  ba_wf b' /\ bm_start b' = bm_start b /\ bm_end b' = bm_end b /\ bm_real_end b' = bm_real_end b /\
  forall m, bm_start b <= m <= bm_real_end b ->
    ba_mem b' m = bool_decide (n + i <= m < n + i + Z.of_nat k) || ba_mem b m.
Proof.
  induction k as [|k IH]; intros i b n Hwf Hn Hi Hk; cbn [mark_extent_loop].
  - split_and!; try done. intros m Hm. by rewrite bool_decide_eq_false_2 by lia.
  - rewrite fast_set_eq. pose proof (ba_mark_spec b (n + i) Hwf ltac:(lia)) as HM.
    destruct (ba_mark_bmap b (n + i)) as [r b1]. destruct HM as (_ & Hwf1 & Hs & He & Hr & Hm1).
    destruct (IH (i + 1) b1 n) as (H1 & H2 & H3 & H4 & H5); [done|cbn; lia|lia|cbn; lia|].
    split_and!; [done|cbn in *; congruence..|]. intros m Hm.
    rewrite H5 by (cbn; lia). rewrite Hm1 by lia. rewrite orb_assoc. f_equal.
    rewrite <- bool_decide_or. apply bool_decide_ext. lia.
Qed.

Lemma unmark_extent_loop_spec k : forall i b n,
  ba_wf b -> bm_start b <= n -> 0 <= i -> n + i + Z.of_nat k - 1 <= bm_real_end b ->
  let b' := unmark_extent_loop k i b n in
  ba_wf b' /\ bm_start b' = bm_start b /\ bm_end b' = bm_end b /\ bm_real_end b' = bm_real_end b /\
  forall m, bm_start b <= m <= bm_real_end b ->
    ba_mem b' m = negb (bool_decide (n + i <= m < n + i + Z.of_nat k)) && ba_mem b m.
Proof.
  induction k as [|k IH]; intros i b n Hwf Hn Hi Hk; cbn [unmark_extent_loop].
  - split_and!; try done. intros m Hm. by rewrite bool_decide_eq_false_2 by lia.
  - rewrite fast_clear_eq. pose proof (ba_unmark_spec b (n + i) Hwf ltac:(lia)) as HM.
    destruct (ba_unmark_bmap b (n + i)) as [r b1]. destruct HM as (_ & Hwf1 & Hs & He & Hr & Hm1).
    destruct (IH (i + 1) b1 n) as (H1 & H2 & H3 & H4 & H5); [done|cbn; lia|lia|cbn; lia|].
    split_and!; [done|cbn in *; congruence..|]. intros m Hm.
    rewrite H5 by (cbn; lia). rewrite Hm1 by lia. rewrite andb_assoc. f_equal.
    rewrite <- negb_orb. f_equal. rewrite <- bool_decide_or. apply bool_decide_ext. lia.
Qed.

(** * A range of zeros *)

(** [decides r l s n]: the result says whether the [n] bits from [s] on are all clear. *)
Definition decides (r : Z) (l : list Z) (s n : Z) : Prop :=
  (r = 1 /\ forall m, s <= m < s + n -> bit l m = false) \/
  (r = 0 /\ exists m, s <= m < s + n /\ bit l m = true).

Lemma byte_bits l i : bytes l -> 0 <= i -> byte_at l i = 0 <-> forall m, 8 * i <= m < 8 * i + 8 -> bit l m = false.
Proof.
  intros Hl Hi. split.
  - intros H m Hm. unfold bit. assert (m / 8 = i) as -> by (symmetry; apply (Z.div_unique m 8 i (m - 8 * i)); lia).
    by rewrite H, Z.bits_0.
  - intros H. apply Z.bits_inj'. intros j Hj. rewrite Z.bits_0. destruct (decide (j < 8)).
    + specialize (H (8 * i + j) ltac:(lia)). unfold bit in H.
      rewrite <- (Z.div_unique (8 * i + j) 8 i j), <- (Z.mod_unique (8 * i + j) 8 i j) in H by lia. done.
    + apply (in_u_testbit 8); [lia|by apply byte_at_range|lia].
Qed.

#[local] Transparent zslice.

Lemma zslice_zero l mem n :
  0 <= mem -> 0 <= n -> mem + n <= zlen l ->
  zslice mem n l = replicate (Z.to_nat n) 0 <-> forall i, mem <= i < mem + n -> byte_at l i = 0.
Proof.
  intros Hm Hn Hl. split.
  - intros H i Hi. pose proof (byte_at_lookup l i ltac:(lia)) as Hb.
    rewrite <- (lookup_zslice mem n) in Hb by lia. rewrite H in Hb.
    apply lookup_replicate in Hb as [-> _]. done.
  - intros H. apply list_eq. intros j. destruct (decide (j < Z.to_nat n)%nat) as [Hj|Hj].
    + rewrite lookup_replicate_2 by done. unfold zslice. rewrite lookup_slice, decide_True by done.
      replace (Z.to_nat mem + j)%nat with (Z.to_nat (mem + Z.of_nat j)) by lia.
      rewrite byte_at_lookup by lia. f_equal. apply H. lia.
    + rewrite !lookup_ge_None_2; [done|rewrite length_replicate; lia|].
      unfold zslice. rewrite length_slice. lia.
Qed.

#[local] Opaque zslice.

Lemma bytes_clear l mem n :
  bytes l -> 0 <= mem ->
  (forall i, mem <= i < mem + n -> byte_at l i = 0) <-> (forall m, 8 * mem <= m < 8 * mem + 8 * n -> bit l m = false).
Proof.
  intros Hl Hm. split.
  - intros H m Hr. assert (Hd : mem <= m / 8 < mem + n)
      by (split; [apply Z.div_le_lower_bound; lia|apply Z.div_lt_upper_bound; lia]).
    apply (proj1 (byte_bits l (m / 8) Hl ltac:(lia)) (H _ Hd)).
    pose proof (Z.div_mod m 8). pose proof (Z.mod_pos_bound m 8). lia.
  - intros H i Hi. apply (byte_bits l i Hl); [lia|]. intros m Hr. apply H. lia.
Qed.

(** A range that is not all clear has a set bit. *)
Lemma not_clear l s n :
  ~ (forall m, s <= m < s + n -> bit l m = false) -> exists m, s <= m < s + n /\ bit l m = true.
Proof.
  intros H. destruct (decide (Exists (fun m => bit l m = true) (seqZ s n))) as [He|He].
  - apply Exists_exists in He as (m & Hm & Hb). apply elem_of_seqZ in Hm. eauto.
  - exfalso. apply H. intros m Hm. apply not_true_iff_false. intros Hb. apply He, Exists_exists.
    exists m. by rewrite elem_of_seqZ.
Qed.

Lemma decides_b2z (P : Prop) `{!Decision P} l s n :
  (P <-> forall m, s <= m < s + n -> bit l m = false) -> decides (Z.b2z (bool_decide P)) l s n.
Proof.
  intros HP. case_bool_decide as H; cbn; [left|right]; (split; [done|]).
  - by apply HP.
  - apply not_clear. by rewrite <- HP.
Qed.

Lemma decides_app r l s n k :
  0 <= n -> 0 <= k -> (forall m, s <= m < s + n -> bit l m = false) -> decides r l (s + n) k -> decides r l s (n + k).
Proof.
  intros Hn Hk H [[-> Hc]|[-> (m & Hm & Hb)]].
  - left. split; [done|]. intros m Hm. destruct (decide (m < s + n)); [apply H; lia|apply Hc; lia].
  - right. split; [done|]. exists m. split; [lia|done].
Qed.

Lemma mem_is_zero_loop_spec fuel l : forall mem len,
  bytes l -> 0 <= mem -> 0 <= len -> mem + len <= zlen l -> len / 256 < Z.of_nat fuel ->
  decides (mem_is_zero_loop fuel l mem len) l (8 * mem) (8 * len).
Proof.
  induction fuel as [|fuel IH]; intros mem len Hl Hm Hn Hlen Hf.
  { pose proof (Z.div_pos len 256). lia. }
  cbn [mem_is_zero_loop]. case_decide as H256.
  - pose proof (zslice_zero l mem 256 Hm ltac:(lia) ltac:(lia)) as Hz. change (Z.to_nat 256) with 256%nat in Hz.
    rewrite bytes_clear in Hz by done. case_decide as Hs.
    + right. split; [done|]. destruct (not_clear l (8 * mem) (8 * 256)) as (m & Hm1 & Hb); [by rewrite <- Hz|].
      exists m. split; [lia|done].
    + replace (8 * len) with (8 * 256 + 8 * (len - 256)) by lia.
      apply decides_app; [lia|lia|by apply Hz|].
      replace (8 * mem + 8 * 256) with (8 * (mem + 256)) by lia. apply IH; try done; try lia.
      replace len with ((len - 256) + 1 * 256) in Hf by lia. rewrite Z.div_add in Hf by lia. lia.
  - case_decide as H0.
    + apply decides_b2z. rewrite zslice_zero by lia. by rewrite bytes_clear.
    + left. split; [done|]. intros. lia.
Qed.

Lemma mem_is_zero_spec l mem len :
  bytes l -> 0 <= mem -> 0 <= len -> mem + len <= zlen l ->
  decides (ext2fs_mem_is_zero l mem len) l (8 * mem) (8 * len).
Proof.
  intros. apply mem_is_zero_loop_spec; try done. pose proof (Z.div_pos len 256). lia.
Qed.

(** * Masks *)

Lemma mark_bits_spec n : forall mb acc i,
  Z.of_nat n <= mb + 1 -> 0 <= i ->
  Z.testbit (mark_bits n mb acc) i = bool_decide (mb - Z.of_nat n < i <= mb) || Z.testbit acc i.
Proof.
  induction n as [|n IH]; intros mb acc i Hn Hi; cbn [mark_bits].
  - by rewrite bool_decide_eq_false_2 by lia.
  - rewrite IH, Z.lor_spec by lia. rewrite Z.shiftl_1_l, Z.pow2_bits_eqb by lia.
    rewrite (orb_comm (Z.testbit acc i)), orb_assoc. f_equal.
    destruct (Z.eqb_spec mb i); repeat case_bool_decide; done || lia.
Qed.

Lemma testbit_s8 b i : 0 <= i < 8 -> Z.testbit (s8 b) i = Z.testbit b i.
Proof.
  intros Hi. rewrite <- (Z.mod_pow2_bits_low (s8 b) 8), <- (Z.mod_pow2_bits_low b 8) by lia.
  f_equal. unfold s8. rewrite Zminus_mod_idemp_l. f_equal. lia.
Qed.

(** The masked byte is zero when the bits from [lo] up to [hi] are clear. *)
Lemma masked_byte l i mb n :
  bytes l -> 0 <= i -> 0 <= n <= mb + 1 -> mb < 8 ->
  Z.land (mark_bits (Z.to_nat n) mb 0) (s8 (byte_at l i)) = 0 <->
  forall m, 8 * i + mb + 1 - n <= m < 8 * i + mb + 1 -> bit l m = false.
Proof.
  intros Hl Hi Hn Hmb. set (M := mark_bits _ _ _).
  assert (HM : forall j, 0 <= j -> Z.testbit M j = bool_decide (mb - n < j <= mb)).
  { intros j Hj. unfold M. rewrite mark_bits_spec, Z.bits_0, orb_false_r by lia. apply bool_decide_ext. lia. }
  rewrite Z.land_comm, Z.land_comm, land_zero_iff.
  2:{ destruct (decide (0 <= M)) as [|Hneg]; [done|]. exfalso.
      pose proof (Z.bits_iff_neg_ex M) as [HX _]. destruct HX as [k Hk]; [lia|].
      specialize (Hk (Z.max (k + 1) 9) ltac:(lia)). rewrite HM in Hk by lia. apply bool_decide_eq_true in Hk. lia. }
  assert (Hbit : forall j, 0 <= j < 8 -> bit l (8 * i + j) = Z.testbit (byte_at l i) j).
  { intros j Hj. unfold bit. by rewrite <- (Z.div_unique (8 * i + j) 8 i j), <- (Z.mod_unique (8 * i + j) 8 i j) by lia. }
  split.
  - intros H m Hm. replace m with (8 * i + (m - 8 * i)) by lia. rewrite Hbit by lia.
    rewrite <- testbit_s8 by lia. apply H; [lia|]. rewrite HM by lia. apply bool_decide_eq_true_2. lia.
  - intros H j Hj. rewrite HM by done. intros Hr%bool_decide_eq_true. rewrite testbit_s8, <- Hbit by lia.
    apply H. lia.
Qed.

(** * [ba_test_clear_bmap_extent] *)

Lemma decides_set l s n m : s <= m < s + n -> bit l m = true -> decides 0 l s n.
Proof. intros. right. split; [done|]. by exists m. Qed.

Lemma test_clear_tail_spec l sb lbit lbyte :
  bytes l -> 0 <= sb -> 0 <= lbit < 8 -> 0 <= lbyte -> 8 * sb + 8 * lbyte + lbit <= 8 * zlen l ->
  decides (test_clear_tail l sb lbit lbyte) l (8 * sb) (8 * lbyte + lbit).
Proof.
  intros Hl Hsb Hbit Hbyte Hlen. unfold test_clear_tail.
  pose proof (mem_is_zero_spec l sb lbyte Hl Hsb Hbyte ltac:(lia)) as HZ. case_decide as H0.
  - pose proof (masked_byte l (sb + lbyte) (lbit - 1) lbit Hl ltac:(lia) ltac:(lia) ltac:(lia)) as HM.
    case_decide as HL.
    + destruct (not_clear l (8 * (sb + lbyte)) lbit) as (m & Hm & Hb).
      { intros Hc. apply HL, HM. intros m Hm. apply Hc. lia. }
      apply (decides_set l _ _ m); [lia|done].
    + assert (Hlast : forall m, 8 * (sb + lbyte) <= m < 8 * (sb + lbyte) + lbit -> bit l m = false).
      { intros m Hm. apply (proj1 HM HL). lia. }
      case_decide as Hz.
      * left. split; [done|]. intros m Hm. apply Hlast. lia.
      * destruct HZ as [[-> Hc]|[-> (m & Hm & Hb)]].
        -- left. split; [done|]. intros m Hm.
           destruct (decide (m < 8 * sb + 8 * lbyte)); [apply Hc; lia|apply Hlast; lia].
        -- apply (decides_set l _ _ m); [lia|done].
  - replace (8 * lbyte + lbit) with (8 * lbyte) by lia. done.
Qed.

Lemma ba_test_clear_spec b n num :
  ba_wf b -> bm_start b <= n -> 0 <= num < 2 ^ 32 -> n + num - 1 <= bm_real_end b ->
  decides (ba_test_clear_bmap_extent b n num) (bm_array b) (n - bm_start b) num.
Proof.
  intros Hwf Hn Hnum He. unfold ba_test_clear_bmap_extent. cbv zeta.
  pose proof (ba_bits b Hwf) as Hbits. rewrite ba_index by (done || lia).
  set (s := n - bm_start b). set (l := bm_array b) in *.
  pose proof (bw_bytes _ Hwf) as Hl. fold l in Hl.
  pose proof (Z.div_mod s 8 ltac:(lia)) as Hdm. pose proof (Z.mod_pos_bound s 8 ltac:(lia)) as Hmod.
  assert (0 <= s / 8) by (apply Z.div_pos; lia). rewrite !shiftr3.
  assert (Hdiv : forall k, k = 8 * (k / 8) + k mod 8 /\ 0 <= k mod 8 < 8).
  { intros k. split; [apply Z.div_mod; lia|apply Z.mod_pos_bound; lia]. }
  case_decide as Hsb.
  - set (cnt := if decide (num < 8 - s mod 8) then num else 8 - s mod 8).
    set (mb := if decide (num < 8 - s mod 8) then num + s mod 8 - 1 else 7).
    assert (Hcm : 0 <= cnt <= mb + 1 /\ mb < 8 /\ mb + 1 - cnt = s mod 8 /\ cnt <= num /\ (num <= 8 - s mod 8 -> cnt = num)).
    { unfold cnt, mb. case_decide; lia. }
    pose proof (masked_byte l (s / 8) mb cnt Hl ltac:(lia) ltac:(lia) ltac:(lia)) as HM.
    case_decide as HF.
    + destruct (not_clear l s cnt) as (m & Hm & Hb).
      { intros Hc. apply HF, HM. intros m Hm. apply Hc. lia. }
      apply (decides_set l _ _ m); [lia|done].
    + assert (Hfirst : forall m, s <= m < s + cnt -> bit l m = false).
      { intros m Hm. apply (proj1 HM HF). lia. }
      case_decide as Hle; [left; split; [done|]; intros m Hm; apply Hfirst; lia|].
      assert (Hc8 : cnt = 8 - s mod 8) by (unfold cnt; case_decide; lia).
      destruct (Hdiv (num - cnt)) as [Hd1 Hd2].
      pose proof (test_clear_tail_spec l (s / 8 + 1) ((num - cnt) mod 8) ((num - cnt) / 8) Hl
        ltac:(lia) Hd2 ltac:(apply Z.div_pos; lia) ltac:(lia)) as HT.
      replace (8 * (s / 8 + 1)) with (s + cnt) in HT by lia. rewrite <- Hd1 in HT.
      apply (decides_app _ l s cnt) in HT; [|lia|lia|done].
      by replace (cnt + (num - cnt)) with num in HT by lia.
  - destruct (Hdiv num) as [Hd1 Hd2].
    pose proof (test_clear_tail_spec l (s / 8) (num mod 8) (num / 8) Hl
      ltac:(lia) Hd2 ltac:(apply Z.div_pos; lia) ltac:(lia)) as HT.
    rewrite <- Hd1 in HT. by replace (8 * (s / 8)) with s in HT by lia.
Qed.

(** * The searches *)
Section find.
Variable want : bool.
Variable addr : Z.

(** No bit of [s..e-1] is the one looked for. *)
Definition none_in (l : list Z) (s e : Z) : Prop := forall m, s <= m < e -> bit l m = negb want.

Lemma none_app l s e1 e2 : none_in l s e1 -> none_in l e1 e2 -> none_in l s e2.
Proof. intros H1 H2 m Hm. destruct (decide (m < e1)); [apply H1|apply H2]; lia. Qed.

Lemma none_step l s : bit l s = negb want -> none_in l s (s + 1).
Proof. intros H m Hm. by replace m with s by lia. Qed.

Lemma none_refl l s : none_in l s s.
Proof. intros m Hm. lia. Qed.

Lemma stops_spec l p : 0 <= p -> stops want l p = true <-> bit l p = want.
Proof.
  intros Hp. unfold stops. destruct want; rewrite bool_decide_eq_true.
  - by apply test_bit_true.
  - by apply test_bit_bit.
Qed.

Lemma stops_false l p : 0 <= p -> stops want l p = false -> bit l p = negb want.
Proof.
  intros Hp Hf. destruct (decide (bit l p = want)) as [E|E].
  - by rewrite (proj2 (stops_spec l p Hp) E) in Hf.
  - by destruct (bit l p), want.
Qed.

Lemma skip_byte_none l pos : 0 <= pos -> byte_at l pos = skip_byte want -> none_in l (8 * pos) (8 * pos + 8).
Proof.
  intros Hp Hb m Hm. unfold bit.
  assert (m / 8 = pos) as -> by (symmetry; apply (Z.div_unique m 8 pos (m - 8 * pos)); lia).
  rewrite Hb. pose proof (Z.mod_pos_bound m 8 ltac:(lia)) as Hr. unfold skip_byte. destruct want; [apply Z.bits_0|].
  change 255 with (Z.ones 8). apply Z.ones_spec_low. lia.
Qed.

Lemma skip_word_bytes l pos :
  bytes l -> 0 <= pos -> pos + 8 <= zlen l -> le_val (zslice pos 8 l) = skip_word want ->
  none_in l (8 * pos) (8 * pos + 64).
Proof.
  intros Hl Hp Hlen Hw. 
  assert (HS : zslice pos 8 l = replicate 8 (skip_byte want)).
  { apply le_val_inj.
    - change (zslice pos 8 l) with (take 8 (drop (Z.to_nat pos) l)). by apply Forall_take, Forall_drop.
    - apply Forall_replicate. unfold skip_byte, in_u. destruct want; lia.
    - rewrite length_replicate. pose proof (zlen_zslice pos 8 l). unfold zlen in *. lia.
    - rewrite Hw. by destruct want. }
  rewrite !zslice_cons in HS by lia. cbn [replicate] in HS. injection HS as E0 E1 E2 E3 E4 E5 E6 E7.
  intros m Hm.
  assert (Hd : 0 <= m / 8 - pos < 8) by (split; [apply Z.le_add_le_sub_r, Z.div_le_lower_bound; lia|apply Z.lt_sub_lt_add_r, Z.div_lt_upper_bound; lia]).
  assert (Hb : byte_at l (m / 8) = skip_byte want).
  { assert (Hc : m / 8 = pos \/ m / 8 = pos + 1 \/ m / 8 = pos + 1 + 1 \/ m / 8 = pos + 1 + 1 + 1 \/
      m / 8 = pos + 1 + 1 + 1 + 1 \/ m / 8 = pos + 1 + 1 + 1 + 1 + 1 \/ m / 8 = pos + 1 + 1 + 1 + 1 + 1 + 1 \/
      m / 8 = pos + 1 + 1 + 1 + 1 + 1 + 1 + 1) by lia.
    destruct Hc as [->|[->|[->|[->|[->|[->|[->| ->]]]]]]]; done. }
  apply (skip_byte_none l (m / 8)); [lia|done|].
  pose proof (Z.div_mod m 8). pose proof (Z.mod_pos_bound m 8). lia.
Qed.

Lemma scan_to_byte_spec fuel l : forall bp c,
  0 <= bp -> 0 <= c -> (8 - bp mod 8) mod 8 <= Z.of_nat fuel ->
  match scan_to_byte want fuel l bp c with
  | inl p => bp <= p < bp + c /\ bit l p = want /\ none_in l bp p
  | inr (bp', c') => bp <= bp' /\ 0 <= c' /\ bp' + c' = bp + c /\ none_in l bp bp' /\ (c' <> 0 -> bp' mod 8 = 0)
  end.
Proof.
  induction fuel as [|fuel IH]; intros bp c Hbp Hc Hf; cbn [scan_to_byte].
  - split_and!; try lia; [apply none_refl|]. intros _. pose proof (Z.mod_pos_bound bp 8). Z.div_mod_to_equations. lia.
  - rewrite land7. destruct (bool_decide (bp mod 8 <> 0) && bool_decide (c > 0)) eqn:Hg.
    + apply andb_true_iff in Hg as [Hm%bool_decide_eq_true Hp%bool_decide_eq_true].
      destruct (stops want l bp) eqn:Hs.
      * apply stops_spec in Hs; [|done]. split_and!; [lia|lia|done|apply none_refl].
      * apply stops_false in Hs; [|done]. specialize (IH (bp + 1) (c - 1) ltac:(lia) ltac:(lia)).
        specialize (IH ltac:(Z.div_mod_to_equations; lia)).
        destruct (scan_to_byte want fuel l (bp + 1) (c - 1)) as [p|[bp' c']].
        -- destruct IH as (H1 & H2 & H3). split_and!; [lia|lia|done|]. eapply none_app; [by apply none_step|done].
        -- destruct IH as (H1 & H2 & H3 & H4 & H5). split_and!; [lia|lia|lia| |done].
           eapply none_app; [by apply none_step|done].
    + split_and!; try lia; [apply none_refl|]. intros Hc0. apply andb_false_iff in Hg as [Hg|Hg].
      * by apply bool_decide_eq_false, dec_stable in Hg.
      * apply bool_decide_eq_false in Hg. lia.
Qed.

Lemma scan_to_word_spec fuel l : forall pos bp c,
  0 <= pos -> bp = 8 * pos -> 0 <= c ->
  let '(_, pos', bp', c') := scan_to_word want addr fuel l pos bp c in
  bp' = 8 * pos' /\ bp <= bp' /\ 0 <= c' /\ bp' + c' = bp + c /\ none_in l bp bp'.
Proof.
  induction fuel as [|fuel IH]; intros pos bp c Hp -> Hc; cbn [scan_to_word].
  - split_and!; try lia. apply none_refl.
  - destruct (bool_decide (c >= 8) && _) eqn:Hg; [|split_and!; try lia; apply none_refl].
    apply andb_true_iff in Hg as [H8%bool_decide_eq_true _]. case_decide as Hb.
    + split_and!; try lia. apply none_refl.
    + specialize (IH (pos + 1) (8 * pos + 8) (c - 8) ltac:(lia) ltac:(lia) ltac:(lia)).
      destruct (scan_to_word want addr fuel l (pos + 1) (8 * pos + 8) (c - 8)) as [[[bf pos'] bp'] c'].
      destruct IH as (H1 & H2 & H3 & H4 & H5). split_and!; try lia.
      eapply none_app; [apply skip_byte_none|exact H5]; done.
Qed.

Lemma scan_words_spec i l : forall pos,
  bytes l -> 0 <= pos -> pos + 8 * Z.of_nat i <= zlen l ->
  let '(i', pos') := scan_words want i l pos in
  (i' <= i)%nat /\ pos' = pos + 8 * (Z.of_nat i - Z.of_nat i') /\ none_in l (8 * pos) (8 * pos').
Proof.
  induction i as [|i IH]; intros pos Hl Hp Hlen; cbn [scan_words].
  - split_and!; [lia|lia|apply none_refl].
  - case_decide as Hw; [split_and!; [lia|lia|apply none_refl]|].
    specialize (IH (pos + 8) Hl ltac:(lia) ltac:(lia)). destruct (scan_words want i l (pos + 8)) as [i' pos'].
    destruct IH as (H1 & H2 & H3). split_and!; [lia|lia|].
    eapply none_app; [apply skip_word_bytes; try done; lia|]. by replace (8 * pos + 64) with (8 * (pos + 8)) by lia.
Qed.

Lemma scan_bytes_spec i l : forall pos,
  0 <= pos ->
  let '(i', pos') := scan_bytes want i l pos in
  (i' <= i)%nat /\ pos' = pos + (Z.of_nat i - Z.of_nat i') /\ none_in l (8 * pos) (8 * pos').
Proof.
  induction i as [|i IH]; intros pos Hp; cbn [scan_bytes].
  - split_and!; [lia|lia|apply none_refl].
  - case_decide as Hb; [split_and!; [lia|lia|apply none_refl]|].
    specialize (IH (pos + 1) ltac:(lia)). destruct (scan_bytes want i l (pos + 1)) as [i' pos'].
    destruct IH as (H1 & H2 & H3). split_and!; [lia|lia|].
    eapply none_app; [by apply skip_byte_none|]. by replace (8 * pos + 8) with (8 * (pos + 1)) by lia.
Qed.

Lemma scan_bits_spec n l : forall bp,
  0 <= bp ->
  match scan_bits want n l bp with
  | Some p => bp <= p < bp + Z.of_nat n /\ bit l p = want /\ none_in l bp p
  | None => none_in l bp (bp + Z.of_nat n)
  end.
Proof.
  induction n as [|n IH]; intros bp Hbp; cbn [scan_bits].
  - rewrite Z.add_0_r. apply none_refl.
  - destruct (stops want l bp) eqn:Hs.
    + apply stops_spec in Hs; [|done]. split_and!; [lia|lia|done|apply none_refl].
    + apply stops_false in Hs; [|done]. specialize (IH (bp + 1) ltac:(lia)).
      destruct (scan_bits want n l (bp + 1)) as [p|].
      * destruct IH as (H1 & H2 & H3). split_and!; [lia|lia|done|]. eapply none_app; [by apply none_step|done].
      * eapply none_app; [by apply none_step|]. by replace (bp + Z.of_nat (S n)) with (bp + 1 + Z.of_nat n) by lia.
Qed.

(** The loops over words and bytes together. *)
Lemma scan_aligned l pos c :
  bytes l -> 0 <= pos -> 0 <= c -> 8 * pos + c <= 8 * zlen l ->
  let '(i, pos1) := scan_words want (Z.to_nat (Z.shiftr c 6)) l pos in
  let c1 := c - 64 * (Z.shiftr c 6 - Z.of_nat i) in
  let '(i', pos2) := scan_bytes want (Z.to_nat (Z.shiftr c1 3)) l pos1 in
  let c2 := c1 - 8 * (Z.shiftr c1 3 - Z.of_nat i') in
  let bp2 := 8 * pos + 64 * (Z.shiftr c 6 - Z.of_nat i) + 8 * (Z.shiftr c1 3 - Z.of_nat i') in
  8 * pos <= bp2 /\ 0 <= c2 /\ bp2 + c2 = 8 * pos + c /\ none_in l (8 * pos) bp2.
Proof.
  intros Hl Hp Hc Hlen. rewrite (Z.shiftr_div_pow2 c 6) by lia. change (2 ^ 6) with 64.
  pose proof (Z.div_mod c 64 ltac:(lia)) as Hd. pose proof (Z.mod_pos_bound c 64 ltac:(lia)) as Hm.
  assert (0 <= c / 64) by (apply Z.div_pos; lia).
  pose proof (scan_words_spec (Z.to_nat (c / 64)) l pos Hl Hp ltac:(lia)) as HW.
  destruct (scan_words want _ l pos) as [i pos1]. destruct HW as (H1 & H2 & H3).
  cbv zeta. set (c1 := c - 64 * (c / 64 - Z.of_nat i)). rewrite shiftr3.
  pose proof (Z.div_mod c1 8 ltac:(lia)) as Hd1. pose proof (Z.mod_pos_bound c1 8 ltac:(lia)) as Hm1.
  assert (0 <= c1) by (unfold c1; lia). assert (0 <= c1 / 8) by (apply Z.div_pos; lia).
  pose proof (scan_bytes_spec (Z.to_nat (c1 / 8)) l pos1 ltac:(lia)) as HB.
  destruct (scan_bytes want _ l pos1) as [i' pos2]. destruct HB as (G4 & G5 & G6).
  split_and!; try lia. eapply none_app; [exact H3|].
  replace (8 * pos + 64 * (c / 64 - Z.of_nat i) + 8 * (c1 / 8 - Z.of_nat i')) with (8 * pos2) by lia. done.
Qed.

Lemma ba_find_first_spec b s e :
  ba_wf b -> bm_start b <= s <= e -> e <= bm_real_end b ->
  first_in (ba_mem b) want s e (ba_find_first want addr b s e).
Proof.
  intros Hwf Hs He. unfold ba_find_first. cbv zeta. pose proof (ba_bits b Hwf) as Hbits.
  rewrite ba_index by (done || lia). destruct Hwf as [Hw1 Hw2 Hl Hlen].
  rewrite (u64_small (e - s + 1)) by (unfold in_u; pow2_norm; lia).
  set (l := bm_array b) in *. set (bp := s - bm_start b). set (c := e - s + 1).
  assert (Hfound : forall p, bp <= p < bp + c -> bit l p = want -> none_in l bp p ->
    first_in (ba_mem b) want s e (0, Some (u64 (p + bm_start b)))).
  { intros p Hp Hb Hn. left. exists (p + bm_start b).
    rewrite u64_small by (unfold in_u; pow2_norm; lia). split_and!; [done|lia|lia| |].
    - unfold ba_mem. by replace (p + bm_start b - bm_start b) with p by lia.
    - intros y Hy. unfold ba_mem. apply Hn. lia. }
  assert (Hnone : none_in l bp (bp + c) -> first_in (ba_mem b) want s e (ENOENT, None)).
  { intros Hn. right. split; [done|]. intros y Hy. unfold ba_mem. apply Hn. lia. }
  pose proof (scan_to_byte_spec 8 l bp c ltac:(lia) ltac:(lia)
    ltac:(pose proof (Z.mod_pos_bound (8 - bp mod 8) 8); lia)) as H1.
  destruct (scan_to_byte want 8 l bp c) as [p|[bp1 c1]]; [destruct H1 as (? & ? & ?); by apply Hfound|].
  destruct H1 as (A1 & A2 & A3 & A4 & A5). case_decide as Hc0.
  { apply Hnone. by replace (bp + c) with bp1 by lia. }
  specialize (A5 Hc0). pose proof (Z.div_mod bp1 8 ltac:(lia)) as Hd.
  assert (0 <= bp1 / 8) by (apply Z.div_pos; lia). rewrite (shiftr3 bp1).
  pose proof (scan_to_word_spec 8 l (bp1 / 8) bp1 c1 ltac:(lia) ltac:(lia) A2) as H2.
  destruct (scan_to_word want addr 8 l (bp1 / 8) bp1 c1) as [[[bf pos] bp2] c2].
  destruct H2 as (B1 & B2 & B3 & B4 & B5).
  set (q := if bf then (bp2, c2) else _).
  assert (Hq : bp2 <= q.1 /\ 0 <= q.2 /\ q.1 + q.2 = bp2 + c2 /\ none_in l bp2 q.1).
  { unfold q. destruct bf; cbn; [split_and!; try lia; apply none_refl|].
    pose proof (scan_aligned l pos c2 Hl ltac:(lia) B3 ltac:(lia)) as HA. rewrite B1.
    destruct (scan_words want _ l pos) as [i pos1]. cbv zeta in HA. destruct (scan_bytes want _ l pos1) as [i' pos2].
    cbn. exact HA. }
  destruct q as [bp3 c3]. cbn in Hq. destruct Hq as (C1 & C2 & C3 & C4).
  pose proof (scan_bits_spec (Z.to_nat c3) l bp3 ltac:(lia)) as H3.
  assert (Hbefore : none_in l bp bp3) by (eapply none_app; [exact A4|]; eapply none_app; [exact B5|exact C4]).
  destruct (scan_bits want (Z.to_nat c3) l bp3) as [p|].
  - destruct H3 as (D1 & D2 & D3). apply Hfound; [lia|done|]. by eapply none_app.
  - apply Hnone. eapply none_app; [exact Hbefore|]. by replace (bp + c) with (bp3 + Z.of_nat (Z.to_nat c3)) by lia.
Qed.

End find.

(** * Allocation, copy, clearing, resizing *)

Lemma bit_zeros n (m : Z) l : 0 <= m < 8 * n -> bit (replicate (Z.to_nat n) 0 ++ l) m = false.
Proof.
  intros Hm. unfold bit, byte_at.
  assert (m / 8 < n) by (apply Z.div_lt_upper_bound; lia). assert (0 <= m / 8) by (apply Z.div_pos; lia).
  rewrite lookup_total_app_l by (rewrite length_replicate; lia).
  rewrite lookup_total_replicate_2 by lia. apply Z.bits_0.
Qed.

Lemma bytes_zeros n : bytes (replicate n 0).
Proof. apply Forall_replicate. unfold in_u. lia. Qed.

Lemma zlen_replicate n x : 0 <= n -> zlen (replicate (Z.to_nat n) x) = n.
Proof. intros. unfold zlen. rewrite length_replicate. lia. Qed.

Lemma ba_size_pos b : ba_wf b -> 1 <= ba_size b.
Proof. intros []. unfold ba_size. pose proof (Z.div_pos (bm_real_end b - bm_start b) 8). lia. Qed.

#[local] Transparent zsplice zslice.

Lemma byte_at_zsplice o d l i :
  0 <= o -> 0 <= i -> o + zlen d <= zlen l ->
  byte_at (zsplice o d l) i = if decide (o <= i < o + zlen d) then byte_at d (i - o) else byte_at l i.
Proof.
  intros Ho Hi Hl. unfold byte_at. rewrite !list_lookup_total_alt. unfold zsplice, zlen in *.
  rewrite lookup_splice. repeat case_decide; try lia; try done.
  f_equal. f_equal. lia.
Qed.

Lemma byte_at_zslice o n l i :
  0 <= o -> 0 <= i < n -> byte_at (zslice o n l) i = byte_at l (o + i).
Proof.
  intros Ho Hi. unfold byte_at. rewrite !list_lookup_total_alt. unfold zslice. rewrite lookup_slice, decide_True by lia.
  do 2 f_equal. lia.
Qed.

Lemma bytes_zsplice o d l : bytes d -> bytes l -> bytes (zsplice o d l).
Proof.
  intros Hd Hl. unfold bytes, zsplice, splice. rewrite !Forall_app. split_and!; try done.
  - by apply Forall_take.
  - apply bytes_zeros.
  - by apply Forall_drop.
Qed.

Lemma bytes_zslice o n l : bytes l -> bytes (zslice o n l).
Proof. intros Hl. by apply Forall_take, Forall_drop. Qed.

#[local] Opaque zsplice zslice.

(** Reading a bit of an array that agrees on its byte. *)
Lemma bit_agree l1 l2 m : byte_at l1 (m / 8) = byte_at l2 (m / 8) -> bit l1 m = bit l2 m.
Proof. intros H. unfold bit. by rewrite H. Qed.

Lemma ba_clear_spec b :
  ba_wf b ->
  let b' := ba_clear_bmap b in
  ba_wf b' /\ bm_start b' = bm_start b /\ bm_end b' = bm_end b /\ bm_real_end b' = bm_real_end b /\
  forall m, bm_start b <= m <= bm_real_end b -> ba_mem b' m = false.
Proof.
  intros Hwf. pose proof (ba_size_pos b Hwf). pose proof (ba_bits b Hwf) as Hb. cbn. split_and!; try done.
  - apply ba_wf_set; [done| |].
    + apply Forall_app. split; [apply bytes_zeros|apply Forall_drop, Hwf].
    + rewrite zlen_app, zlen_replicate by lia. pose proof (bw_len _ Hwf).
      unfold zlen in *. rewrite length_drop. lia.
  - intros m Hm. unfold ba_mem. cbn. apply bit_zeros. unfold ba_size. Z.div_mod_to_equations. lia.
Qed.

Section alloc.
Variable junk : Z -> list Z.
(** [malloc] returns as many bytes as it is asked for. *)
Hypothesis junk_len : forall n, zlen (junk n) = n `max` 0.
Hypothesis junk_bytes : forall n, bytes (junk n).

Lemma ba_copy_spec b mem :
  ba_wf b ->
  let '(err, b') := ba_copy_bmap junk mem b (set_array [] b) in
  (err = 0 /\ ba_wf b' /\ bm_start b' = bm_start b /\ bm_end b' = bm_end b /\ bm_real_end b' = bm_real_end b /\
   forall m, bm_start b <= m <= bm_real_end b -> ba_mem b' m = ba_mem b m) \/
  (err = EXT2_ET_NO_MEMORY /\ mem = false).
Proof.
  intros Hwf. unfold ba_copy_bmap, ba_alloc_private_data. destruct mem; [|by right]. cbn. left.
  pose proof (ba_size_pos b Hwf). pose proof (bw_len _ Hwf) as Hlen.
  change (ba_size (set_array [] b)) with (ba_size b).
  assert (HZ : zlen (zslice 0 (ba_size b) (bm_array b)) = ba_size b) by (apply zlen_zslice; lia).
  pose proof (junk_len (ba_size b)) as HJ. split_and!; try done.
  - destruct Hwf. split; try done; cbn; [by apply bytes_zsplice, junk_bytes; apply bytes_zslice|].
    rewrite zlen_splice by lia. unfold ba_size in *. cbn in *. lia.
  - intros m Hm. unfold ba_mem. cbn. apply bit_agree.
    assert (0 <= (m - bm_start b) / 8 < ba_size b) by (unfold ba_size; Z.div_mod_to_equations; lia).
    rewrite byte_at_zsplice, decide_True by lia. rewrite byte_at_zslice by lia. f_equal. lia.
Qed.

Lemma ba_new_spec mem b :
  0 <= bm_start b <= bm_end b -> bm_end b <= bm_real_end b < 2 ^ 64 - 1 ->
  let '(err, b') := ba_new_bmap junk mem b in
  (err = 0 /\ ba_wf b' /\ bm_start b' = bm_start b /\ bm_end b' = bm_end b /\ bm_real_end b' = bm_real_end b /\
   forall m, bm_start b <= m <= bm_real_end b -> ba_mem b' m = false) \/
  (err = EXT2_ET_NO_MEMORY /\ mem = false).
Proof.
  intros Hs He. unfold ba_new_bmap, ba_alloc_private_data. destruct mem; [|by right]. left.
  cbv zeta. cbn [negb]. destruct (decide (0 <> 0)); [done|]. split; [done|].
  assert (Hsz : 0 <= ba_size b) by (unfold ba_size; pose proof (Z.div_pos (bm_real_end b - bm_start b) 8); lia).
  apply (ba_clear_spec (set_array (junk (ba_size b)) b)).
  split; try done; cbn; [apply junk_bytes|rewrite junk_len; unfold ba_size in *; cbn; lia].
Qed.

Lemma clear_down_spec fuel : forall bitno b,
  ba_wf b -> bitno <= bm_real_end b -> bitno - bm_end b <= Z.of_nat fuel ->
  let b' := clear_down fuel bitno b in
  ba_wf b' /\ bm_start b' = bm_start b /\ bm_end b' = bm_end b /\ bm_real_end b' = bm_real_end b /\
  forall m, bm_start b <= m <= bm_real_end b ->
    ba_mem b' m = negb (bool_decide (bm_end b < m <= bitno)) && ba_mem b m.
Proof.
  induction fuel as [|fuel IH]; intros bitno b Hwf Hb Hf; cbn [clear_down].
  - split_and!; try done. intros m Hm. by rewrite bool_decide_eq_false_2 by lia.
  - case_decide as Hlt.
    + change (set_array _ b) with (ba_unmark_bmap b bitno).2.
      pose proof (ba_unmark_spec b bitno Hwf ltac:(pose proof (bw_start _ Hwf); lia)) as HM.
      destruct (ba_unmark_bmap b bitno) as [r b1]. destruct HM as (_ & Hwf1 & Hs & He & Hr & Hm1). cbn [snd].
      destruct (IH (bitno - 1) b1) as (H1 & H2 & H3 & H4 & H5); [done|lia|lia|].
      split_and!; [done|congruence..|]. intros m Hm. rewrite H5, Hm1 by lia. rewrite andb_assoc. f_equal.
      rewrite <- negb_orb. f_equal. rewrite <- bool_decide_or. apply bool_decide_ext. lia.
    + split_and!; try done. intros m Hm. by rewrite bool_decide_eq_false_2 by lia.
Qed.

(** The array after [realloc] and [memset]. *)
Lemma grown_array l size new_size :
  bytes l -> size <= zlen l -> 1 <= size -> 1 <= new_size ->
  let a := if decide (size <> new_size) then take (Z.to_nat new_size) l ++ junk (new_size - zlen l) else l in
  let a := if decide (new_size > size) then zsplice size (replicate (Z.to_nat (new_size - size)) 0) a else a in
  bytes a /\ new_size <= zlen a /\
  (forall i, 0 <= i < size -> i < new_size -> byte_at a i = byte_at l i) /\
  (forall i, size <= i < new_size -> byte_at a i = 0).
Proof.
  intros Hl Hlen Hs Hn a0 a.
  assert (H0 : bytes a0 /\ new_size <= zlen a0 /\ forall i, 0 <= i < size -> i < new_size -> byte_at a0 i = byte_at l i).
  { unfold a0. case_decide as Hne; [|split_and!; try done; lia].
    pose proof (junk_len (new_size - zlen l)) as HJ. split_and!.
    - apply Forall_app. split; [by apply Forall_take|apply junk_bytes].
    - rewrite zlen_app, HJ. unfold zlen in *. rewrite length_take. lia.
    - intros i Hi Hi'. unfold byte_at, zlen in *. rewrite lookup_total_app_l by (rewrite length_take; lia).
      apply lookup_total_take_lt. lia. }
  destruct H0 as (A1 & A2 & A3). unfold a. case_decide as Hgt; [|split_and!; try done; lia].
  assert (HZ : zlen (replicate (Z.to_nat (new_size - size)) 0) = new_size - size) by (apply zlen_replicate; lia).
  split_and!.
  - apply bytes_zsplice; [apply bytes_zeros|done].
  - rewrite zlen_splice by lia. lia.
  - intros i Hi Hi'. rewrite byte_at_zsplice by lia. rewrite decide_False by lia. by apply A3.
  - intros i Hi. rewrite byte_at_zsplice by lia. rewrite decide_True by lia.
    unfold byte_at. apply lookup_total_replicate_2. lia.
Qed.

(** The first step of [ba_resize_bmap]. *)
Definition resize_cleared (b : bmap) (new_end : Z) : bmap :=
  if decide (new_end > bm_end b)
  then let bitno := if decide (bm_real_end b > new_end) then new_end else bm_real_end b in
       clear_down (Z.to_nat (bitno - bm_end b)) bitno b
  else b.

Lemma resize_cleared_spec b new_end :
  ba_wf b ->
  let b' := resize_cleared b new_end in
  ba_wf b' /\ bm_start b' = bm_start b /\ bm_end b' = bm_end b /\ bm_real_end b' = bm_real_end b /\
  (forall m, bm_start b <= m <= bm_end b -> ba_mem b' m = ba_mem b m) /\
  (forall m, bm_end b < m <= new_end -> m <= bm_real_end b -> ba_mem b' m = false).
Proof.
  intros Hwf. unfold resize_cleared. pose proof (bw_start _ Hwf). pose proof (bw_end _ Hwf). case_decide.
  - set (bitno := if decide _ then _ else _).
    assert (Hb : bitno <= bm_real_end b /\ forall m, m <= new_end -> m <= bm_real_end b -> m <= bitno).
    { unfold bitno. split; [|intros m]; case_decide; lia. }
    destruct Hb as [Hb1 Hb2].
    destruct (clear_down_spec (Z.to_nat (bitno - bm_end b)) bitno b Hwf Hb1 ltac:(lia)) as (C1 & C2 & C3 & C4 & C5).
    split_and!; try done.
    + intros m Hm. rewrite C5 by lia. by rewrite bool_decide_eq_false_2 by lia.
    + intros m Hm Hr. rewrite C5 by lia. rewrite bool_decide_eq_true_2; [done|]. specialize (Hb2 m). lia.
  - split_and!; try done. intros. lia.
Qed.

(** [ba_resize_bmap] keeps the bits up to the old and the new end, and the bits that a larger
    end brings in are clear; when memory is missing, no bit up to the old end changes.  The
    bitmap's storage ends at a byte boundary, as the storage of block and inode bitmaps does. *)
Theorem ba_resize_spec mem b new_end new_real_end :
  ba_wf b -> (bm_real_end b - bm_start b + 1) mod 8 = 0 ->
  bm_start b <= new_end <= new_real_end -> new_real_end < 2 ^ 64 - 1 ->
  let '(err, b') := ba_resize_bmap junk mem b new_end new_real_end in
  bm_start b' = bm_start b /\ ba_wf b' /\
  (forall m, bm_start b <= m <= bm_end b -> m <= bm_end b' -> ba_mem b' m = ba_mem b m) /\
  ((err = 0 /\ bm_end b' = new_end /\ bm_real_end b' = new_real_end /\
    forall m, bm_end b < m <= new_end -> ba_mem b' m = false) \/
   (err = EXT2_ET_NO_MEMORY /\ mem = false /\ bm_end b' = bm_end b)).
Proof.
  intros Hwf Hal Hne Hnr. unfold ba_resize_bmap. fold (resize_cleared b new_end).
  pose proof (bw_start _ Hwf) as Hw1. pose proof (bw_end _ Hwf) as Hw2. pose proof (ba_bits b Hwf) as Hbits0.
  destruct (resize_cleared_spec b new_end Hwf) as (H1 & H2 & H3 & H4 & H5 & H6).
  set (b1 := resize_cleared b new_end) in *. cbv zeta.
  case_decide as Hre.
  { split_and!; [done| |intros; cbn in *; by apply H5|].
    - destruct H1. split; cbn; try done; lia.
    - left. split_and!; try done; cbn. intros m Hm. apply H6; lia. }
  fold (ba_size b1). set (new_size := (new_real_end - bm_start b1) / 8 + 1).
  destruct (bool_decide (ba_size b1 <> new_size) && negb mem) eqn:Hg.
  { apply andb_true_iff in Hg as [_ Hm]. split_and!; try done; [intros; by apply H5|]. right. by destruct mem. }
  pose proof (ba_size_pos b1 H1) as Hsz.
  assert (Hnsz : 1 <= new_size) by (unfold new_size; pose proof (Z.div_pos (new_real_end - bm_start b1) 8); lia).
  destruct (grown_array (bm_array b1) (ba_size b1) new_size (bw_bytes _ H1) (bw_len _ H1) Hsz Hnsz) as (G1 & G2 & G3 & G4).
  set (a := if decide (new_size > _) then _ else _) in *.
  assert (Hsize : 8 * ba_size b1 = bm_real_end b - bm_start b + 1).
  { unfold ba_size. rewrite H2, H4. Z.div_mod_to_equations. lia. }
  assert (Hns : new_real_end - bm_start b < 8 * new_size).
  { unfold new_size. rewrite H2. Z.div_mod_to_equations. lia. }
  assert (Hold : forall m, bm_start b <= m <= bm_real_end b -> m <= new_real_end ->
            bit a (m - bm_start b) = ba_mem b1 m).
  { intros m Hm1 Hm2. unfold ba_mem. rewrite H2. apply bit_agree, G3;
      [split; [apply Z.div_pos; lia|apply Z.div_lt_upper_bound; lia]|apply Z.div_lt_upper_bound; lia]. }
  split_and!; [done| | |left; split_and!; try done].
  - split; cbn; [lia|lia|done|]. exact G2.
  - intros m Hm Hm'. cbn in *. unfold ba_mem at 1. cbn. rewrite H2, Hold by lia. by apply H5.
  - intros m Hm. unfold ba_mem. cbn. rewrite H2. destruct (decide (m <= bm_real_end b)).
    + rewrite Hold by lia. apply H6; lia.
    + assert (ba_size b1 <= (m - bm_start b) / 8) by (apply Z.div_le_lower_bound; lia).
      unfold bit. rewrite G4; [apply Z.bits_0|]. split; [lia|apply Z.div_lt_upper_bound; lia].
Qed.

End alloc.

(** * Ranges *)

(** [ba_set_bmap_range] stores the bits of the buffer at [start..start+num-1] and changes no
    bit outside the bytes it writes, when [start] lies at a byte boundary of the storage and the
    bitmap starts below 8 (block bitmaps start at 0 or 1, inode bitmaps at 1); and
    [ba_get_bmap_range] reads the buffer back into the front of another. *)
Theorem ba_range_roundtrip b start num inp out :
  ba_wf b -> bytes inp -> bm_start b < 8 -> bm_start b <= start -> (start - bm_start b) mod 8 = 0 ->
  0 <= num -> start + num - 1 <= bm_real_end b -> num <= 8 * zlen inp ->
  let b' := (ba_set_bmap_range b start num inp).2 in
  ba_wf b' /\ ba_get_bmap_range b' start num out = (0, zsplice 0 (zslice 0 ((num + 7) / 8) inp) out) /\
  (forall i, 0 <= i < num -> ba_mem b' (start + i) = bit inp i) /\
  (forall m, bm_start b <= m <= bm_real_end b -> (m < start \/ start + 8 * ((num + 7) / 8) <= m) -> ba_mem b' m = ba_mem b m).
Proof.
  intros Hwf Hin Hs8 Hst Hal Hn He Hlin.
  pose proof (bw_start _ Hwf) as Hw1. pose proof (ba_bits b Hwf) as Hbits. cbn. rewrite !shiftr3.
  set (k := start / 8). set (n := (num + 7) / 8).
  assert (Hk : start = bm_start b + 8 * k) by (unfold k; Z.div_mod_to_equations; lia).
  assert (Hk0 : 0 <= k) by lia.
  assert (Hnn : 0 <= n /\ num <= 8 * n < num + 8) by (unfold n; Z.div_mod_to_equations; lia).
  assert (Hnl : k + n <= zlen (bm_array b)).
  { destruct (decide (num = 0)) as [->|]; [|lia]. assert (n = 0) by lia. lia. }
  set (d := zslice 0 n inp). assert (Hd : zlen d = n) by (apply zlen_zslice; lia).
  set (a := zsplice k d (bm_array b)).
  assert (Hza : zlen a = zlen (bm_array b)) by (unfold a; rewrite zlen_splice by lia; lia).
  split_and!.
  - apply ba_wf_set; [done| |done]. apply bytes_zsplice; [by apply bytes_zslice|apply Hwf].
  - unfold ba_get_bmap_range. rewrite !shiftr3. cbn [set_array bm_array]. do 2 f_equal. by apply zslice_zsplice_eq.
  - intros i Hi. unfold ba_mem. cbn. replace (start + i - bm_start b) with (8 * k + i) by lia.
    unfold bit. replace ((8 * k + i) / 8) with (k + i / 8) by (Z.div_mod_to_equations; lia).
    replace ((8 * k + i) mod 8) with (i mod 8) by (Z.div_mod_to_equations; lia).
    assert (0 <= i / 8 < n) by (Z.div_mod_to_equations; lia).
    unfold a. rewrite byte_at_zsplice, decide_True by lia. unfold d. rewrite byte_at_zslice by lia.
    do 2 f_equal. lia.
  - intros m Hm Hout. unfold ba_mem. cbn. apply bit_agree. unfold a.
    assert (0 <= (m - bm_start b) / 8) by (apply Z.div_pos; lia).
    rewrite byte_at_zsplice by lia. rewrite decide_False; [done|]. rewrite Hd. Z.div_mod_to_equations. lia.
Qed.

(** * The instance *)
Section instance.
(** Where the array lies in memory, and what new memory holds. *)
Variable addr : Z.
Variable junk : Z -> list Z.
Hypothesis junk_len : forall n, zlen (junk n) = n `max` 0.
Hypothesis junk_bytes : forall n, bytes (junk n).

(** [ext2fs_blkmap64_bitarray]. *)
#[global] Instance ext2fs_blkmap64_bitarray : BitmapOps bmap := {
  op_start := bm_start;
  op_end := bm_end;
  op_real_end := bm_real_end;
  op_set_end e b := mkBmap (bm_start b) e (bm_real_end b) (bm_array b);
  op_copy_bmap mem b := ba_copy_bmap junk mem b (set_array [] b);
  op_resize_bmap := ba_resize_bmap junk;
  op_mark_bmap := ba_mark_bmap;
  op_unmark_bmap := ba_unmark_bmap;
  op_test_bmap := ba_test_bmap;
  op_mark_bmap_extent := ba_mark_bmap_extent;
  op_unmark_bmap_extent := ba_unmark_bmap_extent;
  op_test_clear_bmap_extent := ba_test_clear_bmap_extent;
  op_set_bmap_range := ba_set_bmap_range;
  op_get_bmap_range := ba_get_bmap_range;
  op_clear_bmap := ba_clear_bmap;
  op_find_first_zero := Some (ba_find_first_zero addr);
  op_find_first_set := Some (ba_find_first_set addr)
}.

Lemma ba_test_clear_law b n num :
  ba_wf b -> bm_start b <= n -> 0 <= num < 2 ^ 32 -> n + num - 1 <= bm_real_end b ->
  (ba_test_clear_bmap_extent b n num = 1 /\ forall m, n <= m < n + num -> ba_mem b m = false) \/
  (ba_test_clear_bmap_extent b n num = 0 /\ exists m, n <= m < n + num /\ ba_mem b m = true).
Proof.
  intros Hwf Hn Hnum He. destruct (ba_test_clear_spec b n num Hwf Hn Hnum He) as [[-> Hc]|[-> (m & Hm & Hb)]].
  - left. split; [done|]. intros m Hm. apply Hc. lia.
  - right. split; [done|]. exists (m + bm_start b). split; [lia|]. unfold ba_mem.
    by replace (m + bm_start b - bm_start b) with m by lia.
Qed.

#[global] Program Instance ba_laws : BitmapLaws bmap := {
  bm_wf := ba_wf;
  bm_mem := ba_mem
}.
Next Obligation. intros b []. done. Qed.
Next Obligation. intros e b [] He. cbn in *. split_and!; try done. split; cbn; try done; lia. Qed.
Next Obligation. exact ba_test_spec. Qed.
Next Obligation. exact ba_mark_spec. Qed.
Next Obligation.
  intros b n Hwf Hn. pose proof (ba_unmark_spec b n Hwf Hn) as H. cbn in *. destruct (ba_unmark_bmap b n) as [r b'].
  destruct H as (H1 & H2). split; [apply H1|done].
Qed.
Next Obligation.
  intros b n num Hwf Hn Hnum He. cbn in *. unfold ba_mark_bmap_extent.
  destruct (mark_extent_loop_spec (Z.to_nat num) 0 b n) as (H1 & H2 & H3 & H4 & H5); try done; try lia.
  split_and!; try done. intros m Hm. rewrite H5 by done. f_equal. apply bool_decide_ext. lia.
Qed.
Next Obligation.
  intros b n num Hwf Hn Hnum He. cbn in *. unfold ba_unmark_bmap_extent.
  destruct (unmark_extent_loop_spec (Z.to_nat num) 0 b n) as (H1 & H2 & H3 & H4 & H5); try done; try lia.
  split_and!; try done. intros m Hm. rewrite H5 by done. do 2 f_equal. apply bool_decide_ext. lia.
Qed.
Next Obligation. exact ba_test_clear_law. Qed.
Next Obligation. exact ba_clear_spec. Qed.
Next Obligation. intros b mem Hwf. exact (ba_copy_spec junk junk_len junk_bytes b mem Hwf). Qed.
Next Obligation. intros b mem new_end new_real_end. exact (ba_resize_spec junk junk_len junk_bytes mem b new_end new_real_end). Qed.
Next Obligation. intros f b s e Hf. injection Hf as <-. apply ba_find_first_spec. Qed.

#[global] Instance ba_exact : BitmapExact bmap.
Proof.
  split.
  - intros b n Hwf Hn. pose proof (ba_unmark_spec b n Hwf Hn) as H. cbn [op_unmark_bmap ext2fs_blkmap64_bitarray].
    destruct (ba_unmark_bmap b n) as [r b']. apply H.
  - intros f b s e Hf. injection Hf as <-. apply ba_find_first_spec.
Qed.

End instance.
