(* ===== verification/GenBitmap.v ===== *)
(** Generic bitmaps: the 32-bit bitmaps of [rfsck-ext/lib/ext2fs/gen_bitmap.c] and the
    functions of [gen_bitmap64.c] that dispatch on the kind of bitmap.

    The functions of [gen_bitmap64.c] are written against [BitmapOps].  What the code
    reports with [com_err] is not part of the model; every value returned is. *)
From Stdlib Require Import ZArith Lia.
From stdpp Require Import base tactics numbers list.
From S2P Require Import Prelude ExtErr Bitops BitmapOps BitArray.

(** * 32-bit bitmaps: [gen_bitmap.c] *)

(** A 32-bit bitmap keeps its range and its array as the bit-array bitmap does.  The
    functions of this section are the bodies for a bitmap with a 32-bit magic number. *)
Definition out_of_range (b : bmap) (n : Z) : bool :=
  bool_decide (n < bm_start b) || bool_decide (n > bm_end b).

(** [ext2fs_make_generic_bitmap]: the size of the array. *)
Definition size32 (start real_end : Z) : Z :=
  let size := (real_end - start) / 8 + 1 in Z.land (size + 7) (Z.lnot 3).

(** [init_map] is read over the whole size. *)
Definition ext2fs_make_generic_bitmap (mem : bool) (start end_ real_end : Z) (init_map : option (list Z))
  : Z * option bmap :=
  if mem then
    let size := size32 start real_end in
    (0, Some (mkBmap start end_ real_end
                match init_map with
                | Some m => zslice 0 size m
                | None => replicate (Z.to_nat size) 0
                end))
  else (EXT2_ET_NO_MEMORY, None).

Definition ext2fs_copy_generic_bitmap (mem : bool) (src : bmap) : Z * option bmap :=
  ext2fs_make_generic_bitmap mem (bm_start src) (bm_end src) (bm_real_end src) (Some (bm_array src)).

Definition ext2fs_test_generic_bitmap (b : bmap) (bitno : Z) : Z :=
  if out_of_range b bitno then 0
  else ext2fs_test_bit64 (u32 (bitno - bm_start b)) (bm_array b).

Definition ext2fs_mark_generic_bitmap (b : bmap) (bitno : Z) : Z * bmap :=
  if out_of_range b bitno then (0, b)
  else let '(r, a) := ext2fs_set_bit64 (u32 (bitno - bm_start b)) (bm_array b) in (r, set_array a b).

Definition ext2fs_unmark_generic_bitmap (b : bmap) (bitno : Z) : Z * bmap :=
  if out_of_range b bitno then (0, b)
  else let '(r, a) := ext2fs_clear_bit64 (u32 (bitno - bm_start b)) (bm_array b) in (r, set_array a b).

Definition ext2fs_clear_generic_bitmap (b : bmap) : bmap :=
  let size := Z.to_nat ((bm_real_end b - bm_start b) / 8 + 1) in
  set_array (replicate size 0 ++ drop size (bm_array b)) b.

(** [ext2fs_fudge_generic_bitmap_end], with the right magic: the code, the old end, the bitmap. *)
Definition ext2fs_fudge_generic_bitmap_end (b : bmap) (neq end_ : Z) : Z * option Z * bmap :=
  if decide (end_ > bm_real_end b) then (neq, None, b)
  else (0, Some (bm_end b), mkBmap (bm_start b) end_ (bm_real_end b) (bm_array b)).

(** [ext2fs_resize_generic_bitmap] has the body of [ba_resize_bmap] on 32-bit numbers. *)
Definition ext2fs_resize_generic_bitmap (junk : Z -> list Z) (mem : bool) (b : bmap) (new_end new_real_end : Z)
  : Z * bmap :=
  ba_resize_bmap junk mem b (u32 new_end) (u32 new_real_end).

(** The loop of a comparison: [n] bits from [i] on. *)
Fixpoint compare_loop (test1 test2 : Z -> Z) (n : nat) (i : Z) : bool :=
  match n with
  | O => true
  | S n' => if decide (test1 i <> test2 i) then false else compare_loop test1 test2 n' (i + 1)
  end.

Definition ext2fs_compare_generic_bitmap (neq : Z) (bm1 bm2 : bmap) : Z :=
  let nbytes := (bm_end bm1 - bm_start bm1) / 8 in
  if bool_decide (bm_start bm1 <> bm_start bm2) || bool_decide (bm_end bm1 <> bm_end bm2)
     || bool_decide (zslice 0 nbytes (bm_array bm1) <> zslice 0 nbytes (bm_array bm2))
  then neq
  else
    let r := (bm_end bm1 - bm_start bm1) mod 8 in
    if compare_loop (ext2fs_test_generic_bitmap bm1) (ext2fs_test_generic_bitmap bm2)
         (Z.to_nat (r + 1)) (bm_end bm1 - r)
    then 0 else neq.

(** [ext2fs_set_generic_bitmap_padding]: the loop stops when [i] wraps. *)
Fixpoint padding_loop (fuel : nat) (b : bmap) (i j : Z) : bmap :=
  match fuel with
  | O => b
  | S fuel' =>
      if bool_decide (i <= bm_real_end b) && bool_decide (i > bm_end b)
      then padding_loop fuel' (set_array (ext2fs_set_bit64 j (bm_array b)).2 b) (u32 (i + 1)) (u32 (j + 1))
      else b
  end.

Definition ext2fs_set_generic_bitmap_padding (b : bmap) : bmap :=
  let i := u32 (bm_end b + 1) in
  padding_loop (Z.to_nat (bm_real_end b - bm_end b)) b i (u32 (i - bm_start b)).

(** [out] is the buffer. *)
Definition ext2fs_get_generic_bitmap_range (b : bmap) (start num : Z) (out : list Z) : Z * list Z :=
  if bool_decide (start < bm_start b) || bool_decide (u32 (start + num - 1) > bm_real_end b)
  then (EXT2_ET_INVALID_ARGUMENT, out)
  else (0, zsplice 0 (zslice (Z.shiftr start 3) (Z.shiftr (u32 (num + 7)) 3) (bm_array b)) out).

Definition ext2fs_set_generic_bitmap_range (b : bmap) (start num : Z) (inp : list Z) : Z * bmap :=
  if bool_decide (start < bm_start b) || bool_decide (u32 (start + num - 1) > bm_real_end b)
  then (EXT2_ET_INVALID_ARGUMENT, b)
  else (0, set_array (zsplice (Z.shiftr start 3) (zslice 0 (Z.shiftr (u32 (num + 7)) 3) inp) (bm_array b)) b).

(** [ext2fs_test_clear_generic_bitmap_range]: the code is the one of
    [ba_test_clear_bmap_extent], on an [unsigned int]. *)
Definition ext2fs_test_clear_generic_bitmap_range (b : bmap) (start len : Z) : Z :=
  let l := bm_array b in
  let len_byte := Z.shiftr len 3 in
  let len_bit := len mod 8 in
  let start := u32 (start - bm_start b) in
  let start_byte := Z.shiftr start 3 in
  let start_bit := start mod 8 in
  if decide (start_bit <> 0) then
    let mark_count := if decide (len < 8 - start_bit) then len else 8 - start_bit in
    let mark_bit := if decide (len < 8 - start_bit) then len + start_bit - 1 else 7 in
    let first_bit := mark_bits (Z.to_nat mark_count) mark_bit 0 in
    if decide (Z.land first_bit (s8 (byte_at l start_byte)) <> 0) then 0
    else if decide (len <= 8 - start_bit) then 1
    else test_clear_tail l (start_byte + 1) ((len - mark_count) mod 8) (Z.shiftr (len - mark_count) 3)
  else test_clear_tail l start_byte len_bit len_byte.

(** The loop of [ext2fs_find_first_zero_generic_bitmap] and of [.._set_..], [n] turns left. *)
Fixpoint find_loop (want : bool) (n : nat) (b : bmap) (start : Z) : Z * option Z :=
  match n with
  | O => (ENOENT, None)
  | S n' =>
      let v := ext2fs_test_bit64 (u32 (start - bm_start b)) (bm_array b) in
      if (if want then bool_decide (v <> 0) else bool_decide (v = 0)) then (0, Some start)
      else find_loop want n' b (start + 1)
  end.

Definition ext2fs_find_first_zero_generic_bitmap (b : bmap) (start end_ : Z) : Z * option Z :=
  if bool_decide (start < bm_start b) || bool_decide (end_ > bm_end b) || bool_decide (start > end_)
  then (EINVAL, None)
  else find_loop false (Z.to_nat (end_ - start + 1)) b start.

Definition ext2fs_find_first_set_generic_bitmap (b : bmap) (start end_ : Z) : Z * option Z :=
  if bool_decide (start < bm_start b) || bool_decide (end_ > bm_end b) || bool_decide (start > end_)
  then (EINVAL, None)
  else find_loop true (Z.to_nat (end_ - start + 1)) b start.

(** The kinds of magic numbers. *)
Inductive kind := Kgeneric | Kblock | Kinode.

#[global] Instance kind_eq_dec : EqDecision kind.
Proof. solve_decision. Defined.

Definition magic32 (k : kind) : Z :=
  match k with
  | Kgeneric => EXT2_ET_MAGIC_GENERIC_BITMAP
  | Kblock => EXT2_ET_MAGIC_BLOCK_BITMAP
  | Kinode => EXT2_ET_MAGIC_INODE_BITMAP
  end.

(** [num] arrives as an [int]. *)
Definition ext2fs_test_block_bitmap_range (k : kind) (b : bmap) (block num : Z) : Z :=
  if decide (k <> Kblock) then EXT2_ET_MAGIC_BLOCK_BITMAP
  else if bool_decide (block < bm_start b) || bool_decide (u32 (block + num - 1) > bm_real_end b) then 0
  else ext2fs_test_clear_generic_bitmap_range b block (u32 num).

Definition ext2fs_mark_block_bitmap_range (b : bmap) (block num : Z) : bmap :=
  if bool_decide (block < bm_start b) || bool_decide (u32 (block + num - 1) > bm_end b) then b
  else
    (fix go (n : nat) (i : Z) (b : bmap) : bmap :=
       match n with
       | O => b
       | S n' => go n' (i + 1) (set_array (ext2fs_fast_set_bit64 (u32 (block + i - bm_start b)) (bm_array b)) b)
       end) (Z.to_nat (s32 num)) 0 b.

Definition ext2fs_unmark_block_bitmap_range (b : bmap) (block num : Z) : bmap :=
  if bool_decide (block < bm_start b) || bool_decide (u32 (block + num - 1) > bm_end b) then b
  else
    (fix go (n : nat) (i : Z) (b : bmap) : bmap :=
       match n with
       | O => b
       | S n' => go n' (i + 1) (set_array (ext2fs_fast_clear_bit64 (u32 (block + i - bm_start b)) (bm_array b)) b)
       end) (Z.to_nat (s32 num)) 0 b.

(** * The functions of [gen_bitmap64.c] *)

(** What an [ext2fs_generic_bitmap] points to: nothing, a 32-bit bitmap, a 64-bit bitmap with
    its [cluster_bits], or a structure with another magic number. *)
Inductive generic_bitmap (T : Type) : Type :=
| Bnull
| B32 (k : kind) (b : bmap)
| B64 (k : kind) (cluster_bits : Z) (b : T)
| Bother.
Arguments Bnull {T}.
Arguments B32 {T} k b.
Arguments B64 {T} k cluster_bits b.
Arguments Bother {T}.

(** [arg & ~0xffffffffULL]. *)
Definition above32 (arg : Z) : bool := bool_decide (Z.land arg (2 ^ 64 - 2 ^ 32) <> 0).

Section gen64.
Context {T : Type} `{!BitmapOps T}.
Variable junk : Z -> list Z.

Definition outside (b : T) (arg : Z) : bool := bool_decide (arg < op_start b) || bool_decide (arg > op_end b).

Definition ext2fs_copy_generic_bmap (mem : bool) (h : generic_bitmap T) : Z * option (generic_bitmap T) :=
  match h with
  | Bnull | Bother => (EINVAL, None)
  | B32 k b => let '(err, b') := ext2fs_copy_generic_bitmap mem b in (err, B32 k <$> b')
  | B64 k c b =>
      if mem then
        let '(err, b') := op_copy_bmap mem b in
        if decide (err <> 0) then (err, None) else (0, Some (B64 k c b'))
      else (EXT2_ET_NO_MEMORY, None)
  end.

Definition ext2fs_resize_generic_bmap (mem : bool) (h : generic_bitmap T) (new_end new_real_end : Z)
  : Z * generic_bitmap T :=
  match h with
  | Bnull | Bother => (EINVAL, h)
  | B32 k b => let '(err, b') := ext2fs_resize_generic_bitmap junk mem b new_end new_real_end in (err, B32 k b')
  | B64 k c b => let '(err, b') := op_resize_bmap mem b new_end new_real_end in (err, B64 k c b')
  end.

Definition ext2fs_fudge_generic_bmap_end (h : generic_bitmap T) (neq end_ : Z)
  : Z * option Z * generic_bitmap T :=
  match h with
  | Bnull | Bother => (EINVAL, None, h)
  | B32 k b => let '(r, o, b') := ext2fs_fudge_generic_bitmap_end b neq (u32 end_) in (r, o, B32 k b')
  | B64 k c b =>
      if decide (end_ > op_real_end b) then (neq, None, h)
      else (0, Some (op_end b), B64 k c (op_set_end end_ b))
  end.

Definition ext2fs_clear_generic_bmap (h : generic_bitmap T) : generic_bitmap T :=
  match h with
  | B32 k b => B32 k (ext2fs_clear_generic_bitmap b)
  | B64 k c b => B64 k c (op_clear_bmap b)
  | _ => h
  end.

Definition ext2fs_mark_generic_bmap (h : generic_bitmap T) (arg : Z) : Z * generic_bitmap T :=
  match h with
  | Bnull | Bother => (0, h)
  | B32 k b =>
      if above32 arg then (0, h)
      else let '(r, b') := ext2fs_mark_generic_bitmap b arg in (r, B32 k b')
  | B64 k c b =>
      let arg := Z.shiftr arg c in
      if outside b arg then (0, h)
      else let '(r, b') := op_mark_bmap b arg in (r, B64 k c b')
  end.

Definition ext2fs_unmark_generic_bmap (h : generic_bitmap T) (arg : Z) : Z * generic_bitmap T :=
  match h with
  | Bnull | Bother => (0, h)
  | B32 k b =>
      if above32 arg then (0, h)
      else let '(r, b') := ext2fs_unmark_generic_bitmap b arg in (r, B32 k b')
  | B64 k c b =>
      let arg := Z.shiftr arg c in
      if outside b arg then (0, h)
      else let '(r, b') := op_unmark_bmap b arg in (r, B64 k c b')
  end.

Definition ext2fs_test_generic_bmap (h : generic_bitmap T) (arg : Z) : Z :=
  match h with
  | Bnull | Bother => 0
  | B32 k b => if above32 arg then 0 else ext2fs_test_generic_bitmap b arg
  | B64 k c b =>
      let arg := Z.shiftr arg c in
      if outside b arg then 0 else op_test_bmap b arg
  end.

Definition ext2fs_set_generic_bmap_range (h : generic_bitmap T) (start num : Z) (inp : list Z)
  : Z * generic_bitmap T :=
  match h with
  | Bnull | Bother => (EINVAL, h)
  | B32 k b =>
      if above32 (u64 (start + num - 1)) then (EINVAL, h)
      else let '(r, b') := ext2fs_set_generic_bitmap_range b (u32 start) num inp in (r, B32 k b')
  | B64 k c b => let '(r, b') := op_set_bmap_range b start num inp in (r, B64 k c b')
  end.

Definition ext2fs_get_generic_bmap_range (h : generic_bitmap T) (start num : Z) (out : list Z) : Z * list Z :=
  match h with
  | Bnull | Bother => (EINVAL, out)
  | B32 k b =>
      if above32 (u64 (start + num - 1)) then (EINVAL, out)
      else ext2fs_get_generic_bitmap_range b (u32 start) num out
  | B64 k c b => op_get_bmap_range b start num out
  end.

Definition ext2fs_compare_generic_bmap (neq : Z) (bm1 bm2 : generic_bitmap T) : Z :=
  match bm1, bm2 with
  | Bnull, _ | _, Bnull => EINVAL
  | B32 k1 b1, B32 k2 b2 => if decide (k1 <> k2) then EINVAL else ext2fs_compare_generic_bitmap neq b1 b2
  | B64 k1 _ b1, B64 k2 _ b2 =>
      if decide (k1 <> k2) then EINVAL
      else if bool_decide (op_start b1 <> op_start b2) || bool_decide (op_end b1 <> op_end b2) then neq
      else
        let r := (op_end b1 - op_start b1) mod 8 in
        if compare_loop (ext2fs_test_generic_bmap bm1) (ext2fs_test_generic_bmap bm2)
             (Z.to_nat (r + 1)) (op_end b1 - r)
        then 0 else neq
  | _, _ => EINVAL
  end.

(** [num] is passed on as an [unsigned int]. *)
Definition ext2fs_set_generic_bmap_padding (h : generic_bitmap T) : generic_bitmap T :=
  match h with
  | B32 k b => B32 k (ext2fs_set_generic_bitmap_padding b)
  | B64 k c b =>
      let start := u64 (op_end b + 1) in
      let num := u64 (op_real_end b - op_end b) in
      B64 k c (op_mark_bmap_extent b start (u32 num))
  | _ => h
  end.

(** The clusters of a range of blocks: the first one and their number. *)
Definition cluster_range (c block num : Z) : Z * Z :=
  let end_ := u64 (block + num) in
  let block := Z.shiftr block c in
  let end_ := Z.shiftr (u64 (end_ + (Z.shiftl 1 c - 1))) c in
  (block, u32 (end_ - block)).

Definition range_outside (b : T) (block num : Z) : bool :=
  bool_decide (block < op_start b) || bool_decide (u64 (block + num - 1) > op_end b).

Definition ext2fs_test_block_bitmap_range2 (h : generic_bitmap T) (block num : Z) : Z :=
  match h with
  | Bnull => EINVAL
  | _ =>
      if decide (num = 1) then (if decide (ext2fs_test_generic_bmap h block = 0) then 1 else 0)
      else
        match h with
        | B32 k b =>
            if above32 (u64 (block + num - 1)) then EINVAL
            else ext2fs_test_block_bitmap_range k b (u32 block) num
        | B64 k c b =>
            let '(block, num) := cluster_range c block num in
            if range_outside b block num then EINVAL
            else op_test_clear_bmap_extent b block num
        | _ => EINVAL
        end
  end.

Definition ext2fs_mark_block_bitmap_range2 (h : generic_bitmap T) (block num : Z) : generic_bitmap T :=
  match h with
  | Bnull | Bother => h
  | B32 k b =>
      if above32 (u64 (block + num - 1)) then h
      else B32 k (ext2fs_mark_block_bitmap_range b (u32 block) num)
  | B64 k c b =>
      let '(block, num) := cluster_range c block num in
      if range_outside b block num then h
      else B64 k c (op_mark_bmap_extent b block num)
  end.

Definition ext2fs_unmark_block_bitmap_range2 (h : generic_bitmap T) (block num : Z) : generic_bitmap T :=
  match h with
  | Bnull | Bother => h
  | B32 k b =>
      if above32 (u64 (block + num - 1)) then h
      else B32 k (ext2fs_unmark_block_bitmap_range b (u32 block) num)
  | B64 k c b =>
      let '(block, num) := cluster_range c block num in
      if range_outside b block num then h
      else B64 k c (op_unmark_bmap_extent b block num)
  end.

(** The search of a bitmap without a search operation of its own: [n] turns left. *)
Fixpoint scan_loop (want : bool) (n : nat) (b : T) (cout : Z) : Z * option Z :=
  match n with
  | O => (ENOENT, None)
  | S n' =>
      let v := op_test_bmap b cout in
      if (if want then bool_decide (v <> 0) else bool_decide (v = 0)) then (0, Some cout)
      else scan_loop want n' b (cout + 1)
  end.

(** The two searches of [gen_bitmap64.c] differ in the bit looked for ([want]), in the
    operation of the implementation and in the search of 32-bit bitmaps. *)
Definition find_first_generic (want : bool) (op : option (T -> Z -> Z -> Z * option Z))
  (find32 : bmap -> Z -> Z -> Z * option Z) (h : generic_bitmap T) (start end_ : Z) : Z * option Z :=
  match h with
  | Bnull | Bother => (EINVAL, None)
  | B32 k b =>
      if above32 start || above32 end_ then (EINVAL, None) else find32 b start end_
  | B64 k c b =>
      let cstart := Z.shiftr start c in
      let cend := Z.shiftr end_ c in
      if bool_decide (cstart < op_start b) || bool_decide (cend > op_end b) || bool_decide (start > end_)
      then (EINVAL, None)
      else
        let '(retval, cout) :=
          match op with
          | Some find => find b cstart cend
          | None => scan_loop want (Z.to_nat (cend - cstart + 1)) b cstart
          end in
        match cout with
        | Some cout =>
            if decide (retval <> 0) then (retval, None)
            else
              let cout := u64 (Z.shiftl cout c) in
              (0, Some (if decide (cout >= start) then cout else start))
        | None => (retval, None)
        end
  end.

Definition ext2fs_find_first_zero_generic_bmap (h : generic_bitmap T) (start end_ : Z) : Z * option Z :=
  find_first_generic false op_find_first_zero ext2fs_find_first_zero_generic_bitmap h start end_.

Definition ext2fs_find_first_set_generic_bmap (h : generic_bitmap T) (start end_ : Z) : Z * option Z :=
  find_first_generic true op_find_first_set ext2fs_find_first_set_generic_bitmap h start end_.

End gen64.
