(* ===== verification/GenBitmapProofs.v ===== *)
(** Correctness of the generic bitmap functions, for every implementation that keeps the
    promises of [BitmapOps]. *)
From Stdlib Require Import ZArith Lia.
From stdpp Require Import base tactics numbers list.
From S2P Require Import Prelude ExtErr Bitops BitmapOps BitArray BitArrayProofs GenBitmap.

(** * 32-bit bitmaps are bit arrays *)

Definition wf32 (b : bmap) : Prop := ba_wf b /\ bm_real_end b < 2 ^ 32 - 1.

Lemma index32 b n : wf32 b -> bm_start b <= n <= bm_real_end b -> u32 (n - bm_start b) = u64 (n - bm_start b).
Proof.
  intros [[] Hr] Hn. rewrite u32_small, u64_small by (unfold in_u; pow2_norm; lia). done.
Qed.

Lemma out_of_range_false b n : out_of_range b n = false <-> bm_start b <= n <= bm_end b.
Proof. unfold out_of_range. rewrite orb_false_iff, !bool_decide_eq_false. lia. Qed.

Lemma mark32_eq b n :
  wf32 b -> bm_start b <= n <= bm_end b -> ext2fs_mark_generic_bitmap b n = ba_mark_bmap b n.
Proof.
  intros Hwf Hn. unfold ext2fs_mark_generic_bitmap, ba_mark_bmap. rewrite (proj2 (out_of_range_false b n) Hn).
  rewrite index32; [done..|]. destruct Hwf as [[] _]. lia.
Qed.

Lemma unmark32_eq b n :
  wf32 b -> bm_start b <= n <= bm_end b -> ext2fs_unmark_generic_bitmap b n = ba_unmark_bmap b n.
Proof.
  intros Hwf Hn. unfold ext2fs_unmark_generic_bitmap, ba_unmark_bmap. rewrite (proj2 (out_of_range_false b n) Hn).
  rewrite index32; [done..|]. destruct Hwf as [[] _]. lia.
Qed.

Lemma test32_eq b n :
  wf32 b -> bm_start b <= n <= bm_end b -> ext2fs_test_generic_bitmap b n = ba_test_bmap b n.
Proof.
  intros Hwf Hn. unfold ext2fs_test_generic_bitmap, ba_test_bmap. rewrite (proj2 (out_of_range_false b n) Hn).
  rewrite index32; [done..|]. destruct Hwf as [[] _]. lia.
Qed.

Lemma above32_false n : 0 <= n < 2 ^ 64 -> above32 n = false <-> n < 2 ^ 32.
Proof.
  intros Hn. unfold above32. rewrite bool_decide_eq_false.
  assert (Hmask : forall i, 0 <= i -> Z.testbit (2 ^ 64 - 2 ^ 32) i = bool_decide (32 <= i < 64)).
  { intros i Hi. change (2 ^ 64 - 2 ^ 32) with (Z.shiftl (Z.ones 32) 32). rewrite Z.shiftl_spec by done.
    case_bool_decide as E; [apply Z.ones_spec_low; lia|].
    destruct (decide (i < 32)); [apply Z.testbit_neg_r; lia|apply Z.ones_spec_high; lia]. }
  rewrite Z.land_comm. split.
  - intros H. apply dec_stable in H. rewrite land_zero_iff in H by (pow2_norm; lia).
    apply (in_u_of_testbit 32); [lia|lia|]. intros i Hi. destruct (decide (i < 64)).
    + apply H; [lia|]. rewrite Hmask by lia. apply bool_decide_eq_true_2. lia.
    + apply (in_u_testbit 64); [lia|done|lia].
  - intros H HN. apply HN. apply land_zero_iff; [pow2_norm; lia|]. intros i Hi. rewrite Hmask by done.
    intros Hr%bool_decide_eq_true. apply (in_u_testbit 32); [lia|unfold in_u; lia|lia].
Qed.

(** ** Comparison *)

Lemma compare_loop_true t1 t2 n : forall i,
  compare_loop t1 t2 n i = true <-> forall j, i <= j < i + Z.of_nat n -> t1 j = t2 j.
Proof.
  induction n as [|n IH]; intros i; cbn [compare_loop].
  - split; [intros _ j Hj; lia|done].
  - case_decide as E.
    + split; [done|]. intros H. exfalso. apply E, H. lia.
    + rewrite IH. split.
      * intros H j Hj. destruct (decide (j = i)) as [->|]; [done|apply H; lia].
      * intros H j Hj. apply H. lia.
Qed.

(** A test returns the mask of the bit or 0. *)
Lemma test_bit_value nr l : 0 <= nr -> ext2fs_test_bit64 nr l = if bit l nr then bit_mask nr else 0.
Proof.
  intros Hn. destruct (bit l nr) eqn:Hb; [|by apply test_bit_bit].
  unfold ext2fs_test_bit64, bit in *. rewrite shiftr3.
  apply Z.bits_inj'. intros i Hi. rewrite Z.land_spec, testbit_mask by done.
  case_bool_decide as E; [|done]. subst i. by rewrite Hb.
Qed.

Lemma test_bit_inj nr l1 l2 :
  0 <= nr -> ext2fs_test_bit64 nr l1 = ext2fs_test_bit64 nr l2 <-> bit l1 nr = bit l2 nr.
Proof.
  intros Hn. rewrite !test_bit_value by done.
  assert (bit_mask nr <> 0).
  { intros H0. pose proof (testbit_mask nr (nr mod 8) Hn ltac:(apply Z.mod_pos_bound; lia)) as H.
    rewrite H0, Z.bits_0, bool_decide_eq_true_2 in H by done. done. }
  destruct (bit l1 nr), (bit l2 nr); split; congruence.
Qed.

(** Two bytes are equal when their bits are. *)
Lemma byte_eq_bits l1 l2 i :
  bytes l1 -> bytes l2 -> 0 <= i ->
  byte_at l1 i = byte_at l2 i <-> forall m, 8 * i <= m < 8 * i + 8 -> bit l1 m = bit l2 m.
Proof.
  intros H1 H2 Hi. split.
  - intros E m Hm. apply bit_agree. by replace (m / 8) with i by (apply (Z.div_unique m 8 i (m - 8 * i)); lia).
  - intros E. apply Z.bits_inj'. intros j Hj. destruct (decide (j < 8)).
    + specialize (E (8 * i + j) ltac:(lia)). unfold bit in E.
      by rewrite <- (Z.div_unique (8 * i + j) 8 i j), <- (Z.mod_unique (8 * i + j) 8 i j) in E by lia.
    + rewrite !(in_u_testbit 8) by (lia || by apply byte_at_range). done.
Qed.

Lemma slices_eq_bits l1 l2 n :
  bytes l1 -> bytes l2 -> 0 <= n -> n <= zlen l1 -> n <= zlen l2 ->
  zslice 0 n l1 = zslice 0 n l2 <-> forall m, 0 <= m < 8 * n -> bit l1 m = bit l2 m.
Proof.
  intros H1 H2 Hn L1 L2. split.
  - intros E m Hm. apply bit_agree. assert (0 <= m / 8 < n) by (Z.div_mod_to_equations; lia).
    assert (Hx : l1 !! Z.to_nat (m / 8) = l2 !! Z.to_nat (m / 8)) by (apply (zslice_agree 0 n l1 l2 (Z.to_nat (m / 8))); [lia|done|lia]).
    unfold byte_at. by rewrite !list_lookup_total_alt, Hx.
  - intros E. apply zslice_ext; [lia|]. intros x Hx.
    replace x with (Z.to_nat (Z.of_nat x)) by lia. rewrite !byte_at_lookup by lia. f_equal.
    apply byte_eq_bits; try done; try lia. intros m Hm. apply E. lia.
Qed.

(** [ext2fs_compare_generic_bitmap] returns 0 exactly for bitmaps of the same range with the
    same bits. *)
Theorem compare32_correct neq b1 b2 :
  wf32 b1 -> wf32 b2 -> neq <> 0 ->
  (ext2fs_compare_generic_bitmap neq b1 b2 = 0 <->
   bm_start b1 = bm_start b2 /\ bm_end b1 = bm_end b2 /\
   forall n, bm_start b1 <= n <= bm_end b1 -> ba_mem b1 n = ba_mem b2 n).
Proof.
  intros Hwf1 Hwf2 Hneq. unfold ext2fs_compare_generic_bitmap. cbv zeta.
  destruct (decide (bm_start b1 = bm_start b2)) as [Hs|Hs].
  2:{ rewrite bool_decide_eq_true_2 by done. cbn. tauto. }
  destruct (decide (bm_end b1 = bm_end b2)) as [He|He].
  2:{ rewrite (bool_decide_eq_true_2 (bm_end b1 <> bm_end b2)) by done. rewrite orb_true_r. cbn. tauto. }
  rewrite !bool_decide_eq_false_2 by tauto. cbn [orb].
  pose proof Hwf1 as [W1 _]. pose proof Hwf2 as [W2 _].
  pose proof (ba_bits b1 W1). pose proof (ba_bits b2 W2).
  pose proof (bw_start _ W1). pose proof (bw_end _ W1). pose proof (bw_end _ W2).
  set (d := bm_end b1 - bm_start b1).
  assert (Hd : d = 8 * (d / 8) + d mod 8 /\ 0 <= d mod 8 < 8 /\ 0 <= d / 8)
    by (split_and!; [apply Z.div_mod; lia|apply Z.mod_pos_bound; lia..|apply Z.div_pos; lia]).
  pose proof (slices_eq_bits (bm_array b1) (bm_array b2) (d / 8) (bw_bytes _ W1) (bw_bytes _ W2)
    ltac:(lia) ltac:(lia) ltac:(lia)) as HS.
  pose proof (compare_loop_true (ext2fs_test_generic_bitmap b1) (ext2fs_test_generic_bitmap b2)
    (Z.to_nat (d mod 8 + 1)) (bm_end b1 - d mod 8)) as HL.
  assert (HT : forall j, bm_start b1 <= j <= bm_end b1 ->
    ext2fs_test_generic_bitmap b1 j = ext2fs_test_generic_bitmap b2 j <-> ba_mem b1 j = ba_mem b2 j).
  { intros j Hj. rewrite !test32_eq by (done || lia). unfold ba_test_bmap, ba_mem.
    rewrite !ba_index by (done || lia). rewrite Hs. apply test_bit_inj. lia. }
  split.
  - case_bool_decide as E1; [done|]. try apply dec_stable in E1.
    destruct (compare_loop _ _ _ _) eqn:E2; [|done]. intros _. split_and!; [done|done|]. intros n Hn.
    destruct (decide (n < bm_end b1 - d mod 8)).
    + unfold ba_mem. rewrite <- Hs. apply (proj1 HS E1). lia.
    + apply HT; [done|]. apply (proj1 HL eq_refl). lia.
  - intros (_ & _ & HM). rewrite bool_decide_eq_false_2.
    + rewrite (proj2 HL); [done|]. intros j Hj. apply HT; [lia|]. apply HM. lia.
    + intros HN. apply HN, HS. intros m Hm. specialize (HM (m + bm_start b1) ltac:(lia)).
      unfold ba_mem in HM. rewrite <- Hs in HM. by replace (m + bm_start b1 - bm_start b1) with m in HM by lia.
Qed.

(** * 64-bit bitmaps *)
Section gen64.
Context {T : Type} `{!BitmapOps T} `{!BitmapLaws T}.

(** A well-formed handle; [cluster_bits] is a small shift. *)
Definition gwf (h : generic_bitmap T) : Prop :=
  match h with
  | B32 _ b => wf32 b
  | B64 _ c b => bm_wf b /\ 0 <= c < 32
  | _ => False
  end.

(** The unit (block or cluster) a block belongs to, the units the bitmap covers, and the
    units that are marked. *)
Definition gunit (h : generic_bitmap T) (n : Z) : Z := match h with B64 _ c _ => Z.shiftr n c | _ => n end.

Definition gcovers (h : generic_bitmap T) (u : Z) : Prop :=
  match h with
  | B32 _ b => bm_start b <= u <= bm_end b
  | B64 _ _ b => op_start b <= u <= op_end b
  | _ => False
  end.

Definition gmem (h : generic_bitmap T) (u : Z) : bool :=
  match h with B32 _ b => ba_mem b u | B64 _ _ b => bm_mem b u | _ => false end.

#[global] Instance gcovers_dec h u : Decision (gcovers h u).
Proof. destruct h; cbn; apply _. Defined.

(** The new handle covers the same units, and exactly those of [f] are marked. *)
Definition gupdated (h h' : generic_bitmap T) (f : Z -> bool) : Prop :=
  gwf h' /\ (forall n, gunit h' n = gunit h n) /\ (forall u, gcovers h' u <-> gcovers h u) /\
  forall u, gcovers h u -> gmem h' u = f u.

Lemma outside_false (b : T) n : outside b n = false <-> op_start b <= n <= op_end b.
Proof. unfold outside. rewrite orb_false_iff, !bool_decide_eq_false. lia. Qed.

Lemma outside_true (b : T) n : outside b n = true <-> ~ op_start b <= n <= op_end b.
Proof. rewrite <- outside_false. by destruct (outside b n). Qed.

Lemma above32_true n : 0 <= n < 2 ^ 64 -> above32 n = true <-> 2 ^ 32 <= n.
Proof. intros Hn. pose proof (above32_false n Hn). destruct (above32 n); intuition lia. Qed.

(** What a 32-bit bitmap covers is below 2^32. *)
Lemma covers32 b n : wf32 b -> bm_start b <= n <= bm_end b -> 0 <= n < 2 ^ 32.
Proof. intros [[] Hr] Hn. lia. Qed.

Lemma real_end_64 (b : T) n : bm_wf b -> op_start b <= n <= op_end b -> op_start b <= n <= op_real_end b.
Proof. intros Hwf Hn. pose proof (law_range b Hwf). lia. Qed.

(** The operations on one block share their shape: [op] on the unit when it is covered. *)
Lemma mark_cases h n :
  gwf h -> 0 <= n < 2 ^ 64 ->
  let '(r, h') := ext2fs_mark_generic_bmap h n in
  if decide (gcovers h (gunit h n))
  then (r <> 0 <-> gmem h (gunit h n) = true) /\ gupdated h h' (fun u => bool_decide (u = gunit h n) || gmem h u)
  else r = 0 /\ h' = h.
Proof.
  intros Hwf Hn. destruct h as [|k b|k c b|]; cbn in *; try done.
  - destruct (decide (bm_start b <= n <= bm_end b)) as [Hc|Hc].
    + pose proof (covers32 b n Hwf Hc). rewrite (proj2 (above32_false n ltac:(lia))) by lia.
      rewrite mark32_eq by done. pose proof Hwf as [W1 W2]. pose proof (bw_end _ W1).
      pose proof (ba_mark_spec b n W1 ltac:(lia)) as HM. destruct (ba_mark_bmap b n) as [r b'].
      destruct HM as (H1 & H2 & H3 & H4 & H5 & H6). split; [done|]. split_and!.
      * split; [done|lia].
      * done.
      * intros u. cbn. lia.
      * intros u Hu. cbn in *. apply H6. lia.
    + destruct (above32 n); [done|]. unfold ext2fs_mark_generic_bitmap.
      destruct (out_of_range b n) eqn:Ho; [done|]. by apply out_of_range_false in Ho.
  - destruct Hwf as [Hwf Hcb]. destruct (decide (op_start b <= Z.shiftr n c <= op_end b)) as [Hc|Hc].
    + rewrite (proj2 (outside_false b _) Hc). pose proof (law_mark b _ Hwf (real_end_64 b _ Hwf Hc)) as HM.
      destruct (op_mark_bmap b (Z.shiftr n c)) as [r b']. destruct HM as (H1 & H2 & H3 & H4 & H5 & H6).
      split; [done|]. split_and!; try done.
      * intros u. cbn. lia.
      * intros u Hu. cbn in *. apply H6. by apply real_end_64.
    + by rewrite (proj2 (outside_true b _) Hc).
Qed.

Lemma unmark_cases h n :
  gwf h -> 0 <= n < 2 ^ 64 ->
  let '(r, h') := ext2fs_unmark_generic_bmap h n in
  if decide (gcovers h (gunit h n))
  then (gmem h (gunit h n) = true -> r <> 0) /\ gupdated h h' (fun u => negb (bool_decide (u = gunit h n)) && gmem h u)
  else r = 0 /\ h' = h.
Proof.
  intros Hwf Hn. destruct h as [|k b|k c b|]; cbn in *; try done.
  - destruct (decide (bm_start b <= n <= bm_end b)) as [Hc|Hc].
    + pose proof (covers32 b n Hwf Hc). rewrite (proj2 (above32_false n ltac:(lia))) by lia.
      rewrite unmark32_eq by done. pose proof Hwf as [W1 W2]. pose proof (bw_end _ W1).
      pose proof (ba_unmark_spec b n W1 ltac:(lia)) as HM. destruct (ba_unmark_bmap b n) as [r b'].
      destruct HM as ((_ & H1) & H2 & H3 & H4 & H5 & H6). split; [done|]. split_and!.
      * split; [done|lia].
      * done.
      * intros u. cbn. lia.
      * intros u Hu. cbn in *. apply H6. lia.
    + destruct (above32 n); [done|]. unfold ext2fs_unmark_generic_bitmap.
      destruct (out_of_range b n) eqn:Ho; [done|]. by apply out_of_range_false in Ho.
  - destruct Hwf as [Hwf Hcb]. destruct (decide (op_start b <= Z.shiftr n c <= op_end b)) as [Hc|Hc].
    + rewrite (proj2 (outside_false b _) Hc). pose proof (law_unmark b _ Hwf (real_end_64 b _ Hwf Hc)) as HM.
      destruct (op_unmark_bmap b (Z.shiftr n c)) as [r b']. destruct HM as (H1 & H2 & H3 & H4 & H5 & H6).
      split; [done|]. split_and!; try done.
      * intros u. cbn. lia.
      * intros u Hu. cbn in *. apply H6. by apply real_end_64.
    + by rewrite (proj2 (outside_true b _) Hc).
Qed.

Lemma unmark_exact `{!BitmapExact T} h n :
  gwf h -> 0 <= n < 2 ^ 64 -> gcovers h (gunit h n) -> (ext2fs_unmark_generic_bmap h n).1 <> 0 -> gmem h (gunit h n) = true.
Proof.
  intros Hwf Hn Hc. destruct h as [|k b|k c b|]; cbn in *; try done.
  - pose proof (covers32 b n Hwf Hc). rewrite (proj2 (above32_false n ltac:(lia))) by lia. rewrite unmark32_eq by done.
    pose proof Hwf as [W1 W2]. pose proof (bw_end _ W1). pose proof (ba_unmark_spec b n W1 ltac:(lia)) as HM.
    destruct (ba_unmark_bmap b n) as [r b']. apply HM.
  - destruct Hwf as [Hwf Hcb]. rewrite (proj2 (outside_false b _) Hc).
    pose proof (law_unmark_clear b _ Hwf (real_end_64 b _ Hwf Hc)) as HM. by destruct (op_unmark_bmap b (Z.shiftr n c)) as [r b'].
Qed.

Lemma test_cases h n :
  gwf h -> 0 <= n < 2 ^ 64 ->
  if decide (gcovers h (gunit h n))
  then ext2fs_test_generic_bmap h n <> 0 <-> gmem h (gunit h n) = true
  else ext2fs_test_generic_bmap h n = 0.
Proof.
  intros Hwf Hn. destruct h as [|k b|k c b|]; cbn in *; try done.
  - destruct (decide (bm_start b <= n <= bm_end b)) as [Hc|Hc].
    + pose proof (covers32 b n Hwf Hc). rewrite (proj2 (above32_false n ltac:(lia))) by lia.
      rewrite test32_eq by done. pose proof Hwf as [W1 W2]. pose proof (bw_end _ W1). apply ba_test_spec; [done|lia].
    + destruct (above32 n); [done|]. unfold ext2fs_test_generic_bitmap.
      destruct (out_of_range b n) eqn:Ho; [done|]. by apply out_of_range_false in Ho.
  - destruct Hwf as [Hwf Hcb]. destruct (decide (op_start b <= Z.shiftr n c <= op_end b)) as [Hc|Hc].
    + rewrite (proj2 (outside_false b _) Hc). apply law_test; [done|by apply real_end_64].
    + by rewrite (proj2 (outside_true b _) Hc).
Qed.

(** * Ranges of blocks *)

(** The units of [cluster_range] are those that hold a block of the range. *)
Lemma cluster_range_spec c block num :
  0 <= c < 32 -> 0 <= block -> 0 < num < 2 ^ 32 -> block + num + 2 ^ c < 2 ^ 64 ->
  let '(u0, k) := cluster_range c block num in
  u0 = Z.shiftr block c /\ 0 < k <= num /\
  forall u, u0 <= u < u0 + k <-> exists n, block <= n < block + num /\ Z.shiftr n c = u.
Proof.
  intros Hc Hb Hn Hlt. unfold cluster_range.
  assert (Hpow : 0 < 2 ^ c) by (apply Z.pow_pos_nonneg; lia).
  rewrite (u64_small (block + num)) by (unfold in_u; lia).
  rewrite Z.shiftl_1_l, u64_small by (unfold in_u; lia).
  rewrite !Z.shiftr_div_pow2 by lia. set (P := 2 ^ c) in *.
  set (q0 := block / P). set (q1 := (block + num + (P - 1)) / P).
  assert (E0 : P * q0 <= block < P * q0 + P).
  { unfold q0. pose proof (Z.div_mod block P). pose proof (Z.mod_pos_bound block P). lia. }
  assert (E1 : P * q1 <= block + num + (P - 1) < P * q1 + P).
  { unfold q1. pose proof (Z.div_mod (block + num + (P - 1)) P).
    pose proof (Z.mod_pos_bound (block + num + (P - 1)) P). lia. }
  assert (Hk : 0 < q1 - q0 <= num) by nia.
  rewrite u32_small by (unfold in_u; lia). split_and!; [done|lia|lia|]. intros u. split.
  - intros Hu. exists (Z.max block (P * u)). split; [nia|]. rewrite Z.shiftr_div_pow2 by lia. fold P.
    symmetry. destruct (Z.max_spec block (P * u)) as [[_ ->]|[HM ->]].
    + by rewrite Z.mul_comm, Z.div_mul by lia.
    + fold q0. nia.
  - intros (n & Hn1 & <-). rewrite Z.shiftr_div_pow2 by lia. fold P.
    assert (P * (n / P) <= n < P * (n / P) + P).
    { pose proof (Z.div_mod n P). pose proof (Z.mod_pos_bound n P). lia. }
    nia.
Qed.

(** A unit that holds a block of the range. *)
Definition touched (h : generic_bitmap T) (block num u : Z) : Prop :=
  exists n, block <= n < block + num /\ gunit h n = u.

Definition range_covered (h : generic_bitmap T) (block num : Z) : Prop :=
  forall n, block <= n < block + num -> gcovers h (gunit h n).

(** The outcome of marking ([v] is true) or unmarking a range. *)
Definition range_set (v : bool) (h h' : generic_bitmap T) (block num : Z) : Prop :=
  gwf h' /\ (forall n, gunit h' n = gunit h n) /\ (forall u, gcovers h' u <-> gcovers h u) /\
  (forall u, gcovers h u -> touched h block num u -> gmem h' u = v) /\
  (forall u, gcovers h u -> ~ touched h block num u -> gmem h' u = gmem h u).

Lemma touched32 k b block num u : touched (B32 k b) block num u <-> block <= u < block + num.
Proof. split; [intros (n & Hn & <-); done|intros Hu; by exists u]. Qed.

Lemma covered_ends32 k b block num :
  0 < num -> range_covered (B32 k b) block num <-> bm_start b <= block /\ block + num - 1 <= bm_end b.
Proof.
  intros Hn. split.
  - intros H. pose proof (H block ltac:(lia)). pose proof (H (block + num - 1) ltac:(lia)). cbn in *. lia.
  - intros H n Hr. cbn. lia.
Qed.

Lemma covered_ends64 k c (b : T) block num :
  0 <= c < 32 -> 0 <= block -> 0 < num < 2 ^ 32 -> block + num + 2 ^ c < 2 ^ 64 ->
  let '(u0, n) := cluster_range c block num in
  range_covered (B64 k c b) block num <-> op_start b <= u0 /\ u0 + n - 1 <= op_end b.
Proof.
  intros Hc Hb Hn Hlt. pose proof (cluster_range_spec c block num Hc Hb Hn Hlt) as HC.
  destruct (cluster_range c block num) as [u0 m]. destruct HC as (-> & Hm & HU). split.
  - intros H. split.
    + apply (H block). lia.
    + destruct (proj1 (HU (Z.shiftr block c + m - 1)) ltac:(lia)) as (n & Hr & <-). by apply (H n).
  - intros H n Hr. cbn. pose proof (proj2 (HU (Z.shiftr n c)) ltac:(by exists n)). lia.
Qed.

Lemma mark_go_eq block n : forall i b,
  wf32 b -> bm_start b <= block -> 0 <= i -> block + i + Z.of_nat n - 1 <= bm_real_end b ->
  (fix go (n : nat) (i : Z) (b : bmap) : bmap :=
     match n with
     | O => b
     | S n' => go n' (i + 1) (set_array (ext2fs_fast_set_bit64 (u32 (block + i - bm_start b)) (bm_array b)) b)
     end) n i b = mark_extent_loop n i b block.
Proof.
  induction n as [|n IH]; intros i b Hwf Hs Hi Hr; [done|]. cbn [mark_extent_loop].
  rewrite index32 by (done || lia). rewrite fast_set_eq.
  pose proof Hwf as [W1 W2]. pose proof (ba_mark_spec b (block + i) W1 ltac:(lia)) as HM.
  destruct (ba_mark_bmap b (block + i)) as [r b1]. destruct HM as (_ & H1 & H2 & _ & H4 & _). cbn [snd].
  apply IH; [split; [done|lia]|lia..].
Qed.

Lemma unmark_go_eq block n : forall i b,
  wf32 b -> bm_start b <= block -> 0 <= i -> block + i + Z.of_nat n - 1 <= bm_real_end b ->
  (fix go (n : nat) (i : Z) (b : bmap) : bmap :=
     match n with
     | O => b
     | S n' => go n' (i + 1) (set_array (ext2fs_fast_clear_bit64 (u32 (block + i - bm_start b)) (bm_array b)) b)
     end) n i b = unmark_extent_loop n i b block.
Proof.
  induction n as [|n IH]; intros i b Hwf Hs Hi Hr; [done|]. cbn [unmark_extent_loop].
  rewrite index32 by (done || lia). rewrite fast_clear_eq.
  pose proof Hwf as [W1 W2]. pose proof (ba_unmark_spec b (block + i) W1 ltac:(lia)) as HM.
  destruct (ba_unmark_bmap b (block + i)) as [r b1]. destruct HM as (_ & H1 & H2 & _ & H4 & _). cbn [snd].
  apply IH; [split; [done|lia]|lia..].
Qed.

(** The guard of the 32-bit range functions, for arguments that fit. *)
Lemma guard32 b block num :
  0 <= block -> 0 < num < 2 ^ 31 -> block + num - 1 < 2 ^ 32 ->
  bool_decide (block < bm_start b) || bool_decide (u32 (block + num - 1) > bm_end b) =
  negb (bool_decide (bm_start b <= block /\ block + num - 1 <= bm_end b)).
Proof.
  intros Hb Hn Hlt. rewrite u32_small by (unfold in_u; lia).
  repeat case_bool_decide; cbn; try done; lia.
Qed.

Lemma guard64 (b : T) u0 n :
  bm_wf b -> 0 <= u0 -> 0 < n -> u0 + n < 2 ^ 64 ->
  range_outside b u0 n = negb (bool_decide (op_start b <= u0 /\ u0 + n - 1 <= op_end b)).
Proof.
  intros Hwf H0 Hn Hlt. unfold range_outside. rewrite u64_small by (unfold in_u; lia).
  repeat case_bool_decide; cbn; try done; lia.
Qed.

Lemma shiftr_bounds c n : 0 <= c -> 0 <= n -> 0 <= Z.shiftr n c <= n.
Proof.
  intros Hc Hn. rewrite Z.shiftr_div_pow2 by lia. assert (0 < 2 ^ c) by (apply Z.pow_pos_nonneg; lia).
  split; [apply Z.div_pos; lia|]. apply Z.div_le_upper_bound; [lia|]. nia.
Qed.

Lemma mark_range_cases h block num :
  gwf h -> 0 <= block -> 0 < num < 2 ^ 31 -> block + num + 2 ^ 32 < 2 ^ 64 ->
  let h' := ext2fs_mark_block_bitmap_range2 h block num in
  (range_covered h block num -> range_set true h h' block num) /\
  (~ range_covered h block num -> h' = h).
Proof.
  intros Hwf Hb Hn Hlt. destruct h as [|k b|k c b|]; try done.
  - cbn [ext2fs_mark_block_bitmap_range2]. rewrite (u64_small (block + num - 1)) by (unfold in_u; lia).
    rewrite (covered_ends32 k b) by lia. destruct (above32 (block + num - 1)) eqn:Ha.
    { apply above32_true in Ha; [|lia]. split; [|done]. intros [_ H]. pose proof (covers32 b (bm_end b) Hwf).
      destruct Hwf as [[] ?]. lia. }
    apply above32_false in Ha; [|lia]. unfold ext2fs_mark_block_bitmap_range.
    rewrite (u32_small block) by (unfold in_u; lia). rewrite guard32 by lia.
    case_bool_decide as Hg; [|split; [done|done]]. cbn [negb]. split; [intros _|tauto].
    rewrite s32_small by lia. pose proof Hwf as [W1 W2]. pose proof (bw_end _ W1).
    rewrite mark_go_eq by (done || lia).
    destruct (mark_extent_loop_spec (Z.to_nat num) 0 b block W1) as (H1 & H2 & H3 & H4 & H5); [lia..|].
    split_and!; [split; [done|lia]|done|intros u; cbn; lia| |]; intros u Hu; rewrite touched32; cbn in *; intros Ht;
      rewrite H5 by lia.
    + by rewrite bool_decide_eq_true_2 by lia.
    + by rewrite bool_decide_eq_false_2 by lia.
  - destruct Hwf as [Hwf Hc]. assert (Hpow : 2 ^ c <= 2 ^ 32) by (apply Z.pow_le_mono_r; lia).
    cbn [ext2fs_mark_block_bitmap_range2].
    pose proof (covered_ends64 k c b block num Hc Hb ltac:(lia) ltac:(lia)) as HE.
    pose proof (cluster_range_spec c block num Hc Hb ltac:(lia) ltac:(lia)) as HC.
    destruct (cluster_range c block num) as [u0 m]. destruct HC as (-> & Hm & HU). rewrite HE.
    pose proof (shiftr_bounds c block ltac:(lia) Hb).
    rewrite guard64 by (done || lia).
    case_bool_decide as Hg; [|split; [done|done]]. cbn [negb]. split; [intros _|tauto].
    pose proof (law_range b Hwf). destruct (law_mark_extent b (Z.shiftr block c) m Hwf) as (H1 & H2 & H3 & H4 & H5); [lia..|].
    split_and!; [done|done|intros u; cbn; lia| |]; intros u Hu Ht; cbn in *; rewrite H5 by lia.
    + by rewrite bool_decide_eq_true_2 by (by apply HU).
    + rewrite bool_decide_eq_false_2; [done|]. intros Hr. by apply Ht, HU.
Qed.

Lemma unmark_range_cases h block num :
  gwf h -> 0 <= block -> 0 < num < 2 ^ 31 -> block + num + 2 ^ 32 < 2 ^ 64 ->
  let h' := ext2fs_unmark_block_bitmap_range2 h block num in
  (range_covered h block num -> range_set false h h' block num) /\
  (~ range_covered h block num -> h' = h).
Proof.
  intros Hwf Hb Hn Hlt. destruct h as [|k b|k c b|]; try done.
  - cbn [ext2fs_unmark_block_bitmap_range2]. rewrite (u64_small (block + num - 1)) by (unfold in_u; lia).
    rewrite (covered_ends32 k b) by lia. destruct (above32 (block + num - 1)) eqn:Ha.
    { apply above32_true in Ha; [|lia]. split; [|done]. intros [_ H]. pose proof (covers32 b (bm_end b) Hwf).
      destruct Hwf as [[] ?]. lia. }
    apply above32_false in Ha; [|lia]. unfold ext2fs_unmark_block_bitmap_range.
    rewrite (u32_small block) by (unfold in_u; lia). rewrite guard32 by lia.
    case_bool_decide as Hg; [|split; [done|done]]. cbn [negb]. split; [intros _|tauto].
    rewrite s32_small by lia. pose proof Hwf as [W1 W2]. pose proof (bw_end _ W1).
    rewrite unmark_go_eq by (done || lia).
    destruct (unmark_extent_loop_spec (Z.to_nat num) 0 b block W1) as (H1 & H2 & H3 & H4 & H5); [lia..|].
    split_and!; [split; [done|lia]|done|intros u; cbn; lia| |]; intros u Hu; rewrite touched32; cbn in *; intros Ht;
      rewrite H5 by lia.
    + by rewrite bool_decide_eq_true_2 by lia.
    + by rewrite bool_decide_eq_false_2 by lia.
  - destruct Hwf as [Hwf Hc]. assert (Hpow : 2 ^ c <= 2 ^ 32) by (apply Z.pow_le_mono_r; lia).
    cbn [ext2fs_unmark_block_bitmap_range2].
    pose proof (covered_ends64 k c b block num Hc Hb ltac:(lia) ltac:(lia)) as HE.
    pose proof (cluster_range_spec c block num Hc Hb ltac:(lia) ltac:(lia)) as HC.
    destruct (cluster_range c block num) as [u0 m]. destruct HC as (-> & Hm & HU). rewrite HE.
    pose proof (shiftr_bounds c block ltac:(lia) Hb).
    rewrite guard64 by (done || lia).
    case_bool_decide as Hg; [|split; [done|done]]. cbn [negb]. split; [intros _|tauto].
    pose proof (law_range b Hwf). destruct (law_unmark_extent b (Z.shiftr block c) m Hwf) as (H1 & H2 & H3 & H4 & H5); [lia..|].
    split_and!; [done|done|intros u; cbn; lia| |]; intros u Hu Ht; cbn in *; rewrite H5 by lia.
    + by rewrite bool_decide_eq_true_2 by (by apply HU).
    + rewrite bool_decide_eq_false_2; [done|]. intros Hr. by apply Ht, HU.
Qed.

(** * The test of a range *)

Definition block_bitmap (h : generic_bitmap T) : Prop :=
  match h with B32 k _ | B64 k _ _ => k = Kblock | _ => False end.

(** The 32-bit test is the one of bit arrays. *)
Lemma test_clear32_eq b block num :
  wf32 b -> bm_start b <= block <= bm_real_end b ->
  ext2fs_test_clear_generic_bitmap_range b block num = ba_test_clear_bmap_extent b block num.
Proof.
  intros Hwf Hb. unfold ext2fs_test_clear_generic_bitmap_range, ba_test_clear_bmap_extent.
  by rewrite index32 by done.
Qed.

Lemma test_range_cases h block num :
  gwf h -> block_bitmap h -> 0 <= block -> 0 < num < 2 ^ 31 -> block + num + 2 ^ 32 < 2 ^ 64 ->
  range_covered h block num ->
  let r := ext2fs_test_block_bitmap_range2 h block num in
  (r = 1 /\ forall u, touched h block num u -> gmem h u = false) \/
  (r = 0 /\ exists u, touched h block num u /\ gmem h u = true).
Proof.
  intros Hwf Hk Hb Hn Hlt HC. cbv zeta. destruct (decide (num = 1)) as [->|Hn1].
  { assert (HT : ext2fs_test_block_bitmap_range2 h block 1 = if decide (ext2fs_test_generic_bmap h block = 0) then 1 else 0)
      by (by destruct h).
    rewrite HT. pose proof (test_cases h block Hwf ltac:(lia)) as HP.
    rewrite decide_True in HP by (apply HC; lia). case_decide as E.
    - left. split; [done|]. intros u (n & Hr & <-). replace n with block by lia.
      apply not_true_iff_false. rewrite <- HP. lia.
    - right. split; [done|]. exists (gunit h block). split; [exists block; split; [lia|done]|]. by apply HP. }
  destruct h as [|k b|k c b|]; try done; cbn in Hk; subst k.
  - cbn [ext2fs_test_block_bitmap_range2]. rewrite decide_False by done.
    rewrite (u64_small (block + num - 1)) by (unfold in_u; lia).
    pose proof (proj1 (covered_ends32 Kblock b block num ltac:(lia)) HC) as [HC1 HC2].
    pose proof Hwf as [W1 W2]. pose proof (bw_end _ W1). pose proof (bw_start _ W1).
    rewrite (proj2 (above32_false (block + num - 1) ltac:(lia))) by lia. unfold ext2fs_test_block_bitmap_range.
    rewrite decide_False by tauto. rewrite (u32_small block), (u32_small (block + num - 1)), (u32_small num) by (unfold in_u; lia).
    rewrite !bool_decide_eq_false_2 by lia. cbn [orb]. rewrite test_clear32_eq by (done || lia).
    destruct (ba_test_clear_law b block num W1) as [[-> H1]|[-> (m & Hm & H1)]]; [lia..| |].
    + left. split; [done|]. intros u. rewrite touched32. apply H1.
    + right. split; [done|]. exists m. by rewrite touched32.
  - destruct Hwf as [Hwf Hc]. assert (Hpow : 2 ^ c <= 2 ^ 32) by (apply Z.pow_le_mono_r; lia).
    cbn [ext2fs_test_block_bitmap_range2]. rewrite decide_False by done.
    pose proof (covered_ends64 Kblock c b block num Hc Hb ltac:(lia) ltac:(lia)) as HE.
    pose proof (cluster_range_spec c block num Hc Hb ltac:(lia) ltac:(lia)) as HU.
    destruct (cluster_range c block num) as [u0 m]. destruct HU as (-> & Hm & HU). apply HE in HC.
    pose proof (shiftr_bounds c block ltac:(lia) Hb). rewrite guard64 by (done || lia).
    rewrite bool_decide_eq_true_2 by done. cbn [negb]. pose proof (law_range b Hwf).
    destruct (law_test_clear b (Z.shiftr block c) m Hwf) as [[-> H1]|[-> (u & Hu & H1)]]; [lia..| |].
    + left. split; [done|]. intros u Hu. by apply H1, HU.
    + right. split; [done|]. exists u. split; [by apply HU|done].
Qed.

(** * The searches *)

Lemma find_loop_spec want n b : forall s,
  wf32 b -> bm_start b <= s -> s + Z.of_nat n - 1 <= bm_real_end b ->
  first_in (ba_mem b) want s (s + Z.of_nat n - 1) (find_loop want n b s).
Proof.
  induction n as [|n IH]; intros s Hwf Hs He; cbn [find_loop].
  - right. split; [done|]. intros y Hy. lia.
  - rewrite index32 by (done || lia). pose proof Hwf as [W1 W2].
    change (ext2fs_test_bit64 _ _) with (ba_test_bmap b s). pose proof (ba_test_spec b s W1 ltac:(lia)) as HT.
    assert (HB : (if want then bool_decide (ba_test_bmap b s <> 0) else bool_decide (ba_test_bmap b s = 0)) = true
                 <-> ba_mem b s = want).
    { destruct want; rewrite bool_decide_eq_true; [done|]. rewrite <- not_true_iff_false, <- HT. lia. }
    destruct (if want then _ else _).
    + left. exists s. split_and!; [done|lia|lia|by apply HB|intros; lia].
    + assert (Hs1 : ba_mem b s = negb want).
      { destruct HB as [_ HB]. destruct (ba_mem b s), want; try done; by specialize (HB eq_refl). }
      replace (s + Z.of_nat (S n) - 1) with (s + 1 + Z.of_nat n - 1) by lia.
      destruct (IH (s + 1) Hwf ltac:(lia) ltac:(lia)) as [(x & -> & Hx & Hb & Hy)|[-> Hy]].
      * left. exists x. split_and!; [done|lia|lia|done|]. intros y Hr.
        destruct (decide (y = s)) as [->|]; [done|apply Hy; lia].
      * right. split; [done|]. intros y Hr. destruct (decide (y = s)) as [->|]; [done|apply Hy; lia].
Qed.

Lemma scan_loop_spec want n (b : T) : forall s,
  bm_wf b -> op_start b <= s -> s + Z.of_nat n - 1 <= op_real_end b ->
  first_in (bm_mem b) want s (s + Z.of_nat n - 1) (scan_loop want n b s).
Proof.
  induction n as [|n IH]; intros s Hwf Hs He; cbn [scan_loop].
  - right. split; [done|]. intros y Hy. lia.
  - pose proof (law_test b s Hwf ltac:(lia)) as HT.
    assert (HB : (if want then bool_decide (op_test_bmap b s <> 0) else bool_decide (op_test_bmap b s = 0)) = true
                 <-> bm_mem b s = want).
    { destruct want; rewrite bool_decide_eq_true; [done|]. rewrite <- not_true_iff_false, <- HT. lia. }
    destruct (if want then _ else _).
    + left. exists s. split_and!; [done|lia|lia|by apply HB|intros; lia].
    + assert (Hs1 : bm_mem b s = negb want).
      { destruct HB as [_ HB]. destruct (bm_mem b s), want; try done; by specialize (HB eq_refl). }
      replace (s + Z.of_nat (S n) - 1) with (s + 1 + Z.of_nat n - 1) by lia.
      destruct (IH (s + 1) Hwf ltac:(lia) ltac:(lia)) as [(x & -> & Hx & Hb & Hy)|[-> Hy]].
      * left. exists x. split_and!; [done|lia|lia|done|]. intros y Hr.
        destruct (decide (y = s)) as [->|]; [done|apply Hy; lia].
      * right. split; [done|]. intros y Hr. destruct (decide (y = s)) as [->|]; [done|apply Hy; lia].
Qed.

(** From the first cluster to the first block. *)
Lemma first_cluster P want c s e r :
  0 <= c < 32 -> 0 <= s <= e -> e < 2 ^ 64 ->
  first_in P want (Z.shiftr s c) (Z.shiftr e c) r ->
  first_in (fun n => P (Z.shiftr n c)) want s e
    (match r.2 with
     | Some cout =>
         if decide (r.1 <> 0) then (r.1, None)
         else let cout := u64 (Z.shiftl cout c) in (0, Some (if decide (cout >= s) then cout else s))
     | None => (r.1, None)
     end).
Proof.
  intros Hc Hs He HF. assert (Hp : 0 < 2 ^ c) by (apply Z.pow_pos_nonneg; lia).
  assert (Hmono : forall a b, a <= b -> Z.shiftr a c <= Z.shiftr b c).
  { intros a b Hab. rewrite !Z.shiftr_div_pow2 by lia. apply Z.div_le_mono; lia. }
  assert (Hdiv : forall n, 2 ^ c * Z.shiftr n c <= n < 2 ^ c * Z.shiftr n c + 2 ^ c).
  { intros n. rewrite Z.shiftr_div_pow2 by lia. pose proof (Z.div_mod n (2 ^ c)). pose proof (Z.mod_pos_bound n (2 ^ c)). lia. }
  destruct HF as [(x & -> & Hx & Hb & Hy)|[-> Hy]]; cbn.
  - left. rewrite Z.shiftl_mul_pow2 by lia. pose proof (Hdiv s). pose proof (Hdiv e).
    pose proof (shiftr_bounds c s ltac:(lia) ltac:(lia)).
    assert (0 <= x * 2 ^ c <= e) by nia. rewrite u64_small by (unfold in_u; lia).
    assert (HxP : Z.shiftr (x * 2 ^ c) c = x) by (rewrite Z.shiftr_div_pow2 by lia; apply Z.div_mul; lia).
    eexists. split; [reflexivity|]. case_decide as Hge.
    + split_and!; [lia|nia|by rewrite HxP|]. intros y Hr. apply Hy. pose proof (Hmono s y). pose proof (Hdiv y). nia.
    + assert (x = Z.shiftr s c) as Ex by nia. split_and!; [lia|lia|by rewrite <- Ex|]. intros y Hr. lia.
  - right. split; [done|]. intros y Hr. apply Hy. split; apply Hmono; lia.
Qed.

Lemma find_first_cases want op find32 h s e :
  gwf h -> 0 <= s <= e -> e < 2 ^ 64 -> gcovers h (gunit h s) -> gcovers h (gunit h e) ->
  (forall f (b : T) x y, op = Some f -> bm_wf b -> op_start b <= x <= y -> y <= op_real_end b -> first_in (bm_mem b) want x y (f b x y)) ->
  (forall b, wf32 b -> bm_start b <= s -> e <= bm_end b -> first_in (ba_mem b) want s e (find32 b s e)) ->
  first_in (fun n => gmem h (gunit h n)) want s e (find_first_generic want op find32 h s e).
Proof.
  intros Hwf Hs He Cs Ce Hop H32. destruct h as [|k b|k c b|]; try done; cbn in Cs, Ce.
  - cbn [find_first_generic gmem gunit]. pose proof (covers32 b s Hwf Cs). pose proof (covers32 b e Hwf Ce).
    rewrite (proj2 (above32_false s ltac:(lia))), (proj2 (above32_false e ltac:(lia))) by lia. cbn [orb].
    apply H32; [done|lia|lia].
  - destruct Hwf as [Hwf Hc]. pose proof (law_range b Hwf). cbn [find_first_generic gmem gunit].
    assert (Hmono : Z.shiftr s c <= Z.shiftr e c) by (rewrite !Z.shiftr_div_pow2 by lia; apply Z.div_le_mono; [apply Z.pow_pos_nonneg; lia|lia]).
    rewrite !bool_decide_eq_false_2 by lia. cbn [orb].
    set (r := match op with Some find => _ | None => _ end).
    assert (HF : first_in (bm_mem b) want (Z.shiftr s c) (Z.shiftr e c) r).
    { unfold r. destruct op as [f|]; [apply Hop; [done|done|lia|lia]|].
      replace (Z.shiftr e c) with (Z.shiftr s c + Z.of_nat (Z.to_nat (Z.shiftr e c - Z.shiftr s c + 1)) - 1) at 1 by lia.
      apply scan_loop_spec; [done|lia|lia]. }
    pose proof (first_cluster (bm_mem b) want c s e r Hc Hs He HF) as HR. by destruct r as [r1 r2].
Qed.

Lemma find_set_cases h s e :
  gwf h -> 0 <= s <= e -> e < 2 ^ 64 -> gcovers h (gunit h s) -> gcovers h (gunit h e) ->
  first_in (fun n => gmem h (gunit h n)) true s e (ext2fs_find_first_set_generic_bmap h s e).
Proof.
  intros Hwf Hs He Cs Ce. apply find_first_cases; try done.
  - intros f b x y Hf. by apply law_find_set.
  - intros b Wb H1 H2. unfold ext2fs_find_first_set_generic_bitmap. rewrite !bool_decide_eq_false_2 by lia. cbn [orb].
    replace e with (s + Z.of_nat (Z.to_nat (e - s + 1)) - 1) at 1 by lia.
    pose proof Wb as [[] ?]. apply find_loop_spec; [done|lia|lia].
Qed.

End gen64.
