(* ===== verification/BitmapTheorems.v ===== *)
(** What the bitmap functions guarantee, and two places where they do not do what they
    mean to. *)
From Stdlib Require Import ZArith Lia.
From stdpp Require Import base tactics numbers list.
From S2P Require Import Prelude ExtErr Bitops BitmapOps BitArray BitArrayProofs GenBitmap GenBitmapProofs.

(** * Theorems *)

(** C15: [ext2fs_mark_generic_bmap], [ext2fs_unmark_generic_bmap] and [ext2fs_test_generic_bmap]
    implement a set of blocks (at the granularity of clusters), for 32-bit bitmaps and for
    64-bit bitmaps over any implementation that keeps the interface's promises: marking adds
    the block's unit, unmarking removes it, both report whether it was there and touch no
    other unit, and a block outside the bitmap changes nothing and tests as clear. *)
Theorem generic_ops_spec {T} `{!BitmapOps T} `{!BitmapLaws T} `{!BitmapExact T} (h : generic_bitmap T) n :
  gwf h -> 0 <= n < 2 ^ 64 ->
  (let '(r, h') := ext2fs_mark_generic_bmap h n in
   if decide (gcovers h (gunit h n))
   then (r <> 0 <-> gmem h (gunit h n) = true) /\ gupdated h h' (fun u => bool_decide (u = gunit h n) || gmem h u)
   else r = 0 /\ h' = h) /\
  (let '(r, h') := ext2fs_unmark_generic_bmap h n in
   if decide (gcovers h (gunit h n))
   then (r <> 0 <-> gmem h (gunit h n) = true) /\ gupdated h h' (fun u => negb (bool_decide (u = gunit h n)) && gmem h u)
   else r = 0 /\ h' = h) /\
  (if decide (gcovers h (gunit h n))
   then ext2fs_test_generic_bmap h n <> 0 <-> gmem h (gunit h n) = true
   else ext2fs_test_generic_bmap h n = 0).
Proof.
  intros Hwf Hn. split; [by apply mark_cases|]. split; [|by apply test_cases].
  pose proof (unmark_cases h n Hwf Hn) as HU. pose proof (unmark_exact h n Hwf Hn) as HE.
  destruct (ext2fs_unmark_generic_bmap h n) as [r h']. case_decide; [|done]. destruct HU as [H1 H2]. by split; [split; [apply HE|]|].
Qed.

(** C16: [ext2fs_mark_block_bitmap_range2] and [ext2fs_unmark_block_bitmap_range2] set, or clear,
    exactly the units that hold a block of the range when the bitmap covers all of them, and
    change nothing otherwise. *)
Theorem range_ops_spec {T} `{!BitmapOps T} `{!BitmapLaws T} (h : generic_bitmap T) block num :
  gwf h -> 0 <= block -> 0 < num < 2 ^ 31 -> block + num + 2 ^ 32 < 2 ^ 64 ->
  (range_covered h block num -> range_set true h (ext2fs_mark_block_bitmap_range2 h block num) block num) /\
  (range_covered h block num -> range_set false h (ext2fs_unmark_block_bitmap_range2 h block num) block num) /\
  (~ range_covered h block num ->
   ext2fs_mark_block_bitmap_range2 h block num = h /\ ext2fs_unmark_block_bitmap_range2 h block num = h).
Proof.
  intros Hwf Hb Hn Hlt. destruct (mark_range_cases h block num Hwf Hb Hn Hlt) as [M1 M2].
  destruct (unmark_range_cases h block num Hwf Hb Hn Hlt) as [U1 U2]. split_and!; [done..|]. intros HC.
  split; [by apply M2|by apply U2].
Qed.

(** [ext2fs_test_block_bitmap_range2] on a range the block bitmap covers returns 1 when no unit
    of the range is marked and 0 when one is. *)
Theorem test_range_spec {T} `{!BitmapOps T} `{!BitmapLaws T} (h : generic_bitmap T) block num :
  gwf h -> block_bitmap h -> 0 <= block -> 0 < num < 2 ^ 31 -> block + num + 2 ^ 32 < 2 ^ 64 ->
  range_covered h block num ->
  (ext2fs_test_block_bitmap_range2 h block num = 1 /\ forall u, touched h block num u -> gmem h u = false) \/
  (ext2fs_test_block_bitmap_range2 h block num = 0 /\ exists u, touched h block num u /\ gmem h u = true).
Proof. apply test_range_cases. Qed.

(** The searches of generic bitmaps return the first block of the range whose unit is clear, or
    marked; [ENOENT] means that there is none. *)
Theorem find_first_spec {T} `{!BitmapOps T} `{!BitmapLaws T} `{!BitmapExact T} (h : generic_bitmap T) s e :
  gwf h -> 0 <= s <= e -> e < 2 ^ 64 -> gcovers h (gunit h s) -> gcovers h (gunit h e) ->
  first_in (fun n => gmem h (gunit h n)) false s e (ext2fs_find_first_zero_generic_bmap h s e) /\
  first_in (fun n => gmem h (gunit h n)) true s e (ext2fs_find_first_set_generic_bmap h s e).
Proof.
  intros Hwf Hs He Cs Ce. split; [|by apply find_set_cases]. apply find_first_cases; try done.
  - intros f b x y Hf. by apply law_find_zero.
  - intros b Wb H1 H2. unfold ext2fs_find_first_zero_generic_bitmap. rewrite !bool_decide_eq_false_2 by lia. cbn [orb].
    replace e with (s + Z.of_nat (Z.to_nat (e - s + 1)) - 1) at 1 by lia.
    pose proof Wb as [[] ?]. apply find_loop_spec; [done|lia|lia].
Qed.

(** The bit array's searches, which skip whole bytes and aligned 64-bit words, return the
    first bit a bit-by-bit search would, wherever the array lies in memory. *)
Theorem ba_find_first_correct addr b s e :
  ba_wf b -> bm_start b <= s <= e -> e <= bm_real_end b ->
  first_in (ba_mem b) false s e (ba_find_first_zero addr b s e) /\
  first_in (ba_mem b) true s e (ba_find_first_set addr b s e).
Proof. intros. split; by apply ba_find_first_spec. Qed.

(** [ba_test_clear_bmap_extent], which masks the first and the last byte and compares the rest
    256 bytes at a time, returns 1 when all bits of the extent are clear and 0 otherwise. *)
Theorem ba_test_clear_correct b n num :
  ba_wf b -> bm_start b <= n -> 0 <= num < 2 ^ 32 -> n + num - 1 <= bm_real_end b ->
  (ba_test_clear_bmap_extent b n num = 1 /\ forall m, n <= m < n + num -> ba_mem b m = false) \/
  (ba_test_clear_bmap_extent b n num = 0 /\ exists m, n <= m < n + num /\ ba_mem b m = true).
Proof. apply ba_test_clear_law. Qed.

(** * Witnesses *)

Definition demo_junk (n : Z) : list Z := replicate (Z.to_nat n) 170.

Lemma demo_junk_len n : zlen (demo_junk n) = n `max` 0.
Proof. unfold zlen, demo_junk. rewrite length_replicate. lia. Qed.

Lemma demo_junk_bytes n : bytes (demo_junk n).
Proof. apply Forall_replicate. unfold in_u. lia. Qed.

#[local] Instance demo_ops : BitmapOps bmap := ext2fs_blkmap64_bitarray 5 demo_junk.
#[local] Instance demo_laws : BitmapLaws bmap := ba_laws 5 demo_junk demo_junk_len demo_junk_bytes.
#[local] Instance demo_exact : BitmapExact bmap := ba_exact 5 demo_junk demo_junk_len demo_junk_bytes.

(** 320 bits from 1 on, 300 in use; some are marked. *)
Definition demo_map : bmap :=
  ba_mark_bmap_extent (ba_new_bmap demo_junk true (mkBmap 1 300 320 [])).2 100 17.

Lemma demo_map_wf : ba_wf demo_map.
Proof.
  split; [vm_compute; split; discriminate|split; [vm_compute; discriminate|vm_compute; reflexivity]| |vm_compute; discriminate].
  apply bytes_check. vm_compute. reflexivity.
Qed.

Definition demo_handle : generic_bitmap bmap := B64 Kblock 2 demo_map.

Lemma demo_handle_wf : gwf demo_handle.
Proof. split; [exact demo_map_wf|lia]. Qed.

Lemma generic_ops_spec_witness :
  ext2fs_test_generic_bmap demo_handle 401 <> 0 /\
  (ext2fs_test_generic_bmap demo_handle 401 <> 0 <-> gmem demo_handle 100 = true).
Proof.
  split; [vm_compute; discriminate|].
  exact (proj2 (proj2 (generic_ops_spec demo_handle 401 demo_handle_wf ltac:(lia)))).
Defined.

Lemma demo_covered : range_covered demo_handle 600 30.
Proof.
  intros n Hn. change (bm_start demo_map <= Z.shiftr n 2 <= bm_end demo_map).
  replace (bm_start demo_map) with 1 by (vm_compute; reflexivity).
  replace (bm_end demo_map) with 300 by (vm_compute; reflexivity). rewrite Z.shiftr_div_pow2 by lia. change (2 ^ 2) with 4. Z.div_mod_to_equations. lia.
Qed.

Lemma range_ops_spec_witness :
  range_set true demo_handle (ext2fs_mark_block_bitmap_range2 demo_handle 600 30) 600 30.
Proof.
  refine (proj1 (range_ops_spec demo_handle 600 30 demo_handle_wf _ _ _) demo_covered);
    vm_compute; try split; reflexivity || discriminate.
Defined.

Lemma test_range_spec_witness :
  ext2fs_test_block_bitmap_range2 demo_handle 600 30 = 1 /\
  exists r, r = ext2fs_test_block_bitmap_range2 demo_handle 600 30 /\ (r = 1 \/ r = 0).
Proof.
  split; [vm_compute; reflexivity|]. exists (ext2fs_test_block_bitmap_range2 demo_handle 600 30). split; [done|].
  destruct (test_range_spec demo_handle 600 30 demo_handle_wf eq_refl ltac:(lia) ltac:(lia) ltac:(lia) demo_covered)
    as [[H _]|[H _]]; [by left|by right].
Defined.

Lemma find_first_spec_witness :
  first_in (fun n => gmem demo_handle (gunit demo_handle n)) false 402 700 (0, Some 468).
Proof.
  replace (0, Some 468) with (ext2fs_find_first_zero_generic_bmap demo_handle 402 700) by (vm_compute; reflexivity).
  exact (proj1 (find_first_spec demo_handle 402 700 demo_handle_wf ltac:(lia) ltac:(lia)
    ltac:(vm_compute; split; discriminate) ltac:(vm_compute; split; discriminate))).
Defined.

Lemma ba_find_first_correct_witness : first_in (ba_mem demo_map) true 3 300 (0, Some 100).
Proof.
  replace (0, Some 100) with (ba_find_first_set 5 demo_map 3 300) by (vm_compute; reflexivity).
  exact (proj2 (ba_find_first_correct 5 demo_map 3 300 demo_map_wf ltac:(vm_compute; repeat split; discriminate) ltac:(vm_compute; repeat split; discriminate))).
Defined.

Lemma ba_test_clear_correct_witness :
  ba_test_clear_bmap_extent demo_map 3 97 = 1 /\ ba_test_clear_bmap_extent demo_map 3 98 = 0 /\
  (ba_test_clear_bmap_extent demo_map 3 97 = 1 \/ ba_test_clear_bmap_extent demo_map 3 97 = 0).
Proof.
  split; [vm_compute; reflexivity|]. split; [vm_compute; reflexivity|].
  destruct (ba_test_clear_correct demo_map 3 97 demo_map_wf ltac:(vm_compute; repeat split; discriminate) ltac:(lia) ltac:(vm_compute; repeat split; discriminate))
    as [[H _]|[H _]]; [by left|by right].
Defined.

Lemma ba_resize_spec_witness : ba_wf (ba_resize_bmap demo_junk true demo_map 350 400).2.
Proof.
  pose proof (ba_resize_spec demo_junk demo_junk_len demo_junk_bytes true demo_map 350 400 demo_map_wf
    ltac:(vm_compute; reflexivity) ltac:(vm_compute; repeat split; discriminate) ltac:(lia)) as H.
  destruct (ba_resize_bmap demo_junk true demo_map 350 400) as [err b']. destruct H as (_ & H & _). exact H.
Defined.

Lemma ba_range_roundtrip_witness :
  ba_get_bmap_range (ba_set_bmap_range demo_map 17 20 [255; 15; 3]).2 17 20 [9; 9; 9; 9] = (0, [255; 15; 3; 9]).
Proof.
  pose proof (ba_range_roundtrip demo_map 17 20 [255; 15; 3] [9; 9; 9; 9] demo_map_wf
    ltac:(apply bytes_check; vm_compute; reflexivity) ltac:(vm_compute; reflexivity)
    ltac:(vm_compute; discriminate) ltac:(vm_compute; reflexivity) ltac:(lia)
    ltac:(vm_compute; discriminate) ltac:(vm_compute; discriminate)) as (_ & H & _).
  exact H.
Defined.

Lemma compare32_correct_witness :
  ext2fs_compare_generic_bitmap 7 demo_map demo_map = 0 /\
  (ext2fs_compare_generic_bitmap 7 demo_map demo_map = 0 <->
   bm_start demo_map = bm_start demo_map /\ bm_end demo_map = bm_end demo_map /\
   forall n, bm_start demo_map <= n <= bm_end demo_map -> ba_mem demo_map n = ba_mem demo_map n).
Proof.
  split; [vm_compute; reflexivity|].
  apply (compare32_correct 7 demo_map demo_map); [split; [exact demo_map_wf|vm_compute; reflexivity]..|lia].
Defined.

(** * Where the code does not do what it means to *)

(** [ext2fs_compare_generic_bmap] on 64-bit bitmaps compares only the last bits of the range (at
    most eight): two bitmaps that differ in a bit before them compare equal, though
    [ext2fs_compare_generic_bitmap] tells them apart. *)
Theorem compare64_misses_difference :
  let m1 := demo_map in
  let m2 := (ba_mark_bmap m1 50).2 in
  ba_mem m1 50 <> ba_mem m2 50 /\
  ext2fs_compare_generic_bmap 7 (B64 Kblock 0 m1) (B64 Kblock 0 m2) = 0 /\
  ext2fs_compare_generic_bmap 7 (B32 Kblock m1) (B32 Kblock m2) = 7.
Proof. vm_compute. split_and!; [discriminate|reflexivity|reflexivity]. Qed.

(** After [ext2fs_resize_generic_bitmap] the array of a 32-bit bitmap has no room for rounding,
    yet [ext2fs_copy_generic_bitmap] reads the rounded size: it reads beyond the array. *)
Theorem copy32_reads_past_array :
  let m := (ext2fs_make_generic_bitmap true 0 63 63 None).2 in
  let m' := (fun b => (ext2fs_resize_generic_bitmap demo_junk true b 127 127).2) <$> m in
  (fun b => zlen (bm_array b)) <$> m' = Some 16 /\
  (fun b => size32 (bm_start b) (bm_real_end b)) <$> m' = Some 20.
Proof. vm_compute. split; reflexivity. Qed.
