(* ===== verification/Rbtree.v ===== *)
(** Red-black trees: [rfsck-ext/lib/ext2fs/rbtree.c] and [rbtree.h], on a memory of nodes that
    point to their children and to their parent.

    A pointer is a [ptr] or null ([None]); a node carries the data of the structure it is
    embedded in.  A function is an element of the state monad [M]; [None] is the access to a
    null or a dangling pointer (or a loop that has not ended within its fuel, which the proofs
    exclude).  The word [rb_parent_color] is kept as its two parts. *)
From Stdlib Require Import ZArith Lia.
From stdpp Require Import base tactics numbers list gmap.
From S2P Require Import Prelude.


Abbreviation ptr := positive.

Inductive color := RB_RED | RB_BLACK.

#[global] Instance color_eq_dec : EqDecision color.
Proof. solve_decision. Defined.

(** [struct rb_node] *)
Record rb_node := mkNode {
  rb_parent : option ptr;
  rb_color : color;
  rb_right : option ptr;
  rb_left : option ptr
}.

Definition with_parent (p : option ptr) (n : rb_node) : rb_node := mkNode p (rb_color n) (rb_right n) (rb_left n).
Definition with_color (c : color) (n : rb_node) : rb_node := mkNode (rb_parent n) c (rb_right n) (rb_left n).
Definition with_right (r : option ptr) (n : rb_node) : rb_node := mkNode (rb_parent n) (rb_color n) r (rb_left n).
Definition with_left (l : option ptr) (n : rb_node) : rb_node := mkNode (rb_parent n) (rb_color n) (rb_right n) l.

(** The root ([struct rb_root]) and the nodes in memory with their data. *)
Record mem (A : Type) := mkMem {
  m_root : option ptr;
  m_heap : gmap ptr (rb_node * A)
}.
Arguments mkMem {A}.
Arguments m_root {A}.
Arguments m_heap {A}.

Definition M (A X : Type) : Type := mem A -> option (X * mem A).

#[global] Instance M_ret {A} : MRet (M A) := fun X x s => Some (x, s).
#[global] Instance M_bind {A} : MBind (M A) := fun X Y k m s =>
  match m s with Some (x, s') => k x s' | None => None end.

Section code.
Context {A : Type}.

(** * Accesses *)

Definition load (p : option ptr) : M A (rb_node * A) := fun s =>
  match p with
  | Some p => match m_heap s !! p with Some x => Some (x, s) | None => None end
  | None => None
  end.

Definition store (p : option ptr) (f : rb_node * A -> rb_node * A) : M A unit := fun s =>
  match p with
  | Some p => match m_heap s !! p with
              | Some x => Some (tt, mkMem (m_root s) (<[p := f x]> (m_heap s)))
              | None => None
              end
  | None => None
  end.

Definition get_root : M A (option ptr) := fun s => Some (m_root s, s).
Definition set_root (r : option ptr) : M A unit := fun s => Some (tt, mkMem r (m_heap s)).
(** As much fuel as there are nodes. *)
Definition get_fuel : M A nat := fun s => Some (size (m_heap s), s).
Definition when (p : option ptr) (m : M A unit) : M A unit := match p with Some _ => m | None => mret tt end.

Definition ext2fs_rb_parent (p : option ptr) : M A (option ptr) := x ← load p; mret (rb_parent x.1).
Definition ext2fs_rb_color (p : option ptr) : M A color := x ← load p; mret (rb_color x.1).
Definition left_of (p : option ptr) : M A (option ptr) := x ← load p; mret (rb_left x.1).
Definition right_of (p : option ptr) : M A (option ptr) := x ← load p; mret (rb_right x.1).
Definition ext2fs_rb_is_red (p : option ptr) : M A bool := c ← ext2fs_rb_color p; mret (bool_decide (c = RB_RED)).
Definition ext2fs_rb_is_black (p : option ptr) : M A bool := c ← ext2fs_rb_color p; mret (bool_decide (c = RB_BLACK)).

Definition ext2fs_rb_set_parent (p q : option ptr) : M A unit := store p (fun x => (with_parent q x.1, x.2)).
Definition ext2fs_rb_set_color (p : option ptr) (c : color) : M A unit := store p (fun x => (with_color c x.1, x.2)).
Definition ext2fs_rb_set_red (p : option ptr) : M A unit := ext2fs_rb_set_color p RB_RED.
Definition ext2fs_rb_set_black (p : option ptr) : M A unit := ext2fs_rb_set_color p RB_BLACK.
Definition set_left (p q : option ptr) : M A unit := store p (fun x => (with_left q x.1, x.2)).
Definition set_right (p q : option ptr) : M A unit := store p (fun x => (with_right q x.1, x.2)).

Definition ext2fs_rb_empty_root : M A bool := r ← get_root; mret (bool_decide (r = None)).
Definition ext2fs_rb_empty_node (node : option ptr) : M A bool := q ← ext2fs_rb_parent node; mret (bool_decide (q = node)).
Definition ext2fs_rb_clear_node (node : option ptr) : M A unit := ext2fs_rb_set_parent node node.

(** The address of a link: of the root, or of a child field. *)
Inductive link := Lroot | Lleft (p : option ptr) | Lright (p : option ptr).

Definition read_link (n : link) : M A (option ptr) :=
  match n with Lroot => get_root | Lleft p => left_of p | Lright p => right_of p end.

Definition write_link (n : link) (q : option ptr) : M A unit :=
  match n with Lroot => set_root q | Lleft p => set_left p q | Lright p => set_right p q end.

(** [ext2fs_rb_link_node]: the new node is red, since the parent's address is even. *)
Definition ext2fs_rb_link_node (node parent : option ptr) (rb_link : link) : M A unit :=
  store node (fun x => (mkNode parent RB_RED None None, x.2));; write_link rb_link node.

(** * Rotations *)

(** The link from [parent] (or from the root) to [node] becomes one to [q]: the three ways the
    code tells the sides apart. *)
Definition relink_l (parent node q : option ptr) : M A unit :=
  match parent with
  | Some _ => pl ← left_of parent; if decide (node = pl) then set_left parent q else set_right parent q
  | None => set_root q
  end.

Definition relink_r (parent node q : option ptr) : M A unit :=
  match parent with
  | Some _ => pr ← right_of parent; if decide (node = pr) then set_right parent q else set_left parent q
  | None => set_root q
  end.

Definition relink (parent node q : option ptr) : M A unit :=
  match parent with
  | Some _ => pl ← left_of parent; if decide (pl = node) then set_left parent q else set_right parent q
  | None => set_root q
  end.

Definition __rb_rotate_left (node : option ptr) : M A unit :=
  right ← right_of node;
  parent ← ext2fs_rb_parent node;
  rl ← left_of right;
  set_right node rl;;
  when rl (ext2fs_rb_set_parent rl node);;
  set_left right node;;
  ext2fs_rb_set_parent right parent;;
  relink_l parent node right;;
  ext2fs_rb_set_parent node right.

Definition __rb_rotate_right (node : option ptr) : M A unit :=
  left ← left_of node;
  parent ← ext2fs_rb_parent node;
  lr ← right_of left;
  set_left node lr;;
  when lr (ext2fs_rb_set_parent lr node);;
  set_right left node;;
  ext2fs_rb_set_parent left parent;;
  relink_r parent node left;;
  ext2fs_rb_set_parent node left.

(** [p && ext2fs_rb_is_red(p)] and [!p || ext2fs_rb_is_black(p)] *)
Definition and_red (p : option ptr) : M A bool :=
  match p with Some _ => ext2fs_rb_is_red p | None => mret false end.
Definition or_black (p : option ptr) : M A bool :=
  match p with Some _ => ext2fs_rb_is_black p | None => mret true end.

(** * Insertion *)

Fixpoint insert_color_loop (fuel : nat) (node : option ptr) : M A unit :=
  match fuel with
  | O => fun _ => None
  | S fuel' =>
      parent ← ext2fs_rb_parent node;
      red ← and_red parent;
      if negb red then mret tt
      else
        gparent ← ext2fs_rb_parent parent;
        gl ← left_of gparent;
        if decide (parent = gl) then
          uncle ← right_of gparent;
          ured ← and_red uncle;
          if (ured : bool) then
            ext2fs_rb_set_black uncle;;
            ext2fs_rb_set_black parent;;
            ext2fs_rb_set_red gparent;;
            insert_color_loop fuel' gparent
          else
            pr ← right_of parent;
            '(parent, node) ← (if decide (pr = node)
                               then __rb_rotate_left parent;; mret (node, parent)
                               else mret (parent, node));
            ext2fs_rb_set_black parent;;
            ext2fs_rb_set_red gparent;;
            __rb_rotate_right gparent;;
            insert_color_loop fuel' node
        else
          uncle ← left_of gparent;
          ured ← and_red uncle;
          if (ured : bool) then
            ext2fs_rb_set_black uncle;;
            ext2fs_rb_set_black parent;;
            ext2fs_rb_set_red gparent;;
            insert_color_loop fuel' gparent
          else
            pl ← left_of parent;
            '(parent, node) ← (if decide (pl = node)
                               then __rb_rotate_right parent;; mret (node, parent)
                               else mret (parent, node));
            ext2fs_rb_set_black parent;;
            ext2fs_rb_set_red gparent;;
            __rb_rotate_left gparent;;
            insert_color_loop fuel' node
  end.

Definition ext2fs_rb_insert_color (node : option ptr) : M A unit :=
  fuel ← get_fuel;
  insert_color_loop (S fuel) node;;
  r ← get_root;
  ext2fs_rb_set_black r.

(** * Removal *)

(** [if (node) ext2fs_rb_set_black(node)] *)
Definition erase_color_end (node : option ptr) : M A unit := when node (ext2fs_rb_set_black node).

(** The body of the loop once the sibling [other] of a left child is black; [loop] is the next turn. *)
Definition erase_sibling_l (loop : option ptr -> option ptr -> M A unit) (parent other : option ptr) : M A unit :=
  ol ← left_of other;
  or ← right_of other;
  bl ← or_black ol;
  br ← or_black or;
  if bl && br then
    ext2fs_rb_set_red other;;
    up ← ext2fs_rb_parent parent;
    loop parent up
  else
    other ← (if (br : bool) then
               ext2fs_rb_set_black ol;;
               ext2fs_rb_set_red other;;
               __rb_rotate_right other;;
               right_of parent
             else mret other);
    c ← ext2fs_rb_color parent;
    ext2fs_rb_set_color other c;;
    ext2fs_rb_set_black parent;;
    or ← right_of other;
    ext2fs_rb_set_black or;;
    __rb_rotate_left parent;;
    node ← get_root;
    erase_color_end node.

(** The same for a right child. *)
Definition erase_sibling_r (loop : option ptr -> option ptr -> M A unit) (parent other : option ptr) : M A unit :=
  ol ← left_of other;
  or ← right_of other;
  bl ← or_black ol;
  br ← or_black or;
  if bl && br then
    ext2fs_rb_set_red other;;
    up ← ext2fs_rb_parent parent;
    loop parent up
  else
    other ← (if (bl : bool) then
               ext2fs_rb_set_black or;;
               ext2fs_rb_set_red other;;
               __rb_rotate_left other;;
               left_of parent
             else mret other);
    c ← ext2fs_rb_color parent;
    ext2fs_rb_set_color other c;;
    ext2fs_rb_set_black parent;;
    ol ← left_of other;
    ext2fs_rb_set_black ol;;
    __rb_rotate_right parent;;
    node ← get_root;
    erase_color_end node.

Fixpoint erase_color_loop (fuel : nat) (node parent : option ptr) : M A unit :=
  match fuel with
  | O => fun _ => None
  | S fuel' =>
      black ← or_black node;
      root ← get_root;
      if negb (black && bool_decide (node <> root)) then erase_color_end node
      else
        pl ← left_of parent;
        if decide (pl = node) then
          other ← right_of parent;
          ored ← ext2fs_rb_is_red other;
          other ← (if (ored : bool) then
                     ext2fs_rb_set_black other;;
                     ext2fs_rb_set_red parent;;
                     __rb_rotate_left parent;;
                     right_of parent
                   else mret other);
          erase_sibling_l (erase_color_loop fuel') parent other
        else
          other ← left_of parent;
          ored ← ext2fs_rb_is_red other;
          other ← (if (ored : bool) then
                     ext2fs_rb_set_black other;;
                     ext2fs_rb_set_red parent;;
                     __rb_rotate_right parent;;
                     left_of parent
                   else mret other);
          erase_sibling_r (erase_color_loop fuel') parent other
  end.

Definition __rb_erase_color (node parent : option ptr) : M A unit :=
  fuel ← get_fuel;
  erase_color_loop (S (S fuel)) node parent.

(** [while (n->rb_left) n = n->rb_left], and the same to the right. *)
Fixpoint leftmost (fuel : nat) (n : option ptr) : M A (option ptr) :=
  match fuel with
  | O => fun _ => None
  | S fuel' => l ← left_of n; match l with Some _ => leftmost fuel' l | None => mret n end
  end.

Fixpoint rightmost (fuel : nat) (n : option ptr) : M A (option ptr) :=
  match fuel with
  | O => fun _ => None
  | S fuel' => r ← right_of n; match r with Some _ => rightmost fuel' r | None => mret n end
  end.

(** The end of [ext2fs_rb_erase], from the label [color] on. *)
Definition erase_fixup (c : color) (child parent : option ptr) : M A unit :=
  if decide (c = RB_BLACK) then __rb_erase_color child parent else mret tt.

(** A node with at most one child. *)
Definition erase_one (node child : option ptr) : M A unit :=
  parent ← ext2fs_rb_parent node;
  c ← ext2fs_rb_color node;
  when child (ext2fs_rb_set_parent child parent);;
  relink parent node child;;
  erase_fixup c child parent.

(** A node with two children: its successor takes its place. *)
Definition erase_two (old : option ptr) : M A unit :=
  r ← right_of old;
  fuel ← get_fuel;
  node ← leftmost (S fuel) r;
  up ← ext2fs_rb_parent old;
  relink up old node;;
  child ← right_of node;
  parent ← ext2fs_rb_parent node;
  c ← ext2fs_rb_color node;
  parent ← (if decide (parent = old) then mret node
            else
              when child (ext2fs_rb_set_parent child parent);;
              set_left parent child;;
              oldr ← right_of old;
              set_right node oldr;;
              ext2fs_rb_set_parent oldr node;;
              mret parent);
  up ← ext2fs_rb_parent old;
  oldc ← ext2fs_rb_color old;
  ext2fs_rb_set_parent node up;;
  ext2fs_rb_set_color node oldc;;
  oldl ← left_of old;
  set_left node oldl;;
  ext2fs_rb_set_parent oldl node;;
  erase_fixup c child parent.

Definition ext2fs_rb_erase (node : option ptr) : M A unit :=
  l ← left_of node;
  r ← right_of node;
  match l, r with
  | None, _ => erase_one node r
  | _, None => erase_one node l
  | _, _ => erase_two node
  end.

(** * Traversal *)

Definition ext2fs_rb_first : M A (option ptr) :=
  n ← get_root;
  match n with
  | None => mret None
  | Some _ => fuel ← get_fuel; leftmost (S fuel) n
  end.

Definition ext2fs_rb_last : M A (option ptr) :=
  n ← get_root;
  match n with
  | None => mret None
  | Some _ => fuel ← get_fuel; rightmost (S fuel) n
  end.

(** [while ((parent = ext2fs_rb_parent(node)) && node == parent->rb_right) node = parent],
    and the same from left children. *)
Fixpoint climb_right (fuel : nat) (node : option ptr) : M A (option ptr) :=
  match fuel with
  | O => fun _ => None
  | S fuel' =>
      parent ← ext2fs_rb_parent node;
      match parent with
      | None => mret None
      | Some _ => pr ← right_of parent; if decide (node = pr) then climb_right fuel' parent else mret parent
      end
  end.

Fixpoint climb_left (fuel : nat) (node : option ptr) : M A (option ptr) :=
  match fuel with
  | O => fun _ => None
  | S fuel' =>
      parent ← ext2fs_rb_parent node;
      match parent with
      | None => mret None
      | Some _ => pl ← left_of parent; if decide (node = pl) then climb_left fuel' parent else mret parent
      end
  end.

Definition ext2fs_rb_next (node : option ptr) : M A (option ptr) :=
  empty ← ext2fs_rb_empty_node node;
  if (empty : bool) then mret None
  else
    r ← right_of node;
    fuel ← get_fuel;
    match r with
    | Some _ => leftmost (S fuel) r
    | None => climb_right (S fuel) node
    end.

Definition ext2fs_rb_prev (node : option ptr) : M A (option ptr) :=
  empty ← ext2fs_rb_empty_node node;
  if (empty : bool) then mret None
  else
    l ← left_of node;
    fuel ← get_fuel;
    match l with
    | Some _ => rightmost (S fuel) l
    | None => climb_left (S fuel) node
    end.

(** [ext2fs_rb_replace_node]: [*new = *victim] copies the links and the colour. *)
Definition ext2fs_rb_replace_node (victim new : option ptr) : M A unit :=
  parent ← ext2fs_rb_parent victim;
  relink_l parent victim new;;
  l ← left_of victim;
  when l (ext2fs_rb_set_parent l new);;
  r ← right_of victim;
  when r (ext2fs_rb_set_parent r new);;
  x ← load victim;
  store new (fun y => (x.1, y.2)).

(** * Augmented trees: the nodes the callback is called on, in order *)

Fixpoint ext2fs_rb_augment_path (fuel : nat) (node : option ptr) : M A (list (option ptr)) :=
  match fuel with
  | O => fun _ => None
  | S fuel' =>
      parent ← ext2fs_rb_parent node;
      match parent with
      | None => mret [node]
      | Some _ =>
          pl ← left_of parent;
          pr ← right_of parent;
          let side := if bool_decide (node = pl) && bool_decide (pr <> None) then [pr]
                      else if bool_decide (pl <> None) then [pl] else [] in
          rest ← ext2fs_rb_augment_path fuel' parent;
          mret (node :: side ++ rest)
      end
  end.

Definition ext2fs_rb_augment_insert (node : option ptr) : M A (list (option ptr)) :=
  l ← left_of node;
  r ← right_of node;
  fuel ← get_fuel;
  ext2fs_rb_augment_path (S fuel)
    (match l, r with Some _, _ => l | None, Some _ => r | None, None => node end).

Definition ext2fs_rb_augment_erase_begin (node : option ptr) : M A (option ptr) :=
  l ← left_of node;
  r ← right_of node;
  match r, l with
  | None, None => ext2fs_rb_parent node
  | None, Some _ => mret l
  | Some _, None => mret r
  | Some _, Some _ =>
      deepest ← ext2fs_rb_next node;
      dr ← right_of deepest;
      match dr with
      | Some _ => mret dr
      | None => q ← ext2fs_rb_parent deepest; mret (if decide (q <> node) then q else deepest)
      end
  end.

Definition ext2fs_rb_augment_erase_end (node : option ptr) : M A (list (option ptr)) :=
  match node with
  | Some _ => fuel ← get_fuel; ext2fs_rb_augment_path (S fuel) node
  | None => mret []
  end.

End code.
