(* ===== verification/RbtreeProofs.v ===== *)
(** The memory of a red-black tree as an inductive tree: the predicate [Rep] for a subtree in
    its context, and what each step of [Rbtree] does to it. *)
From Stdlib Require Import ZArith Lia.
From stdpp Require Import base tactics numbers list gmap.
From S2P Require Import Prelude Rbtree.

(** * Trees and contexts *)

Inductive tree (A : Type) : Type :=
| E
| T (c : color) (l : tree A) (p : ptr) (a : A) (r : tree A).
Arguments E {A}.
Arguments T {A}.

(** A frame is a node without its left, or its right, subtree; a context is the list of
    frames from a position up to the root. *)
Inductive frame (A : Type) : Type :=
| Lf (c : color) (p : ptr) (a : A) (r : tree A)
| Rf (c : color) (l : tree A) (p : ptr) (a : A).
Arguments Lf {A}.
Arguments Rf {A}.

Abbreviation ctx A := (list (frame A)).

Section trees.
Context {A : Type}.
Implicit Types (t l r : tree A) (k : ctx A) (h : gmap ptr (rb_node * A)) (s : mem A).

Definition plug1 (f : frame A) t : tree A :=
  match f with Lf c p a r => T c t p a r | Rf c l p a => T c l p a t end.
Definition plug k t : tree A := foldl (fun t f => plug1 f t) t k.

Definition troot t : option ptr := match t with E => None | T _ _ p _ _ => Some p end.
Definition fptr (f : frame A) : ptr := match f with Lf _ p _ _ => p | Rf _ _ p _ => p end.
Definition ktop k : option ptr := match k with [] => None | f :: _ => Some (fptr f) end.

Fixpoint ptrs t : list ptr := match t with E => [] | T _ l p _ r => p :: ptrs l ++ ptrs r end.
Definition fptrs (f : frame A) : list ptr := match f with Lf _ p _ r => p :: ptrs r | Rf _ l p _ => p :: ptrs l end.
Definition kptrs k : list ptr := k ≫= fptrs.

(** In-order contents, of a tree and of the two sides of a context. *)
Fixpoint elems t : list (ptr * A) := match t with E => [] | T _ l p a r => elems l ++ (p, a) :: elems r end.
Definition fleft (f : frame A) : list (ptr * A) := match f with Lf _ _ _ _ => [] | Rf _ l p a => elems l ++ [(p, a)] end.
Definition fright (f : frame A) : list (ptr * A) := match f with Lf _ p a r => (p, a) :: elems r | Rf _ _ _ _ => [] end.
Fixpoint kleft k : list (ptr * A) := match k with [] => [] | f :: k => kleft k ++ fleft f end.
Fixpoint kright k : list (ptr * A) := match k with [] => [] | f :: k => fright f ++ kright k end.

Lemma elems_plug k t : elems (plug k t) = kleft k ++ elems t ++ kright k.
Proof.
  revert t. induction k as [|f k IH]; intros t; cbn; [by rewrite app_nil_r|].
  unfold plug in *. cbn. rewrite IH. destruct f; cbn; rewrite ?app_nil_r, <- ?app_assoc; cbn; by rewrite <- ?app_assoc.
Qed.

Lemma plug_cons f k t : plug (f :: k) t = plug k (plug1 f t).
Proof. done. Qed.

Lemma plug_app k1 k2 t : plug (k1 ++ k2) t = plug k2 (plug k1 t).
Proof. unfold plug. by rewrite foldl_app. Qed.

(** * The memory of a tree *)

Fixpoint sub h (par : option ptr) t : Prop :=
  match t with
  | E => True
  | T c l p a r => h !! p = Some (mkNode par c (troot r) (troot l), a) /\ sub h (Some p) l /\ sub h (Some p) r
  end.

Fixpoint con h k (x : option ptr) : Prop :=
  match k with
  | [] => True
  | Lf c p a r :: k => h !! p = Some (mkNode (ktop k) c (troot r) x, a) /\ sub h (Some p) r /\ con h k (Some p)
  | Rf c l p a :: k => h !! p = Some (mkNode (ktop k) c x (troot l), a) /\ sub h (Some p) l /\ con h k (Some p)
  end.

Fixpoint kroot k (x : option ptr) : option ptr :=
  match k with [] => x | f :: k => kroot k (Some (fptr f)) end.

(** [s] holds the tree [t] in the context [k]. *)
Definition Rep s k t : Prop :=
  m_root s = kroot k (troot t) /\ NoDup (ptrs t ++ kptrs k) /\ con (m_heap s) k (troot t) /\ sub (m_heap s) (ktop k) t.

Lemma NoDup_ptrs_lf c p a r k t :
  NoDup (ptrs t ++ kptrs (Lf c p a r :: k)) <-> NoDup (ptrs (T c t p a r) ++ kptrs k).
Proof.
  unfold kptrs. cbn. rewrite <- !app_assoc. cbn. by rewrite <- Permutation_middle.
Qed.

Lemma NoDup_ptrs_rf c p a l k t :
  NoDup (ptrs t ++ kptrs (Rf c l p a :: k)) <-> NoDup (ptrs (T c l p a t) ++ kptrs k).
Proof.
  unfold kptrs. cbn. rewrite <- !app_assoc. cbn. rewrite <- Permutation_middle. f_equiv. f_equiv.
  rewrite !app_assoc. f_equiv. apply Permutation_app_comm.
Qed.

(** Moving the position up or down. *)
Lemma Rep_lf s c p a r k t : Rep s (Lf c p a r :: k) t <-> Rep s k (T c t p a r).
Proof. unfold Rep. rewrite NoDup_ptrs_lf. cbn. tauto. Qed.

Lemma Rep_rf s c p a l k t : Rep s (Rf c l p a :: k) t <-> Rep s k (T c l p a t).
Proof. unfold Rep. rewrite NoDup_ptrs_rf. cbn. tauto. Qed.

Lemma Rep_plug s k1 k2 t : Rep s (k1 ++ k2) t <-> Rep s k2 (plug k1 t).
Proof.
  revert t. induction k1 as [|[c p a r|c l p a] k1 IH]; intros t; cbn [app].
  - done.
  - rewrite Rep_lf, IH. done.
  - rewrite Rep_rf, IH. done.
Qed.

Lemma Rep_root s k t : Rep s k t <-> Rep s [] (plug k t).
Proof. rewrite <- (Rep_plug s k []). by rewrite app_nil_r. Qed.

(** * Frames of memory *)

Lemma sub_frame h q x par t : q ∉ ptrs t -> sub h par t -> sub (<[q := x]> h) par t.
Proof.
  revert par. induction t as [|c l IHl p a r IHr]; intros par Hq; cbn in *; [done|].
  intros (H1 & H2 & H3). rewrite lookup_insert_ne by set_solver. split; [done|].
  split; [apply IHl|apply IHr]; set_solver.
Qed.

Lemma con_frame h q x k y : q ∉ kptrs k -> con h k y -> con (<[q := x]> h) k y.
Proof.
  unfold kptrs. revert y. induction k as [|[c p a r|c l p a] k IH]; intros y Hq; cbn in *; [done|..].
  all: intros (H1 & H2 & H3); rewrite lookup_insert_ne by set_solver.
  all: split_and!; [done|apply sub_frame; [set_solver|done]|apply IH; [set_solver|done]].
Qed.

Lemma sub_delete h q par t : q ∉ ptrs t -> sub h par t -> sub (delete q h) par t.
Proof.
  revert par. induction t as [|c l IHl p a r IHr]; intros par Hq; cbn in *; [done|].
  intros (H1 & H2 & H3). rewrite lookup_delete_ne by set_solver. split; [done|].
  split; [apply IHl|apply IHr]; set_solver.
Qed.

(** The heap after the root of [t] got the parent [q]. *)
Definition hpar t (q : option ptr) h : gmap ptr (rb_node * A) :=
  match t with E => h | T c l p a r => <[p := (mkNode q c (troot r) (troot l), a)]> h end.

(** The heap after the innermost frame of [k] got the child [y]. *)
Definition hlink k (y : option ptr) h : gmap ptr (rb_node * A) :=
  match k with
  | [] => h
  | Lf c p a r :: k => <[p := (mkNode (ktop k) c (troot r) y, a)]> h
  | Rf c l p a :: k => <[p := (mkNode (ktop k) c y (troot l), a)]> h
  end.

Lemma lookup_hpar t q h p : p ∉ ptrs t -> hpar t q h !! p = h !! p.
Proof. destruct t; cbn; [done|]. intros. apply lookup_insert_ne. set_solver. Qed.

Lemma sub_hpar t q h par : NoDup (ptrs t) -> sub h par t -> sub (hpar t q h) q t.
Proof.
  destruct t as [|c l p a r]; cbn; [done|]. intros [Hp Hn]%NoDup_cons (H1 & H2 & H3).
  rewrite lookup_insert_eq. split; [done|]. split; apply sub_frame; set_solver.
Qed.

Lemma sub_hpar_frame t q h par t' : ptrs t ## ptrs t' -> sub h par t' -> sub (hpar t q h) par t'.
Proof. destruct t; cbn; [done|]. intros. apply sub_frame; set_solver. Qed.

Lemma con_hpar_frame t q h k x : ptrs t ## kptrs k -> con h k x -> con (hpar t q h) k x.
Proof. destruct t; cbn; [done|]. intros. apply con_frame; set_solver. Qed.

Lemma lookup_hlink k y h p : p ∉ kptrs k -> hlink k y h !! p = h !! p.
Proof. destruct k as [|[] k]; unfold kptrs; cbn; [done|..]; intros; apply lookup_insert_ne; set_solver. Qed.

Lemma sub_hlink_frame k y h par t : ptrs t ## kptrs k -> sub h par t -> sub (hlink k y h) par t.
Proof. destruct k as [|[] k]; unfold kptrs; cbn; [done|..]; intros; apply sub_frame; set_solver. Qed.

Lemma con_hlink k x y h : NoDup (kptrs k) -> con h k x -> con (hlink k y h) k y.
Proof.
  destruct k as [|[c p a r|c l p a] k]; unfold kptrs; cbn; [done|..];
    intros [Hp Hn]%NoDup_cons (H1 & H2 & H3); rewrite lookup_insert_eq;
    (split; [done|]); (split; [apply sub_frame; set_solver|apply con_frame; [unfold kptrs; set_solver|done]]).
Qed.

Lemma ktop_kptrs k p : ktop k = Some p -> p ∈ kptrs k.
Proof. destruct k as [|[] k]; unfold kptrs; cbn; [done|..]; intros [= ->]; set_solver. Qed.

Lemma troot_ptrs t p : troot t = Some p -> p ∈ ptrs t.
Proof. destruct t; cbn; [done|]. intros [= ->]. set_solver. Qed.

(** * Steps *)

Lemma load_ok p x ro h : h !! p = Some x -> load (Some p) (mkMem ro h) = Some (x, mkMem ro h).
Proof. intros H. unfold load. cbn. by rewrite H. Qed.

Lemma store_node_ok p f x ro h :
  h !! p = Some x -> store (Some p) f (mkMem ro h) = Some (tt, mkMem ro (<[p := f x]> h)).
Proof. intros H. unfold store. cbn. by rewrite H. Qed.

Lemma bind_ok {X Y} (m : M A X) (f : X -> M A Y) s x s' : m s = Some (x, s') -> (m ≫= f) s = f x s'.
Proof. intros H. unfold mbind, M_bind. by rewrite H. Qed.

Lemma left_of_ok p x ro h : h !! p = Some x -> left_of (Some p) (mkMem ro h) = Some (rb_left x.1, mkMem ro h).
Proof. intros H. unfold left_of. by rewrite (bind_ok _ _ _ _ _ (load_ok _ _ _ _ H)). Qed.

Lemma right_of_ok p x ro h : h !! p = Some x -> right_of (Some p) (mkMem ro h) = Some (rb_right x.1, mkMem ro h).
Proof. intros H. unfold right_of. by rewrite (bind_ok _ _ _ _ _ (load_ok _ _ _ _ H)). Qed.

Lemma parent_ok p x ro h : h !! p = Some x -> ext2fs_rb_parent (Some p) (mkMem ro h) = Some (rb_parent x.1, mkMem ro h).
Proof. intros H. unfold ext2fs_rb_parent. by rewrite (bind_ok _ _ _ _ _ (load_ok _ _ _ _ H)). Qed.

Lemma color_ok p x ro h : h !! p = Some x -> ext2fs_rb_color (Some p) (mkMem ro h) = Some (rb_color x.1, mkMem ro h).
Proof. intros H. unfold ext2fs_rb_color. by rewrite (bind_ok _ _ _ _ _ (load_ok _ _ _ _ H)). Qed.

Lemma set_parent_ok p n a q ro h : h !! p = Some (n, a) ->
  ext2fs_rb_set_parent (Some p) q (mkMem ro h) = Some (tt, mkMem ro (<[p := (with_parent q n, a)]> h)).
Proof. intros H. unfold ext2fs_rb_set_parent. by rewrite (store_node_ok _ _ _ _ _ H). Qed.

Lemma set_color_ok p n a c ro h : h !! p = Some (n, a) ->
  ext2fs_rb_set_color (Some p) c (mkMem ro h) = Some (tt, mkMem ro (<[p := (with_color c n, a)]> h)).
Proof. intros H. unfold ext2fs_rb_set_color. by rewrite (store_node_ok _ _ _ _ _ H). Qed.

Lemma set_left_ok p n a q ro h : h !! p = Some (n, a) ->
  set_left (Some p) q (mkMem ro h) = Some (tt, mkMem ro (<[p := (with_left q n, a)]> h)).
Proof. intros H. unfold set_left. by rewrite (store_node_ok _ _ _ _ _ H). Qed.

Lemma set_right_ok p n a q ro h : h !! p = Some (n, a) ->
  set_right (Some p) q (mkMem ro h) = Some (tt, mkMem ro (<[p := (with_right q n, a)]> h)).
Proof. intros H. unfold set_right. by rewrite (store_node_ok _ _ _ _ _ H). Qed.

Lemma when_set_parent t par q ro h :
  sub h par t -> when (troot t) (ext2fs_rb_set_parent (troot t) q) (mkMem ro h) = Some (tt, mkMem ro (hpar t q h)).
Proof.
  destruct t as [|c l p a t]; [done|]. intros (H1 & _ & _). cbn [troot when]. by rewrite (set_parent_ok _ _ _ _ _ _ H1).
Qed.

Ltac relink_tac k Hc :=
  destruct k as [|[c p a r|c l p a] k]; unfold kptrs in *; cbn in *; [done|..]; destruct Hc as (H1 & _ & _);
  rewrite ?(bind_ok _ _ _ _ _ (left_of_ok _ _ _ _ H1)), ?(bind_ok _ _ _ _ _ (right_of_ok _ _ _ _ H1)); cbn.

Lemma troot_not t x : x ∉ ptrs t -> troot t <> Some x.
Proof. intros Hx Ht. by apply Hx, troot_ptrs. Qed.

Lemma relink_l_ok k x y h :
  con h k (Some x) -> x ∉ kptrs k ->
  relink_l (ktop k) (Some x) y (mkMem (kroot k (Some x)) h) = Some (tt, mkMem (kroot k y) (hlink k y h)).
Proof.
  intros Hc Hx. relink_tac k Hc.
  - rewrite decide_True by done. by rewrite (set_left_ok _ _ _ _ _ _ H1).
  - rewrite decide_False by (symmetry; apply troot_not; set_solver). by rewrite (set_right_ok _ _ _ _ _ _ H1).
Qed.

Lemma relink_r_ok k x y h :
  con h k (Some x) -> x ∉ kptrs k ->
  relink_r (ktop k) (Some x) y (mkMem (kroot k (Some x)) h) = Some (tt, mkMem (kroot k y) (hlink k y h)).
Proof.
  intros Hc Hx. relink_tac k Hc.
  - rewrite decide_False by (symmetry; apply troot_not; set_solver). by rewrite (set_left_ok _ _ _ _ _ _ H1).
  - rewrite decide_True by done. by rewrite (set_right_ok _ _ _ _ _ _ H1).
Qed.

Lemma relink_ok k x y h :
  con h k (Some x) -> x ∉ kptrs k ->
  relink (ktop k) (Some x) y (mkMem (kroot k (Some x)) h) = Some (tt, mkMem (kroot k y) (hlink k y h)).
Proof.
  intros Hc Hx. relink_tac k Hc.
  - rewrite decide_True by done. by rewrite (set_left_ok _ _ _ _ _ _ H1).
  - rewrite decide_False by (apply troot_not; set_solver). by rewrite (set_right_ok _ _ _ _ _ _ H1).
Qed.

End trees.

(** Distinctness: the hypotheses are broken into atomic facts, as is the goal. *)
Section distinct.
Implicit Types (x y : ptr) (l m : list ptr).

Lemma nodup_app l m : NoDup (l ++ m) <-> NoDup l /\ (l ## m) /\ NoDup m.
Proof. rewrite NoDup_app. set_solver. Qed.
Lemma disj_app_l l m n : ((l ++ m) ## n) <-> (l ## n) /\ (m ## n).
Proof. set_solver. Qed.
Lemma disj_app_r l m n : (n ## (l ++ m)) <-> (n ## l) /\ (n ## m).
Proof. set_solver. Qed.
Lemma disj_cons_l x l n : ((x :: l) ## n) <-> (x ∉ n) /\ (l ## n).
Proof. set_solver. Qed.
Lemma disj_cons_r x l n : (n ## (x :: l)) <-> (x ∉ n) /\ (n ## l).
Proof. set_solver. Qed.
Lemma notin_cons x y l : (x ∉ (y :: l)) <-> x <> y /\ (x ∉ l).
Proof. set_solver. Qed.
Lemma notin_app x l m : (x ∉ (l ++ m)) <-> (x ∉ l) /\ (x ∉ m).
Proof. set_solver. Qed.
Lemma nodup_cons x l : NoDup (x :: l) <-> (x ∉ l) /\ NoDup l.
Proof. apply NoDup_cons. Qed.
Lemma disj_sym l m : l ## m -> m ## l.
Proof. set_solver. Qed.
Lemma disj_nil_l l : ([] ## l) <-> True.
Proof. set_solver. Qed.
Lemma disj_nil_r l : (l ## []) <-> True.
Proof. set_solver. Qed.
Lemma notin_nil x : (x ∉ []) <-> True.
Proof. set_solver. Qed.
End distinct.

Create Rewrite HintDb distinct.
#[export] Hint Rewrite nodup_app disj_app_l disj_app_r disj_cons_l disj_cons_r notin_cons notin_app nodup_cons
  disj_nil_l disj_nil_r notin_nil : distinct.

Ltac distinct H := autorewrite with distinct in H; cbn [ptrs fptrs] in H; autorewrite with distinct in H; destruct_and? H.
Ltac nd :=
  solve [ autorewrite with distinct; repeat match goal with |- _ /\ _ => split end;
          first [ exact I | assumption | symmetry; assumption | apply disj_sym; assumption | apply NoDup_nil_2 ] ].

(** Execute the next access whose lookup [nd] can compute. *)
Ltac heap :=
  repeat first
  [ eassumption
  | rewrite lookup_insert_eq; (reflexivity || fail 1)
  | rewrite lookup_insert_ne by nd
  | rewrite lookup_hpar by nd
  | rewrite lookup_hlink by nd
  | apply sub_hpar_frame; [nd|]
  | apply con_hpar_frame; [nd|]
  | apply sub_hlink_frame; [nd|]
  | apply sub_frame; [nd|]
  | apply con_frame; [nd|]
  | eapply sub_hpar; [nd|]
  | eapply con_hlink; [nd|] ].

Ltac rd H :=
  first [ rewrite (bind_ok _ _ _ _ _ (left_of_ok _ _ _ _ H)) | rewrite (bind_ok _ _ _ _ _ (right_of_ok _ _ _ _ H))
        | rewrite (bind_ok _ _ _ _ _ (parent_ok _ _ _ _ H)) | rewrite (bind_ok _ _ _ _ _ (color_ok _ _ _ _ H)) ];
  cbn [fst rb_left rb_right rb_parent rb_color].
(** A read, or a write, of the node at [p]. *)
Ltac look p tac :=
  match goal with
  | |- context [mkMem _ ?h] =>
      let H := fresh in
      eassert (h !! p = Some (_, _)) as H by heap; tac H; clear H
  end.
Ltac wr p :=
  look p ltac:(fun H =>
    first [ erewrite (bind_ok _ _ _ _ _ (set_left_ok _ _ _ _ _ _ H)) | erewrite (bind_ok _ _ _ _ _ (set_right_ok _ _ _ _ _ _ H))
          | erewrite (bind_ok _ _ _ _ _ (set_parent_ok _ _ _ _ _ _ H)) | erewrite (bind_ok _ _ _ _ _ (set_color_ok _ _ _ _ _ _ H)) 
          | erewrite (set_parent_ok _ _ _ _ _ _ H) | erewrite (set_color_ok _ _ _ _ _ _ H)];
    cbn [with_left with_right with_parent with_color rb_left rb_right rb_parent rb_color]).
(** The conditional change of a parent. *)
Ltac ps t par :=
  match goal with
  | |- context [mkMem ?ro ?h] =>
      rewrite (bind_ok _ _ _ _ _ (when_set_parent t par _ ro h ltac:(heap)))
  end.

(** Writes to nodes that are there keep the domain. *)
Lemma dom_insert_in {A} (h : gmap ptr A) p x y : h !! p = Some y -> dom (<[p := x]> h) = dom h.
Proof. intros H. rewrite dom_insert_L. apply elem_of_dom_2 in H. set_solver. Qed.

Lemma dom_hpar {A} (t : tree A) q h par : sub h par t -> dom (hpar t q h) = dom h.
Proof. destruct t; [done|]. intros (H & _). by eapply dom_insert_in. Qed.

Lemma dom_hlink {A} (k : ctx A) x y h : con h k x -> dom (hlink k y h) = dom h.
Proof. destruct k as [|[] k]; [done|..]; intros (H & _); by eapply dom_insert_in. Qed.

Ltac hdom :=
  repeat first
  [ reflexivity
  | erewrite dom_insert_in by heap
  | erewrite dom_hpar by heap
  | erewrite dom_hlink by heap ].

(** The link from the context [k] to [x] becomes one to [y]. *)
Ltac rl lem k x y :=
  match goal with
  | |- context [mkMem _ ?h] =>
      rewrite (bind_ok _ _ _ _ _ (lem k x y h ltac:(heap) ltac:(nd)))
  end.

Section rotations.
Context {A : Type}.
Implicit Types (t l r : tree A) (k : ctx A) (h : gmap ptr (rb_node * A)) (s : mem A).

Lemma rotate_left_ok s k c a x ax c2 b y ay d :
  Rep s k (T c a x ax (T c2 b y ay d)) ->
  exists s', __rb_rotate_left (Some x) s = Some (tt, s') /\ Rep s' k (T c2 (T c a x ax b) y ay d) /\
    dom (m_heap s') = dom (m_heap s).
Proof.
  destruct s as [ro h]. intros (Hr & Hn & Hc & Hs). cbn in Hr, Hn, Hc, Hs. subst ro.
  destruct Hs as (Hx & Ha & Hy & Hb & Hd).
  distinct Hn.
  unfold __rb_rotate_left.
  rd Hx. rd Hx. rd Hy. wr x. ps b (Some y). wr y. wr y. rl (@relink_l_ok A) k x (Some y).
  wr x.
  eexists. split; [reflexivity|]. split.
  - unfold Rep. cbn [m_root m_heap kroot troot sub ktop ptrs]. split_and!; [done|nd|heap..].
  - cbn [m_heap]. hdom.
Qed.

Lemma rotate_right_ok s k c b x ax c2 a y ay d :
  Rep s k (T c (T c2 a y ay b) x ax d) ->
  exists s', __rb_rotate_right (Some x) s = Some (tt, s') /\ Rep s' k (T c2 a y ay (T c b x ax d)) /\
    dom (m_heap s') = dom (m_heap s).
Proof.
  destruct s as [ro h]. intros (Hr & Hn & Hc & Hs). cbn in Hr, Hn, Hc, Hs. subst ro.
  destruct Hs as (Hx & (Hy & Ha & Hb) & Hd). distinct Hn.
  unfold __rb_rotate_right.
  rd Hx. rd Hx. rd Hy. wr x. ps b (Some y). wr y. wr y. rl (@relink_r_ok A) k x (Some y). wr x.
  eexists. split; [reflexivity|]. split.
  - unfold Rep. cbn [m_root m_heap kroot troot sub ktop ptrs]. split_and!; [done|nd|heap..].
  - cbn [m_heap]. hdom.
Qed.

Lemma set_color_rep s k c c' l x a r :
  Rep s k (T c l x a r) ->
  exists s', ext2fs_rb_set_color (Some x) c' s = Some (tt, s') /\ Rep s' k (T c' l x a r) /\
    dom (m_heap s') = dom (m_heap s).
Proof.
  destruct s as [ro h]. intros (Hr & Hn & Hc & Hx & Hl & Hrr). cbn in Hr, Hn. subst ro.
  distinct Hn. wr x. eexists. split; [reflexivity|]. split; [|cbn [m_heap]; hdom].
  unfold Rep. cbn [m_root m_heap kroot troot sub ktop ptrs]. split_and!; [done|nd|heap..].
Qed.

(** The fields of the node at the position. *)
Lemma Rep_node s k c l x a r :
  Rep s k (T c l x a r) -> m_heap s !! x = Some (mkNode (ktop k) c (troot r) (troot l), a).
Proof. intros (_ & _ & _ & H & _). done. Qed.

Lemma Rep_parent s f k t : Rep s (f :: k) t -> exists n a, m_heap s !! fptr f = Some (n, a) /\ rb_parent n = ktop k /\
  rb_color n = match f with Lf c _ _ _ | Rf c _ _ _ => c end.
Proof.
  destruct f; [rewrite Rep_lf|rewrite Rep_rf]; intros H%Rep_node; eauto.
Qed.

End rotations.
