(* ===== verification/RbtreeBalance.v ===== *)
(** Insertion and removal keep a red-black tree: the colour rules and the black height, the
    in-order contents, and no access to a null pointer. *)
From Stdlib Require Import ZArith Lia.
From stdpp Require Import base tactics numbers list gmap.
From S2P Require Import Prelude Rbtree RbtreeProofs.

(** * The invariant *)

(** [rb c n t]: the root of [t] has colour [c] (a null link is black), no red node has a red
    child, and every path down passes [n] black nodes. *)
Inductive rb {A} : color -> nat -> tree A -> Prop :=
| rb_E : rb RB_BLACK 0 E
| rb_R n l p a r : rb RB_BLACK n l -> rb RB_BLACK n r -> rb RB_RED n (T RB_RED l p a r)
| rb_B n cl cr l p a r : rb cl n l -> rb cr n r -> rb RB_BLACK (S n) (T RB_BLACK l p a r).

(** [rbk k c n]: the context takes a tree of black height [n]; a red one only when [c] is red. *)
Inductive rbk {A} : ctx A -> color -> nat -> Prop :=
| rbk_nil n : rbk [] RB_BLACK n
| rbk_LR n p a r k : rb RB_BLACK n r -> rbk k RB_RED n -> rbk (Lf RB_RED p a r :: k) RB_BLACK n
| rbk_LB n c c' p a r k : rb c n r -> rbk k c' (S n) -> rbk (Lf RB_BLACK p a r :: k) RB_RED n
| rbk_RR n p a l k : rb RB_BLACK n l -> rbk k RB_RED n -> rbk (Rf RB_RED l p a :: k) RB_BLACK n
| rbk_RB n c c' p a l k : rb c n l -> rbk k c' (S n) -> rbk (Rf RB_BLACK l p a :: k) RB_RED n.

Create HintDb rb.
#[export] Hint Constructors rb rbk : rb.

Section invariant.
Context {A : Type}.
Implicit Types (t l r : tree A) (k : ctx A) (s : mem A).

Definition tcol t : color := match t with E => RB_BLACK | T c _ _ _ _ => c end.

Lemma rb_tcol c n t : rb c n t -> tcol t = c.
Proof. by destruct 1. Qed.

(** A red-black tree. *)
Definition redblack t : Prop := exists n, rb RB_BLACK n t.

Lemma rb_plug k : forall c c' n t, rbk k c n -> rb c' n t -> (c' = RB_BLACK \/ c = RB_RED) -> redblack (plug k t).
Proof.
  induction k as [|f k IH]; intros c c' n t Hk Ht Hc.
  - inversion Hk; subst. destruct Hc as [->| ?]; [by eexists|done].
  - rewrite plug_cons. inversion Hk; subst; cbn [plug1].
    + destruct Hc as [->| ?]; [|done]. eapply IH; eauto with rb.
    + eapply IH; eauto with rb.
    + destruct Hc as [->| ?]; [|done]. eapply IH; eauto with rb.
    + eapply IH; eauto with rb.
Qed.


(** Any position of a red-black tree. *)
Lemma redblack_position k t :
  redblack (plug k t) -> exists c n c', rb c n t /\ rbk k c' n /\ (c = RB_BLACK \/ c' = RB_RED).
Proof.
  revert t. induction k as [|f k IH]; intros t.
  - intros [n H]. exists RB_BLACK, n, RB_BLACK. cbn in H. split_and!; auto with rb.
  - rewrite plug_cons. intros (c & n & c' & H1 & H2 & H3)%IH. destruct f; cbn [plug1] in H1; inversion H1; subst.
    all: destruct H3; subst; try done; eauto 10 with rb.
Qed.

(** * Reading the tree *)

Lemma R_left s k c l x a r : Rep s k (T c l x a r) -> left_of (Some x) s = Some (troot l, s).
Proof. intros H%Rep_node. destruct s as [ro h]. by rewrite (left_of_ok _ _ _ _ H). Qed.
Lemma R_right s k c l x a r : Rep s k (T c l x a r) -> right_of (Some x) s = Some (troot r, s).
Proof. intros H%Rep_node. destruct s as [ro h]. by rewrite (right_of_ok _ _ _ _ H). Qed.
Lemma R_parent s k c l x a r : Rep s k (T c l x a r) -> ext2fs_rb_parent (Some x) s = Some (ktop k, s).
Proof. intros H%Rep_node. destruct s as [ro h]. by rewrite (parent_ok _ _ _ _ H). Qed.
Lemma R_color s k c l x a r : Rep s k (T c l x a r) -> ext2fs_rb_color (Some x) s = Some (c, s).
Proof. intros H%Rep_node. destruct s as [ro h]. by rewrite (color_ok _ _ _ _ H). Qed.

Lemma R_is_red s k c l x a r :
  Rep s k (T c l x a r) -> ext2fs_rb_is_red (Some x) s = Some (bool_decide (c = RB_RED), s).
Proof. intros H%R_color. unfold ext2fs_rb_is_red. by rewrite (bind_ok _ _ _ _ _ H). Qed.

Lemma R_and_red s k t : Rep s k t -> and_red (troot t) s = Some (bool_decide (tcol t = RB_RED), s).
Proof. destruct t; [done|]. apply R_is_red. Qed.

Lemma R_or_black s k t : Rep s k t -> or_black (troot t) s = Some (bool_decide (tcol t = RB_BLACK), s).
Proof.
  destruct t; [done|]. intros H%R_color. cbn [or_black troot]. unfold ext2fs_rb_is_black. by rewrite (bind_ok _ _ _ _ _ H).
Qed.

Lemma R_root s k t : Rep s k t -> get_root s = Some (kroot k (troot t), s).
Proof. intros (H & _). unfold get_root. by rewrite H. Qed.

(** The subtree and the siblings of a position have different addresses. *)
Lemma R_lf_ne s k c x a r t : Rep s (Lf c x a r :: k) t -> troot r = troot t -> troot t = None.
Proof.
  rewrite Rep_lf. intros (_ & Hn & _). cbn in Hn. distinct Hn. intros Heq. destruct (troot t) eqn:Ht; [|done].
  apply troot_ptrs in Ht, Heq. set_solver.
Qed.

Lemma R_rf_ne s k c x a l t : Rep s (Rf c l x a :: k) t -> troot l = troot t -> troot t = None.
Proof.
  rewrite Rep_rf. intros (_ & Hn & _). cbn in Hn. distinct Hn. intros Heq. destruct (troot t) eqn:Ht; [|done].
  apply troot_ptrs in Ht, Heq. set_solver.
Qed.

End invariant.

Ltac st H := rewrite (bind_ok _ _ _ _ _ H).

(** Equal in-order contents. *)
Ltac inorder :=
  rewrite ?plug_cons; cbn [plug1]; rewrite ?elems_plug; cbn [elems app];
  repeat (rewrite <- ?app_assoc; cbn [app]); done.

(** * Insertion *)

Section insertion.
Context {A : Type}.
Implicit Types (t l r : tree A) (k : ctx A) (s : mem A).

Definition fcol (f : frame A) : color := match f with Lf c _ _ _ | Rf c _ _ _ => c end.

Lemma R_up s f k t : Rep s (f :: k) t -> Rep s k (plug1 f t).
Proof. destruct f; [by rewrite Rep_lf|by rewrite Rep_rf]. Qed.

Lemma troot_plug1 (f : frame A) t : troot (plug1 f t) = Some (fptr f).
Proof. by destruct f. Qed.

Lemma R_down_l s k c l x a r : Rep s k (T c l x a r) -> Rep s (Lf c x a r :: k) l.
Proof. by rewrite Rep_lf. Qed.
Lemma R_down_r s k c l x a r : Rep s k (T c l x a r) -> Rep s (Rf c l x a :: k) r.
Proof. by rewrite Rep_rf. Qed.

Lemma insert_stop fuel s k c l x a r :
  Rep s k (T c l x a r) -> (forall f k', k = f :: k' -> fcol f = RB_BLACK) ->
  insert_color_loop (S fuel) (Some x) s = Some (tt, s).
Proof.
  intros H Hk. cbn [insert_color_loop]. st (R_parent _ _ _ _ _ _ _ H). destruct k as [|f k]; [done|].
  apply R_up in H. cbn [ktop]. rewrite <- (troot_plug1 f (T c l x a r)). st (R_and_red _ _ _ H).
  pose proof (Hk f k eq_refl) as Hf. by destruct f; cbn in *; subst.
Qed.

(** What the loop ends with: the same contents, red-black up to the colour of the root. *)
Definition inserted s s' t : Prop :=
  exists c n l x a r, Rep s' [] (T c l x a r) /\ rb c n (T c l x a r) /\ elems (T c l x a r) = elems t /\
    dom (m_heap s') = dom (m_heap s).

Lemma inserted_intro s s' k c c' n l x a r t :
  Rep s' k (T c l x a r) -> rb c n (T c l x a r) -> rbk k c' n -> (c = RB_BLACK \/ c' = RB_RED) ->
  elems (plug k (T c l x a r)) = elems t -> dom (m_heap s') = dom (m_heap s) -> inserted s s' t.
Proof.
  intros HR Hrb Hk Hc He Hd. destruct (rb_plug k c' c n _ Hk Hrb Hc) as [m Hm].
  apply Rep_root in HR. destruct (plug k (T c l x a r)) as [|c1 l1 x1 a1 r1] eqn:Hp.
  - exfalso. apply (f_equal elems) in Hp. rewrite elems_plug in Hp. cbn in Hp.
    by destruct (kleft k), (elems l).
  - pose proof (rb_tcol _ _ _ Hm) as Hcol. cbn in Hcol. subst c1. exists RB_BLACK, m, l1, x1, a1, r1. done.
Qed.

Lemma inserted_trans s s1 s' t t' :
  inserted s1 s' t' -> elems t' = elems t -> dom (m_heap s1) = dom (m_heap s) -> inserted s s' t.
Proof. intros (c & n & l & x & a & r & ? & ? & He & Hd) He' Hd'. exists c, n, l, x, a, r. split_and!; congruence. Qed.

(** The red uncle: black uncle and parent, red grandparent. *)
Lemma recolor s k c1 c2 c3 c1' c2' c3' pl p ap pr g ag ul u au ur :
  (Rep s k (T c1 (T c2 pl p ap pr) g ag (T c3 ul u au ur)) ->
   exists s', (ext2fs_rb_set_color (Some u) c3';; ext2fs_rb_set_color (Some p) c2';; ext2fs_rb_set_color (Some g) c1') s
     = Some (tt, s') /\ Rep s' k (T c1' (T c2' pl p ap pr) g ag (T c3' ul u au ur)) /\ dom (m_heap s') = dom (m_heap s)) /\
  (Rep s k (T c1 (T c3 ul u au ur) g ag (T c2 pl p ap pr)) ->
   exists s', (ext2fs_rb_set_color (Some u) c3';; ext2fs_rb_set_color (Some p) c2';; ext2fs_rb_set_color (Some g) c1') s
     = Some (tt, s') /\ Rep s' k (T c1' (T c3' ul u au ur) g ag (T c2' pl p ap pr)) /\ dom (m_heap s') = dom (m_heap s)).
Proof.
  split; intros H.
  - apply R_down_r in H. destruct (set_color_rep _ _ _ c3' _ _ _ _ H) as (s1 & E1 & H1 & D1).
    apply R_up, R_down_l in H1. destruct (set_color_rep _ _ _ c2' _ _ _ _ H1) as (s2 & E2 & H2 & D2).
    apply R_up in H2. destruct (set_color_rep _ _ _ c1' _ _ _ _ H2) as (s3 & E3 & H3 & D3).
    exists s3. st E1. st E2. rewrite E3. split_and!; [done|done|congruence].
  - apply R_down_l in H. destruct (set_color_rep _ _ _ c3' _ _ _ _ H) as (s1 & E1 & H1 & D1).
    apply R_up, R_down_r in H1. destruct (set_color_rep _ _ _ c2' _ _ _ _ H1) as (s2 & E2 & H2 & D2).
    apply R_up in H2. destruct (set_color_rep _ _ _ c1' _ _ _ _ H2) as (s3 & E3 & H3 & D3).
    exists s3. st E1. st E2. rewrite E3. split_and!; [done|done|congruence].
Qed.

(** Black parent, red grandparent, and the rotation that makes the parent the root. *)
Lemma lift_right s k c1 c2 a p ap b g ag u :
  Rep s k (T c1 (T c2 a p ap b) g ag u) ->
  exists s', (ext2fs_rb_set_black (Some p);; ext2fs_rb_set_red (Some g);; __rb_rotate_right (Some g)) s = Some (tt, s') /\
    Rep s' k (T RB_BLACK a p ap (T RB_RED b g ag u)) /\ dom (m_heap s') = dom (m_heap s).
Proof.
  intros H. apply R_down_l in H. destruct (set_color_rep _ _ _ RB_BLACK _ _ _ _ H) as (s1 & E1 & H1 & D1).
  apply R_up in H1. destruct (set_color_rep _ _ _ RB_RED _ _ _ _ H1) as (s2 & E2 & H2 & D2).
  destruct (rotate_right_ok _ _ _ _ _ _ _ _ _ _ _ H2) as (s3 & E3 & H3 & D3).
  exists s3. unfold ext2fs_rb_set_black, ext2fs_rb_set_red. st E1. st E2. rewrite E3. split_and!; [done|done|congruence].
Qed.

Lemma lift_left s k c1 c2 a p ap b g ag u :
  Rep s k (T c1 u g ag (T c2 a p ap b)) ->
  exists s', (ext2fs_rb_set_black (Some p);; ext2fs_rb_set_red (Some g);; __rb_rotate_left (Some g)) s = Some (tt, s') /\
    Rep s' k (T RB_BLACK (T RB_RED u g ag a) p ap b) /\ dom (m_heap s') = dom (m_heap s).
Proof.
  intros H. apply R_down_r in H. destruct (set_color_rep _ _ _ RB_BLACK _ _ _ _ H) as (s1 & E1 & H1 & D1).
  apply R_up in H1. destruct (set_color_rep _ _ _ RB_RED _ _ _ _ H1) as (s2 & E2 & H2 & D2).
  destruct (rotate_left_ok _ _ _ _ _ _ _ _ _ _ _ H2) as (s3 & E3 & H3 & D3).
  exists s3. unfold ext2fs_rb_set_black, ext2fs_rb_set_red. st E1. st E2. rewrite E3. split_and!; [done|done|congruence].
Qed.

(** Three steps in a row, before others. *)
Lemma seq3 {X} (m1 m2 m3 : M A unit) (m : M A X) s s' :
  (m1;; m2;; m3) s = Some (tt, s') -> (m1;; m2;; m3;; m) s = m s'.
Proof.
  unfold mbind, M_bind. intros H. destruct (m1 s) as [[u1 s1]|]; [|done]. destruct (m2 s1) as [[u2 s2]|]; [|done].
  destruct (m3 s2) as [[u3 s3]|]; [|done]. by injection H as _ ->.
Qed.

Lemma ret_bind {X Y} (x : X) (f : X -> M A Y) s : (mret x ≫= f) s = f x s.
Proof. done. Qed.

(** A step and a value, before others. *)
Lemma bind2 {X Y} (m : M A unit) (x : X) (f : X -> M A Y) s s' :
  m s = Some (tt, s') -> ((m;; mret x) ≫= f) s = f x s'.
Proof. intros H. unfold mbind, M_bind. by rewrite H. Qed.

(** The loop below a red parent that is the left, or the right, child of [g]. *)
Lemma insert_case_l fuel s k c l x a r (f : frame A) p ap o n g ag u cu c' :
  (forall s k l x a r n c,
    (length k < fuel)%nat -> Rep s k (T RB_RED l x a r) -> rb RB_BLACK n l -> rb RB_BLACK n r -> rbk k c n ->
    exists s', insert_color_loop fuel (Some x) s = Some (tt, s') /\ inserted s s' (plug k (T RB_RED l x a r))) ->
  (length k + 1 < fuel)%nat -> f = Lf RB_RED p ap o \/ f = Rf RB_RED o p ap -> c = RB_RED ->
  Rep s (f :: Lf RB_BLACK g ag u :: k) (T c l x a r) ->
  rb RB_BLACK n l -> rb RB_BLACK n r -> rb RB_BLACK n o -> rb cu n u -> rbk k c' (S n) ->
  exists s', insert_color_loop (S fuel) (Some x) s = Some (tt, s') /\
    inserted s s' (plug (f :: Lf RB_BLACK g ag u :: k) (T c l x a r)).
Proof.
  intros IH Hlen Hf -> H Hl Hr Ho Hu Hk. cbn [insert_color_loop]. st (R_parent _ _ _ _ _ _ _ H).
  assert (Hfp : fptr f = p) by (by destruct Hf as [-> | ->]). cbn [ktop]. rewrite Hfp.
  assert (exists pl pr, plug1 f (T RB_RED l x a r) = T RB_RED pl p ap pr) as (pl & pr & Hp).
  { destruct Hf as [-> | ->]; by eexists _, _. }
  pose proof (R_up _ _ _ _ H) as H1. rewrite Hp in H1.
  st (R_and_red _ _ _ H1). cbn [tcol negb bool_decide decide_rel]. rewrite bool_decide_eq_true_2 by done. cbn [negb].
  st (R_parent _ _ _ _ _ _ _ H1). pose proof (R_up _ _ _ _ H1) as H2. cbn [plug1] in H2. cbn [ktop fptr].
  st (R_left _ _ _ _ _ _ _ H2). cbn [troot]. rewrite decide_True by done.
  st (R_right _ _ _ _ _ _ _ H2). st (R_and_red _ _ _ (R_down_r _ _ _ _ _ _ _ H2)).
  case_bool_decide as Hcol.
  - (* red uncle *)
    destruct u as [|cu' ul up au ur]; [done|]. cbn in Hcol. subst cu'. cbn [troot].
    destruct (proj1 (recolor s k _ _ _ RB_RED RB_BLACK RB_BLACK pl p ap pr g ag ul up au ur) H2) as (s1 & E1 & R1 & D1).
    unfold ext2fs_rb_set_black, ext2fs_rb_set_red. rewrite (seq3 _ _ _ _ _ _ E1).
    destruct (IH s1 k (T RB_BLACK pl p ap pr) g ag (T RB_BLACK ul up au ur) (S n) c') as (s' & E2 & I2).
    { lia. } { done. }
    { destruct Hf as [-> | ->]; cbn in Hp; injection Hp as <- <-; eauto with rb. }
    { inversion Hu; subst. eauto with rb. } { done. }
    exists s'. split; [done|]. eapply inserted_trans; [exact I2| |done].
    rewrite !plug_cons, Hp. inorder.
  - (* black uncle *)
    assert (cu = RB_BLACK) as -> by (rewrite <- (rb_tcol _ _ _ Hu) in *; by destruct (tcol u)).
    st (R_right _ _ _ _ _ _ _ H1).
    destruct Hf as [-> | ->]; cbn in Hp; injection Hp as <- <-.
    + rewrite decide_False by (intros Heq; by pose proof (R_lf_ne _ _ _ _ _ _ _ H Heq)).
      rewrite ret_bind. destruct (lift_right _ _ _ _ _ _ _ _ _ _ _ H2) as (s1 & E1 & R1 & D1).
      rewrite (seq3 _ _ _ _ _ _ E1). apply R_down_l in R1. destruct fuel as [|fuel]; [lia|].
      rewrite (insert_stop _ _ _ _ _ _ _ _ R1) by (by intros ? ? [= <- <-]).
      eexists. split; [done|]. eapply (inserted_intro s s1 _ RB_RED RB_RED n); [exact R1|eauto with rb..| |done].
      inorder.
    + rewrite decide_True by done. cbn [troot].
      destruct (rotate_left_ok _ _ _ _ _ _ _ _ _ _ _ H1) as (s0 & E0 & R0 & D0). apply R_up in R0. cbn [plug1] in R0.
      rewrite (bind2 _ _ _ _ _ E0). destruct (lift_right _ _ _ _ _ _ _ _ _ _ _ R0) as (s1 & E1 & R1 & D1).
      rewrite (seq3 _ _ _ _ _ _ E1). apply R_down_l in R1. destruct fuel as [|fuel]; [lia|].
      rewrite (insert_stop _ _ _ _ _ _ _ _ R1) by (by intros ? ? [= <- <-]).
      eexists. split; [done|]. eapply (inserted_intro s s1 _ RB_RED RB_RED n); [exact R1|eauto with rb..| |congruence].
      inorder.
Qed.

Lemma insert_case_r fuel s k c l x a r (f : frame A) p ap o n g ag u cu c' :
  (forall s k l x a r n c,
    (length k < fuel)%nat -> Rep s k (T RB_RED l x a r) -> rb RB_BLACK n l -> rb RB_BLACK n r -> rbk k c n ->
    exists s', insert_color_loop fuel (Some x) s = Some (tt, s') /\ inserted s s' (plug k (T RB_RED l x a r))) ->
  (length k + 1 < fuel)%nat -> f = Lf RB_RED p ap o \/ f = Rf RB_RED o p ap -> c = RB_RED ->
  Rep s (f :: Rf RB_BLACK u g ag :: k) (T c l x a r) ->
  rb RB_BLACK n l -> rb RB_BLACK n r -> rb RB_BLACK n o -> rb cu n u -> rbk k c' (S n) ->
  exists s', insert_color_loop (S fuel) (Some x) s = Some (tt, s') /\
    inserted s s' (plug (f :: Rf RB_BLACK u g ag :: k) (T c l x a r)).
Proof.
  intros IH Hlen Hf -> H Hl Hr Ho Hu Hk. cbn [insert_color_loop]. st (R_parent _ _ _ _ _ _ _ H).
  assert (Hfp : fptr f = p) by (by destruct Hf as [-> | ->]). cbn [ktop]. rewrite Hfp.
  assert (exists pl pr, plug1 f (T RB_RED l x a r) = T RB_RED pl p ap pr) as (pl & pr & Hp).
  { destruct Hf as [-> | ->]; by eexists _, _. }
  pose proof (R_up _ _ _ _ H) as H1. rewrite Hp in H1.
  st (R_and_red _ _ _ H1). cbn [tcol negb bool_decide decide_rel]. rewrite bool_decide_eq_true_2 by done. cbn [negb].
  st (R_parent _ _ _ _ _ _ _ H1). pose proof (R_up _ _ _ _ H1) as H2. cbn [plug1] in H2. cbn [ktop fptr].
  st (R_left _ _ _ _ _ _ _ H2). cbn [troot].
  rewrite decide_False by (intros Heq; by pose proof (R_rf_ne _ _ _ _ _ _ _ H1 (eq_sym Heq))).
  st (R_left _ _ _ _ _ _ _ H2). st (R_and_red _ _ _ (R_down_l _ _ _ _ _ _ _ H2)).
  case_bool_decide as Hcol.
  - (* red uncle *)
    destruct u as [|cu' ul up au ur]; [done|]. cbn in Hcol. subst cu'. cbn [troot].
    destruct (proj2 (recolor s k _ _ _ RB_RED RB_BLACK RB_BLACK pl p ap pr g ag ul up au ur) H2) as (s1 & E1 & R1 & D1).
    unfold ext2fs_rb_set_black, ext2fs_rb_set_red. rewrite (seq3 _ _ _ _ _ _ E1).
    destruct (IH s1 k (T RB_BLACK ul up au ur) g ag (T RB_BLACK pl p ap pr) (S n) c') as (s' & E2 & I2).
    { lia. } { done. }
    { inversion Hu; subst. eauto with rb. }
    { destruct Hf as [-> | ->]; cbn in Hp; injection Hp as <- <-; eauto with rb. } { done. }
    exists s'. split; [done|]. eapply inserted_trans; [exact I2| |done].
    rewrite !plug_cons, Hp. inorder.
  - (* black uncle *)
    assert (cu = RB_BLACK) as -> by (rewrite <- (rb_tcol _ _ _ Hu) in *; by destruct (tcol u)).
    st (R_left _ _ _ _ _ _ _ H1).
    destruct Hf as [-> | ->]; cbn in Hp; injection Hp as <- <-.
    + rewrite decide_True by done. cbn [troot].
      destruct (rotate_right_ok _ _ _ _ _ _ _ _ _ _ _ H1) as (s0 & E0 & R0 & D0). apply R_up in R0. cbn [plug1] in R0.
      rewrite (bind2 _ _ _ _ _ E0). destruct (lift_left _ _ _ _ _ _ _ _ _ _ _ R0) as (s1 & E1 & R1 & D1).
      rewrite (seq3 _ _ _ _ _ _ E1). apply R_down_r in R1. destruct fuel as [|fuel]; [lia|].
      rewrite (insert_stop _ _ _ _ _ _ _ _ R1) by (by intros ? ? [= <- <-]).
      eexists. split; [done|]. eapply (inserted_intro s s1 _ RB_RED RB_RED n); [exact R1|eauto with rb..| |congruence].
      inorder.
    + rewrite decide_False by (intros Heq; by pose proof (R_rf_ne _ _ _ _ _ _ _ H Heq)).
      rewrite ret_bind. destruct (lift_left _ _ _ _ _ _ _ _ _ _ _ H2) as (s1 & E1 & R1 & D1).
      rewrite (seq3 _ _ _ _ _ _ E1). apply R_down_r in R1. destruct fuel as [|fuel]; [lia|].
      rewrite (insert_stop _ _ _ _ _ _ _ _ R1) by (by intros ? ? [= <- <-]).
      eexists. split; [done|]. eapply (inserted_intro s s1 _ RB_RED RB_RED n); [exact R1|eauto with rb..| |done].
      inorder.
Qed.

Lemma insert_loop_ok fuel : forall s k l x a r n c,
  (length k < fuel)%nat -> Rep s k (T RB_RED l x a r) -> rb RB_BLACK n l -> rb RB_BLACK n r -> rbk k c n ->
  exists s', insert_color_loop fuel (Some x) s = Some (tt, s') /\ inserted s s' (plug k (T RB_RED l x a r)).
Proof.
  induction fuel as [|fuel IH]; [lia|]. intros s k l x a r n c Hlen H Hl Hr Hk.
  inversion Hk as [|? ? ? ? ? Hb Hk'|? ? ? ? ? ? ? Hb Hk'|? ? ? ? ? Hb Hk'|? ? ? ? ? ? ? Hb Hk']; subst.
  - rewrite (insert_stop _ _ _ _ _ _ _ _ H) by done. exists s. split; [done|].
    exists RB_RED, n, l, x, a, r. split_and!; auto with rb.
  - inversion Hk'; subst; cbn [length] in Hlen;
      [eapply insert_case_l|eapply insert_case_r]; eauto; lia.
  - rewrite (insert_stop _ _ _ _ _ _ _ _ H) by (by intros ? ? [= <- <-]). exists s. split; [done|].
    eapply (inserted_intro s s _ RB_RED RB_RED n); [exact H|eauto with rb..|done|done].
  - inversion Hk'; subst; cbn [length] in Hlen;
      [eapply insert_case_l|eapply insert_case_r]; eauto; lia.
  - rewrite (insert_stop _ _ _ _ _ _ _ _ H) by (by intros ? ? [= <- <-]). exists s. split; [done|].
    eapply (inserted_intro s s _ RB_RED RB_RED n); [exact H|eauto with rb..|done|done].
Qed.

(** There is memory for every node of the tree. *)
Lemma sub_dom h par t p : sub h par t -> p ∈ ptrs t -> p ∈ dom h.
Proof.
  revert par. induction t as [|c l IHl q a r IHr]; intros par; cbn; [set_solver|].
  intros (H1 & H2 & H3). apply elem_of_dom_2 in H1. intros [->|[Hp|Hp]%elem_of_app]%elem_of_cons; eauto.
Qed.

Lemma con_dom h k x p : con h k x -> p ∈ kptrs k -> p ∈ dom h.
Proof.
  unfold kptrs. revert x. induction k as [|[c q a r|c l q a] k IH]; intros x; cbn; [set_solver|..].
  all: intros (H1 & H2 & H3); apply elem_of_dom_2 in H1.
  all: intros [->|[Hp|Hp]%elem_of_app]%elem_of_cons; [done|by eapply sub_dom|by eapply IH].
Qed.

Lemma length_kptrs k : (length k <= length (kptrs k))%nat.
Proof. unfold kptrs. induction k as [|[] k IH]; cbn; [done|..]; rewrite length_app; lia. Qed.

Lemma Rep_size s k t : Rep s k t -> (length (ptrs t) + length k <= size (m_heap s))%nat.
Proof.
  intros (_ & Hn & Hc & Hs). pose proof (length_kptrs k).
  assert (size (list_to_set (C := gset ptr) (ptrs t ++ kptrs k)) <= size (dom (m_heap s)))%nat as Hsz.
  { apply subseteq_size. intros p [Hp|Hp]%elem_of_list_to_set%elem_of_app; [by eapply sub_dom|by eapply con_dom]. }
  rewrite size_list_to_set in Hsz by done. rewrite length_app, size_dom in Hsz. lia.
Qed.

(** The result of a change of the tree: the new contents, in a red-black tree. *)
Definition holds s (L : list (ptr * A)) : Prop := exists t, Rep s [] t /\ redblack t /\ elems t = L.

Lemma insert_color_ok s k x a :
  Rep s k (T RB_RED E x a E) -> redblack (plug k E) ->
  exists s', ext2fs_rb_insert_color (Some x) s = Some (tt, s') /\ holds s' (kleft k ++ (x, a) :: kright k) /\
    dom (m_heap s') = dom (m_heap s).
Proof.
  intros H (c & n & c' & HE & Hk & _)%redblack_position. inversion HE; subst.
  unfold ext2fs_rb_insert_color. cbn [get_fuel]. pose proof (Rep_size _ _ _ H) as Hsz. cbn in Hsz.
  destruct (insert_loop_ok (S (size (m_heap s))) s k E x a E 0 c') as (s1 & E1 & c1 & n1 & l1 & x1 & a1 & r1 & R1 & B1 & L1 & D1);
    try lia; eauto with rb.
  unfold mbind at 1, M_bind at 1, get_fuel. st E1. st (R_root _ _ _ R1). cbn [kroot troot].
  destruct (set_color_rep _ _ _ RB_BLACK _ _ _ _ R1) as (s2 & E2 & R2 & D2).
  unfold ext2fs_rb_set_black. rewrite E2. exists s2. split; [done|]. split; [|congruence].
  exists (T RB_BLACK l1 x1 a1 r1). split_and!; [done| |].
  - inversion B1; subst; eexists; eauto with rb.
  - rewrite elems_plug in L1. cbn in L1. done.
Qed.

End insertion.
