(* ===== verification/RbtreeErase.v ===== *)
(** Removal from a red-black tree: the loop that restores the black height, and the two ways a
    node is taken out. *)
From Stdlib Require Import ZArith Lia.
From stdpp Require Import base tactics numbers list gmap.
From S2P Require Import Prelude Rbtree RbtreeProofs RbtreeBalance.

Ltac rdp p := look p ltac:(fun H => rd H).

Lemma set_parent_root {A} (t : tree A) par q ro h :
  t <> E -> sub h par t -> ext2fs_rb_set_parent (troot t) q (mkMem ro h) = Some (tt, mkMem ro (hpar t q h)).
Proof. destruct t; [done|]. intros _ (H & _). cbn [troot]. by rewrite (set_parent_ok _ _ _ _ _ _ H). Qed.

Lemma M_bind_assoc {A X Y Z} (m : M A X) (f : X -> M A Y) (g : Y -> M A Z) s :
  ((m ≫= f) ≫= g) s = (m ≫= (fun x => f x ≫= g)) s.
Proof. unfold mbind, M_bind. by destruct (m s) as [[x s']|]. Qed.

(** The new parent of a tree that is not empty. *)
Ltac pr t par Ht :=
  match goal with
  | |- context [mkMem ?ro ?h] => rewrite (bind_ok _ _ _ _ _ (set_parent_root t par _ ro h Ht ltac:(heap)))
  end.

Section erasure.
Context {A : Type}.
Implicit Types (t l r : tree A) (k : ctx A) (s : mem A).

(** What a removal ends with. *)
Definition erased s s' (L : list (ptr * A)) : Prop := holds s' L /\ dom (m_heap s') = dom (m_heap s).

Lemma erased_trans s s1 s' L L' : erased s1 s' L' -> L' = L -> dom (m_heap s1) = dom (m_heap s) -> erased s s' L.
Proof. intros [H1 H2] <- Hd. split; [done|congruence]. Qed.

(** A red tree stops the loop and becomes black. *)
Lemma erase_stop_red fuel s k l p a r parent :
  Rep s k (T RB_RED l p a r) ->
  exists s', erase_color_loop (S fuel) (Some p) parent s = Some (tt, s') /\ Rep s' k (T RB_BLACK l p a r) /\
    dom (m_heap s') = dom (m_heap s).
Proof.
  intros H. cbn [erase_color_loop]. pose proof (R_or_black _ _ _ H) as Hb. cbn [troot] in Hb. st Hb. cbn [tcol].
  st (R_root _ _ _ H). rewrite (bool_decide_eq_false_2 (RB_RED = _)) by done. cbn [andb negb].
  unfold erase_color_end. cbn [when]. destruct (set_color_rep _ _ _ RB_BLACK _ _ _ _ H) as (s1 & E1 & H1 & D1).
  eauto.
Qed.

(** At the root of a red-black tree the last step changes nothing that matters. *)
Lemma erase_end_ok s t : Rep s [] t -> redblack t -> exists s', erase_color_end (troot t) s = Some (tt, s') /\ erased s s' (elems t).
Proof.
  intros H [n Hn]. destruct t as [|c l p a r]; cbn.
  - exists s. split; [done|]. split; [|done]. exists E. split_and!; [done| |done]. by exists n.
  - destruct (set_color_rep _ _ _ RB_BLACK _ _ _ _ H) as (s1 & E1 & H1 & D1). exists s1. split; [done|].
    split; [|done]. exists (T RB_BLACK l p a r). split_and!; [done| |done]. exists n. by inversion Hn; subst.
Qed.

(** The same from a position. *)
Lemma erase_finish s k t c c' n :
  Rep s k t -> rb c n t -> rbk k c' n -> (c = RB_BLACK \/ c' = RB_RED) ->
  exists s', (node ← get_root; erase_color_end node) s = Some (tt, s') /\ erased s s' (elems (plug k t)).
Proof.
  intros H Ht Hk Hc. st (R_root _ _ _ H). apply Rep_root in H. pose proof H as (Hr & _). cbn [kroot] in Hr.
  replace (kroot k (troot t)) with (troot (plug k t)).
  - apply erase_end_ok; [done|]. by eapply rb_plug.
  - clear. revert t. induction k as [|f k IH]; intros t; [done|]. cbn [kroot]. rewrite plug_cons, IH. by rewrite troot_plug1.
Qed.

Lemma kroot_ne s f k t : Rep s (f :: k) t -> troot t <> kroot (f :: k) (troot t).
Proof.
  intros (_ & Hn & _ & _). cbn [kroot].
  assert (HK : forall k p, kroot k (Some p) = Some p \/ exists q, kroot k (Some p) = Some q /\ q ∈ kptrs k).
  { clear. intros k. induction k as [|g k IH]; intros p; [by left|]. right. cbn [kroot].
    destruct (IH (fptr g)) as [->|(q & -> & Hq)].
    - exists (fptr g). split; [done|]. unfold kptrs. destruct g; cbn; set_solver.
    - exists q. split; [done|]. unfold kptrs in *. cbn. set_solver. }
  intros Heq. destruct (HK k (fptr f)) as [Hq|(q & Hq & Hin)]; rewrite Hq in Heq; apply troot_ptrs in Heq;
    apply NoDup_app in Hn as (_ & Hn & _); apply (Hn _ Heq); unfold kptrs in *; cbn; destruct f; cbn; set_solver.
Qed.

(** The last rotation for a left child: the sibling, with a red right child, takes the parent's place. *)
Lemma erase_rotate_l s k cp t p ap ol q aq orl o ao orr c1 :
  Rep s k (T cp t p ap (T RB_BLACK ol q aq (T c1 orl o ao orr))) ->
  exists s', (c ← ext2fs_rb_color (Some p);
    ext2fs_rb_set_color (Some q) c;;
    ext2fs_rb_set_black (Some p);;
    or ← right_of (Some q);
    ext2fs_rb_set_black or;;
    __rb_rotate_left (Some p);;
    node ← get_root;
    erase_color_end node) s = (node ← get_root; erase_color_end node) s' /\
  Rep s' k (T cp (T RB_BLACK t p ap ol) q aq (T RB_BLACK orl o ao orr)) /\ dom (m_heap s') = dom (m_heap s).
Proof.
  intros H. st (R_color _ _ _ _ _ _ _ H). apply R_down_r in H.
  destruct (set_color_rep _ _ _ cp _ _ _ _ H) as (s1 & E1 & H1 & D1). st E1.
  apply R_up in H1. cbn [plug1] in H1. destruct (set_color_rep _ _ _ RB_BLACK _ _ _ _ H1) as (s2 & E2 & H2 & D2).
  unfold ext2fs_rb_set_black. st E2. apply R_down_r in H2. st (R_right _ _ _ _ _ _ _ H2). cbn [troot].
  apply R_down_r in H2. destruct (set_color_rep _ _ _ RB_BLACK _ _ _ _ H2) as (s3 & E3 & H3 & D3). st E3.
  apply R_up, R_up in H3. cbn [plug1] in H3. destruct (rotate_left_ok _ _ _ _ _ _ _ _ _ _ _ H3) as (s4 & E4 & H4 & D4).
  st E4. exists s4. split_and!; [done|done|congruence].
Qed.

Lemma erase_rotate_r s k cp t p ap or q aq oll o ao olr c1 :
  Rep s k (T cp (T RB_BLACK (T c1 oll o ao olr) q aq or) p ap t) ->
  exists s', (c ← ext2fs_rb_color (Some p);
    ext2fs_rb_set_color (Some q) c;;
    ext2fs_rb_set_black (Some p);;
    ol ← left_of (Some q);
    ext2fs_rb_set_black ol;;
    __rb_rotate_right (Some p);;
    node ← get_root;
    erase_color_end node) s = (node ← get_root; erase_color_end node) s' /\
  Rep s' k (T cp (T RB_BLACK oll o ao olr) q aq (T RB_BLACK or p ap t)) /\ dom (m_heap s') = dom (m_heap s).
Proof.
  intros H. st (R_color _ _ _ _ _ _ _ H). apply R_down_l in H.
  destruct (set_color_rep _ _ _ cp _ _ _ _ H) as (s1 & E1 & H1 & D1). st E1.
  apply R_up in H1. cbn [plug1] in H1. destruct (set_color_rep _ _ _ RB_BLACK _ _ _ _ H1) as (s2 & E2 & H2 & D2).
  unfold ext2fs_rb_set_black. st E2. apply R_down_l in H2. st (R_left _ _ _ _ _ _ _ H2). cbn [troot].
  apply R_down_l in H2. destruct (set_color_rep _ _ _ RB_BLACK _ _ _ _ H2) as (s3 & E3 & H3 & D3). st E3.
  apply R_up, R_up in H3. cbn [plug1] in H3. destruct (rotate_right_ok _ _ _ _ _ _ _ _ _ _ _ H3) as (s4 & E4 & H4 & D4).
  st E4. exists s4. split_and!; [done|done|congruence].
Qed.

Lemma seq3b {X Y} (m1 m2 m3 : M A unit) (m4 : M A X) (f : X -> M A Y) s s' x :
  (m1;; m2;; m3) s = Some (tt, s') -> m4 s' = Some (x, s') -> ((m1;; m2;; m3;; m4) ≫= f) s = f x s'.
Proof. intros H1 H2. apply bind_ok. by rewrite (seq3 _ _ _ _ _ _ H1). Qed.

(** The loop at a position, as the turn before uses it. *)
Definition loop_spec fuel k : Prop := forall s t n c,
  Rep s k t -> rb RB_BLACK n t -> rbk k c (S n) ->
  exists s', erase_color_loop fuel (troot t) (ktop k) s = Some (tt, s') /\ erased s s' (elems (plug k t)).

(** The context of a parent of colour [cp] whose subtrees should have the black height [S n]. *)
Definition parent_ctx k cp c n : Prop := (cp = RB_BLACK /\ rbk k c (S (S n))) \/ (cp = RB_RED /\ c = RB_RED /\ rbk k c (S n)).

Lemma parent_ctx_fits k cp c n l p a r cl cr :
  parent_ctx k cp c n -> rb cl (S n) l -> rb cr (S n) r -> (cp = RB_RED -> cl = RB_BLACK /\ cr = RB_BLACK) ->
  exists m, rb cp m (T cp l p a r) /\ rbk k c m /\ (cp = RB_BLACK \/ c = RB_RED).
Proof.
  intros [[-> Hk]|(-> & -> & Hk)] Hl Hr Hc.
  - exists (S (S n)). eauto with rb.
  - destruct Hc as [-> ->]; [done|]. exists (S n). eauto with rb.
Qed.

Lemma tcol_black t c n : rb c n t -> tcol t <> RB_RED -> rb RB_BLACK n t.
Proof. intros H. rewrite (rb_tcol _ _ _ H). by destruct c. Qed.

(** A red child is not null. *)
Lemma red_node t : tcol t = RB_RED -> exists l p a r, t = T RB_RED l p a r.
Proof. destruct t; cbn; [done|]. intros ->. eauto. Qed.

(** Both nephews black: the sibling turns red and the parent is next. *)
Lemma sibling_red fuel s s1 k cp c n ta p ap tb :
  (cp = RB_BLACK -> loop_spec (S fuel) k) -> parent_ctx k cp c n ->
  Rep s1 k (T cp ta p ap tb) ->
  rb RB_BLACK (S n) (T RB_BLACK ta p ap tb) ->
  dom (m_heap s1) = dom (m_heap s) ->
  exists s', (up ← ext2fs_rb_parent (Some p); erase_color_loop (S fuel) (Some p) up) s1 = Some (tt, s') /\
    erased s s' (elems (plug k (T cp ta p ap tb))).
Proof.
  intros IH Hk H Hrb Hd. st (R_parent _ _ _ _ _ _ _ H). destruct Hk as [[-> Hk]|(-> & -> & Hk)].
  - destruct (IH eq_refl _ _ _ _ H Hrb Hk) as (s2 & E2 & I2). exists s2. split; [done|]. by eapply erased_trans.
  - destruct (erase_stop_red fuel _ _ _ _ _ _ (ktop k) H) as (s2 & E2 & R2 & D2). exists s2. split; [done|].
    split; [|congruence]. apply Rep_root in R2. exists (plug k (T RB_BLACK ta p ap tb)). split_and!; [done| |].
    + eapply rb_plug; [done|done|by left].
    + by rewrite !elems_plug.
Qed.

Lemma sibling_l_ok fuel s k cp t p ap ol q aq or n c cl cr :
  (cp = RB_BLACK -> loop_spec (S fuel) k) -> parent_ctx k cp c n ->
  Rep s k (T cp t p ap (T RB_BLACK ol q aq or)) -> rb RB_BLACK n t -> rb cl n ol -> rb cr n or ->
  exists s', erase_sibling_l (erase_color_loop (S fuel)) (Some p) (Some q) s = Some (tt, s') /\
    erased s s' (elems (plug k (T cp t p ap (T RB_BLACK ol q aq or)))).
Proof.
  intros IH Hk H Ht Hl Hr. unfold erase_sibling_l. pose proof (R_down_r _ _ _ _ _ _ _ H) as Hq.
  st (R_left _ _ _ _ _ _ _ Hq). st (R_right _ _ _ _ _ _ _ Hq).
  st (R_or_black _ _ _ (R_down_l _ _ _ _ _ _ _ Hq)). st (R_or_black _ _ _ (R_down_r _ _ _ _ _ _ _ Hq)).
  destruct (decide (tcol or = RB_RED)) as [Cr|Cr].
  - (* the right nephew is red *)
    rewrite (bool_decide_eq_false_2 (tcol or = _)), andb_false_r by (by rewrite Cr). rewrite ret_bind.
    destruct (red_node _ Cr) as (orl & o & ao & orr & ->).
    destruct (erase_rotate_l _ _ _ _ _ _ _ _ _ _ _ _ _ _ H) as (s1 & E1 & R1 & D1). rewrite E1.
    inversion Hr; subst. destruct (parent_ctx_fits k cp c n (T RB_BLACK t p ap ol) q aq (T RB_BLACK orl o ao orr) RB_BLACK RB_BLACK Hk)
      as (m & F1 & F2 & F3); eauto with rb.
    destruct (erase_finish _ _ _ _ _ _ R1 F1 F2 F3) as (s2 & E2 & I2). exists s2. split; [done|].
    eapply erased_trans; [exact I2| |done]. inorder.
  - pose proof (tcol_black _ _ _ Hr Cr) as Br. assert (tcol or = RB_BLACK) as Cb by (by destruct (tcol or)).
    rewrite (bool_decide_eq_true_2 (tcol or = _)), andb_true_r by done.
    destruct (decide (tcol ol = RB_RED)) as [Cl|Cl].
    + (* the left nephew is red *)
      rewrite (bool_decide_eq_false_2 (tcol ol = _)) by (by rewrite Cl).
      destruct (red_node _ Cl) as (oll & o & ao & olr & ->). cbn [troot].
      destruct (lift_right _ _ _ _ _ _ _ _ _ _ _ Hq) as (s0 & E0 & R0 & D0).
      apply R_up in R0. cbn [plug1] in R0.
      rewrite (seq3b _ _ _ _ _ _ _ _ E0 (R_right _ _ _ _ _ _ _ R0)). cbn [troot].
      destruct (erase_rotate_l _ _ _ _ _ _ _ _ _ _ _ _ _ _ R0) as (s1 & E1 & R1 & D1). rewrite E1.
      inversion Hl; subst. destruct (parent_ctx_fits k cp c n (T RB_BLACK t p ap oll) o ao (T RB_BLACK olr q aq or) RB_BLACK RB_BLACK Hk)
        as (m & F1 & F2 & F3); eauto with rb.
      destruct (erase_finish _ _ _ _ _ _ R1 F1 F2 F3) as (s2 & E2 & I2). exists s2. split; [done|].
      eapply erased_trans; [exact I2| |congruence]. inorder.
    + pose proof (tcol_black _ _ _ Hl Cl) as Bl. assert (tcol ol = RB_BLACK) as Cb' by (by destruct (tcol ol)).
      rewrite (bool_decide_eq_true_2 (tcol ol = _)) by done.
      destruct (set_color_rep _ _ _ RB_RED _ _ _ _ Hq) as (s1 & E1 & R1 & D1). unfold ext2fs_rb_set_red. st E1.
      apply R_up in R1. destruct (sibling_red fuel s s1 k cp c n t p ap (T RB_RED ol q aq or) IH Hk R1) as (s2 & E2 & I2);
        [eauto with rb|done|]. exists s2. split; [done|]. eapply erased_trans; [exact I2| |done]. inorder.
Qed.

Lemma sibling_r_ok fuel s k cp t p ap ol q aq or n c cl cr :
  (cp = RB_BLACK -> loop_spec (S fuel) k) -> parent_ctx k cp c n ->
  Rep s k (T cp (T RB_BLACK ol q aq or) p ap t) -> rb RB_BLACK n t -> rb cl n ol -> rb cr n or ->
  exists s', erase_sibling_r (erase_color_loop (S fuel)) (Some p) (Some q) s = Some (tt, s') /\
    erased s s' (elems (plug k (T cp (T RB_BLACK ol q aq or) p ap t))).
Proof.
  intros IH Hk H Ht Hl Hr. unfold erase_sibling_r. pose proof (R_down_l _ _ _ _ _ _ _ H) as Hq.
  st (R_left _ _ _ _ _ _ _ Hq). st (R_right _ _ _ _ _ _ _ Hq).
  st (R_or_black _ _ _ (R_down_l _ _ _ _ _ _ _ Hq)). st (R_or_black _ _ _ (R_down_r _ _ _ _ _ _ _ Hq)).
  destruct (decide (tcol ol = RB_RED)) as [Cl|Cl].
  - (* the left nephew is red *)
    rewrite (bool_decide_eq_false_2 (tcol ol = _)) by (by rewrite Cl). cbn [andb]. rewrite ret_bind.
    destruct (red_node _ Cl) as (oll & o & ao & olr & ->).
    destruct (erase_rotate_r _ _ _ _ _ _ _ _ _ _ _ _ _ _ H) as (s1 & E1 & R1 & D1). rewrite E1.
    inversion Hl; subst. destruct (parent_ctx_fits k cp c n (T RB_BLACK oll o ao olr) q aq (T RB_BLACK or p ap t) RB_BLACK RB_BLACK Hk)
      as (m & F1 & F2 & F3); eauto with rb.
    destruct (erase_finish _ _ _ _ _ _ R1 F1 F2 F3) as (s2 & E2 & I2). exists s2. split; [done|].
    eapply erased_trans; [exact I2| |done]. inorder.
  - pose proof (tcol_black _ _ _ Hl Cl) as Bl. assert (tcol ol = RB_BLACK) as Cb by (by destruct (tcol ol)).
    rewrite (bool_decide_eq_true_2 (tcol ol = _)) by done. cbn [andb].
    destruct (decide (tcol or = RB_RED)) as [Cr|Cr].
    + (* the right nephew is red *)
      rewrite (bool_decide_eq_false_2 (tcol or = _)) by (by rewrite Cr).
      destruct (red_node _ Cr) as (orl & o & ao & orr & ->). cbn [troot].
      destruct (lift_left _ _ _ _ _ _ _ _ _ _ _ Hq) as (s0 & E0 & R0 & D0).
      apply R_up in R0. cbn [plug1] in R0.
      rewrite (seq3b _ _ _ _ _ _ _ _ E0 (R_left _ _ _ _ _ _ _ R0)). cbn [troot].
      destruct (erase_rotate_r _ _ _ _ _ _ _ _ _ _ _ _ _ _ R0) as (s1 & E1 & R1 & D1). rewrite E1.
      inversion Hr; subst. destruct (parent_ctx_fits k cp c n (T RB_BLACK ol q aq orl) o ao (T RB_BLACK orr p ap t) RB_BLACK RB_BLACK Hk)
        as (m & F1 & F2 & F3); eauto with rb.
      destruct (erase_finish _ _ _ _ _ _ R1 F1 F2 F3) as (s2 & E2 & I2). exists s2. split; [done|].
      eapply erased_trans; [exact I2| |congruence]. inorder.
    + pose proof (tcol_black _ _ _ Hr Cr) as Br. assert (tcol or = RB_BLACK) as Cb' by (by destruct (tcol or)).
      rewrite (bool_decide_eq_true_2 (tcol or = _)) by done.
      destruct (set_color_rep _ _ _ RB_RED _ _ _ _ Hq) as (s1 & E1 & R1 & D1). unfold ext2fs_rb_set_red. st E1.
      apply R_up in R1. destruct (sibling_red fuel s s1 k cp c n (T RB_RED ol q aq or) p ap t IH Hk R1) as (s2 & E2 & I2);
        [eauto with rb|done|]. exists s2. split; [done|]. eapply erased_trans; [exact I2| |done]. inorder.
Qed.

(** The context of the parent, and the sibling, of a position that lacks a black node. *)
Lemma rbk_parent f k c n : rbk (f :: k) c (S n) ->
  exists c' co, parent_ctx k (fcol f) c' n /\ (fcol f = RB_RED -> co = RB_BLACK) /\
    rb co (S n) (match f with Lf _ _ _ r => r | Rf _ l _ _ => l end).
Proof.
  inversion 1; subst; cbn; unfold parent_ctx.
  1, 3: exists RB_RED, RB_BLACK; split_and!; [right|..]; done.
  all: eexists _, _; split_and!; [left; split; [done|eassumption]|intros [=]|eassumption].
Qed.

(** A sibling of black height at least one is a node. *)
Lemma sibling_node t co n : rb co (S n) t -> exists l p a r, t = T co l p a r /\
  (co = RB_BLACK -> exists cl cr, rb cl n l /\ rb cr n r) /\ (co = RB_RED -> rb RB_BLACK (S n) l /\ rb RB_BLACK (S n) r).
Proof. inversion 1; subst; eexists _, _, _, _; split_and!; try done; eauto. Qed.

(** The loop enters its body at every position below the root. *)
Lemma erase_enter fuel s f k t n :
  Rep s (f :: k) t -> rb RB_BLACK n t ->
  erase_color_loop (S fuel) (troot t) (ktop (f :: k)) s =
    (pl ← left_of (Some (fptr f));
     if decide (pl = troot t) then
       other ← right_of (Some (fptr f));
       ored ← ext2fs_rb_is_red other;
       other ← (if (ored : bool) then
                  ext2fs_rb_set_black other;; ext2fs_rb_set_red (Some (fptr f));; __rb_rotate_left (Some (fptr f));;
                  right_of (Some (fptr f))
                else mret other);
       erase_sibling_l (erase_color_loop fuel) (Some (fptr f)) other
     else
       other ← left_of (Some (fptr f));
       ored ← ext2fs_rb_is_red other;
       other ← (if (ored : bool) then
                  ext2fs_rb_set_black other;; ext2fs_rb_set_red (Some (fptr f));; __rb_rotate_right (Some (fptr f));;
                  left_of (Some (fptr f))
                else mret other);
       erase_sibling_r (erase_color_loop fuel) (Some (fptr f)) other) s.
Proof.
  intros H Ht. cbn [erase_color_loop]. st (R_or_black _ _ _ H). rewrite (rb_tcol _ _ _ Ht), (bool_decide_eq_true_2 (RB_BLACK = _)) by done.
  st (R_root _ _ _ H). rewrite bool_decide_eq_true_2 by (by eapply kroot_ne). done.
Qed.

Lemma erase_turn_l fuel s k cp p ap o t n c :
  loop_spec (S fuel) k -> Rep s (Lf cp p ap o :: k) t -> rb RB_BLACK n t -> rbk (Lf cp p ap o :: k) c (S n) ->
  exists s', erase_color_loop (S (S fuel)) (troot t) (Some p) s = Some (tt, s') /\ erased s s' (elems (plug (Lf cp p ap o :: k) t)).
Proof.
  intros IH H Ht Hk. pose proof (erase_enter (S fuel) _ _ _ _ _ H Ht) as EE. cbn [ktop fptr] in EE. rewrite EE. clear EE.
  destruct (rbk_parent _ _ _ _ Hk) as (c' & co & Hp & Hc & Ho). cbn [fcol] in Hp, Hc.
  pose proof (R_up _ _ _ _ H) as HP. cbn [plug1] in HP.
  st (R_left _ _ _ _ _ _ _ HP). rewrite decide_True by done. st (R_right _ _ _ _ _ _ _ HP).
  destruct (sibling_node _ _ _ Ho) as (ol & q & aq & or & -> & Hb & Hr). cbn [troot].
  st (R_is_red _ _ _ _ _ _ _ (R_down_r _ _ _ _ _ _ _ HP)). destruct co.
  - (* a red sibling: its left child is the black sibling after the rotation *)
    rewrite bool_decide_eq_true_2 by done. assert (cp = RB_BLACK) as -> by (destruct cp; [by specialize (Hc eq_refl)|done]).
    destruct Hr as [Hol Hor]; [done|]. destruct Hp as [[_ Hp]|(? & _)]; [|done].
    destruct (lift_left _ _ _ _ _ _ _ _ _ _ _ HP) as (s1 & E1 & R1 & D1).
    pose proof (R_down_l _ _ _ _ _ _ _ R1) as R2.
    rewrite (seq3b _ _ _ _ _ _ _ _ E1 (R_right _ _ _ _ _ _ _ R2)).
    destruct (sibling_node _ _ _ Hol) as (nl & m & am & nr & -> & Hn & _). destruct (Hn eq_refl) as (dl & dr & Hnl & Hnr). cbn [troot].
    destruct (sibling_l_ok fuel s1 (Lf RB_BLACK q aq or :: k) RB_RED t p ap nl m am nr n RB_RED dl dr) as (s2 & E2 & I2);
      [done|right; eauto with rb|done..|].
    exists s2. split; [done|]. eapply erased_trans; [exact I2| |done]. inorder.
  - rewrite bool_decide_eq_false_2 by done. destruct (Hb eq_refl) as (cl & cr & Hol & Hor). rewrite ret_bind.
    by eapply sibling_l_ok.
Qed.

Lemma erase_turn_r fuel s k cp p ap o t n c :
  loop_spec (S fuel) k -> Rep s (Rf cp o p ap :: k) t -> rb RB_BLACK n t -> rbk (Rf cp o p ap :: k) c (S n) ->
  exists s', erase_color_loop (S (S fuel)) (troot t) (Some p) s = Some (tt, s') /\ erased s s' (elems (plug (Rf cp o p ap :: k) t)).
Proof.
  intros IH H Ht Hk. pose proof (erase_enter (S fuel) _ _ _ _ _ H Ht) as EE. cbn [ktop fptr] in EE. rewrite EE. clear EE.
  destruct (rbk_parent _ _ _ _ Hk) as (c' & co & Hp & Hc & Ho). cbn [fcol] in Hp, Hc.
  pose proof (R_up _ _ _ _ H) as HP. cbn [plug1] in HP.
  st (R_left _ _ _ _ _ _ _ HP). destruct (sibling_node _ _ _ Ho) as (ol & q & aq & or & -> & Hb & Hr). cbn [troot].
  rewrite decide_False by (intros Heq; pose proof (R_rf_ne _ _ _ _ _ _ _ H Heq) as He; by rewrite He in Heq).
  st (R_left _ _ _ _ _ _ _ HP). cbn [troot]. st (R_is_red _ _ _ _ _ _ _ (R_down_l _ _ _ _ _ _ _ HP)). destruct co.
  - rewrite bool_decide_eq_true_2 by done. assert (cp = RB_BLACK) as -> by (destruct cp; [by specialize (Hc eq_refl)|done]).
    destruct Hr as [Hol Hor]; [done|]. destruct Hp as [[_ Hp]|(? & _)]; [|done].
    destruct (lift_right _ _ _ _ _ _ _ _ _ _ _ HP) as (s1 & E1 & R1 & D1).
    pose proof (R_down_r _ _ _ _ _ _ _ R1) as R2.
    rewrite (seq3b _ _ _ _ _ _ _ _ E1 (R_left _ _ _ _ _ _ _ R2)).
    destruct (sibling_node _ _ _ Hor) as (nl & m & am & nr & -> & Hn & _). destruct (Hn eq_refl) as (dl & dr & Hnl & Hnr). cbn [troot].
    destruct (sibling_r_ok fuel s1 (Rf RB_BLACK ol q aq :: k) RB_RED t p ap nl m am nr n RB_RED dl dr) as (s2 & E2 & I2);
      [done|right; eauto with rb|done..|].
    exists s2. split; [done|]. eapply erased_trans; [exact I2| |done]. inorder.
  - rewrite bool_decide_eq_false_2 by done. destruct (Hb eq_refl) as (cl & cr & Hol & Hor). rewrite ret_bind.
    by eapply sibling_r_ok.
Qed.

Lemma erase_loop_ok k : forall fuel, (length k + 2 <= fuel)%nat -> loop_spec fuel k.
Proof.
  induction k as [|f k IH]; intros [|fuel] Hlen; cbn [length] in Hlen; try lia; intros s t n c H Ht Hk.
  - cbn [erase_color_loop]. st (R_or_black _ _ _ H). st (R_root _ _ _ H). cbn [kroot].
    rewrite (bool_decide_eq_false_2 (_ <> _)), andb_false_r by (intros []; done). cbn [negb].
    apply erase_end_ok; [done|]. by exists n.
  - destruct fuel as [|fuel]; [lia|]. specialize (IH (S fuel) ltac:(lia)).
    destruct f; [eapply erase_turn_l|eapply erase_turn_r]; eauto.
Qed.

(** [__rb_erase_color] at a position that lacks a black node. *)
Lemma erase_color_ok s k t n ct c :
  Rep s k t -> rb ct n t -> rbk k c (S n) ->
  exists s', __rb_erase_color (troot t) (ktop k) s = Some (tt, s') /\ erased s s' (elems (plug k t)).
Proof.
  intros H Ht Hk. unfold __rb_erase_color. unfold mbind, M_bind, get_fuel.
  pose proof (Rep_size _ _ _ H) as Hsz. destruct ct.
  - inversion Ht; subst. destruct (erase_stop_red (S (size (m_heap s))) _ _ _ _ _ _ (ktop k) H) as (s1 & E1 & R1 & D1).
    exists s1. split; [done|]. split; [|done]. apply Rep_root in R1. eexists. split_and!; [exact R1| |].
    + eapply rb_plug; [done|econstructor; eassumption|by left].
    + by rewrite !elems_plug.
  - eapply erase_loop_ok; [|done..]. lia.
Qed.

(** * Taking a node out *)

Lemma erase_one_ok s k c l x a r t :
  Rep s k (T c l x a r) -> (l = E /\ r = t) \/ (r = E /\ l = t) -> redblack (plug k (T c l x a r)) ->
  exists s', erase_one (Some x) (troot t) s = Some (tt, s') /\ erased s s' (elems (plug k t)).
Proof.
  destruct s as [ro h]. intros H Ht Hrb. pose proof H as (Hr & Hn & Hc & Hx & Hsl & Hsr). cbn [m_root m_heap troot] in *. subst ro.
  assert (NoDup (x :: ptrs t ++ kptrs k)) as Hn'.
  { destruct Ht as [[-> ->]|[-> ->]]; cbn in Hn; rewrite ?app_nil_r in Hn; done. }
  distinct Hn'. assert (sub h (Some x) t) as Hst by (destruct Ht as [[-> ->]|[-> ->]]; done).
  unfold erase_one. rd Hx. rd Hx. ps t (Some x). rl (@relink_ok A) k x (troot t).
  set (s1 := mkMem _ _). assert (Rep s1 k t) as Rs1.
  { unfold Rep, s1. cbn [m_root m_heap]. split_and!; [done|nd|heap..]. }
  assert (dom (m_heap s1) = dom h) as D1 by (unfold s1; cbn [m_heap]; hdom).
  destruct (redblack_position _ _ Hrb) as (c1 & n & c' & B1 & B2 & B3). unfold erase_fixup.
  inversion B1 as [|n' ? ? ? ? Bl Br|n' cl cr ? ? ? ? Bl Br]; subst.
  - rewrite decide_False by done. exists s1. split; [done|]. split; [|done]. apply Rep_root in Rs1.
    exists (plug k t). split_and!; [done| |done]. eapply rb_plug; [done| |by left].
    destruct Ht as [[-> ->]|[-> ->]]; done.
  - rewrite decide_True by done. assert (exists ct, rb ct n' t) as [ct Bt] by (destruct Ht as [[-> ->]|[-> ->]]; eauto).
    destruct (erase_color_ok _ _ _ _ _ _ Rs1 Bt B2) as (s2 & E2 & I2). exists s2. split; [done|]. by eapply erased_trans.
Qed.

(** Contexts below a given parent. *)
Definition ktopp (par : option ptr) k : option ptr := match k with [] => par | f :: _ => Some (fptr f) end.

Fixpoint conp h (par : option ptr) k (x : option ptr) : Prop :=
  match k with
  | [] => True
  | Lf c p a r :: k => h !! p = Some (mkNode (ktopp par k) c (troot r) x, a) /\ sub h (Some p) r /\ conp h par k (Some p)
  | Rf c l p a :: k => h !! p = Some (mkNode (ktopp par k) c x (troot l), a) /\ sub h (Some p) l /\ conp h par k (Some p)
  end.

Lemma sub_plug h par k : forall t, sub h par (plug k t) <-> conp h par k (troot t) /\ sub h (ktopp par k) t.
Proof.
  induction k as [|[c p a r|c l p a] k IH]; intros t; cbn [conp ktopp fptr]; [cbn; tauto|..];
    rewrite plug_cons, IH; cbn [plug1 troot sub]; tauto.
Qed.

Lemma conp_frame h q x par k y : q ∉ kptrs k -> conp h par k y -> conp (<[q := x]> h) par k y.
Proof.
  unfold kptrs. revert y. induction k as [|[c p a r|c l p a] k IH]; intros y Hq; cbn in *; [done|..].
  all: intros (H1 & H2 & H3); rewrite lookup_insert_ne by set_solver.
  all: split_and!; [done|apply sub_frame; [set_solver|done]|apply IH; [set_solver|done]].
Qed.

Lemma kptrs_cons (f : frame A) k : kptrs (f :: k) = fptrs f ++ kptrs k.
Proof. done. Qed.

Lemma ptrs_plug k t : ptrs (plug k t) ≡ₚ ptrs t ++ kptrs k.
Proof.
  revert t. induction k as [|f k IH]; intros t; [cbn; by rewrite app_nil_r|].
  rewrite plug_cons, IH, kptrs_cons, app_assoc. f_equiv. destruct f; cbn [plug1 ptrs fptrs].
  - by rewrite <- Permutation_middle.
  - rewrite <- Permutation_middle. f_equiv. apply Permutation_app_comm.
Qed.

Lemma troot_plug k t t' : k <> [] -> troot (plug k t) = troot (plug k t').
Proof.
  revert t t'. induction k as [|f k IH]; intros t t'; [done|]. intros _. rewrite !plug_cons.
  destruct k as [|g k]; [cbn; by rewrite !troot_plug1|]. by apply IH.
Qed.

(** The leftmost node of a tree. *)
Fixpoint lspine k : Prop := match k with [] => True | Lf _ _ _ _ :: k => lspine k | Rf _ _ _ _ :: _ => False end.

Lemma lspine_exists t : t <> E -> exists k c y a r, t = plug k (T c E y a r) /\ lspine k.
Proof.
  induction t as [|c l IHl p a r IHr]; [done|]. intros _. destruct l as [|cl ll lp la lr].
  - by exists [], c, p, a, r.
  - destruct IHl as (k & c' & y & a' & r' & Hl & Hk); [done|]. rewrite Hl.
    exists (k ++ [Lf c p a r]), c', y, a', r'. split; [by rewrite plug_app|].
    clear -Hk. induction k as [|[] k IH]; cbn in *; auto.
Qed.

Lemma leftmost_ok fuel : forall s k k1 c y a r, lspine k1 -> (length k1 < fuel)%nat -> Rep s k (plug k1 (T c E y a r)) ->
  leftmost fuel (troot (plug k1 (T c E y a r))) s = Some (Some y, s).
Proof.
  induction fuel as [|fuel IH]; [lia|]. intros s k k1. revert k.
  induction k1 as [|f k1 _] using rev_ind; intros k c y a r Hl Hlen H.
  - cbn [plug foldl troot] in *. cbn [leftmost]. by st (R_left _ _ _ _ _ _ _ H).
  - rewrite plug_app in *. rewrite length_app in Hlen. cbn in Hlen.
    assert (lspine k1 /\ exists c p a r, f = Lf c p a r) as (Hk1 & c' & p & a' & r' & ->).
    { clear -Hl. induction k1 as [|[] k1 IH]; cbn in *; [destruct f; try done; eauto 10|by apply IH|done]. }
    cbn [plug foldl plug1 troot] in *. cbn [leftmost]. st (R_left _ _ _ _ _ _ _ H).
    pose proof (R_down_l _ _ _ _ _ _ _ H) as Hd. pose proof (IH _ _ _ _ _ _ _ Hk1 ltac:(lia) Hd) as Hm.
    destruct (troot (plug k1 (T c E y a r))) eqn:Ht; [done|]. destruct fuel; [lia|done].
Qed.

(** Taking the leftmost node out of a tree, below its parent [q]. *)
Lemma splice h par cq q aq rq k1 cs y ay ry :
  NoDup (ptrs (plug (Lf cq q aq rq :: k1) (T cs E y ay ry))) -> sub h par (plug (Lf cq q aq rq :: k1) (T cs E y ay ry)) ->
  h !! q = Some (mkNode (ktopp par k1) cq (troot rq) (Some y), aq) /\
  h !! y = Some (mkNode (Some q) cs (troot ry) None, ay) /\ sub h (Some y) ry /\
  sub (<[q := (mkNode (ktopp par k1) cq (troot rq) (troot ry), aq)]> (hpar ry (Some q) h)) par (plug (Lf cq q aq rq :: k1) ry).
Proof.
  rewrite ptrs_plug, !sub_plug, kptrs_cons. cbn [ptrs fptrs conp troot sub ktopp fptr app].
  intros Hn ((Hq & Hrq & Hk) & Hy & _ & Hry). distinct Hn. split_and!; try done.
  - heap.
  - heap.
  - apply conp_frame; [nd|]. destruct ry as [|cy yl yp ya yr]; [done|]. cbn [hpar ptrs] in *. apply conp_frame; [|done].
    match goal with H : (yp :: _) ## kptrs k1 |- _ => distinct H end. nd.
  - heap.
Qed.

(** The successor's place is taken by its right child, the node's place by the successor. *)
Lemma erase_two_move s k c l x a k1 cs y ay ry :
  l <> E -> lspine k1 -> Rep s k (T c l x a (plug k1 (T cs E y ay ry))) ->
  exists s', erase_two (Some x) s = erase_fixup cs (troot ry) (ktop (k1 ++ Rf c l y ay :: k)) s' /\
    Rep s' (k1 ++ Rf c l y ay :: k) ry /\ dom (m_heap s') = dom (m_heap s).
Proof.
  intros Hl Hsp H. destruct s as [ro h]. pose proof H as (Hr & Hn & Hc & Hx & Hsl & Hsr). cbn [m_root m_heap troot] in *. subst ro.
  unfold erase_two. rd Hx. unfold get_fuel, mbind at 1, M_bind at 1.
  pose proof (Rep_size _ _ _ (R_down_r _ _ _ _ _ _ _ H)) as Hsz. cbn [m_heap] in Hsz.
  pose proof (length_kptrs k1) as Hk1. rewrite ptrs_plug, length_app in Hsz.
  st (leftmost_ok (S (size h)) _ _ _ _ _ _ _ Hsp ltac:(lia) (R_down_r _ _ _ _ _ _ _ H)).
  rd Hx. destruct k1 as [|f k1].
  - cbn [plug foldl ptrs sub troot app] in *. destruct Hsr as (Hy & _ & Hry). distinct Hn.
    rl (@relink_ok A) k x (Some y). rdp y. rdp y. rdp y. rewrite decide_True by done. rewrite ret_bind.
    rdp x. rdp x. wr y. wr y. rdp x. wr y. pr l (Some x) Hl.
    eexists. split; [reflexivity|]. split; [|cbn [m_heap]; hdom].
    apply R_down_r. unfold Rep. cbn [m_root m_heap kroot troot sub ktop ptrs]. split_and!; [done|nd|heap..].
  - destruct f as [cq q aq rq|]; [|done].
    assert (Hn1 : NoDup (ptrs (plug (Lf cq q aq rq :: k1) (T cs E y ay ry)))) by (clear -Hn; cbn [ptrs] in Hn; distinct Hn; done).
    rewrite (troot_plug (Lf cq q aq rq :: k1) _ ry) in Hx by done.
    set (r' := plug (Lf cq q aq rq :: k1) ry) in *.
    assert (Hn2 : NoDup (x :: y :: ptrs l ++ ptrs r' ++ kptrs k)).
    { cbn [ptrs] in Hn. unfold r'. rewrite ptrs_plug in Hn |- *. cbn [ptrs app] in Hn.
      assert (P : x :: y :: ptrs l ++ (ptrs ry ++ kptrs (Lf cq q aq rq :: k1)) ++ kptrs k ≡ₚ
                  x :: (ptrs l ++ y :: ptrs ry ++ kptrs (Lf cq q aq rq :: k1)) ++ kptrs k).
      { f_equiv. rewrite <- !app_assoc. cbn [app]. rewrite <- ?app_assoc. apply Permutation_middle. }
      by rewrite P. }
    assert (Hn3 : NoDup (q :: ptrs ry) /\ q ∈ ptrs r' /\ (forall z, z ∈ ptrs ry -> z ∈ ptrs r')).
    { rewrite ptrs_plug, kptrs_cons in Hn1. cbn [ptrs fptrs app] in Hn1. distinct Hn1. split; [nd|]. unfold r'.
      split; [|intros z Hz]; rewrite ptrs_plug, kptrs_cons; cbn; set_solver. }
    assert (Hd : (x ∉ ptrs (plug (Lf cq q aq rq :: k1) (T cs E y ay ry))) /\
                 (ptrs (plug (Lf cq q aq rq :: k1) (T cs E y ay ry)) ## kptrs k)).
    { cbn [ptrs] in Hn. distinct Hn. split; nd. }
    destruct Hd as [Hd1 Hd2]. assert (Hxk : x ∉ kptrs k) by (clear -Hn2; distinct Hn2; done).
    assert (Hlk : ptrs l ## kptrs k) by (clear -Hn2; distinct Hn2; done).
    rl (@relink_ok A) k x (Some y).
    assert (Hc0 : con (hlink k (Some y) h) k (Some y)) by (eapply con_hlink; [clear -Hn2; distinct Hn2; done|done]).
    assert (Hx0 : hlink k (Some y) h !! x = Some (mkNode (ktop k) c (troot r') (troot l), a)) by (by rewrite lookup_hlink).
    assert (Hl0 : sub (hlink k (Some y) h) (Some x) l) by (by apply sub_hlink_frame).
    assert (Hr0 : sub (hlink k (Some y) h) (Some x) (plug (Lf cq q aq rq :: k1) (T cs E y ay ry))) by (by apply sub_hlink_frame).
    assert (D0 : dom (hlink k (Some y) h) = dom h) by (by eapply dom_hlink).
    cbn [m_heap]. rewrite <- D0. revert Hc0 Hx0 Hl0 Hr0. generalize (hlink k (Some y) h). clear h Hc Hx Hsl Hsr D0 Hsz H Hn Hd1 Hd2.
    intros h Hc Hx Hsl Hsr.
    destruct (splice _ _ _ _ _ _ _ _ _ _ _ Hn1 Hsr) as (Hq & Hy & Hry & Hsp'). fold r' in Hsp'.
    destruct Hn3 as (Hqry & Hqr & Hryr). distinct Hqry. distinct Hn2.
    assert (Hqs : q <> x /\ q <> y /\ (q ∉ ptrs l) /\ q ∉ kptrs k) by set_solver.
    assert (Hrs : (x ∉ ptrs ry) /\ (y ∉ ptrs ry) /\ (ptrs ry ## ptrs l) /\ ptrs ry ## kptrs k) by set_solver.
    destruct_and! Hqs. destruct_and! Hrs.
    assert (Hr' : r' <> E) by (intros ->; set_solver).
    rdp y. rdp y. rdp y. rewrite decide_False by congruence.
    rewrite M_bind_assoc. ps ry (Some y). rewrite M_bind_assoc. wr q. rewrite M_bind_assoc. rdp x. rewrite M_bind_assoc. wr y.
    rewrite M_bind_assoc. pr r' (Some x) Hr'. rewrite ret_bind.
    rdp x. rdp x. wr y. wr y. rdp x. wr y. pr l (Some x) Hl.
    eexists. split; [reflexivity|]. split; [|cbn [m_heap]; hdom].
    apply Rep_plug. apply R_down_r. fold r'. unfold Rep. cbn [m_root m_heap kroot troot sub ktop ptrs]. split_and!; [done|nd|heap..].
Qed.

Lemma rbk_data k1 : forall k d l x a y b c n, rbk (k1 ++ Rf d l x a :: k) c n -> rbk (k1 ++ Rf d l y b :: k) c n.
Proof.
  induction k1 as [|f k1 IH]; intros k d l x a y b c n; cbn [app]; inversion 1; subst; econstructor; eauto.
Qed.

Lemma erase_two_ok s k c l x a r :
  l <> E -> r <> E -> Rep s k (T c l x a r) -> redblack (plug k (T c l x a r)) ->
  exists s', erase_two (Some x) s = Some (tt, s') /\ erased s s' (kleft k ++ elems l ++ elems r ++ kright k).
Proof.
  intros Hl Hr H Hrb. destruct (lspine_exists r Hr) as (k1 & cs & y & ay & ry & -> & Hsp).
  destruct (erase_two_move _ _ _ _ _ _ _ _ _ _ _ Hl Hsp H) as (s1 & E1 & R1 & D1). rewrite E1.
  assert (redblack (plug (k1 ++ Rf c l x a :: k) (T cs E y ay ry))) as Hrb' by (by rewrite plug_app).
  destruct (redblack_position _ _ Hrb') as (c1 & n & c' & B1 & B2 & B3). apply (rbk_data _ _ _ _ _ _ y ay) in B2.
  assert (HL : elems (plug (k1 ++ Rf c l y ay :: k) ry) = kleft k ++ elems l ++ elems (plug k1 (T cs E y ay ry)) ++ kright k).
  { rewrite plug_app, plug_cons. cbn [plug1]. rewrite !elems_plug. cbn [elems]. rewrite elems_plug.
    assert (kleft k1 = []) as -> by (clear -Hsp; induction k1 as [|[] k1 IH]; cbn in *; [done|by rewrite IH|done]).
    repeat (rewrite <- ?app_assoc; cbn [app]). done. }
  unfold erase_fixup. inversion B1 as [|? ? ? ? ? ? Br|? ? ? ? ? ? ? ? Br]; subst.
  - rewrite decide_False by done. exists s1. split; [done|]. split; [|done]. apply Rep_root in R1.
    eexists. split_and!; [exact R1| |exact HL]. eapply rb_plug; [exact B2|done|by left].
  - rewrite decide_True by done. destruct (erase_color_ok _ _ _ _ _ _ R1 Br B2) as (s2 & E2 & I2).
    exists s2. split; [done|]. by eapply erased_trans.
Qed.

(** [ext2fs_rb_erase] *)
Lemma erase_ok s k c l x a r :
  Rep s k (T c l x a r) -> redblack (plug k (T c l x a r)) ->
  exists s', ext2fs_rb_erase (Some x) s = Some (tt, s') /\ erased s s' (kleft k ++ elems l ++ elems r ++ kright k).
Proof.
  intros H Hrb. unfold ext2fs_rb_erase. st (R_left _ _ _ _ _ _ _ H). st (R_right _ _ _ _ _ _ _ H).
  destruct l as [|cl ll lp la lr]; [|destruct r as [|cr rl rp ra rr]]; cbn [troot].
  - destruct (erase_one_ok _ _ _ _ _ _ _ r H ltac:(by left) Hrb) as (s1 & E1 & I1). exists s1. split; [done|].
    eapply erased_trans; [exact I1| |done]. by rewrite elems_plug.
  - destruct (erase_one_ok _ _ _ _ _ _ _ _ H ltac:(by right) Hrb) as (s1 & E1 & I1). exists s1. split; [done|].
    eapply erased_trans; [exact I1| |done]. rewrite elems_plug. done.
  - by eapply (erase_two_ok _ _ c).
Qed.

End erasure.
