(* ===== verification/RbtreeList.v ===== *)
(** A red-black tree in memory as the list of its nodes in order: what each function of the
    library does to that list.  This is the interface the users of the tree are proved against. *)
From Stdlib Require Import ZArith Lia.
From stdpp Require Import base tactics numbers list gmap.
From S2P Require Import Prelude Rbtree RbtreeProofs RbtreeBalance RbtreeErase.

(** * The search every user of the library writes *)

Section search.
Context {A : Type}.

Definition get_data (p : option ptr) : M A A := x ← load p; mret x.2.
Definition set_data (p : option ptr) (a : A) : M A unit := store p (fun x => (x.1, a)).

(** [while ( *n ) { parent = *n; ... }]: to the left, to the right, or found.  The result says
    whether the node was found, and gives [parent] and [n]. *)
Fixpoint search_loop (fuel : nat) (cmp : A -> comparison) (parent : option ptr) (n : link)
  : M A (bool * option ptr * link) :=
  match fuel with
  | O => fun _ => None
  | S fuel' =>
      q ← read_link n;
      match q with
      | None => mret (false, parent, n)
      | Some _ =>
          a ← get_data q;
          match cmp a with
          | Lt => search_loop fuel' cmp q (Lleft q)
          | Gt => search_loop fuel' cmp q (Lright q)
          | Eq => mret (true, q, n)
          end
      end
  end.

Definition search (cmp : A -> comparison) : M A (bool * option ptr * link) :=
  fuel ← get_fuel;
  search_loop (S fuel) cmp None Lroot.

End search.

Section lists.
Context {A : Type}.
Implicit Types (t l r : tree A) (k : ctx A) (s : mem A) (L : list (ptr * A)).

(** The address of the first, or the last, element. *)
Definition hd_ptr L : option ptr := fst <$> head L.
Definition last_ptr L : option ptr := fst <$> last L.

(** * Positions *)

Lemma kleft_app k1 k2 : kleft (k1 ++ k2) = kleft k2 ++ kleft k1.
Proof. induction k1 as [|f k1 IH]; cbn; [by rewrite app_nil_r|]. by rewrite IH, app_assoc. Qed.

Lemma kright_app k1 k2 : kright (k1 ++ k2) = kright k1 ++ kright k2.
Proof. induction k1 as [|f k1 IH]; cbn; [done|]. by rewrite IH, app_assoc. Qed.

Lemma elems_split t : forall L1 p a L2, elems t = L1 ++ (p, a) :: L2 ->
  exists k c l r, t = plug k (T c l p a r) /\ L1 = kleft k ++ elems l /\ L2 = elems r ++ kright k.
Proof.
  induction t as [|c l IHl q b r IHr]; intros L1 p a L2; cbn [elems]; [by destruct L1|].
  intros H. apply app_eq_app in H as (m & [[H1 H2]|[H1 H2]]).
  - destruct m as [|m M].
    + rewrite app_nil_r in H1. injection H2 as -> -> ->. exists [], c, l, r. subst. cbn. by rewrite !app_nil_r.
    + injection H2 as <- ->. destruct (IHl _ _ _ _ H1) as (k & c' & l' & r' & -> & -> & ->).
      exists (k ++ [Lf c q b r]), c', l', r'. rewrite plug_app, kleft_app, kright_app. cbn.
      by rewrite app_nil_r, <- app_assoc.
  - destruct m as [|m M].
    + rewrite app_nil_r in H1. injection H2 as -> -> <-. exists [], c, l, r. subst. cbn. by rewrite !app_nil_r.
    + injection H2 as <- H2. destruct (IHr _ _ _ _ H2) as (k & c' & l' & r' & -> & -> & ->).
      exists (k ++ [Rf c l q b]), c', l', r'. rewrite plug_app, kleft_app, kright_app. cbn.
      by rewrite app_nil_r, H1, <- !app_assoc.
Qed.

Lemma holds_position s L1 p a L2 : holds s (L1 ++ (p, a) :: L2) ->
  exists k c l r, Rep s k (T c l p a r) /\ redblack (plug k (T c l p a r)) /\
    L1 = kleft k ++ elems l /\ L2 = elems r ++ kright k.
Proof.
  intros (t & HR & Hrb & (k & c & l & r & -> & -> & ->)%elems_split). apply Rep_root in HR. by exists k, c, l, r.
Qed.

Lemma holds_intro s k t : Rep s k t -> redblack (plug k t) -> holds s (elems (plug k t)).
Proof. intros H%Rep_root Hrb. by exists (plug k t). Qed.

(** The nodes are different, and in memory. *)
Lemma ptrs_elems t : ptrs t ≡ₚ (elems t).*1.
Proof.
  induction t as [|c l IHl p a r IHr]; cbn; [done|]. rewrite fmap_app. cbn. rewrite IHl, IHr. apply Permutation_middle.
Qed.

Lemma holds_nodup s L : holds s L -> NoDup L.*1.
Proof. intros (t & (_ & Hn & _) & _ & <-). rewrite <- ptrs_elems. cbn in Hn. by rewrite app_nil_r in Hn. Qed.

Lemma holds_lookup s L p a : holds s L -> (p, a) ∈ L -> exists n, m_heap s !! p = Some (n, a).
Proof.
  intros H (L1 & L2 & ->)%list_elem_of_split. destruct (holds_position _ _ _ _ _ H) as (k & c & l & r & HR & _).
  apply Rep_node in HR. eauto.
Qed.

Lemma holds_root s L : holds s L -> m_root s = None <-> L = [].
Proof.
  intros (t & (Hr & _) & _ & <-). rewrite Hr. destruct t; cbn; [done|]. split; [done|]. by destruct (elems t1).
Qed.

(** * Data *)

Lemma get_data_ok s L p a : holds s L -> (p, a) ∈ L -> get_data (Some p) s = Some (a, s).
Proof.
  intros H Hin. destruct (holds_lookup _ _ _ _ H Hin) as [n Hn]. destruct s as [ro h]. unfold get_data.
  by rewrite (bind_ok _ _ _ _ _ (load_ok _ _ _ _ Hn)).
Qed.

Lemma rb_data k : forall c l x a b r, redblack (plug k (T c l x a r)) -> redblack (plug k (T c l x b r)).
Proof.
  intros c l x a b r (c1 & n & c' & B1 & B2 & B3)%redblack_position. eapply rb_plug; [exact B2| |exact B3].
  inversion B1; subst; econstructor; eauto.
Qed.

Lemma set_data_rep s k c l p a b r :
  Rep s k (T c l p a r) ->
  exists s', set_data (Some p) b s = Some (tt, s') /\ Rep s' k (T c l p b r) /\ dom (m_heap s') = dom (m_heap s).
Proof.
  destruct s as [ro h]. intros (Hr & Hn & Hc & Hx & Hl & Hrr). cbn in Hr, Hn. subst ro. unfold set_data. rewrite (store_node_ok _ _ _ _ _ Hx).
  distinct Hn. eexists. split; [reflexivity|]. split; [|cbn [m_heap]; hdom].
  unfold Rep. cbn [m_root m_heap kroot troot sub ktop ptrs fst]. split_and!; [done|nd|heap..].
Qed.

Lemma set_data_ok s L1 p a b L2 :
  holds s (L1 ++ (p, a) :: L2) ->
  exists s', set_data (Some p) b s = Some (tt, s') /\ holds s' (L1 ++ (p, b) :: L2) /\ dom (m_heap s') = dom (m_heap s).
Proof.
  intros (k & c & l & r & HR & Hrb & -> & ->)%holds_position. apply (rb_data _ _ _ _ _ b) in Hrb.
  destruct (set_data_rep _ _ _ _ _ _ b _ HR) as (s' & E1 & R1 & D1). exists s'. split_and!; [done| |done].
  replace ((kleft k ++ elems l) ++ (p, b) :: elems r ++ kright k) with (elems (plug k (T c l p b r))) by inorder.
  by apply holds_intro.
Qed.

(** * Removal *)

Lemma erase_list s L1 p a L2 :
  holds s (L1 ++ (p, a) :: L2) -> exists s', ext2fs_rb_erase (Some p) s = Some (tt, s') /\ erased s s' (L1 ++ L2).
Proof.
  intros (k & c & l & r & HR & Hrb & -> & ->)%holds_position. destruct (erase_ok _ _ _ _ _ _ _ HR Hrb) as (s1 & E1 & I1).
  exists s1. split; [done|]. by rewrite <- !app_assoc.
Qed.

(** A node that is not in the tree may be changed, or freed. *)
Lemma holds_agree s s' L :
  m_root s' = m_root s -> (forall p, p ∈ L.*1 -> m_heap s' !! p = m_heap s !! p) -> holds s L -> holds s' L.
Proof.
  intros Hr Hh (t & (H1 & H2 & _ & H4) & Hrb & <-). exists t. split_and!; [|done|done]. unfold Rep in *.
  split_and!; [congruence|done|done|]. clear -Hh H4. cbn [ktop] in *. revert H4. generalize (None : option ptr).
  assert (Hp : forall p, p ∈ ptrs t -> m_heap s' !! p = m_heap s !! p) by (intros p; rewrite ptrs_elems; apply Hh).
  clear Hh. induction t as [|c l IHl q a r IHr]; intros par; cbn in *; [done|]. intros (Hq & Hl & Hr).
  rewrite Hp by set_solver. split_and!; [done|apply IHl; [set_solver|done]|apply IHr; [set_solver|done]].
Qed.

(** * Traversal *)

Lemma rightmost_last fuel : forall s k t, t <> E -> (length (ptrs t) < fuel)%nat -> Rep s k t ->
  rightmost fuel (troot t) s = Some (last_ptr (elems t), s).
Proof.
  induction fuel as [|fuel IH]; [lia|]. intros s k t Ht Hlen H. destruct t as [|c l p a r]; [done|].
  cbn [rightmost troot]. st (R_right _ _ _ _ _ _ _ H). unfold last_ptr. cbn [elems]. destruct r as [|cr rl rp ra rr] eqn:Hr.
  - cbn. by rewrite last_snoc.
  - rewrite <- Hr in *. pose proof (R_down_r _ _ _ _ _ _ _ H) as HR. cbn in Hlen. rewrite length_app in Hlen.
    destruct (troot r) as [q|] eqn:Hq; [|by subst r]. rewrite <- Hq. rewrite (IH _ _ r ltac:(by subst r) ltac:(lia) HR).
    f_equal. f_equal. unfold last_ptr. f_equal. rewrite last_app_cons, last_cons.
    destruct (last (elems r)) eqn:Hlast; [done|]. apply last_None in Hlast. subst r. cbn in Hlast. by destruct (elems rl).
Qed.

Lemma leftmost_first fuel : forall s k t, t <> E -> (length (ptrs t) < fuel)%nat -> Rep s k t ->
  leftmost fuel (troot t) s = Some (hd_ptr (elems t), s).
Proof.
  induction fuel as [|fuel IH]; [lia|]. intros s k t Ht Hlen H. destruct t as [|c l p a r]; [done|].
  cbn [leftmost troot]. st (R_left _ _ _ _ _ _ _ H). unfold hd_ptr. cbn [elems]. destruct l as [|cl ll lp la lr] eqn:Hl; [done|].
  rewrite <- Hl in *. pose proof (R_down_l _ _ _ _ _ _ _ H) as HR. cbn in Hlen. rewrite length_app in Hlen.
  destruct (troot l) as [q|] eqn:Hq; [|by subst l]. rewrite <- Hq. rewrite (IH _ _ l ltac:(by subst l) ltac:(lia) HR).
  f_equal. f_equal. unfold hd_ptr. f_equal. destruct (elems l) eqn:He; [|done]. subst l. cbn in He. by destruct (elems ll).
Qed.

Lemma climb_right_ok fuel : forall s k t x, troot t = Some x -> (length k < fuel)%nat -> Rep s k t ->
  climb_right fuel (Some x) s = Some (hd_ptr (kright k), s).
Proof.
  induction fuel as [|fuel IH]; [lia|]. intros s k t x Hx Hlen H. destruct t as [|c l p a r]; [done|].
  injection Hx as ->. cbn [climb_right]. st (R_parent _ _ _ _ _ _ _ H). destruct k as [|f k]; [done|]. cbn [length] in Hlen.
  cbn [ktop]. pose proof (R_up _ _ _ _ H) as HU. destruct f as [cf q b rf|cf lf q b]; cbn [fptr plug1] in *.
  - st (R_right _ _ _ _ _ _ _ HU). rewrite decide_False; [done|]. intros Heq. by pose proof (R_lf_ne _ _ _ _ _ _ _ H (eq_sym Heq)).
  - st (R_right _ _ _ _ _ _ _ HU). cbn [troot]. rewrite decide_True by done. rewrite (IH _ k (T cf _ q b _) q eq_refl ltac:(lia) HU). done.
Qed.

Lemma climb_left_ok fuel : forall s k t x, troot t = Some x -> (length k < fuel)%nat -> Rep s k t ->
  climb_left fuel (Some x) s = Some (last_ptr (kleft k), s).
Proof.
  induction fuel as [|fuel IH]; [lia|]. intros s k t x Hx Hlen H. destruct t as [|c l p a r]; [done|].
  injection Hx as ->. cbn [climb_left]. st (R_parent _ _ _ _ _ _ _ H). destruct k as [|f k]; [done|]. cbn [length] in Hlen.
  cbn [ktop]. pose proof (R_up _ _ _ _ H) as HU. destruct f as [cf q b rf|cf lf q b]; cbn [fptr plug1] in *.
  - st (R_left _ _ _ _ _ _ _ HU). cbn [troot]. rewrite decide_True by done. rewrite (IH _ k (T cf _ q b _) q eq_refl ltac:(lia) HU).
    cbn. by rewrite app_nil_r.
  - st (R_left _ _ _ _ _ _ _ HU). rewrite decide_False.
    + unfold last_ptr. cbn. by rewrite app_assoc, last_snoc.
    + intros Heq. by pose proof (R_rf_ne _ _ _ _ _ _ _ H (eq_sym Heq)).
Qed.

Lemma first_list s L : holds s L -> ext2fs_rb_first s = Some (hd_ptr L, s).
Proof.
  intros (t & HR & _ & <-). unfold ext2fs_rb_first. st (R_root _ _ _ HR). cbn [kroot]. destruct t as [|c l p a r] eqn:Ht; [done|].
  cbn [troot]. unfold mbind, M_bind, get_fuel. pose proof (Rep_size _ _ _ HR) as Hsz.
  by apply (leftmost_first _ s [] (T c l p a r)); [|lia|].
Qed.

Lemma last_list s L : holds s L -> ext2fs_rb_last s = Some (last_ptr L, s).
Proof.
  intros (t & HR & _ & <-). unfold ext2fs_rb_last. st (R_root _ _ _ HR). cbn [kroot]. destruct t as [|c l p a r] eqn:Ht; [done|].
  cbn [troot]. unfold mbind, M_bind, get_fuel. pose proof (Rep_size _ _ _ HR) as Hsz.
  by apply (rightmost_last _ s [] (T c l p a r)); [|lia|].
Qed.

Lemma R_empty_node s k c l p a r : Rep s k (T c l p a r) -> ext2fs_rb_empty_node (Some p) s = Some (false, s).
Proof.
  intros H. unfold ext2fs_rb_empty_node. st (R_parent _ _ _ _ _ _ _ H). rewrite bool_decide_eq_false_2; [done|].
  intros Hk%ktop_kptrs. destruct H as (_ & Hn & _). cbn in Hn. distinct Hn. done.
Qed.

Lemma next_list s L1 p a L2 : holds s (L1 ++ (p, a) :: L2) -> ext2fs_rb_next (Some p) s = Some (hd_ptr L2, s).
Proof.
  intros (k & c & l & r & HR & Hrb & -> & ->)%holds_position. unfold ext2fs_rb_next.
  st (R_empty_node _ _ _ _ _ _ _ HR). st (R_right _ _ _ _ _ _ _ HR). unfold mbind, M_bind, get_fuel.
  pose proof (Rep_size _ _ _ HR) as Hsz. cbn in Hsz. rewrite length_app in Hsz. destruct r as [|cr rl rp ra rr] eqn:Hr.
  - cbn [troot elems app]. eapply climb_right_ok; [|lia|exact HR]. done.
  - rewrite <- Hr in *. destruct (troot r) eqn:Hq; [|by subst r]. rewrite <- Hq.
    rewrite (leftmost_first (S (size (m_heap s))) _ _ r ltac:(by subst r) ltac:(lia) (R_down_r _ _ _ _ _ _ _ HR)). unfold hd_ptr.
    destruct (elems r) eqn:He; [|done]. subst r. cbn in He. by destruct (elems rl).
Qed.

Lemma prev_list s L1 p a L2 : holds s (L1 ++ (p, a) :: L2) -> ext2fs_rb_prev (Some p) s = Some (last_ptr L1, s).
Proof.
  intros (k & c & l & r & HR & Hrb & -> & ->)%holds_position. unfold ext2fs_rb_prev.
  st (R_empty_node _ _ _ _ _ _ _ HR). st (R_left _ _ _ _ _ _ _ HR). unfold mbind, M_bind, get_fuel.
  pose proof (Rep_size _ _ _ HR) as Hsz. cbn in Hsz. rewrite length_app in Hsz. destruct l as [|cl ll lp la lr] eqn:Hl.
  - cbn [troot elems app]. rewrite app_nil_r. eapply climb_left_ok; [|lia|exact HR]. done.
  - rewrite <- Hl in *. destruct (troot l) eqn:Hq; [|by subst l]. rewrite <- Hq.
    rewrite (rightmost_last (S (size (m_heap s))) _ _ l ltac:(by subst l) ltac:(lia) (R_down_l _ _ _ _ _ _ _ HR)). unfold last_ptr.
    rewrite last_app. destruct (last (elems l)) eqn:Hlast; [done|]. apply last_None in Hlast. subst l. cbn in Hlast. by destruct (elems ll).
Qed.

(** * Search and insertion *)

Definition klink k : link :=
  match k with [] => Lroot | Lf _ p _ _ :: _ => Lleft (Some p) | Rf _ _ p _ :: _ => Lright (Some p) end.

Lemma R_link s k t : Rep s k t -> read_link (klink k) s = Some (troot t, s).
Proof.
  intros H. destruct k as [|f k]; cbn [klink read_link].
  - by rewrite (R_root _ _ _ H).
  - apply R_up in H. destruct f; cbn [plug1 read_link] in *; [by rewrite (R_left _ _ _ _ _ _ _ H)|by rewrite (R_right _ _ _ _ _ _ _ H)].
Qed.

(** [parent] and [n] are where a node between [L1] and [L2] is to be linked. *)
Definition slot s L1 L2 (parent : option ptr) (n : link) : Prop :=
  exists k, Rep s k E /\ redblack (plug k E) /\ kleft k = L1 /\ kright k = L2 /\ parent = ktop k /\ n = klink k.

Lemma slot_holds s L1 L2 parent n : slot s L1 L2 parent n -> holds s (L1 ++ L2).
Proof.
  intros (k & HR & Hrb & <- & <- & _). replace (kleft k ++ kright k) with (elems (plug k E)) by inorder. by apply holds_intro.
Qed.

(** The parent is one of the neighbours. *)
Lemma slot_parent s L1 L2 parent n :
  slot s L1 L2 parent n -> (L1 ++ L2 = [] /\ parent = None) \/
    (exists L p a, L1 = L ++ [(p, a)] /\ parent = Some p) \/ (exists L p a, L2 = (p, a) :: L /\ parent = Some p).
Proof.
  intros (k & _ & _ & <- & <- & -> & _). destruct k as [|[c p a r|c l p a] k]; cbn; [by left|right..].
  - right. by eexists _, _, _.
  - left. eexists _, _, _. by rewrite app_assoc.
Qed.

Lemma R_data s k c l p a r : Rep s k (T c l p a r) -> get_data (Some p) s = Some (a, s).
Proof. intros H%Rep_node. destruct s as [ro h]. unfold get_data. by rewrite (bind_ok _ _ _ _ _ (load_ok _ _ _ _ H)). Qed.

Lemma search_miss_loop cmp fuel : forall s k t L1 L2,
  (length (ptrs t) < fuel)%nat -> Rep s k t -> redblack (plug k t) -> elems t = L1 ++ L2 ->
  Forall (fun e => cmp e.2 = Gt) L1 -> Forall (fun e => cmp e.2 = Lt) L2 ->
  exists parent n, search_loop fuel cmp (ktop k) (klink k) s = Some ((false, parent, n), s) /\
    slot s (kleft k ++ L1) (L2 ++ kright k) parent n.
Proof.
  induction fuel as [|fuel IH]; [lia|]. intros s k t L1 L2 Hlen HR Hrb He H1 H2. cbn [search_loop].
  st (R_link _ _ _ HR). destruct t as [|c l p a r].
  - symmetry in He. apply app_eq_nil in He as [-> ->]. eexists _, _. split; [reflexivity|]. exists k. by rewrite app_nil_r.
  - cbn [troot]. st (R_data _ _ _ _ _ _ _ HR). cbn [ptrs length] in Hlen. rewrite length_app in Hlen. cbn [elems] in He.
    apply app_eq_app in He as (m & [[E1 E2]|[E1 E2]]).
    + destruct m as [|x m].
      * rewrite app_nil_r in E1. cbn in E2. subst. apply Forall_cons in H2 as [Hc H2]. cbn [snd] in Hc. rewrite Hc.
        destruct (IH s (Lf c p a r :: k) l (elems l) []) as (pa & n & E3 & I3);
          [lia|by apply R_down_l|done|by rewrite app_nil_r|done|done|]. eexists _, _. split; [exact E3|].
        cbn in I3 |- *. rewrite ?app_nil_r, <- ?app_assoc in I3. rewrite <- ?app_assoc. exact I3.
      * subst. apply Forall_app in H2 as [H2 [H3 H4]%Forall_cons]. cbn [snd] in H3. rewrite H3.
        destruct (IH s (Lf c p a r :: k) l L1 (x :: m)) as (pa & n & E3 & I3);
          [lia|by apply R_down_l|done|done|done|done|]. eexists _, _. split; [exact E3|].
        cbn in I3 |- *. rewrite ?app_nil_r, <- ?app_assoc in I3. rewrite <- ?app_assoc. exact I3.
    + destruct m as [|x m].
      * rewrite app_nil_r in E1. cbn in E2. subst. apply Forall_cons in H2 as [Hc H2]. cbn [snd] in Hc. rewrite Hc.
        destruct (IH s (Lf c p a r :: k) l (elems l) []) as (pa & n & E3 & I3);
          [lia|by apply R_down_l|done|by rewrite app_nil_r|done|done|]. eexists _, _. split; [exact E3|].
        cbn in I3 |- *. rewrite ?app_nil_r, <- ?app_assoc in I3. rewrite <- ?app_assoc. exact I3.
      * injection E2 as <- E2. subst. apply Forall_app in H1 as [H1 [H3 H4]%Forall_cons]. cbn [snd] in H3. rewrite H3.
        destruct (IH s (Rf c l p a :: k) r m L2) as (pa & n & E3 & I3);
          [lia|by apply R_down_r|done|done|done|done|]. eexists _, _. split; [exact E3|].
        cbn in I3 |- *. rewrite ?app_nil_r, <- ?app_assoc in I3. rewrite <- ?app_assoc. exact I3.
Qed.

Lemma search_hit_loop cmp fuel : forall s k t L1 q b L2,
  (length (ptrs t) < fuel)%nat -> Rep s k t -> elems t = L1 ++ (q, b) :: L2 ->
  Forall (fun e => cmp e.2 = Gt) L1 -> cmp b = Eq -> Forall (fun e => cmp e.2 = Lt) L2 ->
  exists k' c l r, search_loop fuel cmp (ktop k) (klink k) s = Some ((true, Some q, klink k'), s) /\
    Rep s k' (T c l q b r) /\ plug k' (T c l q b r) = plug k t /\
    kleft k' ++ elems l = kleft k ++ L1 /\ elems r ++ kright k' = L2 ++ kright k.
Proof.
  induction fuel as [|fuel IH]; [lia|]. intros s k t L1 q b L2 Hlen HR He H1 Hb H2. cbn [search_loop].
  st (R_link _ _ _ HR). destruct t as [|c l p a r]; [by destruct L1|].
  cbn [troot]. st (R_data _ _ _ _ _ _ _ HR). cbn [ptrs length] in Hlen. rewrite length_app in Hlen. cbn [elems] in He.
  apply app_eq_app in He as (m & [[E1 E2]|[E1 E2]]).
  - destruct m as [|x m].
    + injection E2 as -> -> ->. rewrite Hb, app_nil_r in *. subst. by exists k, c, l, r.
    + injection E2 as <- ->. apply Forall_app in H2 as [H2 [H3 H4]%Forall_cons]. cbn [snd] in H3. rewrite H3.
      destruct (IH s (Lf c p a r :: k) l L1 q b m) as (k' & c' & l' & r' & E3 & R3 & P3 & K3 & K4);
        [lia|by apply R_down_l|done..|]. exists k', c', l', r'. split_and!; [done|done|done|rewrite K3; cbn; by rewrite app_nil_r|].
      rewrite K4. cbn. by rewrite <- !app_assoc.
  - destruct m as [|x m].
    + injection E2 as -> -> <-. rewrite Hb, app_nil_r in *. subst. by exists k, c, l, r.
    + injection E2 as <- E2. subst. apply Forall_app in H1 as [H1 [H3 H4]%Forall_cons]. cbn [snd] in H3. rewrite H3.
      destruct (IH s (Rf c l p a :: k) r m q b L2) as (k' & c' & l' & r' & E3 & R3 & P3 & K3 & K4);
        [lia|by apply R_down_r|done..|]. exists k', c', l', r'. split_and!; [done|done|done| |done].
      rewrite K3. cbn. by rewrite <- !app_assoc.
Qed.

(** Where the search starts does not depend on the parent when there is a node. *)
Lemma search_loop_parent cmp fuel s n p p1 p2 :
  read_link n s = Some (Some p, s) -> search_loop (S fuel) cmp p1 n s = search_loop (S fuel) cmp p2 n s.
Proof. intros H. cbn [search_loop]. by rewrite !(bind_ok _ _ _ _ _ H). Qed.

Lemma search_miss cmp s L1 L2 :
  holds s (L1 ++ L2) -> Forall (fun e => cmp e.2 = Gt) L1 -> Forall (fun e => cmp e.2 = Lt) L2 ->
  exists parent n, search cmp s = Some ((false, parent, n), s) /\ slot s L1 L2 parent n.
Proof.
  intros (t & HR & Hrb & He) H1 H2. unfold search, mbind, M_bind, get_fuel. pose proof (Rep_size _ _ _ HR) as Hsz. cbn in Hsz.
  destruct (search_miss_loop cmp (S (size (m_heap s))) s [] t L1 L2) as (pa & n & E3 & I3); try done; [lia|].
  eexists _, _. split; [exact E3|]. by rewrite app_nil_r in I3.
Qed.

Lemma search_hit cmp s L1 q b L2 :
  holds s (L1 ++ (q, b) :: L2) -> Forall (fun e => cmp e.2 = Gt) L1 -> cmp b = Eq -> Forall (fun e => cmp e.2 = Lt) L2 ->
  exists n, search cmp s = Some ((true, Some q, n), s).
Proof.
  intros (t & HR & Hrb & He) H1 Hb H2. unfold search, mbind, M_bind, get_fuel. pose proof (Rep_size _ _ _ HR) as Hsz. cbn in Hsz.
  destruct (search_hit_loop cmp (S (size (m_heap s))) s [] t L1 q b L2) as (k & c & l & r & E1 & _); try done; [lia|]. by exists (klink k).
Qed.

(** A new node at its place. *)
Lemma insert_list s L1 L2 parent n x n0 a :
  slot s L1 L2 parent n -> m_heap s !! x = Some (n0, a) -> x ∉ (L1 ++ L2).*1 ->
  exists s', (ext2fs_rb_link_node (Some x) parent n;; ext2fs_rb_insert_color (Some x)) s = Some (tt, s') /\
    holds s' (L1 ++ (x, a) :: L2) /\ dom (m_heap s') = dom (m_heap s).
Proof.
  intros (k & HR & Hrb & <- & <- & -> & ->) Hx Hnot. destruct s as [ro h]. cbn [m_heap] in *.
  assert (x ∉ kptrs k) as Hxk.
  { intros Hin. apply Hnot. assert (x ∈ ptrs (plug k E)) as Hp by (rewrite ptrs_plug; done).
    rewrite ptrs_elems, elems_plug in Hp. done. }
  pose proof HR as (Hr & Hn & Hc & _). cbn in Hr, Hn, Hc. subst ro.
  assert (exists s1, ext2fs_rb_link_node (Some x) (ktop k) (klink k) (mkMem (kroot k None) h) = Some (tt, s1) /\
    Rep s1 k (T RB_RED E x a E) /\ dom (m_heap s1) = dom h) as (s1 & E1 & R1 & D1).
  { unfold ext2fs_rb_link_node. rewrite (bind_ok _ _ _ _ _ (store_node_ok _ _ _ _ _ Hx)). cbn [fst snd].
    exists (mkMem (kroot k (Some x)) (hlink k (Some x) (<[x := (mkNode (ktop k) RB_RED None None, a)]> h))). split_and!.
    - destruct k as [|[c p b r|c l p b] k]; cbn [klink write_link hlink kroot]; [done|..]; destruct Hc as (Hp & _).
      all: assert (x <> p) by (unfold kptrs in Hxk; cbn in Hxk; set_solver).
      + erewrite set_left_ok by (rewrite lookup_insert_ne by done; exact Hp). done.
      + erewrite set_right_ok by (rewrite lookup_insert_ne by done; exact Hp). done.
    - unfold Rep. cbn [m_root m_heap kroot troot sub ktop ptrs app]. split_and!; [done| | | |done|done].
      + by apply NoDup_cons.
      + eapply con_hlink; [done|]. by apply con_frame.
      + rewrite lookup_hlink by done. by rewrite lookup_insert_eq.
    - cbn [m_heap]. erewrite dom_hlink by (apply con_frame; [done|exact Hc]). by eapply dom_insert_in. }
  destruct (insert_color_ok _ _ _ _ R1 Hrb) as (s2 & E2 & I2 & D2). exists s2. st E1. split_and!; [done|done|congruence].
Qed.

(** The place after the last node. *)
Lemma slot_last s L p a : holds s (L ++ [(p, a)]) -> slot s (L ++ [(p, a)]) [] (Some p) (Lright (Some p)).
Proof.
  intros (k & c & l & r & HR & Hrb & -> & He)%holds_position. symmetry in He. apply app_eq_nil in He as [He Hk].
  destruct r as [|? r1]; [|cbn in He; by destruct (elems r1)]. exists (Rf c l p a :: k).
  split_and!; [by apply R_down_r|done| |done|done|done]. cbn. by rewrite app_assoc.
Qed.

Lemma holds_empty (h : gmap ptr (rb_node * A)) : holds (mkMem None h) [].
Proof. exists E. split; [split_and!; try done; apply NoDup_nil_2|]. split; [by eexists; constructor|done]. Qed.

Lemma slot_empty s : holds s [] -> slot s [] [] None Lroot.
Proof.
  intros (t & HR & Hrb & He). destruct t as [|? r1]; [|cbn in He; by destruct (elems r1)]. by exists [].
Qed.

End lists.
