(* ===== verification/RbtreeTheorems.v ===== *)
(** What the red-black-tree library guarantees: insertion and removal keep a red-black tree of
    the nodes in order, the walk visits them in order, and a search looks at no more than
    logarithmically many. *)
From Stdlib Require Import ZArith Lia.
From stdpp Require Import base tactics numbers list gmap.
From S2P Require Import Prelude Rbtree RbtreeProofs RbtreeBalance RbtreeErase RbtreeList.

(** * Depth *)

Section depth.
Context {A : Type}.
Implicit Types (t l r : tree A) (k : ctx A) (s : mem A) (L : list (ptr * A)).

Fixpoint height t : nat := match t with E => 0%nat | T _ l _ _ r => S (height l `max` height r) end.

(** The black height bounds the height from above and the number of nodes from below. *)
Lemma rb_height c n t : rb c n t -> (height t <= 2 * n + (if c is RB_RED then 1 else 0))%nat.
Proof.
  induction 1 as [|n l p a r _ IHl _ IHr|n cl cr l p a r _ IHl _ IHr]; cbn [height]; [lia|lia|]. destruct cl, cr; lia.
Qed.

Lemma rb_nodes c n t : rb c n t -> (2 ^ n <= S (length (elems t)))%nat.
Proof.
  induction 1 as [|n l p a r _ IHl _ IHr|n cl cr l p a r _ IHl _ IHr]; cbn [elems]; rewrite ?length_app; cbn [length]; [done|lia|].
  rewrite Nat.pow_succ_r'. lia.
Qed.

Lemma redblack_height t : redblack t -> (height t <= 2 * Nat.log2 (S (length (elems t))))%nat.
Proof.
  intros [n H]. pose proof (rb_height _ _ _ H) as H1. pose proof (rb_nodes _ _ _ H) as H2.
  apply Nat.log2_le_mono in H2. rewrite Nat.log2_pow2 in H2 by lia. cbn in H1. lia.
Qed.

(** A search goes down one level in each turn, whatever it compares. *)
Lemma search_depth (cmp : A -> comparison) fuel : forall s k t, (height t < fuel)%nat -> Rep s k t ->
  exists o, search_loop fuel cmp (ktop k) (klink k) s = Some (o, s).
Proof.
  induction fuel as [|fuel IH]; [lia|]. intros s k t Hh HR. cbn [search_loop]. st (R_link _ _ _ HR).
  destruct t as [|c l p a r]; cbn [troot]; [by eexists|]. st (R_data _ _ _ _ _ _ _ HR). cbn [height] in Hh. destruct (cmp a).
  - by eexists.
  - apply (IH s (Lf c p a r :: k) l); [lia|by apply R_down_l].
  - apply (IH s (Rf c l p a :: k) r); [lia|by apply R_down_r].
Qed.

Lemma search_more (cmp : A -> comparison) fuel : forall m parent n s x,
  search_loop fuel cmp parent n s = Some x -> (fuel <= m)%nat -> search_loop m cmp parent n s = Some x.
Proof.
  induction fuel as [|fuel IH]; intros [|m] parent n s x H Hm; [done|done|lia|]. cbn [search_loop] in *. unfold mbind, M_bind in *.
  destruct (read_link n s) as [[[q|] s1]|]; [|done|done]. destruct (get_data (Some q) s1) as [[a s2]|]; [|done].
  destruct (cmp a); [done|apply IH; [done|lia]..].
Qed.

End depth.

(** * Theorems *)

Section theorems.
Context {A : Type}.
Implicit Types (s : mem A) (L : list (ptr * A)).

(** C19: Insertion as its users do it (search for the place, [ext2fs_rb_link_node],
    [ext2fs_rb_insert_color]): when the comparison puts the new node between [L1] and [L2], all of
    it runs without access to a null or dangling pointer and leaves a red-black tree, with the
    same set of nodes in memory, whose nodes in order are those of [L1], the new one and those of
    [L2], each with its data. *)
Theorem rb_insert_spec (cmp : A -> comparison) s L1 L2 x n0 a :
  holds s (L1 ++ L2) -> Forall (fun e => cmp e.2 = Gt) L1 -> Forall (fun e => cmp e.2 = Lt) L2 ->
  m_heap s !! x = Some (n0, a) -> x ∉ (L1 ++ L2).*1 ->
  exists s', ('(_, parent, n) ← search cmp; ext2fs_rb_link_node (Some x) parent n;; ext2fs_rb_insert_color (Some x)) s = Some (tt, s') /\
    holds s' (L1 ++ (x, a) :: L2) /\ dom (m_heap s') = dom (m_heap s).
Proof.
  intros H H1 H2 Hx Hnot. destruct (search_miss cmp s L1 L2 H H1 H2) as (parent & n & E1 & Hsl). rewrite (bind_ok _ _ _ _ _ E1).
  by apply insert_list with n0.
Qed.

(** C20: [ext2fs_rb_erase] of any node of the tree runs without access to a null or dangling
    pointer and leaves a red-black tree of the other nodes, in the same order and with their
    data; the erased node stays in memory for its owner to free. *)
Theorem rb_erase_spec s L1 p a L2 :
  holds s (L1 ++ (p, a) :: L2) ->
  exists s', ext2fs_rb_erase (Some p) s = Some (tt, s') /\ holds s' (L1 ++ L2) /\ dom (m_heap s') = dom (m_heap s).
Proof. intros H. destruct (erase_list _ _ _ _ _ H) as (s' & E1 & H1 & H2). by exists s'. Qed.

(** [ext2fs_rb_first], [ext2fs_rb_last], [ext2fs_rb_next] and [ext2fs_rb_prev] walk over the nodes in
    order and change nothing. *)
Theorem rb_walk_spec s L :
  holds s L ->
  ext2fs_rb_first s = Some (hd_ptr L, s) /\ ext2fs_rb_last s = Some (last_ptr L, s) /\
  forall L1 p a L2, L = L1 ++ (p, a) :: L2 ->
    ext2fs_rb_next (Some p) s = Some (hd_ptr L2, s) /\ ext2fs_rb_prev (Some p) s = Some (last_ptr L1, s).
Proof.
  intros H. split_and!; [by apply first_list|by apply last_list|]. intros L1 p a L2 ->. split; [by eapply next_list|by eapply prev_list].
Qed.

(** C21: A search in a red-black tree of [n] nodes ends after at most [2 log2 (n + 1)] nodes,
    whatever the comparison answers: that many turns of its loop, and one for the null link, give
    the result of the unbounded loop, and nothing in memory changes. *)
Theorem search_logarithmic (cmp : A -> comparison) s L :
  holds s L ->
  exists r, search_loop (S (2 * Nat.log2 (S (length L)))) cmp None Lroot s = Some (r, s) /\
    forall fuel, (2 * Nat.log2 (S (length L)) < fuel)%nat -> search_loop fuel cmp None Lroot s = Some (r, s).
Proof.
  intros (t & HR & Hrb & <-). pose proof (redblack_height t Hrb) as Hh.
  destruct (search_depth cmp (S (2 * Nat.log2 (S (length (elems t))))) s [] t) as [r Hr]; [lia|done|].
  exists r. split; [done|]. intros fuel Hf. eapply search_more; [exact Hr|lia].
Qed.

End theorems.

(** * Witnesses *)

(** A tree of the numbers 1 to [n], inserted in order: node [i] carries [i]. *)
Definition number_cmp (x y : Z) : comparison := Z.compare x y.

Definition add_number (x : positive) (s : mem Z) : option (mem Z) :=
  let s := mkMem (m_root s) (<[x := (mkNode None RB_RED None None, Z.pos x)]> (m_heap s)) in
  snd <$> ('(_, parent, n) ← search (number_cmp (Z.pos x)); ext2fs_rb_link_node (Some x) parent n;; ext2fs_rb_insert_color (Some x)) s.

Fixpoint number_tree (n : nat) : option (mem Z) :=
  match n with
  | O => Some (mkMem None ∅)
  | S n' => s ← number_tree n'; add_number (Pos.of_nat n) s
  end.

Definition numbers (n : nat) : list (ptr * Z) := (fun i => (Pos.of_nat i, Z.of_nat i)) <$> seq 1 n.

Lemma numbers_S n : numbers (S n) = numbers n ++ [(Pos.of_nat (S n), Z.of_nat (S n))].
Proof. unfold numbers. rewrite seq_S, fmap_app. done. Qed.

Lemma elem_numbers n p a : (p, a) ∈ numbers n -> 1 <= a <= Z.of_nat n /\ Z.pos p = a.
Proof. unfold numbers. intros (i & [= -> ->] & Hi)%list_elem_of_fmap. apply elem_of_seq in Hi. lia. Qed.

Lemma fresh_number n : Pos.of_nat (S n) ∉ (numbers n).*1.
Proof. intros ([p a] & Hp & Hin)%list_elem_of_fmap. apply elem_numbers in Hin. cbn in Hp. lia. Qed.

Lemma number_tree_holds n : exists s, number_tree n = Some s /\ holds s (numbers n).
Proof.
  induction n as [|n (s & E1 & IH)]; [exists (mkMem None ∅); split; [done|]; apply holds_empty|].
  set (x := Pos.of_nat (S n)). set (s1 := mkMem (m_root s) (<[x := (mkNode None RB_RED None None, Z.pos x)]> (m_heap s))).
  assert (H1 : holds s1 (numbers n ++ [])).
  { rewrite app_nil_r. eapply holds_agree; [..|exact IH]; [done|]. intros q Hq. cbn. apply lookup_insert_ne. intros <-.
    by apply (fresh_number n). }
  assert (HG : Forall (fun e => number_cmp (Z.pos x) e.2 = Gt) (numbers n)).
  { apply Forall_forall. intros [p a] Hin%elem_numbers. cbn [snd]. apply Z.compare_gt_iff. lia. }
  destruct (search_miss (number_cmp (Z.pos x)) s1 (numbers n) [] H1 HG ltac:(constructor)) as (pa & l & E2 & Hsl).
  destruct (insert_list s1 _ _ _ _ x (mkNode None RB_RED None None) (Z.pos x) Hsl) as (s2 & E3 & H2 & _).
  { apply lookup_insert_eq. } { rewrite app_nil_r. apply fresh_number. }
  exists s2. split.
  - cbn [number_tree]. rewrite E1. cbn [mbind option_bind]. unfold add_number. fold x s1. rewrite (bind_ok _ _ _ _ _ E2), E3. done.
  - rewrite numbers_S. by replace (Z.of_nat (S n)) with (Z.pos x) by lia.
Qed.

(** The nodes in order, as the walk of the library finds them. *)
Fixpoint walk (fuel : nat) (p : option ptr) (s : mem Z) : list Z :=
  match fuel, p with
  | S fuel', Some q =>
      match get_data p s, ext2fs_rb_next p s with
      | Some (a, _), Some (next, _) => a :: walk fuel' next s
      | _, _ => []
      end
  | _, _ => []
  end.

Definition contents (s : mem Z) : list Z := match ext2fs_rb_first s with Some (p, _) => walk (size (m_heap s)) p s | None => [] end.

(** Twenty numbers, in order; 7 is the first to go. *)
Example numbers_ex :
  contents <$> number_tree 20 = Some (seqZ 1 20) /\
  (s ← number_tree 20; '(_, s) ← ext2fs_rb_erase (Some 7%positive) s; Some (contents s)) = Some (seqZ 1 6 ++ seqZ 8 13).
Proof. vm_compute. split; reflexivity. Qed.

Lemma rb_insert_spec_witness :
  match number_tree 20 with
  | Some s =>
      exists s', ('(_, parent, n) ← search (number_cmp 99); ext2fs_rb_link_node (Some 99%positive) parent n;; ext2fs_rb_insert_color (Some 99%positive))
        (mkMem (m_root s) (<[99%positive := (mkNode None RB_RED None None, 99)]> (m_heap s))) = Some (tt, s') /\
        holds s' (numbers 20 ++ [(99%positive, 99)])
  | None => False
  end.
Proof.
  destruct (number_tree_holds 20) as (s & -> & Hs).
  destruct (rb_insert_spec (number_cmp 99) (mkMem (m_root s) (<[99%positive := (mkNode None RB_RED None None, 99)]> (m_heap s)))
    (numbers 20) [] 99%positive (mkNode None RB_RED None None) 99) as (s' & E1 & H1 & _).
  - rewrite app_nil_r. eapply holds_agree; [..|exact Hs]; [done|]. intros q Hq. cbn. apply lookup_insert_ne. intros <-.
    revert Hq. apply (bool_decide_unpack _). vm_compute. exact I.
  - apply (bool_decide_unpack _). vm_compute. exact I.
  - constructor.
  - apply lookup_insert_eq.
  - apply (bool_decide_unpack _). vm_compute. exact I.
  - by exists s'.
Defined.

Lemma rb_erase_spec_witness :
  match number_tree 20 with
  | Some s => exists s', ext2fs_rb_erase (Some 7%positive) s = Some (tt, s') /\ holds s' (take 6 (numbers 20) ++ drop 7 (numbers 20))
  | None => False
  end.
Proof.
  destruct (number_tree_holds 20) as (s & -> & Hs).
  destruct (rb_erase_spec s (take 6 (numbers 20)) 7%positive 7 (drop 7 (numbers 20)) Hs) as (s' & E1 & H1 & _). by exists s'.
Defined.

Lemma rb_walk_spec_witness :
  match number_tree 20 with Some s => ext2fs_rb_next (Some 7%positive) s = Some (Some 8%positive, s) | None => False end.
Proof.
  destruct (number_tree_holds 20) as (s & -> & Hs). destruct (rb_walk_spec s _ Hs) as (_ & _ & H).
  exact (proj1 (H (take 6 (numbers 20)) 7%positive 7 (drop 7 (numbers 20)) eq_refl)).
Defined.

(** Eight nodes are enough in a tree of twenty. *)
Lemma search_logarithmic_witness :
  match number_tree 20 with
  | Some s => exists r, search_loop 9 (number_cmp 13) None Lroot s = Some (r, s)
  | None => False
  end.
Proof.
  destruct (number_tree_holds 20) as (s & -> & Hs). destruct (search_logarithmic (number_cmp 13) s _ Hs) as (r & H & _). exists r. exact H.
Defined.
