(* ===== verification/RbBitmap.v ===== *)
(** Bitmaps as red-black trees of extents: [rfsck-ext/lib/ext2fs/blkmap64_rb.c].

    A bitmap is its range and the private data: the tree in memory and three cursors, which
    cache the extent written last, the extent found last and the one after it.  A function is
    an element of the state monad [B]; besides a value its result may be the process's
    [abort()] or a [Fault], the access to a null or freed extent.  Numbers are 64-bit. *)
From Stdlib Require Import ZArith Lia.
From stdpp Require Import base tactics numbers list gmap.
From S2P Require Import Prelude ExtErr Bitops Rbtree RbtreeList.

(** [struct bmap_rb_extent], beside its [node] *)
Record bmap_rb_extent := mkExt {
  x_start : Z;
  x_count : Z
}.

(** [ext->start + ext->count] *)
Definition x_end (e : bmap_rb_extent) : Z := u64 (x_start e + x_count e).

Abbreviation xmem := (mem bmap_rb_extent).

(** [struct ext2fs_rb_private], without the statistics *)
Record ext2fs_rb_private := mkBp {
  bp_mem : xmem;
  wcursor : option ptr;
  rcursor : option ptr;
  rcursor_next : option ptr
}.

Inductive res (X : Type) : Type :=
| Ret (x : X) (bp : ext2fs_rb_private)
| Aborted
| Fault.
Arguments Ret {X}.
Arguments Aborted {X}.
Arguments Fault {X}.

Definition B (X : Type) : Type := ext2fs_rb_private -> res X.

#[global] Instance B_ret : MRet B := fun X x bp => Ret x bp.
#[global] Instance B_bind : MBind B := fun X Y k m bp =>
  match m bp with Ret x bp' => k x bp' | Aborted => Aborted | Fault => Fault end.

Definition set_mem (m : xmem) (bp : ext2fs_rb_private) : ext2fs_rb_private :=
  mkBp m (wcursor bp) (rcursor bp) (rcursor_next bp).

(** A function of the tree library. *)
Definition tree_op {X} (f : M bmap_rb_extent X) : B X := fun bp =>
  match f (bp_mem bp) with Some (x, m) => Ret x (set_mem m bp) | None => Fault end.

Definition get_wcursor : B (option ptr) := fun bp => Ret (wcursor bp) bp.
Definition get_rcursor : B (option ptr) := fun bp => Ret (rcursor bp) bp.
Definition get_rcursor_next : B (option ptr) := fun bp => Ret (rcursor_next bp) bp.
Definition set_wcursor (p : option ptr) : B unit := fun bp => Ret tt (mkBp (bp_mem bp) p (rcursor bp) (rcursor_next bp)).
Definition set_rcursor (p : option ptr) : B unit := fun bp => Ret tt (mkBp (bp_mem bp) (wcursor bp) p (rcursor_next bp)).
Definition set_rcursor_next (p : option ptr) : B unit := fun bp => Ret tt (mkBp (bp_mem bp) (wcursor bp) (rcursor bp) p).

Definition node_to_extent (node : option ptr) : B bmap_rb_extent := tree_op (get_data node).
Definition write_extent (node : option ptr) (e : bmap_rb_extent) : B unit := tree_op (set_data node e).
Definition next_of (node : option ptr) : B (option ptr) := tree_op (ext2fs_rb_next node).
Definition prev_of (node : option ptr) : B (option ptr) := tree_op (ext2fs_rb_prev node).
(** A bound on the turns of a loop over the nodes. *)
Definition nodes_fuel : B nat := tree_op get_fuel.

(** * Memory *)

(** [rb_get_new_extent]: [mem] says whether there is memory.  The node inside is written by
    [ext2fs_rb_link_node] before it is read. *)
Definition new_node : rb_node := mkNode None RB_RED None None.

Definition rb_get_new_extent (mem : bool) (start count : Z) : B (option ptr) := fun bp =>
  if mem then
    let p := fresh (dom (m_heap (bp_mem bp))) in
    Ret (Some p) (set_mem (mkMem (m_root (bp_mem bp)) (<[p := (new_node, mkExt start count)]> (m_heap (bp_mem bp)))) bp)
  else Aborted.

(** [ext2fs_free_mem] of an extent *)
Definition free_mem (p : option ptr) : B unit := fun bp =>
  match p with
  | Some q => Ret tt (set_mem (mkMem (m_root (bp_mem bp)) (delete q (m_heap (bp_mem bp)))) bp)
  | None => Ret tt bp
  end.

Definition rb_free_extent (ext : option ptr) : B unit :=
  w ← get_wcursor;
  (if decide (w = ext) then set_wcursor None else mret tt);;
  r ← get_rcursor;
  (if decide (r = ext) then set_rcursor None else mret tt);;
  n ← get_rcursor_next;
  (if decide (n = ext) then set_rcursor_next None else mret tt);;
  free_mem ext.

(** [ext2fs_rb_erase] and [rb_free_extent], which always come together. *)
Definition drop_extent (ext : option ptr) : B unit :=
  tree_op (ext2fs_rb_erase ext);;
  rb_free_extent ext.

(** [for (node = first; node; node = next) { next = rb_next(node); erase; free }] *)
Fixpoint free_tree_loop (fuel : nat) (node : option ptr) : B unit :=
  match fuel with
  | O => fun _ => Fault
  | S fuel' =>
      match node with
      | None => mret tt
      | Some _ =>
          next ← next_of node;
          tree_op (ext2fs_rb_erase node);;
          free_mem node;;
          free_tree_loop fuel' next
      end
  end.

Definition rb_free_tree : B unit :=
  fuel ← nodes_fuel;
  node ← tree_op ext2fs_rb_first;
  free_tree_loop (S fuel) node.

(** * Insertion *)

(** The loop that merges the extents to the right of [new_node] into [start, start + count). *)
Fixpoint merge_loop (fuel : nat) (node : option ptr) (start count : Z) : B Z :=
  match fuel with
  | O => fun _ => Fault
  | S fuel' =>
      match node with
      | None => mret count
      | Some _ =>
          next ← next_of node;
          ext ← node_to_extent node;
          if decide (x_end ext <= start) then merge_loop fuel' next start count
          else if decide (u64 (start + count) < x_start ext) then mret count
          else if decide (u64 (start + count) >= x_end ext) then
            drop_extent node;;
            merge_loop fuel' next start count
          else
            drop_extent node;;
            mret (u64 (count + u64 (x_end ext - u64 (start + count))))
      end
  end.

(** From [skip_insert] on. *)
Definition skip_insert (new_ext : option ptr) (start count retval : Z) : B Z :=
  node ← next_of new_ext;
  fuel ← nodes_fuel;
  count ← merge_loop (S fuel) node start count;
  write_extent new_ext (mkExt start count);;
  mret retval.

(** From [got_extent] on. *)
Definition got_extent (p : option ptr) (start count : Z) : B Z :=
  ext ← node_to_extent p;
  if decide (u64 (start + count) <= x_end ext) then mret 1
  else
    let retval := if decide (x_end ext = start) then 0 else 1 in
    skip_insert p (x_start ext) (u64 (count + u64 (start - x_start ext))) retval.

Definition insert_cmp (start : Z) (ext : bmap_rb_extent) : comparison :=
  if decide (start < x_start ext) then Lt else if decide (start > x_end ext) then Gt else Eq.

Definition rb_insert_new (mem : bool) (start count : Z) (parent : option ptr) (n : link) : B Z :=
  new_ext ← rb_get_new_extent mem start count;
  tree_op (ext2fs_rb_link_node new_ext parent n;; ext2fs_rb_insert_color new_ext);;
  set_wcursor new_ext;;
  node ← prev_of new_ext;
  '(start, count) ← (match node with
                     | Some _ =>
                         ext ← node_to_extent node;
                         if decide (x_end ext = start) then
                           drop_extent node;;
                           mret (x_start ext, u64 (count + x_count ext))
                         else mret (start, count)
                     | None => mret (start, count)
                     end);
  skip_insert new_ext start count 0.

Definition rb_insert_extent (mem : bool) (start count : Z) : B Z :=
  set_rcursor_next None;;
  w ← get_wcursor;
  hit ← (match w with
         | Some _ => ext ← node_to_extent w; mret (bool_decide (start >= x_start ext) && bool_decide (start <= x_end ext))
         | None => mret false
         end);
  if (hit : bool) then got_extent w start count
  else
    '(found, parent, n) ← tree_op (search (insert_cmp start));
    if (found : bool) then got_extent parent start count
    else rb_insert_new mem start count parent n.

(** * Removal *)

(** The loop over the extents to the right. *)
Fixpoint remove_right (fuel : nat) (parent : option ptr) (start count retval : Z) : B Z :=
  match fuel with
  | O => fun _ => Fault
  | S fuel' =>
      match parent with
      | None => mret retval
      | Some _ =>
          node ← next_of parent;
          ext ← node_to_extent parent;
          if decide (x_end ext <= start) then remove_right fuel' node start count retval
          else if decide (u64 (start + count) < x_start ext) then mret retval
          else if decide (u64 (start + count) >= x_end ext) then
            drop_extent parent;;
            remove_right fuel' node start count 1
          else
            write_extent parent
              (mkExt (u64 (start + count)) (u64 (x_count ext - u64 (u64 (start + count) - x_start ext))));;
            mret 1
      end
  end.

(** [bit < ext->start], [bit >= ext->start + ext->count], or found. *)
Definition extent_cmp (bit : Z) (ext : bmap_rb_extent) : comparison :=
  if decide (bit < x_start ext) then Lt else if decide (bit >= x_end ext) then Gt else Eq.

(** The search from the link [n] on.  An extent that is cut at its end is left in place and the
    search goes on from the same link; the result is a value to return, or [retval] and the
    node the second loop starts from. *)
Fixpoint remove_search (fuel : nat) (mem : bool) (start count retval : Z) (parent : option ptr) (n : link) : B (Z + Z * option ptr) :=
  match fuel with
  | O => fun _ => Fault
  | S fuel' =>
      nf ← nodes_fuel;
      '(found, parent, n) ← tree_op (search_loop (S nf) (extent_cmp start) parent n);
      if negb found then mret (inr (retval, parent))
      else
        ext ← node_to_extent parent;
        if bool_decide (start > x_start ext) && bool_decide (u64 (start + count) < x_end ext) then
          let new_start := u64 (start + count) in
          let new_count := u64 (x_end ext - new_start) in
          write_extent parent (mkExt (x_start ext) (u64 (start - x_start ext)));;
          rb_insert_extent mem new_start new_count;;
          mret (inl 1)
        else
          '(ext, retval) ← (if decide (u64 (start + count) >= x_end ext) then
                              let ext := mkExt (x_start ext) (u64 (start - x_start ext)) in
                              write_extent parent ext;;
                              mret (ext, 1)
                            else mret (ext, retval));
          if decide (0 = x_count ext) then
            next ← next_of parent;
            drop_extent parent;;
            mret (inr (retval, next))
          else if decide (start = x_start ext) then
            write_extent parent (mkExt (u64 (x_start ext + count)) (u64 (x_count ext - count)));;
            mret (inl 1)
          else remove_search fuel' mem start count retval parent n
  end.

Definition rb_remove_extent (mem : bool) (start count : Z) : B Z :=
  empty ← tree_op ext2fs_rb_empty_root;
  if (empty : bool) then mret 0
  else
    fuel ← nodes_fuel;
    r ← remove_search (S (S fuel)) mem start count 0 None Lroot;
    match r with
    | inl retval => mret retval
    | inr (retval, parent) => remove_right (S fuel) parent start count retval
    end.

(** * Tests and searches *)

Definition inside (bit : Z) (e : bmap_rb_extent) : bool := bool_decide (bit >= x_start e) && bool_decide (bit < x_end e).

(** From [search_tree] on. *)
Definition search_tree (bit : Z) : B Z :=
  '(found, p, _) ← tree_op (search (extent_cmp bit));
  if (found : bool) then set_rcursor p;; set_rcursor_next None;; mret 1 else mret 0.

Definition rb_test_bit (bit : Z) : B Z :=
  r ← get_rcursor;
  match r with
  | None => search_tree bit
  | Some _ =>
      e ← node_to_extent r;
      if inside bit e then mret 1
      else
        n ← get_rcursor_next;
        next_ext ← (match n with
                    | Some _ => mret n
                    | None => next ← next_of r; set_rcursor_next next;; mret next
                    end);
        gap ← (match next_ext with
               | Some _ => ne ← node_to_extent next_ext;
                           mret (bool_decide (bit >= x_end e) && bool_decide (bit < x_start ne))
               | None => mret false
               end);
        if (gap : bool) then mret 0
        else
          set_rcursor None;;
          set_rcursor_next None;;
          w ← get_wcursor;
          match w with
          | None => search_tree bit
          | Some _ => e ← node_to_extent w; if inside bit e then mret 1 else search_tree bit
          end
  end.

(** [rb_test_clear_bmap_extent] on relative numbers: the loop from the node [node]. *)
Fixpoint test_clear_loop (fuel : nat) (node : option ptr) (start len : Z) : B Z :=
  match fuel with
  | O => fun _ => Fault
  | S fuel' =>
      match node with
      | None => mret 1
      | Some _ =>
          next ← next_of node;
          ext ← node_to_extent node;
          if decide (x_end ext <= start) then test_clear_loop fuel' next start len
          else if decide (u64 (start + len) <= x_start ext) then mret 1
          else mret 0
      end
  end.

Definition test_clear (start len : Z) : B Z :=
  empty ← tree_op ext2fs_rb_empty_root;
  if bool_decide (len = 0) || empty then mret 1
  else
    '(found, parent, _) ← tree_op (search (extent_cmp start));
    if (found : bool) then mret 0
    else fuel ← nodes_fuel; test_clear_loop (S fuel) parent start len.

(** [rb_find_first_zero] and [rb_find_first_set] on relative numbers. *)
Definition find_zero (start end_ : Z) : B (Z * option Z) :=
  if decide (start > end_) then mret (EINVAL, None)
  else
    empty ← tree_op ext2fs_rb_empty_root;
    if (empty : bool) then mret (ENOENT, None)
    else
      '(found, p, _) ← tree_op (search (extent_cmp start));
      if (found : bool) then
        ext ← node_to_extent p;
        mret (if decide (x_end ext <= end_) then (0, Some (x_end ext)) else (ENOENT, None))
      else mret (0, Some start).

Definition find_set (start end_ : Z) : B (Z * option Z) :=
  if decide (start > end_) then mret (EINVAL, None)
  else
    empty ← tree_op ext2fs_rb_empty_root;
    if (empty : bool) then mret (ENOENT, None)
    else
      '(found, node, _) ← tree_op (search (extent_cmp start));
      if (found : bool) then mret (0, Some start)
      else
        ext ← node_to_extent node;
        let check (e : bmap_rb_extent) := if decide (x_start e <= end_) then (0, Some (x_start e)) else (ENOENT, None) in
        if decide (x_start ext < start) then
          node ← next_of node;
          match node with
          | None => mret (ENOENT, None)
          | Some _ => ext ← node_to_extent node; mret (check ext)
          end
        else mret (check ext).

(** * Ranges of bits as bytes *)

(** The loop of [rb_set_bmap_range]; [base] is [start - bitmap->start]. *)
Fixpoint set_range_loop (fuel : nat) (mem : bool) (base num : Z) (inp : list Z) (i first_set : Z) : B Z :=
  match fuel with
  | O => mret first_set
  | S fuel' =>
      if decide (i < num) then
        let c := byte_at inp (i / 8) in
        if bool_decide (Z.land i 7 = 0) && bool_decide (c = 0xff) then
          set_range_loop fuel' mem base num inp (i + 8) (if decide (first_set = -1) then s32 i else first_set)
        else if bool_decide (Z.land i 7 = 0) && (bool_decide (c = 0) && bool_decide (first_set = -1)) then
          set_range_loop fuel' mem base num inp (i + 8) first_set
        else if decide (ext2fs_test_bit64 i inp <> 0) then
          set_range_loop fuel' mem base num inp (i + 1) (if decide (first_set = -1) then s32 i else first_set)
        else if decide (first_set = -1) then set_range_loop fuel' mem base num inp (i + 1) first_set
        else
          rb_insert_extent mem (u64 (base + first_set)) (u64 (i - first_set));;
          set_range_loop fuel' mem base num inp (i + 1) (-1)
      else mret first_set
  end.

Definition set_range (mem : bool) (base num : Z) (inp : list Z) : B Z :=
  first_set ← set_range_loop (Z.to_nat num) mem base num inp 0 (-1);
  (if decide (first_set <> -1)
   then rb_insert_extent mem (u64 (base + first_set)) (u64 (num - first_set));; mret tt
   else mret tt);;
  mret 0.

(** The inner loop of [rb_get_bmap_range]: whole bytes where it can, single bits elsewhere. *)
Fixpoint fill_loop (fuel : nat) (start pos count : Z) (out : list Z) : list Z :=
  match fuel with
  | O => out
  | S fuel' =>
      if decide (count > 0) then
        if bool_decide (count >= 8) && bool_decide (u64 (pos - start) mod 8 = 0) then
          let nbytes := s32 (Z.shiftr count 3) in
          let offset := s32 (Z.shiftr (u64 (pos - start)) 3) in
          fill_loop fuel' start (u64 (pos + 8 * nbytes)) (u64 (count - 8 * nbytes))
            (zsplice offset (replicate (Z.to_nat nbytes) 0xff) out)
        else fill_loop fuel' start (u64 (pos + 1)) (count - 1) (ext2fs_fast_set_bit64 (u64 (pos - start)) out)
      else out
  end.

(** The part of an extent inside [start, start + num); [None] ends the loop. *)
Definition clip (start num : Z) (e : bmap_rb_extent) : option (option (Z * Z)) :=
  let pos := x_start e in
  let count := x_count e in
  if decide (pos >= u64 (start + num)) then None
  else if bool_decide (pos < start) && bool_decide (u64 (pos + count) < start) then Some None
  else
    let '(pos, count) := if decide (pos < start) then (start, u64 (count - u64 (start - pos))) else (pos, count) in
    let count := if decide (u64 (pos + count) > u64 (start + num)) then u64 (u64 (start + num) - pos) else count in
    Some (Some (pos, count)).

Fixpoint get_range_loop (fuel : nat) (parent : option ptr) (start num : Z) (out : list Z) : B (list Z) :=
  match fuel with
  | O => fun _ => Fault
  | S fuel' =>
      match parent with
      | None => mret out
      | Some _ =>
          next ← next_of parent;
          ext ← node_to_extent parent;
          match clip start num ext with
          | None => mret out
          | Some None => get_range_loop fuel' next start num out
          | Some (Some (pos, count)) =>
              get_range_loop fuel' next start num (fill_loop (Z.to_nat count) start pos count out)
          end
      end
  end.

(** [out] is the buffer, which an empty tree leaves as it is. *)
Definition get_range (start num : Z) (out : list Z) : B (list Z) :=
  empty ← tree_op ext2fs_rb_empty_root;
  if (empty : bool) then mret out
  else
    '(_, parent, _) ← tree_op (search (extent_cmp start));
    let size := Z.shiftr (u64 (num + 7)) 3 in
    fuel ← nodes_fuel;
    get_range_loop (S fuel) parent start num (zsplice 0 (replicate (Z.to_nat size) 0) out).

(** * The bitmap *)

Record rb_bitmap := mkRb {
  rb_start : Z;
  rb_end : Z;
  rb_real_end : Z;
  rb_private : ext2fs_rb_private
}.

Definition empty_private : ext2fs_rb_private := mkBp (mkMem None ∅) None None None.

Definition set_private (bp : ext2fs_rb_private) (b : rb_bitmap) : rb_bitmap :=
  mkRb (rb_start b) (rb_end b) (rb_real_end b) bp.

(** A function of the private data, run on a bitmap: its value and the new bitmap. *)
Definition run {X} (m : B X) (b : rb_bitmap) : option (X * rb_bitmap) :=
  match m (rb_private b) with Ret x bp => Some (x, set_private bp b) | _ => None end.

Definition rb_alloc_private_data (mem : bool) (b : rb_bitmap) : Z * rb_bitmap :=
  if mem then (0, set_private empty_private b) else (EXT2_ET_NO_MEMORY, b).

Definition rb_new_bmap (mem : bool) (b : rb_bitmap) : Z * rb_bitmap :=
  let '(retval, b) := rb_alloc_private_data mem b in
  if decide (retval <> 0) then (retval, b) else (0, b).

(** [rb_free_bmap]: what is left of the extents. *)
Definition rb_free_bmap (b : rb_bitmap) : option (gmap ptr (rb_node * bmap_rb_extent)) :=
  (fun '(_, b) => m_heap (bp_mem (rb_private b))) <$> run rb_free_tree b.

(** The loop of [rb_copy_bmap] over the source [src]; [mem i] says whether there is memory for
    the [i]-th copy. *)
Fixpoint copy_loop (fuel : nat) (mem : nat -> bool) (i : nat) (src : xmem) (src_node : option ptr) : B Z :=
  match fuel with
  | O => fun _ => Fault
  | S fuel' =>
      match src_node with
      | None => mret 0
      | Some _ =>
          match get_data src_node src with
          | None => fun _ => Fault
          | Some (e, _) =>
              if mem i then
                dest_node ← rb_get_new_extent true (x_start e) (x_count e);
                root ← tree_op get_root;
                '(dest_last, n) ← (match root with
                                   | Some _ => l ← tree_op ext2fs_rb_last; mret (l, Lright l)
                                   | None => mret (None, Lroot)
                                   end);
                tree_op (ext2fs_rb_link_node dest_node dest_last n;; ext2fs_rb_insert_color dest_node);;
                match ext2fs_rb_next src_node src with
                | None => fun _ => Fault
                | Some (next, _) => copy_loop fuel' mem (S i) src next
                end
              else mret EXT2_ET_NO_MEMORY
          end
      end
  end.

(** The code, the source (whose cursor is reset) and the copy; [dest] is a bitmap without
    private data. *)
Definition rb_copy_bmap (mem0 : bool) (mem : nat -> bool) (src dest : rb_bitmap) : option (Z * rb_bitmap * rb_bitmap) :=
  let '(retval, dest) := rb_alloc_private_data mem0 dest in
  if decide (retval <> 0) then Some (retval, src, dest)
  else
    let sbp := rb_private src in
    let src := set_private (mkBp (bp_mem sbp) (wcursor sbp) None (rcursor_next sbp)) src in
    match ext2fs_rb_first (bp_mem sbp) with
    | None => None
    | Some (src_node, _) =>
        '(retval, dest) ← run (copy_loop (S (size (m_heap (bp_mem sbp)))) mem 0 (bp_mem sbp) src_node) dest;
        Some (retval, src, dest)
    end.

Fixpoint truncate_loop (fuel : nat) (new_max : Z) (node : option ptr) : B unit :=
  match fuel with
  | O => fun _ => Fault
  | S fuel' =>
      match node with
      | None => mret tt
      | Some _ =>
          ext ← node_to_extent node;
          if decide (u64 (x_end ext - 1) <= new_max) then mret tt
          else if decide (x_start ext > new_max) then
            tree_op (ext2fs_rb_erase node);;
            free_mem node;;
            node ← tree_op ext2fs_rb_last;
            truncate_loop fuel' new_max node
          else
            write_extent node (mkExt (x_start ext) (u64 (u64 (new_max - x_start ext) + 1)));;
            truncate_loop fuel' new_max node
      end
  end.

Definition rb_truncate (new_max : Z) : B unit :=
  fuel ← nodes_fuel;
  node ← tree_op ext2fs_rb_last;
  truncate_loop (S (S fuel)) new_max node.

Definition rb_resize_bmap (mem : bool) (b : rb_bitmap) (new_end new_real_end : Z) : option (Z * rb_bitmap) :=
  let bp := rb_private b in
  let b := set_private (mkBp (bp_mem bp) None None (rcursor_next bp)) b in
  '(_, b) ← run (rb_truncate (u64 ((if decide (new_end < rb_end b) then new_end else rb_end b) - rb_start b))) b;
  let b := mkRb (rb_start b) new_end new_real_end (rb_private b) in
  if decide (rb_end b < rb_real_end b) then
    '(_, b) ← run (rb_insert_extent mem (u64 (rb_end b + 1 - rb_start b)) (u64 (rb_real_end b - rb_end b))) b;
    Some (0, b)
  else Some (0, b).

Definition rb_mark_bmap (mem : bool) (b : rb_bitmap) (arg : Z) : option (Z * rb_bitmap) :=
  run (rb_insert_extent mem (u64 (arg - rb_start b)) 1) b.

Definition rb_unmark_bmap (mem : bool) (b : rb_bitmap) (arg : Z) : option (Z * rb_bitmap) :=
  run (rb_remove_extent mem (u64 (arg - rb_start b)) 1) b.

Definition rb_test_bmap (b : rb_bitmap) (arg : Z) : option (Z * rb_bitmap) :=
  run (rb_test_bit (u64 (arg - rb_start b))) b.

Definition rb_mark_bmap_extent (mem : bool) (b : rb_bitmap) (arg num : Z) : option rb_bitmap :=
  snd <$> run (rb_insert_extent mem (u64 (arg - rb_start b)) num) b.

Definition rb_unmark_bmap_extent (mem : bool) (b : rb_bitmap) (arg num : Z) : option rb_bitmap :=
  snd <$> run (rb_remove_extent mem (u64 (arg - rb_start b)) num) b.

Definition rb_test_clear_bmap_extent (b : rb_bitmap) (start len : Z) : option (Z * rb_bitmap) :=
  run (test_clear (u64 (start - rb_start b)) len) b.

Definition rb_set_bmap_range (mem : bool) (b : rb_bitmap) (start num : Z) (inp : list Z) : option (Z * rb_bitmap) :=
  run (set_range mem (u64 (start - rb_start b)) num inp) b.

Definition rb_get_bmap_range (b : rb_bitmap) (start num : Z) (out : list Z) : option (Z * list Z) :=
  (fun '(out, _) => (0, out)) <$> run (get_range (u64 (start - rb_start b)) num out) b.

Definition rb_clear_bmap (b : rb_bitmap) : option rb_bitmap :=
  (fun '(_, b) => set_private (mkBp (bp_mem (rb_private b)) None None None) b) <$> run rb_free_tree b.

Definition rb_find_first_zero (b : rb_bitmap) (start end_ : Z) : option (Z * option Z) :=
  '(r, o, _) ← run (find_zero (u64 (start - rb_start b)) (u64 (end_ - rb_start b))) b;
  Some (r, option_map (fun x => u64 (x + rb_start b)) o).

Definition rb_find_first_set (b : rb_bitmap) (start end_ : Z) : option (Z * option Z) :=
  '(r, o, _) ← run (find_set (u64 (start - rb_start b)) (u64 (end_ - rb_start b))) b;
  Some (r, option_map (fun x => u64 (x + rb_start b)) o).

(** * The code's own check *)

(** [check_tree], compiled with [DEBUG_RB]: false where it prints an error and exits. *)
Fixpoint check_tree_loop (fuel : nat) (node : option ptr) (old : option bmap_rb_extent) : B bool :=
  match fuel with
  | O => fun _ => Fault
  | S fuel' =>
      match node with
      | None => mret true
      | Some _ =>
          ext ← node_to_extent node;
          if decide (x_count ext = 0) then mret false
          else if decide (x_end ext < x_start ext) then mret false
          else
            let bad := match old with
                       | Some o => bool_decide (x_start o > x_start ext) || bool_decide (x_end o >= x_start ext)
                       | None => false
                       end in
            if (bad : bool) then mret false
            else next ← next_of node; check_tree_loop fuel' next (Some ext)
      end
  end.

Definition check_tree : B bool :=
  fuel ← nodes_fuel;
  node ← tree_op ext2fs_rb_first;
  check_tree_loop (S fuel) node None.
