(* ===== verification/RbBitmapProofs.v ===== *)
(** The operations on extents, on the list of extents the tree holds. *)
From Stdlib Require Import ZArith Lia.
From stdpp Require Import base tactics numbers list gmap.
From S2P Require Import Prelude ExtErr Bitops Rbtree RbtreeProofs RbtreeBalance RbtreeErase RbtreeList RbBitmap.

Abbreviation xelem := (ptr * bmap_rb_extent)%type.
Implicit Types (L R : list xelem) (bp : ext2fs_rb_private).

(** * The state *)

(** [q] follows [p]. *)
Definition adj L (p q : ptr) : Prop := exists L1 a b L2, L = L1 ++ (p, a) :: (q, b) :: L2.

(** The cursors point into the tree; the read cursors, when both are set, to neighbours. *)
Definition cursors bp L : Prop :=
  (forall p, wcursor bp = Some p -> p ∈ L.*1) /\ (forall p, rcursor bp = Some p -> p ∈ L.*1) /\
  (forall p q, rcursor bp = Some p -> rcursor_next bp = Some q -> adj L p q).

(** The private data hold the extents [L], and no other memory. *)
Definition St bp L : Prop :=
  holds (bp_mem bp) L /\ dom (m_heap (bp_mem bp)) = list_to_set (C := gset ptr) L.*1 /\ cursors bp L.

(** * Neighbours *)

Lemma adj_fst L L' p q : L.*1 = L'.*1 -> adj L p q -> adj L' p q.
Proof.
  intros He (L1 & a & b & L2 & ->). rewrite fmap_app in He. symmetry in He.
  apply fmap_app_inv in He as (M1 & M2 & HM1 & HM2 & ->).
  destruct M2 as [|[p' a'] [|[q' b'] M2]]; cbn in HM2; [done..|]. injection HM2 as <- <- _. by exists M1, a', b', M2.
Qed.

Lemma app_cons_same {X Y} (L1 L2 M1 M2 : list (X * Y)) p a b :
  NoDup (L1 ++ (p, a) :: L2).*1 -> L1 ++ (p, a) :: L2 = M1 ++ (p, b) :: M2 -> L1 = M1 /\ a = b /\ L2 = M2.
Proof.
  revert M1. induction L1 as [|[x y] L1 IH]; intros [|[x' y'] M1]; cbn; intros Hn H.
  - by injection H as -> ->.
  - injection H as -> -> ->. apply NoDup_cons in Hn as [Hn _]. exfalso. apply Hn. rewrite fmap_app. cbn. set_solver.
  - injection H as -> -> <-. apply NoDup_cons in Hn as [Hn _]. exfalso. apply Hn. rewrite fmap_app. cbn. set_solver.
  - injection H as -> -> H. apply NoDup_cons in Hn as [_ Hn]. destruct (IH _ Hn H) as (-> & -> & ->). done.
Qed.

(** A neighbour pair survives the removal of another element. *)
Lemma adj_remove L1 x a L2 p q :
  adj (L1 ++ (x, a) :: L2) p q -> p <> x -> q <> x -> adj (L1 ++ L2) p q.
Proof.
  intros (M1 & b & c & M2 & H) Hp Hq. apply app_eq_app in H as (m & [[-> H]|[-> H]]).
  - destruct m as [|y m]; [by injection H|]. injection H as <- H. destruct m as [|z m]; [by injection H|].
    injection H as <- ->. eexists M1, b, c, (m ++ L2). by rewrite <- app_assoc.
  - destruct m as [|y m]; [by injection H|]. injection H as <- ->. eexists (L1 ++ m), b, c, M2. by rewrite <- app_assoc.
Qed.

(** * Running *)

Lemma bbind {X Y} (m : B X) (f : X -> B Y) bp x bp' : m bp = Ret x bp' -> (m ≫= f) bp = f x bp'.
Proof. intros H. unfold mbind, B_bind. by rewrite H. Qed.

Lemma bret {X Y} (x : X) (f : X -> B Y) bp : (mret x ≫= f) bp = f x bp.
Proof. done. Qed.

Lemma tree_read {X} (f : M bmap_rb_extent X) bp x : f (bp_mem bp) = Some (x, bp_mem bp) -> tree_op f bp = Ret x bp.
Proof. intros H. unfold tree_op. rewrite H. by destruct bp. Qed.

Ltac bst H := rewrite (bbind _ _ _ _ _ H).

Lemma St_data bp L p a : St bp L -> (p, a) ∈ L -> node_to_extent (Some p) bp = Ret a bp.
Proof. intros (H & _) Hin. apply tree_read. by eapply get_data_ok. Qed.

Lemma St_next bp L1 p a L2 : St bp (L1 ++ (p, a) :: L2) -> next_of (Some p) bp = Ret (hd_ptr L2) bp.
Proof. intros (H & _). apply tree_read. by eapply next_list. Qed.

Lemma St_prev bp L1 p a L2 : St bp (L1 ++ (p, a) :: L2) -> prev_of (Some p) bp = Ret (last_ptr L1) bp.
Proof. intros (H & _). apply tree_read. by eapply prev_list. Qed.

Lemma St_fuel bp L : St bp L -> nodes_fuel bp = Ret (length L) bp.
Proof.
  intros (H & Hd & _). apply tree_read. unfold get_fuel. f_equal. f_equal. rewrite <- size_dom, Hd.
  rewrite size_list_to_set by (by eapply holds_nodup). by rewrite length_fmap.
Qed.

Lemma St_empty bp L : St bp L -> tree_op ext2fs_rb_empty_root bp = Ret (bool_decide (L = [])) bp.
Proof.
  intros (H & _). apply tree_read. unfold ext2fs_rb_empty_root, get_root, mbind, M_bind. unfold mret, M_ret. f_equal. f_equal.
  apply bool_decide_ext. by apply holds_root.
Qed.

Lemma St_nodup bp L : St bp L -> NoDup L.*1.
Proof. intros (H & _). by eapply holds_nodup. Qed.

(** The cursors of a tree with the same nodes. *)
Lemma cursors_fst bp bp' L L' :
  L.*1 = L'.*1 -> wcursor bp' = wcursor bp -> rcursor bp' = rcursor bp -> rcursor_next bp' = rcursor_next bp ->
  cursors bp L -> cursors bp' L'.
Proof.
  intros He Hw Hr Hn (H1 & H2 & H3). unfold cursors. rewrite Hw, Hr, Hn, <- He. split_and!; [done|done|].
  intros p q Hp Hq. eapply adj_fst; [done|eauto].
Qed.

(** A change of the data of an extent; the cursors stay. *)
Definition same_cursors bp bp' : Prop :=
  wcursor bp' = wcursor bp /\ rcursor bp' = rcursor bp /\ rcursor_next bp' = rcursor_next bp.

Lemma St_write bp L1 p a b L2 :
  St bp (L1 ++ (p, a) :: L2) ->
  exists bp', write_extent (Some p) b bp = Ret tt bp' /\ St bp' (L1 ++ (p, b) :: L2) /\ same_cursors bp bp'.
Proof.
  intros (H & Hd & Hc). destruct (set_data_ok _ _ _ _ b _ H) as (m & E1 & H1 & D1).
  exists (set_mem m bp). unfold write_extent, tree_op. rewrite E1. split_and!; [done| |done].
  split_and!; [done|cbn; rewrite D1, Hd; by rewrite !fmap_app|]. eapply cursors_fst; [..|exact Hc]; try done. by rewrite !fmap_app.
Qed.

(** [rb_free_extent] of a node that is no longer in the tree. *)
Lemma free_extent_run bp p :
  rb_free_extent (Some p) bp = Ret tt
    (mkBp (mkMem (m_root (bp_mem bp)) (delete p (m_heap (bp_mem bp))))
       (if decide (wcursor bp = Some p) then None else wcursor bp)
       (if decide (rcursor bp = Some p) then None else rcursor bp)
       (if decide (rcursor_next bp = Some p) then None else rcursor_next bp)).
Proof.
  unfold rb_free_extent, mbind, B_bind, get_wcursor, get_rcursor, get_rcursor_next, set_wcursor, set_rcursor, set_rcursor_next, free_mem, mret, B_ret.
  destruct bp as [m w r n]. cbn. repeat (case_decide; cbn); done.
Qed.

Lemma St_drop bp L1 p a L2 :
  St bp (L1 ++ (p, a) :: L2) -> exists bp', drop_extent (Some p) bp = Ret tt bp' /\ St bp' (L1 ++ L2).
Proof.
  intros (H & Hd & Hw & Hr & Hn). pose proof (holds_nodup _ _ H) as Hnd.
  assert (Hp : p ∉ (L1 ++ L2).*1).
  { rewrite fmap_app in *. cbn in Hnd. rewrite <- Permutation_middle in Hnd. by apply NoDup_cons in Hnd as [? _]. }
  destruct (erase_list _ _ _ _ _ H) as (m & E1 & I1 & D1). unfold drop_extent.
  assert (tree_op (ext2fs_rb_erase (Some p)) bp = Ret tt (set_mem m bp)) as E2 by (unfold tree_op; by rewrite E1).
  bst E2. rewrite free_extent_run. eexists. split; [reflexivity|]. unfold St, cursors. cbn. split_and!.
  - eapply holds_agree; [..|exact I1]; [done|]. intros q Hq. cbn. apply lookup_delete_ne. set_solver.
  - rewrite dom_delete_L, D1, Hd, fmap_app, !list_to_set_app_L, fmap_app. cbn. rewrite fmap_app in Hp.
    rewrite !list_to_set_app_L. set_solver.
  - intros q. case_decide; [done|]. intros Hq. specialize (Hw q Hq). rewrite fmap_app in *. cbn in Hw. set_solver.
  - intros q. case_decide; [done|]. intros Hq. specialize (Hr q Hq). rewrite fmap_app in *. cbn in Hr. set_solver.
  - intros x y. case_decide; [done|]. case_decide; [done|]. intros Hx Hy. eapply adj_remove; [by apply Hn|congruence|congruence].
Qed.

(** The allocation and the insertion of a new extent, which the cursor is moved to. *)
Lemma St_insert bp L1 L2 parent n start count :
  St bp (L1 ++ L2) -> slot (bp_mem bp) L1 L2 parent n -> rcursor_next bp = None ->
  exists p bp1 bp2, rb_get_new_extent true start count bp = Ret (Some p) bp1 /\
    tree_op (ext2fs_rb_link_node (Some p) parent n;; ext2fs_rb_insert_color (Some p)) bp1 = Ret tt bp2 /\
    St bp2 (L1 ++ (p, mkExt start count) :: L2) /\ same_cursors bp bp2 /\ holds (bp_mem bp1) (L1 ++ L2).
Proof.
  intros (H & Hd & Hw & Hr & Hn) Hs Hnx. unfold rb_get_new_extent. set (p := fresh _).
  assert (Hf : p ∉ dom (m_heap (bp_mem bp))) by (apply is_fresh).
  set (m1 := mkMem _ _). exists p, (set_mem m1 bp).
  assert (Hp : p ∉ (L1 ++ L2).*1) by (rewrite Hd in Hf; set_solver).
  assert (Hs1 : slot m1 L1 L2 parent n).
  { destruct Hs as (k & HR & Hrb & <- & <- & -> & ->). exists k. split_and!; try done.
    destruct HR as (R1 & R2 & R3 & R4). split_and!; [done|done| |done]. cbn. apply con_frame; [|done].
    intros Hin. apply Hf. by eapply con_dom. }
  destruct (insert_list m1 L1 L2 parent n p new_node (mkExt start count) Hs1 ltac:(cbn; by rewrite lookup_insert_eq) Hp)
    as (m2 & E2 & I2 & D2). exists (set_mem m2 bp). split; [done|]. split; [unfold tree_op; cbn; by rewrite E2|]. split; [|split; [done|by eapply slot_holds]].
  unfold St, cursors. cbn. split_and!; [done| | | |].
  - rewrite D2. cbn. rewrite dom_insert_L, Hd, !fmap_app. cbn. rewrite !list_to_set_app_L. set_solver.
  - intros q Hq%Hw. rewrite fmap_app in *. cbn. set_solver.
  - intros q Hq%Hr. rewrite fmap_app in *. cbn. set_solver.
  - rewrite Hnx. done.
Qed.

(** A change of the cursors. *)
Lemma St_cursors bp w r n L :
  St bp L -> cursors (mkBp (bp_mem bp) w r n) L -> St (mkBp (bp_mem bp) w r n) L.
Proof. intros (H & Hd & _) Hc. done. Qed.
