(* ===== verification/RbExtents.v ===== *)
(** What the operations of [blkmap64_rb.c] do to the set of numbers the extents cover. *)
From Stdlib Require Import ZArith Lia Sorting.Sorted.
From stdpp Require Import base tactics numbers list gmap sorting.
From S2P Require Import Prelude ExtErr Bitops Rbtree RbtreeProofs RbtreeBalance RbtreeErase RbtreeList RbBitmap RbBitmapProofs.

Implicit Types (L R : list xelem) (bp : ext2fs_rb_private).

(** * Lists of extents *)

(** The number after the extent, and membership. *)
Definition xlim (e : bmap_rb_extent) : Z := x_start e + x_count e.
Definition inx (e : bmap_rb_extent) (x : Z) : bool := (x_start e <=? x) && (x <? xlim e).
Definition lmem L (x : Z) : bool := existsb (fun e => inx e.2 x) L.

(** The extents are not empty, lie below [lim], and there is a gap between any two. *)
Definition okx (lim : Z) (e : bmap_rb_extent) : Prop := 0 <= x_start e /\ 0 < x_count e /\ xlim e <= lim.
Definition before (e e' : xelem) : Prop := xlim e.2 < x_start e'.2.
Definition wfL (lim : Z) L : Prop := Forall (fun e => okx lim e.2) L /\ StronglySorted before L.

Lemma lmem_app L R x : lmem (L ++ R) x = lmem L x || lmem R x.
Proof. apply existsb_app. Qed.

Lemma lmem_cons e L x : lmem (e :: L) x = inx e.2 x || lmem L x.
Proof. done. Qed.

Lemma lmem_above R b x : Forall (fun e => b < x_start e.2) R -> x <= b -> lmem R x = false.
Proof. intros HR Hx. induction HR as [|e R He _ IH]; [done|]. rewrite lmem_cons, IH. unfold inx. lia. Qed.

Lemma lmem_below R b x : Forall (fun e => xlim e.2 <= b) R -> b <= x -> lmem R x = false.
Proof. intros HR Hx. induction HR as [|e R He _ IH]; [done|]. rewrite lmem_cons, IH. unfold inx. lia. Qed.

Lemma wfL_nil lim : wfL lim [].
Proof. split; constructor. Qed.

Lemma wfL_app lim L R : wfL lim (L ++ R) <-> wfL lim L /\ wfL lim R /\ Forall (fun e => Forall (before e) R) L.
Proof.
  unfold wfL. rewrite Forall_app, StronglySorted_app. split.
  - intros ((H1 & H2) & H3 & H4 & H5). split_and!; try done. apply Forall_forall. intros e He. apply Forall_forall. intros e' He'.
    by apply H3.
  - intros ((H1 & H2) & (H3 & H4) & H5). split_and!; try done. intros e e' He He'. rewrite Forall_forall in H5.
    specialize (H5 e He). rewrite Forall_forall in H5. by apply H5.
Qed.

Lemma wfL_cons lim e R : wfL lim (e :: R) <-> okx lim e.2 /\ Forall (before e) R /\ wfL lim R.
Proof.
  unfold wfL. rewrite Forall_cons. split.
  - intros ((H1 & H2) & H3). inversion H3; subst. done.
  - intros (H1 & H2 & H3 & H4). split_and!; try done. by constructor.
Qed.

(** Around an extent. *)
Lemma wfL_mid lim L1 e L2 : wfL lim (L1 ++ e :: L2) <->
  wfL lim L1 /\ okx lim e.2 /\ wfL lim L2 /\ Forall (fun e' => xlim e'.2 < x_start e.2) L1 /\
  Forall (before e) L2 /\ Forall (fun e' => Forall (before e') L2) L1.
Proof.
  rewrite wfL_app, wfL_cons.
  assert (HF : Forall (fun e0 => Forall (before e0) (e :: L2)) L1 <->
    Forall (fun e0 => xlim e0.2 < x_start e.2) L1 /\ Forall (fun e0 => Forall (before e0) L2) L1).
  { induction L1 as [|a L1 IH]; [by rewrite !Forall_nil|]. rewrite !Forall_cons, IH. unfold before at 1. tauto. }
  rewrite HF. tauto.
Qed.

(** The ends of the extents on the left, from the ones on the right. *)
Lemma left_of_mid lim L1 e L2 b :
  wfL lim (L1 ++ e :: L2) -> x_start e.2 <= b -> Forall (fun e' => xlim e'.2 < b) L1.
Proof. intros (_ & _ & _ & H & _)%wfL_mid Hb. eapply Forall_impl; [exact H|]. cbn. lia. Qed.

Lemma x_end_ok lim e : okx lim e -> lim < 2 ^ 64 -> x_end e = xlim e.
Proof. intros (H1 & H2 & H3) Hl. unfold x_end, xlim in *. apply u64_small. unfold in_u. lia. Qed.

(** Booleans of intervals: [lia] decides them. *)
Lemma inx_mk s c x : inx (mkExt s c) x = (s <=? x) && (x <? s + c).
Proof. done. Qed.

Ltac intervals :=
  rewrite ?inx_mk; unfold inx, xlim in *; cbn [x_start x_count snd] in *;
  repeat match goal with
  | |- context [lmem ?R ?x] => let H := fresh in destruct (lmem R x) eqn:H; rewrite ?orb_true_r, ?orb_false_r, ?andb_true_r, ?andb_false_r;
      try match goal with H' : lmem R x = true -> _ |- _ => specialize (H' H) end
  end; try done; lia.

Lemma before_all b R e : xlim e.2 = b -> Forall (before e) R <-> Forall (fun e' => b < x_start e'.2) R.
Proof. intros <-. done. Qed.

(** Beyond the first extent everything starts later. *)
Lemma wfL_after lim e R b : wfL lim (e :: R) -> b < x_start e.2 -> Forall (fun e' => b < x_start e'.2) (e :: R).
Proof.
  intros (H1 & H2 & _)%wfL_cons Hb. constructor; [done|]. eapply Forall_impl; [exact H2|]. unfold before, okx, xlim in *. cbn. lia.
Qed.

(** * Insertion *)

Lemma St_drop' bp L1 new d q e R :
  St bp (L1 ++ (new, d) :: (q, e) :: R) -> exists bp', drop_extent (Some q) bp = Ret tt bp' /\ St bp' (L1 ++ (new, d) :: R).
Proof.
  intros H. replace (L1 ++ (new, d) :: (q, e) :: R) with ((L1 ++ [(new, d)]) ++ (q, e) :: R) in H by (by rewrite <- app_assoc).
  destruct (St_drop _ _ _ _ _ H) as (bp' & E1 & H1). exists bp'. split; [done|]. by rewrite <- app_assoc in H1.
Qed.

Lemma St_next' bp L1 new d q e R : St bp (L1 ++ (new, d) :: (q, e) :: R) -> next_of (Some q) bp = Ret (hd_ptr R) bp.
Proof.
  intros H. replace (L1 ++ (new, d) :: (q, e) :: R) with ((L1 ++ [(new, d)]) ++ (q, e) :: R) in H by (by rewrite <- app_assoc).
  by eapply St_next.
Qed.

Lemma merge_ok lim start (Hlim : lim < 2 ^ 64) R : forall fuel bp L1 new d count,
  (length R < fuel)%nat -> St bp (L1 ++ (new, d) :: R) -> wfL lim R -> Forall (fun e => start < x_start e.2) R ->
  0 <= start -> 0 < count -> start + count <= lim ->
  exists count' R' bp', merge_loop fuel (hd_ptr R) start count bp = Ret count' bp' /\ St bp' (L1 ++ (new, d) :: R') /\
    wfL lim R' /\ Forall (fun e => start + count' < x_start e.2) R' /\ count <= count' /\ start + count' <= lim /\
    (forall e, e ∈ R' -> e ∈ R) /\
    forall x, inx (mkExt start count') x || lmem R' x = inx (mkExt start count) x || lmem R x.
Proof.
  induction R as [|[q e] R IH]; intros [|fuel] bp L1 new d count Hf HS Hwf Habove H0 Hc Hle; cbn [length] in Hf; try lia.
  - exists count, [], bp. cbn. split_and!; try done; lia.
  - cbn [merge_loop hd_ptr head fmap option_fmap option_map fst]. bst (St_next' _ _ _ _ _ _ _ HS).
    assert ((q, e) ∈ L1 ++ (new, d) :: (q, e) :: R) as Hin by set_solver. bst (St_data _ _ _ _ HS Hin).
    pose proof Hwf as (Hok & Hbe & HwR)%wfL_cons. cbn [snd] in Hok. rewrite (x_end_ok _ _ Hok Hlim).
    apply Forall_cons in Habove as [Ha HaR]. cbn [snd] in Ha. pose proof Hok as (O1 & O2 & O3).
    rewrite (u64_small (start + count)) by (unfold in_u; lia).
    rewrite decide_False by (unfold xlim in *; lia). case_decide as C1; [|case_decide as C2].
    + exists count, ((q, e) :: R), bp. split_and!; try done. by eapply wfL_after.
    + destruct (St_drop' _ _ _ _ _ _ _ HS) as (bp1 & E1 & H1). bst E1.
      destruct (IH fuel bp1 L1 new d count) as (c' & R' & bp' & E2 & H2 & W2 & A2 & L2 & L3 & S2 & M2); try done; [lia|].
      exists c', R', bp'. split_and!; try done; [set_solver|]. intros x. rewrite M2, lmem_cons. cbn [snd]. intervals.
    + destruct (St_drop' _ _ _ _ _ _ _ HS) as (bp1 & E1 & H1). bst E1.
      rewrite (u64_small (xlim e - _)), u64_small by (unfold in_u; lia).
      exists (count + (xlim e - (start + count))), R, bp1. split_and!; try done; [|lia|lia|set_solver|].
      * replace (start + (count + (xlim e - (start + count)))) with (xlim e) by lia. done.
      * intros x. rewrite lmem_cons. cbn [snd]. intervals.
Qed.

(** The result of a change of the set: the new extents and what they cover. *)
Definition changed (lim : Z) bp' (f : Z -> bool) : Prop :=
  exists L', St bp' L' /\ wfL lim L' /\ forall x, lmem L' x = f x.

Lemma skip_insert_ok lim bp L1 new d R start count retval :
  lim < 2 ^ 64 -> St bp (L1 ++ (new, d) :: R) -> wfL lim L1 -> wfL lim R -> Forall (fun e' => Forall (before e') R) L1 ->
  Forall (fun e => xlim e.2 < start) L1 -> Forall (fun e => start < x_start e.2) R ->
  0 <= start -> 0 < count -> start + count <= lim ->
  exists bp', skip_insert (Some new) start count retval bp = Ret retval bp' /\
    changed lim bp' (fun x => inx (mkExt start count) x || lmem (L1 ++ R) x).
Proof.
  intros Hlim HS W1 W2 H12 HL HR H0 Hc Hle. unfold skip_insert. bst (St_next _ _ _ _ _ HS). bst (St_fuel _ _ HS).
  destruct (merge_ok lim start Hlim R (S (length (L1 ++ (new, d) :: R))) bp L1 new d count)
    as (c' & R' & bp1 & E1 & H1 & W1' & A1 & L2 & L3 & S1 & M1); try done.
  { rewrite length_app. cbn. lia. }
  bst E1. destruct (St_write _ _ _ _ (mkExt start c') _ H1) as (bp2 & E2 & H2 & _). bst E2. exists bp2. split; [done|].
  exists (L1 ++ (new, mkExt start c') :: R'). split_and!; [done| |].
  - rewrite wfL_mid. cbn [snd x_start]. unfold okx, before, xlim. cbn. split_and!; try done; [lia..|].
    eapply Forall_impl; [exact H12|]. intros e He. apply Forall_forall. intros e' He'. rewrite Forall_forall in He. by apply He, S1.
  - intros x. rewrite !lmem_app, lmem_cons. cbn [snd]. specialize (M1 x). destruct (lmem L1 x); cbn; [by rewrite orb_true_r|done].
Qed.

(** Where a number falls: inside or at the end of an extent, or between two. *)
Lemma insert_split lim L start : wfL lim L ->
  (exists L1 p e L2, L = L1 ++ (p, e) :: L2 /\ x_start e <= start <= xlim e) \/
  (exists L1 L2, L = L1 ++ L2 /\ Forall (fun e => xlim e.2 < start) L1 /\ Forall (fun e => start < x_start e.2) L2).
Proof.
  induction L as [|[p e] L IH]; intros Hwf.
  - right. exists [], []. done.
  - destruct (decide (start < x_start e)) as [H1|H1].
    { right. exists [], ((p, e) :: L). split_and!; [done|done|]. by eapply wfL_after. }
    destruct (decide (start <= xlim e)) as [H2|H2].
    { left. exists [], p, e, L. split; [done|lia]. }
    destruct IH as [(L1 & q & e' & L2 & -> & H)|(L1 & L2 & -> & H3 & H4)].
    + by apply wfL_cons in Hwf as (_ & _ & ?).
    + left. by exists ((p, e) :: L1), q, e', L2.
    + right. exists ((p, e) :: L1), L2. split_and!; [done| |done]. constructor; [cbn; lia|done].
Qed.

Lemma extent_split lim L bit : wfL lim L ->
  (exists L1 p e L2, L = L1 ++ (p, e) :: L2 /\ x_start e <= bit < xlim e) \/
  (exists L1 L2, L = L1 ++ L2 /\ Forall (fun e => xlim e.2 <= bit) L1 /\ Forall (fun e => bit < x_start e.2) L2).
Proof.
  induction L as [|[p e] L IH]; intros Hwf.
  - right. exists [], []. done.
  - destruct (decide (bit < x_start e)) as [H1|H1].
    { right. exists [], ((p, e) :: L). split_and!; [done|done|]. by eapply wfL_after. }
    destruct (decide (bit < xlim e)) as [H2|H2].
    { left. exists [], p, e, L. split; [done|lia]. }
    destruct IH as [(L1 & q & e' & L2 & -> & H)|(L1 & L2 & -> & H3 & H4)].
    + by apply wfL_cons in Hwf as (_ & _ & ?).
    + left. by exists ((p, e) :: L1), q, e', L2.
    + right. exists ((p, e) :: L1), L2. split_and!; [done| |done]. constructor; [cbn; lia|done].
Qed.

(** The comparisons of the searches, on the two sides. *)
Section compare.
Context (lim : Z) (Hlim : lim < 2 ^ 64).

Lemma insert_cmp_gt start L : wfL lim L -> Forall (fun e => xlim e.2 < start) L -> Forall (fun e => insert_cmp start e.2 = Gt) L.
Proof.
  intros [Hok _] HL. apply Forall_forall. intros e He. rewrite Forall_forall in Hok, HL. specialize (Hok e He). specialize (HL e He).
  cbn in Hok, HL. unfold insert_cmp. rewrite (x_end_ok lim) by done. destruct Hok as (O1 & O2 & O3). unfold xlim in *.
  rewrite decide_False, decide_True by lia. done.
Qed.

Lemma insert_cmp_lt start L : Forall (fun e => start < x_start e.2) L -> Forall (fun e => insert_cmp start e.2 = Lt) L.
Proof. intros HL. eapply Forall_impl; [exact HL|]. intros e He. cbn in *. unfold insert_cmp. by rewrite decide_True. Qed.

Lemma insert_cmp_eq start e : okx lim e -> x_start e <= start <= xlim e -> insert_cmp start e = Eq.
Proof. intros Hok He. unfold insert_cmp. rewrite (x_end_ok lim) by done. by rewrite !decide_False by lia. Qed.

Lemma extent_cmp_gt bit L : wfL lim L -> Forall (fun e => xlim e.2 <= bit) L -> Forall (fun e => extent_cmp bit e.2 = Gt) L.
Proof.
  intros [Hok _] HL. apply Forall_forall. intros e He. rewrite Forall_forall in Hok, HL. specialize (Hok e He). specialize (HL e He).
  cbn in Hok, HL. unfold extent_cmp. rewrite (x_end_ok lim) by done. destruct Hok as (O1 & O2 & O3). unfold xlim in *.
  rewrite decide_False, decide_True by lia. done.
Qed.

Lemma extent_cmp_lt bit L : Forall (fun e => bit < x_start e.2) L -> Forall (fun e => extent_cmp bit e.2 = Lt) L.
Proof. intros HL. eapply Forall_impl; [exact HL|]. intros e He. cbn in *. unfold extent_cmp. by rewrite decide_True. Qed.

Lemma extent_cmp_eq bit e : okx lim e -> x_start e <= bit < xlim e -> extent_cmp bit e = Eq.
Proof. intros Hok He. unfold extent_cmp. rewrite (x_end_ok lim) by done. by rewrite !decide_False by lia. Qed.

(** The extents beside one that holds a number. *)
Lemma beside L1 p e L2 x : wfL lim (L1 ++ (p, e) :: L2) -> x_start e <= x <= xlim e ->
  Forall (fun e => xlim e.2 < x) L1 /\ Forall (fun e => x < x_start e.2) L2.
Proof.
  intros (_ & _ & _ & H1 & H2 & _)%wfL_mid Hx. cbn in H1. split.
  - eapply Forall_impl; [exact H1|]. cbn. lia.
  - eapply Forall_impl; [exact H2|]. unfold before. cbn. lia.
Qed.

Lemma Forall_lt_le L x : Forall (fun e : xelem => xlim e.2 < x) L -> Forall (fun e => xlim e.2 <= x) L.
Proof. intros H. eapply Forall_impl; [exact H|]. cbn. lia. Qed.

(** Membership at a number inside an extent or a gap. *)
Lemma lmem_hit L1 p e L2 x : x_start e <= x < xlim e -> lmem (L1 ++ (p, e) :: L2) x = true.
Proof. intros Hx. rewrite lmem_app, lmem_cons. cbn [snd]. unfold inx. destruct (lmem L1 x); [done|]. cbn. lia. Qed.

Lemma lmem_gap L1 L2 x : Forall (fun e => xlim e.2 <= x) L1 -> Forall (fun e => x < x_start e.2) L2 -> lmem (L1 ++ L2) x = false.
Proof. intros H1 H2. rewrite lmem_app, (lmem_below _ x), (lmem_above _ x) by (done || lia). done. Qed.

Lemma St_search_hit bp L1 p e L2 bit :
  St bp (L1 ++ (p, e) :: L2) -> wfL lim (L1 ++ (p, e) :: L2) -> x_start e <= bit < xlim e ->
  exists n, tree_op (search (extent_cmp bit)) bp = Ret (true, Some p, n) bp.
Proof.
  intros HS Hwf Hb. destruct (beside _ _ _ _ bit Hwf ltac:(lia)) as [B1 B2]. pose proof Hwf as (W1 & Ok & W2 & _)%wfL_mid.
  destruct (search_hit (extent_cmp bit) (bp_mem bp) L1 p e L2) as [n En]; [by apply HS|..].
  - apply extent_cmp_gt; [done|by apply Forall_lt_le].
  - by apply extent_cmp_eq.
  - by apply extent_cmp_lt.
  - exists n. by apply tree_read.
Qed.

Lemma St_search_miss bp L1 L2 bit :
  St bp (L1 ++ L2) -> wfL lim (L1 ++ L2) -> Forall (fun e => xlim e.2 <= bit) L1 -> Forall (fun e => bit < x_start e.2) L2 ->
  exists parent n, tree_op (search (extent_cmp bit)) bp = Ret (false, parent, n) bp /\ slot (bp_mem bp) L1 L2 parent n.
Proof.
  intros HS Hwf H1 H2. apply wfL_app in Hwf as (W1 & W2 & _).
  destruct (search_miss (extent_cmp bit) (bp_mem bp) L1 L2) as (pa & n & En & Hn); [by apply HS|by apply extent_cmp_gt|by apply extent_cmp_lt|].
  exists pa, n. split; [by apply tree_read|done].
Qed.

Lemma got_extent_ok bp L1 p e L2 start count :
  St bp (L1 ++ (p, e) :: L2) -> wfL lim (L1 ++ (p, e) :: L2) -> x_start e <= start <= xlim e ->
  0 <= start -> 0 < count -> start + count <= lim ->
  exists bp', got_extent (Some p) start count bp = Ret (Z.b2z (lmem (L1 ++ (p, e) :: L2) start)) bp' /\
    changed lim bp' (fun x => inx (mkExt start count) x || lmem (L1 ++ (p, e) :: L2) x).
Proof.
  intros HS Hwf He H0 Hc Hle. pose proof Hwf as (W1 & Ok & W2 & B1 & B2 & B12)%wfL_mid. cbn [snd] in *.
  unfold got_extent. bst (St_data _ _ p e HS ltac:(set_solver)). rewrite (x_end_ok lim e) by done. pose proof Ok as (O1 & O2 & O3).
  rewrite (u64_small (start + count)) by (unfold in_u; lia). case_decide as C1.
  - rewrite lmem_hit by lia. exists bp. split; [done|]. eexists. split_and!; [exact HS|done|].
    intros x. rewrite lmem_app, lmem_cons. cbn [snd]. intervals.
  - rewrite (u64_small (start - x_start e)), u64_small by (unfold in_u, xlim in *; lia).
    destruct (skip_insert_ok lim bp L1 p e L2 (x_start e) (count + (start - x_start e)) (if decide (xlim e = start) then 0 else 1))
      as (bp' & E1 & L' & H1 & H2 & H3); try done; try (unfold xlim in *; lia).
    { eapply Forall_impl; [exact B2|]. unfold before. cbn. unfold xlim in *. intros. lia. }
    exists bp'. split.
    + rewrite E1. f_equal. case_decide as C2.
      * subst start. destruct (beside _ _ _ _ (xlim e) Hwf ltac:(lia)) as [B3 B4].
        replace (L1 ++ (p, e) :: L2) with ((L1 ++ [(p, e)]) ++ L2) by (by rewrite <- app_assoc).
        rewrite lmem_gap; [done| |done]. apply Forall_app. split; [by apply Forall_lt_le|]. constructor; [cbn; lia|done].
      * rewrite lmem_hit by lia. done.
    + exists L'. split_and!; [done|done|]. intros x. rewrite H3, !lmem_app, lmem_cons. cbn [snd]. intervals.
Qed.

End compare.

Section insertion.
Context (lim : Z) (Hlim : lim < 2 ^ 64).

Lemma cursors_w bp L p : cursors bp L -> p ∈ L.*1 -> cursors (mkBp (bp_mem bp) (Some p) (rcursor bp) (rcursor_next bp)) L.
Proof. intros (H1 & H2 & H3) Hp. split_and!; cbn; [|done|done]. by intros q [= <-]. Qed.

Lemma insert_new_ok bp L1 L2 parent n start count :
  St bp (L1 ++ L2) -> slot (bp_mem bp) L1 L2 parent n -> rcursor_next bp = None -> wfL lim (L1 ++ L2) ->
  Forall (fun e => xlim e.2 < start) L1 -> Forall (fun e => start < x_start e.2) L2 ->
  0 <= start -> 0 < count -> start + count <= lim ->
  exists bp', rb_insert_new true start count parent n bp = Ret 0 bp' /\
    changed lim bp' (fun x => inx (mkExt start count) x || lmem (L1 ++ L2) x).
Proof.
  intros HS Hsl Hnx Hwf HL HR H0 Hc Hle. unfold rb_insert_new.
  destruct (St_insert bp L1 L2 parent n start count HS Hsl Hnx) as (p & bp1 & bp2 & E1 & E2 & H2 & _ & _). bst E1. bst E2.
  set (bp3 := mkBp (bp_mem bp2) (Some p) (rcursor bp2) (rcursor_next bp2)).
  assert (set_wcursor (Some p) bp2 = Ret tt bp3) as E3 by done. bst E3.
  assert (H3 : St bp3 (L1 ++ (p, mkExt start count) :: L2)).
  { apply St_cursors; [done|]. apply cursors_w; [apply H2|]. rewrite fmap_app. cbn. set_solver. }
  bst (St_prev _ _ _ _ _ H3). pose proof Hwf as (W1 & W2 & W12)%wfL_app.
  unfold last_ptr. destruct (last L1) as [[q e]|] eqn:Hlast; cbn [fmap option_fmap option_map fst].
  - apply last_Some in Hlast as [L1' ->]. assert (Hin : (q, e) ∈ (L1' ++ [(q, e)]) ++ (p, mkExt start count) :: L2) by set_solver.
    pose proof HL as [_ [HLe _]%Forall_cons]%Forall_app. cbn in HLe. pose proof W1 as (_ & (Ok & _)%wfL_cons & _)%wfL_app. cbn in Ok.
    rewrite (bbind _ _ bp3 (start, count) bp3); [by eapply skip_insert_ok|].
    bst (St_data _ _ _ _ H3 Hin). rewrite (x_end_ok lim) by done. by rewrite decide_False by lia.
  - rewrite bret. by eapply skip_insert_ok.
Qed.

(** [rb_insert_extent] adds the numbers; it returns whether the first one was there. *)
Lemma insert_extent_ok bp L start count :
  St bp L -> wfL lim L -> 0 <= start -> 0 < count -> start + count <= lim ->
  exists bp', rb_insert_extent true start count bp = Ret (Z.b2z (lmem L start)) bp' /\
    changed lim bp' (fun x => inx (mkExt start count) x || lmem L x).
Proof.
  intros HS Hwf H0 Hc Hle. unfold rb_insert_extent.
  set (bp0 := mkBp (bp_mem bp) (wcursor bp) (rcursor bp) None).
  assert (set_rcursor_next None bp = Ret tt bp0) as E0 by done. bst E0.
  assert (HS0 : St bp0 L) by (destruct HS as (S1 & S2 & S3 & S4 & S5); done).
  assert (get_wcursor bp0 = Ret (wcursor bp) bp0) as E1 by done. bst E1.
  assert (Hcase : forall (hit : bool) bp1, bp1 = bp0 ->
    (hit = true -> exists L1 p e L2, wcursor bp = Some p /\ L = L1 ++ (p, e) :: L2 /\ x_start e <= start <= xlim e) ->
    exists bp', (if hit then got_extent (wcursor bp) start count
      else '(found, parent, n) ← tree_op (search (insert_cmp start));
           if (found : bool) then got_extent parent start count else rb_insert_new true start count parent n) bp1
      = Ret (Z.b2z (lmem L start)) bp' /\ changed lim bp' (fun x => inx (mkExt start count) x || lmem L x)).
  { intros hit bp1 -> Hhit. destruct hit.
    - destruct (Hhit eq_refl) as (L1 & p & e & L2 & -> & -> & He). by apply got_extent_ok.
    - clear Hhit. destruct (insert_split lim L start Hwf) as [(L1 & p & e & L2 & -> & He)|(L1 & L2 & -> & HL & HR)].
      + destruct (beside lim L1 p e L2 start Hwf He) as [B1 B2]. pose proof Hwf as (W1 & Ok & W2 & _)%wfL_mid.
        destruct (search_hit (insert_cmp start) (bp_mem bp0) L1 p e L2) as [n En];
          [by apply HS0|by eapply insert_cmp_gt|by eapply insert_cmp_eq|by apply insert_cmp_lt|].
        rewrite (bbind _ _ _ _ _ (tree_read _ _ _ En)). by apply got_extent_ok.
      + pose proof Hwf as (W1 & W2 & _)%wfL_app.
        destruct (search_miss (insert_cmp start) (bp_mem bp0) L1 L2) as (pa & n & En & Hn);
          [by apply HS0|by eapply insert_cmp_gt|by apply insert_cmp_lt|].
        rewrite (bbind _ _ _ _ _ (tree_read _ _ _ En)). rewrite lmem_gap by (done || by apply Forall_lt_le).
        by apply insert_new_ok. }
  destruct (wcursor bp) as [p|] eqn:Hw; [|rewrite bret; by apply (Hcase false)].
  assert (Hp : p ∈ L.*1) by (destruct HS as (_ & _ & Hcw & _); by apply Hcw). apply list_elem_of_fmap in Hp as ([p' e] & -> & Hin). cbn [fst] in *.
  rewrite (bbind _ _ bp0 (bool_decide (start >= x_start e) && bool_decide (start <= x_end e)) bp0).
  - apply Hcase; [done|]. intros [H1 H2]%andb_true_iff. apply bool_decide_eq_true in H1, H2.
    assert (Ok : okx lim e). { destruct Hwf as [Hok _]. rewrite Forall_forall in Hok. by apply (Hok _ Hin). }
    rewrite (x_end_ok lim) in H2 by done. apply list_elem_of_split in Hin as (L1 & L2 & ->). exists L1, p', e, L2. split_and!; try done; lia.
  - by bst (St_data _ _ _ _ HS0 Hin).
Qed.

End insertion.
