(* ===== verification/RbRemove.v ===== *)
(** Removal of numbers from the extents: [rb_remove_extent]. *)
From Stdlib Require Import ZArith Lia Sorting.Sorted.
From stdpp Require Import base tactics numbers list gmap sorting.
From S2P Require Import Prelude ExtErr Bitops Rbtree RbtreeProofs RbtreeBalance RbtreeErase RbtreeList RbBitmap RbBitmapProofs RbExtents.

Implicit Types (L R : list xelem) (bp : ext2fs_rb_private).

Section removal.
Context (lim : Z) (Hlim : lim < 2 ^ 64).

Lemma mem_lt L b x : Forall (fun e => xlim e.2 <= b) L -> lmem L x = true -> x < b.
Proof. intros HL Hx. destruct (decide (x < b)); [done|]. rewrite (lmem_below L b x) in Hx by (done || lia). done. Qed.

Lemma mem_gt L b x : Forall (fun e => b < x_start e.2) L -> lmem L x = true -> b < x.
Proof. intros HL Hx. destruct (decide (b < x)); [done|]. rewrite (lmem_above L b x) in Hx by (done || lia). done. Qed.

(** What is left after the removal of [start, start + count). *)
Definition without L (start count x : Z) : bool := lmem L x && negb (inx (mkExt start count) x).

(** An element on the left of the range stays. *)
Lemma without_left L1 R start count x :
  Forall (fun e => xlim e.2 <= start) L1 -> without (L1 ++ R) start count x = lmem L1 x || without R start count x.
Proof. intros HL. unfold without. rewrite lmem_app. pose proof (mem_lt L1 start x HL). intervals. Qed.

Lemma without_cons e R start count x :
  without (e :: R) start count x = (inx e.2 x && negb (inx (mkExt start count) x)) || without R start count x.
Proof. unfold without. rewrite lmem_cons. by rewrite andb_orb_distrib_l. Qed.

(** An element on the right of the range stays. *)
Lemma without_right R start count x : 0 <= count ->
  Forall (fun e => start + count <= x_start e.2) R -> without R start count x = lmem R x.
Proof.
  intros Hc HR. unfold without. assert (Forall (fun e : xelem => start + count - 1 < x_start e.2) R) as HR'.
  { eapply Forall_impl; [exact HR|]. cbn. lia. }
  pose proof (mem_gt R _ x HR'). intervals.
Qed.

(** The loop to the right counts an extent that only begins where the range ends. *)
Definition touches (start count : Z) L : bool := existsb (fun e => (start <? xlim e.2) && (x_start e.2 <=? start + count)) L.

Lemma touches_right start count L : Forall (fun e => start + count < x_start e.2) L -> touches start count L = false.
Proof. induction 1 as [|e L He _ IH]; [done|]. cbn. fold (touches start count L). rewrite IH. lia. Qed.

Lemma touches_left start count L R : Forall (fun e => xlim e.2 <= start) L -> touches start count (L ++ R) = touches start count R.
Proof. induction 1 as [|e L He _ IH]; [done|]. cbn. fold (touches start count (L ++ R)). rewrite IH. by rewrite (proj2 (Z.ltb_ge _ _) He). Qed.

(** In terms of numbers: the range and the number after it. *)
Lemma touches_lmem start count L : wfL lim L -> 0 <= count -> lmem L start = false ->
  touches start count L = true <-> exists x, start <= x <= start + count /\ lmem L x = true.
Proof.
  intros [Ok _] Hc Hs. rewrite Forall_forall in Ok. unfold touches. rewrite existsb_exists. split.
  - intros ([p e] & Hin & He). pose proof Hin as (O1 & O2 & _)%list_elem_of_In%Ok. cbn [snd] in *. exists (x_start e). split.
    + split; [|lia]. destruct (decide (start <= x_start e)); [done|]. exfalso. apply not_true_iff_false in Hs. apply Hs.
      unfold lmem. apply existsb_exists. exists (p, e). split; [done|]. unfold inx. cbn. lia.
    + unfold lmem. apply existsb_exists. exists (p, e). split; [done|]. unfold inx, xlim. cbn. lia.
  - intros (x & Hx & (e & Hin & He)%existsb_exists). exists e. split; [done|]. unfold inx in He. lia.
Qed.

Lemma remove_right_ok start count (Hs : 0 <= start) (Hc : 0 <= count) (Hle : start + count <= lim) R : forall fuel bp L1 retval,
  (length R < fuel)%nat -> St bp (L1 ++ R) -> wfL lim (L1 ++ R) -> Forall (fun e => xlim e.2 <= start) L1 ->
  Forall (fun e => xlim e.2 <= start \/ start <= x_start e.2) R ->
  exists r bp', remove_right fuel (hd_ptr R) start count retval bp = Ret r bp' /\ r = (if touches start count R then 1 else retval) /\
    changed lim bp' (without (L1 ++ R) start count).
Proof.
  induction R as [|[q e] R IH]; intros [|fuel] bp L1 retval Hf HS Hwf HL HR; cbn [length] in Hf; try lia.
  - exists retval, bp. split; [done|]. split; [done|]. exists L1. rewrite app_nil_r in *. split_and!; [done|done|].
    intros x. unfold without. pose proof (mem_lt L1 start x HL). intervals.
  - cbn [remove_right hd_ptr head fmap option_fmap option_map fst]. bst (St_next _ _ _ _ _ HS).
    bst (St_data _ _ q e HS ltac:(set_solver)). pose proof Hwf as (W1 & Ok & W2 & B1 & B2 & B12)%wfL_mid. cbn [snd] in *.
    rewrite (x_end_ok _ _ Ok Hlim). rewrite (u64_small (start + count)) by (unfold in_u; lia).
    apply Forall_cons in HR as [He HR]. cbn [snd] in He. pose proof Ok as (O1 & O2 & O3).
    case_decide as C1; [|case_decide as C2; [|case_decide as C3]].
    + replace (L1 ++ (q, e) :: R) with ((L1 ++ [(q, e)]) ++ R) in * by (by rewrite <- app_assoc).
      change ((q, e) :: R) with ([(q, e)] ++ R). rewrite touches_left by (by constructor).
      apply IH; try done; [lia|]. apply Forall_app. split; [done|]. by constructor.
    + assert (HT : Forall (fun x : xelem => start + count < x_start x.2) ((q, e) :: R)).
      { constructor; [cbn; lia|]. eapply Forall_impl; [exact B2|]. unfold before. cbn. unfold xlim in *. intros. lia. }
      exists retval, bp. split; [done|]. split; [by rewrite touches_right|]. exists (L1 ++ (q, e) :: R). split_and!; [done|done|].
      intros x. rewrite without_left by done. rewrite without_right; [by rewrite lmem_app|done|]. eapply Forall_impl; [exact HT|]. cbn. lia.
    + destruct (St_drop _ _ _ _ _ HS) as (bp1 & E1 & H1). bst E1.
      destruct (IH fuel bp1 L1 1) as (r & bp' & E2 & Hr & L' & H2 & W' & M'); try done; [lia|by apply wfL_app|].
      assert (Hh : (start <? xlim e) && (x_start e <=? start + count) = true) by lia.
      exists r, bp'. split; [done|]. split; [rewrite Hr; cbn; rewrite Hh; by destruct (touches start count R)|]. exists L'. split_and!; [done|done|].
      intros x. rewrite M', !without_left, without_cons by done. cbn [snd]. f_equal.
      destruct (without R start count x); rewrite ?orb_true_r, ?orb_false_r; [done|]. intervals.
    + assert (start <= x_start e) as Hse by (unfold xlim in *; lia).
      rewrite (u64_small (start + count - x_start e)), u64_small by (unfold in_u, xlim in *; lia).
      destruct (St_write _ _ _ _ (mkExt (start + count) (x_count e - (start + count - x_start e))) _ HS) as (bp1 & E1 & H1 & _). bst E1.
      exists 1, bp1. split; [done|]. split; [cbn; by replace ((start <? xlim e) && (x_start e <=? start + count)) with true by lia|]. eexists. split_and!; [exact H1| |].
      * apply wfL_mid. unfold okx, before, xlim in *. cbn [snd x_start x_count]. split_and!; try done; [lia..| |].
        -- eapply Forall_impl; [exact B1|]. cbn. lia.
        -- eapply Forall_impl; [exact B2|]. cbn. intros. lia.
      * intros x. rewrite without_left, without_cons, without_right, lmem_app, lmem_cons; [|done| |done].
        -- cbn [snd]. f_equal. f_equal. intervals.
        -- eapply Forall_impl; [exact B2|]. unfold before, xlim in *. cbn. intros. lia.
Qed.

(** What the search phase leaves for the loop to the right: it starts at the first of [R]. *)
Definition ready (n : nat) bp (parent : option ptr) (start : Z) (f : Z -> bool) (count : Z) (t : bool) : Prop :=
  exists L1 R, St bp (L1 ++ R) /\ wfL lim (L1 ++ R) /\ parent = hd_ptr R /\ Forall (fun e => xlim e.2 <= start) L1 /\
    Forall (fun e => xlim e.2 <= start \/ start <= x_start e.2) R /\ (length R <= n)%nat /\
    (forall x, without (L1 ++ R) start count x = f x) /\ touches start count (L1 ++ R) = t.

(** A position between two extents: the search's parent is one of them. *)
Lemma ready_slot bp L1 L2 parent n start count :
  St bp (L1 ++ L2) -> wfL lim (L1 ++ L2) -> slot (bp_mem bp) L1 L2 parent n -> Forall (fun e => xlim e.2 <= start) L1 ->
  Forall (fun e => start <= x_start e.2) L2 -> ready (length (L1 ++ L2)) bp parent start (without (L1 ++ L2) start count) count (touches start count (L1 ++ L2)).
Proof.
  intros HS Hwf Hsl H1 H2. assert (H2' : Forall (fun e : xelem => xlim e.2 <= start \/ start <= x_start e.2) L2).
  { eapply Forall_impl; [exact H2|]. cbn. lia. }
  destruct (slot_parent _ _ _ _ _ Hsl) as [[HE ->]|[(L & p & a & -> & ->)|(L & p & a & -> & ->)]].
  - apply app_eq_nil in HE as [-> ->]. by exists [], [].
  - exists L, ((p, a) :: L2). rewrite <- app_assoc in *. apply Forall_app in H1 as [H1 [H3 _]%Forall_cons].
    split_and!; try done; [constructor; [by left|done]|rewrite ?length_app; cbn; lia].
  - exists L1, ((p, a) :: L). split_and!; try done. rewrite length_app. cbn. lia.
Qed.

Lemma remove_miss bp L1 L2 start count fuel :
  St bp (L1 ++ L2) -> wfL lim (L1 ++ L2) -> Forall (fun e => xlim e.2 <= start) L1 -> Forall (fun e => start < x_start e.2) L2 ->
  exists parent, remove_search (S fuel) true start count 0 None Lroot bp = Ret (inr (0, parent)) bp /\
    ready (length (L1 ++ L2)) bp parent start (without (L1 ++ L2) start count) count (touches start count (L1 ++ L2)).
Proof.
  intros HS Hwf H1 H2. destruct (St_search_miss lim Hlim bp L1 L2 start HS Hwf H1 H2) as (pa & n & En & Hn).
  exists pa. cbn [remove_search]. bst (St_fuel _ _ HS). split.
  - assert (En' : tree_op (search_loop (S (length (L1 ++ L2))) (extent_cmp start) None Lroot) bp = Ret (false, pa, n) bp).
    { rewrite <- En. unfold tree_op, search, mbind, M_bind, get_fuel.
      pose proof (St_fuel _ _ HS) as Hfu. unfold nodes_fuel, tree_op, get_fuel in Hfu. by injection Hfu as ->. }
    by bst En'.
  - eapply ready_slot; try done. eapply Forall_impl; [exact H2|]. cbn. lia.
Qed.

(** An extent cut at its end: the search goes on below it and finds nothing. *)
Lemma remove_again bp bp1 L1 p e e' L2 k c l r start count fuel :
  St bp (L1 ++ (p, e) :: L2) -> Rep (bp_mem bp) k (T c l p e r) -> redblack (plug k (T c l p e r)) ->
  kleft k ++ elems l = L1 -> elems r ++ kright k = L2 ->
  write_extent (Some p) e' bp = Ret tt bp1 -> St bp1 (L1 ++ (p, e') :: L2) ->
  wfL lim (L1 ++ (p, e') :: L2) -> xlim e' <= start -> Forall (fun x => start < x_start x.2) L2 ->
  exists parent, remove_search (S fuel) true start count 1 (Some p) (klink k) bp1 = Ret (inr (1, parent)) bp1 /\
    ready (length (L1 ++ (p, e') :: L2)) bp1 parent start (without (L1 ++ (p, e') :: L2) start count) count (touches start count (L1 ++ (p, e') :: L2)).
Proof.
  intros HS HR Hrb HL1 HL2 Ew HS1 Hwf He' Hgt. destruct (set_data_rep _ _ _ _ _ _ e' _ HR) as (m' & E1 & R1 & _).
  assert (bp_mem bp1 = m') as Hm by (unfold write_extent, tree_op in Ew; rewrite E1 in Ew; injection Ew as <-; done).
  rewrite <- Hm in R1. pose proof Hwf as (W1 & Ok & W2 & B1 & B2 & B12)%wfL_mid. cbn [snd] in *. pose proof Ok as (O1 & O2 & O3).
  assert (HL1' : Forall (fun x : xelem => xlim x.2 <= start) (L1 ++ [(p, e')])).
  { apply Forall_app. split; [|by constructor]. eapply Forall_impl; [exact B1|]. cbn. unfold xlim in *. intros. lia. }
  pose proof HL1' as HG%(extent_cmp_gt lim Hlim); [|by apply wfL_app; rewrite wfL_app in Hwf; split_and!;
    [done|apply wfL_cons; split_and!; [done|done|apply wfL_nil]|eapply Forall_impl; [exact B1|]; intros x Hx; by constructor]].
  rewrite <- HL1, <- app_assoc in HG. apply Forall_app in HG as [HG1 HG2].
  pose proof Hgt as HLt%(extent_cmp_lt start). rewrite <- HL2 in HLt. apply Forall_app in HLt as [HLt1 HLt2].
  assert (Hsz := Rep_size _ _ _ R1).
  destruct (search_miss_loop (extent_cmp start) (S (length (L1 ++ (p, e') :: L2))) (bp_mem bp1) k (T c l p e' r)
    (elems l ++ [(p, e')]) (elems r)) as (pa & n & En & Hn); try done.
  { pose proof (St_fuel _ _ HS1) as Hfu. unfold nodes_fuel, tree_op, get_fuel in Hfu. injection Hfu as Hfu. rewrite <- Hfu. lia. }
  { by apply (rb_data _ _ _ _ e). }
  { cbn. by rewrite <- app_assoc. }
  exists pa. cbn [remove_search]. bst (St_fuel _ _ HS1).
  rewrite app_assoc, HL1, HL2 in Hn. split.
  - assert (tree_op (search_loop (S (length (L1 ++ (p, e') :: L2))) (extent_cmp start) (Some p) (klink k)) bp1 = Ret (false, pa, n) bp1) as En'.
    { apply tree_read. rewrite <- En. eapply search_loop_parent. by rewrite (R_link _ _ _ R1). }
    by bst En'.
  - replace (L1 ++ (p, e') :: L2) with ((L1 ++ [(p, e')]) ++ L2) in * by (by rewrite <- app_assoc).
    eapply ready_slot; try done. eapply Forall_impl; [exact Hgt|]. cbn. lia.
Qed.

(** The extents around one that is shortened at its end. *)
Lemma wfL_shorten L1 p e L2 c : wfL lim (L1 ++ (p, e) :: L2) -> 0 < c <= x_count e -> wfL lim (L1 ++ (p, mkExt (x_start e) c) :: L2).
Proof.
  intros (W1 & Ok & W2 & B1 & B2 & B12)%wfL_mid Hc. apply wfL_mid. unfold okx, before, xlim in *. cbn [snd x_start x_count] in *.
  split_and!; try done; [lia..|]. eapply Forall_impl; [exact B2|]. cbn. intros. lia.
Qed.

Lemma remove_hit bp L1 p e L2 start count fuel :
  St bp (L1 ++ (p, e) :: L2) -> wfL lim (L1 ++ (p, e) :: L2) -> x_start e <= start < xlim e -> 0 <= count -> start + count <= lim ->
  (exists bp', remove_search (S (S fuel)) true start count 0 None Lroot bp = Ret (inl 1) bp' /\
     changed lim bp' (without (L1 ++ (p, e) :: L2) start count)) \/
  (exists t parent bp', remove_search (S (S fuel)) true start count 0 None Lroot bp = Ret (inr (1, parent)) bp' /\
     ready (length (L1 ++ (p, e) :: L2)) bp' parent start (without (L1 ++ (p, e) :: L2) start count) count t).
Proof.
  intros HS Hwf He Hc Hle. destruct (beside lim _ _ _ _ start Hwf ltac:(lia)) as [B1 B2].
  pose proof Hwf as (W1 & Ok & W2 & G1 & G2 & G12)%wfL_mid. cbn [snd] in *. pose proof Ok as (O1 & O2 & O3).
  pose proof HS as ((t & HR & Hrb & Ht) & _ & _).
  destruct (search_hit_loop (extent_cmp start) (S (length (L1 ++ (p, e) :: L2))) (bp_mem bp) [] t L1 p e L2)
    as (k & c & l & r & En & Rk & Pk & K1 & K2); try done.
  { pose proof (St_fuel _ _ HS) as Hfu. unfold nodes_fuel, tree_op, get_fuel in Hfu. injection Hfu as Hfu. rewrite <- Hfu.
    pose proof (Rep_size _ _ _ HR). lia. }
  { apply (extent_cmp_gt lim Hlim); [done|by apply Forall_lt_le]. } { by apply (extent_cmp_eq lim). } { by apply extent_cmp_lt. }
  cbn in K1, Pk. rewrite app_nil_r in K2. assert (redblack (plug k (T c l p e r))) as Hrb' by (by rewrite Pk).
  remember (S fuel) as fuel1 eqn:Hfuel. cbn [remove_search]. bst (St_fuel _ _ HS).
  rewrite (bbind _ _ _ _ _ (tree_read _ _ _ En)). cbn [negb].
  bst (St_data _ _ p e HS ltac:(set_solver)). rewrite (x_end_ok lim e) by done.
  rewrite (u64_small (start + count)), (u64_small (start - x_start e)) by (unfold in_u; lia).
  assert (HW : forall x, without (L1 ++ (p, e) :: L2) start count x =
    lmem L1 x || (inx e x && negb (inx (mkExt start count) x)) || without L2 start count x).
  { intros x. rewrite without_left, without_cons by (by apply Forall_lt_le). by rewrite orb_assoc. }
  destruct (bool_decide (start > x_start e) && bool_decide (start + count < xlim e)) eqn:Csplit.
  - (* split *)
    apply andb_true_iff in Csplit as [C1 C2]. apply bool_decide_eq_true in C1, C2. left.
    destruct (St_write _ _ _ _ (mkExt (x_start e) (start - x_start e)) _ HS) as (bp1 & E1 & H1 & _). bst E1.
    rewrite u64_small by (unfold in_u; lia).
    destruct (insert_extent_ok lim Hlim bp1 _ (start + count) (xlim e - (start + count)) H1) as (bp2 & E2 & L' & H2 & W' & M');
      [by apply wfL_shorten; [|unfold xlim in *; lia]|lia..|]. bst E2. exists bp2. split; [done|]. exists L'. split_and!; [done|done|].
    intros x. rewrite M', HW, lmem_app, lmem_cons, without_right; [|done|].
    + cbn [snd]. intervals.
    + eapply Forall_impl; [exact G2|]. unfold before. cbn. intros. lia.
  - apply andb_false_iff in Csplit as Csp. rewrite !bool_decide_eq_false in Csp. destruct (decide (start + count >= xlim e)) as [C1|C1].
    + destruct (St_write _ _ _ _ (mkExt (x_start e) (start - x_start e)) _ HS) as (bp1 & E1 & H1 & _).
      rewrite (bbind _ _ bp (mkExt (x_start e) (start - x_start e), 1) bp1) by (by bst E1). cbn [x_start x_count]. right.
      destruct (decide (0 = start - x_start e)) as [C2|C2].
      * (* the whole extent goes *)
        bst (St_next _ _ _ _ _ H1). destruct (St_drop _ _ _ _ _ H1) as (bp2 & E2 & H2). bst E2. exists (touches start count (L1 ++ L2)), (hd_ptr L2), bp2.
        split; [done|]. exists L1, L2. split_and!; [done|by apply wfL_app|done|by apply Forall_lt_le| |rewrite length_app; cbn; lia| |done].
        -- eapply Forall_impl; [exact B2|]. cbn. lia.
        -- intros x. rewrite HW, without_left by (by apply Forall_lt_le). f_equal. intervals.
      * rewrite decide_False by lia.
        destruct (remove_again bp bp1 L1 p e _ L2 k c l r start count fuel HS Rk Hrb' K1 K2 E1 H1) as (pa & E3 & L1' & R' & Q1 & Q2 & Q3 & Q4 & Q5 & Q6 & Q7 & Q8);
          [by apply wfL_shorten; [|unfold xlim in *; lia]|unfold xlim; cbn; lia|done|].
        eexists _, pa, bp1. split; [by rewrite Hfuel|]. exists L1', R'. split_and!; try done; [rewrite length_app in *; done|]. intros x. rewrite Q7.
        rewrite without_left, without_cons, HW, <- orb_assoc by (by apply Forall_lt_le). cbn [snd]. f_equal. f_equal. intervals.
    + (* cut at its start *)
      rewrite bret. rewrite decide_False by lia. rewrite decide_True by (unfold xlim in *; lia). left.
      rewrite (u64_small (x_start e + count)), u64_small by (unfold in_u, xlim in *; lia).
      destruct (St_write _ _ _ _ (mkExt (x_start e + count) (x_count e - count)) _ HS) as (bp1 & E1 & H1 & _). bst E1.
      exists bp1. split; [done|]. eexists. split_and!; [exact H1| |].
      * apply wfL_mid. unfold okx, before, xlim in *. cbn [snd x_start x_count]. split_and!; try done; [lia..| |].
        -- eapply Forall_impl; [exact G1|]. cbn. lia.
        -- eapply Forall_impl; [exact G2|]. cbn. intros. lia.
      * intros x. rewrite HW, lmem_app, lmem_cons, without_right; [|done|].
        -- cbn [snd]. assert (x_start e = start) as Hst by (unfold xlim in *; lia). intervals.
        -- eapply Forall_impl; [exact G2|]. unfold before. cbn. intros. lia.
Qed.

Lemma finish_right bp parent start f count retval n t :
  0 <= start -> 0 <= count -> start + count <= lim -> ready n bp parent start f count t ->
  exists r bp', remove_right (S n) parent start count retval bp = Ret r bp' /\ r = (if t then 1 else retval) /\ changed lim bp' f.
Proof.
  intros H0 Hc Hle (L1 & R & HS & Hwf & -> & H1 & H2 & Hn & HM & <-).
  destruct (remove_right_ok start count H0 Hc Hle R (S n) bp L1 retval) as (r & bp' & E1 & Hr & L' & Q1 & Q2 & Q3); try done; [lia|].
  exists r, bp'. split_and!; [done|by rewrite touches_left|]. exists L'. split_and!; [done|done|]. intros x. by rewrite Q3, HM.
Qed.

(** [rb_remove_extent] removes the numbers; it returns 1 when one of them was there, and also
    when the number after them is there. *)
Lemma remove_extent_ok bp L start count :
  St bp L -> wfL lim L -> 0 <= start -> 0 <= count -> start + count <= lim ->
  exists r bp', rb_remove_extent true start count bp = Ret r bp' /\ r = Z.b2z (lmem L start || touches start count L) /\
    changed lim bp' (without L start count).
Proof.
  intros HS Hwf H0 Hc Hle. unfold rb_remove_extent. bst (St_empty _ _ HS). case_bool_decide as HE.
  - subst L. exists 0, bp. split; [done|]. split; [done|]. by exists [].
  - bst (St_fuel _ _ HS).
    destruct (extent_split lim L start Hwf) as [(L1 & p & e & L2 & -> & He)|(L1 & L2 & -> & H1 & H2)].
    + rewrite lmem_hit by done. destruct (remove_hit bp L1 p e L2 start count (length (L1 ++ (p, e) :: L2)) HS Hwf He Hc Hle)
        as [(bp1 & E1 & C1)|(t & pa & bp1 & E1 & Hrd)]; bst E1; [by exists 1, bp1|].
      destruct (finish_right bp1 pa start _ count 1 (length (L1 ++ (p, e) :: L2)) t H0 Hc Hle Hrd) as (r & bp2 & E2 & Hr & C2).
      exists r, bp2. split_and!; [done|by destruct t|done].
    + rewrite lmem_gap by done. destruct (remove_miss bp L1 L2 start count (S (length (L1 ++ L2))) HS Hwf H1 H2) as (pa & E1 & Hrd). bst E1.
      destruct (finish_right bp pa start _ count 0 (length (L1 ++ L2)) _ H0 Hc Hle Hrd) as (r & bp2 & E2 & Hr & C2).
      exists r, bp2. split_and!; [done|by rewrite Hr; cbn; destruct (touches _ _ _)|done].
Qed.

End removal.
