(* ===== verification/RbOps.v ===== *)
(** The tests, the searches and the other operations of [blkmap64_rb.c] on the set of numbers, and
    those on the whole tree: release, truncation, copy. *)
From Stdlib Require Import ZArith Lia Sorting.Sorted.
From stdpp Require Import base tactics numbers list gmap sorting.
From S2P Require Import Prelude ExtErr Bitops BitmapOps Rbtree RbtreeProofs RbtreeBalance RbtreeErase RbtreeList RbBitmap RbBitmapProofs RbExtents.
From S2P Require Import RbRemove.

Implicit Types (L R : list xelem) (bp : ext2fs_rb_private).

Section tests.
Context (lim : Z) (Hlim : lim < 2 ^ 64).

Lemma inside_ok e bit : okx lim e -> inside bit e = inx e bit.
Proof. intros Ok. unfold inside, inx. rewrite (x_end_ok lim) by done. repeat case_bool_decide; cbn; lia. Qed.

Lemma wfL_ok L p e : wfL lim L -> (p, e) ∈ L -> okx lim e.
Proof. intros [H _] Hin. rewrite Forall_forall in H. by apply (H _ Hin). Qed.

(** Outside its extent and before the next one a number is not there. *)
Lemma lmem_between L1 p e L2 bit :
  wfL lim (L1 ++ (p, e) :: L2) -> xlim e <= bit -> Forall (fun x => bit < x_start x.2) L2 -> lmem (L1 ++ (p, e) :: L2) bit = false.
Proof.
  intros (W1 & Ok & W2 & B1 & _)%wfL_mid Hb H2. cbn [snd] in *. replace (L1 ++ (p, e) :: L2) with ((L1 ++ [(p, e)]) ++ L2) by (by rewrite <- app_assoc).
  apply lmem_gap; [|done]. apply Forall_app. split; [|by constructor]. destruct Ok as (O1 & O2 & O3).
  eapply Forall_impl; [exact B1|]. cbn. unfold xlim in *. intros. lia.
Qed.

Lemma search_tree_ok bp L bit :
  St bp L -> wfL lim L ->
  exists bp', search_tree bit bp = Ret (Z.b2z (lmem L bit)) bp' /\ St bp' L /\ bp_mem bp' = bp_mem bp.
Proof.
  intros HS Hwf. unfold search_tree. destruct (extent_split lim L bit Hwf) as [(L1 & p & e & L2 & -> & He)|(L1 & L2 & -> & H1 & H2)].
  - destruct (St_search_hit lim Hlim _ _ _ _ _ _ HS Hwf He) as [n En]. bst En. rewrite lmem_hit by done.
    eexists. split; [reflexivity|]. split; [|done]. apply (St_cursors bp (wcursor bp) (Some p) None); [done|].
    destruct HS as (_ & _ & C1 & C2 & C3). split_and!; cbn; [done| |done]. intros q [= <-]. rewrite fmap_app. set_solver.
  - destruct (St_search_miss lim Hlim _ _ _ _ HS Hwf H1 H2) as (pa & n & En & _). bst En. rewrite lmem_gap by done. by exists bp.
Qed.

(** After a miss of the read cursor: the write cursor, then the tree. *)
Lemma test_rest_ok bp L bit :
  St bp L -> wfL lim L ->
  exists bp', (set_rcursor None;; set_rcursor_next None;;
     w ← get_wcursor;
     match w with
     | None => search_tree bit
     | Some _ => e ← node_to_extent w; if inside bit e then mret 1 else search_tree bit
     end) bp = Ret (Z.b2z (lmem L bit)) bp' /\ St bp' L /\ bp_mem bp' = bp_mem bp.
Proof.
  intros HS Hwf. set (bp0 := mkBp (bp_mem bp) (wcursor bp) None None).
  assert (HS0 : St bp0 L) by (apply St_cursors; [done|]; destruct HS as (_ & _ & C1 & _); done).
  assert (E1 : set_rcursor None bp = Ret tt (mkBp (bp_mem bp) (wcursor bp) None (rcursor_next bp))) by done. bst E1.
  assert (E2 : set_rcursor_next None (mkBp (bp_mem bp) (wcursor bp) None (rcursor_next bp)) = Ret tt bp0) by done. bst E2.
  assert (E3 : get_wcursor bp0 = Ret (wcursor bp) bp0) by done. bst E3. change (bp_mem bp) with (bp_mem bp0).
  destruct (wcursor bp) as [q|] eqn:Hw; [|by apply search_tree_ok].
  assert (Hq : q ∈ L.*1) by (destruct HS as (_ & _ & C1 & _); by apply C1). apply list_elem_of_fmap in Hq as ([q' e] & -> & Hin).
  cbn [fst] in *. bst (St_data _ _ _ _ HS0 Hin). rewrite inside_ok by (by eapply wfL_ok). destruct (inx e bit) eqn:Hi; [|by apply search_tree_ok].
  exists bp0. split_and!; [|done|done]. apply list_elem_of_split in Hin as (L1 & L2 & ->). rewrite lmem_hit; [done|]. unfold inx in Hi. lia.
Qed.

(** [rb_test_bit]: the cursors never change the answer. *)
Lemma test_bit_ok bp L bit :
  St bp L -> wfL lim L ->
  exists bp', rb_test_bit bit bp = Ret (Z.b2z (lmem L bit)) bp' /\ St bp' L /\ bp_mem bp' = bp_mem bp.
Proof.
  intros HS Hwf. unfold rb_test_bit. assert (get_rcursor bp = Ret (rcursor bp) bp) as E0 by done. bst E0.
  destruct (rcursor bp) as [p|] eqn:Hr; [|by apply search_tree_ok].
  pose proof HS as (_ & _ & C1 & C2 & C3). pose proof (C2 p Hr) as Hp. apply list_elem_of_fmap in Hp as ([p' e] & -> & Hin). cbn [fst] in *.
  bst (St_data _ _ _ _ HS Hin). pose proof (wfL_ok _ _ _ Hwf Hin) as Ok. rewrite inside_ok by done.
  apply list_elem_of_split in Hin as (L1 & L2 & ->). destruct (inx e bit) eqn:Hi.
  { exists bp. split_and!; [|done|done]. rewrite lmem_hit; [done|]. unfold inx in Hi. lia. }
  assert (get_rcursor_next bp = Ret (rcursor_next bp) bp) as E1 by done. bst E1.
  (* the next extent, from the cache or from the tree *)
  assert (exists bp1, (match rcursor_next bp with
      | Some q => mret (Some q)
      | None => next ← next_of (Some p'); set_rcursor_next next;; mret next end : B (option ptr)) bp = Ret (hd_ptr L2) bp1 /\
      St bp1 (L1 ++ (p', e) :: L2) /\ bp_mem bp1 = bp_mem bp) as (bp1 & E2 & HS1 & Hm1).
  { destruct (rcursor_next bp) as [q|] eqn:Hn.
    - destruct (C3 _ _ Hr eq_refl) as (M1 & a & b & M2 & HM).
      destruct (app_cons_same _ _ _ _ _ _ _ (St_nodup _ _ HS) HM) as (-> & -> & ->). by exists bp.
    - bst (St_next _ _ _ _ _ HS). eexists. split; [reflexivity|]. split; [|done]. cbn.
      apply (St_cursors bp (wcursor bp) (rcursor bp) (hd_ptr L2)); [done|]. split_and!; cbn; [done|done|]. intros x y Hx Hy.
      assert (x = p') as -> by congruence. destruct L2 as [|[q b] L2]; [done|]. injection Hy as <-. by exists L1, e, b, L2. }
  rewrite (bbind _ _ bp (hd_ptr L2) bp1) by (rewrite <- E2; by destruct (rcursor_next bp)).
  assert (Hgap : forall gap : bool, (gap = true -> lmem (L1 ++ (p', e) :: L2) bit = false) ->
    exists bp', (if gap then mret 0 else set_rcursor None;; set_rcursor_next None;;
       w ← get_wcursor;
       match w with
       | None => search_tree bit
       | Some _ => e ← node_to_extent w; if inside bit e then mret 1 else search_tree bit
       end) bp1 = Ret (Z.b2z (lmem (L1 ++ (p', e) :: L2) bit)) bp' /\ St bp' (L1 ++ (p', e) :: L2) /\ bp_mem bp' = bp_mem bp).
  { intros gap Hg. destruct gap.
    - rewrite Hg by done. by exists bp1.
    - rewrite <- Hm1. by apply test_rest_ok. }
  destruct L2 as [|[q b] L2]; cbn [hd_ptr head fmap option_fmap option_map fst].
  - rewrite bret. by apply (Hgap false).
  - assert (Hin : (q, b) ∈ L1 ++ (p', e) :: (q, b) :: L2) by set_solver.
    rewrite (bbind _ _ bp1 (bool_decide (bit >= x_end e) && bool_decide (bit < x_start b)) bp1) by (by bst (St_data _ _ _ _ HS1 Hin)).
    apply Hgap. intros [G1 G2]%andb_true_iff. apply bool_decide_eq_true in G1, G2. rewrite (x_end_ok lim) in G1 by done.
    apply lmem_between; [done|lia|]. apply wfL_mid in Hwf as (_ & _ & W2 & _). by eapply wfL_after.
Qed.

End tests.

Section searches.
Context (lim : Z) (Hlim : lim < 2 ^ 64).

Lemma test_clear_loop_ok start len (Hs : 0 <= start) (Hl : 0 < len) (Hle : start + len <= lim) R : forall fuel bp L1,
  (length R < fuel)%nat -> St bp (L1 ++ R) -> wfL lim (L1 ++ R) -> Forall (fun e => xlim e.2 <= start) L1 ->
  Forall (fun e => xlim e.2 <= start \/ start < x_start e.2) R ->
  exists r, test_clear_loop fuel (hd_ptr R) start len bp = Ret r bp /\
    ((r = 1 /\ forall x, start <= x < start + len -> lmem (L1 ++ R) x = false) \/
     (r = 0 /\ exists x, start <= x < start + len /\ lmem (L1 ++ R) x = true)).
Proof.
  induction R as [|[q e] R IH]; intros [|fuel] bp L1 Hf HS Hwf HL HR; cbn [length] in Hf; try lia.
  - exists 1. split; [done|]. left. split; [done|]. intros x Hx. rewrite app_nil_r. apply (lmem_below _ start); [done|lia].
  - cbn [test_clear_loop hd_ptr head fmap option_fmap option_map fst]. bst (St_next _ _ _ _ _ HS).
    bst (St_data _ _ q e HS ltac:(set_solver)). pose proof Hwf as (W1 & Ok & W2 & B1 & B2 & B12)%wfL_mid. cbn [snd] in *.
    rewrite (x_end_ok _ _ Ok Hlim). rewrite (u64_small (start + len)) by (unfold in_u; lia).
    apply Forall_cons in HR as [He HR]. cbn [snd] in He. pose proof Ok as (O1 & O2 & O3). case_decide as C1; [|case_decide as C2].
    + replace (L1 ++ (q, e) :: R) with ((L1 ++ [(q, e)]) ++ R) in * by (by rewrite <- app_assoc).
      apply IH; try done; [lia|]. apply Forall_app. split; [done|]. by constructor.
    + exists 1. split; [done|]. left. split; [done|]. intros x Hx. apply lmem_gap; [eapply Forall_impl; [exact HL|]; cbn; lia|].
      constructor; [cbn; lia|]. eapply Forall_impl; [exact B2|]. unfold before, xlim in *. cbn. intros. lia.
    + exists 0. split; [done|]. right. split; [done|]. exists (x_start e). split; [lia|]. apply lmem_hit. unfold xlim. lia.
Qed.

Lemma test_clear_ok bp L start len :
  St bp L -> wfL lim L -> 0 <= start -> 0 <= len -> start + len <= lim ->
  exists r, test_clear start len bp = Ret r bp /\
    ((r = 1 /\ forall x, start <= x < start + len -> lmem L x = false) \/
     (r = 0 /\ exists x, start <= x < start + len /\ lmem L x = true)).
Proof.
  intros HS Hwf H0 Hl Hle. unfold test_clear. bst (St_empty _ _ HS).
  destruct (decide (len = 0)) as [->|Hlen].
  { rewrite bool_decide_eq_true_2 by done. exists 1. split; [done|]. left. split; [done|]. lia. }
  rewrite bool_decide_eq_false_2 by done. cbn [orb]. case_bool_decide as HE.
  { subst L. exists 1. split; [done|]. by left. }
  destruct (extent_split lim L start Hwf) as [(L1 & p & e & L2 & -> & He)|(L1 & L2 & -> & H1 & H2)].
  - destruct (St_search_hit lim Hlim _ _ _ _ _ _ HS Hwf He) as [n En]. bst En. exists 0. split; [done|]. right. split; [done|].
    exists start. split; [lia|]. by apply lmem_hit.
  - destruct (St_search_miss lim Hlim _ _ _ _ HS Hwf H1 H2) as (pa & n & En & Hn). bst En. bst (St_fuel _ _ HS).
    assert (H2' : Forall (fun e : xelem => xlim e.2 <= start \/ start < x_start e.2) L2) by (eapply Forall_impl; [exact H2|]; cbn; lia).
    destruct (slot_parent _ _ _ _ _ Hn) as [[HE' ->]|[(L & p & a & -> & ->)|(L & p & a & -> & ->)]]; [done|..].
    + rewrite <- app_assoc in *. apply Forall_app in H1 as [H1 [H3 _]%Forall_cons].
      apply (test_clear_loop_ok start len H0 ltac:(lia) Hle ((p, a) :: L2)); try done; [rewrite length_app; cbn; lia|].
      constructor; [by left|done].
    + apply (test_clear_loop_ok start len H0 ltac:(lia) Hle ((p, a) :: L)); try done. rewrite length_app; cbn; lia.
Qed.

(** The search for a clear number, in a tree that is not empty. *)
Lemma find_zero_ok bp L s e :
  St bp L -> wfL lim L -> L <> [] -> s <= e -> exists r, find_zero s e bp = Ret r bp /\ first_in (lmem L) false s e r.
Proof.
  intros HS Hwf HL Hse. unfold find_zero. rewrite decide_False by lia. bst (St_empty _ _ HS). rewrite bool_decide_eq_false_2 by done.
  destruct (extent_split lim L s Hwf) as [(L1 & p & x & L2 & -> & He)|(L1 & L2 & -> & H1 & H2)].
  - destruct (St_search_hit lim Hlim _ _ _ _ _ _ HS Hwf He) as [n En]. bst En. bst (St_data _ _ p x HS ltac:(set_solver)).
    pose proof Hwf as (W1 & Ok & W2 & B1 & B2 & B12)%wfL_mid. cbn [snd] in *. rewrite (x_end_ok lim) by done.
    eexists. split; [reflexivity|]. case_decide as C1.
    + left. exists (xlim x). split_and!; [done|lia|lia| |].
      * by apply (lmem_between lim).
      * intros y Hy. apply lmem_hit. lia.
    + right. split; [done|]. intros y Hy. apply lmem_hit. lia.
  - destruct (St_search_miss lim Hlim _ _ _ _ HS Hwf H1 H2) as (pa & n & En & _). bst En. eexists. split; [reflexivity|].
    left. exists s. split_and!; [done|lia|lia|by apply lmem_gap|]. intros y Hy. lia.
Qed.

(** An empty tree has no clear number, says the search. *)
Lemma find_zero_empty bp s e : St bp [] -> s <= e -> find_zero s e bp = Ret (ENOENT, None) bp.
Proof. intros HS Hse. unfold find_zero. rewrite decide_False by lia. by bst (St_empty _ _ HS). Qed.

(** The first extent after a gap. *)
Lemma first_after L1 q x L2 s e :
  wfL lim (L1 ++ (q, x) :: L2) -> Forall (fun e => xlim e.2 <= s) L1 -> s < x_start x -> s <= e ->
  first_in (lmem (L1 ++ (q, x) :: L2)) true s e (if decide (x_start x <= e) then (0, Some (x_start x)) else (ENOENT, None)).
Proof.
  intros Hwf H1 Hx Hse. pose proof Hwf as (W1 & Ok & W2 & B1 & B2 & B12)%wfL_mid. cbn [snd] in *. destruct Ok as (O1 & O2 & O3).
  assert (Hgap : forall y, s <= y < x_start x -> lmem (L1 ++ (q, x) :: L2) y = false).
  { intros y Hy. apply lmem_gap; [eapply Forall_impl; [exact H1|]; cbn; lia|]. constructor; [cbn; lia|].
    eapply Forall_impl; [exact B2|]. unfold before, xlim. cbn. intros. lia. }
  case_decide as C1.
  - left. exists (x_start x). split_and!; [done|lia|lia|apply lmem_hit; unfold xlim; lia|]. intros y Hy. by apply Hgap.
  - right. split; [done|]. intros y Hy. apply Hgap. lia.
Qed.

Lemma find_set_ok bp L s e :
  St bp L -> wfL lim L -> s <= e -> exists r, find_set s e bp = Ret r bp /\ first_in (lmem L) true s e r.
Proof.
  intros HS Hwf Hse. unfold find_set. rewrite decide_False by lia. bst (St_empty _ _ HS). case_bool_decide as HE.
  { subst L. eexists. split; [reflexivity|]. by right. }
  destruct (extent_split lim L s Hwf) as [(L1 & p & x & L2 & -> & He)|(L1 & L2 & -> & H1 & H2)].
  { destruct (St_search_hit lim Hlim _ _ _ _ _ _ HS Hwf He) as [n En]. bst En. eexists. split; [reflexivity|].
    left. exists s. split_and!; [done|lia|lia|by apply lmem_hit|]. intros y Hy. lia. }
  destruct (St_search_miss lim Hlim _ _ _ _ HS Hwf H1 H2) as (pa & n & En & Hn). bst En.
  destruct (slot_parent _ _ _ _ _ Hn) as [[HE' ->]|[(L & p & a & -> & ->)|(L & p & a & -> & ->)]]; [done|..].
  - rewrite <- app_assoc in *. cbn [app] in *. bst (St_data _ _ p a HS ltac:(set_solver)).
    pose proof H1 as [H1' [H3 _]%Forall_cons]%Forall_app. cbn in H3. pose proof Hwf as (W1 & Ok & W2 & _)%wfL_mid. cbn [snd] in Ok.
    rewrite decide_True by (destruct Ok; unfold xlim in *; lia). bst (St_next _ _ _ _ _ HS). destruct L2 as [|[q x] L2]; cbn [hd_ptr head fmap option_fmap option_map fst].
    + eexists. split; [reflexivity|]. right. split; [done|]. intros y Hy.
      rewrite (lmem_below _ s); [done|done|lia].
    + bst (St_data _ _ q x HS ltac:(set_solver)). eexists. split; [reflexivity|].
      replace (L ++ (p, a) :: (q, x) :: L2) with ((L ++ [(p, a)]) ++ (q, x) :: L2) in * by (by rewrite <- app_assoc).
      apply first_after; try done. by apply Forall_cons in H2 as [? _].
  - bst (St_data _ _ p a HS ltac:(set_solver)). pose proof H2 as [H3 _]%Forall_cons. cbn in H3. rewrite decide_False by lia.
    eexists. split; [reflexivity|]. by apply first_after.
Qed.

(** [check_tree] accepts every well-formed list. *)
Lemma check_tree_loop_ok R : forall fuel bp L1 old,
  (length R < fuel)%nat -> St bp (L1 ++ R) -> wfL lim (L1 ++ R) ->
  match old with None => True | Some o => exists L p, L1 = L ++ [(p, o)] end ->
  check_tree_loop fuel (hd_ptr R) old bp = Ret true bp.
Proof.
  induction R as [|[q e] R IH]; intros [|fuel] bp L1 old Hf HS Hwf Hold; cbn [length] in Hf; try lia; [done|].
  cbn [check_tree_loop hd_ptr head fmap option_fmap option_map fst]. bst (St_data _ _ q e HS ltac:(set_solver)).
  pose proof Hwf as (W1 & Ok & W2 & B1 & B2 & B12)%wfL_mid. cbn [snd] in *. rewrite (x_end_ok lim) by done. pose proof Ok as (O1 & O2 & O3).
  rewrite decide_False by lia. rewrite decide_False by (unfold xlim; lia).
  assert (Hb : match old with
               | Some o => bool_decide (x_start o > x_start e) || bool_decide (x_end o >= x_start e)
               | None => false end = false).
  { destruct old as [o|]; [|done]. destruct Hold as (L & p & ->). apply wfL_app in W1 as (_ & (Oo & _)%wfL_cons & _). cbn [snd] in Oo.
    apply Forall_app in B1 as [_ [B1 _]%Forall_cons]. cbn in B1. rewrite (x_end_ok lim) by done. destruct Oo as (P1 & P2 & P3). unfold xlim in *.
    by rewrite !bool_decide_eq_false_2 by lia. }
  rewrite Hb. bst (St_next _ _ _ _ _ HS). apply (IH fuel bp (L1 ++ [(q, e)])); [lia|by rewrite <- app_assoc..|]. by exists L1, q.
Qed.

Lemma check_tree_ok bp L : St bp L -> wfL lim L -> check_tree bp = Ret true bp.
Proof.
  intros HS Hwf. unfold check_tree. bst (St_fuel _ _ HS).
  rewrite (bbind _ _ _ _ _ (tree_read _ _ _ (first_list _ _ (proj1 HS)))). apply (check_tree_loop_ok L _ _ []); try done. lia.
Qed.

End searches.


(** The memory alone, whatever the cursors. *)
Definition Tr bp L : Prop := holds (bp_mem bp) L /\ dom (m_heap (bp_mem bp)) = list_to_set (C := gset ptr) L.*1.

Lemma St_Tr bp L : St bp L -> Tr bp L.
Proof. by intros (H1 & H2 & _). Qed.

Lemma Tr_St bp L : Tr bp L -> wcursor bp = None -> rcursor bp = None -> St bp L.
Proof. intros (H1 & H2) Hw Hr. split_and!; [done|done|]. unfold cursors. rewrite Hw, Hr. done. Qed.

(** Steps that do not look at the cursors, on a state without them. *)
Definition bare bp : ext2fs_rb_private := mkBp (bp_mem bp) None None None.

Lemma Tr_bare bp L : Tr bp L -> St (bare bp) L.
Proof. intros H. by apply Tr_St. Qed.

Lemma tree_op_bare {X} (f : M bmap_rb_extent X) bp x bp' :
  tree_op f (bare bp) = Ret x bp' -> tree_op f bp = Ret x (set_mem (bp_mem bp') bp).
Proof. unfold tree_op. cbn. destruct (f (bp_mem bp)) as [[y m]|]; [|done]. intros [= <- <-]. done. Qed.

Lemma Tr_read {X} (f : M bmap_rb_extent X) bp L x :
  Tr bp L -> (St (bare bp) L -> tree_op f (bare bp) = Ret x (bare bp)) -> tree_op f bp = Ret x bp.
Proof. intros H Hf. rewrite (tree_op_bare _ _ _ _ (Hf (Tr_bare _ _ H))). by destruct bp. Qed.

Lemma Tr_drop bp L1 p a L2 : Tr bp (L1 ++ (p, a) :: L2) ->
  exists bp1 bp2, tree_op (ext2fs_rb_erase (Some p)) bp = Ret tt bp1 /\ free_mem (Some p) bp1 = Ret tt bp2 /\ Tr bp2 (L1 ++ L2) /\
    same_cursors bp bp2.
Proof.
  intros (H & Hd). pose proof (holds_nodup _ _ H) as Hnd.
  assert (Hp : p ∉ (L1 ++ L2).*1).
  { rewrite fmap_app in *. cbn in Hnd. rewrite <- Permutation_middle in Hnd. by apply NoDup_cons in Hnd as [? _]. }
  destruct (erase_list _ _ _ _ _ H) as (m & E1 & I1 & D1). exists (set_mem m bp). unfold tree_op. rewrite E1.
  eexists. split; [done|]. split; [reflexivity|]. split; [|done]. split; cbn.
  - eapply holds_agree; [..|exact I1]; [done|]. intros q Hq. cbn. apply lookup_delete_ne. set_solver.
  - rewrite dom_delete_L, D1, Hd, fmap_app, !list_to_set_app_L, fmap_app. cbn. rewrite fmap_app in Hp.
    rewrite !list_to_set_app_L. set_solver.
Qed.

(** * Release *)

Lemma free_tree_loop_ok L : forall fuel bp, (length L < fuel)%nat -> Tr bp L ->
  exists bp', free_tree_loop fuel (hd_ptr L) bp = Ret tt bp' /\ Tr bp' [] /\ same_cursors bp bp'.
Proof.
  induction L as [|[p a] L IH]; intros [|fuel] bp Hf HT; cbn [length] in Hf; try lia.
  - by exists bp.
  - cbn [free_tree_loop hd_ptr head fmap option_fmap option_map fst].
    rewrite (bbind _ _ _ _ _ (Tr_read _ _ _ _ HT (fun HS => St_next _ [] _ _ _ HS))).
    destruct (Tr_drop bp [] p a L HT) as (bp1 & bp2 & E1 & E2 & H2 & C2). bst E1. bst E2.
    destruct (IH fuel bp2) as (bp' & E3 & H3 & C3); [lia|done|]. exists bp'. split_and!; [done|done|].
    unfold same_cursors in *. intuition congruence.
Qed.

Lemma free_tree_ok bp L : Tr bp L -> exists bp', rb_free_tree bp = Ret tt bp' /\ bp_mem bp' = mkMem None ∅ /\ same_cursors bp bp'.
Proof.
  intros HT. unfold rb_free_tree. rewrite (bbind _ _ _ _ _ (Tr_read _ _ _ _ HT (St_fuel _ _))).
  rewrite (bbind _ _ _ _ _ (tree_read _ _ _ (first_list _ _ (proj1 HT)))).
  destruct (free_tree_loop_ok L (S (length L)) bp) as (bp' & E1 & (H1 & H2) & H3); [lia|done|]. exists bp'. split_and!; [done| |done].
  cbn in H2. apply dom_empty_inv_L in H2. pose proof (proj2 (holds_root _ _ H1) eq_refl) as Hr. destruct (bp_mem bp') as [r h]. cbn in *. by subst.
Qed.

(** * Truncation *)

Lemma wfL_mono lim lim' L : wfL lim L -> Forall (fun e => xlim e.2 <= lim') L -> wfL lim' L.
Proof.
  intros [H1 H2] H3. split; [|done]. apply Forall_forall. intros e He. rewrite Forall_forall in H1, H3.
  destruct (H1 e He) as (? & ? & _). by repeat split; try apply (H3 e He).
Qed.

(** The last extent ends last. *)
Lemma wfL_last lim L p e : wfL lim (L ++ [(p, e)]) -> Forall (fun x => xlim x.2 <= xlim e) (L ++ [(p, e)]).
Proof.
  intros (W1 & Ok & _ & B1 & _)%wfL_mid. cbn [snd] in *. apply Forall_app. split; [|by constructor].
  destruct Ok as (O1 & O2 & _). eapply Forall_impl; [exact B1|]. unfold xlim. cbn. intros. lia.
Qed.

Section truncate.
Context (lim : Z) (Hlim : lim < 2 ^ 64).

Lemma truncate_stop fuel new_max bp L p e :
  Tr bp (L ++ [(p, e)]) -> wfL lim (L ++ [(p, e)]) -> xlim e - 1 <= new_max -> truncate_loop (S fuel) new_max (Some p) bp = Ret tt bp.
Proof.
  intros HT Hwf He. cbn [truncate_loop]. pose proof Hwf as (_ & Ok & _)%wfL_mid. cbn [snd] in Ok. pose proof Ok as (O1 & O2 & O3).
  assert (Hin : (p, e) ∈ L ++ [(p, e)]) by set_solver.
  rewrite (bbind _ _ _ _ _ (Tr_read _ _ _ _ HT (fun HS => St_data _ _ _ _ HS Hin))). rewrite (x_end_ok lim) by done.
  rewrite u64_small by (unfold in_u, xlim in *; lia). by rewrite decide_True by lia.
Qed.

Lemma truncate_ok new_max (Hm : 0 <= new_max < 2 ^ 64 - 1) L : forall fuel bp,
  (length L + 1 < fuel)%nat -> Tr bp L -> wfL lim L ->
  exists bp' L', truncate_loop fuel new_max (last_ptr L) bp = Ret tt bp' /\ Tr bp' L' /\ wfL (new_max + 1) L' /\ same_cursors bp bp' /\
    forall x, lmem L' x = lmem L x && (x <=? new_max).
Proof.
  induction L as [|[p e] L IH] using rev_ind; intros [|fuel] bp Hf HT Hwf; rewrite ?length_app in Hf; cbn [length] in Hf; try lia.
  - exists bp, []. split_and!; [done|done|apply wfL_nil|done|done].
  - assert (last_ptr (L ++ [(p, e)]) = Some p) as -> by (unfold last_ptr; by rewrite last_snoc).
    pose proof Hwf as (W1 & Ok & _ & B1 & _)%wfL_mid. cbn [snd] in Ok, B1. pose proof Ok as (O1 & O2 & O3).
    destruct (decide (xlim e - 1 <= new_max)) as [C1|C1].
    { exists bp, (L ++ [(p, e)]). pose proof (wfL_last _ _ _ _ Hwf) as HL. split_and!; [by eapply truncate_stop|done| |done|].
      - eapply wfL_mono; [done|]. eapply Forall_impl; [exact HL|]. cbn. lia.
      - intros x. destruct (decide (x <= new_max)); [rewrite (proj2 (Z.leb_le x new_max)) by done; by rewrite andb_true_r|].
        rewrite (lmem_below _ (xlim e)) by (done || lia). done. }
    cbn [truncate_loop]. assert (Hin : (p, e) ∈ L ++ [(p, e)]) by set_solver.
    rewrite (bbind _ _ _ _ _ (Tr_read _ _ _ _ HT (fun HS => St_data _ _ _ _ HS Hin))). rewrite (x_end_ok lim) by done.
    rewrite u64_small by (unfold in_u, xlim in *; lia). rewrite decide_False by lia. case_decide as C2.
    + destruct (Tr_drop bp L p e [] HT) as (bp1 & bp2 & E1 & E2 & H2 & S2). bst E1. bst E2. rewrite app_nil_r in H2.
      rewrite (bbind _ _ _ _ _ (tree_read _ _ _ (last_list _ _ (proj1 H2)))).
      destruct (IH fuel bp2) as (bp' & L' & E3 & H3 & W3 & S3 & M3); [lia|done|done|]. exists bp', L'. split_and!; [done|done|done| |].
      * unfold same_cursors in *. intuition congruence.
      * intros x. rewrite M3, lmem_app, lmem_cons. cbn [snd lmem existsb]. intervals.
    + rewrite (u64_small (new_max - x_start e)), u64_small by (unfold in_u; lia).
      destruct (St_write _ L p e (mkExt (x_start e) (new_max - x_start e + 1)) [] (Tr_bare _ _ HT)) as (bp1 & E1 & H1 & S1).
      unfold write_extent in E1 |- *. apply tree_op_bare in E1. bst E1. set (bp2 := set_mem (bp_mem bp1) bp).
      assert (HT2 : Tr bp2 (L ++ [(p, mkExt (x_start e) (new_max - x_start e + 1))])) by (by apply St_Tr in H1).
      assert (W2 : wfL lim (L ++ [(p, mkExt (x_start e) (new_max - x_start e + 1))])).
      { apply wfL_mid. unfold okx, xlim in *. cbn [snd x_start x_count]. split_and!; try done; [lia..|apply wfL_nil|].
        apply Forall_forall. intros x Hx. by constructor. }
      destruct fuel as [|fuel]; [lia|]. exists bp2. eexists. split; [|split; [exact HT2|]].
      * apply truncate_stop with L (mkExt (x_start e) (new_max - x_start e + 1)); try done. unfold xlim. cbn. lia.
      * split_and!; [|done|].
        -- eapply wfL_mono; [done|]. eapply Forall_impl; [apply (wfL_last _ _ _ _ W2)|]. unfold xlim. cbn. lia.
        -- intros x. rewrite !lmem_app, !lmem_cons. cbn [snd lmem existsb].
           assert (HL : Forall (fun e' : xelem => xlim e'.2 <= x_start e) L) by (by apply Forall_lt_le).
           pose proof (mem_lt L _ x HL). fold (lmem L x). intervals.
Qed.

End truncate.

(** * Copy *)

Lemma lmem_data L L' x : L.*2 = L'.*2 -> lmem L x = lmem L' x.
Proof.
  revert L'. induction L as [|[p e] L IH]; intros [|[q e'] L']; try done. cbn [fmap list_fmap snd]. intros [= -> H]. by rewrite !lmem_cons, (IH _ H).
Qed.

Lemma wfL_data lim L L' : L.*2 = L'.*2 -> wfL lim L -> wfL lim L'.
Proof.
  assert (HF : forall (P : bmap_rb_extent -> Prop) M M', M.*2 = M'.*2 -> Forall (fun e : xelem => P e.2) M -> Forall (fun e : xelem => P e.2) M').
  { intros P M. induction M as [|[p e] M IH]; intros [|[q e'] M']; cbn; try done. intros [= -> H] [H1 H2]%Forall_cons.
    constructor; [done|]. by eapply IH. }
  revert L'. induction L as [|[p e] L IH]; intros [|[q e'] L']; cbn; try done. intros [= -> H] (H1 & H2 & H3)%wfL_cons.
  apply wfL_cons. split_and!; [done| |by apply IH]. by eapply (HF (fun y => xlim e' < x_start y)).
Qed.

Lemma copy_loop_ok src mem L2 : forall L1 fuel bp i D,
  (length L2 < fuel)%nat -> holds src (L1 ++ L2) -> St bp D -> rcursor_next bp = None -> D.*2 = L1.*2 ->
  (exists bp' D', copy_loop fuel mem i src (hd_ptr L2) bp = Ret 0 bp' /\ St bp' D' /\ D'.*2 = (L1 ++ L2).*2) \/
  (exists bp' D', copy_loop fuel mem i src (hd_ptr L2) bp = Ret EXT2_ET_NO_MEMORY bp' /\ St bp' D' /\ exists j, mem j = false).
Proof.
  induction L2 as [|[p e] L2 IH]; intros L1 [|fuel] bp i D Hf Hs HS Hn HD; cbn [length] in Hf; try lia.
  - left. exists bp, D. rewrite app_nil_r. done.
  - cbn [copy_loop hd_ptr head fmap option_fmap option_map fst]. rewrite (get_data_ok _ _ p e Hs ltac:(set_solver)).
    destruct (mem i) eqn:Hmem; [|right; by exists bp, D; eauto].
    destruct (St_insert bp D [] (last_ptr D) (match D with [] => Lroot | _ => Lright (last_ptr D) end) (x_start e) (x_count e))
      as (q & bp1 & bp2 & E1 & E2 & H2 & S2 & H1); [by rewrite app_nil_r| |done|].
    { destruct D as [|[q a] D0 _] using rev_ind; [by apply slot_empty, HS|]. unfold last_ptr. rewrite last_snoc. cbn.
      pose proof (slot_last _ _ _ _ (proj1 HS)). by destruct D0. }
    rewrite app_nil_r in H1. bst E1. rewrite (bbind _ _ bp1 (m_root (bp_mem bp1)) bp1) by (unfold tree_op, get_root; by destruct bp1).
    rewrite (bbind _ _ bp1 (last_ptr D, match D with [] => Lroot | _ => Lright (last_ptr D) end) bp1).
    2: { pose proof (holds_root _ _ H1) as Hr. destruct (m_root (bp_mem bp1)) as [z|].
         - bst (tree_read _ _ _ (last_list _ _ H1)). destruct D; [by destruct Hr as [_ Hr]; specialize (Hr eq_refl)|done].
         - by rewrite (proj1 Hr eq_refl). }
    bst E2. rewrite (next_list _ _ _ _ _ Hs).
    destruct (IH (L1 ++ [(p, e)]) fuel bp2 (S i) (D ++ [(q, mkExt (x_start e) (x_count e))])) as [(bp' & D' & E3 & H3 & D3)|(bp' & D' & E3 & H3 & D3)].
    + lia.
    + by rewrite <- app_assoc.
    + done.
    + destruct S2 as (_ & _ & ->). done.
    + rewrite !fmap_app, HD. by destruct e.
    + left. exists bp', D'. rewrite <- app_assoc in D3. done.
    + right. exists bp', D'. done.
Qed.
