(* ===== verification/RbRange.v ===== *)
(** Ranges of bits as bytes: [rb_set_bmap_range] and [rb_get_bmap_range] of [blkmap64_rb.c]. *)
From Stdlib Require Import ZArith Lia Sorting.Sorted.
From stdpp Require Import base tactics numbers list gmap sorting.
From S2P Require Import Prelude ExtErr Bitops BitmapOps BitArray BitArrayProofs Rbtree RbtreeProofs RbtreeBalance RbtreeErase RbtreeList.
From S2P Require Import RbBitmap RbBitmapProofs RbExtents RbRemove RbOps.

Implicit Types (L R : list xelem) (bp : ext2fs_rb_private).

(** The numbers [s .. s + n - 1]. *)
Definition ival (s n x : Z) : bool := (s <=? x) && (x <? s + n).

(** * Storing *)

Section store.
Context (lim : Z) (Hlim : lim < 2 ^ 64).

(** The bits of the buffer below [n], shifted to [base]. *)
Definition shifted (base n : Z) (inp : list Z) (x : Z) : bool := ival base n x && bit inp (x - base).

Lemma changed_ext bp f g : (forall x, f x = g x) -> changed lim bp f -> changed lim bp g.
Proof. intros H (L & H1 & H2 & H3). exists L. split_and!; [done|done|]. intros x. by rewrite H3, H. Qed.

(** All bits of a byte. *)
Lemma byte_ff l i : 0 <= i -> byte_at l i = 255 -> forall j, 8 * i <= j < 8 * i + 8 -> bit l j = true.
Proof. intros Hi Hb j Hj. exact (skip_byte_none false l i Hi Hb j Hj). Qed.

Lemma byte_00 l i : 0 <= i -> byte_at l i = 0 -> forall j, 8 * i <= j < 8 * i + 8 -> bit l j = false.
Proof. intros Hi Hb j Hj. exact (skip_byte_none true l i Hi Hb j Hj). Qed.

(** The loop at index [i]: what lies below [first_set] is stored; from there on all bits are set. *)
Definition range_inv (base num : Z) (inp : list Z) bp L (i first_set : Z) : Prop :=
  0 <= i /\ ((first_set = -1 /\ changed lim bp (fun x => shifted base (i `min` num) inp x || lmem L x)) \/
   (0 <= first_set < i /\ first_set < num /\ (forall j, first_set <= j < i -> j < num -> bit inp j = true) /\
    changed lim bp (fun x => shifted base first_set inp x || lmem L x))).

(** One more bit, or eight, that are set; or clear. *)
Lemma range_set base num inp bp L i d first_set :
  num < 2 ^ 31 -> 0 < d -> i < num -> (forall j, i <= j < i + d -> j < num -> bit inp j = true) -> range_inv base num inp bp L i first_set ->
  range_inv base num inp bp L (i + d) (if decide (first_set = -1) then s32 i else first_set).
Proof.
  intros Hn Hd Hi Hb (H0 & [[-> HC]|(H1 & H2 & H3 & HC)]); split; try lia; right.
  - rewrite decide_True, s32_small by lia. split_and!; [lia|lia|lia|by apply Hb|].
    eapply changed_ext; [|exact HC]. intros x. cbn. by rewrite Z.min_l by lia.
  - rewrite decide_False by lia. split_and!; [lia|lia|lia| |done]. intros j Hj Hj'. destruct (decide (j < i)); [apply H3; lia|apply Hb; lia].
Qed.

Lemma range_clear base num inp bp L i d :
  0 < d -> (forall j, i <= j < i + d -> j < num -> bit inp j = false) -> range_inv base num inp bp L i (-1) ->
  range_inv base num inp bp L (i + d) (-1).
Proof.
  intros Hd Hb (H0 & [[_ HC]|(H1 & _)]); [|lia]. split; [lia|]. left. split; [done|]. eapply changed_ext; [|exact HC].
  intros x. cbn. f_equal. unfold shifted, ival. destruct (bit inp (x - base)) eqn:Hbit; [|by rewrite !andb_false_r]. rewrite !andb_true_r.
  destruct (decide (base + i <= x < base + i + d /\ x - base < num)) as [Hx|Hx]; [rewrite Hb in Hbit by lia; done|lia].
Qed.

(** A run of set bits is stored. *)
Lemma range_flush base num inp bp L first_set m :
  0 <= base -> base + num <= lim -> 0 <= first_set < m -> m <= num -> (forall j, first_set <= j < m -> bit inp j = true) ->
  changed lim bp (fun x => shifted base first_set inp x || lmem L x) ->
  exists r bp', rb_insert_extent true (u64 (base + first_set)) (u64 (m - first_set)) bp = Ret r bp' /\
    changed lim bp' (fun x => shifted base m inp x || lmem L x).
Proof.
  intros Hb Hbn Hf Hm Hbits (L' & H1 & H2 & H3). rewrite !u64_small by (unfold in_u; lia).
  destruct (insert_extent_ok lim Hlim bp L' (base + first_set) (m - first_set) H1 H2) as (bp' & E1 & HC); [lia..|].
  eexists _, bp'. split; [exact E1|]. eapply changed_ext; [|exact HC]. intros x. cbn. rewrite H3, orb_assoc. f_equal.
  rewrite inx_mk. unfold shifted, ival. destruct (decide (base + first_set <= x < base + m)) as [Hx|Hx].
  - rewrite Hbits by lia. lia.
  - destruct (bit inp (x - base)); lia.
Qed.

Lemma set_range_loop_ok base num inp (Hb : 0 <= base) (Hbn : base + num <= lim) (Hn : 0 <= num < 2 ^ 31) L fuel : forall bp i first_set,
  (Z.to_nat (num - i) <= fuel)%nat -> bytes inp -> range_inv base num inp bp L i first_set ->
  exists fs bp' i', set_range_loop fuel true base num inp i first_set bp = Ret fs bp' /\ range_inv base num inp bp' L i' fs /\ num <= i'.
Proof.
  induction fuel as [|fuel IH]; intros bp i first_set Hf Hby Hinv.
  { exists first_set, bp, i. split_and!; [done|done|lia]. }
  cbn [set_range_loop]. pose proof Hinv as [H0 _]. case_decide as Ci; [|exists first_set, bp, i; split_and!; [done|done|lia]].
  assert (H8 : Z.land i 7 = 0 -> 8 * (i / 8) = i) by (rewrite land7; intros; Z.div_mod_to_equations; lia).
  destruct (bool_decide (Z.land i 7 = 0) && bool_decide (byte_at inp (i / 8) = 255)) eqn:C1.
  { apply andb_true_iff in C1 as [C1 C2]. apply bool_decide_eq_true in C1, C2. apply IH; [lia|done|].
    apply range_set; try done; try lia. intros j Hj _. eapply byte_ff; [|exact C2|]; [Z.div_mod_to_equations; lia|]. rewrite H8 by done. lia. }
  destruct (bool_decide (Z.land i 7 = 0) && (bool_decide (byte_at inp (i / 8) = 0) && bool_decide (first_set = -1))) eqn:C3.
  { rewrite !andb_true_iff, !bool_decide_eq_true in C3. destruct C3 as (C3 & C4 & ->). apply IH; [lia|done|].
    apply range_clear; try done; try lia. intros j Hj _. eapply byte_00; [|exact C4|]; [Z.div_mod_to_equations; lia|]. rewrite H8 by done. lia. }
  destruct (decide (ext2fs_test_bit64 i inp <> 0)) as [Cb|Cb].
  { apply (test_bit_true inp i H0) in Cb. apply IH; [lia|done|]. apply range_set; try done; try lia. intros j Hj _. by replace j with i by lia. }
  assert (Hbit : bit inp i = false) by (apply test_bit_bit; [done|lia]).
  destruct (decide (first_set = -1)) as [Cf|Cf].
  { subst first_set. apply IH; [lia|done|]. apply range_clear; try done; try lia. intros j Hj _. by replace j with i by lia. }
  destruct Hinv as (_ & [[-> _]|(H1 & H2 & H3 & HC)]); [done|].
  destruct (range_flush base num inp bp L first_set i Hb Hbn H1 ltac:(lia) ltac:(intros; apply H3; lia) HC) as (r & bp1 & E1 & HC1).
  bst E1. apply IH; [lia|done|]. apply range_clear; [lia|intros j Hj _; by replace j with i by lia|].
  split; [lia|]. left. split; [done|]. eapply changed_ext; [|exact HC1]. intros x. cbn. by rewrite Z.min_l by lia.
Qed.

(** [rb_set_bmap_range] adds the numbers whose bits are set in the buffer, and removes none. *)
Lemma set_range_ok base num inp bp L :
  0 <= base -> base + num <= lim -> 0 <= num < 2 ^ 31 -> bytes inp -> St bp L -> wfL lim L ->
  exists bp', set_range true base num inp bp = Ret 0 bp' /\ changed lim bp' (fun x => shifted base num inp x || lmem L x).
Proof.
  intros Hb Hbn Hn Hby HS Hwf. unfold set_range.
  destruct (set_range_loop_ok base num inp Hb Hbn Hn L (Z.to_nat num) bp 0 (-1)) as (fs & bp1 & i & E1 & (H0 & Hinv) & Hi); [lia|done| |].
  { split; [lia|]. left. split; [done|]. exists L. split_and!; [done|done|]. intros x. unfold shifted, ival.
    destruct (lmem L x); [by rewrite orb_true_r|]. rewrite orb_false_r. lia. }
  bst E1. destruct Hinv as [[-> HC]|(H1 & H2 & H3 & HC)].
  - rewrite decide_False by lia. exists bp1. split; [done|]. eapply changed_ext; [|exact HC]. intros x. cbn. by rewrite Z.min_r by lia.
  - rewrite decide_True by lia.
    destruct (range_flush base num inp bp1 L fs num Hb Hbn ltac:(lia) ltac:(lia) ltac:(intros; apply H3; lia) HC) as (r & bp2 & E2 & HC2).
    rewrite (bbind _ _ bp1 tt bp2) by (by bst E2). by exists bp2.
Qed.

End store.

(** * Reading *)

(** The buffer [out'] is [out] with the bits [s .. s + n - 1] set. *)
Definition filled (out out' : list Z) (s n : Z) : Prop :=
  bytes out' /\ zlen out' = zlen out /\ forall j, 0 <= j -> bit out' j = ival s n j || bit out j.

Lemma filled_app out out1 out2 s n m : 0 <= n -> 0 <= m -> filled out out1 s n -> filled out1 out2 (s + n) m -> filled out out2 s (n + m).
Proof.
  intros Hn Hm (A1 & A2 & A3) (B1 & B2 & B3). split_and!; [done|congruence|]. intros j Hj. rewrite B3, A3 by done. unfold ival. destruct (bit out j); lia.
Qed.

Lemma fill_bit out s : bytes out -> has_bit out s -> filled out (ext2fs_fast_set_bit64 s out) s 1.
Proof.
  intros Ho Hs. destruct (set_bit_bytes s out Ho) as [H1 H2]. change (ext2fs_fast_set_bit64 s out) with (ext2fs_set_bit64 s out).2.
  split_and!; [done|done|]. intros j Hj. rewrite set_bit_bit by done. f_equal. unfold ival. case_bool_decide; lia.
Qed.

Lemma bit_ff n j : 0 <= j < 8 * Z.of_nat n -> bit (replicate n 255) j = true.
Proof.
  intros Hj. apply (byte_ff _ (j / 8)); [Z.div_mod_to_equations; lia| |Z.div_mod_to_equations; lia].
  unfold byte_at. apply lookup_total_replicate_2. Z.div_mod_to_equations. lia.
Qed.

Lemma fill_bytes out o n : bytes out -> 0 <= o -> 0 <= n -> o + n <= zlen out ->
  filled out (zsplice o (replicate (Z.to_nat n) 255) out) (8 * o) (8 * n).
Proof.
  intros Ho H0 Hn Hl. assert (zlen (replicate (Z.to_nat n) 255) = n) as Hz by (unfold zlen; rewrite length_replicate; lia). split_and!.
  - apply bytes_zsplice; [|done]. apply Forall_replicate. unfold in_u. pow2_norm. lia.
  - rewrite zlen_splice by done. lia.
  - intros j Hj. unfold bit at 1. rewrite byte_at_zsplice by (rewrite ?Hz; try done; Z.div_mod_to_equations; lia). rewrite Hz. unfold ival.
    case_decide as C.
    + rewrite (proj2 (Z.leb_le _ _)), (proj2 (Z.ltb_lt _ _)) by (Z.div_mod_to_equations; lia). cbn.
      rewrite <- (bit_ff (Z.to_nat n) (j - 8 * o)) by (Z.div_mod_to_equations; lia). unfold bit. f_equal; [f_equal|]; Z.div_mod_to_equations; lia.
    + fold (bit out j). destruct (bit out j); [by rewrite orb_true_r|]. rewrite orb_false_r. Z.div_mod_to_equations; lia.
Qed.

Lemma fill_loop_ok start fuel : forall pos count out,
  Z.of_nat fuel >= count -> bytes out -> 0 <= start <= pos -> 0 <= count < 2 ^ 31 -> pos + count < 2 ^ 64 ->
  pos - start + count < 2 ^ 31 -> pos - start + count <= 8 * zlen out -> filled out (fill_loop fuel start pos count out) (pos - start) count.
Proof.
  assert (H0 : forall out s, bytes out -> filled out out s 0) by (intros; split_and!; [done|done|]; intros j Hj; unfold ival; destruct (bit out j); lia).
  induction fuel as [|fuel IH]; intros pos count out Hf Ho Hp Hc H64 H31 Hl; cbn [fill_loop].
  { replace count with 0 by lia. by apply H0. }
  case_decide as C1; [|replace count with 0 by lia; by apply H0].
  rewrite (u64_small (pos - start)) by (unfold in_u; pow2_norm; lia).
  destruct (bool_decide (count >= 8) && bool_decide ((pos - start) mod 8 = 0)) eqn:C2.
  - apply andb_true_iff in C2 as [C2 C3]. apply bool_decide_eq_true in C2, C3.
    rewrite !shiftr3, !s32_small by (pow2_norm; Z.div_mod_to_equations; lia). set (n := count / 8).
    assert (Hn : 1 <= n /\ 8 * n <= count) by (subst n; Z.div_mod_to_equations; lia).
    assert (Ho8 : 8 * ((pos - start) / 8) = pos - start) by (Z.div_mod_to_equations; lia).
    rewrite !u64_small by (unfold in_u; pow2_norm; lia). replace count with (8 * n + (count - 8 * n)) at 2 by lia.
    pose proof (fill_bytes out ((pos - start) / 8) n Ho ltac:(Z.div_mod_to_equations; lia) ltac:(lia) ltac:(lia)) as HF. rewrite Ho8 in HF.
    eapply filled_app; [lia|lia|exact HF|]. destruct HF as (F1 & F2 & _). replace (pos - start + 8 * n) with (pos + 8 * n - start) by lia.
    apply IH; try done; lia.
  - rewrite u64_small by (unfold in_u; pow2_norm; lia). replace count with (1 + (count - 1)) at 2 by lia.
    pose proof (fill_bit out (pos - start) Ho ltac:(split; lia)) as HF. eapply filled_app; [lia|lia|exact HF|]. destruct HF as (F1 & F2 & _).
    replace (pos - start + 1) with (pos + 1 - start) by lia. apply IH; try done; lia.
Qed.

Section read.
Context (lim : Z) (Hlim : lim < 2 ^ 64).

(** [clip] cuts an extent to the numbers [start .. start + num - 1]. *)
Lemma clip_ok start num e : okx lim e -> 0 <= start -> 0 <= num -> start + num <= lim ->
  match clip start num e with
  | None => start + num <= x_start e
  | Some None => xlim e < start
  | Some (Some (pos, count)) => start <= pos /\ 0 <= count /\ pos + count <= start + num /\
      forall x, start <= x < start + num -> inx e x = ival pos count x
  end.
Proof.
  intros (O1 & O2 & O3) Hs Hn Hl. unfold clip, xlim in *. rewrite (u64_small (start + num)) by (unfold in_u; lia).
  rewrite (u64_small (x_start e + x_count e)) by (unfold in_u; lia). case_decide as C1; [lia|].
  destruct (bool_decide (x_start e < start) && bool_decide (x_start e + x_count e < start)) eqn:C2.
  { apply andb_true_iff in C2 as [_ C2]. by apply bool_decide_eq_true in C2. }
  assert (C3 : start <= x_start e + x_count e) by (revert C2; repeat case_bool_decide; cbn; intros; (done || lia)). clear C2.
  unfold inx, ival, xlim. destruct (decide (x_start e < start)) as [C4|C4].
  - rewrite (u64_small (start - x_start e)) by (unfold in_u; lia). rewrite (u64_small (x_count e - _)) by (unfold in_u; lia).
    rewrite (u64_small (start + _)) by (unfold in_u; lia). rewrite (u64_small (start + num - start)) by (unfold in_u; lia).
    case_decide; split_and!; try lia; intros; lia.
  - rewrite (u64_small (x_start e + _)) by (unfold in_u; lia). rewrite (u64_small (start + num - x_start e)) by (unfold in_u; lia).
    case_decide; split_and!; try lia; intros; lia.
Qed.

(** The extents of [R] are copied into the buffer. *)
Definition copied start num R (out out' : list Z) : Prop :=
  bytes out' /\ zlen out' = zlen out /\ forall j, 0 <= j -> bit out' j = (j <? num) && lmem R (start + j) || bit out j.

Lemma copied_none start num R out : bytes out -> (forall j, 0 <= j < num -> lmem R (start + j) = false) -> copied start num R out out.
Proof.
  intros Ho H. split_and!; [done|done|]. intros j Hj. destruct (decide (j < num)); [by rewrite H, andb_false_r by lia|].
  by rewrite (proj2 (Z.ltb_ge j num)) by lia.
Qed.

Lemma copied_cons start num (e : xelem) R out out1 out' s n :
  filled out out1 s n -> (forall j, 0 <= j -> ival s n j = (j <? num) && inx e.2 (start + j)) ->
  copied start num R out1 out' -> copied start num (e :: R) out out'.
Proof.
  intros (A1 & A2 & A3) H (B1 & B2 & B3). split_and!; [done|congruence|]. intros j Hj. rewrite B3, A3, H, lmem_cons by done.
  destruct (j <? num), (inx e.2 (start + j)), (lmem R (start + j)); cbn; done.
Qed.

Lemma filled_none out s n : bytes out -> n <= 0 -> filled out out s n.
Proof. intros Ho Hn. split_and!; [done|done|]. intros j Hj. unfold ival. destruct (bit out j); lia. Qed.

Lemma get_range_loop_ok start num (Hs : 0 <= start) (Hn : 0 <= num < 2 ^ 31) (Hl : start + num <= lim) R : forall fuel bp L1 out,
  (length R < fuel)%nat -> St bp (L1 ++ R) -> wfL lim (L1 ++ R) -> bytes out -> num <= 8 * zlen out ->
  exists out', get_range_loop fuel (hd_ptr R) start num out bp = Ret out' bp /\ copied start num R out out'.
Proof.
  induction R as [|[q e] R IH]; intros [|fuel] bp L1 out Hf HS Hwf Ho Hz; cbn [length] in Hf; try lia.
  { exists out. split; [done|]. by apply copied_none. }
  cbn [get_range_loop hd_ptr head fmap option_fmap option_map fst]. bst (St_next _ _ _ _ _ HS). bst (St_data _ _ q e HS ltac:(set_solver)).
  pose proof Hwf as (W1 & Ok & W2 & B1 & B2 & B12)%wfL_mid. cbn [snd] in *. pose proof (clip_ok start num e Ok Hs ltac:(lia) Hl) as HC.
  replace (L1 ++ (q, e) :: R) with ((L1 ++ [(q, e)]) ++ R) in HS, Hwf by (by rewrite <- app_assoc).
  pose proof Ok as (O1 & O2 & O3). destruct (clip start num e) as [[[pos count]|]|].
  - destruct HC as (C1 & C2 & C3 & C4).
    pose proof (fill_loop_ok start (Z.to_nat count) pos count out ltac:(lia) Ho ltac:(lia) ltac:(lia) ltac:(lia) ltac:(lia) ltac:(lia)) as HF.
    destruct (IH fuel bp (L1 ++ [(q, e)]) (fill_loop (Z.to_nat count) start pos count out)) as (out' & E1 & H1);
      [lia|done|done|apply HF|destruct HF as (_ & -> & _); lia|].
    exists out'. split; [done|]. eapply copied_cons; [exact HF| |exact H1]. intros j Hj. cbn [snd]. destruct (decide (j < num)).
    + rewrite C4 by lia. unfold ival. lia.
    + unfold ival. lia.
  - destruct (IH fuel bp (L1 ++ [(q, e)]) out) as (out' & E1 & H1); [lia|done|done|done|done|]. exists out'. split; [done|].
    eapply (copied_cons _ _ _ _ _ _ _ 0 0); [by apply filled_none| |exact H1]. intros j Hj. unfold ival, inx. cbn [snd]. lia.
  - exists out. split; [done|]. apply copied_none; [done|]. intros j Hj. rewrite lmem_cons. cbn [snd]. unfold inx.
    rewrite (lmem_above _ (x_start e + x_count e)); [lia| |unfold xlim in *; lia].
    eapply Forall_impl; [exact B2|]. unfold before, xlim. cbn. lia.
Qed.

(** Where the loops that start at the parent of a search begin: at the extent that holds the
    number, or at a neighbour of its place. *)
Lemma search_start bp L bit : St bp L -> wfL lim L -> L <> [] ->
  exists found n L1 R, L = L1 ++ R /\ tree_op (search (extent_cmp bit)) bp = Ret (found, hd_ptr R, n) bp /\
    Forall (fun e => xlim e.2 <= bit) L1.
Proof.
  intros HS Hwf HL. destruct (extent_split lim L bit Hwf) as [(L1 & p & e & L2 & -> & He)|(L1 & L2 & -> & H1 & H2)].
  - destruct (St_search_hit lim Hlim _ _ _ _ _ _ HS Hwf He) as [n En]. exists true, n, L1, ((p, e) :: L2). split_and!; [done|done|].
    apply wfL_mid in Hwf as (_ & _ & _ & B1 & _). eapply Forall_impl; [exact B1|]. cbn. unfold xlim in *. lia.
  - destruct (St_search_miss lim Hlim _ _ _ _ HS Hwf H1 H2) as (pa & n & En & Hn).
    destruct (slot_parent _ _ _ _ _ Hn) as [[HE' ->]|[(L & p & a & -> & ->)|(L & p & a & -> & ->)]]; [done|..].
    + exists false, n, L, ((p, a) :: L2). rewrite <- app_assoc in *. apply Forall_app in H1 as [H1 _]. done.
    + exists false, n, L1, ((p, a) :: L). done.
Qed.

(** [rb_get_bmap_range] of a tree that is not empty. *)
Lemma get_range_ok start num out bp L :
  0 <= start -> 0 <= num < 2 ^ 31 -> start + num <= lim -> bytes out -> num <= 8 * zlen out -> St bp L -> wfL lim L -> L <> [] ->
  exists out', get_range start num out bp = Ret out' bp /\ bytes out' /\ zlen out' = zlen out /\
    (forall j, 0 <= j < num -> bit out' j = lmem L (start + j)) /\
    forall j, num <= j -> bit out' j = (8 * ((num + 7) / 8) <=? j) && bit out j.
Proof.
  intros Hs Hn Hl Ho Hz HS Hwf HL. unfold get_range. bst (St_empty _ _ HS). rewrite bool_decide_eq_false_2 by done.
  destruct (search_start bp L start HS Hwf HL) as (found & n & L1 & R & -> & E1 & H1). bst E1. bst (St_fuel _ _ HS).
  rewrite (u64_small (num + 7)) by (unfold in_u; pow2_norm; lia). rewrite shiftr3. set (k := (num + 7) / 8).
  assert (Hk : 8 * k < num + 8 /\ num <= 8 * k) by (subst k; Z.div_mod_to_equations; lia). set (out0 := zsplice 0 _ out).
  assert (zlen (replicate (Z.to_nat k) 0) = k) as Hzk by (unfold zlen; rewrite length_replicate; lia).
  assert (Hz0 : zlen out0 = zlen out) by (unfold out0; rewrite zlen_splice; lia).
  assert (Hb0 : forall j, 0 <= j -> bit out0 j = (8 * k <=? j) && bit out j).
  { intros j Hj. unfold bit at 1, out0. rewrite byte_at_zsplice by (rewrite ?Hzk; try done; Z.div_mod_to_equations; lia). rewrite Hzk. case_decide as C.
    - rewrite (proj2 (Z.leb_gt (8 * k) j)) by (Z.div_mod_to_equations; lia). unfold byte_at. rewrite lookup_total_replicate_2 by lia. apply Z.bits_0.
    - by rewrite (proj2 (Z.leb_le (8 * k) j)) by (Z.div_mod_to_equations; lia). }
  destruct (get_range_loop_ok start num Hs Hn Hl R (S (length (L1 ++ R))) bp L1 out0) as (out' & E2 & C1 & C2 & C3); try done.
  { rewrite length_app. lia. } { apply bytes_zsplice; [apply bytes_zeros|done]. } { lia. }
  exists out'. split_and!; [done|done|congruence| |].
  - intros j Hj. rewrite C3, Hb0 by lia. rewrite (proj2 (Z.ltb_lt j num)), (proj2 (Z.leb_gt (8 * k) j)) by lia. cbn [andb].
    rewrite orb_false_r, lmem_app, (lmem_below L1 start) by (done || lia). done.
  - intros j Hj. rewrite C3, Hb0 by lia. by rewrite (proj2 (Z.ltb_ge j num)) by lia.
Qed.

(** An empty tree leaves the buffer as it is. *)
Lemma get_range_empty start num out bp : St bp [] -> get_range start num out bp = Ret out bp.
Proof. intros HS. unfold get_range. by bst (St_empty _ _ HS). Qed.

End read.
