(* ===== verification/RbInstance.v ===== *)
(** The operations of [ext2fs_blkmap64_rbtree] on well-formed bitmaps, and the instance of the
    interface of bitmaps. *)
From Stdlib Require Import ZArith Lia Sorting.Sorted.
From stdpp Require Import base tactics numbers list gmap sorting.
From S2P Require Import Prelude ExtErr Bitops BitmapOps BitArray BitArrayProofs Rbtree RbtreeProofs RbtreeBalance RbtreeErase RbtreeList.
From S2P Require Import RbBitmap RbBitmapProofs RbExtents RbRemove RbOps RbRange.

Implicit Types (L R : list xelem) (bp : ext2fs_rb_private) (b : rb_bitmap).

(** * The abstract view *)

(** The numbers a bitmap holds: those of the extents in memory. *)
Definition heap_mem (m : xmem) (x : Z) : bool := existsb (fun c => inx c.2.2 x) (map_to_list (m_heap m)).

Definition rb_mem b (n : Z) : bool := heap_mem (bp_mem (rb_private b)) (n - rb_start b).

Definition rb_lim b : Z := rb_real_end b - rb_start b + 1.

(** The range fits in 64 bits; the private data are a red-black tree of the extents, which are
    not empty, in order and apart, and no memory is lost. *)
Record rb_wf b : Prop := {
  rw_start : 0 <= rb_start b <= rb_end b;
  rw_end : rb_end b <= rb_real_end b < 2 ^ 64 - 1;
  rw_private : exists L, St (rb_private b) L /\ wfL (rb_lim b) L
}.

Lemma heap_mem_St bp L x : St bp L -> heap_mem (bp_mem bp) x = lmem L x.
Proof.
  intros (H1 & H2 & _). apply eq_true_iff_eq. unfold heap_mem, lmem. rewrite !existsb_exists. split.
  - intros ([p [n e]] & Hin & Hx). apply list_elem_of_In, elem_of_map_to_list in Hin. cbn [snd fst] in *.
    assert (Hp : p ∈ L.*1) by (apply elem_of_dom_2 in Hin; rewrite H2 in Hin; by apply elem_of_list_to_set in Hin).
    apply list_elem_of_fmap in Hp as ([q e'] & -> & Hq). destruct (holds_lookup _ _ _ _ H1 Hq) as [n' Hn']. cbn [fst] in *. simplify_eq.
    exists (q, e). split; [by apply list_elem_of_In|done].
  - intros ([p e] & Hin & Hx). apply list_elem_of_In in Hin. destruct (holds_lookup _ _ _ _ H1 Hin) as [n Hn].
    exists (p, (n, e)). split; [|done]. by apply list_elem_of_In, elem_of_map_to_list.
Qed.

Lemma rb_mem_lmem b L n : St (rb_private b) L -> rb_mem b n = lmem L (n - rb_start b).
Proof. apply heap_mem_St. Qed.

(** Nothing lies outside the range. *)
Lemma rb_mem_range b n : rb_wf b -> rb_mem b n = true -> rb_start b <= n <= rb_real_end b.
Proof.
  intros [H1 H2 (L & HS & Hwf & _)]. rewrite (rb_mem_lmem b L) by done. unfold lmem. rewrite existsb_exists. intros ([p e] & Hin & Hx).
  rewrite Forall_forall in Hwf. apply list_elem_of_In, Hwf in Hin as (O1 & O2 & O3). unfold inx, rb_lim in *. cbn in *. lia.
Qed.

(** The new bitmap has the same range and holds the numbers of [f]. *)
Definition rb_updated b b' (f : Z -> bool) : Prop :=
  rb_wf b' /\ rb_start b' = rb_start b /\ rb_end b' = rb_end b /\ rb_real_end b' = rb_real_end b /\ forall m, rb_mem b' m = f m.

Lemma rb_updated_ext b b' f g : (forall m, f m = g m) -> rb_updated b b' f -> rb_updated b b' g.
Proof. intros H (H1 & H2 & H3 & H4 & H5). split_and!; try done. intros m. by rewrite H5. Qed.

Lemma rb_changed b bp' f : rb_wf b -> changed (rb_lim b) bp' f -> rb_updated b (set_private bp' b) (fun m => f (m - rb_start b)).
Proof.
  intros [H1 H2 _] (L & HS & Hwf & HL). split_and!; try done.
  - split; [done|done|]. by exists L.
  - intros m. rewrite (rb_mem_lmem _ L) by done. apply HL.
Qed.

Lemma rb_lim64 b : rb_wf b -> rb_lim b < 2 ^ 64.
Proof. intros [H1 H2 _]. unfold rb_lim. lia. Qed.

Lemma rb_index b n : rb_wf b -> rb_start b <= n <= rb_real_end b + 1 -> u64 (n - rb_start b) = n - rb_start b.
Proof. intros [H1 H2 _] Hn. apply u64_small. unfold in_u. lia. Qed.

Lemma run_ret {X} (m : B X) b x bp' : m (rb_private b) = Ret x bp' -> run m b = Some (x, set_private bp' b).
Proof. intros H. unfold run. by rewrite H. Qed.

Lemma set_private_same b : set_private (rb_private b) b = b.
Proof. by destruct b. Qed.

Lemma run_read {X} (m : B X) b x : m (rb_private b) = Ret x (rb_private b) -> run m b = Some (x, b).
Proof. intros H. rewrite (run_ret _ _ _ _ H). by rewrite set_private_same. Qed.

(** * Single numbers and extents *)

Lemma rb_insert_run b n num : rb_wf b -> rb_start b <= n -> 0 < num -> n + num - 1 <= rb_real_end b ->
  exists b', run (rb_insert_extent true (u64 (n - rb_start b)) num) b = Some (Z.b2z (rb_mem b n), b') /\
    rb_updated b b' (fun m => bool_decide (n <= m < n + num) || rb_mem b m).
Proof.
  intros Hwf Hn Hnum He. pose proof Hwf as [H1 H2 (L & HS & HL)]. rewrite rb_index by (done || lia).
  destruct (insert_extent_ok (rb_lim b) (rb_lim64 b Hwf) _ L (n - rb_start b) num HS HL) as (bp' & E & HC); [unfold rb_lim; lia..|].
  eexists. rewrite (rb_mem_lmem b L) by done. split; [by apply run_ret|]. eapply rb_updated_ext; [|by apply rb_changed].
  intros m. cbn. rewrite (rb_mem_lmem b L) by done. f_equal. rewrite inx_mk. case_bool_decide; lia.
Qed.

(** A removal counts the number after the range, too. *)
Lemma rb_remove_run b n num : rb_wf b -> rb_start b <= n -> 0 <= num -> n + num - 1 <= rb_real_end b ->
  exists r b', run (rb_remove_extent true (u64 (n - rb_start b)) num) b = Some (r, b') /\
    ((r = 1 /\ exists m, n <= m <= n + num /\ rb_mem b m = true) \/ (r = 0 /\ forall m, n <= m <= n + num -> rb_mem b m = false)) /\
    rb_updated b b' (fun m => negb (bool_decide (n <= m < n + num)) && rb_mem b m).
Proof.
  intros Hwf Hn Hnum He. pose proof Hwf as [H1 H2 (L & HS & HL)]. rewrite rb_index by (done || lia).
  destruct (remove_extent_ok (rb_lim b) (rb_lim64 b Hwf) _ L (n - rb_start b) num HS HL) as (r & bp' & E & Hr & HC); [unfold rb_lim; lia..|].
  eexists _, _. split; [by apply run_ret|]. split.
  - pose proof (touches_lmem (rb_lim b) (n - rb_start b) num L HL Hnum) as HT. subst r. destruct (lmem L (n - rb_start b)) eqn:Hm.
    { left. split; [done|]. exists n. split; [lia|]. by rewrite (rb_mem_lmem b L). }
    specialize (HT eq_refl). cbn [orb]. destruct (touches _ _ _); [left|right]; (split; [done|]).
    + destruct HT as [HT _]. destruct (HT eq_refl) as (x & Hx & Hl). exists (x + rb_start b). split; [lia|]. rewrite (rb_mem_lmem b L) by done.
      by replace (x + rb_start b - rb_start b) with x by lia.
    + intros m Hr. rewrite (rb_mem_lmem b L) by done. destruct (lmem L (m - rb_start b)) eqn:Hl; [|done]. destruct HT as [_ HT].
      discriminate HT. exists (m - rb_start b). split; [lia|done].
  - eapply rb_updated_ext; [|by apply rb_changed].
    intros m. cbn. rewrite (rb_mem_lmem b L) by done. unfold without. rewrite andb_comm. do 2 f_equal. rewrite inx_mk. case_bool_decide; lia.
Qed.

(** [rb_test_bmap] writes the cursors only. *)
Lemma rb_test_run b n : rb_wf b -> rb_start b <= n <= rb_real_end b ->
  exists b', rb_test_bmap b n = Some (Z.b2z (rb_mem b n), b') /\ bp_mem (rb_private b') = bp_mem (rb_private b) /\ rb_updated b b' (rb_mem b).
Proof.
  intros Hwf Hn. pose proof Hwf as [H1 H2 (L & HS & HL)]. unfold rb_test_bmap. rewrite rb_index by (done || lia).
  destruct (test_bit_ok (rb_lim b) (rb_lim64 b Hwf) _ L (n - rb_start b) HS HL) as (bp' & E & HS' & Hm).
  eexists. rewrite (rb_mem_lmem b L) by done. split; [by apply run_ret|]. split; [done|].
  eapply rb_updated_ext; [|apply rb_changed; [done|]; by exists L]. intros m. cbn. by rewrite (rb_mem_lmem b L).
Qed.

Lemma rb_test_clear_run b n num : rb_wf b -> rb_start b <= n -> 0 <= num -> n + num - 1 <= rb_real_end b ->
  exists r, rb_test_clear_bmap_extent b n num = Some (r, b) /\
    ((r = 1 /\ forall m, n <= m < n + num -> rb_mem b m = false) \/ (r = 0 /\ exists m, n <= m < n + num /\ rb_mem b m = true)).
Proof.
  intros Hwf Hn Hnum He. pose proof Hwf as [H1 H2 (L & HS & HL)]. unfold rb_test_clear_bmap_extent. rewrite rb_index by (done || lia).
  destruct (test_clear_ok (rb_lim b) (rb_lim64 b Hwf) _ L (n - rb_start b) num HS HL) as (r & E & Hr); [unfold rb_lim; lia..|].
  exists r. split; [by apply run_read|]. destruct Hr as [[-> Hr]|[-> (x & Hx & Hr)]]; [left|right]; (split; [done|]).
  - intros m Hm. rewrite (rb_mem_lmem b L) by done. apply Hr. lia.
  - exists (x + rb_start b). split; [lia|]. rewrite (rb_mem_lmem b L) by done. by replace (x + rb_start b - rb_start b) with x by lia.
Qed.

(** * Searches *)

Lemma first_in_shift P Q want s e k r : (forall x, Q (x + k) = P x) -> (forall x, s <= x <= e -> in_u 64 (x + k)) ->
  first_in P want s e r -> first_in Q want (s + k) (e + k) (r.1, option_map (fun x => u64 (x + k)) r.2).
Proof.
  intros HQ Hk [(x & -> & Hx & Hp & Hy)|[-> Hy]]; cbn.
  - left. exists (x + k). rewrite u64_small by (by apply Hk). split_and!; [done|lia|lia|by rewrite HQ|]. intros y Hr.
    replace y with (y - k + k) by lia. rewrite HQ. apply Hy. lia.
  - right. split; [done|]. intros y Hr. replace y with (y - k + k) by lia. rewrite HQ. apply Hy. lia.
Qed.

Lemma rb_find_run want (f : Z -> Z -> B (Z * option Z)) b s e :
  rb_wf b -> rb_start b <= s <= e -> e <= rb_real_end b ->
  (forall L, St (rb_private b) L -> wfL (rb_lim b) L ->
     exists r, f (s - rb_start b) (e - rb_start b) (rb_private b) = Ret r (rb_private b) /\ first_in (lmem L) want (s - rb_start b) (e - rb_start b) r) ->
  exists r, ('(r, o, _) ← run (f (u64 (s - rb_start b)) (u64 (e - rb_start b))) b; Some (r, option_map (fun x => u64 (x + rb_start b)) o)) = Some r /\
    first_in (rb_mem b) want s e r.
Proof.
  intros Hwf Hs He Hf. pose proof Hwf as [H1 H2 (L & HS & HL)]. rewrite !rb_index by (done || lia). destruct (Hf L HS HL) as (r & E & Hr).
  rewrite (run_read _ _ _ E). exists (r.1, option_map (fun x => u64 (x + rb_start b)) r.2). split; [by destruct r|].
  apply (first_in_shift _ (rb_mem b) _ _ _ (rb_start b)) in Hr.
  - by replace (s - rb_start b + rb_start b) with s in Hr by lia; replace (e - rb_start b + rb_start b) with e in Hr by lia.
  - intros x. rewrite (rb_mem_lmem b L) by done. f_equal. lia.
  - intros x Hx. unfold in_u. lia.
Qed.

Lemma rb_find_set_run b s e : rb_wf b -> rb_start b <= s <= e -> e <= rb_real_end b ->
  exists r, rb_find_first_set b s e = Some r /\ first_in (rb_mem b) true s e r.
Proof.
  intros Hwf Hs He. apply rb_find_run; try done. intros L HS HL. apply find_set_ok with (rb_lim b); try done; [by apply rb_lim64|lia].
Qed.

(** The search for a clear number needs a number that is set. *)
Lemma rb_find_zero_run b s e : rb_wf b -> rb_start b <= s <= e -> e <= rb_real_end b -> (exists n, rb_mem b n = true) ->
  exists r, rb_find_first_zero b s e = Some r /\ first_in (rb_mem b) false s e r.
Proof.
  intros Hwf Hs He [n Hn]. apply rb_find_run; try done. intros L HS HL. apply find_zero_ok with (rb_lim b); try done; [by apply rb_lim64| |lia].
  intros ->. by rewrite (rb_mem_lmem b []) in Hn.
Qed.

Lemma rb_empty_list b L : St (rb_private b) L -> wfL (rb_lim b) L -> (forall n, rb_mem b n = false) -> L = [].
Proof.
  intros HS [HL _] Hn. destruct L as [|[p e] L]; [done|]. exfalso. apply Forall_cons in HL as [(O1 & O2 & _) _]. cbn in *.
  specialize (Hn (x_start e + rb_start b)). rewrite (rb_mem_lmem b _ _ HS), lmem_cons in Hn. unfold inx, xlim in Hn. cbn in Hn. lia.
Qed.

Lemma rb_find_zero_none b s e : rb_wf b -> rb_start b <= s <= e -> e <= rb_real_end b -> (forall n, rb_mem b n = false) ->
  rb_find_first_zero b s e = Some (ENOENT, None).
Proof.
  intros Hwf Hs He Hn. pose proof Hwf as [H1 H2 (L & HS & HL)]. unfold rb_find_first_zero. rewrite !rb_index by (done || lia).
  pose proof (rb_empty_list b L HS HL Hn) as ->. rewrite (run_read _ _ _ (find_zero_empty _ (s - rb_start b) (e - rb_start b) HS ltac:(lia))). done.
Qed.

(** * Whole bitmaps *)

Lemma St_new : St empty_private [].
Proof. split; [apply holds_empty|done]. Qed.

Lemma rb_new_run b : 0 <= rb_start b <= rb_end b -> rb_end b <= rb_real_end b < 2 ^ 64 - 1 ->
  exists b', rb_new_bmap true b = (0, b') /\ rb_updated b b' (fun _ => false).
Proof.
  intros H1 H2. eexists. split; [reflexivity|]. split_and!; try done. split; [done|done|]. exists []. split; [apply St_new|apply wfL_nil].
Qed.

(** All memory is released. *)
Lemma rb_free_run b : rb_wf b -> rb_free_bmap b = Some ∅.
Proof.
  intros [H1 H2 (L & HS & HL)]. destruct (free_tree_ok _ _ (St_Tr _ _ HS)) as (bp' & E & Hm & _). unfold rb_free_bmap.
  rewrite (run_ret _ _ _ _ E). cbn. by rewrite Hm.
Qed.

Lemma rb_clear_run b : rb_wf b -> exists b', rb_clear_bmap b = Some b' /\ rb_updated b b' (fun _ => false).
Proof.
  intros Hwf. pose proof Hwf as [H1 H2 (L & HS & HL)]. destruct (free_tree_ok _ _ (St_Tr _ _ HS)) as (bp' & E & Hm & _). unfold rb_clear_bmap.
  rewrite (run_ret _ _ _ _ E). eexists. split; [reflexivity|]. cbn [set_private rb_private]. rewrite Hm.
  apply (rb_changed b (mkBp (mkMem None ∅) None None None) (fun _ => false) Hwf). exists []. split_and!; [apply St_new|apply wfL_nil|done].
Qed.

(** A copy holds the same numbers; memory may run out at any extent.  The source keeps its
    numbers. *)
Lemma rb_copy_run mem0 mem b dest : rb_wf b -> rb_start dest = rb_start b -> rb_end dest = rb_end b -> rb_real_end dest = rb_real_end b ->
  (exists b1 b2, rb_copy_bmap mem0 mem b dest = Some (0, b1, b2) /\ rb_updated b b1 (rb_mem b) /\ rb_updated b b2 (rb_mem b)) \/
  (exists b1 b2, rb_copy_bmap mem0 mem b dest = Some (EXT2_ET_NO_MEMORY, b1, b2) /\ rb_updated b b1 (rb_mem b) /\
     (mem0 = false \/ exists i, mem i = false)).
Proof.
  intros Hwf D1 D2 D3. pose proof Hwf as [H1 H2 (L & HS & HL)]. unfold rb_copy_bmap.
  assert (Hself : rb_updated b b (rb_mem b)) by (by split_and!).
  destruct mem0; [|right; eexists _, _; split; [reflexivity|]; by split; [|left]]. cbn [rb_alloc_private_data]. rewrite decide_False by (intros H; by apply H).
  set (sbp := mkBp _ _ None _). rewrite (first_list _ _ (proj1 HS)).
  assert (HS1 : St sbp L) by (apply St_cursors; [done|]; destruct HS as (_ & _ & C1 & _); done).
  assert (U1 : rb_updated b (set_private sbp b) (rb_mem b)).
  { eapply rb_updated_ext; [|apply (rb_changed b sbp (lmem L) Hwf); by exists L]. intros m. cbn. by rewrite (rb_mem_lmem b L). }
  pose proof (St_fuel _ _ HS) as Hfuel. unfold nodes_fuel, tree_op, get_fuel in Hfuel. injection Hfuel as Hfuel _.
  destruct (copy_loop_ok (bp_mem (rb_private b)) mem L [] (S (size (m_heap (bp_mem (rb_private b))))) empty_private 0 [])
    as [(bp' & D' & E & HS' & HD)|(bp' & D' & E & HS' & HD)]; try done; [lia|apply HS|apply St_new|left|right].
  - exists (set_private sbp b), (set_private bp' dest). split; [by rewrite (run_ret _ (set_private empty_private dest) _ _ E)|]. split; [done|].
    split_and!; try done.
    + split; cbn; [lia|lia|]. exists D'. split; [done|]. unfold rb_lim in *. cbn. rewrite D1, D3. by apply (wfL_data _ L).
    + intros m. rewrite (rb_mem_lmem _ D'), (rb_mem_lmem b L) by done. cbn. rewrite D1. symmetry. by apply lmem_data.
  - exists (set_private sbp b), (set_private bp' dest). split; [by rewrite (run_ret _ (set_private empty_private dest) _ _ E)|]. split; [done|].
    by right.
Qed.

Lemma wfL_le lim lim' L : lim <= lim' -> wfL lim L -> wfL lim' L.
Proof. intros Hl Hwf. eapply wfL_mono; [exact Hwf|]. eapply Forall_impl; [apply Hwf|]. intros e (_ & _ & ?). lia. Qed.

(** [rb_resize_bmap] keeps the numbers up to the smaller end and marks those after the new
    end. *)
Lemma rb_resize_run b new_end new_real_end :
  rb_wf b -> rb_start b <= new_end <= new_real_end -> new_real_end < 2 ^ 64 - 1 ->
  exists b', rb_resize_bmap true b new_end new_real_end = Some (0, b') /\ rb_wf b' /\
    rb_start b' = rb_start b /\ rb_end b' = new_end /\ rb_real_end b' = new_real_end /\
    forall m, rb_mem b' m = bool_decide (new_end < m <= new_real_end) || bool_decide (m <= rb_end b `min` new_end) && rb_mem b m.
Proof.
  intros Hwf Hne Hnr. pose proof Hwf as [H1 H2 (L & HS & HL)]. unfold rb_resize_bmap. cbn [rb_end rb_start set_private].
  set (bp0 := mkBp (bp_mem (rb_private b)) None None _). assert (HT0 : Tr bp0 L) by (by apply St_Tr in HS).
  assert (Hmin : (if decide (new_end < rb_end b) then new_end else rb_end b) = rb_end b `min` new_end) by (case_decide; lia). rewrite Hmin. clear Hmin.
  set (mx := rb_end b `min` new_end - rb_start b). rewrite (u64_small mx) by (unfold in_u; lia).
  pose proof (St_fuel _ _ HS) as Hfuel. unfold nodes_fuel, tree_op, get_fuel in Hfuel. injection Hfuel as Hfuel _.
  destruct (truncate_ok (rb_lim b) (rb_lim64 b Hwf) mx ltac:(lia) L (S (S (length L))) bp0) as (bp1 & L1 & E1 & HT1 & W1 & C1 & M1); [lia|done|done|].
  assert (E2 : rb_truncate mx bp0 = Ret tt bp1).
  { unfold rb_truncate. rewrite (bbind _ _ _ _ _ (Tr_read _ _ _ _ HT0 (St_fuel _ _))).
    by rewrite (bbind _ _ _ _ _ (tree_read _ _ _ (last_list _ _ (proj1 HT0)))). }
  rewrite (run_ret _ (set_private bp0 b) _ _ E2). cbn [mbind option_bind set_private rb_end rb_real_end rb_start rb_private].
  assert (HS1 : St bp1 L1) by (destruct C1 as (Cw & Cr & _); apply Tr_St; [done|by rewrite Cw|by rewrite Cr]).
  set (b1 := mkRb (rb_start b) new_end new_real_end bp1).
  assert (W1' : wfL (rb_lim b1) L1) by (eapply wfL_le; [|exact W1]; unfold rb_lim; cbn; lia).
  assert (Wb1 : rb_wf b1) by (split; cbn; [lia|lia|]; by exists L1).
  assert (Mb1 : forall m, rb_mem b1 m = bool_decide (m <= rb_end b `min` new_end) && rb_mem b m).
  { intros m. rewrite (rb_mem_lmem _ L1), (rb_mem_lmem b L), M1, andb_comm by done. cbn. f_equal. case_bool_decide; lia. }
  case_decide as C; unfold b1 in C; cbn in C.
  - destruct (rb_insert_run b1 (new_end + 1) (new_real_end - new_end) Wb1) as (b2 & E3 & U1 & U2 & U3 & U4 & U5); [unfold b1; cbn; lia..|].
    rewrite (u64_small (new_real_end - new_end)) by (unfold in_u; lia). cbn [rb_start b1] in E3. rewrite E3. exists b2. split_and!; try done.
    intros m. rewrite U5, Mb1. f_equal. apply bool_decide_ext. lia.
  - exists b1. split_and!; try done. intros m. rewrite Mb1. by rewrite (bool_decide_eq_false_2 (new_end < m <= new_real_end)) by lia.
Qed.

(** The code's own check accepts the tree. *)
Lemma rb_check_run b : rb_wf b -> check_tree (rb_private b) = Ret true (rb_private b).
Proof. intros Hwf. pose proof Hwf as [H1 H2 (L & HS & HL)]. apply (check_tree_ok (rb_lim b)) with L; try done. by apply rb_lim64. Qed.

(** * Ranges of bits as bytes *)

Lemma rb_set_range_run b start num inp :
  rb_wf b -> rb_start b <= start -> 0 <= num < 2 ^ 31 -> start + num - 1 <= rb_real_end b -> bytes inp ->
  exists b', rb_set_bmap_range true b start num inp = Some (0, b') /\
    rb_updated b b' (fun m => bool_decide (start <= m < start + num) && bit inp (m - start) || rb_mem b m).
Proof.
  intros Hwf Hs Hn He Hi. pose proof Hwf as [H1 H2 (L & HS & HL)]. unfold rb_set_bmap_range. rewrite rb_index by (done || lia).
  destruct (set_range_ok (rb_lim b) (rb_lim64 b Hwf) (start - rb_start b) num inp (rb_private b) L) as (bp' & E & HC);
    [lia|unfold rb_lim; lia|done|done|done|done|]. eexists. split; [by apply run_ret|]. eapply rb_updated_ext; [|by apply rb_changed].
  intros m. cbn. rewrite (rb_mem_lmem b L) by done. f_equal. unfold shifted, ival. replace (m - rb_start b - (start - rb_start b)) with (m - start) by lia.
  f_equal. case_bool_decide; lia.
Qed.

Lemma rb_get_range_run b start num out :
  rb_wf b -> rb_start b <= start -> 0 <= num < 2 ^ 31 -> start + num - 1 <= rb_real_end b -> bytes out -> num <= 8 * zlen out ->
  (exists n, rb_mem b n = true) ->
  exists out', rb_get_bmap_range b start num out = Some (0, out') /\ bytes out' /\ zlen out' = zlen out /\
    (forall j, 0 <= j < num -> bit out' j = rb_mem b (start + j)) /\
    forall j, num <= j -> bit out' j = (8 * ((num + 7) / 8) <=? j) && bit out j.
Proof.
  intros Hwf Hs Hn He Ho Hz [x Hx]. pose proof Hwf as [H1 H2 (L & HS & HL)]. unfold rb_get_bmap_range. rewrite rb_index by (done || lia).
  destruct (get_range_ok (rb_lim b) (rb_lim64 b Hwf) (start - rb_start b) num out (rb_private b) L) as (out' & E & G1 & G2 & G3 & G4); try done;
    [lia|unfold rb_lim; lia|intros ->; by rewrite (rb_mem_lmem b []) in Hx|].
  rewrite (run_read _ _ _ E). exists out'. split_and!; try done. intros j Hj. rewrite G3 by done. rewrite (rb_mem_lmem b L) by done. f_equal. lia.
Qed.

Lemma rb_get_range_none b start num out :
  rb_wf b -> rb_start b <= start <= rb_real_end b + 1 -> (forall n, rb_mem b n = false) -> rb_get_bmap_range b start num out = Some (0, out).
Proof.
  intros Hwf Hs Hn. pose proof Hwf as [H1 H2 (L & HS & HL)]. pose proof (rb_empty_list b L HS HL Hn) as ->. unfold rb_get_bmap_range.
  rewrite rb_index by done. by rewrite (run_read _ _ _ (get_range_empty (start - rb_start b) num out _ HS)).
Qed.

(** * The instance *)

(** [ext2fs_blkmap64_rbtree].  A failed allocation aborts the process, except in [rb_copy_bmap]: the
    other operations are those with memory.  The results keep the range and the numbers; [op_test_bmap]
    and the searches drop the bitmap with the new cursors, which holds the same numbers.  The lemmas
    above show that on a well-formed bitmap no operation ends without a result. *)
#[global] Instance ext2fs_blkmap64_rbtree : BitmapOps rb_bitmap := {
  op_start := rb_start;
  op_end := rb_end;
  op_real_end := rb_real_end;
  op_set_end e b := mkRb (rb_start b) e (rb_real_end b) (rb_private b);
  op_copy_bmap mem b := match rb_copy_bmap mem (fun _ => mem) b b with Some (err, _, b') => (err, b') | None => (0, b) end;
  op_resize_bmap _ b new_end new_real_end := default (0, b) (rb_resize_bmap true b new_end new_real_end);
  op_mark_bmap b n := default (0, b) (rb_mark_bmap true b n);
  op_unmark_bmap b n := default (0, b) (rb_unmark_bmap true b n);
  op_test_bmap b n := default 0 (fst <$> rb_test_bmap b n);
  op_mark_bmap_extent b n num := default b (rb_mark_bmap_extent true b n num);
  op_unmark_bmap_extent b n num := default b (rb_unmark_bmap_extent true b n num);
  op_test_clear_bmap_extent b n num := default 0 (fst <$> rb_test_clear_bmap_extent b n num);
  op_set_bmap_range b start num inp := default (0, b) (rb_set_bmap_range true b start num inp);
  op_get_bmap_range b start num out := default (0, out) (rb_get_bmap_range b start num out);
  op_clear_bmap b := default b (rb_clear_bmap b);
  op_find_first_zero := Some (fun b s e => default (0, None) (rb_find_first_zero b s e));
  op_find_first_set := Some (fun b s e => default (0, None) (rb_find_first_set b s e))
}.

Lemma rb_unmark_run b n : rb_wf b -> rb_start b <= n <= rb_real_end b ->
  exists b', rb_unmark_bmap true b n = Some (Z.b2z (rb_mem b n || rb_mem b (n + 1)), b') /\
    rb_updated b b' (fun m => negb (bool_decide (m = n)) && rb_mem b m).
Proof.
  intros Hwf Hn. unfold rb_unmark_bmap. destruct (rb_remove_run b n 1 Hwf) as (r & b' & -> & Hr & HU); [lia..|]. exists b'. split.
  - do 2 f_equal. destruct Hr as [[-> (m & Hm & H)]|[-> H]].
    + assert (m = n \/ m = n + 1) as [-> | ->] by lia; rewrite H; [done|by rewrite orb_true_r].
    + by rewrite !H by lia.
  - eapply rb_updated_ext; [|exact HU]. intros m. cbn. do 2 f_equal. apply bool_decide_ext. lia.
Qed.

Lemma rb_mark_run b n : rb_wf b -> rb_start b <= n <= rb_real_end b ->
  exists b', rb_mark_bmap true b n = Some (Z.b2z (rb_mem b n), b') /\ rb_updated b b' (fun m => bool_decide (m = n) || rb_mem b m).
Proof.
  intros Hwf Hn. unfold rb_mark_bmap. destruct (rb_insert_run b n 1 Hwf) as (b' & -> & HU); [lia..|]. exists b'. split; [done|].
  eapply rb_updated_ext; [|exact HU]. intros m. cbn. f_equal. apply bool_decide_ext. lia.
Qed.

(** An update, as the laws of the interface state it. *)
Lemma rb_updated_law b b' f : rb_updated b b' f ->
  rb_wf b' /\ rb_start b' = rb_start b /\ rb_end b' = rb_end b /\ rb_real_end b' = rb_real_end b /\
  forall m, rb_start b <= m <= rb_real_end b -> rb_mem b' m = f m.
Proof. intros (H1 & H2 & H3 & H4 & H5). by split_and!. Qed.

#[global] Program Instance rb_laws : BitmapLaws rb_bitmap := {
  bm_wf := rb_wf;
  bm_mem := rb_mem
}.
Next Obligation. intros b []. done. Qed.
Next Obligation. intros e b [H1 H2 H3] He. cbn in *. split_and!; try done. split; cbn; [lia|lia|done]. Qed.
Next Obligation.
  intros b n Hwf Hn. cbn. destruct (rb_test_run b n Hwf Hn) as (b' & -> & _). cbn. by destruct (rb_mem b n).
Qed.
Next Obligation.
  intros b n Hwf Hn. cbn. destruct (rb_mark_run b n Hwf Hn) as (b' & -> & HU). cbn. split; [by destruct (rb_mem b n)|by apply rb_updated_law].
Qed.
Next Obligation.
  intros b n Hwf Hn. cbn. destruct (rb_unmark_run b n Hwf Hn) as (b' & -> & HU). cbn. split; [by intros ->|by apply rb_updated_law].
Qed.
Next Obligation.
  intros b n num Hwf Hn Hnum He. cbn in *. unfold rb_mark_bmap_extent. destruct (rb_insert_run b n num Hwf) as (b' & -> & HU); [lia..|].
  by apply rb_updated_law.
Qed.
Next Obligation.
  intros b n num Hwf Hn Hnum He. cbn in *. unfold rb_unmark_bmap_extent. destruct (rb_remove_run b n num Hwf) as (r & b' & -> & _ & HU); [lia..|].
  by apply rb_updated_law.
Qed.
Next Obligation.
  intros b n num Hwf Hn Hnum He. cbn in *. destruct (rb_test_clear_run b n num Hwf) as (r & -> & Hr); [lia..|]. done.
Qed.
Next Obligation.
  intros b Hwf. cbn. destruct (rb_clear_run b Hwf) as (b' & -> & HU). by apply rb_updated_law.
Qed.
Next Obligation.
  intros b mem Hwf. cbn. destruct (rb_copy_run mem (fun _ => mem) b b Hwf) as [(b1 & b2 & -> & _ & HU)|(b1 & b2 & -> & _ & HU)]; try done.
  - left. split; [done|]. by apply rb_updated_law.
  - right. split; [done|]. by destruct HU as [|[_ ?]].
Qed.
Next Obligation.
  intros b mem ne nr Hwf _ Hne Hnr. cbn in *. destruct (rb_resize_run b ne nr Hwf Hne Hnr) as (b' & -> & Hwf' & H1 & H2 & H3 & H4). cbn.
  pose proof (rw_start _ Hwf). split_and!; [done|done| |left; split_and!; [done|done|done|]].
  - intros m Hm Hm'. rewrite H4. rewrite bool_decide_eq_false_2, bool_decide_eq_true_2 by lia. done.
  - intros m Hm. rewrite H4. by rewrite !bool_decide_eq_false_2 by lia.
Qed.
Next Obligation.
  intros f b s e Hf Hwf Hs He. injection Hf as <-. cbn in *. destruct (rb_find_set_run b s e Hwf Hs He) as (r & -> & Hr). done.
Qed.
