(* ===== verification/BitmapAgree.v ===== *)
(** The choice of the implementation does not matter: two handles that cover the same units and
    have the same ones marked stay alike under the functions of [gen_bitmap64.c], whatever the
    bitmaps behind them (32-bit arrays, 64-bit arrays, red-black trees). *)
From Stdlib Require Import ZArith Lia.
From stdpp Require Import base tactics numbers list gmap.
From S2P Require Import Prelude ExtErr Bitops BitmapOps BitArray BitArrayProofs GenBitmap GenBitmapProofs BitmapTheorems RbBitmap RbInstance.

(** The search's result is determined. *)
Lemma first_in_unique P Q want s e r1 r2 : (forall x, s <= x <= e -> P x = Q x) -> first_in P want s e r1 -> first_in Q want s e r2 -> r1 = r2.
Proof.
  intros HPQ [(x & -> & Hx & Px & Hp)|[-> Hp]] [(y & -> & Hy & Qy & Hq)|[-> Hq]].
  - destruct (Z.lt_trichotomy x y) as [Hxy|[->|Hxy]]; [|done|].
    + specialize (Hq x ltac:(lia)). rewrite HPQ in Px by lia. rewrite Px in Hq. by destruct want.
    + specialize (Hp y ltac:(lia)). rewrite HPQ in Hp by lia. rewrite Qy in Hp. by destruct want.
  - specialize (Hq x Hx). rewrite HPQ in Px by lia. rewrite Px in Hq. by destruct want.
  - specialize (Hp y Hy). rewrite HPQ in Hp by lia. rewrite Qy in Hp. by destruct want.
  - done.
Qed.

Section agree.
Context {T1 : Type} `{!BitmapOps T1} `{!BitmapLaws T1} {T2 : Type} `{!BitmapOps T2} `{!BitmapLaws T2}.

(** Alike: the same units, the same ones covered, the same ones marked. *)
Record alike (h1 : generic_bitmap T1) (h2 : generic_bitmap T2) : Prop := {
  al_wf1 : gwf h1;
  al_wf2 : gwf h2;
  al_unit n : gunit h1 n = gunit h2 n;
  al_covers u : gcovers h1 u <-> gcovers h2 u;
  al_mem u : gcovers h1 u -> gmem h1 u = gmem h2 u
}.

Lemma alike_updated (h1 : generic_bitmap T1) (h2 : generic_bitmap T2) h1' h2' f g :
  alike h1 h2 -> gupdated h1 h1' f -> gupdated h2 h2' g -> (forall u, gcovers h1 u -> f u = g u) -> alike h1' h2'.
Proof.
  intros [W1 W2 Hu Hc Hm] (A1 & A2 & A3 & A4) (B1 & B2 & B3 & B4) Hfg. split; [done|done| | |].
  - intros n. by rewrite A2, B2.
  - intros u. by rewrite A3, B3.
  - intros u Hu'. rewrite A3 in Hu'. rewrite A4, B4; [by apply Hfg|by apply Hc|done].
Qed.

Lemma mark_alike (h1 : generic_bitmap T1) (h2 : generic_bitmap T2) n : alike h1 h2 -> 0 <= n < 2 ^ 64 ->
  alike (ext2fs_mark_generic_bmap h1 n).2 (ext2fs_mark_generic_bmap h2 n).2 /\
  ((ext2fs_mark_generic_bmap h1 n).1 <> 0 <-> (ext2fs_mark_generic_bmap h2 n).1 <> 0).
Proof.
  intros HA Hn. pose proof HA as [W1 W2 Hu Hc Hm]. pose proof (mark_cases h1 n W1 Hn) as M1. pose proof (mark_cases h2 n W2 Hn) as M2.
  destruct (ext2fs_mark_generic_bmap h1 n) as [r1 h1'], (ext2fs_mark_generic_bmap h2 n) as [r2 h2']. rewrite <- Hu in M2. cbn [fst snd].
  destruct (decide (gcovers h1 (gunit h1 n))) as [C|C], (decide (gcovers h2 (gunit h1 n))) as [C'|C']; try (by rewrite Hc in C).
  - destruct M1 as [R1 U1], M2 as [R2 U2]. split; [|by rewrite R1, R2, Hm]. eapply alike_updated; [done|exact U1|exact U2|].
    intros u Hu'. cbn. by rewrite Hm.
  - destruct M1 as [-> ->], M2 as [-> ->]. done.
Qed.

Lemma unmark_alike (h1 : generic_bitmap T1) (h2 : generic_bitmap T2) n : alike h1 h2 -> 0 <= n < 2 ^ 64 ->
  alike (ext2fs_unmark_generic_bmap h1 n).2 (ext2fs_unmark_generic_bmap h2 n).2.
Proof.
  intros HA Hn. pose proof HA as [W1 W2 Hu Hc Hm]. pose proof (unmark_cases h1 n W1 Hn) as M1. pose proof (unmark_cases h2 n W2 Hn) as M2.
  destruct (ext2fs_unmark_generic_bmap h1 n) as [r1 h1'], (ext2fs_unmark_generic_bmap h2 n) as [r2 h2']. rewrite <- Hu in M2. cbn [fst snd].
  destruct (decide (gcovers h1 (gunit h1 n))) as [C|C], (decide (gcovers h2 (gunit h1 n))) as [C'|C']; try (by rewrite Hc in C).
  - destruct M1 as [R1 U1], M2 as [R2 U2]. eapply alike_updated; [done|exact U1|exact U2|]. intros u Hu'. cbn. by rewrite Hm.
  - destruct M1 as [-> ->], M2 as [-> ->]. done.
Qed.

Lemma test_alike (h1 : generic_bitmap T1) (h2 : generic_bitmap T2) n : alike h1 h2 -> 0 <= n < 2 ^ 64 -> (ext2fs_test_generic_bmap h1 n <> 0 <-> ext2fs_test_generic_bmap h2 n <> 0).
Proof.
  intros HA Hn. pose proof HA as [W1 W2 Hu Hc Hm]. pose proof (test_cases h1 n W1 Hn) as M1. pose proof (test_cases h2 n W2 Hn) as M2.
  rewrite <- Hu in M2.
  destruct (decide (gcovers h1 (gunit h1 n))) as [C|C], (decide (gcovers h2 (gunit h1 n))) as [C'|C']; try (by rewrite Hc in C).
  by rewrite M1, M2, Hm.
Qed.

(** * Ranges *)

Lemma touched_dec {T} (h : generic_bitmap T) block num u : touched h block num u \/ ~ touched h block num u.
Proof.
  destruct (decide (Exists (fun n => gunit h n = u) (seqZ block num))) as [H|H]; rewrite Exists_exists in H; setoid_rewrite elem_of_seqZ in H; auto.
Qed.

Lemma covered_dec {T} `{!BitmapOps T} (h : generic_bitmap T) block num : range_covered h block num \/ ~ range_covered h block num.
Proof.
  destruct (decide (Forall (fun n => gcovers h (gunit h n)) (seqZ block num))) as [H|H]; rewrite Forall_forall in H;
    setoid_rewrite elem_of_seqZ in H; auto.
Qed.

Lemma alike_range v (h1 : generic_bitmap T1) (h2 : generic_bitmap T2) h1' h2' block num :
  alike h1 h2 ->
  (range_covered h1 block num -> range_set v h1 h1' block num) /\ (~ range_covered h1 block num -> h1' = h1) ->
  (range_covered h2 block num -> range_set v h2 h2' block num) /\ (~ range_covered h2 block num -> h2' = h2) -> alike h1' h2'.
Proof.
  intros HA [A A'] [B B']. pose proof HA as [W1 W2 Hu Hc Hm].
  assert (HC : range_covered h1 block num <-> range_covered h2 block num).
  { unfold range_covered. split; intros H n Hn; specialize (H n Hn); [by rewrite <- Hu, <- Hc|by rewrite Hu, Hc]. }
  assert (HT : forall u, touched h1 block num u <-> touched h2 block num u) by (intros u; unfold touched; by setoid_rewrite Hu).
  destruct (covered_dec h1 block num) as [C|C].
  - destruct (A C) as (A1 & A2 & A3 & A4 & A5), (B (proj1 HC C)) as (B1 & B2 & B3 & B4 & B5). split; [done|done| | |].
    + intros n. by rewrite A2, B2.
    + intros u. by rewrite A3, B3.
    + intros u Hu'. rewrite A3 in Hu'. pose proof (proj1 (Hc u) Hu') as Hu2. destruct (touched_dec h1 block num u) as [Ht|Ht].
      * rewrite A4, B4; [done|done|by apply HT|done|done].
      * rewrite A5, B5; [by apply Hm|done|by rewrite <- HT|done|done].
  - rewrite A' by done. rewrite B' by (by rewrite <- HC). done.
Qed.

Lemma test_range_alike (h1 : generic_bitmap T1) (h2 : generic_bitmap T2) block num : alike h1 h2 -> block_bitmap h1 -> block_bitmap h2 ->
  0 <= block -> 0 < num < 2 ^ 31 -> block + num + 2 ^ 32 < 2 ^ 64 -> range_covered h1 block num ->
  ext2fs_test_block_bitmap_range2 h1 block num = ext2fs_test_block_bitmap_range2 h2 block num.
Proof.
  intros [W1 W2 Hu Hc Hm] K1 K2 Hb Hn Hlt C1. assert (C2 : range_covered h2 block num) by (intros n Hr; rewrite <- Hu; by apply Hc, C1).
  assert (HT : forall u, touched h1 block num u -> touched h2 block num u /\ gcovers h1 u).
  { intros u (n & Hr & <-). split; [exists n; by rewrite Hu|by apply C1]. }
  assert (HT' : forall u, touched h2 block num u -> touched h1 block num u) by (intros u (n & Hr & <-); exists n; by rewrite Hu).
  destruct (test_range_cases h1 block num W1 K1 Hb Hn Hlt C1) as [[-> H1]|[-> (u & H1 & H1')]],
    (test_range_cases h2 block num W2 K2 Hb Hn Hlt C2) as [[-> H2]|[-> (u' & H2 & H2')]]; try done.
  - apply HT' in H2 as H3. pose proof (proj2 (HT _ H3)) as H4. rewrite <- Hm, H1 in H2' by done. done.
  - destruct (HT _ H1) as [H3 H4]. rewrite Hm, H2 in H1' by done. done.
Qed.

(** C18: Bitmaps behind different implementations answer alike.  If two handles have the same units
    marked, marking, unmarking and ranges keep them so, and mark, test, the test of a range and the
    search for a marked block give the same answer.  (The value of unmark and the search for a
    clear block are left out: on these the red-black tree differs.) *)
Theorem implementations_agree (h1 : generic_bitmap T1) (h2 : generic_bitmap T2) n block num :
  alike h1 h2 -> 0 <= n < 2 ^ 64 -> 0 <= block -> 0 < num < 2 ^ 31 -> block + num + 2 ^ 32 < 2 ^ 64 ->
  alike (ext2fs_mark_generic_bmap h1 n).2 (ext2fs_mark_generic_bmap h2 n).2 /\
  ((ext2fs_mark_generic_bmap h1 n).1 <> 0 <-> (ext2fs_mark_generic_bmap h2 n).1 <> 0) /\
  alike (ext2fs_unmark_generic_bmap h1 n).2 (ext2fs_unmark_generic_bmap h2 n).2 /\
  (ext2fs_test_generic_bmap h1 n <> 0 <-> ext2fs_test_generic_bmap h2 n <> 0) /\
  alike (ext2fs_mark_block_bitmap_range2 h1 block num) (ext2fs_mark_block_bitmap_range2 h2 block num) /\
  alike (ext2fs_unmark_block_bitmap_range2 h1 block num) (ext2fs_unmark_block_bitmap_range2 h2 block num) /\
  (block_bitmap h1 -> block_bitmap h2 -> range_covered h1 block num ->
   ext2fs_test_block_bitmap_range2 h1 block num = ext2fs_test_block_bitmap_range2 h2 block num) /\
  (range_covered h1 block num ->
   ext2fs_find_first_set_generic_bmap h1 block (block + num - 1) = ext2fs_find_first_set_generic_bmap h2 block (block + num - 1)).
Proof.
  intros HA Hn Hb Hnum Hlt. pose proof HA as [W1 W2 Hu Hc Hm]. destruct (mark_alike h1 h2 n HA Hn) as [M1 M2].
  split_and!; [done|done|by apply unmark_alike|by apply test_alike| | |intros; by apply test_range_alike|].
  - eapply alike_range; [exact HA|by apply mark_range_cases|by apply mark_range_cases].
  - eapply alike_range; [exact HA|by apply unmark_range_cases|by apply unmark_range_cases].
  - intros C1. pose proof (C1 block ltac:(lia)) as Cb. pose proof (C1 (block + num - 1) ltac:(lia)) as Ce.
    eapply (first_in_unique _ _ true); [|apply find_set_cases; try done; lia|apply find_set_cases; try done; try lia; by rewrite <- Hu, <- Hc].
    intros x Hx. cbn. rewrite <- Hu. apply Hm, C1. lia.
Qed.

End agree.

(** * Witness: the tree and the array with the same numbers *)

Definition demo_rb : rb_bitmap := op_mark_bmap_extent (rb_new_bmap true (mkRb 1 300 320 empty_private)).2 100 17.

Lemma demo_rb_wf : rb_wf demo_rb.
Proof.
  destruct (rb_new_run (mkRb 1 300 320 empty_private)) as (b & E & (Hwf & _)); [cbn; lia|cbn; lia|]. unfold demo_rb. rewrite E.
  unshelve refine (proj1 (law_mark_extent (BitmapLaws := rb_laws) b 100 17 _ _ _ _)); [exact Hwf|injection E as <-; cbn; lia..].
Qed.

#[local] Instance agree_ops : BitmapOps bmap := ext2fs_blkmap64_bitarray 5 demo_junk.
#[local] Instance agree_laws : BitmapLaws bmap := ba_laws 5 demo_junk demo_junk_len demo_junk_bytes.

Definition demo_tree : generic_bitmap rb_bitmap := B64 Kblock 2 demo_rb.

Lemma demo_alike : alike demo_tree demo_handle.
Proof.
  split; [split; [apply demo_rb_wf|lia]|exact demo_handle_wf|done|done|]. intros u Hu.
  assert (H : forallb (fun x => eqb (rb_mem demo_rb x) (ba_mem demo_map x)) (seqZ 1 300) = true) by (vm_compute; reflexivity).
  rewrite forallb_forall in H. apply eqb_prop, H. apply list_elem_of_In, elem_of_seqZ.
  change (rb_start demo_rb <= u <= rb_end demo_rb) in Hu.
  replace (rb_start demo_rb) with 1 in Hu by (vm_compute; reflexivity). replace (rb_end demo_rb) with 300 in Hu by (vm_compute; reflexivity). lia.
Qed.

Lemma implementations_agree_witness :
  ext2fs_test_block_bitmap_range2 demo_tree 600 30 = 1 /\
  ext2fs_test_block_bitmap_range2 demo_tree 600 30 = ext2fs_test_block_bitmap_range2 demo_handle 600 30.
Proof.
  split; [vm_compute; reflexivity|].
  refine (proj1 (proj2 (proj2 (proj2 (proj2 (proj2 (proj2 (implementations_agree demo_tree demo_handle 401 600 30 demo_alike _ _ _ _))))))) eq_refl eq_refl _);
    [lia..|]. intros n Hn. apply (al_covers _ _ demo_alike). exact (demo_covered n Hn).
Defined.
