(* ===== verification/RbTheorems.v ===== *)
(** What bitmaps of red-black trees guarantee: any history of operations is that of a set of
    numbers; and where they differ from bit arrays. *)
From Stdlib Require Import ZArith Lia.
From stdpp Require Import base tactics numbers list gmap.
From S2P Require Import Prelude ExtErr Bitops BitmapOps BitArray BitArrayProofs GenBitmap GenBitmapProofs Rbtree RbtreeProofs RbtreeBalance.
From S2P Require Import RbtreeErase RbtreeList RbBitmap RbBitmapProofs RbExtents RbRemove RbOps RbRange RbInstance.

Implicit Types (b : rb_bitmap).

(** * Histories *)

(** The operations of [struct ext2_bitmap_ops] that answer with a number. *)
Inductive request :=
| Qmark (arg : Z)
| Qunmark (arg : Z)
| Qtest (arg : Z)
| Qmark_extent (arg num : Z)
| Qunmark_extent (arg num : Z)
| Qtest_clear (start len : Z)
| Qset_range (start num : Z) (inp : list Z)
| Qclear
| Qresize (new_end new_real_end : Z).

Definition exec (q : request) b : option (Z * rb_bitmap) :=
  match q with
  | Qmark arg => rb_mark_bmap true b arg
  | Qunmark arg => rb_unmark_bmap true b arg
  | Qtest arg => rb_test_bmap b arg
  | Qmark_extent arg num => pair 0 <$> rb_mark_bmap_extent true b arg num
  | Qunmark_extent arg num => pair 0 <$> rb_unmark_bmap_extent true b arg num
  | Qtest_clear start len => rb_test_clear_bmap_extent b start len
  | Qset_range start num inp => rb_set_bmap_range true b start num inp
  | Qclear => pair 0 <$> rb_clear_bmap b
  | Qresize new_end new_real_end => rb_resize_bmap true b new_end new_real_end
  end.

Fixpoint exec_all (qs : list request) b : option (list Z * rb_bitmap) :=
  match qs with
  | [] => Some ([], b)
  | q :: qs => '(r, b) ← exec q b; '(rs, b) ← exec_all qs b; Some (r :: rs, b)
  end.

(** The specification: a range and a set of numbers. *)
Record numset := mkSet {
  ns_start : Z;
  ns_end : Z;
  ns_real_end : Z;
  ns_mem : Z -> bool
}.

Definition with_numbers (f : Z -> bool) (m : numset) : numset := mkSet (ns_start m) (ns_end m) (ns_real_end m) f.
Definition among (s n x : Z) : bool := bool_decide (s <= x < s + n).

Definition answer (q : request) (m : numset) : Z * numset :=
  let f := ns_mem m in
  match q with
  | Qmark arg => (Z.b2z (f arg), with_numbers (fun x => bool_decide (x = arg) || f x) m)
  | Qunmark arg => (Z.b2z (f arg), with_numbers (fun x => negb (bool_decide (x = arg)) && f x) m)
  | Qtest arg => (Z.b2z (f arg), m)
  | Qmark_extent arg num => (0, with_numbers (fun x => among arg num x || f x) m)
  | Qunmark_extent arg num => (0, with_numbers (fun x => negb (among arg num x) && f x) m)
  | Qtest_clear start len => (Z.b2z (negb (existsb f (seqZ start len))), m)
  | Qset_range start num inp => (0, with_numbers (fun x => if among start num x then bit inp (x - start) else f x) m)
  | Qclear => (0, with_numbers (fun _ => false) m)
  | Qresize new_end new_real_end =>
      (0, mkSet (ns_start m) new_end new_real_end
            (fun x => bool_decide (new_end < x <= new_real_end) || bool_decide (x <= ns_end m `min` new_end) && f x))
  end.

Fixpoint after (qs : list request) (m : numset) : numset :=
  match qs with [] => m | q :: qs => after qs (answer q m).2 end.

(** The numbers returned are the answers of the set.  An unmark whose number is not in the set
    while the next one is may return anything: there the code is wrong
    ([rb_unmark_reports_next]). *)
Definition agrees (q : request) (m : numset) (r : Z) : Prop :=
  match q with
  | Qunmark arg => ns_mem m arg = true \/ ns_mem m (arg + 1) = false -> r = (answer q m).1
  | _ => r = (answer q m).1
  end.

Fixpoint agrees_all (qs : list request) (m : numset) (rs : list Z) : Prop :=
  match qs, rs with
  | [], [] => True
  | q :: qs, r :: rs => agrees q m r /\ agrees_all qs (answer q m).2 rs
  | _, _ => False
  end.

(** The arguments lie in the range; an extent that is marked is not empty; a range is set only
    where the numbers with a clear bit are not in the set (the code only adds numbers,
    [rb_set_range_keeps]). *)
Definition inside_range (m : numset) (s n : Z) : Prop := ns_start m <= s /\ 0 <= n /\ s + n - 1 <= ns_real_end m.

Definition legal (q : request) (m : numset) : Prop :=
  match q with
  | Qmark arg | Qunmark arg | Qtest arg => ns_start m <= arg <= ns_real_end m
  | Qmark_extent arg num => inside_range m arg num /\ 0 < num
  | Qunmark_extent arg num | Qtest_clear arg num => inside_range m arg num
  | Qset_range start num inp => inside_range m start num /\ num < 2 ^ 31 /\ bytes inp /\
      forall x, start <= x < start + num -> bit inp (x - start) = false -> ns_mem m x = false
  | Qclear => True
  | Qresize new_end new_real_end => ns_start m <= new_end <= new_real_end /\ new_real_end < 2 ^ 64 - 1
  end.

Fixpoint legal_all (qs : list request) (m : numset) : Prop :=
  match qs with [] => True | q :: qs => legal q m /\ legal_all qs (answer q m).2 end.

(** A bitmap that stores the set. *)
Definition stores b (m : numset) : Prop :=
  rb_wf b /\ rb_start b = ns_start m /\ rb_end b = ns_end m /\ rb_real_end b = ns_real_end m /\ forall x, rb_mem b x = ns_mem m x.

Lemma updated_stores b b' m f g : stores b m -> rb_updated b b' f -> (forall x, f x = g x) -> stores b' (with_numbers g m).
Proof. intros (_ & H1 & H2 & H3 & _) (U1 & U2 & U3 & U4 & U5) Hf. split_and!; cbn; congruence. Qed.

Lemma updated_same b b' m : stores b m -> rb_updated b b' (rb_mem b) -> stores b' m.
Proof. intros (_ & H1 & H2 & H3 & H4) (U1 & U2 & U3 & U4 & U5). split_and!; congruence. Qed.

Lemma existsb_seqZ f s n : existsb f (seqZ s n) = true <-> exists x, s <= x < s + n /\ f x = true.
Proof. rewrite existsb_exists. setoid_rewrite <- list_elem_of_In. by setoid_rewrite elem_of_seqZ. Qed.

(** One step. *)
Lemma exec_answer q b m : stores b m -> legal q m -> exists r b', exec q b = Some (r, b') /\ agrees q m r /\ stores b' (answer q m).2.
Proof.
  intros HS Hl. pose proof HS as (Hwf & S1 & S2 & S3 & S4). destruct q as [arg|arg|arg|arg num|arg num|start len|start num inp| |ne nr];
    cbn [exec agrees answer fst snd legal] in *; unfold inside_range in *; rewrite <- ?S1, <- ?S2, <- ?S3 in Hl.
  - destruct (rb_mark_run b arg Hwf Hl) as (b' & -> & HU). rewrite S4. eexists _, _. split; [reflexivity|]. split; [done|].
    eapply updated_stores; [done|exact HU|]. intros x. cbn. by rewrite S4.
  - destruct (rb_unmark_run b arg Hwf Hl) as (b' & -> & HU). rewrite !S4. eexists _, _. split; [reflexivity|]. split.
    { intros [->| ->]; [done|]. by rewrite orb_false_r. }
    eapply updated_stores; [done|exact HU|]. intros x. cbn. by rewrite S4.
  - destruct (rb_test_run b arg Hwf Hl) as (b' & -> & _ & HU). rewrite S4. eexists _, _. split; [reflexivity|]. split; [done|].
    by eapply updated_same.
  - unfold rb_mark_bmap_extent. destruct (rb_insert_run b arg num Hwf) as (b' & -> & HU); [lia..|].
    eexists _, _. split; [reflexivity|]. split; [done|]. eapply updated_stores; [done|exact HU|]. intros x. cbn. by rewrite S4.
  - unfold rb_unmark_bmap_extent. destruct (rb_remove_run b arg num Hwf) as (r & b' & -> & _ & HU); [lia..|].
    eexists _, _. split; [reflexivity|]. split; [done|]. eapply updated_stores; [done|exact HU|]. intros x. cbn. by rewrite S4.
  - destruct (rb_test_clear_run b start len Hwf) as (r & -> & Hr); [lia..|]. exists r, b. split; [done|]. split; [|done].
    pose proof (existsb_seqZ (ns_mem m) start len) as HE. destruct Hr as [[-> Hr]|[-> (x & Hx & Hr)]].
    + destruct (existsb _ _); [|done]. destruct (proj1 HE eq_refl) as (x & Hx & Hf). by rewrite <- S4, Hr in Hf.
    + rewrite (proj2 HE); [done|]. exists x. by rewrite <- S4.
  - destruct Hl as (Hi & Hn & Hb & Hz). destruct (rb_set_range_run b start num inp Hwf) as (b' & -> & HU); [lia|lia|lia|done|].
    eexists _, _. split; [reflexivity|]. split; [done|]. eapply updated_stores; [done|exact HU|]. intros x. cbn. rewrite S4.
    unfold among. case_bool_decide as C; [|done]. cbn [andb].
    destruct (bit inp (x - start)) eqn:E; [done|]. by rewrite (Hz x C E).
  - destruct (rb_clear_run b Hwf) as (b' & -> & HU). eexists _, _. split; [reflexivity|]. split; [done|]. by eapply updated_stores.
  - destruct Hl as [H1 H2]. destruct (rb_resize_run b ne nr Hwf H1 H2) as (b' & -> & W & R1 & R2 & R3 & R4).
    eexists _, _. split; [reflexivity|]. split; [done|]. split_and!; cbn; try congruence. intros x. by rewrite R4, S4, S2.
Qed.

Lemma exec_all_answers qs : forall b m, stores b m -> legal_all qs m ->
  exists rs b', exec_all qs b = Some (rs, b') /\ agrees_all qs m rs /\ stores b' (after qs m).
Proof.
  induction qs as [|q qs IH]; intros b m HS Hl; cbn [exec_all agrees_all after legal_all] in *; [by exists [], b|]. destruct Hl as [H1 H2].
  destruct (exec_answer q b m HS H1) as (r & b1 & -> & Hr & HS1). cbn [fst snd mbind option_bind] in *.
  destruct (IH b1 _ HS1 H2) as (rs & b2 & -> & Hrs & HS2). by exists (r :: rs), b2.
Qed.

(** * Theorems *)

(** C17: A bitmap of red-black trees refines a set of numbers.  Any history of marks, unmarks,
    tests, operations on extents and ranges, clears and resizes with legal arguments (inside the range
    of the bitmap, extents that are marked not empty, ranges set only over numbers that are clear
    or set in the buffer too, sizes below the limits of the types) and with allocations that succeed runs to
    its end on a new bitmap, with no access to a null or freed extent and no abort; the numbers
    it returns are the answers of the set, but for an unmark of a number not in the set whose
    successor is, so the write cursor, the read cursor and the cached next extent never change an
    answer; and at the end the tree holds the set, passes the code's own [check_tree], and
    releasing it leaves no memory behind. *)
Theorem rb_refines_set start end_ real_end qs :
  0 <= start <= end_ -> end_ <= real_end < 2 ^ 64 - 1 ->
  let m := mkSet start end_ real_end (fun _ => false) in
  legal_all qs m ->
  let b := (rb_new_bmap true (mkRb start end_ real_end empty_private)).2 in
  exists rs b', exec_all qs b = Some (rs, b') /\ agrees_all qs m rs /\ stores b' (after qs m) /\
    check_tree (rb_private b') = Ret true (rb_private b') /\ rb_free_bmap b' = Some ∅.
Proof.
  intros H1 H2 m Hl b. destruct (rb_new_run (mkRb start end_ real_end empty_private) H1 H2) as (b0 & E0 & U0).
  assert (HS : stores b m) by (unfold b; rewrite E0; destruct U0 as (U1 & U2 & U3 & U4 & U5); by split_and!).
  destruct (exec_all_answers qs b m HS Hl) as (rs & b' & E & Hrs & HS'). exists rs, b'. pose proof HS' as (Hwf & _).
  split_and!; [done|done|done|by apply rb_check_run|by apply rb_free_run].
Qed.

(** What [rb_set_bmap_range] stores, [rb_get_bmap_range] reads back: on a bitmap with none of the
    numbers set and at least one bit of the buffer set, the bits read are those written, whatever
    the alignment, and the bits of the last byte after them are clear. *)
Theorem rb_range_roundtrip b start num inp out :
  rb_wf b -> rb_start b <= start -> 0 <= num < 2 ^ 31 -> start + num - 1 <= rb_real_end b -> bytes inp -> bytes out -> num <= 8 * zlen out ->
  (forall i, 0 <= i < num -> rb_mem b (start + i) = false) -> (exists i, 0 <= i < num /\ bit inp i = true) ->
  exists b' out', rb_set_bmap_range true b start num inp = Some (0, b') /\ rb_get_bmap_range b' start num out = Some (0, out') /\
    zlen out' = zlen out /\ (forall i, 0 <= i < num -> bit out' i = bit inp i) /\
    (forall i, num <= i < 8 * ((num + 7) / 8) -> bit out' i = false) /\
    (forall i, 8 * ((num + 7) / 8) <= i -> bit out' i = bit out i).
Proof.
  intros Hwf Hs Hn He Hi Ho Hz Hclear (i0 & Hi0 & Hb0). destruct (rb_set_range_run b start num inp Hwf Hs Hn He Hi) as (b' & E1 & U1 & U2 & U3 & U4 & U5).
  destruct (rb_get_range_run b' start num out U1) as (out' & E2 & G1 & G2 & G3 & G4); [lia|lia|lia|done|done| |].
  { exists (start + i0). rewrite U5, bool_decide_eq_true_2 by lia. replace (start + i0 - start) with i0 by lia. by rewrite Hb0. }
  exists b', out'. split_and!; [done|done|done| | |].
  - intros i Hr. rewrite G3, U5, bool_decide_eq_true_2 by lia. replace (start + i - start) with i by lia.
    by rewrite Hclear, orb_false_r by lia.
  - intros i Hr. rewrite G4 by lia. by rewrite (proj2 (Z.leb_gt _ _)) by lia.
  - intros i Hr. rewrite G4 by (Z.div_mod_to_equations; lia). by rewrite (proj2 (Z.leb_le _ _)) by lia.
Qed.

(** * Witnesses *)

(** Extents that meet and are split, across cursors; a resize that cuts and one that grows. *)
Definition demo_history : list request :=
  [Qmark_extent 100 50; Qmark 150; Qtest 150; Qtest 151; Qunmark 120; Qtest_clear 119 2; Qtest_clear 151 40; Qmark 99;
   Qset_range 200 20 [255; 0; 15]; Qunmark_extent 110 100; Qtest 209; Qresize 240 255; Qtest 250; Qresize 300 319; Qtest 250; Qtest 103; Qunmark 98].

Definition demo_set : numset := mkSet 1 300 320 (fun _ => false).

Lemma demo_legal : legal_all demo_history demo_set.
Proof.
  cbn [demo_history legal_all legal answer snd]. unfold inside_range. cbn [ns_start ns_end ns_real_end with_numbers demo_set].
  split_and!; try lia; [apply bytes_check; vm_compute; reflexivity|]. intros x Hx _. cbn [ns_mem with_numbers demo_set].
  unfold among. repeat case_bool_decide; done || lia.
Qed.

Definition demo_answers : list Z := [0; 0; 1; 0; 1; 0; 1; 0; 0; 0; 0; 0; 1; 0; 0; 1; 1].

Example demo_agrees : agrees_all demo_history demo_set demo_answers.
Proof. vm_compute. split_and!; done || by intros []. Qed.

Lemma rb_refines_set_witness :
  exists rs b', exec_all demo_history (rb_new_bmap true (mkRb 1 300 320 empty_private)).2 = Some (rs, b') /\
    agrees_all demo_history demo_set rs /\ rb_free_bmap b' = Some ∅.
Proof.
  destruct (rb_refines_set 1 300 320 demo_history ltac:(lia) ltac:(lia) demo_legal) as (rs & b' & E & Hrs & _ & _ & H).
  exists rs, b'. exact (conj E (conj Hrs H)).
Defined.

Example demo_run :
  fst <$> exec_all demo_history (rb_new_bmap true (mkRb 1 300 320 empty_private)).2 = Some demo_answers.
Proof. vm_compute. reflexivity. Qed.

Definition demo_new : rb_bitmap := (rb_new_bmap true (mkRb 1 300 320 empty_private)).2.

Lemma demo_new_wf : rb_wf demo_new.
Proof. destruct (rb_new_run (mkRb 1 300 320 empty_private)) as (b & E & (Hwf & _)); [cbn; lia|cbn; lia|]. unfold demo_new. by rewrite E. Qed.

Lemma rb_range_roundtrip_witness :
  exists b' out', rb_set_bmap_range true demo_new 13 20 [255; 6; 3] = Some (0, b') /\
    rb_get_bmap_range b' 13 20 [9; 9; 9; 9] = Some (0, out') /\ forall i, 0 <= i < 20 -> bit out' i = bit [255; 6; 3] i.
Proof.
  destruct (rb_range_roundtrip demo_new 13 20 [255; 6; 3] [9; 9; 9; 9] demo_new_wf) as (b' & out' & E1 & E2 & _ & H & _);
    [vm_compute; discriminate|lia|vm_compute; discriminate|apply bytes_check; vm_compute; reflexivity|apply bytes_check; vm_compute; reflexivity
    |vm_compute; discriminate|intros i Hi; vm_compute; reflexivity|exists 0; split; [lia|vm_compute; reflexivity]|]. exists b', out'. exact (conj E1 (conj E2 H)).
Defined.

(** * Where the tree differs from the array *)

(** [rb_unmark_bmap] returns 1 for a number that is not in the set when the next number is:
    the loop over the extents on the right stops only at those that begin after the end of the range. *)
Theorem rb_unmark_reports_next b n :
  rb_wf b -> rb_start b <= n <= rb_real_end b -> rb_mem b n = false -> rb_mem b (n + 1) = true ->
  exists b', rb_unmark_bmap true b n = Some (1, b') /\ forall m, rb_mem b' m = rb_mem b m.
Proof.
  intros Hwf Hn H0 H1. destruct (rb_unmark_run b n Hwf Hn) as (b' & E & (_ & _ & _ & _ & HU)). rewrite H0, H1 in E. exists b'. split; [done|].
  intros m. rewrite HU. case_bool_decide as C; [|done]. by rewrite C, H0.
Qed.

Lemma rb_unmark_reports_next_witness :
  match rb_mark_bmap true demo_new 101 with
  | Some (_, b) => exists b', rb_unmark_bmap true b 100 = Some (1, b') /\ forall m, rb_mem b' m = rb_mem b m
  | None => False
  end.
Proof.
  destruct (rb_mark_run demo_new 101 demo_new_wf ltac:(vm_compute; split; discriminate)) as (b & -> & (Hwf & H1 & H2 & H3 & HU)).
  apply (rb_unmark_reports_next b 100 Hwf); [rewrite H1, H3; vm_compute; split; discriminate|rewrite HU; vm_compute; reflexivity..].
Defined.

(** In an empty set the search for a clear number finds none, though all are clear, and reading a
    range leaves the caller's buffer as it was. *)
Theorem rb_empty_set_limits b s e num out :
  rb_wf b -> (forall n, rb_mem b n = false) -> rb_start b <= s <= e -> e <= rb_real_end b ->
  rb_find_first_zero b s e = Some (ENOENT, None) /\ rb_get_bmap_range b s num out = Some (0, out).
Proof. intros Hwf Hn Hs He. split; [by apply rb_find_zero_none|]. apply rb_get_range_none; [done|lia|done]. Qed.

Lemma rb_empty_set_limits_witness :
  rb_find_first_zero demo_new 5 300 = Some (ENOENT, None) /\ rb_get_bmap_range demo_new 5 16 [77; 77] = Some (0, [77; 77]).
Proof.
  apply (rb_empty_set_limits demo_new 5 300 16 [77; 77] demo_new_wf); [intros n; vm_compute; reflexivity|vm_compute; split; discriminate|vm_compute; discriminate].
Defined.

(** [ext2fs_set_generic_bmap_padding] of a bitmap without padding marks an extent of length 0, which
    the tree stores: the code's own check rejects the tree, and after the bitmap has grown the
    search for a set number reports one that tests as clear. *)
Theorem rb_padding_ghost :
  let b := (rb_new_bmap true (mkRb 0 63 63 empty_private)).2 in
  match ext2fs_set_generic_bmap_padding (B64 Kblock 0 b) with
  | B64 _ _ b1 =>
      (exists bp, check_tree (rb_private b1) = Ret false bp) /\
      match rb_resize_bmap true b1 127 127 with
      | Some (_, b2) => rb_find_first_set b2 0 127 = Some (0, Some 64) /\ fst <$> rb_test_bmap b2 64 = Some 0
      | None => False
      end
  | _ => False
  end.
Proof. vm_compute. split; [by eexists|done]. Qed.

(** [rb_set_bmap_range] only adds: a number that is set and whose bit in the buffer is clear stays set,
    where [ba_set_bmap_range] clears it. *)
Theorem rb_set_range_keeps :
  match rb_mark_bmap true demo_new 20 with
  | Some (_, b) => (fun '(_, b') => rb_mem b' 20) <$> rb_set_bmap_range true b 17 8 [0] = Some true
  | None => False
  end /\
  let a := (ba_mark_bmap (mkBmap 1 300 320 (replicate 40 0)) 20).2 in
  ba_mem a 20 = true /\ ba_mem (ba_set_bmap_range a 17 8 [0]).2 20 = false.
Proof. vm_compute. done. Qed.
