(* ===== verification/Icount.v ===== *)
(** Inode link counts: [rfsck-ext/lib/ext2fs/icount.c].

    A count of 1 is a bit of the inode bitmap [single]; larger ones are in a sorted array
    ([icount_list]) or in a database; the optional bitmap [multiple] says which inodes are in
    it.  With [EXT2_ICOUNT_OPT_FULLMAP] the counts are an array of 16-bit values instead. *)
From Stdlib Require Import ZArith Lia.
From stdpp Require Import base tactics numbers list sorting.
From S2P Require Import Prelude ExtErr BitmapOps BitArray GenBitmap.

Abbreviation icount_el := (Z * Z)%type.    (* struct ext2_icount_el: ino, count *)

(** The fields of [struct ext2_icount] for the sorted array; a null [list] is [None], and
    [last_lookup] is an index of the array. *)
Record icount_list := mkIl {
  il_count : nat;
  il_size : nat;
  il_cursor : nat;
  il_list : option (list icount_el);
  il_last : option nat
}.

(** The operations of the database ([tdb.h]) that are used: 0 or an error, and the database. *)
Class TdbOps (D : Type) := {
  tdb_store : D -> Z -> Z -> Z * D;
  tdb_delete : D -> Z -> Z * D;
  tdb_fetch : D -> Z -> option Z * D;
  tdb_error : D -> Z
}.

(** * Single-precision arithmetic *)

(** The array is enlarged by a factor computed in [float].  A positive [float] is [m * 2^e]
    with [2^23 <= m < 2^24]; results are rounded to nearest, ties to even. *)
Definition round_div (n d : Z) : Z :=
  let q := n / d in
  let r := n mod d in
  if decide (2 * r < d) then q else if decide (d < 2 * r) then q + 1 else if Z.even q then q else q + 1.

Definition scale (e n d : Z) : Z * Z := if decide (0 <= e) then (n, d * 2 ^ e) else (n * 2 ^ (- e), d).

(** The [float] nearest to [n / d]. *)
Definition f32_round (n d : Z) : Z * Z :=
  let e := Z.log2 n - Z.log2 d - 23 in
  let '(a, b) := scale e n d in
  let e := if decide (a < b * 2 ^ 23) then e - 1 else e in
  let '(a, b) := scale e n d in
  let m := round_div a b in
  if decide (m = 2 ^ 24) then (2 ^ 23, e + 1) else (m, e).

Definition f32_of_Z (z : Z) : Z * Z := f32_round z 1.
Definition f32_div (x y : Z * Z) : Z * Z :=
  let '(a, b) := scale (y.2 - x.2) x.1 y.1 in f32_round a b.
Definition f32_mul (x y : Z * Z) : Z * Z :=
  let '(a, b) := scale (- (x.2 + y.2)) (x.1 * y.1) 1 in f32_round a b.

(** The conversion to a 32-bit integer; [oob] is what it gives when the value does not fit. *)
Definition f32_to_u32 (oob : Z) (x : Z * Z) : Z :=
  let z := if decide (0 <= x.2) then x.1 * 2 ^ x.2 else x.1 / 2 ^ (- x.2) in
  if decide (z < 2 ^ 32) then z else oob.

(** * The sorted array *)

Definition icount_16_xlate (x : Z) : Z := if decide (x > 65500) then 65500 else x.

Section list_code.
(** What [realloc] leaves in the new part of the array. *)
Variable junk_el : icount_el.
Variable oob : Z.

Definition new_size (num_inodes : Z) (il : icount_list) (l : list icount_el) : Z :=
  let size := u32 (Z.of_nat (il_size il) + 100) in
  let n :=
    if decide (il_count il = 0%nat) then 0
    else
      let last := (l !!! (il_count il - 1)%nat).1 in
      f32_to_u32 oob (f32_mul (f32_of_Z (Z.of_nat (il_count il))) (f32_div (f32_of_Z num_inodes) (f32_of_Z last))) in
  if decide (n < size) then size else n.

(** [insert_icount_el] after the test of [last_lookup]: the index of the new element.  [mem] says
    whether the array can be enlarged; [pos] is an [int]. *)
Definition insert_new (mem : bool) (num_inodes : Z) (il : icount_list) (l : list icount_el) (ino pos : Z)
  : option nat * icount_list :=
  let grow := bool_decide (il_size il <= il_count il)%nat in
  if grow && negb mem then (None, il)
  else
    let size := if grow then Z.to_nat (new_size num_inodes il l) else il_size il in
    let l := if grow then take size (l ++ replicate (size - length l) junk_el) else l in
    let num := s32 (Z.of_nat (il_count il)) - pos in
    if decide (num < 0) then (None, mkIl (il_count il) size (il_cursor il) (Some l) (il_last il))
    else
      let p := Z.to_nat pos in
      let n := il_count il in
      (Some p, mkIl (S n) size (il_cursor il)
                 (Some (take p l ++ (ino, 0) :: take (n - p) (drop p l) ++ drop (S n) l)) (Some p)).

Definition insert_icount_el (mem : bool) (num_inodes : Z) (il : icount_list) (l : list icount_el) (ino pos : Z)
  : option nat * icount_list :=
  match il_last il with
  | Some i => if decide ((l !!! i).1 = ino) then (Some i, il) else insert_new mem num_inodes il l ino pos
  | None => insert_new mem num_inodes il l ino pos
  end.

(** The binary search: the index of the inode, or the final [low]. *)
Fixpoint icount_search (fuel : nat) (l : list icount_el) (ino low high : Z) : Z + Z :=
  match fuel with
  | O => inr low
  | S fuel' =>
      if decide (low <= high) then
        let mid := Z.shiftr (u32 (u32 low + u32 high)) 1 in
        let k := (l !!! Z.to_nat mid).1 in
        if decide (ino = k) then inl mid
        else if decide (ino < k) then icount_search fuel' l ino low (mid - 1)
        else icount_search fuel' l ino (mid + 1) high
      else inr low
  end.

Definition il_set_cursor (c : nat) (il : icount_list) : icount_list :=
  mkIl (il_count il) (il_size il) c (il_list il) (il_last il).

(** [get_icount_el]: the index of the element of [ino], made when [create] is set. *)
Definition get_icount_el (mem : bool) (num_inodes : Z) (il : icount_list) (ino : Z) (create : bool)
  : option nat * icount_list :=
  match il_list il with
  | None => (None, il)
  | Some l =>
      if create && (bool_decide (il_count il = 0%nat) || bool_decide (ino > (l !!! (il_count il - 1)%nat).1))
      then insert_icount_el mem num_inodes il l ino (s32 (Z.of_nat (il_count il)))
      else if decide (il_count il = 0%nat) then (None, il)
      else
        let il := if decide (il_count il <= il_cursor il)%nat then il_set_cursor 0 il else il in
        if decide (ino = (l !!! il_cursor il).1) then (Some (il_cursor il), il_set_cursor (S (il_cursor il)) il)
        else
          match icount_search (il_count il + 1) l ino 0 (s32 (Z.of_nat (il_count il)) - 1) with
          | inl mid => (Some (Z.to_nat mid), il_set_cursor (Z.to_nat mid + 1) il)
          | inr low => if create then insert_icount_el mem num_inodes il l ino low else (None, il)
          end
  end.

(** [el->count = count] *)
Definition il_set_value (i : nat) (v : Z) (il : icount_list) : icount_list :=
  mkIl (il_count il) (il_size il) (il_cursor il)
    ((fun l => <[i := ((l !!! i).1, v)]> l) <$> il_list il) (il_last il).

Definition il_value (i : nat) (il : icount_list) : Z :=
  match il_list il with Some l => (l !!! i).2 | None => 0 end.

End list_code.

(** * The counts *)

(** [struct ext2_icount]; the null pointer for [multiple] is [Bnull]. *)
Record icount (T D : Type) := mkIc {
  ic_magic : Z;
  ic_single : generic_bitmap T;
  ic_multiple : generic_bitmap T;
  ic_num_inodes : Z;
  ic_els : icount_list;
  ic_tdb : option D;
  ic_fullmap : option (list Z)
}.
Arguments mkIc {T D}.
Arguments ic_magic {T D}.
Arguments ic_single {T D}.
Arguments ic_multiple {T D}.
Arguments ic_num_inodes {T D}.
Arguments ic_els {T D}.
Arguments ic_tdb {T D}.
Arguments ic_fullmap {T D}.

Definition is_null {T} (h : generic_bitmap T) : bool := match h with Bnull => true | _ => false end.

Section icount_code.
Context {T : Type} `{!BitmapOps T} {D : Type} `{!TdbOps D}.
Variable junk_el : icount_el.
Variable oob : Z.

Definition ic_set_single (h : generic_bitmap T) (ic : icount T D) : icount T D :=
  mkIc (ic_magic ic) h (ic_multiple ic) (ic_num_inodes ic) (ic_els ic) (ic_tdb ic) (ic_fullmap ic).
Definition ic_set_multiple (h : generic_bitmap T) (ic : icount T D) : icount T D :=
  mkIc (ic_magic ic) (ic_single ic) h (ic_num_inodes ic) (ic_els ic) (ic_tdb ic) (ic_fullmap ic).
Definition ic_set_els (il : icount_list) (ic : icount T D) : icount T D :=
  mkIc (ic_magic ic) (ic_single ic) (ic_multiple ic) (ic_num_inodes ic) il (ic_tdb ic) (ic_fullmap ic).
Definition ic_set_tdb (d : D) (ic : icount T D) : icount T D :=
  mkIc (ic_magic ic) (ic_single ic) (ic_multiple ic) (ic_num_inodes ic) (ic_els ic) (Some d) (ic_fullmap ic).
Definition ic_set_fullmap (f : list Z) (ic : icount T D) : icount T D :=
  mkIc (ic_magic ic) (ic_single ic) (ic_multiple ic) (ic_num_inodes ic) (ic_els ic) (ic_tdb ic) (Some f).

(** [ext2fs_mark_inode_bitmap2] and its siblings on the two bitmaps. *)
Definition mark_single (ino : Z) (ic : icount T D) : icount T D :=
  ic_set_single (ext2fs_mark_generic_bmap (ic_single ic) ino).2 ic.
Definition unmark_single (ino : Z) (ic : icount T D) : icount T D :=
  ic_set_single (ext2fs_unmark_generic_bmap (ic_single ic) ino).2 ic.
Definition mark_multiple (ino : Z) (ic : icount T D) : icount T D :=
  ic_set_multiple (ext2fs_mark_generic_bmap (ic_multiple ic) ino).2 ic.
Definition unmark_multiple (ino : Z) (ic : icount T D) : icount T D :=
  ic_set_multiple (ext2fs_unmark_generic_bmap (ic_multiple ic) ino).2 ic.
Definition test_single (ino : Z) (ic : icount T D) : bool :=
  bool_decide (ext2fs_test_generic_bmap (ic_single ic) ino <> 0).
Definition test_multiple (ino : Z) (ic : icount T D) : bool :=
  bool_decide (ext2fs_test_generic_bmap (ic_multiple ic) ino <> 0).
Definition has_multiple (ic : icount T D) : bool := negb (is_null (ic_multiple ic)).

(** [icount->fullmap[ino]], which is undefined past the array. *)
Definition full_get (f : list Z) (ino : Z) : option Z := f !! Z.to_nat ino.
Definition full_set (f : list Z) (ino v : Z) (ic : icount T D) : option (icount T D) :=
  if decide (Z.to_nat ino < length f)%nat then Some (ic_set_fullmap (<[Z.to_nat ino := v]> f) ic) else None.

(** [set_inode_count]: the code. *)
Definition set_inode_count (mem : bool) (ic : icount T D) (ino count : Z) : option (Z * icount T D) :=
  match ic_tdb ic with
  | Some d =>
      let '(r, d) := if decide (count <> 0) then tdb_store d ino count else tdb_delete d ino in
      Some (if decide (r <> 0) then tdb_error d + EXT2_ET_TDB_SUCCESS else 0, ic_set_tdb d ic)
  | None =>
      match ic_fullmap ic with
      | Some f => ic ← full_set f ino (icount_16_xlate count) ic; Some (0, ic)
      | None =>
          match get_icount_el junk_el oob mem (ic_num_inodes ic) (ic_els ic) ino true with
          | (None, il) => Some (EXT2_ET_NO_MEMORY, ic_set_els il ic)
          | (Some i, il) => Some (0, ic_set_els (il_set_value i count il) ic)
          end
      end
  end.

(** [get_inode_count]: the code and the count. *)
Definition get_inode_count (ic : icount T D) (ino : Z) : option (Z * Z * icount T D) :=
  match ic_tdb ic with
  | Some d =>
      match tdb_fetch d ino with
      | (None, d) => Some (tdb_error d + EXT2_ET_TDB_SUCCESS, 0, ic_set_tdb d ic)
      | (Some v, d) => Some (0, v, ic_set_tdb d ic)
      end
  | None =>
      match ic_fullmap ic with
      | Some f => v ← full_get f ino; Some (0, v, ic)
      | None =>
          match get_icount_el junk_el oob true (ic_num_inodes ic) (ic_els ic) ino false with
          | (None, il) => Some (ENOENT, 0, ic_set_els il ic)
          | (Some i, il) => Some (0, il_value i il, ic_set_els il ic)
          end
      end
  end.

(** The result of an operation: the code, what it stores in [*ret], the counts; [None] is
    undefined behaviour. *)
Definition result : Type := option (Z * option Z * icount T D).

Definition bad_ino (ic : icount T D) (ino : Z) : bool :=
  bool_decide (ino = 0) || bool_decide (ino > ic_num_inodes ic).

(** [ext2fs_icount_fetch] *)
Definition ext2fs_icount_fetch (ic : icount T D) (ino : Z) : result :=
  if decide (ic_magic ic <> EXT2_ET_MAGIC_ICOUNT) then Some (EXT2_ET_MAGIC_ICOUNT, None, ic)
  else if bad_ino ic ino then Some (EXT2_ET_INVALID_ARGUMENT, None, ic)
  else
    let from_list := '(_, val, ic) ← get_inode_count ic ino; Some (0, Some (icount_16_xlate val), ic) in
    match ic_fullmap ic with
    | Some _ => from_list
    | None =>
        if test_single ino ic then Some (0, Some 1, ic)
        else if has_multiple ic && negb (test_multiple ino ic) then Some (0, Some 0, ic)
        else from_list
    end.

(** The end of [ext2fs_icount_increment]. *)
Definition increment_end (ino curr_value : Z) (ic : icount T D) : result :=
  Some (0, Some (icount_16_xlate curr_value), if has_multiple ic then mark_multiple ino ic else ic).

(** The count in the list, plus one. *)
Definition increment_list (mem : bool) (ic : icount T D) (ino : Z) : result :=
  '(_, curr_value, ic) ← get_inode_count ic ino;
  let curr_value := u32 (curr_value + 1) in
  '(r, ic) ← set_inode_count mem ic ino curr_value;
  if decide (r <> 0) then Some (EXT2_ET_NO_MEMORY, None, ic) else increment_end ino curr_value ic.

(** [ext2fs_icount_increment] *)
Definition ext2fs_icount_increment (mem : bool) (ic : icount T D) (ino : Z) : result :=
  if decide (ic_magic ic <> EXT2_ET_MAGIC_ICOUNT) then Some (EXT2_ET_MAGIC_ICOUNT, None, ic)
  else if bad_ino ic ino then Some (EXT2_ET_INVALID_ARGUMENT, None, ic)
  else
    match ic_fullmap ic with
    | Some f =>
        v ← full_get f ino;
        let curr_value := icount_16_xlate (v + 1) in
        ic ← full_set f ino curr_value ic;
        increment_end ino curr_value ic
    | None =>
        if test_single ino ic then
          '(r, ic) ← set_inode_count mem ic ino 2;
          if decide (r <> 0) then Some (EXT2_ET_NO_MEMORY, None, ic)
          else increment_end ino 2 (unmark_single ino ic)
        else if has_multiple ic then
          if test_multiple ino ic then increment_list mem ic ino
          else Some (0, Some 1, mark_single ino ic)
        else increment_list mem ic ino
    end.

(** [ext2fs_icount_decrement] *)
Definition ext2fs_icount_decrement (mem : bool) (ic : icount T D) (ino : Z) : result :=
  if bad_ino ic ino then Some (EXT2_ET_INVALID_ARGUMENT, None, ic)
  else if decide (ic_magic ic <> EXT2_ET_MAGIC_ICOUNT) then Some (EXT2_ET_MAGIC_ICOUNT, None, ic)
  else
    match ic_fullmap ic with
    | Some f =>
        v ← full_get f ino;
        if decide (v = 0) then Some (EXT2_ET_INVALID_ARGUMENT, None, ic)
        else
          ic ← full_set f ino (v - 1) ic;
          Some (0, Some (icount_16_xlate (v - 1)), ic)
    | None =>
        if test_single ino ic then
          let ic := unmark_single ino ic in
          if has_multiple ic then Some (0, Some 0, unmark_multiple ino ic)
          else '(_, ic) ← set_inode_count mem ic ino 0; Some (0, Some 0, ic)
        else if has_multiple ic && negb (test_multiple ino ic) then Some (EXT2_ET_INVALID_ARGUMENT, None, ic)
        else
          '(_, curr_value, ic) ← get_inode_count ic ino;
          if decide (curr_value = 0) then Some (EXT2_ET_INVALID_ARGUMENT, None, ic)
          else
            let curr_value := curr_value - 1 in
            '(r, ic) ← set_inode_count mem ic ino curr_value;
            if decide (r <> 0) then Some (EXT2_ET_NO_MEMORY, None, ic)
            else
              let ic := if decide (curr_value = 1) then mark_single ino ic else ic in
              let ic := if bool_decide (curr_value = 0) && has_multiple ic then unmark_multiple ino ic else ic in
              Some (0, Some (icount_16_xlate curr_value), ic)
    end.

(** [ext2fs_icount_store]: [count] is a 16-bit value. *)
Definition ext2fs_icount_store (mem : bool) (ic : icount T D) (ino count : Z) : option (Z * icount T D) :=
  if bad_ino ic ino then Some (EXT2_ET_INVALID_ARGUMENT, ic)
  else if decide (ic_magic ic <> EXT2_ET_MAGIC_ICOUNT) then Some (EXT2_ET_MAGIC_ICOUNT, ic)
  else
    match ic_fullmap ic with
    | Some _ => set_inode_count mem ic ino count
    | None =>
        if decide (count = 1) then
          let ic := mark_single ino ic in
          Some (0, if has_multiple ic then unmark_multiple ino ic else ic)
        else if decide (count = 0) then
          let ic := unmark_single ino ic in
          if has_multiple ic then Some (0, unmark_multiple ino ic)
          else '(_, ic) ← set_inode_count mem ic ino 0; Some (0, ic)
        else
          '(r, ic) ← set_inode_count mem ic ino count;
          if decide (r <> 0) then Some (EXT2_ET_NO_MEMORY, ic)
          else
            let ic := unmark_single ino ic in
            Some (0, if has_multiple ic then mark_multiple ino ic else ic)
    end.

(** [ext2fs_icount_validate]: the loop over the array, [n] turns from index [i]. *)
Fixpoint validate_loop (n i : nat) (l : list icount_el) (ret : Z) : Z :=
  match n with
  | O => ret
  | S n' =>
      validate_loop n' (S i) l
        (if decide ((l !!! (i - 1)%nat).1 >= (l !!! i).1) then EXT2_ET_INVALID_ARGUMENT else ret)
  end.

Definition ext2fs_icount_validate (ic : icount T D) : Z :=
  let il := ic_els ic in
  if decide (ic_magic ic <> EXT2_ET_MAGIC_ICOUNT) then EXT2_ET_MAGIC_ICOUNT
  else if decide (il_size il < il_count il)%nat then EXT2_ET_INVALID_ARGUMENT
  else validate_loop (il_count il - 1) 1 (default [] (il_list il)) 0.

Definition ext2fs_get_icount_size (ic : icount T D) : nat :=
  if decide (ic_magic ic <> EXT2_ET_MAGIC_ICOUNT) then 0%nat else il_size (ic_els ic).

(** * Creation *)

Definition EXT2_ICOUNT_OPT_INCREMENT : Z := 1.
Definition EXT2_ICOUNT_OPT_FULLMAP : Z := 2.

(** [alloc_icount]; [new_bitmap] is [ext2fs_allocate_inode_bitmap], which fails or makes an
    empty bitmap; [mem] says which of the allocations of the record and of the full map succeed. *)
Definition alloc_icount (new_bitmap : bool -> Z + generic_bitmap T) (mem : bool * bool) (s_inodes_count flags : Z)
  : Z + icount T D :=
  if negb mem.1 then inl EXT2_ET_NO_MEMORY
  else
    let ic := mkIc EXT2_ET_MAGIC_ICOUNT Bnull Bnull s_inodes_count (mkIl 0 0 0 None None) None None in
    if decide (Z.land flags EXT2_ICOUNT_OPT_FULLMAP <> 0 /\ Z.land flags EXT2_ICOUNT_OPT_INCREMENT <> 0 /\ mem.2 = true)
    then inr (ic_set_fullmap (replicate (Z.to_nat (u32 (2 * s_inodes_count) / 2)) 0) ic)
    else
      match new_bitmap false with
      | inl retval => inl retval
      | inr single =>
          if decide (Z.land flags EXT2_ICOUNT_OPT_INCREMENT <> 0) then
            match new_bitmap true with
            | inl retval => inl retval
            | inr multiple => inr (ic_set_multiple multiple (ic_set_single single ic))
            end
          else inr (ic_set_single single ic)
      end.

(** The entries of the hint, with count 0. *)
Fixpoint copy_hint (n i : nat) (hint l : list icount_el) : list icount_el :=
  match n with
  | O => l
  | S n' => copy_hint n' (S i) hint (<[i := ((hint !!! i).1, (l !!! i).2)]> l)
  end.

(** [ext2fs_create_icount2]; [num_dirs] is the result of [ext2fs_get_num_dirs] and [mem3] says
    whether the array can be allocated. *)
Definition ext2fs_create_icount2 (new_bitmap : bool -> Z + generic_bitmap T) (mem : bool * bool) (mem3 : bool)
  (num_dirs : Z + Z) (s_inodes_count flags size : Z) (hint : option (icount T D)) : Z + icount T D :=
  let go :=
    let size := match hint with
                | Some h => if decide (size < Z.of_nat (il_size (ic_els h))) then Z.of_nat (il_size (ic_els h)) else size
                | None => size
                end in
    match alloc_icount new_bitmap mem s_inodes_count flags with
    | inl retval => inl retval
    | inr ic =>
        match ic_fullmap ic with
        | Some _ => inr ic
        | None =>
            match (if decide (size <> 0) then inr size
                   else match num_dirs with
                        | inl retval => inl retval
                        | inr n => inr (u32 (n + s_inodes_count / 50))
                        end) with
            | inl retval => inl retval
            | inr size =>
                if negb mem3 then inl EXT2_ET_NO_MEMORY
                else
                  let l := replicate (Z.to_nat size) (0, 0) in
                  let '(count, l) :=
                    match hint with
                    | Some h => (il_count (ic_els h),
                                 copy_hint (il_count (ic_els h)) 0 (default [] (il_list (ic_els h))) l)
                    | None => (0%nat, l)
                    end in
                  inr (ic_set_els (mkIl count (Z.to_nat size) 0 (Some l) None) ic)
            end
        end
    end in
  match hint with
  | Some h => if decide (ic_magic h <> EXT2_ET_MAGIC_ICOUNT) then inl EXT2_ET_MAGIC_ICOUNT else go
  | None => go
  end.

End icount_code.
