(* ===== verification/IcountProofs.v ===== *)
(** The inode counts refine a map from inodes to counts: the proofs. *)
From Stdlib Require Import ZArith Lia.
From stdpp Require Import base tactics numbers list sorting.
From S2P Require Import Prelude ExtErr EaRefcount Bitops BitmapOps BitArray BitArrayProofs GenBitmap GenBitmapProofs Icount.

(** * The sorted array *)

(** The array in use: sorted, its inodes between 1 and [num]. *)
Record il_wf (num : Z) (il : icount_list) (l : list icount_el) : Prop := {
  iw_list : il_list il = Some l;
  iw_len : length l = il_size il;
  iw_count : (il_count il <= il_size il)%nat;
  iw_sorted : sorted (take (il_count il) l);
  iw_inos : Forall (fun e : icount_el => 1 <= e.1 <= num) (take (il_count il) l);
  iw_last : forall i, il_last il = Some i -> (i < il_count il)%nat
}.

Definition il_entries (il : icount_list) : list icount_el := take (il_count il) (default [] (il_list il)).
Definition il_count_of (il : icount_list) (ino : Z) : Z := assoc (il_entries il) ino.

Lemma il_entries_eq num il l : il_wf num il l -> il_entries il = take (il_count il) l.
Proof. intros []. unfold il_entries. by rewrite iw_list0. Qed.

Lemma length_il_entries num il l : il_wf num il l -> length (il_entries il) = il_count il.
Proof. intros H. rewrite (il_entries_eq _ _ _ H). destruct H. rewrite length_take. lia. Qed.

Lemma il_entries_lookup num il l i :
  il_wf num il l -> (i < il_count il)%nat -> il_entries il !! i = Some (l !!! i).
Proof.
  intros H Hi. rewrite (il_entries_eq _ _ _ H). destruct H. rewrite lookup_take_lt by done.
  apply list_lookup_lookup_total_lt. lia.
Qed.

(** The inode at position [i] of a sorted list of inodes is at least [i + 1]. *)
Lemma sorted_ge (l : list icount_el) :
  sorted l -> Forall (fun e : icount_el => 1 <= e.1) l -> forall i e, l !! i = Some e -> Z.of_nat i + 1 <= e.1.
Proof.
  intros Hs Hf i. induction i as [|i IH]; intros e He.
  - apply (Forall_lookup_1 _ _ _ _ Hf) in He. lia.
  - destruct (lookup_lt_is_Some_2 l i) as [e0 He0]; [apply lookup_lt_Some in He; lia|].
    pose proof (IH _ He0). pose proof (sorted_lookup l i (S i) e0 e Hs He0 He ltac:(lia)). lia.
Qed.

Lemma count_le_num num il l : il_wf num il l -> 0 <= num -> Z.of_nat (il_count il) <= num.
Proof.
  intros H Hn. destruct (decide (il_count il = 0%nat)) as [->|Hc]; [lia|].
  pose proof (il_entries_lookup _ _ _ (il_count il - 1) H ltac:(lia)) as He.
  pose proof (il_entries_eq _ _ _ H) as Heq. destruct H. rewrite Heq in He.
  assert (Hge : Forall (fun e : icount_el => 1 <= e.1) (take (il_count il) l)).
  { eapply Forall_impl; [exact iw_inos0|]. intros e. cbn. lia. }
  pose proof (sorted_ge _ iw_sorted0 Hge _ _ He). pose proof (Forall_lookup_1 _ _ _ _ iw_inos0 He) as [_ Hb]. lia.
Qed.

Lemma Forall_take_lt (E : list icount_el) k pos :
  (forall (i : nat) (e : icount_el), E !! i = Some e -> Z.of_nat i < Z.of_nat pos -> e.1 < k) ->
  Forall (fun e : icount_el => e.1 < k) (take pos E).
Proof.
  intros HE. apply Forall_lookup_2. intros i e [Hi Hlt]%lookup_take_Some. apply (HE i e Hi). lia.
Qed.

Lemma Forall_drop_gt (E : list icount_el) k pos :
  (forall (i : nat) (e : icount_el), E !! i = Some e -> Z.of_nat pos <= Z.of_nat i -> k < e.1) ->
  Forall (fun e : icount_el => k < e.1) (drop pos E).
Proof.
  intros HE. apply Forall_lookup_2. intros i e Hi. rewrite lookup_drop in Hi. apply (HE _ e Hi). lia.
Qed.

(** The search in unsigned arithmetic is the plain one on arrays of less than 2^31 entries. *)
Lemma icount_search_eq fuel l ino : forall low high,
  0 <= low -> high < 2 ^ 31 -> icount_search fuel l ino low high = bsearch fuel l ino low high.
Proof.
  induction fuel as [|fuel IH]; intros low high Hl Hh; [done|]. cbn [icount_search bsearch]. cbv zeta.
  case_decide as Hle; [|done].
  rewrite !(u32_small low), !(u32_small high), (u32_small (low + high)) by (unfold in_u; lia).
  rewrite Z.quot_div_nonneg, Z.shiftr_div_pow2 by lia. change (2 ^ 1) with 2.
  assert (0 <= (low + high) / 2 <= high) by (split; [apply Z.div_pos|apply Z.div_le_upper_bound]; lia).
  repeat case_decide; try done; apply IH; lia.
Qed.

Section list_proofs.
Variable junk_el : icount_el.
Variable oob : Z.
Variable num : Z.
Hypothesis Hnum : 0 <= num < 2 ^ 31.

Lemma new_size_ge il l : Z.of_nat (il_size il) + 100 < 2 ^ 32 -> Z.of_nat (il_size il) + 100 <= new_size oob num il l.
Proof.
  intros Hs. unfold new_size. rewrite (u32_small (Z.of_nat _ + 100)) by (unfold in_u; lia).
  set (n := if decide (il_count il = 0%nat) then 0 else _). clearbody n. case_decide; lia.
Qed.

Lemma insert_new_spec mem il l ino (pos : nat) :
  il_wf num il l -> 1 <= ino <= num -> (pos <= il_count il)%nat ->
  Forall (fun e : icount_el => e.1 < ino) (take pos (il_entries il)) ->
  Forall (fun e : icount_el => ino < e.1) (drop pos (il_entries il)) ->
  (exists il' l', insert_new junk_el oob mem num il l ino (Z.of_nat pos) = (Some pos, il') /\ il_wf num il' l' /\
     il_entries il' = take pos (il_entries il) ++ (ino, 0) :: drop pos (il_entries il)) \/
  (insert_new junk_el oob mem num il l ino (Z.of_nat pos) = (None, il) /\ mem = false).
Proof.
  intros Hwf Hino Hpos Hlo Hhi. pose proof (count_le_num _ _ _ Hwf ltac:(lia)) as Hcn.
  pose proof (il_entries_eq _ _ _ Hwf) as HE. destruct Hwf as [Hl Hlen Hc Hs Hi Hla]. unfold insert_new.
  destruct (bool_decide (il_size il <= il_count il)%nat && negb mem) eqn:Hg.
  { right. apply andb_true_iff in Hg as [_ Hm]. by destruct mem. }
  left. set (grow := bool_decide (il_size il <= il_count il)%nat) in *.
  set (sz := if grow then Z.to_nat (new_size oob num il l) else il_size il).
  set (l1 := if grow then take sz (l ++ replicate (sz - length l) junk_el) else l).
  assert (H1 : (il_count il < length l1)%nat /\ length l1 = sz /\ take (il_count il) l1 = take (il_count il) l).
  { unfold l1, sz, grow. case_bool_decide as Hf; [|split_and!; (done || lia)].
    pose proof (new_size_ge il l ltac:(lia)) as Hns.
    set (z := Z.to_nat (new_size oob num il l)) in *. assert (il_size il + 100 <= z)%nat by lia.
    rewrite take_ge by (rewrite length_app, length_replicate; lia).
    rewrite length_app, length_replicate, take_app_le by lia. split_and!; (done || lia). }
  destruct H1 as (Hlt & Hl1 & Ht1). rewrite s32_small by lia. rewrite decide_False by lia. rewrite Nat2Z.id.
  set (l2 := take pos l1 ++ (ino, 0) :: take (il_count il - pos) (drop pos l1) ++ drop (S (il_count il)) l1).
  assert (HE2 : take (S (il_count il)) l2 = take pos (il_entries il) ++ (ino, 0) :: drop pos (il_entries il)).
  { unfold l2. rewrite HE, <- Ht1, take_take, Nat.min_l by lia. rewrite <- skipn_firstn_comm.
    rewrite app_comm_cons, app_assoc, take_app_le.
    - apply take_ge. rewrite length_app, length_take. cbn. rewrite length_drop, length_take. lia.
    - rewrite length_app, length_take. cbn. rewrite length_drop, length_take. lia. }
  eexists _, l2. split; [reflexivity|]. split; [|exact HE2].
  split; cbn [il_list il_count il_size il_last].
  - done.
  - unfold l2. rewrite length_app, length_take. cbn [length]. rewrite length_app, length_take, !length_drop. lia.
  - lia.
  - rewrite HE2. apply sorted_insert; [by rewrite HE|done|done].
  - rewrite HE2, <- HE in *. rewrite Forall_app, Forall_cons.
    split_and!; [by apply Forall_take|cbn; lia..|by apply Forall_drop].
  - intros i [= <-]. lia.
Qed.

Lemma insert_spec_il mem il l ino (pos : nat) :
  il_wf num il l -> 1 <= ino <= num -> (pos <= il_count il)%nat ->
  Forall (fun e : icount_el => e.1 < ino) (take pos (il_entries il)) ->
  Forall (fun e : icount_el => ino < e.1) (drop pos (il_entries il)) ->
  insert_icount_el junk_el oob mem num il l ino (Z.of_nat pos) = insert_new junk_el oob mem num il l ino (Z.of_nat pos).
Proof.
  intros Hwf Hino Hpos Hlo Hhi. unfold insert_icount_el. destruct (il_last il) as [i|] eqn:Hla; [|done].
  case_decide as Heq; [|done]. exfalso.
  pose proof (iw_last _ _ _ Hwf i Hla) as Hi. pose proof (il_entries_lookup _ _ _ i Hwf Hi) as He.
  assert (Hne : Forall (fun e : icount_el => e.1 <> ino) (il_entries il)).
  { rewrite <- (take_drop pos (il_entries il)). apply Forall_app.
    split; eapply Forall_impl; try exact Hlo; try exact Hhi; cbn; intros; lia. }
  exact (Forall_lookup_1 _ _ _ _ Hne He Heq).
Qed.

(** What the lookup promises. *)
Definition il_got (il : icount_list) (ino : Z) (create mem : bool) (r : option nat * icount_list) : Prop :=
  (exists l', il_wf num r.2 l') /\ (forall k, il_count_of r.2 k = il_count_of il k) /\
  match r.1 with
  | Some i => exists e : icount_el, il_entries r.2 !! i = Some e /\ e.1 = ino
  | None => il_count_of il ino = 0 /\ (create = true -> mem = false)
  end.

Lemma il_got_insert il0 il l mem ino (pos : nat) :
  il_wf num il l -> (forall k, il_count_of il k = il_count_of il0 k) -> 1 <= ino <= num -> (pos <= il_count il)%nat ->
  (forall (i : nat) (e : icount_el), il_entries il !! i = Some e -> Z.of_nat i < Z.of_nat pos -> e.1 < ino) ->
  (forall (i : nat) (e : icount_el), il_entries il !! i = Some e -> Z.of_nat pos <= Z.of_nat i -> ino < e.1) ->
  il_got il0 ino true mem (insert_icount_el junk_el oob mem num il l ino (Z.of_nat pos)).
Proof.
  intros Hwf Hco Hino Hpos Hlo%Forall_take_lt Hhi%Forall_drop_gt.
  rewrite insert_spec_il by done.
  destruct (insert_new_spec mem il l ino pos Hwf Hino Hpos Hlo Hhi) as [(il' & l' & -> & Hwf' & HE)|[-> ->]].
  - split_and!; [by exists l'| |].
    + intros k. cbn. unfold il_count_of in *. rewrite HE, assoc_insert by done. apply Hco.
    + exists (ino, 0). cbn. rewrite HE, lookup_app_r by (rewrite length_take; lia).
      rewrite length_take, (length_il_entries _ _ _ Hwf).
      by replace (pos - pos `min` il_count il)%nat with 0%nat by lia.
  - split_and!; [by exists l|done|]. cbn. split; [|done]. rewrite <- Hco. apply assoc_none.
    rewrite <- (take_drop pos (il_entries il)). apply Forall_app.
    split; eapply Forall_impl; try exact Hlo; try exact Hhi; cbn; intros; lia.
Qed.

Lemma il_wf_cursor il l c : il_wf num il l -> il_wf num (il_set_cursor c il) l.
Proof. intros []. by split. Qed.

Lemma get_icount_el_spec mem il l ino create :
  il_wf num il l -> 1 <= ino <= num -> il_got il ino create mem (get_icount_el junk_el oob mem num il ino create).
Proof.
  intros Hwf Hino. pose proof (count_le_num _ _ _ Hwf ltac:(lia)) as Hcn.
  unfold get_icount_el. rewrite (iw_list _ _ _ Hwf). rewrite s32_small by lia.
  destruct (create && _) eqn:Happ.
  { apply andb_true_iff in Happ as [-> Happ]. apply il_got_insert; try done.
    - intros i e Hi Hlt. apply orb_true_iff in Happ as [Hz%bool_decide_eq_true|Hk%bool_decide_eq_true].
      + unfold il_entries in Hi. by rewrite Hz in Hi.
      + pose proof (il_entries_lookup _ _ _ (il_count il - 1) Hwf ltac:(lia)) as Hlast.
        destruct (decide (i = il_count il - 1)%nat) as [->|Hne].
        * rewrite Hlast in Hi. simplify_eq. lia.
        * rewrite (il_entries_eq _ _ _ Hwf) in Hi, Hlast.
          pose proof (sorted_lookup _ _ _ _ _ (iw_sorted _ _ _ Hwf) Hi Hlast ltac:(lia)). lia.
    - intros i e Hi%lookup_lt_Some Hge. rewrite (length_il_entries _ _ _ Hwf) in Hi. lia. }
  destruct (decide (il_count il = 0%nat)) as [Hz|Hz].
  { split_and!; [by exists l|done|]. cbn. split; [unfold il_count_of, il_entries; by rewrite Hz|].
    intros ->. by rewrite bool_decide_eq_true_2 in Happ. }
  clear Happ. set (il1 := if decide (il_count il <= il_cursor il)%nat then _ else il).
  assert (H1 : il_wf num il1 l /\ il_count il1 = il_count il /\ il_entries il1 = il_entries il /\
               (il_cursor il1 < il_count il1)%nat).
  { unfold il1. case_decide; cbn; split_and!; try done; try lia. by apply il_wf_cursor. }
  destruct H1 as (Hwf1 & Hc1 & HE1 & Hcur).
  assert (Hco1 : forall k, il_count_of il1 k = il_count_of il k) by (intros; unfold il_count_of; by rewrite HE1).
  case_decide as Hk.
  { split_and!; [exists l; by apply il_wf_cursor|done|]. cbn. exists (l !!! il_cursor il1).
    split; [by apply (il_entries_lookup num)|done]. }
  rewrite Hc1, s32_small, icount_search_eq by lia.
  pose proof (bsearch_spec (il_count il + 1) (il_entries il1) l ino 0 (Z.of_nat (il_count il) - 1)) as Hbs.
  rewrite (length_il_entries _ _ _ Hwf1), Hc1 in Hbs.
  specialize (Hbs ltac:(intros; apply (il_entries_lookup num); [done|lia])).
  specialize (Hbs ltac:(rewrite (il_entries_eq _ _ _ Hwf1); apply (iw_sorted _ _ _ Hwf1)) ltac:(lia) ltac:(lia) ltac:(lia)
                ltac:(intros; lia)).
  specialize (Hbs ltac:(intros i e Hi Hgt; apply lookup_lt_Some in Hi; rewrite (length_il_entries _ _ _ Hwf1) in Hi; lia)).
  destruct (bsearch _ _ ino 0 _) as [mid|low].
  { destruct Hbs as (i & e & -> & Hi & He). rewrite Nat2Z.id.
    split_and!; [exists l; by apply il_wf_cursor|done|]. by exists e. }
  destruct Hbs as (Hlow & Hlo & Hhi). destruct create.
  - rewrite <- (Z2Nat.id low) by lia. apply il_got_insert; try done; [lia| |];
      intros i e Hi Hb; [apply (Hlo i e Hi)|apply (Hhi i e Hi)]; lia.
  - split_and!; [by exists l|done|]. cbn. split; [|done]. rewrite <- Hco1. apply assoc_none.
    apply Forall_lookup_2. intros i e Hi He.
    destruct (decide (Z.of_nat i < low)); [specialize (Hlo i e Hi ltac:(lia))|specialize (Hhi i e Hi ltac:(lia))]; lia.
Qed.

(** Storing a value in the element found. *)
Lemma il_set_value_spec il l i (e : icount_el) v :
  il_wf num il l -> il_entries il !! i = Some e ->
  (exists l', il_wf num (il_set_value i v il) l') /\
  forall k, il_count_of (il_set_value i v il) k = if decide (k = e.1) then v else il_count_of il k.
Proof.
  intros Hwf Hi.
  assert (Hlt : (i < il_count il)%nat) by (apply lookup_lt_Some in Hi; by rewrite (length_il_entries _ _ _ Hwf) in Hi).
  pose proof (il_entries_lookup _ _ _ i Hwf Hlt) as Hi'. rewrite Hi in Hi'. injection Hi' as He.
  pose proof (il_entries_eq _ _ _ Hwf) as HE.
  assert (HE2 : take (il_count il) (<[i := ((l !!! i).1, v)]> l) = <[i := (e.1, v)]> (il_entries il)).
  { rewrite HE, take_insert_lt by done. by subst e. }
  destruct Hwf as [Hl Hlen Hc Hs Hin Hla].
  assert (HE3 : il_entries (il_set_value i v il) = <[i := (e.1, v)]> (il_entries il)).
  { unfold il_entries at 1, il_set_value. cbn. by rewrite Hl. }
  split.
  - exists (<[i := ((l !!! i).1, v)]> l). split; cbn [il_set_value il_list il_count il_size il_last].
    + by rewrite Hl.
    + by rewrite length_insert.
    + done.
    + rewrite HE2. apply sorted_update; [by rewrite HE|done].
    + rewrite HE2, HE in *. apply Forall_insert; [done|]. exact (Forall_lookup_1 _ _ _ _ Hin Hi).
    + done.
  - intros k. unfold il_count_of. rewrite HE3. apply assoc_update; [by rewrite HE|done].
Qed.

(** The value of the element found is the count of its inode. *)
Lemma il_value_spec il l i (e : icount_el) :
  il_wf num il l -> il_entries il !! i = Some e -> il_value i il = il_count_of il e.1.
Proof.
  intros Hwf Hi. unfold il_count_of. pose proof (il_entries_eq _ _ _ Hwf) as HE.
  rewrite (assoc_lookup _ i e) by (rewrite ?HE in *; done || apply Hwf).
  assert (Hlt : (i < il_count il)%nat) by (apply lookup_lt_Some in Hi; by rewrite (length_il_entries _ _ _ Hwf) in Hi).
  rewrite (il_entries_lookup _ _ _ i Hwf Hlt) in Hi. injection Hi as <-.
  unfold il_value. by rewrite (iw_list _ _ _ Hwf).
Qed.
End list_proofs.

(** * The database *)

(** What is relied on of a database ([tdb.h]): it stores a map.  Every operation may fail; one
    that fails changes no other key, and leaves the value of its own key or loses it (a store that
    cannot update a record in place deletes it before it allocates a new one).  A fetch may
    answer that the key is not there because it failed.  The error codes are not negative. *)
Class TdbLaws (D : Type) `{!TdbOps D} := {
  tdb_view : D -> Z -> option Z;
  law_store d k v : let '(r, d') := tdb_store d k v in
    (forall k', k' <> k -> tdb_view d' k' = tdb_view d k') /\
    (r = 0 /\ tdb_view d' k = Some v \/ r <> 0 /\ (tdb_view d' k = tdb_view d k \/ tdb_view d' k = None));
  law_delete d k : let '(r, d') := tdb_delete d k in
    (forall k', k' <> k -> tdb_view d' k' = tdb_view d k') /\
    (r = 0 /\ tdb_view d' k = None \/ r <> 0 /\ (tdb_view d' k = tdb_view d k \/ tdb_view d' k = None));
  law_fetch d k : let '(v, d') := tdb_fetch d k in
    (v = tdb_view d k \/ v = None) /\ forall k', tdb_view d' k' = tdb_view d k';
  law_error d : 0 <= tdb_error d
}.

Section icount_proofs.
Context {T : Type} `{!BitmapOps T} `{!BitmapLaws T} {D : Type} `{!TdbOps D} `{!TdbLaws D}.
Variable junk_el : icount_el.
Variable oob : Z.

(** * Bitmaps of inodes *)

(** A bitmap of the inodes 1 to [num], without clusters. *)
Record ibm_ok (num : Z) (h : generic_bitmap T) : Prop := {
  ib_wf : gwf h;
  ib_flat n : gunit h n = n;
  ib_covers n : 1 <= n <= num -> gcovers h n
}.

Lemma ibm_not_null num h : ibm_ok num h -> is_null h = false.
Proof. intros []. by destruct h. Qed.

Lemma ibm_updated num h h' f :
  ibm_ok num h -> gupdated h h' f -> ibm_ok num h' /\ forall k, 1 <= k <= num -> gmem h' k = f k.
Proof.
  intros [Hwf Hf Hc] (H1 & H2 & H3 & H4). split; [split; [done| |]|].
  - intros n. by rewrite H2.
  - intros n Hn. by apply H3, Hc.
  - intros k Hk. by apply H4, Hc.
Qed.

Lemma ibm_mark num h ino : ibm_ok num h -> 1 <= ino <= num -> num < 2 ^ 31 ->
  ibm_ok num (ext2fs_mark_generic_bmap h ino).2 /\
  forall k, 1 <= k <= num -> gmem (ext2fs_mark_generic_bmap h ino).2 k = bool_decide (k = ino) || gmem h k.
Proof.
  intros Hok Hi Hn. pose proof (mark_cases h ino (ib_wf _ _ Hok) ltac:(lia)) as Hc.
  destruct (ext2fs_mark_generic_bmap h ino) as [r h']. rewrite (ib_flat _ _ Hok) in Hc.
  rewrite decide_True in Hc by (by apply (ib_covers _ _ Hok)). destruct Hc as [_ Hu]. by apply (ibm_updated num h).
Qed.

Lemma ibm_unmark num h ino : ibm_ok num h -> 1 <= ino <= num -> num < 2 ^ 31 ->
  ibm_ok num (ext2fs_unmark_generic_bmap h ino).2 /\
  forall k, 1 <= k <= num -> gmem (ext2fs_unmark_generic_bmap h ino).2 k = negb (bool_decide (k = ino)) && gmem h k.
Proof.
  intros Hok Hi Hn. pose proof (unmark_cases h ino (ib_wf _ _ Hok) ltac:(lia)) as Hc.
  destruct (ext2fs_unmark_generic_bmap h ino) as [r h']. rewrite (ib_flat _ _ Hok) in Hc.
  rewrite decide_True in Hc by (by apply (ib_covers _ _ Hok)). destruct Hc as [_ Hu]. by apply (ibm_updated num h).
Qed.

Lemma ibm_test num h ino : ibm_ok num h -> 1 <= ino <= num -> num < 2 ^ 31 ->
  bool_decide (ext2fs_test_generic_bmap h ino <> 0) = gmem h ino.
Proof.
  intros Hok Hi Hn. pose proof (test_cases h ino (ib_wf _ _ Hok) ltac:(lia)) as Hc.
  rewrite (ib_flat _ _ Hok) in Hc. rewrite decide_True in Hc by (by apply (ib_covers _ _ Hok)).
  destruct (gmem h ino); [by apply bool_decide_eq_true_2, Hc|apply bool_decide_eq_false_2; by intros ?%Hc].
Qed.

(** * The counts as a map *)

Record ic_wf (ic : icount T D) : Prop := {
  cw_magic : ic_magic ic = EXT2_ET_MAGIC_ICOUNT;
  cw_num : 0 <= ic_num_inodes ic < 2 ^ 31;
  cw_full : ic_fullmap ic = None;
  cw_single : ibm_ok (ic_num_inodes ic) (ic_single ic);
  cw_multiple : has_multiple ic = true -> ibm_ok (ic_num_inodes ic) (ic_multiple ic);
  cw_store : ic_tdb ic = None -> exists l, il_wf (ic_num_inodes ic) (ic_els ic) l
}.

(** The count in the list, or in the database. *)
Definition stored (ic : icount T D) (ino : Z) : Z :=
  match ic_tdb ic with
  | Some d => default 0 (tdb_view d ino)
  | None => il_count_of (ic_els ic) ino
  end.

(** The count of an inode. *)
Definition link_count (ic : icount T D) (ino : Z) : Z :=
  if gmem (ic_single ic) ino then 1
  else if has_multiple ic && negb (gmem (ic_multiple ic) ino) then 0
  else stored ic ino.

(** Only the list or the database differs. *)
Definition same_bits (ic ic' : icount T D) : Prop :=
  ic_single ic' = ic_single ic /\ ic_multiple ic' = ic_multiple ic /\ ic_num_inodes ic' = ic_num_inodes ic.

(** The database answers for [ino] where the code does not look at the result: a fetch reads the
    count, a deletion removes it. *)
Definition db_ok (ic : icount T D) (ino : Z) : Prop :=
  forall d, ic_tdb ic = Some d ->
    (tdb_fetch d ino).1 = tdb_view d ino /\ tdb_view (tdb_delete d ino).2 ino = None.

Lemma get_spec ic ino : ic_wf ic -> 1 <= ino <= ic_num_inodes ic -> db_ok ic ino ->
  exists r ic', get_inode_count junk_el oob ic ino = Some (r, stored ic ino, ic') /\
    ic_wf ic' /\ same_bits ic ic' /\ (is_Some (ic_tdb ic') <-> is_Some (ic_tdb ic)) /\ forall k, stored ic' k = stored ic k.
Proof.
  intros Hwf Hi Hdb. unfold get_inode_count, stored. destruct Hwf as [Hm Hn Hf Hs Hmu Hst].
  destruct (ic_tdb ic) as [d|] eqn:Htdb.
  - pose proof (law_fetch d ino) as Hl. destruct (Hdb d Htdb) as [Hfe _].
    destruct (tdb_fetch d ino) as [[v|] d']; destruct Hl as [_ Hv]; cbn in Hfe; rewrite <- Hfe;
      (eexists _, _; split; [reflexivity|]; split; [by split|split; [done|split; [done|]]]; intros k; cbn; by rewrite Hv).
  - rewrite Hf. destruct (Hst eq_refl) as [l Hl].
    pose proof (get_icount_el_spec junk_el oob _ Hn true _ l ino false Hl Hi) as Hg.
    destruct (get_icount_el junk_el oob true (ic_num_inodes ic) (ic_els ic) ino false) as [[i|] il'];
      destruct Hg as ([l' Hl'] & Hco & Hr); cbn [fst snd] in *.
    + destruct Hr as (e & He & <-). rewrite <- Hco. rewrite <- (il_value_spec _ _ l' i e) by done.
      eexists _, _. split; [reflexivity|].
      split; [split; try done; by exists l'|]. cbn [ic_tdb ic_set_els ic_els ic_set_tdb]. rewrite Htdb. split_and!; done.
    + destruct Hr as [Hz _]. rewrite Hz. eexists _, _. split; [reflexivity|].
      split; [split; try done; by exists l'|]. cbn [ic_tdb ic_set_els ic_els ic_set_tdb]. rewrite Htdb. split_and!; done.
Qed.

(** Storing a count: done, or refused for lack of memory or by the database. *)
Lemma set_spec mem ic ino v : ic_wf ic -> 1 <= ino <= ic_num_inodes ic ->
  exists r ic', set_inode_count junk_el oob mem ic ino v = Some (r, ic') /\ ic_wf ic' /\ same_bits ic ic' /\
    (forall k, k <> ino -> stored ic' k = stored ic k) /\
    (r = 0 /\ stored ic' ino = v \/
     r <> 0 /\ ic_tdb ic = None /\ mem = false /\ stored ic ino = 0 /\ stored ic' ino = 0 \/
     r <> 0 /\ is_Some (ic_tdb ic) /\ (stored ic' ino = stored ic ino \/ stored ic' ino = 0)) /\
    (v = 0 -> db_ok ic ino -> stored ic' ino = 0).
Proof.
  intros Hwf Hi. unfold set_inode_count, stored. destruct Hwf as [Hm Hn Hf Hs Hmu Hst].
  destruct (ic_tdb ic) as [d|] eqn:Htdb.
  - destruct (if decide (v <> 0) then tdb_store d ino v else tdb_delete d ino) as [r d'] eqn:Hop.
    assert (Hl : (forall k, k <> ino -> tdb_view d' k = tdb_view d k) /\
      (r = 0 /\ default 0 (tdb_view d' ino) = v \/ r <> 0 /\ (tdb_view d' ino = tdb_view d ino \/ tdb_view d' ino = None)) /\
      (v = 0 -> d' = (tdb_delete d ino).2)).
    { destruct (decide (v <> 0)) as [Hv|Hv].
      - pose proof (law_store d ino v) as Hl. rewrite Hop in Hl. destruct Hl as [H1 H2]. split_and!; [done| |done].
        destruct H2 as [[-> ->]|H2]; [by left|by right].
      - pose proof (law_delete d ino) as Hl. rewrite Hop in *. destruct Hl as [H1 H2]. split_and!; [done| |done].
        destruct H2 as [[-> ->]|H2]; [left; split; [done|cbn; lia]|by right]. }
    destruct Hl as (H1 & H2 & H3). eexists _, _. split; [reflexivity|]. split; [by split|]. split; [done|].
    cbn [ic_tdb ic_set_els ic_els ic_set_tdb]. split_and!.
    + intros k Hk. by rewrite H1.
    + pose proof (law_error d') as He. unfold EXT2_ET_TDB_SUCCESS, EXT2_ET_BASE.
      destruct H2 as [[-> H2]|[Hr H2]]; [left; by rewrite decide_False by lia|]. right. right. rewrite decide_True by done.
      split; [lia|]. split; [done|]. destruct H2 as [->| ->]; [by left|by right].
    + intros Hv Hdb. rewrite (H3 Hv). destruct (Hdb d Htdb) as [_ ->]. done.
  - rewrite Hf. destruct (Hst eq_refl) as [l Hl].
    pose proof (get_icount_el_spec junk_el oob _ Hn mem _ l ino true Hl Hi) as Hg.
    destruct (get_icount_el junk_el oob mem (ic_num_inodes ic) (ic_els ic) ino true) as [[i|] il'];
      destruct Hg as ([l' Hl'] & Hco & Hr); cbn [fst snd] in *.
    + destruct Hr as (e & He & <-). destruct (il_set_value_spec _ _ l' i e v Hl' He) as [[l2 Hl2] Hv].
      eexists _, _. split; [reflexivity|]. split; [split; try done; by exists l2|]. split; [done|].
      cbn [ic_tdb ic_set_els ic_els ic_set_tdb]. rewrite Htdb. split_and!.
      * intros k Hk. rewrite Hv, decide_False by done. apply Hco.
      * left. split; [done|]. rewrite Hv. by rewrite decide_True.
      * intros Hz _. rewrite Hv. by rewrite decide_True.
    + destruct Hr as [Hz Hmem]. eexists _, _. split; [reflexivity|]. split; [split; try done; by exists l'|].
      split; [done|]. cbn [ic_tdb ic_set_els ic_els ic_set_tdb]. rewrite Htdb, Hco. split_and!; try done.
      right. left. split_and!; auto.
Qed.

(** The counts after an operation: that of [ino] is [v], the others are as before. *)
Definition updated (ic ic' : icount T D) (ino v : Z) : Prop :=
  ic_wf ic' /\ ic_num_inodes ic' = ic_num_inodes ic /\
  forall k, 1 <= k <= ic_num_inodes ic -> link_count ic' k = if decide (k = ino) then v else link_count ic k.

Definition unchanged (ic ic' : icount T D) : Prop :=
  ic_wf ic' /\ ic_num_inodes ic' = ic_num_inodes ic /\
  forall k, 1 <= k <= ic_num_inodes ic -> link_count ic' k = link_count ic k.

(** The bitmap operations on a record of counts. *)
Lemma mark_single_ok ino ic : ic_wf ic -> 1 <= ino <= ic_num_inodes ic ->
  ic_wf (mark_single ino ic) /\ forall k, 1 <= k <= ic_num_inodes ic ->
    gmem (ic_single (mark_single ino ic)) k = bool_decide (k = ino) || gmem (ic_single ic) k.
Proof.
  intros [] Hi. destruct (ibm_mark (ic_num_inodes ic) (ic_single ic) ino) as [H1 H2]; [done|done|lia|].
  split; [by split|done].
Qed.

Lemma unmark_single_ok ino ic : ic_wf ic -> 1 <= ino <= ic_num_inodes ic ->
  ic_wf (unmark_single ino ic) /\ forall k, 1 <= k <= ic_num_inodes ic ->
    gmem (ic_single (unmark_single ino ic)) k = negb (bool_decide (k = ino)) && gmem (ic_single ic) k.
Proof.
  intros [] Hi. destruct (ibm_unmark (ic_num_inodes ic) (ic_single ic) ino) as [H1 H2]; [done|done|lia|].
  split; [by split|done].
Qed.

Lemma mark_multiple_ok ino ic : ic_wf ic -> 1 <= ino <= ic_num_inodes ic -> has_multiple ic = true ->
  ic_wf (mark_multiple ino ic) /\ has_multiple (mark_multiple ino ic) = true /\
  forall k, 1 <= k <= ic_num_inodes ic ->
    gmem (ic_multiple (mark_multiple ino ic)) k = bool_decide (k = ino) || gmem (ic_multiple ic) k.
Proof.
  intros [] Hi Hm. destruct (ibm_mark (ic_num_inodes ic) (ic_multiple ic) ino) as [H1 H2]; [auto|done|lia|].
  split; [by split|]. split; [|done]. unfold has_multiple. cbn. by rewrite (ibm_not_null _ _ H1).
Qed.

Lemma unmark_multiple_ok ino ic : ic_wf ic -> 1 <= ino <= ic_num_inodes ic -> has_multiple ic = true ->
  ic_wf (unmark_multiple ino ic) /\ has_multiple (unmark_multiple ino ic) = true /\
  forall k, 1 <= k <= ic_num_inodes ic ->
    gmem (ic_multiple (unmark_multiple ino ic)) k = negb (bool_decide (k = ino)) && gmem (ic_multiple ic) k.
Proof.
  intros [] Hi Hm. destruct (ibm_unmark (ic_num_inodes ic) (ic_multiple ic) ino) as [H1 H2]; [auto|done|lia|].
  split; [by split|]. split; [|done]. unfold has_multiple. cbn. by rewrite (ibm_not_null _ _ H1).
Qed.

Lemma test_single_ok ino ic : ic_wf ic -> 1 <= ino <= ic_num_inodes ic -> test_single ino ic = gmem (ic_single ic) ino.
Proof. intros [] Hi. apply (ibm_test (ic_num_inodes ic)); [done|done|lia]. Qed.

Lemma test_multiple_ok ino ic : ic_wf ic -> 1 <= ino <= ic_num_inodes ic -> has_multiple ic = true ->
  test_multiple ino ic = gmem (ic_multiple ic) ino.
Proof. intros [] Hi Hm. apply (ibm_test (ic_num_inodes ic)); [auto|done|lia]. Qed.

Lemma same_bits_multiple (ic : icount T D) ic' : same_bits ic ic' -> has_multiple ic' = has_multiple ic.
Proof. intros (_ & H & _). unfold has_multiple. by rewrite H. Qed.

(** The arguments of an operation pass its checks. *)
Lemma bad_ino_false (ic : icount T D) ino : 1 <= ino <= ic_num_inodes ic -> bad_ino ic ino = false.
Proof. intros Hi. unfold bad_ino. rewrite !bool_decide_eq_false_2 by lia. done. Qed.

Ltac pass_checks Hwf Hi :=
  rewrite (bad_ino_false _ _ Hi), (cw_full _ Hwf);
  match goal with |- context [decide (ic_magic ?ic <> _)] =>
    let H := fresh in destruct (decide (ic_magic ic <> _)) as [H|_]; [by rewrite (cw_magic _ Hwf) in H|]
  end.

Lemma fetch_ok ic ino : ic_wf ic -> 1 <= ino <= ic_num_inodes ic -> db_ok ic ino ->
  exists ic', ext2fs_icount_fetch junk_el oob ic ino = Some (0, Some (icount_16_xlate (link_count ic ino)), ic') /\
    unchanged ic ic'.
Proof.
  intros Hwf Hi Hdb. unfold ext2fs_icount_fetch. pass_checks Hwf Hi. rewrite test_single_ok by done.
  unfold link_count. destruct (gmem (ic_single ic) ino) eqn:Hs; [by exists ic|].
  assert (Hlist : exists ic', ('(_, val, ic0) ← get_inode_count junk_el oob ic ino; Some (0, Some (icount_16_xlate val), ic0))
    = Some (0, Some (icount_16_xlate (stored ic ino)), ic') /\ unchanged ic ic').
  { destruct (get_spec ic ino Hwf Hi Hdb) as (r & ic' & -> & Hwf' & Hb & _ & Hst). exists ic'. split; [done|].
    split; [done|]. destruct Hb as (H1 & H2 & H3). split; [done|]. intros k Hk. unfold link_count, has_multiple.
    by rewrite H1, H2, Hst. }
  destruct (has_multiple ic) eqn:Hm; [|done]. cbn [andb]. rewrite test_multiple_ok by done.
  destruct (gmem (ic_multiple ic) ino); [done|]. by exists ic.
Qed.

(** A change of the list or the database alone, at an inode that is counted there. *)
Lemma stored_updated ic ic' ino v :
  ic_wf ic' -> same_bits ic ic' -> (forall k, stored ic' k = if decide (k = ino) then v else stored ic k) ->
  gmem (ic_single ic) ino = false -> has_multiple ic && negb (gmem (ic_multiple ic) ino) = false ->
  updated ic ic' ino v.
Proof.
  intros Hwf (H1 & H2 & H3) Hst Hs Hm. split; [done|]. split; [done|]. intros k Hk.
  unfold link_count, has_multiple in *. rewrite H1, H2, Hst. case_decide as Hki; [|done]. subst k. by rewrite Hs, Hm.
Qed.

Lemma stored_unchanged ic ic' :
  ic_wf ic' -> same_bits ic ic' -> (forall k, stored ic' k = stored ic k) -> unchanged ic ic'.
Proof.
  intros Hwf (H1 & H2 & H3) Hst. split; [done|]. split; [done|]. intros k Hk.
  unfold link_count, has_multiple. by rewrite H1, H2, Hst.
Qed.

(** The end of an increment: the inode is marked as counted in the list. *)
Lemma increment_end_ok ic ic' ino v :
  ic_wf ic' -> ic_num_inodes ic' = ic_num_inodes ic -> 1 <= ino <= ic_num_inodes ic ->
  gmem (ic_single ic') ino = false -> stored ic' ino = v ->
  (forall k, 1 <= k <= ic_num_inodes ic -> k <> ino -> link_count ic' k = link_count ic k) ->
  exists ic2, increment_end ino v ic' = Some (0, Some (icount_16_xlate v), ic2) /\ updated ic ic2 ino v.
Proof.
  intros Hwf Hn Hi Hs Hv Hk. unfold increment_end. eexists. split; [reflexivity|].
  destruct (has_multiple ic') eqn:Hm.
  - rewrite <- Hn in *. destruct (mark_multiple_ok ino ic' Hwf Hi Hm) as (H1 & H2 & H3). split; [done|]. split; [done|].
    intros k Hkr. rewrite <- Hn in Hkr. unfold link_count at 1. rewrite H2, H3 by done. cbn [andb].
    change (ic_single (mark_multiple ino ic')) with (ic_single ic').
    change (stored (mark_multiple ino ic') k) with (stored ic' k).
    case_decide as Hki; [subst k; rewrite Hs, bool_decide_eq_true_2 by done; done|].
    rewrite <- Hk by done. rewrite bool_decide_eq_false_2 by done. unfold link_count. by rewrite Hm.
  - split; [done|]. split; [done|]. intros k Hkr. case_decide as Hki; [|by apply Hk]. subst k.
    unfold link_count. by rewrite Hs, Hm.
Qed.

(** An operation that was refused: for lack of memory, with nothing changed; or by the database,
    which may have lost the count of the inode. *)
Definition refused (mem : bool) (ic ic' : icount T D) (ino : Z) : Prop :=
  mem = false /\ unchanged ic ic' \/ is_Some (ic_tdb ic) /\ (unchanged ic ic' \/ updated ic ic' ino 0).

Lemma refused_stored mem ic ic' ino :
  ic_wf ic' -> same_bits ic ic' -> (forall k, k <> ino -> stored ic' k = stored ic k) ->
  (mem = false /\ stored ic' ino = stored ic ino \/
   is_Some (ic_tdb ic) /\ (stored ic' ino = stored ic ino \/ stored ic' ino = 0)) ->
  refused mem ic ic' ino.
Proof.
  intros Hwf Hb Hk Hc.
  assert (Hsame : stored ic' ino = stored ic ino -> unchanged ic ic').
  { intros He. apply stored_unchanged; [done|done|]. intros k. destruct (decide (k = ino)) as [->|]; auto. }
  destruct Hc as [[Hm He]|[Hd [He|He]]]; [left; auto|right; auto|]. right. split; [done|].
  destruct (gmem (ic_single ic) ino || has_multiple ic && negb (gmem (ic_multiple ic) ino)) eqn:Hx.
  - left. pose proof Hb as (H1 & H2 & H3). split; [done|]. split; [done|]. intros k _. unfold link_count, has_multiple in *.
    rewrite H1, H2. destruct (decide (k = ino)) as [->|Hne]; [|by rewrite Hk].
    destruct (gmem (ic_single ic) ino); [done|]. cbn [orb] in Hx. by rewrite Hx.
  - apply orb_false_iff in Hx as [Hs Hm]. right. apply stored_updated; [done|done| |done|done].
    intros k. case_decide as C; [by subst k|by apply Hk].
Qed.

Definition inc_result (mem : bool) (ic : icount T D) (ino : Z) (r : result) : Prop :=
  let c := link_count ic ino in
  (exists ic', r = Some (0, Some (icount_16_xlate (u32 (c + 1))), ic') /\ updated ic ic' ino (u32 (c + 1))) \/
  (exists ic', r = Some (EXT2_ET_NO_MEMORY, None, ic') /\ refused mem ic ic' ino).

Lemma increment_list_ok mem ic ino :
  ic_wf ic -> 1 <= ino <= ic_num_inodes ic -> db_ok ic ino -> gmem (ic_single ic) ino = false ->
  has_multiple ic && negb (gmem (ic_multiple ic) ino) = false ->
  inc_result mem ic ino (increment_list junk_el oob mem ic ino).
Proof.
  intros Hwf Hi Hdb Hs Hm. unfold inc_result, increment_list.
  assert (Hc : link_count ic ino = stored ic ino) by (unfold link_count; by rewrite Hs, Hm).
  destruct (get_spec ic ino Hwf Hi Hdb) as (r & ic1 & -> & Hwf1 & Hb1 & Hd1 & Hst1). cbn [mbind option_bind].
  pose proof Hb1 as (S1 & M1 & N1). set (v := u32 (stored ic ino + 1)).
  destruct (set_spec mem ic1 ino v Hwf1 ltac:(lia)) as (r2 & ic2 & -> & Hwf2 & (S2 & M2 & N2) & Hk2 & Hcase & _). cbn [mbind option_bind].
  assert (Hb2 : same_bits ic ic2) by (split_and!; congruence).
  assert (Hk : forall k, k <> ino -> stored ic2 k = stored ic k) by (intros k Hne; by rewrite Hk2, Hst1).
  destruct Hcase as [[-> Hst2]|Hcase].
  - rewrite decide_False by lia. left. rewrite Hc. apply increment_end_ok; [done|congruence|done|by rewrite S2, S1|done|].
    intros k Hkr Hne. unfold link_count, has_multiple. by rewrite S2, S1, M2, M1, Hk.
  - rewrite decide_True by tauto. right. exists ic2. split; [done|]. apply refused_stored; [done..|]. rewrite Hst1, Hd1 in Hcase.
    destruct Hcase as [(_ & _ & ? & -> & ->)|(_ & ? & ?)]; auto.
Qed.

Lemma increment_ok mem ic ino : ic_wf ic -> 1 <= ino <= ic_num_inodes ic -> db_ok ic ino ->
  inc_result mem ic ino (ext2fs_icount_increment junk_el oob mem ic ino).
Proof.
  intros Hwf Hi Hdb. unfold ext2fs_icount_increment. pass_checks Hwf Hi. rewrite test_single_ok by done.
  destruct (gmem (ic_single ic) ino) eqn:Hs.
  - assert (Hc : link_count ic ino = 1) by (unfold link_count; by rewrite Hs).
    unfold inc_result. rewrite Hc. change (u32 (1 + 1)) with 2.
    destruct (set_spec mem ic ino 2 Hwf Hi) as (r & ic1 & -> & Hwf1 & Hb1 & Hk1 & Hcase & _). cbn [mbind option_bind].
    pose proof Hb1 as (S1 & M1 & N1). destruct Hcase as [[-> Hst]|Hcase].
    + rewrite decide_False by lia. left.
      destruct (unmark_single_ok ino ic1 Hwf1 ltac:(lia)) as [Hwf2 Hsg].
      apply increment_end_ok; [done|done|done| | |].
      * rewrite Hsg by lia. by rewrite bool_decide_eq_true_2.
      * done.
      * intros k Hk Hne. unfold link_count at 1. rewrite Hsg by lia. rewrite bool_decide_eq_false_2 by done. cbn [negb andb].
        change (has_multiple (unmark_single ino ic1)) with (has_multiple ic1).
        change (ic_multiple (unmark_single ino ic1)) with (ic_multiple ic1).
        change (stored (unmark_single ino ic1) k) with (stored ic1 k).
        unfold link_count, has_multiple. by rewrite S1, M1, Hk1.
    + rewrite decide_True by tauto. right. exists ic1. split; [done|]. apply refused_stored; [done..|].
      destruct Hcase as [(_ & _ & ? & -> & ->)|(_ & ? & ?)]; auto.
  - destruct (has_multiple ic) eqn:Hm.
    + rewrite test_multiple_ok by done. destruct (gmem (ic_multiple ic) ino) eqn:Hmu.
      * apply increment_list_ok; [done|done|done|done|]. by rewrite Hm, Hmu.
      * assert (Hc : link_count ic ino = 0) by (unfold link_count; by rewrite Hs, Hm, Hmu).
        unfold inc_result. rewrite Hc. change (u32 (0 + 1)) with 1. left. eexists. split; [reflexivity|].
        destruct (mark_single_ok ino ic Hwf Hi) as [Hwf2 Hsg]. split; [done|]. split; [done|]. intros k Hk.
        unfold link_count. rewrite Hsg by done. case_decide as Hki; [by rewrite bool_decide_eq_true_2|].
        by rewrite bool_decide_eq_false_2.
    + apply increment_list_ok; [done|done|done|done|]. by rewrite Hm.
Qed.

(** Clearing [single] and, when there is one, [multiple]. *)
Lemma clear_both ic ino : ic_wf ic -> 1 <= ino <= ic_num_inodes ic -> has_multiple ic = true ->
  updated ic (unmark_multiple ino (unmark_single ino ic)) ino 0.
Proof.
  intros Hwf Hi Hm. destruct (unmark_single_ok ino ic Hwf Hi) as [Hwf1 H1].
  destruct (unmark_multiple_ok ino (unmark_single ino ic) Hwf1 Hi Hm) as (Hwf2 & Hm2 & H2).
  split; [done|]. split; [done|]. intros k Hk. unfold link_count at 1. rewrite Hm2, H2 by done.
  change (ic_single (unmark_multiple ino (unmark_single ino ic))) with (ic_single (unmark_single ino ic)).
  rewrite H1 by done. case_decide as Hki; [by rewrite bool_decide_eq_true_2|].
  rewrite bool_decide_eq_false_2 by done. cbn [negb andb]. unfold link_count. by rewrite Hm.
Qed.

(** Clearing [single] when there is no [multiple], and setting the count in the list to 0. *)
Lemma clear_listed mem ic ino : ic_wf ic -> 1 <= ino <= ic_num_inodes ic -> db_ok ic ino -> has_multiple ic = false ->
  exists r ic', set_inode_count junk_el oob mem (unmark_single ino ic) ino 0 = Some (r, ic') /\ updated ic ic' ino 0.
Proof.
  intros Hwf Hi Hdb Hm. destruct (unmark_single_ok ino ic Hwf Hi) as [Hwf1 H1].
  destruct (set_spec mem (unmark_single ino ic) ino 0 Hwf1 Hi) as (r & ic1 & -> & Hwf2 & (S2 & M2 & N2) & Hk & _ & Hz).
  assert (Hst : forall k, stored ic1 k = if decide (k = ino) then 0 else stored ic k).
  { intros k. case_decide as Hki; [subst k; by apply Hz|by apply Hk]. }
  exists r, ic1. split; [done|]. split; [done|]. split; [done|]. intros k Hkr.
  unfold link_count, has_multiple. rewrite S2, M2, Hst, H1 by done.
  change (ic_multiple (unmark_single ino ic)) with (ic_multiple ic).
  unfold has_multiple in Hm. rewrite Hm. cbn [andb].
  case_decide as Hki; [by rewrite bool_decide_eq_true_2|]. by rewrite bool_decide_eq_false_2.
Qed.

(** The end of a decrement to [v] of a count in the list. *)
Lemma decrement_end_ok ic ic1 ino v :
  ic_wf ic1 -> same_bits ic ic1 -> 1 <= ino <= ic_num_inodes ic ->
  (forall k, stored ic1 k = if decide (k = ino) then v else stored ic k) ->
  gmem (ic_single ic) ino = false -> has_multiple ic && negb (gmem (ic_multiple ic) ino) = false ->
  updated ic (let ic := if decide (v = 1) then mark_single ino ic1 else ic1 in
              if bool_decide (v = 0) && has_multiple ic then unmark_multiple ino ic else ic) ino v.
Proof.
  intros Hwf1 Hb Hi Hst Hs Hm. pose proof (stored_updated _ _ _ _ Hwf1 Hb Hst Hs Hm) as (_ & Hn & Hk).
  cbv zeta. case_decide as Hv1.
  - rewrite bool_decide_eq_false_2 by lia. cbn [andb].
    destruct (mark_single_ok ino ic1 Hwf1 ltac:(lia)) as [Hwf2 H2]. split; [done|]. split; [done|]. intros k Hkr.
    unfold link_count at 1. rewrite H2 by lia. case_decide as Hki; [by rewrite bool_decide_eq_true_2|].
    rewrite bool_decide_eq_false_2 by done. cbn [orb]. rewrite <- (decide_False (P := k = ino) v (link_count ic k)) by done.
    by rewrite <- Hk.
  - destruct (bool_decide (v = 0) && has_multiple ic1) eqn:Hc; [|done].
    apply andb_true_iff in Hc as [Hv0%bool_decide_eq_true Hm1].
    destruct (unmark_multiple_ok ino ic1 Hwf1 ltac:(lia) Hm1) as (Hwf2 & Hm2 & H2). split; [done|]. split; [done|].
    intros k Hkr. pose proof Hb as (S1 & M1 & _). unfold link_count at 1. rewrite Hm2, H2 by lia.
    change (ic_single (unmark_multiple ino ic1)) with (ic_single ic1).
    change (stored (unmark_multiple ino ic1) k) with (stored ic1 k).
    case_decide as Hki; [subst k; rewrite bool_decide_eq_true_2, S1, Hs by done; done|].
    rewrite bool_decide_eq_false_2 by done. cbn [negb andb].
    rewrite <- (decide_False (P := k = ino) v (link_count ic k)) by done. rewrite <- Hk by done.
    unfold link_count. by rewrite Hm1.
Qed.

Lemma decrement_ok mem ic ino : ic_wf ic -> 1 <= ino <= ic_num_inodes ic -> db_ok ic ino ->
  let c := link_count ic ino in
  if decide (c = 0)
  then exists ic', ext2fs_icount_decrement junk_el oob mem ic ino = Some (EXT2_ET_INVALID_ARGUMENT, None, ic') /\
         unchanged ic ic'
  else (exists ic', ext2fs_icount_decrement junk_el oob mem ic ino = Some (0, Some (icount_16_xlate (c - 1)), ic') /\
          updated ic ic' ino (c - 1)) \/
       (exists ic', ext2fs_icount_decrement junk_el oob mem ic ino = Some (EXT2_ET_NO_MEMORY, None, ic') /\
          is_Some (ic_tdb ic) /\ (unchanged ic ic' \/ updated ic ic' ino 0)).
Proof.
  intros Hwf Hi Hdb. cbv zeta. unfold ext2fs_icount_decrement. pass_checks Hwf Hi. rewrite test_single_ok by done.
  destruct (gmem (ic_single ic) ino) eqn:Hs.
  - assert (Hc : link_count ic ino = 1) by (unfold link_count; by rewrite Hs). rewrite Hc, decide_False by done.
    change (1 - 1) with 0. change (has_multiple (unmark_single ino ic)) with (has_multiple ic).
    left. destruct (has_multiple ic) eqn:Hm; [eexists; split; [reflexivity|by apply clear_both]|].
    destruct (clear_listed mem ic ino Hwf Hi Hdb Hm) as (r & ic' & -> & Hu). by exists ic'.
  - destruct (has_multiple ic && negb (gmem (ic_multiple ic) ino)) eqn:Hm.
    + assert (Hc : link_count ic ino = 0) by (unfold link_count; by rewrite Hs, Hm). rewrite Hc, decide_True by done.
      apply andb_true_iff in Hm as [Hm Hmu]. rewrite Hm, test_multiple_ok, Hmu by done. cbn [andb]. by exists ic.
    + assert (Hc : link_count ic ino = stored ic ino) by (unfold link_count; by rewrite Hs, Hm).
      assert (Hcond : has_multiple ic && negb (test_multiple ino ic) = false).
      { destruct (has_multiple ic) eqn:Hh; [|done]. cbn [andb] in *. by rewrite test_multiple_ok. }
      rewrite Hcond, Hc. destruct (get_spec ic ino Hwf Hi Hdb) as (r & ic1 & -> & Hwf1 & Hb1 & Hd1 & Hst1). cbn [mbind option_bind].
      pose proof Hb1 as (S1 & M1 & N1).
      destruct (decide (stored ic ino = 0)) as [Hz|Hz]; [exists ic1; split; [done|by apply stored_unchanged]|].
      destruct (set_spec mem ic1 ino (stored ic ino - 1) Hwf1 ltac:(lia))
        as (r2 & ic2 & -> & Hwf2 & (S2 & M2 & N2) & Hk2 & Hcase & _). cbn [mbind option_bind].
      assert (Hb2 : same_bits ic ic2) by (split_and!; congruence).
      assert (Hk : forall k, k <> ino -> stored ic2 k = stored ic k) by (intros k Hne; by rewrite Hk2, Hst1).
      destruct Hcase as [[-> Hst2]|[(_ & _ & _ & Hz2 & _)|(Hr & Hd & Hst2)]]; [|by rewrite Hst1 in Hz2|].
      * rewrite decide_False by lia. left. eexists. split; [reflexivity|].
        apply decrement_end_ok; [done..| |done|done]. intros k. case_decide as C; [by subst k|by apply Hk].
      * rewrite decide_True by done. right. exists ic2. split; [done|]. apply Hd1 in Hd. split; [done|]. rewrite Hst1 in Hst2.
        assert (Href : refused true ic ic2 ino) by (apply refused_stored; auto). by destruct Href as [[]|[]].
Qed.

Lemma store_ok mem ic ino v : ic_wf ic -> 1 <= ino <= ic_num_inodes ic -> db_ok ic ino ->
  exists err ic', ext2fs_icount_store junk_el oob mem ic ino v = Some (err, ic') /\
    (err = 0 /\ updated ic ic' ino v \/ err = EXT2_ET_NO_MEMORY /\ refused mem ic ic' ino).
Proof.
  intros Hwf Hi Hdb. unfold ext2fs_icount_store. pass_checks Hwf Hi. case_decide as H1; [|case_decide as H0].
  - subst v. destruct (mark_single_ok ino ic Hwf Hi) as [Hwf1 Hsg]. eexists _, _. split; [reflexivity|]. left. split; [done|].
    change (has_multiple (mark_single ino ic)) with (has_multiple ic).
    assert (Hgoal : forall ic', ic_single ic' = ic_single (mark_single ino ic) -> has_multiple ic' = has_multiple ic ->
      (has_multiple ic = true -> forall k, 1 <= k <= ic_num_inodes ic -> k <> ino ->
         gmem (ic_multiple ic') k = gmem (ic_multiple ic) k) ->
      (forall k, stored ic' k = stored ic k) -> ic_wf ic' -> ic_num_inodes ic' = ic_num_inodes ic -> updated ic ic' ino 1).
    { intros ic' HS HM Hmu Hst Hw Hn. split; [done|]. split; [done|]. intros k Hk. unfold link_count.
      rewrite HS, HM, Hst, Hsg by done. case_decide as Hki; [by rewrite bool_decide_eq_true_2|].
      rewrite bool_decide_eq_false_2 by done. cbn [orb]. destruct (has_multiple ic); [|done]. by rewrite Hmu. }
    destruct (has_multiple ic) eqn:Hm; [|by apply Hgoal].
    destruct (unmark_multiple_ok ino (mark_single ino ic) Hwf1 Hi Hm) as (Hwf2 & Hm2 & H2).
    apply Hgoal; try done. intros _ k Hk Hne. rewrite H2 by done. by rewrite bool_decide_eq_false_2.
  - subst v. change (has_multiple (unmark_single ino ic)) with (has_multiple ic).
    destruct (has_multiple ic) eqn:Hm; [eexists _, _; split; [reflexivity|left; split; [done|by apply clear_both]]|].
    destruct (clear_listed mem ic ino Hwf Hi Hdb Hm) as (r & ic' & -> & Hu). exists 0, ic'. split; [done|]. by left.
  - destruct (set_spec mem ic ino v Hwf Hi) as (r & ic1 & -> & Hwf1 & Hb1 & Hk1 & Hcase & _). cbn [mbind option_bind].
    pose proof Hb1 as (S1 & M1 & N1). destruct Hcase as [[-> Hst]|Hcase].
    + rewrite decide_False by lia. eexists _, _. split; [reflexivity|]. left. split; [done|].
      destruct (unmark_single_ok ino ic1 Hwf1 ltac:(lia)) as [Hwf2 Hsg].
      destruct (increment_end_ok ic (unmark_single ino ic1) ino v) as (ic2 & He & Hu); [done|done|done| | | |].
      * rewrite Hsg by lia. by rewrite bool_decide_eq_true_2.
      * done.
      * intros k Hk Hne. unfold link_count at 1. rewrite Hsg by lia. rewrite bool_decide_eq_false_2 by done. cbn [negb andb].
        change (has_multiple (unmark_single ino ic1)) with (has_multiple ic1).
        change (ic_multiple (unmark_single ino ic1)) with (ic_multiple ic1).
        change (stored (unmark_single ino ic1) k) with (stored ic1 k).
        unfold link_count, has_multiple. by rewrite S1, M1, Hk1.
      * unfold increment_end in He. injection He as He. by rewrite He.
    + rewrite decide_True by tauto. eexists _, _. split; [reflexivity|]. right. split; [done|]. apply refused_stored; [done..|].
      destruct Hcase as [(_ & _ & ? & -> & ->)|(_ & ? & ?)]; auto.
Qed.
End icount_proofs.
