(* ===== verification/IcountTheorems.v ===== *)
(** The properties of the inode counts, and the full map whose last inode has no room. *)
From Stdlib Require Import ZArith Lia.
From stdpp Require Import base tactics numbers list sorting gmap.
From S2P Require Import Prelude ExtErr EaRefcount Bitops BitmapOps BitArray BitArrayProofs GenBitmap GenBitmapProofs.
From S2P Require Import BitmapTheorems Icount IcountProofs.

(** * Creation *)

Section create.
Context {T : Type} `{!BitmapOps T} `{!BitmapLaws T} {D : Type} `{!TdbOps D} `{!TdbLaws D}.
Variable junk_el : icount_el.
Variable oob : Z.

Lemma length_copy_hint n : forall i hint l, length (copy_hint n i hint l) = length l.
Proof. induction n as [|n IH]; intros i hint l; cbn; [done|]. by rewrite IH, length_insert. Qed.

Lemma lookup_copy_hint n : forall i hint l p, (i + n <= length l)%nat ->
  copy_hint n i hint l !! p = if decide (i <= p < i + n)%nat then Some ((hint !!! p).1, (l !!! p).2) else l !! p.
Proof.
  induction n as [|n IH]; intros i hint l p Hl; cbn [copy_hint]; [case_decide; [lia|done]|].
  rewrite IH by (rewrite length_insert; lia). destruct (decide (p = i)) as [->|Hne].
  - rewrite decide_False by lia. rewrite decide_True by lia. by apply list_lookup_insert_eq; lia.
  - repeat case_decide; try lia; [|by rewrite list_lookup_insert_ne by lia].
    by rewrite list_lookup_total_insert_ne by lia.
Qed.

(** The entries copied from a hint: its inodes, with count 0. *)
Lemma copy_hint_entries num il l n :
  il_wf num il l -> (il_count il <= n)%nat ->
  take (il_count il) (copy_hint (il_count il) 0 l (replicate n (0, 0))) = (fun e : icount_el => (e.1, 0)) <$> il_entries il.
Proof.
  intros Hwf Hn. apply list_eq. intros p. rewrite list_lookup_fmap.
  destruct (decide (p < il_count il)%nat) as [Hp|Hp].
  - rewrite lookup_take_lt by done. rewrite lookup_copy_hint by (rewrite length_replicate; lia).
    rewrite decide_True by lia. rewrite (il_entries_lookup _ _ _ p Hwf Hp). cbn.
    by rewrite lookup_total_replicate_2 by lia.
  - rewrite lookup_take_ge by lia. by rewrite (lookup_ge_None_2 (il_entries il)) by (rewrite (length_il_entries _ _ _ Hwf); lia).
Qed.

Lemma assoc_zero (E : list icount_el) k : assoc ((fun e : icount_el => (e.1, 0)) <$> E) k = 0.
Proof. induction E as [|e E IH]; cbn; [done|]. by case_decide. Qed.

Lemma sorted_zero (E : list icount_el) : sorted E -> sorted ((fun e : icount_el => (e.1, 0)) <$> E).
Proof.
  induction 1 as [|e E Hs IH He]; cbn; constructor; [done|]. rewrite Forall_fmap. eapply Forall_impl; [exact He|]. done.
Qed.

(** A bitmap of all the inodes in which none is marked, as [ext2fs_allocate_inode_bitmap] makes it. *)
Definition empty_bitmap (num : Z) (h : generic_bitmap T) : Prop :=
  ibm_ok num h /\ forall k, 1 <= k <= num -> gmem h k = false.

(** [ext2fs_create_icount2] without the full map makes counts that are all 0, with or
    without a hint, whose inodes are entered in the sorted array beforehand. *)
Theorem create_icount_spec new_bitmap num_dirs n flags size hint ic :
  0 <= n < 2 ^ 31 -> 0 <= size < 2 ^ 32 -> (forall b h, new_bitmap b = inr h -> empty_bitmap n h) ->
  (forall h, hint = Some h -> exists l, il_wf n (ic_els h) l) ->
  ext2fs_create_icount2 (D := D) new_bitmap (true, false) true num_dirs n flags size hint = inr ic ->
  ic_wf ic /\ ic_num_inodes ic = n /\ forall k, 1 <= k <= n -> link_count ic k = 0.
Proof.
  intros Hn Hsz Hnew Hhint. unfold ext2fs_create_icount2.
  set (go := match alloc_icount _ _ _ _ with inl _ => _ | inr _ => _ end).
  assert (Hgo : go = inr ic -> ic_wf ic /\ ic_num_inodes ic = n /\ forall k, 1 <= k <= n -> link_count ic k = 0).
  2:{ destruct hint as [h|]; [case_decide; [done|]|]; exact Hgo. }
  unfold go. clear go.
  assert (Halloc : match alloc_icount (D := D) new_bitmap (true, false) n flags with
    | inl _ => True
    | inr ic0 => ic_magic ic0 = EXT2_ET_MAGIC_ICOUNT /\ ic_num_inodes ic0 = n /\ ic_fullmap ic0 = None /\ ic_tdb ic0 = None /\
        empty_bitmap n (ic_single ic0) /\ (has_multiple ic0 = true -> ibm_ok n (ic_multiple ic0)) /\
        (has_multiple ic0 = true -> forall k, 1 <= k <= n -> gmem (ic_multiple ic0) k = false)
    end).
  { unfold alloc_icount. cbn [negb fst snd]. rewrite decide_False by (by intros (_ & _ & ?)).
    destruct (new_bitmap false) as [|h1] eqn:H1; [done|]. apply Hnew in H1.
    case_decide; [|by split_and!].
    destruct (new_bitmap true) as [|h2] eqn:H2; [done|]. apply Hnew in H2 as [H2 H2']. by split_and!. }
  destruct (alloc_icount new_bitmap (true, false) n flags) as [|ic0]; [done|].
  destruct Halloc as (Hm & Hnum & Hf & Ht & [Hs1 Hs2] & Hmu & Hmu2). rewrite Hf.
  destruct (if decide _ then _ else _) as [|sz] eqn:Hsize; [done|]. cbn [negb].
  assert (Hroom : forall h, hint = Some h -> Z.of_nat (il_size (ic_els h)) <= sz).
  { intros h ->. revert Hsize. repeat case_decide; intros; simplify_eq; try lia.
    destruct (Hhint h eq_refl) as [l []]. destruct num_dirs as [|nd]; [done|]. simplify_eq. mlia. }
  set (pr := match hint with Some h => _ | None => _ end).
  assert (Hpr : exists il, (let '(count, l) := pr in inr (ic_set_els (mkIl count (Z.to_nat sz) 0 (Some l) None) ic0))
    = (inr (ic_set_els il ic0) : Z + icount T D) /\ (exists l, il_wf n il l) /\ forall k, il_count_of il k = 0).
  { unfold pr. destruct hint as [h|].
    - destruct (Hhint h eq_refl) as [l Hl]. pose proof (Hroom h eq_refl) as Hr. pose proof (iw_count _ _ _ Hl).
      rewrite (iw_list _ _ _ Hl). change (default [] (Some l)) with l. eexists. split; [reflexivity|].
      pose proof (copy_hint_entries n (ic_els h) l (Z.to_nat sz) Hl ltac:(lia)) as HE. split.
      + eexists. split; cbn [il_list il_count il_size il_last].
        * reflexivity.
        * by rewrite length_copy_hint, length_replicate.
        * lia.
        * rewrite HE. apply sorted_zero. rewrite (il_entries_eq _ _ _ Hl). apply Hl.
        * rewrite HE, Forall_fmap, (il_entries_eq _ _ _ Hl). exact (iw_inos _ _ _ Hl).
        * done.
      + intros k. unfold il_count_of, il_entries. cbn [il_list il_count].
        etransitivity; [exact (f_equal (fun E => assoc E k) HE)|apply assoc_zero].
    - eexists. split; [reflexivity|]. split; [|done]. eexists. split; cbn; try done; try lia; [|constructor..].
      by rewrite length_replicate. }
  destruct Hpr as (il & -> & Hil & Hz). intros [= <-]. split_and!.
  - split; cbn; rewrite ?Hnum; done.
  - done.
  - intros k Hk. unfold link_count, stored, has_multiple. cbn [ic_single ic_multiple ic_set_els ic_tdb ic_els].
    rewrite Hs2, Ht, Hz by done. by destruct (_ && _).
Qed.

(** C22: inode counts refine a map from inodes to counts, whether they are kept in the array or in a
    database and with or without the second bitmap (not in the full map): fetch, increment,
    decrement and store of an inode are those of the map (with 32-bit counts, reported as at most
    65500) and change no other count.  An increment or a store may be refused for lack of memory, and
    then nothing changes; with a database, increment, decrement and store may be refused by it,
    and then nothing changes or the count of that inode is lost.  A decrement of a count of 0
    and inodes out of range are refused.  Assumed of the database is that its fetch of this inode
    reads what is stored and its deletion removes it ([db_ok]): the code ignores these two
    results ([fetch_failure_ignored]); its stores may fail. *)
Theorem icount_refines_map (ic : icount T D) ino mem :
  ic_wf ic ->
  (1 <= ino <= ic_num_inodes ic -> db_ok ic ino ->
   let c := link_count ic ino in
   (exists ic', ext2fs_icount_fetch junk_el oob ic ino = Some (0, Some (icount_16_xlate c), ic') /\ unchanged ic ic') /\
   ((exists ic', ext2fs_icount_increment junk_el oob mem ic ino = Some (0, Some (icount_16_xlate (u32 (c + 1))), ic') /\
                 updated ic ic' ino (u32 (c + 1))) \/
    (exists ic', ext2fs_icount_increment junk_el oob mem ic ino = Some (EXT2_ET_NO_MEMORY, None, ic') /\
                 refused mem ic ic' ino)) /\
   (if decide (c = 0)
    then exists ic', ext2fs_icount_decrement junk_el oob mem ic ino = Some (EXT2_ET_INVALID_ARGUMENT, None, ic') /\
                     unchanged ic ic'
    else (exists ic', ext2fs_icount_decrement junk_el oob mem ic ino = Some (0, Some (icount_16_xlate (c - 1)), ic') /\
                      updated ic ic' ino (c - 1)) \/
         (exists ic', ext2fs_icount_decrement junk_el oob mem ic ino = Some (EXT2_ET_NO_MEMORY, None, ic') /\
                      is_Some (ic_tdb ic) /\ (unchanged ic ic' \/ updated ic ic' ino 0))) /\
   (forall v, exists err ic', ext2fs_icount_store junk_el oob mem ic ino v = Some (err, ic') /\
      (err = 0 /\ updated ic ic' ino v \/ err = EXT2_ET_NO_MEMORY /\ refused mem ic ic' ino))) /\
  (ino = 0 \/ ic_num_inodes ic < ino ->
   ext2fs_icount_fetch junk_el oob ic ino = Some (EXT2_ET_INVALID_ARGUMENT, None, ic) /\
   ext2fs_icount_increment junk_el oob mem ic ino = Some (EXT2_ET_INVALID_ARGUMENT, None, ic) /\
   ext2fs_icount_decrement junk_el oob mem ic ino = Some (EXT2_ET_INVALID_ARGUMENT, None, ic) /\
   forall v, ext2fs_icount_store junk_el oob mem ic ino v = Some (EXT2_ET_INVALID_ARGUMENT, ic)).
Proof.
  intros Hwf. split.
  - intros Hi Hdb. cbv zeta. split_and!.
    + by apply fetch_ok.
    + by apply increment_ok.
    + by apply decrement_ok.
    + intros v. by apply store_ok.
  - intros Hi. assert (Hb : bad_ino ic ino = true).
    { unfold bad_ino. apply orb_true_iff. rewrite !bool_decide_eq_true. lia. }
    unfold ext2fs_icount_fetch, ext2fs_icount_increment, ext2fs_icount_decrement, ext2fs_icount_store. rewrite Hb.
    destruct (decide (ic_magic ic <> _)) as [Hx|_]; [by rewrite (cw_magic _ Hwf) in Hx|]. done.
Qed.

(** A failed fetch is taken for a count of 0: whatever the database holds, [ext2fs_icount_fetch]
    returns 0 and reports no links. *)
Theorem fetch_failure_ignored (ic : icount T D) ino d :
  ic_wf ic -> 1 <= ino <= ic_num_inodes ic -> gmem (ic_single ic) ino = false -> has_multiple ic = false ->
  ic_tdb ic = Some d -> (tdb_fetch d ino).1 = None ->
  exists ic', ext2fs_icount_fetch junk_el oob ic ino = Some (0, Some 0, ic').
Proof.
  intros Hwf Hi Hs Hm Hd Hf. unfold ext2fs_icount_fetch.
  rewrite decide_False by (rewrite (cw_magic _ Hwf); tauto).
  rewrite (bad_ino_false _ _ Hi), (cw_full _ Hwf), test_single_ok, Hs, Hm by done. cbn [andb].
  unfold get_inode_count. rewrite Hd. destruct (tdb_fetch d ino) as [v d']. cbn in Hf. subst v. by eexists.
Qed.
End create.

(** * The full map *)

Section full.
Context {T : Type} `{!BitmapOps T} {D : Type} `{!TdbOps D}.
Variable junk_el : icount_el.
Variable oob : Z.

(** The full map has one element per inode but is indexed by the inode number, from 1
    on: an increment saturates at 65500 and touches one element for every inode but the last, whose count is beyond the
    end of the array. *)
Theorem fullmap_last_inode_overrun new_bitmap n mem (ic : icount T D) :
  1 <= n < 2 ^ 31 ->
  alloc_icount new_bitmap (true, true) n (Z.lor EXT2_ICOUNT_OPT_FULLMAP EXT2_ICOUNT_OPT_INCREMENT) = inr ic ->
  ext2fs_icount_increment junk_el oob mem ic n = None /\
  ext2fs_icount_fetch junk_el oob ic n = None /\
  forall ino, 1 <= ino < n ->
    ext2fs_icount_increment junk_el oob mem ic ino =
      Some (0, Some 1, ic_set_fullmap (<[Z.to_nat ino := 1]> (replicate (Z.to_nat n) 0)) ic).
Proof.
  intros Hn. unfold alloc_icount. cbn [negb fst snd]. rewrite decide_True by (split_and!; vm_compute; done).
  intros [= <-]. rewrite (u32_small (2 * n)) by (unfold in_u; lia). rewrite Z.mul_comm, Z.div_mul by lia.
  set (f := replicate (Z.to_nat n) 0). set (ic := ic_set_fullmap f _).
  assert (Hf : ic_fullmap ic = Some f) by done.
  assert (Hlen : length f = Z.to_nat n) by apply length_replicate.
  assert (Hb : forall ino, 1 <= ino <= n -> bad_ino ic ino = false).
  { intros ino Hi. unfold bad_ino. cbn. rewrite !bool_decide_eq_false_2 by lia. done. }
  unfold ext2fs_icount_increment, ext2fs_icount_fetch, get_inode_count.
  rewrite Hb by lia. rewrite Hf. change (ic_tdb ic) with (None : option D). cbv beta iota.
  rewrite decide_False by (by intros []). unfold full_get.
  rewrite (lookup_ge_None_2 f) by lia. split; [done|]. split; [done|]. intros ino Hi. rewrite Hb by lia.
  assert (Hl : f !! Z.to_nat ino = Some 0) by (apply lookup_replicate_2; lia). rewrite Hl. cbn [mbind option_bind]. unfold full_set.
  rewrite decide_False by (by intros []). rewrite decide_True by (rewrite Hlen; lia). done.
Qed.
End full.

(** * A database, and the test program of [icount.c] *)

(** A database with room for three records, which keeps its contents in memory. *)
#[export] Instance map_tdb : TdbOps (gmap Z Z) := {
  tdb_store d k v := if decide (is_Some (d !! k) \/ (size d < 3)%nat) then (0, <[k := v]> d) else (-1, d);
  tdb_delete d k := if d !! k is Some _ then (0, delete k d) else (-1, d);
  tdb_fetch d k := (d !! k, d);
  tdb_error _ := 8
}.

#[export] Program Instance map_tdb_laws : TdbLaws (gmap Z Z) := { tdb_view d k := d !! k }.
Next Obligation.
  intros d k v. cbn. destruct (decide _); [|split; [done|]; right; split; [done|by left]].
  split; [intros k' Hne; by rewrite lookup_insert_ne|]. left. by rewrite lookup_insert_eq.
Qed.
Next Obligation.
  intros d k. cbn. destruct (d !! k) eqn:Hk; [|split; [done|]; right; split; [done|by left]].
  split; [intros k' Hne; by rewrite lookup_delete_ne|]. left. by rewrite lookup_delete_eq.
Qed.
Next Obligation. intros d k. cbn. split; [by left|done]. Qed.
Next Obligation. intros d. cbn. lia. Qed.

Module Demo.
#[local] Existing Instances demo_ops demo_laws.

(** A file system of 60 inodes. *)
Definition bits : bmap := Eval vm_compute in (ba_new_bmap demo_junk true (mkBmap 1 60 64 [])).2.
Definition new_bitmap (_ : bool) : Z + generic_bitmap bmap := inr (B64 Kinode 0 bits).
Definition fresh (flags : Z) (hint : option (icount bmap (gmap Z Z))) : Z + icount bmap (gmap Z Z) :=
  ext2fs_create_icount2 new_bitmap (true, false) true (inr 3) 60 flags 2 hint.

Inductive command := FETCH | STORE | INCREMENT | DECREMENT.

(** One line of a test program: the value it reports. *)
Definition step (c : command) (ino arg : Z) (ic : icount bmap (gmap Z Z)) : option (Z * icount bmap (gmap Z Z)) :=
  let value r := match r with Some (0, Some v, ic) => Some (v, ic) | _ => None end in
  match c with
  | FETCH => value (ext2fs_icount_fetch (7, 7) 0 ic ino)
  | INCREMENT => value (ext2fs_icount_increment (7, 7) 0 true ic ino)
  | DECREMENT => value (ext2fs_icount_decrement (7, 7) 0 true ic ino)
  | STORE => match ext2fs_icount_store (7, 7) 0 true ic ino arg with Some (0, ic) => Some (arg, ic) | _ => None end
  end.

Fixpoint run (p : list (command * Z * Z * Z)) (ic : icount bmap (gmap Z Z)) : bool :=
  match p with
  | [] => bool_decide (ext2fs_icount_validate ic = 0)
  | (c, ino, arg, expected) :: p' =>
      match step c ino arg ic with
      | Some (v, ic) => bool_decide (v = expected) && run p' ic
      | None => false
      end
  end.

(** [prog] of [icount.c] *)
Definition prog : list (command * Z * Z * Z) :=
  [(STORE, 42, 42, 42); (STORE, 1, 1, 1); (STORE, 2, 2, 2); (STORE, 3, 3, 3); (STORE, 10, 1, 1); (STORE, 42, 0, 0);
   (INCREMENT, 5, 0, 1); (INCREMENT, 5, 0, 2); (INCREMENT, 5, 0, 3); (INCREMENT, 5, 0, 4);
   (DECREMENT, 5, 0, 3); (DECREMENT, 5, 0, 2); (DECREMENT, 5, 0, 1); (DECREMENT, 5, 0, 0);
   (FETCH, 10, 0, 1); (FETCH, 1, 0, 1); (FETCH, 2, 0, 2); (FETCH, 3, 0, 3);
   (INCREMENT, 1, 0, 2); (DECREMENT, 2, 0, 1); (DECREMENT, 2, 0, 0); (FETCH, 12, 0, 0)].

(** The test program passes in both modes. *)
Example prog_passes : forall flags, flags = 0 \/ flags = EXT2_ICOUNT_OPT_INCREMENT ->
  match fresh flags None with inr ic => run prog ic = true | inl _ => False end.
Proof. intros flags [->| ->]; vm_compute; reflexivity. Qed.

Lemma bits_wf : ba_wf bits.
Proof.
  split; [vm_compute; split; discriminate|split; [vm_compute; discriminate|vm_compute; reflexivity]| |vm_compute; discriminate].
  apply bytes_check. vm_compute. reflexivity.
Qed.

Lemma bits_empty : empty_bitmap 60 (B64 Kinode 0 bits : generic_bitmap bmap).
Proof.
  split; [split; [split; [exact bits_wf|lia]|intros n; apply Z.shiftr_0_r|intros n Hn; change (1 <= n <= 60); lia]|].
  intros k Hk. change (ba_mem bits k = false).
  assert (Hall : forallb (fun k => negb (ba_mem bits k)) (seqZ 1 60) = true) by (vm_compute; reflexivity).
  rewrite forallb_forall in Hall. apply negb_true_iff, Hall, list_elem_of_In, elem_of_seqZ. lia.
Qed.

(** Fresh counts with the second bitmap. *)
Definition ic0 : icount bmap (gmap Z Z) :=
  mkIc EXT2_ET_MAGIC_ICOUNT (B64 Kinode 0 bits) (B64 Kinode 0 bits) 60 (mkIl 0 2 0 (Some [(0, 0); (0, 0)]) None) None None.

Lemma create_icount_spec_witness :
  fresh EXT2_ICOUNT_OPT_INCREMENT None = inr ic0 /\
  ic_wf ic0 /\ ic_num_inodes ic0 = 60 /\ forall k, 1 <= k <= 60 -> link_count ic0 k = 0.
Proof.
  split; [vm_compute; reflexivity|].
  apply (create_icount_spec new_bitmap (inr 3) 60 EXT2_ICOUNT_OPT_INCREMENT 2 None ic0).
  - lia.
  - lia.
  - intros b h [= <-]. exact bits_empty.
  - done.
  - vm_compute. reflexivity.
Defined.

Lemma ic0_wf : ic_wf ic0.
Proof.
  split; [done|cbn; lia|done|exact (proj1 bits_empty)|intros _; exact (proj1 bits_empty)|].
  intros _. exists [(0, 0); (0, 0)]. split; [done|done|cbn; lia|constructor|constructor|done].
Qed.

(** Counts in the database, without the second bitmap, after three stores that fill it. *)
Definition on_db (d : gmap Z Z) : icount bmap (gmap Z Z) :=
  mkIc EXT2_ET_MAGIC_ICOUNT (B64 Kinode 0 bits) Bnull 60 (mkIl 0 0 0 None None) (Some d) None.
Definition filled : gmap Z Z := <[11 := 2]> (<[9 := 3]> (<[5 := 7]> ∅)).

Example fill_db :
  ('(_, ic) ← ext2fs_icount_store (7, 7) 0 true (on_db ∅) 5 7;
   '(_, ic) ← ext2fs_icount_store (7, 7) 0 true ic 9 3;
   ext2fs_icount_store (7, 7) 0 true ic 11 2) = Some (0, on_db filled).
Proof. vm_compute. reflexivity. Qed.

Lemma on_db_wf d : ic_wf (on_db d).
Proof. split; [done|cbn; lia|done|exact (proj1 bits_empty)|done|done]. Qed.

Lemma on_db_ok d ino : db_ok (on_db d) ino.
Proof.
  intros d' [= <-]. split; [done|]. cbn. destruct (d !! ino) eqn:Hd; [apply lookup_delete_eq|done].
Qed.

(** The counts 7 of inode 5 and 3 of inode 9, a new inode 20 for which the database has no room, and
    an inode that does not exist. *)
Lemma icount_refines_map_witness :
  link_count (on_db filled) 5 = 7 /\
  (exists ic', ext2fs_icount_fetch (7, 7) 0 (on_db filled) 5 = Some (0, Some 7, ic') /\ unchanged (on_db filled) ic') /\
  (exists ic', ext2fs_icount_increment (7, 7) 0 true (on_db filled) 5 = Some (0, Some 8, ic') /\ updated (on_db filled) ic' 5 8) /\
  (exists ic', ext2fs_icount_decrement (7, 7) 0 true (on_db filled) 9 = Some (0, Some 2, ic') /\ updated (on_db filled) ic' 9 2) /\
  (exists ic', ext2fs_icount_store (7, 7) 0 true (on_db filled) 20 4 = Some (EXT2_ET_NO_MEMORY, ic') /\
               refused true (on_db filled) ic' 20) /\
  ext2fs_icount_fetch (7, 7) 0 (on_db filled) 61 = Some (EXT2_ET_INVALID_ARGUMENT, None, on_db filled).
Proof.
  destruct (icount_refines_map (7, 7) 0 (on_db filled) 5 true (on_db_wf _)) as [H5 _].
  specialize (H5 ltac:(cbn; lia) (on_db_ok _ _)). cbv zeta in H5. destruct H5 as (F5 & I5 & _).
  destruct (icount_refines_map (7, 7) 0 (on_db filled) 9 true (on_db_wf _)) as [H9 _].
  specialize (H9 ltac:(cbn; lia) (on_db_ok _ _)). cbv zeta in H9. destruct H9 as (_ & _ & D9 & _).
  destruct (icount_refines_map (7, 7) 0 (on_db filled) 20 true (on_db_wf _)) as [H20 _].
  specialize (H20 ltac:(cbn; lia) (on_db_ok _ _)). cbv zeta in H20. destruct H20 as (_ & _ & _ & S20).
  destruct (icount_refines_map (7, 7) 0 (on_db filled) 61 true (on_db_wf _)) as [_ H61].
  assert (E5 : link_count (on_db filled) 5 = 7) by (vm_compute; reflexivity).
  assert (E9 : link_count (on_db filled) 9 = 3) by (vm_compute; reflexivity).
  rewrite E5 in F5, I5. rewrite E9 in D9. split_and!.
  - exact E5.
  - exact F5.
  - destruct I5 as [I5|(ic' & Hf & _)]; [exact I5|vm_compute in Hf; discriminate].
  - destruct D9 as [D9|(ic' & Hf & _)]; [exact D9|vm_compute in Hf; discriminate].
  - destruct (S20 4) as (err & ic' & Hf & [[-> _]|[-> Hr]]); [vm_compute in Hf; discriminate|]. by exists ic'.
  - apply H61. right. cbn. lia.
Defined.

Definition full_ic : icount bmap (gmap Z Z) :=
  mkIc EXT2_ET_MAGIC_ICOUNT Bnull Bnull 60 (mkIl 0 0 0 None None) None (Some (replicate 60 0)).

Lemma fullmap_last_inode_overrun_witness :
  ext2fs_icount_increment (T := bmap) (D := gmap Z Z) (7, 7) 0 true full_ic 60 = None.
Proof.
  refine (proj1 (fullmap_last_inode_overrun (7, 7) 0 new_bitmap 60 true full_ic _ _)); [lia|].
  vm_compute. reflexivity.
Defined.
End Demo.
