(* ===== verification/BlkNum.v ===== *)
(** Block numbers and counters split into low and high halves:
    [rfsck-ext/lib/ext2fs/blknum.c] and [i_block.c].

    The superblock and the inode are records of the fields used; the table of group
    descriptors is the array of bytes the code has, so that descriptors of different
    sizes and fields that overlap are what they are in memory. *)
From Stdlib Require Import ZArith Lia.
From stdpp Require Import base tactics numbers list.
From S2P Require Import Prelude ExtErr.

(** * State *)

Record super_block := mkSb {
  s_blocks_count : Z; s_blocks_count_hi : Z;
  s_r_blocks_count : Z; s_r_blocks_count_hi : Z;
  s_free_blocks_count : Z; s_free_blocks_hi : Z;
  s_first_data_block : Z;
  s_blocks_per_group : Z;
  s_log_cluster_size : Z;
  s_desc_size : Z;
  s_feature_incompat : Z;
  s_feature_ro_compat : Z;
  s_rev_level : Z;
  s_first_ino : Z;
  s_inode_size : Z
}.

Record filsys := mkFs {
  fs_super : super_block;
  fs_group_desc : list Z;        (* the table, byte by byte *)
  fs_group_desc_count : Z;
  fs_blocksize : Z;
  fs_cluster_ratio_bits : Z;
  fs_flags : Z
}.

Record inode := mkInode {
  i_mode : Z;
  i_size : Z; i_size_high : Z;
  i_blocks : Z; l_i_blocks_hi : Z;
  i_flags : Z;
  i_file_acl : Z; l_i_file_acl_high : Z
}.

(** Feature tests: [ext2fs_has_feature_64bit] and the like. *)
Definition has_feature_64bit (s : super_block) : bool :=
  bool_decide (Z.land (s_feature_incompat s) 0x80 <> 0).
Definition has_feature_huge_file (s : super_block) : bool :=
  bool_decide (Z.land (s_feature_ro_compat s) 0x8 <> 0).
Definition has_feature_large_file (s : super_block) : bool :=
  bool_decide (Z.land (s_feature_ro_compat s) 0x2 <> 0).

(** * Group geometry *)

Definition ext2fs_blocks_count (s : super_block) : Z :=
  Z.lor (s_blocks_count s) (if has_feature_64bit s then Z.shiftl (s_blocks_count_hi s) 32 else 0).

Definition ext2fs_group_of_blk2 (fs : filsys) (blk : Z) : Z :=
  u32 (u64 (blk - s_first_data_block (fs_super fs)) / s_blocks_per_group (fs_super fs)).

Definition ext2fs_group_first_block2 (fs : filsys) (group : Z) : Z :=
  u64 (s_first_data_block (fs_super fs) + u64 (s_blocks_per_group (fs_super fs) * group)).

Definition ext2fs_group_last_block2 (fs : filsys) (group : Z) : Z :=
  if decide (group = u32 (fs_group_desc_count fs - 1))
  then u64 (ext2fs_blocks_count (fs_super fs) - 1)
  else u64 (ext2fs_group_first_block2 fs group + u32 (s_blocks_per_group (fs_super fs) - 1)).

Definition ext2fs_group_blocks_count (fs : filsys) (group : Z) : Z :=
  if decide (group = u32 (fs_group_desc_count fs - 1))
  then
    let num_blocks :=
      s32 (u64 (ext2fs_blocks_count (fs_super fs) - s_first_data_block (fs_super fs))
           mod s_blocks_per_group (fs_super fs)) in
    if decide (num_blocks = 0) then s32 (s_blocks_per_group (fs_super fs)) else num_blocks
  else s32 (s_blocks_per_group (fs_super fs)).

(** * Superblock counters *)

Definition ext2fs_blocks_count_set (s : super_block) (blk : Z) : super_block :=
  mkSb (u32 blk)
       (if has_feature_64bit s then u32 (Z.shiftr blk 32) else s_blocks_count_hi s)
       (s_r_blocks_count s) (s_r_blocks_count_hi s) (s_free_blocks_count s) (s_free_blocks_hi s)
       (s_first_data_block s) (s_blocks_per_group s) (s_log_cluster_size s) (s_desc_size s)
       (s_feature_incompat s) (s_feature_ro_compat s) (s_rev_level s) (s_first_ino s) (s_inode_size s).

Definition ext2fs_blocks_count_add (s : super_block) (blk : Z) : super_block :=
  ext2fs_blocks_count_set s (u64 (ext2fs_blocks_count s + blk)).

Definition ext2fs_r_blocks_count (s : super_block) : Z :=
  Z.lor (s_r_blocks_count s) (if has_feature_64bit s then Z.shiftl (s_r_blocks_count_hi s) 32 else 0).

Definition ext2fs_r_blocks_count_set (s : super_block) (blk : Z) : super_block :=
  mkSb (s_blocks_count s) (s_blocks_count_hi s)
       (u32 blk)
       (if has_feature_64bit s then u32 (Z.shiftr blk 32) else s_r_blocks_count_hi s)
       (s_free_blocks_count s) (s_free_blocks_hi s)
       (s_first_data_block s) (s_blocks_per_group s) (s_log_cluster_size s) (s_desc_size s)
       (s_feature_incompat s) (s_feature_ro_compat s) (s_rev_level s) (s_first_ino s) (s_inode_size s).

Definition ext2fs_r_blocks_count_add (s : super_block) (blk : Z) : super_block :=
  ext2fs_r_blocks_count_set s (u64 (ext2fs_r_blocks_count s + blk)).

Definition ext2fs_free_blocks_count (s : super_block) : Z :=
  Z.lor (s_free_blocks_count s) (if has_feature_64bit s then Z.shiftl (s_free_blocks_hi s) 32 else 0).

Definition ext2fs_free_blocks_count_set (s : super_block) (blk : Z) : super_block :=
  mkSb (s_blocks_count s) (s_blocks_count_hi s) (s_r_blocks_count s) (s_r_blocks_count_hi s)
       (u32 blk)
       (if has_feature_64bit s then u32 (Z.shiftr blk 32) else s_free_blocks_hi s)
       (s_first_data_block s) (s_blocks_per_group s) (s_log_cluster_size s) (s_desc_size s)
       (s_feature_incompat s) (s_feature_ro_compat s) (s_rev_level s) (s_first_ino s) (s_inode_size s).

Definition ext2fs_free_blocks_count_add (s : super_block) (blk : Z) : super_block :=
  ext2fs_free_blocks_count_set s (u64 (ext2fs_free_blocks_count s + blk)).

(** * Group descriptors *)

Definition desc_size (s : super_block) : Z :=
  Z.land (if has_feature_64bit s then s_desc_size s else 32) (Z.lnot 7).

(** [ext2fs_group_desc]: the offset of the descriptor in the table; the product is an
    [unsigned int]. *)
Definition ext2fs_group_desc (fs : filsys) (group : Z) : Z := u32 (group * desc_size (fs_super fs)).

(** A field of [w] bytes at offset [o] of the descriptor of a group. *)
Definition gd_read (w o : Z) (fs : filsys) (group : Z) : Z :=
  le_val (zslice (ext2fs_group_desc fs group + o) w (fs_group_desc fs)).

Definition gd_write (w o v : Z) (fs : filsys) (group : Z) : filsys :=
  mkFs (fs_super fs)
       (zsplice (ext2fs_group_desc fs group + o) (le_bytes (Z.to_nat w) v) (fs_group_desc fs))
       (fs_group_desc_count fs) (fs_blocksize fs) (fs_cluster_ratio_bits fs) (fs_flags fs).

(** A value in a low and a high field of [w] bytes each; the high one is used on a file
    system with the 64bit feature only. *)
Definition gd_get2 (w lo hi : Z) (fs : filsys) (group : Z) : Z :=
  Z.lor (gd_read w lo fs group)
        (if has_feature_64bit (fs_super fs) then Z.shiftl (gd_read w hi fs group) (8 * w) else 0).

Definition gd_set2 (w lo hi : Z) (fs : filsys) (group v : Z) : filsys :=
  let fs := gd_write w lo v fs group in
  if has_feature_64bit (fs_super fs) then gd_write w hi (Z.shiftr v (8 * w)) fs group else fs.

(** The accessors, at the offsets of [struct ext4_group_desc]. *)
Definition ext2fs_block_bitmap_checksum (fs : filsys) (group : Z) : Z :=
  let csum := gd_read 2 24 fs group in
  if decide (s_desc_size (fs_super fs) >= 58) then Z.lor csum (Z.shiftl (gd_read 2 56 fs group) 16) else csum.

Definition ext2fs_block_bitmap_loc (fs : filsys) (group : Z) : Z := gd_get2 4 0 32 fs group.
Definition ext2fs_block_bitmap_loc_set (fs : filsys) (group blk : Z) : filsys := gd_set2 4 0 32 fs group blk.

Definition ext2fs_inode_bitmap_checksum (fs : filsys) (group : Z) : Z :=
  let csum := gd_read 2 26 fs group in
  if decide (s_desc_size (fs_super fs) >= 60) then Z.lor csum (Z.shiftl (gd_read 2 58 fs group) 16) else csum.

Definition ext2fs_inode_bitmap_loc (fs : filsys) (group : Z) : Z := gd_get2 4 4 36 fs group.
Definition ext2fs_inode_bitmap_loc_set (fs : filsys) (group blk : Z) : filsys := gd_set2 4 4 36 fs group blk.
Definition ext2fs_inode_table_loc (fs : filsys) (group : Z) : Z := gd_get2 4 8 40 fs group.
Definition ext2fs_inode_table_loc_set (fs : filsys) (group blk : Z) : filsys := gd_set2 4 8 40 fs group blk.
Definition ext2fs_bg_free_blocks_count (fs : filsys) (group : Z) : Z := gd_get2 2 12 44 fs group.
Definition ext2fs_bg_free_blocks_count_set (fs : filsys) (group n : Z) : filsys := gd_set2 2 12 44 fs group n.
Definition ext2fs_bg_free_inodes_count (fs : filsys) (group : Z) : Z := gd_get2 2 14 46 fs group.
Definition ext2fs_bg_free_inodes_count_set (fs : filsys) (group n : Z) : filsys := gd_set2 2 14 46 fs group n.
Definition ext2fs_bg_used_dirs_count (fs : filsys) (group : Z) : Z := gd_get2 2 16 48 fs group.
Definition ext2fs_bg_used_dirs_count_set (fs : filsys) (group n : Z) : filsys := gd_set2 2 16 48 fs group n.
Definition ext2fs_bg_itable_unused (fs : filsys) (group : Z) : Z := gd_get2 2 28 50 fs group.
Definition ext2fs_bg_itable_unused_set (fs : filsys) (group n : Z) : filsys := gd_set2 2 28 50 fs group n.

Definition ext2fs_bg_flags (fs : filsys) (group : Z) : Z := gd_read 2 18 fs group.
Definition ext2fs_bg_flags_zap (fs : filsys) (group : Z) : filsys := gd_write 2 18 0 fs group.
Definition ext2fs_bg_flags_test (fs : filsys) (group bg_flag : Z) : Z := Z.land (gd_read 2 18 fs group) bg_flag.
Definition ext2fs_bg_flags_set (fs : filsys) (group bg_flags : Z) : filsys :=
  gd_write 2 18 (Z.lor (gd_read 2 18 fs group) bg_flags) fs group.
Definition ext2fs_bg_flags_clear (fs : filsys) (group bg_flags : Z) : filsys :=
  gd_write 2 18 (u16 (Z.land (gd_read 2 18 fs group) (Z.lnot bg_flags))) fs group.
Definition ext2fs_bg_checksum (fs : filsys) (group : Z) : Z := gd_read 2 30 fs group.
Definition ext2fs_bg_checksum_set (fs : filsys) (group checksum : Z) : filsys := gd_write 2 30 checksum fs group.

(** * Inodes *)

Definition ext2fs_inode_i_blocks (fs : filsys) (ino : inode) : Z :=
  Z.lor (i_blocks ino)
        (if has_feature_huge_file (fs_super fs) then Z.shiftl (l_i_blocks_hi ino) 32 else 0).

Definition ext2fs_inode_data_blocks2 (fs : filsys) (ino : inode) : Z :=
  u64 (Z.lor (i_blocks ino)
             (if has_feature_huge_file (fs_super fs) then Z.shiftl (l_i_blocks_hi ino) 32 else 0)
       - (if decide (i_file_acl ino <> 0)
          then Z.shiftr (Z.shiftl 1024 (s_log_cluster_size (fs_super fs))) 9 else 0)).

(** [fs] may be null. *)
Definition ext2fs_file_acl_block (fs : option filsys) (ino : inode) : Z :=
  let blk := i_file_acl ino in
  if (match fs with Some fs => has_feature_64bit (fs_super fs) | None => false end)
  then Z.lor blk (Z.shiftl (l_i_file_acl_high ino) 32) else blk.

Definition ext2fs_file_acl_block_set (fs : option filsys) (ino : inode) (blk : Z) : inode :=
  mkInode (i_mode ino) (i_size ino) (i_size_high ino) (i_blocks ino) (l_i_blocks_hi ino) (i_flags ino)
          (u32 blk)
          (if (match fs with Some fs => has_feature_64bit (fs_super fs) | None => false end)
           then u16 (Z.shiftr blk 32) else l_i_file_acl_high ino).

Definition LINUX_S_ISREG (m : Z) : bool := bool_decide (Z.land m 0xf000 = 0x8000).

(** [ext2fs_update_dynamic_rev] of [closefs.c]. *)
Definition ext2fs_update_dynamic_rev (s : super_block) : super_block :=
  if decide (s_rev_level s > 0) then s
  else mkSb (s_blocks_count s) (s_blocks_count_hi s) (s_r_blocks_count s) (s_r_blocks_count_hi s)
            (s_free_blocks_count s) (s_free_blocks_hi s)
            (s_first_data_block s) (s_blocks_per_group s) (s_log_cluster_size s) (s_desc_size s)
            (s_feature_incompat s) (s_feature_ro_compat s) 1 11 128.

Definition set_feature_large_file (s : super_block) : super_block :=
  mkSb (s_blocks_count s) (s_blocks_count_hi s) (s_r_blocks_count s) (s_r_blocks_count_hi s)
       (s_free_blocks_count s) (s_free_blocks_hi s)
       (s_first_data_block s) (s_blocks_per_group s) (s_log_cluster_size s) (s_desc_size s)
       (s_feature_incompat s) (Z.lor (s_feature_ro_compat s) 0x2) (s_rev_level s) (s_first_ino s) (s_inode_size s).

Definition ext2fs_inode_size_set (fs : filsys) (ino : inode) (size : Z) : Z * filsys * inode :=
  if negb (LINUX_S_ISREG (i_mode ino)) && bool_decide (Z.shiftr size 32 <> 0)
  then (EXT2_ET_FILE_TOO_BIG, fs, ino)
  else
    let fs :=
      if LINUX_S_ISREG (i_mode ino) && bool_decide (size >= 0x80000000)
         && (negb (has_feature_large_file (fs_super fs)) || bool_decide (s_rev_level (fs_super fs) = 0))
      then mkFs (ext2fs_update_dynamic_rev (set_feature_large_file (fs_super fs)))
                (fs_group_desc fs) (fs_group_desc_count fs) (fs_blocksize fs) (fs_cluster_ratio_bits fs)
                (Z.lor (fs_flags fs) 0x6)
      else fs in
    (0, fs, mkInode (i_mode ino) (Z.land size 0xffffffff) (u32 (Z.shiftr size 32))
                    (i_blocks ino) (l_i_blocks_hi ino) (i_flags ino) (i_file_acl ino) (l_i_file_acl_high ino)).

(** ** [i_block.c] *)

Definition set_iblk (ino : inode) (lo hi : Z) : inode :=
  mkInode (i_mode ino) (i_size ino) (i_size_high ino) lo hi (i_flags ino) (i_file_acl ino) (l_i_file_acl_high ino).

(** The number of units [i_blocks] counts for [num_blocks] clusters. *)
Definition iblk_units (fs : filsys) (ino : inode) (num_blocks : Z) : Z :=
  let num_blocks :=
    if negb (has_feature_huge_file (fs_super fs)) || bool_decide (Z.land (i_flags ino) 0x40000 = 0)
    then u64 (num_blocks * (fs_blocksize fs / 512)) else num_blocks in
  u64 (num_blocks * Z.shiftl 1 (fs_cluster_ratio_bits fs)).

Definition iblk_value (fs : filsys) (ino : inode) : Z :=
  u64 (i_blocks ino + (if has_feature_huge_file (fs_super fs) then Z.shiftl (l_i_blocks_hi ino) 32 else 0)).

Definition ext2fs_iblk_add_blocks (fs : filsys) (ino : inode) (num_blocks : Z) : Z * inode :=
  let b := u64 (iblk_value fs ino + iblk_units fs ino num_blocks) in
  if has_feature_huge_file (fs_super fs)
  then (0, set_iblk ino (Z.land b 0xffffffff) (u16 (Z.shiftr b 32)))
  else if decide (b > 0xffffffff) then (EOVERFLOW, ino)
  else (0, set_iblk ino (Z.land b 0xffffffff) (l_i_blocks_hi ino)).

Definition ext2fs_iblk_sub_blocks (fs : filsys) (ino : inode) (num_blocks : Z) : Z * inode :=
  let b := iblk_value fs ino in
  let num_blocks := iblk_units fs ino num_blocks in
  if decide (num_blocks > b) then (EOVERFLOW, ino)
  else
    let b := u64 (b - num_blocks) in
    (0, set_iblk ino (Z.land b 0xffffffff)
          (if has_feature_huge_file (fs_super fs) then u16 (Z.shiftr b 32) else l_i_blocks_hi ino)).

Definition ext2fs_iblk_set (fs : filsys) (ino : inode) (b : Z) : Z * inode :=
  let b := iblk_units fs ino b in
  if has_feature_huge_file (fs_super fs)
  then (0, set_iblk ino (Z.land b 0xffffffff) (u16 (Z.shiftr b 32)))
  else (if decide (Z.shiftr b 32 <> 0) then EOVERFLOW else 0,
        set_iblk ino (Z.land b 0xffffffff) (l_i_blocks_hi ino)).
