(* ===== verification/BlkNumProofs.v ===== *)
(** Correctness of the split counters, the group descriptors and the group geometry. *)
From Stdlib Require Import ZArith Lia.
From stdpp Require Import base tactics numbers list.
From S2P Require Import Prelude ExtErr BlkNum.

(** * Halves *)

Lemma lor_shiftl lo hi k : 0 <= k -> 0 <= lo < 2 ^ k -> Z.lor lo (Z.shiftl hi k) = lo + hi * 2 ^ k.
Proof.
  intros Hk Hlo. rewrite <- Z.add_lor_land, <- Z.shiftl_mul_pow2 by lia.
  replace (Z.land lo (Z.shiftl hi k)) with 0; [lia|]. symmetry. apply Z.bits_inj'. intros i Hi.
  rewrite Z.land_spec, Z.bits_0. destruct (decide (i < k)).
  - rewrite Z.shiftl_spec_low by lia. apply andb_false_r.
  - rewrite (in_u_testbit k lo) by (done || lia). done.
Qed.

(** The two halves of a value. *)
Lemma halves v k : 0 <= k -> v mod 2 ^ k + Z.shiftr v k mod 2 ^ k * 2 ^ k = v mod 2 ^ (2 * k).
Proof.
  intros Hk. rewrite Z.shiftr_div_pow2 by lia. replace (2 * k) with (k + k) by lia. rewrite Z.pow_add_r by lia.
  assert (0 < 2 ^ k) by (apply Z.pow_pos_nonneg; lia). rewrite Z.rem_mul_r by lia. lia.
Qed.

Lemma join_halves v k :
  0 <= k -> Z.lor (v mod 2 ^ k) (Z.shiftl (Z.shiftr v k mod 2 ^ k) k) = v mod 2 ^ (2 * k).
Proof.
  intros Hk. rewrite lor_shiftl, halves; try done. apply Z.mod_pos_bound, Z.pow_pos_nonneg; lia.
Qed.

(** The width of a counter: 64 bits with the 64bit feature, 32 without. *)
Definition counter_bits (s : super_block) : Z := if has_feature_64bit s then 64 else 32.

Lemma counter_join (b : bool) v hi :
  Z.lor (u32 v) (if b then Z.shiftl (if b then u32 (Z.shiftr v 32) else hi) 32 else 0) =
  v mod 2 ^ (if b then 64 else 32).
Proof.
  destruct b.
  - unfold u32. rewrite join_halves by lia. done.
  - by rewrite Z.lor_0_r.
Qed.

(** After [ext2fs_blocks_count_set], [.._r_blocks_count_set] or [.._free_blocks_count_set] the
    counter reads as the value (modulo its width: 64 bits with the 64bit feature, else 32), and
    the two other counters are unchanged. *)
Theorem sb_counters_roundtrip s v :
  (ext2fs_blocks_count (ext2fs_blocks_count_set s v) = v mod 2 ^ counter_bits s /\
   ext2fs_r_blocks_count (ext2fs_blocks_count_set s v) = ext2fs_r_blocks_count s /\
   ext2fs_free_blocks_count (ext2fs_blocks_count_set s v) = ext2fs_free_blocks_count s) /\
  (ext2fs_r_blocks_count (ext2fs_r_blocks_count_set s v) = v mod 2 ^ counter_bits s /\
   ext2fs_blocks_count (ext2fs_r_blocks_count_set s v) = ext2fs_blocks_count s /\
   ext2fs_free_blocks_count (ext2fs_r_blocks_count_set s v) = ext2fs_free_blocks_count s) /\
  (ext2fs_free_blocks_count (ext2fs_free_blocks_count_set s v) = v mod 2 ^ counter_bits s /\
   ext2fs_blocks_count (ext2fs_free_blocks_count_set s v) = ext2fs_blocks_count s /\
   ext2fs_r_blocks_count (ext2fs_free_blocks_count_set s v) = ext2fs_r_blocks_count s).
Proof.
  unfold counter_bits. split_and!; try reflexivity; apply (counter_join (has_feature_64bit s)).
Qed.

(** * Group descriptors *)

Record table_ok (fs : filsys) : Prop := {
  to_desc : has_feature_64bit (fs_super fs) = true -> 64 <= s_desc_size (fs_super fs) < 2 ^ 16;
  to_len : fs_group_desc_count fs * desc_size (fs_super fs) <= zlen (fs_group_desc fs);
  to_u32 : fs_group_desc_count fs * desc_size (fs_super fs) < 2 ^ 32
}.

Lemma land_lnot7 z : Z.land z (Z.lnot 7) = 8 * (z / 8).
Proof.
  rewrite <- Z.ldiff_land. change 7 with (Z.ones 3). rewrite Z.ldiff_ones_r by lia.
  rewrite Z.shiftl_mul_pow2, Z.shiftr_div_pow2 by lia. change (2 ^ 3) with 8. lia.
Qed.

Lemma desc_size_bounds fs :
  table_ok fs -> (if has_feature_64bit (fs_super fs) then 64 else 32) <= desc_size (fs_super fs).
Proof.
  intros [Hd _ _]. unfold desc_size. rewrite land_lnot7. destruct (has_feature_64bit (fs_super fs)).
  - specialize (Hd eq_refl). Z.div_mod_to_equations. lia.
  - by vm_compute.
Qed.

(** Where the descriptor of a group lies. *)
Lemma desc_offset fs g :
  table_ok fs -> 0 <= g < fs_group_desc_count fs ->
  ext2fs_group_desc fs g = g * desc_size (fs_super fs) /\
  (g + 1) * desc_size (fs_super fs) <= zlen (fs_group_desc fs).
Proof.
  intros Hok Hg. pose proof (desc_size_bounds fs Hok) as Hd. destruct Hok as [_ Hl Hu].
  assert (0 < desc_size (fs_super fs)) by (destruct (has_feature_64bit _); lia).
  unfold ext2fs_group_desc. rewrite u32_small by (unfold in_u; nia). split; [done|nia].
Qed.

Lemma zlen_le_bytes w v : 0 <= w -> zlen (le_bytes (Z.to_nat w) v) = w.
Proof. intros. unfold zlen. rewrite length_le_bytes. lia. Qed.

Lemma gd_write_ok w o v fs g :
  table_ok fs -> 0 <= g < fs_group_desc_count fs -> 0 <= o -> 0 <= w -> o + w <= desc_size (fs_super fs) ->
  table_ok (gd_write w o v fs g).
Proof.
  intros Hok Hg Ho Hw Hds. destruct (desc_offset fs g Hok Hg) as [HO HL]. destruct Hok as [H1 H2 H3].
  split; cbn; [done| |done]. rewrite HO, zlen_splice, zlen_le_bytes by nia. nia.
Qed.

Lemma gd_read_write_same w o v fs g :
  0 <= w -> gd_read w o (gd_write w o v fs g) g = v mod 2 ^ (8 * w).
Proof.
  intros Hw. unfold gd_read. cbn. change (ext2fs_group_desc (gd_write w o v fs g) g) with (ext2fs_group_desc fs g).
  rewrite zslice_zsplice_eq by (by apply zlen_le_bytes). rewrite le_val_bytes. do 2 f_equal. lia.
Qed.

Lemma gd_read_write_other w o w' o' v fs g g' :
  table_ok fs -> 0 <= g < fs_group_desc_count fs -> 0 <= g' < fs_group_desc_count fs ->
  0 <= o -> 0 < w -> o + w <= desc_size (fs_super fs) ->
  0 <= o' -> 0 < w' -> o' + w' <= desc_size (fs_super fs) ->
  g <> g' \/ o + w <= o' \/ o' + w' <= o ->
  gd_read w' o' (gd_write w o v fs g) g' = gd_read w' o' fs g'.
Proof.
  intros Hok Hg Hg' Ho Hw Hds Ho' Hw' Hds' Hd. unfold gd_read. cbn.
  change (ext2fs_group_desc (gd_write w o v fs g) g') with (ext2fs_group_desc fs g').
  destruct (desc_offset fs g Hok Hg) as [-> HL]. destruct (desc_offset fs g' Hok Hg') as [-> HL'].
  f_equal. apply zslice_zsplice_disjoint; try nia. rewrite zlen_le_bytes by lia.
  destruct (decide (g = g')) as [->|Hne]; [lia|]. destruct (decide (g < g')); [right|left]; nia.
Qed.

(** The fields of a descriptor and their accessors. *)
Inductive gfield := Fblock_bitmap | Finode_bitmap | Finode_table | Ffree_blocks | Ffree_inodes
  | Fused_dirs | Fitable_unused | Fflags | Fchecksum.

#[global] Instance gfield_eq_dec : EqDecision gfield.
Proof. solve_decision. Defined.

Definition gfield_get (f : gfield) : filsys -> Z -> Z :=
  match f with
  | Fblock_bitmap => ext2fs_block_bitmap_loc
  | Finode_bitmap => ext2fs_inode_bitmap_loc
  | Finode_table => ext2fs_inode_table_loc
  | Ffree_blocks => ext2fs_bg_free_blocks_count
  | Ffree_inodes => ext2fs_bg_free_inodes_count
  | Fused_dirs => ext2fs_bg_used_dirs_count
  | Fitable_unused => ext2fs_bg_itable_unused
  | Fflags => ext2fs_bg_flags
  | Fchecksum => ext2fs_bg_checksum
  end.

Definition gfield_set (f : gfield) : filsys -> Z -> Z -> filsys :=
  match f with
  | Fblock_bitmap => ext2fs_block_bitmap_loc_set
  | Finode_bitmap => ext2fs_inode_bitmap_loc_set
  | Finode_table => ext2fs_inode_table_loc_set
  | Ffree_blocks => ext2fs_bg_free_blocks_count_set
  | Ffree_inodes => ext2fs_bg_free_inodes_count_set
  | Fused_dirs => ext2fs_bg_used_dirs_count_set
  | Fitable_unused => ext2fs_bg_itable_unused_set
  | Fflags => fun fs g v => ext2fs_bg_flags_set (ext2fs_bg_flags_zap fs g) g v
  | Fchecksum => ext2fs_bg_checksum_set
  end.

(** The layout: width, offset of the low part, offset of the high part. *)
Definition layout (f : gfield) : Z * Z * option Z :=
  match f with
  | Fblock_bitmap => (4, 0, Some 32)
  | Finode_bitmap => (4, 4, Some 36)
  | Finode_table => (4, 8, Some 40)
  | Ffree_blocks => (2, 12, Some 44)
  | Ffree_inodes => (2, 14, Some 46)
  | Fused_dirs => (2, 16, Some 48)
  | Fitable_unused => (2, 28, Some 50)
  | Fflags => (2, 18, None)
  | Fchecksum => (2, 30, None)
  end.

(** The byte ranges a field uses on a file system with or without the 64bit feature. *)
Definition slots (f : gfield) (b64 : bool) : list (Z * Z) :=
  let '(w, lo, hi) := layout f in
  (lo, w) :: match hi with Some hi => if b64 then [(hi, w)] else [] | None => [] end.

Definition field_bits (f : gfield) (b64 : bool) : Z :=
  let '(w, _, hi) := layout f in 8 * w * (if b64 && bool_decide (is_Some hi) then 2 else 1).

(** Slots lie inside the descriptor. *)
Lemma slots_fit f b64 p : p ∈ slots f b64 -> 0 <= p.1 /\ 0 < p.2 /\ p.1 + p.2 <= (if b64 then 64 else 32).
Proof.
  intros Hp. destruct f, b64; cbn in Hp; repeat (apply elem_of_cons in Hp as [->|Hp]; [cbn; lia|]);
    by apply elem_of_nil in Hp.
Qed.

(** Slots of different fields do not overlap. *)
Lemma slots_apart f f' b64 p q :
  f <> f' -> p ∈ slots f b64 -> q ∈ slots f' b64 -> p.1 + p.2 <= q.1 \/ q.1 + q.2 <= p.1.
Proof.
  intros Hne Hp Hq. destruct f, f'; try done; destruct b64; cbn in Hp, Hq;
    repeat (apply elem_of_cons in Hp as [->|Hp]; [|]); try by apply elem_of_nil in Hp.
  all: repeat (apply elem_of_cons in Hq as [->|Hq]; [cbn; lia|]); by apply elem_of_nil in Hq.
Qed.

(** What a sequence of writes to the slots of a field of group [g] keeps. *)
Definition keeps (f : gfield) (g : Z) (fs fs' : filsys) : Prop :=
  fs_super fs' = fs_super fs /\ fs_group_desc_count fs' = fs_group_desc_count fs /\ table_ok fs' /\
  forall g' p, 0 <= g' < fs_group_desc_count fs ->
    0 <= p.1 -> 0 < p.2 -> p.1 + p.2 <= desc_size (fs_super fs) ->
    g <> g' \/ (forall q, q ∈ slots f (has_feature_64bit (fs_super fs)) -> q.1 + q.2 <= p.1 \/ p.1 + p.2 <= q.1) ->
    gd_read p.2 p.1 fs' g' = gd_read p.2 p.1 fs g'.

Lemma keeps_write f g v fs q :
  table_ok fs -> 0 <= g < fs_group_desc_count fs -> q ∈ slots f (has_feature_64bit (fs_super fs)) ->
  keeps f g fs (gd_write q.2 q.1 v fs g).
Proof.
  intros Hok Hg Hq. pose proof (desc_size_bounds fs Hok) as Hd. destruct (slots_fit _ _ _ Hq) as (Q1 & Q2 & Q3).
  assert (q.1 + q.2 <= desc_size (fs_super fs)) by (destruct (has_feature_64bit (fs_super fs)); lia).
  split_and!; [done|done|apply gd_write_ok; try done; lia|].
  intros g' p Hg' P1 P2 P3 Hdis. apply gd_read_write_other; try done.
  destruct Hdis as [|Hdis]; [by left|right]. by apply Hdis.
Qed.

Lemma keeps_trans f g fs1 fs2 fs3 : keeps f g fs1 fs2 -> keeps f g fs2 fs3 -> keeps f g fs1 fs3.
Proof.
  intros (A1 & A2 & A3 & A4) (B1 & B2 & B3 & B4).
  split_and!; [by rewrite B1|by rewrite B2|done|]. intros g' p Hg' P1 P2 P3 Hdis.
  rewrite B4, A4; try done; rewrite ?A1, ?A2; done.
Qed.

Lemma keeps_set2 f g v fs w lo hi :
  layout f = (w, lo, Some hi) -> table_ok fs -> 0 <= g < fs_group_desc_count fs ->
  keeps f g fs (gd_set2 w lo hi fs g v).
Proof.
  intros Hf Hok Hg. unfold gd_set2. cbn [gd_write fs_super].
  assert (H1 : keeps f g fs (gd_write w lo v fs g)).
  { apply (keeps_write f g v fs (lo, w)); try done. unfold slots. rewrite Hf. apply elem_of_cons. by left. }
  destruct (has_feature_64bit (fs_super fs)) eqn:H64; [|done]. eapply keeps_trans; [exact H1|].
  apply (keeps_write f g _ (gd_write w lo v fs g) (hi, w)); [apply H1|done|].
  unfold slots. rewrite Hf. cbn. rewrite H64. apply elem_of_cons. right. apply elem_of_cons. by left.
Qed.

Lemma keeps_gfield_set f g v fs :
  table_ok fs -> 0 <= g < fs_group_desc_count fs -> keeps f g fs (gfield_set f fs g v).
Proof.
  intros Hok Hg. destruct f; try (by apply keeps_set2).
  - assert (H1 : keeps Fflags g fs (ext2fs_bg_flags_zap fs g)).
    { apply (keeps_write Fflags g 0 fs (18, 2)); try done. apply elem_of_cons. by left. }
    eapply keeps_trans; [exact H1|]. apply (keeps_write Fflags g _ _ (18, 2)); [apply H1|done|].
    apply elem_of_cons. by left.
  - apply (keeps_write Fchecksum g v fs (30, 2)); try done. apply elem_of_cons. by left.
Qed.

(** The value of a field depends on its slots alone. *)
Lemma gfield_get_ext f fs fs' g :
  fs_super fs' = fs_super fs ->
  (forall p, p ∈ slots f (has_feature_64bit (fs_super fs)) -> gd_read p.2 p.1 fs' g = gd_read p.2 p.1 fs g) ->
  gfield_get f fs' g = gfield_get f fs g.
Proof.
  intros Hs Hp.
  assert (H2 : forall w lo hi, layout f = (w, lo, Some hi) -> gd_get2 w lo hi fs' g = gd_get2 w lo hi fs g).
  { intros w lo hi Hf. unfold gd_get2. rewrite Hs. unfold slots in Hp. rewrite Hf in Hp. f_equal.
    - apply (Hp (lo, w)), elem_of_cons. by left.
    - destruct (has_feature_64bit (fs_super fs)); [|done]. f_equal. apply (Hp (hi, w)), elem_of_cons. right.
      apply elem_of_cons. by left. }
  destruct f; try (by apply H2).
  - apply (Hp (18, 2)), elem_of_cons. by left.
  - apply (Hp (30, 2)), elem_of_cons. by left.
Qed.

(** Reading back the two halves. *)
Lemma get2_set2 w lo hi fs g v :
  table_ok fs -> 0 <= g < fs_group_desc_count fs -> 0 <= lo -> 0 < w -> lo + w <= hi ->
  (has_feature_64bit (fs_super fs) = true -> hi + w <= 64) ->
  gd_get2 w lo hi (gd_set2 w lo hi fs g v) g =
  v mod 2 ^ (8 * w * (if has_feature_64bit (fs_super fs) then 2 else 1)).
Proof.
  intros Hok Hg Hlo Hw Hhi H64. pose proof (desc_size_bounds fs Hok) as Hd.
  unfold gd_set2, gd_get2. cbn [gd_write fs_super].
  destruct (has_feature_64bit (fs_super fs)) eqn:E; cbn [gd_write fs_super]; rewrite E.
  - specialize (H64 eq_refl). rewrite (gd_read_write_same w hi) by lia.
    assert (Hok1 : table_ok (gd_write w lo v fs g)) by (apply gd_write_ok; try done; lia).
    rewrite gd_read_write_other by (done || cbn; lia). rewrite gd_read_write_same by lia.
    rewrite join_halves by lia. do 2 f_equal. lia.
  - rewrite Z.lor_0_r, gd_read_write_same by lia. do 2 f_equal. lia.
Qed.

(** Reading a field after storing one. *)
Lemma gfield_get_set f f' fs g g' v :
  table_ok fs -> 0 <= g < fs_group_desc_count fs -> 0 <= g' < fs_group_desc_count fs -> 0 <= v ->
  table_ok (gfield_set f fs g v) /\
  gfield_get f' (gfield_set f fs g v) g' =
    if decide (f' = f /\ g' = g) then v mod 2 ^ field_bits f (has_feature_64bit (fs_super fs))
    else gfield_get f' fs g'.
Proof.
  intros Hok Hg Hg' Hv. pose proof (keeps_gfield_set f g v fs Hok Hg) as (K1 & K2 & K3 & K4).
  pose proof (desc_size_bounds fs Hok) as Hd. split; [done|]. case_decide as E.
  - destruct E as [-> ->].
    destruct f; try (refine (eq_trans (get2_set2 _ _ _ _ _ _ Hok Hg _ _ _ _) _); [lia..|];
      unfold field_bits; cbn; by destruct (has_feature_64bit (fs_super fs))).
    + cbn. unfold ext2fs_bg_flags, ext2fs_bg_flags_set. rewrite gd_read_write_same by lia.
      unfold ext2fs_bg_flags_zap. rewrite gd_read_write_same by lia. cbn [Z.mul Pos.mul].
      unfold field_bits. cbn. rewrite andb_false_r. done.
    + cbn. unfold ext2fs_bg_checksum, ext2fs_bg_checksum_set. rewrite gd_read_write_same by lia.
      unfold field_bits. cbn. rewrite andb_false_r. done.
  - apply gfield_get_ext; [done|]. intros p Hp. destruct (slots_fit _ _ _ Hp) as (P1 & P2 & P3).
    apply K4; try done; [destruct (has_feature_64bit (fs_super fs)); lia|].
    destruct (decide (g = g')) as [->|]; [right|by left]. intros q Hq.
    apply (slots_apart f f' (has_feature_64bit (fs_super fs))); try done. intros ->. by apply E.
Qed.

(** C24: a group-descriptor field reads as the value last stored in it (modulo its width, which the
    64bit feature doubles for split fields), and storing a field of one group changes no other
    field and no other group, in tables of 32-byte and of larger descriptors. *)
Theorem desc_get_set f f' fs g g' v :
  table_ok fs -> 0 <= g < fs_group_desc_count fs -> 0 <= g' < fs_group_desc_count fs -> 0 <= v ->
  table_ok (gfield_set f fs g v) /\
  gfield_get f' (gfield_set f fs g v) g' =
    if decide (f' = f /\ g' = g) then v mod 2 ^ field_bits f (has_feature_64bit (fs_super fs))
    else gfield_get f' fs g'.
Proof. apply gfield_get_set. Qed.

(** [ext2fs_bg_flags_set] and [ext2fs_bg_flags_clear] set and clear exactly the given flags. *)
Theorem desc_flags fs g fl i :
  table_ok fs -> 0 <= g < fs_group_desc_count fs -> in_u 16 fl -> 0 <= i ->
  Z.testbit (ext2fs_bg_flags (ext2fs_bg_flags_set fs g fl) g) i =
    Z.testbit fl i || Z.testbit (ext2fs_bg_flags fs g) i /\
  Z.testbit (ext2fs_bg_flags (ext2fs_bg_flags_clear fs g fl) g) i =
    negb (Z.testbit fl i) && Z.testbit (ext2fs_bg_flags fs g) i.
Proof.
  intros Hok Hg Hfl Hi. unfold ext2fs_bg_flags, ext2fs_bg_flags_set, ext2fs_bg_flags_clear.
  rewrite !gd_read_write_same by lia. change (8 * 2) with 16.
  assert (Hold : in_u 16 (gd_read 2 18 fs g)).
  { destruct (desc_offset fs g Hok Hg) as [HO HL]. pose proof (desc_size_bounds fs Hok) as Hd.
    unfold gd_read. pose proof (le_val_range (zslice (ext2fs_group_desc fs g + 18) 2 (fs_group_desc fs))) as HR.
    pose proof (zlen_zslice (ext2fs_group_desc fs g + 18) 2 (fs_group_desc fs)) as HZ.
    assert (0 <= g * desc_size (fs_super fs)) by (destruct (has_feature_64bit (fs_super fs)); nia).
    lapply HZ; [clear HZ; intros HZ|lia]. specialize (HZ ltac:(lia)).
    lapply HZ; [clear HZ; intros HZ|destruct (has_feature_64bit (fs_super fs)); nia].
    unfold zlen in HZ. rewrite HZ in HR. exact HR. }
  generalize dependent (gd_read 2 18 fs g). intros z Hz. unfold u16. rewrite Z.mod_mod by lia.
  destruct (decide (i < 16)).
  - rewrite !Z.mod_pow2_bits_low by lia. rewrite Z.lor_spec, Z.land_spec, Z.lnot_spec by lia.
    split; [apply orb_comm|apply andb_comm].
  - rewrite !Z.mod_pow2_bits_high by lia. by rewrite (in_u_testbit 16 fl), (in_u_testbit 16 z) by (done || lia).
Qed.

(** * Group geometry *)

(** The superblock of a file system: as many groups as its blocks need. *)
Record geometry_ok (fs : filsys) : Prop := {
  ge_first : 0 <= s_first_data_block (fs_super fs) < ext2fs_blocks_count (fs_super fs);
  ge_count : ext2fs_blocks_count (fs_super fs) < 2 ^ 64 - 2 ^ 32;
  ge_bpg : 0 < s_blocks_per_group (fs_super fs) < 2 ^ 31;
  ge_groups : 0 < fs_group_desc_count fs < 2 ^ 32;
  ge_lower : (fs_group_desc_count fs - 1) * s_blocks_per_group (fs_super fs)
             < ext2fs_blocks_count (fs_super fs) - s_first_data_block (fs_super fs);
  ge_upper : ext2fs_blocks_count (fs_super fs) - s_first_data_block (fs_super fs)
             <= fs_group_desc_count fs * s_blocks_per_group (fs_super fs)
}.

Section geometry.
Variable fs : filsys.
Hypothesis Hok : geometry_ok fs.
Let first := s_first_data_block (fs_super fs).
Let bpg := s_blocks_per_group (fs_super fs).
Let total := ext2fs_blocks_count (fs_super fs).
Let groups := fs_group_desc_count fs.

Lemma first_block_val g : 0 <= g < groups -> ext2fs_group_first_block2 fs g = first + bpg * g.
Proof.
  intros Hg. pose proof Hok as [G1 G2 G3 G4 G5 G6]. unfold ext2fs_group_first_block2. fold first bpg total groups in G1, G2, G3, G4, G5, G6 |- *.
  rewrite (u64_small (bpg * g)), u64_small by (unfold in_u; pow2_norm; nia). done.
Qed.

Lemma last_block_val g :
  0 <= g < groups -> ext2fs_group_last_block2 fs g = Z.min (total - 1) (first + bpg * g + bpg - 1).
Proof.
  intros Hg. pose proof (first_block_val g Hg) as HF. pose proof Hok as [G1 G2 G3 G4 G5 G6]. unfold ext2fs_group_last_block2.
  fold first bpg total groups in G1, G2, G3, G4, G5, G6 |- *. rewrite (u32_small (groups - 1)) by (unfold in_u; lia).
  case_decide as E.
  - subst g. rewrite u64_small by (unfold in_u; pow2_norm; lia). nia.
  - rewrite HF, (u32_small (bpg - 1)) by (unfold in_u; pow2_norm; lia).
    rewrite u64_small by (unfold in_u; pow2_norm; nia). nia.
Qed.

Lemma blocks_count_val g :
  0 <= g < groups -> ext2fs_group_blocks_count fs g = Z.min (total - 1) (first + bpg * g + bpg - 1) - (first + bpg * g) + 1.
Proof.
  intros Hg. pose proof Hok as [G1 G2 G3 G4 G5 G6]. unfold ext2fs_group_blocks_count. fold first bpg total groups in G1, G2, G3, G4, G5, G6 |- *.
  rewrite (u32_small (groups - 1)) by (unfold in_u; lia). case_decide as E.
  - subst g. rewrite u64_small by (unfold in_u; pow2_norm; lia).
    pose proof (Z.mod_pos_bound (total - first) bpg ltac:(lia)) as Hm.
    rewrite !s32_small by (pow2_norm; lia).
    pose proof (Z.div_mod (total - first) bpg ltac:(lia)) as Hdm. set (q := (total - first) / bpg) in *.
    case_decide as E0.
    + assert (q = groups) by nia. nia.
    + assert (q = groups - 1) by nia. nia.
  - rewrite s32_small by (pow2_norm; lia). nia.
Qed.

(** The group of a block. *)
Lemma group_of_block blk :
  first <= blk < total ->
  let g := ext2fs_group_of_blk2 fs blk in
  0 <= g < groups /\
  ext2fs_group_first_block2 fs g <= blk <= ext2fs_group_last_block2 fs g /\
  (forall g', 0 <= g' < groups ->
     ext2fs_group_first_block2 fs g' <= blk <= ext2fs_group_last_block2 fs g' -> g' = g) /\
  ext2fs_group_blocks_count fs g = ext2fs_group_last_block2 fs g - ext2fs_group_first_block2 fs g + 1.
Proof.
  intros Hb. cbv zeta. pose proof first_block_val as HF. pose proof last_block_val as HL.
  pose proof blocks_count_val as HC. pose proof Hok as [G1 G2 G3 G4 G5 G6]. fold first bpg total groups in G1, G2, G3, G4, G5, G6 |- *.
  unfold ext2fs_group_of_blk2. fold first bpg.
  rewrite (u64_small (blk - first)) by (unfold in_u; pow2_norm; lia).
  set (q := (blk - first) / bpg).
  assert (Hq : bpg * q <= blk - first < bpg * q + bpg).
  { unfold q. pose proof (Z.div_mod (blk - first) bpg). pose proof (Z.mod_pos_bound (blk - first) bpg). lia. }
  assert (Hg : 0 <= q < groups) by nia. rewrite u32_small by (unfold in_u; lia).
  split_and!; try lia.
  - rewrite HF by done. lia.
  - rewrite HL by done. lia.
  - intros g' Hg'. rewrite HF, HL by done. intros [? ?]. nia.
  - rewrite HC, HF, HL by done. lia.
Qed.

(** Every block of the file system lies in exactly one group, the one
    [ext2fs_group_of_blk2] names, between its first and its last block; and
    [ext2fs_group_blocks_count] is the number of blocks between them, the last group included. *)
Theorem groups_partition blk :
  first <= blk < total ->
  let g := ext2fs_group_of_blk2 fs blk in
  0 <= g < groups /\
  ext2fs_group_first_block2 fs g <= blk <= ext2fs_group_last_block2 fs g /\
  (forall g', 0 <= g' < groups ->
     ext2fs_group_first_block2 fs g' <= blk <= ext2fs_group_last_block2 fs g' -> g' = g) /\
  ext2fs_group_blocks_count fs g = ext2fs_group_last_block2 fs g - ext2fs_group_first_block2 fs g + 1.
Proof. apply group_of_block. Qed.

End geometry.

(** * Inodes *)

(** The size an inode records. *)
Definition inode_size (ino : inode) : Z := Z.lor (i_size ino) (Z.shiftl (i_size_high ino) 32).

Lemma land_ffffffff z : Z.land z 0xffffffff = u32 z.
Proof. change 0xffffffff with (Z.ones 32). by rewrite Z.land_ones. Qed.

Lemma dynamic_rev_features s : s_feature_ro_compat (ext2fs_update_dynamic_rev s) = s_feature_ro_compat s.
Proof. unfold ext2fs_update_dynamic_rev. by case_decide. Qed.

Lemma dynamic_rev_level s : 0 <= s_rev_level s -> 0 < s_rev_level (ext2fs_update_dynamic_rev s).
Proof. intros. unfold ext2fs_update_dynamic_rev. case_decide; cbn; lia. Qed.

(** [ext2fs_inode_size_set] refuses to give anything but a regular file a size of 4 GiB or more
    and then changes nothing; otherwise the inode records the size, and a file system that gets
    a regular file of 2 GiB or more has the large_file feature, a dynamic revision and the dirty
    flags when it had not. *)
Theorem inode_size_set_spec fs ino size :
  0 <= size < 2 ^ 64 ->
  let '(err, fs', ino') := ext2fs_inode_size_set fs ino size in
  if negb (LINUX_S_ISREG (i_mode ino)) && bool_decide (2 ^ 32 <= size)
  then err = EXT2_ET_FILE_TOO_BIG /\ fs' = fs /\ ino' = ino
  else err = 0 /\ inode_size ino' = size /\ i_mode ino' = i_mode ino /\
       (LINUX_S_ISREG (i_mode ino) = true -> 2 ^ 31 <= size -> 0 <= s_rev_level (fs_super fs) ->
        has_feature_large_file (fs_super fs') = true /\ 0 < s_rev_level (fs_super fs') /\
        (fs' = fs \/ fs_flags fs' = Z.lor (fs_flags fs) 0x6)).
Proof.
  intros Hs. unfold ext2fs_inode_size_set.
  assert (HB : bool_decide (Z.shiftr size 32 <> 0) = bool_decide (2 ^ 32 <= size)).
  { apply bool_decide_ext. rewrite Z.shiftr_div_pow2 by lia. pow2_norm. Z.div_mod_to_equations. lia. }
  rewrite HB. destruct (negb _ && _); [done|].
  set (fs' := if _ && _ && _ then _ else fs). split_and!; [done| |done|].
  - unfold inode_size. cbn. rewrite land_ffffffff. unfold u32. rewrite join_halves by lia. apply Z.mod_small. done.
  - intros Hreg Hbig Hrev. unfold fs'. rewrite Hreg, (bool_decide_eq_true_2 (size >= 2147483648)) by (pow2_norm; lia).
    cbn [andb]. destruct (negb _ || _) eqn:E; cbn [fs_super fs_flags].
    + split_and!; [| |by right].
      * unfold has_feature_large_file. apply bool_decide_eq_true_2. intros H0.
        rewrite dynamic_rev_features in H0. cbn in H0. assert (Hz := Z.land_spec (Z.lor (s_feature_ro_compat (fs_super fs)) 2) 2 1).
        rewrite H0, Z.lor_spec, orb_true_r in Hz. done.
      * by apply dynamic_rev_level.
    + apply orb_false_iff in E as [E1 E2%bool_decide_eq_false]. split_and!; [by destruct (has_feature_large_file _)|lia|by left].
Qed.

(** The ACL block of an inode reads as the value stored: 48 bits with the 64bit feature, 32
    without it or without a file system. *)
Theorem file_acl_roundtrip fs ino blk :
  ext2fs_file_acl_block fs (ext2fs_file_acl_block_set fs ino blk) =
  blk mod 2 ^ (if (match fs with Some fs => has_feature_64bit (fs_super fs) | None => false end) then 48 else 32).
Proof.
  unfold ext2fs_file_acl_block, ext2fs_file_acl_block_set. cbn. destruct (match fs with Some _ => _ | None => _ end); [|done].
  rewrite lor_shiftl by (lia || apply u32_range). unfold u32, u16.
  rewrite Z.shiftr_div_pow2 by lia. change 48 with (32 + 16). rewrite Z.pow_add_r, Z.rem_mul_r by lia. lia.
Qed.

(** * [i_block.c] *)

(** The widths of the fields. *)
Definition iblk_ok (ino : inode) : Prop := in_u 32 (i_blocks ino) /\ in_u 16 (l_i_blocks_hi ino).

(** The largest count an inode can record. *)
Definition iblk_limit (fs : filsys) : Z := if has_feature_huge_file (fs_super fs) then 2 ^ 48 else 2 ^ 32.

Lemma iblk_value_eq fs ino : iblk_ok ino -> iblk_value fs ino = ext2fs_inode_i_blocks fs ino.
Proof.
  intros [H1 H2]. unfold iblk_value, ext2fs_inode_i_blocks. destruct (has_feature_huge_file (fs_super fs)).
  - rewrite lor_shiftl, Z.shiftl_mul_pow2 by (lia || done). apply u64_small. unfold in_u in *. pow2_norm. lia.
  - rewrite Z.lor_0_r, Z.add_0_r. apply u64_small. unfold in_u in *. pow2_norm. lia.
Qed.

Lemma iblk_value_bounds fs ino : iblk_ok ino -> 0 <= ext2fs_inode_i_blocks fs ino < iblk_limit fs.
Proof.
  intros [H1 H2]. unfold ext2fs_inode_i_blocks, iblk_limit. destruct (has_feature_huge_file (fs_super fs)).
  - rewrite lor_shiftl by (lia || done). unfold in_u in *. pow2_norm. lia.
  - by rewrite Z.lor_0_r.
Qed.

(** Storing a count that fits. *)
Lemma set_iblk_value fs ino b hi :
  0 <= b < iblk_limit fs -> in_u 16 hi ->
  let ino' := set_iblk ino (Z.land b 0xffffffff)
                (if has_feature_huge_file (fs_super fs) then u16 (Z.shiftr b 32) else hi) in
  iblk_ok ino' /\ ext2fs_inode_i_blocks fs ino' = b.
Proof.
  intros Hb Hhi. unfold iblk_limit in Hb. cbn. rewrite land_ffffffff.
  destruct (has_feature_huge_file (fs_super fs)) eqn:E; unfold ext2fs_inode_i_blocks; rewrite E; cbn.
  - split.
    + split; cbn; [apply u32_range|]. unfold in_u, u16. apply Z.mod_pos_bound. lia.
    + rewrite lor_shiftl by (lia || apply u32_range). rewrite Z.shiftr_div_pow2 by lia.
      unfold u16, u32. pow2_norm. rewrite (Z.mod_small (b / 4294967296)); Z.div_mod_to_equations; lia.
  - split; [split; cbn; [apply u32_range|done]|]. rewrite Z.lor_0_r. by apply u32_small.
Qed.

(** [ext2fs_iblk_add_blocks] adds the units of the new blocks to the inode's count when the sum
    fits; [ext2fs_iblk_sub_blocks] then takes them off again and restores the count; without
    huge_file, a sum above 32 bits is reported and the inode left alone. *)
Theorem iblk_add_sub fs ino n :
  iblk_ok ino ->
  let u := iblk_units fs ino n in
  let '(err, ino') := ext2fs_iblk_add_blocks fs ino n in
  (ext2fs_inode_i_blocks fs ino + u < iblk_limit fs ->
   err = 0 /\ iblk_ok ino' /\ ext2fs_inode_i_blocks fs ino' = ext2fs_inode_i_blocks fs ino + u /\
   let '(err2, ino2) := ext2fs_iblk_sub_blocks fs ino' n in
   err2 = 0 /\ iblk_ok ino2 /\ ext2fs_inode_i_blocks fs ino2 = ext2fs_inode_i_blocks fs ino) /\
  (has_feature_huge_file (fs_super fs) = false -> iblk_limit fs <= ext2fs_inode_i_blocks fs ino + u < 2 ^ 64 ->
   err = EOVERFLOW /\ ino' = ino).
Proof.
  intros Hi. cbv zeta. pose proof (iblk_value_bounds fs ino Hi) as Hv.
  unfold ext2fs_iblk_add_blocks. rewrite iblk_value_eq by done.
  set (u := iblk_units fs ino n). set (v := ext2fs_inode_i_blocks fs ino) in *.
  assert (Hu : 0 <= u < 2 ^ 64) by (unfold u, iblk_units; apply u64_range).
  assert (Hlim : iblk_limit fs <= 2 ^ 48) by (unfold iblk_limit; destruct (has_feature_huge_file _); pow2_norm; lia).
  set (p := if has_feature_huge_file (fs_super fs) then _ else _).
  assert (Hsum : v + u < iblk_limit fs ->
    p = (0, set_iblk ino (Z.land (v + u) 0xffffffff)
           (if has_feature_huge_file (fs_super fs) then u16 (Z.shiftr (v + u) 32) else l_i_blocks_hi ino))).
  { intros Hs. unfold p. rewrite u64_small by (unfold in_u; pow2_norm; lia). unfold iblk_limit in Hs.
    destruct (has_feature_huge_file (fs_super fs)); [done|]. rewrite decide_False; [done|]. pow2_norm. lia. }
  destruct p as [err ino'] eqn:Ep. split.
  - intros Hs. specialize (Hsum Hs). injection Hsum as -> ->. clear Ep p.
    destruct (set_iblk_value fs ino (v + u) (l_i_blocks_hi ino) ltac:(lia) (proj2 Hi)) as [H1 H2].
    set (ino' := set_iblk ino _ _) in *. split_and!; [done|done|done|].
    unfold ext2fs_iblk_sub_blocks. rewrite iblk_value_eq, H2 by done.
    change (iblk_units fs ino' n) with u. rewrite (decide_False (P := u > v + u)) by lia.
    replace (u64 (v + u - u)) with v by (rewrite u64_small by (unfold in_u; pow2_norm; lia); lia).
    destruct (set_iblk_value fs ino' v (l_i_blocks_hi ino') ltac:(lia) (proj2 H1)) as [H3 H4]. done.
  - intros Hh Hs. unfold p in Ep. rewrite Hh in Ep. rewrite u64_small, decide_True in Ep.
    + by injection Ep as <- <-.
    + unfold iblk_limit in Hs. rewrite Hh in Hs. pow2_norm. lia.
    + unfold in_u. lia.
Qed.

(** * Witnesses *)

(** 20,000 blocks in three groups, with the 64bit, large_file-less, huge_file-less features. *)
Definition demo_sb : super_block := mkSb 20000 0 100 0 500 0 1 8192 0 64 0x80 0 1 11 128.
Definition demo_fs : filsys := mkFs demo_sb (replicate 192 7) 3 1024 0 0.
Definition demo_inode : inode := mkInode 0x81a4 0 0 8 0 0 0 0.

Lemma demo_fs_table : table_ok demo_fs.
Proof. split; vm_compute; [split; [discriminate|reflexivity]|discriminate|reflexivity]. Qed.

Lemma desc_get_set_witness :
  gfield_get Finode_table (gfield_set Finode_table demo_fs 1 (2 ^ 40 + 5)) 1 = 2 ^ 40 + 5 /\
  gfield_get Fflags (gfield_set Finode_table demo_fs 1 5) 1 = gfield_get Fflags demo_fs 1.
Proof.
  split.
  - pose proof (desc_get_set Finode_table Finode_table demo_fs 1 1 (2 ^ 40 + 5) demo_fs_table
      ltac:(cbn; lia) ltac:(cbn; lia) ltac:(lia)) as [_ H]. exact H.
  - pose proof (desc_get_set Finode_table Fflags demo_fs 1 1 5 demo_fs_table
      ltac:(cbn; lia) ltac:(cbn; lia) ltac:(lia)) as [_ H]. exact H.
Defined.

Lemma desc_flags_witness :
  Z.testbit (ext2fs_bg_flags (ext2fs_bg_flags_clear demo_fs 2 4) 2) 2 = false.
Proof.
  exact (proj2 (desc_flags demo_fs 2 4 2 demo_fs_table ltac:(cbn; lia) ltac:(unfold in_u; lia) ltac:(lia))).
Defined.

Lemma demo_fs_geometry : geometry_ok demo_fs.
Proof. split; vm_compute; try split; reflexivity || discriminate. Qed.

Lemma groups_partition_witness :
  ext2fs_group_of_blk2 demo_fs 16385 = 2 /\
  0 <= ext2fs_group_of_blk2 demo_fs 16385 < fs_group_desc_count demo_fs.
Proof.
  split; [reflexivity|].
  exact (proj1 (groups_partition demo_fs demo_fs_geometry 16385 ltac:(vm_compute; split; discriminate || reflexivity))).
Defined.

Lemma inode_size_set_spec_witness :
  (ext2fs_inode_size_set demo_fs demo_inode (2 ^ 33 + 1)).1.1 = 0 /\
  exists fs' ino', ext2fs_inode_size_set demo_fs demo_inode (2 ^ 33 + 1) = (0, fs', ino') /\ inode_size ino' = 2 ^ 33 + 1.
Proof.
  split; [reflexivity|].
  pose proof (inode_size_set_spec demo_fs demo_inode (2 ^ 33 + 1) ltac:(lia)) as H.
  destruct (ext2fs_inode_size_set demo_fs demo_inode (2 ^ 33 + 1)) as [[err fs'] ino'].
  destruct H as (-> & H & _). exists fs', ino'. split; [reflexivity|exact H].
Defined.

Lemma iblk_add_sub_witness :
  ext2fs_inode_i_blocks demo_fs (ext2fs_iblk_add_blocks demo_fs demo_inode 3).2 = 14.
Proof.
  pose proof (iblk_add_sub demo_fs demo_inode 3 ltac:(split; unfold in_u; cbn; lia)) as H. cbv zeta in H.
  destruct (ext2fs_iblk_add_blocks demo_fs demo_inode 3) as [err ino'].
  destruct H as [H _]. destruct (H ltac:(vm_compute; reflexivity)) as (_ & _ & H1 & _). exact H1.
Defined.
