(* ===== verification/Crc16.v ===== *)
(** CRC-16: [rfsck-ext/lib/ext2fs/crc16.c], and that its table is that of the bit-at-a-time
    algorithm. *)
From Stdlib Require Import ZArith Lia.
From stdpp Require Import base tactics numbers list.
From S2P Require Import Prelude.

Definition crc16_table : list Z :=
  [0x0000; 0xC0C1; 0xC181; 0x0140; 0xC301; 0x03C0; 0x0280; 0xC241;
   0xC601; 0x06C0; 0x0780; 0xC741; 0x0500; 0xC5C1; 0xC481; 0x0440;
   0xCC01; 0x0CC0; 0x0D80; 0xCD41; 0x0F00; 0xCFC1; 0xCE81; 0x0E40;
   0x0A00; 0xCAC1; 0xCB81; 0x0B40; 0xC901; 0x09C0; 0x0880; 0xC841;
   0xD801; 0x18C0; 0x1980; 0xD941; 0x1B00; 0xDBC1; 0xDA81; 0x1A40;
   0x1E00; 0xDEC1; 0xDF81; 0x1F40; 0xDD01; 0x1DC0; 0x1C80; 0xDC41;
   0x1400; 0xD4C1; 0xD581; 0x1540; 0xD701; 0x17C0; 0x1680; 0xD641;
   0xD201; 0x12C0; 0x1380; 0xD341; 0x1100; 0xD1C1; 0xD081; 0x1040;
   0xF001; 0x30C0; 0x3180; 0xF141; 0x3300; 0xF3C1; 0xF281; 0x3240;
   0x3600; 0xF6C1; 0xF781; 0x3740; 0xF501; 0x35C0; 0x3480; 0xF441;
   0x3C00; 0xFCC1; 0xFD81; 0x3D40; 0xFF01; 0x3FC0; 0x3E80; 0xFE41;
   0xFA01; 0x3AC0; 0x3B80; 0xFB41; 0x3900; 0xF9C1; 0xF881; 0x3840;
   0x2800; 0xE8C1; 0xE981; 0x2940; 0xEB01; 0x2BC0; 0x2A80; 0xEA41;
   0xEE01; 0x2EC0; 0x2F80; 0xEF41; 0x2D00; 0xEDC1; 0xEC81; 0x2C40;
   0xE401; 0x24C0; 0x2580; 0xE541; 0x2700; 0xE7C1; 0xE681; 0x2640;
   0x2200; 0xE2C1; 0xE381; 0x2340; 0xE101; 0x21C0; 0x2080; 0xE041;
   0xA001; 0x60C0; 0x6180; 0xA141; 0x6300; 0xA3C1; 0xA281; 0x6240;
   0x6600; 0xA6C1; 0xA781; 0x6740; 0xA501; 0x65C0; 0x6480; 0xA441;
   0x6C00; 0xACC1; 0xAD81; 0x6D40; 0xAF01; 0x6FC0; 0x6E80; 0xAE41;
   0xAA01; 0x6AC0; 0x6B80; 0xAB41; 0x6900; 0xA9C1; 0xA881; 0x6840;
   0x7800; 0xB8C1; 0xB981; 0x7940; 0xBB01; 0x7BC0; 0x7A80; 0xBA41;
   0xBE01; 0x7EC0; 0x7F80; 0xBF41; 0x7D00; 0xBDC1; 0xBC81; 0x7C40;
   0xB401; 0x74C0; 0x7580; 0xB541; 0x7700; 0xB7C1; 0xB681; 0x7640;
   0x7200; 0xB2C1; 0xB381; 0x7340; 0xB101; 0x71C0; 0x7080; 0xB041;
   0x5000; 0x90C1; 0x9181; 0x5140; 0x9301; 0x53C0; 0x5280; 0x9241;
   0x9601; 0x56C0; 0x5780; 0x9741; 0x5500; 0x95C1; 0x9481; 0x5440;
   0x9C01; 0x5CC0; 0x5D80; 0x9D41; 0x5F00; 0x9FC1; 0x9E81; 0x5E40;
   0x5A00; 0x9AC1; 0x9B81; 0x5B40; 0x9901; 0x59C0; 0x5880; 0x9841;
   0x8801; 0x48C0; 0x4980; 0x8941; 0x4B00; 0x8BC1; 0x8A81; 0x4A40;
   0x4E00; 0x8EC1; 0x8F81; 0x4F40; 0x8D01; 0x4DC0; 0x4C80; 0x8C41;
   0x4400; 0x84C1; 0x8581; 0x4540; 0x8701; 0x47C0; 0x4680; 0x8641;
   0x8201; 0x42C0; 0x4380; 0x8341; 0x4100; 0x81C1; 0x8081; 0x4040].

(** One turn of the loop, and the loop. *)
Definition crc16_step (crc c : Z) : Z :=
  Z.land (Z.lxor (Z.land (Z.shiftr crc 8) 0xff) (crc16_table !!! Z.to_nat (Z.land (Z.lxor crc c) 0xff))) 0xffff.

Definition ext2fs_crc16 (crc : Z) (buffer : list Z) : Z := foldl crc16_step crc buffer.

(** * The reference: polynomial x^16 + x^15 + x^2 + 1, least significant bit first *)

Definition CRC16_POLY : Z := 0xA001.
Definition crc16_bit (crc : Z) : Z := Z.lxor (Z.shiftr crc 1) (if Z.odd crc then CRC16_POLY else 0).
Definition crc16_byte (crc c : Z) : Z := Nat.iter 8 crc16_bit (Z.lxor crc c).
Definition crc16_bitwise (crc : Z) (p : list Z) : Z := foldl crc16_byte crc p.

(** * Equivalence *)

Lemma crc16_bit_lxor a b : crc16_bit (Z.lxor a b) = Z.lxor (crc16_bit a) (crc16_bit b).
Proof.
  unfold crc16_bit. rewrite Z.shiftr_lxor, <- !Z.bit0_odd, Z.lxor_spec.
  destruct (Z.testbit a 0), (Z.testbit b 0); cbn [xorb]; rewrite ?Z.lxor_0_r, <- ?Z.lxor_assoc.
  - rewrite !Z.lxor_assoc. rewrite (Z.lxor_comm CRC16_POLY (Z.lxor _ _)), !Z.lxor_assoc, Z.lxor_nilpotent. by rewrite Z.lxor_0_r.
  - by rewrite !Z.lxor_assoc, (Z.lxor_comm CRC16_POLY).
  - done.
  - done.
Qed.

Lemma crc16_iter_lxor n a b : Nat.iter n crc16_bit (Z.lxor a b) = Z.lxor (Nat.iter n crc16_bit a) (Nat.iter n crc16_bit b).
Proof. induction n as [|n IH]; [done|]. rewrite !Nat.iter_succ. by rewrite IH, crc16_bit_lxor. Qed.

(** Bits above the ones shifted out move down unchanged. *)
Lemma crc16_iter_high n h : Nat.iter n crc16_bit (Z.shiftl h (Z.of_nat n)) = h.
Proof.
  revert h. induction n as [|n IH]; intros h; [apply Z.shiftl_0_r|]. rewrite Nat2Z.inj_succ, <- Z.add_1_r, Nat.iter_succ_r.
  replace (crc16_bit (Z.shiftl h (Z.of_nat n + 1))) with (Z.shiftl h (Z.of_nat n)); [apply IH|]. unfold crc16_bit.
  rewrite <- Z.bit0_odd, Z.shiftl_spec_low by lia. rewrite Z.lxor_0_r, Z.shiftr_shiftl_l by lia. f_equal. lia.
Qed.

Lemma crc16_table_ok x : 0 <= x < 256 -> crc16_table !!! Z.to_nat x = Nat.iter 8 crc16_bit x.
Proof.
  intros Hx. assert (H : forallb (fun i => (crc16_table !!! i) =? Nat.iter 8 crc16_bit (Z.of_nat i)) (seq 0 256) = true) by (vm_compute; reflexivity).
  rewrite forallb_forall in H. specialize (H (Z.to_nat x)). rewrite Z2Nat.id, Z.eqb_eq in H by lia. apply H, in_seq. lia.
Qed.

Lemma crc16_bit_range n x : in_u 16 x -> in_u 16 (Nat.iter n crc16_bit x).
Proof.
  intros Hx. induction n as [|n IH]; [done|]. rewrite Nat.iter_succ. unfold crc16_bit at 1. apply lxor_in_u; [lia| |].
  - by apply shiftr_in_u.
  - destruct (Z.odd _); unfold in_u, CRC16_POLY; lia.
Qed.

(** A value as its high part and its low byte. *)
Lemma split_byte x : 0 <= x -> x = Z.lxor (Z.shiftl (Z.shiftr x 8) 8) (Z.land x 0xff).
Proof.
  intros Hx. apply Z.bits_inj'. intros i Hi. rewrite Z.lxor_spec, Z.land_spec. change 0xff with (Z.ones 8). destruct (decide (i < 8)).
  - rewrite Z.shiftl_spec_low, Z.ones_spec_low by lia. by rewrite andb_true_r.
  - rewrite Z.shiftl_spec, Z.shiftr_spec, Z.ones_spec_high by lia. rewrite andb_false_r, xorb_false_r. f_equal. lia.
Qed.

Lemma crc16_step_eq crc c : in_u 16 crc -> in_u 8 c -> crc16_step crc c = crc16_byte crc c.
Proof.
  intros Hc Hb. assert (Hb16 : in_u 16 c) by (unfold in_u in *; lia). assert (Hx : in_u 16 (Z.lxor crc c)) by (by apply lxor_in_u).
  unfold crc16_step, crc16_byte. set (x := Z.lxor crc c) in *. assert (H0 : 0 <= x) by apply Hx.
  assert (Hlow : 0 <= Z.land x 0xff < 256) by (change 0xff with (Z.ones 8); rewrite Z.land_ones by lia; apply Z.mod_pos_bound; lia).
  assert (Hhigh : Z.land (Z.shiftr crc 8) 0xff = Z.shiftr x 8).
  { unfold x. rewrite Z.shiftr_lxor. replace (Z.shiftr c 8) with 0 by (rewrite Z.shiftr_div_pow2 by lia; symmetry; apply Z.div_small; apply Hb).
    rewrite Z.lxor_0_r. change 0xff with (Z.ones 8). rewrite Z.land_ones by lia. apply Z.mod_small. rewrite Z.shiftr_div_pow2 by lia.
    split; [apply Z.div_pos; [apply Hc|lia]|apply Z.div_lt_upper_bound; [lia|]]. destruct Hc. lia. }
  rewrite Hhigh, crc16_table_ok by done.
  assert (Hiter : Nat.iter 8 crc16_bit x = Z.lxor (Z.shiftr x 8) (Nat.iter 8 crc16_bit (Z.land x 0xff))).
  { transitivity (Nat.iter 8 crc16_bit (Z.lxor (Z.shiftl (Z.shiftr x 8) 8) (Z.land x 0xff))); [f_equal; by apply split_byte|].
    rewrite (crc16_iter_lxor 8). f_equal. apply (crc16_iter_high 8). }
  rewrite <- Hiter. change 0xffff with (Z.ones 16). rewrite Z.land_ones by lia. apply Z.mod_small. by apply (crc16_bit_range 8).
Qed.

(** The table-driven CRC-16 returns what the bit-at-a-time algorithm returns. *)
Theorem crc16_table_equiv crc p : in_u 16 crc -> Forall (in_u 8) p -> ext2fs_crc16 crc p = crc16_bitwise crc p.
Proof.
  revert crc. induction p as [|c p IH]; intros crc Hc Hp; [done|]. apply Forall_cons in Hp as [Hb Hp]. cbn. rewrite crc16_step_eq by done.
  apply IH; [|done]. apply (crc16_bit_range 8). apply lxor_in_u; [lia|done|unfold in_u in *; lia].
Qed.

(** The check value of CRC-16/ARC. *)
Example crc16_check : ext2fs_crc16 0 [49; 50; 51; 52; 53; 54; 55; 56; 57] = 0xBB3D.
Proof. reflexivity. Qed.

Lemma crc16_table_equiv_witness : ext2fs_crc16 0xffff [1; 2; 3] = crc16_bitwise 0xffff [1; 2; 3].
Proof. apply crc16_table_equiv; [unfold in_u; lia|repeat constructor; lia]. Defined.
