(* ===== verification/Csum.v ===== *)
(** Metadata checksums: [rfsck-ext/lib/ext2fs/csum.c], and the directory record lengths of
    [dir_iterate.c] that it uses.

    A structure is the buffer of bytes the code gets a pointer to, on a little-endian host.  The
    functions that clear a checksum field, compute and put the field back return the buffer as
    they leave it.  [read_inode], the outcome of [ext2fs_read_inode], is an argument: an error
    code, or the generation of the inode read. *)
From Stdlib Require Import ZArith Lia.
From stdpp Require Import base tactics numbers list.
From S2P Require Import Prelude ExtErr Crc32c Crc16 BlkNum.

Definition EXT2_ET_DB_NOT_FOUND : Z := EXT2_ET_BASE + 78.
Definition EXT2_ET_DIR_NO_SPACE_FOR_CSUM : Z := EXT2_ET_BASE + 149.

(** * State *)

(** The file system with what checksums use besides. *)
Record csum_fs := mkCs {
  cs_fs :> filsys;
  csum_seed : Z;
  s_uuid : list Z;
  s_checksum_seed : Z
}.

Definition set_fs (c : csum_fs) (fs : filsys) : csum_fs := mkCs fs (csum_seed c) (s_uuid c) (s_checksum_seed c).

Definition has_feature_metadata_csum (s : super_block) : bool :=
  bool_decide (Z.land (s_feature_ro_compat s) 0x400 <> 0).
Definition has_feature_gdt_csum (s : super_block) : bool :=
  bool_decide (Z.land (s_feature_ro_compat s) 0x10 <> 0).
Definition has_feature_csum_seed (s : super_block) : bool :=
  bool_decide (Z.land (s_feature_incompat s) 0x2000 <> 0).
Definition has_feature_ea_inode (s : super_block) : bool :=
  bool_decide (Z.land (s_feature_incompat s) 0x400 <> 0).

Definition ext2fs_has_group_desc_csum (fs : filsys) : bool :=
  has_feature_metadata_csum (fs_super fs) || has_feature_gdt_csum (fs_super fs).

(** [EXT2_INODE_SIZE] *)
Definition INODE_SIZE (s : super_block) : Z := if decide (s_rev_level s = 0) then 128 else s_inode_size s.

(** The field of [w] bytes at offset [o] of a structure. *)
Definition field (w o : Z) (b : list Z) : Z := le_val (zslice o w b).
Definition put_field (w o v : Z) (b : list Z) : list Z := zsplice o (le_bytes (Z.to_nat w) v) b.

(** The value of a C comparison. *)
Definition c_eq (a b : Z) : Z := if decide (a = b) then 1 else 0.

Section csum.
Context `{Checksum}.

Definition ext2fs_init_csum_seed (fs : csum_fs) : csum_fs :=
  if has_feature_csum_seed (fs_super fs) then mkCs (cs_fs fs) (s_checksum_seed fs) (s_uuid fs) (s_checksum_seed fs)
  else if has_feature_metadata_csum (fs_super fs) || has_feature_ea_inode (fs_super fs)
  then mkCs (cs_fs fs) (crc32c_le crc_seed (s_uuid fs)) (s_uuid fs) (s_checksum_seed fs)
  else fs.

(** * The MMP block *)

Definition ext2fs_mmp_csum (fs : csum_fs) (mmp : list Z) : Z := crc32c_le (csum_seed fs) (zslice 0 1020 mmp).

Definition ext2fs_mmp_csum_verify (fs : csum_fs) (mmp : list Z) : Z :=
  if negb (has_feature_metadata_csum (fs_super fs)) then 1
  else c_eq (field 4 1020 mmp) (ext2fs_mmp_csum fs mmp).

Definition ext2fs_mmp_csum_set (fs : csum_fs) (mmp : list Z) : Z * list Z :=
  if negb (has_feature_metadata_csum (fs_super fs)) then (0, mmp)
  else (0, put_field 4 1020 (ext2fs_mmp_csum fs mmp) mmp).

(** * The superblock *)

Definition ext2fs_verify_csum_type (fs : csum_fs) (sb : list Z) : Z :=
  if negb (has_feature_metadata_csum (fs_super fs)) then 1 else c_eq (field 1 373 sb) 1.

Definition ext2fs_superblock_csum (sb : list Z) : Z := crc32c_le crc_seed (zslice 0 1020 sb).

(** The flag is the same in both byte orders of the test on a little-endian host. *)
Definition ext2fs_superblock_csum_verify (fs : csum_fs) (sb : list Z) : Z :=
  if negb (has_feature_metadata_csum (fs_super fs)) then 1
  else c_eq (field 4 1020 sb) (ext2fs_superblock_csum sb).

Definition ext2fs_superblock_csum_set (fs : csum_fs) (sb : list Z) : Z * list Z :=
  if negb (has_feature_metadata_csum (fs_super fs)) then (0, sb)
  else (0, put_field 4 1020 (ext2fs_superblock_csum sb) sb).

(** * Extended attribute blocks *)

Definition ext2fs_ext_attr_block_csum (fs : csum_fs) (block : Z) (hdr : list Z) : Z * list Z :=
  let old_crc := field 4 16 hdr in
  let hdr := put_field 4 16 0 hdr in
  let crc := crc32c_le (csum_seed fs) (le_bytes 8 block) in
  let crc := crc32c_le crc (zslice 0 (fs_blocksize fs) hdr) in
  (crc, put_field 4 16 old_crc hdr).

Definition ext2fs_ext_attr_block_csum_verify (fs : csum_fs) (block : Z) (hdr : list Z) : Z * list Z :=
  if negb (has_feature_metadata_csum (fs_super fs)) then (1, hdr)
  else
    let '(calculated, hdr) := ext2fs_ext_attr_block_csum fs block hdr in
    (c_eq (field 4 16 hdr) calculated, hdr).

Definition ext2fs_ext_attr_block_csum_set (fs : csum_fs) (block : Z) (hdr : list Z) : Z * list Z :=
  if negb (has_feature_metadata_csum (fs_super fs)) then (0, hdr)
  else
    let '(crc, hdr) := ext2fs_ext_attr_block_csum fs block hdr in
    (0, put_field 4 16 crc hdr).

(** * Directory blocks *)

(** [ext2fs_get_rec_len] and [ext2fs_set_rec_len] of [dir_iterate.c]; [d] is the offset of the
    entry in its block. *)
Definition ext2fs_get_rec_len (fs : filsys) (dirent : list Z) (d : Z) : Z :=
  let len := field 2 (d + 4) dirent in
  if decide (fs_blocksize fs < 65536) then len
  else if bool_decide (len = 65535) || bool_decide (len = 0) then fs_blocksize fs
  else Z.lor (Z.land len 65532) (Z.shiftl (Z.land len 3) 16).

Definition ext2fs_set_rec_len (fs : filsys) (len : Z) (dirent : list Z) (d : Z) : Z * list Z :=
  if bool_decide (len > fs_blocksize fs) || bool_decide (fs_blocksize fs > Z.shiftl 1 18)
     || bool_decide (Z.land len 3 <> 0)
  then (EINVAL, dirent)
  else if decide (len < 65536) then (0, put_field 2 (d + 4) len dirent)
  else if decide (len = fs_blocksize fs)
  then (0, put_field 2 (d + 4) (if decide (fs_blocksize fs = 65536) then 65535 else 0) dirent)
  else (0, put_field 2 (d + 4) (Z.lor (Z.land len 65532) (Z.land (Z.shiftr len 16) 3)) dirent).

Definition do_nothing16 (x : Z) : Z := x.
(** [ext2fs_le16_to_cpu] on a little-endian host. *)
Definition disk_to_host16 (x : Z) : Z := x.

(** The code, and the offset of the count and limit of the hash tree node. *)
Definition __get_dx_countlimit (fs : filsys) (dirent : list Z) (need_swab : bool) : Z * Z :=
  let translate := if need_swab then disk_to_host16 else do_nothing16 in
  let rec_len := translate (field 2 4 dirent) in
  let '(retval, count_offset) :=
    if bool_decide (rec_len = fs_blocksize fs) && bool_decide (translate (field 2 6 dirent) = 0) then (0, 8)
    else if decide (rec_len = 12) then
      let rec_len := translate (field 2 (12 + 4) dirent) in
      if decide (rec_len <> u32 (fs_blocksize fs - 12)) then (EXT2_ET_DB_NOT_FOUND, 0)
      else if bool_decide (field 4 24 dirent <> 0) || bool_decide (field 1 29 dirent <> 8)
      then (EXT2_ET_DB_NOT_FOUND, 0)
      else (0, 32)
    else (EXT2_ET_DB_NOT_FOUND, 0) in
  if decide (retval <> 0) then (retval, 0)
  else
    let max_sane_entries := (fs_blocksize fs - count_offset) / 8 in
    if bool_decide (field 2 count_offset dirent > max_sane_entries)
       || bool_decide (field 2 (count_offset + 2) dirent > max_sane_entries)
    then (EXT2_ET_DIR_NO_SPACE_FOR_CSUM, 0)
    else (0, count_offset).

Definition ext2fs_get_dx_countlimit (fs : filsys) (dirent : list Z) : Z * Z := __get_dx_countlimit fs dirent false.

(** [t] is the offset of the tail. *)
Definition ext2fs_initialize_dirent_tail (fs : filsys) (dirent : list Z) (t : Z) : list Z :=
  let dirent := zsplice t (replicate 12 0) dirent in
  let '(_, dirent) := ext2fs_set_rec_len fs 12 dirent t in
  put_field 2 (t + 6) 0xDE00 dirent.

(** The loop of [__get_dirent_tail]: from the entry at [d] with length [rec_len] on. *)
Fixpoint tail_walk (fuel : nat) (translate : Z -> Z) (dirent : list Z) (top d rec_len : Z) : Z :=
  match fuel with
  | O => d
  | S fuel' =>
      if bool_decide (rec_len <> 0) && bool_decide (Z.land rec_len 0x3 = 0) then
        let d := d + rec_len in
        if decide (d >= top) then d
        else tail_walk fuel' translate dirent top d (translate (field 2 (d + 4) dirent))
      else d
  end.

(** The code, and the offset of the tail.  Every turn goes forward by 4 bytes or more. *)
Definition __get_dirent_tail (fs : filsys) (dirent : list Z) (need_swab : bool) : Z * Z :=
  let translate := if need_swab then disk_to_host16 else do_nothing16 in
  let top := fs_blocksize fs - 12 in
  let rec_len := translate (field 2 4 dirent) in
  let d := tail_walk (S (Z.to_nat top)) translate dirent top 0 rec_len in
  if decide (d <> top) then (EXT2_ET_DIR_NO_SPACE_FOR_CSUM, 0)
  else if bool_decide (field 4 d dirent <> 0) || bool_decide (translate (field 2 (d + 4) dirent) <> 12)
          || bool_decide (translate (field 2 (d + 6) dirent) <> 0xDE00)
  then (EXT2_ET_DIR_NO_SPACE_FOR_CSUM, 0)
  else (0, d).

Definition ext2fs_dirent_has_tail (fs : filsys) (dirent : list Z) : Z := c_eq (__get_dirent_tail fs dirent false).1 0.

Variable read_inode : Z -> Z + Z.

(** The checksum of the inode number and the generation, which the checksums of the blocks of an
    inode start from. *)
Definition inode_crc (fs : csum_fs) (inum gen : Z) : Z :=
  crc32c_le (crc32c_le (csum_seed fs) (le_bytes 4 inum)) (le_bytes 4 gen).

Definition ext2fs_dirent_csum (fs : csum_fs) (inum : Z) (dirent : list Z) (size : Z) : Z + Z :=
  match read_inode inum with
  | inl retval => inl retval
  | inr gen => inr (crc32c_le (inode_crc fs inum gen) (zslice 0 size dirent))
  end.

Definition ext2fs_dirent_csum_verify (fs : csum_fs) (inum : Z) (dirent : list Z) : Z :=
  let '(retval, t) := __get_dirent_tail fs dirent true in
  if decide (retval <> 0) then 1
  else
    match ext2fs_dirent_csum fs inum dirent t with
    | inl _ => 0
    | inr calculated => c_eq (field 4 (t + 8) dirent) calculated
    end.

Definition ext2fs_dirent_csum_set (fs : csum_fs) (inum : Z) (dirent : list Z) : Z * list Z :=
  let '(retval, t) := __get_dirent_tail fs dirent true in
  if decide (retval <> 0) then (retval, dirent)
  else
    match ext2fs_dirent_csum fs inum dirent t with
    | inl retval => (retval, dirent)
    | inr crc => (0, put_field 4 (t + 8) crc dirent)
    end.

(** The code or the checksum, and the block as it is left: an inode that cannot be read leaves the
    stored checksum cleared. *)
Definition ext2fs_dx_csum (fs : csum_fs) (inum : Z) (dirent : list Z) (count_offset count t : Z) : (Z + Z) * list Z :=
  let size := count_offset + count * 8 in
  let old_csum := field 4 (t + 4) dirent in
  let dirent := put_field 4 (t + 4) 0 dirent in
  match read_inode inum with
  | inl retval => (inl retval, dirent)
  | inr gen =>
      let crc := crc32c_le (inode_crc fs inum gen) (zslice 0 size dirent) in
      let crc := crc32c_le crc (zslice t 8 dirent) in
      (inr crc, put_field 4 (t + 4) old_csum dirent)
  end.

Definition ext2fs_dx_csum_verify (fs : csum_fs) (inum : Z) (dirent : list Z) : Z * list Z :=
  let '(retval, count_offset) := __get_dx_countlimit fs dirent true in
  if decide (retval <> 0) then (1, dirent)
  else
    let limit := field 2 count_offset dirent in
    let count := field 2 (count_offset + 2) dirent in
    if decide (count_offset + limit * 8 > u64 (fs_blocksize fs - 8)) then (0, dirent)
    else
      let t := count_offset + limit * 8 in
      match ext2fs_dx_csum fs inum dirent count_offset count t with
      | (inl _, dirent) => (0, dirent)
      | (inr calculated, dirent) => (c_eq (field 4 (t + 4) dirent) calculated, dirent)
      end.

Definition ext2fs_dx_csum_set (fs : csum_fs) (inum : Z) (dirent : list Z) : Z * list Z :=
  let '(retval, count_offset) := __get_dx_countlimit fs dirent true in
  if decide (retval <> 0) then (retval, dirent)
  else
    let limit := field 2 count_offset dirent in
    let count := field 2 (count_offset + 2) dirent in
    if decide (count_offset + limit * 8 > u64 (fs_blocksize fs - 8)) then (EXT2_ET_DIR_NO_SPACE_FOR_CSUM, dirent)
    else
      let t := count_offset + limit * 8 in
      match ext2fs_dx_csum fs inum dirent count_offset count t with
      | (inl retval, dirent) => (retval, dirent)
      | (inr crc, dirent) => (0, put_field 4 (t + 4) crc dirent)
      end.

Definition ext2fs_dir_block_csum_verify (fs : csum_fs) (inum : Z) (dirent : list Z) : Z * list Z :=
  if negb (has_feature_metadata_csum (fs_super fs)) then (1, dirent)
  else if decide ((__get_dirent_tail fs dirent true).1 = 0) then (ext2fs_dirent_csum_verify fs inum dirent, dirent)
  else if decide ((__get_dx_countlimit fs dirent true).1 = 0) then ext2fs_dx_csum_verify fs inum dirent
  else (0, dirent).

Definition ext2fs_dir_block_csum_set (fs : csum_fs) (inum : Z) (dirent : list Z) : Z * list Z :=
  if negb (has_feature_metadata_csum (fs_super fs)) then (0, dirent)
  else if decide ((__get_dirent_tail fs dirent true).1 = 0) then ext2fs_dirent_csum_set fs inum dirent
  else if decide ((__get_dx_countlimit fs dirent true).1 = 0) then ext2fs_dx_csum_set fs inum dirent
  else if decide (Z.land (fs_flags fs) 0x200000 <> 0) then (0, dirent)
  else (EXT2_ET_DIR_NO_SPACE_FOR_CSUM, dirent).

(** * Extent blocks *)

(** [EXT3_EXTENT_TAIL_OFFSET] and [get_extent_tail] *)
Definition get_extent_tail (eh : list Z) : Z := 12 + 12 * field 2 4 eh.

Definition ext2fs_extent_block_csum (fs : csum_fs) (inum : Z) (eh : list Z) : Z + Z :=
  let size := get_extent_tail eh + 0 in
  match read_inode inum with
  | inl retval => inl retval
  | inr gen => inr (crc32c_le (inode_crc fs inum gen) (zslice 0 size eh))
  end.

Definition ext2fs_extent_block_csum_verify (fs : csum_fs) (inum : Z) (eh : list Z) : Z :=
  let t := get_extent_tail eh in
  if negb (has_feature_metadata_csum (fs_super fs)) then 1
  else
    let provided := field 4 t eh in
    match ext2fs_extent_block_csum fs inum eh with
    | inl _ => 0
    | inr calculated => c_eq provided calculated
    end.

Definition ext2fs_extent_block_csum_set (fs : csum_fs) (inum : Z) (eh : list Z) : Z * list Z :=
  let t := get_extent_tail eh in
  if negb (has_feature_metadata_csum (fs_super fs)) then (0, eh)
  else
    match ext2fs_extent_block_csum fs inum eh with
    | inl retval => (retval, eh)
    | inr crc => (0, put_field 4 t crc eh)
    end.

(** * Inode and block bitmaps: the checksum is in the group descriptor *)

Definition ext2fs_inode_bitmap_csum_verify (fs : csum_fs) (group : Z) (bitmap : list Z) (size : Z) : Z :=
  if negb (has_feature_metadata_csum (fs_super fs)) then 1
  else
    let provided := gd_read 2 26 fs group in
    let calculated := crc32c_le (csum_seed fs) (zslice 0 size bitmap) in
    if decide (s_desc_size (fs_super fs) >= 60)
    then c_eq (Z.lor provided (Z.shiftl (gd_read 2 58 fs group) 16)) calculated
    else c_eq provided (Z.land calculated 0xFFFF).

Definition ext2fs_inode_bitmap_csum_set (fs : csum_fs) (group : Z) (bitmap : list Z) (size : Z) : Z * csum_fs :=
  if negb (has_feature_metadata_csum (fs_super fs)) then (0, fs)
  else
    let crc := crc32c_le (csum_seed fs) (zslice 0 size bitmap) in
    let f := gd_write 2 26 (Z.land crc 0xFFFF) fs group in
    (0, set_fs fs (if decide (s_desc_size (fs_super fs) >= 60) then gd_write 2 58 (Z.shiftr crc 16) f group else f)).

Definition ext2fs_block_bitmap_csum_verify (fs : csum_fs) (group : Z) (bitmap : list Z) (size : Z) : Z :=
  if negb (has_feature_metadata_csum (fs_super fs)) then 1
  else
    let provided := gd_read 2 24 fs group in
    let calculated := crc32c_le (csum_seed fs) (zslice 0 size bitmap) in
    if decide (s_desc_size (fs_super fs) >= 58)
    then c_eq (Z.lor provided (Z.shiftl (gd_read 2 56 fs group) 16)) calculated
    else c_eq provided (Z.land calculated 0xFFFF).

Definition ext2fs_block_bitmap_csum_set (fs : csum_fs) (group : Z) (bitmap : list Z) (size : Z) : Z * csum_fs :=
  if negb (has_feature_metadata_csum (fs_super fs)) then (0, fs)
  else
    let crc := crc32c_le (csum_seed fs) (zslice 0 size bitmap) in
    let f := gd_write 2 24 (Z.land crc 0xFFFF) fs group in
    (0, set_fs fs (if decide (s_desc_size (fs_super fs) >= 58) then gd_write 2 56 (Z.shiftr crc 16) f group else f)).

(** * Inodes *)

Definition ext2fs_inode_csum (fs : csum_fs) (inum : Z) (inode : list Z) (has_hi : bool) : Z * list Z :=
  let size := s_inode_size (fs_super fs) in
  let old_lo := field 2 124 inode in
  let inode := put_field 2 124 0 inode in
  let old_hi := if has_hi then field 2 130 inode else 0 in
  let inode := if has_hi then put_field 2 130 0 inode else inode in
  let gen := zslice 100 4 inode in
  let crc := crc32c_le (csum_seed fs) (le_bytes 4 inum) in
  let crc := crc32c_le crc gen in
  let crc := crc32c_le crc (zslice 0 size inode) in
  let inode := put_field 2 124 old_lo inode in
  (crc, if has_hi then put_field 2 130 old_hi inode else inode).

Definition csum_has_hi (fs : filsys) (inode : list Z) : bool :=
  bool_decide (INODE_SIZE (fs_super fs) > 128) && bool_decide (field 2 128 inode >= 4).

Definition ext2fs_inode_csum_verify (fs : csum_fs) (inum : Z) (inode : list Z) : Z * list Z :=
  if negb (has_feature_metadata_csum (fs_super fs)) then (1, inode)
  else
    let has_hi := csum_has_hi fs inode in
    let provided := field 2 124 inode in
    let '(calculated, inode) := ext2fs_inode_csum fs inum inode has_hi in
    let provided := if has_hi then Z.lor provided (Z.shiftl (field 2 130 inode) 16) else provided in
    let calculated := if has_hi then calculated else Z.land calculated 0xFFFF in
    if decide (provided = calculated) then (1, inode)
    else if decide (Exists (fun c => c <> 0) (zslice 0 128 inode)) then (0, inode)
    else (1, inode).

Definition ext2fs_inode_csum_set (fs : csum_fs) (inum : Z) (inode : list Z) : Z * list Z :=
  if negb (has_feature_metadata_csum (fs_super fs)) then (0, inode)
  else
    let has_hi := csum_has_hi fs inode in
    let '(crc, inode) := ext2fs_inode_csum fs inum inode has_hi in
    let inode := put_field 2 124 (Z.land crc 0xFFFF) inode in
    (0, if has_hi then put_field 2 130 (Z.shiftr crc 16) inode else inode).

(** * Group descriptors *)

(** [EXT2_DESC_SIZE] *)
Definition DESC_SIZE (s : super_block) : Z := if has_feature_64bit s then s_desc_size s else 32.

Definition ext2fs_group_desc_csum (fs : csum_fs) (group : Z) : Z * csum_fs :=
  let size := DESC_SIZE (fs_super fs) in
  let desc := ext2fs_group_desc fs group in
  if has_feature_metadata_csum (fs_super fs) then
    let old_crc := ext2fs_bg_checksum fs group in
    let f := ext2fs_bg_checksum_set fs group 0 in
    let crc32 := crc32c_le (csum_seed fs) (le_bytes 4 group) in
    let crc32 := crc32c_le crc32 (zslice desc size (fs_group_desc f)) in
    (Z.land crc32 0xFFFF, set_fs fs (ext2fs_bg_checksum_set f group old_crc))
  else
    let crc := ext2fs_crc16 0xffff (s_uuid fs) in
    let crc := ext2fs_crc16 crc (le_bytes 4 group) in
    let crc := ext2fs_crc16 crc (zslice desc 30 (fs_group_desc fs)) in
    let crc :=
      if decide (32 < size) then ext2fs_crc16 crc (zslice (desc + 32) (size - 32) (fs_group_desc fs)) else crc in
    (crc, fs).

Definition ext2fs_group_desc_csum_verify (fs : csum_fs) (group : Z) : Z * csum_fs :=
  if ext2fs_has_group_desc_csum fs then
    let provided := ext2fs_bg_checksum fs group in
    let '(crc, fs) := ext2fs_group_desc_csum fs group in
    (c_eq provided crc, fs)
  else (1, fs).

Definition ext2fs_group_desc_csum_set (fs : csum_fs) (group : Z) : csum_fs :=
  if negb (ext2fs_has_group_desc_csum fs) then fs
  else
    let '(crc, fs) := ext2fs_group_desc_csum fs group in
    set_fs fs (ext2fs_bg_checksum_set fs group crc).

End csum.
