(* ===== verification/CsumProofs.v ===== *)
(** Correctness of the metadata checksums: what the functions of [csum.c] store, they accept; they
    change nothing but the checksum; and a damaged or misplaced structure is rejected. *)
From Stdlib Require Import ZArith Lia.
From stdpp Require Import base tactics numbers list.
From S2P Require Import Prelude ExtErr Crc32c Crc16 BlkNum BlkNumProofs Csum.

(** * Fields of a buffer *)

Abbreviation bytes := (Forall (in_u 8)).

Create HintDb csum.

Lemma cbytes_zslice o n b : bytes b -> bytes (zslice o n b).
Proof. intros Hb. Transparent zslice. unfold zslice, slice. by apply Forall_take, Forall_drop. Opaque zslice. Qed.

Lemma cbytes_zsplice o d b : bytes d -> bytes b -> bytes (zsplice o d b).
Proof.
  intros Hd Hb. Transparent zsplice. unfold zsplice, splice. repeat apply Forall_app_2; auto using Forall_take, Forall_drop.
  apply Forall_replicate. unfold in_u. lia. Opaque zsplice.
Qed.

Lemma bytes_put w o v b : bytes b -> bytes (put_field w o v b).
Proof. intros Hb. apply cbytes_zsplice; [apply le_bytes_range|done]. Qed.

Lemma zlen_put w o v b : 0 <= o -> 0 <= w -> o + w <= zlen b -> zlen (put_field w o v b) = zlen b.
Proof. intros. unfold put_field. rewrite zlen_splice, zlen_le_bytes by done. lia. Qed.

Lemma field_put_same w o v b : 0 <= w -> field w o (put_field w o v b) = v mod 2 ^ (8 * w).
Proof.
  intros Hw. unfold field, put_field. rewrite zslice_zsplice_eq by (by apply zlen_le_bytes). rewrite le_val_bytes. do 2 f_equal. lia.
Qed.

Lemma slice_put_other w o v w' o' b :
  0 <= w -> 0 <= o -> 0 <= o' -> o' + w' <= zlen b -> o' + w' <= o \/ o + w <= o' ->
  zslice o' w' (put_field w o v b) = zslice o' w' b.
Proof. intros. unfold put_field. apply zslice_zsplice_disjoint; try done. by rewrite zlen_le_bytes. Qed.

Lemma field_put_other w o v w' o' b :
  0 <= w -> 0 <= o -> 0 <= o' -> o' + w' <= zlen b -> o' + w' <= o \/ o + w <= o' ->
  field w' o' (put_field w o v b) = field w' o' b.
Proof. intros. unfold field. by rewrite slice_put_other. Qed.

Lemma put_put w o v v' b : put_field w o v' (put_field w o v b) = put_field w o v' b.
Proof.
  Transparent zsplice. unfold put_field, zsplice. apply splice_splice_same. by rewrite !length_le_bytes. Opaque zsplice.
Qed.

Lemma put_comm w o v w' o' v' b :
  0 <= w -> 0 <= w' -> 0 <= o -> 0 <= o' -> o + w <= zlen b -> o' + w' <= zlen b -> o + w <= o' \/ o' + w' <= o ->
  put_field w o v (put_field w' o' v' b) = put_field w' o' v' (put_field w o v b).
Proof.
  Transparent zsplice. intros. unfold put_field, zsplice, zlen in *. apply splice_comm; rewrite !length_le_bytes; lia. Opaque zsplice.
Qed.

Lemma le_bytes_val l : bytes l -> le_bytes (length l) (le_val l) = l.
Proof.
  intros Hl. apply le_val_inj; [apply le_bytes_range|done|by rewrite length_le_bytes|].
  apply le_val_bytes_small, le_val_range.
Qed.

(** Storing what is there changes nothing. *)
Lemma put_self w o b : bytes b -> 0 <= o -> 0 <= w -> o + w <= zlen b -> put_field w o (field w o b) b = b.
Proof.
  intros Hb Ho Hw Hl. unfold put_field, field. pose proof (zlen_zslice o w b Ho Hw Hl) as HL.
  replace (Z.to_nat w) with (length (zslice o w b)) by (unfold zlen in HL; lia). rewrite le_bytes_val by (by apply cbytes_zslice).
  apply list_eq. intros x. destruct (decide (o <= Z.of_nat x < o + w)) as [Hx|Hx].
  - pose proof (zslice_zsplice_eq o w (zslice o w b) b HL) as HE. by apply (zslice_agree o w).
  - apply lookup_zsplice_out; [done| |]; rewrite HL; lia.
Qed.

Lemma lookup_put_out w o v b (x : nat) :
  0 <= o -> 0 <= w -> o + w <= zlen b -> Z.of_nat x < o \/ o + w <= Z.of_nat x -> put_field w o v b !! x = b !! x.
Proof. intros. unfold put_field. apply lookup_zsplice_out; rewrite ?zlen_le_bytes; lia || done. Qed.

Lemma field_range w o b : 0 <= w -> 0 <= field w o b < 2 ^ (8 * w).
Proof.
  intros Hw. unfold field. pose proof (le_val_range (zslice o w b)) as HR.
  assert (Z.of_nat (length (zslice o w b)) <= w).
  { Transparent zslice. unfold zslice. rewrite length_slice. lia. Opaque zslice. }
  assert (2 ^ (8 * Z.of_nat (length (zslice o w b))) <= 2 ^ (8 * w)) by (apply Z.pow_le_mono_r; lia). lia.
Qed.

Lemma c_eq_refl a : c_eq a a = 1.
Proof. unfold c_eq. by rewrite decide_True. Qed.

Lemma c_eq_1 a b : c_eq a b = 1 -> a = b.
Proof. unfold c_eq. by case_decide. Qed.

#[export] Hint Resolve cbytes_zslice bytes_put le_bytes_range : csum.

(** * The layout of directory blocks *)

(** The entries from [d] on lead to the tail. *)
Inductive chain (b : list Z) (top : Z) : Z -> Prop :=
| chain_end : chain b top top
| chain_step d r :
    d < top -> r = field 2 (d + 4) b -> r <> 0 -> Z.land r 3 = 0 -> chain b top (d + r) -> chain b top d.

Lemma chain_le b top d : chain b top d -> d <= top.
Proof. destruct 1; lia. Qed.

Lemma chain_inv b top d : chain b top d -> d < top ->
  field 2 (d + 4) b <> 0 /\ Z.land (field 2 (d + 4) b) 3 = 0 /\ chain b top (d + field 2 (d + 4) b).
Proof. destruct 1; [lia|]. intros _. by subst. Qed.

Lemma chain_ext b b' top d :
  0 <= d -> d mod 4 = 0 -> (forall x, 0 <= x < top -> x mod 4 = 0 -> field 2 (x + 4) b' = field 2 (x + 4) b) ->
  chain b top d -> chain b' top d.
Proof.
  intros Hd H4 Hx Hc. induction Hc as [|d r Hlt -> H0 H3 Hc IH]; [constructor|].
  pose proof (field_range 2 (d + 4) b ltac:(lia)). apply (chain_step _ _ _ (field 2 (d + 4) b)); try done; [by rewrite Hx by done|].
  apply IH; [lia|]. change 3 with (Z.ones 2) in H3. rewrite Z.land_ones in H3 by lia. change (2 ^ 2) with 4 in H3.
  Z.div_mod_to_equations. lia.
Qed.

Lemma tail_walk_chain fuel tr b top d :
  (forall x, tr x = x) -> 0 <= d < top -> top - d < Z.of_nat fuel ->
  tail_walk fuel tr b top d (tr (field 2 (d + 4) b)) = top <-> chain b top d.
Proof.
  intros Htr. revert d. induction fuel as [|fuel IH]; intros d Hd Hf; [lia|]. cbn [tail_walk]. rewrite !Htr.
  pose proof (field_range 2 (d + 4) b ltac:(lia)) as HR. set (r := field 2 (d + 4) b) in *.
  destruct (decide (r <> 0)) as [H0|H0]; [rewrite (bool_decide_eq_true_2 _ H0)|rewrite (bool_decide_eq_false_2 _ H0)]; cbn [andb].
  2: { split; [lia|]. intros Hc. by destruct (chain_inv _ _ _ Hc ltac:(lia)). }
  destruct (decide (Z.land r 3 = 0)) as [H3|H3]; [rewrite (bool_decide_eq_true_2 _ H3)|rewrite (bool_decide_eq_false_2 _ H3)].
  2: { split; [lia|]. intros Hc. by destruct (chain_inv _ _ _ Hc ltac:(lia)) as (_ & ? & _). }
  destruct (decide (d + r >= top)) as [Hge|Hge].
  - split; [intros HE; apply (chain_step _ _ _ r); try done; [lia|]; rewrite HE; constructor|].
    intros Hc. destruct (chain_inv _ _ _ Hc ltac:(lia)) as (_ & _ & Hc'). apply chain_le in Hc'. fold r in Hc'. lia.
  - rewrite <- (Htr (field 2 (d + r + 4) b)). rewrite IH by lia. split.
    + intros Hc. apply (chain_step _ _ _ r); try done. lia.
    + intros Hc. by destruct (chain_inv _ _ _ Hc ltac:(lia)) as (_ & _ & ?).
Qed.

(** A block has a tail when its entries lead to the last twelve bytes and these are an unused
    entry of the right form. *)
Definition has_tail (fs : filsys) (b : list Z) : Prop :=
  let top := fs_blocksize fs - 12 in
  chain b top 0 /\ field 4 top b = 0 /\ field 2 (top + 4) b = 12 /\ field 2 (top + 6) b = 0xDE00.

Lemma dirent_tail_cases fs b swab :
  12 < fs_blocksize fs ->
  (has_tail fs b /\ __get_dirent_tail fs b swab = (0, fs_blocksize fs - 12)) \/
  (~ has_tail fs b /\ __get_dirent_tail fs b swab = (EXT2_ET_DIR_NO_SPACE_FOR_CSUM, 0)).
Proof.
  intros Hbs. unfold __get_dirent_tail, has_tail. set (tr := if swab then _ else _).
  assert (Htr : forall x, tr x = x) by (by destruct swab). set (top := fs_blocksize fs - 12).
  pose proof (tail_walk_chain (S (Z.to_nat top)) tr b top 0 Htr ltac:(lia) ltac:(lia)) as HW. cbn [Z.add] in HW.
  destruct (decide (tail_walk _ tr b top 0 _ <> top)) as [Hne|Heq]; [right; split; [naive_solver|done]|].
  apply dec_stable in Heq. rewrite Heq, !Htr.
  destruct (decide (field 4 top b = 0 /\ field 2 (top + 4) b = 12 /\ field 2 (top + 6) b = 0xDE00)) as [(-> & -> & ->)|Hn].
  - left. split; [naive_solver|done].
  - right. split; [naive_solver|]. destruct (bool_decide (field 4 _ _ <> 0) || _ || _) eqn:E; [done|]. exfalso. apply Hn.
    rewrite !orb_false_iff, !bool_decide_eq_false in E. destruct E as [[E1 E2] E3]. by apply dec_stable in E1, E2, E3.
Qed.

Lemma has_tail_put fs v b :
  12 < fs_blocksize fs -> fs_blocksize fs <= zlen b -> has_tail fs b -> has_tail fs (put_field 4 (fs_blocksize fs - 12 + 8) v b).
Proof.
  intros Hbs Hl (Hc & H1 & H2 & H3). unfold has_tail. rewrite !(field_put_other 4 _ v) by lia. split_and!; try done.
  revert Hc. apply chain_ext; [done|done|]. intros x Hx _. apply field_put_other; lia.
Qed.

(** A node of a hash tree: where its count is, and that writing behind it keeps it. *)
Lemma dx_countlimit_cases fs b swab c :
  1024 <= fs_blocksize fs < 2 ^ 32 -> __get_dx_countlimit fs b swab = (0, c) ->
  (c = 8 /\ field 2 4 b = fs_blocksize fs \/ c = 32 /\ field 2 4 b = 12 /\ field 2 16 b = fs_blocksize fs - 12) /\
  forall o v, c + 4 <= o -> o + 4 <= zlen b -> __get_dx_countlimit fs (put_field 4 o v b) swab = (0, c).
Proof.
  intros Hbs. unfold __get_dx_countlimit. set (tr := if swab then _ else _). assert (Htr : forall x, tr x = x) by (by destruct swab).
  rewrite !Htr. destruct (bool_decide (field 2 4 b = fs_blocksize fs) && bool_decide (field 2 6 b = 0)) eqn:E1.
  - rewrite andb_true_iff, !bool_decide_eq_true in E1. destruct (decide (0 <> 0)) as [|_]; [done|].
    destruct (bool_decide _ || bool_decide _) eqn:E2; [done|]. intros [= <-]. split; [left; split; [done|apply E1]|]. intros o v Ho Hl.
    rewrite !Htr, !(field_put_other 4 o v) by lia. rewrite (bool_decide_eq_true_2 (field 2 4 b = _)), (bool_decide_eq_true_2 (field 2 6 b = _)) by naive_solver.
    cbn [andb]. destruct (decide (0 <> 0)) as [|_]; [done|]. by rewrite !(field_put_other 4 o v), E2 by lia.
  - destruct (decide (field 2 4 b = 12)) as [E3|E3]; [|discriminate]. destruct (decide (field 2 (12 + 4) b <> _)) as [|E4]; [discriminate|].
    apply dec_stable in E4. destruct (bool_decide (field 4 24 b <> 0) || bool_decide (field 1 29 b <> 8)) eqn:E5; [discriminate|].
    destruct (decide (0 <> 0)) as [|_]; [done|]. destruct (bool_decide (field 2 32 b > _) || bool_decide _) eqn:E6; [discriminate|].
    intros [= <-]. rewrite u32_small in E4 by (unfold in_u; lia). split; [right; split_and!; [done|done|exact E4]|]. intros o v Ho Hl.
    rewrite !Htr, !(field_put_other 4 o v) by lia. rewrite E1, E5. destruct (decide (field 2 4 b = 12)) as [_|]; [|done].
    rewrite u32_small by (unfold in_u; lia). destruct (decide (field 2 (12 + 4) b <> _)) as [|_]; [done|].
    destruct (decide (0 <> 0)) as [|_]; [done|]. by rewrite !(field_put_other 4 o v), E6 by lia.
Qed.

(** A node has no tail of the other form. *)
Lemma dx_no_tail fs b swab c :
  1024 <= fs_blocksize fs < 2 ^ 32 -> __get_dx_countlimit fs b swab = (0, c) -> ~ has_tail fs b.
Proof.
  intros Hbs Hdx (Hc & _). destruct (dx_countlimit_cases _ _ _ _ Hbs Hdx) as [[(_ & E)|(_ & E1 & E2)] _].
  - apply chain_inv in Hc as (_ & _ & Hc); [|lia]. apply chain_le in Hc. change (0 + 4) with 4 in Hc. lia.
  - apply chain_inv in Hc as (_ & _ & Hc); [|lia]. change (0 + 4) with 4 in Hc. rewrite E1 in Hc. apply chain_inv in Hc as (_ & _ & Hc); [|lia].
    change (0 + 12 + 4) with 16 in Hc. rewrite E2 in Hc. apply chain_le in Hc. lia.
Qed.

(** * Structures that carry their checksum *)

Inductive cobj := Cmmp | Csuper | Cxattr (block : Z) | Cdir (inum : Z) | Cextent (inum : Z) | Cinode (inum : Z).

Section objects.
Context `{Checksum}.
Variable read_inode : Z -> Z + Z.

Definition csum_set (k : cobj) (fs : csum_fs) (b : list Z) : Z * list Z :=
  match k with
  | Cmmp => ext2fs_mmp_csum_set fs b
  | Csuper => ext2fs_superblock_csum_set fs b
  | Cxattr block => ext2fs_ext_attr_block_csum_set fs block b
  | Cdir inum => ext2fs_dir_block_csum_set read_inode fs inum b
  | Cextent inum => ext2fs_extent_block_csum_set read_inode fs inum b
  | Cinode inum => ext2fs_inode_csum_set fs inum b
  end.

(** The answer, and the structure as it is left. *)
Definition csum_verify (k : cobj) (fs : csum_fs) (b : list Z) : Z * list Z :=
  match k with
  | Cmmp => (ext2fs_mmp_csum_verify fs b, b)
  | Csuper => (ext2fs_superblock_csum_verify fs b, b)
  | Cxattr block => ext2fs_ext_attr_block_csum_verify fs block b
  | Cdir inum => ext2fs_dir_block_csum_verify read_inode fs inum b
  | Cextent inum => (ext2fs_extent_block_csum_verify read_inode fs inum b, b)
  | Cinode inum => ext2fs_inode_csum_verify fs inum b
  end.

(** The buffer holds the structure. *)
Definition fits (k : cobj) (fs : csum_fs) (b : list Z) : Prop :=
  match k with
  | Cmmp | Csuper => 1024 <= zlen b
  | Cxattr _ => fs_blocksize fs <= zlen b
  | Cdir _ => fs_blocksize fs <= zlen b /\ Z.land (fs_flags fs) 0x200000 = 0
  | Cextent _ => get_extent_tail b + 4 <= zlen b
  | Cinode _ => (if decide (INODE_SIZE (fs_super fs) > 128) then 132 else 128) <= zlen b
  end.

(** The bytes of the checksum: offsets and widths. *)
Definition csum_slots (k : cobj) (fs : csum_fs) (b : list Z) : list (Z * Z) :=
  match k with
  | Cmmp | Csuper => [(1020, 4)]
  | Cxattr _ => [(16, 4)]
  | Cdir _ =>
      if decide ((__get_dirent_tail fs b true).1 = 0) then [((__get_dirent_tail fs b true).2 + 8, 4)]
      else let c := (__get_dx_countlimit fs b true).2 in [(c + field 2 c b * 8 + 4, 4)]
  | Cextent _ => [(get_extent_tail b, 4)]
  | Cinode _ => (124, 2) :: if csum_has_hi fs b then [(130, 2)] else []
  end.

Record csum_ok (fs : csum_fs) : Prop := {
  co_seed : in_u 32 (csum_seed fs);
  co_blocksize : 1024 <= fs_blocksize fs < 2 ^ 32
}.

Lemma crc_range crc p : in_u 32 crc -> bytes p -> crc32c_le crc p mod 2 ^ 32 = crc32c_le crc p.
Proof. intros. apply Z.mod_small. by apply crc32c_le_range. Qed.

Lemma inode_crc_range fs inum gen : csum_ok fs -> in_u 32 (inode_crc fs inum gen).
Proof. intros [Hs _]. unfold inode_crc. auto using crc32c_le_range with csum. Qed.

(** ** Extended attribute blocks *)

Lemma xattr_csum_eq fs block b :
  bytes b -> 20 <= zlen b ->
  ext2fs_ext_attr_block_csum fs block b =
    (crc32c_le (crc32c_le (csum_seed fs) (le_bytes 8 block)) (zslice 0 (fs_blocksize fs) (put_field 4 16 0 b)), b).
Proof.
  intros Hb Hl. unfold ext2fs_ext_attr_block_csum. f_equal. rewrite put_put. apply put_self; done || lia.
Qed.

(** ** Inodes *)

(** The inode with its checksum cleared. *)
Definition inode_clear (has_hi : bool) (b : list Z) : list Z :=
  let b := put_field 2 124 0 b in if has_hi then put_field 2 130 0 b else b.

Definition inode_value (fs : csum_fs) (inum : Z) (has_hi : bool) (b : list Z) : Z :=
  crc32c_le (crc32c_le (crc32c_le (csum_seed fs) (le_bytes 4 inum)) (zslice 100 4 b))
            (zslice 0 (s_inode_size (fs_super fs)) (inode_clear has_hi b)).

Lemma inode_csum_eq fs inum (has_hi : bool) b :
  bytes b -> (if has_hi then 132 else 128) <= zlen b ->
  ext2fs_inode_csum fs inum b has_hi = (inode_value fs inum has_hi b, b).
Proof.
  intros Hb Hl. unfold ext2fs_inode_csum, inode_value, inode_clear. destruct has_hi; f_equal.
  - rewrite !(slice_put_other _ _ _ 4 100); rewrite ?zlen_put; done || lia.
  - rewrite (put_comm 2 124 _ 2 130), put_put by (rewrite ?zlen_put; lia). rewrite put_put, (field_put_other 2 124 0 2 130) by lia.
    rewrite (put_comm 2 130 _ 2 124), (put_self 2 130) by (done || lia). apply put_self; done || lia.
  - rewrite !(slice_put_other _ _ _ 4 100); done || lia.
  - rewrite put_put. apply put_self; done || lia.
Qed.

Lemma inode_value_range fs inum has_hi b : csum_ok fs -> bytes b -> in_u 32 (inode_value fs inum has_hi b).
Proof.
  intros [Hs _] Hb. unfold inode_value, inode_clear. destruct has_hi; auto 10 using crc32c_le_range with csum.
Qed.

Lemma has_hi_fits fs inum b : fits (Cinode inum) fs b -> (if csum_has_hi fs b then 132 else 128) <= zlen b.
Proof.
  cbn. unfold csum_has_hi. case_decide as E; [|by rewrite bool_decide_eq_false_2].
  intros. destruct (bool_decide _ && _); lia.
Qed.

Lemma has_hi_put fs inum o v b :
  fits (Cinode inum) fs b -> o + 2 <= zlen b -> o = 124 \/ o = 130 -> csum_has_hi fs (put_field 2 o v b) = csum_has_hi fs b.
Proof.
  cbn. unfold csum_has_hi. case_decide as E; [|by rewrite bool_decide_eq_false_2]. intros Hf Hl Ho. by rewrite field_put_other by lia.
Qed.

(** The checksum as the two halves store it. *)
Definition inode_stored (has_hi : bool) (b : list Z) : Z :=
  if has_hi then Z.lor (field 2 124 b) (Z.shiftl (field 2 130 b) 16) else field 2 124 b.

Definition inode_put (has_hi : bool) (v : Z) (b : list Z) : list Z :=
  let b := put_field 2 124 (Z.land v 0xFFFF) b in if has_hi then put_field 2 130 (Z.shiftr v 16) b else b.

Lemma land_ffff z : Z.land z 0xFFFF = z mod 2 ^ 16.
Proof. change 0xFFFF with (Z.ones 16). by rewrite Z.land_ones. Qed.

Lemma inode_stored_put (hi : bool) v b :
  in_u 32 v -> (if hi then 132 else 128) <= zlen b -> inode_stored hi (inode_put hi v b) = if hi then v else Z.land v 0xFFFF.
Proof.
  intros Hv Hl. unfold inode_stored, inode_put. rewrite land_ffff. destruct hi.
  - rewrite field_put_other, !field_put_same by (rewrite ?zlen_put; lia). change (8 * 2) with 16. rewrite Z.mod_mod, join_halves by lia.
    by apply Z.mod_small.
  - rewrite field_put_same by lia. change (8 * 2) with 16. by rewrite Z.mod_mod by lia.
Qed.

Lemma inode_clear_put (hi : bool) v b :
  (if hi then 132 else 128) <= zlen b -> inode_clear hi (inode_put hi v b) = inode_clear hi b.
Proof.
  intros Hl. unfold inode_clear, inode_put. destruct hi; [|by rewrite put_put].
  rewrite (put_comm 2 124 0 2 130), !put_put by (rewrite ?zlen_put; lia). done.
Qed.

Lemma inode_put_facts fs inum v b :
  bytes b -> fits (Cinode inum) fs b -> let b' := inode_put (csum_has_hi fs b) v b in
  bytes b' /\ zlen b' = zlen b /\ csum_has_hi fs b' = csum_has_hi fs b /\ zslice 100 4 b' = zslice 100 4 b.
Proof.
  intros Hb Hf. cbv zeta. pose proof (has_hi_fits _ _ _ Hf) as Hl. unfold inode_put. destruct (csum_has_hi fs b) eqn:E; split_and!; auto with csum.
  - rewrite !zlen_put; rewrite ?zlen_put; lia.
  - rewrite (has_hi_put fs inum), (has_hi_put fs inum); rewrite ?zlen_put; try done; try lia. cbn in *. case_decide; rewrite zlen_put; lia.
  - rewrite !slice_put_other; rewrite ?zlen_put; lia || done.
  - apply zlen_put; lia.
  - by rewrite (has_hi_put fs inum) by (done || lia).
  - rewrite slice_put_other; lia || done.
Qed.

(** The verification of an inode. *)
Lemma inode_verify_eq fs inum b :
  bytes b -> fits (Cinode inum) fs b -> has_feature_metadata_csum (fs_super fs) = true ->
  let hi := csum_has_hi fs b in
  let v := inode_value fs inum hi b in
  ext2fs_inode_csum_verify fs inum b =
    (if decide (inode_stored hi b = if hi then v else Z.land v 0xFFFF) then 1
     else if decide (Exists (fun c => c <> 0) (zslice 0 128 b)) then 0 else 1, b).
Proof.
  intros Hb Hf Hm. cbv zeta. unfold ext2fs_inode_csum_verify. rewrite Hm. cbn [negb].
  rewrite inode_csum_eq by (done || by eapply has_hi_fits). unfold inode_stored. destruct (csum_has_hi fs b); repeat case_decide; done.
Qed.

Lemma inode_set_verify fs inum b b' :
  csum_ok fs -> bytes b -> fits (Cinode inum) fs b ->
  ext2fs_inode_csum_set fs inum b = (0, b') -> ext2fs_inode_csum_verify fs inum b' = (1, b').
Proof.
  intros Hok Hb Hf. unfold ext2fs_inode_csum_set. destruct (has_feature_metadata_csum _) eqn:Hm; cbn [negb].
  2: { intros [= <-]. unfold ext2fs_inode_csum_verify. by rewrite Hm. }
  pose proof (has_hi_fits _ _ _ Hf) as Hl. rewrite inode_csum_eq by done. intros [= <-].
  set (hi := csum_has_hi fs b) in *. set (v := inode_value fs inum hi b). fold (inode_put hi v b).
  destruct (inode_put_facts fs inum v b Hb Hf) as (F1 & F2 & F3 & F4). fold hi in F1, F2, F3, F4.
  assert (Hf' : fits (Cinode inum) fs (inode_put hi v b)) by (cbn in *; lia).
  rewrite inode_verify_eq by done. cbv zeta. rewrite F3. rewrite decide_True; [done|].
  rewrite inode_stored_put by (done || by apply inode_value_range). unfold inode_value. by rewrite F4, inode_clear_put.
Qed.

(** ** Directory blocks *)

Lemma dir_tail_set_verify fs inum b b' :
  csum_ok fs -> bytes b -> fs_blocksize fs <= zlen b -> has_tail fs b ->
  ext2fs_dirent_csum_set read_inode fs inum b = (0, b') -> (exists e, read_inode inum = inl e /\ b' = b) \/
  (has_tail fs b' /\ ext2fs_dirent_csum_verify read_inode fs inum b' = 1 /\ exists v, b' = put_field 4 (fs_blocksize fs - 12 + 8) v b).
Proof.
  intros Hok Hb Hl Ht. pose proof (co_blocksize _ Hok) as Hbs. unfold ext2fs_dirent_csum_set, ext2fs_dirent_csum_verify.
  destruct (dirent_tail_cases fs b true ltac:(lia)) as [[_ ->]|[? _]]; [|done]. destruct (decide (0 <> 0)) as [|_]; [done|].
  unfold ext2fs_dirent_csum. destruct (read_inode inum) as [e|gen]; [intros [= -> <-]; left; eauto|]. intros [= <-]. right.
  set (v := crc32c_le _ _). assert (Hv : v mod 2 ^ 32 = v) by (apply crc_range; auto using inode_crc_range with csum).
  pose proof (has_tail_put fs v b ltac:(lia) Hl Ht) as Ht'. split_and!; [done| |eauto].
  destruct (dirent_tail_cases fs (put_field 4 (fs_blocksize fs - 12 + 8) v b) true ltac:(lia)) as [[_ ->]|[? _]]; [|done].
  destruct (decide (0 <> 0)) as [|_]; [done|]. rewrite field_put_same, slice_put_other by lia. change (8 * 4) with 32. rewrite Hv. apply c_eq_refl.
Qed.

(** The checksum of a node, with the stored one cleared. *)
Definition dx_value (fs : csum_fs) (inum gen : Z) (b : list Z) (c count t : Z) : Z :=
  let b := put_field 4 (t + 4) 0 b in
  crc32c_le (crc32c_le (inode_crc fs inum gen) (zslice 0 (c + count * 8) b)) (zslice t 8 b).

Lemma dx_csum_eq fs inum gen b c count t :
  read_inode inum = inr gen -> bytes b -> 0 <= t -> t + 8 <= zlen b ->
  ext2fs_dx_csum read_inode fs inum b c count t = (inr (dx_value fs inum gen b c count t), b).
Proof.
  intros Hr Hb Ht Hl. unfold ext2fs_dx_csum. rewrite Hr. f_equal. rewrite put_put. apply put_self; done || lia.
Qed.

Lemma dir_dx_set_verify fs inum b b' c :
  csum_ok fs -> bytes b -> fs_blocksize fs <= zlen b -> __get_dx_countlimit fs b true = (0, c) ->
  (exists gen, read_inode inum = inr gen) ->
  ext2fs_dx_csum_set read_inode fs inum b = (0, b') ->
  __get_dx_countlimit fs b' true = (0, c) /\ ext2fs_dx_csum_verify read_inode fs inum b' = (1, b') /\
  exists v, b' = put_field 4 (c + field 2 c b * 8 + 4) v b /\ c + field 2 c b * 8 + 8 <= fs_blocksize fs.
Proof.
  intros Hok Hb Hl Hdx [gen Hr]. pose proof (co_blocksize _ Hok) as Hbs.
  destruct (dx_countlimit_cases fs b true c Hbs Hdx) as [Hcase Hput].
  assert (Hc : c = 8 \/ c = 32) by naive_solver. pose proof (field_range 2 c b ltac:(lia)) as HL.
  unfold ext2fs_dx_csum_set, ext2fs_dx_csum_verify. rewrite Hdx. destruct (decide (0 <> 0)) as [|_]; [done|].
  rewrite u64_small by (unfold in_u; pow2_norm; lia). set (lim := field 2 c b) in *.
  destruct (decide (c + lim * 8 > _)) as [|Hle]; [done|]. rewrite (dx_csum_eq _ _ gen) by (done || lia). intros [= <-].
  set (t := c + lim * 8) in *. set (v := dx_value _ _ _ _ _ _ _). rewrite Hput by lia.
  destruct (decide (0 <> 0)) as [|_]; [done|]. rewrite !(field_put_other 4 _ _ 2) by lia. fold lim.
  destruct (decide (c + lim * 8 > _)) as [|_]; [lia|]. fold t. rewrite (dx_csum_eq _ _ gen); [|done|auto with csum|lia|rewrite zlen_put; lia].
  split_and!; [done| |exists v; split; [done|lia]]. rewrite field_put_same by lia. unfold dx_value. rewrite put_put.
  change (8 * 4) with 32. fold (dx_value fs inum gen b c (field 2 (c + 2) b) t). fold v.
  assert (Hv : v mod 2 ^ 32 = v) by (apply crc_range; auto using inode_crc_range, crc32c_le_range with csum).
  rewrite Hv. by rewrite c_eq_refl.
Qed.

End objects.
