(* ===== verification/CsumTheorems.v ===== *)
(** The properties of the metadata checksums of [csum.c]. *)
From Stdlib Require Import ZArith Lia.
From stdpp Require Import base tactics numbers list.
From S2P Require Import Prelude ExtErr Crc32c Crc16 BlkNum BlkNumProofs Csum CsumProofs.

Section roundtrip.
Context `{Checksum}.
Variable read_inode : Z -> Z + Z.

(** The inode whose generation goes into the checksum can be read. *)
Definition readable (k : cobj) : Prop :=
  match k with
  | Cdir inum | Cextent inum => exists gen, read_inode inum = inr gen
  | _ => True
  end.

(** What a successful update did: verification accepts, and only the given bytes changed. *)
Definition stored (k : cobj) (fs : csum_fs) (b b' : list Z) : Prop :=
  csum_verify read_inode k fs b' = (1, b') /\ zlen b' = zlen b /\
  forall x : nat, (forall o w, (o, w) ∈ csum_slots k fs b -> Z.of_nat x < o \/ o + w <= Z.of_nat x) -> b' !! x = b !! x.

Lemma stored_put k (fs : csum_fs) b o v :
  csum_slots k fs b = [(o, 4)] -> 0 <= o -> o + 4 <= zlen b ->
  csum_verify read_inode k fs (put_field 4 o v b) = (1, put_field 4 o v b) -> stored k fs b (put_field 4 o v b).
Proof.
  intros Hs Ho Hl Hv. split_and!; [done|apply zlen_put; lia|]. intros x Hx. apply lookup_put_out; try lia. apply Hx. rewrite Hs. by constructor.
Qed.

Lemma stored_same k fs b : csum_verify read_inode k fs b = (1, b) -> stored k fs b b.
Proof. done. Qed.

(** Without the feature nothing is stored and everything is accepted. *)
Lemma csum_off k (fs : csum_fs) b :
  has_feature_metadata_csum (fs_super fs) = false ->
  csum_set read_inode k fs b = (0, b) /\ csum_verify read_inode k fs b = (1, b).
Proof.
  intros Hm. destruct k; cbn; unfold ext2fs_mmp_csum_set, ext2fs_mmp_csum_verify, ext2fs_superblock_csum_set,
    ext2fs_superblock_csum_verify, ext2fs_ext_attr_block_csum_set, ext2fs_ext_attr_block_csum_verify,
    ext2fs_dir_block_csum_set, ext2fs_dir_block_csum_verify, ext2fs_extent_block_csum_set,
    ext2fs_extent_block_csum_verify, ext2fs_inode_csum_set, ext2fs_inode_csum_verify; rewrite Hm; done.
Qed.

Section on.
Variable fs : csum_fs.
Hypothesis Hok : csum_ok fs.
Hypothesis Hm : has_feature_metadata_csum (fs_super fs) = true.
Implicit Types b : list Z.

Lemma fixed_verify seed b :
  in_u 32 seed -> bytes b -> 1024 <= zlen b ->
  let b' := put_field 4 1020 (crc32c_le seed (zslice 0 1020 b)) b in
  c_eq (field 4 1020 b') (crc32c_le seed (zslice 0 1020 b')) = 1.
Proof.
  intros Hs Hb Hl. cbv zeta. rewrite field_put_same, slice_put_other by lia. change (8 * 4) with 32.
  rewrite crc_range by auto with csum. apply c_eq_refl.
Qed.

Lemma xattr_stored block b :
  bytes b -> fs_blocksize fs <= zlen b ->
  exists v, ext2fs_ext_attr_block_csum_set fs block b = (0, put_field 4 16 v b) /\
    ext2fs_ext_attr_block_csum_verify fs block (put_field 4 16 v b) = (1, put_field 4 16 v b).
Proof.
  intros Hb Hl. pose proof (co_blocksize _ Hok) as Hbs. unfold ext2fs_ext_attr_block_csum_set, ext2fs_ext_attr_block_csum_verify.
  rewrite Hm. cbn [negb]. rewrite xattr_csum_eq by (done || lia). set (v := crc32c_le _ _). exists v. split; [done|].
  rewrite xattr_csum_eq by (auto with csum || rewrite ?zlen_put; lia). rewrite put_put, field_put_same by lia. change (8 * 4) with 32.
  pose proof (co_seed _ Hok). assert (Hv : v mod 2 ^ 32 = v) by (apply crc_range; auto using crc32c_le_range with csum).
  fold v. by rewrite Hv, c_eq_refl.
Qed.

Lemma extent_stored inum gen b :
  read_inode inum = inr gen -> bytes b -> get_extent_tail b + 4 <= zlen b ->
  exists v, ext2fs_extent_block_csum_set read_inode fs inum b = (0, put_field 4 (get_extent_tail b) v b) /\
    ext2fs_extent_block_csum_verify read_inode fs inum (put_field 4 (get_extent_tail b) v b) = 1.
Proof.
  intros Hr Hb Hl. unfold ext2fs_extent_block_csum_set, ext2fs_extent_block_csum_verify, ext2fs_extent_block_csum. rewrite Hm, Hr.
  cbn [negb]. set (v := crc32c_le _ _). exists v. split; [done|]. pose proof (field_range 2 4 b ltac:(lia)) as HR.
  set (t := get_extent_tail b) in *. assert (Ht : 12 <= t) by (unfold t, get_extent_tail; lia).
  assert (HT : get_extent_tail (put_field 4 t v b) = t) by (unfold get_extent_tail; rewrite field_put_other by lia; done).
  rewrite HT, field_put_same, slice_put_other by lia. fold v. change (8 * 4) with 32.
  assert (Hv : v mod 2 ^ 32 = v) by (apply crc_range; auto using inode_crc_range with csum). rewrite Hv. apply c_eq_refl.
Qed.

Lemma inode_stored_frame inum b b' :
  bytes b -> fits (Cinode inum) fs b -> ext2fs_inode_csum_set fs inum b = (0, b') -> stored (Cinode inum) fs b b'.
Proof.
  intros Hb Hf Hs. split; [by apply (inode_set_verify fs inum b)|]. revert Hs. unfold ext2fs_inode_csum_set. rewrite Hm. cbn [negb].
  pose proof (has_hi_fits _ _ _ Hf) as Hl. rewrite inode_csum_eq by done. intros [= <-]. set (v := inode_value _ _ _ _).
  destruct (inode_put_facts fs inum v b Hb Hf) as (_ & F2 & _). split; [done|]. cbn [csum_slots]. intros x Hx.
  assert (H1 := Hx 124 2 ltac:(by constructor)). destruct (csum_has_hi fs b).
  - assert (H2 := Hx 130 2 ltac:(by do 2 constructor)). rewrite !lookup_put_out; rewrite ?zlen_put; done || lia.
  - apply lookup_put_out; done || lia.
Qed.

Lemma dir_stored inum b b' :
  bytes b -> fits (Cdir inum) fs b -> readable (Cdir inum) ->
  ext2fs_dir_block_csum_set read_inode fs inum b = (0, b') -> stored (Cdir inum) fs b b'.
Proof.
  intros Hb [Hl Hflag] [gen Hr]. pose proof (co_blocksize _ Hok) as Hbs. unfold ext2fs_dir_block_csum_set. rewrite Hm. cbn [negb].
  destruct (dirent_tail_cases fs b true ltac:(lia)) as [[Ht HE]|[Ht HE]].
  - rewrite HE. cbn [fst]. destruct (decide (0 = 0)) as [_|]; [|done]. intros Hs.
    destruct (dir_tail_set_verify read_inode fs inum b b' Hok Hb Hl Ht Hs) as [(e & ? & _)|(Ht' & Hv & v & ->)]; [congruence|].
    apply stored_put; [cbn; rewrite HE; done|lia|lia|]. cbn. unfold ext2fs_dir_block_csum_verify. rewrite Hm, Hv. cbn [negb].
    destruct (dirent_tail_cases fs (put_field 4 (fs_blocksize fs - 12 + 8) v b) true ltac:(lia)) as [[_ ->]|[? _]]; done.
  - rewrite HE. cbn [fst]. destruct (decide (EXT2_ET_DIR_NO_SPACE_FOR_CSUM = 0)) as [|_]; [done|].
    destruct (__get_dx_countlimit fs b true) as [r c] eqn:Hdx. cbn [fst]. destruct (decide (r = 0)) as [->|Hn].
    2: { rewrite Hflag. by destruct (decide (0 <> 0)). }
    intros Hs. destruct (dir_dx_set_verify read_inode fs inum b b' c Hok Hb Hl Hdx ltac:(eauto) Hs) as (Hdx' & Hv & v & -> & Hfit).
    destruct (dx_countlimit_cases fs b true c Hbs Hdx) as [Hc _]. pose proof (field_range 2 c b ltac:(lia)) as HR.
    apply stored_put; [cbn; rewrite HE, Hdx; done|naive_solver lia|lia|]. cbn. unfold ext2fs_dir_block_csum_verify. rewrite Hm. cbn [negb].
    pose proof (dx_no_tail fs _ true c Hbs Hdx') as Hnt.
    destruct (dirent_tail_cases fs (put_field 4 (c + field 2 c b * 8 + 4) v b) true ltac:(lia)) as [[? _]|[_ ->]]; [done|].
    rewrite Hdx'. cbn [fst]. by rewrite Hv.
Qed.

End on.

(** C25: whatever an update of a checksum stores, verification accepts, for MMP blocks,
    superblocks, attribute blocks, both forms of directory blocks, extent blocks and inodes of
    both sizes; and the update changes no byte outside the checksum field. *)
Theorem csum_set_verify k (fs : csum_fs) b b' :
  csum_ok fs -> bytes b -> fits k fs b -> readable k -> csum_set read_inode k fs b = (0, b') ->
  csum_verify read_inode k fs b' = (1, b') /\ zlen b' = zlen b /\
  forall x : nat, (forall o w, (o, w) ∈ csum_slots k fs b -> Z.of_nat x < o \/ o + w <= Z.of_nat x) -> b' !! x = b !! x.
Proof.
  intros Hok Hb Hf Hr Hs. change (stored k fs b b'). destruct (has_feature_metadata_csum (fs_super fs)) eqn:Hm.
  2: { destruct (csum_off k fs b Hm) as [E1 E2]. rewrite E1 in Hs. injection Hs as <-. by apply stored_same. }
  destruct k as [| |block|inum|inum|inum]; cbn in Hf, Hr.
  - cbn in Hs. unfold ext2fs_mmp_csum_set in Hs. rewrite Hm in Hs. injection Hs as <-. apply stored_put; [done|lia|lia|].
    cbn. unfold ext2fs_mmp_csum_verify. rewrite Hm. f_equal. by apply fixed_verify; [apply Hok|..].
  - cbn in Hs. unfold ext2fs_superblock_csum_set in Hs. rewrite Hm in Hs. injection Hs as <-. apply stored_put; [done|lia|lia|].
    cbn. unfold ext2fs_superblock_csum_verify. rewrite Hm. f_equal. by apply fixed_verify.
  - pose proof (co_blocksize _ Hok). destruct (xattr_stored fs Hok Hm block b Hb Hf) as (v & E1 & E2). cbn in Hs. rewrite E1 in Hs. injection Hs as <-.
    apply stored_put; [done|lia|lia|done].
  - by apply dir_stored.
  - destruct Hr as [gen Hr]. destruct (extent_stored fs Hok Hm inum gen b Hr Hb Hf) as (v & E1 & E2). cbn in Hs. rewrite E1 in Hs.
    injection Hs as <-. pose proof (field_range 2 4 b ltac:(lia)). apply stored_put; [done|unfold get_extent_tail; lia|lia|]. cbn. by rewrite E2.
  - by apply inode_stored_frame.
Qed.

End roundtrip.

(** * Damage *)

(** [b'] is [b] with a change inside the [n] bytes at [o]. *)
Record damaged (b b' : list Z) (o n : Z) : Prop := {
  dm_bytes : bytes b /\ bytes b';
  dm_len : zlen b' = zlen b;
  dm_window : 0 <= o /\ 0 <= n <= 4 /\ o + n <= zlen b;
  dm_out (x : nat) : Z.of_nat x < o \/ o + n <= Z.of_nat x -> b' !! x = b !! x;
  dm_in : exists x : nat, o <= Z.of_nat x < o + n /\ b' !! x <> b !! x
}.

Lemma damaged_slice b b' o n o' n' :
  damaged b b' o n -> 0 <= o' -> o' + n' <= o \/ o + n <= o' -> zslice o' n' b' = zslice o' n' b.
Proof. intros Hd Ho Hdis. apply zslice_ext; [done|]. intros x Hx. apply (dm_out _ _ _ _ Hd). lia. Qed.

Lemma damaged_field b b' o n w o' :
  damaged b b' o n -> 0 <= o' -> o' + w <= o \/ o + n <= o' -> field w o' b' = field w o' b.
Proof. intros. unfold field. by erewrite damaged_slice. Qed.

Lemma damaged_put b b' o n w o' v :
  damaged b b' o n -> 0 <= o' -> 0 <= w -> o' + w <= zlen b -> o' + w <= o \/ o + n <= o' ->
  damaged (put_field w o' v b) (put_field w o' v b') o n.
Proof.
  intros [[B1 B2] Hl Hw Hout (x & Hx & Hne)] Ho Hww Hle Hdis. split; rewrite ?zlen_put by lia; auto with csum.
  - intros y Hy. destruct (decide (o' <= Z.of_nat y < o' + w)) as [Hin|Hnin].
    + apply (zslice_agree o' w); try done. unfold put_field. by rewrite !zslice_zsplice_eq by (by apply zlen_le_bytes).
    + rewrite !lookup_put_out by lia. by apply Hout.
  - exists x. split; [done|]. rewrite !lookup_put_out by lia. done.
Qed.

(** CRC-32C tells the two apart. *)
Lemma crc_damaged seed N b b' o n :
  in_u 32 seed -> damaged b b' o n -> o + n <= N -> N <= zlen b ->
  crc32c_le seed (zslice 0 N b) <> crc32c_le seed (zslice 0 N b').
Proof.
  intros Hs Hd HN Hl HE. destruct (dm_window _ _ _ _ Hd) as (Ho & Hn & _). pose proof (dm_len _ _ _ _ Hd) as HL.
  destruct (dm_in _ _ _ _ Hd) as (x & Hx & Hne). apply Hne.
  assert (Hsplit : forall l, zslice 0 N l = zslice 0 o l ++ zslice o n l ++ zslice (o + n) (N - o - n) l).
  { intros l. rewrite <- (zslice_split o n (N - o - n)) by lia. rewrite <- (zslice_split 0 o (n + (N - o - n))) by lia. f_equal. lia. }
  rewrite !Hsplit in HE. rewrite (damaged_slice b b' o n 0 o), (damaged_slice b b' o n (o + n)) in HE by (done || lia).
  destruct (dm_bytes _ _ _ _ Hd) as [B1 B2]. assert (zlen (zslice o n b) = n) by (apply zlen_zslice; lia).
  assert (zlen (zslice o n b') = n) by (apply zlen_zslice; lia). unfold zlen in *.
  apply crc32c_burst in HE; [|done|repeat apply Forall_app_2; auto with csum..|lia|lia].
  by apply (zslice_agree o n).
Qed.

(** Different registers stay different. *)
Lemma crc_inj crc1 crc2 p :
  in_u 32 crc1 -> in_u 32 crc2 -> bytes p -> crc32c_le crc1 p = crc32c_le crc2 p -> crc1 = crc2.
Proof.
  intros H1 H2 Hp HE. cbn in HE. rewrite !ext2fs_crc32c_le_bitwise in HE by done. by apply crc32_le_bitwise_inj in HE.
Qed.

Lemma c_eq_0 a b : a <> b -> c_eq a b = 0.
Proof. intros. unfold c_eq. by rewrite decide_False. Qed.

Lemma c_eq_detect f v v' : c_eq f v = 1 -> v <> v' -> c_eq f v' = 0.
Proof. intros ->%c_eq_1 Hne. by apply c_eq_0. Qed.

Section damage.
Variable read_inode : Z -> Z + Z.
Variable fs : csum_fs.
Hypothesis Hok : csum_ok fs.
Hypothesis Hm : has_feature_metadata_csum (fs_super fs) = true.

(** Bytes that the checksum protects: inside what it covers, and no field that says where the
    checksum is or how it is computed.  Inodes are protected when they store all 32 bits. *)
Definition protects (k : cobj) (b : list Z) (o n : Z) : Prop :=
  match k with
  | Cmmp | Csuper => o + n <= 1020
  | Cxattr _ => (o + n <= 16 \/ 20 <= o) /\ o + n <= fs_blocksize fs
  | Cdir _ => has_tail fs b /\ o + n <= fs_blocksize fs - 12
  | Cextent _ => (o + n <= 4 \/ 6 <= o) /\ o + n <= get_extent_tail b
  | Cinode _ =>
      csum_has_hi fs b = true /\ Exists (fun c => c <> 0) (zslice 0 128 b) /\
      (o + n <= 100 \/ 104 <= o) /\ (o + n <= 124 \/ 126 <= o) /\ (o + n <= 128 \/ 132 <= o) /\
      o + n <= s_inode_size (fs_super fs) <= zlen b
  end.

(** The damage leaves a structure of the same kind. *)
Definition same_kind (k : cobj) (b' : list Z) : Prop :=
  match k with
  | Cdir _ => has_tail fs b'
  | Cinode _ => Exists (fun c => c <> 0) (zslice 0 128 b')
  | _ => True
  end.

Lemma inode_detects inum b b' o n :
  fits (Cinode inum) fs b -> damaged b b' o n -> protects (Cinode inum) b o n -> same_kind (Cinode inum) b' ->
  (ext2fs_inode_csum_verify fs inum b).1 = 1 -> (ext2fs_inode_csum_verify fs inum b').1 = 0.
Proof.
  intros Hf Hd (Hhi & Hnz & P1 & P2 & P3 & P4) Hk. destruct (dm_bytes _ _ _ _ Hd) as [B1 B2]. pose proof (dm_len _ _ _ _ Hd) as HL.
  pose proof (has_hi_fits _ _ _ Hf) as Hl. rewrite Hhi in Hl.
  assert (Hf' : fits (Cinode inum) fs b') by (cbn in *; lia).
  assert (Hhi' : csum_has_hi fs b' = true) by (rewrite <- Hhi; unfold csum_has_hi; by rewrite (damaged_field b b' o n) by (done || lia)).
  rewrite !inode_verify_eq by done. cbv zeta. rewrite Hhi, Hhi'. cbn [fst].
  destruct (decide (inode_stored true b = _)) as [E1|]; [|by rewrite decide_True]. intros _. cbn in Hk. rewrite (decide_True _ _ Hk).
  rewrite decide_False; [done|]. unfold inode_stored in *. rewrite !(damaged_field b b' o n), E1 by (done || lia). unfold inode_value.
  rewrite (damaged_slice b b' o n 100 4) by (done || lia). pose proof (co_seed _ Hok).
  apply (crc_damaged _ _ _ _ o n); [auto using crc32c_le_range with csum| |lia|unfold inode_clear; rewrite !zlen_put; rewrite ?zlen_put; lia].
  unfold inode_clear. apply damaged_put; [apply damaged_put; done || lia|lia|lia|rewrite zlen_put; lia|lia].
Qed.

(** C26: CRC-32C protection of metadata: when a structure verifies, the same structure with any
    change inside four consecutive protected bytes does not. *)
Theorem csum_detects_damage k b b' o n :
  fits k fs b -> readable read_inode k -> protects k b o n -> damaged b b' o n -> same_kind k b' ->
  (csum_verify read_inode k fs b).1 = 1 -> (csum_verify read_inode k fs b').1 = 0.
Proof.
  intros Hf Hr Hp Hd Hk. pose proof Hok as [Hs Hbs]. pose proof (dm_len _ _ _ _ Hd) as HL.
  destruct (dm_bytes _ _ _ _ Hd) as [B1 B2]. destruct (dm_window _ _ _ _ Hd) as (W1 & W2 & W3).
  destruct k as [| |block|inum|inum|inum]; cbn in Hf, Hp, Hr, Hk; cbn [csum_verify fst].
  - unfold ext2fs_mmp_csum_verify. rewrite Hm, (damaged_field b b' o n) by (done || lia). cbn [negb]. intros HV.
    apply (c_eq_detect _ _ _ HV). apply (crc_damaged _ _ _ _ o n); done || lia.
  - unfold ext2fs_superblock_csum_verify. rewrite Hm, (damaged_field b b' o n) by (done || lia). cbn [negb]. intros HV.
    apply (c_eq_detect _ _ _ HV). apply (crc_damaged _ _ _ _ o n); done || lia.
  - unfold ext2fs_ext_attr_block_csum_verify. rewrite Hm. cbn [negb]. rewrite !xattr_csum_eq by (done || lia). cbn [fst].
    rewrite (damaged_field b b' o n) by (done || lia). intros HV. apply (c_eq_detect _ _ _ HV). apply (crc_damaged _ _ _ _ o n);
      [auto using crc32c_le_range with csum|apply damaged_put; done || lia|lia|rewrite zlen_put; lia].
  - destruct Hp as [Ht Hp], Hr as [gen Hr]. unfold ext2fs_dir_block_csum_verify, ext2fs_dirent_csum_verify. rewrite Hm. cbn [negb].
    destruct (dirent_tail_cases fs b true ltac:(lia)) as [[_ ->]|[? _]]; [|done].
    destruct (dirent_tail_cases fs b' true ltac:(lia)) as [[_ ->]|[? _]]; [|done].
    cbn [fst]. destruct (decide (0 = 0)) as [_|]; [|done]. destruct (decide (0 <> 0)) as [|_]; [done|].
    unfold ext2fs_dirent_csum. rewrite Hr. cbn [fst]. rewrite (damaged_field b b' o n) by (done || lia). intros HV.
    apply (c_eq_detect _ _ _ HV). apply (crc_damaged _ _ _ _ o n); auto using inode_crc_range; lia.
  - destruct Hr as [gen Hr]. unfold ext2fs_extent_block_csum_verify, ext2fs_extent_block_csum. rewrite Hm, Hr. cbn [negb].
    assert (HT : get_extent_tail b' = get_extent_tail b) by (unfold get_extent_tail; by rewrite (damaged_field b b' o n) by (done || lia)).
    pose proof (field_range 2 4 b ltac:(lia)). assert (12 <= get_extent_tail b) by (unfold get_extent_tail; lia).
    rewrite HT, (damaged_field b b' o n) by (done || lia). intros HV. apply (c_eq_detect _ _ _ HV).
    apply (crc_damaged _ _ _ _ o n); auto using inode_crc_range; lia.
  - by apply (inode_detects inum b b' o n).
Qed.

#[local] Opaque ext2fs_crc32c_le.

(** Numbers of 32 bits leave different registers. *)
Lemma crc_number seed i j (w : nat) :
  (4 <= w)%nat -> in_u 32 seed -> in_u 32 i -> in_u 32 j -> i <> j -> crc32c_le seed (le_bytes w i) <> crc32c_le seed (le_bytes w j).
Proof.
  intros Hw Hs Hi Hj Hne HE. apply Hne. assert (exists m, w = 4 + m)%nat as [m ->] by (exists (w - 4)%nat; lia).
  assert (Hsplit : forall z, in_u 32 z -> le_bytes (4 + m) z = [] ++ le_bytes 4 z ++ le_bytes m 0).
  { intros z Hz. cbn [app le_bytes Nat.add]. do 5 f_equal. unfold in_u in Hz. rewrite !Z.div_div by lia. apply Z.div_small. pow2_norm. lia. }
  rewrite !Hsplit in HE by done. apply crc32c_burst in HE; [|done|repeat apply Forall_app_2; auto with csum..|done|done].
  apply (f_equal le_val) in HE. by rewrite !le_val_bytes_small in HE.
Qed.

Lemma inode_crc_number i j gen : in_u 32 i -> in_u 32 j -> i <> j -> inode_crc fs i gen <> inode_crc fs j gen.
Proof.
  intros Hi Hj Hne HE. pose proof (co_seed _ Hok). unfold inode_crc in HE.
  apply crc_inj in HE; auto using crc32c_le_range with csum. by apply (crc_number _ i j 4) in HE; [|lia|..].
Qed.

(** C27: attribute, directory and extent blocks and inodes are bound to their place: with metadata
    checksums enabled, an attribute block that verifies as block [i], or a directory block with a
    checksum tail, an extent block or an inode with a 32-bit checksum that verifies as one of
    inode [i], does not verify as that of another number [j].  Both numbers are below [2 ^ 32]
    (attribute block numbers are 64-bit: beyond that a 32-bit checksum cannot tell all of them apart) and, for the
    structures of inodes, both inodes have the same generation, which enters the checksum too. *)
Theorem csum_binds_place i j b (mk : Z -> cobj) :
  mk = Cxattr \/ mk = Cdir /\ has_tail fs b \/ mk = Cextent \/
    mk = Cinode /\ csum_has_hi fs b = true /\ Exists (fun c => c <> 0) (zslice 0 128 b) ->
  fits (mk i) fs b -> bytes b -> in_u 32 i -> in_u 32 j -> i <> j -> readable read_inode (mk i) -> read_inode i = read_inode j ->
  (csum_verify read_inode (mk i) fs b).1 = 1 -> (csum_verify read_inode (mk j) fs b).1 = 0.
Proof.
  intros Hmk Hf Hb Hi Hj Hne Hr Hij. pose proof Hok as [Hs Hbs]. destruct Hmk as [->|[[-> Ht]|[->|(-> & Hhi & Hnz)]]]; cbn in Hf, Hr; cbn [csum_verify fst].
  - unfold ext2fs_ext_attr_block_csum_verify. rewrite Hm. cbn [negb]. rewrite !xattr_csum_eq by (done || lia). cbn [fst].
    intros HV. apply (c_eq_detect _ _ _ HV). intros HE. apply crc_inj in HE; auto using crc32c_le_range with csum. by apply (crc_number _ i j 8) in HE; [|lia|..].
  - destruct Hr as [gen Hr]. unfold ext2fs_dir_block_csum_verify, ext2fs_dirent_csum_verify. rewrite Hm. cbn [negb].
    destruct (dirent_tail_cases fs b true ltac:(lia)) as [[_ ->]|[? _]]; [|done]. cbn [fst]. destruct (decide (0 = 0)) as [_|]; [|done].
    destruct (decide (0 <> 0)) as [|_]; [done|]. unfold ext2fs_dirent_csum. rewrite <- Hij, Hr. cbn [fst]. intros HV.
    apply (c_eq_detect _ _ _ HV). intros HE. apply crc_inj in HE; auto using inode_crc_range with csum. by apply inode_crc_number in HE.
  - destruct Hr as [gen Hr]. unfold ext2fs_extent_block_csum_verify, ext2fs_extent_block_csum. rewrite Hm, <- Hij, Hr. cbn [negb].
    intros HV. apply (c_eq_detect _ _ _ HV). intros HE. apply crc_inj in HE; auto using inode_crc_range with csum. by apply inode_crc_number in HE.
  - rewrite !inode_verify_eq by done. cbv zeta. rewrite Hhi, !(decide_True _ _ Hnz). cbn [fst].
    destruct (decide (inode_stored true b = _)) as [->|]; [|done]. intros _. rewrite decide_False; [done|]. unfold inode_value, inode_clear. intros HE.
    apply crc_inj in HE; auto using crc32c_le_range with csum. apply crc_inj in HE; auto using crc32c_le_range with csum.
    by apply (crc_number _ i j 4) in HE; [|lia|..].
Qed.

End damage.

(** * Directory records *)

Lemma testbit_65532 i : 0 <= i -> Z.testbit 65532 i = bool_decide (2 <= i < 16).
Proof.
  intros Hi. change 65532 with (Z.shiftl (Z.ones 14) 2). rewrite Z.shiftl_spec by done. destruct (decide (i < 2)).
  - rewrite Z.testbit_neg_r by lia. by rewrite bool_decide_eq_false_2 by lia.
  - destruct (decide (i < 16)); [rewrite Z.ones_spec_low by lia|rewrite Z.ones_spec_high by lia]; symmetry.
    + apply bool_decide_eq_true_2. lia.
    + apply bool_decide_eq_false_2. lia.
Qed.

Lemma testbit_3 i : 0 <= i -> Z.testbit 3 i = bool_decide (i < 2).
Proof.
  intros Hi. change 3 with (Z.ones 2). destruct (decide (i < 2)); [rewrite Z.ones_spec_low by lia|rewrite Z.ones_spec_high by lia]; symmetry.
  - apply bool_decide_eq_true_2. lia.
  - apply bool_decide_eq_false_2. lia.
Qed.

(** A length of 18 bits, a multiple of four, with its two high bits in the place of the low ones. *)
Definition rec_len_code (len : Z) : Z := Z.lor (Z.land len 65532) (Z.land (Z.shiftr len 16) 3).
Definition rec_len_decode (x : Z) : Z := Z.lor (Z.land x 65532) (Z.shiftl (Z.land x 3) 16).

Lemma rec_len_code_ok len : in_u 18 len -> Z.land len 3 = 0 -> rec_len_decode (rec_len_code len) = len.
Proof.
  intros Hl H3. apply Z.bits_inj'. intros i Hi. unfold rec_len_decode, rec_len_code.
  rewrite Z.lor_spec, Z.land_spec, testbit_65532, Z.lor_spec, Z.land_spec, testbit_65532 by done. rewrite (Z.land_spec (Z.shiftr len 16) 3 i), testbit_3 by done.
  destruct (decide (i < 2)) as [H2|H2].
  - rewrite (bool_decide_eq_false_2 (2 <= i < 16)) by lia. rewrite !andb_false_r, Z.shiftl_spec_low by lia. cbn [orb].
    pose proof (f_equal (fun z => Z.testbit z i) H3) as HB. cbn beta in HB.
    rewrite Z.land_spec, testbit_3, Z.bits_0, bool_decide_eq_true_2, andb_true_r in HB by lia. done.
  - destruct (decide (i < 16)) as [H16|H16].
    + rewrite (bool_decide_eq_true_2 (2 <= i < 16)), (bool_decide_eq_false_2 (i < 2)) by lia. rewrite Z.shiftl_spec_low by lia.
      by rewrite andb_false_r, !orb_false_r, !andb_true_r.
    + rewrite (bool_decide_eq_false_2 (2 <= i < 16)) by lia. rewrite !andb_false_r. cbn [orb].
      rewrite Z.shiftl_spec, Z.land_spec, Z.lor_spec, !Z.land_spec, testbit_3, testbit_65532, Z.shiftr_spec by lia.
      replace (i - 16 + 16) with i by lia. destruct (decide (i < 18)).
      * rewrite (bool_decide_eq_true_2 (i - 16 < 2)), (bool_decide_eq_false_2 (2 <= i - 16 < 16)) by lia.
        by rewrite andb_false_r, !andb_true_r.
      * rewrite (bool_decide_eq_false_2 (i - 16 < 2)) by lia. rewrite !andb_false_r. symmetry. apply (in_u_testbit 18); done || lia.
Qed.

Lemma rec_len_code_range len : 0 <= len -> in_u 16 (rec_len_code len).
Proof.
  intros Hl. unfold rec_len_code. assert (H1 : in_u 16 (Z.land len 65532)) by (apply land_in_u; [lia|lia|unfold in_u; lia]).
  assert (H2 : in_u 16 (Z.land (Z.shiftr len 16) 3)) by (apply land_in_u; [lia|apply Z.shiftr_nonneg; lia|unfold in_u; lia]).
  apply in_u_of_testbit; [lia|apply Z.lor_nonneg; split; [apply H1|apply H2]|]. intros i Hi.
  rewrite Z.lor_spec. by rewrite (in_u_testbit 16 (Z.land len 65532)), (in_u_testbit 16 (Z.land (Z.shiftr len 16) 3)) by (done || lia).
Qed.

(** A record length reads back as it was stored, up to the block size and for every block
    size the encoding admits, except the length 2^18 - 4, whose code is that of the whole block. *)
Theorem rec_len_roundtrip fs b b' d len :
  0 < len -> 0 <= d -> d + 6 <= zlen b ->
  ~ (len = 2 ^ 18 - 4 /\ len <> fs_blocksize fs) ->
  ext2fs_set_rec_len fs len b d = (0, b') -> ext2fs_get_rec_len fs b' d = len.
Proof.
  intros Hpos Hd Hl Hex. unfold ext2fs_set_rec_len. change (Z.shiftl 1 18) with (2 ^ 18).
  destruct (bool_decide (len > fs_blocksize fs) || bool_decide (fs_blocksize fs > 2 ^ 18) || bool_decide (Z.land len 3 <> 0)) eqn:E; [discriminate|].
  rewrite !orb_false_iff, !bool_decide_eq_false in E. destruct E as [[E1 E2] E3]. apply dec_stable in E3.
  assert (Hcode : forall x, in_u 16 x -> field 2 (d + 4) (put_field 2 (d + 4) x b) = x) by (intros x Hx; rewrite field_put_same by lia; by apply Z.mod_small).
  unfold ext2fs_get_rec_len. destruct (decide (len < 65536)) as [Hs|Hs].
  - intros [= <-]. rewrite Hcode by (unfold in_u; lia). destruct (decide (fs_blocksize fs < 65536)); [done|].
    rewrite (bool_decide_eq_false_2 (len = 0)) by lia. rewrite (bool_decide_eq_false_2 (len = 65535)) by (intros ->; done). cbn [orb].
    pose proof (rec_len_code_ok len ltac:(unfold in_u; lia) E3) as HD. unfold rec_len_decode, rec_len_code in HD.
    rewrite Z.shiftr_div_pow2, (Z.div_small len), Z.land_0_l, Z.lor_0_r, <- !Z.land_assoc in HD by lia.
    change (Z.land 65532 65532) with 65532 in HD. change (Z.land 65532 3) with 0 in HD. rewrite Z.land_0_r in HD. by rewrite E3.
  - destruct (decide (len = fs_blocksize fs)) as [Heq|Hne].
    + intros [= <-]. destruct (decide (fs_blocksize fs < 65536)); [lia|]. rewrite Heq.
      destruct (decide (fs_blocksize fs = 65536)); by rewrite Hcode by (unfold in_u; lia).
    + intros [= <-]. rewrite Hcode by (by apply rec_len_code_range; lia). destruct (decide (fs_blocksize fs < 65536)); [lia|].
      assert (H18 : in_u 18 len) by (unfold in_u; lia). pose proof (rec_len_code_ok len H18 E3) as HD. fold (rec_len_code len).
      rewrite (bool_decide_eq_false_2 (rec_len_code len = 65535)), (bool_decide_eq_false_2 (rec_len_code len = 0)); [done| |];
        intros HE; rewrite HE in HD; vm_compute in HD; lia.
Qed.

(** [ext2fs_initialize_dirent_tail] gives a block whose entries lead to its last twelve bytes a
    tail that [ext2fs_dirent_has_tail] finds. *)
Theorem tail_initialized fs b :
  let top := fs_blocksize fs - 12 in
  12 < fs_blocksize fs <= 2 ^ 18 -> fs_blocksize fs mod 4 = 0 -> fs_blocksize fs <= zlen b ->
  chain (zsplice top (replicate 12 0) b) top 0 ->
  ext2fs_dirent_has_tail fs (ext2fs_initialize_dirent_tail fs b top) = 1.
Proof.
  intros top Hbs H4 Hl Hc. assert (Htop : top = fs_blocksize fs - 12) by done. clearbody top. unfold ext2fs_initialize_dirent_tail. set (b0 := zsplice top (replicate 12 0) b) in *.
  assert (Hl0 : zlen b0 = zlen b) by (unfold b0; rewrite zlen_splice by lia; change (zlen (replicate 12 0)) with 12; lia).
  unfold ext2fs_set_rec_len. change (Z.shiftl 1 18) with (2 ^ 18).
  rewrite (bool_decide_eq_false_2 (12 > _)), (bool_decide_eq_false_2 (_ > 2 ^ 18)) by lia.
  rewrite (bool_decide_eq_false_2 (Z.land 12 3 <> 0)) by (intros Hn; by apply Hn). cbn [orb]. destruct (decide (12 < 65536)) as [_|]; [|lia]. set (b1 := put_field 2 (top + 6) 56832 (put_field 2 (top + 4) 12 b0)).
  assert (Ht : has_tail fs b1).
  { unfold has_tail. rewrite <- Htop. unfold b1. split_and!.
    - revert Hc. apply chain_ext; [done|done|]. intros x Hx Hx4. assert (x + 4 <= top) by (Z.div_mod_to_equations; lia).
      rewrite !field_put_other by (rewrite ?zlen_put; lia). done.
    - rewrite !field_put_other by (rewrite ?zlen_put; lia). unfold field, b0.
      replace (zslice top 4 _) with (replicate 4 0); [done|]. pose proof (zslice_zsplice_eq top 12 (replicate 12 0) b eq_refl) as HZ.
      pose proof (zslice_split top 4 8 (zsplice top (replicate 12 0) b) ltac:(lia) ltac:(lia) ltac:(lia)) as HS. change (4 + 8) with 12 in HS.
      rewrite HZ in HS. assert (HL : zlen (zslice top 4 (zsplice top (replicate 12 0) b)) = 4) by (apply zlen_zslice; fold b0; lia). unfold zlen in HL.
      apply (f_equal (take 4)) in HS. rewrite take_app_length' in HS by lia. by rewrite <- HS.
    - rewrite field_put_other, field_put_same by (rewrite ?zlen_put; lia). done.
    - by rewrite field_put_same by lia. }
  unfold ext2fs_dirent_has_tail. destruct (dirent_tail_cases fs b1 false ltac:(lia)) as [[_ ->]|[? _]]; done.
Qed.

(** * Limits *)

(** In a file system with 64 KiB blocks the interior nodes of hash trees are not recognised: a
    record length of 16 bits never equals the block size. *)
Theorem dx_node_64k fs b swab :
  fs_blocksize fs = 65536 -> __get_dx_countlimit fs b swab <> (0, 8).
Proof.
  intros Hbs. unfold __get_dx_countlimit. set (tr := if swab then _ else _). assert (Htr : forall x, tr x = x) by (by destruct swab).
  rewrite !Htr. pose proof (field_range 2 4 b ltac:(lia)). rewrite (bool_decide_eq_false_2 (field 2 4 b = fs_blocksize fs)) by (rewrite Hbs; lia).
  cbn [andb]. repeat case_decide; try done; destruct (bool_decide _ || bool_decide _); try done; repeat case_decide; try done;
    destruct (bool_decide _ || bool_decide _); done.
Qed.

(** Verifying or updating a hash tree node whose inode cannot be read clears the checksum stored
    in the node. *)
Theorem dx_csum_read_error `{Checksum} read_inode fs inum b c count t e :
  read_inode inum = inl e -> 0 <= t -> t + 8 <= zlen b ->
  ext2fs_dx_csum read_inode fs inum b c count t = (inl e, put_field 4 (t + 4) 0 b) /\
  field 4 (t + 4) (ext2fs_dx_csum read_inode fs inum b c count t).2 = 0.
Proof.
  intros Hr Ht Hl. unfold ext2fs_dx_csum. rewrite Hr. split; [done|]. cbn [snd]. by rewrite field_put_same by lia.
Qed.

(** * Witnesses *)

#[local] Transparent ext2fs_crc32c_le.

(** A file system with 64bit and metadata_csum, 1 KiB blocks and one inode generation. *)
Definition demo_cs : csum_fs :=
  mkCs (mkFs (mkSb 20000 0 100 0 500 0 1 8192 0 64 0x80 0x400 1 11 256) (replicate 192 7) 3 1024 0 0) 0x1234 (replicate 16 5) 0.
Definition demo_gen (inum : Z) : Z + Z := inr 77.
(** An extent block of one entry. *)
Definition demo_extent : list Z := [0x0a; 0xf3; 1; 0; 1; 0; 0; 0] ++ replicate 20 9.
Definition demo_extent_csum : list Z := Eval vm_compute in (csum_set demo_gen (Cextent 12) demo_cs demo_extent).2.
Definition demo_extent_bad : list Z := <[15%nat := 200]> demo_extent_csum.

Lemma demo_cs_ok : csum_ok demo_cs.
Proof. split; [unfold in_u; cbn; lia|cbn; lia]. Qed.


Lemma demo_extent_bytes : bytes demo_extent /\ bytes demo_extent_csum /\ bytes demo_extent_bad.
Proof. split_and!; vm_compute; repeat constructor; discriminate. Qed.

Lemma csum_set_verify_witness :
  csum_set demo_gen (Cextent 12) demo_cs demo_extent = (0, demo_extent_csum) /\
  csum_verify demo_gen (Cextent 12) demo_cs demo_extent_csum = (1, demo_extent_csum).
Proof.
  split; [vm_compute; reflexivity|].
  exact (proj1 (csum_set_verify demo_gen (Cextent 12) demo_cs demo_extent demo_extent_csum demo_cs_ok (proj1 demo_extent_bytes)
    ltac:(vm_compute; discriminate) (ex_intro _ 77 eq_refl) ltac:(vm_compute; reflexivity))).
Defined.

Lemma demo_damaged : damaged demo_extent_csum demo_extent_bad 14 2.
Proof.
  split; [split; apply demo_extent_bytes|reflexivity|vm_compute; intuition discriminate| |exists 15%nat; split; [lia|vm_compute; discriminate]].
  intros x Hx. apply list_lookup_insert_ne. lia.
Qed.

Lemma csum_detects_damage_witness : (csum_verify demo_gen (Cextent 12) demo_cs demo_extent_bad).1 = 0.
Proof.
  exact (csum_detects_damage demo_gen demo_cs demo_cs_ok eq_refl (Cextent 12) demo_extent_csum demo_extent_bad 14 2
    ltac:(vm_compute; discriminate) (ex_intro _ 77 eq_refl) ltac:(split; [right; lia|vm_compute; discriminate]) demo_damaged I
    ltac:(vm_compute; reflexivity)).
Defined.

Lemma csum_binds_place_witness : (csum_verify demo_gen (Cextent 13) demo_cs demo_extent_csum).1 = 0.
Proof.
  exact (csum_binds_place demo_gen demo_cs demo_cs_ok eq_refl 12 13 demo_extent_csum Cextent (or_intror (or_intror (or_introl eq_refl)))
    ltac:(vm_compute; discriminate) (proj1 (proj2 demo_extent_bytes)) ltac:(unfold in_u; lia) ltac:(unfold in_u; lia) ltac:(lia)
    (ex_intro _ 77 eq_refl) eq_refl ltac:(vm_compute; reflexivity)).
Defined.

Lemma rec_len_roundtrip_witness :
  exists b', ext2fs_set_rec_len demo_cs 12 demo_extent 0 = (0, b') /\ ext2fs_get_rec_len demo_cs b' 0 = 12.
Proof.
  exists (ext2fs_set_rec_len demo_cs 12 demo_extent 0).2. split; [vm_compute; reflexivity|].
  exact (rec_len_roundtrip demo_cs demo_extent (ext2fs_set_rec_len demo_cs 12 demo_extent 0).2 0 12 ltac:(lia) ltac:(lia)
    ltac:(vm_compute; discriminate) ltac:(lia) ltac:(vm_compute; reflexivity)).
Defined.
