(* ===== verification/CsumGroup.v ===== *)
(** Checksums of group descriptors and of bitmaps (in the descriptors): they verify after an
    update, and an update touches nothing but the checksum. *)
From Stdlib Require Import ZArith Lia.
From stdpp Require Import base tactics numbers list.
From S2P Require Import Prelude ExtErr Crc32c Crc16 BlkNum BlkNumProofs Csum CsumProofs.

Section group.
Context `{Checksum}.

(** Descriptors as fields of the table. *)
Definition with_table (fs : filsys) (t : list Z) : filsys :=
  mkFs (fs_super fs) t (fs_group_desc_count fs) (fs_blocksize fs) (fs_cluster_ratio_bits fs) (fs_flags fs).

Lemma gd_write_put w o v fs g : gd_write w o v fs g = with_table fs (put_field w (ext2fs_group_desc fs g + o) v (fs_group_desc fs)).
Proof. done. Qed.

Lemma gd_read_field w o fs g : gd_read w o fs g = field w (ext2fs_group_desc fs g + o) (fs_group_desc fs).
Proof. done. Qed.

Lemma with_table_self fs : with_table fs (fs_group_desc fs) = fs.
Proof. by destruct fs. Qed.

Lemma set_fs_self c : set_fs c (cs_fs c) = c.
Proof. by destruct c. Qed.

Lemma slice_put_out w o v b o' n' :
  0 <= o -> 0 <= w -> o + w <= zlen b -> 0 <= o' -> o' + n' <= o \/ o + w <= o' ->
  zslice o' n' (put_field w o v b) = zslice o' n' b.
Proof. intros. apply zslice_ext; [done|]. intros x Hx. apply lookup_put_out; lia. Qed.

Record group_ok (fs : csum_fs) : Prop := {
  go_seed : in_u 32 (csum_seed fs);
  go_uuid : bytes (s_uuid fs);
  go_table : table_ok fs;
  go_bytes : bytes (fs_group_desc fs)
}.

Lemma desc_bounds fs g :
  group_ok fs -> 0 <= g < fs_group_desc_count fs ->
  0 <= ext2fs_group_desc fs g /\ ext2fs_group_desc fs g + 32 <= zlen (fs_group_desc fs).
Proof.
  intros [_ _ Ht _] Hg. destruct (desc_offset fs g Ht Hg) as [-> HL]. pose proof (desc_size_bounds fs Ht).
  destruct (has_feature_64bit (fs_super fs)); nia.
Qed.

(** The value of the checksum: a function of the other bytes. *)
Definition group_value (fs : csum_fs) (g : Z) : Z := (ext2fs_group_desc_csum fs g).1.

Lemma group_csum_eq fs g :
  group_ok fs -> 0 <= g < fs_group_desc_count fs -> ext2fs_group_desc_csum fs g = (group_value fs g, fs).
Proof.
  intros Hok Hg. unfold group_value, ext2fs_group_desc_csum. destruct (has_feature_metadata_csum _); [|done]. cbn [fst]. f_equal.
  destruct (desc_bounds fs g Hok Hg). unfold ext2fs_bg_checksum_set, ext2fs_bg_checksum. rewrite !gd_write_put, gd_read_field.
  cbn [fs_group_desc with_table]. change (ext2fs_group_desc (with_table _ _) g) with (ext2fs_group_desc fs g).
  rewrite put_put, put_self by (try apply Hok; lia). unfold with_table. cbn. fold (with_table fs (fs_group_desc fs)). by rewrite with_table_self, set_fs_self.
Qed.

Lemma crc16_range crc p : in_u 16 crc -> in_u 16 (ext2fs_crc16 crc p).
Proof.
  unfold ext2fs_crc16. revert crc. induction p as [|c p IH]; intros crc Hc; [done|]. cbn. apply IH. unfold crc16_step, in_u.
  change 0xffff with (Z.ones 16). rewrite Z.land_ones by lia. apply Z.mod_pos_bound. lia.
Qed.

Lemma group_value_range fs g : in_u 16 (group_value fs g).
Proof.
  unfold group_value, ext2fs_group_desc_csum. destruct (has_feature_metadata_csum _); cbn [fst].
  - rewrite land_ffff. apply Z.mod_pos_bound. lia.
  - assert (in_u 16 0xffff) by (unfold in_u; lia). case_decide; auto using crc16_range.
Qed.

(** The checksum does not depend on the stored one. *)
Lemma group_value_put fs g v :
  group_ok fs -> 0 <= g < fs_group_desc_count fs -> group_value (set_fs fs (ext2fs_bg_checksum_set fs g v)) g = group_value fs g.
Proof.
  intros Hok Hg. destruct (desc_bounds fs g Hok Hg). unfold ext2fs_bg_checksum_set. rewrite gd_write_put.
  unfold group_value, ext2fs_group_desc_csum, ext2fs_bg_checksum_set. rewrite !gd_write_put. cbn [set_fs cs_fs with_table fs_super fs_group_desc csum_seed s_uuid].
  change (ext2fs_group_desc (with_table _ _) g) with (ext2fs_group_desc fs g).
  destruct (has_feature_metadata_csum _); cbn [fst]; [by rewrite put_put|]. by rewrite !slice_put_out by lia.
Qed.

Lemma group_ok_put fs w o v g :
  group_ok fs -> 0 <= g < fs_group_desc_count fs -> 0 <= o -> 0 <= w -> o + w <= desc_size (fs_super fs) ->
  group_ok (set_fs fs (gd_write w o v fs g)).
Proof.
  intros [H1 H2 H3 H4] Hg Ho Hw Hd. split; cbn; [done|done|by apply gd_write_ok|]. apply cbytes_zsplice; [apply le_bytes_range|done].
Qed.

Lemma desc_size_32 fs : table_ok fs -> 32 <= desc_size (fs_super fs).
Proof. intros Ht. pose proof (desc_size_bounds fs Ht). destruct (has_feature_64bit _); lia. Qed.

Lemma csum_set_eq fs g :
  group_ok fs -> 0 <= g < fs_group_desc_count fs ->
  ext2fs_group_desc_csum_set fs g =
    if ext2fs_has_group_desc_csum fs then set_fs fs (ext2fs_bg_checksum_set fs g (group_value fs g)) else fs.
Proof.
  intros Hok Hg. unfold ext2fs_group_desc_csum_set. destruct (ext2fs_has_group_desc_csum fs); [|done]. by rewrite group_csum_eq.
Qed.

(** Updating the checksum of a group keeps every other field of every group. *)
Lemma csum_set_keeps fs g :
  group_ok fs -> 0 <= g < fs_group_desc_count fs ->
  let fs' := ext2fs_group_desc_csum_set fs g in
  group_ok fs' /\ fs_super fs' = fs_super fs /\ fs_group_desc_count fs' = fs_group_desc_count fs /\
  (forall w o g', 0 <= g' < fs_group_desc_count fs -> 0 <= o -> 0 < w -> o + w <= desc_size (fs_super fs) ->
     g' <> g \/ o + w <= 30 \/ 32 <= o -> gd_read w o fs' g' = gd_read w o fs g').
Proof.
  intros Hok Hg. cbv zeta. rewrite csum_set_eq by done. pose proof (desc_size_32 fs (go_table _ Hok)) as Hd.
  destruct (ext2fs_has_group_desc_csum fs); [|done]. split_and!; [apply group_ok_put; done || lia|done|done|].
  intros w o g' Hg' Ho Hw Hle Hdis. apply gd_read_write_other; try done; try lia. apply Hok.
Qed.

Lemma csum_set_verifies fs g :
  group_ok fs -> 0 <= g < fs_group_desc_count fs ->
  let fs' := ext2fs_group_desc_csum_set fs g in ext2fs_group_desc_csum_verify fs' g = (1, fs').
Proof.
  intros Hok Hg. cbv zeta. pose proof (csum_set_keeps fs g Hok Hg) as (Hok' & HS & HC & _). rewrite csum_set_eq in * by done.
  unfold ext2fs_group_desc_csum_verify. destruct (ext2fs_has_group_desc_csum fs) eqn:E.
  - cbn [cs_fs set_fs]. change (ext2fs_has_group_desc_csum (ext2fs_bg_checksum_set fs g _)) with (ext2fs_has_group_desc_csum fs). rewrite E.
    rewrite group_csum_eq by done. rewrite group_value_put by done. f_equal. unfold ext2fs_bg_checksum, ext2fs_bg_checksum_set.
    rewrite gd_read_write_same by lia. rewrite Z.mod_small; [apply c_eq_refl|]. apply group_value_range.
  - by rewrite E.
Qed.

Lemma csum_set_other fs g f g' :
  group_ok fs -> 0 <= g < fs_group_desc_count fs -> 0 <= g' < fs_group_desc_count fs -> f <> Fchecksum \/ g' <> g ->
  gfield_get f (ext2fs_group_desc_csum_set fs g) g' = gfield_get f fs g'.
Proof.
  intros Hok Hg Hg' Hne.
  destruct (csum_set_keeps fs g Hok Hg) as (_ & HS & _ & HR). apply gfield_get_ext; [done|]. intros p Hp.
  destruct (slots_fit _ _ _ Hp) as (P1 & P2 & P3). pose proof (desc_size_bounds fs (go_table _ Hok)).
  apply HR; try done; [destruct (has_feature_64bit (fs_super fs)); lia|]. destruct Hne as [Hf|]; [|by left]. right.
  pose proof (slots_apart f Fchecksum _ p (30, 2) Hf Hp ltac:(apply elem_of_cons; by left)) as HA. cbn in HA. lia.
Qed.

(** After [ext2fs_group_desc_csum_set] the descriptor verifies, with CRC-32C or CRC-16 and
    descriptors of every size, and no field of any descriptor other than the checksum of that
    group has changed. *)
Theorem group_csum_roundtrip fs g f g' :
  group_ok fs -> 0 <= g < fs_group_desc_count fs -> 0 <= g' < fs_group_desc_count fs ->
  let fs' := ext2fs_group_desc_csum_set fs g in
  ext2fs_group_desc_csum_verify fs' g = (1, fs') /\
  (f <> Fchecksum \/ g' <> g -> gfield_get f fs' g' = gfield_get f fs g').
Proof. intros Hok Hg Hg'. split; [by apply csum_set_verifies|by apply csum_set_other]. Qed.

(** * Bitmaps *)

(** [inodes] selects the inode bitmap. *)
Definition bitmap_csum_set (inodes : bool) : csum_fs -> Z -> list Z -> Z -> Z * csum_fs :=
  if inodes then ext2fs_inode_bitmap_csum_set else ext2fs_block_bitmap_csum_set.
Definition bitmap_csum_verify (inodes : bool) : csum_fs -> Z -> list Z -> Z -> Z :=
  if inodes then ext2fs_inode_bitmap_csum_verify else ext2fs_block_bitmap_csum_verify.

(** The descriptor has room for what [s_desc_size] promises: 64-byte descriptors, or a size that
    leaves the high halves out. *)
Definition desc_size_honest (fs : filsys) : Prop := has_feature_64bit (fs_super fs) = true \/ s_desc_size (fs_super fs) < 58.

Lemma bitmap_halves fs g lo hi v :
  group_ok fs -> 0 <= g < fs_group_desc_count fs -> 0 <= lo -> lo + 2 <= hi -> hi + 2 <= desc_size (fs_super fs) -> in_u 32 v ->
  let fs' := gd_write 2 hi (Z.shiftr v 16) (gd_write 2 lo (Z.land v 0xFFFF) fs g) g in
  Z.lor (gd_read 2 lo fs' g) (Z.shiftl (gd_read 2 hi fs' g) 16) = v.
Proof.
  intros Hok Hg Hlo Hhi Hd Hv. cbv zeta. rewrite land_ffff. rewrite (gd_read_write_same 2 hi) by lia. rewrite gd_read_write_other; try done; try lia.
  2: { apply gd_write_ok; try done; try lia. apply Hok. }
  2: { cbn. lia. }
  rewrite gd_read_write_same by lia. change (8 * 2) with 16. rewrite Z.mod_mod, join_halves by lia. by apply Z.mod_small.
Qed.

Lemma bitmap_slots f b64 p : p ∈ slots f b64 ->
  (p.1 + p.2 <= 24 \/ 28 <= p.1) /\ (p.1 + p.2 <= 56 \/ 60 <= p.1).
Proof. intros Hp. destruct f, b64; cbn in Hp; repeat (apply elem_of_cons in Hp as [->|Hp]; [cbn; lia|]); by apply elem_of_nil in Hp. Qed.

(** The two pairs of functions, with the offset of the low half: 24 for blocks, 26 for inodes. *)
Definition bm_table (lo crc : Z) (fs : filsys) (g : Z) : filsys :=
  let f := gd_write 2 lo (Z.land crc 0xFFFF) fs g in
  if decide (s_desc_size (fs_super fs) >= lo + 34) then gd_write 2 (lo + 32) (Z.shiftr crc 16) f g else f.
Definition bm_accepts (lo crc : Z) (fs : filsys) (g : Z) : Z :=
  if decide (s_desc_size (fs_super fs) >= lo + 34)
  then c_eq (Z.lor (gd_read 2 lo fs g) (Z.shiftl (gd_read 2 (lo + 32) fs g) 16)) crc
  else c_eq (gd_read 2 lo fs g) (Z.land crc 0xFFFF).
Definition bm_lo (inodes : bool) : Z := if inodes then 26 else 24.

Lemma bitmap_set_eq inodes fs g bitmap size :
  bitmap_csum_set inodes fs g bitmap size =
    if has_feature_metadata_csum (fs_super fs)
    then (0, set_fs fs (bm_table (bm_lo inodes) (crc32c_le (csum_seed fs) (zslice 0 size bitmap)) fs g)) else (0, fs).
Proof. destruct inodes; cbn; unfold ext2fs_inode_bitmap_csum_set, ext2fs_block_bitmap_csum_set; by destruct (has_feature_metadata_csum _). Qed.

Lemma bitmap_verify_eq inodes fs g bitmap size :
  bitmap_csum_verify inodes fs g bitmap size =
    if has_feature_metadata_csum (fs_super fs)
    then bm_accepts (bm_lo inodes) (crc32c_le (csum_seed fs) (zslice 0 size bitmap)) fs g else 1.
Proof. destruct inodes; cbn; unfold ext2fs_inode_bitmap_csum_verify, ext2fs_block_bitmap_csum_verify; by destruct (has_feature_metadata_csum _). Qed.

Section table.
Variables (fs : csum_fs) (lo g crc : Z).
Hypothesis Hok : group_ok fs.
Hypothesis Hh : desc_size_honest fs.
Hypothesis Hlo : lo = 24 \/ lo = 26.
Hypothesis Hg : 0 <= g < fs_group_desc_count fs.

Lemma bm_room : s_desc_size (fs_super fs) >= lo + 34 -> 64 <= desc_size (fs_super fs).
Proof using Hok Hh Hlo.
  intros. pose proof (desc_size_bounds fs (go_table _ Hok)) as Hd. destruct Hh as [E|?]; [by rewrite E in Hd|lia].
Qed.

Lemma bm_accepts_table : in_u 32 crc -> bm_accepts lo crc (bm_table lo crc fs g) g = 1.
Proof using Hok Hh Hlo Hg.
  intros Hc. unfold bm_accepts. replace (fs_super (bm_table lo crc fs g)) with (fs_super fs) by (unfold bm_table; by case_decide).
  unfold bm_table. destruct (decide (s_desc_size (fs_super fs) >= lo + 34)) as [Hge|Hlt].
  - pose proof (bm_room Hge). rewrite bitmap_halves by (done || lia). apply c_eq_refl.
  - rewrite gd_read_write_same, land_ffff by lia. change (8 * 2) with 16. rewrite Z.mod_mod by lia. apply c_eq_refl.
Qed.

Lemma bm_table_keeps f g' : 0 <= g' < fs_group_desc_count fs -> gfield_get f (bm_table lo crc fs g) g' = gfield_get f fs g'.
Proof using Hok Hh Hlo Hg.
  intros Hg'. pose proof (go_table _ Hok) as Ht. pose proof (desc_size_32 fs Ht). apply gfield_get_ext; [unfold bm_table; by case_decide|].
  intros p Hp. destruct (slots_fit _ _ _ Hp) as (P1 & P2 & P3), (bitmap_slots _ _ _ Hp) as [P4 P5]. pose proof (desc_size_bounds fs Ht) as Hd.
  assert (p.1 + p.2 <= desc_size (fs_super fs)) by (destruct (has_feature_64bit (fs_super fs)); lia).
  unfold bm_table. destruct (decide (s_desc_size (fs_super fs) >= lo + 34)) as [Hge|Hlt].
  - pose proof (bm_room Hge). rewrite gd_read_write_other; try done; try lia; [|apply gd_write_ok; done || lia|cbn; lia].
    apply gd_read_write_other; done || lia.
  - apply gd_read_write_other; done || lia.
Qed.
End table.

(** A bitmap whose checksum was stored verifies, for both bitmaps and both widths of the
    checksum, as long as [s_desc_size] does not promise more than the descriptors have; and the
    fields of the descriptors are as before. *)
Theorem bitmap_csum_roundtrip inodes fs g bitmap size fs' f g' :
  group_ok fs -> desc_size_honest fs -> 0 <= g < fs_group_desc_count fs -> 0 <= g' < fs_group_desc_count fs -> bytes bitmap ->
  bitmap_csum_set inodes fs g bitmap size = (0, fs') ->
  bitmap_csum_verify inodes fs' g bitmap size = 1 /\ gfield_get f fs' g' = gfield_get f fs g'.
Proof.
  intros Hok Hh Hg Hg' Hb. rewrite bitmap_set_eq, bitmap_verify_eq. destruct (has_feature_metadata_csum (fs_super fs)) eqn:Hm.
  2: { intros [= <-]. by rewrite Hm. }
  intros [= <-]. assert (Hlo : bm_lo inodes = 24 \/ bm_lo inodes = 26) by (destruct inodes; auto). cbn [set_fs cs_fs csum_seed].
  replace (fs_super (bm_table _ _ fs g)) with (fs_super fs) by (unfold bm_table; by case_decide). rewrite Hm.
  split; [|by apply bm_table_keeps]. apply bm_accepts_table; try done. apply crc32c_le_range; [apply Hok|auto with csum].
Qed.

(** A file system without the 64bit feature has 32-byte descriptors whatever [s_desc_size] says;
    when that says 58 or more (which [ext2fs_open2] refuses), storing the checksum of the block bitmap of a group overwrites the
    low half of the one of the next group. *)
Theorem bitmap_csum_spills fs g bitmap size :
  group_ok fs -> has_feature_64bit (fs_super fs) = false -> has_feature_metadata_csum (fs_super fs) = true ->
  58 <= s_desc_size (fs_super fs) -> 0 <= g -> g + 1 < fs_group_desc_count fs -> bytes bitmap ->
  let fs' := (ext2fs_block_bitmap_csum_set fs g bitmap size).2 in
  gd_read 2 24 fs' (g + 1) = Z.shiftr (crc32c_le (csum_seed fs) (zslice 0 size bitmap)) 16.
Proof.
  intros Hok H64 Hm Hd Hg Hg1 Hb. cbv zeta. unfold ext2fs_block_bitmap_csum_set. rewrite Hm, (decide_True (P := s_desc_size (fs_super fs) >= 58)) by lia.
  cbn [negb snd set_fs cs_fs]. set (crc := crc32c_le _ _). assert (Hc : in_u 32 crc) by (apply crc32c_le_range; [apply Hok|auto with csum]).
  pose proof (go_table _ Hok) as Ht. destruct (desc_offset fs g Ht ltac:(lia)) as [O1 _]. destruct (desc_offset fs (g + 1) Ht ltac:(lia)) as [O2 _].
  assert (HD : desc_size (fs_super fs) = 32) by (unfold desc_size; by rewrite H64). rewrite HD in O1, O2.
  set (f1 := gd_write 2 24 _ fs g). rewrite gd_read_field, gd_write_put. cbn [with_table fs_group_desc].
  change (ext2fs_group_desc (with_table f1 _) (g + 1)) with (ext2fs_group_desc fs (g + 1)). change (ext2fs_group_desc f1 g) with (ext2fs_group_desc fs g).
  rewrite O1, O2. replace ((g + 1) * 32 + 24) with (g * 32 + 56) by lia. rewrite field_put_same by lia. apply Z.mod_small.
  rewrite Z.shiftr_div_pow2 by lia. unfold in_u in Hc. pow2_norm. Z.div_mod_to_equations. lia.
Qed.

End group.

(** * Witnesses *)

(** Three groups, with metadata_csum, and with gdt_csum alone. *)
Definition demo_group (ro : Z) : csum_fs :=
  mkCs (mkFs (mkSb 20000 0 100 0 500 0 1 8192 0 64 0x80 ro 1 11 256) (replicate 192 7) 3 1024 0 0) 0x1234 (replicate 16 5) 0.

Lemma demo_group_ok ro : group_ok (demo_group ro).
Proof.
  split; [unfold in_u; cbn; lia|apply Forall_replicate; unfold in_u; lia| |apply Forall_replicate; unfold in_u; lia].
  split; [intros _; cbn; lia|vm_compute; discriminate|vm_compute; reflexivity].
Qed.

Lemma group_csum_roundtrip_witness :
  (ext2fs_group_desc_csum_verify (ext2fs_group_desc_csum_set (demo_group 0x10) 1) 1).1 = 1 /\
  gfield_get Fflags (ext2fs_group_desc_csum_set (demo_group 0x400) 2) 2 = gfield_get Fflags (demo_group 0x400) 2.
Proof.
  split.
  - exact (f_equal fst (proj1 (group_csum_roundtrip (demo_group 0x10) 1 Fflags 2 (demo_group_ok 0x10) ltac:(cbn; lia) ltac:(cbn; lia)))).
  - assert (Hf : Fflags <> Fchecksum) by discriminate. pose proof (group_csum_roundtrip (demo_group 0x400) 2 Fflags 2
      (demo_group_ok 0x400) ltac:(cbn; lia) ltac:(cbn; lia)) as HH. cbv zeta in HH. exact (proj2 HH (or_introl Hf)).
Defined.

Lemma bitmap_csum_roundtrip_witness :
  bitmap_csum_verify true (bitmap_csum_set true (demo_group 0x400) 1 (replicate 16 255) 16).2 1 (replicate 16 255) 16 = 1.
Proof.
  exact (proj1 (bitmap_csum_roundtrip true (demo_group 0x400) 1 (replicate 16 255) 16
    (bitmap_csum_set true (demo_group 0x400) 1 (replicate 16 255) 16).2 Fflags 1 (demo_group_ok 0x400) (or_introl eq_refl)
    ltac:(cbn; lia) ltac:(cbn; lia) ltac:(repeat constructor; lia) ltac:(vm_compute; reflexivity))).
Defined.
