(* ===== verification/Alloc.v ===== *)
(** Allocation of blocks and inodes: [rfsck-ext/lib/ext2fs/alloc_stats.c] and [alloc.c], and
    [ext2fs_set_gdt_csum] of [csum.c].

    The bitmaps are generic bitmaps over any implementation.  A null [map] argument is [None]: the
    bitmap of the file system is used, and changed, in place; a bitmap the caller passes is
    returned as the function leaves it.  The callbacks of a file system ([get_alloc_block2],
    [get_alloc_block], [new_range], [block_alloc_stats] and [block_alloc_stats_range]) and
    [ext2fs_read_block_bitmap] are arguments.  The channel a new block is cleared through is any
    [BlockIo]; [ext2fs_zero_blocks2] of [mkjournal.c] is modelled with its static buffer.  Handles
    are taken to have the right magic number. *)
From Stdlib Require Import ZArith Lia.
From stdpp Require Import base tactics numbers list.
From S2P Require Import Prelude ExtErr Bitops BitmapOps BitArray GenBitmap Crc32c BlkNum Csum.

Definition EXT2_ET_NO_INODE_BITMAP : Z := EXT2_ET_BASE + 39.
Definition EXT2_ET_NO_BLOCK_BITMAP : Z := EXT2_ET_BASE + 40.
Definition EXT2_ET_BLOCK_ALLOC_FAIL : Z := EXT2_ET_BASE + 72.
Definition EXT2_ET_INODE_ALLOC_FAIL : Z := EXT2_ET_BASE + 73.

Definition EXT2_BG_INODE_UNINIT : Z := 1.
Definition EXT2_BG_BLOCK_UNINIT : Z := 2.

(** * Clearing blocks: [ext2fs_zero_blocks2] of [mkjournal.c] *)

(** The channel of the file system: a code and the channel afterwards. *)
Class BlockIo (W : Type) := {
  io_channel_zeroout : Z -> Z -> W -> Z * W;
  io_write_blocks : Z -> Z -> list Z -> W -> Z * W
}.

(** The channel, and the static variables [buf] and [stride_length]. *)
Record zero_state (W : Type) := mkZero {
  z_io : W;
  z_buf : list Z;
  stride_length : Z
}.
Arguments mkZero {W}.
Arguments z_io {W}.
Arguments z_buf {W}.
Arguments stride_length {W}.

Section zero.
Context {W : Type} `{!BlockIo W}.

Definition MAX_STRIDE_LENGTH (blocksize : Z) : Z := 4194304 / blocksize.

(** The write loop: [left] is [num - j]. *)
Fixpoint zero_write_loop (fuel : nat) (z : zero_state W) (blk left : Z) : Z * zero_state W :=
  match fuel with
  | O => (0, z)
  | S fuel' =>
      if decide (0 < left) then
        let stride := stride_length z in
        let count :=
          if decide (blk mod stride <> 0) then
            let count := stride - blk mod stride in if decide (count > left) then left else count
          else if decide (left > stride) then stride else left in
        let '(retval, io) := io_write_blocks blk count (z_buf z) (z_io z) in
        let z := mkZero io (z_buf z) stride in
        if decide (retval <> 0) then (retval, z)
        else zero_write_loop fuel' z (u64 (blk + count)) (left - count)
      else (0, z)
  end.

(** [mem]: whether [realloc] succeeds.  The call with a file system and with null [ret_blk] and
    [ret_count], as [alloc.c] makes it.  Every turn of the loop writes a block or more. *)
Definition ext2fs_zero_blocks2 (mem : bool) (blocksize : Z) (z : zero_state W) (blk num : Z) : Z * zero_state W :=
  if decide (num <= 0) then (0, z)
  else
    let '(retval, io) := io_channel_zeroout blk num (z_io z) in
    let z := mkZero io (z_buf z) (stride_length z) in
    if decide (retval = 0) then (0, z)
    else if bool_decide (num > stride_length z) && bool_decide (stride_length z < MAX_STRIDE_LENGTH blocksize)
    then
      let new_stride := if decide (num > MAX_STRIDE_LENGTH blocksize) then MAX_STRIDE_LENGTH blocksize else num in
      if mem then zero_write_loop (Z.to_nat num) (mkZero io (replicate (Z.to_nat (blocksize * new_stride)) 0) new_stride) blk num
      else (EXT2_ET_NO_MEMORY, z)
    else zero_write_loop (Z.to_nat num) z blk num.

End zero.

(** * State *)

Record alloc_fs (T : Type) := mkAfs {
  a_cs :> csum_fs;
  s_inodes_count : Z;
  s_free_inodes_count : Z;
  s_inodes_per_group : Z;
  inode_map : generic_bitmap T;
  block_map : generic_bitmap T
}.
Arguments mkAfs {T}.
Arguments a_cs {T}.
Arguments s_inodes_count {T}.
Arguments s_free_inodes_count {T}.
Arguments s_inodes_per_group {T}.
Arguments inode_map {T}.
Arguments block_map {T}.

Section state.
Context {T : Type}.

Definition set_cs (a : alloc_fs T) (c : csum_fs) : alloc_fs T :=
  mkAfs c (s_inodes_count a) (s_free_inodes_count a) (s_inodes_per_group a) (inode_map a) (block_map a).
(** A change of the descriptors or the superblock. *)
Definition upd_fs (a : alloc_fs T) (f : filsys) : alloc_fs T := set_cs a (set_fs a f).
Definition set_inode_map (m : generic_bitmap T) (a : alloc_fs T) : alloc_fs T :=
  mkAfs (a_cs a) (s_inodes_count a) (s_free_inodes_count a) (s_inodes_per_group a) m (block_map a).
Definition set_block_map (m : generic_bitmap T) (a : alloc_fs T) : alloc_fs T :=
  mkAfs (a_cs a) (s_inodes_count a) (s_free_inodes_count a) (s_inodes_per_group a) (inode_map a) m.
Definition set_free_inodes (n : Z) (a : alloc_fs T) : alloc_fs T :=
  mkAfs (a_cs a) (s_inodes_count a) n (s_inodes_per_group a) (inode_map a) (block_map a).

Definition or_flags (fl : Z) (a : alloc_fs T) : alloc_fs T :=
  upd_fs a (mkFs (fs_super a) (fs_group_desc a) (fs_group_desc_count a) (fs_blocksize a) (fs_cluster_ratio_bits a) (Z.lor (fs_flags a) fl)).
Definition set_super (s : super_block) (a : alloc_fs T) : alloc_fs T :=
  upd_fs a (mkFs s (fs_group_desc a) (fs_group_desc_count a) (fs_blocksize a) (fs_cluster_ratio_bits a) (fs_flags a)).

(** [EXT2_FLAG_DIRTY | EXT2_FLAG_CHANGED] and the like. *)
Definition ext2fs_mark_super_dirty (a : alloc_fs T) : alloc_fs T := or_flags 0x6 a.
Definition ext2fs_mark_ib_dirty (a : alloc_fs T) : alloc_fs T := or_flags 0x12 a.
Definition ext2fs_mark_bb_dirty (a : alloc_fs T) : alloc_fs T := or_flags 0x22 a.

Definition ext2fs_group_of_ino (a : alloc_fs T) (ino : Z) : Z := u32 (ino - 1) / s_inodes_per_group a.

(** [EXT2FS_CLUSTER_RATIO] *)
Definition CLUSTER_RATIO (a : alloc_fs T) : Z := Z.shiftl 1 (fs_cluster_ratio_bits a).

(** [EXT2_FIRST_INODE] *)
Definition FIRST_INODE (s : super_block) : Z := if decide (s_rev_level s = 0) then 11 else s_first_ino s.

End state.

Section alloc.
Context {T : Type} `{!BitmapOps T} `{!Checksum}.
Notation afs := (alloc_fs T).

Definition csum_set_grp (group : Z) (a : afs) : afs := set_cs a (ext2fs_group_desc_csum_set a group).

(** * [alloc_stats.c] *)

(** The part of [ext2fs_inode_alloc_stats2] that changes the descriptor of the group. *)
Definition inode_stats_desc (inodes_per_group : Z) (c : csum_fs) (group ino inuse : Z) (isdir : bool) : csum_fs :=
  let c := set_fs c (ext2fs_bg_free_inodes_count_set c group (u32 (ext2fs_bg_free_inodes_count c group - inuse))) in
  let c := if isdir then set_fs c (ext2fs_bg_used_dirs_count_set c group (u32 (ext2fs_bg_used_dirs_count c group + inuse))) else c in
  let c := set_fs c (ext2fs_bg_flags_clear c group EXT2_BG_INODE_UNINIT) in
  if ext2fs_has_group_desc_csum c then
    let first_unused_inode := u32 (inodes_per_group - ext2fs_bg_itable_unused c group + group * inodes_per_group + 1) in
    let c :=
      if decide (ino >= first_unused_inode)
      then set_fs c (ext2fs_bg_itable_unused_set c group (u32 (group * inodes_per_group + inodes_per_group - ino)))
      else c in
    ext2fs_group_desc_csum_set c group
  else c.

Definition ext2fs_inode_alloc_stats2 (a : afs) (ino inuse : Z) (isdir : bool) : afs :=
  let group := ext2fs_group_of_ino a ino in
  if decide (ino > s_inodes_count a) then a
  else
    let a := set_inode_map ((if decide (inuse > 0) then ext2fs_mark_generic_bmap (inode_map a) ino
                             else ext2fs_unmark_generic_bmap (inode_map a) ino).2) a in
    let a := set_cs a (inode_stats_desc (s_inodes_per_group a) a group ino inuse isdir) in
    let a := set_free_inodes (u32 (s_free_inodes_count a - inuse)) a in
    ext2fs_mark_ib_dirty (ext2fs_mark_super_dirty a).

Definition ext2fs_inode_alloc_stats (a : afs) (ino inuse : Z) : afs := ext2fs_inode_alloc_stats2 a ino inuse false.

Variable block_alloc_stats : option (afs -> Z -> Z -> afs).
Variable block_alloc_stats_range : option (afs -> Z -> Z -> Z -> afs).

Definition ext2fs_block_alloc_stats2 (a : afs) (blk inuse : Z) : afs :=
  let group := ext2fs_group_of_blk2 a blk in
  if decide (blk >= ext2fs_blocks_count (fs_super a)) then a
  else
    let a := set_block_map ((if decide (inuse > 0) then ext2fs_mark_generic_bmap (block_map a) blk
                             else ext2fs_unmark_generic_bmap (block_map a) blk).2) a in
    let a := upd_fs a (ext2fs_bg_free_blocks_count_set a group (u32 (ext2fs_bg_free_blocks_count a group - inuse))) in
    let a := upd_fs a (ext2fs_bg_flags_clear a group EXT2_BG_BLOCK_UNINIT) in
    let a := csum_set_grp group a in
    let a := set_super (ext2fs_free_blocks_count_add (fs_super a) (u64 (- inuse * CLUSTER_RATIO a))) a in
    let a := ext2fs_mark_bb_dirty (ext2fs_mark_super_dirty a) in
    match block_alloc_stats with Some f => f a blk inuse | None => a end.

Definition ext2fs_block_alloc_stats (a : afs) (blk inuse : Z) : afs := ext2fs_block_alloc_stats2 a (u32 blk) inuse.

(** The loop of [ext2fs_block_alloc_stats_range]: the state, and [blk] and [num] at its end. *)
Fixpoint stats_range_loop (fuel : nat) (a : afs) (blk num inuse : Z) : afs * Z * Z :=
  match fuel with
  | O => (a, blk, num)
  | S fuel' =>
      if decide (num = 0) then (a, blk, num)
      else
        let group := ext2fs_group_of_blk2 a blk in
        let last_blk := ext2fs_group_last_block2 a group in
        let n := if decide (u64 (blk + num) > last_blk) then u64 (last_blk - blk + 1) else num in
        let a := upd_fs a (ext2fs_bg_free_blocks_count_set a group
                   (u32 (ext2fs_bg_free_blocks_count a group - u64 (inuse * n) / CLUSTER_RATIO a))) in
        let a := upd_fs a (ext2fs_bg_flags_clear a group EXT2_BG_BLOCK_UNINIT) in
        let a := csum_set_grp group a in
        let a := set_super (ext2fs_free_blocks_count_add (fs_super a) (u64 (- inuse * n))) a in
        stats_range_loop fuel' a (u64 (blk + n)) (u32 (num - n)) inuse
  end.

Definition ext2fs_block_alloc_stats_range (a : afs) (blk num inuse : Z) : afs :=
  if decide (u64 (blk + num) > ext2fs_blocks_count (fs_super a)) then a
  else if decide (inuse = 0) then a
  else
    let '(m, inuse) :=
      if decide (inuse > 0) then (ext2fs_mark_block_bitmap_range2 (block_map a) blk num, 1)
      else (ext2fs_unmark_block_bitmap_range2 (block_map a) blk num, -1) in
    let a := set_block_map m a in
    let '(a, blk, num) := stats_range_loop (Z.to_nat num) a blk num inuse in
    let a := ext2fs_mark_bb_dirty (ext2fs_mark_super_dirty a) in
    match block_alloc_stats_range with Some f => f a blk num inuse | None => a end.

(** * [alloc.c] *)

Definition ext2fs_clear_block_uninit (a : afs) (group : Z) : afs :=
  if bool_decide (group >= fs_group_desc_count a) || negb (ext2fs_has_group_desc_csum a)
     || bool_decide (ext2fs_bg_flags_test a group EXT2_BG_BLOCK_UNINIT = 0)
  then a
  else
    let a := upd_fs a (ext2fs_bg_flags_clear a group EXT2_BG_BLOCK_UNINIT) in
    ext2fs_mark_bb_dirty (ext2fs_mark_super_dirty (csum_set_grp group a)).

(** A map argument and the state it is used in: the map used, and storing a changed one. *)
Definition use_map (own : generic_bitmap T) (map : option (generic_bitmap T)) : generic_bitmap T :=
  match map with Some m => m | None => own end.

Fixpoint unmark_inodes (n : nat) (m : generic_bitmap T) (ino : Z) : generic_bitmap T :=
  match n with
  | O => m
  | S n' => unmark_inodes n' ((ext2fs_unmark_generic_bmap m ino).2) (u32 (ino + 1))
  end.

(** The state and the map. *)
Definition check_inode_uninit (a : afs) (map : generic_bitmap T) (group : Z) : afs * generic_bitmap T :=
  if bool_decide (group >= fs_group_desc_count a) || negb (ext2fs_has_group_desc_csum a)
     || bool_decide (ext2fs_bg_flags_test a group EXT2_BG_INODE_UNINIT = 0)
  then (a, map)
  else
    let map := unmark_inodes (Z.to_nat (s_inodes_per_group a)) map (u32 (group * s_inodes_per_group a + 1)) in
    let a := upd_fs a (ext2fs_bg_flags_clear a group EXT2_BG_INODE_UNINIT) in
    let a := upd_fs a (ext2fs_bg_flags_clear a group EXT2_BG_BLOCK_UNINIT) in
    (ext2fs_mark_super_dirty (ext2fs_mark_ib_dirty (csum_set_grp group a)), map).

(** The loop of [ext2fs_new_inode]; [None] when the fuel runs out. *)
Fixpoint new_inode_loop (fuel : nat) (a : afs) (map : generic_bitmap T) (start_inode i : Z)
  : option ((Z + Z) * afs * generic_bitmap T) :=
  match fuel with
  | O => None
  | S fuel' =>
      let ino_in_group := u32 (i - 1) mod s_inodes_per_group a in
      let group := u32 (i - 1) / s_inodes_per_group a in
      let '(a, map) := check_inode_uninit a map group in
      let upto := u32 (i + (s_inodes_per_group a - ino_in_group)) in
      let upto := if bool_decide (i < start_inode) && bool_decide (upto >= start_inode) then u32 (start_inode - 1) else upto in
      let upto := if decide (upto > s_inodes_count a) then s_inodes_count a else upto in
      match ext2fs_find_first_zero_generic_bmap map i upto with
      | (0, Some first_zero) => Some (inr first_zero, a, map)
      | (retval, _) =>
          if decide (retval <> ENOENT) then Some (inl EXT2_ET_INODE_ALLOC_FAIL, a, map)
          else
            let i := u32 (upto + 1) in
            let i := if decide (i > s_inodes_count a) then FIRST_INODE (fs_super a) else i in
            if decide (i <> start_inode) then new_inode_loop fuel' a map start_inode i
            else Some (inr i, a, map)
      end
  end.

(** The loop visits every group at most twice, and goes through the first one once more. *)
Definition new_inode_fuel (a : afs) : nat := 2 * Z.to_nat (s_inodes_count a) + 2.

(** The code or the inode, the state, and the map of the caller. *)
Definition ext2fs_new_inode (a : afs) (dir : Z) (map : option (generic_bitmap T))
  : option ((Z + Z) * afs * option (generic_bitmap T)) :=
  match use_map (inode_map a) map with
  | Bnull => Some (inl EXT2_ET_NO_INODE_BITMAP, a, map)
  | m =>
      let start_inode :=
        if decide (dir > 0) then u32 (u32 (dir - 1) / s_inodes_per_group a * s_inodes_per_group a + 1) else 0 in
      let start_inode := if decide (start_inode < FIRST_INODE (fs_super a)) then FIRST_INODE (fs_super a) else start_inode in
      if decide (start_inode > s_inodes_count a) then Some (inl EXT2_ET_INODE_ALLOC_FAIL, a, map)
      else
        match new_inode_loop (new_inode_fuel a) a m start_inode start_inode with
        | None => None
        | Some (r, a, m) =>
            let '(a, map) := match map with Some _ => (a, Some m) | None => (set_inode_map m a, None) end in
            match r with
            | inl retval => Some (inl retval, a, map)
            | inr i =>
                if decide (ext2fs_test_generic_bmap m i <> 0) then Some (inl EXT2_ET_INODE_ALLOC_FAIL, a, map)
                else Some (inr i, a, map)
            end
        end
  end.

Variable get_alloc_block2 : option (afs -> Z -> (Z + Z) * afs).
Variable get_alloc_block : option (afs -> Z -> (Z + Z) * afs).

(** What follows the label [allocated]. *)
Definition new_block_allocated (r : Z + Z) (a : afs) : (Z + Z) * afs :=
  match r with
  | inl retval => (inl (if decide (retval = ENOENT) then EXT2_ET_BLOCK_ALLOC_FAIL else retval), a)
  | inr b => (inr b, ext2fs_clear_block_uninit a (ext2fs_group_of_blk2 a b))
  end.

Definition sum_of_find (r : Z * option Z) : Z + Z :=
  match r with (0, Some b) => inr b | (retval, _) => inl retval end.

(** The search of a bitmap: from the goal to the end, then from the start to the goal. *)
Definition new_block_search (a : afs) (m : generic_bitmap T) (goal : Z) : Z + Z :=
  let count := ext2fs_blocks_count (fs_super a) in
  let first := s_first_data_block (fs_super a) in
  let goal := if bool_decide (goal = 0) || bool_decide (goal >= count) then first else goal in
  let goal := Z.land goal (Z.lnot (CLUSTER_RATIO a - 1)) in
  let r := ext2fs_find_first_zero_generic_bmap m goal (u64 (count - 1)) in
  let r :=
    if bool_decide (r.1 = ENOENT) && bool_decide (goal <> first)
    then ext2fs_find_first_zero_generic_bmap m first (u64 (goal - 1)) else r in
  sum_of_find r.

Definition ext2fs_new_block3 (a : afs) (goal : Z) (map : option (generic_bitmap T)) : (Z + Z) * afs :=
  match map, get_alloc_block2, get_alloc_block with
  | None, Some gab2, _ => let '(r, a) := gab2 a goal in new_block_allocated r a
  | None, None, Some gab => let '(r, a) := gab a goal in new_block_allocated r a
  | _, _, _ =>
      match use_map (block_map a) map with
      | Bnull => (inl EXT2_ET_NO_BLOCK_BITMAP, a)
      | m => new_block_allocated (new_block_search a m goal) a
      end
  end.

Definition ext2fs_new_block2 (a : afs) (goal : Z) (map : option (generic_bitmap T)) : (Z + Z) * afs :=
  ext2fs_new_block3 a goal map.

Definition ext2fs_new_block (a : afs) (goal : Z) (map : option (generic_bitmap T)) : (Z + Z) * afs :=
  let '(r, a) := ext2fs_new_block2 a (u32 goal) map in
  (match r with inl retval => inl retval | inr val => inr (u32 val) end, a).

(** The file system after reading its bitmap; the channel; the success of [realloc]. *)
Variable read_block_bitmap : afs -> Z * afs.
Context {W : Type} `{!BlockIo W}.
Variable mem : bool.

(** Clearing a new block: with the buffer of the caller, or the static one. *)
Definition clear_new_block (a : afs) (block : Z) (block_buf : option (list Z)) (z : zero_state W)
  : Z * option (list Z) * zero_state W :=
  match block_buf with
  | Some buf =>
      let buf := replicate (Z.to_nat (fs_blocksize a)) 0 ++ drop (Z.to_nat (fs_blocksize a)) buf in
      let '(retval, io) := io_write_blocks block 1 buf (z_io z) in
      (retval, Some buf, mkZero io (z_buf z) (stride_length z))
  | None =>
      let '(retval, z) := ext2fs_zero_blocks2 mem (fs_blocksize a) z block 1 in (retval, None, z)
  end.

(** The code or the block, the file system, the buffer of the caller and the channel. *)
Definition ext2fs_alloc_block3 (a : afs) (goal : Z) (block_buf : option (list Z)) (z : zero_state W)
  : (Z + Z) * afs * option (list Z) * zero_state W :=
  let '(r, a) :=
    match get_alloc_block2, get_alloc_block with
    | Some gab2, _ => gab2 a goal
    | None, Some gab => gab a goal
    | None, None =>
        let '(retval, a) := match block_map a with Bnull => read_block_bitmap a | _ => (0, a) end in
        if decide (retval <> 0) then (inl retval, a) else ext2fs_new_block3 a goal None
    end in
  match r with
  | inl retval => (inl retval, a, block_buf, z)
  | inr block =>
      let '(retval, block_buf, z) := clear_new_block a block block_buf z in
      if decide (retval <> 0) then (inl retval, a, block_buf, z)
      else (inr block, ext2fs_block_alloc_stats2 a block 1, block_buf, z)
  end.

Definition ext2fs_alloc_block2 (a : afs) (goal : Z) (block_buf : option (list Z)) (z : zero_state W)
  : (Z + Z) * afs * option (list Z) * zero_state W := ext2fs_alloc_block3 a goal block_buf z.

(** [ext2fs_get_bitmap_granularity] *)
Definition ext2fs_get_bitmap_granularity (m : generic_bitmap T) : Z := match m with B64 _ c _ => c | _ => 0 end.

(** The loop of [ext2fs_get_free_blocks2]. *)
Fixpoint free_blocks_loop (fuel : nat) (a : afs) (m : generic_bitmap T) (start finish num c_ratio b : Z) : option (Z + Z) :=
  match fuel with
  | O => None
  | S fuel' =>
      let past := bool_decide (u64 (b + num - 1) >= ext2fs_blocks_count (fs_super a)) in
      if past && bool_decide (finish > start) then Some (inl EXT2_ET_BLOCK_ALLOC_FAIL)
      else
        let b := if past then s_first_data_block (fs_super a) else b in
        if decide (ext2fs_test_block_bitmap_range2 m b num <> 0) then Some (inr b)
        else
          let b := u64 (b + c_ratio) in
          if decide (b <> finish) then free_blocks_loop fuel' a m start finish num c_ratio b
          else Some (inl EXT2_ET_BLOCK_ALLOC_FAIL)
  end.

Definition ext2fs_get_free_blocks2 (fuel : nat) (a : afs) (start finish num : Z) (map : option (generic_bitmap T)) : option (Z + Z) :=
  match use_map (block_map a) map with
  | Bnull => Some (inl EXT2_ET_NO_BLOCK_BITMAP)
  | m =>
      let b := if decide (start = 0) then s_first_data_block (fs_super a) else start in
      let finish := if decide (finish = 0) then start else finish in
      let num := if decide (num = 0) then 1 else num in
      let c_ratio := Z.shiftl 1 (ext2fs_get_bitmap_granularity m) in
      let b := Z.land b (Z.lnot (c_ratio - 1)) in
      let finish := Z.land finish (Z.lnot (c_ratio - 1)) in
      free_blocks_loop fuel a m start finish num c_ratio b
  end.

(** ** [ext2fs_new_range] *)

Definition NEWRANGE_FIXED_GOAL : Z := 1.
Definition NEWRANGE_MIN_LENGTH : Z := 2.

(** [for (b = start; b < end; b += s_blocks_per_group) ext2fs_clear_block_uninit(...)] *)
Fixpoint range_clear_uninit (fuel : nat) (a : afs) (b end_ : Z) : afs :=
  match fuel with
  | O => a
  | S fuel' =>
      if decide (b < end_)
      then range_clear_uninit fuel' (ext2fs_clear_block_uninit a (ext2fs_group_of_blk2 a b))
             (u64 (b + s_blocks_per_group (fs_super a))) end_
      else a
  end.

(** The loop: the code, or the run. *)
Fixpoint new_range_loop (fuel : nat) (a : afs) (m : generic_bitmap T) (flags goal len : Z) (looped : bool) (start : Z)
  : option (Z + Z * Z) :=
  match fuel with
  | O => None
  | S fuel' =>
      let max_blocks := ext2fs_blocks_count (fs_super a) in
      let fixed := bool_decide (Z.land flags NEWRANGE_FIXED_GOAL <> 0) in
      if looped && negb (bool_decide (start <= goal)) then Some (inl EXT2_ET_BLOCK_ALLOC_FAIL)
      else
        match ext2fs_find_first_zero_generic_bmap m start (u64 (max_blocks - 1)) with
        | (0, Some start) =>
            if fixed && bool_decide (start <> goal) then Some (inl EXT2_ET_BLOCK_ALLOC_FAIL)
            else
              let b := if decide (u64 (start + len - 1) < u64 (max_blocks - 1)) then u64 (start + len - 1) else u64 (max_blocks - 1) in
              match (match ext2fs_find_first_set_generic_bmap m start b with
                     | (0, Some e) => inr e
                     | (retval, _) => if decide (retval = ENOENT) then inr (u64 (b + 1)) else inl retval
                     end) with
              | inl retval => Some (inl retval)
              | inr end_ =>
                  if bool_decide (Z.land flags NEWRANGE_MIN_LENGTH = 0) || bool_decide (u64 (end_ - start) >= len)
                  then Some (inr (start, u64 (end_ - start)))
                  else if fixed then Some (inl EXT2_ET_BLOCK_ALLOC_FAIL)
                  else if decide (end_ >= max_blocks)
                  then if looped then Some (inl EXT2_ET_BLOCK_ALLOC_FAIL)
                       else new_range_loop fuel' a m flags goal len true (s_first_data_block (fs_super a))
                  else new_range_loop fuel' a m flags goal len looped end_
              end
        | (retval, _) =>
            if decide (retval = ENOENT) then
              if fixed || bool_decide (start = s_first_data_block (fs_super a)) then Some (inl EXT2_ET_BLOCK_ALLOC_FAIL)
              else new_range_loop fuel' a m flags goal len looped (s_first_data_block (fs_super a))
            else Some (inl retval)
        end
  end.

Variable new_range_cb : option (afs -> Z -> Z -> Z -> (Z + Z * Z) * afs).

Definition ext2fs_new_range (fuel : nat) (a : afs) (flags goal len : Z) (map : option (generic_bitmap T))
  : option ((Z + Z * Z) * afs) :=
  if bool_decide (len = 0) || bool_decide (Z.land flags (Z.lnot 3) <> 0) then Some (inl EXT2_ET_INVALID_ARGUMENT, a)
  else
    let found (r : Z + Z * Z) (a : afs) :=
      match r with
      | inl retval => (inl retval, a)
      | inr (start, plen) => (inr (start, plen), range_clear_uninit (Z.to_nat plen) a start (u64 (start + plen)))
      end in
    match map, new_range_cb with
    | None, Some nrf => let '(r, a) := nrf a flags goal len in Some (found r a)
    | _, _ =>
        match use_map (block_map a) map with
        | Bnull => Some (inl EXT2_ET_NO_BLOCK_BITMAP, a)
        | m =>
            let goal :=
              if bool_decide (goal = 0) || bool_decide (goal >= ext2fs_blocks_count (fs_super a))
              then s_first_data_block (fs_super a) else goal in
            match new_range_loop fuel a m flags goal len false goal with
            | None => None
            | Some r => Some (found r a)
            end
        end
    end.

(** The length, a [blk_t], is passed on as an [int]. *)
Definition ext2fs_alloc_range (fuel : nat) (a : afs) (flags goal len : Z) (z : zero_state W) : option ((Z + Z) * afs * zero_state W) :=
  if bool_decide (len = 0) || bool_decide (Z.land flags (Z.lnot 3) <> 0) then Some (inl EXT2_ET_INVALID_ARGUMENT, a, z)
  else
    let newr_flags :=
      if decide (Z.land flags 1 <> 0) then Z.lor NEWRANGE_MIN_LENGTH NEWRANGE_FIXED_GOAL else NEWRANGE_MIN_LENGTH in
    match ext2fs_new_range fuel a newr_flags goal len None with
    | None => None
    | Some (inl retval, a) => Some (inl retval, a, z)
    | Some (inr (blk, plen), a) =>
        if decide (plen < len) then Some (inl EXT2_ET_BLOCK_ALLOC_FAIL, a, z)
        else
          let '(retval, z) :=
            if decide (Z.land flags 2 <> 0) then ext2fs_zero_blocks2 mem (fs_blocksize a) z blk (s32 len) else (0, z) in
          if decide (retval <> 0) then Some (inl retval, a, z)
          else Some (inr blk, ext2fs_block_alloc_stats_range a blk len 1, z)
    end.

(** * [ext2fs_set_gdt_csum] of [csum.c] *)

(** [for (i = end_ino; i >= start_ino; i--)], [n] turns left. *)
Fixpoint last_inode_loop (n : nat) (bitmap : generic_bitmap T) (i start_ino : Z) : option Z :=
  match n with
  | O => None
  | S n' =>
      if decide (ext2fs_test_generic_bmap bitmap i <> 0) then Some (i - start_ino + 1)
      else last_inode_loop n' bitmap (i - 1) start_ino
  end.

Definition find_last_inode_ingrp (bitmap : generic_bitmap T) (inodes_per_grp grp_no : Z) : Z :=
  let start_ino := u32 (grp_no * inodes_per_grp + 1) in
  let end_ino := u32 (start_ino + inodes_per_grp - 1) in
  match last_inode_loop (Z.to_nat (end_ino - start_ino + 1)) bitmap end_ino start_ino with
  | Some r => r
  | None => inodes_per_grp
  end.

(** What one turn of the loop over the groups does to the descriptor. *)
Definition gdt_csum_desc (inodes_per_group : Z) (bitmap : generic_bitmap T) (c : csum_fs) (i : Z) : csum_fs :=
  let old_free_inodes_count := ext2fs_bg_free_inodes_count c i in
  let old_free_blocks_count := ext2fs_bg_free_blocks_count c i in
  let c :=
    if bool_decide (old_free_blocks_count = s_blocks_per_group (fs_super c)) && bool_decide (i <> u32 (fs_group_desc_count c - 1))
    then set_fs c (ext2fs_bg_flags_set c i EXT2_BG_BLOCK_UNINIT) else c in
  let c :=
    if decide (old_free_inodes_count = inodes_per_group) then
      let c := set_fs c (ext2fs_bg_flags_set c i EXT2_BG_INODE_UNINIT) in
      set_fs c (ext2fs_bg_itable_unused_set c i inodes_per_group)
    else
      let unused := u32 (inodes_per_group - find_last_inode_ingrp bitmap inodes_per_group i) in
      let c := set_fs c (ext2fs_bg_flags_clear c i EXT2_BG_INODE_UNINIT) in
      set_fs c (ext2fs_bg_itable_unused_set c i unused) in
  ext2fs_group_desc_csum_set c i.

(** One turn: the state, and whether the descriptor changed. *)
Definition gdt_csum_step (i : Z) (a : afs) : afs * bool :=
  let c := gdt_csum_desc (s_inodes_per_group a) (inode_map a) a i in
  (set_cs a c, bool_decide (ext2fs_bg_flags a i <> ext2fs_bg_flags c i)
               || bool_decide (ext2fs_bg_itable_unused a i <> ext2fs_bg_itable_unused c i)
               || bool_decide (ext2fs_bg_checksum a i <> ext2fs_bg_checksum c i)).

Fixpoint gdt_csum_loop (n : nat) (i : Z) (a : afs) (dirty : bool) : afs * bool :=
  match n with
  | O => (a, dirty)
  | S n' => let '(a, d) := gdt_csum_step i a in gdt_csum_loop n' (i + 1) a (dirty || d)
  end.

Definition ext2fs_set_gdt_csum (a : afs) : Z * afs :=
  match inode_map a with
  | Bnull => (EXT2_ET_NO_INODE_BITMAP, a)
  | _ =>
      if negb (ext2fs_has_group_desc_csum a) then (0, a)
      else
        let '(a, dirty) := gdt_csum_loop (Z.to_nat (fs_group_desc_count a)) 0 a false in
        (0, if dirty then ext2fs_mark_super_dirty a else a)
  end.

End alloc.
