(* ===== verification/AllocProofs.v ===== *)
(** Allocation keeps its counters: the numbers of free blocks and inodes of every group and of the
    file system are the numbers of clear bits of the bitmaps. *)
From Stdlib Require Import ZArith Lia.
From stdpp Require Import base tactics numbers list sets.
From S2P Require Import Prelude ExtErr Bitops BitmapOps BitArray BitArrayProofs GenBitmap GenBitmapProofs.
From S2P Require Import Crc32c BlkNum BlkNumProofs Csum CsumProofs CsumGroup Alloc.

(** * Counting clear bits *)

(** The number of [x] in [a .. a + n - 1] where [P] is false. *)
Definition nclear (P : Z -> bool) (a n : Z) : Z := Z.of_nat (length (filter (fun x => P x = false) (seqZ a n))).

Lemma nclear_nil P a n : n <= 0 -> nclear P a n = 0.
Proof. intros Hn. unfold nclear. by rewrite seqZ_nil by lia. Qed.

Lemma nclear_app P a n m : 0 <= n -> 0 <= m -> nclear P a (n + m) = nclear P a n + nclear P (a + n) m.
Proof. intros Hn Hm. unfold nclear. rewrite seqZ_app, filter_app, length_app by lia. lia. Qed.

Lemma nclear_one P a : nclear P a 1 = if P a then 0 else 1.
Proof. unfold nclear. rewrite seqZ_cons by lia. rewrite seqZ_nil by lia. rewrite filter_cons, filter_nil. by destruct (P a). Qed.

Lemma nclear_ext P Q a n : (forall x, a <= x < a + n -> P x = Q x) -> nclear P a n = nclear Q a n.
Proof.
  intros HE. unfold nclear. do 2 f_equal. assert (HE' : forall x, x ∈ seqZ a n -> P x = Q x) by (intros x Hx%elem_of_seqZ; apply HE; lia).
  clear HE. induction (seqZ a n) as [|y l IH]; [done|]. rewrite !filter_cons, HE', IH by set_solver. done.
Qed.

Lemma nclear_bounds P a n : 0 <= n -> 0 <= nclear P a n <= n.
Proof.
  intros Hn. unfold nclear. pose proof (length_filter (fun x => P x = false) (seqZ a n)) as HL. rewrite length_seqZ in HL. lia.
Qed.

(** All clear. *)
Lemma nclear_all P a n x : 0 <= n -> nclear P a n = n -> a <= x < a + n -> P x = false.
Proof.
  intros Hn HE Hx. destruct (P x) eqn:HP; [exfalso|done]. replace n with ((x - a) + (1 + (a + n - x - 1))) in HE by lia.
  rewrite !nclear_app in HE by lia. replace (a + (x - a)) with x in HE by lia. rewrite nclear_one, HP in HE.
  pose proof (nclear_bounds P a (x - a) ltac:(lia)). pose proof (nclear_bounds P (x + 1) (a + n - x - 1) ltac:(lia)). lia.
Qed.

(** Setting or clearing one bit. *)
Lemma nclear_update P Q x a n :
  0 <= n -> (forall y, a <= y < a + n -> y <> x -> Q y = P y) -> P x <> Q x ->
  nclear Q a n = nclear P a n + (if decide (a <= x < a + n) then (if Q x then -1 else 1) else 0).
Proof.
  intros Hn HQ Hx. destruct (decide (a <= x < a + n)) as [Hin|Hout].
  - replace n with ((x - a) + (1 + (a + n - x - 1))) by lia. rewrite !nclear_app by lia. replace (a + (x - a)) with x by lia.
    rewrite !nclear_one. rewrite (nclear_ext Q P a (x - a)) by (intros; apply HQ; lia).
    rewrite (nclear_ext Q P (x + 1)) by (intros; apply HQ; lia). destruct (P x), (Q x); done || lia.
  - rewrite (nclear_ext Q P) by (intros; apply HQ; lia). lia.
Qed.

(** * Descriptors *)

Lemma gfield_set_bytes f fs g v : bytes (fs_group_desc fs) -> bytes (fs_group_desc (gfield_set f fs g v)).
Proof.
  assert (HW : forall w o v fs g, bytes (fs_group_desc fs) -> bytes (fs_group_desc (gd_write w o v fs g))).
  { intros. cbn. apply cbytes_zsplice; [apply le_bytes_range|done]. }
  intros Hb. destruct f; cbn [gfield_set]; unfold ext2fs_block_bitmap_loc_set, ext2fs_inode_bitmap_loc_set, ext2fs_inode_table_loc_set,
    ext2fs_bg_free_blocks_count_set, ext2fs_bg_free_inodes_count_set, ext2fs_bg_used_dirs_count_set, ext2fs_bg_itable_unused_set,
    ext2fs_bg_flags_set, ext2fs_bg_flags_zap, ext2fs_bg_checksum_set, gd_set2; cbv zeta; try destruct (has_feature_64bit _); repeat apply HW; done.
Qed.

Section desc.
Context `{!Checksum}.

(** What an update of the descriptors keeps. *)
Record desc_same (c c' : csum_fs) : Prop := {
  ds_ok : group_ok c';
  ds_super : fs_super c' = fs_super c;
  ds_count : fs_group_desc_count c' = fs_group_desc_count c;
  ds_rest : csum_seed c' = csum_seed c /\ s_uuid c' = s_uuid c /\ fs_cluster_ratio_bits c' = fs_cluster_ratio_bits c
}.

Lemma gfield_set_frame f fs g v :
  fs_super (gfield_set f fs g v) = fs_super fs /\ fs_group_desc_count (gfield_set f fs g v) = fs_group_desc_count fs /\
  fs_cluster_ratio_bits (gfield_set f fs g v) = fs_cluster_ratio_bits fs.
Proof.
  destruct f; cbn; unfold ext2fs_block_bitmap_loc_set, ext2fs_inode_bitmap_loc_set, ext2fs_inode_table_loc_set,
    ext2fs_bg_free_blocks_count_set, ext2fs_bg_free_inodes_count_set, ext2fs_bg_used_dirs_count_set, ext2fs_bg_itable_unused_set, gd_set2;
    cbn [gd_write fs_super]; by repeat destruct (has_feature_64bit _).
Qed.

Lemma field_step f c g v :
  group_ok c -> 0 <= g < fs_group_desc_count c -> 0 <= v ->
  let c' := set_fs c (gfield_set f c g v) in
  desc_same c c' /\
  forall f' g', 0 <= g' < fs_group_desc_count c ->
    gfield_get f' c' g' = if decide (f' = f /\ g' = g) then v mod 2 ^ field_bits f (has_feature_64bit (fs_super c)) else gfield_get f' c g'.
Proof.
  intros Hok Hg Hv. cbv zeta. pose proof (go_table _ Hok) as Ht. destruct (gfield_set_frame f c g v) as (F1 & F2 & F3). split.
  - split; cbn; try done. destruct Hok. split; cbn; try done; [by apply (gfield_get_set f f c g g v)|by apply gfield_set_bytes].
  - intros f' g' Hg'. apply (gfield_get_set f f' c g g' v); done.
Qed.

Lemma flags_clear_step c g fl :
  group_ok c -> 0 <= g < fs_group_desc_count c -> in_u 16 fl ->
  let c' := set_fs c (ext2fs_bg_flags_clear c g fl) in
  desc_same c c' /\ ext2fs_bg_flags c' g = Z.ldiff (ext2fs_bg_flags c g) fl /\
  forall f' g', 0 <= g' < fs_group_desc_count c -> f' <> Fflags \/ g' <> g -> gfield_get f' c' g' = gfield_get f' c g'.
Proof.
  intros Hok Hg Hfl. cbv zeta. pose proof (go_table _ Hok) as Ht.
  pose proof (keeps_write Fflags g (u16 (Z.land (gd_read 2 18 c g) (Z.lnot fl))) c (18, 2) Ht Hg ltac:(apply elem_of_cons; by left)) as (K1 & K2 & K3 & K4).
  split_and!.
  - split; cbn; try done. destruct Hok. split; cbn; try done. apply cbytes_zsplice; [apply le_bytes_range|done].
  - apply Z.bits_inj'. intros i Hi. cbn [set_fs cs_fs]. rewrite Z.ldiff_spec, andb_comm. by apply desc_flags.
  - intros f' g' Hg' Hne. apply gfield_get_ext; [done|]. intros p Hp. destruct (slots_fit _ _ _ Hp) as (P1 & P2 & P3).
    pose proof (desc_size_bounds c Ht). apply (K4 g' p); try done; [destruct (has_feature_64bit (fs_super c)); lia|].
    destruct Hne as [Hf|]; [right|by left]. intros q Hq. apply (slots_apart Fflags f' (has_feature_64bit (fs_super c))); done.
Qed.

Lemma csum_step c g :
  group_ok c -> 0 <= g < fs_group_desc_count c ->
  let c' := ext2fs_group_desc_csum_set c g in
  desc_same c c' /\ ext2fs_group_desc_csum_verify c' g = (1, c') /\
  forall f' g', 0 <= g' < fs_group_desc_count c -> f' <> Fchecksum \/ g' <> g -> gfield_get f' c' g' = gfield_get f' c g'.
Proof.
  intros Hok Hg. cbv zeta. destruct (csum_set_keeps c g Hok Hg) as (K1 & K2 & K3 & _). split_and!.
  - split; try done. rewrite csum_set_eq by done. by destruct (ext2fs_has_group_desc_csum c).
  - by apply csum_set_verifies.
  - intros f' g' Hg' Hne. by apply csum_set_other.
Qed.

End desc.

Lemma desc_same_trans c1 c2 c3 : desc_same c1 c2 -> desc_same c2 c3 -> desc_same c1 c3.
Proof. intros [A1 A2 A3 (A4 & A5 & A6)] [B1 B2 B3 (B4 & B5 & B6)]. split; [done|congruence|congruence|split_and!; congruence]. Qed.

(** The counters of the superblock and the flags of the file system are not in the descriptors. *)
Definition with_super (c : csum_fs) (v fl : Z) : csum_fs :=
  set_fs c (mkFs (ext2fs_free_blocks_count_set (fs_super c) v) (fs_group_desc c) (fs_group_desc_count c) (fs_blocksize c) (fs_cluster_ratio_bits c) fl).

Lemma with_super_get c v fl f g : gfield_get f (with_super c v fl) g = gfield_get f c g.
Proof. by destruct f. Qed.

Lemma with_super_ok c v fl : group_ok c -> group_ok (with_super c v fl).
Proof. intros [H1 H2 H3 H4]. split; try done. destruct H3. by split. Qed.

Lemma with_super_verify `{!Checksum} c v fl g :
  ext2fs_group_desc_csum_verify c g = (1, c) -> (ext2fs_group_desc_csum_verify (with_super c v fl) g).1 = 1.
Proof.
  unfold ext2fs_group_desc_csum_verify. change (ext2fs_has_group_desc_csum (with_super c v fl)) with (ext2fs_has_group_desc_csum c).
  destruct (ext2fs_has_group_desc_csum c); [|done]. unfold ext2fs_group_desc_csum.
  change (has_feature_metadata_csum (fs_super (with_super c v fl))) with (has_feature_metadata_csum (fs_super c)).
  destruct (has_feature_metadata_csum (fs_super c)); intros HE; exact (f_equal fst HE).
Qed.

(** * Blocks *)

Section blocks.
Context {T : Type} `{!BitmapOps T} `{!BitmapLaws T} `{!Checksum}.
Implicit Types a : alloc_fs T.

Definition used (h : generic_bitmap T) (n : Z) : bool := gmem h (gunit h n).

(** A file system without bigalloc whose block bitmap covers its blocks. *)
Record blocks_ok (a : alloc_fs T) : Prop := {
  ao_group : group_ok a;
  ao_geom : geometry_ok a;
  ao_cluster : fs_cluster_ratio_bits a = 0;
  ao_bpg : s_blocks_per_group (fs_super a) < 2 ^ 16;
  ao_total : ext2fs_blocks_count (fs_super a) < 2 ^ counter_bits (fs_super a);
  ao_map : gwf (block_map a);
  ao_unit n : gunit (block_map a) n = n;
  ao_covers n : s_first_data_block (fs_super a) <= n < ext2fs_blocks_count (fs_super a) -> gcovers (block_map a) n
}.

(** The counters are right. *)
Record blocks_counted (a : alloc_fs T) : Prop := {
  bc_group g : 0 <= g < fs_group_desc_count a ->
    ext2fs_bg_free_blocks_count a g =
      nclear (used (block_map a)) (ext2fs_group_first_block2 a g) (ext2fs_group_blocks_count a g);
  bc_total : ext2fs_free_blocks_count (fs_super a) =
    nclear (used (block_map a)) (s_first_data_block (fs_super a)) (ext2fs_blocks_count (fs_super a) - s_first_data_block (fs_super a))
}.

(** The bitmap after the change of one block. *)
Lemma flip_used h n v :
  gwf h -> (forall m, gunit h m = m) -> gcovers h n -> 0 <= n < 2 ^ 64 ->
  let h' := ((if (v : bool) then ext2fs_mark_generic_bmap h n else ext2fs_unmark_generic_bmap h n).2) in
  gwf h' /\ (forall m, gunit h' m = m) /\ (forall m, gcovers h' m <-> gcovers h m) /\
  forall m, gcovers h m -> used h' m = if decide (m = n) then v else used h m.
Proof.
  intros Hwf Hu Hc Hn. cbv zeta. destruct v.
  - pose proof (mark_cases h n Hwf Hn) as HM. destruct (ext2fs_mark_generic_bmap h n) as [r h']. rewrite Hu, decide_True in HM by done.
    destruct HM as [_ (W & U & C & M)]. cbn [snd]. split_and!; [done|intros; by rewrite U|done|]. intros m Hm. unfold used. rewrite U, Hu, M by done.
    case_decide; [by rewrite bool_decide_eq_true_2|by rewrite bool_decide_eq_false_2].
  - pose proof (unmark_cases h n Hwf Hn) as HM. destruct (ext2fs_unmark_generic_bmap h n) as [r h']. rewrite Hu, decide_True in HM by done.
    destruct HM as [_ (W & U & C & M)]. cbn [snd]. split_and!; [done|intros; by rewrite U|done|]. intros m Hm. unfold used. rewrite U, Hu, M by done.
    case_decide; [by rewrite bool_decide_eq_true_2|by rewrite bool_decide_eq_false_2].
Qed.

(** The checksummed descriptors after the update of a group. *)
Definition stats_desc (c : csum_fs) (g n : Z) : csum_fs :=
  let c := set_fs c (ext2fs_bg_free_blocks_count_set c g n) in
  let c := set_fs c (ext2fs_bg_flags_clear c g EXT2_BG_BLOCK_UNINIT) in
  ext2fs_group_desc_csum_set c g.

Lemma stats_desc_spec c g n :
  group_ok c -> 0 <= g < fs_group_desc_count c -> in_u 16 n ->
  let c' := stats_desc c g n in
  desc_same c c' /\ ext2fs_group_desc_csum_verify c' g = (1, c') /\
  (forall g', 0 <= g' < fs_group_desc_count c -> ext2fs_bg_free_blocks_count c' g' = if decide (g' = g) then n else ext2fs_bg_free_blocks_count c g') /\
  (forall f g', 0 <= g' < fs_group_desc_count c -> g' <> g \/ f <> Ffree_blocks /\ f <> Fflags /\ f <> Fchecksum ->
     gfield_get f c' g' = gfield_get f c g') /\
  ext2fs_bg_flags c' g = Z.ldiff (ext2fs_bg_flags c g) EXT2_BG_BLOCK_UNINIT.
Proof.
  intros Hok Hg Hn. cbv zeta. unfold stats_desc.
  destruct (field_step Ffree_blocks c g n Hok Hg ltac:(apply Hn)) as [S1 R1]. set (c1 := set_fs c _) in *.
  assert (Hn' : n mod 2 ^ field_bits Ffree_blocks (has_feature_64bit (fs_super c)) = n).
  { apply Z.mod_small. unfold field_bits. cbn. unfold in_u in Hn. destruct (has_feature_64bit _); cbn; pow2_norm; lia. }
  rewrite Hn' in R1. assert (Hg1 : 0 <= g < fs_group_desc_count c1) by (by rewrite (ds_count _ _ S1)).
  destruct (flags_clear_step c1 g EXT2_BG_BLOCK_UNINIT (ds_ok _ _ S1) Hg1 ltac:(unfold in_u, EXT2_BG_BLOCK_UNINIT; lia)) as (S2 & F2 & R2).
  set (c2 := set_fs c1 _) in *. assert (Hg2 : 0 <= g < fs_group_desc_count c2) by (by rewrite (ds_count _ _ S2)).
  destruct (csum_step c2 g (ds_ok _ _ S2) Hg2) as (S3 & V3 & R3). set (c3 := ext2fs_group_desc_csum_set c2 g) in *.
  assert (R23 : forall f g', 0 <= g' < fs_group_desc_count c -> g' <> g \/ f <> Fflags /\ f <> Fchecksum -> gfield_get f c3 g' = gfield_get f c1 g').
  { intros f g' Hg' Hne. rewrite R3, R2; [done|by rewrite (ds_count _ _ S1)|clear -Hne; tauto|by rewrite (ds_count _ _ S2), (ds_count _ _ S1)|clear -Hne; tauto]. }
  split_and!.
  - eauto using desc_same_trans.
  - done.
  - intros g' Hg'. change (gfield_get Ffree_blocks c3 g' = if decide (g' = g) then n else gfield_get Ffree_blocks c g').
    rewrite R23, R1 by (done || by right). destruct (decide (g' = g)); [rewrite decide_True by (by split)|rewrite decide_False by (by intros [_ ?])]; done.
  - intros f g' Hg' Hne. rewrite R23, R1, decide_False; [done|clear -Hne; tauto|done|done|clear -Hne; tauto].
  - change (gfield_get Fflags c3 g = Z.ldiff (gfield_get Fflags c g) EXT2_BG_BLOCK_UNINIT). rewrite R3; [|done|by left].
    cbn [gfield_get]. rewrite F2. f_equal. change (gfield_get Fflags c1 g = gfield_get Fflags c g). rewrite R1, decide_False; [done|by intros [? _]|done].
Qed.

Lemma block_stats_eq a blk inuse :
  blk < ext2fs_blocks_count (fs_super a) ->
  let g := ext2fs_group_of_blk2 a blk in
  let c := stats_desc a g (u32 (ext2fs_bg_free_blocks_count a g - inuse)) in
  let v := u64 (ext2fs_free_blocks_count (fs_super c) + u64 (- inuse * Z.shiftl 1 (fs_cluster_ratio_bits c))) in
  ext2fs_block_alloc_stats2 None a blk inuse =
    mkAfs (with_super c v (Z.lor (Z.lor (fs_flags c) 0x6) 0x22)) (s_inodes_count a) (s_free_inodes_count a) (s_inodes_per_group a) (inode_map a)
          ((if decide (inuse > 0) then ext2fs_mark_generic_bmap (block_map a) blk else ext2fs_unmark_generic_bmap (block_map a) blk).2).
Proof. intros Hb. unfold ext2fs_block_alloc_stats2. rewrite decide_False by lia. reflexivity. Qed.

(** Every block is counted in its group. *)
Lemma group_range (a : filsys) g :
  geometry_ok a -> 0 <= g < fs_group_desc_count a ->
  s_first_data_block (fs_super a) <= ext2fs_group_first_block2 a g /\ 0 < ext2fs_group_blocks_count a g <= s_blocks_per_group (fs_super a) /\
  ext2fs_group_first_block2 a g + ext2fs_group_blocks_count a g <= ext2fs_blocks_count (fs_super a).
Proof.
  intros HG Hg. rewrite first_block_val, blocks_count_val by done. destruct HG. nia.
Qed.

Lemma group_member (a : filsys) g blk :
  geometry_ok a -> 0 <= g < fs_group_desc_count a -> s_first_data_block (fs_super a) <= blk < ext2fs_blocks_count (fs_super a) ->
  ext2fs_group_first_block2 a g <= blk < ext2fs_group_first_block2 a g + ext2fs_group_blocks_count a g <-> g = ext2fs_group_of_blk2 a blk.
Proof.
  intros HG Hg Hb. destruct (group_of_block a HG blk Hb) as (P1 & P2 & P3 & P4). split.
  - intros Hin. apply P3; [done|]. rewrite first_block_val, blocks_count_val in Hin by done. rewrite first_block_val, last_block_val by done. lia.
  - intros ->. rewrite P4. lia.
Qed.

Section change.
Variables (a : alloc_fs T) (blk inuse : Z).
Hypothesis Hok : blocks_ok a.
Hypothesis Hbc : blocks_counted a.
Hypothesis Hblk : s_first_data_block (fs_super a) <= blk < ext2fs_blocks_count (fs_super a).
Hypothesis Huse : inuse = 1 /\ used (block_map a) blk = false \/ inuse = -1 /\ used (block_map a) blk = true.

Let g := ext2fs_group_of_blk2 a blk.
Let n := ext2fs_bg_free_blocks_count a g - inuse.
Let h' := (if decide (inuse > 0) then ext2fs_mark_generic_bmap (block_map a) blk else ext2fs_unmark_generic_bmap (block_map a) blk).2.

Lemma change_group : 0 <= g < fs_group_desc_count a.
Proof using Hok Hblk. apply (group_of_block a (ao_geom _ Hok) blk Hblk). Qed.

Lemma change_map :
  gwf h' /\ (forall m, gunit h' m = m) /\ (forall m, gcovers h' m <-> gcovers (block_map a) m) /\
  forall m, gcovers (block_map a) m -> used h' m = if decide (m = blk) then bool_decide (0 < inuse) else used (block_map a) m.
Proof using Hok Hblk Huse.
  pose proof (flip_used (block_map a) blk (bool_decide (0 < inuse)) (ao_map _ Hok) (ao_unit _ Hok) (ao_covers _ Hok blk Hblk)) as HF.
  destruct (ao_geom _ Hok). unfold h'. destruct Huse as [[-> _]|[-> _]]; apply HF; lia.
Qed.

(** The numbers of clear bits afterwards. *)
Lemma change_count x m :
  s_first_data_block (fs_super a) <= x -> 0 <= m -> x + m <= ext2fs_blocks_count (fs_super a) ->
  nclear (used h') x m = nclear (used (block_map a)) x m - (if decide (x <= blk < x + m) then inuse else 0).
Proof using Hok Hblk Huse.
  intros Hx Hm Hl. destruct change_map as (_ & _ & _ & HU).
  assert (Hcov : forall y, x <= y < x + m -> gcovers (block_map a) y) by (intros y Hy; apply (ao_covers _ Hok); lia).
  pose proof (HU blk (ao_covers _ Hok blk Hblk)) as Hb. rewrite decide_True in Hb by done.
  rewrite (nclear_update (used (block_map a)) (used h') blk); [|done| |].
  - destruct (decide (x <= blk < x + m)); [|lia]. rewrite Hb.
    destruct Huse as [[-> _]|[-> _]]; [rewrite bool_decide_eq_true_2 by lia|rewrite bool_decide_eq_false_2 by lia]; lia.
  - intros y Hy Hne. rewrite HU by auto. by rewrite decide_False.
  - rewrite Hb. destruct Huse as [[-> ->]|[-> ->]]; done.
Qed.

Lemma change_free : in_u 16 n /\ n = nclear (used h') (ext2fs_group_first_block2 a g) (ext2fs_group_blocks_count a g).
Proof using Hok Hbc Hblk Huse.
  pose proof change_group as Hg. destruct (group_range a g (ao_geom _ Hok) Hg) as (G1 & G2 & G3).
  assert (HE : n = nclear (used h') (ext2fs_group_first_block2 a g) (ext2fs_group_blocks_count a g)).
  { rewrite change_count by lia. unfold n. rewrite (bc_group _ Hbc) by done.
    rewrite decide_True; [done|]. by apply (group_member a g blk (ao_geom _ Hok) Hg Hblk). }
  split; [|done]. rewrite HE. pose proof (nclear_bounds (used h') (ext2fs_group_first_block2 a g) (ext2fs_group_blocks_count a g) ltac:(lia)).
  pose proof (ao_bpg _ Hok). unfold in_u. lia.
Qed.

End change.

(** The state put together again. *)
Lemma same_geometry (c0 c : csum_fs) v fl g :
  desc_same c0 c ->
  ext2fs_group_first_block2 (with_super c v fl) g = ext2fs_group_first_block2 c0 g /\
  ext2fs_group_blocks_count (with_super c v fl) g = ext2fs_group_blocks_count c0 g /\
  ext2fs_blocks_count (fs_super (with_super c v fl)) = ext2fs_blocks_count (fs_super c0) /\
  s_first_data_block (fs_super (with_super c v fl)) = s_first_data_block (fs_super c0) /\
  counter_bits (fs_super (with_super c v fl)) = counter_bits (fs_super c0) /\
  (geometry_ok c0 -> geometry_ok (with_super c v fl)).
Proof.
  intros [_ HS HC _]. unfold ext2fs_group_first_block2, ext2fs_group_blocks_count, ext2fs_blocks_count, counter_bits.
  cbn [with_super set_fs cs_fs fs_super fs_group_desc_count ext2fs_free_blocks_count_set s_first_data_block s_blocks_per_group].
  rewrite HS, HC. split_and!; try reflexivity. intros [G1 G2 G3 G4 G5 G6].
  split; cbn [with_super set_fs cs_fs fs_super fs_group_desc_count ext2fs_free_blocks_count_set s_first_data_block s_blocks_per_group]; rewrite ?HS, ?HC; done.
Qed.

Lemma blocks_ok_change a (c : csum_fs) v fl h' :
  blocks_ok a -> desc_same a c -> gwf h' -> (forall m, gunit h' m = m) -> (forall m, gcovers h' m <-> gcovers (block_map a) m) ->
  blocks_ok (mkAfs (with_super c v fl) (s_inodes_count a) (s_free_inodes_count a) (s_inodes_per_group a) (inode_map a) h').
Proof.
  intros Hok Hd M1 M2 M3. destruct (same_geometry a c v fl 0 Hd) as (_ & _ & E1 & E2 & E3 & E4). destruct Hok as [A1 A2 A3 A4 A5 A6 A7 A8].
  split; cbn [a_cs block_map]; try done.
  - apply with_super_ok, Hd.
  - by apply E4.
  - cbn. destruct (ds_rest _ _ Hd) as (_ & _ & ->). done.
  - cbn. by rewrite (ds_super _ _ Hd).
  - by rewrite E1, E3.
  - intros m Hm. apply M3, A8. by rewrite <- E1, <- E2.
Qed.

(** The total after one more or one less. *)
Lemma total_change (x y : Z) (s : super_block) (inuse : Z) :
  inuse = 1 \/ inuse = -1 -> ext2fs_free_blocks_count s = x -> y = x - inuse -> 0 <= x -> 0 <= y < 2 ^ counter_bits s ->
  ext2fs_free_blocks_count (ext2fs_free_blocks_count_set s (u64 (ext2fs_free_blocks_count s + u64 (- inuse * 1)))) = y.
Proof.
  intros Hi Hx Hy H0 Hr. destruct (sb_counters_roundtrip s (u64 (ext2fs_free_blocks_count s + u64 (- inuse * 1)))) as (_ & _ & -> & _).
  rewrite Hx. replace (u64 (x + u64 (- inuse * 1))) with (u64 y).
  - unfold u64. assert (2 ^ counter_bits s <= 2 ^ 64) by (unfold counter_bits; destruct (has_feature_64bit s); pow2_norm; lia).
    rewrite (Z.mod_small y (2 ^ 64)) by lia. by apply Z.mod_small.
  - unfold u64. rewrite Zplus_mod_idemp_r. f_equal. lia.
Qed.

(** Marking a free block as used or a used one as free. *)
Lemma block_stats_spec a blk inuse :
  blocks_ok a -> blocks_counted a -> s_first_data_block (fs_super a) <= blk < ext2fs_blocks_count (fs_super a) ->
  inuse = 1 /\ used (block_map a) blk = false \/ inuse = -1 /\ used (block_map a) blk = true ->
  let a' := ext2fs_block_alloc_stats2 None a blk inuse in
  blocks_ok a' /\ blocks_counted a' /\
  (forall m, s_first_data_block (fs_super a) <= m < ext2fs_blocks_count (fs_super a) ->
     used (block_map a') m = if decide (m = blk) then bool_decide (0 < inuse) else used (block_map a) m) /\
  (ext2fs_group_desc_csum_verify a' (ext2fs_group_of_blk2 a blk)).1 = 1 /\
  (forall f g', 0 <= g' < fs_group_desc_count a ->
     g' <> ext2fs_group_of_blk2 a blk \/ f <> Ffree_blocks /\ f <> Fflags /\ f <> Fchecksum -> gfield_get f a' g' = gfield_get f a g').
Proof.
  intros Hok Hbc Hblk Huse. cbv zeta. rewrite block_stats_eq by lia. cbv zeta.
  pose proof (change_group a blk Hok Hblk) as Hg. destruct (change_map a blk inuse Hok Hblk Huse) as (M1 & M2 & M3 & M4).
  destruct (change_free a blk inuse Hok Hbc Hblk Huse) as [N1 N2]. pose proof (change_count a blk inuse Hok Hblk Huse) as HC.
  set (g := ext2fs_group_of_blk2 a blk) in *. set (n := ext2fs_bg_free_blocks_count a g - inuse) in *.
  set (h' := (if decide (inuse > 0) then _ else _).2) in *.
  rewrite (u32_small n) by (unfold in_u in *; pow2_norm; lia).
  destruct (stats_desc_spec a g n (ao_group _ Hok) Hg N1) as (D1 & D2 & D3 & D4 & D5). set (c := stats_desc a g n) in *.
  rewrite (ds_super _ _ D1). destruct (ds_rest _ _ D1) as (R1 & R2 & R3). rewrite R3, (ao_cluster _ Hok). change (Z.shiftl 1 0) with 1.
  set (v := u64 _). set (fl := Z.lor _ _). destruct (same_geometry a c v fl 0 D1) as (_ & _ & E1 & E2 & E3 & _).
  assert (Hg' : forall g', 0 <= g' < fs_group_desc_count (with_super c v fl) -> 0 <= g' < fs_group_desc_count a) by (intros g' ?; by rewrite <- (ds_count _ _ D1)).
  split_and!.
  - by apply blocks_ok_change.
  - split; cbn [a_cs block_map].
    + intros g' Hgr. apply Hg' in Hgr. destruct (same_geometry a c v fl g' D1) as (-> & -> & _). destruct (group_range a g' (ao_geom _ Hok) Hgr) as (G1 & G2 & G3).
      change (ext2fs_bg_free_blocks_count (with_super c v fl) g') with (gfield_get Ffree_blocks (with_super c v fl) g').
      rewrite with_super_get. cbn [gfield_get]. rewrite D3 by done. pose proof (group_member a g' blk (ao_geom _ Hok) Hgr Hblk) as HM.
      destruct (decide (g' = g)) as [->|Hne]; [done|]. rewrite HC, (bc_group _ Hbc) by (done || lia). rewrite decide_False by tauto. lia.
    + rewrite E1, E2. destruct (ao_geom _ Hok). pose proof (HC (s_first_data_block (fs_super a)) (ext2fs_blocks_count (fs_super a) - s_first_data_block (fs_super a)) ltac:(lia) ltac:(lia) ltac:(lia)) as HT.
      rewrite decide_True in HT by lia.
      pose proof (nclear_bounds (used h') (s_first_data_block (fs_super a)) (ext2fs_blocks_count (fs_super a) - s_first_data_block (fs_super a)) ltac:(lia)) as HB.
      pose proof (nclear_bounds (used (block_map a)) (s_first_data_block (fs_super a)) (ext2fs_blocks_count (fs_super a) - s_first_data_block (fs_super a)) ltac:(lia)) as HB'.
      pose proof (ao_total _ Hok). cbn [with_super set_fs cs_fs fs_super]. rewrite (ds_super _ _ D1).
      eapply total_change; [tauto|apply (bc_total _ Hbc)|exact HT|lia|lia].
  - intros m Hm. apply M4, (ao_covers _ Hok). done.
  - by apply with_super_verify.
  - intros f g' Hgr Hne. cbn [a_cs]. rewrite with_super_get. by apply D4.
Qed.

(** C31: [ext2fs_block_alloc_stats2], marking a free block as used or a used one as free, keeps the
    counters right: the free-block counts of every group and of the superblock are again the
    numbers of clear bits of the bitmap.  The bit of that block changes and no other, the
    descriptor of its group verifies, and no other field of a descriptor has changed. *)
Theorem block_stats_counts a blk inuse :
  blocks_ok a -> blocks_counted a -> s_first_data_block (fs_super a) <= blk < ext2fs_blocks_count (fs_super a) ->
  inuse = 1 /\ used (block_map a) blk = false \/ inuse = -1 /\ used (block_map a) blk = true ->
  let a' := ext2fs_block_alloc_stats2 None a blk inuse in
  blocks_ok a' /\ blocks_counted a' /\
  (forall m, s_first_data_block (fs_super a) <= m < ext2fs_blocks_count (fs_super a) ->
     used (block_map a') m = if decide (m = blk) then bool_decide (0 < inuse) else used (block_map a) m) /\
  (ext2fs_group_desc_csum_verify a' (ext2fs_group_of_blk2 a blk)).1 = 1 /\
  (forall f g', 0 <= g' < fs_group_desc_count a ->
     g' <> ext2fs_group_of_blk2 a blk \/ f <> Ffree_blocks /\ f <> Fflags /\ f <> Fchecksum -> gfield_get f a' g' = gfield_get f a g').
Proof. apply block_stats_spec. Qed.

End blocks.
