(* ===== verification/AllocInodes.v ===== *)
(** The inode side of [alloc_stats.c], and [ext2fs_set_gdt_csum]: counters and the high-water mark
    of the inode tables. *)
From Stdlib Require Import ZArith Lia.
From stdpp Require Import base tactics numbers list sets.
From S2P Require Import Prelude ExtErr Bitops BitmapOps BitArray BitArrayProofs GenBitmap GenBitmapProofs.
From S2P Require Import Crc32c BlkNum BlkNumProofs Csum CsumProofs CsumGroup Alloc AllocProofs.

Section inodes.
Context {T : Type} `{!BitmapOps T} `{!BitmapLaws T} `{!Checksum}.
Implicit Types a : alloc_fs T.

(** A file system whose inode bitmap covers its inodes. *)
Record inodes_ok (a : alloc_fs T) : Prop := {
  io_group : group_ok a;
  io_ipg : 0 < s_inodes_per_group a < 2 ^ 16;
  io_count : s_inodes_count a = fs_group_desc_count a * s_inodes_per_group a;
  io_groups : 0 < fs_group_desc_count a;
  io_u32 : s_inodes_count a < 2 ^ 32 - 1;
  io_map : gwf (inode_map a);
  io_unit n : gunit (inode_map a) n = n;
  io_covers n : 1 <= n <= s_inodes_count a -> gcovers (inode_map a) n
}.

(** The first inode of a group. *)
Definition first_ino (a : alloc_fs T) (g : Z) : Z := g * s_inodes_per_group a + 1.

(** The counters are right, and, where descriptors have checksums, the inodes past the
    high-water mark of their group are free. *)
Record inodes_counted (a : alloc_fs T) : Prop := {
  ic_group g : 0 <= g < fs_group_desc_count a ->
    ext2fs_bg_free_inodes_count a g = nclear (used (inode_map a)) (first_ino a g) (s_inodes_per_group a);
  ic_total : s_free_inodes_count a = nclear (used (inode_map a)) 1 (s_inodes_count a);
  ic_mark g : ext2fs_has_group_desc_csum a = true -> 0 <= g < fs_group_desc_count a -> 0 <= ext2fs_bg_itable_unused a g <= s_inodes_per_group a;
  ic_unused g i : ext2fs_has_group_desc_csum a = true -> 0 <= g < fs_group_desc_count a ->
    first_ino a g + s_inodes_per_group a - ext2fs_bg_itable_unused a g <= i < first_ino a g + s_inodes_per_group a ->
    used (inode_map a) i = false
}.

(** The descriptors after the update of a group: free inodes [n], directories [d], and the
    high-water mark when descriptors have checksums. *)
Definition inode_desc (c : csum_fs) (g n : Z) (d : option Z) (unused : option Z) : csum_fs :=
  let c := set_fs c (ext2fs_bg_free_inodes_count_set c g n) in
  let c := match d with Some d => set_fs c (ext2fs_bg_used_dirs_count_set c g d) | None => c end in
  let c := set_fs c (ext2fs_bg_flags_clear c g EXT2_BG_INODE_UNINIT) in
  if ext2fs_has_group_desc_csum c then
    ext2fs_group_desc_csum_set (match unused with Some u => set_fs c (ext2fs_bg_itable_unused_set c g u) | None => c end) g
  else c.

(** What the update changed: [f] of group [g] for the fields listed. *)
Definition changed_at (c c' : csum_fs) (g : Z) (fs : list gfield) : Prop :=
  forall f g', 0 <= g' < fs_group_desc_count c -> f ∉ fs \/ g' <> g -> gfield_get f c' g' = gfield_get f c g'.

Lemma changed_trans c1 c2 c3 g l1 l2 :
  desc_same c1 c2 -> changed_at c1 c2 g l1 -> changed_at c2 c3 g l2 -> changed_at c1 c3 g (l1 ++ l2).
Proof.
  intros HS H1 H2 f g' Hg Hne. rewrite H2, H1; [done|done| |by rewrite (ds_count _ _ HS)|]; destruct Hne as [Hf|]; try (by right); left; set_solver.
Qed.

Lemma field_small f v b64 : in_u 16 v -> v mod 2 ^ field_bits f b64 = v.
Proof. intros Hv. apply Z.mod_small. unfold in_u in Hv. destruct f, b64; cbn; pow2_norm; lia. Qed.

(** One field of one group. *)
Lemma field_change f c g v :
  group_ok c -> 0 <= g < fs_group_desc_count c -> in_u 16 v ->
  let c' := set_fs c (gfield_set f c g v) in
  desc_same c c' /\ changed_at c c' g [f] /\ gfield_get f c' g = v.
Proof.
  intros Hok Hg Hv. cbv zeta. destruct (field_step f c g v Hok Hg ltac:(apply Hv)) as [S R]. split_and!; [done| |].
  - intros f' g' Hg' Hne. rewrite R, decide_False; [done| |done]. intros [-> ->]. destruct Hne as [Hf|]; [|done]. apply Hf. set_solver.
  - rewrite R by done. rewrite decide_True by done. by apply field_small.
Qed.

Lemma opt_field_change f c g (v : option Z) :
  group_ok c -> 0 <= g < fs_group_desc_count c -> (forall x, v = Some x -> in_u 16 x) ->
  let c' := match v with Some x => set_fs c (gfield_set f c g x) | None => c end in
  desc_same c c' /\ changed_at c c' g [f] /\ gfield_get f c' g = match v with Some x => x | None => gfield_get f c g end.
Proof. intros Hok Hg Hv. destruct v as [x|]; [by apply field_change; auto|]. split_and!; [by split|done|done]. Qed.

Lemma has_csum_same c c' : desc_same c c' -> ext2fs_has_group_desc_csum c' = ext2fs_has_group_desc_csum c.
Proof. intros [_ HS _ _]. unfold ext2fs_has_group_desc_csum. by rewrite HS. Qed.

Lemma changed_get c c' g l f : changed_at c c' g l -> 0 <= g < fs_group_desc_count c -> f ∉ l -> gfield_get f c' g = gfield_get f c g.
Proof. intros HC Hg Hf. apply HC; [done|by left]. Qed.

Lemma csum_change c g :
  group_ok c -> 0 <= g < fs_group_desc_count c ->
  let c' := ext2fs_group_desc_csum_set c g in
  desc_same c c' /\ ext2fs_group_desc_csum_verify c' g = (1, c') /\ changed_at c c' g [Fchecksum].
Proof.
  intros Hok Hg. cbv zeta. destruct (csum_step c g Hok Hg) as (S & V & R). split_and!; [done|done|].
  intros f g' Hg' Hne. apply R; [done|]. destruct Hne; [left; set_solver|by right].
Qed.

Lemma inode_desc_spec c g n d unused :
  group_ok c -> 0 <= g < fs_group_desc_count c -> in_u 16 n -> (forall x, d = Some x -> in_u 16 x) -> (forall x, unused = Some x -> in_u 16 x) ->
  let c' := inode_desc c g n d unused in
  desc_same c c' /\ changed_at c c' g [Ffree_inodes; Fused_dirs; Fflags; Fitable_unused; Fchecksum] /\
  ext2fs_bg_free_inodes_count c' g = n /\
  ext2fs_bg_used_dirs_count c' g = match d with Some x => x | None => ext2fs_bg_used_dirs_count c g end /\
  (ext2fs_group_desc_csum_verify c' g).1 = 1 /\
  (ext2fs_has_group_desc_csum c = true ->
   ext2fs_bg_itable_unused c' g = match unused with Some x => x | None => ext2fs_bg_itable_unused c g end) /\
  ext2fs_bg_flags c' g = Z.ldiff (ext2fs_bg_flags c g) EXT2_BG_INODE_UNINIT.
Proof.
  intros Hok Hg Hn Hd Hu. cbv zeta. unfold inode_desc.
  destruct (field_change Ffree_inodes c g n Hok Hg Hn) as (S1 & C1 & V1). set (c1 := set_fs c _) in *.
  assert (Hg1 : 0 <= g < fs_group_desc_count c1) by (by rewrite (ds_count _ _ S1)).
  destruct (opt_field_change Fused_dirs c1 g d (ds_ok _ _ S1) Hg1 Hd) as (S2 & C2 & V2). set (c2 := match d with Some _ => _ | None => _ end) in *.
  assert (Hg2 : 0 <= g < fs_group_desc_count c2) by (by rewrite (ds_count _ _ S2)).
  destruct (flags_clear_step c2 g EXT2_BG_INODE_UNINIT (ds_ok _ _ S2) Hg2 ltac:(unfold in_u, EXT2_BG_INODE_UNINIT; lia)) as (S3 & V3 & R3). set (c3 := set_fs c2 _) in *.
  assert (C3 : changed_at c2 c3 g [Fflags]) by (intros f g' Hg' Hne; apply R3; [done|]; destruct Hne as [Hf|]; [left; set_solver|by right]).
  assert (S03 : desc_same c c3) by eauto using desc_same_trans.
  assert (C03 : changed_at c c3 g ([Ffree_inodes] ++ [Fused_dirs] ++ [Fflags])) by (eapply changed_trans; [exact S1|exact C1|eapply changed_trans; done]).
  assert (F3 : ext2fs_bg_flags c3 g = Z.ldiff (ext2fs_bg_flags c g) EXT2_BG_INODE_UNINIT).
  { rewrite V3. f_equal. change (gfield_get Fflags c2 g = gfield_get Fflags c g). rewrite (changed_get _ _ _ _ _ C2), (changed_get _ _ _ _ _ C1) by (done || set_solver). done. }
  assert (N3 : gfield_get Ffree_inodes c3 g = n).
  { rewrite (changed_get _ _ _ _ _ C3), (changed_get _ _ _ _ _ C2) by (done || set_solver). done. }
  assert (D3 : gfield_get Fused_dirs c3 g = match d with Some x => x | None => gfield_get Fused_dirs c g end).
  { rewrite (changed_get _ _ _ _ _ C3), V2 by (done || set_solver). destruct d; [done|]. by rewrite (changed_get _ _ _ _ _ C1) by (done || set_solver). }
  rewrite (has_csum_same _ _ S03). destruct (ext2fs_has_group_desc_csum c) eqn:HCS.
  2: { split_and!; try done. - intros f g' Hg' Hne. apply C03; [done|]. destruct Hne; [left; set_solver|by right].
       - unfold ext2fs_group_desc_csum_verify. by rewrite (has_csum_same _ _ S03), HCS. }
  assert (Hg3 : 0 <= g < fs_group_desc_count c3) by (by rewrite (ds_count _ _ S3)).
  destruct (opt_field_change Fitable_unused c3 g unused (ds_ok _ _ S3) Hg3 Hu) as (S4 & C4 & V4). set (c4 := match unused with Some _ => _ | None => _ end) in *.
  assert (Hg4 : 0 <= g < fs_group_desc_count c4) by (by rewrite (ds_count _ _ S4)).
  destruct (csum_change c4 g (ds_ok _ _ S4) Hg4) as (S5 & V5 & C5). set (c5 := ext2fs_group_desc_csum_set c4 g) in *.
  assert (C35 : changed_at c3 c5 g ([Fitable_unused] ++ [Fchecksum])) by (eapply changed_trans; done).
  assert (G35 : forall f, f <> Fitable_unused -> f <> Fchecksum -> gfield_get f c5 g = gfield_get f c3 g) by (intros; apply (changed_get _ _ _ _ _ C35); [done|set_solver]).
  split_and!.
  - eauto using desc_same_trans.
  - pose proof (changed_trans _ _ _ _ _ _ S03 C03 C35) as HC. exact HC.
  - change (gfield_get Ffree_inodes c5 g = n). by rewrite G35.
  - change (gfield_get Fused_dirs c5 g = match d with Some x => x | None => gfield_get Fused_dirs c g end). by rewrite G35.
  - by rewrite V5.
  - intros _. change (gfield_get Fitable_unused c5 g = match unused with Some x => x | None => gfield_get Fitable_unused c g end).
    rewrite (changed_get _ _ _ _ _ C5), V4 by (done || set_solver). destruct unused; [done|]. by rewrite (changed_get _ _ _ _ _ C03) by (done || set_solver).
  - change (gfield_get Fflags c5 g = Z.ldiff (gfield_get Fflags c g) EXT2_BG_INODE_UNINIT). rewrite G35 by done. exact F3.
Qed.

(** When the high-water mark moves. *)
Definition new_mark (ipg g ino unused : Z) : option Z :=
  if decide (ino >= u32 (ipg - unused + g * ipg + 1)) then Some (u32 (g * ipg + ipg - ino)) else None.

(** The code computes the values from the fields on the way. *)
Lemma inode_desc_reads (c : csum_fs) g ipg ino (isdir : bool) inuse :
  let n := ext2fs_bg_free_inodes_count c g - inuse in
  group_ok c -> 0 <= g < fs_group_desc_count c -> in_u 16 n -> (isdir = true -> in_u 16 (ext2fs_bg_used_dirs_count c g + inuse)) ->
  inode_stats_desc ipg c g ino inuse isdir =
    inode_desc c g n (if isdir then Some (ext2fs_bg_used_dirs_count c g + inuse) else None) (new_mark ipg g ino (ext2fs_bg_itable_unused c g)).
Proof.
  intros n Hok Hg Hn Hd. unfold inode_stats_desc, inode_desc. fold n. rewrite (u32_small n) by (unfold in_u in *; pow2_norm; lia).
  destruct (field_change Ffree_inodes c g n Hok Hg Hn) as (S1 & C1 & _). set (c1 := set_fs c _) in *.
  assert (Hg1 : 0 <= g < fs_group_desc_count c1) by (by rewrite (ds_count _ _ S1)).
  assert (D1 : ext2fs_bg_used_dirs_count c1 g = ext2fs_bg_used_dirs_count c g) by (apply (changed_get _ _ _ _ Fused_dirs C1); [done|set_solver]).
  assert (HX : (if isdir then set_fs c1 (ext2fs_bg_used_dirs_count_set c1 g (u32 (ext2fs_bg_used_dirs_count c1 g + inuse))) else c1)
     = match (if isdir then Some (ext2fs_bg_used_dirs_count c g + inuse) else None) with Some x => set_fs c1 (gfield_set Fused_dirs c1 g x) | None => c1 end).
  { destruct isdir; [|done]. rewrite D1, u32_small; [done|]. specialize (Hd eq_refl). unfold in_u in *. pow2_norm. lia. }
  rewrite HX. destruct (opt_field_change Fused_dirs c1 g (if isdir then Some (ext2fs_bg_used_dirs_count c g + inuse) else None) (ds_ok _ _ S1) Hg1) as (S2 & C2 & _).
  { destruct isdir; [|done]. intros x [= <-]. by apply Hd. }
  cbn [gfield_set] in *. set (c2 := match _ with Some _ => _ | None => c1 end) in *.
  assert (Hg2 : 0 <= g < fs_group_desc_count c2) by (by rewrite (ds_count _ _ S2)).
  destruct (flags_clear_step c2 g EXT2_BG_INODE_UNINIT (ds_ok _ _ S2) Hg2 ltac:(unfold in_u, EXT2_BG_INODE_UNINIT; lia)) as (_ & _ & R3). set (c3 := set_fs c2 _) in *.
  assert (U3 : ext2fs_bg_itable_unused c3 g = ext2fs_bg_itable_unused c g).
  { change (gfield_get Fitable_unused c3 g = gfield_get Fitable_unused c g). rewrite R3 by (done || by left).
    rewrite (changed_get _ _ _ _ _ C2), (changed_get _ _ _ _ _ C1) by (done || set_solver). done. }
  rewrite U3. destruct (ext2fs_has_group_desc_csum c3); [|done]. unfold new_mark. by case_decide.
Qed.

(** The flags of the file system are not in the descriptors. *)
Definition with_flags (c : csum_fs) (fl : Z) : csum_fs :=
  set_fs c (mkFs (fs_super c) (fs_group_desc c) (fs_group_desc_count c) (fs_blocksize c) (fs_cluster_ratio_bits c) fl).

Lemma with_flags_get c fl f g : gfield_get f (with_flags c fl) g = gfield_get f c g.
Proof. by destruct f. Qed.

Lemma with_flags_ok c fl : group_ok c -> group_ok (with_flags c fl).
Proof. intros [H1 H2 H3 H4]. split; try done. destruct H3. by split. Qed.

Lemma with_flags_verify c fl g : (ext2fs_group_desc_csum_verify (with_flags c fl) g).1 = (ext2fs_group_desc_csum_verify c g).1.
Proof.
  unfold ext2fs_group_desc_csum_verify. change (ext2fs_has_group_desc_csum (with_flags c fl)) with (ext2fs_has_group_desc_csum c).
  destruct (ext2fs_has_group_desc_csum c); [|done]. unfold ext2fs_group_desc_csum.
  change (has_feature_metadata_csum (fs_super (with_flags c fl))) with (has_feature_metadata_csum (fs_super c)).
  by destruct (has_feature_metadata_csum (fs_super c)).
Qed.

Lemma inode_stats_eq a ino inuse isdir :
  ino <= s_inodes_count a ->
  let g := ext2fs_group_of_ino a ino in
  let c := inode_stats_desc (s_inodes_per_group a) a g ino inuse isdir in
  ext2fs_inode_alloc_stats2 a ino inuse isdir =
    mkAfs (with_flags c (Z.lor (Z.lor (fs_flags c) 0x6) 0x12)) (s_inodes_count a) (u32 (s_free_inodes_count a - inuse)) (s_inodes_per_group a)
          ((if decide (inuse > 0) then ext2fs_mark_generic_bmap (inode_map a) ino else ext2fs_unmark_generic_bmap (inode_map a) ino).2) (block_map a).
Proof. intros Hi. unfold ext2fs_inode_alloc_stats2. rewrite decide_False by lia. reflexivity. Qed.

(** Every inode is counted in its group. *)
Lemma ino_group a ino :
  inodes_ok a -> 1 <= ino <= s_inodes_count a ->
  0 <= ext2fs_group_of_ino a ino < fs_group_desc_count a /\
  forall g, first_ino a g <= ino < first_ino a g + s_inodes_per_group a <-> g = ext2fs_group_of_ino a ino.
Proof.
  intros Hok Hi. destruct Hok as [_ Hp Hc Hg Hu _ _ _]. unfold ext2fs_group_of_ino, first_ino. rewrite u32_small by (unfold in_u; lia).
  set (p := s_inodes_per_group a) in *. pose proof (Z.div_mod (ino - 1) p ltac:(lia)). pose proof (Z.mod_pos_bound (ino - 1) p ltac:(lia)).
  set (q := (ino - 1) / p) in *. split; [nia|]. intros g. split; [intros; nia|intros ->; nia].
Qed.

(** The inodes of a group. *)
Lemma group_inodes a g : inodes_ok a -> 0 <= g < fs_group_desc_count a -> 1 <= first_ino a g /\ first_ino a g + s_inodes_per_group a <= s_inodes_count a + 1.
Proof. intros [_ Hp Hc _ _ _ _ _] Hg. unfold first_ino. rewrite Hc. nia. Qed.

Section change.
Variables (a : alloc_fs T) (ino inuse : Z).
Hypothesis Hok : inodes_ok a.
Hypothesis Hic : inodes_counted a.
Hypothesis Hino : 1 <= ino <= s_inodes_count a.
Hypothesis Huse : inuse = 1 /\ used (inode_map a) ino = false \/ inuse = -1 /\ used (inode_map a) ino = true.

Let g := ext2fs_group_of_ino a ino.
Let h' := (if decide (inuse > 0) then ext2fs_mark_generic_bmap (inode_map a) ino else ext2fs_unmark_generic_bmap (inode_map a) ino).2.

Lemma ichange_map :
  gwf h' /\ (forall m, gunit h' m = m) /\ (forall m, gcovers h' m <-> gcovers (inode_map a) m) /\
  forall m, gcovers (inode_map a) m -> used h' m = if decide (m = ino) then bool_decide (0 < inuse) else used (inode_map a) m.
Proof using Hok Hino Huse.
  pose proof (flip_used (inode_map a) ino (bool_decide (0 < inuse)) (io_map _ Hok) (io_unit _ Hok) (io_covers _ Hok ino Hino)) as HF.
  pose proof (io_u32 _ Hok). unfold h'. destruct Huse as [[-> _]|[-> _]]; apply HF; pow2_norm; lia.
Qed.

Lemma ichange_count x m :
  1 <= x -> 0 <= m -> x + m <= s_inodes_count a + 1 ->
  nclear (used h') x m = nclear (used (inode_map a)) x m - (if decide (x <= ino < x + m) then inuse else 0).
Proof using Hok Hino Huse.
  intros Hx Hm Hl. destruct ichange_map as (_ & _ & _ & HU).
  assert (Hcov : forall y, x <= y < x + m -> gcovers (inode_map a) y) by (intros y Hy; apply (io_covers _ Hok); lia).
  pose proof (HU ino (io_covers _ Hok ino Hino)) as Hb. rewrite decide_True in Hb by done.
  rewrite (nclear_update (used (inode_map a)) (used h') ino); [|done| |].
  - destruct (decide (x <= ino < x + m)); [|lia]. rewrite Hb.
    destruct Huse as [[-> _]|[-> _]]; [rewrite bool_decide_eq_true_2 by lia|rewrite bool_decide_eq_false_2 by lia]; lia.
  - intros y Hy Hne. rewrite HU by auto. by rewrite decide_False.
  - rewrite Hb. destruct Huse as [[-> ->]|[-> ->]]; done.
Qed.

Lemma ichange_free : let n := ext2fs_bg_free_inodes_count a g - inuse in
  in_u 16 n /\ n = nclear (used h') (first_ino a g) (s_inodes_per_group a).
Proof using Hok Hic Hino Huse.
  cbv zeta. destruct (ino_group a ino Hok Hino) as [Hg HM]. fold g in Hg, HM. pose proof (group_inodes a g Hok Hg). pose proof (io_ipg _ Hok).
  assert (HE : ext2fs_bg_free_inodes_count a g - inuse = nclear (used h') (first_ino a g) (s_inodes_per_group a)).
  { rewrite ichange_count by lia. rewrite (ic_group _ Hic) by done. rewrite decide_True; [done|]. by apply HM. }
  split; [|done]. rewrite HE. pose proof (nclear_bounds (used h') (first_ino a g) (s_inodes_per_group a) ltac:(lia)). unfold in_u. lia.
Qed.

(** The high-water mark: what it becomes, and that it stays above the used inodes. *)
Lemma ichange_mark :
  ext2fs_has_group_desc_csum a = true ->
  let u := ext2fs_bg_itable_unused a g in
  let u' := match new_mark (s_inodes_per_group a) g ino u with Some x => x | None => u end in
  0 <= u' <= s_inodes_per_group a /\
  forall i, first_ino a g + s_inodes_per_group a - u' <= i < first_ino a g + s_inodes_per_group a -> used h' i = false.
Proof using Hok Hic Hino Huse.
  intros Hcs. cbv zeta. destruct (ino_group a ino Hok Hino) as [Hg HM]. fold g in Hg, HM. pose proof (proj2 (HM g) eq_refl) as Hin.
  pose proof (group_inodes a g Hok Hg) as HG. pose proof (io_ipg _ Hok) as Hp. pose proof (ic_mark _ Hic g Hcs Hg) as Hm. pose proof (io_u32 _ Hok) as Hu32.
  destruct ichange_map as (_ & _ & _ & HU). set (p := s_inodes_per_group a) in *. set (u := ext2fs_bg_itable_unused a g) in *.
  assert (Hsame : forall i, first_ino a g + p - u <= i < first_ino a g + p -> i <> ino -> used h' i = false).
  { intros i Hi Hne. rewrite HU by (apply (io_covers _ Hok); lia). rewrite decide_False by done. apply (ic_unused _ Hic g); done. }
  unfold new_mark. replace (p - u + g * p + 1) with (first_ino a g + p - u) by (unfold first_ino; fold p; lia).
  rewrite u32_small by (unfold in_u; lia). destruct (decide (ino >= first_ino a g + p - u)) as [Hge|Hlt].
  - rewrite u32_small by (unfold in_u; unfold first_ino in *; fold p in Hin, HG |- *; lia). unfold first_ino in *. fold p in Hin, HG, Hge, Hsame |- *.
    split; [lia|]. intros i Hi. apply Hsame; lia.
  - split; [done|]. intros i Hi. apply Hsame; lia.
Qed.

End change.

(** C32: [ext2fs_inode_alloc_stats2], marking a free inode as used or a used one as free, keeps the
    free-inode counts of every group and of the superblock equal to the numbers of clear bits,
    counts a directory, keeps every used inode below the high-water mark of its group, and
    leaves a descriptor that verifies. *)
Theorem inode_stats_counts a ino inuse isdir :
  inodes_ok a -> inodes_counted a -> 1 <= ino <= s_inodes_count a ->
  inuse = 1 /\ used (inode_map a) ino = false \/ inuse = -1 /\ used (inode_map a) ino = true ->
  (isdir = true -> in_u 16 (ext2fs_bg_used_dirs_count a (ext2fs_group_of_ino a ino) + inuse)) ->
  let a' := ext2fs_inode_alloc_stats2 a ino inuse isdir in
  let g := ext2fs_group_of_ino a ino in
  inodes_ok a' /\ inodes_counted a' /\
  (forall m, 1 <= m <= s_inodes_count a ->
     used (inode_map a') m = if decide (m = ino) then bool_decide (0 < inuse) else used (inode_map a) m) /\
  ext2fs_bg_used_dirs_count a' g = ext2fs_bg_used_dirs_count a g + (if isdir then inuse else 0) /\
  (ext2fs_group_desc_csum_verify a' g).1 = 1.
Proof.
  intros Hok Hic Hino Huse Hdir. cbv zeta. rewrite inode_stats_eq by lia. cbv zeta.
  destruct (ino_group a ino Hok Hino) as [Hg HM]. destruct (ichange_map a ino inuse Hok Hino Huse) as (M1 & M2 & M3 & M4).
  destruct (ichange_free a ino inuse Hok Hic Hino Huse) as [N1 N2]. pose proof (ichange_count a ino inuse Hok Hino Huse) as HC.
  pose proof (ichange_mark a ino inuse Hok Hic Hino Huse) as HK. cbv zeta in N1, N2, HK.
  set (g := ext2fs_group_of_ino a ino) in *. set (h' := (if decide (inuse > 0) then _ else _).2) in *.
  rewrite inode_desc_reads; [|apply (io_group _ Hok)|exact Hg|exact N1|exact Hdir]. set (n := ext2fs_bg_free_inodes_count a g - inuse) in *.
  set (d := if isdir then _ else _). set (m := new_mark _ _ _ _) in *.
  pose proof (io_ipg _ Hok) as Hp. pose proof (io_u32 _ Hok) as Hu.
  destruct (inode_desc_spec a g n d m (io_group _ Hok) Hg N1) as (D1 & D2 & D3 & D4 & D5 & D6 & _).
  { unfold d. destruct isdir; [|done]. intros x [= <-]. by apply Hdir. }
  { clear HK. unfold m, new_mark. destruct (decide (ino >= _)) as [_|_]; [|done]. intros x [= <-]. pose proof (proj2 (HM g) eq_refl) as Hin. unfold first_ino in Hin.
    rewrite u32_small by (unfold in_u; lia). unfold in_u. lia. }
  set (c := inode_desc a g n d m) in *. set (fl := Z.lor _ _).
  assert (Hcnt : fs_group_desc_count (with_flags c fl) = fs_group_desc_count a) by apply (ds_count _ _ D1).
  assert (Hget : forall f g', 0 <= g' < fs_group_desc_count a -> g' <> g -> gfield_get f (with_flags c fl) g' = gfield_get f a g') by (intros; rewrite with_flags_get; apply D2; auto).
  assert (Hcs : ext2fs_has_group_desc_csum (with_flags c fl) = ext2fs_has_group_desc_csum a) by apply (has_csum_same _ _ D1).
  split_and!.
  - destruct Hok as [A1 A2 A3 A4 A5 A6 A7 A8]. split; cbn [a_cs inode_map s_inodes_per_group s_inodes_count]; rewrite ?Hcnt; try done; [apply with_flags_ok, D1|].
    intros i Hi. by apply M3, A8.
  - split; cbn [a_cs inode_map s_inodes_per_group s_inodes_count s_free_inodes_count].
    + rewrite Hcnt. intros g' Hg'. change (gfield_get Ffree_inodes (with_flags c fl) g' = nclear (used h') (first_ino a g') (s_inodes_per_group a)).
      destruct (decide (g' = g)) as [->|Hne]; [rewrite with_flags_get; cbn [gfield_get]; by rewrite D3|]. rewrite Hget by done. cbn [gfield_get].
      pose proof (group_inodes a g' Hok Hg'). rewrite HC, (ic_group _ Hic) by (done || lia). rewrite decide_False; [lia|]. intros Hin. apply Hne, HM, Hin.
    + pose proof (nclear_bounds (used h') 1 (s_inodes_count a) ltac:(lia)) as HB. rewrite (ic_total _ Hic).
      pose proof (HC 1 (s_inodes_count a) ltac:(lia) ltac:(lia) ltac:(lia)) as HT. rewrite decide_True in HT by lia. rewrite <- HT. apply u32_small. unfold in_u. lia.
    + rewrite Hcnt, Hcs. intros g' Hc Hg'. destruct (decide (g' = g)) as [->|Hne].
      * change (0 <= gfield_get Fitable_unused (with_flags c fl) g <= s_inodes_per_group a). rewrite with_flags_get. cbn [gfield_get]. rewrite D6 by done. by apply HK.
      * change (0 <= gfield_get Fitable_unused (with_flags c fl) g' <= s_inodes_per_group a). rewrite Hget by done. by apply (ic_mark _ Hic).
    + rewrite Hcnt, Hcs. intros g' i Hc Hg'.
      change (first_ino a g' + s_inodes_per_group a - gfield_get Fitable_unused (with_flags c fl) g' <= i < first_ino a g' + s_inodes_per_group a -> used h' i = false).
      destruct (decide (g' = g)) as [->|Hne].
      * rewrite with_flags_get. cbn [gfield_get]. rewrite D6 by done. by apply HK.
      * rewrite Hget by done. cbn [gfield_get]. intros Hi. pose proof (group_inodes a g' Hok Hg'). pose proof (ic_mark _ Hic g' Hc Hg').
        rewrite M4 by (apply (io_covers _ Hok); lia). rewrite decide_False; [by apply (ic_unused _ Hic g')|]. intros ->. apply Hne, HM. lia.
  - intros i Hi. apply M4, (io_covers _ Hok). done.
  - cbn [a_cs]. change (gfield_get Fused_dirs (with_flags c fl) g = ext2fs_bg_used_dirs_count a g + (if isdir then inuse else 0)).
    rewrite with_flags_get. cbn [gfield_get]. rewrite D4. unfold d. destruct isdir; lia.
  - cbn [a_cs]. by rewrite with_flags_verify.
Qed.

End inodes.
