(* ===== verification/AllocGdt.v ===== *)
(** [ext2fs_set_gdt_csum]: afterwards every descriptor verifies and the inode tables have their
    high-water marks. *)
From Stdlib Require Import ZArith Lia.
From stdpp Require Import base tactics numbers list sets.
From S2P Require Import Prelude ExtErr Bitops BitmapOps BitArray BitArrayProofs GenBitmap GenBitmapProofs.
From S2P Require Import Crc32c Crc16 BlkNum BlkNumProofs Csum CsumProofs CsumGroup Alloc AllocProofs AllocInodes.

(** * The bytes of a descriptor *)

Definition desc_bytes (c : filsys) (g : Z) : list Z := zslice (ext2fs_group_desc c g) (DESC_SIZE (fs_super c)) (fs_group_desc c).

(** Descriptors lie side by side: their size is a multiple of eight. *)
Definition desc_aligned (c : filsys) : Prop := DESC_SIZE (fs_super c) = desc_size (fs_super c).

(** Only group [g] has changed. *)
Definition only_group (g : Z) (c c' : filsys) : Prop :=
  forall g', 0 <= g' < fs_group_desc_count c -> g' <> g -> desc_bytes c' g' = desc_bytes c g'.

Lemma only_write w o v fs g :
  table_ok fs -> desc_aligned fs -> 0 <= g < fs_group_desc_count fs -> 0 <= o -> 0 <= w -> o + w <= desc_size (fs_super fs) ->
  only_group g fs (gd_write w o v fs g).
Proof.
  intros Ht Ha Hg Ho Hw Hd g' Hg' Hne. unfold desc_bytes. cbn [gd_write fs_super fs_group_desc].
  change (ext2fs_group_desc (gd_write w o v fs g) g') with (ext2fs_group_desc fs g'). rewrite Ha.
  destruct (desc_offset fs g Ht Hg) as [O1 L1], (desc_offset fs g' Ht Hg') as [O2 L2].
  fold (put_field w (ext2fs_group_desc fs g + o) v (fs_group_desc fs)). rewrite O1, O2.
  apply slice_put_out; nia.
Qed.

Lemma only_trans g (c1 c2 c3 : filsys) :
  fs_group_desc_count c2 = fs_group_desc_count c1 -> only_group g c1 c2 -> only_group g c2 c3 -> only_group g c1 c3.
Proof. intros HC H1 H2 g' Hg' Hne. rewrite H2, H1; [done|done|done|by rewrite HC|done]. Qed.

Lemma only_field f c g v :
  table_ok c -> desc_aligned c -> 0 <= g < fs_group_desc_count c -> only_group g c (gfield_set f c g v).
Proof.
  intros Ht Ha Hg. pose proof (desc_size_bounds c Ht) as Hd.
  assert (H2 : forall w lo hi, 0 <= lo -> 0 <= w -> lo + w <= 32 -> lo <= hi -> hi + w <= 64 -> only_group g c (gd_set2 w lo hi c g v)).
  { intros w lo hi Hlo Hw Hlw Hhi Hhw. unfold gd_set2. cbn [gd_write fs_super].
    assert (HW : only_group g c (gd_write w lo v c g)) by (apply only_write; try done; destruct (has_feature_64bit _); lia).
    destruct (has_feature_64bit (fs_super c)) eqn:E; [|done]. eapply only_trans; [|exact HW|]; [done|].
    apply only_write; try done; [apply gd_write_ok; done || lia|lia|cbn; lia]. }
  pose proof (desc_size_32 c Ht) as H32.
  assert (HF : forall o x, 0 <= o <= 30 -> only_group g c (gd_write 2 o x c g)) by (intros; apply only_write; done || lia).
  destruct f; try (apply H2; lia); [|by apply HF].
  eapply only_trans; [|apply (HF 18 0); lia|]; [done|]. apply only_write; try done; [apply gd_write_ok; done || lia|cbn; lia].
Qed.

Lemma only_clear c g fl :
  table_ok c -> desc_aligned c -> 0 <= g < fs_group_desc_count c -> only_group g c (ext2fs_bg_flags_clear c g fl).
Proof. intros Ht Ha Hg. pose proof (desc_size_32 c Ht). apply only_write; done || lia. Qed.

Lemma only_set c g fl :
  table_ok c -> desc_aligned c -> 0 <= g < fs_group_desc_count c -> only_group g c (ext2fs_bg_flags_set c g fl).
Proof. intros Ht Ha Hg. pose proof (desc_size_32 c Ht). apply only_write; done || lia. Qed.

Section csum.
Context `{!Checksum}.

Lemma only_csum c g :
  group_ok c -> desc_aligned c -> 0 <= g < fs_group_desc_count c -> only_group g c (ext2fs_group_desc_csum_set c g).
Proof.
  intros Hok Ha Hg. rewrite csum_set_eq by done. destruct (ext2fs_has_group_desc_csum c); [|done].
  apply (only_field Fchecksum); [apply Hok|done|done].
Qed.

(** A slice of a buffer with one field changed is determined by the slice of the buffer. *)
Lemma slice_put_ext w o v t t' lo n lo' :
  0 <= w -> 0 <= o -> 0 <= lo -> 0 <= lo' -> lo + o + w <= zlen t -> lo' + o + w <= zlen t' ->
  lo = lo' -> zslice lo n t = zslice lo' n t' -> zslice lo n (put_field w (lo + o) v t) = zslice lo' n (put_field w (lo' + o) v t').
Proof.
  intros Hw Ho Hlo Hlo' HL HL' <- HE. apply zslice_ext; [done|]. intros x Hx. destruct (decide (lo + o <= Z.of_nat x < lo + o + w)).
  - apply (zslice_agree (lo + o) w); [lia| |done]. unfold put_field. by rewrite !zslice_zsplice_eq by (by apply zlen_le_bytes).
  - rewrite !lookup_put_out by lia. by apply (zslice_agree lo n).
Qed.

(** The verification of a group depends on its descriptor alone. *)
Lemma verify_frame (c c' : csum_fs) g :
  group_ok c -> group_ok c' -> desc_same c c' -> desc_aligned c -> 0 <= g < fs_group_desc_count c -> desc_bytes c' g = desc_bytes c g ->
  (ext2fs_group_desc_csum_verify c' g).1 = (ext2fs_group_desc_csum_verify c g).1.
Proof.
  intros Hok Hok' HS Ha Hg HE. assert (Hg' : 0 <= g < fs_group_desc_count c') by (by rewrite (ds_count _ _ HS)).
  destruct (desc_bounds c g Hok Hg) as [B1 B2], (desc_bounds c' g Hok' Hg') as [B1' B2'].
  assert (HO : ext2fs_group_desc c' g = ext2fs_group_desc c g) by (unfold ext2fs_group_desc; by rewrite (ds_super _ _ HS)).
  unfold desc_bytes in HE. rewrite HO, (ds_super _ _ HS) in HE. rewrite HO in B1', B2'. set (off := ext2fs_group_desc c g) in *.
  pose proof (desc_size_32 c (go_table _ Hok)) as Hd. rewrite <- Ha in Hd. set (sz := DESC_SIZE (fs_super c)) in *.
  assert (Hsl : forall o n, 0 <= o -> o + n <= sz -> zslice (off + o) n (fs_group_desc c') = zslice (off + o) n (fs_group_desc c)).
  { intros o n Ho Hn. apply zslice_ext; [lia|]. intros x Hx. apply (zslice_agree off sz); [done|done|lia]. }
  unfold ext2fs_group_desc_csum_verify. rewrite (has_csum_same _ _ HS). destruct (ext2fs_has_group_desc_csum c); [|done].
  rewrite !group_csum_eq by done. cbn [fst]. f_equal.
  - unfold ext2fs_bg_checksum, gd_read. rewrite HO. fold off. by rewrite Hsl by lia.
  - unfold group_value, ext2fs_group_desc_csum. destruct (ds_rest _ _ HS) as (-> & -> & _). rewrite (ds_super _ _ HS), HO. fold sz off.
    destruct (has_feature_metadata_csum (fs_super c)); cbn [fst].
    + do 2 f_equal. unfold ext2fs_bg_checksum_set. rewrite !gd_write_put. cbn [with_table fs_group_desc]. rewrite HO. fold off.
      apply slice_put_ext; done || lia.
    + pose proof (Hsl 0 30 ltac:(lia) ltac:(lia)) as H0. rewrite Z.add_0_r in H0. rewrite H0. destruct (decide (32 < sz)); [|done]. by rewrite (Hsl 32) by lia.
Qed.

End csum.

Lemma flags_set_step c g fl :
  group_ok c -> 0 <= g < fs_group_desc_count c -> in_u 16 fl ->
  let c' := set_fs c (ext2fs_bg_flags_set c g fl) in
  desc_same c c' /\ changed_at c c' g [Fflags] /\
  forall i, 0 <= i -> Z.testbit (ext2fs_bg_flags c' g) i = Z.testbit fl i || Z.testbit (ext2fs_bg_flags c g) i.
Proof.
  intros Hok Hg Hfl. cbv zeta. pose proof (go_table _ Hok) as Ht.
  pose proof (keeps_write Fflags g (Z.lor (gd_read 2 18 c g) fl) c (18, 2) Ht Hg ltac:(apply elem_of_cons; by left)) as (K1 & K2 & K3 & K4).
  split_and!.
  - split; cbn; try done. destruct Hok. split; cbn; try done. apply cbytes_zsplice; [apply le_bytes_range|done].
  - intros f' g' Hg' Hne. apply gfield_get_ext; [done|]. intros p Hp. destruct (slots_fit _ _ _ Hp) as (P1 & P2 & P3).
    pose proof (desc_size_bounds c Ht). apply (K4 g' p); try done; [destruct (has_feature_64bit (fs_super c)); lia|].
    destruct Hne as [Hf|?]; [right|left; congruence]. intros q Hq. apply (slots_apart Fflags f' (has_feature_64bit (fs_super c))); try done. set_solver.
  - intros i Hi. cbn [set_fs cs_fs]. by apply desc_flags.
Qed.

Lemma flags_clear_change c g fl :
  group_ok c -> 0 <= g < fs_group_desc_count c -> in_u 16 fl ->
  let c' := set_fs c (ext2fs_bg_flags_clear c g fl) in
  desc_same c c' /\ changed_at c c' g [Fflags] /\ ext2fs_bg_flags c' g = Z.ldiff (ext2fs_bg_flags c g) fl.
Proof.
  intros Hok Hg Hfl. cbv zeta. destruct (flags_clear_step c g fl Hok Hg Hfl) as (S & F & R). split_and!; [done| |done].
  intros f g' Hg' Hne. apply R; [done|]. destruct Hne; [left; set_solver|by right].
Qed.

Section gdt.
Context {T : Type} `{!BitmapOps T} `{!BitmapLaws T} `{!Checksum}.

(** * The last inode of a group *)

Lemma last_inode_spec (h : generic_bitmap T) n i start :
  gwf h -> (forall m, gunit h m = m) -> (forall m, i - Z.of_nat n < m <= i -> gcovers h m) -> 0 <= i - Z.of_nat n + 1 -> i < 2 ^ 64 ->
  match last_inode_loop n h i start with
  | Some r => i - Z.of_nat n < start + r - 1 <= i /\ used h (start + r - 1) = true /\ forall m, start + r - 1 < m <= i -> used h m = false
  | None => forall m, i - Z.of_nat n < m <= i -> used h m = false
  end.
Proof.
  intros Hwf Hu. revert i. induction n as [|n IH]; intros i Hc H0 Hi; cbn [last_inode_loop]; [intros; lia|].
  pose proof (test_cases h i Hwf ltac:(lia)) as HT. rewrite Hu, decide_True in HT by (apply Hc; lia).
  assert (HU : used h i = gmem h i) by (unfold used; by rewrite Hu). destruct (decide (ext2fs_test_generic_bmap h i <> 0)) as [Ht|Ht].
  - replace (start + (i - start + 1) - 1) with i by lia. split_and!; [lia|lia|rewrite HU; tauto|intros; lia].
  - assert (Hf : used h i = false) by (rewrite HU; destruct (gmem h i); [exfalso; tauto|done]).
    specialize (IH (i - 1) ltac:(intros; apply Hc; lia) ltac:(lia) ltac:(lia)). destruct (last_inode_loop n h (i - 1) start) as [r|].
    + destruct IH as (I1 & I2 & I3). split_and!; [lia|lia|done|]. intros m Hm. destruct (decide (m = i)) as [->|]; [done|]. apply I3. lia.
    + intros m Hm. destruct (decide (m = i)) as [->|]; [done|]. apply IH. lia.
Qed.

Lemma find_last_spec a g :
  inodes_ok a -> 0 <= g < fs_group_desc_count a ->
  let last := find_last_inode_ingrp (inode_map a) (s_inodes_per_group a) g in
  1 <= last <= s_inodes_per_group a /\
  forall i, first_ino a g + last <= i < first_ino a g + s_inodes_per_group a -> used (inode_map a) i = false.
Proof.
  intros Hok Hg. cbv zeta. unfold find_last_inode_ingrp. destruct (group_inodes a g Hok Hg) as [G1 G2]. pose proof (io_ipg _ Hok) as Hp. pose proof (io_u32 _ Hok) as Hu.
  fold (first_ino a g). rewrite (u32_small (first_ino a g)) by (unfold in_u; lia). rewrite u32_small by (unfold in_u; lia).
  set (p := s_inodes_per_group a) in *. replace (first_ino a g + p - 1 - first_ino a g + 1) with p by lia.
  pose proof (last_inode_spec (inode_map a) (Z.to_nat p) (first_ino a g + p - 1) (first_ino a g) (io_map _ Hok) (io_unit _ Hok)) as HL.
  specialize (HL ltac:(intros; apply (io_covers _ Hok); lia) ltac:(lia) ltac:(pow2_norm; lia)).
  destruct (last_inode_loop _ _ _ _) as [r|].
  - destruct HL as (L1 & _ & L3). split; [lia|]. intros i Hi. apply L3. lia.
  - split; [lia|]. intros i Hi. lia.
Qed.

(** * One group *)

(** The high-water mark that is set. *)
Definition gdt_unused (ipg : Z) (h : generic_bitmap T) (c : csum_fs) (g : Z) : Z :=
  if decide (ext2fs_bg_free_inodes_count c g = ipg) then ipg else ipg - find_last_inode_ingrp h ipg g.

Lemma changed_weaken c c' g l l' : changed_at c c' g l -> l ⊆ l' -> changed_at c c' g l'.
Proof. intros HC Hl f g' Hg' Hne. apply HC; [done|]. destruct Hne as [Hf|]; [left; set_solver|by right]. Qed.

Lemma gdt_desc_spec ipg (h : generic_bitmap T) (c : csum_fs) g :
  group_ok c -> desc_aligned c -> 0 <= g < fs_group_desc_count c -> in_u 16 ipg -> in_u 16 (gdt_unused ipg h c g) ->
  let c' := gdt_csum_desc ipg h c g in
  desc_same c c' /\ only_group g c c' /\ changed_at c c' g [Fflags; Fitable_unused; Fchecksum] /\
  (ext2fs_group_desc_csum_verify c' g).1 = 1 /\ ext2fs_bg_itable_unused c' g = gdt_unused ipg h c g /\
  Z.testbit (ext2fs_bg_flags c' g) 0 = bool_decide (ext2fs_bg_free_inodes_count c g = ipg).
Proof.
  intros Hok Ha Hg Hp Hun. cbv zeta. unfold gdt_csum_desc.
  (* the block flag *)
  set (b := bool_decide _ && bool_decide _). set (c1 := if b then _ else c).
  assert (P1 : desc_same c c1 /\ only_group g c c1 /\ changed_at c c1 g [Fflags]).
  { unfold c1. destruct b; [|split_and!; [by split|done|done]].
    destruct (flags_set_step c g EXT2_BG_BLOCK_UNINIT Hok Hg ltac:(unfold in_u, EXT2_BG_BLOCK_UNINIT; lia)) as (S & C & _).
    split_and!; [done|by apply only_set; [apply Hok|..]|done]. }
  destruct P1 as (S1 & O1 & C1). assert (Hg1 : 0 <= g < fs_group_desc_count c1) by (by rewrite (ds_count _ _ S1)).
  assert (Ha1 : desc_aligned c1) by (unfold desc_aligned; by rewrite (ds_super _ _ S1)).
  (* the inode flag and the mark *)
  set (fr := ext2fs_bg_free_inodes_count c g) in *. set (c2 := if decide (fr = ipg) then _ else _).
  assert (P2 : desc_same c1 c2 /\ only_group g c1 c2 /\ changed_at c1 c2 g [Fflags; Fitable_unused] /\
    gfield_get Fitable_unused c2 g = gdt_unused ipg h c g /\ Z.testbit (gfield_get Fflags c2 g) 0 = bool_decide (fr = ipg)).
  { assert (Hstep : forall (cf : csum_fs) u, desc_same c1 cf -> only_group g c1 cf -> changed_at c1 cf g [Fflags] -> in_u 16 u ->
      let cu := set_fs cf (ext2fs_bg_itable_unused_set cf g u) in
      desc_same c1 cu /\ only_group g c1 cu /\ changed_at c1 cu g [Fflags; Fitable_unused] /\ gfield_get Fitable_unused cu g = u /\
      gfield_get Fflags cu g = gfield_get Fflags cf g).
    { intros cf u Sf Of Cf Hu. assert (Hgf : 0 <= g < fs_group_desc_count cf) by (by rewrite (ds_count _ _ Sf)).
      assert (Haf : desc_aligned cf) by (unfold desc_aligned; by rewrite (ds_super _ _ Sf)).
      destruct (field_change Fitable_unused cf g u (ds_ok _ _ Sf) Hgf Hu) as (Su & Cu & Vu). split_and!.
      - eauto using desc_same_trans.
      - eapply only_trans; [|exact Of|]; [apply (ds_count _ _ Sf)|]. apply (only_field Fitable_unused); [apply Sf|done|done].
      - exact (changed_trans _ _ _ _ _ _ Sf Cf Cu).
      - done.
      - apply (changed_get _ _ _ _ _ Cu); [done|set_solver]. }
    unfold c2, gdt_unused. unfold gdt_unused in Hun. fold fr in Hun |- *. destruct (decide (fr = ipg)) as [Heq|Hne].
    - destruct (flags_set_step c1 g EXT2_BG_INODE_UNINIT (ds_ok _ _ S1) Hg1 ltac:(unfold in_u, EXT2_BG_INODE_UNINIT; lia)) as (S & C & B).
      destruct (Hstep _ ipg S ltac:(apply only_set; [apply S1|done|done]) C Hp) as (Q1 & Q2 & Q3 & Q4 & Q5). split_and!; try done.
      rewrite Q5. cbn [gfield_get]. rewrite B by lia. by rewrite bool_decide_eq_true_2.
    - destruct (flags_clear_change c1 g EXT2_BG_INODE_UNINIT (ds_ok _ _ S1) Hg1 ltac:(unfold in_u, EXT2_BG_INODE_UNINIT; lia)) as (S & C & B).
      rewrite (u32_small (ipg - _)) by (unfold in_u in *; pow2_norm; lia).
      destruct (Hstep _ _ S ltac:(apply only_clear; [apply S1|done|done]) C Hun) as (Q1 & Q2 & Q3 & Q4 & Q5). split_and!; try done.
      rewrite Q5. cbn [gfield_get]. rewrite B, Z.ldiff_spec. change (Z.testbit EXT2_BG_INODE_UNINIT 0) with true. by rewrite andb_false_r, bool_decide_eq_false_2. }
  destruct P2 as (S2 & O2 & C2 & U2 & F2). assert (Hg2 : 0 <= g < fs_group_desc_count c2) by (by rewrite (ds_count _ _ S2)).
  assert (Ha2 : desc_aligned c2) by (unfold desc_aligned; by rewrite (ds_super _ _ S2)).
  destruct (csum_change c2 g (ds_ok _ _ S2) Hg2) as (S3 & V3 & C3).
  assert (G3 : forall f, f <> Fchecksum -> gfield_get f (ext2fs_group_desc_csum_set c2 g) g = gfield_get f c2 g) by (intros f Hf; apply (changed_get _ _ _ _ _ C3); [done|clear -Hf; set_solver]).
  assert (S02 : desc_same c c2) by eauto using desc_same_trans.
  assert (C02 : changed_at c c2 g ([Fflags] ++ [Fflags; Fitable_unused])) by exact (changed_trans _ _ _ _ _ _ S1 C1 C2).
  split_and!.
  - eauto using desc_same_trans.
  - eapply only_trans; [|exact O1|]; [apply (ds_count _ _ S1)|]. eapply only_trans; [|exact O2|]; [apply (ds_count _ _ S2)|].
    apply only_csum; [apply S2|done|done].
  - eapply changed_weaken; [exact (changed_trans _ _ _ _ _ _ S02 C02 C3)|clear; set_solver].
  - by rewrite V3.
  - change (gfield_get Fitable_unused (ext2fs_group_desc_csum_set c2 g) g = gdt_unused ipg h c g). by rewrite G3.
  - change (Z.testbit (gfield_get Fflags (ext2fs_group_desc_csum_set c2 g) g) 0 = bool_decide (fr = ipg)). by rewrite G3.
Qed.

(** * All groups *)

(** The part of the state the loop does not change. *)
Definition same_rest (a a' : alloc_fs T) : Prop :=
  s_inodes_count a' = s_inodes_count a /\ s_free_inodes_count a' = s_free_inodes_count a /\
  s_inodes_per_group a' = s_inodes_per_group a /\ inode_map a' = inode_map a /\ block_map a' = block_map a.

(** Group [g] is as the loop leaves it. *)
Definition gdt_group_ok (a a' : alloc_fs T) (g : Z) : Prop :=
  (ext2fs_group_desc_csum_verify a' g).1 = 1 /\
  ext2fs_bg_itable_unused a' g = gdt_unused (s_inodes_per_group a) (inode_map a) a g /\
  Z.testbit (ext2fs_bg_flags a' g) 0 = bool_decide (ext2fs_bg_free_inodes_count a g = s_inodes_per_group a).

(** The state when the groups below [i] are done. *)
Record gdt_done (a a' : alloc_fs T) (i : Z) : Prop := {
  gd_same : desc_same a a';
  gd_rest : same_rest a a';
  gd_before g : 0 <= g < i -> g < fs_group_desc_count a -> gdt_group_ok a a' g;
  gd_after f g : i <= g < fs_group_desc_count a -> gfield_get f a' g = gfield_get f a g;
  gd_fields f g : 0 <= g < fs_group_desc_count a -> f ∉ [Fflags; Fitable_unused; Fchecksum] -> gfield_get f a' g = gfield_get f a g
}.

Lemma unused_range a g : inodes_ok a -> 0 <= g < fs_group_desc_count a ->
  in_u 16 (gdt_unused (s_inodes_per_group a) (inode_map a) a g).
Proof.
  intros Hok Hg. pose proof (io_ipg _ Hok). destruct (find_last_spec a g Hok Hg) as [HL _]. unfold gdt_unused, in_u. case_decide; lia.
Qed.

Lemma gdt_step_done a a' i :
  inodes_ok a -> desc_aligned a -> 0 <= i < fs_group_desc_count a -> gdt_done a a' i -> gdt_done a (gdt_csum_step i a').1 (i + 1).
Proof.
  intros Hok Ha Hi [DS DR DB DA DF]. destruct DR as (R1 & R2 & R3 & R4 & R5).
  assert (HU : gdt_unused (s_inodes_per_group a) (inode_map a) a' i = gdt_unused (s_inodes_per_group a) (inode_map a) a i).
  { unfold gdt_unused. pose proof (DA Ffree_inodes i ltac:(lia)) as HD. cbn [gfield_get] in HD. by rewrite HD. }
  assert (Hi' : 0 <= i < fs_group_desc_count a') by (by rewrite (ds_count _ _ DS)).
  assert (Ha' : desc_aligned a') by (unfold desc_aligned; by rewrite (ds_super _ _ DS)).
  pose proof (io_ipg _ Hok) as Hp.
  destruct (gdt_desc_spec (s_inodes_per_group a) (inode_map a) a' i (ds_ok _ _ DS) Ha' Hi' ltac:(unfold in_u; lia)) as (S & O & C & V & U & F).
  { rewrite HU. by apply unused_range. }
  unfold gdt_csum_step. cbn [fst]. rewrite R3, R4. set (c := gdt_csum_desc _ _ a' i) in *. split; cbn [a_cs set_cs].
  - eauto using desc_same_trans.
  - done.
  - intros g Hg Hlt. destruct (decide (g = i)) as [->|Hne].
    + split_and!; cbn [a_cs set_cs]; [done|by rewrite U|]. rewrite F. pose proof (DA Ffree_inodes i ltac:(lia)) as HD. cbn [gfield_get] in HD. by rewrite HD.
    + destruct (DB g ltac:(lia) Hlt) as (B1 & B2 & B3). assert (Hg' : 0 <= g < fs_group_desc_count a') by (rewrite (ds_count _ _ DS); lia).
      split_and!; cbn [a_cs set_cs].
      * rewrite <- B1. apply verify_frame; try done; [apply DS|apply S|]. apply O; done.
      * rewrite <- B2. apply (C Fitable_unused); [done|by right].
      * rewrite <- B3. f_equal. apply (C Fflags); [done|by right].
  - intros f g Hg. rewrite C, DA; [done|lia|rewrite (ds_count _ _ DS); lia|right; lia].
  - intros f g Hg Hf. rewrite C, DF; [done|done|done|by rewrite (ds_count _ _ DS)|by left].
Qed.

Lemma gdt_loop_done a n : forall a' i d,
  inodes_ok a -> desc_aligned a -> 0 <= i -> i + Z.of_nat n = fs_group_desc_count a -> gdt_done a a' i ->
  gdt_done a (gdt_csum_loop n i a' d).1 (fs_group_desc_count a).
Proof.
  induction n as [|n IH]; intros a' i d Hok Ha Hi Hn HD; cbn [gdt_csum_loop].
  - by replace (fs_group_desc_count a) with i by lia.
  - pose proof (gdt_step_done a a' i Hok Ha ltac:(lia) HD) as HS. destruct (gdt_csum_step i a') as [a1 d1]. apply IH; try done; lia.
Qed.

Lemma mark_dirty_done a a' i : gdt_done a a' i -> gdt_done a (ext2fs_mark_super_dirty a') i.
Proof.
  intros [DS DR DB DA DF]. assert (HG : forall f g, gfield_get f (ext2fs_mark_super_dirty a') g = gfield_get f a' g) by (intros; apply with_flags_get).
  split; [|done| |intros; rewrite HG; auto|intros; rewrite HG; auto].
  - destruct DS as [S1 S2 S3 S4]. split; try done. by apply (with_flags_ok (a_cs a')).
  - intros g Hg Hlt. destruct (DB g Hg Hlt) as (B1 & B2 & B3). split_and!.
    + rewrite <- B1. apply with_flags_verify.
    + rewrite <- B2. apply (HG Fitable_unused).
    + rewrite <- B3. exact (f_equal (fun z => Z.testbit z 0) (HG Fflags g)).
Qed.

Lemma set_gdt_eq a :
  gwf (inode_map a) -> ext2fs_has_group_desc_csum a = true ->
  ext2fs_set_gdt_csum a =
    let '(a1, d) := gdt_csum_loop (Z.to_nat (fs_group_desc_count a)) 0 a false in (0, if d then ext2fs_mark_super_dirty a1 else a1).
Proof. intros Hwf Hcs. unfold ext2fs_set_gdt_csum. rewrite Hcs. by destruct (inode_map a). Qed.

(** C33: [ext2fs_set_gdt_csum] succeeds, and afterwards every group descriptor verifies, every
    group whose inodes are all free is flagged so, no used inode lies past the high-water mark
    of its group, and the counters are the old ones. *)
Theorem set_gdt_csum_spec a :
  inodes_ok a -> inodes_counted a -> desc_aligned a -> ext2fs_has_group_desc_csum a = true ->
  let '(r, a') := ext2fs_set_gdt_csum a in
  r = 0 /\
  forall g, 0 <= g < fs_group_desc_count a ->
    (ext2fs_group_desc_csum_verify a' g).1 = 1 /\
    Z.testbit (ext2fs_bg_flags a' g) 0 = bool_decide (ext2fs_bg_free_inodes_count a g = s_inodes_per_group a) /\
    (forall i, first_ino a g + s_inodes_per_group a - ext2fs_bg_itable_unused a' g <= i < first_ino a g + s_inodes_per_group a ->
       used (inode_map a') i = false) /\
    ext2fs_bg_free_inodes_count a' g = ext2fs_bg_free_inodes_count a g /\
    ext2fs_bg_free_blocks_count a' g = ext2fs_bg_free_blocks_count a g.
Proof.
  intros Hok Hic Ha Hcs. rewrite (set_gdt_eq a (io_map _ Hok) Hcs).
  pose proof (gdt_loop_done a (Z.to_nat (fs_group_desc_count a)) a 0 false Hok Ha ltac:(lia) ltac:(pose proof (io_groups _ Hok); lia)) as HL.
  destruct (gdt_csum_loop _ 0 a false) as [a1 d]. cbn [fst] in HL. set (a' := if d then _ else _).
  assert (HD : gdt_done a a' (fs_group_desc_count a)).
  { assert (gdt_done a a1 (fs_group_desc_count a)) by (apply HL; split; [split; [apply Hok|done..]|done|intros; lia|done|done]).
    unfold a'. destruct d; [by apply mark_dirty_done|done]. }
  split; [done|]. intros g Hg. destruct HD as [DS (R1 & R2 & R3 & R4 & R5) DB DA DF]. destruct (DB g Hg ltac:(lia)) as (B1 & B2 & B3).
  split_and!; [done|done| |apply (DF Ffree_inodes); [done|set_solver]|apply (DF Ffree_blocks); [done|set_solver]].
  intros i Hi. rewrite R4. rewrite B2 in Hi. unfold gdt_unused in Hi. pose proof (io_ipg _ Hok).
  destruct (decide (ext2fs_bg_free_inodes_count a g = s_inodes_per_group a)) as [Hall|_].
  - rewrite (ic_group _ Hic) in Hall by done. apply (nclear_all _ (first_ino a g) (s_inodes_per_group a)); [lia|done|lia].
  - destruct (find_last_spec a g Hok Hg) as [_ HF]. apply HF. lia.
Qed.

End gdt.
