(* ===== verification/AllocSearch.v ===== *)
(** Finding and clearing a free block: [ext2fs_new_block3] and [ext2fs_alloc_block3] of [alloc.c] and
    [ext2fs_zero_blocks2] of [mkjournal.c], over the laws [BlockIoLaws] of a channel. *)
From Stdlib Require Import ZArith Lia.
From stdpp Require Import base tactics numbers list sets.
From S2P Require Import Prelude ExtErr Bitops BitmapOps BitArray BitArrayProofs GenBitmap GenBitmapProofs.
From S2P Require Import Crc32c BlkNum BlkNumProofs Csum CsumProofs CsumGroup Alloc AllocProofs AllocInodes.

(** ** Clearing blocks

    What a channel promises for blocks of [bs] bytes: a request that succeeds leaves the blocks it
    names as asked, and one that fails changes no others. *)
Class BlockIoLaws (W : Type) `{!BlockIo W} (bs : Z) := {
  dev : W -> Z -> list Z;
  law_zeroout blk num w :
    0 < num ->
    ((io_channel_zeroout blk num w).1 = 0 -> forall b, blk <= b < blk + num -> dev (io_channel_zeroout blk num w).2 b = replicate (Z.to_nat bs) 0) /\
    forall b, ~ (blk <= b < blk + num) -> dev (io_channel_zeroout blk num w).2 b = dev w b;
  law_write blk count buf w :
    0 < count -> count * bs <= zlen buf ->
    ((io_write_blocks blk count buf w).1 = 0 -> forall i, 0 <= i < count ->
       dev (io_write_blocks blk count buf w).2 (blk + i) = take (Z.to_nat bs) (drop (Z.to_nat (i * bs)) buf)) /\
    forall b, ~ (blk <= b < blk + count) -> dev (io_write_blocks blk count buf w).2 b = dev w b
}.

Section zero.
Context {W : Type} `{!BlockIo W} {bs : Z} `{!BlockIoLaws W bs}.

Definition zero_block : list Z := replicate (Z.to_nat bs) 0.

(** The static buffer holds [stride_length] blocks of zeros. *)
Record static_ok (z : zero_state W) : Prop := {
  so_stride : 0 <= stride_length z <= MAX_STRIDE_LENGTH bs;
  so_buf : z_buf z = replicate (Z.to_nat (bs * stride_length z)) 0
}.

(** Blocks [blk] to [blk + n - 1] of [w'] are clear when [ok], and the others are as in [w]. *)
Definition cleared (ok : Prop) (w w' : W) (blk n : Z) : Prop :=
  (ok -> forall b, blk <= b < blk + n -> dev w' b = zero_block) /\
  forall b, ~ (blk <= b < blk + n) -> dev w' b = dev w b.

Lemma cleared_weaken (ok : Prop) w w' blk n m : ~ ok -> n <= m -> cleared ok w w' blk n -> cleared ok w w' blk m.
Proof. intros Hn Hm [_ H]. split; [done|]. intros b Hb. apply H. lia. Qed.

Lemma cleared_trans (ok ok' : Prop) w w1 w2 blk n m :
  0 <= n <= m -> (ok' -> ok) -> cleared ok w w1 blk n -> cleared ok' w1 w2 (blk + n) (m - n) -> cleared ok' w w2 blk m.
Proof.
  intros Hn Hok [A1 A2] [B1 B2]. split.
  - intros H b Hb. destruct (decide (b < blk + n)); [|apply B1; [done|lia]]. rewrite B2 by lia. apply A1; [auto|lia].
  - intros b Hb. rewrite B2, A2 by lia. done.
Qed.

Lemma write_zeros blk count stride w :
  0 < bs -> 0 < count <= stride ->
  let r := io_write_blocks blk count (replicate (Z.to_nat (bs * stride)) 0) w in cleared (r.1 = 0) w r.2 blk count.
Proof.
  intros Hbs Hc. cbv zeta. destruct (law_write blk count (replicate (Z.to_nat (bs * stride)) 0) w) as [H1 H2]; [lia| |].
  { unfold zlen. rewrite length_replicate. nia. }
  split; [|done]. intros E b Hb. replace b with (blk + (b - blk)) by lia. rewrite H1 by (done || lia). unfold zero_block.
  rewrite drop_replicate, take_replicate. f_equal. nia.
Qed.

Lemma zero_write_loop_spec : forall fuel (z : zero_state W) blk left,
  0 < bs -> static_ok z -> 0 < stride_length z -> 0 <= blk -> 0 <= left <= Z.of_nat fuel -> blk + left < 2 ^ 64 ->
  let r := zero_write_loop fuel z blk left in cleared (r.1 = 0) (z_io z) (z_io r.2) blk left /\ static_ok r.2.
Proof.
  induction fuel as [|fuel IH]; intros z blk left Hbs Hz Hs Hb Hl Hr; cbv zeta; cbn [zero_write_loop].
  { split; [split; [intros _ b ?; lia|done]|done]. }
  destruct (decide (0 < left)) as [H0|H0]; [|split; [split; [intros _ b ?; lia|done]|done]].
  set (count := if decide (blk mod stride_length z <> 0) then _ else _).
  pose proof (Z.mod_pos_bound blk (stride_length z) Hs) as Hm.
  assert (Hc : 0 < count <= left /\ count <= stride_length z) by (unfold count; repeat case_decide; lia).
  pose proof (write_zeros blk count (stride_length z) (z_io z) Hbs ltac:(lia)) as HW. cbv zeta in HW. rewrite <- (so_buf _ Hz) in HW.
  destruct (io_write_blocks blk count (z_buf z) (z_io z)) as [retval io]. cbn [fst snd] in HW.
  assert (Hz' : static_ok (mkZero io (z_buf z) (stride_length z))) by (split; apply Hz).
  destruct (decide (retval <> 0)) as [He|He]; cbn [fst snd].
  - split; [|done]. by apply (cleared_weaken _ _ _ _ count); [|lia|].
  - apply dec_stable in He. rewrite u64_small by (unfold in_u; lia).
    destruct (IH (mkZero io (z_buf z) (stride_length z)) (blk + count) (left - count)) as [I1 I2]; try done; try lia.
    split; [|done]. by apply (cleared_trans (retval = 0) _ _ io _ _ count); [lia| | |].
Qed.

(** [ext2fs_zero_blocks2] clears the blocks it is given, whether or not the channel can clear
    blocks itself and however the static buffer was left, and touches no others. *)
Lemma zero_blocks_spec mem (z : zero_state W) blk num :
  0 < bs <= 4194304 -> static_ok z -> 0 <= blk -> blk + num < 2 ^ 64 ->
  let r := ext2fs_zero_blocks2 mem bs z blk num in cleared (r.1 = 0) (z_io z) (z_io r.2) blk num /\ static_ok r.2.
Proof.
  intros Hbs Hz Hb Hr. cbv zeta. unfold ext2fs_zero_blocks2.
  destruct (decide (num <= 0)) as [|Hn]; [split; [split; [intros _ b ?; lia|done]|done]|].
  assert (HM : 0 < MAX_STRIDE_LENGTH bs) by (unfold MAX_STRIDE_LENGTH; apply Z.div_str_pos; lia).
  destruct (law_zeroout blk num (z_io z) ltac:(lia)) as [L1 L2]. destruct (io_channel_zeroout blk num (z_io z)) as [r0 io]. cbn [fst snd] in *.
  pose proof Hz as [S1 S2]. assert (Hz' : static_ok (mkZero io (z_buf z) (stride_length z))) by (by split).
  assert (HT : forall z', static_ok z' -> 0 < stride_length z' -> z_io z' = io ->
    let r := zero_write_loop (Z.to_nat num) z' blk num in cleared (r.1 = 0) (z_io z) (z_io r.2) blk num /\ static_ok r.2).
  { intros z' K1 K2 <-. destruct (zero_write_loop_spec (Z.to_nat num) z' blk num) as [[Q1 Q2] Q3]; try done; try lia.
    split; [split; [exact Q1|]|exact Q3]. intros b Hnb. by rewrite Q2, L2. }
  destruct (decide (r0 = 0)) as [->|]; [split; [by split; auto|done]|]. cbn [stride_length].
  destruct (bool_decide (num > stride_length z) && _) eqn:E.
  - rewrite andb_true_iff, !bool_decide_eq_true in E. destruct mem.
    + apply HT; [|cbn; case_decide; lia|done]. split; cbn; [case_decide; lia|done].
    + cbn. split; [split; [by intros ?%eq_sym|exact L2]|done].
  - rewrite andb_false_iff, !bool_decide_eq_false in E. apply HT; [done|cbn; lia|done].
Qed.

End zero.
Arguments zero_block : clear implicits.
Arguments static_ok {W} bs z.

Section search.
Context {T : Type} `{!BitmapOps T} `{!BitmapLaws T} `{!BitmapExact T} `{!Checksum}.
Implicit Types (a : alloc_fs T) (h : generic_bitmap T).

Lemma find_zero_cases h s e :
  gwf h -> 0 <= s <= e -> e < 2 ^ 64 -> gcovers h (gunit h s) -> gcovers h (gunit h e) ->
  first_in (used h) false s e (ext2fs_find_first_zero_generic_bmap h s e).
Proof.
  intros Hwf Hs He Cs Ce. apply find_first_cases; try done.
  - intros f b x y Hf. by apply law_find_zero.
  - intros b Wb H1 H2. unfold ext2fs_find_first_zero_generic_bitmap. rewrite !bool_decide_eq_false_2 by lia. cbn [orb].
    replace e with (s + Z.of_nat (Z.to_nat (e - s + 1)) - 1) at 1 by lia.
    pose proof Wb as [[] ?]. apply find_loop_spec; [done|lia|lia].
Qed.

(** A bitmap for the blocks of a file system. *)
Record map_covers a h : Prop := {
  mc_wf : gwf h;
  mc_covers n : s_first_data_block (fs_super a) <= n < ext2fs_blocks_count (fs_super a) -> gcovers h (gunit h n)
}.

(** Clusters of one block, or a file system that starts at block 0. *)
Definition clusters_ok a : Prop :=
  fs_cluster_ratio_bits a = 0 \/ s_first_data_block (fs_super a) = 0 /\ 0 <= fs_cluster_ratio_bits a < 32.

Lemma goal_masked a goal :
  clusters_ok a -> s_first_data_block (fs_super a) <= goal -> 0 <= goal ->
  s_first_data_block (fs_super a) <= Z.land goal (Z.lnot (CLUSTER_RATIO a - 1)) <= goal.
Proof.
  intros Hc Hg H0. unfold CLUSTER_RATIO. destruct Hc as [->|[-> Hb]].
  - change (Z.shiftl 1 0 - 1) with 0. change (Z.lnot 0) with (-1). rewrite Z.land_m1_r. lia.
  - rewrite <- Z.ldiff_land, Z.shiftl_mul_pow2 by lia. replace (1 * 2 ^ fs_cluster_ratio_bits a - 1) with (Z.ones (fs_cluster_ratio_bits a)) by (rewrite Z.ones_equiv; lia).
    rewrite Z.ldiff_ones_r, Z.shiftl_mul_pow2, Z.shiftr_div_pow2 by lia. assert (0 < 2 ^ fs_cluster_ratio_bits a) by (apply Z.pow_pos_nonneg; lia).
    pose proof (Z.mul_div_le goal (2 ^ fs_cluster_ratio_bits a) ltac:(lia)). pose proof (Z.div_pos goal (2 ^ fs_cluster_ratio_bits a) ltac:(lia) ltac:(lia)). nia.
Qed.

(** The search finds a free block when there is one. *)
Lemma new_block_search_spec a h goal :
  geometry_ok a -> clusters_ok a -> map_covers a h -> 0 <= goal ->
  goal = 0 \/ s_first_data_block (fs_super a) <= goal ->
  match new_block_search a h goal with
  | inr b => s_first_data_block (fs_super a) <= b < ext2fs_blocks_count (fs_super a) /\ used h b = false
  | inl e => e = ENOENT /\ forall b, s_first_data_block (fs_super a) <= b < ext2fs_blocks_count (fs_super a) -> used h b = true
  end.
Proof.
  intros HG Hc [Hwf Hcov] H0 Hg. pose proof HG as [G1 G2 _ _ _ _]. unfold new_block_search.
  set (first := s_first_data_block (fs_super a)) in *. set (total := ext2fs_blocks_count (fs_super a)) in *.
  set (g1 := if bool_decide (goal = 0) || bool_decide (goal >= total) then first else goal).
  assert (Hg1 : first <= g1 < total).
  { unfold g1. destruct (bool_decide (goal = 0) || bool_decide (goal >= total)) eqn:E; [lia|]. rewrite orb_false_iff, !bool_decide_eq_false in E. lia. }
  pose proof (goal_masked a g1 Hc ltac:(fold first; lia) ltac:(lia)) as Hg2. fold first in Hg2. set (g2 := Z.land g1 _) in *.
  rewrite (u64_small (total - 1)) by (unfold in_u; lia).
  pose proof (find_zero_cases h g2 (total - 1) Hwf ltac:(lia) ltac:(lia) ltac:(apply Hcov; lia) ltac:(apply Hcov; lia)) as H1.
  destruct H1 as [(x & -> & Hx & Hu & _)|(-> & Hall)]; cbn [fst].
  - rewrite (bool_decide_eq_false_2 (0 = ENOENT)) by done. cbn [andb sum_of_find]. split; [lia|done].
  - rewrite (bool_decide_eq_true_2 (ENOENT = ENOENT)) by done. cbn [andb]. destruct (decide (g2 = first)) as [Heq|Hne].
    + rewrite bool_decide_eq_false_2 by naive_solver. cbn [sum_of_find]. split; [done|]. intros b Hb. apply Hall. lia.
    + rewrite bool_decide_eq_true_2 by done. rewrite u64_small by (unfold in_u; lia).
      pose proof (find_zero_cases h first (g2 - 1) Hwf ltac:(lia) ltac:(lia) ltac:(apply Hcov; lia) ltac:(apply Hcov; lia)) as H2.
      destruct H2 as [(x & -> & Hx & Hu & _)|(-> & Hall2)]; cbn [sum_of_find]; [split; [lia|done]|].
      split; [done|]. intros b Hb. destruct (decide (b < g2)); [apply Hall2|apply Hall]; lia.
Qed.

(** Clearing the flag of a group whose bitmap was not initialised. *)
Lemma clear_uninit_spec a g :
  group_ok a -> 0 <= g ->
  let a' := ext2fs_clear_block_uninit a g in
  (exists c fl, a_cs a' = with_flags c fl /\ desc_same a c /\
     forall f g', 0 <= g' < fs_group_desc_count a -> f <> Fflags -> f <> Fchecksum -> gfield_get f c g' = gfield_get f a g') /\
  s_inodes_count a' = s_inodes_count a /\ s_free_inodes_count a' = s_free_inodes_count a /\ s_inodes_per_group a' = s_inodes_per_group a /\
  inode_map a' = inode_map a /\ block_map a' = block_map a.
Proof.
  intros Hok Hg. cbv zeta. unfold ext2fs_clear_block_uninit. destruct (bool_decide _ || _ || _) eqn:E.
  - split_and!; try done. exists a, (fs_flags a). split_and!; [by destruct a as [[[] ? ? ?] ? ? ? ? ?]|by split|done].
  - rewrite !orb_false_iff, bool_decide_eq_false in E. destruct E as [[E1 _] _]. split_and!; try done.
    assert (Hg' : 0 <= g < fs_group_desc_count a) by lia.
    destruct (flags_clear_step a g EXT2_BG_BLOCK_UNINIT Hok Hg' ltac:(unfold in_u, EXT2_BG_BLOCK_UNINIT; lia)) as (S1 & _ & R1). set (c1 := set_fs a _) in *.
    assert (Hg1 : 0 <= g < fs_group_desc_count c1) by (by rewrite (ds_count _ _ S1)).
    destruct (csum_step c1 g (ds_ok _ _ S1) Hg1) as (S2 & _ & R2).
    exists (ext2fs_group_desc_csum_set c1 g), (Z.lor (Z.lor (fs_flags (ext2fs_group_desc_csum_set c1 g)) 0x6) 0x22). split_and!.
    + reflexivity.
    + eauto using desc_same_trans.
    + intros f g' Hgr Hf1 Hf2. rewrite R2, R1; [done|done|by left|by rewrite (ds_count _ _ S1)|by left].
Qed.

(** The counters do not depend on the flags. *)
Lemma clear_uninit_keeps a g :
  blocks_ok a -> blocks_counted a -> 0 <= g ->
  let a' := ext2fs_clear_block_uninit a g in
  blocks_ok a' /\ blocks_counted a' /\ fs_super a' = fs_super a /\ block_map a' = block_map a.
Proof.
  intros Hok Hbc Hg. cbv zeta. destruct (clear_uninit_spec a g (ao_group _ Hok) Hg) as ((c & fl & Ec & DS & DF) & _ & _ & _ & _ & Em).
  set (a' := ext2fs_clear_block_uninit a g) in *.
  assert (HS : fs_super a' = fs_super a) by (rewrite Ec; apply (ds_super _ _ DS)).
  assert (HC : fs_group_desc_count a' = fs_group_desc_count a) by (rewrite Ec; apply (ds_count _ _ DS)).
  split_and!; [| |done|done].
  - destruct Hok as [A1 A2 A3 A4 A5 A6 A7 A8]. split; rewrite ?HS, ?HC, ?Em; try done.
    + rewrite Ec. by apply with_flags_ok, DS.
    + destruct A2. split; rewrite ?HS, ?HC; done.
    + rewrite Ec. cbn. destruct (ds_rest _ _ DS) as (_ & _ & ->). done.
  - split; rewrite ?Em, ?HS; [|apply (bc_total _ Hbc)]. rewrite HC. intros g' Hg'.
    assert (HF : ext2fs_bg_free_blocks_count a' g' = ext2fs_bg_free_blocks_count a g').
    { rewrite Ec. change (gfield_get Ffree_blocks (with_flags c fl) g' = gfield_get Ffree_blocks a g'). rewrite with_flags_get. by apply DF. }
    rewrite HF, (bc_group _ Hbc) by done. unfold ext2fs_group_first_block2, ext2fs_group_blocks_count. by rewrite HS, HC.
Qed.

Lemma blocks_ok_map a : blocks_ok a -> map_covers a (block_map a).
Proof. intros Hok. split; [apply Hok|]. intros n Hn. rewrite (ao_unit _ Hok). by apply (ao_covers _ Hok). Qed.

Lemma group_of_blk_nonneg (fs : filsys) b : geometry_ok fs -> 0 <= ext2fs_group_of_blk2 fs b.
Proof. intros _. unfold ext2fs_group_of_blk2. apply u32_range. Qed.

Lemma new_block_null a goal :
  gwf (block_map a) -> ext2fs_new_block3 None None a goal None = new_block_allocated (new_block_search a (block_map a) goal) a.
Proof. intros Hwf. unfold ext2fs_new_block3. cbn. by destruct (block_map a). Qed.

Lemma new_block_given a goal h : gwf h -> ext2fs_new_block3 None None a goal (Some h) = new_block_allocated (new_block_search a h goal) a.
Proof. intros Hwf. unfold ext2fs_new_block3. cbn. by destruct h. Qed.

(** [ext2fs_new_block3] with a bitmap returns a block of the file system that is free in it,
    whatever the goal, and reports that there is no space exactly when every block is used; with
    clusters too. *)
Theorem new_block_spec a goal h :
  group_ok a -> geometry_ok a -> clusters_ok a -> map_covers a h -> 0 <= goal -> goal = 0 \/ s_first_data_block (fs_super a) <= goal ->
  match (ext2fs_new_block3 None None a goal (Some h)).1 with
  | inr b => s_first_data_block (fs_super a) <= b < ext2fs_blocks_count (fs_super a) /\ used h b = false
  | inl e => e = EXT2_ET_BLOCK_ALLOC_FAIL /\ forall b, s_first_data_block (fs_super a) <= b < ext2fs_blocks_count (fs_super a) -> used h b = true
  end.
Proof.
  intros Hok HG Hc Hm H0 Hg. rewrite new_block_given by apply Hm. pose proof (new_block_search_spec a h goal HG Hc Hm H0 Hg) as HS.
  destruct (new_block_search a h goal) as [e|b]; cbn [new_block_allocated fst]; [|done]. destruct HS as [-> Hall]. by rewrite decide_True.
Qed.

Lemma clear_uninit_blocksize a g : fs_blocksize (ext2fs_clear_block_uninit a g) = fs_blocksize a.
Proof.
  unfold ext2fs_clear_block_uninit. destruct (bool_decide _ || _ || _); [done|]. cbn.
  unfold ext2fs_group_desc_csum_set. destruct (negb _); [done|]. unfold ext2fs_group_desc_csum. by destruct (has_feature_metadata_csum _).
Qed.

Context {W : Type} `{!BlockIo W} {bs : Z} `{!BlockIoLaws W bs}.

(** Both ways of clearing a new block leave it full of zeros and touch no other. *)
Lemma clear_new_block_spec mem a b block_buf (z : zero_state W) :
  fs_blocksize a = bs -> 0 < bs <= 4194304 -> static_ok bs z -> 0 <= b < 2 ^ 64 - 1 -> (forall buf, block_buf = Some buf -> bs <= zlen buf) ->
  let r := clear_new_block mem a b block_buf z in
  cleared (r.1.1 = 0) (z_io z) (z_io r.2) b 1 /\ static_ok bs r.2 /\
  r.1.2 = (fun buf => zero_block bs ++ drop (Z.to_nat bs) buf) <$> block_buf.
Proof using BlockIoLaws0.
  intros Hb Hbs Hz Hr Hbuf. cbv zeta. unfold clear_new_block. rewrite Hb. destruct block_buf as [buf|].
  - specialize (Hbuf buf eq_refl). fold (zero_block bs). set (buf' := _ ++ _).
    destruct (law_write b 1 buf' (z_io z)) as [L1 L2]; [lia| |].
    { unfold buf', zero_block, zlen in *. rewrite length_app, length_replicate, length_drop. lia. }
    destruct (io_write_blocks b 1 buf' (z_io z)) as [r io]. cbn [fst snd] in *. split_and!; [|by split; apply Hz|done].
    split; [|exact L2]. intros E x Hx. replace x with (b + 0) by lia. rewrite L1 by (done || lia). cbn. unfold buf', zero_block.
    by rewrite drop_0, take_app_length' by (by rewrite length_replicate).
  - pose proof (zero_blocks_spec mem z b 1 Hbs Hz ltac:(lia) ltac:(lia)) as HS. cbv zeta in HS.
    destruct (ext2fs_zero_blocks2 mem bs z b 1) as [r z']. cbn [fst snd] in *. by destruct HS.
Qed.

(** C34: [ext2fs_alloc_block3] without callbacks (the checker installs [get_alloc_block] during its
    passes: then that function chooses the block), on a file system without clusters whose counters
    are right, with a block bitmap whose searches are exact ([BitmapExact]: bit arrays; red-black
    trees, whose search for a clear bit fails on an empty tree, are not), over any channel that
    obeys [BlockIoLaws], with blocks of at most 4 MiB, a static buffer as an earlier call left it, a
    goal that is 0 or a data block, and a buffer of the caller, if any, of a block or more.  When a block is free,
    a free one is returned; every byte of it on the channel is 0, whether it was cleared with the
    buffer of the caller (which is left cleared) or by [ext2fs_zero_blocks2], and no other block of
    the channel has changed; it has become used and no other, and the counters of blocks are right
    again.  When none is free, nothing changes at all.  When clearing fails its code is returned,
    the block stays free, the counters right and the other blocks of the channel as they were. *)
Theorem alloc_block_spec rbb mem a goal block_buf (z : zero_state W) :
  blocks_ok a -> blocks_counted a -> 0 <= goal -> goal = 0 \/ s_first_data_block (fs_super a) <= goal ->
  fs_blocksize a = bs -> 0 < bs <= 4194304 -> static_ok bs z -> (forall buf, block_buf = Some buf -> bs <= zlen buf) ->
  let '(r, a', buf', z') := ext2fs_alloc_block3 None None None rbb mem a goal block_buf z in
  static_ok bs z' /\
  match r with
  | inr b =>
      s_first_data_block (fs_super a) <= b < ext2fs_blocks_count (fs_super a) /\ used (block_map a) b = false /\
      dev (z_io z') b = zero_block bs /\ (forall x, x <> b -> dev (z_io z') x = dev (z_io z) x) /\
      buf' = (fun buf => zero_block bs ++ drop (Z.to_nat bs) buf) <$> block_buf /\
      blocks_ok a' /\ blocks_counted a' /\
      forall m, s_first_data_block (fs_super a) <= m < ext2fs_blocks_count (fs_super a) ->
        used (block_map a') m = bool_decide (m = b) || used (block_map a) m
  | inl e =>
      (e = EXT2_ET_BLOCK_ALLOC_FAIL /\ a' = a /\ buf' = block_buf /\ z' = z /\
       forall b, s_first_data_block (fs_super a) <= b < ext2fs_blocks_count (fs_super a) -> used (block_map a) b = true) \/
      (exists b a1, e <> 0 /\ clear_new_block mem a1 b block_buf z = (e, buf', z') /\ used (block_map a) b = false /\
         forall x, x <> b -> dev (z_io z') x = dev (z_io z) x) /\
      blocks_ok a' /\ blocks_counted a' /\ block_map a' = block_map a
  end.
Proof using BlockIoLaws0 BitmapExact0.
  intros Hok Hbc H0 Hg Hbs Hbs' Hz Hbuf. unfold ext2fs_alloc_block3.
  replace (match block_map a with Bnull => rbb a | _ => (0, a) end) with (0, a) by (pose proof (ao_map _ Hok); by destruct (block_map a)).
  destruct (decide (0 <> 0)) as [|_]; [done|]. rewrite new_block_null by apply Hok.
  pose proof (new_block_search_spec a (block_map a) goal (ao_geom _ Hok) (or_introl (ao_cluster _ Hok)) (blocks_ok_map a Hok) H0 Hg) as HS.
  destruct (new_block_search a (block_map a) goal) as [e|b]; cbn [new_block_allocated].
  { destruct HS as [-> Hall]. rewrite decide_True by done. split; [done|]. by left. }
  destruct HS as [Hb Hu]. pose proof (clear_uninit_blocksize a (ext2fs_group_of_blk2 a b)) as HB.
  destruct (clear_uninit_keeps a (ext2fs_group_of_blk2 a b) Hok Hbc (group_of_blk_nonneg a b (ao_geom _ Hok))) as (K1 & K2 & K3 & K4).
  set (a1 := ext2fs_clear_block_uninit a _) in *. pose proof (ao_geom _ Hok) as [G1 G2 _ _ _ _].
  destruct (clear_new_block_spec mem a1 b block_buf z ltac:(congruence) Hbs' Hz ltac:(lia) Hbuf) as ([C1 C2] & C3 & C4).
  destruct (clear_new_block mem a1 b block_buf z) as [[r buf'] z'] eqn:E. cbn [fst snd] in *.
  assert (HF : forall x, x <> b -> dev (z_io z') x = dev (z_io z) x) by (intros x Hx; apply C2; lia).
  destruct (decide (r <> 0)) as [Hr|Hr]; (split; [done|]).
  - right. split_and!; [|done|done|done]. by exists b, a1.
  - apply dec_stable in Hr. destruct (block_stats_spec a1 b 1 K1 K2) as (R1 & R2 & R3 & _); [by rewrite K3|left; by rewrite K4|].
    split_and!; try done; try lia; [apply C1; [done|lia]|]. intros m Hmm. rewrite R3 by (by rewrite K3). rewrite K4.
    destruct (decide (m = b)) as [->|Hne]; [by rewrite (bool_decide_eq_true_2 (b = b))|by rewrite (bool_decide_eq_false_2 (m = b))].
Qed.

End search.
