(* ===== verification/AllocNewInode.v ===== *)
(** [ext2fs_new_inode]: the search ends, and finds a free inode when there is one. *)
From Stdlib Require Import ZArith Lia.
From stdpp Require Import base tactics numbers list sets.
From S2P Require Import Prelude ExtErr Bitops BitmapOps BitArray BitArrayProofs GenBitmap GenBitmapProofs.
From S2P Require Import Crc32c BlkNum BlkNumProofs Csum CsumProofs CsumGroup Alloc AllocProofs AllocInodes AllocSearch.

Section newinode.
Context {T : Type} `{!BitmapOps T} `{!BitmapLaws T} `{!BitmapExact T} `{!Checksum}.
Implicit Types (a : alloc_fs T) (h : generic_bitmap T).

(** A bitmap for the inodes [1 .. count]. *)
Record imap_ok (count : Z) h : Prop := {
  im_wf : gwf h;
  im_unit n : gunit h n = n;
  im_covers n : 1 <= n <= count -> gcovers h n
}.

(** Clearing a run of inodes. *)
Lemma unmark_inodes_spec count n : forall h ino,
  imap_ok count h -> 1 <= ino -> ino + Z.of_nat n - 1 <= count -> count < 2 ^ 32 - 1 ->
  let h' := unmark_inodes n h ino in
  imap_ok count h' /\ forall x, 1 <= x <= count -> used h' x = if decide (ino <= x < ino + Z.of_nat n) then false else used h x.
Proof.
  induction n as [|n IH]; intros h ino Hok H1 Hn Hc; cbn [unmark_inodes].
  - split; [done|]. intros x Hx. by rewrite decide_False by lia.
  - destruct Hok as [W U C]. destruct (flip_used h ino false W U (C ino ltac:(lia)) ltac:(pow2_norm; lia)) as (W1 & U1 & C1 & M1).
    set (h1 := (ext2fs_unmark_generic_bmap h ino).2) in *. rewrite u32_small by (unfold in_u; lia).
    destruct (IH h1 (ino + 1)) as [Hok' HU]; [split; [done|done|intros; apply C1, C; lia]|lia|lia|done|]. split; [done|].
    intros x Hx. rewrite HU, M1 by (done || apply C; lia). destruct (decide (ino + 1 <= x < ino + 1 + Z.of_nat n)); [by rewrite decide_True by lia|].
    destruct (decide (x = ino)) as [->|]; [by rewrite decide_True by lia|by rewrite decide_False by lia].
Qed.

(** The bitmap of inode [x]'s group was never written: its inodes are free, whatever the map says. *)
Definition uninit_inode a (x : Z) : Prop :=
  ext2fs_has_group_desc_csum a = true /\ ext2fs_bg_flags_test a ((x - 1) / s_inodes_per_group a) EXT2_BG_INODE_UNINIT <> 0.

Section walk.
Variables (count ipg groups first : Z).
Hypothesis Hipg : 0 < ipg.
Hypothesis Hcount : count = groups * ipg.
Hypothesis Hroom : count + ipg < 2 ^ 32 - 1.
Hypothesis Hfirst : 1 <= first <= count.

(** The state the loop runs in. *)
Definition istate a : Prop :=
  group_ok a /\ s_inodes_count a = count /\ s_inodes_per_group a = ipg /\ fs_group_desc_count a = groups /\ FIRST_INODE (fs_super a) = first.

(** The group of [i] was flagged and has been set up: its inodes, and no others, are free in the
    map, its two flags are down, and the descriptors of the other groups are as they were. *)
Record set_up a h (i : Z) a' h' : Prop := {
  su_uninit : uninit_inode a i;
  su_state : istate a';
  su_imap : imap_ok count h';
  su_maps : inode_map a' = inode_map a /\ block_map a' = block_map a;
  su_used x : 1 <= x <= count -> used h' x = if decide ((x - 1) / ipg = (i - 1) / ipg) then false else used h x;
  su_flags : ext2fs_bg_flags a' ((i - 1) / ipg) = Z.ldiff (ext2fs_bg_flags a ((i - 1) / ipg)) (Z.lor EXT2_BG_INODE_UNINIT EXT2_BG_BLOCK_UNINIT);
  su_rest f g : 0 <= g < groups -> g <> (i - 1) / ipg -> gfield_get f a' g = gfield_get f a g
}.

Lemma group_run g x : g * ipg + 1 <= x < g * ipg + 1 + ipg <-> (x - 1) / ipg = g.
Proof using Hipg.
  pose proof (Z.div_mod (x - 1) ipg ltac:(lia)). pose proof (Z.mod_pos_bound (x - 1) ipg ltac:(lia)).
  split; [intros ?; symmetry; apply Z.div_unique with (x - 1 - g * ipg); lia|intros <-; nia].
Qed.

(** [check_inode_uninit] sets up the group of an inode when it is flagged, and else does nothing. *)
Lemma check_uninit_spec a h i :
  istate a -> imap_ok count h -> 1 <= i <= count ->
  let '(a', h') := check_inode_uninit a h ((i - 1) / ipg) in a' = a /\ h' = h \/ set_up a h i a' h'.
Proof using Hipg Hcount Hroom Hfirst.
  intros (A1 & A2 & A3 & A4 & A5) Hok Hi. set (g := (i - 1) / ipg).
  pose proof (Z.div_mod (i - 1) ipg ltac:(lia)) as HD. pose proof (Z.mod_pos_bound (i - 1) ipg ltac:(lia)) as HM. fold g in HD.
  assert (Hg : 0 <= g < groups) by nia. unfold check_inode_uninit. destruct (bool_decide _ || _ || _) eqn:EG; [by left|]. right.
  rewrite !orb_false_iff, negb_false_iff, !bool_decide_eq_false in EG. destruct EG as [[_ E1] E2].
  rewrite A3, u32_small by (unfold in_u; nia).
  destruct (unmark_inodes_spec count (Z.to_nat ipg) h (g * ipg + 1) Hok ltac:(nia) ltac:(nia) ltac:(lia)) as [Hok' HU].
  assert (Hga : 0 <= g < fs_group_desc_count a) by (by rewrite A4).
  destruct (flags_clear_step a g EXT2_BG_INODE_UNINIT A1 Hga ltac:(unfold in_u, EXT2_BG_INODE_UNINIT; lia)) as (S1 & F1 & R1). set (c1 := set_fs a _) in *.
  assert (Hg1 : 0 <= g < fs_group_desc_count c1) by (by rewrite (ds_count _ _ S1)).
  destruct (flags_clear_step c1 g EXT2_BG_BLOCK_UNINIT (ds_ok _ _ S1) Hg1 ltac:(unfold in_u, EXT2_BG_BLOCK_UNINIT; lia)) as (S2 & F2 & R2). set (c2 := set_fs c1 _) in *.
  assert (Hg2 : 0 <= g < fs_group_desc_count c2) by (by rewrite (ds_count _ _ S2)).
  destruct (csum_step c2 g (ds_ok _ _ S2) Hg2) as (S3 & _ & R3). set (c3 := ext2fs_group_desc_csum_set c2 g) in *.
  assert (S : desc_same a c3) by eauto using desc_same_trans.
  assert (HR : forall f g', 0 <= g' < groups -> g' <> g -> gfield_get f c3 g' = gfield_get f a g').
  { intros f g' Hg' Hne. rewrite R3, R2, R1; try done; try (by right); by rewrite ?(ds_count _ _ S2), ?(ds_count _ _ S1), ?A4. }
  split; try done.
  - split; [done|]. rewrite A3. exact E2.
  - split_and!; try done.
    + apply (with_flags_ok c3), S.
    + exact (eq_trans (ds_count _ _ S) A4).
    + rewrite <- A5. exact (f_equal FIRST_INODE (ds_super _ _ S)).
  - intros x Hx. rewrite HU by done. rewrite Z2Nat.id by lia. fold g. pose proof (group_run g x). case_decide; case_decide; tauto.
  - transitivity (ext2fs_bg_flags c3 g); [done|]. transitivity (ext2fs_bg_flags c2 g); [apply (R3 Fflags g Hg2); by left|].
    rewrite F2, F1, Z.ldiff_ldiff_l. done.
  - intros f g' Hg' Hne. rewrite <- (HR f g' Hg' Hne). apply (with_flags_get c3).
Qed.

(** Where a turn of the loop searches to, and where the next one starts. *)
Lemma upto_spec start i :
  first <= start <= count -> first <= i <= count -> i <> start \/ True ->
  let u0 := u32 (i + (ipg - (i - 1) mod ipg)) in
  let u1 := if bool_decide (i < start) && bool_decide (u0 >= start) then u32 (start - 1) else u0 in
  let upto := if decide (u1 > count) then count else u1 in
  i <= upto <= count /\ (i < start -> upto < start).
Proof using Hipg Hroom Hfirst.
  intros Hs Hi _. cbv zeta. pose proof (Z.mod_pos_bound (i - 1) ipg ltac:(lia)). rewrite (u32_small (i + _)) by (unfold in_u; lia).
  destruct (decide (i < start)) as [H1|H1]; [rewrite (bool_decide_eq_true_2 (i < start)) by done|rewrite (bool_decide_eq_false_2 (i < start)) by done]; cbn [andb].
  - destruct (decide (i + (ipg - (i - 1) mod ipg) >= start)) as [H2|H2];
      [rewrite bool_decide_eq_true_2, u32_small by (done || unfold in_u; lia)|rewrite bool_decide_eq_false_2 by done]; case_decide; lia.
  - case_decide; lia.
Qed.

(** The inodes searched before [i], all of them in use. *)
Definition searched (start i x : Z) : Prop := if decide (start <= i) then start <= x < i else start <= x <= count \/ first <= x < i.

Definition remaining (start i : Z) : Z := if decide (start <= i) then (count - i + 1) + (start - first) else start - i.

Lemma new_inode_loop_spec start a h : first <= start <= count -> istate a -> imap_ok count h -> forall fuel i,
  first <= i <= count -> remaining start i < Z.of_nat fuel -> (forall x, searched start i x -> used h x = true) ->
  exists r a' h', new_inode_loop fuel a h start i = Some (inr r, a', h') /\ first <= r <= count /\
    (a' = a /\ h' = h /\ (used h r = false \/ forall x, first <= x <= count -> used h x = true) \/ set_up a h r a' h').
Proof using BitmapExact0 Hipg Hcount Hroom Hfirst.
  intros Hs Ha Hh. induction fuel as [|fuel IH]; intros i Hi Hr HS; [unfold remaining in Hr; case_decide; lia|].
  cbn [new_inode_loop]. pose proof Ha as (A1 & A2 & A3 & A4 & A5).
  rewrite A3, (u32_small (i - 1)) by (unfold in_u; lia). pose proof (check_uninit_spec a h i Ha Hh ltac:(lia)) as HC.
  destruct (check_inode_uninit a h ((i - 1) / ipg)) as [a1 h1].
  assert (H1 : istate a1 /\ imap_ok count h1) by (destruct HC as [[-> ->]|[]]; done). destruct H1 as [Ha1 Hh1].
  pose proof Ha1 as (B1 & B2 & B3 & B4 & B5). rewrite B2, B3, B5.
  pose proof (upto_spec start i Hs Hi ltac:(by right)) as HU. cbv zeta in HU. set (upto := if decide (_ > count) then count else _) in *.
  destruct HU as [HU1 HU2]. pose proof Hh1 as [W1 U1 C1].
  pose proof (find_zero_cases h1 i upto W1 ltac:(lia) ltac:(pow2_norm; lia) ltac:(rewrite U1; apply C1; lia) ltac:(rewrite U1; apply C1; lia)) as HF.
  assert (HI : set_up a h i a1 h1 -> used h1 i = false) by (intros S; rewrite (su_used _ _ _ _ _ S) by lia; by rewrite decide_True).
  destruct HF as [(x & -> & Hx & Hux & Hbefore)|(-> & Hall)].
  - exists x, a1, h1. split_and!; try done; try lia. destruct HC as [[-> ->]|S]; [left; auto|right].
    destruct (decide (x = i)) as [->|Hne]; [done|]. specialize (Hbefore i ltac:(lia)). rewrite (HI S) in Hbefore. done.
  - cbn [ENOENT]. destruct (decide (2 <> 2)) as [|_]; [done|]. rewrite (u32_small (upto + 1)) by (unfold in_u; lia).
    destruct HC as [[-> ->]|S]; [|specialize (Hall i ltac:(lia)); rewrite (HI S) in Hall; done].
    set (i' := if decide (upto + 1 > count) then first else upto + 1).
    assert (Hi' : first <= i' <= count) by (unfold i'; case_decide; lia).
    assert (HS' : i' <> start -> forall x, searched start i' x -> used h x = true).
    { intros Hne x Hx. destruct (decide (i <= x <= upto)) as [Hin|Hout]; [by apply (Hall x)|]. apply HS. unfold searched, i' in *.
      destruct (decide (start <= i)), (decide (upto + 1 > count)); repeat case_decide; lia. }
    destruct (decide (i' <> start)) as [Hne|Heq].
    + apply (IH i' Hi'); [|by apply HS']. unfold remaining, i' in *. destruct (decide (start <= i)), (decide (upto + 1 > count)); repeat case_decide; lia.
    + apply dec_stable in Heq. exists i', a, h. split_and!; try done; try lia. left. split_and!; [done|done|]. right. intros x Hx.
      destruct (decide (i <= x <= upto)) as [Hin|Hout]; [by apply (Hall x)|]. apply HS. unfold searched, i' in *.
      destruct (decide (start <= i)), (decide (upto + 1 > count)); lia.
Qed.

End walk.

Lemma inodes_ok_map a : inodes_ok a -> imap_ok (s_inodes_count a) (inode_map a).
Proof. intros Hok. split; apply Hok. Qed.

(** C35: [ext2fs_new_inode] with the inode bitmap of the file system, whose searches are exact
    ([BitmapExact]: bit arrays, not red-black trees), and groups full of inodes, always ends.  It returns an inode that is not reserved and either was free, and then nothing has
    changed, or lies in a group flagged INODE_UNINIT, and then exactly the inodes of that group have
    become free in the map, the group has lost its INODE_UNINIT and BLOCK_UNINIT flags and the
    descriptors of the other groups are as they were; no inode of an initialised group is ever
    freed.  Or it reports that there is none, nothing has changed, and every inode that is not
    reserved is in use (or the parent directory is not an inode of the file system). *)
Theorem new_inode_spec a dir :
  inodes_ok a -> s_inodes_count a + s_inodes_per_group a < 2 ^ 32 - 1 -> 1 <= FIRST_INODE (fs_super a) <= s_inodes_count a -> 0 <= dir < 2 ^ 32 ->
  exists r a', ext2fs_new_inode a dir None = Some (r, a', None) /\
    match r with
    | inr i => FIRST_INODE (fs_super a) <= i <= s_inodes_count a /\ used (inode_map a') i = false /\
        let g := (i - 1) / s_inodes_per_group a in
        (a' = a \/
         uninit_inode a i /\ block_map a' = block_map a /\
         (forall x, 1 <= x <= s_inodes_count a ->
            used (inode_map a') x = if decide ((x - 1) / s_inodes_per_group a = g) then false else used (inode_map a) x) /\
         ext2fs_bg_flags a' g = Z.ldiff (ext2fs_bg_flags a g) (Z.lor EXT2_BG_INODE_UNINIT EXT2_BG_BLOCK_UNINIT) /\
         forall f g', 0 <= g' < fs_group_desc_count a -> g' <> g -> gfield_get f a' g' = gfield_get f a g')
    | inl e => e = EXT2_ET_INODE_ALLOC_FAIL /\ a' = a /\
        (s_inodes_count a < dir \/ forall x, FIRST_INODE (fs_super a) <= x <= s_inodes_count a -> used (inode_map a) x = true)
    end.
Proof.
  intros Hok Hroom Hfirst Hdir. unfold ext2fs_new_inode. cbn [use_map]. set (count := s_inodes_count a) in *. set (first := FIRST_INODE (fs_super a)) in *.
  set (s0 := if decide (dir > 0) then _ else 0). set (start := if decide (s0 < first) then first else s0).
  pose proof (io_ipg _ Hok) as Hp. pose proof (io_count _ Hok) as Hc. fold count in Hc.
  assert (Hs0 : s0 <= dir).
  { unfold s0. case_decide; [|lia]. rewrite (u32_small (dir - 1)) by (unfold in_u; lia).
    pose proof (Z.mul_div_le (dir - 1) (s_inodes_per_group a) ltac:(lia)). pose proof (Z.div_pos (dir - 1) (s_inodes_per_group a) ltac:(lia) ltac:(lia)).
    rewrite u32_small by (unfold in_u; nia). nia. }
  pose proof (io_map _ Hok) as Hwf.
  assert (HE : ext2fs_new_inode a dir None =
    if decide (start > count) then Some (inl EXT2_ET_INODE_ALLOC_FAIL, a, None)
    else match new_inode_loop (new_inode_fuel a) a (inode_map a) start start with
         | None => None
         | Some (inl e, a1, m) => Some (inl e, set_inode_map m a1, None)
         | Some (inr i, a1, m) => if decide (ext2fs_test_generic_bmap m i <> 0) then Some (inl EXT2_ET_INODE_ALLOC_FAIL, set_inode_map m a1, None) else Some (inr i, set_inode_map m a1, None)
         end).
  { unfold ext2fs_new_inode. cbn [use_map]. fold s0 first start count. destruct (inode_map a) eqn:Em; try done; case_decide; try done;
      destruct (new_inode_loop _ _ _ _ _) as [[[[]]]|]; done. }
  unfold ext2fs_new_inode in HE. cbn [use_map] in HE. fold count first s0 start in HE. rewrite HE. clear HE.
  destruct (decide (start > count)) as [Hbig|Hle].
  - exists (inl EXT2_ET_INODE_ALLOC_FAIL), a. split_and!; [done|done|done|]. left. unfold start in Hbig. case_decide; lia.
  - assert (Hstart : first <= start <= count) by (unfold start in *; case_decide; lia).
    assert (Ha : istate count (s_inodes_per_group a) (fs_group_desc_count a) first a) by (split_and!; [apply Hok|done..]).
    pose proof (inodes_ok_map a Hok) as Hm.
    destruct (new_inode_loop_spec count (s_inodes_per_group a) (fs_group_desc_count a) first ltac:(lia) Hc ltac:(lia) Hfirst start a (inode_map a) Hstart Ha Hm
      (new_inode_fuel a) start) as (r & a1 & h' & -> & Hr & Hres).
    + done.
    + unfold remaining, new_inode_fuel. fold count. rewrite decide_True by lia. lia.
    + intros x Hx. unfold searched in Hx. rewrite decide_True in Hx by lia. lia.
    + assert (Hh' : imap_ok count h') by (destruct Hres as [(_ & -> & _)|[]]; done).
      pose proof (test_cases h' r (im_wf _ _ Hh') ltac:(pow2_norm; lia)) as HT. rewrite (im_unit _ _ Hh'), decide_True in HT by (apply Hh'; lia).
      assert (HU : used h' r = gmem h' r) by (unfold used; by rewrite (im_unit _ _ Hh')). rewrite <- HU in HT.
      assert (HN : set_inode_map (inode_map a) a = a) by (by destruct a).
      destruct Hres as [(-> & -> & Hcase)|S].
      * rewrite HN. destruct (decide (ext2fs_test_generic_bmap (inode_map a) r <> 0)) as [Ht|Ht].
        -- exists (inl EXT2_ET_INODE_ALLOC_FAIL), a. split_and!; [done|done|done|]. right. apply HT in Ht. destruct Hcase; [congruence|done].
        -- exists (inr r), a. split_and!; try done; try lia; [|by left]. destruct (used (inode_map a) r); [exfalso; apply Ht; by apply HT|done].
      * assert (HF : used h' r = false) by (rewrite (su_used _ _ _ _ _ _ _ _ _ S) by lia; by rewrite decide_True).
        rewrite decide_False by (rewrite HT, HF; done). exists (inr r), (set_inode_map h' a1). destruct S as [S1 S2 S3 [_ S4] S5 S6 S7].
        split_and!; try done; try lia. right. split_and!; done.
Qed.

End newinode.
