(* ===== verification/AllocNewRange.v ===== *)
(** Runs of blocks: [ext2fs_block_alloc_stats_range] keeps the counters; what [ext2fs_new_range]
    returns, when it returns at all, and that [ext2fs_alloc_range] allocates a run. *)
From Stdlib Require Import ZArith Lia.
From stdpp Require Import base tactics numbers list sets.
From S2P Require Import Prelude Crc32c ExtErr Bitops BitmapOps BitArray BitArrayProofs GenBitmap GenBitmapProofs BlkNum BlkNumProofs Csum CsumProofs.
From S2P Require Import CsumGroup Alloc AllocProofs AllocInodes AllocSearch.

(** * Counting *)

Lemma nclear_const P a n v : 0 <= n -> (forall x, a <= x < a + n -> P x = v) -> nclear P a n = if v then 0 else n.
Proof.
  intros Hn. revert P a v. pattern n. apply natlike_ind; [intros; rewrite nclear_nil by lia; by destruct v| |done].
  intros m Hm IH P a v HP. replace (Z.succ m) with (1 + m) by lia. rewrite nclear_app by lia. rewrite nclear_one, (IH P (a + 1) v) by (intros; apply HP; lia).
  rewrite HP by lia. destruct v; lia.
Qed.

(** Setting a run of bits that were all the other way. *)
Lemma nclear_run P Q (v : bool) b k a n :
  0 <= n -> 0 <= k -> a <= b -> b + k <= a + n -> (forall x, b <= x < b + k -> P x = negb v) ->
  (forall x, a <= x < a + n -> Q x = if decide (b <= x < b + k) then v else P x) ->
  nclear Q a n = nclear P a n + (if v then - k else k).
Proof.
  intros Hn Hk Ha Hb HP HQ. replace n with ((b - a) + (k + (a + n - b - k))) by lia. rewrite !nclear_app by lia. replace (a + (b - a)) with b by lia.
  rewrite (nclear_ext Q P a (b - a)) by (intros x Hx; rewrite HQ by lia; by rewrite decide_False by lia).
  rewrite (nclear_ext Q P (b + k)) by (intros x Hx; rewrite HQ by lia; by rewrite decide_False by lia).
  rewrite (nclear_const P b k (negb v)) by done. rewrite (nclear_const Q b k v) by (lia || (intros x Hx; rewrite HQ by lia; by rewrite decide_True by lia)).
  destruct v; cbn [negb]; lia.
Qed.

(** * Counters against a set of used blocks *)

Record cnt_ok (c : csum_fs) : Prop := {
  co_group : group_ok c;
  co_geom : geometry_ok c;
  co_cluster : fs_cluster_ratio_bits c = 0;
  co_bpg : s_blocks_per_group (fs_super c) < 2 ^ 16;
  co_total : ext2fs_blocks_count (fs_super c) < 2 ^ counter_bits (fs_super c)
}.

Record counted_by (Q : Z -> bool) (c : csum_fs) : Prop := {
  cb_group g : 0 <= g < fs_group_desc_count c ->
    ext2fs_bg_free_blocks_count c g = nclear Q (ext2fs_group_first_block2 c g) (ext2fs_group_blocks_count c g);
  cb_total : ext2fs_free_blocks_count (fs_super c) =
    nclear Q (s_first_data_block (fs_super c)) (ext2fs_blocks_count (fs_super c) - s_first_data_block (fs_super c))
}.

(** The same layout of groups. *)
Definition same_layout (c c' : filsys) : Prop :=
  s_first_data_block (fs_super c') = s_first_data_block (fs_super c) /\ ext2fs_blocks_count (fs_super c') = ext2fs_blocks_count (fs_super c) /\
  s_blocks_per_group (fs_super c') = s_blocks_per_group (fs_super c) /\ fs_group_desc_count c' = fs_group_desc_count c.

Section range.
Context {T : Type} `{!BitmapOps T} `{!BitmapLaws T} `{!Checksum}.
Implicit Types (a : alloc_fs T) (h : generic_bitmap T).

(** ** One group's part of the range *)

Definition range_desc (c : csum_fs) (g n inuse : Z) : csum_fs :=
  let c := stats_desc c g (u32 (ext2fs_bg_free_blocks_count c g - u64 (inuse * n) / Z.shiftl 1 (fs_cluster_ratio_bits c))) in
  with_super c (u64 (ext2fs_free_blocks_count (fs_super c) + u64 (- inuse * n))) (fs_flags c).

Lemma stats_range_step fuel a blk num inuse :
  num <> 0 ->
  let g := ext2fs_group_of_blk2 a blk in
  let n := if decide (u64 (blk + num) > ext2fs_group_last_block2 a g) then u64 (ext2fs_group_last_block2 a g - blk + 1) else num in
  stats_range_loop (S fuel) a blk num inuse = stats_range_loop fuel (set_cs a (range_desc a g n inuse)) (u64 (blk + n)) (u32 (num - n)) inuse.
Proof. intros Hn. cbv zeta. cbn [stats_range_loop]. rewrite decide_False by done. reflexivity. Qed.

Lemma total_change_n (x y : Z) (s : super_block) (inuse n : Z) :
  inuse = 1 \/ inuse = -1 -> ext2fs_free_blocks_count s = x -> y = x - inuse * n -> 0 <= x -> 0 <= y < 2 ^ counter_bits s ->
  ext2fs_free_blocks_count (ext2fs_free_blocks_count_set s (u64 (ext2fs_free_blocks_count s + u64 (- inuse * n)))) = y.
Proof.
  intros Hi Hx Hy H0 Hr. destruct (sb_counters_roundtrip s (u64 (ext2fs_free_blocks_count s + u64 (- inuse * n)))) as (_ & _ & -> & _).
  rewrite Hx. replace (u64 (x + u64 (- inuse * n))) with (u64 y).
  - unfold u64. assert (2 ^ counter_bits s <= 2 ^ 64) by (unfold counter_bits; destruct (has_feature_64bit s); pow2_norm; lia).
    rewrite (Z.mod_small y (2 ^ 64)) by lia. by apply Z.mod_small.
  - unfold u64. rewrite Zplus_mod_idemp_r. f_equal. lia.
Qed.

(** The 32-bit value stored: the code subtracts [inuse * n] as a 64-bit number. *)
Lemma group_change x inuse n :
  inuse = 1 \/ inuse = -1 -> 0 <= n < 2 ^ 32 -> in_u 16 (x - inuse * n) -> u32 (x - u64 (inuse * n) / Z.shiftl 1 0) = x - inuse * n.
Proof.
  intros Hi Hn Hr. change (Z.shiftl 1 0) with 1. rewrite Z.div_1_r. assert (HE : u32 (x - u64 (inuse * n)) = u32 (x - inuse * n)).
  { unfold u32, u64. rewrite Zminus_mod. change (2 ^ 64) with (2 ^ 32 * 2 ^ 32). rewrite Z.rem_mul_r, (Z.mul_comm (2 ^ 32) (_ mod _)), Z_mod_plus_full, Z.mod_mod by lia.
    by rewrite <- Zminus_mod. }
  rewrite HE. apply u32_small. unfold in_u in *. pow2_norm. lia.
Qed.

Lemma cnt_ok_super c c' v fl : cnt_ok c -> desc_same c c' -> cnt_ok (with_super c' v fl) /\ same_layout c (with_super c' v fl).
Proof.
  intros [A1 A2 A3 A4 A5] HS. destruct (same_geometry c c' v fl 0 HS) as (_ & _ & E1 & E2 & E3 & E4). split.
  - split; [apply with_super_ok, HS|by apply E4| |cbn; by rewrite (ds_super _ _ HS)|by rewrite E1, E3].
    cbn. destruct (ds_rest _ _ HS) as (_ & _ & ->). done.
  - split_and!; [done|done|cbn; by rewrite (ds_super _ _ HS)|apply (ds_count _ _ HS)].
Qed.

Lemma same_layout_groups c c' g b :
  same_layout c c' -> ext2fs_group_first_block2 c' g = ext2fs_group_first_block2 c g /\ ext2fs_group_blocks_count c' g = ext2fs_group_blocks_count c g /\
  ext2fs_group_last_block2 c' g = ext2fs_group_last_block2 c g /\ ext2fs_group_of_blk2 c' b = ext2fs_group_of_blk2 c b.
Proof.
  intros (L1 & L2 & L3 & L4). unfold ext2fs_group_blocks_count, ext2fs_group_last_block2, ext2fs_group_first_block2, ext2fs_group_of_blk2. by rewrite L1, L2, L3, L4.
Qed.

(** One turn: the counters now agree with the set that has the blocks of that turn too. *)
Lemma range_desc_spec P Q (v : bool) (c : csum_fs) blk n :
  let inuse := if v then 1 else -1 in
  let g := ext2fs_group_of_blk2 c blk in
  cnt_ok c -> counted_by P c -> s_first_data_block (fs_super c) <= blk -> 0 < n -> blk + n - 1 <= ext2fs_group_last_block2 c g ->
  blk < ext2fs_blocks_count (fs_super c) ->
  (forall x, blk <= x < blk + n -> P x = negb v) ->
  (forall x, s_first_data_block (fs_super c) <= x < ext2fs_blocks_count (fs_super c) -> Q x = if decide (blk <= x < blk + n) then v else P x) ->
  let c' := range_desc c g n inuse in
  cnt_ok c' /\ counted_by Q c' /\ same_layout c c'.
Proof.
  intros inuse g Hok Hc Hb Hn Hlast Hlt HP HQ. cbv zeta. pose proof (co_geom _ Hok) as HG. pose proof HG as [G1 G2 G3 G4 _ _].
  destruct (group_of_block c HG blk ltac:(lia)) as (Hg & Hin & Huniq & Hsz). fold g in Hg, Hin, Huniq, Hsz.
  destruct (group_range c g HG Hg) as (R1 & R2 & R3).
  set (x0 := ext2fs_bg_free_blocks_count c g) in *.
  assert (Hrun : nclear Q (ext2fs_group_first_block2 c g) (ext2fs_group_blocks_count c g) = x0 - inuse * n).
  { rewrite (nclear_run P Q v blk n) by (done || lia || (intros; apply HQ; lia)). unfold x0. rewrite (cb_group _ _ Hc) by done. unfold inuse. destruct v; lia. }
  assert (Hi : inuse = 1 \/ inuse = -1) by (unfold inuse; destruct v; lia).
  assert (Hx : in_u 16 (x0 - inuse * n)).
  { rewrite <- Hrun. pose proof (nclear_bounds Q (ext2fs_group_first_block2 c g) (ext2fs_group_blocks_count c g) ltac:(lia)). pose proof (co_bpg _ Hok). unfold in_u. lia. }
  assert (Hn32 : n < 2 ^ 32) by (pose proof (co_bpg _ Hok); pow2_norm; lia).
  unfold range_desc. fold x0. rewrite (co_cluster _ Hok), group_change by (done || lia).
  destruct (stats_desc_spec c g (x0 - inuse * n) (co_group _ Hok) Hg Hx) as (DS & _ & DF & _ & _). set (c1 := stats_desc c g _) in *.
  rewrite (ds_super _ _ DS). set (w := u64 (ext2fs_free_blocks_count (fs_super c) + _)). destruct (cnt_ok_super c c1 w (fs_flags c1) Hok DS) as [K1 K2].
  split_and!; [done| |done..]. split.
  - intros g' Hg'. assert (Hg'' : 0 <= g' < fs_group_desc_count c) by (by destruct K2 as (_ & _ & _ & <-)).
    destruct (same_layout_groups _ _ g' 0 K2) as (-> & -> & _ & _).
    change (ext2fs_bg_free_blocks_count (with_super c1 w (fs_flags c1)) g') with (gfield_get Ffree_blocks (with_super c1 w (fs_flags c1)) g').
    rewrite with_super_get. cbn [gfield_get]. rewrite DF by done. destruct (decide (g' = g)) as [->|Hne]; [done|]. rewrite (cb_group _ _ Hc) by done.
    destruct (group_range c g' HG Hg'') as (R1' & R2' & R3').
    apply nclear_ext. intros x Hx'. rewrite HQ by lia. rewrite decide_False; [done|]. intros Hxr. apply Hne.
    destruct (group_of_block c HG x ltac:(lia)) as (_ & _ & Hu & _).
    rewrite (Hu g Hg ltac:(lia)). apply Hu; [done|]. destruct (group_of_block c HG (ext2fs_group_first_block2 c g') ltac:(lia)) as (_ & Hf & _ & _).
    pose proof (last_block_val c HG g' Hg''). pose proof (first_block_val c HG g' Hg''). pose proof (blocks_count_val c HG g' Hg''). lia.
  - destruct K2 as (L1 & L2 & _ & _). rewrite L1, L2. cbn [with_super set_fs cs_fs fs_super]. rewrite (ds_super _ _ DS).
    pose proof (last_block_val c HG g Hg).
    pose proof (nclear_run P Q v blk n (s_first_data_block (fs_super c)) (ext2fs_blocks_count (fs_super c) - s_first_data_block (fs_super c))
      ltac:(lia) ltac:(lia) ltac:(lia) ltac:(lia) HP ltac:(intros; apply HQ; lia)) as HT.
    pose proof (nclear_bounds Q (s_first_data_block (fs_super c)) (ext2fs_blocks_count (fs_super c) - s_first_data_block (fs_super c)) ltac:(lia)).
    pose proof (nclear_bounds P (s_first_data_block (fs_super c)) (ext2fs_blocks_count (fs_super c) - s_first_data_block (fs_super c)) ltac:(lia)).
    pose proof (co_total _ Hok). eapply total_change_n; [done|apply (cb_total _ _ Hc)| |lia|lia]. rewrite HT. unfold inuse. destruct v; lia.
Qed.

(** ** The loop *)

(** [P] with the blocks [b0 .. x - 1] changed to [v]. *)
Definition changed_to (P : Z -> bool) (v : bool) (b0 x y : Z) : bool := if decide (b0 <= y < x) then v else P y.

Lemma same_layout_trans c1 c2 c3 : same_layout c1 c2 -> same_layout c2 c3 -> same_layout c1 c3.
Proof. unfold same_layout. intuition congruence. Qed.

Lemma stats_range_loop_spec P (v : bool) b0 fuel : forall a cur num,
  let inuse := if v then 1 else -1 in
  cnt_ok a -> counted_by (changed_to P v b0 cur) a -> s_first_data_block (fs_super a) <= cur -> b0 <= cur -> 0 <= num <= Z.of_nat fuel -> num < 2 ^ 32 ->
  cur + num <= ext2fs_blocks_count (fs_super a) -> (forall x, b0 <= x < cur + num -> P x = negb v) ->
  exists c', stats_range_loop fuel a cur num inuse = (set_cs a c', cur + num, 0) /\
    cnt_ok c' /\ counted_by (changed_to P v b0 (cur + num)) c' /\ same_layout a c'.
Proof.
  induction fuel as [|fuel IH]; intros a cur num inuse Hok Hc Hf Hb0 Hn H32 Htot HP.
  - assert (num = 0) as -> by lia. exists a. rewrite Z.add_0_r. split_and!; [by destruct a|done|done|done..].
  - destruct (decide (num = 0)) as [->|Hne].
    { exists a. cbn [stats_range_loop]. rewrite decide_True, Z.add_0_r by done. split_and!; [by destruct a|done|done|done..]. }
    pose proof (co_geom _ Hok) as HG. pose proof HG as [G1 G2 _ _ _ _]. destruct (group_of_block a HG cur ltac:(lia)) as (Hg & Hin & _ & _).
    rewrite stats_range_step by done. cbv zeta. set (g := ext2fs_group_of_blk2 a cur) in *. set (last := ext2fs_group_last_block2 a g) in *.
    pose proof (last_block_val a HG g Hg) as HLV. fold last in HLV.
    rewrite (u64_small (cur + num)), (u64_small (last - cur + 1)) by (unfold in_u; lia).
    set (n := if decide (cur + num > last) then last - cur + 1 else num).
    assert (Hn' : 0 < n <= num /\ cur + n - 1 <= last) by (unfold n; case_decide; lia). destruct Hn' as [Hn1 Hn2].
    rewrite (u64_small (cur + n)), (u32_small (num - n)) by (unfold in_u; lia).
    destruct (range_desc_spec (changed_to P v b0 cur) (changed_to P v b0 (cur + n)) v a cur n Hok Hc Hf ltac:(lia) Hn2 ltac:(lia)) as (K1 & K2 & K3).
    { intros x Hx. unfold changed_to. rewrite decide_False by lia. apply HP. lia. }
    { intros x Hx. unfold changed_to. repeat case_decide; done || lia. }
    fold g in K1, K2, K3. fold inuse in K1, K2, K3. set (c1 := range_desc a g n inuse) in *. pose proof K3 as (L1 & L2 & _ & _).
    destruct (IH (set_cs a c1) (cur + n) (num - n)) as (c' & E & R1 & R2 & R3); cbn [a_cs set_cs]; rewrite ?L1, ?L2; try done; try lia.
    { intros x Hx. apply HP. lia. }
    exists c'. replace (cur + n + (num - n)) with (cur + num) in * by lia. unfold inuse. rewrite E. split_and!; [done|done|done|by eapply same_layout_trans..].
Qed.

Lemma blocks_ok_cnt a : blocks_ok a -> cnt_ok a.
Proof. intros []. by split. Qed.

Lemma counted_iff a : blocks_counted a <-> counted_by (used (block_map a)) a.
Proof. split; intros [H1 H2]; by split. Qed.

Lemma counted_ext P Q (c : csum_fs) :
  geometry_ok c -> (forall x, s_first_data_block (fs_super c) <= x < ext2fs_blocks_count (fs_super c) -> P x = Q x) -> counted_by P c -> counted_by Q c.
Proof.
  intros HG HE [H1 H2]. split.
  - intros g Hg. destruct (group_range c g HG Hg) as (R1 & R2 & R3). rewrite H1 by done. apply nclear_ext. intros x Hx. apply HE. lia.
  - rewrite H2. apply nclear_ext. intros x Hx. apply HE. lia.
Qed.

(** The bitmap after a change of a run. *)
Lemma range_map h (v : bool) blk num :
  gwf h -> (forall n, gunit h n = n) -> 0 <= blk -> 0 < num < 2 ^ 31 -> blk + num + 2 ^ 32 < 2 ^ 64 -> (forall x, blk <= x < blk + num -> gcovers h x) ->
  let h' := if v then ext2fs_mark_block_bitmap_range2 h blk num else ext2fs_unmark_block_bitmap_range2 h blk num in
  gwf h' /\ (forall n, gunit h' n = n) /\ (forall u, gcovers h' u <-> gcovers h u) /\
  forall x, gcovers h x -> used h' x = changed_to (used h) v blk (blk + num) x.
Proof.
  intros Hwf Hu H0 Hn Hlim Hc. cbv zeta. assert (Hrc : range_covered h blk num) by (intros x Hx; rewrite Hu; by apply Hc).
  assert (HR : range_set v h (if v then ext2fs_mark_block_bitmap_range2 h blk num else ext2fs_unmark_block_bitmap_range2 h blk num) blk num).
  { destruct v; [by apply mark_range_cases|by apply unmark_range_cases]. }
  set (h' := if v then _ else _) in *. destruct HR as (W & U & C & M1 & M2). split_and!; [done|intros; by rewrite U|done|].
  intros x Hx. unfold used, changed_to. rewrite U, Hu. destruct (decide (blk <= x < blk + num)) as [Hin|Hout].
  - apply M1; [done|]. exists x. by rewrite Hu.
  - rewrite M2; [done|done|]. intros (y & Hy & Hyx). rewrite Hu in Hyx. lia.
Qed.

Lemma block_stats_range_spec a blk num inuse (v : bool) :
  blocks_ok a -> blocks_counted a -> s_first_data_block (fs_super a) <= blk -> 0 < num < 2 ^ 31 -> blk + num <= ext2fs_blocks_count (fs_super a) ->
  inuse <> 0 -> v = bool_decide (0 < inuse) -> (forall x, blk <= x < blk + num -> used (block_map a) x = negb v) ->
  let a' := ext2fs_block_alloc_stats_range None a blk num inuse in
  blocks_ok a' /\ blocks_counted a' /\
  forall x, s_first_data_block (fs_super a) <= x < ext2fs_blocks_count (fs_super a) ->
    used (block_map a') x = if decide (blk <= x < blk + num) then v else used (block_map a) x.
Proof.
  intros Hok Hbc Hf Hn Htot Hi Hv HP. cbv zeta. pose proof (ao_geom _ Hok) as HG. pose proof HG as [G1 G2 _ _ _ _]. unfold ext2fs_block_alloc_stats_range.
  rewrite u64_small by (unfold in_u; lia). destruct (decide (blk + num > _)) as [|_]; [lia|]. destruct (decide (inuse = 0)) as [|_]; [done|].
  set (h' := if v then ext2fs_mark_block_bitmap_range2 (block_map a) blk num else ext2fs_unmark_block_bitmap_range2 (block_map a) blk num).
  replace (if decide (inuse > 0) then (ext2fs_mark_block_bitmap_range2 (block_map a) blk num, 1) else (ext2fs_unmark_block_bitmap_range2 (block_map a) blk num, -1))
    with (h', if v then 1 else -1).
  2: { unfold h'. rewrite Hv. destruct (decide (inuse > 0)); [by rewrite bool_decide_eq_true_2 by lia|by rewrite bool_decide_eq_false_2 by lia]. }
  destruct (range_map (block_map a) v blk num (ao_map _ Hok) (ao_unit _ Hok) ltac:(lia) Hn ltac:(lia)) as (M1 & M2 & M3 & M4).
  { intros x Hx. apply (ao_covers _ Hok). lia. }
  fold h' in M1, M2, M3, M4.
  destruct (stats_range_loop_spec (used (block_map a)) v blk (Z.to_nat num) (set_block_map h' a) blk num) as (c' & E & K1 & K2 & K3); cbn [a_cs set_block_map]; try done; try lia.
  - by apply blocks_ok_cnt.
  - apply counted_iff in Hbc. eapply counted_ext; [done| |exact Hbc]. intros x _. unfold changed_to. by rewrite decide_False by lia.
  - rewrite E. pose proof K3 as (L1 & L2 & L3 & L4). cbn [a_cs set_block_map] in L1, L2, L3, L4. destruct K1 as [C1 C2 C3 C4 C5]. split_and!.
    + split; cbn; try done; [apply (with_flags_ok c' (Z.lor (Z.lor (fs_flags c') 6) 34)), C1|by destruct C2|]. intros x Hx. apply M3, (ao_covers _ Hok). rewrite <- L1, <- L2. exact Hx.
    + apply counted_iff. cbn [block_map]. change (block_map _) with h' at 1. destruct K2 as [Q1 Q2]. cbn [a_cs set_block_map] in Q1, Q2.
      assert (HC : counted_by (used h') c').
      { eapply counted_ext; [done| |split; [exact Q1|exact Q2]]. intros x Hx. symmetry. apply M4, (ao_covers _ Hok). by rewrite <- L1, <- L2. }
      destruct HC as [H1 H2]. split; [exact H1|exact H2].
    + intros x Hx. cbn. apply M4, (ao_covers _ Hok). done.
Qed.

(** [ext2fs_block_alloc_stats_range], on a run of blocks that are all free or all used, over any
    number of groups, flips exactly these blocks and keeps the counters of all groups and of the
    superblock equal to the numbers of clear bits. *)
Theorem block_stats_range_counts a blk num inuse (v : bool) :
  blocks_ok a -> blocks_counted a -> s_first_data_block (fs_super a) <= blk -> 0 < num < 2 ^ 31 -> blk + num <= ext2fs_blocks_count (fs_super a) ->
  inuse <> 0 -> v = bool_decide (0 < inuse) -> (forall x, blk <= x < blk + num -> used (block_map a) x = negb v) ->
  let a' := ext2fs_block_alloc_stats_range None a blk num inuse in
  blocks_ok a' /\ blocks_counted a' /\
  forall x, s_first_data_block (fs_super a) <= x < ext2fs_blocks_count (fs_super a) ->
    used (block_map a') x = if decide (blk <= x < blk + num) then v else used (block_map a) x.
Proof. apply block_stats_range_spec. Qed.

End range.

Section new_range.
Context {T : Type} `{!BitmapOps T} `{!BitmapLaws T} `{!BitmapExact T} `{!Checksum}.
Implicit Types (a : alloc_fs T) (h : generic_bitmap T).

(** A free run. *)
Definition free_run h (s n : Z) : Prop := forall x, s <= x < s + n -> used h x = false.

Section loop.
Variables (a : alloc_fs T) (h : generic_bitmap T) (flags goal len : Z).
Hypothesis Hgeom : geometry_ok a.
Hypothesis Hmap : map_covers a h.
Hypothesis Hlen : 0 < len < 2 ^ 32.
Abbreviation first := (s_first_data_block (fs_super a)).
Abbreviation total := (ext2fs_blocks_count (fs_super a)).
Abbreviation fixed := (bool_decide (Z.land flags NEWRANGE_FIXED_GOAL <> 0)).
Abbreviation any := (bool_decide (Z.land flags NEWRANGE_MIN_LENGTH = 0)).
Abbreviation loop fuel := (new_range_loop fuel a h flags goal len).
Abbreviation FAIL := (Some (inl EXT2_ET_BLOCK_ALLOC_FAIL)).

(** The run the loop looks at from [start] on: it begins at the first free block, and ends at a
    used one, at [len] blocks, or at the end. *)
Definition next_run (start s e : Z) : Prop :=
  start <= s < e /\ e <= total /\ e <= s + len /\ (forall x, start <= x < s -> used h x = true) /\ free_run h s (e - s) /\
  (e = s + len \/ e = total \/ used h e = true).

Definition after_run (fuel : nat) (looped : bool) (s e : Z) : option (Z + Z * Z) :=
  if fixed && bool_decide (s <> goal) then FAIL
  else if any || bool_decide (e - s >= len) then Some (inr (s, e - s))
  else if fixed then FAIL
  else if decide (e >= total) then if looped then FAIL else loop fuel true first
  else loop fuel looped e.

Lemma range_step fuel looped start :
  first <= start < total -> looped = false \/ start <= goal ->
  ((forall x, start <= x < total -> used h x = true) /\
   loop (S fuel) looped start = if fixed || bool_decide (start = first) then FAIL else loop fuel looped first) \/
  exists s e, next_run start s e /\ loop (S fuel) looped start = after_run fuel looped s e.
Proof using Hgeom Hmap Hlen BitmapExact0.
  intros Hst Hl. pose proof Hgeom as [G1 G2 _ _ _ _]. destruct Hmap as [Hwf Hcov]. cbn [new_range_loop].
  assert (Hg : looped && negb (bool_decide (start <= goal)) = false).
  { destruct Hl as [->|Hl]; [done|]. rewrite (bool_decide_eq_true_2 (start <= goal)) by done. by rewrite andb_false_r. }
  rewrite Hg, (u64_small (total - 1)) by (unfold in_u; lia).
  destruct (find_zero_cases h start (total - 1) Hwf ltac:(lia) ltac:(lia) ltac:(apply Hcov; lia) ltac:(apply Hcov; lia)) as [(s & -> & Hs & Hu & Hbefore)|(-> & Hall)].
  2: { left. split; [intros x Hx; apply Hall; lia|]. by rewrite decide_True. }
  right. cbn [negb] in Hbefore. rewrite (u64_small (s + len - 1)) by (unfold in_u; pow2_norm; lia).
  set (b := if decide (s + len - 1 < total - 1) then s + len - 1 else total - 1).
  assert (Hb : s <= b < total /\ b < s + len /\ (b + 1 = s + len \/ b + 1 = total)) by (unfold b; destruct (decide (s + len - 1 < total - 1)); lia).
  pose proof (find_set_cases h s b Hwf ltac:(lia) ltac:(lia) ltac:(apply Hcov; lia) ltac:(apply Hcov; lia)) as HF.
  change (first_in (used h) true s b (ext2fs_find_first_set_generic_bmap h s b)) in HF. destruct HF as [(e & -> & He & Hue & Hfree)|(-> & Hfree)].
  - exists s, e. assert (Hse : s <> e) by congruence. cbn [negb] in Hfree. rewrite (u64_small (e - s)) by (unfold in_u; lia). split; [|done].
    split_and!; try done; try lia; [intros x Hx; apply Hfree; lia|auto].
  - exists s, (b + 1). rewrite (decide_True (P := ENOENT = ENOENT)) by done. rewrite (u64_small (b + 1)) by (unfold in_u; lia).
    cbv beta iota delta [ENOENT]. rewrite (u64_small (b + 1 - s)) by (unfold in_u; lia).
    split; [|done]. split_and!; try done; try lia. intros x Hx; apply Hfree; lia.
Qed.

(** ** A run of the length wanted exists *)

Definition wanted (s : Z) : Prop := first <= s /\ s + len <= total /\ free_run h s len.

Lemma run_success start s e : first <= start -> next_run start s e -> e - s >= len -> wanted s /\ e - s = len.
Proof using Hlen. intros Hf (R1 & R2 & R3 & _ & R5 & _) He. assert (E : e - s = len) by lia. rewrite E in R5. split; [split_and!; [lia..|done]|done]. Qed.

(** The loop does not pass a run. *)
Lemma run_stops_before start s e r : next_run start s e -> wanted r -> start <= r -> s <= r /\ (e - s < len -> e < r).
Proof using Hlen.
  intros (R1 & R2 & R3 & R4 & R5 & R6) (W1 & W2 & W3) Hr.
  assert (s <= r). { destruct (decide (r < s)); [|lia]. pose proof (R4 r ltac:(lia)). pose proof (W3 r ltac:(lia)). congruence. }
  split; [done|]. intros He. destruct (decide (r <= e)); [|lia]. destruct R6 as [|[|R6]]; [lia|lia|]. pose proof (W3 e ltac:(lia)). congruence.
Qed.

Lemma seek_run r : fixed = false -> any = false -> wanted r ->
  forall fuel looped start, first <= start <= r -> looped = false \/ r <= goal -> total - start < Z.of_nat fuel ->
  exists s, loop fuel looped start = Some (inr (s, len)) /\ wanted s.
Proof using Hgeom Hmap Hlen BitmapExact0.
  intros Hfix Hany Hr. induction fuel as [|fuel IH]; intros looped start Hst Hl Hfu.
  { destruct Hr as (_ & ? & _). lia. }
  destruct (range_step fuel looped start) as [[Hall _]|(s & e & HN & ->)].
  - destruct Hr as (_ & ? & _). lia.
  - destruct Hl; [by left|right; lia].
  - destruct Hr as (W1 & W2 & W3). pose proof (Hall r ltac:(lia)). pose proof (W3 r ltac:(lia)). congruence.
  - unfold after_run. rewrite Hfix, Hany. cbn [andb orb]. destruct (run_stops_before _ _ _ _ HN Hr (proj2 Hst)) as [Hsr Hlt].
    destruct (decide (e - s >= len)) as [He|He].
    + rewrite (bool_decide_eq_true_2 (e - s >= len)) by done. destruct (run_success _ _ _ (proj1 Hst) HN He) as [HW ->]. eauto.
    + rewrite (bool_decide_eq_false_2 (e - s >= len)) by done. pose proof HN as (? & _). specialize (Hlt ltac:(lia)). pose proof Hr as (_ & ? & _).
      rewrite decide_False by lia. apply IH; [lia|done|lia].
Qed.

Lemma seek_wrap r : fixed = false -> any = false -> wanted r -> r <= goal ->
  forall fuel start, first <= start < total -> (total - start) + (total - first) + 1 < Z.of_nat fuel ->
  exists s, loop fuel false start = Some (inr (s, len)) /\ wanted s.
Proof using Hgeom Hmap Hlen BitmapExact0.
  intros Hfix Hany Hr Hg. induction fuel as [|fuel IH]; intros start Hst Hfu; [lia|]. pose proof Hr as (W1 & W2 & W3).
  destruct (range_step fuel false start) as [[Hall ->]|(s & e & HN & ->)]; [done|by left| |].
  - rewrite Hfix. cbn [orb]. destruct (decide (start = first)) as [->|Hne].
    { pose proof (Hall r ltac:(lia)). pose proof (W3 r ltac:(lia)). congruence. }
    rewrite bool_decide_eq_false_2 by done. apply (seek_run r Hfix Hany Hr); [lia|by left|lia].
  - unfold after_run. rewrite Hfix, Hany. cbn [andb orb]. pose proof HN as (R1 & R2 & _). destruct (decide (e - s >= len)) as [He|He].
    + rewrite (bool_decide_eq_true_2 (e - s >= len)) by done. destruct (run_success _ _ _ (proj1 Hst) HN He) as [HW ->]. eauto.
    + rewrite (bool_decide_eq_false_2 (e - s >= len)) by done. destruct (decide (e >= total)) as [|Hlt].
      * apply (seek_run r Hfix Hany Hr); [lia|by right|lia].
      * apply IH; lia.
Qed.

(** ** No such run *)

Hypothesis no_run : forall s, ~ wanted s.

Lemma run_short start s e : first <= start -> next_run start s e -> e - s < len.
Proof using Hlen no_run. intros Hf HN. destruct (decide (e - s >= len)); [|lia]. by destruct (no_run s (proj1 (run_success _ _ _ Hf HN ltac:(done)))). Qed.

(** With the last block in use and a free block somewhere, the loop goes round for ever. *)
Lemma loop_for_ever z : fixed = false -> any = false -> used h (total - 1) = true -> first <= z < total -> used h z = false ->
  forall fuel start, first <= start < total -> loop fuel false start = None.
Proof using Hgeom Hmap Hlen BitmapExact0 no_run.
  intros Hfix Hany Hlast Hz Hzu. induction fuel as [|fuel IH]; intros start Hst; [done|].
  destruct (range_step fuel false start) as [[Hall ->]|(s & e & HN & ->)]; [done|by left| |].
  - rewrite Hfix. cbn [orb]. destruct (decide (start = first)) as [->|Hne]; [rewrite Hall in Hzu by lia; done|].
    rewrite bool_decide_eq_false_2 by done. apply IH. lia.
  - unfold after_run. rewrite Hfix, Hany. cbn [andb orb]. pose proof (run_short _ _ _ (proj1 Hst) HN). rewrite (bool_decide_eq_false_2 (e - s >= len)) by lia.
    destruct HN as (R1 & R2 & _ & _ & R5 & _). destruct (decide (e >= total)); [|apply IH; lia]. rewrite (R5 (total - 1)) in Hlast by lia. done.
Qed.

Lemma loop_fails_looped : fixed = false -> any = false -> used h (total - 1) = false ->
  forall fuel start, first <= start < total -> total - start < Z.of_nat fuel -> loop fuel true start = FAIL.
Proof using Hgeom Hmap Hlen BitmapExact0 no_run.
  intros Hfix Hany Hlast. induction fuel as [|fuel IH]; intros start Hst Hfu; [lia|].
  destruct (decide (start <= goal)) as [Hg|Hg].
  2: { cbn [new_range_loop]. by rewrite bool_decide_eq_false_2. }
  destruct (range_step fuel true start) as [[Hall _]|(s & e & HN & ->)]; [done|by right|rewrite Hall in Hlast by lia; done|].
  unfold after_run. rewrite Hfix, Hany. cbn [andb orb]. pose proof (run_short _ _ _ (proj1 Hst) HN). rewrite (bool_decide_eq_false_2 (e - s >= len)) by lia.
  destruct HN as (R1 & R2 & _). destruct (decide (e >= total)); [done|]. apply IH; lia.
Qed.

Lemma loop_fails : fixed = false -> any = false -> used h (total - 1) = false ->
  forall fuel start, first <= start < total -> (total - start) + (total - first) + 1 < Z.of_nat fuel -> loop fuel false start = FAIL.
Proof using Hgeom Hmap Hlen BitmapExact0 no_run.
  intros Hfix Hany Hlast. induction fuel as [|fuel IH]; intros start Hst Hfu; [lia|].
  destruct (range_step fuel false start) as [[Hall _]|(s & e & HN & ->)]; [done|by left|rewrite Hall in Hlast by lia; done|].
  unfold after_run. rewrite Hfix, Hany. cbn [andb orb]. pose proof (run_short _ _ _ (proj1 Hst) HN). rewrite (bool_decide_eq_false_2 (e - s >= len)) by lia.
  destruct HN as (R1 & R2 & _). destruct (decide (e >= total)); [apply loop_fails_looped; try done; lia|apply IH; lia].
Qed.

End loop.

(** ** [ext2fs_new_range] *)

Abbreviation ffirst a := (s_first_data_block (fs_super a)).
Abbreviation ftotal a := (ext2fs_blocks_count (fs_super a)).

(** Where the search starts. *)
Definition goal_block a goal : Z := if bool_decide (goal = 0) || bool_decide (goal >= ftotal a) then ffirst a else goal.

Lemma goal_block_range a goal : geometry_ok a -> goal = 0 \/ ffirst a <= goal -> ffirst a <= goal_block a goal < ftotal a.
Proof using.
  intros [G1 _ _ _ _ _] Hg. unfold goal_block. destruct (bool_decide (goal = 0) || bool_decide (goal >= ftotal a)) eqn:E; [lia|].
  rewrite orb_false_iff, !bool_decide_eq_false in E. lia.
Qed.

Definition is_fixed (flags : Z) : bool := bool_decide (Z.land flags NEWRANGE_FIXED_GOAL <> 0).
Definition any_length (flags : Z) : bool := bool_decide (Z.land flags NEWRANGE_MIN_LENGTH = 0).

(** What the search promises, for a code and for a run. *)
Definition range_result a h (flags goal len : Z) (r : Z + Z * Z) : Prop :=
  match r with
  | inr (s, p) =>
      ffirst a <= s /\ s + p <= ftotal a /\ 0 < p <= len /\ free_run h s p /\
      (any_length flags = false -> p = len) /\ (is_fixed flags = true -> s = goal_block a goal)
  | inl e =>
      e = EXT2_ET_BLOCK_ALLOC_FAIL /\
      if is_fixed flags
      then ~ (goal_block a goal + (if any_length flags then 1 else len) <= ftotal a /\ free_run h (goal_block a goal) (if any_length flags then 1 else len))
      else if any_length flags then forall x, ffirst a <= x < ftotal a -> used h x = true
      else forall s, ~ wanted a h len s
  end.

(** The cases in which it returns. *)
Definition range_ends a h (flags len : Z) : Prop :=
  is_fixed flags = true \/ any_length flags = true \/ (exists s, wanted a h len s) \/
  used h (ftotal a - 1) = false \/ forall x, ffirst a <= x < ftotal a -> used h x = true.

Section loop_results.
Variables (a : alloc_fs T) (h : generic_bitmap T) (flags goal len : Z).
Hypothesis Hgeom : geometry_ok a.
Hypothesis Hmap : map_covers a h.
Hypothesis Hlen : 0 < len < 2 ^ 32.
Hypothesis Hgoal : goal = 0 \/ ffirst a <= goal.
Abbreviation g := (goal_block a goal).
Abbreviation loop fuel := (new_range_loop fuel a h flags g len).

Lemma run_result s e : next_run a h len g s e -> any_length flags = true \/ e - s >= len -> (is_fixed flags = true -> s = g) ->
  range_result a h flags goal len (inr (s, e - s)).
Proof using Hgeom Hgoal Hlen.
  intros (R1 & R2 & R3 & R4 & R5 & R6) He Hs. pose proof (goal_block_range a goal Hgeom Hgoal).
  split_and!; try done; try lia. intros Ha. rewrite Ha in He. destruct He; [done|lia].
Qed.

Lemma loop_fixed fuel : is_fixed flags = true -> exists r, loop (S fuel) false g = Some r /\ range_result a h flags goal len r.
Proof using Hgeom Hmap Hlen Hgoal BitmapExact0.
  intros Hfix. pose proof (goal_block_range a goal Hgeom Hgoal) as Hg.
  destruct (range_step a h flags g len Hgeom Hmap Hlen fuel false g Hg (or_introl eq_refl)) as [[Hall ->]|(s & e & HN & ->)].
  - fold (is_fixed flags). rewrite Hfix. cbn [orb]. eexists. split; [done|]. split; [done|]. rewrite Hfix. intros [H1 H2].
    specialize (Hall g ltac:(lia)). pose proof (H2 g ltac:(destruct (any_length flags); lia)). congruence.
  - unfold after_run. fold (is_fixed flags) (any_length flags). rewrite Hfix. cbn [andb]. pose proof HN as (R1 & R2 & R3 & R4 & R5 & R6).
    destruct (decide (s = g)) as [Hs|Hs].
    + rewrite bool_decide_eq_false_2 by tauto. destruct (any_length flags || bool_decide (e - s >= len)) eqn:E.
      * eexists. split; [done|]. apply run_result; [done| |done]. rewrite orb_true_iff, bool_decide_eq_true in E. done.
      * rewrite orb_false_iff, bool_decide_eq_false in E. destruct E as [E1 E2]. eexists. split; [done|]. split; [done|]. rewrite Hfix, E1.
        intros [H1 H2]. destruct R6 as [|[|R6]]; [lia|lia|]. rewrite (H2 e) in R6 by lia. done.
    + rewrite bool_decide_eq_true_2 by done. eexists. split; [done|]. split; [done|]. rewrite Hfix. intros [H1 H2].
      pose proof (R4 g ltac:(lia)). pose proof (H2 g ltac:(destruct (any_length flags); lia)). congruence.
Qed.

Lemma loop_any fuel : is_fixed flags = false -> any_length flags = true -> exists r, loop (S (S fuel)) false g = Some r /\ range_result a h flags goal len r.
Proof using Hgeom Hmap Hlen Hgoal BitmapExact0.
  intros Hfix Hany. pose proof (goal_block_range a goal Hgeom Hgoal) as Hg.
  assert (HF : forall f start, ffirst a <= start < ftotal a ->
    (exists r, loop (S f) false start = Some r /\ range_result a h flags goal len r) \/
    (start <> ffirst a /\ loop (S f) false start = loop f false (ffirst a))).
  { intros f start Hst. destruct (range_step a h flags g len Hgeom Hmap Hlen f false start Hst (or_introl eq_refl)) as [[Hall ->]|(s & e & HN & ->)].
    - fold (is_fixed flags). rewrite Hfix. cbn [orb]. destruct (decide (start = ffirst a)) as [->|Hne].
      + rewrite bool_decide_eq_true_2 by done. left. eexists. split; [done|]. split; [done|]. by rewrite Hfix, Hany.
      + rewrite bool_decide_eq_false_2 by done. by right.
    - unfold after_run. fold (is_fixed flags) (any_length flags). rewrite Hfix, Hany. cbn [andb orb]. left. eexists. split; [done|].
      destruct HN as (R1 & R2 & R3 & R4 & R5 & R6). split_and!; try done; try lia; rewrite ?Hfix, ?Hany; done. }
  destruct (HF (S fuel) g Hg) as [|[_ ->]]; [done|]. destruct (HF fuel (ffirst a) ltac:(lia)) as [|[? _]]; done.
Qed.

Lemma loop_all_used fuel : is_fixed flags = false -> (forall x, ffirst a <= x < ftotal a -> used h x = true) ->
  loop (S (S fuel)) false g = Some (inl EXT2_ET_BLOCK_ALLOC_FAIL).
Proof using Hgeom Hmap Hlen Hgoal BitmapExact0.
  intros Hfix Hall. pose proof (goal_block_range a goal Hgeom Hgoal) as Hg.
  assert (HS : forall f start, ffirst a <= start < ftotal a -> loop (S f) false start =
    if bool_decide (start = ffirst a) then Some (inl EXT2_ET_BLOCK_ALLOC_FAIL) else loop f false (ffirst a)).
  { intros f start Hst. destruct (range_step a h flags g len Hgeom Hmap Hlen f false start Hst (or_introl eq_refl)) as [[_ ->]|(s & e & (R1 & R2 & _ & _ & R5 & _) & _)].
    - fold (is_fixed flags). by rewrite Hfix.
    - pose proof (R5 s ltac:(lia)) as HR. rewrite Hall in HR by lia. done. }
  rewrite HS by done. case_bool_decide; [done|]. rewrite HS by lia. by rewrite bool_decide_eq_true_2.
Qed.

Lemma wanted_dec : (exists s, wanted a h len s) \/ forall s, ~ wanted a h len s.
Proof using Hlen.
  destruct (decide (Exists (fun s => s + len <= ftotal a /\ Forall (fun x => used h x = false) (seqZ s len)) (seqZ (ffirst a) (ftotal a - ffirst a + 1)))) as [He|Hn].
  - left. apply Exists_exists in He as (s & H1%elem_of_seqZ & H2 & H3). rewrite Forall_forall in H3. exists s. split_and!; [lia|lia|].
    intros x Hx. apply H3, elem_of_seqZ. lia.
  - right. intros s (W1 & W2 & W3). apply Hn, Exists_exists. exists s. rewrite elem_of_seqZ, Forall_forall. split_and!; [lia|lia|lia|intros x Hx%elem_of_seqZ; by apply W3].
Qed.

Lemma loop_min fuel : is_fixed flags = false -> any_length flags = false -> range_ends a h flags len -> 2 * (ftotal a - ffirst a) + 2 <= Z.of_nat fuel ->
  exists r, loop fuel false g = Some r /\ range_result a h flags goal len r.
Proof using Hgeom Hmap Hlen Hgoal BitmapExact0.
  intros Hfix Hany Hends Hfu. pose proof (goal_block_range a goal Hgeom Hgoal) as Hg.
  assert (HW : forall s, wanted a h len s -> range_result a h flags goal len (inr (s, len))) by (intros s (W1 & W2 & W3); split_and!; try done; try lia; congruence).
  assert (HF : (forall s, ~ wanted a h len s) -> range_result a h flags goal len (inl EXT2_ET_BLOCK_ALLOC_FAIL)) by (intros; split; [done|]; by rewrite Hfix, Hany).
  destruct (wanted_dec) as [[r Hr]|Hno].
  - assert (exists s, loop fuel false g = Some (inr (s, len)) /\ wanted a h len s) as (s & Hs & Hw); [|eauto].
    destruct (decide (r <= g)); [eapply (seek_wrap a h flags g len Hgeom Hmap Hlen r); eauto; lia|].
    apply (seek_run a h flags g len Hgeom Hmap Hlen r); [done|done|done|lia|by left|lia].
  - exists (inl EXT2_ET_BLOCK_ALLOC_FAIL). split; [|auto]. destruct Hends as [?|[?|[[s Hs]|[Hlast|Hall]]]]; [congruence|congruence|by destruct (Hno s)| |].
    + apply (loop_fails a h flags g len Hgeom Hmap Hlen Hno); try done. lia.
    + destruct fuel as [|[|fuel]]; [lia|lia|]. by apply loop_all_used.
Qed.

(** In the other cases it does not return. *)
Lemma loop_never fuel : ~ range_ends a h flags len -> loop fuel false g = None.
Proof using Hgeom Hmap Hlen Hgoal BitmapExact0.
  intros Hn. unfold range_ends in Hn. pose proof (goal_block_range a goal Hgeom Hgoal) as Hg.
  assert (Hlast : used h (ftotal a - 1) = true) by (destruct (used h (ftotal a - 1)); tauto).
  destruct (decide (Forall (fun x => used h x = true) (seqZ (ffirst a) (ftotal a - ffirst a)))) as [Hall|Hnot].
  { destruct Hn. right; right; right; right. rewrite Forall_forall in Hall. intros x Hx. apply Hall, elem_of_seqZ. lia. }
  apply not_Forall_Exists in Hnot; [|apply _]. apply Exists_exists in Hnot as (z & Hz%elem_of_seqZ & Hzu). apply not_true_is_false in Hzu.
  assert (Hno : forall s, ~ wanted a h len s) by (intros s Hs; apply Hn; right; right; left; by exists s).
  assert (Hfix : is_fixed flags = false) by (destruct (is_fixed flags); [tauto|done]).
  assert (Hany : any_length flags = false) by (destruct (any_length flags); [tauto|done]). clear Hn.
  apply (loop_for_ever a h flags g len Hgeom Hmap Hlen Hno z Hfix Hany Hlast ltac:(lia) Hzu fuel g Hg).
Qed.
End loop_results.

(** The flags [BLOCK_UNINIT] of the groups of the run are cleared. *)
Definition found_range a (r : Z + Z * Z) : (Z + Z * Z) * alloc_fs T :=
  match r with
  | inl retval => (inl retval, a)
  | inr (start, plen) => (inr (start, plen), range_clear_uninit (Z.to_nat plen) a start (u64 (start + plen)))
  end.

Lemma new_range_eq fuel a flags goal len (map : option (generic_bitmap T)) :
  gwf (use_map (block_map a) map) -> 0 < len -> Z.land flags (Z.lnot 3) = 0 ->
  ext2fs_new_range None fuel a flags goal len map =
  found_range a <$> new_range_loop fuel a (use_map (block_map a) map) flags (goal_block a goal) len false (goal_block a goal).
Proof using.
  intros Hwf Hl Hf. unfold ext2fs_new_range. rewrite (bool_decide_eq_false_2 (len = 0)) by lia. rewrite (bool_decide_eq_false_2 (Z.land _ _ <> 0)) by tauto. cbn [orb].
  fold (goal_block a goal). destruct map as [h|]; cbn [use_map] in *; [destruct h|destruct (block_map a)]; try done;
    by destruct (new_range_loop _ _ _ _ _ _ _ _) as [[|[]]|].
Qed.

Lemma clear_range_keeps fuel : forall a b e, blocks_ok a -> blocks_counted a ->
  let a' := range_clear_uninit fuel a b e in blocks_ok a' /\ blocks_counted a' /\ fs_super a' = fs_super a /\ block_map a' = block_map a.
Proof using BitmapExact0.
  induction fuel as [|fuel IH]; intros a b e Hok Hbc; [done|]. cbv zeta. cbn [range_clear_uninit]. destruct (decide (b < e)); [|done].
  destruct (clear_uninit_keeps a (ext2fs_group_of_blk2 a b) Hok Hbc (group_of_blk_nonneg a b (ao_geom _ Hok))) as (K1 & K2 & K3 & K4).
  destruct (IH _ (u64 (b + s_blocks_per_group (fs_super a))) e K1 K2) as (R1 & R2 & R3 & R4). split_and!; [done|done|congruence|congruence].
Qed.

Lemma loop_result a h flags goal len fuel :
  geometry_ok a -> map_covers a h -> 0 < len < 2 ^ 32 -> goal = 0 \/ ffirst a <= goal -> 2 * (ftotal a - ffirst a) + 2 <= Z.of_nat fuel ->
  range_ends a h flags len ->
  exists r, new_range_loop fuel a h flags (goal_block a goal) len false (goal_block a goal) = Some r /\ range_result a h flags goal len r.
Proof using BitmapExact0.
  intros HG Hm Hl Hg Hfu Hends. pose proof HG as [G1 _ _ _ _ _]. destruct (is_fixed flags) eqn:Hfix.
  - destruct fuel as [|fuel]; [lia|]. by apply loop_fixed.
  - destruct (any_length flags) eqn:Hany.
    + destruct fuel as [|[|fuel]]; [lia|lia|]. by apply loop_any.
    + by apply loop_min.
Qed.


Lemma clear_range_blocksize fuel : forall a b e, fs_blocksize (range_clear_uninit fuel a b e) = fs_blocksize a.
Proof using.
  induction fuel as [|fuel IH]; intros a b e; [done|]. cbn [range_clear_uninit]. destruct (decide (b < e)); [|done].
  by rewrite IH, clear_uninit_blocksize.
Qed.

(** C36: [ext2fs_alloc_range] allocates, without callbacks, on a file system without clusters whose
    counters are right, with a block bitmap whose searches are exact ([BitmapExact]: bit arrays, not
    red-black trees), over any channel that obeys [BlockIoLaws], with blocks of at most 4 MiB, a static
    buffer as an earlier call left it, fewer than 2^31 blocks wanted and a goal that is 0 or a data block:
    when a free run of the length wanted exists (at the goal, if the goal is fixed), it returns the
    first block of such a run, exactly the blocks of that run have become used and the counters are
    right again; every block of the run is full of zeros on the channel when that was asked for, and
    no other block of the channel has changed.  When zeroing the run fails its code is returned and
    nothing is marked. *)
Theorem alloc_range_spec {W : Type} `{!BlockIo W} {bs : Z} `{!BlockIoLaws W bs} mem a flags goal len fuel (z : zero_state W) :
  blocks_ok a -> blocks_counted a -> 0 < len < 2 ^ 31 -> goal = 0 \/ ffirst a <= goal -> Z.land flags (Z.lnot 3) = 0 ->
  2 * (ftotal a - ffirst a) + 2 <= Z.of_nat fuel ->
  (if decide (Z.land flags 1 <> 0) then wanted a (block_map a) len (goal_block a goal) else exists s, wanted a (block_map a) len s) ->
  fs_blocksize a = bs -> 0 < bs <= 4194304 -> static_ok bs z ->
  exists r a' z', ext2fs_alloc_range None mem None fuel a flags goal len z = Some (r, a', z') /\ blocks_ok a' /\ blocks_counted a' /\ static_ok bs z' /\
  match r with
  | inr s => wanted a (block_map a) len s /\ (Z.land flags 1 <> 0 -> s = goal_block a goal) /\
      (forall x, ffirst a <= x < ftotal a -> used (block_map a') x = if decide (s <= x < s + len) then true else used (block_map a) x) /\
      forall x, dev (z_io z') x = if decide (Z.land flags 2 <> 0 /\ s <= x < s + len) then zero_block bs else dev (z_io z) x
  | inl e => (exists s, Z.land flags 2 <> 0 /\ wanted a (block_map a) len s /\ ext2fs_zero_blocks2 mem bs z s len = (e, z') /\ e <> 0 /\
                forall x, ~ (s <= x < s + len) -> dev (z_io z') x = dev (z_io z) x) /\ block_map a' = block_map a
  end.
Proof using BitmapExact0.
  intros Hok Hbc Hl Hg Hf Hfu Hrun Hbs Hbs' Hz. unfold ext2fs_alloc_range. rewrite (bool_decide_eq_false_2 (len = 0)) by lia.
  rewrite (bool_decide_eq_false_2 (Z.land flags (Z.lnot 3) <> 0)) by tauto. cbn [orb].
  set (nf := if decide (Z.land flags 1 <> 0) then Z.lor NEWRANGE_MIN_LENGTH NEWRANGE_FIXED_GOAL else NEWRANGE_MIN_LENGTH).
  assert (Hnf : Z.land nf (Z.lnot 3) = 0 /\ any_length nf = false /\ is_fixed nf = bool_decide (Z.land flags 1 <> 0)) .
  { unfold nf. destruct (decide (Z.land flags 1 <> 0)); [rewrite (bool_decide_eq_true_2 (Z.land flags 1 <> 0))|rewrite (bool_decide_eq_false_2 (Z.land flags 1 <> 0))]; done. }
  destruct Hnf as (N1 & N2 & N3). rewrite new_range_eq by (done || lia || apply Hok). cbn [use_map].
  destruct (loop_result a (block_map a) nf goal len fuel (ao_geom _ Hok) (blocks_ok_map a Hok) ltac:(lia) Hg Hfu) as (r & -> & Hr).
  { right; right; left. destruct (decide (Z.land flags 1 <> 0)); eauto. }
  cbn [fmap option_fmap option_map]. unfold range_result in Hr. rewrite N2, N3 in Hr. destruct r as [e|[s p]]; cbn [found_range].
  { destruct Hr as [_ Hr]. destruct (decide (Z.land flags 1 <> 0)) as [Hx|Hx].
    - rewrite bool_decide_eq_true_2 in Hr by done. destruct Hrun as (? & ? & ?). by destruct Hr.
    - rewrite bool_decide_eq_false_2 in Hr by done. destruct Hrun as [s Hs]. by destruct (Hr s). }
  destruct Hr as (R1 & R2 & _ & R4 & R5 & R6). specialize (R5 eq_refl) as ->. rewrite bool_decide_eq_true in R6.
  destruct (clear_range_keeps (Z.to_nat len) a s (u64 (s + len)) Hok Hbc) as (K1 & K2 & K3 & K4).
  pose proof (clear_range_blocksize (Z.to_nat len) a s (u64 (s + len))) as KB. set (a1 := range_clear_uninit _ _ _ _) in *.
  rewrite (decide_False (P := len < len)) by lia. rewrite KB, Hbs.
  replace (s32 len) with len by (unfold s32; rewrite Z.mod_small; lia).
  destruct (block_stats_range_spec a1 s len 1 true K1 K2) as (B1 & B2 & B3); rewrite ?K3, ?K4; try done; try lia. rewrite K3, K4 in B3.
  destruct (decide (Z.land flags 2 <> 0)) as [H2|H2].
  - pose proof (ao_geom _ Hok) as [G1 G2 _ _ _ _].
    destruct (zero_blocks_spec mem z s len Hbs' Hz ltac:(lia) ltac:(lia)) as ([C1 C2] & C3).
    destruct (ext2fs_zero_blocks2 mem bs z s len) as [r z'] eqn:E. cbn [fst snd] in *. destruct (decide (r <> 0)) as [Hr|Hr].
    + exists (inl r), a1, z'. split_and!; try done. by exists s.
    + apply dec_stable in Hr. exists (inr s), (ext2fs_block_alloc_stats_range None a1 s len 1), z'. split_and!; try done.
      intros x. destruct (decide (Z.land flags 2 <> 0 /\ s <= x < s + len)); [apply C1; tauto|apply C2; tauto].
  - destruct (decide (0 <> 0)); [done|]. exists (inr s), (ext2fs_block_alloc_stats_range None a1 s len 1), z. split_and!; try done.
    intros x. by rewrite decide_False by tauto.
Qed.

(** ** [ext2fs_get_free_blocks2] *)

(** A free run of [num] blocks inside the file system. *)
Definition fits a h (num b : Z) : Prop := b + num <= ftotal a /\ free_run h b num.

Lemma test_run h b num :
  gwf h -> block_bitmap h -> 0 <= b -> 0 < num < 2 ^ 31 -> b + num + 2 ^ 32 < 2 ^ 64 -> (forall x, b <= x < b + num -> gcovers h (gunit h x)) ->
  if decide (ext2fs_test_block_bitmap_range2 h b num <> 0) then free_run h b num else ~ free_run h b num.
Proof using BitmapLaws0.
  intros Hwf Hk Hb Hn Hlt HC. destruct (test_range_cases h b num Hwf Hk Hb Hn Hlt HC) as [[-> Hf]|[-> (u & (x & Hx & <-) & Hu)]].
  - rewrite decide_True by done. intros x Hx. apply Hf. by exists x.
  - rewrite decide_False by tauto. intros Hf. specialize (Hf x Hx). unfold used in Hf. congruence.
Qed.

Lemma free_blocks_first a h start finish num :
  geometry_ok a -> map_covers a h -> block_bitmap h -> ffirst a <= start < finish -> 0 < num < 2 ^ 31 -> finish + 2 ^ 32 < 2 ^ 64 ->
  forall fuel b, start <= b < finish -> finish - b <= Z.of_nat fuel ->
  exists r, free_blocks_loop fuel a h start finish num 1 b = Some r /\
  match r with
  | inr x => b <= x < finish /\ fits a h num x /\ forall y, b <= y < x -> ~ fits a h num y
  | inl e => e = EXT2_ET_BLOCK_ALLOC_FAIL /\ forall y, b <= y < finish -> ~ fits a h num y
  end.
Proof using BitmapLaws0.
  intros HG [Hwf Hcov] Hk Hst Hn Hfin. pose proof HG as [G1 G2 _ _ _ _]. induction fuel as [|fuel IH]; intros b Hb Hfu; [lia|]. cbn [free_blocks_loop].
  rewrite (u64_small (b + num - 1)) by (unfold in_u; lia). destruct (decide (b + num - 1 >= ftotal a)) as [Hp|Hp].
  { rewrite (bool_decide_eq_true_2 (b + num - 1 >= _)), (bool_decide_eq_true_2 (finish > start)) by lia. eexists. split; [done|]. split; [done|]. intros y Hy [? _]. lia. }
  rewrite (bool_decide_eq_false_2 (b + num - 1 >= _)) by lia. cbn [andb].
  pose proof (test_run h b num Hwf Hk ltac:(lia) Hn ltac:(lia) ltac:(intros; apply Hcov; lia)) as HT.
  destruct (decide (ext2fs_test_block_bitmap_range2 h b num <> 0)) as [_|_].
  { eexists. split; [done|]. split_and!; [lia|lia|split; [lia|done]|intros; lia]. }
  rewrite (u64_small (b + 1)) by (unfold in_u; lia).
  assert (Hnot : ~ fits a h num b) by (intros [_ ?]; done). destruct (decide (b + 1 <> finish)) as [Hne|He].
  - destruct (IH (b + 1) ltac:(lia) ltac:(lia)) as (r & -> & Hr). exists r. split; [done|]. destruct r as [e|x].
    + destruct Hr as [He Hr]. split; [done|]. intros y Hy. destruct (decide (y = b)) as [->|]; [done|]. apply Hr. lia.
    + destruct Hr as (H1 & H2 & H3). split_and!; [lia|lia|done|]. intros y Hy. destruct (decide (y = b)) as [->|]; [done|]. apply H3. lia.
  - eexists. split; [done|]. split; [done|]. intros y Hy. by replace y with b by lia.
Qed.

Lemma free_blocks_eq fuel a h start finish num :
  gwf h -> (forall n, gunit h n = n) ->
  ext2fs_get_free_blocks2 fuel a start finish num (Some h) =
  free_blocks_loop fuel a h start (if decide (finish = 0) then start else finish) (if decide (num = 0) then 1 else num) 1
    (if decide (start = 0) then ffirst a else start).
Proof using BitmapLaws0.
  intros Hwf Hu. assert (Hgr : ext2fs_get_bitmap_granularity h = 0).
  { destruct h as [| |k c b|]; try done. cbn. specialize (Hu 1). cbn in Hu. destruct Hwf as [_ Hc].
    destruct (decide (c = 0)); [done|]. rewrite Z.shiftr_div_pow2, Z.div_small in Hu; [done| |lia]. pose proof (Z.pow_gt_1 2 c ltac:(lia)). lia. }
  unfold ext2fs_get_free_blocks2. cbn [use_map]. destruct h as [|k b|k c b|]; try done; rewrite Hgr;
    change (Z.shiftl 1 0) with 1; change (Z.lnot (1 - 1)) with (-1); by rewrite !Z.land_m1_r.
Qed.

(** [ext2fs_get_free_blocks2] between two blocks ends, and returns the first free run of the
    length wanted, or reports that there is none. *)
Theorem get_free_blocks_spec a h start finish num fuel :
  geometry_ok a -> map_covers a h -> block_bitmap h -> (forall n, gunit h n = n) -> ffirst a <= start < finish -> 0 < num < 2 ^ 31 ->
  finish + 2 ^ 32 < 2 ^ 64 -> finish - start <= Z.of_nat fuel ->
  exists r, ext2fs_get_free_blocks2 fuel a start finish num (Some h) = Some r /\
  match r with
  | inr x => start <= x < finish /\ fits a h num x /\ forall y, start <= y < x -> ~ fits a h num y
  | inl e => e = EXT2_ET_BLOCK_ALLOC_FAIL /\ forall y, start <= y < finish -> ~ fits a h num y
  end.
Proof using BitmapLaws0.
  intros HG Hm Hk Hu Hst Hn Hfin Hfu. pose proof HG as [G1 _ _ _ _ _].
  rewrite free_blocks_eq by (done || apply Hm). rewrite (decide_False (P := finish = 0)), (decide_False (P := num = 0)) by lia.
  replace (if decide (start = 0) then ffirst a else start) with start by (destruct (decide (start = 0)); lia).
  apply free_blocks_first; try done. lia.
Qed.

(** The loop with an end that is not past the first block. *)
Lemma free_blocks_round a h num start :
  geometry_ok a -> map_covers a h -> block_bitmap h -> 0 < num < 2 ^ 31 -> num <= ftotal a - ffirst a -> (forall b, ffirst a <= b -> ~ fits a h num b) ->
  start <= ffirst a -> forall fuel b, ffirst a <= b <= ftotal a -> free_blocks_loop fuel a h start start num 1 b = None.
Proof using BitmapLaws0.
  intros HG [Hwf Hcov] Hk Hn Hle Hno Hst. pose proof HG as [G1 G2 _ _ _ _]. induction fuel as [|fuel IH]; intros b Hb; [done|]. cbn [free_blocks_loop].
  rewrite (u64_small (b + num - 1)) by (unfold in_u; lia). rewrite (bool_decide_eq_false_2 (start > start)) by lia. rewrite andb_false_r.
  set (b' := if bool_decide (b + num - 1 >= ftotal a) then ffirst a else b).
  assert (Hb' : ffirst a <= b' /\ b' + num <= ftotal a) by (unfold b'; case_bool_decide; lia).
  pose proof (test_run h b' num Hwf Hk ltac:(lia) Hn ltac:(lia) ltac:(intros; apply Hcov; lia)) as HT.
  destruct (decide (ext2fs_test_block_bitmap_range2 h b' num <> 0)) as [_|_]; [destruct (Hno b'); [lia|split; [lia|done]]|].
  rewrite (u64_small (b' + 1)) by (unfold in_u; lia). rewrite decide_True by lia. apply IH. lia.
Qed.

(** Without an end, and from the first block on, it never returns when there is no such run. *)
Theorem get_free_blocks_for_ever a h num start :
  geometry_ok a -> map_covers a h -> block_bitmap h -> (forall n, gunit h n = n) -> 0 < num < 2 ^ 31 -> num <= ftotal a - ffirst a ->
  start = 0 \/ start = ffirst a -> (forall b, ffirst a <= b -> ~ fits a h num b) -> forall fuel, ext2fs_get_free_blocks2 fuel a start 0 num (Some h) = None.
Proof using BitmapLaws0.
  intros HG Hm Hk Hu Hn Hle Hf Hno fuel. pose proof HG as [G1 _ _ _ _ _]. rewrite free_blocks_eq by (done || apply Hm).
  rewrite (decide_True (P := 0 = 0)), (decide_False (P := num = 0)) by lia.
  replace (if decide (start = 0) then ffirst a else start) with (ffirst a) by (destruct (decide (start = 0)); lia). apply free_blocks_round; try done; lia.
Qed.

End new_range.
