(* ===== verification/AllocWitness.v ===== *)
(** The allocation theorems applied to a small file system: two groups of blocks 1 to 39 and
    inodes 1 to 32 with bit-array bitmaps and checksums of the descriptors. *)
From Stdlib Require Import ZArith Lia.
From stdpp Require Import base tactics numbers list sets.
From S2P Require Import Prelude ExtErr Bitops BitmapOps BitArray BitArrayProofs GenBitmap GenBitmapProofs BitmapTheorems.
From S2P Require Import Crc32c BlkNum BlkNumProofs Csum CsumProofs CsumGroup.
From S2P Require Import Alloc AllocProofs AllocInodes AllocGdt AllocSearch AllocNewInode AllocNewRange.

#[local] Existing Instance demo_ops.
#[local] Existing Instance demo_laws.
#[local] Existing Instance demo_exact.

(** Blocks 1 to 12 and 39, and inodes 1 to 11 and 18, are in use. *)
Definition demo_blocks : bmap :=
  Eval vm_compute in ba_mark_bmap_extent (ba_mark_bmap_extent (ba_new_bmap demo_junk true (mkBmap 1 39 40 [])).2 1 12) 39 1.
Definition demo_inodes : bmap :=
  Eval vm_compute in ba_mark_bmap_extent (ba_mark_bmap_extent (ba_new_bmap demo_junk true (mkBmap 1 32 32 [])).2 1 11) 18 1.

Definition demo_desc : list Z :=
  Eval vm_compute in
    let fs := mkFs (mkSb 40 0 0 0 26 0 1 20 0 64 0x80 0x10 1 11 256) (replicate 128 0) 2 1024 0 0 in
    let fs := gfield_set Ffree_blocks (gfield_set Ffree_blocks fs 0 8) 1 18 in
    let fs := gfield_set Ffree_inodes (gfield_set Ffree_inodes fs 0 5) 1 15 in
    fs_group_desc (gfield_set Fitable_unused (gfield_set Fitable_unused fs 0 5) 1 14).

Definition demo_afs : alloc_fs bmap :=
  mkAfs (mkCs (mkFs (mkSb 40 0 0 0 26 0 1 20 0 64 0x80 0x10 1 11 256) demo_desc 2 1024 0 0) 0x1234 (replicate 16 5) 0)
    32 20 16 (B64 Kinode 0 demo_inodes) (B64 Kblock 0 demo_blocks).

Lemma demo_bits_wf (k : kind) b :
  0 <= bm_start b <= bm_end b -> bm_end b <= bm_real_end b < 2 ^ 64 - 1 -> forallb (fun b => (0 <=? b) && (b <? 256)) (bm_array b) = true ->
  ba_size b <= zlen (bm_array b) -> gwf (B64 k 0 b).
Proof. intros H1 H2 H3%bytes_check H4. split; [by split|lia]. Qed.

Lemma demo_group_desc : group_ok demo_afs.
Proof.
  split; [unfold in_u; cbn; lia|apply Forall_replicate; unfold in_u; lia| |apply bytes_check; vm_compute; reflexivity].
  split; [intros _; cbn; lia|vm_compute; discriminate|vm_compute; reflexivity].
Qed.

Lemma demo_afs_geometry : geometry_ok demo_afs.
Proof. split; vm_compute; repeat split; discriminate || reflexivity. Qed.

Lemma demo_blocks_ok : blocks_ok demo_afs.
Proof.
  split; [exact demo_group_desc|exact demo_afs_geometry|reflexivity|vm_compute; reflexivity|vm_compute; reflexivity| | |].
  - apply demo_bits_wf; vm_compute; repeat split; discriminate.
  - intros n. apply Z.shiftr_0_r.
  - intros n Hn. change (1 <= n < 40) in Hn. change (1 <= n <= 39). lia.
Qed.

Lemma demo_blocks_counted : blocks_counted demo_afs.
Proof.
  split; [|vm_compute; reflexivity]. intros g Hg. change (0 <= g < 2) in Hg.
  assert (g = 0 \/ g = 1) as [->| ->] by lia; vm_compute; reflexivity.
Qed.

Lemma demo_inodes_ok : inodes_ok demo_afs.
Proof.
  split; [exact demo_group_desc|cbn; lia|reflexivity|cbn; lia|vm_compute; reflexivity| | |].
  - apply demo_bits_wf; vm_compute; repeat split; discriminate.
  - intros n. apply Z.shiftr_0_r.
  - intros n Hn. exact Hn.
Qed.

Lemma demo_unused_check g : 0 <= g < 2 ->
  forallb (fun i => negb (used (inode_map demo_afs) i)) (seqZ (first_ino demo_afs g + 16 - ext2fs_bg_itable_unused demo_afs g) (ext2fs_bg_itable_unused demo_afs g)) = true.
Proof. intros Hg. assert (g = 0 \/ g = 1) as [->| ->] by lia; vm_compute; reflexivity. Qed.

Lemma demo_inodes_counted : inodes_counted demo_afs.
Proof.
  split; [|vm_compute; reflexivity| |].
  - intros g Hg. change (0 <= g < 2) in Hg. assert (g = 0 \/ g = 1) as [->| ->] by lia; vm_compute; reflexivity.
  - intros g _ Hg. change (0 <= g < 2) in Hg. assert (g = 0 \/ g = 1) as [->| ->] by lia; vm_compute; split; discriminate.
  - intros g i _ Hg Hi. pose proof (demo_unused_check g Hg) as HC. rewrite forallb_forall in HC.
    apply negb_true_iff, HC, list_elem_of_In, elem_of_seqZ. change (s_inodes_per_group demo_afs) with 16 in Hi. lia.
Qed.

(** * Witnesses *)

Lemma block_stats_counts_witness :
  blocks_counted (ext2fs_block_alloc_stats2 None demo_afs 20 1) /\ blocks_counted (ext2fs_block_alloc_stats2 None demo_afs 39 (-1)).
Proof.
  split.
  - refine (proj1 (proj2 (block_stats_counts demo_afs 20 1 demo_blocks_ok demo_blocks_counted _ (or_introl (conj eq_refl _))))); vm_compute; repeat split; discriminate.
  - refine (proj1 (proj2 (block_stats_counts demo_afs 39 (-1) demo_blocks_ok demo_blocks_counted _ (or_intror (conj eq_refl _))))); vm_compute; repeat split; discriminate.
Defined.

Lemma demo_inode_free : 1 = 1 /\ used (inode_map demo_afs) 30 = false.
Proof. split; [reflexivity|vm_compute; reflexivity]. Qed.

Lemma demo_dirs : in_u 16 (ext2fs_bg_used_dirs_count demo_afs (ext2fs_group_of_ino demo_afs 30) + 1).
Proof. vm_compute. split; discriminate || reflexivity. Qed.

Lemma inode_stats_counts_witness :
  inodes_counted (ext2fs_inode_alloc_stats2 demo_afs 30 1 true) /\ ext2fs_bg_used_dirs_count (ext2fs_inode_alloc_stats2 demo_afs 30 1 true) 1 = 1.
Proof.
  pose proof (inode_stats_counts demo_afs 30 1 true demo_inodes_ok demo_inodes_counted ltac:(cbn; lia) (or_introl demo_inode_free) (fun _ => demo_dirs)) as H.
  cbv zeta in H. split; [exact (proj1 (proj2 H))|]. exact (proj1 (proj2 (proj2 (proj2 H)))).
Defined.

Lemma set_gdt_csum_spec_witness :
  (ext2fs_set_gdt_csum demo_afs).1 = 0 /\ (ext2fs_group_desc_csum_verify (ext2fs_set_gdt_csum demo_afs).2 1).1 = 1.
Proof.
  pose proof (set_gdt_csum_spec demo_afs demo_inodes_ok demo_inodes_counted ltac:(vm_compute; reflexivity) ltac:(vm_compute; reflexivity)) as H.
  destruct (ext2fs_set_gdt_csum demo_afs) as [r a']. destruct H as [H1 H2]. split; [exact H1|]. exact (proj1 (H2 1 ltac:(cbn; lia))).
Defined.

Definition demo_map_covers : map_covers demo_afs (block_map demo_afs) := blocks_ok_map demo_afs demo_blocks_ok.

Lemma new_block_spec_witness :
  (ext2fs_new_block3 None None demo_afs 39 (Some (block_map demo_afs))).1 = inr 13 /\ 1 <= 13 < 40 /\ used (block_map demo_afs) 13 = false.
Proof.
  assert (E : (ext2fs_new_block3 None None demo_afs 39 (Some (block_map demo_afs))).1 = inr 13) by (vm_compute; reflexivity). split; [exact E|].
  pose proof (new_block_spec demo_afs 39 (block_map demo_afs) demo_group_desc demo_afs_geometry ltac:(by left) demo_map_covers ltac:(lia) ltac:(right; cbn; lia)) as H.
  rewrite E in H. exact H.
Defined.

(** A device that cannot clear blocks itself: every block is written. *)
Definition demo_bs : Z := Eval vm_compute in fs_blocksize demo_afs.
#[local] Instance demo_io : BlockIo (Z -> list Z) := {
  io_channel_zeroout _ _ w := (EXT2_ET_UNIMPLEMENTED, w);
  io_write_blocks blk count buf w :=
    (0, fun b => if decide (blk <= b < blk + count) then take (Z.to_nat demo_bs) (drop (Z.to_nat ((b - blk) * demo_bs)) buf) else w b)
}.
#[local] Instance demo_io_laws : BlockIoLaws (Z -> list Z) demo_bs.
Proof.
  refine {| dev w := w |}.
  - intros blk num w _. split; [discriminate|done].
  - intros blk count buf w _ _. cbn. split.
    + intros _ i Hi. rewrite decide_True by lia. do 3 f_equal. lia.
    + intros b Hb. by rewrite decide_False.
Defined.

Definition demo_disk : zero_state (Z -> list Z) := mkZero (fun _ => replicate (Z.to_nat demo_bs) 255) [] 0.

Lemma demo_static : static_ok demo_bs demo_disk.
Proof. split; [vm_compute; split; discriminate|reflexivity]. Qed.

Abbreviation alloc_demo buf := (ext2fs_alloc_block3 None None None (fun a => (0, a)) true demo_afs 0 buf demo_disk).

(** With a buffer of the caller, and with the static one. *)
Lemma alloc_block_spec_witness :
  (exists a' buf z', alloc_demo (Some (replicate (Z.to_nat demo_bs) 7)) = (inr 13, a', buf, z') /\ blocks_counted a' /\
     z_io z' 13 = replicate (Z.to_nat demo_bs) 0 /\ z_io z' 14 = replicate (Z.to_nat demo_bs) 255) /\
  exists a' z', alloc_demo None = (inr 13, a', None, z') /\ z_io z' 13 = replicate (Z.to_nat demo_bs) 0.
Proof.
  assert (HB : forall buf, Some (replicate (Z.to_nat demo_bs) 7) = Some buf -> demo_bs <= zlen buf) by (intros ? [= <-]; vm_compute; discriminate).
  split.
  - pose proof (alloc_block_spec (bs := demo_bs) (fun a => (0, a)) true demo_afs 0 (Some (replicate (Z.to_nat demo_bs) 7)) demo_disk demo_blocks_ok demo_blocks_counted
      ltac:(lia) ltac:(by left) eq_refl ltac:(vm_compute; split; [reflexivity|discriminate]) demo_static HB) as H.
    assert (E : (alloc_demo (Some (replicate (Z.to_nat demo_bs) 7))).1.1.1 = inr 13) by (vm_compute; reflexivity).
    destruct (alloc_demo _) as [[[r a'] buf'] z']. cbn [fst] in E. subst r. destruct H as (_ & _ & _ & D1 & D2 & _ & _ & D3 & _).
    exists a', buf', z'. split_and!; [reflexivity|exact D3|exact D1|exact (D2 14 ltac:(lia))].
  - pose proof (alloc_block_spec (bs := demo_bs) (fun a => (0, a)) true demo_afs 0 None demo_disk demo_blocks_ok demo_blocks_counted
      ltac:(lia) ltac:(by left) eq_refl ltac:(vm_compute; split; [reflexivity|discriminate]) demo_static ltac:(discriminate)) as H.
    assert (E : (alloc_demo None).1.1.1 = inr 13) by (vm_compute; reflexivity).
    destruct (alloc_demo None) as [[[r a'] buf'] z']. cbn [fst] in E. subst r. destruct H as (_ & _ & _ & D1 & _ & D2 & _). cbn in D2. subst buf'.
    exists a', z'. split; [reflexivity|exact D1].
Defined.

(** The second group flagged INODE_UNINIT: the mark of inode 18 in the map means nothing. *)
Definition demo_uninit : alloc_fs bmap :=
  Eval vm_compute in upd_fs demo_afs (gd_write 2 18 EXT2_BG_INODE_UNINIT demo_afs 1).

Lemma demo_uninit_ok : inodes_ok demo_uninit.
Proof.
  split; [|cbn; lia|reflexivity|cbn; lia|vm_compute; reflexivity| | |].
  - split; [unfold in_u; cbn; lia|apply bytes_check; vm_compute; reflexivity| |apply bytes_check; vm_compute; reflexivity].
    split; [intros _; cbn; lia|vm_compute; discriminate|vm_compute; reflexivity].
  - apply demo_bits_wf; vm_compute; repeat split; discriminate.
  - intros n. apply Z.shiftr_0_r.
  - intros n Hn. exact Hn.
Qed.

Lemma new_inode_spec_witness :
  ext2fs_new_inode demo_afs 2 None = Some (inr 12, demo_afs, None) /\
  exists a', ext2fs_new_inode demo_uninit 18 None = Some (inr 17, a', None) /\
    used (inode_map demo_uninit) 18 = true /\ used (inode_map a') 18 = false /\ used (inode_map a') 11 = true.
Proof.
  split.
  - destruct (new_inode_spec demo_afs 2 demo_inodes_ok ltac:(vm_compute; reflexivity) ltac:(vm_compute; split; discriminate) ltac:(lia)) as (r & a' & E & H).
    assert (E2 : option_map (fun x => x.1.1) (ext2fs_new_inode demo_afs 2 None) = Some (inr 12)) by (vm_compute; reflexivity).
    rewrite E in E2. cbn in E2. injection E2 as ->. destruct H as (_ & _ & [->|[[_ HU] _]]); [exact E|]. exfalso. apply HU. vm_compute. reflexivity.
  - destruct (new_inode_spec demo_uninit 18 demo_uninit_ok ltac:(vm_compute; reflexivity) ltac:(vm_compute; split; discriminate) ltac:(lia)) as (r & a' & E & H).
    assert (E2 : option_map (fun x => x.1.1) (ext2fs_new_inode demo_uninit 18 None) = Some (inr 17)) by (vm_compute; reflexivity).
    rewrite E in E2. cbn in E2. injection E2 as ->. exists a'. split; [exact E|]. split; [vm_compute; reflexivity|].
    assert (E3 : option_map (fun x => used (inode_map x.1.2) 18) (ext2fs_new_inode demo_uninit 18 None) = Some false) by (vm_compute; reflexivity).
    rewrite E in E3. cbn in E3. injection E3 as E3. split; [exact E3|]. destruct H as (_ & _ & [->|(_ & _ & HU & _)]); [vm_compute; reflexivity|].
    rewrite HU by (vm_compute; split; discriminate). vm_compute. reflexivity.
Defined.

Lemma demo_run_free : forall x, 15 <= x < 15 + 20 -> used (block_map demo_afs) x = negb true.
Proof.
  assert (HC : forallb (fun x => negb (used (block_map demo_afs) x)) (seqZ 15 20) = true) by (vm_compute; reflexivity).
  rewrite forallb_forall in HC. intros x Hx. apply negb_true_iff, HC, list_elem_of_In, elem_of_seqZ. lia.
Qed.

Lemma block_stats_range_counts_witness : blocks_counted (ext2fs_block_alloc_stats_range None demo_afs 15 20 1).
Proof.
  exact (proj1 (proj2 (block_stats_range_counts demo_afs 15 20 1 true demo_blocks_ok demo_blocks_counted ltac:(cbn; lia) ltac:(lia)
    ltac:(vm_compute; discriminate) ltac:(discriminate) ltac:(vm_compute; reflexivity) demo_run_free))).
Defined.

Lemma demo_wanted : wanted demo_afs (block_map demo_afs) 20 15.
Proof. split_and!; [cbn; lia|vm_compute; discriminate|exact demo_run_free]. Qed.

(** Every block but 5 in use: a run of two blocks is searched for ever. *)
Definition demo_full_bits : bmap := Eval vm_compute in (ba_unmark_bmap (ba_mark_bmap_extent demo_blocks 1 39) 5).2.
Definition demo_full : generic_bitmap bmap := B64 Kblock 0 demo_full_bits.

Lemma demo_full_covers : map_covers demo_afs demo_full.
Proof.
  split; [apply demo_bits_wf; vm_compute; repeat split; discriminate|]. intros n Hn. change (1 <= n < 40) in Hn.
  unfold demo_full, gunit. rewrite Z.shiftr_0_r. change (1 <= n <= 39). lia.
Qed.

Lemma demo_full_used x : 1 <= x < 40 -> x <> 5 -> used demo_full x = true.
Proof.
  intros Hx Hne. assert (HC : forallb (fun x => bool_decide (x = 5) || used demo_full x) (seqZ 1 39) = true) by (vm_compute; reflexivity).
  rewrite forallb_forall in HC. specialize (HC x). rewrite bool_decide_eq_false_2 in HC by done. apply HC, list_elem_of_In, elem_of_seqZ. lia.
Qed.

Lemma demo_no_end : ~ range_ends demo_afs demo_full NEWRANGE_MIN_LENGTH 2.
Proof.
  intros [H|[H|[(s & W1 & W2 & W3)|[H|H]]]]; [vm_compute in H; done|vm_compute in H; done| |vm_compute in H; done|].
  - change (1 <= s) in W1. change (s + 2 <= 40) in W2. destruct (decide (s = 5)) as [->|Hne].
    + pose proof (W3 6 ltac:(lia)) as W. rewrite demo_full_used in W by lia. done.
    + pose proof (W3 s ltac:(lia)) as W. rewrite demo_full_used in W by lia. done.
  - specialize (H 5 ltac:(vm_compute; split; discriminate || reflexivity)). vm_compute in H. done.
Qed.


Lemma alloc_range_spec_witness :
  exists a' z', ext2fs_alloc_range None true None 100 demo_afs 3 15 20 demo_disk = Some (inr 15, a', z') /\ blocks_counted a' /\
    z_io z' 34 = replicate (Z.to_nat demo_bs) 0 /\ z_io z' 35 = replicate (Z.to_nat demo_bs) 255.
Proof.
  destruct (alloc_range_spec (bs := demo_bs) true demo_afs 3 15 20 100 demo_disk demo_blocks_ok demo_blocks_counted ltac:(lia) ltac:(right; cbn; lia) eq_refl
    ltac:(vm_compute; discriminate) demo_wanted eq_refl ltac:(vm_compute; split; [reflexivity|discriminate]) demo_static) as (r & a' & z' & E & _ & H & _ & HR).
  assert (E2 : option_map (fun x => x.1.1) (ext2fs_alloc_range None true None 100 demo_afs 3 15 20 demo_disk) = Some (inr 15)) by (vm_compute; reflexivity).
  rewrite E in E2. cbn in E2. injection E2 as ->. destruct HR as (_ & _ & _ & HD). exists a', z'.
  split_and!; [exact E|exact H|exact (HD 34)|exact (HD 35)].
Defined.

Lemma get_free_blocks_spec_witness :
  exists r, ext2fs_get_free_blocks2 39 demo_afs 1 40 20 (Some (block_map demo_afs)) = Some r /\ r = inr 13.
Proof.
  destruct (get_free_blocks_spec demo_afs (block_map demo_afs) 1 40 20 39 demo_afs_geometry demo_map_covers eq_refl (ao_unit _ demo_blocks_ok)
    ltac:(cbn; lia) ltac:(lia) ltac:(lia) ltac:(lia)) as (r & E & _).
  exists r. split; [exact E|].
  assert (E2 : ext2fs_get_free_blocks2 39 demo_afs 1 40 20 (Some (block_map demo_afs)) = Some (inr 13)) by (vm_compute; reflexivity). congruence.
Defined.
