(* ===== verification/Extent.v ===== *)
(** The extent tree of a file: [rfsck-ext/lib/ext2fs/extent.c].

    A node is the bytes of its block (of the inode's [i_block], for the root); a handle holds a
    path of nodes with a position in each.  A position is the offset of an entry in its node.  What
    the functions use of the rest of the library is the class [ExtentEnv]: reading and writing
    blocks and the inode, allocating and freeing a block, over a state [D].  A function is an
    element of the monad [X]; [Xundef] is the access to a null pointer or to a path that is not
    there, [Xfuel] a loop that has not ended yet.  Memory does not run out, and handles have the
    right magic number and a path. *)
From Stdlib Require Import ZArith Lia.
From stdpp Require Import base tactics numbers list.
From S2P Require Import Prelude ExtErr Crc32c BlkNum Csum.

(** * Data *)

Record ext2fs_extent := mkExtent { e_pblk : Z; e_lblk : Z; e_len : Z; e_flags : Z }.

Record extent_path := mkPath {
  p_buf : list Z;
  p_entries : Z;
  p_max_entries : Z;
  p_left : Z;
  p_visit_num : Z;
  p_end_blk : Z;
  p_curr : option Z
}.

Definition p_set_left (l : Z) (p : extent_path) : extent_path :=
  mkPath (p_buf p) (p_entries p) (p_max_entries p) l (p_visit_num p) (p_end_blk p) (p_curr p).
Definition p_set_curr (c : option Z) (p : extent_path) : extent_path :=
  mkPath (p_buf p) (p_entries p) (p_max_entries p) (p_left p) (p_visit_num p) (p_end_blk p) c.
Definition p_set_visit (v : Z) (p : extent_path) : extent_path :=
  mkPath (p_buf p) (p_entries p) (p_max_entries p) (p_left p) v (p_end_blk p) (p_curr p).
Definition p_set_entries (n : Z) (p : extent_path) : extent_path :=
  mkPath (p_buf p) n (p_max_entries p) (p_left p) (p_visit_num p) (p_end_blk p) (p_curr p).
Definition p_set_buf (b : list Z) (p : extent_path) : extent_path :=
  mkPath b (p_entries p) (p_max_entries p) (p_left p) (p_visit_num p) (p_end_blk p) (p_curr p).

(** The buffer of the first path is the [i_block] of the inode. *)
Record ext2_extent_handle := mkHandle {
  h_inode : inode;
  h_level : nat;
  h_max_depth : nat;
  h_path : list extent_path
}.

Definition h_set_level (l : nat) (h : ext2_extent_handle) : ext2_extent_handle :=
  mkHandle (h_inode h) l (h_max_depth h) (h_path h).
Definition h_set_inode (i : inode) (h : ext2_extent_handle) : ext2_extent_handle :=
  mkHandle i (h_level h) (h_max_depth h) (h_path h).

(** Moves of [ext2fs_extent_get]. *)
Definition EXT2_EXTENT_CURRENT : Z := 0.
Definition EXT2_EXTENT_ROOT : Z := 1.
Definition EXT2_EXTENT_LAST_LEAF : Z := 2.
Definition EXT2_EXTENT_FIRST_SIB : Z := 3.
Definition EXT2_EXTENT_LAST_SIB : Z := 4.
Definition EXT2_EXTENT_NEXT_SIB : Z := 5.
Definition EXT2_EXTENT_PREV_SIB : Z := 6.
Definition EXT2_EXTENT_NEXT_LEAF : Z := 7.
Definition EXT2_EXTENT_PREV_LEAF : Z := 8.
Definition EXT2_EXTENT_NEXT : Z := 9.
Definition EXT2_EXTENT_PREV : Z := 10.
Definition EXT2_EXTENT_UP : Z := 11.
Definition EXT2_EXTENT_DOWN : Z := 12.
Definition EXT2_EXTENT_DOWN_AND_LAST : Z := 13.

Definition EXT2_EXTENT_FLAGS_LEAF : Z := 1.
Definition EXT2_EXTENT_FLAGS_UNINIT : Z := 2.
Definition EXT2_EXTENT_FLAGS_SECOND_VISIT : Z := 4.
Definition EXT_INIT_MAX_LEN : Z := 32768.
Definition EXT_UNINIT_MAX_LEN : Z := 32767.
Definition EXT3_EXT_MAGIC : Z := 0xf30a.
Definition EXT4_EXTENTS_FL : Z := 0x80000.

(** ** Fields of the header and of the entries of a node *)

Definition eh_magic (b : list Z) : Z := field 2 0 b.
Definition eh_entries (b : list Z) : Z := field 2 2 b.
Definition eh_max (b : list Z) : Z := field 2 4 b.
Definition eh_depth (b : list Z) : Z := field 2 6 b.
Definition ei_block (b : list Z) (o : Z) : Z := field 4 o b.
Definition ei_leaf (b : list Z) (o : Z) : Z := field 4 (o + 4) b + Z.shiftl (field 2 (o + 8) b) 32.
Definition ee_block (b : list Z) (o : Z) : Z := field 4 o b.
Definition ee_len (b : list Z) (o : Z) : Z := field 2 (o + 4) b.
Definition ee_start (b : list Z) (o : Z) : Z := field 4 (o + 8) b + Z.shiftl (field 2 (o + 6) b) 32.

(** [EXT_FIRST_INDEX], and the entry a pointer is at after [++] or [--]. *)
Definition FIRST_INDEX : Z := 12.
Definition ix_next (o : Z) : Z := o + 12.
Definition ix_prev (o : Z) : Z := o - 12.
Definition LAST_INDEX (b : list Z) : Z := 12 + 12 * eh_entries b - 12.

Definition ext2fs_extent_header_verify (b : list Z) (size : Z) : Z :=
  if decide (eh_magic b <> EXT3_EXT_MAGIC) then EXT2_ET_EXTENT_HEADER_BAD
  else if decide (eh_entries b > eh_max b) then EXT2_ET_EXTENT_HEADER_BAD
  else
    let entry_size := 12 in
    let max := (size - 12) / entry_size in
    if decide (eh_max b > max \/ eh_max b < max - 2) then EXT2_ET_EXTENT_HEADER_BAD else 0.

(** * The monad *)

Class ExtentEnv (D : Type) := {
  x_fs : csum_fs;
  x_ino : Z;
  (* the generation of an inode, for checksums *)
  x_read_inode : Z -> Z + Z;
  (* an image file without the data blocks *)
  x_image : bool;
  io_channel_read_blk64 : D -> Z -> Z + list Z;
  io_channel_write_blk64 : D -> Z -> list Z -> Z * D;
  ext2fs_write_inode : D -> inode -> list Z -> Z * D;
  (* allocate a block, which is cleared *)
  alloc_block2 : D -> Z -> (Z + Z) * D;
  (* [ext2fs_block_alloc_stats2(fs, blk, -1)] *)
  block_freed : D -> Z -> D;
  inode_goal : D -> inode -> list Z -> Z
}.

Inductive xres (D A : Type) :=
| Xok (a : A) (h : ext2_extent_handle) (d : D)
| Xundef
| Xfuel.
Arguments Xok {D A}.
Arguments Xundef {D A}.
Arguments Xfuel {D A}.

Definition X (D A : Type) : Type := ext2_extent_handle -> D -> xres D A.

#[global] Instance X_ret {D} : MRet (X D) := fun A a h d => Xok a h d.
#[global] Instance X_bind {D} : MBind (X D) :=
  fun A B k m h d => match m h d with Xok a h d => k a h d | Xundef => Xundef | Xfuel => Xfuel end.

Section extent.
Context {D : Type} `{!ExtentEnv D} `{!Checksum}.
Abbreviation M := (X D).

Definition get_handle : M ext2_extent_handle := fun h d => Xok h h d.
Definition modify_handle (f : ext2_extent_handle -> ext2_extent_handle) : M unit := fun h d => Xok tt (f h) d.
Definition undef {A} : M A := fun h d => Xundef.
Definition out_of_fuel {A} : M A := fun h d => Xfuel.

(** [handle->path + l]. *)
Definition path_at (l : nat) : M extent_path :=
  h ← get_handle; match h_path h !! l with Some p => mret p | None => undef end.
Definition get_path : M extent_path := h ← get_handle; path_at (h_level h).
Definition set_path_at (l : nat) (p : extent_path) : M unit :=
  modify_handle (fun h => mkHandle (h_inode h) (h_level h) (h_max_depth h) (<[l := p]> (h_path h))).
Definition set_path (p : extent_path) : M unit := h ← get_handle; set_path_at (h_level h) p.

(** The [i_block] of the inode. *)
Definition i_block (h : ext2_extent_handle) : list Z := match h_path h with p :: _ => p_buf p | [] => [] end.

Definition read_block (blk : Z) : M (Z + list Z) := fun h d => Xok (io_channel_read_blk64 d blk) h d.
Definition write_block (blk : Z) (b : list Z) : M Z :=
  fun h d => let '(r, d) := io_channel_write_blk64 d blk b in Xok r h d.
Definition write_inode : M Z :=
  fun h d => let '(r, d) := ext2fs_write_inode d (h_inode h) (i_block h) in Xok r h d.

Definition free_node (pblk : Z) : M unit := fun h d => Xok tt h (block_freed d pblk).
(** A block near the goal, or near the inode without one. *)
Definition alloc_node (goal_blk : Z) : M (Z + Z) :=
  fun h d => let goal := if decide (goal_blk = 0) then inode_goal d (h_inode h) (i_block h) else goal_blk in
             let '(r, d) := alloc_block2 d goal in Xok r h d.

Definition has_flag (z f : Z) : bool := bool_decide (Z.land z f <> 0).

(** * [ext2fs_extent_open2] *)

(** The handle for an inode and its [i_block]. *)
Definition ext2fs_extent_open2 (ino : inode) (iblock : list Z) : Z + ext2_extent_handle :=
  let empty := bool_decide (Forall (fun c => c = 0) (zslice 0 60 iblock)) in
  let iblock :=
    if empty then put_field 2 4 4 (put_field 2 2 0 (put_field 2 6 0 (put_field 2 0 EXT3_EXT_MAGIC iblock))) else iblock in
  let ino :=
    if empty
    then mkInode (i_mode ino) (i_size ino) (i_size_high ino) (i_blocks ino) (l_i_blocks_hi ino) (Z.lor (i_flags ino) EXT4_EXTENTS_FL)
           (i_file_acl ino) (l_i_file_acl_high ino)
    else ino in
  if negb (has_flag (i_flags ino) EXT4_EXTENTS_FL) then inl EXT2_ET_INODE_NOT_EXTENT
  else
    let retval := ext2fs_extent_header_verify iblock 60 in
    if decide (retval <> 0) then inl retval
    else
      let max_depth := Z.to_nat (eh_depth iblock) in
      let size := Z.lor (i_size ino) (Z.shiftl (i_size_high ino) 32) in
      (* [>> EXT2_BLOCK_SIZE_BITS], the logarithm of the block size *)
      let end_blk := u64 (size + fs_blocksize x_fs - 1) / fs_blocksize x_fs in
      let root := mkPath iblock (eh_entries iblock) (eh_max iblock) (eh_entries iblock) 1 end_blk None in
      inr (mkHandle ino 0 max_depth (root :: replicate max_depth (mkPath [] 0 0 0 0 0 None))).

(** * [ext2fs_extent_get] *)

(** The move to make at the current node: a code, or a move; going down counts as a visit. *)
Definition choose_op (orig_op op : Z) : M (Z + Z) :=
  h ← get_handle;
  path ← get_path;
  let interior := bool_decide (h_level h < h_max_depth h)%nat in
  if decide (orig_op = EXT2_EXTENT_NEXT \/ orig_op = EXT2_EXTENT_NEXT_LEAF) then
    if interior && bool_decide (p_visit_num path = 0)
    then _ ← set_path (p_set_visit (p_visit_num path + 1) path); mret (inr EXT2_EXTENT_DOWN)
    else if decide (p_left path > 0) then mret (inr EXT2_EXTENT_NEXT_SIB)
    else if decide (0 < h_level h)%nat then mret (inr EXT2_EXTENT_UP)
    else mret (inl EXT2_ET_EXTENT_NO_NEXT)
  else if decide (orig_op = EXT2_EXTENT_PREV \/ orig_op = EXT2_EXTENT_PREV_LEAF) then
    if interior && bool_decide (p_visit_num path > 0) then mret (inr EXT2_EXTENT_DOWN_AND_LAST)
    else if decide (p_left path < p_entries path - 1) then mret (inr EXT2_EXTENT_PREV_SIB)
    else if decide (0 < h_level h)%nat then mret (inr EXT2_EXTENT_UP)
    else mret (inl EXT2_ET_EXTENT_NO_PREV)
  else if decide (orig_op = EXT2_EXTENT_LAST_LEAF) then
    if interior && bool_decide (p_left path = 0) then mret (inr EXT2_EXTENT_DOWN)
    else mret (inr EXT2_EXTENT_LAST_SIB)
  else mret (inr op).

(** What follows [case EXT2_EXTENT_NEXT_SIB]: a code, or the entry. *)
Definition next_sib : M (Z + Z) :=
  path ← get_path;
  if decide (p_left path <= 0) then mret (inl EXT2_ET_EXTENT_NO_NEXT)
  else
    let ix := match p_curr path with Some c => ix_next c | None => FIRST_INDEX end in
    _ ← set_path (p_set_visit 0 (p_set_curr (Some ix) (p_set_left (p_left path - 1) path)));
    mret (inr ix).

Definition first_sib : M (Z + Z) :=
  path ← get_path;
  _ ← set_path (p_set_curr None (p_set_left (p_entries path) path));
  next_sib.

(** [case EXT2_EXTENT_DOWN] and [case EXT2_EXTENT_DOWN_AND_LAST]: a code, or the entry and
    whether the checksum of the node was wrong. *)
Definition move_down (last : bool) : M (Z + Z * bool) :=
  h ← get_handle;
  path ← get_path;
  match p_curr path with
  | None => mret (inl EXT2_ET_EXTENT_NO_DOWN)
  | Some ix =>
      if decide (h_max_depth h <= h_level h)%nat then mret (inl EXT2_ET_EXTENT_NO_DOWN)
      else
        let blk := ei_leaf (p_buf path) ix in
        r ← (if x_image then mret (inr (replicate (Z.to_nat (fs_blocksize x_fs)) 0)) else read_block blk);
        match r with
        | inl retval => mret (inl retval)
        | inr buf =>
            newpath ← path_at (S (h_level h));
            let newpath := p_set_buf buf newpath in
            _ ← set_path_at (S (h_level h)) newpath;
            let retval := ext2fs_extent_header_verify buf (fs_blocksize x_fs) in
            if decide (retval <> 0) then mret (inl retval)
            else
              _ ← modify_handle (h_set_level (S (h_level h)));
              let failed_csum :=
                negb (has_flag (fs_flags x_fs) 0x200000)
                && bool_decide (ext2fs_extent_block_csum_verify x_read_inode x_fs x_ino buf = 0) in
              let entries := eh_entries buf in
              let end_blk := if decide (p_left path > 0) then ei_block (p_buf path) (ix_next ix) else p_end_blk path in
              let '(ix, rest, visit) :=
                if last
                then (LAST_INDEX buf, 0, if decide (S (h_level h) < h_max_depth h)%nat then 1 else p_visit_num newpath)
                else (FIRST_INDEX, entries - 1, 0) in
              _ ← set_path (mkPath buf entries (eh_max buf) rest visit end_blk (Some ix));
              mret (inr (ix, failed_csum))
        end
  end.

(** The [switch]: a code, or the entry and whether a checksum was wrong. *)
Definition move (orig_op op : Z) : M (Z + option Z * bool) :=
  let plain (m : M (Z + Z)) : M (Z + option Z * bool) :=
    r ← m; mret (match r with inl e => inl e | inr ix => inr (Some ix, false) end) in
  let down (m : M (Z + Z * bool)) : M (Z + option Z * bool) :=
    r ← m; mret (match r with inl e => inl e | inr (ix, f) => inr (Some ix, f) end) in
  h ← get_handle;
  path ← get_path;
  if decide (op = EXT2_EXTENT_CURRENT) then mret (inr (p_curr path, false))
  else if decide (op = EXT2_EXTENT_ROOT) then _ ← modify_handle (h_set_level 0); plain first_sib
  else if decide (op = EXT2_EXTENT_FIRST_SIB) then plain first_sib
  else if decide (op = EXT2_EXTENT_NEXT_SIB) then plain next_sib
  else if decide (op = EXT2_EXTENT_PREV_SIB) then
    match p_curr path with
    | None => mret (inl EXT2_ET_EXTENT_NO_PREV)
    | Some c =>
        if decide (p_left path + 1 >= p_entries path) then mret (inl EXT2_ET_EXTENT_NO_PREV)
        else
          let ix := ix_prev c in
          let path := p_set_left (p_left path + 1) (p_set_curr (Some ix) path) in
          _ ← set_path (if decide (h_level h < h_max_depth h)%nat then p_set_visit 1 path else path);
          mret (inr (Some ix, false))
    end
  else if decide (op = EXT2_EXTENT_LAST_SIB) then
    let ix := LAST_INDEX (p_buf path) in
    _ ← set_path (p_set_visit 0 (p_set_left 0 (p_set_curr (Some ix) path)));
    mret (inr (Some ix, false))
  else if decide (op = EXT2_EXTENT_UP) then
    if decide (h_level h <= 0)%nat then mret (inl EXT2_ET_EXTENT_NO_UP)
    else
      _ ← modify_handle (h_set_level (pred (h_level h)));
      path ← get_path;
      _ ← (if decide (orig_op = EXT2_EXTENT_PREV \/ orig_op = EXT2_EXTENT_PREV_LEAF) then set_path (p_set_visit 0 path) else mret tt);
      mret (inr (p_curr path, false))
  else if decide (op = EXT2_EXTENT_DOWN) then down (move_down false)
  else if decide (op = EXT2_EXTENT_DOWN_AND_LAST) then down (move_down true)
  else mret (inl EXT2_ET_OP_NOT_SUPPORTED).

(** The extent that entry [ix] of a node is; [leaf] at the last level. *)
Definition read_extent (leaf : bool) (path : extent_path) (ix : Z) : ext2fs_extent :=
  let visit := if decide (p_visit_num path <> 0) then EXT2_EXTENT_FLAGS_SECOND_VISIT else 0 in
  let b := p_buf path in
  if leaf then
    let uninit := bool_decide (ee_len b ix > EXT_INIT_MAX_LEN) in
    mkExtent (ee_start b ix) (ee_block b ix) (if uninit then ee_len b ix - EXT_INIT_MAX_LEN else ee_len b ix)
      (Z.lor (Z.lor EXT2_EXTENT_FLAGS_LEAF (if uninit then EXT2_EXTENT_FLAGS_UNINIT else 0)) visit)
  else
    let end_blk := if decide (p_left path > 0) then ei_block b (ix_next ix) else p_end_blk path in
    mkExtent (ei_leaf b ix) (ei_block b ix) (u32 (end_blk - ei_block b ix)) visit.

(** The loop through the label [retry].  The code, and the extent as it has been set by then. *)
Fixpoint get_loop (fuel : nat) (orig_op op : Z) (failed_csum : bool) (extent : ext2fs_extent) : M (Z * ext2fs_extent) :=
  match fuel with
  | O => out_of_fuel
  | S fuel' =>
      c ← choose_op orig_op op;
      match c with
      | inl retval => mret (retval, extent)
      | inr op =>
          r ← move orig_op op;
          match r with
          | inl retval => mret (retval, extent)
          | inr (None, _) => mret (EXT2_ET_NO_CURRENT_NODE, extent)
          | inr (Some ix, f) =>
              let failed_csum := failed_csum || f in
              h ← get_handle;
              path ← get_path;
              let leaf := bool_decide (h_level h = h_max_depth h) in
              let extent := read_extent leaf path ix in
              if bool_decide (orig_op = EXT2_EXTENT_NEXT_LEAF \/ orig_op = EXT2_EXTENT_PREV_LEAF) && negb leaf
              then get_loop fuel' orig_op op failed_csum extent
              else if bool_decide (orig_op = EXT2_EXTENT_LAST_LEAF) && (negb leaf || bool_decide (p_left path <> 0))
              then get_loop fuel' orig_op op failed_csum extent
              else mret (if failed_csum then EXT2_ET_EXTENT_CSUM_INVALID else 0, extent)
          end
      end
  end.

Definition ext2fs_extent_get (fuel : nat) (flags : Z) (extent : ext2fs_extent) : M (Z * ext2fs_extent) :=
  let op := Z.land flags 0xF in get_loop fuel op op false extent.

(** * [ext2fs_extent_goto2] *)

(** The loop; [extent] is the current one. *)
Fixpoint goto_loop (fuel : nat) (leaf_level : Z) (blk : Z) (extent : ext2fs_extent) : M Z :=
  match fuel with
  | O => out_of_fuel
  | S fuel' =>
      h ← get_handle;
      let go_down (extent : ext2fs_extent) : M Z :=
        r ← ext2fs_extent_get fuel EXT2_EXTENT_DOWN extent;
        let '(retval, extent) := r in
        if decide (retval <> 0) then mret retval else goto_loop fuel' leaf_level blk extent in
      if decide (Z.of_nat (h_max_depth h) - Z.of_nat (h_level h) = leaf_level) then
        if decide (e_lblk extent <= blk < e_lblk extent + e_len extent) then mret 0
        else if decide (blk < e_lblk extent) then
          _ ← ext2fs_extent_get fuel EXT2_EXTENT_PREV_SIB extent;
          mret EXT2_ET_EXTENT_NOT_FOUND
        else
          r ← ext2fs_extent_get fuel EXT2_EXTENT_NEXT_SIB extent;
          let '(retval, extent) := r in
          if decide (retval = EXT2_ET_EXTENT_NO_NEXT) then mret EXT2_ET_EXTENT_NOT_FOUND
          else if decide (retval <> 0) then mret retval
          else goto_loop fuel' leaf_level blk extent
      else
        r ← ext2fs_extent_get fuel EXT2_EXTENT_NEXT_SIB extent;
        let '(retval, extent) := r in
        if decide (retval = EXT2_ET_EXTENT_NO_NEXT) then go_down extent
        else if decide (retval <> 0) then mret retval
        else if decide (blk = e_lblk extent) then go_down extent
        else if decide (blk > e_lblk extent) then goto_loop fuel' leaf_level blk extent
        else
          r ← ext2fs_extent_get fuel EXT2_EXTENT_PREV_SIB extent;
          let '(retval, extent) := r in
          if decide (retval <> 0) then mret retval else go_down extent
  end.

Definition no_extent : ext2fs_extent := mkExtent 0 0 0 0.

(** The variable [extent] is not initialised, but set before it is read. *)
Definition ext2fs_extent_goto2 (fuel : nat) (leaf_level blk : Z) : M Z :=
  r ← ext2fs_extent_get fuel EXT2_EXTENT_ROOT no_extent;
  let '(retval, extent) := r in
  if decide (retval <> 0)
  then mret (if decide (retval = EXT2_ET_EXTENT_NO_NEXT) then EXT2_ET_EXTENT_NOT_FOUND else retval)
  else
    h ← get_handle;
    if decide (leaf_level > Z.of_nat (h_max_depth h)) then mret EXT2_ET_OP_NOT_SUPPORTED
    else goto_loop fuel leaf_level blk extent.

Definition ext2fs_extent_goto (fuel : nat) (blk : Z) : M Z := ext2fs_extent_goto2 fuel 0 blk.

(** * Changes *)

Record ext2_extent_info := mkInfo {
  curr_entry : Z; num_entries : Z; max_entries : Z; bytes_avail : Z; curr_level : nat; max_depth : nat
}.

Definition ext2fs_extent_get_info : M ext2_extent_info :=
  h ← get_handle;
  path ← get_path;
  mret (mkInfo (match p_curr path with Some c => c / 12 | None => 0 end) (p_entries path) (p_max_entries path)
          ((p_max_entries path - p_entries path) * 12) (h_level h) (h_max_depth h)).

(** Writing the current node: into the inode, or to its block with a new checksum. *)
Definition update_path : M Z :=
  h ← get_handle;
  match h_level h with
  | O => write_inode
  | S l =>
      parent ← path_at l;
      match p_curr parent with
      | None => undef
      | Some ix =>
          let blk := ei_leaf (p_buf parent) ix in
          path ← get_path;
          let '(retval, buf) := ext2fs_extent_block_csum_set x_read_inode x_fs x_ino (p_buf path) in
          if decide (retval <> 0) then mret retval
          else _ ← set_path (p_set_buf buf path); write_block blk buf
      end
  end.

(** The bytes of an entry. *)
Definition put_start (lo hi : Z) (pblk : Z) (b : list Z) : list Z :=
  put_field 2 hi (u16 (Z.shiftr pblk 32)) (put_field 4 lo (Z.land pblk 0xFFFFFFFF) b).

Definition ext2fs_extent_replace (extent : ext2fs_extent) : M Z :=
  if negb (has_flag (fs_flags x_fs) 1) then mret EXT2_ET_RO_FILSYS
  else
    h ← get_handle;
    path ← get_path;
    match p_curr path with
    | None => mret EXT2_ET_NO_CURRENT_NODE
    | Some c =>
        if decide (h_level h = h_max_depth h) then
          let buf := put_start (c + 8) (c + 6) (e_pblk extent) (put_field 4 c (u32 (e_lblk extent)) (p_buf path)) in
          _ ← set_path (p_set_buf buf path);
          let uninit := has_flag (e_flags extent) EXT2_EXTENT_FLAGS_UNINIT in
          if decide (e_len extent > if uninit then EXT_UNINIT_MAX_LEN else EXT_INIT_MAX_LEN) then mret EXT2_ET_EXTENT_INVALID_LENGTH
          else
            let len := u16 (if uninit then e_len extent + EXT_INIT_MAX_LEN else e_len extent) in
            _ ← set_path (p_set_buf (put_field 2 (c + 4) len buf) path);
            _ ← update_path; mret 0
        else
          let buf := put_field 2 (c + 10) 0 (put_field 4 c (u32 (e_lblk extent)) (put_start (c + 4) (c + 8) (e_pblk extent) (p_buf path))) in
          _ ← set_path (p_set_buf buf path);
          _ ← update_path; mret 0
    end.

(** The loop of [ext2fs_extent_fix_parents]: a code, or [None] when it ends. *)
Fixpoint fix_parents_loop (fuel : nat) (start : Z) (extent : ext2fs_extent) : M (option Z) :=
  match fuel with
  | O => out_of_fuel
  | S fuel' =>
      h ← get_handle;
      path ← get_path;
      if bool_decide (0 < h_level h)%nat && bool_decide (p_left path = p_entries path - 1) then
        r ← ext2fs_extent_get fuel EXT2_EXTENT_UP extent;
        let '(retval, extent) := r in
        if decide (retval <> 0) then mret (Some retval)
        else if decide (e_lblk extent = start) then mret None
        else
          let extent := mkExtent (e_pblk extent) start (u32 (e_len extent + (e_lblk extent - start))) (e_flags extent) in
          retval ← ext2fs_extent_replace extent;
          if decide (retval <> 0) then mret (Some retval)
          else _ ← update_path; fix_parents_loop fuel' start extent
      else mret None
  end.

Definition ext2fs_extent_fix_parents (fuel : nat) : M Z :=
  if negb (has_flag (fs_flags x_fs) 1) then mret EXT2_ET_RO_FILSYS
  else
    path ← get_path;
    match p_curr path with
    | None => mret EXT2_ET_NO_CURRENT_NODE
    | Some _ =>
        r ← ext2fs_extent_get fuel EXT2_EXTENT_CURRENT no_extent;
        let '(retval, extent) := r in
        if decide (retval <> 0) then mret retval
        else
          let start := e_lblk extent in
          info ← ext2fs_extent_get_info;
          let orig_height := Z.of_nat (max_depth info) - Z.of_nat (curr_level info) in
          r ← fix_parents_loop fuel start extent;
          match r with
          | Some retval => mret retval
          | None => ext2fs_extent_goto2 fuel orig_height start
          end
    end.

(** [path] and all paths above it are at their last entry. *)
Definition splitting_at_eof : M bool :=
  h ← get_handle;
  mret (bool_decide (h_level h <> O) && bool_decide (Forall (fun p => p_left p = 0) (take (S (h_level h)) (h_path h)))).

Fixpoint ext2fs_extent_delete (fuel : nat) (flags : Z) : M Z :=
  match fuel with
  | O => out_of_fuel
  | S fuel' =>
      if negb (has_flag (fs_flags x_fs) 1) then mret EXT2_ET_RO_FILSYS
      else
        h ← get_handle;
        path ← get_path;
        match p_curr path with
        | None => mret EXT2_ET_NO_CURRENT_NODE
        | Some cp =>
            let path :=
              if decide (p_left path <> 0)
              then p_set_left (p_left path - 1) (p_set_buf (zsplice cp (zslice (cp + 12) (p_left path * 12) (p_buf path)) (p_buf path)) path)
              else p_set_curr (Some (ix_prev cp)) path in
            let path := p_set_entries (p_entries path - 1) path in
            let path := if decide (p_entries path = 0) then p_set_curr None path else path in
            _ ← set_path path;
            if bool_decide (p_entries path = 0) && bool_decide (h_level h <> O) then
              if has_flag flags 1 then mret 0
              else
                r ← ext2fs_extent_get fuel EXT2_EXTENT_UP no_extent;
                let '(retval, extent) := r in
                if decide (retval <> 0) then mret retval
                else
                  _ ← ext2fs_extent_delete fuel' flags;
                  _ ← modify_handle (fun h => h_set_inode
                        (set_iblk (h_inode h) (u32 (i_blocks (h_inode h) - fs_blocksize x_fs * Z.shiftl 1 (fs_cluster_ratio_bits x_fs) / 512))
                           (l_i_blocks_hi (h_inode h))) h);
                  retval ← write_inode;
                  _ ← free_node (e_pblk extent); mret retval
            else
              let buf := put_field 2 2 (u16 (p_entries path)) (p_buf path) in
              let root_empty := bool_decide (p_entries path = 0) && bool_decide (h_level h = O) in
              _ ← set_path (p_set_buf (if root_empty then put_field 2 6 0 buf else buf) path);
              _ ← modify_handle (fun h => if root_empty then mkHandle (h_inode h) (h_level h) O (h_path h) else h);
              update_path
        end
  end.

Definition EXT2_EXTENT_INSERT_AFTER : Z := 1.
Definition EXT2_EXTENT_INSERT_NOSPLIT : Z := 2.

(** [ext2fs_extent_insert] once there is room. *)
Definition insert_entry (fuel : nat) (flags : Z) (extent : ext2fs_extent) : M Z :=
  path ← get_path;
  let '(ix, rest) :=
    match p_curr path with
    | Some c => if has_flag flags EXT2_EXTENT_INSERT_AFTER then (ix_next c, p_left path - 1) else (c, p_left path)
    | None => (FIRST_INDEX, -1)
    end in
  let buf := if decide (rest >= 0) then zsplice (ix_next ix) (zslice ix ((rest + 1) * 12) (p_buf path)) (p_buf path) else p_buf path in
  let entries := p_entries path + 1 in
  _ ← set_path (mkPath (put_field 2 2 (u16 entries) buf) entries (p_max_entries path) (rest + 1) (p_visit_num path) (p_end_blk path) (Some ix));
  retval ← ext2fs_extent_replace extent;
  retval ← (if decide (retval <> 0) then mret retval else update_path);
  if decide (retval <> 0) then _ ← ext2fs_extent_delete fuel 0; mret retval else mret 0.

(** [extent_node_split] and [ext2fs_extent_insert]. *)
Fixpoint extent_node_split (fuel : nat) (expand_allowed : bool) : M Z :=
  match fuel with
  | O => out_of_fuel
  | S fuel' =>
      let insert (flags : Z) (extent : ext2fs_extent) : M Z :=
        path ← get_path;
        if decide (p_entries path >= p_max_entries path) then
          if has_flag flags EXT2_EXTENT_INSERT_NOSPLIT then mret EXT2_ET_CANT_INSERT_EXTENT
          else retval ← extent_node_split fuel' true;
               if decide (retval <> 0) then mret retval else insert_entry fuel flags extent
        else insert_entry fuel flags extent in
      if negb (has_flag (fs_flags x_fs) 1) then mret EXT2_ET_RO_FILSYS
      else
        r ← ext2fs_extent_get fuel EXT2_EXTENT_CURRENT no_extent;
        let '(retval, extent) := r in
        if decide (retval <> 0) then mret retval
        else
          info ← ext2fs_extent_get_info;
          let orig_height := Z.of_nat (max_depth info) - Z.of_nat (curr_level info) in
          let orig_lblk := e_lblk extent in
          h ← get_handle;
          path ← get_path;
          let goal_blk :=
            if decide (h_level h = h_max_depth h) then ee_start (p_buf path) FIRST_INDEX else ei_leaf (p_buf path) FIRST_INDEX in
          let ratio := Z.shiftl 1 (fs_cluster_ratio_bits x_fs) in
          let goal_blk := Z.land (u64 (goal_blk - ratio)) (Z.lnot (ratio - 1)) in
          (* room in the parent *)
          retval ←
            match h_level h with
            | O => mret 0
            | S l =>
                parent ← path_at l;
                if decide (p_entries parent >= p_max_entries parent) then
                  r ← ext2fs_extent_get fuel EXT2_EXTENT_UP extent;
                  if decide (r.1 <> 0) then mret r.1
                  else
                    retval ← extent_node_split fuel' expand_allowed;
                    if decide (retval <> 0) then mret retval else ext2fs_extent_goto2 fuel orig_height orig_lblk
                else mret 0
            end;
          if decide (retval <> 0) then mret retval
          else
            h ← get_handle;
            path ← get_path;
            match p_curr path with
            | None => mret EXT2_ET_NO_CURRENT_NODE
            | Some _ =>
                eof ← splitting_at_eof;
                let no_balance := expand_allowed && eof in
                let eh := p_buf path in
                let new_root := bool_decide (h_level h = O) in
                let tocopy := if new_root then eh_entries eh else if no_balance then 1 else eh_entries eh / 2 in
                if bool_decide (tocopy = 0) && negb no_balance then mret EXT2_ET_CANT_SPLIT_EXTENT
                else
                  r ← alloc_node goal_blk;
                  match r with
                  | inl retval => mret retval
                  | inr new_node_pblk =>
                      let neweh := zsplice 0 (zslice 0 12 eh) (replicate (Z.to_nat (fs_blocksize x_fs)) 0) in
                      let neweh := put_field 2 4 (u16 ((fs_blocksize x_fs - 12) / 12)) (put_field 2 2 (u16 tocopy) neweh) in
                      let neweh := zsplice 12 (zslice (12 + (eh_entries eh - tocopy) * 12) (12 * tocopy) eh) neweh in
                      let new_node_start := ei_block neweh FIRST_INDEX in
                      let '(retval, neweh) := ext2fs_extent_block_csum_set x_read_inode x_fs x_ino neweh in
                      if decide (retval <> 0) then mret retval
                      else
                        retval ← write_block new_node_pblk neweh;
                        if decide (retval <> 0) then mret retval
                        else
                          _ ← (if new_root then
                                 let buf := put_field 2 2 1 (put_field 2 6 (u16 (Z.of_nat (S (h_max_depth h)))) eh) in
                                 let root := mkPath buf 1 (p_max_entries path) (p_max_entries path - 1) (p_visit_num path) (p_end_blk path) (p_curr path) in
                                 modify_handle (fun h => mkHandle (h_inode h) O (S (h_max_depth h))
                                   (<[O := root]> (h_path h) ++ [mkPath [] 0 0 0 0 0 None]))
                               else
                                 let path := p_set_left (p_left path - tocopy) (p_set_entries (p_entries path - tocopy) path) in
                                 set_path (p_set_buf (put_field 2 2 (u16 (p_entries path)) eh) path));
                          retval ← update_path;
                          if decide (retval <> 0) then mret retval
                          else
                            retval ←
                              (if new_root then
                                 r ← ext2fs_extent_get fuel EXT2_EXTENT_FIRST_SIB extent;
                                 let '(retval, extent) := r in
                                 if decide (retval <> 0) then mret retval
                                 else
                                   root ← path_at O;
                                   ext2fs_extent_replace (mkExtent new_node_pblk new_node_start (u32 (p_end_blk root - new_node_start)) (e_flags extent))
                               else
                                 r ← ext2fs_extent_get fuel EXT2_EXTENT_UP extent;
                                 let extent := r.2 in
                                 let new_node_length := u32 (new_node_start - e_lblk extent) in
                                 let extent := mkExtent (e_pblk extent) (e_lblk extent) (u32 (e_len extent - new_node_length)) (e_flags extent) in
                                 retval ← ext2fs_extent_replace extent;
                                 if decide (retval <> 0) then mret retval
                                 else insert EXT2_EXTENT_INSERT_AFTER (mkExtent new_node_pblk new_node_start new_node_length (e_flags extent)));
                            if decide (retval <> 0) then mret retval
                            else
                              retval ← ext2fs_extent_goto2 fuel orig_height orig_lblk;
                              if decide (retval <> 0) then mret retval
                              else
                                _ ← modify_handle (fun h => h_set_inode (ext2fs_iblk_add_blocks x_fs (h_inode h) 1).2 h);
                                write_inode
                  end
            end
  end.

Definition ext2fs_extent_node_split (fuel : nat) : M Z := extent_node_split fuel false.

Definition ext2fs_extent_insert (fuel : nat) (flags : Z) (extent : ext2fs_extent) : M Z :=
  if negb (has_flag (fs_flags x_fs) 1) then mret EXT2_ET_RO_FILSYS
  else
    path ← get_path;
    if decide (p_entries path >= p_max_entries path) then
      if has_flag flags EXT2_EXTENT_INSERT_NOSPLIT then mret EXT2_ET_CANT_INSERT_EXTENT
      else retval ← extent_node_split fuel true;
           if decide (retval <> 0) then mret retval else insert_entry fuel flags extent
    else insert_entry fuel flags extent.

(** * [ext2fs_extent_set_bmap] *)

Definition is_uninit (e : ext2fs_extent) : bool := has_flag (e_flags e) EXT2_EXTENT_FLAGS_UNINIT.

(** Growing an extent by the block before it or after it. *)
Definition grow_front (e : ext2fs_extent) : ext2fs_extent := mkExtent (u64 (e_pblk e - 1)) (u64 (e_lblk e - 1)) (u32 (e_len e + 1)) (e_flags e).
Definition grow_back (e : ext2fs_extent) : ext2fs_extent := mkExtent (e_pblk e) (e_lblk e) (u32 (e_len e + 1)) (e_flags e).

(** The mapping goes just before or just after an extent, which is not too long. *)
Definition before (logical physical : Z) (uninit : bool) (max_len : Z) (e : ext2fs_extent) : bool :=
  bool_decide (logical = u64 (e_lblk e - 1)) && bool_decide (physical = u64 (e_pblk e - 1)) && eqb uninit (is_uninit e)
  && bool_decide (s32 (e_len e) < max_len - 1).
Definition after (logical physical : Z) (uninit : bool) (max_len : Z) (e : ext2fs_extent) : bool :=
  bool_decide (logical = u64 (e_lblk e + e_len e)) && bool_decide (physical = u64 (e_pblk e + e_len e)) && eqb uninit (is_uninit e)
  && bool_decide (s32 (e_len e) < max_len - 1).

(** Moving to the next or previous leaf, and growing it. *)
Definition grow_neighbour (fuel : nat) (op : Z) (grow : ext2fs_extent -> ext2fs_extent) (e : ext2fs_extent) : M Z :=
  r ← ext2fs_extent_get fuel op e;
  let '(retval, e) := r in
  if decide (retval <> 0) then mret retval else ext2fs_extent_replace (grow e).

(** [m], then [k] if it succeeds. *)
Definition and_then (m : M Z) (k : M Z) : M Z := retval ← m; if decide (retval <> 0) then mret retval else k.

Section bmap.
Variables (fuel : nat) (logical physical : Z) (new_uninit : bool) (max_len : Z).
Variables (newextent extent : ext2fs_extent) (next prev : option ext2fs_extent).

Definition map_unmapped : M Z :=
  and_then
    (if after logical physical new_uninit max_len extent then ext2fs_extent_replace (grow_back extent)
     else if before logical physical new_uninit max_len extent then ext2fs_extent_replace (grow_front extent)
     else
       match next with
       | Some e =>
           if before logical physical new_uninit max_len e then grow_neighbour fuel EXT2_EXTENT_NEXT_LEAF grow_front e
           else ext2fs_extent_insert fuel (if decide (logical < e_lblk extent) then 0 else EXT2_EXTENT_INSERT_AFTER) newextent
       | None => ext2fs_extent_insert fuel (if decide (logical < e_lblk extent) then 0 else EXT2_EXTENT_INSERT_AFTER) newextent
       end)
    (ext2fs_extent_fix_parents fuel).

Definition remap_only : M Z :=
  if decide (physical <> 0) then ext2fs_extent_replace newextent
  else
    and_then (ext2fs_extent_delete fuel 0)
      (ec ← ext2fs_extent_fix_parents fuel; mret (if decide (ec <> EXT2_ET_NO_CURRENT_NODE) then ec else 0)).

Definition remap_last : M Z :=
  let shorten (e : ext2fs_extent) : M Z := ext2fs_extent_replace (mkExtent (e_pblk e) (e_lblk e) (u32 (e_len e - 1)) (e_flags e)) in
  if decide (physical <> 0) then
    and_then
      (match next with
       | Some e =>
           if before logical physical new_uninit max_len e then grow_neighbour fuel EXT2_EXTENT_NEXT_LEAF grow_front e
           else ext2fs_extent_insert fuel EXT2_EXTENT_INSERT_AFTER newextent
       | None => ext2fs_extent_insert fuel EXT2_EXTENT_INSERT_AFTER newextent
       end)
    (and_then (ext2fs_extent_fix_parents fuel)
    (and_then (ext2fs_extent_goto fuel logical)
      (r ← ext2fs_extent_get fuel EXT2_EXTENT_CURRENT extent;
       let '(retval, e) := r in if decide (retval <> 0) then mret retval else shorten e)))
  else shorten extent.

Definition remap_first : M Z :=
  let shift (e : ext2fs_extent) : M Z :=
    and_then (ext2fs_extent_replace (mkExtent (u64 (e_pblk e + 1)) (u64 (e_lblk e + 1)) (u32 (e_len e - 1)) (e_flags e)))
      (ext2fs_extent_fix_parents fuel) in
  if decide (physical <> 0) then
    and_then
      (match prev with
       | Some e =>
           if after logical physical new_uninit max_len e then grow_neighbour fuel EXT2_EXTENT_PREV_LEAF grow_back e
           else ext2fs_extent_insert fuel 0 newextent
       | None => ext2fs_extent_insert fuel 0 newextent
       end)
    (and_then (ext2fs_extent_fix_parents fuel)
      (r ← ext2fs_extent_get fuel EXT2_EXTENT_NEXT_LEAF extent;
       let '(retval, e) := r in if decide (retval <> 0) then mret retval else shift e))
  else shift extent.

(** Undoing: going back to where the extent was and restoring it. *)
Definition restore_extent : M unit :=
  r2 ← ext2fs_extent_goto fuel (e_lblk extent);
  if decide (r2 = 0) then _ ← ext2fs_extent_replace extent; mret tt else mret tt.

Definition remap_middle : M Z :=
  let len := u32 (logical - e_lblk extent) in
  let head := mkExtent (e_pblk extent) (e_lblk extent) len (e_flags extent) in
  let tail := mkExtent (u64 (e_pblk extent + u32 (len + 1))) (u64 (e_lblk extent + u32 (len + 1))) (u32 (e_len extent - len - 1)) (e_flags extent) in
  and_then (ext2fs_extent_replace head)
    (retval ← (if decide (physical <> 0) then ext2fs_extent_insert fuel EXT2_EXTENT_INSERT_AFTER newextent else mret 0);
     if decide (retval <> 0) then _ ← restore_extent; mret retval
     else
       retval ← ext2fs_extent_insert fuel EXT2_EXTENT_INSERT_AFTER tail;
       if decide (retval <> 0) then
         _ ← (if decide (physical <> 0) then
                r2 ← ext2fs_extent_goto fuel (e_lblk newextent);
                if decide (r2 = 0) then _ ← ext2fs_extent_delete fuel 0; mret tt else mret tt
              else mret tt);
         _ ← restore_extent; mret retval
       else mret 0).

(** The change at the place that was found; [retval] is the code of the last [goto]. *)
Definition bmap_change (mapped : bool) (retval : Z) : M Z :=
  if mapped && eqb new_uninit (is_uninit extent) && bool_decide (u64 (e_pblk extent + (logical - e_lblk extent)) = physical) then mret retval
  else if negb mapped then map_unmapped
  else if decide (logical = e_lblk extent /\ e_len extent = 1) then remap_only
  else if decide (logical = u64 (e_lblk extent + e_len extent - 1)) then remap_last
  else if decide (logical = e_lblk extent) then remap_first
  else remap_middle.

End bmap.

(** A neighbour, when there is one: [inl] for another failure. *)
Definition get_neighbour (fuel : nat) (op none : Z) : M (Z + option ext2fs_extent) :=
  r ← ext2fs_extent_get fuel op no_extent;
  let '(retval, e) := r in
  mret (if decide (retval = 0) then inr (Some e) else if decide (retval = none) then inr None else inl retval).

(** [goto logical], where no mapping is no error. *)
Definition goto_or_hole (fuel : nat) (logical : Z) : M Z :=
  retval ← ext2fs_extent_goto fuel logical; mret (if decide (retval = EXT2_ET_EXTENT_NOT_FOUND) then 0 else retval).

Definition bmap_at (fuel : nat) (logical physical : Z) (flags : Z) (newextent : ext2fs_extent) : M Z :=
  let new_uninit := has_flag flags 1 in
  let max_len := if new_uninit then EXT_UNINIT_MAX_LEN else EXT_INIT_MAX_LEN in
  retval ← ext2fs_extent_goto fuel logical;
  if bool_decide (retval <> 0) && bool_decide (retval <> EXT2_ET_EXTENT_NOT_FOUND) then mret retval
  else if bool_decide (retval <> 0) && bool_decide (physical = 0) then mret 0
  else
    let mapped := bool_decide (retval = 0) in
    r ← ext2fs_extent_get fuel EXT2_EXTENT_CURRENT no_extent;
    let '(retval, extent) := r in
    if decide (retval <> 0) then mret retval
    else
      n ← get_neighbour fuel EXT2_EXTENT_NEXT_LEAF EXT2_ET_EXTENT_NO_NEXT;
      match n with
      | inl retval => mret retval
      | inr next =>
          and_then (goto_or_hole fuel logical)
            (p ← get_neighbour fuel EXT2_EXTENT_PREV_LEAF EXT2_ET_EXTENT_NO_PREV;
             match p with
             | inl retval => mret retval
             | inr prev =>
                 retval ← ext2fs_extent_goto fuel logical;
                 if bool_decide (retval <> 0) && bool_decide (retval <> EXT2_ET_EXTENT_NOT_FOUND) then mret retval
                 else bmap_change fuel logical physical new_uninit max_len newextent extent next prev mapped retval
             end)
      end.

(** The new extent when [physical] is 0 is not initialised: [garbage]. *)
Definition ext2fs_extent_set_bmap (fuel : nat) (garbage : ext2fs_extent) (logical physical : Z) (flags : Z) : M Z :=
  if negb (has_flag (fs_flags x_fs) 1) then mret EXT2_ET_RO_FILSYS
  else
    h ← get_handle;
    path ← get_path;
    let newextent :=
      if decide (physical <> 0)
      then mkExtent physical logical 1 (Z.lor EXT2_EXTENT_FLAGS_LEAF (if has_flag flags 1 then EXT2_EXTENT_FLAGS_UNINIT else 0))
      else garbage in
    if decide (h_max_depth h = O /\ p_entries path = 0) then ext2fs_extent_insert fuel 0 newextent
    else
      r ← ext2fs_extent_get fuel EXT2_EXTENT_CURRENT no_extent;
      let '(retval, extent) := r in
      if bool_decide (retval <> 0) && bool_decide (retval <> EXT2_ET_NO_CURRENT_NODE) then mret retval
      else
        let extent := if decide (retval = 0) then extent else no_extent in
        info ← ext2fs_extent_get_info;
        let orig_height := Z.of_nat (max_depth info) - Z.of_nat (curr_level info) in
        retval ← bmap_at fuel logical physical flags newextent;
        h ← get_handle;
        let orig_height := if decide (orig_height > Z.of_nat (h_max_depth h)) then Z.of_nat (h_max_depth h) else orig_height in
        _ ← ext2fs_extent_goto2 fuel orig_height (e_lblk extent);
        mret retval.

End extent.

(** * Depth of a tree *)

(** [while (arg) { l++; arg >>= 1; }] *)
Fixpoint log2_loop (fuel : nat) (arg l : Z) : Z :=
  match fuel with
  | O => l
  | S fuel' => if decide (arg = 0) then l else log2_loop fuel' (Z.shiftr arg 1) (l + 1)
  end.

Definition ul_log2 (arg : Z) : Z := log2_loop 64 (Z.shiftr arg 1) 0.

(** [ext2fs_max_extent_depth]; the code keeps the last result for the same block size. *)
Definition ext2fs_max_extent_depth (blocksize : Z) : Z :=
  let iblock_extents := (60 - 12) / 12 in
  let extents_per_block := (blocksize - 12) / 12 in
  1 + (ul_log2 (2 ^ 32 - 1) - ul_log2 iblock_extents) / ul_log2 extents_per_block.
