(* ===== verification/ExtentProofs.v ===== *)
(** Walking the extent tree: the leaves of a tree as a list, and [ext2fs_extent_get] as a walk
    over that list. *)
From Stdlib Require Import ZArith Lia.
From stdpp Require Import base tactics numbers list.
From S2P Require Import Prelude ExtErr Crc32c BlkNum Csum Extent.

Section walk.
Context {D : Type} `{!ExtentEnv D} `{!Checksum}.
Abbreviation M := (X D).
Implicit Types (h : ext2_extent_handle) (p : extent_path) (d : D) (b : list Z).

(** * The leaves of a tree *)

Definition joined (l : list (list ext2fs_extent)) : list ext2fs_extent := List.concat l.

(** The offset of an entry. *)
Definition entry_off (i : Z) : Z := 12 + 12 * i.

(** The extent in entry [i] of a leaf node. *)
Definition leaf_extent b (i : Z) : ext2fs_extent := read_extent true (mkPath b 0 0 0 0 0 None) (entry_off i).

(** The node in a block, when it can be read and verifies and is not empty. *)
Definition node_read d (blk : Z) : option (list Z) :=
  match io_channel_read_blk64 d blk with
  | inr b =>
      if bool_decide (ext2fs_extent_header_verify b (fs_blocksize x_fs) = 0)
         && bool_decide (ext2fs_extent_block_csum_verify x_read_inode x_fs x_ino b <> 0) && bool_decide (0 < eh_entries b)
      then Some b else None
  | inl _ => None
  end.

(** The leaves under entry [i] of a node of height [n]; 0 is the height of a leaf node. *)
Fixpoint entry_leaves (n : nat) d b (i : Z) : option (list ext2fs_extent) :=
  match n with
  | O => Some [leaf_extent b i]
  | S n' => b' ← node_read d (ei_leaf b (entry_off i)); joined <$> mapM (entry_leaves n' d b') (seqZ 0 (eh_entries b'))
  end.

(** The leaves under [k] entries from [lo] on. *)
Definition range_leaves (n : nat) d b (lo k : Z) : option (list ext2fs_extent) := joined <$> mapM (entry_leaves n d b) (seqZ lo k).

Lemma range_leaves_split n d b lo j k ls :
  0 <= j -> 0 <= k -> range_leaves n d b lo (j + k) = Some ls ->
  exists l1 l2, range_leaves n d b lo j = Some l1 /\ range_leaves n d b (lo + j) k = Some l2 /\ ls = l1 ++ l2.
Proof.
  intros Hj Hk. unfold range_leaves. rewrite seqZ_app by lia. intros (lss & HM & ->)%fmap_Some.
  apply mapM_Some in HM. apply Forall2_app_inv_l in HM as (m1 & m2 & H1 & H2 & ->).
  exists (joined m1), (joined m2). apply mapM_Some in H1, H2. rewrite H1, H2. cbn. split_and!; [done|done|by apply concat_app].
Qed.

Lemma range_leaves_one n d b lo : range_leaves n d b lo 1 = entry_leaves n d b lo.
Proof.
  unfold range_leaves. rewrite seqZ_cons by lia. rewrite seqZ_nil by lia. cbn. destruct (entry_leaves n d b lo); [|done]. cbn. by rewrite app_nil_r.
Qed.

Lemma range_leaves_cons n d b lo k ls :
  0 < k -> range_leaves n d b lo k = Some ls ->
  exists l1 l2, entry_leaves n d b lo = Some l1 /\ range_leaves n d b (lo + 1) (k - 1) = Some l2 /\ ls = l1 ++ l2.
Proof. intros Hk HR. replace k with (1 + (k - 1)) in HR by lia. apply range_leaves_split in HR as (l1 & l2 & H1 & H2 & ->); [|lia..]. rewrite range_leaves_one in H1. eauto. Qed.

Lemma range_leaves_nil n d b lo : range_leaves n d b lo 0 = Some [].
Proof. done. Qed.

(** * Positions *)

(** A position in a node of height [n]: before the first entry, or at an entry with [p_left]
    entries after it. *)
Record path_ok (n : nat) d p : Prop := {
  po_entries : p_entries p = eh_entries (p_buf p);
  po_left : 0 <= p_left p <= p_entries p;
  po_curr : p_curr p = if decide (p_left p = p_entries p) then None else Some (entry_off (p_entries p - p_left p - 1));
  po_leaves : is_Some (range_leaves n d (p_buf p) 0 (p_entries p))
}.

(** The leaves after the position. *)
Definition rest (n : nat) d p : list ext2fs_extent := default [] (range_leaves n d (p_buf p) (p_entries p - p_left p) (p_left p)).

(** The leaves after the positions of the levels up to [l], the deepest first. *)
Fixpoint rest_up d h (l : nat) : list ext2fs_extent :=
  match h_path h !! l with
  | Some p => rest (h_max_depth h - l) d p ++ match l with O => [] | S l' => rest_up d h l' end
  | None => []
  end.

(** A handle whose levels up to [l] have positions, and have been visited above [l]. *)
Record walk_ok d h (l : nat) : Prop := {
  wo_level : h_level h = l;
  wo_depth : (l <= h_max_depth h)%nat;
  wo_paths : length (h_path h) = S (h_max_depth h);
  wo_path k p : (k <= l)%nat -> h_path h !! k = Some p -> path_ok (h_max_depth h - k) d p;
  wo_visit k p : (k < l)%nat -> h_path h !! k = Some p -> p_visit_num p <> 0 /\ is_Some (p_curr p)
}.

Lemma walk_path d h l k : walk_ok d h l -> (k <= l)%nat -> exists p, h_path h !! k = Some p /\ path_ok (h_max_depth h - k) d p.
Proof.
  intros [H1 H2 H3 H4 H5] Hk. destruct (lookup_lt_is_Some_2 (h_path h) k) as [p Hp]; [lia|]. exists p. split; [done|]. by apply H4.
Qed.

(** The handle with another path at a level. *)
Definition upd h (l : nat) p : ext2_extent_handle := mkHandle (h_inode h) (h_level h) (h_max_depth h) (<[l := p]> (h_path h)).

Lemma get_path_eq h d p : h_path h !! h_level h = Some p -> get_path h d = Xok p h d.
Proof. intros Hp. unfold get_path, path_at, get_handle, mbind, X_bind. by rewrite Hp. Qed.

Lemma set_path_eq h d p : set_path p h d = Xok tt (upd h (h_level h) p) d.
Proof. done. Qed.

(** Positions up to a level, whatever has been visited. *)
Definition same_place h h' (l : nat) : Prop :=
  h_max_depth h' = h_max_depth h /\ forall k, (k <= l)%nat -> p_set_visit 0 <$> h_path h' !! k = p_set_visit 0 <$> h_path h !! k.

Lemma rest_visit n d p p' : p_set_visit 0 p = p_set_visit 0 p' -> rest n d p = rest n d p'.
Proof. destruct p, p'. intros [= -> -> -> -> -> ->]. done. Qed.

Lemma path_ok_visit n d p p' : p_set_visit 0 p = p_set_visit 0 p' -> path_ok n d p -> path_ok n d p'.
Proof. destruct p, p'. intros [= -> -> -> -> -> ->] []. by split. Qed.

Lemma rest_up_same d h h' l : same_place h h' l -> rest_up d h' l = rest_up d h l.
Proof.
  intros [Hm Hp]. induction l as [|l IH]; cbn [rest_up]; rewrite Hm.
  - specialize (Hp O ltac:(lia)). destruct (h_path h' !! O) as [p'|], (h_path h !! O) as [p|]; try done. apply (inj Some) in Hp. by rewrite (rest_visit _ _ _ _ Hp).
  - rewrite IH by (intros; apply Hp; lia). specialize (Hp (S l) ltac:(lia)). destruct (h_path h' !! S l) as [p'|], (h_path h !! S l) as [p|]; try done. apply (inj Some) in Hp. by rewrite (rest_visit _ _ _ _ Hp).
Qed.

Lemma same_place_trans h1 h2 h3 l l' : same_place h1 h2 l -> same_place h2 h3 l' -> (l <= l')%nat -> same_place h1 h3 l.
Proof. intros [M1 P1] [M2 P2] Hl. split; [congruence|]. intros k Hk. rewrite P2 by lia. by apply P1. Qed.

Lemma same_place_upd_above h l k p : (l < k)%nat -> same_place h (upd h k p) l.
Proof. intros Hk. split; [done|]. intros j Hj. cbn. by rewrite list_lookup_insert_ne by lia. Qed.

Lemma same_place_visit h l p v : h_path h !! l = Some p -> same_place h (upd h l (p_set_visit v p)) l.
Proof.
  intros Hp. split; [done|]. intros j Hj. cbn. destruct (decide (j = l)) as [->|]; [|by rewrite list_lookup_insert_ne].
  rewrite list_lookup_insert_eq by (by eapply lookup_lt_Some). rewrite Hp. by destruct p.
Qed.

(** * Single moves *)

Section moves.
Variables (h : ext2_extent_handle) (d : D) (p : extent_path).
Hypothesis Hp : h_path h !! h_level h = Some p.

Lemma choose_next op :
  choose_op EXT2_EXTENT_NEXT_LEAF op h d =
    if decide (h_level h < h_max_depth h)%nat then
      if decide (p_visit_num p = 0) then Xok (inr EXT2_EXTENT_DOWN) (upd h (h_level h) (p_set_visit 1 p)) d
      else if decide (p_left p > 0) then Xok (inr EXT2_EXTENT_NEXT_SIB) h d
      else if decide (0 < h_level h)%nat then Xok (inr EXT2_EXTENT_UP) h d else Xok (inl EXT2_ET_EXTENT_NO_NEXT) h d
    else if decide (p_left p > 0) then Xok (inr EXT2_EXTENT_NEXT_SIB) h d
      else if decide (0 < h_level h)%nat then Xok (inr EXT2_EXTENT_UP) h d else Xok (inl EXT2_ET_EXTENT_NO_NEXT) h d.
Proof using Hp.
  unfold choose_op. change (mbind ?k get_handle h d) with (k h h d). cbv beta. unfold mbind at 1, X_bind at 1. rewrite get_path_eq with (p := p) by done.
  rewrite decide_True by (by right). destruct (decide (h_level h < h_max_depth h)%nat) as [Hl|Hl].
  - rewrite (bool_decide_eq_true_2 _ Hl). cbn [andb]. destruct (decide (p_visit_num p = 0)) as [Hv|Hv].
    + rewrite (bool_decide_eq_true_2 _ Hv), Hv. done.
    + rewrite (bool_decide_eq_false_2 _ Hv). destruct (decide (p_left p > 0)); [done|]. by destruct (decide (0 < h_level h)%nat).
  - rewrite (bool_decide_eq_false_2 _ Hl). cbn [andb]. destruct (decide (p_left p > 0)); [done|]. by destruct (decide (0 < h_level h)%nat).
Qed.

Lemma choose_plain orig op :
  orig <> EXT2_EXTENT_NEXT -> orig <> EXT2_EXTENT_NEXT_LEAF -> orig <> EXT2_EXTENT_PREV -> orig <> EXT2_EXTENT_PREV_LEAF -> orig <> EXT2_EXTENT_LAST_LEAF ->
  choose_op orig op h d = Xok (inr op) h d.
Proof using Hp.
  intros. unfold choose_op. change (mbind ?k get_handle h d) with (k h h d). cbv beta. unfold mbind at 1, X_bind at 1. rewrite get_path_eq with (p := p) by done.
  by rewrite !decide_False by tauto.
Qed.

Lemma next_sib_eq :
  next_sib h d =
    if decide (p_left p <= 0) then Xok (inl EXT2_ET_EXTENT_NO_NEXT) h d
    else let ix := match p_curr p with Some c => c + 12 | None => 12 end in
         Xok (inr ix) (upd h (h_level h) (p_set_visit 0 (p_set_curr (Some ix) (p_set_left (p_left p - 1) p)))) d.
Proof using Hp. unfold next_sib, mbind at 1, X_bind at 1. rewrite get_path_eq with (p := p) by done. by destruct (decide (p_left p <= 0)). Qed.

Lemma move_next orig : move orig EXT2_EXTENT_NEXT_SIB h d =
  if decide (p_left p <= 0) then Xok (inl EXT2_ET_EXTENT_NO_NEXT) h d
  else let ix := match p_curr p with Some c => c + 12 | None => 12 end in
       Xok (inr (Some ix, false)) (upd h (h_level h) (p_set_visit 0 (p_set_curr (Some ix) (p_set_left (p_left p - 1) p)))) d.
Proof using Hp.
  unfold move. change (mbind ?k get_handle h d) with (k h h d). cbv beta. unfold mbind at 1, X_bind at 1. rewrite get_path_eq with (p := p) by done.
  rewrite decide_False, decide_False, decide_False, decide_True by done. unfold mbind, X_bind. rewrite next_sib_eq. by destruct (decide (p_left p <= 0)).
Qed.

Lemma move_prev orig c : p_curr p = Some c -> p_left p + 1 < p_entries p ->
  move orig EXT2_EXTENT_PREV_SIB h d =
    let q := p_set_left (p_left p + 1) (p_set_curr (Some (c - 12)) p) in
    Xok (inr (Some (c - 12), false)) (upd h (h_level h) (if decide (h_level h < h_max_depth h)%nat then p_set_visit 1 q else q)) d.
Proof using Hp.
  intros Hc Hl. unfold move. change (mbind ?k get_handle h d) with (k h h d). cbv beta. unfold mbind at 1, X_bind at 1. rewrite get_path_eq with (p := p) by done.
  rewrite decide_False, decide_False, decide_False, decide_False, decide_True by done. rewrite Hc. by rewrite decide_False by lia.
Qed.

Lemma move_prev_none orig : p_left p + 1 >= p_entries p -> move orig EXT2_EXTENT_PREV_SIB h d = Xok (inl EXT2_ET_EXTENT_NO_PREV) h d.
Proof using Hp.
  intros Hl. unfold move. change (mbind ?k get_handle h d) with (k h h d). cbv beta. unfold mbind at 1, X_bind at 1. rewrite get_path_eq with (p := p) by done.
  rewrite decide_False, decide_False, decide_False, decide_False, decide_True by done. destruct (p_curr p); [|done]. by rewrite decide_True by lia.
Qed.

Lemma move_up l q : h_level h = S l -> h_path h !! l = Some q ->
  move EXT2_EXTENT_NEXT_LEAF EXT2_EXTENT_UP h d = Xok (inr (p_curr q, false)) (h_set_level l h) d.
Proof using Hp.
  intros Hl Hq. unfold move. change (mbind ?k get_handle h d) with (k h h d). cbv beta. unfold mbind at 1, X_bind at 1. rewrite get_path_eq with (p := p) by done.
  rewrite decide_False, decide_False, decide_False, decide_False, decide_False, decide_False, decide_True by done. rewrite decide_False by lia.
  rewrite Hl. cbn [pred]. unfold mbind, X_bind, modify_handle. rewrite get_path_eq with (p := q) by done. by rewrite decide_False by (intros [|]; done).
Qed.

(** The position a node is entered at. *)
Definition first_of (b : list Z) (end_blk : Z) : extent_path := mkPath b (eh_entries b) (eh_max b) (eh_entries b - 1) 0 end_blk (Some 12).

Lemma move_down_eq orig c b :
  x_image = false -> p_curr p = Some c -> (h_level h < h_max_depth h)%nat -> length (h_path h) = S (h_max_depth h) ->
  node_read d (ei_leaf (p_buf p) c) = Some b ->
  exists end_blk, move orig EXT2_EXTENT_DOWN h d =
    Xok (inr (Some 12, false)) (h_set_level (S (h_level h)) (upd h (S (h_level h)) (first_of b end_blk))) d.
Proof using Hp.
  intros Himg Hc Hl Hlen Hr. exists (if decide (p_left p > 0) then ei_block (p_buf p) (ix_next c) else p_end_blk p).
  unfold node_read in Hr. destruct (io_channel_read_blk64 d (ei_leaf (p_buf p) c)) as [e|b'] eqn:HR; [done|].
  destruct (bool_decide _ && _ && _) eqn:E; [|done]. injection Hr as ->. rewrite !andb_true_iff, !bool_decide_eq_true in E. destruct E as [[E1 E2] E3].
  unfold move. change (mbind ?k get_handle h d) with (k h h d). cbv beta. unfold mbind at 1, X_bind at 1. rewrite get_path_eq with (p := p) by done.
  do 7 rewrite decide_False by done. rewrite decide_True by done.
  unfold move_down, mbind, X_bind, get_handle. rewrite get_path_eq with (p := p) by done. rewrite Hc, decide_False by lia. rewrite Himg.
  unfold read_block, mret, X_ret. rewrite HR. destruct (lookup_lt_is_Some_2 (h_path h) (S (h_level h))) as [q Hq]; [lia|].
  unfold path_at, mbind, X_bind, get_handle. rewrite Hq. cbn [mret X_ret]. unfold mret, X_ret, set_path_at, modify_handle. rewrite E1. rewrite decide_False by tauto.
  rewrite (bool_decide_eq_false_2 (ext2fs_extent_block_csum_verify _ _ _ b = 0)) by done. rewrite andb_false_r.
  unfold set_path, mbind, X_bind, get_handle, set_path_at, modify_handle. f_equal. unfold upd, h_set_level. cbn. by rewrite list_insert_insert_eq.
Qed.

End moves.

(** * The walk over the leaves *)

Lemma next_turn fuel op op' e h h1 h2 d ix q :
  choose_op EXT2_EXTENT_NEXT_LEAF op h d = Xok (inr op') h1 d -> move EXT2_EXTENT_NEXT_LEAF op' h1 d = Xok (inr (Some ix, false)) h2 d ->
  h_path h2 !! h_level h2 = Some q ->
  get_loop (S fuel) EXT2_EXTENT_NEXT_LEAF op false e h d =
    if decide (h_level h2 = h_max_depth h2) then Xok (0, read_extent true q ix) h2 d
    else get_loop fuel EXT2_EXTENT_NEXT_LEAF op' false (read_extent false q ix) h2 d.
Proof.
  intros Hc Hm Hq. cbn [get_loop]. unfold mbind, X_bind. rewrite Hc, Hm. unfold get_handle. rewrite get_path_eq with (p := q) by done. cbn [orb].
  rewrite (bool_decide_eq_true_2 (EXT2_EXTENT_NEXT_LEAF = EXT2_EXTENT_NEXT_LEAF \/ _)) by (by left). cbn [andb].
  destruct (decide (h_level h2 = h_max_depth h2)) as [Hl|Hl].
  - rewrite (bool_decide_eq_true_2 _ Hl). cbn [negb]. rewrite (bool_decide_eq_false_2 (EXT2_EXTENT_NEXT_LEAF = EXT2_EXTENT_LAST_LEAF)) by done. done.
  - rewrite (bool_decide_eq_false_2 _ Hl). done.
Qed.

Lemma path_ok_first n d b end_blk : 0 < eh_entries b -> is_Some (range_leaves n d b 0 (eh_entries b)) -> path_ok n d (first_of b end_blk).
Proof.
  intros He Hs. split; cbn; [done|lia| |done]. rewrite decide_False by lia. f_equal. unfold entry_off. lia.
Qed.

Lemma node_read_pos d blk b : node_read d blk = Some b -> 0 < eh_entries b.
Proof.
  unfold node_read. destruct (io_channel_read_blk64 d blk); [done|]. destruct (bool_decide _ && _ && _) eqn:E; [|done].
  intros [= ->]. rewrite !andb_true_iff, !bool_decide_eq_true in E. tauto.
Qed.

(** The path of a new level. *)
Lemma walk_down d h l p b end_blk :
  walk_ok d h l -> (l < h_max_depth h)%nat -> h_path h !! l = Some p -> is_Some (p_curr p) -> path_ok (h_max_depth h - S l) d (first_of b end_blk) ->
  let h' := h_set_level (S l) (upd (upd h l (p_set_visit 1 p)) (S l) (first_of b end_blk)) in
  walk_ok d h' (S l) /\ h_path h' !! S l = Some (first_of b end_blk) /\ same_place h h' l /\ h_max_depth h' = h_max_depth h.
Proof.
  intros [W1 W2 W3 W4 W5] Hl Hp Hcur Hq. cbv zeta. set (h1 := upd h l (p_set_visit 1 p)).
  assert (Hlen : length (h_path h1) = S (h_max_depth h)) by (cbn; by rewrite length_insert).
  assert (Hq' : h_path (upd h1 (S l) (first_of b end_blk)) !! S l = Some (first_of b end_blk)) by (apply list_lookup_insert_eq; lia).
  assert (HP : forall k q, (k <= l)%nat -> <[S l := first_of b end_blk]> (h_path h1) !! k = Some q -> h_path h1 !! k = Some q) by (intros k q Hk; by rewrite list_lookup_insert_ne by lia).
  split_and!; [split; cbn [h_level h_max_depth h_path h_set_level upd]|done| |done].
  - done.
  - exact Hl.
  - by rewrite length_insert.
  - intros k q Hk HK. destruct (decide (k = S l)) as [->|Hne].
    { cbn [upd h_path] in Hq'. rewrite Hq' in HK. by injection HK as <-. }
    apply HP in HK; [|lia]. cbn in HK. destruct (decide (k = l)) as [->|].
    + rewrite list_lookup_insert_eq in HK by (eapply lookup_lt_Some; exact Hp). injection HK as <-. apply (path_ok_visit _ _ p); [by destruct p|]. by apply W4.
    + rewrite list_lookup_insert_ne in HK by done. apply W4; [lia|done].
  - intros k q Hk HK. apply HP in HK; [|lia]. cbn in HK. destruct (decide (k = l)) as [->|].
    + rewrite list_lookup_insert_eq in HK by (eapply lookup_lt_Some; exact Hp). by injection HK as <-.
    + rewrite list_lookup_insert_ne in HK by done. apply (W5 k); [lia|done].
  - apply (same_place_trans h h1 _ l l); [by apply same_place_visit| |lia]. split; [done|]. intros k Hk. cbn. by rewrite list_lookup_insert_ne by lia.
Qed.

(** What a successful step of the walk leaves. *)
Definition arrives d h (x : ext2fs_extent) (xs : list ext2fs_extent) (r : xres D (Z * ext2fs_extent)) : Prop :=
  exists h', r = Xok (0, x) h' d /\ walk_ok d h' (h_max_depth h) /\ h_max_depth h' = h_max_depth h /\ h_inode h' = h_inode h /\ rest_up d h' (h_max_depth h) = xs.

Lemma leaf_first b end_blk : read_extent true (first_of b end_blk) 12 = leaf_extent b 0.
Proof. done. Qed.

Hypothesis no_image : x_image = false.

(** One turn down. *)
Lemma down_turn d h l p i b fuel op e :
  walk_ok d h l -> (l < h_max_depth h)%nat -> h_path h !! l = Some p -> p_visit_num p = 0 -> p_curr p = Some (entry_off i) ->
  node_read d (ei_leaf (p_buf p) (entry_off i)) = Some b -> is_Some (range_leaves (h_max_depth h - S l) d b 0 (eh_entries b)) ->
  exists end_blk h2 e', walk_ok d h2 (S l) /\ h_path h2 !! S l = Some (first_of b end_blk) /\ same_place h h2 l /\ h_max_depth h2 = h_max_depth h /\ h_inode h2 = h_inode h /\
    get_loop (S fuel) EXT2_EXTENT_NEXT_LEAF op false e h d =
      if decide (S l = h_max_depth h) then Xok (0, leaf_extent b 0) h2 d else get_loop fuel EXT2_EXTENT_NEXT_LEAF EXT2_EXTENT_DOWN false e' h2 d.
Proof using no_image.
  intros HW Hlt Hp Hv Hc Hb HE. pose proof HW as [W1 W2 W3 W4 W5]. pose proof (node_read_pos _ _ _ Hb) as Hpos. subst l. set (l := h_level h) in *.
  assert (HC : choose_op EXT2_EXTENT_NEXT_LEAF op h d = Xok (inr EXT2_EXTENT_DOWN) (upd h l (p_set_visit 1 p)) d).
  { rewrite (choose_next h d p Hp), decide_True, decide_True by done. done. }
  set (h1 := upd h l (p_set_visit 1 p)) in *. assert (Hp1 : h_path h1 !! l = Some (p_set_visit 1 p)) by (apply list_lookup_insert_eq; lia).
  destruct (move_down_eq h1 d (p_set_visit 1 p) Hp1 EXT2_EXTENT_NEXT_LEAF (entry_off i) b no_image Hc Hlt ltac:(cbn; by rewrite length_insert) Hb) as [end_blk HM].
  change (h_level h1) with l in HM. exists end_blk. destruct (walk_down d h l p b end_blk HW Hlt Hp ltac:(eauto)) as (K1 & K2 & K3 & K4); [by apply path_ok_first|].
  fold h1 in K1, K2, K3, K4. set (h2 := h_set_level (S l) (upd h1 (S l) (first_of b end_blk))) in *.
  exists h2, (read_extent false (first_of b end_blk) 12). split_and!; try done. by rewrite (next_turn _ _ _ _ _ _ _ _ _ _ HC HM K2).
Qed.

Lemma entry_leaves_cons n d : forall b i ls, entry_leaves n d b i = Some ls -> exists x xs, ls = x :: xs.
Proof.
  induction n as [|n IH]; intros b i ls; cbn [entry_leaves]; [intros [= <-]; eauto|].
  intros (b' & Hb & HE)%bind_Some. pose proof (node_read_pos _ _ _ Hb). apply range_leaves_cons in HE as (l1 & l2 & E1 & _ & ->); [|done].
  apply IH in E1 as (x & xs & ->). by exists x, (xs ++ l2).
Qed.

(** At the first entry of a node, the leaves after it. *)
Lemma rest_first n d b end_blk l2 : range_leaves n d b 1 (eh_entries b - 1) = Some l2 -> rest n d (first_of b end_blk) = l2.
Proof. intros HE. unfold rest. cbn [first_of p_entries p_left p_buf]. replace (eh_entries b - (eh_entries b - 1)) with 1 by lia. by rewrite HE. Qed.

Lemma descend d m : forall h l p i x xs fuel op e,
  walk_ok d h l -> (h_max_depth h - l)%nat = S m -> h_path h !! l = Some p -> p_visit_num p = 0 -> p_curr p = Some (entry_off i) ->
  entry_leaves (S m) d (p_buf p) i = Some (x :: xs) -> (m < fuel)%nat ->
  arrives d h x (xs ++ rest_up d h l) (get_loop fuel EXT2_EXTENT_NEXT_LEAF op false e h d).
Proof using no_image.
  induction m as [|m IH]; intros h l p i x xs fuel op e HW Hm Hp Hv Hc HE Hf; (destruct fuel as [|fuel]; [lia|]);
    cbn [entry_leaves] in HE; apply bind_Some in HE as (b & Hb & HE); pose proof (node_read_pos _ _ _ Hb) as Hpos.
  - change (range_leaves 0 d b 0 (eh_entries b) = Some (x :: xs)) in HE.
    destruct (down_turn d h l p i b fuel op e HW ltac:(lia) Hp Hv Hc Hb) as (end_blk & h2 & e' & K1 & K2 & K3 & K4 & K5 & ->).
    { replace (h_max_depth h - S l)%nat with O by lia. by rewrite HE. }
    rewrite decide_True by lia. apply range_leaves_cons in HE as (l1 & l2 & E1 & E2 & EQ); [|done]. injection E1 as <-. injection EQ as -> ->.
    exists h2. replace (h_max_depth h) with (S l) by lia. split_and!; [done|done|lia|done|]. cbn [rest_up]. rewrite K2, (rest_up_same d h h2 l K3). f_equal.
    replace (h_max_depth h2 - S l)%nat with O by lia. by apply rest_first.
  - change (range_leaves (S m) d b 0 (eh_entries b) = Some (x :: xs)) in HE.
    destruct (down_turn d h l p i b fuel op e HW ltac:(lia) Hp Hv Hc Hb) as (end_blk & h2 & e' & K1 & K2 & K3 & K4 & K5 & ->).
    { replace (h_max_depth h - S l)%nat with (S m) by lia. by rewrite HE. }
    rewrite decide_False by lia. apply range_leaves_cons in HE as (l1 & l2 & E1 & E2 & EQ); [|done].
    destruct (entry_leaves_cons _ _ _ _ _ E1) as (y & ys & ->). injection EQ as <- ->.
    destruct (IH h2 (S l) (first_of b end_blk) 0 x ys fuel EXT2_EXTENT_DOWN e' K1 ltac:(lia) K2 eq_refl eq_refl E1 ltac:(lia)) as (h' & R1 & R2 & R3 & R4 & R5).
    rewrite K4 in R2, R3, R5. exists h'. split_and!; [done|done|done|congruence|]. rewrite R5. cbn [rest_up]. rewrite K2, (rest_up_same d h h2 l K3), <- app_assoc. f_equal. f_equal.
    replace (h_max_depth h2 - S l)%nat with (S m) by lia. by apply rest_first.
Qed.

(** One turn to the next entry of a node. *)
Definition next_of p : extent_path := p_set_visit 0 (p_set_curr (Some (entry_off (p_entries p - p_left p))) (p_set_left (p_left p - 1) p)).

Lemma path_ok_next n d p : path_ok n d p -> p_left p > 0 -> path_ok n d (next_of p).
Proof. intros [P1 P2 P3 P4] Hl. split; cbn; [done|lia| |done]. rewrite decide_False by lia. f_equal. f_equal. lia. Qed.

Lemma next_curr n d p : path_ok n d p -> p_left p > 0 -> match p_curr p with Some c => c + 12 | None => 12 end = entry_off (p_entries p - p_left p).
Proof. intros [P1 P2 P3 P4] Hl. rewrite P3. unfold entry_off. destruct (decide (p_left p = p_entries p)) as [->|]; lia. Qed.

Lemma rest_next n d p : path_ok n d p -> p_left p > 0 ->
  exists l1, entry_leaves n d (p_buf p) (p_entries p - p_left p) = Some l1 /\ rest n d p = l1 ++ rest n d (next_of p).
Proof.
  intros [P1 P2 P3 [ls P4]] Hl. replace (p_entries p) with ((p_entries p - p_left p) + p_left p) in P4 by lia.
  apply range_leaves_split in P4 as (r1 & r2 & _ & E2 & _); [|lia..]. rewrite Z.add_0_l in E2.
  unfold rest. rewrite E2. cbn [default]. apply range_leaves_cons in E2 as (l1 & l2 & E1 & E3 & ->); [|lia]. exists l1. split; [done|]. f_equal. cbn.
  replace (p_entries p - (p_left p - 1)) with (p_entries p - p_left p + 1) by lia. by rewrite E3.
Qed.

Lemma walk_upd d h l p q : walk_ok d h l -> h_path h !! l = Some p -> path_ok (h_max_depth h - l) d q -> walk_ok d (upd h l q) l.
Proof.
  intros [W1 W2 W3 W4 W5] Hp Hq. split; cbn; [done|done|by rewrite length_insert| |].
  - intros k r Hk HK. destruct (decide (k = l)) as [->|]; [|rewrite list_lookup_insert_ne in HK by done; by apply W4].
    rewrite list_lookup_insert_eq in HK by (eapply lookup_lt_Some; exact Hp). by injection HK as <-.
  - intros k r Hk HK. rewrite list_lookup_insert_ne in HK by lia. by apply (W5 k).
Qed.

Lemma rest_up_upd d h l p q : h_path h !! l = Some p ->
  rest_up d (upd h l q) l = rest (h_max_depth h - l) d q ++ match l with O => [] | S l' => rest_up d h l' end.
Proof.
  intros Hp. assert (Hq : h_path (upd h l q) !! l = Some q) by (apply list_lookup_insert_eq; by eapply lookup_lt_Some).
  destruct l as [|l]; cbn [rest_up]; rewrite Hq; [done|]. f_equal. apply rest_up_same, same_place_upd_above. lia.
Qed.

(** From a level that has been visited: the next leaf, or none. *)
Lemma climb d l : forall h p fuel op e,
  walk_ok d h l -> h_path h !! l = Some p -> l = h_max_depth h \/ p_visit_num p <> 0 -> (l + h_max_depth h + 1 < fuel)%nat ->
  match rest_up d h l with
  | [] => exists e' h', get_loop fuel EXT2_EXTENT_NEXT_LEAF op false e h d = Xok (EXT2_ET_EXTENT_NO_NEXT, e') h' d
  | x :: xs => arrives d h x xs (get_loop fuel EXT2_EXTENT_NEXT_LEAF op false e h d)
  end.
Proof using no_image.
  induction l as [l IHl] using lt_wf_ind. intros h p fuel op e HW Hp Hv Hf. pose proof HW as [W1 W2 W3 W4 W5]. destruct fuel as [|fuel]; [lia|].
  pose proof (W4 l p ltac:(lia) Hp) as Hok. assert (Hp' : h_path h !! h_level h = Some p) by (by rewrite W1).
  assert (HC : choose_op EXT2_EXTENT_NEXT_LEAF op h d =
    if decide (p_left p > 0) then Xok (inr EXT2_EXTENT_NEXT_SIB) h d
    else if decide (0 < h_level h)%nat then Xok (inr EXT2_EXTENT_UP) h d else Xok (inl EXT2_ET_EXTENT_NO_NEXT) h d).
  { rewrite (choose_next h d p Hp'). destruct (decide (h_level h < h_max_depth h)%nat); [|done]. rewrite decide_False by (destruct Hv; [lia|done]). done. }
  destruct (decide (p_left p > 0)) as [Hl|Hl].
  - destruct (rest_next _ _ _ Hok Hl) as (l1 & E1 & E2). pose proof (path_ok_next _ _ _ Hok Hl) as Hq.
    assert (HM : move EXT2_EXTENT_NEXT_LEAF EXT2_EXTENT_NEXT_SIB h d = Xok (inr (Some (entry_off (p_entries p - p_left p)), false)) (upd h l (next_of p)) d).
    { rewrite (move_next h d p Hp'), decide_False by lia. cbv zeta. rewrite (next_curr _ _ _ Hok Hl), W1. done. }
    assert (Hq' : h_path (upd h l (next_of p)) !! h_level (upd h l (next_of p)) = Some (next_of p)) by (cbn; rewrite W1; apply list_lookup_insert_eq; lia).
    rewrite (next_turn fuel op _ e h h (upd h l (next_of p)) d _ (next_of p) HC HM Hq'). cbn [upd h_level h_max_depth].
    assert (HR : rest_up d h l = l1 ++ rest_up d (upd h l (next_of p)) l).
    { rewrite (rest_up_upd d h l p) by done. destruct l; cbn [rest_up]; rewrite Hp, E2, <- app_assoc; done. }
    rewrite W1. destruct (decide (l = h_max_depth h)) as [Hmax|Hmax].
    + replace (h_max_depth h - l)%nat with O in E1 by lia. injection E1 as <-. rewrite HR. cbn [app]. exists (upd h l (next_of p)).
      rewrite <- Hmax. split_and!; [done|by apply walk_upd with (p := p)|done|done|done].
    + destruct (entry_leaves_cons _ _ _ _ _ E1) as (x & xs & ->). rewrite HR. cbn [app].
      destruct (h_max_depth h - l)%nat as [|m] eqn:Hm; [lia|].
      destruct (descend d m (upd h l (next_of p)) l (next_of p) (p_entries p - p_left p) x xs fuel EXT2_EXTENT_NEXT_SIB
        (read_extent false (next_of p) (entry_off (p_entries p - p_left p)))) as (h' & R1 & R2 & R3 & R4 & R5); try done; try lia.
      { apply walk_upd with (p := p); [done|done|]. by rewrite Hm. }
      { cbn in Hq'. by rewrite W1 in Hq'. }
      exists h'. split_and!; done.
  - assert (HL : p_left p = 0) by (pose proof (po_left _ _ _ Hok); lia). rewrite W1 in HC.
    assert (HR0 : rest (h_max_depth h - l) d p = []) by (unfold rest; by rewrite HL).
    destruct l as [|l]; cbn [rest_up]; rewrite Hp, HR0; cbn [app].
    + exists e, h. cbn [get_loop]. unfold mbind, X_bind. rewrite HC. done.
    + rewrite (decide_True (P := (0 < S l)%nat)) in HC by lia. destruct (walk_path d h (S l) l HW ltac:(lia)) as (q & Hq & Hqok).
      destruct (W5 l q ltac:(lia) Hq) as [Hvis [c Hc]].
      pose proof (move_up h d p Hp' l q W1 Hq) as HM. rewrite Hc in HM.
      rewrite (next_turn fuel op _ e h h (h_set_level l h) d c q HC HM Hq). cbn [h_set_level h_level h_max_depth]. rewrite decide_False by lia.
      assert (HW' : walk_ok d (h_set_level l h) l).
      { split; cbn; [done|lia|done| |]; intros k r Hk; [apply W4|apply (W5 k)]; lia. }
      specialize (IHl l ltac:(lia) (h_set_level l h) q fuel EXT2_EXTENT_UP (read_extent false q c) HW' Hq (or_intror Hvis) ltac:(cbn; lia)).
      rewrite (rest_up_same d h (h_set_level l h) l) in IHl by (split; done).
      destruct (rest_up d h l) as [|x xs]; [done|]. exact IHl.
Qed.

End walk.
