(* ===== verification/ExtentTheorems.v ===== *)
(** The properties of reading an extent tree: a search finds the leaf that maps a block, in a leaf
    node and through the keys of the nodes above it, and a walk over the leaves visits each of them once
    and in order. *)
From Stdlib Require Import ZArith Lia.
From stdpp Require Import base tactics numbers list gmap.
From S2P Require Import Prelude Crc32c ExtErr BlkNum Csum CsumProofs Extent ExtentProofs.

Definition ext_end (e : ext2fs_extent) : Z := e_lblk e + e_len e.

(** An extent maps a block. *)
Definition covers (e : ext2fs_extent) (blk : Z) : Prop := e_lblk e <= blk < ext_end e.

(** Extents in order, that do not overlap. *)
Definition in_order (ls : list ext2fs_extent) : Prop :=
  Forall (fun e => 0 < e_len e) ls /\ forall i j a b, (i < j)%nat -> ls !! i = Some a -> ls !! j = Some b -> ext_end a <= e_lblk b.

Lemma in_order_app l1 l2 : in_order (l1 ++ l2) -> in_order l1 /\ in_order l2 /\ forall a b, a ∈ l1 -> b ∈ l2 -> ext_end a <= e_lblk b.
Proof.
  intros [HF HO]. apply Forall_app in HF as [F1 F2]. split_and!; [split; [done|]|split; [done|]|].
  - intros i j a b Hij Ha Hb. apply (HO i j a b Hij); by apply lookup_app_l_Some.
  - intros i j a b Hij Ha Hb. apply (HO (length l1 + i)%nat (length l1 + j)%nat a b); [lia|..]; rewrite lookup_app_r by lia; [by replace (_ - _)%nat with i by lia|by replace (_ - _)%nat with j by lia].
  - intros a b [i Ha]%list_elem_of_lookup [j Hb]%list_elem_of_lookup. apply (HO i (length l1 + j)%nat); [apply lookup_lt_Some in Ha; lia|by apply lookup_app_l_Some|].
    rewrite lookup_app_r by lia. by replace (_ - _)%nat with j by lia.
Qed.

Section goto.
Context {D : Type} `{!ExtentEnv D} `{!Checksum}.
Implicit Types (h : ext2_extent_handle) (p : extent_path) (d : D) (b : list Z).

(** The position at entry [i] of a node. *)
Definition at_entry p (i : Z) : extent_path :=
  mkPath (p_buf p) (p_entries p) (p_max_entries p) (p_entries p - 1 - i) 0 (p_end_blk p) (Some (entry_off i)).

(** A move that is not a walk is one turn of the loop. *)
Definition plain_op (op : Z) : Prop :=
  op <> EXT2_EXTENT_NEXT /\ op <> EXT2_EXTENT_NEXT_LEAF /\ op <> EXT2_EXTENT_PREV /\ op <> EXT2_EXTENT_PREV_LEAF /\ op <> EXT2_EXTENT_LAST_LEAF /\ Z.land op 0xF = op.

Lemma get_plain_err fuel op e h d p r h' : plain_op op -> h_path h !! h_level h = Some p -> move op op h d = Xok (inl r) h' d ->
  ext2fs_extent_get (S fuel) op e h d = Xok (r, e) h' d.
Proof.
  intros (O1 & O2 & O3 & O4 & O5 & O6) Hp Hm. unfold ext2fs_extent_get. rewrite O6. cbn [get_loop]. unfold mbind, X_bind. rewrite (choose_plain h d p) by done. by rewrite Hm.
Qed.

Lemma get_plain fuel op e h d p ix f h' q : plain_op op -> h_path h !! h_level h = Some p -> move op op h d = Xok (inr (Some ix, f)) h' d ->
  h_path h' !! h_level h' = Some q ->
  ext2fs_extent_get (S fuel) op e h d = Xok (if f then EXT2_ET_EXTENT_CSUM_INVALID else 0, read_extent (bool_decide (h_level h' = h_max_depth h')) q ix) h' d.
Proof.
  intros (O1 & O2 & O3 & O4 & O5 & O6) Hp Hm Hq. unfold ext2fs_extent_get. rewrite O6. cbn [get_loop]. unfold mbind, X_bind. rewrite (choose_plain h d p), Hm by done.
  unfold get_handle. rewrite get_path_eq with (p := q) by done. cbn [orb]. rewrite (bool_decide_eq_false_2 (op = EXT2_EXTENT_NEXT_LEAF \/ op = EXT2_EXTENT_PREV_LEAF)) by tauto.
  rewrite (bool_decide_eq_false_2 (op = EXT2_EXTENT_LAST_LEAF)) by done. done.
Qed.

(** ** Moves between the entries of a node *)

Section node.
Variables (h : ext2_extent_handle) (d : D) (p : extent_path) (i : Z).
Let hi := upd h (h_level h) (at_entry p i).
Let leaf := bool_decide (h_level h = h_max_depth h).
Hypothesis Hin : (h_level h < length (h_path h))%nat.

Lemma hi_path : h_path hi !! h_level hi = Some (at_entry p i).
Proof using Hin. by apply list_lookup_insert_eq. Qed.

Lemma upd_upd q : upd hi (h_level hi) q = upd h (h_level h) q.
Proof using. unfold hi, upd. cbn. by rewrite list_insert_insert_eq. Qed.

Lemma get_next_none fuel e : p_entries p - 1 - i <= 0 -> ext2fs_extent_get (S fuel) EXT2_EXTENT_NEXT_SIB e hi d = Xok (EXT2_ET_EXTENT_NO_NEXT, e) hi d.
Proof using Hin.
  intros Hl. apply get_plain_err with (p := at_entry p i); [by repeat split|apply hi_path|]. rewrite (move_next hi d (at_entry p i) hi_path). by rewrite decide_True.
Qed.

Lemma get_next_some fuel e : 0 < p_entries p - 1 - i ->
  ext2fs_extent_get (S fuel) EXT2_EXTENT_NEXT_SIB e hi d =
    Xok (0, read_extent leaf (at_entry p (i + 1)) (entry_off (i + 1))) (upd h (h_level h) (at_entry p (i + 1))) d.
Proof using Hin.
  intros Hl. rewrite (get_plain fuel _ e hi d (at_entry p i) (entry_off (i + 1)) false (upd h (h_level h) (at_entry p (i + 1))) (at_entry p (i + 1))); try done.
  - apply hi_path.
  - rewrite (move_next hi d (at_entry p i) hi_path). cbn [at_entry p_left p_curr]. rewrite decide_False by lia. cbv zeta.
    rewrite upd_upd. replace (entry_off i + 12) with (entry_off (i + 1)) by (unfold entry_off; lia). do 3 f_equal. unfold p_set_visit, p_set_curr, p_set_left, at_entry. cbn. f_equal. lia.
  - cbn. by apply list_lookup_insert_eq.
Qed.

Lemma get_prev_none fuel e : p_entries p - 1 - i + 1 >= p_entries p -> ext2fs_extent_get (S fuel) EXT2_EXTENT_PREV_SIB e hi d = Xok (EXT2_ET_EXTENT_NO_PREV, e) hi d.
Proof using Hin. intros Hl. apply get_plain_err with (p := at_entry p i); [by repeat split|apply hi_path|]. by apply (move_prev_none hi d (at_entry p i) hi_path). Qed.

(** Back at the entry before; an interior node counts as visited. *)
Definition visited (v : Z) p : extent_path := p_set_visit v p.

Lemma get_prev_some fuel e : 0 < i ->
  let q := visited (if leaf then 0 else 1) (at_entry p (i - 1)) in (h_level h <= h_max_depth h)%nat ->
  ext2fs_extent_get (S fuel) EXT2_EXTENT_PREV_SIB e hi d = Xok (0, read_extent leaf q (entry_off (i - 1))) (upd h (h_level h) q) d.
Proof using Hin.
  intros Hi q Hd. rewrite (get_plain fuel _ e hi d (at_entry p i) (entry_off (i - 1)) false (upd h (h_level h) q) q); try done.
  - apply hi_path.
  - rewrite (move_prev hi d (at_entry p i) hi_path _ (entry_off i)); [|done|cbn; lia]. cbv zeta. rewrite upd_upd.
    replace (entry_off i - 12) with (entry_off (i - 1)) by (unfold entry_off; lia). do 2 f_equal. unfold q, visited, leaf. cbn [hi upd h_level h_max_depth].
    assert (HP : p_set_left (p_left (at_entry p i) + 1) (p_set_curr (Some (entry_off (i - 1))) (at_entry p i)) = at_entry p (i - 1)).
    { unfold p_set_left, p_set_curr, at_entry. cbn. f_equal. lia. }
    rewrite HP. destruct (decide (h_level h < h_max_depth h)%nat); [by rewrite bool_decide_eq_false_2 by lia|by rewrite bool_decide_eq_true_2 by lia].
  - cbn. by apply list_lookup_insert_eq.
Qed.

Lemma get_down fuel e b v : x_image = false -> (h_level h < h_max_depth h)%nat -> length (h_path h) = S (h_max_depth h) ->
  node_read d (ei_leaf (p_buf p) (entry_off i)) = Some b ->
  let hv := upd h (h_level h) (visited v (at_entry p i)) in
  exists end_blk, ext2fs_extent_get (S fuel) EXT2_EXTENT_DOWN e hv d =
    Xok (0, read_extent (bool_decide (S (h_level h) = h_max_depth h)) (first_of b end_blk) 12) (h_set_level (S (h_level h)) (upd hv (S (h_level h)) (first_of b end_blk))) d.
Proof using Hin.
  intros Himg Hl Hlen Hb hv. assert (Hp : h_path hv !! h_level hv = Some (visited v (at_entry p i))) by (by apply list_lookup_insert_eq).
  destruct (move_down_eq hv d _ Hp EXT2_EXTENT_DOWN (entry_off i) b Himg eq_refl Hl) as [end_blk HM]; [cbn; by rewrite length_insert|done|]. exists end_blk.
  rewrite (get_plain fuel EXT2_EXTENT_DOWN e hv d _ 12 false _ (first_of b end_blk) ltac:(by repeat split) Hp HM); [done|]. cbn. apply list_lookup_insert_eq. rewrite length_insert. lia.
Qed.

End node.

(** ** In a leaf node *)

(** Where the search ends in a node of [n] extents: at the extent that maps the block; or, when
    none does, at the last one before the block, or at the first. *)
Definition leaf_result (E : Z -> ext2fs_extent) (n blk r j : Z) : Prop :=
  r = 0 /\ covers (E j) blk /\ (forall k, 0 <= k < j -> ext_end (E k) <= blk) \/
  r = EXT2_ET_EXTENT_NOT_FOUND /\ (j = 0 /\ blk < e_lblk (E 0) \/ (forall k, 0 <= k <= j -> ext_end (E k) <= blk) /\ (j + 1 < n -> blk < e_lblk (E (j + 1)))).

Lemma goto_leaf h d p blk :
  h_level h = h_max_depth h -> (h_level h < length (h_path h))%nat ->
  forall fuel i, 0 <= i < p_entries p -> p_entries p - i <= Z.of_nat fuel -> (forall j, 0 <= j < i -> ext_end (leaf_extent (p_buf p) j) <= blk) ->
  exists r j, goto_loop fuel 0 blk (leaf_extent (p_buf p) i) (upd h (h_level h) (at_entry p i)) d = Xok r (upd h (h_level h) (at_entry p j)) d /\
    0 <= j < p_entries p /\ leaf_result (leaf_extent (p_buf p)) (p_entries p) blk r j.
Proof.
  intros Hmax Hin. induction fuel as [|fuel IH]; intros i Hi Hf Hprev; [lia|]. cbn [goto_loop]. unfold mbind at 1, X_bind at 1, get_handle. cbn [upd h_level h_max_depth].
  rewrite (decide_True (P := Z.of_nat (h_max_depth h) - Z.of_nat (h_level h) = 0)) by lia. set (e := leaf_extent (p_buf p) i) in *.
  destruct (decide (e_lblk e <= blk < e_lblk e + e_len e)) as [Hc|Hc]; [exists 0, i; split_and!; [done|lia|lia|by left]|].
  destruct (decide (blk < e_lblk e)) as [Hlt|Hge].
  - unfold mbind, X_bind. destruct (decide (i = 0)) as [Hi0|Hi0].
    + rewrite (get_prev_none h d p i Hin fuel e) by lia. exists EXT2_ET_EXTENT_NOT_FOUND, i. split_and!; [done|lia|lia|]. right. split; [done|]. left. subst i. done.
    + rewrite (get_prev_some h d p i Hin fuel e) by lia. rewrite (bool_decide_eq_true_2 _ Hmax). exists EXT2_ET_EXTENT_NOT_FOUND, (i - 1). split_and!; [done|lia|lia|].
      right. split; [done|]. right. split; [intros k Hk; apply Hprev; lia|]. intros _. by replace (i - 1 + 1) with i by lia.
  - unfold mbind, X_bind. destruct (decide (p_entries p - 1 - i <= 0)) as [Hlast|Hmore].
    + rewrite (get_next_none h d p i Hin fuel e) by lia. rewrite decide_True by done. exists EXT2_ET_EXTENT_NOT_FOUND, i. split_and!; [done|lia|lia|].
      right. split; [done|]. right. split; [|lia]. intros k Hk. destruct (decide (k = i)) as [->|]; [unfold ext_end; fold e; lia|apply Hprev; lia].
    + rewrite (get_next_some h d p i Hin fuel e) by lia. rewrite decide_False, decide_False by (done || tauto). rewrite (bool_decide_eq_true_2 _ Hmax).
      change (read_extent true (at_entry p (i + 1)) (entry_off (i + 1))) with (leaf_extent (p_buf p) (i + 1)).
      apply IH; [lia|lia|]. intros j Hj. destruct (decide (j = i)) as [->|]; [unfold ext_end; fold e; lia|apply Hprev; lia].
Qed.

(** ** In the whole tree *)

(** The keys of an interior node separate the leaves under its entries. *)
Fixpoint keys_ok (n : nat) d b : Prop :=
  match n with
  | O => True
  | S n' => forall i, 0 <= i < eh_entries b -> exists b' ls,
      node_read d (ei_leaf b (entry_off i)) = Some b' /\ keys_ok n' d b' /\ range_leaves n' d b' 0 (eh_entries b') = Some ls /\
      Forall (fun e => ei_block b (entry_off i) <= e_lblk e) ls /\
      (i + 1 < eh_entries b -> Forall (fun e => ext_end e <= ei_block b (entry_off (i + 1))) ls)
  end.

Lemma range_leaves_elem n d b lo k ls e : 0 <= k -> range_leaves n d b lo k = Some ls -> e ∈ ls -> exists j lj, lo <= j < lo + k /\ entry_leaves n d b j = Some lj /\ e ∈ lj.
Proof.
  intros Hk. revert lo ls. pattern k. apply natlike_ind; [intros lo ls [= <-] He; by apply elem_of_nil in He| |done]. clear k Hk.
  intros k Hk IH lo ls HR He. apply range_leaves_cons in HR as (l1 & l2 & E1 & E2 & ->); [|lia]. apply elem_of_app in He as [He|He].
  - exists lo, l1. split_and!; [lia|lia|done|done].
  - replace (Z.succ k - 1) with k in E2 by lia. destruct (IH _ _ E2 He) as (j & lj & Hj & HL & HE). exists j, lj. split_and!; [lia|lia|done|done].
Qed.

Lemma range_leaves_sub n d b k ls j lj : 0 <= j < k -> range_leaves n d b 0 k = Some ls -> entry_leaves n d b j = Some lj ->
  exists pre post, ls = pre ++ lj ++ post.
Proof.
  intros Hj HR HE. replace k with (j + (k - j)) in HR by lia. apply range_leaves_split in HR as (l1 & l2 & E1 & E2 & ->); [|lia..].
  apply range_leaves_cons in E2 as (l3 & l4 & E3 & E4 & ->); [|lia]. rewrite Z.add_0_l in E3. rewrite E3 in HE. injection HE as ->. by exists l1, l4.
Qed.

Lemma range_leaves_length n d b lo k ls : 0 <= k -> range_leaves n d b lo k = Some ls -> k <= Z.of_nat (length ls).
Proof.
  intros Hk. revert lo ls. pattern k. apply natlike_ind; [lia| |done]. clear k Hk. intros k Hk IH lo ls HR.
  apply range_leaves_cons in HR as (l1 & l2 & E1 & E2 & ->); [|lia]. apply entry_leaves_cons in E1 as (x & xs & ->). replace (Z.succ k - 1) with k in E2 by lia.
  specialize (IH _ _ E2). rewrite length_app. cbn. lia.
Qed.

(** What a search for a block leaves: at a leaf of the tree, the one that maps the block if there
    is one. *)
Definition goto_result d h h' (ls : list ext2fs_extent) (blk r : Z) : Prop :=
  h_inode h' = h_inode h /\ h_max_depth h' = h_max_depth h /\ h_level h' = h_max_depth h /\ length (h_path h') = length (h_path h) /\
  exists q j, h_path h' !! h_max_depth h = Some (at_entry q j) /\ 0 <= j < p_entries q /\ p_entries q = eh_entries (p_buf q) /\ leaf_extent (p_buf q) j ∈ ls /\
    (r = 0 /\ covers (leaf_extent (p_buf q) j) blk \/ r = EXT2_ET_EXTENT_NOT_FOUND /\ Forall (fun e => ~ covers e blk) ls).

Lemma leaf_leaves d b lo k : range_leaves O d b lo k = Some (leaf_extent b <$> seqZ lo k).
Proof.
  unfold range_leaves. set (f := leaf_extent b). change (entry_leaves 0 d b) with (fun i => Some [f i]). clearbody f.
  assert (HM : forall l, mapM (fun i => Some [f i]) l = Some ((fun i => [f i]) <$> l)) by (induction l as [|i l IH]; [done|cbn; by rewrite IH]).
  rewrite HM. cbn. f_equal. induction (seqZ lo k) as [|i l IH]; [done|]. cbn. f_equal. exact IH.
Qed.

Lemma leaf_lookup d b n ls : range_leaves O d b 0 n = Some ls -> forall k, 0 <= k < n -> ls !! Z.to_nat k = Some (leaf_extent b k).
Proof.
  rewrite leaf_leaves. intros [= <-] k Hk. rewrite list_lookup_fmap, lookup_seqZ_lt by lia. cbn [fmap option_fmap option_map]. by replace (0 + Z.of_nat (Z.to_nat k)) with k by lia.
Qed.

Lemma leaf_result_all d b n ls blk r j : range_leaves O d b 0 n = Some ls -> in_order ls -> 0 <= j < n -> leaf_result (leaf_extent b) n blk r j ->
  r = 0 /\ covers (leaf_extent b j) blk \/ r = EXT2_ET_EXTENT_NOT_FOUND /\ Forall (fun e => ~ covers e blk) ls.
Proof.
  intros Hls [Hpos Hord] Hj HR. pose proof (leaf_lookup d b n ls Hls) as Hlk. rewrite Forall_lookup in Hpos.
  assert (HP : forall k, 0 <= k < n -> 0 < e_len (leaf_extent b k)) by (intros k Hk; apply (Hpos (Z.to_nat k)), Hlk; lia). destruct HR as [(-> & HR & _)|[-> HR]]; [by left|]. right. split; [done|].
  assert (HO : forall i k, 0 <= i < k -> k < n -> ext_end (leaf_extent b i) <= e_lblk (leaf_extent b k)).
  { intros i k Hik Hk. apply (Hord (Z.to_nat i) (Z.to_nat k)); [lia|apply Hlk; lia|apply Hlk; lia]. }
  apply Forall_lookup. intros i e He. assert (Hi : Z.of_nat i < n).
  { apply lookup_lt_Some in He. rewrite leaf_leaves in Hls. injection Hls as <-. rewrite length_fmap, length_seqZ in He. lia. }
  specialize (Hlk (Z.of_nat i) ltac:(lia)). rewrite Nat2Z.id, He in Hlk. injection Hlk as ->. unfold covers.
  destruct HR as [[-> Hlt]|[Hend Hnext]]; [|specialize (Hend j ltac:(lia))].
  - destruct (decide (Z.of_nat i = 0)) as [->|]; [lia|]. pose proof (HO 0 (Z.of_nat i) ltac:(lia) ltac:(lia)). pose proof (HP 0 ltac:(lia)). unfold ext_end in *. lia.
  - destruct (decide (Z.of_nat i = j)) as [->|]; [lia|]. destruct (decide (Z.of_nat i < j)).
    + pose proof (HO (Z.of_nat i) j ltac:(lia) ltac:(lia)). pose proof (HP j ltac:(lia)). unfold ext_end in *. lia.
    + specialize (Hnext ltac:(lia)). destruct (decide (Z.of_nat i = j + 1)) as [->|]; [lia|]. pose proof (HO (j + 1) (Z.of_nat i) ltac:(lia) ltac:(lia)).
      pose proof (HP (j + 1) ltac:(lia)). unfold ext_end in *. lia.
Qed.

Section interior.
Variables (d : D) (m : nat) (b : list Z) (ls : list ext2fs_extent).
Hypothesis Hkeys : keys_ok (S m) d b.
Hypothesis Hls : range_leaves (S m) d b 0 (eh_entries b) = Some ls.
Hypothesis Hord : in_order ls.
Abbreviation key i := (ei_block b (entry_off i)).

Lemma entry_at i : 0 <= i < eh_entries b -> exists b' li, node_read d (ei_leaf b (entry_off i)) = Some b' /\ keys_ok m d b' /\
  range_leaves m d b' 0 (eh_entries b') = Some li /\ entry_leaves (S m) d b i = Some li /\ Forall (fun e => key i <= e_lblk e) li /\
  (i + 1 < eh_entries b -> Forall (fun e => ext_end e <= key (i + 1)) li) /\ in_order li.
Proof using Hkeys Hls Hord.
  intros Hi. destruct (Hkeys i Hi) as (b' & li & H1 & H2 & H3 & H4 & H5). exists b', li.
  assert (HE : entry_leaves (S m) d b i = Some li) by (cbn [entry_leaves]; rewrite H1; exact H3).
  split_and!; try done. destruct (range_leaves_sub _ _ _ _ _ _ _ Hi Hls HE) as (pre & post & ->). apply in_order_app in Hord as (_ & HO & _). by apply in_order_app in HO as (HO & _ & _).
Qed.

Lemma key_mono i j : 0 <= i < j -> j < eh_entries b -> key i < key j.
Proof using Hkeys Hls Hord.
  intros Hij Hj. assert (HS : forall k, 0 <= k -> k + 1 < eh_entries b -> key k < key (k + 1)).
  { intros k Hk Hk1. destruct (entry_at k ltac:(lia)) as (b' & li & _ & _ & _ & HE & F1 & F2 & [F3 _]). destruct (entry_leaves_cons _ _ _ _ _ HE) as (x & xs & ->).
    apply Forall_cons in F1 as [F1 _], F3 as [F3 _]. apply F2 in Hk1. apply Forall_cons in Hk1 as [F4 _]. unfold ext_end in F4. lia. }
  assert (HN : forall n : nat, i + 1 + Z.of_nat n < eh_entries b -> key i < key (i + 1 + Z.of_nat n)).
  { induction n as [|n IH]; intros Hn; [rewrite Z.add_0_r; apply HS; lia|]. specialize (IH ltac:(lia)). specialize (HS (i + 1 + Z.of_nat n) ltac:(lia) ltac:(lia)).
    replace (i + 1 + Z.of_nat (S n)) with (i + 1 + Z.of_nat n + 1) by lia. lia. }
  specialize (HN (Z.to_nat (j - i - 1))). rewrite Z2Nat.id in HN by lia. replace (i + 1 + (j - i - 1)) with j in HN by lia. auto.
Qed.

(** Only the entry whose keys surround the block can lead to it. *)
Lemma only_entry i li blk : 0 <= i < eh_entries b -> i = 0 \/ key i <= blk -> (i + 1 < eh_entries b -> blk < key (i + 1)) ->
  entry_leaves (S m) d b i = Some li -> Forall (fun e => ~ covers e blk) li -> Forall (fun e => ~ covers e blk) ls.
Proof using Hkeys Hls Hord.
  intros Hi Hlo Hhi HE Hli. apply Forall_forall. intros e He. destruct (range_leaves_elem (S m) d b 0 (eh_entries b) ls e ltac:(lia) Hls He) as (j & lj & Hj & HJ & HeJ).
  destruct (entry_at j ltac:(lia)) as (bj & lj' & _ & _ & _ & HJ' & F1 & F2 & _). rewrite HJ in HJ'. injection HJ' as <-.
  rewrite Forall_forall in F1. specialize (F1 e HeJ). destruct (decide (j = i)) as [->|Hne].
  - rewrite HE in HJ. injection HJ as <-. rewrite Forall_forall in Hli. by apply Hli.
  - unfold covers. destruct (decide (j < i)).
    + specialize (F2 ltac:(lia)). rewrite Forall_forall in F2. specialize (F2 e HeJ). assert (key (j + 1) <= key i).
      { destruct (decide (j + 1 = i)) as [->|]; [lia|]. pose proof (key_mono (j + 1) i ltac:(lia) ltac:(lia)). lia. } lia.
    + assert (key (i + 1) <= key j). { destruct (decide (i + 1 = j)) as [->|]; [lia|]. pose proof (key_mono (i + 1) j ltac:(lia) ltac:(lia)). lia. }
      specialize (Hhi ltac:(lia)). lia.
Qed.

End interior.

Hypothesis no_image : x_image = false.

(** The search from entry [i] of a node of height [m]. *)
Definition goto_from (m : nat) : Prop := forall d h p ls L blk fuel i e,
  (h_max_depth h - h_level h)%nat = m -> (h_level h <= h_max_depth h)%nat -> length (h_path h) = S (h_max_depth h) ->
  p_entries p = eh_entries (p_buf p) -> range_leaves m d (p_buf p) 0 (p_entries p) = Some ls -> in_order ls -> keys_ok m d (p_buf p) ->
  Z.of_nat (length ls) <= L -> 0 <= i < p_entries p -> p_entries p - i + Z.of_nat m * (L + 1) <= Z.of_nat fuel ->
  match m with O => i = 0 /\ e = leaf_extent (p_buf p) 0 | S _ => i = 0 \/ ei_block (p_buf p) (entry_off i) <= blk end ->
  exists r h', goto_loop fuel 0 blk e (upd h (h_level h) (at_entry p i)) d = Xok r h' d /\ goto_result d h h' ls blk r.

Lemma goto_from_leaf : goto_from O.
Proof using.
  intros d h p ls L blk fuel i e Hm Hle Hlen Hent Hls Hord _ HL Hi Hf [-> ->].
  destruct (goto_leaf h d p blk ltac:(lia) ltac:(lia) fuel 0 ltac:(lia) ltac:(lia) ltac:(lia)) as (r & j & -> & Hj & HR).
  exists r, (upd h (h_level h) (at_entry p j)). split; [done|]. split_and!; [done|done|cbn; lia|cbn; by rewrite length_insert|].
  pose proof (leaf_lookup d (p_buf p) (p_entries p) ls Hls) as Hlk.
  exists p, j. replace (h_max_depth h) with (h_level h) by lia. split_and!; [cbn; apply list_lookup_insert_eq; lia|lia|lia|done| |].
  - apply list_elem_of_lookup. exists (Z.to_nat j). by apply Hlk.
  - by apply (leaf_result_all d (p_buf p) (p_entries p) ls).
Qed.

(** What follows the label [go_down]. *)
Definition go_down (fuel : nat) (blk : Z) (e : ext2fs_extent) : X D Z :=
  r ← ext2fs_extent_get (S fuel) EXT2_EXTENT_DOWN e;
  let '(retval, e) := r in
  if decide (retval <> 0) then mret retval else goto_loop fuel 0 blk e.

Lemma go_down_result m d h p ls L blk fuel i e v :
  goto_from m -> (h_max_depth h - h_level h)%nat = S m -> length (h_path h) = S (h_max_depth h) ->
  p_entries p = eh_entries (p_buf p) -> range_leaves (S m) d (p_buf p) 0 (p_entries p) = Some ls -> in_order ls -> keys_ok (S m) d (p_buf p) ->
  Z.of_nat (length ls) <= L -> 0 <= i < p_entries p -> Z.of_nat (S m) * (L + 1) <= Z.of_nat fuel ->
  i = 0 \/ ei_block (p_buf p) (entry_off i) <= blk -> (i + 1 < p_entries p -> blk < ei_block (p_buf p) (entry_off (i + 1))) ->
  exists r h', go_down fuel blk e (upd h (h_level h) (visited v (at_entry p i))) d = Xok r h' d /\ goto_result d h h' ls blk r.
Proof using no_image.
  intros IH Hm Hlen Hent Hls Hord Hk HL Hi Hf Hlo Hhi. rewrite Hent in *.
  destruct (entry_at d m (p_buf p) ls Hk Hls Hord i Hi) as (b & li & Hb & Hkb & Hlb & HE & _ & _ & Hob).
  destruct (get_down h d p i ltac:(lia) fuel e b v no_image ltac:(lia) Hlen Hb) as [end_blk HG].
  set (hv := upd h (h_level h) (visited v (at_entry p i))) in *. set (h2 := h_set_level (S (h_level h)) hv). set (q := first_of b end_blk) in *.
  assert (HQ : upd hv (S (h_level h)) q = upd hv (S (h_level h)) (at_entry q 0)).
  { unfold at_entry, q, first_of. cbn. by rewrite Z.sub_0_r. }
  destruct (range_leaves_sub _ _ _ _ _ _ _ Hi Hls HE) as (pre & post & Hsub). pose proof (node_read_pos _ _ _ Hb) as Hpos.
  pose proof (range_leaves_length m d b 0 (eh_entries b) li ltac:(lia) Hlb) as HLb. assert (HL' : Z.of_nat (length li) <= L) by (rewrite Hsub, !length_app in HL; lia).
  destruct (IH d h2 q li L blk fuel 0 (read_extent (bool_decide (S (h_level h) = h_max_depth h)) q 12)) as (r & h' & HG' & HR); try done; try (cbn; lia).
  { cbn. by rewrite length_insert. }
  { destruct m; [|by left]. split; [done|]. rewrite bool_decide_eq_true_2 by lia. done. }
  exists r, h'. unfold go_down, mbind, X_bind. rewrite HG. cbv iota beta. rewrite decide_False by tauto. split; [rewrite HQ; exact HG'|].
  destruct HR as (R1 & R2 & R3 & R4 & q' & j & R5 & R6 & R7 & R8 & R9). split_and!; [done|done|done|rewrite R4; cbn; by rewrite length_insert|].
  exists q', j. split_and!; [done|lia|lia|done| |].
  - rewrite Hsub. apply elem_of_app; right; apply elem_of_app; by left.
  - destruct R9 as [R9|[-> R9]]; [by left|]. right. split; [done|]. by apply (only_entry d m (p_buf p) ls Hk Hls Hord i li).
Qed.

Lemma goto_from_node m : goto_from m -> goto_from (S m).
Proof using no_image.
  intros IH d h p ls L blk fuel. induction fuel as [|fuel IHf]; intros i e Hm Hle Hlen Hent Hls Hord Hk HL Hi Hf Hpos; [nia|].
  assert (Hin : (h_level h < length (h_path h))%nat) by lia. pose proof (range_leaves_length (S m) d (p_buf p) 0 (p_entries p) ls ltac:(lia) Hls) as HLE.
  cbn [goto_loop]. unfold mbind at 1, X_bind at 1, get_handle. cbn [upd h_level h_max_depth].
  rewrite (decide_False (P := Z.of_nat (h_max_depth h) - Z.of_nat (h_level h) = 0)) by lia. fold (upd h (h_level h) (at_entry p i)).
  assert (HD : forall k v e', 0 <= k < p_entries p -> k = 0 \/ ei_block (p_buf p) (entry_off k) <= blk -> (k + 1 < p_entries p -> blk < ei_block (p_buf p) (entry_off (k + 1))) ->
    exists r h', go_down fuel blk e' (upd h (h_level h) (visited v (at_entry p k))) d = Xok r h' d /\ goto_result d h h' ls blk r).
  { intros k v e' Hk' Hlo Hhi. apply (go_down_result m d h p ls L blk fuel k e' v); try done; lia. }
  unfold mbind, X_bind. destruct (decide (p_entries p - 1 - i <= 0)) as [Hlast|Hmore].
  - rewrite (get_next_none h d p i Hin fuel e) by lia. cbv iota beta. rewrite decide_True by done. apply (HD i 0 e Hi Hpos). lia.
  - rewrite (get_next_some h d p i Hin fuel e) by lia. cbv iota beta. rewrite decide_False, decide_False by (done || tauto).
    rewrite (bool_decide_eq_false_2 (h_level h = h_max_depth h)) by lia. set (e' := read_extent false (at_entry p (i + 1)) (entry_off (i + 1))).
    change (e_lblk e') with (ei_block (p_buf p) (entry_off (i + 1))). destruct (decide (blk = ei_block (p_buf p) (entry_off (i + 1)))) as [Heq|Hneq].
    + apply (HD (i + 1) 0 e'); [lia|right; lia|]. intros Hn. rewrite Hent in *. pose proof (key_mono d m (p_buf p) ls Hk Hls Hord (i + 1) (i + 1 + 1) ltac:(lia) ltac:(lia)). lia.
    + destruct (decide (blk > ei_block (p_buf p) (entry_off (i + 1)))) as [Hgt|Hngt].
      * apply IHf; try done; try lia.
      * rewrite (get_prev_some h d p (i + 1) Hin fuel e') by lia. cbv iota beta. rewrite decide_False by tauto. rewrite (bool_decide_eq_false_2 (h_level h = h_max_depth h)) by lia.
        replace (i + 1 - 1) with i by lia. apply (HD i 1); [lia|done|]. intros _. lia.
Qed.

Lemma goto_from_all m : goto_from m.
Proof using no_image. induction m as [|m IH]; [exact goto_from_leaf|by apply goto_from_node]. Qed.

End goto.

Section theorems.
Context {D : Type} `{!ExtentEnv D} `{!Checksum}.
Implicit Types (h : ext2_extent_handle) (d : D).

(** The leaves of the tree of a handle. *)
Definition tree_leaves d h : option (list ext2fs_extent) :=
  match h_path h with p :: _ => range_leaves (h_max_depth h) d (p_buf p) 0 (eh_entries (p_buf p)) | [] => None end.

(** The loop of a caller: [EXT2_EXTENT_NEXT_LEAF] until it fails; the extents and the last code. *)
Fixpoint walk_leaves (n fuel : nat) (e : ext2fs_extent) h d : option (list ext2fs_extent * Z) :=
  match n with
  | O => None
  | S n' =>
      match ext2fs_extent_get fuel EXT2_EXTENT_NEXT_LEAF e h d with
      | Xok (retval, e) h d =>
          if decide (retval = 0) then '(l, r) ← walk_leaves n' fuel e h d; Some (e :: l, r) else Some ([], retval)
      | _ => None
      end
  end.

Lemma walk_from d fuel : x_image = false -> forall ls l h p e,
  walk_ok d h l -> h_path h !! l = Some p -> l = h_max_depth h \/ p_visit_num p <> 0 -> rest_up d h l = ls ->
  (2 * h_max_depth h + 1 < fuel)%nat -> walk_leaves (S (length ls)) fuel e h d = Some (ls, EXT2_ET_EXTENT_NO_NEXT).
Proof.
  intros Himg. induction ls as [|x xs IH]; intros l h p e HW Hp Hv HR Hf; pose proof (wo_depth _ _ _ HW) as Hl;
    pose proof (climb Himg d l h p fuel EXT2_EXTENT_NEXT_LEAF e HW Hp Hv ltac:(lia)) as HC; rewrite HR in HC;
    change (get_loop fuel EXT2_EXTENT_NEXT_LEAF EXT2_EXTENT_NEXT_LEAF false e h d) with (ext2fs_extent_get fuel EXT2_EXTENT_NEXT_LEAF e h d) in HC.
  - destruct HC as (e' & h' & HC). cbn [length walk_leaves]. by rewrite HC.
  - destruct HC as (h' & HC & W & M1 & M2 & R). cbn [length]. remember (S (length xs)) as n eqn:Hn. cbn [walk_leaves]. rewrite HC, decide_True by done.
    rewrite <- M1 in W, R. destruct (walk_path d h' _ _ W ltac:(done)) as (q & Hq & _). subst n.
    rewrite (IH _ h' q x W Hq ltac:(by left) R ltac:(lia)). done.
Qed.

Lemma range_leaves_nil_le n d b lo k : k <= 0 -> range_leaves n d b lo k = Some [].
Proof. intros Hk. unfold range_leaves. by rewrite seqZ_nil by lia. Qed.

(** The handle of a tree that has been opened: at the root, before its first entry. *)
Lemma open_handle ino iblock h : ext2fs_extent_open2 ino iblock = inr h ->
  exists b end_blk, h_level h = O /\
    h_path h = mkPath b (eh_entries b) (eh_max b) (eh_entries b) 1 end_blk None :: replicate (h_max_depth h) (mkPath [] 0 0 0 0 0 None) /\
    length (h_path h) = S (h_max_depth h).
Proof.
  unfold ext2fs_extent_open2. cbv zeta. destruct (negb _); [done|]. destruct (decide _); [done|]. intros [= <-]. cbn [h_level h_path h_max_depth length].
  eexists _, _. split_and!; [done|done|by rewrite length_replicate].
Qed.

(** ** Going to the root *)

Lemma get_root fuel e h d p : (h_level h < length (h_path h))%nat -> h_path h !! O = Some p ->
  ext2fs_extent_get (S fuel) EXT2_EXTENT_ROOT e h d =
    if decide (p_entries p <= 0) then Xok (EXT2_ET_EXTENT_NO_NEXT, e) (h_set_level O (upd h O (p_set_curr None (p_set_left (p_entries p) p)))) d
    else Xok (0, read_extent (bool_decide (O = h_max_depth h)) (at_entry p 0) (entry_off 0)) (h_set_level O (upd h O (at_entry p 0))) d.
Proof.
  intros Hl Hp. destruct (lookup_lt_is_Some_2 _ _ Hl) as [q Hq]. assert (HO : (0 < length (h_path h))%nat) by lia.
  set (p1 := p_set_curr None (p_set_left (p_entries p) p)). set (h1 := h_set_level O (upd h O p1)).
  assert (H1 : h_path h1 !! h_level h1 = Some p1) by (by apply list_lookup_insert_eq).
  assert (HM : move EXT2_EXTENT_ROOT EXT2_EXTENT_ROOT h d =
    match next_sib h1 d with Xok r h d => Xok (match r with inl e => inl e | inr ix => inr (Some ix, false) end) h d | Xundef => Xundef | Xfuel => Xfuel end).
  { unfold move. change (mbind ?k get_handle h d) with (k h h d). cbv beta. unfold mbind at 1, X_bind at 1. rewrite get_path_eq with (p := q) by done.
    rewrite decide_False, decide_True by done. unfold first_sib, mbind, X_bind, modify_handle. rewrite (get_path_eq (h_set_level 0 h) d p) by done. done. }
  rewrite (next_sib_eq h1 d p1 H1) in HM. cbn [p1 p_set_curr p_set_left p_left p_curr] in HM. destruct (decide (p_entries p <= 0)) as [Hz|Hz].
  - by apply (get_plain_err fuel _ e h d q).
  - assert (HU : upd h1 O (p_set_visit 0 (p_set_curr (Some 12) (p_set_left (p_entries p - 1) p1))) = h_set_level O (upd h O (at_entry p 0))).
    { unfold h1, upd, h_set_level. cbn. rewrite list_insert_insert_eq. f_equal. f_equal. unfold at_entry, p_set_visit, p_set_curr, p_set_left. cbn. f_equal. lia. }
    cbv zeta in HM. change (h_level h1) with O in HM. rewrite HU in HM. rewrite (get_plain fuel EXT2_EXTENT_ROOT e h d q 12 false _ (at_entry p 0) ltac:(by repeat split) Hq HM); [done|by apply list_lookup_insert_eq].
Qed.

(** A handle whose tree has the leaves [ls]: in order, and found by the keys of the nodes. *)
Record tree_ok d h (ls : list ext2fs_extent) : Prop := {
  to_level : (h_level h <= h_max_depth h)%nat;
  to_paths : length (h_path h) = S (h_max_depth h);
  to_entries p : h_path h !! O = Some p -> p_entries p = eh_entries (p_buf p);
  to_keys p : h_path h !! O = Some p -> keys_ok (h_max_depth h) d (p_buf p);
  to_leaves : tree_leaves d h = Some ls;
  to_order : in_order ls
}.

(** Reading where a search has ended. *)
Lemma get_current fuel e h d p c : h_path h !! h_level h = Some p -> p_curr p = Some c ->
  ext2fs_extent_get (S fuel) EXT2_EXTENT_CURRENT e h d = Xok (0, read_extent (bool_decide (h_level h = h_max_depth h)) p c) h d.
Proof.
  intros Hp Hc. rewrite (get_plain fuel _ e h d p c false h p); try done. unfold move. change (mbind ?k get_handle h d) with (k h h d). cbv beta.
  unfold mbind at 1, X_bind at 1. rewrite get_path_eq with (p := p) by done. by rewrite decide_True, Hc by done.
Qed.

(** C28: The search for a block, from any position of a handle, ends; when a leaf of the tree maps
    the block it returns 0 with that leaf as the current extent, and otherwise it returns
    EXT2_ET_EXTENT_NOT_FOUND, and no leaf of the tree maps the block. *)
Theorem goto_finds d h ls blk fuel :
  x_image = false -> tree_ok d h ls -> Z.of_nat (S (h_max_depth h)) * (Z.of_nat (length ls) + 1) < Z.of_nat fuel ->
  exists r h', ext2fs_extent_goto fuel blk h d = Xok r h' d /\
    (r = 0 /\ (exists x, x ∈ ls /\ covers x blk /\ forall e, ext2fs_extent_get fuel EXT2_EXTENT_CURRENT e h' d = Xok (0, x) h' d) \/
     r = EXT2_ET_EXTENT_NOT_FOUND /\ Forall (fun x => ~ covers x blk) ls).
Proof.
  intros Himg [T1 T2 T3 T4 T5 T6] Hf. destruct fuel as [|fuel]; [lia|]. unfold tree_leaves in T5. destruct (h_path h) as [|p ps] eqn:Hps; [done|]. rewrite <- Hps in T2, T3, T4.
  assert (Hp : h_path h !! O = Some p) by (by rewrite Hps). specialize (T3 p Hp). specialize (T4 p Hp).
  unfold ext2fs_extent_goto, ext2fs_extent_goto2, mbind, X_bind. rewrite (get_root fuel no_extent h d p) by (lia || done).
  pose proof (field_range 2 2 (p_buf p) ltac:(lia)) as Hr. change (field 2 2 (p_buf p)) with (eh_entries (p_buf p)) in Hr. destruct (decide (p_entries p <= 0)) as [Hz|Hz].
  - eexists _, _. split; [done|]. right. split; [done|]. rewrite range_leaves_nil_le in T5 by lia. injection T5 as <-. done.
  - set (h0 := h_set_level O h). pose proof (range_leaves_length _ _ _ _ _ _ (proj1 Hr) T5) as HL.
    destruct (goto_from_all Himg (h_max_depth h) d h0 p ls (Z.of_nat (length ls)) blk (S fuel) 0
      (read_extent (bool_decide (O = h_max_depth h)) (at_entry p 0) (entry_off 0))) as (r & h' & HG & HR); try done; try (cbn; lia).
    { by rewrite T3. }
    { destruct (h_max_depth h); [|by left]. split; done. }
    cbv iota beta. rewrite decide_False by tauto. unfold get_handle. rewrite decide_False by (cbn; lia). exists r, h'. split; [exact HG|].
    destruct HR as (R1 & R2 & R3 & R4 & q & j & R5 & R6 & R7 & R8 & R9). destruct R9 as [[-> R9]|R9]; [|by right]. left. split; [done|].
    exists (leaf_extent (p_buf q) j). split_and!; [done|done|]. intros e. change (h_max_depth h0) with (h_max_depth h) in *.
    rewrite (get_current fuel e h' d (at_entry q j) (entry_off j)); [|by rewrite R3|done]. by rewrite bool_decide_eq_true_2 by lia.
Qed.

(** C29: A walk over the leaves of a tree that has just been opened gives every leaf once and in
    order, and then EXT2_ET_EXTENT_NO_NEXT. *)
Theorem walk_visits_all ino iblock h d ls fuel e :
  x_image = false -> ext2fs_extent_open2 ino iblock = inr h -> tree_leaves d h = Some ls -> (2 * h_max_depth h + 1 < fuel)%nat ->
  walk_leaves (S (length ls)) fuel e h d = Some (ls, EXT2_ET_EXTENT_NO_NEXT).
Proof.
  intros Himg HO HT Hf. destruct (open_handle _ _ _ HO) as (iblock' & end_blk & H1 & H2 & H3).
  set (p := mkPath iblock' (eh_entries iblock') (eh_max iblock') (eh_entries iblock') 1 end_blk None) in *.
  assert (Hp : h_path h !! O = Some p) by (by rewrite H2). pose proof (field_range 2 2 iblock' ltac:(lia)) as Hr. change (field 2 2 iblock') with (eh_entries iblock') in Hr.
  unfold tree_leaves in HT. rewrite H2 in HT. cbn [p p_buf] in HT.
  apply (walk_from d fuel Himg ls O h p e); [|done|right; done| |done].
  - split; [done|lia|by rewrite H3| |lia]. intros k q Hk Hq. replace k with O in * by lia. rewrite Hp in Hq. injection Hq as <-.
    split; cbn; [done|lia|by rewrite decide_True|]. rewrite Nat.sub_0_r, HT. done.
  - cbn [rest_up]. rewrite Hp, app_nil_r, Nat.sub_0_r. unfold rest. cbn [p p_entries p_left p_buf]. by rewrite Z.sub_diag, HT.
Qed.

End theorems.
