(* ===== verification/ExtentInode.v ===== *)
(** Changes of a tree that fits in the inode.  First its node as a list of extents: what replacing,
    inserting and deleting an entry do to the list; then each operation of [extent.c] at a position in
    that list. *)
From Stdlib Require Import ZArith Lia.
From stdpp Require Import base tactics numbers list.
From S2P Require Import Prelude Crc32c ExtErr BlkNum Csum CsumProofs Extent ExtentProofs ExtentTheorems.

(** * Entries of a buffer *)

(** The bytes of an entry. *)
Definition entry (b : list Z) (i : Z) : list Z := zslice (entry_off i) 12 b.


Lemma lookup_in_slice o n b (i : nat) : 0 <= o -> Z.of_nat i < n -> zslice o n b !! i = b !! (Z.to_nat o + i)%nat.
Proof. intros Ho Hi. rewrite <- (lookup_zslice o n b (Z.to_nat o + i)) by lia. f_equal. lia. Qed.

Lemma lookup_past_slice o n b (i : nat) : n <= Z.of_nat i -> zslice o n b !! i = None.
Proof. intros Hi. apply lookup_ge_None. Transparent zslice. unfold zslice. rewrite length_slice. lia. Opaque zslice. Qed.

Lemma zslice_zslice o n k w b : 0 <= o -> 0 <= k -> k + w <= n -> zslice k w (zslice o n b) = zslice (o + k) w b.
Proof.
  intros Ho Hk Hn. apply list_eq. intros i. destruct (decide (Z.of_nat i < w)) as [Hi|Hi].
  - rewrite !lookup_in_slice by lia. f_equal. lia.
  - by rewrite !lookup_past_slice by lia.
Qed.

(** What a move of bytes puts in its place. *)
Lemma zslice_moved p q m k n b :
  0 <= p -> 0 <= q -> 0 <= k -> 0 <= m -> k + n <= m -> q + m <= zlen b -> zslice (p + k) n (zsplice p (zslice q m b) b) = zslice (q + k) n b.
Proof.
  intros Hp Hq Hk Hm Hn Hb. rewrite <- (zslice_zslice p m k n) by lia. rewrite zslice_zsplice_eq by (by apply zlen_zslice). by apply zslice_zslice.
Qed.

Lemma field_entry w k i b : 0 <= i -> 0 <= k -> k + w <= 12 -> field w (entry_off i + k) b = le_val (zslice k w (entry b i)).
Proof. intros. unfold field, entry. rewrite zslice_zslice; [done|unfold entry_off; lia|lia|lia]. Qed.

Lemma leaf_extent_ext b b' i j : 0 <= i -> 0 <= j -> entry b i = entry b' j -> leaf_extent b i = leaf_extent b' j.
Proof.
  intros Hi Hj HE. assert (HF : forall w k, 0 <= k -> k + w <= 12 -> field w (entry_off i + k) b = field w (entry_off j + k) b').
  { intros w k Hk Hw. by rewrite !field_entry, HE by lia. }
  unfold leaf_extent, read_extent, ee_start, ee_block, ee_len. cbn [p_buf p_visit_num].
  rewrite (HF 4 8), (HF 2 6), (HF 2 4) by lia. specialize (HF 4 0 ltac:(lia) ltac:(lia)). rewrite !Z.add_0_r in HF. by rewrite HF.
Qed.

(** * Storing an extent *)

(** The length of a buffer with fields stored in it. *)
Ltac zlens :=
  repeat match goal with
  | |- context [zlen (put_field ?w ?o ?v ?b)] => rewrite (zlen_put w o v b) by first [lia | zlens; lia]
  end.

(** An extent that a leaf can hold: of blocks other than block 0 of the device, inside the ranges
    of logical and of physical blocks. *)
Definition leaf_ok (e : ext2fs_extent) : Prop :=
  0 < e_pblk e /\ e_pblk e + e_len e <= 2 ^ 48 /\ 0 <= e_lblk e /\ ext_end e <= 2 ^ 32 /\
  (e_flags e = 1 /\ 0 < e_len e <= EXT_INIT_MAX_LEN \/ e_flags e = 3 /\ 0 < e_len e <= EXT_UNINIT_MAX_LEN).

Lemma leaf_ok_ranges e : leaf_ok e -> 0 <= e_pblk e < 2 ^ 48 /\ 0 <= e_lblk e < 2 ^ 32 /\
  (e_flags e = 1 /\ 0 < e_len e <= EXT_INIT_MAX_LEN \/ e_flags e = 3 /\ 0 < e_len e <= EXT_UNINIT_MAX_LEN).
Proof. unfold leaf_ok, ext_end. intros (H1 & H2 & H3 & H4 & H5). split_and!; try done; lia. Qed.

Definition ext_uninit (e : ext2fs_extent) : bool := bool_decide (e_flags e = 3).

Lemma leaf_ok_flags e : leaf_ok e -> has_flag (e_flags e) EXT2_EXTENT_FLAGS_UNINIT = ext_uninit e.
Proof. unfold ext_uninit. intros (_ & _ & [[-> _]|[-> _]])%leaf_ok_ranges; reflexivity. Qed.

(** The buffer with an extent stored in entry [i]. *)
Definition put_leaf (b : list Z) (i : Z) (e : ext2fs_extent) : list Z :=
  let c := entry_off i in
  put_field 2 (c + 4) (u16 (if ext_uninit e then e_len e + EXT_INIT_MAX_LEN else e_len e))
    (put_start (c + 8) (c + 6) (e_pblk e) (put_field 4 c (u32 (e_lblk e)) b)).

Lemma zlen_put_leaf b i e : 0 <= i -> entry_off (i + 1) <= zlen b -> zlen (put_leaf b i e) = zlen b.
Proof. intros Hi Hb. unfold put_leaf, put_start, entry_off in *. zlens. done. Qed.

Lemma put_leaf_other b i e o w : 0 <= i -> entry_off (i + 1) <= zlen b -> 0 <= o -> o + w <= zlen b -> o + w <= entry_off i \/ entry_off (i + 1) <= o ->
  zslice o w (put_leaf b i e) = zslice o w b.
Proof.
  intros Hi Hb Ho Hw Hd. unfold put_leaf, put_start, entry_off in *.
  by rewrite !slice_put_other by (zlens; lia).
Qed.

Lemma split_start p : 0 <= p < 2 ^ 48 -> Z.land p 0xFFFFFFFF mod 2 ^ 32 + Z.shiftl (u16 (Z.shiftr p 32) mod 2 ^ 16) 32 = p.
Proof.
  intros Hp. change 0xFFFFFFFF with (Z.ones 32). rewrite Z.land_ones, Zmod_mod by lia. unfold u16. rewrite Zmod_mod, Z.shiftr_div_pow2, Z.shiftl_mul_pow2 by lia.
  rewrite (Z.mod_small (p / 2 ^ 32)); [pose proof (Z.div_mod p (2 ^ 32)); lia|].
  split; [apply Z.div_pos; lia|]. apply Z.div_lt_upper_bound; [lia|]. lia.
Qed.

Lemma leaf_extent_put b i e : 0 <= i -> entry_off (i + 1) <= zlen b -> leaf_ok e -> leaf_extent (put_leaf b i e) i = e.
Proof.
  intros Hi Hb (P1 & P2 & P3)%leaf_ok_ranges. unfold leaf_extent, read_extent, ee_start, ee_block, ee_len. cbn [p_buf p_visit_num]. set (c := entry_off i).
  assert (Hc : 12 <= c /\ c + 12 <= zlen b) by (unfold c, entry_off in *; lia).
  set (len := if ext_uninit e then e_len e + EXT_INIT_MAX_LEN else e_len e).
  assert (F1 : field 2 (c + 4) (put_leaf b i e) = len).
  { unfold put_leaf. fold c len. rewrite field_put_same by lia. unfold u16. rewrite Zmod_mod. apply Z.mod_small. unfold len, ext_uninit, EXT_INIT_MAX_LEN, EXT_UNINIT_MAX_LEN in *.
    destruct P3 as [[-> P3]|[-> P3]]; [rewrite bool_decide_eq_false_2 by lia|rewrite bool_decide_eq_true_2 by lia]; lia. }
  assert (F2 : field 4 c (put_leaf b i e) = e_lblk e).
  { unfold put_leaf, put_start. fold c. rewrite !field_put_other by (zlens; lia). rewrite field_put_same by lia. unfold u32. rewrite Zmod_mod. by apply Z.mod_small. }
  assert (F3 : field 4 (c + 8) (put_leaf b i e) = Z.land (e_pblk e) 0xFFFFFFFF mod 2 ^ 32).
  { unfold put_leaf, put_start. fold c. rewrite !field_put_other by (zlens; lia). by rewrite field_put_same by lia. }
  assert (F4 : field 2 (c + 6) (put_leaf b i e) = u16 (Z.shiftr (e_pblk e) 32) mod 2 ^ 16).
  { unfold put_leaf, put_start. fold c. rewrite !field_put_other by (zlens; lia). by rewrite field_put_same by lia. }
  rewrite F1, F2, F3, F4, split_start by done. destruct e as [pb lb ln fl]. cbn in *. unfold len, ext_uninit, EXT_INIT_MAX_LEN, EXT_UNINIT_MAX_LEN in *. cbn [e_flags e_len] in *.
  destruct P3 as [[-> P3]|[-> P3]].
  - rewrite (bool_decide_eq_false_2 (1 = 3)) by lia. rewrite (bool_decide_eq_false_2 (ln > 32768)) by lia. done.
  - rewrite (bool_decide_eq_true_2 (3 = 3)) by lia. rewrite (bool_decide_eq_true_2 (ln + 32768 > 32768)) by lia. f_equal; [lia].
Qed.

(** * A node as a list *)

(** The node [b], with room for [mx] entries, has the extents [l]. *)
Record holds (mx : Z) (b : list Z) (l : list ext2fs_extent) : Prop := {
  hd_room : entry_off mx <= zlen b;
  hd_max : mx < 2 ^ 16;
  hd_len : Z.of_nat (length l) <= mx;
  hd_entries : eh_entries b = Z.of_nat (length l);
  hd_ok : Forall leaf_ok l;
  hd_leaf i e : l !! i = Some e -> leaf_extent b (Z.of_nat i) = e
}.

Definition insert_at (k : nat) (e : ext2fs_extent) (l : list ext2fs_extent) : list ext2fs_extent := take k l ++ e :: drop k l.

(** The bytes from entry [k] on, moved up or down by one entry. *)
Definition moved_up (b : list Z) (k n : Z) : list Z := zsplice (entry_off (k + 1)) (zslice (entry_off k) ((n - k) * 12) b) b.
Definition moved_down (b : list Z) (k n : Z) : list Z := zsplice (entry_off k) (zslice (entry_off (k + 1)) ((n - k) * 12) b) b.

Lemma moved_up_len b k n : 0 <= k <= n -> entry_off (n + 1) <= zlen b -> zlen (moved_up b k n) = zlen b.
Proof. intros Hk Hb. unfold moved_up, entry_off in *. rewrite zlen_splice, zlen_zslice by lia. lia. Qed.
Lemma moved_down_len b k n : 0 <= k <= n -> entry_off (n + 1) <= zlen b -> zlen (moved_down b k n) = zlen b.
Proof. intros Hk Hb. unfold moved_down, entry_off in *. rewrite zlen_splice, zlen_zslice by lia. lia. Qed.

Lemma entry_moved_up b k n i : 0 <= k <= n -> entry_off (n + 1) <= zlen b -> 0 <= i <= n -> i <> k ->
  entry (moved_up b k n) i = entry b (if decide (i < k) then i else i - 1).
Proof.
  intros Hk Hb Hi Hne. unfold entry, moved_up, entry_off in *. destruct (decide (i < k)).
  - apply zslice_zsplice_disjoint; rewrite ?zlen_zslice; lia.
  - replace (12 + 12 * i) with (12 + 12 * (k + 1) + 12 * (i - 1 - k)) by lia. rewrite zslice_moved by lia. f_equal. lia.
Qed.

Lemma entry_moved_down b k n i : 0 <= k <= n -> entry_off (n + 1) <= zlen b -> 0 <= i < n ->
  entry (moved_down b k n) i = entry b (if decide (i < k) then i else i + 1).
Proof.
  intros Hk Hb Hi. unfold entry, moved_down, entry_off in *. destruct (decide (i < k)).
  - apply zslice_zsplice_disjoint; rewrite ?zlen_zslice; lia.
  - replace (12 + 12 * i) with (12 + 12 * k + 12 * (i - k)) by lia. rewrite zslice_moved by lia. f_equal. lia.
Qed.

(** Entries do not overlap the header. *)
Lemma entry_put_header b o v i : 0 <= o -> o + 2 <= 12 -> 0 <= i -> entry_off (i + 1) <= zlen b -> entry (put_field 2 o v b) i = entry b i.
Proof. intros. unfold entry, entry_off in *. apply slice_put_other; lia. Qed.

Lemma entry_put_leaf b k e i : 0 <= k -> entry_off (k + 1) <= zlen b -> 0 <= i -> entry_off (i + 1) <= zlen b -> i <> k -> entry (put_leaf b k e) i = entry b i.
Proof. intros. unfold entry. apply put_leaf_other; unfold entry_off in *; lia. Qed.

Lemma entries_put_leaf b k e : 0 <= k -> entry_off (k + 1) <= zlen b -> eh_entries (put_leaf b k e) = eh_entries b.
Proof. intros. unfold eh_entries, field. rewrite put_leaf_other by (unfold entry_off in *; lia). done. Qed.

(** How a new node holds a list: the header, the new entry, and the others from the old node. *)
Lemma node_holds_intro mx b b' (l l' : list ext2fs_extent) :
  entry_off mx <= zlen b' -> mx < 2 ^ 16 -> Z.of_nat (length l') <= mx -> eh_entries b' = Z.of_nat (length l') -> Forall leaf_ok l' ->
  (forall i e, l' !! i = Some e -> leaf_extent b' (Z.of_nat i) = e \/ exists j, l !! j = Some e /\ entry b' (Z.of_nat i) = entry b (Z.of_nat j)) ->
  (forall j e, l !! j = Some e -> leaf_extent b (Z.of_nat j) = e) -> holds mx b' l'.
Proof.
  intros H1 H2 H3 H4 H5 HE HB. split; try done. intros i e Hi. destruct (HE i e Hi) as [?|(j & Hj & HJ)]; [done|].
  rewrite (leaf_extent_ext b' b (Z.of_nat i) (Z.of_nat j)) by (lia || done). by apply HB.
Qed.

Section node.
Context (mx : Z) (b : list Z) (l : list ext2fs_extent) (Hb : holds mx b l).

Lemma holds_replace (k : nat) e : (k < length l)%nat -> leaf_ok e -> holds mx (put_leaf b (Z.of_nat k) e) (<[k := e]> l).
Proof using Hb.
  intros Hk He. destruct Hb as [B1 B2 B3 B4 B5 B6]. assert (Ho : entry_off (Z.of_nat k + 1) <= zlen b) by (unfold entry_off in *; lia).
  apply (node_holds_intro mx b _ l); rewrite ?length_insert; try done.
  - by rewrite zlen_put_leaf by lia.
  - by rewrite entries_put_leaf by lia.
  - by apply Forall_insert.
  - intros i x Hi. destruct (decide (i = k)) as [->|Hne].
    + left. rewrite list_lookup_insert_eq in Hi by done. injection Hi as <-. by apply leaf_extent_put; [lia|..].
    + right. rewrite list_lookup_insert_ne in Hi by done. exists i. split; [done|]. apply entry_put_leaf; try lia. apply lookup_lt_Some in Hi. unfold entry_off in *. lia.
Qed.

Lemma insert_at_lookup k e i x : (k <= length l)%nat -> insert_at k e l !! i = Some x ->
  i = k /\ x = e \/ i <> k /\ l !! (if decide (i < k)%nat then i else pred i) = Some x.
Proof using.
  intros Hk. unfold insert_at. destruct (decide (i < k)%nat) as [Hi|Hi].
  - rewrite lookup_app_l by (rewrite length_take; lia). rewrite lookup_take_lt by lia. intros Hx. right. split; [lia|done].
  - rewrite lookup_app_r by (rewrite length_take; lia). rewrite length_take, Nat.min_l by lia. destruct (i - k)%nat as [|m] eqn:Hm.
    + intros [= <-]. left. split; [lia|done].
    + change ((e :: drop k l) !! S m) with (drop k l !! m). rewrite lookup_drop. intros Hx. right. split; [lia|]. by replace (pred i) with (k + m)%nat by lia.
Qed.

Lemma holds_insert (k : nat) e : (k <= length l)%nat -> Z.of_nat (length l) < mx -> leaf_ok e ->
  let n := Z.of_nat (length l) in
  let b1 := if decide (n - Z.of_nat k - 1 >= 0) then moved_up b (Z.of_nat k) n else b in
  holds mx (put_leaf (put_field 2 2 (u16 (n + 1)) b1) (Z.of_nat k) e) (insert_at k e l).
Proof using Hb.
  intros Hk Hroom He n b1. destruct Hb as [B1 B2 B3 B4 B5 B6].
  assert (HL : zlen b1 = zlen b) by (unfold b1; destruct (decide _); [apply moved_up_len; unfold entry_off in *; lia|done]).
  assert (HL2 : zlen (put_field 2 2 (u16 (n + 1)) b1) = zlen b) by (rewrite zlen_put; unfold entry_off in *; lia).
  assert (Hlen : length (insert_at k e l) = S (length l)) by (unfold insert_at; rewrite length_app; cbn; rewrite length_take, length_drop; lia).
  assert (Hoff : forall i, i < mx -> entry_off (i + 1) <= zlen b) by (intros; unfold entry_off in *; lia).
  apply (node_holds_intro mx b _ l); rewrite ?Hlen; try done; try lia.
  - rewrite zlen_put_leaf; [lia|lia|]. rewrite HL2. apply Hoff. lia.
  - rewrite entries_put_leaf; [|lia|rewrite HL2; apply Hoff; lia]. unfold eh_entries. rewrite field_put_same by lia. unfold u16. rewrite Zmod_mod, Z.mod_small; lia.
  - unfold insert_at. apply Forall_app. split; [by apply Forall_take|]. constructor; [done|by apply Forall_drop].
  - intros i x Hi. pose proof (lookup_lt_Some _ _ _ Hi) as Hlt. rewrite Hlen in Hlt. destruct (insert_at_lookup k e i x Hk Hi) as [[-> ->]|[Hne Hx]].
    + left. apply leaf_extent_put; [lia|rewrite HL2; apply Hoff; lia|done].
    + right. exists (if decide (i < k)%nat then i else pred i). split; [done|].
      rewrite entry_put_leaf; [|lia|rewrite HL2; apply Hoff; lia|lia|rewrite HL2; apply Hoff; lia|lia].
      rewrite entry_put_header; [|lia|lia|lia|rewrite HL; apply Hoff; lia]. unfold b1. destruct (decide (n - Z.of_nat k - 1 >= 0)) as [Hm|Hm].
      * rewrite entry_moved_up; [|lia|apply Hoff; lia|lia|lia]. f_equal. destruct (decide (i < k)%nat), (decide (Z.of_nat i < Z.of_nat k)); lia.
      * rewrite decide_True by lia. done.
Qed.

Lemma holds_delete (k : nat) : (k < length l)%nat ->
  let n := Z.of_nat (length l) in
  let b1 := if decide (n - 1 - Z.of_nat k <> 0) then moved_down b (Z.of_nat k) (n - 1) else b in
  let b2 := put_field 2 2 (u16 (n - 1)) b1 in
  holds mx (if decide (n - 1 = 0) then put_field 2 6 0 b2 else b2) (delete k l).
Proof using Hb.
  intros Hk n b1 b2. destruct Hb as [B1 B2 B3 B4 B5 B6].
  assert (HL : zlen b1 = zlen b) by (unfold b1; destruct (decide _); [apply moved_down_len; unfold entry_off in *; lia|done]).
  assert (HL2 : zlen b2 = zlen b) by (unfold b2; rewrite zlen_put; unfold entry_off in *; lia).
  assert (Hoff : forall i, i < mx -> entry_off (i + 1) <= zlen b) by (intros; unfold entry_off in *; lia).
  assert (Hlen : length (delete k l) = pred (length l)) by (rewrite length_delete by (by apply lookup_lt_is_Some); lia).
  assert (H2 : holds mx b2 (delete k l)).
  { apply (node_holds_intro mx b _ l); rewrite ?Hlen; try done; try lia.
    - unfold b2, eh_entries. rewrite field_put_same by lia. unfold u16. rewrite Zmod_mod, Z.mod_small; lia.
    - by apply Forall_delete.
    - intros i x Hi. pose proof (lookup_lt_Some _ _ _ Hi) as Hlt. rewrite Hlen in Hlt. right. exists (if decide (i < k)%nat then i else S i).
      split; [destruct (decide (i < k)%nat); [by rewrite list_lookup_delete_lt in Hi|by rewrite list_lookup_delete_ge in Hi by lia]|].
      unfold b2. rewrite entry_put_header; [|lia|lia|lia|rewrite HL; apply Hoff; lia]. unfold b1. destruct (decide (n - 1 - Z.of_nat k <> 0)) as [Hm|Hm].
      + rewrite entry_moved_down; [|lia|apply Hoff; lia|lia]. f_equal. destruct (decide (i < k)%nat), (decide (Z.of_nat i < Z.of_nat k)); lia.
      + rewrite decide_True by lia. done. }
  destruct (decide (n - 1 = 0)); [|done]. apply (node_holds_intro mx b2 _ (delete k l)); try apply H2.
  - rewrite zlen_put; [lia|lia|lia|]. unfold entry_off in *. lia.
  - destruct H2. unfold eh_entries in *. rewrite field_put_other; [done|lia|lia|lia| |lia]. unfold entry_off in *. lia.
  - intros i x Hi. apply lookup_lt_Some in Hi. lia.
Qed.

End node.

(** * Runs *)

Section runs.
Context {D : Type}.

(** [m] returns, with a result that has the property. *)
Definition runs {A} (m : X D A) (h : ext2_extent_handle) (d : D) (Q : A -> ext2_extent_handle -> D -> Prop) : Prop :=
  match m h d with Xok a h d => Q a h d | _ => False end.

Lemma runs_eq {A} (m : X D A) h d a h' d' (Q : A -> ext2_extent_handle -> D -> Prop) : m h d = Xok a h' d' -> Q a h' d' -> runs m h d Q.
Proof. unfold runs. by intros ->. Qed.

Lemma runs_bind {A B} (m : X D A) (k : A -> X D B) h d (Q : B -> ext2_extent_handle -> D -> Prop) :
  runs m h d (fun a h d => runs (k a) h d Q) -> runs (m ≫= k) h d Q.
Proof. unfold runs, mbind, X_bind. by destruct (m h d). Qed.

Lemma runs_ret {A} (a : A) h d (Q : A -> ext2_extent_handle -> D -> Prop) : Q a h d -> runs (mret a) h d Q.
Proof. done. Qed.

Lemma runs_mono {A} (m : X D A) h d (Q Q' : A -> ext2_extent_handle -> D -> Prop) : (forall a h d, Q a h d -> Q' a h d) -> runs m h d Q -> runs m h d Q'.
Proof. unfold runs. destruct (m h d); auto. Qed.

Lemma runs_then (m k : X D Z) h d Q : runs m h d (fun r h d => r = 0 /\ runs k h d Q) -> runs (and_then m k) h d Q.
Proof.
  intros HM. apply runs_bind. eapply runs_mono; [|exact HM]. intros r h' d' [-> HK]. cbv beta. rewrite decide_False by tauto. done.
Qed.
End runs.

Section inode.
Context {D : Type} `{!ExtentEnv D} `{!Checksum}.
Implicit Types (h : ext2_extent_handle) (d : D) (b : list Z) (l L R : list ext2fs_extent) (e : ext2fs_extent).

(** The parts of the handle that no operation on a tree in the inode changes. *)
Variables (ino : inode) (mx eb : Z) (ps : list extent_path).

Definition place b (n j : Z) : ext2_extent_handle := mkHandle ino 0 0 (mkPath b n mx (n - 1 - j) 0 eb (Some (entry_off j)) :: ps).

(** At extent [e] of the list [L ++ e :: R]; [Q] relates the device and the node. *)
Definition at_zip (Q : D -> list Z -> Prop) h d L e R : Prop :=
  exists b, holds mx b (L ++ e :: R) /\ h = place b (Z.of_nat (length (L ++ e :: R))) (Z.of_nat (length L)) /\ Q d b.

Lemma zip_lookup L e R : (L ++ e :: R) !! length L = Some e.
Proof. by apply list_lookup_middle. Qed.

Lemma zip_insert L e R e' : <[length L := e']> (L ++ e :: R) = L ++ e' :: R.
Proof. rewrite insert_app_r_alt, Nat.sub_diag by lia. done. Qed.

Lemma zip_leaf b L e R : holds mx b (L ++ e :: R) -> leaf_extent b (Z.of_nat (length L)) = e.
Proof. intros Hb. apply (hd_leaf _ _ _ Hb). apply zip_lookup. Qed.

Lemma place_path b n j : h_path (place b n j) !! h_level (place b n j) = Some (mkPath b n mx (n - 1 - j) 0 eb (Some (entry_off j))).
Proof. done. Qed.

(** ** Moves *)

Lemma runs_current Q h d L e R fuel x (K : Z * ext2fs_extent -> ext2_extent_handle -> D -> Prop) :
  at_zip Q h d L e R -> (at_zip Q h d L e R -> K (0, e) h d) -> runs (ext2fs_extent_get (S fuel) EXT2_EXTENT_CURRENT x) h d K.
Proof.
  intros (b & Hb & -> & HQ) HK. eapply runs_eq; [by eapply get_current; [apply place_path|reflexivity]|].
  change (read_extent _ _ _) with (leaf_extent b (Z.of_nat (length L))). rewrite (zip_leaf b L e R Hb). apply HK. by exists b.
Qed.

Lemma next_leaf_place fuel x d b n j : ext2fs_extent_get (S fuel) EXT2_EXTENT_NEXT_LEAF x (place b n j) d =
  if decide (j + 1 < n) then Xok (0, leaf_extent b (j + 1)) (place b n (j + 1)) d else Xok (EXT2_ET_EXTENT_NO_NEXT, x) (place b n j) d.
Proof.
  pose proof (choose_next _ d _ (place_path b n j) EXT2_EXTENT_NEXT_LEAF) as HC. cbn [place h_level h_max_depth p_left] in HC. rewrite decide_False in HC by lia.
  destruct (decide (j + 1 < n)) as [Hj|Hj].
  - rewrite decide_True in HC by lia. pose proof (move_next _ d _ (place_path b n j) EXT2_EXTENT_NEXT_LEAF) as HM. cbn [p_left p_curr] in HM. rewrite decide_False in HM by lia.
    unfold ext2fs_extent_get. change (Z.land EXT2_EXTENT_NEXT_LEAF 0xF) with EXT2_EXTENT_NEXT_LEAF. rewrite (next_turn fuel _ _ x _ _ _ d _ _ HC HM ltac:(reflexivity)). rewrite decide_True by done.
    unfold upd, p_set_visit, p_set_curr, p_set_left, place. cbn. replace (entry_off j + 12) with (entry_off (j + 1)) by (unfold entry_off; lia).
    replace (n - 1 - j - 1) with (n - 1 - (j + 1)) by lia. done.
  - rewrite decide_False, decide_False in HC by lia. unfold ext2fs_extent_get. change (Z.land EXT2_EXTENT_NEXT_LEAF 0xF) with EXT2_EXTENT_NEXT_LEAF.
    cbn [get_loop]. unfold mbind, X_bind. by rewrite HC.
Qed.

Lemma prev_leaf_place fuel x d b n j : ext2fs_extent_get (S fuel) EXT2_EXTENT_PREV_LEAF x (place b n j) d =
  if decide (0 < j) then Xok (0, leaf_extent b (j - 1)) (place b n (j - 1)) d else Xok (EXT2_ET_EXTENT_NO_PREV, x) (place b n j) d.
Proof.
  unfold ext2fs_extent_get. change (Z.land EXT2_EXTENT_PREV_LEAF 0xF) with EXT2_EXTENT_PREV_LEAF. cbn [get_loop].
  assert (HC : choose_op EXT2_EXTENT_PREV_LEAF EXT2_EXTENT_PREV_LEAF (place b n j) d =
    if decide (0 < j) then Xok (inr EXT2_EXTENT_PREV_SIB) (place b n j) d else Xok (inl EXT2_ET_EXTENT_NO_PREV) (place b n j) d).
  { unfold choose_op. change (mbind ?k get_handle (place b n j) d) with (k (place b n j) (place b n j) d). cbv beta. unfold mbind at 1, X_bind at 1.
    rewrite (get_path_eq _ d _ (place_path b n j)). cbn [place h_level h_max_depth p_left p_entries]. rewrite decide_False by (intros [|]; done). rewrite decide_True by (by right). rewrite (bool_decide_eq_false_2 (0 < 0)%nat) by lia. cbn [andb].
    destruct (decide (0 < j)); [by rewrite decide_True by lia|]. by rewrite decide_False, decide_False by lia. }
  unfold mbind, X_bind. rewrite HC. destruct (decide (0 < j)) as [Hj|Hj]; [|done].
  rewrite (move_prev _ d _ (place_path b n j) _ (entry_off j)); [|done|cbn; lia]. cbv zeta. cbn [place h_level h_max_depth]. rewrite decide_False by lia.
  unfold get_handle. rewrite (get_path_eq _ d (mkPath b n mx (n - 1 - (j - 1)) 0 eb (Some (entry_off (j - 1))))).
  2: { unfold upd, p_set_curr, p_set_left. cbn. do 2 f_equal; [lia|]. unfold entry_off. f_equal. lia. }
  cbn [upd h_level h_max_depth]. rewrite bool_decide_eq_true_2 by (by right). cbn [negb andb]. rewrite (bool_decide_eq_true_2 (O = O)) by done. cbn [negb andb].
  rewrite (bool_decide_eq_false_2 (EXT2_EXTENT_PREV_LEAF = EXT2_EXTENT_LAST_LEAF)) by done. cbn [andb orb].
  unfold upd, p_set_curr, p_set_left, place. cbn. replace (entry_off j - 12) with (entry_off (j - 1)) by (unfold entry_off; lia).
  replace (n - 1 - j + 1) with (n - 1 - (j - 1)) by lia. done.
Qed.

Lemma runs_next Q h d L e R fuel y (K : Z * ext2fs_extent -> ext2_extent_handle -> D -> Prop) :
  at_zip Q h d L e R ->
  match R with
  | [] => at_zip Q h d L e R -> K (EXT2_ET_EXTENT_NO_NEXT, y) h d
  | x :: R' => forall h, at_zip Q h d (L ++ [e]) x R' -> K (0, x) h d
  end -> runs (ext2fs_extent_get (S fuel) EXT2_EXTENT_NEXT_LEAF y) h d K.
Proof.
  intros (b & Hb & -> & HQ) HK. unfold runs. rewrite next_leaf_place. destruct R as [|x R'].
  - rewrite decide_False by (rewrite length_app; cbn; lia). apply HK. by exists b.
  - rewrite decide_True by (rewrite length_app; cbn; lia). assert (Hz : L ++ e :: x :: R' = (L ++ [e]) ++ x :: R') by (by rewrite <- app_assoc).
    replace (Z.of_nat (length L) + 1) with (Z.of_nat (length (L ++ [e]))) by (rewrite length_app; cbn; lia).
    rewrite Hz in Hb |- *. rewrite (zip_leaf b (L ++ [e]) x R' Hb). apply HK. by exists b.
Qed.

Lemma runs_prev_none Q h d e R fuel y (K : Z * ext2fs_extent -> ext2_extent_handle -> D -> Prop) :
  at_zip Q h d [] e R -> (at_zip Q h d [] e R -> K (EXT2_ET_EXTENT_NO_PREV, y) h d) -> runs (ext2fs_extent_get (S fuel) EXT2_EXTENT_PREV_LEAF y) h d K.
Proof. intros (b & Hb & -> & HQ) HK. unfold runs. rewrite prev_leaf_place, decide_False by (cbn; lia). apply HK. by exists b. Qed.

Lemma runs_prev Q h d L x e R fuel y (K : Z * ext2fs_extent -> ext2_extent_handle -> D -> Prop) :
  at_zip Q h d (L ++ [x]) e R -> (forall h, at_zip Q h d L x (e :: R) -> K (0, x) h d) -> runs (ext2fs_extent_get (S fuel) EXT2_EXTENT_PREV_LEAF y) h d K.
Proof.
  intros (b & Hb & -> & HQ) HK. unfold runs. rewrite prev_leaf_place, decide_True by (rewrite length_app; cbn; lia).
  assert (Hz : (L ++ [x]) ++ e :: R = L ++ x :: e :: R) by (by rewrite <- app_assoc).
  replace (Z.of_nat (length (L ++ [x])) - 1) with (Z.of_nat (length L)) by (rewrite length_app; cbn; lia).
  rewrite Hz in Hb |- *. rewrite (zip_leaf b L x (e :: R) Hb). apply HK. by exists b.
Qed.

(** ** The search *)

(** Where the search for [blk] in a list ends. *)
Inductive goto_at (l : list ext2fs_extent) (blk : Z) : Z -> list ext2fs_extent -> ext2fs_extent -> list ext2fs_extent -> Prop :=
| goto_found L e R : l = L ++ e :: R -> covers e blk -> Forall (fun x => ext_end x <= blk) L -> goto_at l blk 0 L e R
| goto_first e R : l = e :: R -> blk < e_lblk e -> goto_at l blk EXT2_ET_EXTENT_NOT_FOUND [] e R
| goto_after L e R : l = L ++ e :: R -> Forall (fun x => ext_end x <= blk) (L ++ [e]) -> match R with [] => True | x :: _ => blk < e_lblk x end ->
    goto_at l blk EXT2_ET_EXTENT_NOT_FOUND L e R.

Lemma zip_at l (j : nat) e : l !! j = Some e -> exists L R, l = L ++ e :: R /\ length L = j.
Proof. intros He. exists (take j l), (drop (S j) l). split; [by rewrite take_drop_middle|]. apply lookup_lt_Some in He. rewrite length_take. lia. Qed.

Lemma leaf_result_goto b l blk r j : holds mx b l -> 0 <= j < Z.of_nat (length l) -> leaf_result (leaf_extent b) (Z.of_nat (length l)) blk r j ->
  exists L e R, goto_at l blk r L e R /\ Z.of_nat (length L) = j.
Proof.
  intros Hb Hj HR. destruct (lookup_lt_is_Some_2 l (Z.to_nat j)) as [e He]; [lia|]. destruct (zip_at l _ e He) as (L & R & Hl & HL).
  assert (HE : forall k x, l !! k = Some x -> leaf_extent b (Z.of_nat k) = x) by apply Hb.
  assert (Hprev : forall hi, (forall k, 0 <= k < hi -> ext_end (leaf_extent b k) <= blk) -> Z.of_nat (length L) <= hi -> Forall (fun x => ext_end x <= blk) L).
  { intros hi Hk Hle. apply Forall_lookup. intros k x Hx. pose proof (lookup_lt_Some _ _ _ Hx). rewrite <- (HE k x); [apply Hk; lia|]. rewrite Hl. by apply lookup_app_l_Some. }
  specialize (HE (Z.to_nat j) e He) as Hej. rewrite Z2Nat.id in Hej by lia. destruct HR as [(-> & HC & Hk)|[-> [[-> Hlt]|[Hk Hn]]]].
  - exists L, e, R. split; [|lia]. rewrite Hej in HC. apply goto_found; [done|done|]. apply (Hprev j); [done|lia].
  - destruct L; [|cbn in HL; lia]. exists [], e, R. split; [|done]. rewrite Hej in Hlt. by apply goto_first.
  - exists L, e, R. split; [|lia]. apply goto_after; [done| |].
    + apply Forall_app. split; [apply (Hprev (j + 1)); [intros; apply Hk; lia|lia]|]. constructor; [|done]. rewrite <- Hej. apply Hk. lia.
    + destruct R as [|x R']; [done|]. rewrite <- (HE (S (Z.to_nat j)) x).
      * replace (Z.of_nat (S (Z.to_nat j))) with (j + 1) by lia. apply Hn. rewrite Hl, length_app. cbn. lia.
      * rewrite Hl, lookup_app_r by lia. replace (S (Z.to_nat j) - length L)%nat with 1%nat by lia. done.
Qed.

(** A handle on the list [l] at any position. *)
Definition at_root (Q : D -> list Z -> Prop) h d l : Prop :=
  exists b p, holds mx b l /\ h = mkHandle ino 0 0 (p :: ps) /\ p_buf p = b /\ p_entries p = Z.of_nat (length l) /\ p_max_entries p = mx /\ p_end_blk p = eb /\
    (l = [] -> p_curr p = None) /\ Q d b.

Lemma zip_root Q h d L e R : at_zip Q h d L e R -> at_root Q h d (L ++ e :: R).
Proof. intros (b & Hb & -> & HQ). eexists b, _. split_and!; try done. intros HN. by apply app_eq_nil in HN as [_ [=]]. Qed.

Lemma runs_goto Q h d l fuel blk (K : Z -> ext2_extent_handle -> D -> Prop) :
  at_root Q h d l -> l <> [] -> mx <= Z.of_nat fuel -> (forall r L e R h, goto_at l blk r L e R -> at_zip Q h d L e R -> K r h d) ->
  runs (ext2fs_extent_goto2 (S fuel) 0 blk) h d K.
Proof.
  intros (b & p & Hb & -> & Hpb & Hpn & Hpm & Hpe & _ & HQ) Hl Hf HK. assert (Hn : (0 < length l)%nat) by (destruct l; [done|cbn; lia]). pose proof (hd_len _ _ _ Hb) as Hlen.
  set (h := mkHandle ino 0 0 (p :: ps)). pose proof (get_root fuel no_extent h d p ltac:(cbn; lia) eq_refl) as HR. rewrite decide_False in HR by lia.
  destruct (goto_leaf h d p blk eq_refl ltac:(cbn; lia) (S fuel) 0) as (r & j & HG & Hj & HL); [lia|lia|lia|].
  rewrite Hpn, Hpb in HL. destruct (leaf_result_goto b l blk r j Hb ltac:(lia) HL) as (L & e & R & HA & HLj).
  apply runs_eq with (a := r) (h' := place b (Z.of_nat (length l)) j) (d' := d).
  - unfold ext2fs_extent_goto2, mbind, X_bind. rewrite HR. cbv iota beta. rewrite decide_False by tauto. unfold get_handle. rewrite decide_False by (cbn; lia).
    etrans; [exact HG|]. unfold upd, at_entry, place. cbn. by rewrite Hpb, Hpn, Hpm, Hpe.
  - apply (HK r L e R); [done|]. assert (Hz : l = L ++ e :: R) by (by inversion HA). subst l. exists b. by rewrite HLj.
Qed.

(** The extent that maps the block, when those before it do not reach it. *)
Lemma goto_at_found l blk r L e R L' e' R' : Forall leaf_ok l -> goto_at l blk r L e R -> l = L' ++ e' :: R' -> covers e' blk -> Forall (fun x => ext_end x <= blk) L' ->
  r = 0 /\ L = L' /\ e = e' /\ R = R'.
Proof.
  intros Hok HA Hl HC HL'. assert (Hpos : forall x, x ∈ l -> 0 < e_len x).
  { intros x Hx. rewrite Forall_forall in Hok. destruct (leaf_ok_ranges x (Hok x Hx)) as (_ & _ & [[_ ?]|[_ ?]]); lia. }
  assert (Hsame : length L = length L' -> l = L ++ e :: R -> L = L' /\ e = e' /\ R = R').
  { intros HE HL. rewrite Hl in HL. symmetry in HL. apply app_inj_1 in HL as [-> [= -> ->]]; done. }
  assert (He' : l !! length L' = Some e') by (rewrite Hl; by apply list_lookup_middle).
  assert (HB : forall k x, l !! k = Some x -> (k < length L')%nat -> ext_end x <= blk).
  { intros k x Hx Hk. rewrite Hl, lookup_app_l in Hx by done. rewrite Forall_lookup in HL'. eauto. }
  destruct HA as [L e R HL HCe HF|e R HL Hlt|L e R HL HF Hn]; unfold covers, ext_end in *.
  - split; [done|]. apply Hsame; [|done]. assert (He : l !! length L = Some e) by (rewrite HL; by apply list_lookup_middle).
    destruct (Nat.lt_trichotomy (length L) (length L')) as [Hlt|[?|Hgt]]; [|done|].
    + specialize (HB _ _ He Hlt). lia.
    + rewrite HL, lookup_app_l in He' by done. rewrite Forall_lookup in HF. specialize (HF _ _ He'). cbn in HF. lia.
  - exfalso. assert (He : l !! O = Some e) by (by rewrite HL). destruct L' as [|y L']; cbn [length] in *; [rewrite He in He'; injection He' as <-; lia|].
    specialize (HB _ _ He ltac:(lia)). specialize (Hpos e ltac:(by apply list_elem_of_lookup; exists O)). lia.
  - exfalso. destruct (decide (length L' < length (L ++ [e]))%nat) as [Hlt|Hge].
    + rewrite HL in He'. change (e :: R) with ([e] ++ R) in He'. rewrite app_assoc, lookup_app_l in He' by done. rewrite Forall_lookup in HF. specialize (HF _ _ He'). lia.
    + rewrite length_app in Hge. cbn in Hge. assert (HR : l !! (length L + 1)%nat = R !! O).
      { rewrite HL, lookup_app_r by lia. by replace (length L + 1 - length L)%nat with 1%nat by lia. }
      destruct R as [|x R]; [apply lookup_ge_None in HR; apply lookup_lt_Some in He'; lia|]. cbn in HR.
      destruct (decide (length L' = length L + 1)%nat) as [Heq|Hne]; [rewrite Heq, HR in He'; injection He' as <-; lia|].
      specialize (HB _ _ HR ltac:(lia)). specialize (Hpos x ltac:(by apply list_elem_of_lookup; eexists)). lia.
Qed.

Lemma runs_goto_to Q h d l fuel blk L e R (K : Z -> ext2_extent_handle -> D -> Prop) :
  at_root Q h d l -> l = L ++ e :: R -> covers e blk -> Forall (fun x => ext_end x <= blk) L -> mx <= Z.of_nat fuel ->
  (forall h, at_zip Q h d L e R -> K 0 h d) -> runs (ext2fs_extent_goto2 (S fuel) 0 blk) h d K.
Proof.
  intros HA Hl HC HF Hf HK. assert (Hok : Forall leaf_ok l) by (destruct HA as (b & p & Hb & _); by destruct Hb).
  apply (runs_goto Q h d l); [done|intros ->; by destruct L|done|]. intros r L0 e0 R0 h0 HG HZ.
  destruct (goto_at_found l blk r L0 e0 R0 L e R Hok HG Hl HC HF) as (-> & -> & -> & ->). by apply HK.
Qed.

(** ** Changes *)

Hypothesis rw : has_flag (fs_flags x_fs) 1 = true.
Hypothesis writes_ok : forall d i b, (ext2fs_write_inode d i b).1 = 0.

(** The inode has been written with the node [b]. *)
Definition saved d b : Prop := exists d0, d = (ext2fs_write_inode d0 ino b).2.

Lemma update_root d p : update_path (mkHandle ino 0 0 (p :: ps)) d = Xok 0 (mkHandle ino 0 0 (p :: ps)) (ext2fs_write_inode d ino (p_buf p)).2.
Proof using writes_ok.
  change (update_path (mkHandle ino 0 0 (p :: ps)) d) with (write_inode (mkHandle ino 0 0 (p :: ps)) d). unfold write_inode. cbn [h_inode i_block h_path].
  pose proof (writes_ok d ino (p_buf p)) as HW. destruct (ext2fs_write_inode d ino (p_buf p)) as [r d']. cbn in HW. by subst r.
Qed.

Lemma replace_root d p j e : p_curr p = Some (entry_off j) -> leaf_ok e ->
  ext2fs_extent_replace e (mkHandle ino 0 0 (p :: ps)) d =
    Xok 0 (mkHandle ino 0 0 (p_set_buf (put_leaf (p_buf p) j e) p :: ps)) (ext2fs_write_inode d ino (put_leaf (p_buf p) j e)).2.
Proof using rw writes_ok.
  intros Hc He. unfold ext2fs_extent_replace. rewrite rw. cbn [negb]. unfold mbind, X_bind, get_handle. rewrite (get_path_eq _ d p) by done. rewrite Hc.
  cbn [h_level h_max_depth]. rewrite (decide_True (P := O = O)) by done. rewrite set_path_eq. rewrite leaf_ok_flags by done.
  destruct (leaf_ok_ranges e He) as (_ & _ & Hlen). rewrite decide_False.
  2: { unfold ext_uninit. destruct Hlen as [[-> Hlen]|[-> Hlen]]; [rewrite bool_decide_eq_false_2 by lia|rewrite bool_decide_eq_true_2 by lia]; unfold EXT_INIT_MAX_LEN, EXT_UNINIT_MAX_LEN in *; lia. }
  rewrite set_path_eq. match goal with |- context [update_path ?h d] => change h with (mkHandle ino 0 0 (p_set_buf (put_leaf (p_buf p) j e) p :: ps)) end.
  by rewrite (update_root d (p_set_buf (put_leaf (p_buf p) j e) p)).
Qed.

Lemma runs_replace Q h d L e R e' (K : Z -> ext2_extent_handle -> D -> Prop) :
  at_zip Q h d L e R -> leaf_ok e' -> (forall h d, at_zip saved h d L e' R -> K 0 h d) -> runs (ext2fs_extent_replace e') h d K.
Proof using rw writes_ok.
  intros (b & Hb & -> & HQ) He HK. eapply runs_eq; [by apply replace_root|]. cbn [p_buf]. set (j := Z.of_nat (length L)).
  assert (Hb' : holds mx (put_leaf b j e') (L ++ e' :: R)).
  { pose proof (holds_replace mx b _ Hb (length L) e' ltac:(rewrite length_app; cbn; lia) He) as HR. by rewrite zip_insert in HR. }
  apply HK. exists (put_leaf b j e'). split_and!; [done| |by eexists]. unfold place, p_set_buf. cbn [p_buf p_entries p_max_entries p_left p_visit_num p_end_blk p_curr].
  by rewrite !length_app.
Qed.

(** The entry after a node has been moved up. *)
Lemma insert_root fuel d b n e (k : Z) flags left v curr :
  n < mx -> leaf_ok e ->
  match curr with
  | Some c => c = entry_off (k - (if has_flag flags EXT2_EXTENT_INSERT_AFTER then 1 else 0)) /\ left = n - 1 - k + (if has_flag flags EXT2_EXTENT_INSERT_AFTER then 1 else 0)
  | None => k = 0 /\ n = 0
  end ->
  let b' := put_leaf (put_field 2 2 (u16 (n + 1)) (if decide (n - k - 1 >= 0) then moved_up b k n else b)) k e in
  exists d0, ext2fs_extent_insert fuel flags e (mkHandle ino 0 0 (mkPath b n mx left v eb curr :: ps)) d =
    Xok 0 (mkHandle ino 0 0 (mkPath b' (n + 1) mx (n - k) v eb (Some (entry_off k)) :: ps)) (ext2fs_write_inode d0 ino b').2.
Proof using rw writes_ok.
  intros Hn He Hc b'. unfold ext2fs_extent_insert. rewrite rw. cbn [negb]. unfold mbind at 1, X_bind at 1. rewrite (get_path_eq _ d (mkPath b n mx left v eb curr)) by done.
  cbn [p_entries p_max_entries]. rewrite decide_False by lia. unfold insert_entry, mbind, X_bind. rewrite (get_path_eq _ d (mkPath b n mx left v eb curr)) by done. cbn [p_curr p_left p_buf p_entries p_max_entries p_visit_num p_end_blk].
  assert (HX : (match curr with Some c => if has_flag flags EXT2_EXTENT_INSERT_AFTER then (ix_next c, left - 1) else (c, left) | None => (FIRST_INDEX, -1) end) = (entry_off k, n - k - 1)).
  { destruct curr as [c|]; [destruct Hc as [-> ->]; unfold ix_next, entry_off; destruct (has_flag flags EXT2_EXTENT_INSERT_AFTER); apply f_equal2; lia|]. destruct Hc as [-> ->]. done. }
  rewrite HX. cbv iota beta. set (b1 := if decide (n - k - 1 >= 0) then _ else b).
  assert (Hb1 : b1 = if decide (n - k - 1 >= 0) then moved_up b k n else b).
  { unfold b1, moved_up, ix_next. destruct (decide _); [|done]. replace (entry_off k + 12) with (entry_off (k + 1)) by (unfold entry_off; lia). by replace (n - k - 1 + 1) with (n - k) by lia. }
  rewrite set_path_eq. set (p1 := mkPath _ (n + 1) _ _ _ _ _). match goal with |- context [ext2fs_extent_replace e ?h d] => change h with (mkHandle ino 0 0 (p1 :: ps)) end.
  rewrite (replace_root d p1 k e) by done. cbn [p1 p_buf p_set_buf].
  rewrite decide_False by tauto. rewrite update_root. cbn [p_buf]. rewrite decide_False by tauto. unfold p1, b'. rewrite <- Hb1. replace (n - k - 1 + 1) with (n - k) by lia. eexists. reflexivity.
Qed.

Lemma runs_insert_after Q h d L e R fuel e' (K : Z -> ext2_extent_handle -> D -> Prop) :
  at_zip Q h d L e R -> Z.of_nat (length (L ++ e :: R)) < mx -> leaf_ok e' -> (forall h d, at_zip saved h d (L ++ [e]) e' R -> K 0 h d) ->
  runs (ext2fs_extent_insert fuel EXT2_EXTENT_INSERT_AFTER e') h d K.
Proof using rw writes_ok.
  intros (b & Hb & -> & HQ) Hn He HK. set (n := Z.of_nat (length (L ++ e :: R))) in *. set (k := Z.of_nat (length (L ++ [e]))).
  assert (Hk : k = Z.of_nat (length L) + 1) by (unfold k; rewrite length_app; cbn; lia).
  destruct (insert_root fuel d b n e' k EXT2_EXTENT_INSERT_AFTER (n - 1 - Z.of_nat (length L)) 0 (Some (entry_off (Z.of_nat (length L)))) Hn He) as [d0 HI].
  { change (has_flag EXT2_EXTENT_INSERT_AFTER EXT2_EXTENT_INSERT_AFTER) with true. cbv iota. split; [f_equal; lia|lia]. }
  eapply runs_eq; [exact HI|]. apply HK. set (b' := put_leaf _ k e') in *. assert (Hl : insert_at (length (L ++ [e])) e' (L ++ e :: R) = (L ++ [e]) ++ e' :: R).
  { unfold insert_at. change (e :: R) with ([e] ++ R). rewrite app_assoc. by rewrite take_app_length, drop_app_length. }
  exists b'. split_and!; [|unfold place|by eexists].
  - rewrite <- Hl. apply (holds_insert mx b (L ++ e :: R) Hb); [rewrite !length_app; cbn; lia|done|done].
  - fold k. do 2 f_equal. f_equal; unfold n; rewrite !length_app; cbn; lia.
Qed.

Lemma runs_insert_before Q h d L e R fuel e' (K : Z -> ext2_extent_handle -> D -> Prop) :
  at_zip Q h d L e R -> Z.of_nat (length (L ++ e :: R)) < mx -> leaf_ok e' -> (forall h d, at_zip saved h d L e' (e :: R) -> K 0 h d) ->
  runs (ext2fs_extent_insert fuel 0 e') h d K.
Proof using rw writes_ok.
  intros (b & Hb & -> & HQ) Hn He HK. set (n := Z.of_nat (length (L ++ e :: R))) in *. set (k := Z.of_nat (length L)).
  destruct (insert_root fuel d b n e' k 0 (n - 1 - k) 0 (Some (entry_off k)) Hn He) as [d0 HI].
  { change (has_flag 0 EXT2_EXTENT_INSERT_AFTER) with false. cbv iota. split; [f_equal; lia|lia]. }
  eapply runs_eq; [exact HI|]. apply HK. set (b' := put_leaf _ k e') in *. assert (Hl : insert_at (length L) e' (L ++ e :: R) = L ++ e' :: e :: R).
  { unfold insert_at. by rewrite take_app_length, drop_app_length. }
  exists b'. split_and!; [|unfold place|by eexists].
  - rewrite <- Hl. apply (holds_insert mx b (L ++ e :: R) Hb); [rewrite !length_app; cbn; lia|done|done].
  - fold k. do 2 f_equal. f_equal; unfold n; rewrite !length_app; cbn; lia.
Qed.

Lemma runs_insert_empty Q h d fuel e' (K : Z -> ext2_extent_handle -> D -> Prop) :
  at_root Q h d [] -> 0 < mx -> leaf_ok e' -> (forall h d, at_root saved h d [e'] -> K 0 h d) -> runs (ext2fs_extent_insert fuel 0 e') h d K.
Proof using rw writes_ok.
  intros (b & p & Hb & -> & Hpb & Hpn & Hpm & Hpe & Hpc & HQ) Hn He HK. destruct p as [pb pn pm pl pv pe pc]. cbn in *. specialize (Hpc eq_refl). subst.
  destruct (insert_root fuel d b 0 e' 0 0 pl pv None Hn He ltac:(done)) as [d0 HI]. eapply runs_eq; [exact HI|]. apply HK.
  eexists _, _. split_and!; [exact (holds_insert mx b [] Hb O e' ltac:(cbn; lia) Hn He)|done|done|done|done|done|done|by eexists].
Qed.

Lemma delete_root fuel d b n j : 0 <= j < n ->
  let b1 := if decide (n - 1 - j <> 0) then moved_down b j (n - 1) else b in
  let b2 := put_field 2 2 (u16 (n - 1)) b1 in
  let b' := if decide (n - 1 = 0) then put_field 2 6 0 b2 else b2 in
  let curr := if decide (n - 1 = 0) then None else Some (entry_off (if decide (n - 1 - j <> 0) then j else j - 1)) in
  ext2fs_extent_delete (S fuel) 0 (place b n j) d =
    Xok 0 (mkHandle ino 0 0 (mkPath b' (n - 1) mx (if decide (n - 1 - j <> 0) then n - 1 - j - 1 else n - 1 - j) 0 eb curr :: ps)) (ext2fs_write_inode d ino b').2.
Proof using rw writes_ok.
  intros Hj b1 b2 b' curr. cbn [ext2fs_extent_delete]. rewrite rw. cbn [negb]. unfold mbind, X_bind, get_handle. rewrite (get_path_eq _ d _ (place_path b n j)). cbn [p_curr].
  set (q := mkPath b n mx (n - 1 - j) 0 eb (Some (entry_off j))). set (q1 := if decide (p_left q <> 0) then _ else _). set (q2 := p_set_entries (p_entries q1 - 1) q1).
  assert (H1 : q1 = mkPath b1 n mx (if decide (n - 1 - j <> 0) then n - 1 - j - 1 else n - 1 - j) 0 eb (Some (entry_off (if decide (n - 1 - j <> 0) then j else j - 1)))).
  { unfold q1, q, b1. cbn [p_left]. destruct (decide (n - 1 - j <> 0)).
    - unfold p_set_left, p_set_buf, moved_down. cbn. by replace (entry_off j + 12) with (entry_off (j + 1)) by (unfold entry_off; lia).
    - unfold p_set_curr, ix_prev. cbn. do 2 f_equal. unfold entry_off. lia. }
  assert (H2 : p_entries q2 = n - 1) by (unfold q2; by rewrite H1). rewrite H2. set (q3 := if decide (n - 1 = 0) then p_set_curr None q2 else q2).
  assert (H3 : q3 = mkPath b1 (n - 1) mx (if decide (n - 1 - j <> 0) then n - 1 - j - 1 else n - 1 - j) 0 eb curr).
  { unfold q3, q2, curr. rewrite H1. cbn. by destruct (decide (n - 1 = 0)). }
  rewrite set_path_eq. cbn [place h_level]. rewrite (bool_decide_eq_false_2 (O <> O)) by lia. rewrite andb_false_r, (bool_decide_eq_true_2 (O = O)), andb_true_r by done.
  rewrite H3. cbn [p_entries p_buf]. rewrite set_path_eq. unfold modify_handle.
  set (q4 := p_set_buf b' (mkPath b1 (n - 1) mx (if decide (n - 1 - j <> 0) then n - 1 - j - 1 else n - 1 - j) 0 eb curr)).
  match goal with |- context [update_path ?h d] => assert (HU : h = mkHandle ino 0 0 (q4 :: ps)) end.
  { unfold q4, b', b2. destruct (decide (n - 1 = 0)) as [Hz|Hz]; [rewrite (bool_decide_eq_true_2 _ Hz)|rewrite (bool_decide_eq_false_2 _ Hz)]; done. }
  rewrite HU, update_root. done.
Qed.

(** What is left after a deletion: a position beside the deleted extent, or an empty tree. *)
Inductive deleted h d L R : Prop :=
| deleted_next x R' : R = x :: R' -> at_zip saved h d L x R' -> deleted h d L R
| deleted_prev L' x : L = L' ++ [x] -> R = [] -> at_zip saved h d L' x [] -> deleted h d L R
| deleted_all : L = [] -> R = [] -> at_root saved h d [] -> deleted h d L R.

Lemma runs_delete Q h d L e R fuel (K : Z -> ext2_extent_handle -> D -> Prop) :
  at_zip Q h d L e R -> (forall h d, deleted h d L R -> K 0 h d) -> runs (ext2fs_extent_delete (S fuel) 0) h d K.
Proof using rw writes_ok.
  intros (b & Hb & -> & HQ) HK. set (n := Z.of_nat (length (L ++ e :: R))) in *. set (k := Z.of_nat (length L)).
  assert (Hn : n = k + 1 + Z.of_nat (length R)) by (unfold n, k; rewrite length_app; cbn; lia).
  eapply runs_eq; [apply delete_root; lia|]. apply HK.
  pose proof (holds_delete mx b (L ++ e :: R) Hb (length L) ltac:(rewrite length_app; cbn; lia)) as HD. rewrite delete_middle in HD. cbv zeta in HD. fold n k in HD.
  set (b' := if decide (n - 1 = 0) then _ else _) in *. assert (HS : saved (ext2fs_write_inode d ino b').2 b') by (by eexists).
  destruct R as [|x R]; [destruct L as [|y L] using rev_ind|].
  - apply deleted_all; [done|done|]. assert (Hz : n - 1 = 0) by (unfold n; cbn; lia). eexists b', _. split_and!; [done|done|done|cbn; lia|done|done|by rewrite (decide_True (P := n - 1 = 0))|done].
  - clear IHL. apply (deleted_prev _ _ _ _ L y); [done|done|]. rewrite app_nil_r in HD. exists b'. split_and!; [done| |done]. unfold place.
    assert (Hk : k = Z.of_nat (length L) + 1) by (unfold k; rewrite length_app; cbn; lia). cbn [length] in Hn.
    rewrite !(decide_False (P := n - 1 - k <> 0)) by lia. rewrite (decide_False (P := n - 1 = 0)) by lia. rewrite !length_app. cbn [length]. replace (k - 1) with (Z.of_nat (length L)) by lia.
    do 2 f_equal. f_equal; lia.
  - apply (deleted_next _ _ _ _ x R); [done|]. exists b'. split_and!; [done| |done]. unfold place. cbn [length] in Hn.
    rewrite !(decide_True (P := n - 1 - k <> 0)) by lia. rewrite (decide_False (P := n - 1 = 0)) by lia.
    rewrite !length_app. cbn [length]. fold k. do 2 f_equal. f_equal; [unfold k in *; lia|unfold k in *; lia].
Qed.

(** In the inode there are no parents: [ext2fs_extent_fix_parents] is a search. *)
Lemma runs_fix Q h d l L e R L' e' R' fuel (K : Z -> ext2_extent_handle -> D -> Prop) :
  at_zip Q h d L e R -> L ++ e :: R = l -> l = L' ++ e' :: R' -> covers e' (e_lblk e) -> Forall (fun x => ext_end x <= e_lblk e) L' -> mx <= Z.of_nat fuel ->
  (forall h, at_zip Q h d L' e' R' -> K 0 h d) -> runs (ext2fs_extent_fix_parents (S fuel)) h d K.
Proof using rw.
  intros HZ Hl Hl' HC HF Hf HK. unfold ext2fs_extent_fix_parents. rewrite rw. cbn [negb]. pose proof HZ as (b & Hb & -> & HQ). apply runs_bind.
  eapply runs_eq; [by apply (get_path_eq _ d _ (place_path _ _ _))|]. cbn [p_curr]. apply runs_bind. apply (runs_current Q _ d L e R fuel); [done|]. intros _. cbv iota beta.
  rewrite decide_False by tauto. unfold runs, ext2fs_extent_get_info, mbind, X_bind, get_handle. rewrite (get_path_eq _ d _ (place_path _ _ _)). cbn [mret X_ret fix_parents_loop].
  unfold mret, X_ret. cbn [fix_parents_loop]. unfold mbind, X_bind, get_handle. rewrite (get_path_eq _ d _ (place_path _ _ _)).
  rewrite (bool_decide_eq_false_2 (0 < h_level (place _ _ _))%nat) by (cbn; lia). cbn [andb]. unfold mret, X_ret. cbn [max_depth curr_level h_max_depth h_level place].
  apply (runs_goto_to Q _ d l (fuel) (e_lblk e) L' e' R' K); [|done|done|done|done|done]. rewrite <- Hl. by apply zip_root.
Qed.

End inode.
