(* ===== verification/ExtentSetBmap.v ===== *)
(** Setting the mapping of a block in a tree that fits in the inode: [ext2fs_extent_set_bmap] is the
    update of a map from blocks of the file to blocks of the device. *)
From Stdlib Require Import ZArith Lia.
From stdpp Require Import base tactics numbers list.
From S2P Require Import Prelude Crc32c ExtErr BlkNum Csum CsumProofs Extent ExtentProofs ExtentTheorems ExtentInode.

(** * Extents as a map *)

(** The block of the device that a block of the file is mapped to, and whether it is
    uninitialised. *)
Fixpoint block_of (l : list ext2fs_extent) (blk : Z) : option (Z * bool) :=
  match l with
  | [] => None
  | e :: l => if decide (e_lblk e <= blk < ext_end e) then Some (e_pblk e + (blk - e_lblk e), ext_uninit e) else block_of l blk
  end.

Lemma block_of_app l1 l2 blk : block_of (l1 ++ l2) blk = match block_of l1 blk with Some v => Some v | None => block_of l2 blk end.
Proof. induction l1 as [|e l1 IH]; [done|]. cbn. by destruct (decide _). Qed.

Lemma block_of_none l blk : Forall (fun x => ~ covers x blk) l -> block_of l blk = None.
Proof. induction 1 as [|e l He _ IH]; [done|]. cbn. by rewrite decide_False. Qed.

(** Changing the part of a list that maps [logical]. *)
Lemma block_of_change L X X' R logical v :
  (forall blk, blk <> logical -> block_of X' blk = block_of X blk) -> block_of X' logical = v ->
  Forall (fun x => ~ covers x logical) L -> (v = None -> Forall (fun x => ~ covers x logical) R) ->
  forall blk, block_of (L ++ X' ++ R) blk = if decide (blk = logical) then v else block_of (L ++ X ++ R) blk.
Proof.
  intros HX Hv HL HR blk. rewrite !block_of_app. destruct (decide (blk = logical)) as [->|Hne].
  - rewrite (block_of_none L), Hv by done. destruct v; [done|]. apply block_of_none. by apply HR.
  - by rewrite HX.
Qed.

Lemma in_order_app_2 l1 l2 : in_order l1 -> in_order l2 -> (forall a b, a ∈ l1 -> b ∈ l2 -> ext_end a <= e_lblk b) -> in_order (l1 ++ l2).
Proof.
  intros [P1 O1] [P2 O2] HO. split; [by apply Forall_app|]. intros i j a b Hij Ha Hb.
  apply lookup_app_Some in Ha as [Ha|[Hia Ha]], Hb as [Hb|[Hjb Hb]].
  - by apply (O1 i j).
  - apply HO; by eapply list_elem_of_lookup_2.
  - apply lookup_lt_Some in Hb. lia.
  - apply (O2 (i - length l1)%nat (j - length l1)%nat); [lia|done|done].
Qed.

(** ... keeps the order, when the new part lies between [lo] and [hi]. *)
Lemma in_order_change L X X' R lo hi :
  in_order (L ++ X ++ R) -> in_order X' -> Forall (fun x => ext_end x <= lo) L -> Forall (fun x => lo <= e_lblk x /\ ext_end x <= hi) X' ->
  Forall (fun x => hi <= e_lblk x) R -> lo <= hi -> in_order (L ++ X' ++ R).
Proof.
  rewrite !Forall_forall. intros HO HX' HL HX HR Hlo. apply in_order_app in HO as (HOL & HOR & _). apply in_order_app in HOR as (_ & HOR & _).
  apply in_order_app_2; [done|apply in_order_app_2; [done|done|]|].
  - intros a b Ha Hb. specialize (HX a Ha). specialize (HR b Hb). lia.
  - intros a b Ha [Hb|Hb]%elem_of_app; specialize (HL a Ha); [specialize (HX b Hb)|specialize (HR b Hb)]; lia.
Qed.

Lemma in_order_zip L e R : in_order (L ++ e :: R) -> Forall (fun x => ext_end x <= e_lblk e) L /\ Forall (fun x => ext_end e <= e_lblk x) R /\ 0 < e_len e.
Proof.
  intros HO. destruct (in_order_app _ _ HO) as (_ & HR & HL). change (e :: R) with ([e] ++ R) in HR. destruct (in_order_app _ _ HR) as ([HP _] & _ & HE). rewrite !Forall_forall.
  split_and!; [|intros x Hx; apply HE; [by left|done]|by inversion HP]. intros x Hx. apply HL; [done|by left].
Qed.

Lemma in_order_one e : 0 < e_len e -> in_order [e].
Proof. intros He. split; [by constructor|]. intros i j a b Hij _ Hb. apply lookup_lt_Some in Hb. cbn in Hb. lia. Qed.

Lemma in_order_two a b : 0 < e_len a -> 0 < e_len b -> ext_end a <= e_lblk b -> in_order [a; b].
Proof.
  intros Ha Hb HE. apply (in_order_app_2 [a] [b]); [by apply in_order_one|by apply in_order_one|]. intros x y Hx Hy.
  apply list_elem_of_singleton in Hx as ->. by apply list_elem_of_singleton in Hy as ->.
Qed.

Lemma in_order_three a b c : 0 < e_len a -> 0 < e_len b -> 0 < e_len c -> ext_end a <= e_lblk b -> ext_end b <= e_lblk c -> in_order [a; b; c].
Proof.
  intros Ha Hb Hc HE HE'. apply (in_order_app_2 [a] [b; c]); [by apply in_order_one|by apply in_order_two|]. intros x y Hx Hy.
  apply list_elem_of_singleton in Hx as ->. apply elem_of_cons in Hy as [->|Hy]; [done|]. apply list_elem_of_singleton in Hy as ->. unfold ext_end in *. lia.
Qed.

(** * The change at a position *)

Section bmap.
Context {D : Type} `{!ExtentEnv D} `{!Checksum}.
Implicit Types (h : ext2_extent_handle) (d : D) (b : list Z) (l L R : list ext2fs_extent) (e : ext2fs_extent).
Variables (ino : inode) (mx eb : Z) (ps : list extent_path).
Hypothesis rw : has_flag (fs_flags x_fs) 1 = true.
Hypothesis writes_ok : forall d i b, (ext2fs_write_inode d i b).1 = 0.
Variables (logical physical : Z) (uninit : bool).
Hypothesis Hlog : 0 <= logical < 2 ^ 32.
Hypothesis Hphys : 0 <= physical < 2 ^ 48.

Abbreviation max_len := (if uninit then EXT_UNINIT_MAX_LEN else EXT_INIT_MAX_LEN).
Abbreviation at_zip := (at_zip ino mx eb ps).
Abbreviation at_root := (at_root ino mx eb ps).
Abbreviation saved := (saved ino).

Definition new_extent : ext2fs_extent := mkExtent physical logical 1 (Z.lor EXT2_EXTENT_FLAGS_LEAF (if uninit then EXT2_EXTENT_FLAGS_UNINIT else 0)).

(** What [logical] is mapped to in the end. *)
Definition target : option (Z * bool) := if decide (physical = 0) then None else Some (physical, uninit).

(** The list [l'] is [l] with the mapping of [logical] changed. *)
Definition remapped l l' : Prop := in_order l' /\ forall blk, block_of l' blk = if decide (blk = logical) then target else block_of l blk.

(** Flags of extents in leaves. *)
Lemma new_flags : e_flags new_extent = if uninit then 3 else 1.
Proof. unfold new_extent. by destruct uninit. Qed.

Lemma new_uninit : ext_uninit new_extent = uninit.
Proof. unfold ext_uninit. rewrite new_flags. by destruct uninit. Qed.

Lemma new_ok : physical <> 0 -> leaf_ok new_extent.
Proof using Hlog Hphys.
  intros Hp. unfold leaf_ok, ext_end. rewrite new_flags. cbn [new_extent e_pblk e_lblk e_len]. split_and!; try lia. unfold EXT_INIT_MAX_LEN, EXT_UNINIT_MAX_LEN. destruct uninit; [right|left]; lia.
Qed.

Lemma leaf_ok_pos e : leaf_ok e -> 0 < e_len e <= 32768.
Proof. intros (_ & _ & HE)%leaf_ok_ranges. unfold EXT_INIT_MAX_LEN, EXT_UNINIT_MAX_LEN in HE. lia. Qed.

Lemma leaf_ok_resize e p lb n : leaf_ok e -> 0 < p -> 0 <= lb -> 0 < n -> p + n <= 2 ^ 48 -> lb + n <= 2 ^ 32 -> n < max_len /\ uninit = ext_uninit e \/ n <= e_len e ->
  leaf_ok (mkExtent p lb n (e_flags e)).
Proof using Hlog Hphys.
  intros He Hp Hlb Hn H48 H32 Hlen. destruct (leaf_ok_ranges e He) as (_ & _ & HE). unfold leaf_ok, ext_end. cbn [e_pblk e_lblk e_len e_flags]. split_and!; try lia.
  unfold ext_uninit, EXT_INIT_MAX_LEN, EXT_UNINIT_MAX_LEN in *. destruct HE as [[HF HE]|[HF HE]]; rewrite HF in *; [left|right]; (split; [done|]); (split; [lia|]).
  - destruct Hlen as [[Hlen Hu]|]; [|lia]. rewrite Hu, bool_decide_eq_false_2 in Hlen by lia. lia.
  - destruct Hlen as [[Hlen Hu]|]; [|lia]. rewrite Hu, bool_decide_eq_true_2 in Hlen by lia. lia.
Qed.

(** The tests for a neighbour that the block can be joined to. *)
Lemma after_spec e : leaf_ok e -> after logical physical uninit max_len e = true ->
  logical = ext_end e /\ physical = e_pblk e + e_len e /\ uninit = ext_uninit e /\ e_len e < max_len - 1.
Proof using Hlog Hphys.
  intros He. destruct (leaf_ok_ranges e He) as (H1 & H2 & _). pose proof (leaf_ok_pos e He) as H3. unfold after, is_uninit. rewrite leaf_ok_flags by done.
  rewrite !andb_true_iff, !bool_decide_eq_true. rewrite eqb_true_iff. rewrite !u64_small by (unfold in_u; lia). rewrite s32_small by lia. unfold ext_end. tauto.
Qed.

Lemma before_spec e : leaf_ok e -> before logical physical uninit max_len e = true ->
  logical = e_lblk e - 1 /\ physical = e_pblk e - 1 /\ uninit = ext_uninit e /\ e_len e < max_len - 1.
Proof using Hlog Hphys.
  intros He. destruct (leaf_ok_ranges e He) as (H1 & H2 & _). pose proof (leaf_ok_pos e He) as H3. pose proof He as (H4 & _). unfold before, is_uninit. rewrite leaf_ok_flags by done.
  rewrite !andb_true_iff, !bool_decide_eq_true. rewrite eqb_true_iff. rewrite (u64_small (e_pblk e - 1)) by (unfold in_u; lia). rewrite s32_small by lia.
  intros [[[HA HB] HC] HD]. split_and!; try done. unfold u64 in HA. destruct (decide (e_lblk e = 0)) as [Hz|Hz]; [rewrite Hz in HA; change ((0 - 1) mod 2 ^ 64) with 18446744073709551615 in HA; lia|]. rewrite Z.mod_small in HA; lia.
Qed.

(** ** Lists *)

Lemma remap_part L X X' R lo hi :
  in_order (L ++ X ++ R) -> in_order X' -> Forall (fun x => ext_end x <= lo) L -> Forall (fun x => lo <= e_lblk x /\ ext_end x <= hi) X' -> Forall (fun x => hi <= e_lblk x) R ->
  lo <= logical < hi -> (forall blk, blk <> logical -> block_of X' blk = block_of X blk) -> block_of X' logical = target -> remapped (L ++ X ++ R) (L ++ X' ++ R).
Proof using.
  intros HO HX' HL HX HR Hl Hsame Ht. split; [apply (in_order_change L X X' R lo hi); try done; lia|].
  apply block_of_change; [done|done| |intros _]; eapply Forall_impl; try done; unfold covers; cbn; intros; lia.
Qed.

(** Comparing two short lists of extents as maps. *)
Ltac maps := intros; cbn [block_of app]; unfold ext_end, ext_uninit, target in *; cbn [e_pblk e_lblk e_len e_flags] in *;
  repeat (match goal with |- context [decide ?P] => destruct (decide P) end); try done; try lia; try (f_equal; f_equal; try lia; done).

(** The premises of [remap_part]. *)
Ltac bounded := unfold ext_end in *; cbn [e_pblk e_lblk e_len e_flags] in *; lia.
Ltac parts :=
  first [done | bounded
  | match goal with
    | |- in_order [] => split; [done|]; intros ??????; by rewrite lookup_nil
    | |- in_order [_] => apply in_order_one; unfold new_extent; bounded
    | |- in_order [_; _] => apply in_order_two; unfold new_extent; bounded
    | |- in_order [_; _; _] => apply in_order_three; unfold new_extent; bounded
    | |- Forall _ [_] => repeat (constructor; [unfold new_extent; bounded|]); constructor
    | |- Forall _ [_; _] => repeat (constructor; [unfold new_extent; bounded|]); constructor
    | |- Forall _ [_; _; _] => repeat (constructor; [unfold new_extent; bounded|]); constructor
    | H : Forall _ ?l |- Forall _ ?l => eapply Forall_impl; [exact H|]; cbn beta; intros; bounded
    | |- _ => unfold new_extent; maps
    end ].

Section lists.
Variables (L R : list ext2fs_extent) (e x : ext2fs_extent).

Definition longer e : ext2fs_extent := mkExtent (e_pblk e) (e_lblk e) (e_len e + 1) (e_flags e).
Definition longer_front e : ext2fs_extent := mkExtent (e_pblk e - 1) (e_lblk e - 1) (e_len e + 1) (e_flags e).
Definition shorter e : ext2fs_extent := mkExtent (e_pblk e) (e_lblk e) (e_len e - 1) (e_flags e).
Definition shorter_front e : ext2fs_extent := mkExtent (e_pblk e + 1) (e_lblk e + 1) (e_len e - 1) (e_flags e).

Lemma map_longer : in_order (L ++ [e] ++ R) -> physical <> 0 -> logical = ext_end e -> physical = e_pblk e + e_len e -> uninit = ext_uninit e ->
  Forall (fun x => logical < e_lblk x) R -> remapped (L ++ [e] ++ R) (L ++ [longer e] ++ R).
Proof using Hlog Hphys.
  intros HO Hp H1 H2 H3 HR. destruct (in_order_zip L e R HO) as (F1 & F2 & F3).
  apply (remap_part L [e] [longer e] R (e_lblk e) (logical + 1)); unfold longer; parts.
Qed.

Lemma map_longer_front : in_order (L ++ [e] ++ R) -> physical <> 0 -> logical = e_lblk e - 1 -> physical = e_pblk e - 1 -> uninit = ext_uninit e ->
  Forall (fun x => ext_end x <= logical) L -> remapped (L ++ [e] ++ R) (L ++ [longer_front e] ++ R).
Proof using Hlog Hphys.
  intros HO Hp H1 H2 H3 HL. destruct (in_order_zip L e R HO) as (F1 & F2 & F3). apply (remap_part L [e] [longer_front e] R logical (ext_end e)); unfold longer_front; parts.
Qed.

Lemma map_insert : in_order (L ++ R) -> physical <> 0 -> Forall (fun x => ext_end x <= logical) L -> Forall (fun x => logical < e_lblk x) R -> remapped (L ++ R) (L ++ [new_extent] ++ R).
Proof using Hlog Hphys.
  intros HO Hp HL HR. pose proof new_uninit as HU. apply (remap_part L [] [new_extent] R logical (logical + 1)); parts.
Qed.

Lemma map_only : in_order (L ++ [e] ++ R) -> physical <> 0 -> logical = e_lblk e -> e_len e = 1 -> remapped (L ++ [e] ++ R) (L ++ [new_extent] ++ R).
Proof using Hlog Hphys.
  intros HO Hp H1 H2. pose proof new_uninit as HU. destruct (in_order_zip L e R HO) as (F1 & F2 & F3). apply (remap_part L [e] [new_extent] R logical (logical + 1)); parts.
Qed.

Lemma unmap_only : in_order (L ++ [e] ++ R) -> physical = 0 -> logical = e_lblk e -> e_len e = 1 -> remapped (L ++ [e] ++ R) (L ++ [] ++ R).
Proof using Hlog Hphys.
  intros HO Hp H1 H2. destruct (in_order_zip L e R HO) as (F1 & F2 & F3). apply (remap_part L [e] [] R logical (logical + 1)); parts.
Qed.

Lemma map_last : in_order (L ++ [e] ++ R) -> physical <> 0 -> logical = ext_end e - 1 -> e_len e <> 1 -> remapped (L ++ [e] ++ R) (L ++ [shorter e; new_extent] ++ R).
Proof using Hlog Hphys.
  intros HO Hp H1 H2. pose proof new_uninit as HU. destruct (in_order_zip L e R HO) as (F1 & F2 & F3). apply (remap_part L [e] [shorter e; new_extent] R (e_lblk e) (ext_end e)); unfold shorter; parts.
Qed.

Lemma unmap_last : in_order (L ++ [e] ++ R) -> physical = 0 -> logical = ext_end e - 1 -> e_len e <> 1 -> remapped (L ++ [e] ++ R) (L ++ [shorter e] ++ R).
Proof using Hlog Hphys.
  intros HO Hp H1 H2. destruct (in_order_zip L e R HO) as (F1 & F2 & F3). apply (remap_part L [e] [shorter e] R (e_lblk e) (ext_end e)); unfold shorter; parts.
Qed.

Lemma map_last_next : in_order (L ++ [e; x] ++ R) -> physical <> 0 -> logical = ext_end e - 1 -> e_len e <> 1 ->
  logical = e_lblk x - 1 -> physical = e_pblk x - 1 -> uninit = ext_uninit x -> remapped (L ++ [e; x] ++ R) (L ++ [shorter e; longer_front x] ++ R).
Proof using Hlog Hphys.
  intros HO Hp H1 H2 H3 H4 H5. destruct (in_order_zip L e (x :: R) HO) as (F1 & F2 & F3). destruct (in_order_zip (L ++ [e]) x R ltac:(by rewrite <- app_assoc)) as (F4 & F5 & F6).
  apply (remap_part L [e; x] [shorter e; longer_front x] R (e_lblk e) (ext_end x)); unfold shorter, longer_front; parts.
Qed.

Lemma map_first : in_order (L ++ [e] ++ R) -> physical <> 0 -> logical = e_lblk e -> e_len e <> 1 -> remapped (L ++ [e] ++ R) (L ++ [new_extent; shorter_front e] ++ R).
Proof using Hlog Hphys.
  intros HO Hp H1 H2. pose proof new_uninit as HU. destruct (in_order_zip L e R HO) as (F1 & F2 & F3). apply (remap_part L [e] [new_extent; shorter_front e] R (e_lblk e) (ext_end e)); unfold shorter_front; parts.
Qed.

Lemma unmap_first : in_order (L ++ [e] ++ R) -> physical = 0 -> logical = e_lblk e -> e_len e <> 1 -> remapped (L ++ [e] ++ R) (L ++ [shorter_front e] ++ R).
Proof using Hlog Hphys.
  intros HO Hp H1 H2. destruct (in_order_zip L e R HO) as (F1 & F2 & F3). apply (remap_part L [e] [shorter_front e] R (e_lblk e) (ext_end e)); unfold shorter_front; parts.
Qed.

Lemma map_first_prev : in_order (L ++ [x; e] ++ R) -> physical <> 0 -> logical = e_lblk e -> e_len e <> 1 ->
  logical = ext_end x -> physical = e_pblk x + e_len x -> uninit = ext_uninit x -> remapped (L ++ [x; e] ++ R) (L ++ [longer x; shorter_front e] ++ R).
Proof using Hlog Hphys.
  intros HO Hp H1 H2 H3 H4 H5. destruct (in_order_zip L x (e :: R) HO) as (F1 & F2 & F3). destruct (in_order_zip (L ++ [x]) e R ltac:(by rewrite <- app_assoc)) as (F4 & F5 & F6).
  apply (remap_part L [x; e] [longer x; shorter_front e] R (e_lblk x) (ext_end e)); unfold shorter_front, longer; parts.
Qed.

(** The parts of an extent before and after the block. *)
Definition head_part e : ext2fs_extent := mkExtent (e_pblk e) (e_lblk e) (logical - e_lblk e) (e_flags e).
Definition tail_part e : ext2fs_extent := mkExtent (e_pblk e + (logical - e_lblk e) + 1) (logical + 1) (ext_end e - logical - 1) (e_flags e).

Lemma map_middle : in_order (L ++ [e] ++ R) -> physical <> 0 -> e_lblk e < logical < ext_end e - 1 -> remapped (L ++ [e] ++ R) (L ++ [head_part e; new_extent; tail_part e] ++ R).
Proof using Hlog Hphys.
  intros HO Hp H1. pose proof new_uninit as HU. destruct (in_order_zip L e R HO) as (F1 & F2 & F3).
  apply (remap_part L [e] [head_part e; new_extent; tail_part e] R (e_lblk e) (ext_end e)); unfold head_part, tail_part; parts.
Qed.

Lemma unmap_middle : in_order (L ++ [e] ++ R) -> physical = 0 -> e_lblk e < logical < ext_end e - 1 -> remapped (L ++ [e] ++ R) (L ++ [head_part e; tail_part e] ++ R).
Proof using Hlog Hphys.
  intros HO Hp H1. destruct (in_order_zip L e R HO) as (F1 & F2 & F3).
  apply (remap_part L [e] [head_part e; tail_part e] R (e_lblk e) (ext_end e)); unfold head_part, tail_part; parts.
Qed.

End lists.

(** ** Runs *)

Lemma grow_back_eq e : leaf_ok e -> grow_back e = longer e.
Proof using Hlog Hphys. intros He. pose proof (leaf_ok_pos e He) as Hpos. unfold grow_back, longer. rewrite u32_small by (unfold in_u; lia). done. Qed.

Lemma grow_front_eq e : leaf_ok e -> 0 < e_lblk e -> grow_front e = longer_front e.
Proof using Hlog Hphys.
  intros He Hl. pose proof (leaf_ok_pos e He) as Hpos. destruct (leaf_ok_ranges e He) as (H1 & H2 & _). pose proof He as (H3 & _). unfold grow_front, longer_front.
  rewrite u32_small, !u64_small by (unfold in_u; lia). done.
Qed.

Lemma longer_ok e : leaf_ok e -> physical = e_pblk e + e_len e -> logical = ext_end e -> uninit = ext_uninit e -> e_len e < max_len - 1 -> leaf_ok (longer e).
Proof using Hlog Hphys.
  intros He H1 H2 H3 H4. pose proof (leaf_ok_pos e He) as Hpos. pose proof He as (H5 & H6 & H7 & H8 & _). unfold ext_end in *. apply leaf_ok_resize; try done; try lia. left. split; [|done]. lia.
Qed.

Lemma longer_front_ok e : leaf_ok e -> physical <> 0 -> physical = e_pblk e - 1 -> logical = e_lblk e - 1 -> uninit = ext_uninit e -> e_len e < max_len - 1 -> leaf_ok (longer_front e).
Proof using Hlog Hphys.
  intros He H0 H1 H2 H3 H4. pose proof (leaf_ok_pos e He) as Hpos. pose proof He as (H5 & H6 & H7 & H8 & _). unfold ext_end in *. apply leaf_ok_resize; try done; try lia. left. split; [|done]. lia.
Qed.

Variable fuel : nat.
Hypothesis Hfuel : mx <= Z.of_nat fuel.

(** A change that ends well: the inode has been written with a list in which the block is mapped
    as asked. *)
Definition changed l (r : Z) h d : Prop := r = 0 /\ exists l', at_root saved h d l' /\ remapped l l'.

Lemma zip_ok Q h d L e R : at_zip Q h d L e R -> Forall leaf_ok L /\ leaf_ok e /\ Forall leaf_ok R.
Proof using. intros (b & Hb & _). apply hd_ok, Forall_app in Hb as [HL HR]. by apply Forall_cons in HR. Qed.

Lemma zip_len Q h d L e R : at_zip Q h d L e R -> Z.of_nat (length (L ++ e :: R)) <= mx.
Proof using. intros (b & Hb & _). by apply hd_len in Hb. Qed.

Lemma runs_fix_here Q h d L e R K :
  at_zip Q h d L e R -> Forall (fun x => ext_end x <= e_lblk e) L -> (forall h, at_zip Q h d L e R -> K 0 h d) -> runs (ext2fs_extent_fix_parents (S fuel)) h d K.
Proof using rw Hfuel.
  intros HZ HL HK. destruct (zip_ok _ _ _ _ _ _ HZ) as (_ & He & _). pose proof (leaf_ok_pos e He) as Hpos. apply (runs_fix ino mx eb ps rw Q h d (L ++ e :: R) L e R L e R fuel K); try done. unfold covers, ext_end. lia.
Qed.

(** A change of the current extent, or of the next one, followed by [fix_parents]. *)
Lemma runs_changed Q h d l L e R l' :
  at_zip Q h d L e R -> l' = L ++ e :: R -> Q = saved -> remapped l l' -> changed l 0 h d.
Proof using. intros HZ -> -> HR. split; [done|]. exists (L ++ e :: R). split; [by apply zip_root|done]. Qed.

Lemma run_unmapped Q h d L e R : in_order (L ++ e :: R) -> at_zip Q h d L e R -> goto_at (L ++ e :: R) logical EXT2_ET_EXTENT_NOT_FOUND L e R ->
  physical <> 0 -> Z.of_nat (length (L ++ e :: R)) < mx ->
  runs (map_unmapped (S fuel) logical physical uninit max_len new_extent e (head R)) h d (changed (L ++ e :: R)).
Proof using rw writes_ok Hlog Hphys Hfuel.
  intros HO HZ HG Hp Hroom. destruct (zip_ok _ _ _ _ _ _ HZ) as (HokL & Hok & HokR). destruct (in_order_zip L e R HO) as (F1 & F2 & F3). pose proof (new_ok Hp) as Hnew.
  assert (HG' : L = [] /\ logical < e_lblk e \/ Forall (fun x => ext_end x <= logical) (L ++ [e]) /\ Forall (fun x => logical < e_lblk x) R).
  { inversion HG as [| |? ? ? _ HL HR]; subst; [by left|]. right. split; [done|]. destruct R as [|x R]; [done|]. constructor; [done|].
    destruct (in_order_zip (L ++ [e]) x R ltac:(by rewrite <- app_assoc)) as (_ & FR & FP). eapply Forall_impl; [exact FR|]. cbn. intros y Hy. unfold ext_end in Hy. lia. }
  clear HG. unfold map_unmapped. apply runs_then. destruct (after logical physical uninit max_len e) eqn:HA.
  - destruct (after_spec e Hok HA) as (A1 & A2 & A3 & A4). rewrite grow_back_eq by done. apply (runs_replace ino mx eb ps rw writes_ok Q h d L e R); [done|by apply longer_ok|].
    intros h1 d1 HZ1. split; [done|]. eapply runs_fix_here; [exact HZ1|done|]. intros h2 HZ2. eapply runs_changed; [exact HZ2|done|done|].
    destruct HG' as [[-> Hlt]|[_ HR]]; [unfold ext_end in A1; lia|]. by apply map_longer.
  - destruct (before logical physical uninit max_len e) eqn:HB.
    { destruct (before_spec e Hok HB) as (B1 & B2 & B3 & B4). destruct HG' as [[-> Hlt]|[HL _]]; [|apply Forall_app in HL as [_ HL]; apply Forall_cons in HL as [HL _]; unfold ext_end in HL; lia].
      rewrite grow_front_eq by (done || lia). apply (runs_replace ino mx eb ps rw writes_ok Q h d [] e R); [done|by apply longer_front_ok|].
      intros h1 d1 HZ1. split; [done|]. eapply runs_fix_here; [exact HZ1|done|]. intros h2 HZ2. eapply runs_changed; [exact HZ2|done|done|]. by apply (map_longer_front [] R). }
    assert (HI : runs (ext2fs_extent_insert (S fuel) (if decide (logical < e_lblk e) then 0 else EXT2_EXTENT_INSERT_AFTER) new_extent) h d
      (fun r h d => r = 0 /\ runs (ext2fs_extent_fix_parents (S fuel)) h d (changed (L ++ e :: R)))).
    { destruct HG' as [[-> Hlt]|[HL HR]].
      - rewrite decide_True by done. apply (runs_insert_before ino mx eb ps rw writes_ok Q h d [] e R); [done|done|done|]. intros h1 d1 HZ1. split; [done|].
        eapply runs_fix_here; [exact HZ1|done|]. intros h2 HZ2. eapply runs_changed; [exact HZ2|done|done|]. apply (map_insert [] (e :: R)); [done|done|done|].
        constructor; [done|]. eapply Forall_impl; [exact F2|]. cbn. intros y Hy. unfold ext_end in Hy. lia.
      - assert (Hle : ext_end e <= logical) by (apply Forall_app in HL as [_ HL]; by apply Forall_cons in HL as [HL _]). rewrite decide_False by (unfold ext_end in Hle; lia).
        apply (runs_insert_after ino mx eb ps rw writes_ok Q h d L e R); [done|done|done|]. intros h1 d1 HZ1. split; [done|].
        eapply runs_fix_here; [exact HZ1|done|]. intros h2 HZ2. eapply runs_changed; [exact HZ2|done|done|].
        change (e :: R) with ([e] ++ R). rewrite app_assoc. apply (map_insert (L ++ [e]) R); [by rewrite <- app_assoc|done|done|done]. }
    destruct R as [|x R]; [exact HI|]. cbn [head]. destruct (before logical physical uninit max_len x) eqn:HX; [|exact HI]. clear HI.
    apply Forall_cons in HokR as [Hokx _]. destruct (before_spec x Hokx HX) as (B1 & B2 & B3 & B4). pose proof (leaf_ok_pos x Hokx) as Hposx.
    destruct HG' as [[-> Hlt]|[HL _]]; [apply Forall_cons in F2 as [F2 _]; unfold ext_end in F2; lia|].
    apply runs_bind. apply (runs_next ino mx eb ps Q h d L e (x :: R)); [done|]. intros h1 HZ1. cbv iota beta. rewrite decide_False by tauto.
    rewrite grow_front_eq by (done || lia). apply (runs_replace ino mx eb ps rw writes_ok Q h1 d (L ++ [e]) x R); [done|by apply longer_front_ok|].
    intros h2 d2 HZ2. split; [done|]. eapply runs_fix_here; [exact HZ2|unfold longer_front; cbn; by rewrite <- B1|]. intros h3 HZ3. eapply runs_changed; [exact HZ3|done|done|].
    change (e :: x :: R) with ([e] ++ x :: R). rewrite app_assoc. apply (map_longer_front (L ++ [e]) R x); try done. by rewrite <- app_assoc.
Qed.

Lemma runs_fix_empty Q h d K : at_root Q h d [] -> K EXT2_ET_NO_CURRENT_NODE h d -> runs (ext2fs_extent_fix_parents (S fuel)) h d K.
Proof using rw.
  intros (b & p & _ & -> & _ & _ & _ & _ & Hc & _) HK. unfold ext2fs_extent_fix_parents. rewrite rw. cbn [negb]. apply runs_bind.
  eapply runs_eq; [by apply (get_path_eq _ d p)|]. rewrite Hc by done. exact HK.
Qed.

Section mapped.
Variables (Q : D -> list Z -> Prop) (h : ext2_extent_handle) (d : D) (L R : list ext2fs_extent) (e : ext2fs_extent).
Hypothesis HO : in_order (L ++ e :: R).
Hypothesis HZ : at_zip Q h d L e R.
Hypothesis HC : covers e logical.

Lemma run_only garbage : logical = e_lblk e -> e_len e = 1 -> (physical <> 0 -> garbage = new_extent) ->
  runs (remap_only (S fuel) physical garbage) h d (changed (L ++ e :: R)).
Proof using rw writes_ok Hlog Hphys Hfuel HO HZ.
  intros H1 H2 Hg. destruct (in_order_zip L e R HO) as (F1 & F2 & F3). unfold remap_only. destruct (decide (physical <> 0)) as [Hp|Hp].
  - rewrite (Hg Hp). apply (runs_replace ino mx eb ps rw writes_ok Q h d L e R); [done|by apply new_ok|]. intros h1 d1 HZ1. eapply runs_changed; [exact HZ1|done|done|]. by apply map_only.
  - assert (Hz : physical = 0) by lia. apply runs_then. apply (runs_delete ino mx eb ps rw writes_ok Q h d L e R); [done|]. intros h1 d1 HD. split; [done|].
    assert (HM : remapped (L ++ e :: R) (L ++ R)) by (by apply unmap_only). apply runs_bind. destruct HD as [x R' -> HZ1|L' x -> -> HZ1| -> -> HZ1].
    + eapply runs_fix_here; [exact HZ1| |].
      { apply Forall_cons in F2 as [F2 _]. eapply Forall_impl; [exact F1|]. cbn. intros y Hy. unfold ext_end in *. lia. }
      intros h2 HZ2. apply runs_ret. rewrite decide_True by done. by eapply runs_changed.
    + eapply runs_fix_here; [exact HZ1| |].
      { rewrite <- app_assoc in HO. by destruct (in_order_zip L' x [e] HO) as (F4 & _). }
      intros h2 HZ2. apply runs_ret. rewrite decide_True by done. eapply runs_changed; [exact HZ2|done|done|]. by rewrite app_nil_r in HM.
    + eapply runs_fix_empty; [exact HZ1|]. apply runs_ret. rewrite decide_False by tauto. split; [done|]. by exists [].
Qed.

Lemma shorter_ok : e_len e <> 1 -> leaf_ok (shorter e).
Proof using Hlog Hphys HZ Hfuel uninit.
  intros H2. destruct (zip_ok _ _ _ _ _ _ HZ) as (_ & He & _). pose proof (leaf_ok_pos e He) as Hpos. pose proof He as (H5 & H6 & H7 & H8 & _). unfold ext_end in *. apply leaf_ok_resize; try done; lia.
Qed.

Lemma shorter_front_ok : e_len e <> 1 -> leaf_ok (shorter_front e).
Proof using Hlog Hphys HZ Hfuel uninit.
  intros H2. destruct (zip_ok _ _ _ _ _ _ HZ) as (_ & He & _). pose proof (leaf_ok_pos e He) as Hpos. pose proof He as (H5 & H6 & H7 & H8 & _). unfold ext_end in *. apply leaf_ok_resize; try done; lia.
Qed.

(** Going back from the extent after [e] to [e] itself, which still covers the block. *)
Lemma run_back_and_shorten h1 d1 x R1 l' : at_zip saved h1 d1 (L ++ [e]) x R1 -> e_lblk x = logical -> e_len e <> 1 -> l' = L ++ shorter e :: x :: R1 -> remapped (L ++ e :: R) l' ->
  runs (and_then (ext2fs_extent_fix_parents (S fuel)) (and_then (ext2fs_extent_goto (S fuel) logical)
    (r ← ext2fs_extent_get (S fuel) EXT2_EXTENT_CURRENT e; let '(retval, e) := r in
     if decide (retval <> 0) then mret retval else ext2fs_extent_replace (mkExtent (e_pblk e) (e_lblk e) (u32 (e_len e - 1)) (e_flags e))))) h1 d1 (changed (L ++ e :: R)).
Proof using rw writes_ok Hlog Hphys Hfuel HO HZ HC.
  intros HZ1 Hx Hlen -> HM. destruct (in_order_zip L e R HO) as (F1 & F2 & F3). destruct (zip_ok _ _ _ _ _ _ HZ) as (_ & He & _). pose proof (leaf_ok_pos e He) as Hpos.
  assert (HL : Forall (fun y => ext_end y <= logical) L) by (eapply Forall_impl; [exact F1|]; cbn; intros y Hy; unfold covers in HC; lia).
  apply runs_then. apply (runs_fix ino mx eb ps rw saved h1 d1 ((L ++ [e]) ++ x :: R1) (L ++ [e]) x R1 L e (x :: R1)); try done; [by rewrite <- app_assoc|by rewrite Hx|by rewrite Hx|].
  intros h2 HZ2. split; [done|]. apply runs_then. unfold ext2fs_extent_goto.
  eapply (runs_goto_to ino mx eb ps saved h2 d1 (L ++ e :: x :: R1) fuel logical L e (x :: R1)); [by apply zip_root|reflexivity|exact HC|exact HL|exact Hfuel|].
  intros h3 HZ3. split; [done|]. apply runs_bind. apply (runs_current ino mx eb ps saved h3 d1 L e (x :: R1)); [done|]. intros _. cbv iota beta. rewrite decide_False by tauto.
  rewrite u32_small by (unfold in_u; lia). apply (runs_replace ino mx eb ps rw writes_ok saved h3 d1 L e (x :: R1)); [done|by apply shorter_ok|]. intros h4 d4 HZ4. by eapply runs_changed.
Qed.

End mapped.

Lemma run_last Q h d L R e garbage : in_order (L ++ e :: R) -> at_zip Q h d L e R -> covers e logical -> logical = ext_end e - 1 -> e_len e <> 1 -> (physical <> 0 -> garbage = new_extent) -> Z.of_nat (length (L ++ e :: R)) < mx ->
  runs (remap_last (S fuel) logical physical uninit max_len garbage e (head R)) h d (changed (L ++ e :: R)).
Proof using rw writes_ok Hlog Hphys Hfuel.
  intros HO HZ HC H1 H2 Hg Hroom. destruct (zip_ok _ _ _ _ _ _ HZ) as (HokL & Hok & HokR). pose proof (leaf_ok_pos e Hok) as Hpos. unfold remap_last. destruct (decide (physical <> 0)) as [Hp|Hp].
  - rewrite (Hg Hp). apply runs_then.
    assert (HI : runs (ext2fs_extent_insert (S fuel) EXT2_EXTENT_INSERT_AFTER new_extent) h d (fun r h d => r = 0 /\ runs
      (and_then (ext2fs_extent_fix_parents (S fuel)) (and_then (ext2fs_extent_goto (S fuel) logical)
        (r ← ext2fs_extent_get (S fuel) EXT2_EXTENT_CURRENT e; let '(retval, e) := r in
         if decide (retval <> 0) then mret retval else ext2fs_extent_replace (mkExtent (e_pblk e) (e_lblk e) (u32 (e_len e - 1)) (e_flags e))))) h d (changed (L ++ e :: R)))).
    { apply (runs_insert_after ino mx eb ps rw writes_ok Q h d L e R); [done|done|by apply new_ok|]. intros h1 d1 HZ1. split; [done|].
      eapply (run_back_and_shorten Q h d L R e HO HZ HC); [exact HZ1|done|done|done|]. by apply map_last. }
    destruct R as [|x R0]; [exact HI|]. cbn [head]. destruct (before logical physical uninit max_len x) eqn:HX; [|exact HI]. clear HI.
    apply Forall_cons in HokR as [Hokx _]. destruct (before_spec x Hokx HX) as (B1 & B2 & B3 & B4). pose proof (leaf_ok_pos x Hokx) as Hposx.
    apply runs_bind. apply (runs_next ino mx eb ps Q h d L e (x :: R0)); [done|]. intros h1 HZ1. cbv iota beta. rewrite decide_False by tauto.
    rewrite grow_front_eq by (done || lia). apply (runs_replace ino mx eb ps rw writes_ok Q h1 d (L ++ [e]) x R0); [done|by apply longer_front_ok|]. intros h2 d2 HZ2. split; [done|].
    eapply (run_back_and_shorten Q h d L (x :: R0) e HO HZ HC); [exact HZ2|cbn; lia|done|done|]. by apply map_last_next.
  - rewrite u32_small by (unfold in_u; lia). apply (runs_replace ino mx eb ps rw writes_ok Q h d L e R); [done|by apply (shorter_ok Q h d L R e HZ)|]. intros h1 d1 HZ1. eapply runs_changed; [exact HZ1|done|done|].
    apply unmap_last; try done. lia.
Qed.

(** Dropping the first block of [e], at any place of the list before [R]. *)
Lemma run_shift Q h d l L R e : at_zip Q h d L e R -> e_len e <> 1 -> Forall (fun y => ext_end y <= e_lblk e + 1) L -> remapped l (L ++ shorter_front e :: R) ->
  runs (and_then (ext2fs_extent_replace (mkExtent (u64 (e_pblk e + 1)) (u64 (e_lblk e + 1)) (u32 (e_len e - 1)) (e_flags e))) (ext2fs_extent_fix_parents (S fuel))) h d (changed l).
Proof using rw writes_ok Hlog Hphys Hfuel.
  intros HZ Hlen HL HM. destruct (zip_ok _ _ _ _ _ _ HZ) as (_ & He & _). pose proof (leaf_ok_pos e He) as Hpos. destruct (leaf_ok_ranges e He) as (R1 & R2 & _).
  rewrite u32_small, !u64_small by (unfold in_u; lia). apply runs_then. apply (runs_replace ino mx eb ps rw writes_ok Q h d L e R); [done|by apply (shorter_front_ok Q h d L R e HZ)|].
  intros h1 d1 HZ1. split; [done|]. eapply runs_fix_here; [exact HZ1|done|]. intros h2 HZ2. by eapply runs_changed.
Qed.

Lemma run_first Q h d L R e garbage : in_order (L ++ e :: R) -> at_zip Q h d L e R -> logical = e_lblk e -> e_len e <> 1 -> (physical <> 0 -> garbage = new_extent) ->
  Z.of_nat (length (L ++ e :: R)) < mx -> runs (remap_first (S fuel) logical physical uninit max_len garbage e (last L)) h d (changed (L ++ e :: R)).
Proof using rw writes_ok Hlog Hphys Hfuel.
  intros HO HZ H1 H2 Hg Hroom. destruct (in_order_zip L e R HO) as (F1 & F2 & F3). destruct (zip_ok _ _ _ _ _ _ HZ) as (HokL & Hok & HokR).
  unfold remap_first. destruct (decide (physical <> 0)) as [Hp|Hp].
  - rewrite (Hg Hp). apply runs_then.
    assert (HI : runs (ext2fs_extent_insert (S fuel) 0 new_extent) h d (fun r h d => r = 0 /\ runs
      (and_then (ext2fs_extent_fix_parents (S fuel)) (r ← ext2fs_extent_get (S fuel) EXT2_EXTENT_NEXT_LEAF e; let '(retval, e) := r in
         if decide (retval <> 0) then mret retval else
         and_then (ext2fs_extent_replace (mkExtent (u64 (e_pblk e + 1)) (u64 (e_lblk e + 1)) (u32 (e_len e - 1)) (e_flags e))) (ext2fs_extent_fix_parents (S fuel)))) h d (changed (L ++ e :: R)))).
    { apply (runs_insert_before ino mx eb ps rw writes_ok Q h d L e R); [done|done|by apply new_ok|]. intros h1 d1 HZ1. split; [done|]. apply runs_then.
      eapply runs_fix_here; [exact HZ1|cbn; by rewrite H1|]. intros h2 HZ2. split; [done|]. apply runs_bind. apply (runs_next ino mx eb ps saved h2 d1 L new_extent (e :: R)); [done|].
      intros h3 HZ3. cbv iota beta. rewrite decide_False by tauto. eapply run_shift; [exact HZ3|done| |].
      - apply Forall_app. split; [eapply Forall_impl; [exact F1|]; cbn; lia|]. constructor; [|done]. unfold ext_end. cbn. lia.
      - rewrite <- app_assoc. by apply map_first. }
    destruct L as [|x L0] using rev_ind; [exact HI|]. clear IHL0. rewrite last_snoc. destruct (after logical physical uninit max_len x) eqn:HX; [|exact HI]. clear HI.
    apply Forall_app in HokL as [_ Hokx]. apply Forall_cons in Hokx as [Hokx _]. destruct (after_spec x Hokx HX) as (B1 & B2 & B3 & B4). pose proof (leaf_ok_pos x Hokx) as Hposx.
    assert (HO' : in_order (L0 ++ x :: e :: R)) by (by rewrite <- app_assoc in HO). destruct (in_order_zip L0 x (e :: R) HO') as (F4 & _ & _).
    apply runs_bind. apply (runs_prev ino mx eb ps Q h d L0 x e R); [done|]. intros h1 HZ1. cbv iota beta. rewrite decide_False by tauto.
    rewrite grow_back_eq by done. apply (runs_replace ino mx eb ps rw writes_ok Q h1 d L0 x (e :: R)); [done|by apply longer_ok|]. intros h2 d2 HZ2. split; [done|]. apply runs_then.
    eapply runs_fix_here; [exact HZ2|done|]. intros h3 HZ3. split; [done|]. apply runs_bind. apply (runs_next ino mx eb ps saved h3 d2 L0 (longer x) (e :: R)); [done|].
    intros h4 HZ4. cbv iota beta. rewrite decide_False by tauto. eapply run_shift; [exact HZ4|done| |].
    + apply Forall_app. split; [eapply Forall_impl; [exact F4|]; cbn; intros y Hy; unfold ext_end in *; lia|]. constructor; [|done]. unfold ext_end, longer in *. cbn. lia.
    + rewrite <- !app_assoc. by apply map_first_prev.
  - eapply run_shift; [exact HZ|done| |]; [eapply Forall_impl; [exact F1|]; cbn; lia|]. apply unmap_first; try done. lia.
Qed.

Lemma head_ok e : leaf_ok e -> e_lblk e < logical < ext_end e -> leaf_ok (head_part e).
Proof using Hlog Hphys Hfuel uninit.
  intros He Hin. pose proof (leaf_ok_pos e He) as Hpos. pose proof He as (H5 & H6 & H7 & H8 & _). unfold ext_end in *. apply leaf_ok_resize; try done; lia.
Qed.

Lemma tail_ok e : leaf_ok e -> e_lblk e <= logical < ext_end e - 1 -> leaf_ok (tail_part e).
Proof using Hlog Hphys Hfuel uninit.
  intros He Hin. pose proof (leaf_ok_pos e He) as Hpos. pose proof He as (H5 & H6 & H7 & H8 & _). unfold tail_part, ext_end in *. apply leaf_ok_resize; try done; lia.
Qed.

Lemma run_middle Q h d L R e garbage : in_order (L ++ e :: R) -> at_zip Q h d L e R -> e_lblk e < logical < ext_end e - 1 -> (physical <> 0 -> garbage = new_extent) ->
  Z.of_nat (length (L ++ e :: R)) < mx -> (physical <> 0 -> Z.of_nat (length (L ++ e :: R)) + 1 < mx) ->
  runs (remap_middle (S fuel) logical physical garbage e) h d (changed (L ++ e :: R)).
Proof using rw writes_ok Hlog Hphys Hfuel.
  intros HO HZ Hin Hg Hroom Hroom2. destruct (zip_ok _ _ _ _ _ _ HZ) as (HokL & Hok & HokR). pose proof (leaf_ok_pos e Hok) as Hpos. pose proof Hok as (H5 & H6 & H7 & H8 & _).
  pose proof (head_ok e Hok ltac:(lia)) as Hhead. pose proof (tail_ok e Hok ltac:(lia)) as Htail.
  unfold remap_middle. cbv zeta. set (tl := mkExtent (u64 _) (u64 _) (u32 _) (e_flags e)). set (hd := mkExtent (e_pblk e) (e_lblk e) (u32 (logical - e_lblk e)) (e_flags e)).
  assert (Hhd : hd = head_part e) by (unfold hd, head_part; rewrite u32_small by (unfold in_u, ext_end in *; lia); done).
  assert (Htl : tl = tail_part e).
  { unfold tl, tail_part, ext_end in *. rewrite (u32_small (logical - e_lblk e)) by (unfold in_u; lia). rewrite (u32_small (logical - e_lblk e + 1)) by (unfold in_u; lia).
    rewrite !u64_small by (unfold in_u; lia). rewrite u32_small by (unfold in_u; lia). f_equal; lia. }
  rewrite Hhd, Htl. apply runs_then. apply (runs_replace ino mx eb ps rw writes_ok Q h d L e R); [done|done|]. intros h1 d1 HZ1. split; [done|]. apply runs_bind.
  assert (Hlen : forall y, Z.of_nat (length (L ++ y :: R)) = Z.of_nat (length (L ++ e :: R))) by (intros; rewrite !length_app; done).
  destruct (decide (physical <> 0)) as [Hp|Hp].
  - rewrite (Hg Hp). apply (runs_insert_after ino mx eb ps rw writes_ok saved h1 d1 L (head_part e) R); [done|by rewrite Hlen|by apply new_ok|]. intros h2 d2 HZ2. rewrite decide_False by tauto. apply runs_bind.
    apply (runs_insert_after ino mx eb ps rw writes_ok saved h2 d2 (L ++ [head_part e]) new_extent R); [done| |done|].
    { rewrite <- app_assoc, length_app. cbn [length app]. specialize (Hroom2 Hp). rewrite length_app in Hroom2. cbn [length] in Hroom2. lia. }
    intros h3 d3 HZ3. rewrite decide_False by tauto. apply runs_ret. eapply runs_changed; [exact HZ3|done|done|]. rewrite <- !app_assoc. by apply map_middle.
  - apply runs_ret. rewrite decide_False by tauto. apply runs_bind. apply (runs_insert_after ino mx eb ps rw writes_ok saved h1 d1 L (head_part e) R); [done|by rewrite Hlen|done|].
    intros h2 d2 HZ2. rewrite decide_False by tauto. apply runs_ret. eapply runs_changed; [exact HZ2|done|done|]. rewrite <- !app_assoc. apply unmap_middle; try done. lia.
Qed.

(** ** The whole change *)

(** The tree as it was, or written anew. *)
Definition kept_or_saved (Q : D -> list Z -> Prop) d b : Prop := Q d b \/ saved d b.

Definition settled Q l (r : Z) h d : Prop := r = 0 /\ exists l', at_root (kept_or_saved Q) h d l' /\ remapped l l'.

Lemma root_mono (Q Q' : D -> list Z -> Prop) h d l : (forall d b, Q d b -> Q' d b) -> at_root Q h d l -> at_root Q' h d l.
Proof using. intros HQ (b & p & H1 & H2 & H3 & H4 & H5 & H6 & H7 & H8). exists b, p. split_and!; try done. by apply HQ. Qed.

Lemma changed_settled Q l r h d : changed l r h d -> settled Q l r h d.
Proof using. intros [-> (l' & HR & HM)]. split; [done|]. exists l'. split; [|done]. eapply root_mono; [|exact HR]. intros ???. by right. Qed.

(** Extents that the block lies inside of need two more entries when it is mapped anew. *)
Definition inside e : bool := bool_decide (e_lblk e < logical /\ logical < ext_end e - 1).
Definition room l : Z := if existsb inside l && bool_decide (physical <> 0) then 2 else 1.

Lemma room_bounds L e R : Z.of_nat (length (L ++ e :: R)) + room (L ++ e :: R) <= mx ->
  Z.of_nat (length (L ++ e :: R)) < mx /\ (e_lblk e < logical < ext_end e - 1 -> physical <> 0 -> Z.of_nat (length (L ++ e :: R)) + 1 < mx).
Proof using Hlog Hphys Hfuel uninit.
  intros Hr. assert (1 <= room (L ++ e :: R)) by (unfold room; destruct (_ && _); lia). split; [lia|]. intros Hin Hp. unfold room in Hr.
  rewrite existsb_app in Hr. cbn [existsb] in Hr. unfold inside at 2 in Hr. rewrite (bool_decide_eq_true_2 (_ /\ _)) in Hr by lia. rewrite orb_true_l, orb_true_r, bool_decide_eq_true_2 in Hr by done. cbn [andb] in Hr. lia.
Qed.

Lemma block_of_zip L e R : in_order (L ++ e :: R) -> covers e logical -> block_of (L ++ e :: R) logical = Some (e_pblk e + (logical - e_lblk e), ext_uninit e).
Proof using Hlog Hphys Hfuel uninit.
  intros HO HC. destruct (in_order_zip L e R HO) as (F1 & _ & _). rewrite block_of_app, block_of_none.
  - cbn. by rewrite decide_True.
  - eapply Forall_impl; [exact F1|]. unfold covers in *. cbn. lia.
Qed.

Lemma run_change Q h d L e R r garbage : in_order (L ++ e :: R) -> at_zip Q h d L e R -> goto_at (L ++ e :: R) logical r L e R ->
  (r <> 0 -> physical <> 0) -> (physical <> 0 -> garbage = new_extent) -> Z.of_nat (length (L ++ e :: R)) + room (L ++ e :: R) <= mx ->
  runs (bmap_change (S fuel) logical physical uninit max_len garbage e (head R) (last L) (bool_decide (r = 0)) r) h d (settled Q (L ++ e :: R)).
Proof using rw writes_ok Hlog Hphys Hfuel.
  intros HO HZ HG Hr Hg Hroom. destruct (room_bounds L e R Hroom) as [Hroom1 Hroom2]. destruct (zip_ok _ _ _ _ _ _ HZ) as (_ & Hok & _). pose proof (leaf_ok_pos e Hok) as Hpos.
  pose proof Hok as (H5 & H6 & H7 & H8 & _). unfold bmap_change, is_uninit. rewrite leaf_ok_flags by done. destruct (decide (r = 0)) as [->|Hne].
  - rewrite (bool_decide_eq_true_2 (0 = 0)) by done. assert (HC : covers e logical) by (inversion HG; done). cbn [negb andb]. pose proof HC as [C1 C2]. unfold ext_end in C2, H8.
    rewrite (u64_small (e_pblk e + (logical - e_lblk e))) by (unfold in_u; lia). rewrite (u64_small (e_lblk e + e_len e - 1)) by (unfold in_u; lia).
    destruct (Bool.eqb uninit (ext_uninit e) && bool_decide (e_pblk e + (logical - e_lblk e) = physical)) eqn:HE.
    + apply andb_true_iff in HE as [HU%eqb_prop HP%bool_decide_eq_true]. apply runs_ret. split; [done|]. exists (L ++ e :: R).
      split; [eapply root_mono; [|by eapply zip_root]; intros ???; by left|]. split; [done|]. intros blk. destruct (decide (blk = logical)) as [->|]; [|done].
      rewrite block_of_zip by done. unfold target. rewrite decide_False by lia. by rewrite HU, HP.
    + destruct (decide (logical = e_lblk e /\ e_len e = 1)) as [[O1 O2]|HN1]; [eapply runs_mono; [intros ??? Hc; by apply changed_settled, Hc|]; by apply (run_only Q)|].
      destruct (decide (logical = e_lblk e + e_len e - 1)) as [HL|HN2]; [eapply runs_mono; [intros ??? Hc; by apply changed_settled, Hc|]; apply (run_last Q); try done; lia|].
      destruct (decide (logical = e_lblk e)) as [HF|HN3]; [eapply runs_mono; [intros ??? Hc; by apply changed_settled, Hc|]; apply (run_first Q); try done; lia|].
      eapply runs_mono; [intros ??? Hc; by apply changed_settled, Hc|]. assert (Hin : e_lblk e < logical < ext_end e - 1) by (unfold ext_end; lia).
      apply (run_middle Q); try done. intros Hp. by apply Hroom2.
  - rewrite (bool_decide_eq_false_2 (r = 0)) by done. cbn [negb andb]. assert (Hp : physical <> 0) by auto. rewrite (Hg Hp).
    eapply runs_mono; [intros ??? Hc; by apply changed_settled, Hc|]. apply (run_unmapped Q); try done. inversion HG; subst; done.
Qed.

End bmap.

Section set_bmap.
Context {D : Type} `{!ExtentEnv D} `{!Checksum}.
Implicit Types (h : ext2_extent_handle) (d : D) (b : list Z) (l L R : list ext2fs_extent) (e : ext2fs_extent).

Section at_place.
Variables (ino : inode) (mx eb : Z) (ps : list extent_path).
Hypothesis rw : has_flag (fs_flags x_fs) 1 = true.
Hypothesis writes_ok : forall d i b, (ext2fs_write_inode d i b).1 = 0.
Variables (fuel : nat) (Hfuel : mx <= Z.of_nat fuel).
Abbreviation at_zip := (at_zip ino mx eb ps).
Abbreviation at_root := (at_root ino mx eb ps).

(** The tree and the device as they are at the start. *)
Definition unchanged d0 b0 d b : Prop := d = d0 /\ b = b0.

(** Each search for the same block in the same tree ends at the same place. *)
Lemma goto_fixed d0 b0 l blk : holds mx b0 l -> l <> [] ->
  exists r L e R, goto_at l blk r L e R /\
    forall h K, at_root (unchanged d0 b0) h d0 l -> (forall h, at_zip (unchanged d0 b0) h d0 L e R -> K r h d0) -> runs (ext2fs_extent_goto2 (S fuel) 0 blk) h d0 K.
Proof using Hfuel.
  intros Hb Hl. assert (Hn : (0 < length l)%nat) by (destruct l; [done|cbn; lia]). pose proof (hd_len _ _ _ Hb) as Hlen. set (n := Z.of_nat (length l)) in *.
  set (p0 := mkPath b0 n mx 0 0 eb None). set (h0 := mkHandle ino 0 0 (p0 :: ps)).
  destruct (goto_leaf h0 d0 p0 blk eq_refl ltac:(cbn; lia) (S fuel) 0) as (r & j & HG & Hj & HL); [cbn; lia|cbn; lia|lia|].
  destruct (leaf_result_goto mx b0 l blk r j Hb Hj HL) as (L & e & R & HA & HLj). exists r, L, e, R. split; [done|].
  intros h K (b & p & Hb' & -> & Hpb & Hpn & Hpm & Hpe & _ & _ & ->) HK. pose proof (get_root fuel no_extent (mkHandle ino 0 0 (p :: ps)) d0 p ltac:(cbn; lia) eq_refl) as HR.
  rewrite decide_False in HR by lia. apply runs_eq with (a := r) (h' := place ino mx eb ps b0 n j) (d' := d0).
  - unfold ext2fs_extent_goto2, mbind, X_bind. rewrite HR. cbv iota beta. rewrite decide_False by tauto. unfold get_handle. rewrite decide_False by (cbn; lia).
    destruct p as [pb pn pm pl pv pe pc]. cbn in Hpb, Hpn, Hpm, Hpe. subst. exact HG.
  - apply HK. assert (Hz : l = L ++ e :: R) by (by inversion HA). exists b0. subst n. rewrite Hz in *. by rewrite HLj.
Qed.

Lemma runs_goto_any Q h d l blk (K : Z -> ext2_extent_handle -> D -> Prop) :
  at_root Q h d l -> (forall r h, at_root Q h d l -> K r h d) -> runs (ext2fs_extent_goto2 (S fuel) 0 blk) h d K.
Proof using Hfuel.
  intros HA HK. destruct (decide (l = [])) as [->|Hne].
  - destruct HA as (b & p & Hb & -> & Hpb & Hpn & Hpm & Hpe & Hpc & HQ). pose proof (get_root fuel no_extent (mkHandle ino 0 0 (p :: ps)) d p ltac:(cbn; lia) eq_refl) as HR.
    rewrite decide_True in HR by (rewrite Hpn; cbn; lia). unfold runs, ext2fs_extent_goto2, mbind, X_bind. rewrite HR. cbv iota beta. rewrite decide_True by done. apply HK.
    eexists b, _. split_and!; done.
  - apply (runs_goto ino mx eb ps Q h d l); [done|done|done|]. intros r L e R h1 HG HZ. apply HK. assert (Hl : l = L ++ e :: R) by (by inversion HG). rewrite Hl. by apply zip_root.
Qed.

Lemma runs_neighbour_next Q h d L e R K : at_zip Q h d L e R -> (forall h, at_root Q h d (L ++ e :: R) -> K (inr (head R)) h d) ->
  runs (get_neighbour (S fuel) EXT2_EXTENT_NEXT_LEAF EXT2_ET_EXTENT_NO_NEXT) h d K.
Proof using.
  intros HZ HK. apply runs_bind. apply (runs_next ino mx eb ps Q h d L e R); [done|]. destruct R as [|x R].
  - intros _. cbv iota beta. apply runs_ret. rewrite decide_False, decide_True by done. apply HK. by apply zip_root.
  - intros h1 HZ1. cbv iota beta. apply runs_ret. rewrite decide_True by done. apply HK. apply zip_root in HZ1. by rewrite <- app_assoc in HZ1.
Qed.

Lemma runs_neighbour_prev Q h d L e R K : at_zip Q h d L e R -> (forall h, at_root Q h d (L ++ e :: R) -> K (inr (last L)) h d) ->
  runs (get_neighbour (S fuel) EXT2_EXTENT_PREV_LEAF EXT2_ET_EXTENT_NO_PREV) h d K.
Proof using.
  intros HZ HK. apply runs_bind. destruct L as [|x L] using rev_ind.
  - apply (runs_prev_none ino mx eb ps Q h d e R); [done|]. intros _. cbv iota beta. apply runs_ret. rewrite decide_False, decide_True by done. apply HK. by apply (zip_root _ _ _ _ _ _ _ [] e R).
  - clear IHL. apply (runs_prev ino mx eb ps Q h d L x e R); [done|]. intros h1 HZ1. cbv iota beta. apply runs_ret. rewrite decide_True, last_snoc in * by done. rewrite <- app_assoc in HK. apply HK. by apply zip_root in HZ1.
Qed.

Lemma runs_current_any Q h d l (K : Z * ext2fs_extent -> ext2_extent_handle -> D -> Prop) : at_root Q h d l ->
  (forall r x, r = 0 \/ r = EXT2_ET_NO_CURRENT_NODE -> K (r, x) h d) -> runs (ext2fs_extent_get (S fuel) EXT2_EXTENT_CURRENT no_extent) h d K.
Proof using.
  intros (b & p & _ & -> & _) HK. destruct (p_curr p) as [c|] eqn:Hc.
  - eapply runs_eq; [by apply (get_current fuel no_extent _ d p c)|]. apply HK. by left.
  - eapply runs_eq with (a := (EXT2_ET_NO_CURRENT_NODE, no_extent)); [|apply HK; by right].
    unfold ext2fs_extent_get. cbn [get_loop Z.land Pos.land]. unfold mbind, X_bind. rewrite (choose_plain _ d p) by done.
    unfold move. change (mbind ?k get_handle ?h d) with (k h h d). cbv beta. unfold mbind at 1, X_bind at 1. rewrite (get_path_eq _ d p) by done. by rewrite decide_True, Hc by done.
Qed.

(** ** The search for the place, and the change there *)

Variables (logical physical flags : Z).
Hypothesis Hlog : 0 <= logical < 2 ^ 32.
Hypothesis Hphys : 0 <= physical < 2 ^ 48.
Let uninit := has_flag flags 1.
Abbreviation settled := (settled ino mx eb ps logical physical uninit).

Lemma goto_hole l L e R : in_order l -> goto_at l logical EXT2_ET_EXTENT_NOT_FOUND L e R -> block_of l logical = None.
Proof using.
  clear Hfuel Hlog Hphys uninit. intros HO HG. apply block_of_none. inversion HG as [|? ? Hl Hlt|? ? ? Hl HL HR]; subst.
  - destruct (in_order_zip [] e R HO) as (_ & F2 & F3). constructor; [unfold covers; lia|]. eapply Forall_impl; [exact F2|]. unfold covers, ext_end in *. cbn. lia.
  - change (e :: R) with ([e] ++ R). rewrite app_assoc. apply Forall_app. split; [eapply Forall_impl; [exact HL|]; unfold covers; cbn; lia|].
    destruct R as [|x R]; [done|]. destruct (in_order_zip (L ++ [e]) x R ltac:(by rewrite <- app_assoc)) as (_ & F2 & F3).
    constructor; [unfold covers; lia|]. eapply Forall_impl; [exact F2|]. unfold covers, ext_end in *. cbn. lia.
Qed.

Lemma run_at d b l h garbage : holds mx b l -> l <> [] -> in_order l -> at_root (unchanged d b) h d l -> (physical <> 0 -> garbage = new_extent logical physical uninit) ->
  Z.of_nat (length l) + room logical physical l <= mx -> runs (bmap_at (S fuel) logical physical flags garbage) h d (settled (unchanged d b) l).
Proof using rw writes_ok Hlog Hphys Hfuel.
  intros Hb Hne HO HA Hg Hroom. destruct (goto_fixed d b l logical Hb Hne) as (r & L & e & R & HG & Hgoto).
  assert (Hl : l = L ++ e :: R) by (by inversion HG). assert (Hr : r = 0 \/ r = EXT2_ET_EXTENT_NOT_FOUND) by (inversion HG; auto).
  assert (Hbad : bool_decide (r <> 0) && bool_decide (r <> EXT2_ET_EXTENT_NOT_FOUND) = false).
  { destruct Hr as [->| ->]; [by rewrite bool_decide_eq_false_2 by tauto|]. rewrite andb_comm. by rewrite bool_decide_eq_false_2 by tauto. }
  unfold bmap_at, ext2fs_extent_goto. fold uninit. apply runs_bind. apply Hgoto; [done|]. intros h1 HZ1. rewrite Hbad.
  destruct (bool_decide (r <> 0) && bool_decide (physical = 0)) eqn:Hun.
  { apply andb_true_iff in Hun as [Hr0%bool_decide_eq_true Hp%bool_decide_eq_true]. destruct Hr as [|Hr]; [done|]. apply runs_ret. split; [done|]. exists l. split.
    - rewrite Hl. eapply root_mono; [|by eapply zip_root]. intros ???. by left.
    - split; [done|]. intros blk. destruct (decide (blk = logical)) as [->|]; [|done]. unfold target. rewrite decide_True by done. rewrite Hr in HG. by eapply goto_hole. }
  apply runs_bind. apply (runs_current ino mx eb ps (unchanged d b) h1 d L e R); [done|]. intros _. cbv iota beta. rewrite decide_False by tauto.
  apply runs_bind. apply (runs_neighbour_next (unchanged d b) h1 d L e R); [done|]. intros h2 HA2. rewrite <- Hl in HA2. apply runs_then. unfold goto_or_hole, ext2fs_extent_goto.
  apply runs_bind. apply Hgoto; [done|]. intros h3 HZ3. apply runs_ret. split; [destruct (decide _); [done|destruct Hr; done]|].
  apply runs_bind. apply (runs_neighbour_prev (unchanged d b) h3 d L e R); [done|]. intros h4 HA4. rewrite <- Hl in HA4. apply runs_bind. apply Hgoto; [done|]. intros h5 HZ5. rewrite Hbad.
  rewrite Hl in *. apply (run_change ino mx eb ps rw writes_ok logical physical uninit Hlog Hphys fuel Hfuel); try done.
  intros Hr0 Hp. by rewrite !bool_decide_eq_true_2 in Hun.
Qed.

Lemma run_set_bmap d b l h garbage : holds mx b l -> in_order l -> at_root (unchanged d b) h d l -> (l = [] -> physical <> 0) ->
  Z.of_nat (length l) + room logical physical l <= mx -> runs (ext2fs_extent_set_bmap (S fuel) garbage logical physical flags) h d (settled (unchanged d b) l).
Proof using rw writes_ok Hlog Hphys Hfuel.
  intros Hb HO HA Hempty Hroom. pose proof HA as (b' & p & _ & Hh & Hpb & Hpn & Hpm & Hpe & Hpc & HQ). unfold ext2fs_extent_set_bmap. rewrite rw. cbn [negb].
  apply runs_bind. eapply runs_eq; [done|]. apply runs_bind. eapply runs_eq; [by apply (get_path_eq h d p); rewrite Hh|].
  set (newextent := if decide (physical <> 0) then _ else garbage). assert (Hnew : physical <> 0 -> newextent = new_extent logical physical uninit).
  { intros Hp. unfold newextent. by rewrite decide_True by done. }
  assert (Hmx : 0 < mx) by (assert (1 <= room logical physical l) by (unfold room; destruct (_ && _); lia); lia).
  replace (h_max_depth h) with O by (by rewrite Hh). destruct (decide (O = O /\ p_entries p = 0)) as [[_ H0]|Hfull].
  - assert (Hl : l = []) by (destruct l; [done|rewrite Hpn in H0; cbn in H0; lia]). rewrite Hl in *. specialize (Hempty eq_refl). rewrite (Hnew Hempty).
    apply (runs_insert_empty ino mx eb ps rw writes_ok (unchanged d b) h d); [done|done|by apply new_ok|]. intros h1 d1 HA1. apply changed_settled. split; [done|].
    exists [new_extent logical physical uninit]. split; [done|]. apply (map_insert logical physical uninit Hlog Hphys [] []); done.
  - assert (Hne : l <> []) by (intros ->; apply Hfull; by rewrite Hpn). apply runs_bind. apply (runs_current_any (unchanged d b) h d l); [done|]. intros r x Hr. cbv iota beta.
    assert (Hok : bool_decide (r <> 0) && bool_decide (r <> EXT2_ET_NO_CURRENT_NODE) = false).
    { destruct Hr as [->| ->]; [by rewrite bool_decide_eq_false_2 by tauto|]. rewrite andb_comm. by rewrite bool_decide_eq_false_2 by tauto. }
    rewrite Hok. apply runs_bind. eapply runs_eq; [unfold ext2fs_extent_get_info, mbind, X_bind, get_handle; rewrite (get_path_eq h d p) by (by rewrite Hh); done|].
    apply runs_bind. eapply runs_mono; [|by apply (run_at d b l h newextent)]. intros r1 h1 d1 [-> (l' & HA1 & HM)]. cbv beta. apply runs_bind. eapply runs_eq; [done|].
    assert (Hd1 : h_max_depth h1 = O) by (destruct HA1 as (? & ? & _ & -> & _); done). cbn [max_depth curr_level]. replace (h_max_depth h) with O by (by rewrite Hh). replace (h_level h) with O by (by rewrite Hh).
    rewrite Hd1. rewrite (decide_False (P := Z.of_nat 0 - Z.of_nat 0 > Z.of_nat 0)) by lia. apply runs_bind. change (Z.of_nat 0 - Z.of_nat 0) with 0.
    eapply runs_goto_any; [exact HA1|]. intros r2 h2 HA2. apply runs_ret. split; [done|]. by exists l'.
Qed.

End at_place.

(** * The property *)

(** The room for entries in the root. *)
Definition root_max h : Z := match h_path h with p :: _ => p_max_entries p | [] => 0 end.

(** A handle on a tree in the inode whose extents are [l]: in order, as the bytes of the root
    say. *)
Record inode_tree h l : Prop := {
  it_level : h_level h = O;
  it_depth : h_max_depth h = O;
  it_root : exists p ps, h_path h = p :: ps /\ holds (p_max_entries p) (p_buf p) l /\ p_entries p = Z.of_nat (length l) /\ (l = [] -> p_curr p = None);
  it_order : in_order l
}.

(** It is the list of leaves that a walk visits and a search looks at. *)
Lemma inode_tree_leaves d h l : inode_tree h l -> tree_leaves d h = Some l.
Proof.
  intros [H1 H2 (p & ps & H3 & Hb & H4 & _) _]. unfold tree_leaves. rewrite H3, H2, leaf_leaves, (hd_entries _ _ _ Hb). f_equal. apply list_eq. intros i.
  rewrite list_lookup_fmap. destruct (l !! i) as [e|] eqn:He.
  - rewrite lookup_seqZ_lt by (apply lookup_lt_Some in He; lia). cbn. f_equal. rewrite Z.add_0_l. by apply (hd_leaf _ _ _ Hb).
  - rewrite lookup_seqZ_ge by (apply lookup_ge_None in He; lia). done.
Qed.

(** C30: Setting the mapping of a block in a tree that fits in the inode and has room is the update of a map: it
    returns 0, the extents stay in order, the block is mapped as asked (or, for physical block 0, not at
    all), and every other block as before; whether the mapping joins a neighbour, splits an
    extent, or replaces or deletes it.  Either nothing changed, or the inode was last written
    with the new tree. *)
Theorem set_bmap_updates_map h d l logical physical flags garbage fuel :
  has_flag (fs_flags x_fs) 1 = true -> (forall d i b, (ext2fs_write_inode d i b).1 = 0) ->
  inode_tree h l -> 0 <= logical < 2 ^ 32 -> 0 <= physical < 2 ^ 48 -> (l = [] -> physical <> 0) ->
  Z.of_nat (length l) + room logical physical l <= root_max h -> root_max h < Z.of_nat fuel ->
  exists h' d' l', ext2fs_extent_set_bmap fuel garbage logical physical flags h d = Xok 0 h' d' /\
    inode_tree h' l' /\ h_inode h' = h_inode h /\ root_max h' = root_max h /\
    (forall blk, block_of l' blk = if decide (blk = logical) then (if decide (physical = 0) then None else Some (physical, has_flag flags 1)) else block_of l blk) /\
    (d' = d /\ i_block h' = i_block h \/ exists d0, d' = (ext2fs_write_inode d0 (h_inode h) (i_block h')).2).
Proof.
  intros Hrw Hwr [H1 H2 (p & ps & H3 & Hb & H4 & H5) HO] Hlog Hphys Hempty Hroom Hf. destruct fuel as [|fuel]; [unfold root_max in *; rewrite H3 in *; destruct Hb; lia|].
  unfold root_max in Hroom, Hf. rewrite H3 in Hroom, Hf. destruct h as [ino lv dp pth]. cbn in H1, H2, H3. subst lv dp pth.
  assert (HA : at_root ino (p_max_entries p) (p_end_blk p) ps (unchanged d (p_buf p)) (mkHandle ino 0 0 (p :: ps)) d l) by (exists (p_buf p), p; by split_and!).
  pose proof (run_set_bmap ino (p_max_entries p) (p_end_blk p) ps Hrw Hwr fuel ltac:(lia) logical physical flags Hlog Hphys d (p_buf p) l _ garbage Hb HO HA Hempty Hroom) as HR.
  unfold runs in HR. destruct (ext2fs_extent_set_bmap _ _ _ _ _ _ _) as [r h' d'| |]; [|done|done].
  destruct HR as [-> (l' & (b' & p' & Hb' & -> & Hpb & Hpn & Hpm & Hpe & Hpc & HQ) & HO' & HM)]. exists (mkHandle ino 0 0 (p' :: ps)), d', l'. subst b'.
  split_and!; [done| |done|cbn; congruence|done|].
  - split; [done|done| |done]. exists p', ps. rewrite Hpm. by split_and!.
  - cbn. destruct HQ as [[-> ->]|HQ]; [by left|by right].
Qed.

End set_bmap.
