(* ===== verification/ExtentLimits.v ===== *)
(** A tree of two levels on a device: the search and the walk on it, and the places where a walk
    after a search and a change of the tree go wrong. *)
From Stdlib Require Import ZArith Lia.
From stdpp Require Import base tactics numbers list gmap.
From S2P Require Import Prelude ExtErr Crc32c BlkNum Csum CsumProofs Extent ExtentProofs ExtentTheorems ExtentInode ExtentSetBmap.

Module ExtentDisk.

(** A file system with metadata checksums, of blocks of 1024 bytes. *)
Definition fs : csum_fs :=
  mkCs (mkFs (mkSb 20000 0 100 0 500 0 1 8192 0 64 0x80 0x400 1 11 256) [] 3 1024 0 1) 0x1234 (replicate 16 5) 0.

(** The blocks, and the next one to allocate. *)
Definition dev : Type := gmap Z (list Z) * Z.

#[local] Instance env : ExtentEnv dev := {|
  x_fs := fs; x_ino := 12; x_read_inode := fun _ => inr 7; x_image := false;
  io_channel_read_blk64 d b := inr (default (replicate 1024 0) (d.1 !! b));
  io_channel_write_blk64 d b x := (0, (<[b := x]> d.1, d.2));
  ext2fs_write_inode d i b := (0, d);
  alloc_block2 d g := (inr d.2, (d.1, d.2 + 1));
  block_freed d b := d;
  inode_goal d i b := 100
|}.

Definition header (entries max depth : Z) : list Z := le_bytes 2 0xf30a ++ le_bytes 2 entries ++ le_bytes 2 max ++ le_bytes 2 depth ++ le_bytes 4 0.
Definition index (block leaf : Z) : list Z := le_bytes 4 block ++ le_bytes 4 leaf ++ [0; 0; 0; 0].
Definition mapping (block len start : Z) : list Z := le_bytes 4 block ++ le_bytes 2 len ++ [0; 0] ++ le_bytes 4 start.
Definition padded (size : nat) (b : list Z) : list Z := b ++ replicate (size - length b) 0.
Definition sealed (b : list Z) : list Z := (ext2fs_extent_block_csum_set x_read_inode x_fs x_ino (padded 1024 b)).2.

(** Blocks 0 to 3 of the file under the first leaf node, 4 to 7 under the second. *)
Definition root : list Z := padded 60 (header 2 4 1 ++ index 0 101 ++ index 4 102).
Definition leaf1 : list Z := Eval vm_compute in sealed (header 2 84 0 ++ mapping 0 2 1000 ++ mapping 2 2 2000).
Definition leaf2 : list Z := Eval vm_compute in sealed (header 2 84 0 ++ mapping 4 2 3000 ++ mapping 6 2 4000).
Definition disk : dev := (<[101 := leaf1]> (<[102 := leaf2]> ∅), 200).
Definition file : inode := mkInode 0x8000 8192 0 0 0 0x80000 0 0.

Definition opened (b : list Z) : ext2_extent_handle := match ext2fs_extent_open2 file b with inr h => h | inl _ => mkHandle file 0 0 [] end.

Definition leaves : list ext2fs_extent := [mkExtent 1000 0 2 1; mkExtent 2000 2 2 1; mkExtent 3000 4 2 1; mkExtent 4000 6 2 1].

Lemma disk_leaves : tree_leaves disk (opened root) = Some leaves.
Proof. vm_compute. reflexivity. Qed.

Lemma in_order_cons e l : 0 < e_len e -> Forall (fun x => ext_end e <= e_lblk x) l -> in_order l -> in_order (e :: l).
Proof.
  intros He HF [H1 H2]. split; [by constructor|]. intros [|i] [|j] a b Hij Ha Hb; try lia; cbn in Ha, Hb.
  - injection Ha as <-. rewrite Forall_lookup in HF. by apply (HF j).
  - apply (H2 i j); [lia|done|done].
Qed.

Lemma in_order_leaves : in_order leaves.
Proof. repeat (apply in_order_cons; [cbn; lia|by repeat constructor|]). split; [constructor|]. intros ?? a b ? Ha. by rewrite lookup_nil in Ha. Qed.

Lemma disk_keys : keys_ok 1 disk root.
Proof.
  intros i Hi. change (eh_entries root) with 2 in *. assert (Hcase : i = 0 \/ i = 1) by lia. destruct Hcase as [->| ->].
  - exists leaf1, (take 2 leaves). split_and!; [vm_compute; reflexivity|exact I|vm_compute; reflexivity|repeat constructor; vm_compute; congruence|].
    intros _. repeat constructor; vm_compute; congruence.
  - exists leaf2, (drop 2 leaves). split_and!; [vm_compute; reflexivity|exact I|vm_compute; reflexivity|repeat constructor; vm_compute; congruence|done].
Qed.

Lemma disk_tree_ok : tree_ok disk (opened root) leaves.
Proof.
  split.
  - vm_compute. lia.
  - reflexivity.
  - intros p [= <-]. reflexivity.
  - intros p [= <-]. exact disk_keys.
  - exact disk_leaves.
  - exact in_order_leaves.
Qed.

(** Block 5 is found in the second leaf node. *)
Lemma goto_finds_witness : exists r h', ext2fs_extent_goto 100 5 (opened root) disk = Xok r h' disk /\
    (r = 0 /\ (exists x, x ∈ leaves /\ covers x 5 /\ forall e, ext2fs_extent_get 100 EXT2_EXTENT_CURRENT e h' disk = Xok (0, x) h' disk) \/
     r = EXT2_ET_EXTENT_NOT_FOUND /\ Forall (fun x => ~ covers x 5) leaves).
Proof. apply (goto_finds disk (opened root) leaves 5 100); [reflexivity|exact disk_tree_ok|reflexivity]. Defined.

(** The four leaves, one after the other. *)
Lemma walk_visits_all_witness : walk_leaves 5 100 no_extent (opened root) disk = Some (leaves, EXT2_ET_EXTENT_NO_NEXT).
Proof. apply (walk_visits_all file root (opened root) disk leaves 100 no_extent); [reflexivity|vm_compute; reflexivity|exact disk_leaves|vm_compute; lia]. Defined.

(** A tree in the inode, of two extents, and block 2 mapped to another block: the first extent is
    split in three. *)
Definition small_root : list Z := padded 60 (header 2 4 0 ++ mapping 0 4 1000 ++ mapping 10 2 2000).
Definition small_leaves : list ext2fs_extent := [mkExtent 1000 0 4 1; mkExtent 2000 10 2 1].

Lemma small_holds : holds 4 small_root small_leaves.
Proof.
  split.
  - vm_compute. congruence.
  - lia.
  - cbn. lia.
  - vm_compute. reflexivity.
  - repeat constructor; unfold leaf_ok, ext_end, EXT_INIT_MAX_LEN, EXT_UNINIT_MAX_LEN; cbn; lia.
  - intros [|[|i]] e He; [injection He as <-; vm_compute; reflexivity|injection He as <-; vm_compute; reflexivity|]. apply lookup_lt_Some in He. cbn in He. lia.
Qed.

Lemma small_order : in_order small_leaves.
Proof. repeat (apply in_order_cons; [cbn; lia|by repeat constructor|]). split; [constructor|]. intros ?? a b ? Ha. by rewrite lookup_nil in Ha. Qed.

Lemma small_tree : inode_tree (opened small_root) small_leaves.
Proof.
  split; [reflexivity|reflexivity| |exact small_order].
  exists (mkPath small_root 2 4 2 1 8 None), []. split_and!; [vm_compute; reflexivity|exact small_holds|reflexivity|done].
Qed.

Lemma set_bmap_updates_map_witness :
  exists h' d' l', ext2fs_extent_set_bmap 100 no_extent 2 5000 1 (opened small_root) disk = Xok 0 h' d' /\
    inode_tree h' l' /\ h_inode h' = h_inode (opened small_root) /\ root_max h' = root_max (opened small_root) /\
    (forall blk, block_of l' blk = if decide (blk = 2) then (if decide (5000 = 0) then None else Some (5000, has_flag 1 1)) else block_of small_leaves blk) /\
    (d' = disk /\ i_block h' = i_block (opened small_root) \/ exists d0, d' = (ext2fs_write_inode d0 (h_inode (opened small_root)) (i_block h')).2).
Proof.
  apply (set_bmap_updates_map (opened small_root) disk small_leaves 2 5000 1 no_extent 100).
  - reflexivity.
  - reflexivity.
  - exact small_tree.
  - lia.
  - lia.
  - discriminate.
  - vm_compute. congruence.
  - reflexivity.
Defined.

(** * Limits *)

(** What an operation returns, and the leaves of the tree after it. *)
Definition outcome {A} (m : X dev A) (b : list Z) : option (A * option (list ext2fs_extent)) :=
  match m (opened b) disk with Xok a h d => Some (a, tree_leaves d h) | _ => None end.

(** After a search that reaches the last entry of a node without coming back to it, the parent
    does not count as visited: from the last leaf of the tree, the next leaf is the first one of
    the same node. *)
Theorem next_leaf_after_goto :
  outcome (r ← ext2fs_extent_goto 100 7; c ← ext2fs_extent_get 100 EXT2_EXTENT_CURRENT no_extent;
           n ← ext2fs_extent_get 100 EXT2_EXTENT_NEXT_LEAF no_extent; mret (r, c, n)) root =
    Some (0, (0, mkExtent 4000 6 2 1), (0, mkExtent 3000 4 2 1), Some leaves).
Proof. vm_compute. reflexivity. Qed.

(** Mapping the last block of a leaf node to the block before the first extent of the next node:
    that extent grows, its node then covers the block, and it is that extent which is shortened at its
    end.  Block 3 is mapped twice and block 5 is not mapped any more. *)
Theorem set_bmap_across_nodes :
  outcome (ext2fs_extent_set_bmap 100 no_extent 3 2999 0) root =
    Some (0, Some [mkExtent 1000 0 2 1; mkExtent 2000 2 2 1; mkExtent 2999 3 2 1; mkExtent 4000 6 2 1]).
Proof. vm_compute. reflexivity. Qed.

(** Unmapping a block of an empty tree inserts the extent that was not initialised. *)
Theorem unmap_empty_inserts_garbage :
  outcome (ext2fs_extent_set_bmap 100 (mkExtent 77 99 5 0) 5 0 0) (replicate 60 0) = Some (0, Some [mkExtent 77 99 5 1]).
Proof. vm_compute. reflexivity. Qed.

End ExtentDisk.
