(* ===== verification/Dirhash.v ===== *)
(** The hash of a directory entry: [rfsck-ext/lib/ext2fs/dirhash.c].

    A name is the list of its bytes, and its length the argument [len]; buffers of words are lists. *)
From Stdlib Require Import ZArith Lia.
From stdpp Require Import base tactics numbers list.
From S2P Require Import Prelude ExtErr.

(** * The hash functions *)

Definition DELTA : Z := 0x9E3779B9.

(** An element of an array of words. *)
Definition word (l : list Z) (k : nat) : Z := nth k l 0.

(** [do { ... } while (--n)] *)
Fixpoint TEA_loop (n : nat) (a b c d sum b0 b1 : Z) : Z * Z :=
  match n with
  | O => (b0, b1)
  | S n' =>
      let sum := u32 (sum + DELTA) in
      let b0 := u32 (b0 + Z.lxor (Z.lxor (u32 (u32 (Z.shiftl b1 4) + a)) (u32 (b1 + sum))) (u32 (Z.shiftr b1 5 + b))) in
      let b1 := u32 (b1 + Z.lxor (Z.lxor (u32 (u32 (Z.shiftl b0 4) + c)) (u32 (b0 + sum))) (u32 (Z.shiftr b0 5 + d))) in
      TEA_loop n' a b c d sum b0 b1
  end.

Definition TEA_transform (buf inp : list Z) : list Z :=
  let '(b0, b1) := TEA_loop 16 (word inp 0) (word inp 1) (word inp 2) (word inp 3) 0 (word buf 0) (word buf 1) in
  [u32 (word buf 0 + b0); u32 (word buf 1 + b1); word buf 2; word buf 3].

Definition MD4_F (x y z : Z) : Z := Z.lxor z (Z.land x (Z.lxor y z)).
Definition MD4_G (x y z : Z) : Z := u32 (Z.land x y + Z.land (Z.lxor x y) z).
Definition MD4_H (x y z : Z) : Z := Z.lxor (Z.lxor x y) z.

(** The new value of [a]. *)
Definition ROUND (f : Z -> Z -> Z -> Z) (a b c d x s : Z) : Z :=
  let a := u32 (a + (f b c d + x)) in Z.lor (u32 (Z.shiftl a s)) (Z.shiftr a (32 - s)).

Definition K1 : Z := 0.
Definition K2 : Z := 0x5A827999.
Definition K3 : Z := 0x6ED9EBA1.

(** The three rounds: [a], [b], [c] and [d] after each. *)
Definition halfMD4_round1 (i : nat -> Z) (a b c d : Z) : Z * Z * Z * Z :=
  let a := ROUND MD4_F a b c d (i 0%nat + K1) 3 in
  let d := ROUND MD4_F d a b c (i 1%nat + K1) 7 in
  let c := ROUND MD4_F c d a b (i 2%nat + K1) 11 in
  let b := ROUND MD4_F b c d a (i 3%nat + K1) 19 in
  let a := ROUND MD4_F a b c d (i 4%nat + K1) 3 in
  let d := ROUND MD4_F d a b c (i 5%nat + K1) 7 in
  let c := ROUND MD4_F c d a b (i 6%nat + K1) 11 in
  let b := ROUND MD4_F b c d a (i 7%nat + K1) 19 in
  (a, b, c, d).

Definition halfMD4_round2 (i : nat -> Z) (a b c d : Z) : Z * Z * Z * Z :=
  let a := ROUND MD4_G a b c d (i 1%nat + K2) 3 in
  let d := ROUND MD4_G d a b c (i 3%nat + K2) 5 in
  let c := ROUND MD4_G c d a b (i 5%nat + K2) 9 in
  let b := ROUND MD4_G b c d a (i 7%nat + K2) 13 in
  let a := ROUND MD4_G a b c d (i 0%nat + K2) 3 in
  let d := ROUND MD4_G d a b c (i 2%nat + K2) 5 in
  let c := ROUND MD4_G c d a b (i 4%nat + K2) 9 in
  let b := ROUND MD4_G b c d a (i 6%nat + K2) 13 in
  (a, b, c, d).

Definition halfMD4_round3 (i : nat -> Z) (a b c d : Z) : Z * Z * Z * Z :=
  let a := ROUND MD4_H a b c d (i 3%nat + K3) 3 in
  let d := ROUND MD4_H d a b c (i 7%nat + K3) 9 in
  let c := ROUND MD4_H c d a b (i 2%nat + K3) 11 in
  let b := ROUND MD4_H b c d a (i 6%nat + K3) 15 in
  let a := ROUND MD4_H a b c d (i 1%nat + K3) 3 in
  let d := ROUND MD4_H d a b c (i 5%nat + K3) 9 in
  let c := ROUND MD4_H c d a b (i 0%nat + K3) 11 in
  let b := ROUND MD4_H b c d a (i 4%nat + K3) 15 in
  (a, b, c, d).

Definition halfMD4_rounds (buf inp : list Z) : Z * Z * Z * Z :=
  let i := word inp in
  let '(a, b, c, d) := halfMD4_round1 i (word buf 0) (word buf 1) (word buf 2) (word buf 3) in
  let '(a, b, c, d) := halfMD4_round2 i a b c d in
  halfMD4_round3 i a b c d.

Definition halfMD4Transform (buf inp : list Z) : list Z :=
  let '(a, b, c, d) := halfMD4_rounds buf inp in
  [u32 (word buf 0 + a); u32 (word buf 1 + b); u32 (word buf 2 + c); u32 (word buf 3 + d)].

(** A byte as an [unsigned char] or as a [signed char]. *)
Definition char_of (unsigned_flag : bool) (c : Z) : Z := if unsigned_flag then c else if decide (c < 128) then c else c - 256.

(** [while (len--)]; the loop sets [hash0] and [hash1]. *)
Fixpoint hack_loop (unsigned_flag : bool) (name : list Z) (hash0 hash1 : Z) : Z :=
  match name with
  | [] => hash0
  | c :: name' =>
      let hash := u32 (hash1 + Z.lxor hash0 (u32 (char_of unsigned_flag c * 7152373))) in
      let hash := if decide (Z.land hash 0x80000000 <> 0) then u32 (hash - 0x7fffffff) else hash in
      hack_loop unsigned_flag name' hash hash0
  end.

Definition dx_hack_hash (name : list Z) (unsigned_flag : bool) : Z := u32 (Z.shiftl (hack_loop unsigned_flag name 0x12a3fe2d 0x37abe8f9) 1).

(** The loop over the bytes, from index [i] on: the last value, the words that are left and the
    words written. *)
Fixpoint buf_loop (unsigned_flag : bool) (msg : list Z) (i pad val num : Z) (buf : list Z) : Z * Z * list Z :=
  match msg with
  | [] => (val, num, buf)
  | c :: msg' =>
      let val := u32 (char_of unsigned_flag c + u32 (Z.shiftl val 8)) in
      if decide (i mod 4 = 3) then buf_loop unsigned_flag msg' (i + 1) pad pad (num - 1) (buf ++ [val])
      else buf_loop unsigned_flag msg' (i + 1) pad val num buf
  end.

(** The words written to the buffer. *)
Definition str2hashbuf (msg : list Z) (num : Z) (unsigned_flag : bool) : list Z :=
  let len := Z.of_nat (length msg) in
  let pad := Z.lor (u32 len) (u32 (Z.shiftl (u32 len) 8)) in
  let pad := Z.lor pad (u32 (Z.shiftl pad 16)) in
  let len := if decide (len > num * 4) then num * 4 else len in
  let '(val, num, buf) := buf_loop unsigned_flag (take (Z.to_nat len) msg) 0 pad pad num [] in
  let num := num - 1 in
  let buf := if decide (num >= 0) then buf ++ [val] else buf in
  buf ++ replicate (Z.to_nat num) pad.

(** [while (len > 0)]: [step] bytes at a time. *)
Fixpoint hash_blocks (fuel step : nat) (transform : list Z -> list Z -> list Z) (num : Z) (unsigned_flag : bool) (p buf : list Z) : list Z :=
  match fuel with
  | O => buf
  | S fuel' =>
      match p with
      | [] => buf
      | _ => hash_blocks fuel' step transform num unsigned_flag (drop step p) (transform buf (str2hashbuf p num unsigned_flag))
      end
  end.

Definition EXT2_HASH_LEGACY : Z := 0.
Definition EXT2_HASH_HALF_MD4 : Z := 1.
Definition EXT2_HASH_TEA : Z := 2.
Definition EXT2_HASH_LEGACY_UNSIGNED : Z := 3.
Definition EXT2_HASH_HALF_MD4_UNSIGNED : Z := 4.
Definition EXT2_HASH_TEA_UNSIGNED : Z := 5.

Definition default_seed : list Z := [0x67452301; 0xefcdab89; 0x98badcfe; 0x10325476].

(** The code, the hash and the minor hash, which is not set for an unknown version. *)
Definition ext2fs_dirhash (version : Z) (name : list Z) (seed : option (list Z)) : Z * Z * option Z :=
  let buf := match seed with
             | Some s => if bool_decide (Forall (fun w => w = 0) (take 4 s)) then default_seed else take 4 s
             | None => default_seed
             end in
  let done (hash minor_hash : Z) : Z * Z * option Z := (0, Z.land hash (Z.lnot 1), Some minor_hash) in
  let legacy (unsigned_flag : bool) := done (dx_hack_hash name unsigned_flag) 0 in
  let half_md4 (unsigned_flag : bool) :=
    let buf := hash_blocks (length name) 32 halfMD4Transform 8 unsigned_flag name buf in done (word buf 1) (word buf 2) in
  let tea (unsigned_flag : bool) :=
    let buf := hash_blocks (length name) 16 TEA_transform 4 unsigned_flag name buf in done (word buf 0) (word buf 1) in
  if decide (version = EXT2_HASH_LEGACY_UNSIGNED) then legacy true
  else if decide (version = EXT2_HASH_LEGACY) then legacy false
  else if decide (version = EXT2_HASH_HALF_MD4_UNSIGNED) then half_md4 true
  else if decide (version = EXT2_HASH_HALF_MD4) then half_md4 false
  else if decide (version = EXT2_HASH_TEA_UNSIGNED) then tea true
  else if decide (version = EXT2_HASH_TEA) then tea false
  else (EXT2_ET_DIRHASH_UNSUPP, 0, None).

(** * The reference

    What the functions compute, in the terms of their specifications: the steps of MD4 as RFC 1320
    has them, driven by a table, with its selection and majority in their usual form; the cycles of
    TEA with their multiples of DELTA; the words of a name as numbers in base 256; the blocks of a
    name by their places.  Everything is arithmetic modulo 2 ^ 32. *)

(** ** Words of a name *)

Definition ref_pad (msg : list Z) : Z := 0x01010101 * Z.of_nat (length msg).

(** The digits [cs] below the digits of the padding. *)
Definition ref_word (flag : bool) (pad : Z) (cs : list Z) : Z := u32 (fold_left (fun v c => 256 * v + char_of flag c) cs pad).

Definition ref_words (flag : bool) (num : nat) (msg : list Z) : list Z :=
  map (fun k => ref_word flag (ref_pad msg) (take 4 (drop (4 * k) msg))) (seq 0 num).

(** The transform of each block of [step] bytes; the padding counts what is left of the name. *)
Definition ref_blocks (transform : list Z -> list Z -> list Z) (step : nat) (flag : bool) (name buf : list Z) : list Z :=
  fold_left (fun buf j => transform buf (ref_words flag (step / 4) (drop (step * j) name))) (seq 0 ((length name + step - 1) / step)) buf.

(** ** TEA *)

Definition tea_mix (v sum k0 k1 : Z) : Z := Z.lxor (Z.lxor (u32 (16 * v + k0)) (u32 (v + sum))) (u32 (v / 32 + k1)).

Definition tea_cycle (key : list Z) (v : Z * Z) (i : Z) : Z * Z :=
  let sum := u32 (i * 0x9E3779B9) in
  let v0 := u32 (v.1 + tea_mix v.2 sum (word key 0) (word key 1)) in
  (v0, u32 (v.2 + tea_mix v0 sum (word key 2) (word key 3))).

(** Davies and Meyer: the cipher text is added to the plain text. *)
Definition ref_tea (buf inp : list Z) : list Z :=
  let v := fold_left (tea_cycle inp) (seqZ 1 16) (word buf 0, word buf 1) in
  [u32 (word buf 0 + v.1); u32 (word buf 1 + v.2); word buf 2; word buf 3].

(** ** MD4 *)

Definition md4_select (x y z : Z) : Z := Z.lor (Z.land x y) (Z.land (Z.lnot x) z).
Definition md4_majority (x y z : Z) : Z := Z.lor (Z.lor (Z.land x y) (Z.land x z)) (Z.land y z).
Definition md4_parity (x y z : Z) : Z := Z.lxor x (Z.lxor y z).
Definition rotate_left (v s : Z) : Z := u32 (v * 2 ^ s) + v / 2 ^ (32 - s).

(** A step computes from [(a, b, c, d)] the new [a], and the roles of the four move on. *)
Definition md4_step (st : Z * Z * Z * Z) (op : (Z -> Z -> Z -> Z) * Z * Z) : Z * Z * Z * Z :=
  let '(a, b, c, d) := st in let '(f, x, s) := op in (d, rotate_left (u32 (a + f b c d + x)) s, b, c).

(** A round: the function, the constant, the order of the words and the four rotations. *)
Definition md4_round (inp : list Z) (f : Z -> Z -> Z -> Z) (k : Z) (order : list nat) (shifts : list Z) : list ((Z -> Z -> Z -> Z) * Z * Z) :=
  zip_with (fun j s => (f, word inp j + k, s)) order (shifts ++ shifts).

Definition md4_ops (inp : list Z) : list ((Z -> Z -> Z -> Z) * Z * Z) :=
  md4_round inp md4_select 0 [0; 1; 2; 3; 4; 5; 6; 7]%nat [3; 7; 11; 19] ++
  md4_round inp md4_majority 0x5A827999 [1; 3; 5; 7; 0; 2; 4; 6]%nat [3; 5; 9; 13] ++
  md4_round inp md4_parity 0x6ED9EBA1 [3; 7; 2; 6; 1; 5; 0; 4]%nat [3; 9; 11; 15].

Definition ref_half_md4 (buf inp : list Z) : list Z :=
  let '(a, b, c, d) := fold_left md4_step (md4_ops inp) (word buf 0, word buf 1, word buf 2, word buf 3) in
  [u32 (word buf 0 + a); u32 (word buf 1 + b); u32 (word buf 2 + c); u32 (word buf 3 + d)].

(** ** The legacy hash: a recurrence of order two, with an end-around carry at 31 bits *)

Definition carry31 (h : Z) : Z := h mod 2 ^ 31 + h / 2 ^ 31.

Definition legacy_step (flag : bool) (h : Z * Z) (c : Z) : Z * Z :=
  (carry31 (u32 (h.2 + Z.lxor h.1 (u32 (char_of flag c * 7152373)))), h.1).

Definition ref_legacy (flag : bool) (name : list Z) : Z := u32 (2 * (fold_left (legacy_step flag) name (0x12a3fe2d, 0x37abe8f9)).1).

(** ** The hash: versions 0 to 2, and 3 to 5 for unsigned characters; the lowest bit is dropped *)

Definition ref_dirhash (version : Z) (name : list Z) (seed : option (list Z)) : Z * Z * option Z :=
  let buf := match seed with
             | Some s => if bool_decide (Exists (fun w => w <> 0) (take 4 s)) then take 4 s else [0x67452301; 0xefcdab89; 0x98badcfe; 0x10325476]
             | None => [0x67452301; 0xefcdab89; 0x98badcfe; 0x10325476]
             end in
  let flag := bool_decide (3 <= version) in
  let '(hash, minor) :=
    match version mod 3 with
    | 0 => (ref_legacy flag name, 0)
    | 1 => let b := ref_blocks ref_half_md4 32 flag name buf in (word b 1, word b 2)
    | _ => let b := ref_blocks ref_tea 16 flag name buf in (word b 0, word b 1)
    end in
  if decide (0 <= version <= 5) then (0, 2 * (hash / 2), Some minor) else (EXT2_ET_DIRHASH_UNSUPP, 0, None).

(** * Equivalence *)

Lemma u32_absorb a b : u32 (a + u32 b) = u32 (a + b).
Proof. apply Zplus_mod_idemp_r. Qed.

Lemma u32_shift v s : 0 <= s -> u32 (Z.shiftl v s) = u32 (v * 2 ^ s).
Proof. intros Hs. by rewrite Z.shiftl_mul_pow2. Qed.

(** ** MD4 *)

Lemma select_eq x y z : MD4_F x y z = md4_select x y z.
Proof.
  apply Z.bits_inj'. intros n Hn. unfold MD4_F, md4_select. rewrite !Z.lor_spec, !Z.land_spec, Z.lnot_spec, !Z.lxor_spec, Z.land_spec, Z.lxor_spec by lia.
  by destruct (Z.testbit x n), (Z.testbit y n), (Z.testbit z n).
Qed.

Lemma majority_eq x y z : MD4_G x y z = u32 (md4_majority x y z).
Proof.
  unfold MD4_G, md4_majority. f_equal. rewrite Z.add_nocarry_lxor; apply Z.bits_inj'; intros n Hn.
  - rewrite !Z.lor_spec, Z.lxor_spec, !Z.land_spec, Z.lxor_spec. by destruct (Z.testbit x n), (Z.testbit y n), (Z.testbit z n).
  - rewrite !Z.land_spec, Z.lxor_spec, Z.bits_0. by destruct (Z.testbit x n), (Z.testbit y n), (Z.testbit z n).
Qed.

Lemma rotate_eq v s : in_u 32 v -> 0 < s < 32 -> Z.lor (u32 (Z.shiftl v s)) (Z.shiftr v (32 - s)) = rotate_left v s.
Proof.
  intros Hv Hs. unfold rotate_left. rewrite u32_shift, Z.shiftr_div_pow2 by lia.
  assert (HB : 0 <= v / 2 ^ (32 - s) < 2 ^ s).
  { split; [apply Z.div_pos; [apply Hv|apply Z.pow_pos_nonneg; lia]|]. apply Z.div_lt_upper_bound; [apply Z.pow_pos_nonneg; lia|].
    rewrite <- Z.pow_add_r by lia. replace (32 - s + s) with 32 by lia. apply Hv. }
  assert (HL : Z.land (u32 (v * 2 ^ s)) (v / 2 ^ (32 - s)) = 0).
  { apply Z.bits_inj'. intros n Hn. rewrite Z.land_spec, Z.bits_0. destruct (decide (n < s)) as [Hlt|Hge].
    - unfold u32. rewrite Z.mod_pow2_bits_low, Z.mul_pow2_bits_low by lia. done.
    - rewrite (in_u_testbit s (v / 2 ^ (32 - s)) n) by (unfold in_u; lia). apply andb_false_r. }
  by rewrite <- Z.lxor_lor, <- Z.add_nocarry_lxor by done.
Qed.

(** An assignment of the code is a step. *)
Lemma step_eq f g a b c d x s rest :
  0 < s < 32 -> (forall x y z, u32 (f x y z) = u32 (g x y z)) ->
  fold_left md4_step ((g, x, s) :: rest) (a, b, c, d) = fold_left md4_step rest (d, ROUND f a b c d x s, b, c).
Proof.
  intros Hs Hf. cbn [fold_left md4_step]. do 4 f_equal. unfold ROUND. rewrite rotate_eq by (apply u32_range || done). f_equal.
  replace (a + g b c d + x) with (a + x + g b c d) by lia. replace (a + (f b c d + x)) with (a + x + f b c d) by lia.
  by rewrite <- (u32_absorb _ (g b c d)), <- (u32_absorb _ (f b c d)), Hf.
Qed.

Lemma u32_u32 z : u32 (u32 z) = u32 z.
Proof. apply Z.mod_mod. lia. Qed.

Lemma parity_eq x y z : MD4_H x y z = md4_parity x y z.
Proof. apply Z.lxor_assoc. Qed.

(** A round of the code, assignment by assignment. *)
Ltac md4_round_eq f :=
  intros; unfold md4_round; cbn [zip_with app];
  do 8 rewrite (step_eq f) by (lia || (intros; rewrite ?majority_eq, ?select_eq, ?parity_eq, ?u32_u32; reflexivity)); reflexivity.

Lemma round1_eq inp a b c d :
  fold_left md4_step (md4_round inp md4_select 0 [0; 1; 2; 3; 4; 5; 6; 7]%nat [3; 7; 11; 19]) (a, b, c, d) = halfMD4_round1 (word inp) a b c d.
Proof. md4_round_eq MD4_F. Qed.

Lemma round2_eq inp a b c d :
  fold_left md4_step (md4_round inp md4_majority 0x5A827999 [1; 3; 5; 7; 0; 2; 4; 6]%nat [3; 5; 9; 13]) (a, b, c, d) = halfMD4_round2 (word inp) a b c d.
Proof. md4_round_eq MD4_G. Qed.

Lemma round3_eq inp a b c d :
  fold_left md4_step (md4_round inp md4_parity 0x6ED9EBA1 [3; 7; 2; 6; 1; 5; 0; 4]%nat [3; 9; 11; 15]) (a, b, c, d) = halfMD4_round3 (word inp) a b c d.
Proof. md4_round_eq MD4_H. Qed.

Lemma half_md4_rounds_eq buf inp :
  halfMD4_rounds buf inp = fold_left md4_step (md4_ops inp) (word buf 0, word buf 1, word buf 2, word buf 3).
Proof.
  unfold halfMD4_rounds, md4_ops. rewrite !fold_left_app, round1_eq. destruct (halfMD4_round1 _ _ _ _ _) as [[[a b] c] d].
  rewrite round2_eq. destruct (halfMD4_round2 _ _ _ _ _) as [[[a' b'] c'] d']. by rewrite round3_eq.
Qed.

Lemma half_md4_eq buf inp : halfMD4Transform buf inp = ref_half_md4 buf inp.
Proof. unfold halfMD4Transform, ref_half_md4. by rewrite half_md4_rounds_eq. Qed.

(** ** TEA *)

Lemma mix_eq v sum k0 k1 : Z.lxor (Z.lxor (u32 (u32 (Z.shiftl v 4) + k0)) (u32 (v + sum))) (u32 (Z.shiftr v 5 + k1)) = tea_mix v sum k0 k1.
Proof.
  unfold tea_mix. rewrite u32_shift, Z.shiftr_div_pow2 by lia. do 2 f_equal. rewrite Z.add_comm, u32_absorb. f_equal. lia.
Qed.

Lemma tea_loop_eq key n : forall k b0 b1, 
  TEA_loop n (word key 0) (word key 1) (word key 2) (word key 3) (u32 (k * DELTA)) b0 b1 = fold_left (tea_cycle key) (seqZ (k + 1) (Z.of_nat n)) (b0, b1).
Proof.
  induction n as [|n IH]; intros k b0 b1; cbn [TEA_loop]; [done|]. rewrite !mix_eq.
  assert (Hs : u32 (u32 (k * DELTA) + DELTA) = u32 ((k + 1) * DELTA)) by (rewrite Z.add_comm, u32_absorb; f_equal; lia).
  rewrite Hs, IH, (seqZ_cons (k + 1)) by lia. cbn [fold_left]. do 3 f_equal; lia.
Qed.

Lemma tea_eq buf inp : TEA_transform buf inp = ref_tea buf inp.
Proof.
  pose proof (tea_loop_eq inp 16 0 (word buf 0) (word buf 1)) as HE. change (u32 (0 * DELTA)) with 0 in HE.
  unfold TEA_transform, ref_tea. rewrite HE. change (seqZ (0 + 1) (Z.of_nat 16)) with (seqZ 1 16). by destruct (fold_left _ _ _).
Qed.

(** ** The legacy hash *)

Lemma carry31_eq h : in_u 32 h -> (if decide (Z.land h 0x80000000 <> 0) then u32 (h - 0x7fffffff) else h) = carry31 h.
Proof.
  intros Hh. unfold carry31. assert (HB : Z.land h 0x80000000 = 2 ^ 31 * (h / 2 ^ 31)).
  { change 0x80000000 with (2 ^ 31). rewrite <- (Z.shiftr_div_pow2 h 31), Z.mul_comm, <- Z.shiftl_mul_pow2 by lia. apply Z.bits_inj'. intros n Hn.
    rewrite Z.land_spec, Z.pow2_bits_eqb, Z.shiftl_spec by lia. destruct (Z.eqb_spec 31 n) as [<-|Hne]; [rewrite Z.shiftr_spec by lia; apply andb_true_r|].
    rewrite andb_false_r. symmetry. destruct (decide (n < 31)); [by apply Z.testbit_neg_r; lia|].
    rewrite Z.shiftr_spec by lia. apply (in_u_testbit 32 h); [lia|done|lia]. }
  rewrite HB. pose proof (Z.div_mod h (2 ^ 31) ltac:(lia)). pose proof (Z.mod_pos_bound h (2 ^ 31) ltac:(lia)). destruct Hh.
  assert (h / 2 ^ 31 = 0 \/ h / 2 ^ 31 = 1) as [E|E] by (assert (0 <= h / 2 ^ 31 < 2) by (split; [apply Z.div_pos; lia|apply Z.div_lt_upper_bound; lia]); lia);
    rewrite E in *; [rewrite decide_False by lia; lia|]. rewrite decide_True by lia. rewrite u32_small by (unfold in_u; lia). lia.
Qed.

Lemma hack_loop_eq flag name : forall h0 h1, hack_loop flag name h0 h1 = (fold_left (legacy_step flag) name (h0, h1)).1.
Proof. induction name as [|c name IH]; intros h0 h1; cbn [hack_loop fold_left]; [done|]. rewrite carry31_eq by apply u32_range. apply IH. Qed.

Lemma legacy_eq flag name : dx_hack_hash name flag = ref_legacy flag name.
Proof. unfold dx_hack_hash, ref_legacy. rewrite hack_loop_eq, u32_shift by lia. f_equal. lia. Qed.

(** ** Words and blocks *)

Lemma pad_check : forallb (fun n => bool_decide (Z.lor (Z.lor (u32 n) (u32 (Z.shiftl (u32 n) 8))) (u32 (Z.shiftl (Z.lor (u32 n) (u32 (Z.shiftl (u32 n) 8))) 16))
  = 0x01010101 * n) && bool_decide (u32 (0x01010101 * n) = 0x01010101 * n)) (seqZ 0 256) = true.
Proof. vm_compute. reflexivity. Qed.

Lemma digit_eq flag c v : u32 (char_of flag c + u32 (Z.shiftl (u32 v) 8)) = u32 (256 * v + char_of flag c).
Proof. rewrite u32_shift by lia. rewrite u32_absorb, Z.add_comm. unfold u32. by rewrite <- Zplus_mod_idemp_l, Zmult_mod_idemp_l, Zplus_mod_idemp_l, Z.mul_comm. Qed.

(** What the loop and the two statements after it write, from a word boundary on. *)
Definition tail_words (r : Z * Z * list Z) (pad : Z) : list Z :=
  let '(val, num, buf) := r in
  (if decide (num - 1 >= 0) then buf ++ [val] else buf) ++ replicate (Z.to_nat (num - 1)) pad.

Lemma rest_padded flag pad n : u32 pad = pad -> forall i, map (fun k => ref_word flag pad (take 4 (drop (4 * k) []))) (seq i n) = replicate n pad.
Proof.
  intros Hp. induction n as [|n IH]; intros i; [done|]. cbn [seq map replicate]. rewrite IH, drop_nil. unfold ref_word. cbn. by rewrite Hp.
Qed.

Lemma short_words flag pad n msg : u32 pad = pad -> (length msg < 4)%nat ->
  map (fun k => ref_word flag pad (take 4 (drop (4 * k) msg))) (seq 0 (S n)) = ref_word flag pad msg :: replicate n pad.
Proof.
  intros Hp Hm. cbn [seq map]. rewrite drop_0, take_ge by lia. f_equal. rewrite <- (rest_padded flag pad n Hp 1). apply map_ext_in.
  intros k Hk%in_seq. rewrite !drop_ge by (cbn; lia). done.
Qed.

Lemma buf_loop_eq flag pad n : u32 pad = pad -> forall msg i buf, i mod 4 = 0 -> (length msg <= 4 * n)%nat ->
  tail_words (buf_loop flag msg i pad pad (Z.of_nat n) buf) pad = buf ++ map (fun k => ref_word flag pad (take 4 (drop (4 * k) msg))) (seq 0 n).
Proof.
  intros Hp. induction n as [|n IH]; intros msg i buf Hi Hm.
  { destruct msg; [|cbn in Hm; lia]. cbn. by rewrite decide_False, !app_nil_r by lia. }
  assert (H1 : (i + 1) mod 4 = 1) by (rewrite Z.add_mod, Hi by lia; done).
  assert (H2 : (i + 1 + 1) mod 4 = 2) by (rewrite Z.add_mod, H1 by lia; done).
  assert (H3 : (i + 1 + 1 + 1) mod 4 = 3) by (rewrite Z.add_mod, H2 by lia; done).
  assert (H4 : (i + 1 + 1 + 1 + 1) mod 4 = 0) by (rewrite Z.add_mod, H3 by lia; done).
  assert (HD : forall c v, u32 (char_of flag c + u32 (Z.shiftl (u32 v) 8)) = u32 (256 * v + char_of flag c)) by (intros; apply digit_eq).
  assert (HS : forall l v, (length l < 4)%nat -> v = ref_word flag pad l ->
    tail_words (v, Z.of_nat (S n), buf) pad = buf ++ map (fun k => ref_word flag pad (take 4 (drop (4 * k) l))) (seq 0 (S n))).
  { intros l v Hl ->. rewrite short_words by done. cbn [tail_words]. rewrite decide_True by lia. rewrite <- app_assoc. cbn [app]. do 3 f_equal. lia. }
  rewrite <- Hp at 2.
  destruct msg as [|c1 [|c2 [|c3 [|c4 msg]]]]; cbn [buf_loop]; rewrite ?Hi, ?H1, ?H2, ?H3, ?HD;
    repeat (rewrite decide_False by discriminate); try (apply HS; [cbn; lia|]; done).
  rewrite decide_True by done. rewrite ?HD. replace (Z.of_nat (S n) - 1) with (Z.of_nat n) by lia. rewrite IH by (done || cbn [length] in Hm; lia).
  rewrite <- app_assoc. f_equal. cbn [app seq map]. f_equal. rewrite <- (seq_shift n 0), map_map. apply map_ext. intros k.
  replace (4 * S k)%nat with (S (S (S (S (4 * k))))) by lia. done.
Qed.

Lemma str2hashbuf_eq flag num msg : Z.of_nat (length msg) < 256 -> str2hashbuf msg (Z.of_nat num) flag = ref_words flag num msg.
Proof.
  intros Hl. unfold str2hashbuf. cbv zeta. set (len := Z.of_nat (length msg)) in *.
  assert (Hin : In len (seqZ 0 256)) by (apply list_elem_of_In, elem_of_seqZ; lia).
  pose proof (proj1 (forallb_forall _ _) pad_check len Hin) as HP. rewrite andb_true_iff, !bool_decide_eq_true in HP. destruct HP as [-> HP].
  change (0x01010101 * len) with (ref_pad msg) in *. set (l := if decide _ then _ else _). unfold ref_words.
  pose proof (buf_loop_eq flag (ref_pad msg) num HP (take (Z.to_nat l) msg) 0 [] eq_refl) as HB. unfold tail_words in HB.
  destruct (buf_loop _ _ _ _ _ _ _) as [[v n] out]. assert (Hlen : len = Z.of_nat (length msg)) by done.
  rewrite HB by (rewrite length_take; unfold l; destruct (decide (len > _)); lia). cbn [app].
  apply map_ext_in. intros k Hk%in_seq. f_equal. unfold l. destruct (decide (len > Z.of_nat num * 4)) as [Hgt|].
  - rewrite skipn_firstn_comm, take_take. f_equal. lia.
  - rewrite (take_ge msg) by lia. done.
Qed.

Lemma fold_left_shift {A} (f : A -> nat -> A) l : forall a, fold_left f (map S l) a = fold_left (fun a x => f a (S x)) l a.
Proof. induction l as [|x l IH]; intros a; cbn; [done|apply IH]. Qed.

Lemma fold_left_ext_in {A B} (f g : A -> B -> A) l : (forall a x, f a x = g a x) -> forall a, fold_left f l a = fold_left g l a.
Proof. intros H. induction l as [|x l IH]; intros a; cbn; [done|]. by rewrite H. Qed.

Lemma hash_blocks_eq (T T' : list Z -> list Z -> list Z) flag step : (forall buf inp, T buf inp = T' buf inp) -> (0 < step)%nat -> (step mod 4 = 0)%nat ->
  forall fuel name buf, (length name <= fuel)%nat -> Z.of_nat (length name) < 256 ->
  hash_blocks fuel step T (Z.of_nat (step / 4)) flag name buf = ref_blocks T' step flag name buf.
Proof.
  intros HT Hs H4. induction fuel as [|fuel IH]; intros name buf Hn Hl; cbn [hash_blocks]; unfold ref_blocks.
  { destruct name; [|cbn in Hn; lia]. cbn [length]. rewrite (Nat.div_small (0 + step - 1)) by lia. done. }
  destruct name as [|c name']; [cbn [length]; rewrite (Nat.div_small (0 + step - 1)) by lia; done|]. set (name := c :: name') in *.
  assert (Hpos : (0 < length name)%nat) by (cbn; lia). rewrite HT, str2hashbuf_eq by done.
  rewrite IH by (rewrite length_drop; lia). unfold ref_blocks. rewrite length_drop.
  assert (HQ : ((length name + step - 1) / step = S ((length name - step + step - 1) / step))%nat).
  { destruct (decide (length name <= step)%nat).
    - rewrite (Nat.div_small (length name - step + step - 1)) by lia. symmetry. apply (Nat.div_unique _ _ _ (length name - 1)); lia.
    - replace (length name + step - 1)%nat with (length name - step + step - 1 + 1 * step)%nat by lia. rewrite Nat.div_add by lia. lia. }
  rewrite HQ. cbn [seq fold_left]. rewrite Nat.mul_0_r, drop_0, <- (seq_shift _ 0). rewrite fold_left_shift.
  apply fold_left_ext_in. intros b j. rewrite drop_drop. do 4 f_equal. lia.
Qed.

(** * Properties *)

(** C39: [ext2fs_dirhash] computes the reference for every version number, seed and name of at
    most 255 bytes (the length of a directory entry's name is a byte): the unrolled rounds, the
    in-place sums, the shift-and-add packing and the loop over a moving pointer are the table-driven
    MD4 of RFC 1320 cut down to eight words, sixteen cycles of TEA in Davies-Meyer mode, base-256
    digits over a padding of the length, and the legacy recurrence with its end-around carry; the
    lowest bit of the hash is dropped, and a version that is not 0 to 5 is refused. *)
Theorem dirhash_reference version name seed :
  Z.of_nat (length name) < 256 -> ext2fs_dirhash version name seed = ref_dirhash version name seed.
Proof.
  intros Hn. unfold ext2fs_dirhash, ref_dirhash. cbv zeta.
  set (buf := match seed with Some s => if bool_decide (Forall _ _) then _ else _ | None => _ end).
  set (buf' := match seed with Some s => if bool_decide (Exists _ _) then _ else _ | None => _ end).
  assert (HB : buf' = buf).
  { unfold buf, buf', default_seed. destruct seed as [s|]; [|done]. destruct (bool_decide (Forall (fun w => w = 0) (take 4 s))) eqn:E.
    - apply bool_decide_eq_true in E. rewrite bool_decide_eq_false_2; [done|]. rewrite Exists_exists. intros (x & Hx & Hne). by rewrite (proj1 (Forall_forall _ _) E x Hx) in Hne.
    - apply bool_decide_eq_false in E. rewrite bool_decide_eq_true_2; [done|]. apply not_Forall_Exists in E; [|apply _]. exact E. }
  rewrite HB. clearbody buf. clear buf' HB.
  assert (HE : forall z, Z.land z (Z.lnot 1) = 2 * (z / 2)).
  { intros z. rewrite <- Z.ldiff_land. change 1 with (Z.ones 1). rewrite Z.ldiff_ones_r, Z.shiftl_mul_pow2, Z.shiftr_div_pow2 by lia. change (2 ^ 1) with 2. lia. }
  pose proof (fun flag => hash_blocks_eq _ _ flag 32 half_md4_eq ltac:(lia) eq_refl (length name) name buf ltac:(lia) Hn) as HM.
  pose proof (fun flag => hash_blocks_eq _ _ flag 16 tea_eq ltac:(lia) eq_refl (length name) name buf ltac:(lia) Hn) as HT.
  change (Z.of_nat (32 / 4)) with 8 in HM. change (Z.of_nat (16 / 4)) with 4 in HT. rewrite !HM, !HT, !legacy_eq, !HE.
  unfold EXT2_HASH_LEGACY, EXT2_HASH_HALF_MD4, EXT2_HASH_TEA, EXT2_HASH_LEGACY_UNSIGNED, EXT2_HASH_HALF_MD4_UNSIGNED, EXT2_HASH_TEA_UNSIGNED.
  destruct (decide (0 <= version <= 5)) as [Hv|Hv].
  - assert (version = 0 \/ version = 1 \/ version = 2 \/ version = 3 \/ version = 4 \/ version = 5) as Hc by lia.
    destruct Hc as [->|[->|[->|[->|[->| ->]]]]]; reflexivity.
  - rewrite !(decide_False (P := version = _)) by lia. by destruct (version mod 3) as [|[]|].
Qed.

(** A name of two blocks, with a byte above 127. *)
Lemma dirhash_reference_witness :
  let name := replicate 30 97 ++ [228; 98; 99; 100; 101] in
  ext2fs_dirhash 1 name None = (0, 2 * ((ext2fs_dirhash 1 name None).1.2 / 2), (ref_dirhash 1 name None).2) /\ ext2fs_dirhash 5 name (Some [1; 2; 3; 4]) = ref_dirhash 5 name (Some [1; 2; 3; 4]).
Proof.
  cbv zeta. split; [rewrite (dirhash_reference 1 _ None) by (vm_compute; reflexivity); vm_compute; reflexivity|].
  apply dirhash_reference. vm_compute. reflexivity.
Defined.

(** For bytes below 128 it does not matter whether [char] is signed. *)
Lemma char_ascii c : c < 128 -> char_of true c = char_of false c.
Proof. intros Hc. unfold char_of. by rewrite decide_True. Qed.

Lemma hack_ascii name : Forall (fun c => c < 128) name -> forall h0 h1, hack_loop true name h0 h1 = hack_loop false name h0 h1.
Proof. induction 1 as [|c name Hc _ IH]; intros h0 h1; cbn [hack_loop]; [done|]. by rewrite char_ascii, IH. Qed.

Lemma buf_ascii msg : Forall (fun c => c < 128) msg -> forall i pad val num buf, buf_loop true msg i pad val num buf = buf_loop false msg i pad val num buf.
Proof. induction 1 as [|c msg Hc _ IH]; intros i pad val num buf; cbn [buf_loop]; [done|]. rewrite char_ascii by done. destruct (decide _); apply IH. Qed.

Lemma str_ascii msg num : Forall (fun c => c < 128) msg -> str2hashbuf msg num true = str2hashbuf msg num false.
Proof. intros Hm. unfold str2hashbuf. cbv zeta. by rewrite buf_ascii by (by apply Forall_take). Qed.

Lemma blocks_ascii step transform num fuel : forall p buf, Forall (fun c => c < 128) p -> hash_blocks fuel step transform num true p buf = hash_blocks fuel step transform num false p buf.
Proof.
  induction fuel as [|fuel IH]; intros p buf Hp; cbn [hash_blocks]; [done|]. destruct p as [|c p]; [done|]. rewrite str_ascii by done. apply IH. by apply Forall_drop.
Qed.

(** For names of ASCII characters the hash does not depend on whether characters are signed:
    each version returns what its unsigned variant returns, so that a directory indexed on one kind of
    machine is read right on another. *)
Theorem dirhash_ascii version name seed :
  0 <= version <= 2 -> Forall (fun c => c < 128) name -> ext2fs_dirhash (version + 3) name seed = ext2fs_dirhash version name seed.
Proof.
  intros Hv Hn. assert (Hc : version = 0 \/ version = 1 \/ version = 2) by lia. unfold ext2fs_dirhash, dx_hack_hash. cbv zeta.
  destruct Hc as [->|[->| ->]]; repeat ((rewrite decide_True by done) || (rewrite decide_False by done)); [by rewrite hack_ascii|by rewrite blocks_ascii|by rewrite blocks_ascii].
Qed.

(** A name with a byte above 127, for which they differ. *)
Example dirhash_signed : (ext2fs_dirhash EXT2_HASH_TEA [228] None).1.2 <> (ext2fs_dirhash EXT2_HASH_TEA_UNSIGNED [228] None).1.2.
Proof. vm_compute. congruence. Qed.

Lemma dirhash_ascii_witness : ext2fs_dirhash 5 [97; 98; 99] None = ext2fs_dirhash 2 [97; 98; 99] None.
Proof. apply (dirhash_ascii 2 [97; 98; 99] None); [lia|repeat constructor]. Defined.
