(* ===== verification/Jbd.v ===== *)
(** The on-disk format and the in-memory structures of the ext3 journal:
    [rfsck-ext/lib/ext2fs/kernel-jbd.h], [jfs_compat.h] and [rfsck-ext/e2fsck/jfs_user.h].

    Blocks are lists of bytes; the fields of the on-disk structures are read and written at
    their offsets, in big-endian order. *)
From Stdlib Require Import ZArith Lia.
From stdpp Require Import base tactics numbers list gmap.
From S2P Require Import Prelude Crc32c ExtErr.

(** * Big-endian integers *)

Definition be_bytes (n : nat) (z : Z) : list Z := rev (le_bytes n z).

(** [ret = (ret << 8) + *cp++], as in [get_be32] and [get_be16]; [ntohl] is the same. *)
Definition be_val (l : list Z) : Z := foldl (fun ret b => ret * 256 + b mod 256) 0 l.

Definition be16_at (off : Z) (buf : list Z) : Z := be_val (zslice off 2 buf).
Definition be32_at (off : Z) (buf : list Z) : Z := be_val (zslice off 4 buf).
Definition be64_at (off : Z) (buf : list Z) : Z := be_val (zslice off 8 buf).
Definition byte_at (off : Z) (buf : list Z) : Z := be_val (zslice off 1 buf).
Definition set_be32 (off v : Z) (buf : list Z) : list Z := zsplice off (be_bytes 4 v) buf.

#[global] Arguments be16_at : simpl never.
#[global] Arguments be32_at : simpl never.
#[global] Arguments be64_at : simpl never.
#[global] Arguments byte_at : simpl never.
#[global] Arguments set_be32 : simpl never.

Definition get_be32 (off : Z) (buf : list Z) : Z := be32_at off buf.
Definition get_be16 (off : Z) (buf : list Z) : Z := be16_at off buf.

(** * Constants *)

Definition JFS_MAGIC_NUMBER : Z := 0xc03b3998.
Definition JFS_DESCRIPTOR_BLOCK : Z := 1.
Definition JFS_COMMIT_BLOCK : Z := 2.
Definition JFS_SUPERBLOCK_V1 : Z := 3.
Definition JFS_SUPERBLOCK_V2 : Z := 4.
Definition JFS_REVOKE_BLOCK : Z := 5.

Definition JFS_CRC32_CHKSUM : Z := 1.
Definition JBD2_CRC32C_CHKSUM : Z := 4.
Definition JFS_CRC32_CHKSUM_SIZE : Z := 4.

Definition JFS_FLAG_ESCAPE : Z := 1.
Definition JFS_FLAG_SAME_UUID : Z := 2.
Definition JFS_FLAG_LAST_TAG : Z := 8.

Definition JFS_FEATURE_COMPAT_CHECKSUM : Z := 0x1.
Definition JFS_FEATURE_INCOMPAT_REVOKE : Z := 0x1.
Definition JFS_FEATURE_INCOMPAT_64BIT : Z := 0x2.
Definition JFS_FEATURE_INCOMPAT_ASYNC_COMMIT : Z := 0x4.
Definition JFS_FEATURE_INCOMPAT_CSUM_V2 : Z := 0x8.
Definition JFS_FEATURE_INCOMPAT_CSUM_V3 : Z := 0x10.
Definition JFS_KNOWN_INCOMPAT_FEATURES : Z := 0x1f.
Definition JFS_KNOWN_ROCOMPAT_FEATURES : Z := 0.

Definition JFS_MIN_JOURNAL_BLOCKS : Z := 1024.

(** Sizes of the structures. *)
Definition sizeof_journal_header : Z := 12.
Definition sizeof_journal_revoke_header : Z := 16.
Definition sizeof_journal_block_tag : Z := 12.
Definition sizeof_journal_block_tag3 : Z := 16.
Definition sizeof_journal_block_tail : Z := 4.
Definition sizeof_journal_revoke_tail : Z := 4.
Definition sizeof_journal_superblock : Z := 1024.

(** Offsets in [journal_header_t], [commit_header] and [journal_superblock_t]. *)
Definition off_h_magic : Z := 0.
Definition off_h_blocktype : Z := 4.
Definition off_h_sequence : Z := 8.
Definition off_r_count : Z := 12.
Definition off_h_chksum_type : Z := 12.
Definition off_h_chksum_size : Z := 13.
Definition off_h_chksum : Z := 16.
Definition off_s_blocksize : Z := 0x0c.
Definition off_s_maxlen : Z := 0x10.
Definition off_s_first : Z := 0x14.
Definition off_s_sequence : Z := 0x18.
Definition off_s_start : Z := 0x1c.
Definition off_s_errno : Z := 0x20.
Definition off_s_feature_compat : Z := 0x24.
Definition off_s_feature_incompat : Z := 0x28.
Definition off_s_feature_ro_compat : Z := 0x2c.
Definition off_s_uuid : Z := 0x30.
Definition off_s_nr_users : Z := 0x40.
Definition off_s_checksum_type : Z := 0x50.
Definition off_s_checksum : Z := 0xfc.

(** * Devices and buffers *)

(** [K_DEV_FS] and [K_DEV_JOURNAL] *)
Inductive kdev := K_DEV_FS | K_DEV_JOURNAL.
#[global] Instance kdev_eq_dec : EqDecision kdev.
Proof. solve_decision. Defined.

Record buffer_head := mkBh {
  b_dev : kdev;              (* which of the two channels [b_io] is *)
  b_size : Z;
  b_err : Z;
  b_dirty : bool;
  b_uptodate : bool;
  b_blocknr : Z;
  b_data : list Z
}.

Definition bh_set_data (d : list Z) (bh : buffer_head) : buffer_head :=
  mkBh (b_dev bh) (b_size bh) (b_err bh) (b_dirty bh) (b_uptodate bh) (b_blocknr bh) d.
Definition bh_set_err (e : Z) (bh : buffer_head) : buffer_head :=
  mkBh (b_dev bh) (b_size bh) e (b_dirty bh) (b_uptodate bh) (b_blocknr bh) (b_data bh).
Definition mark_buffer_dirty (bh : buffer_head) : buffer_head :=
  mkBh (b_dev bh) (b_size bh) (b_err bh) true (b_uptodate bh) (b_blocknr bh) (b_data bh).
Definition mark_buffer_clean (bh : buffer_head) : buffer_head :=
  mkBh (b_dev bh) (b_size bh) (b_err bh) false (b_uptodate bh) (b_blocknr bh) (b_data bh).
Definition mark_buffer_uptodate (val : bool) (bh : buffer_head) : buffer_head :=
  mkBh (b_dev bh) (b_size bh) (b_err bh) (b_dirty bh) val (b_blocknr bh) (b_data bh).

(** [getblk]: the memory of [e2fsck_allocate_memory] is zero, and when there is none it does
    not return. *)
Definition getblk (kdev : kdev) (blocknr blocksize : Z) : buffer_head :=
  mkBh kdev blocksize 0 false false blocknr (replicate (Z.to_nat blocksize) 0).

(** * The revoke table and the journal *)

Record jbd2_revoke_record := mkRecord { r_sequence : Z; r_blocknr : Z }.

Record jbd2_revoke_table := mkTable {
  hash_size : Z;
  hash_shift : Z;
  hash_table : list (list jbd2_revoke_record)
}.

(** [journal_t], with the fields the checker uses.  [j_superblock] is the data of
    [j_sb_buffer].  [j_bmap] is [ext2fs_bmap2] on [j_inode], or [None] when there is no inode:
    an error code and a block.  [j_revoke] is the table in use, [j_revoke_table[1]]. *)
Record journal := mkJournal {
  j_sb_buffer : buffer_head;
  j_format_version : Z;
  j_tail : Z;
  j_first : Z;
  j_last : Z;
  j_blocksize : Z;
  j_maxlen : Z;
  j_bmap : option (Z -> Z * Z);
  j_tail_sequence : Z;
  j_transaction_sequence : Z;
  j_revoke : option jbd2_revoke_table;
  j_failed_commit : Z;
  j_csum_seed : Z
}.

Definition j_superblock (j : journal) : list Z := b_data (j_sb_buffer j).

Definition j_set_sb_buffer (bh : buffer_head) (j : journal) : journal :=
  mkJournal bh (j_format_version j) (j_tail j) (j_first j) (j_last j) (j_blocksize j) (j_maxlen j)
    (j_bmap j) (j_tail_sequence j) (j_transaction_sequence j) (j_revoke j) (j_failed_commit j)
    (j_csum_seed j).
Definition j_set_superblock (sb : list Z) (j : journal) : journal :=
  j_set_sb_buffer (bh_set_data sb (j_sb_buffer j)) j.
Definition j_set_format_version (v : Z) (j : journal) : journal :=
  mkJournal (j_sb_buffer j) v (j_tail j) (j_first j) (j_last j) (j_blocksize j) (j_maxlen j)
    (j_bmap j) (j_tail_sequence j) (j_transaction_sequence j) (j_revoke j) (j_failed_commit j)
    (j_csum_seed j).
Definition j_set_tail (t : Z) (j : journal) : journal :=
  mkJournal (j_sb_buffer j) (j_format_version j) t (j_first j) (j_last j) (j_blocksize j) (j_maxlen j)
    (j_bmap j) (j_tail_sequence j) (j_transaction_sequence j) (j_revoke j) (j_failed_commit j)
    (j_csum_seed j).
Definition j_set_log (tail first last : Z) (j : journal) : journal :=
  mkJournal (j_sb_buffer j) (j_format_version j) tail first last (j_blocksize j) (j_maxlen j)
    (j_bmap j) (j_tail_sequence j) (j_transaction_sequence j) (j_revoke j) (j_failed_commit j)
    (j_csum_seed j).
Definition j_set_maxlen (m : Z) (j : journal) : journal :=
  mkJournal (j_sb_buffer j) (j_format_version j) (j_tail j) (j_first j) (j_last j) (j_blocksize j) m
    (j_bmap j) (j_tail_sequence j) (j_transaction_sequence j) (j_revoke j) (j_failed_commit j)
    (j_csum_seed j).
Definition j_set_tail_sequence (s : Z) (j : journal) : journal :=
  mkJournal (j_sb_buffer j) (j_format_version j) (j_tail j) (j_first j) (j_last j) (j_blocksize j) (j_maxlen j)
    (j_bmap j) s (j_transaction_sequence j) (j_revoke j) (j_failed_commit j) (j_csum_seed j).
Definition j_set_transaction_sequence (s : Z) (j : journal) : journal :=
  mkJournal (j_sb_buffer j) (j_format_version j) (j_tail j) (j_first j) (j_last j) (j_blocksize j) (j_maxlen j)
    (j_bmap j) (j_tail_sequence j) s (j_revoke j) (j_failed_commit j) (j_csum_seed j).
Definition j_set_revoke (t : option jbd2_revoke_table) (j : journal) : journal :=
  mkJournal (j_sb_buffer j) (j_format_version j) (j_tail j) (j_first j) (j_last j) (j_blocksize j) (j_maxlen j)
    (j_bmap j) (j_tail_sequence j) (j_transaction_sequence j) t (j_failed_commit j) (j_csum_seed j).
Definition j_set_failed_commit (c : Z) (j : journal) : journal :=
  mkJournal (j_sb_buffer j) (j_format_version j) (j_tail j) (j_first j) (j_last j) (j_blocksize j) (j_maxlen j)
    (j_bmap j) (j_tail_sequence j) (j_transaction_sequence j) (j_revoke j) c (j_csum_seed j).
Definition j_set_csum_seed (c : Z) (j : journal) : journal :=
  mkJournal (j_sb_buffer j) (j_format_version j) (j_tail j) (j_first j) (j_last j) (j_blocksize j) (j_maxlen j)
    (j_bmap j) (j_tail_sequence j) (j_transaction_sequence j) (j_revoke j) (j_failed_commit j) c.

(** * Features *)

(** [JFS_HAS_COMPAT_FEATURE] and its two siblings, and the predicates made from them. *)
Definition JFS_HAS_COMPAT_FEATURE (j : journal) (mask : Z) : bool :=
  bool_decide (2 <= j_format_version j) &&
  negb (bool_decide (Z.land (be32_at off_s_feature_compat (j_superblock j)) mask = 0)).
Definition JFS_HAS_RO_COMPAT_FEATURE (j : journal) (mask : Z) : bool :=
  bool_decide (2 <= j_format_version j) &&
  negb (bool_decide (Z.land (be32_at off_s_feature_ro_compat (j_superblock j)) mask = 0)).
Definition JFS_HAS_INCOMPAT_FEATURE (j : journal) (mask : Z) : bool :=
  bool_decide (2 <= j_format_version j) &&
  negb (bool_decide (Z.land (be32_at off_s_feature_incompat (j_superblock j)) mask = 0)).

Definition jfs_has_feature_checksum (j : journal) : bool :=
  JFS_HAS_COMPAT_FEATURE j JFS_FEATURE_COMPAT_CHECKSUM.
Definition jfs_has_feature_64bit (j : journal) : bool :=
  JFS_HAS_INCOMPAT_FEATURE j JFS_FEATURE_INCOMPAT_64BIT.
Definition jfs_has_feature_async_commit (j : journal) : bool :=
  JFS_HAS_INCOMPAT_FEATURE j JFS_FEATURE_INCOMPAT_ASYNC_COMMIT.
Definition jfs_has_feature_csum2 (j : journal) : bool :=
  JFS_HAS_INCOMPAT_FEATURE j JFS_FEATURE_INCOMPAT_CSUM_V2.
Definition jfs_has_feature_csum3 (j : journal) : bool :=
  JFS_HAS_INCOMPAT_FEATURE j JFS_FEATURE_INCOMPAT_CSUM_V3.

Definition journal_tag_bytes (j : journal) : Z :=
  if jfs_has_feature_csum3 j then sizeof_journal_block_tag3
  else
    let sz := sizeof_journal_block_tag in
    let sz := if jfs_has_feature_csum2 j then sz + 2 else sz in
    if jfs_has_feature_64bit j then sz else sz - 4.

Definition journal_has_csum_v2or3 (j : journal) : bool :=
  jfs_has_feature_csum2 j || jfs_has_feature_csum3 j.

(** [jbd2_chksum]; the address only matters to the alignment of the table-driven loop. *)
Definition jbd2_chksum (crc : Z) (p : list Z) : Z := ext2fs_crc32c_le 0 crc p.

(** Transaction identifiers compare modulo 2^32. *)
Definition tid_gt (x y : Z) : bool := bool_decide (0 < s32 (x - y)).
Definition tid_geq (x y : Z) : bool := bool_decide (0 <= s32 (x - y)).

(** [hash_64] on a 64-bit machine *)
Definition GOLDEN_RATIO_64 : Z := 0x61C8864680B583EB.
Definition hash_64 (val bits : Z) : Z := u32 (Z.shiftr (u64 (val * GOLDEN_RATIO_64)) (64 - bits)).

(** * Lemmas *)

Lemma be_val_foldl (r : Z) l :
  foldl (fun ret b => ret * 256 + b mod 256) r l = r * 256 ^ Z.of_nat (length l) + be_val l.
Proof.
  unfold be_val. revert r. induction l as [|b l IH]; intros r; cbn [foldl length].
  - rewrite Z.pow_0_r. lia.
  - rewrite IH, (IH (0 * 256 + _)). rewrite Nat2Z.inj_succ, Z.pow_succ_r by lia. lia.
Qed.

Lemma be_val_app l1 l2 : be_val (l1 ++ l2) = be_val l1 * 256 ^ Z.of_nat (length l2) + be_val l2.
Proof. unfold be_val at 1. rewrite foldl_app. apply be_val_foldl. Qed.

Lemma be_val_rev l : be_val (rev l) = le_val l.
Proof.
  induction l as [|b l IH]; [done|]. cbn [rev le_val]. rewrite be_val_app, IH. cbn. lia.
Qed.

Lemma be_val_bytes n z : be_val (be_bytes n z) = z mod 2 ^ (8 * Z.of_nat n).
Proof. unfold be_bytes. by rewrite be_val_rev, le_val_bytes. Qed.

Lemma be_val_range l : 0 <= be_val l < 2 ^ (8 * Z.of_nat (length l)).
Proof.
  rewrite <- (rev_involutive l), be_val_rev, length_rev. apply le_val_range.
Qed.

Lemma length_be_bytes n z : length (be_bytes n z) = n.
Proof. unfold be_bytes. by rewrite length_rev, length_le_bytes. Qed.

Lemma zlen_be_bytes n z : zlen (be_bytes n z) = Z.of_nat n.
Proof. unfold zlen. by rewrite length_be_bytes. Qed.

#[local] Transparent zslice zsplice.
Lemma zslice_length_le o n l : Z.of_nat (length (zslice o n l)) <= Z.max 0 n.
Proof. unfold zslice. rewrite length_slice. lia. Qed.
#[local] Opaque zslice zsplice.

Lemma be32_at_range off buf : in_u 32 (be32_at off buf).
Proof.
  unfold in_u, be32_at. pose proof (be_val_range (zslice off 4 buf)) as H.
  pose proof (zslice_length_le off 4 buf) as Hl. split; [lia|].
  eapply Z.lt_le_trans; [apply H|]. apply Z.pow_le_mono_r; lia.
Qed.

Lemma be16_at_range off buf : in_u 16 (be16_at off buf).
Proof.
  unfold in_u, be16_at. pose proof (be_val_range (zslice off 2 buf)) as H.
  pose proof (zslice_length_le off 2 buf) as Hl. split; [lia|].
  eapply Z.lt_le_trans; [apply H|]. apply Z.pow_le_mono_r; lia.
Qed.

Lemma be32_set_eq off v buf : be32_at off (set_be32 off v buf) = u32 v.
Proof.
  unfold be32_at, set_be32. rewrite zslice_zsplice_eq by apply zlen_be_bytes. apply be_val_bytes.
Qed.

Lemma be32_set_ne off off' v buf :
  0 <= off -> 0 <= off' -> off' + 4 <= zlen buf -> off' + 4 <= off \/ off + 4 <= off' ->
  be32_at off' (set_be32 off v buf) = be32_at off' buf.
Proof.
  intros. unfold be32_at, set_be32. rewrite zslice_zsplice_disjoint; try done; rewrite ?zlen_be_bytes; lia.
Qed.

Lemma zlen_set_be32 off v buf : 0 <= off -> off + 4 <= zlen buf -> zlen (set_be32 off v buf) = zlen buf.
Proof. intros. unfold set_be32. rewrite zlen_splice, zlen_be_bytes by lia. lia. Qed.

#[export] Hint Resolve be32_at_range be16_at_range : machine.
#[export] Hint Rewrite be32_set_eq length_be_bytes zlen_be_bytes : machine.

(** Identifiers counted from a common origin compare like their counts, as long as the
    counts stay within half of the cycle. *)
Lemma tid_gt_window id a b :
  - 2 ^ 31 < a - b < 2 ^ 31 -> tid_gt (u32 (id + a)) (u32 (id + b)) = bool_decide (b < a).
Proof. intros H. unfold tid_gt. apply bool_decide_ext. revert H. mlia. Qed.

Lemma tid_geq_window id a b :
  - 2 ^ 31 < a - b < 2 ^ 31 -> tid_geq (u32 (id + a)) (u32 (id + b)) = bool_decide (b <= a).
Proof. intros H. unfold tid_geq. apply bool_decide_ext. revert H. mlia. Qed.

Lemma u32_window id a b :
  - 2 ^ 31 < a - b < 2 ^ 31 -> u32 (id + a) = u32 (id + b) -> a = b.
Proof. mlia. Qed.

Lemma hash_64_range val bits : 0 <= bits <= 32 -> 0 <= hash_64 val bits < 2 ^ bits.
Proof.
  intros Hb. unfold hash_64. pose proof (u64_range (val * GOLDEN_RATIO_64)) as [H0 H1].
  set (x := u64 _) in *. clearbody x.
  assert (Hs : 0 <= Z.shiftr x (64 - bits) < 2 ^ bits).
  { rewrite Z.shiftr_div_pow2 by lia. split; [apply Z.div_pos; [lia|apply Z.pow_pos_nonneg; lia]|].
    apply Z.div_lt_upper_bound; [apply Z.pow_pos_nonneg; lia|].
    rewrite <- Z.pow_add_r by lia. replace (64 - bits + bits) with 64 by lia. done. }
  rewrite u32_small; [done|]. split; [lia|]. eapply Z.lt_le_trans; [apply Hs|].
  apply Z.pow_le_mono_r; lia.
Qed.
