(* ===== verification/Revoke.v ===== *)
(** The revoke table of journal recovery: [rfsck-ext/e2fsck/revoke.c], the functions compiled
    outside the kernel.

    A bucket is the list of its records, newest first.  [insert_revoke_hash] retries an
    allocation until it succeeds ([journal_oom_retry] is 1), so it either inserts the record
    or does not return; the allocations of [journal_init_revoke] are arguments. *)
From Stdlib Require Import ZArith Lia.
From stdpp Require Import base tactics numbers list gmap.
From S2P Require Import Prelude Crc32c ExtErr Jbd.

Definition hash (t : jbd2_revoke_table) (block : Z) : Z := hash_64 block (hash_shift t).

Definition bucket (t : jbd2_revoke_table) (i : Z) : list jbd2_revoke_record :=
  default [] (hash_table t !! Z.to_nat i).
Definition set_bucket (i : Z) (l : list jbd2_revoke_record) (t : jbd2_revoke_table)
  : jbd2_revoke_table :=
  mkTable (hash_size t) (hash_shift t) (<[Z.to_nat i := l]> (hash_table t)).

Definition insert_revoke_hash (t : jbd2_revoke_table) (blocknr seq : Z) : jbd2_revoke_table :=
  let hash_list := hash t blocknr in
  set_bucket hash_list (mkRecord seq blocknr :: bucket t hash_list) t.

(** The walk along a bucket: the position of the record. *)
Fixpoint find_in_list (l : list jbd2_revoke_record) (blocknr : Z) (i : nat)
  : option (nat * jbd2_revoke_record) :=
  match l with
  | [] => None
  | record :: l' =>
      if decide (r_blocknr record = blocknr) then Some (i, record) else find_in_list l' blocknr (S i)
  end.

Definition find_revoke_record (t : jbd2_revoke_table) (blocknr : Z)
  : option (nat * jbd2_revoke_record) :=
  find_in_list (bucket t (hash t blocknr)) blocknr 0.

(** [while ((tmp >>= 1UL) != 0UL) shift++;] *)
Fixpoint shift_loop (fuel : nat) (tmp shift : Z) : Z :=
  match fuel with
  | O => shift
  | S fuel' =>
      let tmp := Z.shiftr tmp 1 in
      if decide (tmp <> 0) then shift_loop fuel' tmp (shift + 1) else shift
  end.

Definition journal_init_revoke_table (size : Z) (got_table got_buckets : bool)
  : option jbd2_revoke_table :=
  if got_table && got_buckets
  then Some (mkTable size (shift_loop 32 size 0) (replicate (Z.to_nat size) []))
  else None.

Definition is_power_of_2 (x : Z) : bool :=
  negb (bool_decide (x = 0)) && bool_decide (Z.land x (x - 1) = 0).

(** [journal_init_revoke]: the error, and the table that [j_revoke] points to; [None] when an
    assertion fails.  [mem] has the outcomes of the four allocations. *)
Definition journal_init_revoke (j : journal) (size : Z) (mem : bool * bool * (bool * bool))
  : option (Z * journal) :=
  if negb (is_power_of_2 size) then None
  else
    match journal_init_revoke_table size mem.1.1 mem.1.2 with
    | None => Some (- ENOMEM, j)
    | Some _ =>
        match journal_init_revoke_table size mem.2.1 mem.2.2 with
        | None => Some (- ENOMEM, j)
        | Some t => Some (0, j_set_revoke (Some t) j)
        end
    end.

(** [journal_destroy_revoke_table]: whether its assertions hold. *)
Definition journal_destroy_revoke_table (t : jbd2_revoke_table) : bool :=
  forallb (fun l => match l with [] => true | _ => false end) (take (Z.to_nat (hash_size t)) (hash_table t)).

(** [journal_set_revoke] *)
Definition journal_set_revoke (t : jbd2_revoke_table) (blocknr sequence : Z) : jbd2_revoke_table :=
  match find_revoke_record t blocknr with
  | Some (i, record) =>
      if tid_gt sequence (r_sequence record)
      then set_bucket (hash t blocknr)
             (<[i := mkRecord sequence (r_blocknr record)]> (bucket t (hash t blocknr))) t
      else t
  | None => insert_revoke_hash t blocknr sequence
  end.

(** [journal_test_revoke] *)
Definition journal_test_revoke (t : jbd2_revoke_table) (blocknr sequence : Z) : bool :=
  match find_revoke_record t blocknr with
  | None => false
  | Some (_, record) => if tid_gt sequence (r_sequence record) then false else true
  end.

(** [journal_clear_revoke]: the [for] loop over the buckets, from [i]; the inner loop deletes
    the head of a bucket until it is empty. *)
Fixpoint clear_loop (n : nat) (i : Z) (t : jbd2_revoke_table) : jbd2_revoke_table :=
  match n with
  | O => t
  | S n' => clear_loop n' (i + 1) (set_bucket i [] t)
  end.

Definition journal_clear_revoke (t : jbd2_revoke_table) : jbd2_revoke_table :=
  clear_loop (Z.to_nat (hash_size t)) 0 t.

(** * The table is a map from blocks to the last transaction that revoked them *)

Record table_ok (t : jbd2_revoke_table) : Prop := {
  tk_shift : 0 <= hash_shift t <= 30;
  tk_size : hash_size t = 2 ^ hash_shift t;
  tk_len : length (hash_table t) = Z.to_nat (hash_size t)
}.

(** What the table says of a block. *)
Definition revoked_at (t : jbd2_revoke_table) (b : Z) : option Z :=
  r_sequence ∘ snd <$> find_revoke_record t b.

Lemma find_in_list_spec l b k i r :
  find_in_list l b k = Some (i, r) ->
  exists n, i = (k + n)%nat /\ l !! n = Some r /\ r_blocknr r = b.
Proof.
  revert k. induction l as [|r' l IH]; intros k; cbn; [done|]. case_decide as Hb.
  - intros [= <- <-]. exists 0%nat. split_and!; [lia|done|done].
  - intros (n & -> & Hl & Hr)%IH. exists (S n). split_and!; [lia|done|done].
Qed.

Lemma find_in_list_shift l b k :
  find_in_list l b k = prod_map (Nat.add k) id <$> find_in_list l b 0.
Proof.
  revert k. induction l as [|r l IH]; intros k; cbn; [done|]. case_decide; cbn.
  - by rewrite Nat.add_0_r.
  - rewrite (IH (S k)), (IH 1%nat). destruct (find_in_list l b 0) as [[n r']|]; [|done]. cbn.
    do 2 f_equal. lia.
Qed.

Lemma find_in_list_insert l b b' n s r :
  l !! n = Some r -> r_blocknr r = b -> find_in_list l b 0 = Some (n, r) ->
  snd <$> find_in_list (<[n := mkRecord s b]> l) b' 0
  = if decide (b' = b) then Some (mkRecord s b) else snd <$> find_in_list l b' 0.
Proof.
  revert n. induction l as [|r' l IH]; intros n Hl Hr Hf; [done|].
  destruct n as [|n].
  - injection Hl as ->. cbn. destruct (decide (b' = b)) as [->|Hne].
    + by rewrite decide_True.
    + rewrite decide_False, decide_False by congruence. done.
  - cbn in Hl, Hf |- *. destruct (decide (r_blocknr r' = b)) as [Heq|Hneq]; [done|].
    rewrite find_in_list_shift in Hf.
    destruct (find_in_list l b 0) as [[m r'']|] eqn:Hfl; [|done].
    injection Hf as Hm <-. assert (m = n) as -> by lia.
    destruct (decide (r_blocknr r' = b')) as [<-|Hne'].
    + by rewrite decide_False.
    + rewrite find_in_list_shift, (find_in_list_shift l). specialize (IH n Hl Hr eq_refl).
      destruct (find_in_list (<[n:=_]> l) b' 0) as [[]|], (find_in_list l b' 0) as [[]|]; cbn in *; done.
Qed.

Section table.
Variable t : jbd2_revoke_table.
Hypothesis Hok : table_ok t.

Lemma hash_in_range b : 0 <= hash t b < hash_size t.
Proof.
  rewrite (tk_size _ Hok). apply hash_64_range. pose proof (tk_shift _ Hok). lia.
Qed.

Lemma hash_table_lookup i : 0 <= i < hash_size t -> is_Some (hash_table t !! Z.to_nat i).
Proof. intros. apply lookup_lt_is_Some. rewrite (tk_len _ Hok). lia. Qed.

Lemma bucket_set i l : 0 <= i < hash_size t -> bucket (set_bucket i l t) i = l.
Proof.
  intros Hi. unfold bucket, set_bucket. cbn. rewrite list_lookup_insert_eq; [done|].
  rewrite (tk_len _ Hok). lia.
Qed.

Lemma bucket_set_ne i j l : 0 <= i -> 0 <= j -> i <> j -> bucket (set_bucket i l t) j = bucket t j.
Proof. intros. unfold bucket, set_bucket. cbn. rewrite list_lookup_insert_ne by lia. done. Qed.

Lemma set_bucket_ok i l : table_ok (set_bucket i l t).
Proof. destruct Hok. split; cbn; [done..|]. by rewrite length_insert. Qed.

Lemma set_revoke_ok b s : table_ok (journal_set_revoke t b s).
Proof.
  unfold journal_set_revoke, insert_revoke_hash. destruct (find_revoke_record t b) as [[i r]|].
  - destruct (tid_gt _ _); [apply set_bucket_ok|done].
  - apply set_bucket_ok.
Qed.

Lemma revoked_set_bucket b b' l :
  revoked_at (set_bucket (hash t b) l t) b'
  = if decide (hash t b' = hash t b) then r_sequence ∘ snd <$> find_in_list l b' 0 else revoked_at t b'.
Proof.
  unfold revoked_at, find_revoke_record. change (hash (set_bucket (hash t b) l t)) with (hash t).
  pose proof (hash_in_range b). pose proof (hash_in_range b'). case_decide as Hh.
  - rewrite Hh, bucket_set by done. done.
  - rewrite bucket_set_ne by lia. done.
Qed.

(** A revoke is recorded under the later of its transaction and the one already there. *)
Lemma set_revoke_spec b b' s :
  revoked_at (journal_set_revoke t b s) b'
  = if decide (b' = b)
    then Some (match revoked_at t b with
               | Some s' => if tid_gt s s' then s else s'
               | None => s
               end)
    else revoked_at t b'.
Proof.
  unfold journal_set_revoke. destruct (find_revoke_record t b) as [[i r]|] eqn:Hf.
  - assert (Hat : revoked_at t b = Some (r_sequence r)) by (unfold revoked_at; by rewrite Hf).
    rewrite Hat. destruct (tid_gt s (r_sequence r)).
    2:{ case_decide as Hb; [by subst|done]. }
    pose proof Hf as Hf'. apply find_in_list_spec in Hf' as (n & -> & Hl & Hb). cbn [plus] in *.
    rewrite revoked_set_bucket, Hb. case_decide as Hh.
    + pose proof (find_in_list_insert _ b b' n s r Hl Hb Hf) as Hi.
      rewrite option_fmap_compose, Hi. case_decide as Hbb; [done|].
      rewrite <- option_fmap_compose. unfold revoked_at, find_revoke_record. by rewrite Hh.
    + case_decide as Hbb; [by subst|done].
  - assert (Hat : revoked_at t b = None) by (unfold revoked_at; by rewrite Hf).
    rewrite Hat. unfold insert_revoke_hash. rewrite revoked_set_bucket. cbn [find_in_list r_blocknr].
    destruct (decide (hash t b' = hash t b)) as [Hh|Hh].
    + destruct (decide (b' = b)) as [->|Hbb]; [by rewrite decide_True|]. rewrite decide_False by congruence.
      rewrite find_in_list_shift. unfold revoked_at, find_revoke_record. rewrite Hh.
      by destruct (find_in_list _ b' 0) as [[]|].
    + rewrite decide_False; [done|]. by intros ->.
Qed.

Lemma test_revoke_spec b s :
  journal_test_revoke t b s
  = match revoked_at t b with Some s' => negb (tid_gt s s') | None => false end.
Proof.
  unfold journal_test_revoke, revoked_at. destruct (find_revoke_record t b) as [[i r]|]; [|done].
  cbn. by destruct (tid_gt _ _).
Qed.
End table.

Lemma clear_loop_shape n i t :
  hash_size (clear_loop n i t) = hash_size t /\ hash_shift (clear_loop n i t) = hash_shift t /\
  length (hash_table (clear_loop n i t)) = length (hash_table t).
Proof.
  revert i t. induction n as [|n IH]; intros i t; cbn; [done|].
  destruct (IH (i + 1) (set_bucket i [] t)) as (-> & -> & ->). cbn. by rewrite length_insert.
Qed.

Lemma clear_loop_lookup n i t (k : nat) :
  0 <= i -> (k < length (hash_table t))%nat ->
  hash_table (clear_loop n i t) !! k
  = if decide (i <= Z.of_nat k < i + Z.of_nat n) then Some [] else hash_table t !! k.
Proof.
  revert i t. induction n as [|n IH]; intros i t Hi Hk; cbn [clear_loop].
  - rewrite decide_False by lia. done.
  - rewrite IH by (cbn; rewrite ?length_insert; lia). cbn.
    destruct (decide (Z.of_nat k = i)) as [He|Hne].
    + rewrite decide_False, decide_True by lia. replace (Z.to_nat i) with k by lia.
      by apply list_lookup_insert_eq.
    + rewrite list_lookup_insert_ne by lia. destruct (decide (i + 1 <= Z.of_nat k < i + 1 + Z.of_nat n)).
      * by rewrite decide_True by lia.
      * by rewrite decide_False by lia.
Qed.

Lemma clear_revoke_ok t : table_ok t -> table_ok (journal_clear_revoke t).
Proof.
  intros []. unfold journal_clear_revoke.
  destruct (clear_loop_shape (Z.to_nat (hash_size t)) 0 t) as (H1 & H2 & H3).
  split; rewrite ?H1, ?H2, ?H3; done.
Qed.

Lemma clear_revoke_buckets t : table_ok t -> hash_table (journal_clear_revoke t) = replicate (Z.to_nat (hash_size t)) [].
Proof.
  intros []. unfold journal_clear_revoke. set (c := clear_loop _ _ _).
  destruct (clear_loop_shape (Z.to_nat (hash_size t)) 0 t) as (_ & _ & Hlen).
  apply list_eq. intros k. destruct (decide (k < length (hash_table t))%nat) as [Hk|Hk].
  - unfold c. rewrite clear_loop_lookup by lia. rewrite decide_True by lia.
    rewrite lookup_replicate_2; [done|lia].
  - rewrite !lookup_ge_None_2; [done|rewrite length_replicate; lia|unfold c; rewrite Hlen; lia].
Qed.

Lemma bucket_replicate n size shift i : bucket (mkTable size shift (replicate n [])) i = [].
Proof.
  unfold bucket. cbn. destruct (decide (Z.to_nat i < n)%nat).
  - by rewrite lookup_replicate_2.
  - rewrite lookup_ge_None_2; [done|]. rewrite length_replicate. lia.
Qed.

Lemma clear_revoke_spec t b : table_ok t -> revoked_at (journal_clear_revoke t) b = None.
Proof.
  intros Hok. unfold revoked_at, find_revoke_record.
  destruct (journal_clear_revoke t) as [sz sh tab] eqn:Hc.
  assert (Ht : tab = replicate (Z.to_nat (hash_size t)) []).
  { rewrite <- (clear_revoke_buckets t Hok), Hc. done. }
  subst tab. by rewrite bucket_replicate.
Qed.

(** A cleared table passes the assertions of [journal_destroy_revoke_table]. *)
Lemma clear_revoke_destroy t : table_ok t -> journal_destroy_revoke_table (journal_clear_revoke t) = true.
Proof.
  intros Hok. unfold journal_destroy_revoke_table. rewrite (clear_revoke_buckets t Hok).
  apply Is_true_eq_true, forallb_True, Forall_take, Forall_replicate. done.
Qed.

Lemma shift_loop_pow2 n k fuel :
  (n < fuel)%nat -> shift_loop fuel (2 ^ Z.of_nat n) k = k + Z.of_nat n.
Proof.
  revert n k. induction fuel as [|fuel IH]; intros n k Hf; [lia|]. cbn [shift_loop].
  rewrite Z.shiftr_div_pow2 by lia. destruct n as [|n].
  - rewrite decide_False; [lia|]. intros Hne. by apply Hne.
  - rewrite Nat2Z.inj_succ, Z.pow_succ_r by lia. change (2 ^ 1) with 2.
    rewrite Z.mul_comm, Z.div_mul by lia. rewrite decide_True.
    + rewrite IH by lia. lia.
    + pose proof (Z.pow_pos_nonneg 2 (Z.of_nat n)). lia.
Qed.

Lemma init_table_ok n t :
  (n <= 30)%nat -> journal_init_revoke_table (2 ^ Z.of_nat n) true true = Some t ->
  table_ok t /\ forall b, revoked_at t b = None.
Proof.
  intros Hn H. unfold journal_init_revoke_table in H. cbn [andb] in H. apply (inj Some) in H as <-. split.
  - split; cbn [hash_shift hash_size hash_table]; rewrite ?shift_loop_pow2 by lia; [lia|done|].
    by rewrite length_replicate.
  - intros b. unfold revoked_at, find_revoke_record. by rewrite bucket_replicate.
Qed.

(** The whole table as a map: the revokes [l] recorded one after the other in an empty table
    leave, for each block, the latest sequence number under which it was revoked. *)
Definition set_revokes (l : list (Z * Z)) (t : jbd2_revoke_table) : jbd2_revoke_table :=
  foldl (fun t p => journal_set_revoke t p.1 p.2) t l.

Lemma set_revokes_ok l t : table_ok t -> table_ok (set_revokes l t).
Proof. revert t. induction l as [|p l IH]; intros t Hok; cbn; [done|]. by apply IH, set_revoke_ok. Qed.

(** [latest id l b k]: [k] is the largest offset from [id] at which [b] is revoked in [l]. *)
Definition latest (l : list (Z * Z)) (b k : Z) : Prop :=
  (b, k) ∈ l /\ forall k', (b, k') ∈ l -> k' <= k.

Lemma revoked_set_revokes id l t :
  table_ok t -> (forall b, revoked_at t b = None) -> Forall (fun p => 0 <= p.2 < 2 ^ 31) l ->
  forall b,
    match revoked_at (set_revokes (prod_map (fun b => b) (fun k => u32 (id + k)) <$> l) t) b with
    | Some s => exists k, s = u32 (id + k) /\ latest l b k
    | None => forall k, (b, k) ∉ l
    end.
Proof.
  intros Hok Hn. induction l as [|[b0 k0] l IH] using rev_ind; intros Hl b.
  { cbn. rewrite Hn. intros k. apply not_elem_of_nil. }
  apply Forall_app in Hl as [Hl Hk0]. rewrite Forall_singleton in Hk0. cbn [snd] in Hk0. specialize (IH Hl).
  rewrite fmap_app. unfold set_revokes in *. rewrite foldl_app. cbn [foldl fmap list_fmap prod_map fst snd].
  fold (set_revokes (prod_map (fun b => b) (fun k => u32 (id + k)) <$> l) t) in *.
  set (t' := set_revokes _ t) in *.
  assert (Hok' : table_ok t') by by apply set_revokes_ok.
  rewrite set_revoke_spec by done. destruct (decide (b = b0)) as [->|Hb].
  - specialize (IH b0). destruct (revoked_at t' b0) as [s'|].
    + destruct IH as (k & -> & Hin & Hmax).
      assert (Hk : 0 <= k < 2 ^ 31) by (rewrite Forall_forall in Hl; exact (Hl _ Hin)).
      rewrite (tid_gt_window id k0 k) by lia. case_bool_decide as Hlt.
      * exists k0. split; [done|]. split; [set_solver|].
        intros k' [Hk'|Hk'%list_elem_of_singleton]%elem_of_app; [specialize (Hmax _ Hk'); lia|]. naive_solver lia.
      * exists k. split; [done|]. split; [set_solver|].
        intros k' [Hk'|Hk'%list_elem_of_singleton]%elem_of_app; [by apply Hmax|]. naive_solver lia.
    + exists k0. split; [done|]. split; [set_solver|].
      intros k' [Hk'|Hk'%list_elem_of_singleton]%elem_of_app; [by destruct (IH k')|]. naive_solver lia.
  - specialize (IH b). destruct (revoked_at t' b) as [s'|].
    + destruct IH as (k & -> & Hin & Hmax). exists k. split; [done|]. split; [set_solver|].
      intros k' [Hk'|Hk'%list_elem_of_singleton]%elem_of_app; [by apply Hmax|]. naive_solver.
    + intros k [Hk|Hk%list_elem_of_singleton]%elem_of_app; [by destruct (IH k)|]. naive_solver.
Qed.

(** Recording the revokes [l], each a block with the number of its transaction counted from
    [id], makes [journal_test_revoke] answer whether the block is revoked in that
    transaction or a later one. *)
Lemma test_set_revokes id l t b k :
  table_ok t -> (forall b, revoked_at t b = None) -> Forall (fun p => 0 <= p.2 < 2 ^ 31) l ->
  0 <= k < 2 ^ 31 ->
  journal_test_revoke (set_revokes (prod_map (fun b => b) (fun k => u32 (id + k)) <$> l) t) b (u32 (id + k)) = true
  <-> exists k', k <= k' /\ (b, k') ∈ l.
Proof.
  intros Hok Hn Hl Hk. rewrite test_revoke_spec by by apply set_revokes_ok.
  pose proof (revoked_set_revokes id l t Hok Hn Hl b) as Hr.
  destruct (revoked_at _ b) as [s|].
  - destruct Hr as (k' & -> & Hin & Hmax).
    assert (Hk' : 0 <= k' < 2 ^ 31) by (rewrite Forall_forall in Hl; exact (Hl _ Hin)).
    rewrite tid_gt_window by lia. split.
    + intros H%negb_true_iff%bool_decide_eq_false. exists k'. split; [lia|done].
    + intros (k2 & Hle & Hin2). apply negb_true_iff, bool_decide_eq_false. specialize (Hmax _ Hin2). lia.
  - split; [done|]. intros (k2 & _ & Hin2). by destruct (Hr k2).
Qed.
