(* ===== verification/Crc32Be.v ===== *)
(** The big-endian CRC-32 of [rfsck-ext/lib/ext2fs/crc32c.c], which the journal's first
    checksum format uses, and the generator of its table in [gen_crc32ctable.c].

    The machine is little-endian: the table is stored byte-swapped, and the loop over the
    words is the one of [crc32_body]. *)
From Stdlib Require Import ZArith Lia.
From stdpp Require Import base tactics numbers list.
From S2P Require Import Prelude Crc32c.

Definition CRCPOLY_BE : Z := 0x04c11db7.

(** [___constant_swab32] *)
Definition swab32 (x : Z) : Z :=
  Z.lor (Z.lor (Z.shiftl (Z.land x 0x000000ff) 24) (Z.shiftl (Z.land x 0x0000ff00) 8))
        (Z.lor (Z.shiftr (Z.land x 0x00ff0000) 8) (Z.shiftr (Z.land x 0xff000000) 24)).

(** One turn of the bit loop. *)
Definition crc_be_bit (crc : Z) : Z :=
  Z.lxor (u32 (Z.shiftl crc 1)) (if Z.testbit crc 31 then CRCPOLY_BE else 0).

(** The first loop of [crc32init_be]: [n] doublings of the filled part of row 0. *)
Fixpoint init_be_row0 (n : nat) (crc : Z) (t : list Z) : list Z :=
  match n with
  | O => t
  | S n' => let crc := crc_be_bit crc in init_be_row0 n' crc (t ++ (Z.lxor crc <$> t))
  end.

(** The second loop: each row from the one before. *)
Definition init_be_next (row0 : list Z) (crc : Z) : Z :=
  Z.lxor (row0 !!! Z.to_nat (Z.land (Z.shiftr crc 24) 255)) (u32 (Z.shiftl crc 8)).
Fixpoint init_be_rows (row0 row : list Z) (n : nat) : list (list Z) :=
  match n with
  | O => []
  | S n' => row :: init_be_rows row0 (init_be_next row0 <$> row) n'
  end.

(** [crc32init_be]; the rows printed through [tobe]. *)
Definition crc32init_be : list (list Z) :=
  let row0 := init_be_row0 8 0x80000000 [0] in init_be_rows row0 row0 8.
Definition crc32table_be : list (list Z) := Eval vm_compute in map (map swab32) crc32init_be.

(** [crc32_be_generic]: [__cpu_to_be32], the body, [__be32_to_cpu]. *)
Definition crc32_be_generic (addr crc : Z) (p : list Z) (t : list (list Z)) : Z :=
  swab32 (crc32_body addr (swab32 crc) p t).

Definition ext2fs_crc32_be (addr crc : Z) (p : list Z) : Z :=
  crc32_be_generic addr crc p crc32table_be.

(** The bit-at-a-time reference. *)
Definition crc32_be_bitwise (crc : Z) (p : list Z) : Z :=
  foldl (fun crc b => Nat.iter 8 crc_be_bit (Z.lxor crc (Z.shiftl b 24))) crc p.

Example crc32_be_check :
  ext2fs_crc32_be 0 (2 ^ 32 - 1) [49; 50; 51; 52; 53; 54; 55; 56; 57]
  = crc32_be_bitwise (2 ^ 32 - 1) [49; 50; 51; 52; 53; 54; 55; 56; 57].
Proof. vm_compute. reflexivity. Qed.
