(* ===== verification/Buffer.v ===== *)
(** The kernel-compatibility layer of [rfsck-ext/e2fsck/journal.c]: block reads and writes
    through buffers, on top of an I/O channel.

    The channel is the class [IoChannel]; [IoLaws] says what recovery needs of it: a read
    returns the block last written, as long as no operation fails.  [MemChannel] is a channel
    whose operations fail on chosen blocks. *)
From Stdlib Require Import ZArith Lia.
From stdpp Require Import base tactics numbers list gmap.
From S2P Require Import Prelude Crc32c ExtErr Jbd.

(** * Computations *)

(** What running code ends in: a result, undefined behaviour (or a failed assertion), or, for
    loops that may not end, no result within the fuel. *)
Inductive out (A : Type) :=
  | Done (a : A)
  | Undef
  | OutOfFuel.
Arguments Done {A} a.
Arguments Undef {A}.
Arguments OutOfFuel {A}.

Definition J (W A : Type) : Type := W -> out (A * W).

#[global] Instance J_ret {W} : MRet (J W) := fun A x w => Done (x, w).
#[global] Instance J_bind {W} : MBind (J W) := fun A B k m w =>
  match m w with
  | Done (x, w') => k x w'
  | Undef => Undef
  | OutOfFuel => OutOfFuel
  end.

Definition undef {W A} : J W A := fun _ => Undef.

Lemma J_bind_done {W A B} (m : J W A) (k : A -> J W B) w x w' :
  m w = Done (x, w') -> (m ≫= k) w = k x w'.
Proof. unfold mbind, J_bind. by intros ->. Qed.

Lemma J_ret_bind {W A B} (x : A) (k : A -> J W B) w : ((mret x : J W A) ≫= k) w = k x w.
Proof. done. Qed.

(** * The channel *)

(** One-block transfers and the flush, on the channel of the file system and on the one of
    the journal: an error code, with the block that was read.  [None] is undefined
    behaviour. *)
Class IoChannel (W : Type) := {
  io_channel_read_blk64 : kdev -> Z -> W -> option (Z * list Z * W);
  io_channel_write_blk64 : kdev -> Z -> list Z -> W -> option (Z * W);
  io_channel_flush : kdev -> W -> option (Z * W)
}.

Section buffers.
Context {W : Type} `{IoChannel W}.

Definition lift {A} (f : W -> option (A * W)) : J W A := fun w =>
  match f w with Some r => Done r | None => Undef end.

Inductive rw := READ | WRITE.

(** [ll_rw_block] of one buffer, the way every caller uses it. *)
Definition ll_rw_block (d : rw) (bh : buffer_head) : J W buffer_head :=
  match d with
  | READ =>
      if b_uptodate bh then mret bh
      else
        r ← lift (io_channel_read_blk64 (b_dev bh) (b_blocknr bh));
        let '(retval, data) := r in
        if decide (retval <> 0) then mret (bh_set_err retval bh)
        else mret (mark_buffer_uptodate true (bh_set_data data bh))
  | WRITE =>
      if b_dirty bh then
        retval ← lift (io_channel_write_blk64 (b_dev bh) (b_blocknr bh) (b_data bh));
        if decide (retval <> 0) then mret (bh_set_err retval bh)
        else mret (mark_buffer_uptodate true (mark_buffer_clean bh))
      else mret bh
  end.

(** [brelse]; the buffer is gone afterwards, and with it the error of the write. *)
Definition brelse (bh : buffer_head) : J W unit :=
  if b_dirty bh then _ ← ll_rw_block WRITE bh; mret tt else mret tt.

Definition wait_on_buffer (bh : buffer_head) : J W buffer_head :=
  if b_uptodate bh then mret bh else ll_rw_block READ bh.

Definition sync_blockdev (kdev : kdev) : J W Z :=
  r ← lift (io_channel_flush kdev); mret (if decide (r <> 0) then EIO else 0).

(** [journal_bmap] *)
Definition journal_bmap (j : journal) (block : Z) : Z * Z :=
  match j_bmap j with None => (0, block) | Some f => f block end.

End buffers.

(** * What recovery needs of the channel *)

(** [io_ok w c]: the channel works, the blocks in [io_valid] can be read, those in
    [io_writable] written, and [c] is the contents of all blocks.  [io_same] says whether the
    two devices are one. *)
Class IoLaws (W : Type) `{IoChannel W} := {
  io_same : bool;
  io_bs : Z;
  io_valid : kdev -> Z -> Prop;
  io_writable : kdev -> Z -> Prop;
  io_ok : W -> (kdev -> Z -> list Z) -> Prop;
  io_durable : W -> Prop;
  io_block_size w c k b : io_ok w c -> io_valid k b -> zlen (c k b) = io_bs;
  io_read_law w c k b :
    io_ok w c -> io_valid k b ->
    exists w', io_channel_read_blk64 k b w = Some (0, c k b, w') /\ io_ok w' c;
  io_write_law w c k b d :
    io_ok w c -> io_writable k b -> zlen d = io_bs ->
    exists w', io_channel_write_blk64 k b d w = Some (0, w') /\
      io_ok w' (fun k' b' => if decide ((k' = k \/ io_same = true) /\ b' = b) then d else c k' b');
  io_flush_law w c k :
    io_ok w c -> exists w', io_channel_flush k w = Some (0, w') /\ io_ok w' c /\
      ((k = K_DEV_FS \/ io_same = true) -> io_durable w')
}.

(** * A channel in memory *)

(** A device, whether the journal is on it too, and which blocks cannot be read or written. *)
Record mem := mkMem {
  m_bs : Z;
  m_fs : gmap Z (list Z);
  m_journal : gmap Z (list Z);
  m_same : bool;
  m_bad_read : list (kdev * Z);
  m_bad_write : list (kdev * Z);
  m_flush_fails : bool
}.

Definition m_store (w : mem) (k : kdev) : gmap Z (list Z) :=
  if m_same w then m_fs w else match k with K_DEV_FS => m_fs w | K_DEV_JOURNAL => m_journal w end.

Definition m_block (w : mem) (k : kdev) (b : Z) : list Z :=
  default (replicate (Z.to_nat (m_bs w)) 0) (m_store w k !! b).

Definition m_write (k : kdev) (b : Z) (d : list Z) (w : mem) : mem :=
  match m_same w, k with
  | false, K_DEV_JOURNAL =>
      mkMem (m_bs w) (m_fs w) (<[b := d]> (m_journal w)) (m_same w) (m_bad_read w) (m_bad_write w)
            (m_flush_fails w)
  | _, _ =>
      mkMem (m_bs w) (<[b := d]> (m_fs w)) (m_journal w) (m_same w) (m_bad_read w) (m_bad_write w)
            (m_flush_fails w)
  end.

#[global] Instance MemChannel : IoChannel mem := {
  io_channel_read_blk64 k b w :=
    Some (if decide ((k, b) ∈ m_bad_read w) then (EIO, [], w) else (0, m_block w k b, w));
  io_channel_write_blk64 k b d w :=
    Some (if decide ((k, b) ∈ m_bad_write w) then (EIO, w) else (0, m_write k b d w));
  io_channel_flush k w := Some (if m_flush_fails w then EIO else 0, w)
}.
