(* ===== verification/Recovery.v ===== *)
(** Journal recovery: [rfsck-ext/e2fsck/recovery.c], every function compiled outside the
    kernel.

    [do_one_pass] is a loop that may not end (a log can hold a cycle of blocks with the same
    sequence number), so it takes fuel and [OutOfFuel] is a result of its own.  One turn of
    the loop is [pass_body]: [continue], the [break]s that leave the [switch] only, and the
    end of a [switch] case are [Continue]; the [break]s that leave the loop and [goto done] are
    [Break]; [goto failed] is [Failed].  The loops over the tags of a block move by at least
    eight bytes a turn, so the block size is enough fuel for them. *)
From Stdlib Require Import ZArith Lia.
From stdpp Require Import base tactics numbers list gmap.
From S2P Require Import Prelude Crc32c ExtErr Jbd Revoke Crc32Be Buffer.

Definition EFSBADCRC : Z := EXT2_ET_BAD_CRC.
Definition EFSCORRUPTED : Z := EXT2_ET_FILESYSTEM_CORRUPTED.

Record recovery_info := mkInfo {
  start_transaction : Z;
  end_transaction : Z;
  nr_replays : Z;
  nr_revokes : Z;
  nr_revoke_hits : Z
}.

Inductive passtype := PASS_SCAN | PASS_REVOKE | PASS_REPLAY.
#[global] Instance passtype_eq_dec : EqDecision passtype.
Proof. solve_decision. Defined.

Definition info_zero : recovery_info := mkInfo 0 0 0 0 0.
Definition set_start (s : Z) (i : recovery_info) : recovery_info :=
  mkInfo s (end_transaction i) (nr_replays i) (nr_revokes i) (nr_revoke_hits i).
Definition set_end (e : Z) (i : recovery_info) : recovery_info :=
  mkInfo (start_transaction i) e (nr_replays i) (nr_revokes i) (nr_revoke_hits i).
Definition inc_replays (i : recovery_info) : recovery_info :=
  mkInfo (start_transaction i) (end_transaction i) (nr_replays i + 1) (nr_revokes i) (nr_revoke_hits i).
Definition inc_revokes (i : recovery_info) : recovery_info :=
  mkInfo (start_transaction i) (end_transaction i) (nr_replays i) (nr_revokes i + 1) (nr_revoke_hits i).
Definition inc_hits (i : recovery_info) : recovery_info :=
  mkInfo (start_transaction i) (end_transaction i) (nr_replays i) (nr_revokes i) (nr_revoke_hits i + 1).

(** [wrap]: [var] is an [unsigned long]. *)
Definition wrap (j : journal) (var : Z) : Z :=
  if decide (j_last j <= var) then u64 (var - (j_last j - j_first j)) else var.

(** * Block checksums *)

(** [provided == cpu_to_be32(calculated)], with the field at [off] zeroed meanwhile. *)
Definition block_csum_ok (j : journal) (off : Z) (buf : list Z) : bool :=
  bool_decide (be32_at off buf = jbd2_chksum (j_csum_seed j) (set_be32 off 0 buf)).

Definition jbd2_descr_block_csum_verify (j : journal) (buf : list Z) : bool :=
  if journal_has_csum_v2or3 j
  then block_csum_ok j (j_blocksize j - sizeof_journal_block_tail) buf else true.

Definition jbd2_commit_block_csum_verify (j : journal) (buf : list Z) : bool :=
  if journal_has_csum_v2or3 j then block_csum_ok j off_h_chksum buf else true.

Definition jbd2_revoke_block_csum_verify (j : journal) (buf : list Z) : bool :=
  if journal_has_csum_v2or3 j
  then block_csum_ok j (j_blocksize j - sizeof_journal_revoke_tail) buf else true.

(** [tagp] is the offset of the tag in the descriptor block [dbuf]. *)
Definition jbd2_block_tag_csum_verify (j : journal) (dbuf : list Z) (tagp : Z) (buf : list Z)
  (sequence : Z) : bool :=
  if journal_has_csum_v2or3 j then
    let csum32 := jbd2_chksum (j_csum_seed j) (be_bytes 4 sequence) in
    let csum32 := jbd2_chksum csum32 buf in
    if jfs_has_feature_csum3 j
    then bool_decide (get_be32 (tagp + 12) dbuf = csum32)
    else bool_decide (get_be16 (tagp + 4) dbuf = Z.land csum32 0xffff)
  else true.

(** * Tags *)

Definition tag_flags (dbuf : list Z) (tagp : Z) : Z := get_be16 (tagp + 6) dbuf.

Definition read_tag_block (j : journal) (dbuf : list Z) (tagp : Z) : Z :=
  let block := get_be32 tagp dbuf in
  if jfs_has_feature_64bit j
  then Z.lor block (u64 (Z.shiftl (get_be32 (tagp + 8) dbuf) 32)) else block.

Definition has_flag (flags f : Z) : bool := negb (bool_decide (Z.land flags f = 0)).

(** [tagp += tag_bytes; if (!(flags & SAME_UUID)) tagp += 16;] *)
Definition next_tag (j : journal) (flags tagp : Z) : Z :=
  tagp + journal_tag_bytes j + (if has_flag flags JFS_FLAG_SAME_UUID then 0 else 16).

Definition descr_csum_size (j : journal) : Z :=
  if journal_has_csum_v2or3 j then sizeof_journal_block_tail else 0.

Fixpoint count_tags_loop (fuel : nat) (j : journal) (dbuf : list Z) (tagp nr : Z) : Z :=
  match fuel with
  | O => nr
  | S fuel' =>
      if decide (tagp + journal_tag_bytes j <= j_blocksize j - descr_csum_size j) then
        let flags := tag_flags dbuf tagp in
        if has_flag flags JFS_FLAG_LAST_TAG then nr + 1
        else count_tags_loop fuel' j dbuf (next_tag j flags tagp) (nr + 1)
      else nr
  end.

Definition count_tags (j : journal) (dbuf : list Z) : Z :=
  count_tags_loop (Z.to_nat (j_blocksize j)) j dbuf sizeof_journal_header 0.

(** * The passes *)

Section recovery.
Context {W : Type} `{IoChannel W}.

(** [jread]: the error, and the buffer when it is 0. *)
Definition jread (j : journal) (offset : Z) : J W (Z * option buffer_head) :=
  let offset := u32 offset in
  if decide (j_maxlen j <= offset) then mret (- EFSCORRUPTED, None)
  else
    let '(err, blocknr) := journal_bmap j offset in
    if decide (err <> 0) then mret (err, None)
    else
      bh ← wait_on_buffer (getblk K_DEV_JOURNAL blocknr (j_blocksize j));
      if negb (b_uptodate bh) then _ ← brelse bh; mret (- EIO, None)
      else mret (0, Some bh).

(** The loop of [calc_chksums] over the [n] described blocks: whether it failed, the next log
    block, the checksum. *)
Fixpoint calc_loop (n : nat) (j : journal) (next_log_block crc32_sum : Z) : J W (bool * Z * Z) :=
  match n with
  | O => mret (false, next_log_block, crc32_sum)
  | S n' =>
      let io_block := next_log_block in
      let next_log_block := wrap j (u64 (next_log_block + 1)) in
      r ← jread j io_block;
      match r with
      | (_, None) => mret (true, next_log_block, crc32_sum)
      | (_, Some obh) =>
          let crc32_sum := ext2fs_crc32_be 0 crc32_sum (b_data obh) in
          _ ← brelse obh;
          calc_loop n' j next_log_block crc32_sum
      end
  end.

Definition calc_chksums (j : journal) (bh : buffer_head) (next_log_block crc32_sum : Z)
  : J W (bool * Z * Z) :=
  let num_blks := count_tags j (b_data bh) in
  let crc32_sum := ext2fs_crc32_be 0 crc32_sum (b_data bh) in
  calc_loop (Z.to_nat num_blks) j next_log_block crc32_sum.

(** The locals of [do_one_pass], with the journal and the info it changes. *)
Record pstate := mkP {
  p_journal : journal;
  p_info : recovery_info;
  next_commit_ID : Z;
  next_log_block : Z;
  crc32_sum : Z;
  success : Z;
  block_error : bool
}.

Definition p_set_journal (j : journal) (s : pstate) : pstate :=
  mkP j (p_info s) (next_commit_ID s) (next_log_block s) (crc32_sum s) (success s) (block_error s).
Definition p_set_info (i : recovery_info) (s : pstate) : pstate :=
  mkP (p_journal s) i (next_commit_ID s) (next_log_block s) (crc32_sum s) (success s) (block_error s).
Definition p_set_id (n : Z) (s : pstate) : pstate :=
  mkP (p_journal s) (p_info s) n (next_log_block s) (crc32_sum s) (success s) (block_error s).
Definition p_set_blk (n : Z) (s : pstate) : pstate :=
  mkP (p_journal s) (p_info s) (next_commit_ID s) n (crc32_sum s) (success s) (block_error s).
Definition p_set_crc (c : Z) (s : pstate) : pstate :=
  mkP (p_journal s) (p_info s) (next_commit_ID s) (next_log_block s) c (success s) (block_error s).
Definition p_set_success (e : Z) (s : pstate) : pstate :=
  mkP (p_journal s) (p_info s) (next_commit_ID s) (next_log_block s) (crc32_sum s) e (block_error s).
Definition p_set_block_error (b : bool) (s : pstate) : pstate :=
  mkP (p_journal s) (p_info s) (next_commit_ID s) (next_log_block s) (crc32_sum s) (success s) b.

(** The copy of a logged block to its place: [memcpy], the escape, [brelse]. *)
Definition restore_block (j : journal) (flags blocknr : Z) (data : list Z) : J W unit :=
  let nbh := getblk K_DEV_FS blocknr (j_blocksize j) in
  let data := take (Z.to_nat (j_blocksize j)) data in
  let data := if has_flag flags JFS_FLAG_ESCAPE
              then zsplice 0 (be_bytes 4 JFS_MAGIC_NUMBER) data else data in
  let nbh := mark_buffer_dirty (mark_buffer_uptodate true (bh_set_data data nbh)) in
  brelse nbh.

(** The body of the tag loop up to [skip_write]. *)
Definition replay_tag (s : pstate) (dbuf : list Z) (tagp : Z) : J W pstate :=
  let j := p_journal s in
  let flags := tag_flags dbuf tagp in
  let io_block := next_log_block s in
  let s := p_set_blk (wrap j (u64 (next_log_block s + 1))) s in
  r ← jread j io_block;
  match r with
  | (err, None) => mret (p_set_success err s)
  | (_, Some obh) =>
      let blocknr := read_tag_block j dbuf tagp in
      match j_revoke j with
      | None => undef
      | Some t =>
          if journal_test_revoke t blocknr (next_commit_ID s) then
            _ ← brelse obh; mret (p_set_info (inc_hits (p_info s)) s)
          else if negb (jbd2_block_tag_csum_verify j dbuf tagp (b_data obh) (be32_at off_h_sequence dbuf)) then
            _ ← brelse obh; mret (p_set_block_error true (p_set_success (- EFSBADCRC) s))
          else
            _ ← restore_block j flags blocknr (b_data obh);
            _ ← brelse obh;
            mret (p_set_info (inc_replays (p_info s)) s)
      end
  end.

Fixpoint replay_tags (fuel : nat) (s : pstate) (dbuf : list Z) (tagp : Z) : J W pstate :=
  match fuel with
  | O => mret s
  | S fuel' =>
      let j := p_journal s in
      if decide (tagp + journal_tag_bytes j <= j_blocksize j - descr_csum_size j) then
        let flags := tag_flags dbuf tagp in
        s ← replay_tag s dbuf tagp;
        if has_flag flags JFS_FLAG_LAST_TAG then mret s
        else replay_tags fuel' s dbuf (next_tag j flags tagp)
      else mret s
  end.

Inductive ctl :=
  | Continue (s : pstate)
  | Break (s : pstate)
  | Failed (err : Z) (s : pstate).

(** [case JFS_DESCRIPTOR_BLOCK] *)
Definition descriptor_case (pass : passtype) (s : pstate) (bh : buffer_head) : J W ctl :=
  let j := p_journal s in
  if negb (jbd2_descr_block_csum_verify j (b_data bh)) then _ ← brelse bh; mret (Failed (- EFSBADCRC) s)
  else
    match pass with
    | PASS_REPLAY =>
        s ← replay_tags (Z.to_nat (j_blocksize j)) s (b_data bh) sizeof_journal_header;
        _ ← brelse bh;
        mret (Continue s)
    | _ =>
        if decide (pass = PASS_SCAN /\ jfs_has_feature_checksum j = true /\ end_transaction (p_info s) = 0) then
          r ← calc_chksums j bh (next_log_block s) (crc32_sum s);
          let '(_, blk, crc) := r in
          _ ← brelse bh;
          mret (Continue (p_set_crc crc (p_set_blk blk s)))
        else
          _ ← brelse bh;
          mret (Continue (p_set_blk (wrap j (u64 (next_log_block s + count_tags j (b_data bh)))) s))
    end.

(** The checks of [PASS_SCAN] on a commit block when the log has transaction checksums.
    [inl] leaves the [switch] (the loop goes on), [inr] goes on in the [case]. *)
Definition commit_checksum (s : pstate) (cbh : list Z) : pstate + pstate :=
  let j := p_journal s in
  let info := p_info s in
  let found_chksum := be32_at off_h_chksum cbh in
  if decide (end_transaction info <> 0) then inl (p_set_journal (j_set_failed_commit (end_transaction info) j) s)
  else
    let chksum_seen := bool_decide (crc32_sum s = found_chksum) &&
                       bool_decide (byte_at off_h_chksum_type cbh = JFS_CRC32_CHKSUM) &&
                       bool_decide (byte_at off_h_chksum_size cbh = JFS_CRC32_CHKSUM_SIZE) in
    let chksum_err := negb chksum_seen &&
                      negb (bool_decide (byte_at off_h_chksum_type cbh = 0) &&
                            bool_decide (byte_at off_h_chksum_size cbh = 0) &&
                            bool_decide (found_chksum = 0)) in
    let s := if chksum_err then p_set_info (set_end (next_commit_ID s) info) s else s in
    if chksum_err && negb (jfs_has_feature_async_commit j)
    then inl (p_set_journal (j_set_failed_commit (next_commit_ID s) j) s)
    else inr (p_set_crc (2 ^ 32 - 1) s).

(** The check of the commit block's own checksum. *)
Definition commit_block_check (s : pstate) (cbh : list Z) : pstate + pstate :=
  let j := p_journal s in
  if jbd2_commit_block_csum_verify j cbh then inr s
  else
    let s := p_set_info (set_end (next_commit_ID s) (p_info s)) s in
    if jfs_has_feature_async_commit j then inr s
    else inl (p_set_journal (j_set_failed_commit (next_commit_ID s) j) s).

(** [case JFS_COMMIT_BLOCK] *)
Definition commit_case (pass : passtype) (s : pstate) (bh : buffer_head) : J W ctl :=
  let step1 := if decide (pass = PASS_SCAN /\ jfs_has_feature_checksum (p_journal s) = true)
               then commit_checksum s (b_data bh) else inr s in
  match step1 with
  | inl s => _ ← brelse bh; mret (Continue s)
  | inr s =>
      match (if decide (pass = PASS_SCAN) then commit_block_check s (b_data bh) else inr s) with
      | inl s => _ ← brelse bh; mret (Continue s)
      | inr s => _ ← brelse bh; mret (Continue (p_set_id (u32 (next_commit_ID s + 1)) s))
      end
  end.

(** The loop of [scan_revoke_records] from [offset]. *)
Fixpoint revoke_loop (fuel : nat) (buf : list Z) (offset max record_len sequence : Z)
  (t : jbd2_revoke_table) (info : recovery_info) : jbd2_revoke_table * recovery_info :=
  match fuel with
  | O => (t, info)
  | S fuel' =>
      if decide (offset + record_len <= max) then
        let blocknr := if decide (record_len = 4) then be32_at offset buf else be64_at offset buf in
        revoke_loop fuel' buf (offset + record_len) max record_len sequence
          (journal_set_revoke t blocknr sequence) (inc_revokes info)
      else (t, info)
  end.

(** [scan_revoke_records]: the error, the journal and the info. *)
Definition scan_revoke_records (j : journal) (buf : list Z) (sequence : Z) (info : recovery_info)
  : option (Z * journal * recovery_info) :=
  let rcount := be32_at off_r_count buf in
  if negb (jbd2_revoke_block_csum_verify j buf) then Some (- EFSBADCRC, j, info)
  else
    let csum_size := if journal_has_csum_v2or3 j then sizeof_journal_revoke_tail else 0 in
    if decide (u32 (j_blocksize j - csum_size) < rcount) then Some (- EINVAL, j, info)
    else
      let record_len := if jfs_has_feature_64bit j then 8 else 4 in
      t ← j_revoke j;
      let '(t, info) := revoke_loop (Z.to_nat rcount) buf sizeof_journal_revoke_header (s32 rcount)
                          record_len sequence t info in
      Some (0, j_set_revoke (Some t) j, info).

(** [case JFS_REVOKE_BLOCK] *)
Definition revoke_case (pass : passtype) (s : pstate) (bh : buffer_head) : J W ctl :=
  if decide (pass = PASS_REVOKE) then
    match scan_revoke_records (p_journal s) (b_data bh) (next_commit_ID s) (p_info s) with
    | None => undef
    | Some (err, j, info) =>
        let s := p_set_info info (p_set_journal j s) in
        _ ← brelse bh;
        if decide (err <> 0) then mret (Failed err s) else mret (Continue s)
    end
  else _ ← brelse bh; mret (Continue s).

(** One turn of the [while] loop of [do_one_pass]. *)
Definition pass_body (pass : passtype) (s : pstate) : J W ctl :=
  let j := p_journal s in
  if decide (pass <> PASS_SCAN /\ tid_geq (next_commit_ID s) (end_transaction (p_info s)) = true)
  then mret (Break s)
  else
    r ← jread j (next_log_block s);
    match r with
    | (err, None) => mret (Failed err s)
    | (_, Some bh) =>
        let s := p_set_blk (wrap j (u64 (next_log_block s + 1))) s in
        let buf := b_data bh in
        if decide (be32_at off_h_magic buf <> JFS_MAGIC_NUMBER) then _ ← brelse bh; mret (Break s)
        else if decide (be32_at off_h_sequence buf <> next_commit_ID s) then _ ← brelse bh; mret (Break s)
        else
          let blocktype := be32_at off_h_blocktype buf in
          if decide (blocktype = JFS_DESCRIPTOR_BLOCK) then descriptor_case pass s bh
          else if decide (blocktype = JFS_COMMIT_BLOCK) then commit_case pass s bh
          else if decide (blocktype = JFS_REVOKE_BLOCK) then revoke_case pass s bh
          else _ ← brelse bh; mret (Break s)
    end.

(** What follows [done]: the result. *)
Definition pass_done (pass : passtype) (s : pstate) : Z * pstate :=
  let info := p_info s in
  let s :=
    if decide (pass = PASS_SCAN) then
      if decide (end_transaction info = 0) then p_set_info (set_end (next_commit_ID s) info) s else s
    else if decide (end_transaction info <> next_commit_ID s) then
      if decide (success s = 0) then p_set_success (- EIO) s else s
    else s in
  let s := if block_error s && bool_decide (success s = 0) then p_set_success (- EIO) s else s in
  (success s, s).

Fixpoint pass_loop (fuel : nat) (pass : passtype) (s : pstate) : J W (Z * pstate) :=
  match fuel with
  | O => fun _ => OutOfFuel
  | S fuel' =>
      c ← pass_body pass s;
      match c with
      | Continue s => pass_loop fuel' pass s
      | Break s => mret (pass_done pass s)
      | Failed err s => mret (err, s)
      end
  end.

(** The locals when the loop starts. *)
Definition pass_start (j : journal) (info : recovery_info) (pass : passtype) : pstate :=
  let sb := j_superblock j in
  let id := be32_at off_s_sequence sb in
  let info := if decide (pass = PASS_SCAN) then set_start id info else info in
  mkP j info id (be32_at off_s_start sb) (2 ^ 32 - 1) 0 false.

(** [do_one_pass]: the result, the journal, the info. *)
Definition do_one_pass (fuel : nat) (j : journal) (info : recovery_info) (pass : passtype)
  : J W (Z * journal * recovery_info) :=
  r ← pass_loop fuel pass (pass_start j info pass);
  mret (r.1, p_journal r.2, p_info r.2).

(** [journal_recover] *)
Definition journal_recover (fuel : nat) (j : journal) : J W (Z * journal) :=
  let sb := j_superblock j in
  if decide (be32_at off_s_start sb = 0)
  then mret (0, j_set_transaction_sequence (u32 (be32_at off_s_sequence sb + 1)) j)
  else
    r ← do_one_pass fuel j info_zero PASS_SCAN;
    r ← (let '(err, j, info) := r in
         if decide (err = 0) then do_one_pass fuel j info PASS_REVOKE else mret (err, j, info));
    r ← (let '(err, j, info) := r in
         if decide (err = 0) then do_one_pass fuel j info PASS_REPLAY else mret (err, j, info));
    let '(err, j, info) := r in
    let j := j_set_transaction_sequence (u32 (end_transaction info + 1)) j in
    match j_revoke j with
    | None => undef
    | Some t =>
        let j := j_set_revoke (Some (journal_clear_revoke t)) j in
        err2 ← sync_blockdev K_DEV_FS;
        mret (if decide (err = 0) then err2 else err, j)
    end.

(** [journal_skip_recovery] *)
Definition journal_skip_recovery (fuel : nat) (j : journal) : J W (Z * journal) :=
  r ← do_one_pass fuel j info_zero PASS_SCAN;
  let '(err, j, info) := r in
  let j := if decide (err <> 0) then j_set_transaction_sequence (u32 (j_transaction_sequence j + 1)) j
           else j_set_transaction_sequence (u32 (end_transaction info + 1)) j in
  mret (err, j_set_tail 0 j).

End recovery.
