(* ===== verification/RecoverySpec.v ===== *)
(** What a log says: the reference that journal recovery is proved against.

    [log_at] relates the blocks of a log, read from a position on, to the list of the
    transactions committed in it; [spec_replay] is what recovering them means. *)
From Stdlib Require Import ZArith Lia.
From stdpp Require Import base tactics numbers list gmap.
From S2P Require Import Prelude Crc32c ExtErr Jbd Revoke Crc32Be Buffer Recovery.

(** * The meaning of a list of transactions *)

(** A committed transaction: the blocks it logs, in order, and the blocks it revokes. *)
Record txn := mkTxn { t_writes : list (Z * list Z); t_revokes : list Z }.

Definition fs_upd (b : Z) (d : list Z) (fs : Z -> list Z) : Z -> list Z :=
  fun b' => if decide (b' = b) then d else fs b'.

(** Whether block [b] is revoked in one of the transactions. *)
Definition revoked_in (ts : list txn) (b : Z) : bool :=
  existsb (fun t => bool_decide (b ∈ t_revokes t)) ts.

Definition apply_writes (skip : Z -> bool) (ws : list (Z * list Z)) (fs : Z -> list Z) : Z -> list Z :=
  foldl (fun fs w => if skip w.1 then fs else fs_upd w.1 w.2 fs) fs ws.

(** Each transaction in turn writes its blocks, except the ones that it or a later
    transaction revokes. *)
Fixpoint spec_replay (ts : list txn) (fs : Z -> list Z) : Z -> list Z :=
  match ts with
  | [] => fs
  | t :: ts' => spec_replay ts' (apply_writes (revoked_in ts) (t_writes t) fs)
  end.

(** The same, block by block: the last write to [b] that is not revoked. *)
Fixpoint last_write (b : Z) (ws : list (Z * list Z)) : option (list Z) :=
  match ws with
  | [] => None
  | w :: ws' =>
      match last_write b ws' with
      | Some d => Some d
      | None => if decide (w.1 = b) then Some w.2 else None
      end
  end.

Fixpoint survivor (b : Z) (ts : list txn) : option (list Z) :=
  match ts with
  | [] => None
  | t :: ts' =>
      match survivor b ts' with
      | Some d => Some d
      | None => if revoked_in ts b then None else last_write b (t_writes t)
      end
  end.

Lemma apply_writes_lookup skip ws fs b :
  apply_writes skip ws fs b
  = if skip b then fs b else default (fs b) (last_write b ws).
Proof.
  unfold apply_writes. revert fs. induction ws as [|[b' d] ws IH]; intros fs; cbn [foldl last_write fst snd].
  { by destruct (skip b). }
  rewrite IH. destruct (skip b) eqn:Hb.
  - destruct (skip b') eqn:Hb'; [done|]. unfold fs_upd. rewrite decide_False; [done|]. congruence.
  - destruct (last_write b ws) as [d'|]; cbn; [done|].
    destruct (decide (b' = b)) as [->|Hne].
    + rewrite Hb. unfold fs_upd. by rewrite decide_True.
    + destruct (skip b'); [done|]. unfold fs_upd. by rewrite decide_False by congruence.
Qed.

Lemma spec_replay_lookup ts fs b : spec_replay ts fs b = default (fs b) (survivor b ts).
Proof.
  revert fs. induction ts as [|t ts IH]; intros fs; [done|]. cbn [spec_replay survivor].
  rewrite IH, apply_writes_lookup. destruct (survivor b ts) as [d|]; [done|]. cbn [default from_option].
  by destruct (revoked_in (t :: ts) b).
Qed.

Lemma spec_replay_ext ts fs fs' :
  (forall b, fs b = fs' b) -> forall b, spec_replay ts fs b = spec_replay ts fs' b.
Proof. intros He b. by rewrite !spec_replay_lookup, He. Qed.

Lemma apply_writes_ext skip skip' ws fs fs' :
  (forall b, skip b = skip' b) -> (forall b, fs b = fs' b) ->
  forall b, apply_writes skip ws fs b = apply_writes skip' ws fs' b.
Proof. intros Hs He b. by rewrite !apply_writes_lookup, Hs, He. Qed.

(** * The tags of a descriptor block *)

Fixpoint tag_loop (fuel : nat) (j : journal) (dbuf : list Z) (tagp : Z) : list Z :=
  match fuel with
  | O => []
  | S fuel' =>
      if decide (tagp + journal_tag_bytes j <= j_blocksize j - descr_csum_size j) then
        let flags := tag_flags dbuf tagp in
        if has_flag flags JFS_FLAG_LAST_TAG then [tagp]
        else tagp :: tag_loop fuel' j dbuf (next_tag j flags tagp)
      else []
  end.

(** The offsets of the tags in use. *)
Definition tag_list (j : journal) (dbuf : list Z) : list Z :=
  tag_loop (Z.to_nat (j_blocksize j)) j dbuf sizeof_journal_header.

Lemma count_tags_loop_length fuel j dbuf tagp nr :
  count_tags_loop fuel j dbuf tagp nr = nr + Z.of_nat (length (tag_loop fuel j dbuf tagp)).
Proof.
  revert tagp nr. induction fuel as [|fuel IH]; intros tagp nr; cbn [count_tags_loop tag_loop]; [cbn; lia|].
  case_decide; [|cbn; lia]. cbv zeta. destruct (has_flag _ _); [cbn; lia|]. rewrite IH. cbn [length]. lia.
Qed.

Lemma count_tags_length j dbuf : count_tags j dbuf = Z.of_nat (length (tag_list j dbuf)).
Proof. unfold count_tags, tag_list. by rewrite count_tags_loop_length. Qed.

(** The contents a logged block is restored with. *)
Definition restored (j : journal) (flags : Z) (data : list Z) : list Z :=
  if has_flag flags JFS_FLAG_ESCAPE then zsplice 0 (be_bytes 4 JFS_MAGIC_NUMBER) data else data.

(** * Positions in the log *)

Definition next_pos (j : journal) (pos : Z) : Z := wrap j (pos + 1).
Fixpoint skip_pos (j : journal) (n : nat) (pos : Z) : Z :=
  match n with O => pos | S n' => skip_pos j n' (next_pos j pos) end.

(** * The contents of a log *)

Section log.
Variable j : journal.
(** The blocks of the log by their offset in the journal. *)
Variable lg : Z -> list Z.

Definition is_block (id pos type : Z) : Prop :=
  be32_at off_h_magic (lg pos) = JFS_MAGIC_NUMBER /\
  be32_at off_h_sequence (lg pos) = id /\
  be32_at off_h_blocktype (lg pos) = type.

(** The blocks a descriptor block at [pos - 1] describes. *)
Fixpoint described (dbuf : list Z) (pos : Z) (tags : list Z) : list (Z * list Z) :=
  match tags with
  | [] => []
  | tagp :: tags' =>
      (read_tag_block j dbuf tagp, restored j (tag_flags dbuf tagp) (lg pos))
      :: described dbuf (next_pos j pos) tags'
  end.

Fixpoint tags_csum_ok (dbuf : list Z) (pos : Z) (tags : list Z) : Prop :=
  match tags with
  | [] => True
  | tagp :: tags' =>
      jbd2_block_tag_csum_verify j dbuf tagp (lg pos) (be32_at off_h_sequence dbuf) = true /\
      tags_csum_ok dbuf (next_pos j pos) tags'
  end.

(** The transaction checksum over a descriptor block and the [n] blocks after it. *)
Fixpoint crc_blocks (n : nat) (pos crc : Z) : Z :=
  match n with
  | O => crc
  | S n' => crc_blocks n' (next_pos j pos) (ext2fs_crc32_be 0 crc (lg pos))
  end.
Definition crc_descr (pos crc : Z) : Z :=
  crc_blocks (length (tag_list j (lg pos))) (next_pos j pos) (ext2fs_crc32_be 0 crc (lg pos)).

(** The block numbers in a revoke block. *)
Fixpoint revoke_list (fuel : nat) (buf : list Z) (offset max record_len : Z) : list Z :=
  match fuel with
  | O => []
  | S fuel' =>
      if decide (offset + record_len <= max) then
        (if decide (record_len = 4) then be32_at offset buf else be64_at offset buf)
        :: revoke_list fuel' buf (offset + record_len) max record_len
      else []
  end.
Definition record_len : Z := if jfs_has_feature_64bit j then 8 else 4.
Definition revokes_of (buf : list Z) : list Z :=
  revoke_list (Z.to_nat (be32_at off_r_count buf)) buf sizeof_journal_revoke_header
    (be32_at off_r_count buf) record_len.

(** A well-formed descriptor block, and a well-formed revoke block. *)
Definition descr_ok (id pos : Z) : Prop :=
  is_block id pos JFS_DESCRIPTOR_BLOCK /\
  jbd2_descr_block_csum_verify j (lg pos) = true /\
  Z.of_nat (length (tag_list j (lg pos))) <= j_last j - j_first j.

Definition revoke_ok (id pos : Z) : Prop :=
  is_block id pos JFS_REVOKE_BLOCK /\
  jbd2_revoke_block_csum_verify j (lg pos) = true /\
  be32_at off_r_count (lg pos) <= j_blocksize j - descr_csum_size j.

Definition after_descr (pos : Z) : Z := skip_pos j (length (tag_list j (lg pos))) (next_pos j pos).

(** The checks a commit block passes: the transaction checksum [crc] when the log has them, or
    none at all in the block, and its own checksum. *)
Definition commit_ok (crc : Z) (buf : list Z) : bool :=
  (negb (jfs_has_feature_checksum j) ||
   (bool_decide (crc = be32_at off_h_chksum buf) &&
    bool_decide (byte_at off_h_chksum_type buf = JFS_CRC32_CHKSUM) &&
    bool_decide (byte_at off_h_chksum_size buf = JFS_CRC32_CHKSUM_SIZE)) ||
   (bool_decide (byte_at off_h_chksum_type buf = 0) &&
    bool_decide (byte_at off_h_chksum_size buf = 0) &&
    bool_decide (be32_at off_h_chksum buf = 0))) &&
  jbd2_commit_block_csum_verify j buf.

(** [txn_at id pos crc t pos']: from [pos] to before [pos'] there is the committed transaction
    [t] with identifier [id]. *)
Inductive txn_at (id : Z) : Z -> Z -> txn -> Z -> Prop :=
  | txn_commit pos crc :
      is_block id pos JFS_COMMIT_BLOCK -> commit_ok crc (lg pos) = true ->
      txn_at id pos crc (mkTxn [] []) (next_pos j pos)
  | txn_descr pos crc t pos' :
      descr_ok id pos ->
      tags_csum_ok (lg pos) (next_pos j pos) (tag_list j (lg pos)) ->
      txn_at id (after_descr pos) (crc_descr pos crc) t pos' ->
      txn_at id pos crc
        (mkTxn (described (lg pos) (next_pos j pos) (tag_list j (lg pos)) ++ t_writes t) (t_revokes t)) pos'
  | txn_revoke pos crc t pos' :
      revoke_ok id pos ->
      txn_at id (next_pos j pos) crc t pos' ->
      txn_at id pos crc (mkTxn (t_writes t) (revokes_of (lg pos) ++ t_revokes t)) pos'.

(** The block at [pos] does not continue a log at transaction [id]. *)
Definition stops (id pos : Z) : Prop :=
  be32_at off_h_magic (lg pos) <> JFS_MAGIC_NUMBER \/
  be32_at off_h_sequence (lg pos) <> id \/
  (be32_at off_h_blocktype (lg pos) <> JFS_DESCRIPTOR_BLOCK /\
   be32_at off_h_blocktype (lg pos) <> JFS_COMMIT_BLOCK /\
   be32_at off_h_blocktype (lg pos) <> JFS_REVOKE_BLOCK).

(** How a log ends: with the beginning of a transaction that was never committed, or with one
    whose commit block fails its checks ([failed]). *)
Inductive torn_at (id : Z) : Z -> Z -> bool -> Prop :=
  | torn_end pos crc : stops id pos -> torn_at id pos crc false
  | torn_descr pos crc failed :
      descr_ok id pos -> torn_at id (after_descr pos) (crc_descr pos crc) failed -> torn_at id pos crc failed
  | torn_revoke pos crc failed :
      is_block id pos JFS_REVOKE_BLOCK -> torn_at id (next_pos j pos) crc failed -> torn_at id pos crc failed
  | torn_commit pos crc :
      is_block id pos JFS_COMMIT_BLOCK -> commit_ok crc (lg pos) = false ->
      jfs_has_feature_async_commit j = false ->
      stops id (next_pos j pos) -> torn_at id pos crc true.

Definition crc_start : Z := 2 ^ 32 - 1.

(** A whole log: committed transactions, then its end. *)
Inductive log_at : Z -> Z -> list txn -> bool -> Prop :=
  | log_end id pos failed : torn_at id pos crc_start failed -> log_at id pos [] failed
  | log_txn id pos t pos' ts failed :
      txn_at id pos crc_start t pos' -> log_at (u32 (id + 1)) pos' ts failed ->
      log_at id pos (t :: ts) failed.

End log.
