(* ===== verification/RecoveryProofs.v ===== *)
(** Journal recovery implements the reference of [RecoverySpec], over any channel that keeps
    the laws of [Buffer]. *)
From Stdlib Require Import ZArith Lia.
From stdpp Require Import base tactics numbers list gmap.
From S2P Require Import Prelude Crc32c ExtErr Jbd Revoke Crc32Be Buffer Recovery RecoverySpec.

(** The geometry of a journal that [jread] can read: its blocks from [j_first] to [j_last] are
    mapped to blocks of the device. *)
Record geom {W} `{IoLaws W} (j : journal) : Prop := {
  g_first : 0 <= j_first j < j_last j;
  g_last : j_last j <= j_maxlen j < 2 ^ 32;
  g_bs : j_blocksize j = io_bs;
  g_bs_range : 16 <= io_bs < 2 ^ 31;
  g_map o : j_first j <= o < j_last j ->
    (journal_bmap j o).1 = 0 /\ io_valid K_DEV_JOURNAL (journal_bmap j o).2
}.

Section proofs.
Context {W : Type} `{IoLaws W}.
Variable j : journal.
Hypothesis Hg : geom j.

Definition in_log (o : Z) : Prop := j_first j <= o < j_last j.

(** The device shows [fs] on the file system and [lg] in the log. *)
Definition view (w : W) (fs lg : Z -> list Z) : Prop :=
  exists c, io_ok w c /\ (forall b, c K_DEV_FS b = fs b) /\
            (forall o, in_log o -> c K_DEV_JOURNAL (journal_bmap j o).2 = lg o).

(** A block that recovery may write: on the device, and not a block of the log. *)
Definition target (b : Z) : Prop :=
  io_writable K_DEV_FS b /\ (io_same = true -> forall o, in_log o -> (journal_bmap j o).2 <> b).

(** The journal in the course of recovery: only the revoke table and the failed commit
    change. *)
Definition jv (t : option jbd2_revoke_table) (f : Z) : journal :=
  j_set_failed_commit f (j_set_revoke t j).

Definition log_bh (lg : Z -> list Z) (o : Z) : buffer_head :=
  mkBh K_DEV_JOURNAL (j_blocksize j) 0 false true (journal_bmap j o).2 (lg o).

Lemma count_tags_jv t f dbuf : count_tags (jv t f) dbuf = Z.of_nat (length (tag_list j dbuf)).
Proof.
  rewrite <- count_tags_length. unfold count_tags. change (j_blocksize (jv t f)) with (j_blocksize j).
  generalize sizeof_journal_header, 0.
  induction (Z.to_nat (j_blocksize j)) as [|fuel IH]; intros tagp nr; cbn [count_tags_loop]; [done|].
  change (journal_tag_bytes (jv t f)) with (journal_tag_bytes j).
  change (descr_csum_size (jv t f)) with (descr_csum_size j). change (next_tag (jv t f)) with (next_tag j).
  change (j_blocksize (jv t f)) with (j_blocksize j).
  case_decide; [|done]. cbv zeta. destruct (has_flag _ _); [done|]. apply IH.
Qed.

(** * Positions *)

Lemma next_pos_in o : in_log o -> in_log (next_pos j o).
Proof.
  unfold in_log, next_pos, wrap. pose proof (g_first _ Hg). pose proof (g_last _ Hg).
  intros Ho. case_decide; [|lia]. rewrite u64_small by (unfold in_u; pow2_norm; lia). lia.
Qed.

Lemma skip_pos_in n o : in_log o -> in_log (skip_pos j n o).
Proof. revert o. induction n as [|n IH]; intros o Ho; cbn; [done|]. by apply IH, next_pos_in. Qed.

Lemma wrap_next o : in_log o -> wrap j (u64 (o + 1)) = next_pos j o.
Proof.
  unfold in_log. intros Ho. pose proof (g_first _ Hg). pose proof (g_last _ Hg).
  rewrite u64_small by (unfold in_u; pow2_norm; lia). done.
Qed.

(** One wrap after [n] blocks is [n] wraps, when the log is at least [n] blocks long. *)
Lemma wrap_skip n o :
  in_log o -> Z.of_nat n <= j_last j - j_first j -> wrap j (u64 (o + Z.of_nat n)) = skip_pos j n o.
Proof.
  unfold in_log. pose proof (g_first _ Hg). pose proof (g_last _ Hg). intros Ho Hn.
  rewrite u64_small by (unfold in_u; pow2_norm; lia).
  assert (Hgen : forall n o, in_log o -> Z.of_nat n <= j_last j - j_first j ->
    skip_pos j n o = if decide (o + Z.of_nat n < j_last j) then o + Z.of_nat n
                     else o + Z.of_nat n - (j_last j - j_first j)).
  { clear n o Ho Hn. intros n. induction n as [|n IH]; intros o Ho Hn; cbn [skip_pos].
    - unfold in_log in Ho. rewrite decide_True by lia. lia.
    - rewrite IH by (try apply next_pos_in; done || lia).
      unfold in_log in Ho. unfold next_pos, wrap. destruct (decide (j_last j <= o + 1)).
      + rewrite u64_small by (unfold in_u; pow2_norm; lia).
        rewrite decide_True, decide_False by lia. lia.
      + repeat case_decide; lia. }
  rewrite Hgen by done. unfold wrap. repeat case_decide; try lia.
  rewrite u64_small by (unfold in_u; pow2_norm; lia). lia.
Qed.

(** * Reading and writing blocks *)

Lemma jread_ok w fs lg o t f :
  view w fs lg -> in_log o ->
  exists w', jread (jv t f) o w = Done ((0, Some (log_bh lg o)), w') /\ view w' fs lg.
Proof.
  intros (c & Hok & Hfs & Hlg) Ho. pose proof (g_first _ Hg). pose proof (g_last _ Hg).
  destruct (g_map _ Hg o Ho) as [Hmap Hv].
  destruct (io_read_law w c K_DEV_JOURNAL _ Hok Hv) as (w' & Hr & Hok').
  exists w'. split; [|by exists c]. unfold in_log in Ho.
  unfold jread. change (j_maxlen (jv t f)) with (j_maxlen j).
  change (journal_bmap (jv t f)) with (journal_bmap j). change (j_blocksize (jv t f)) with (j_blocksize j).
  rewrite u32_small by (unfold in_u; pow2_norm; lia). rewrite decide_False by lia.
  destruct (journal_bmap j o) as [err blocknr] eqn:Hb. cbn [fst snd] in *. subst err.
  rewrite decide_False by lia.
  unfold wait_on_buffer, getblk, ll_rw_block, lift, mbind, J_bind. cbn. rewrite Hr. cbn.
  unfold log_bh, mark_buffer_uptodate, bh_set_data. cbn. rewrite Hb. cbn.
  rewrite <- (Hlg o Ho), Hb. done.
Qed.

Lemma log_block_size w fs lg o : view w fs lg -> in_log o -> zlen (lg o) = io_bs.
Proof.
  intros (c & Hok & _ & Hlg) Ho. rewrite <- (Hlg o Ho). eapply io_block_size; [done|].
  by apply (g_map _ Hg).
Qed.

(** Releasing a block that was only read does nothing. *)
Lemma brelse_log lg o {A} (k : unit -> J W A) (w : W) : (brelse (log_bh lg o) ≫= k) w = k tt w.
Proof. done. Qed.

Lemma zlen_restored flags d : zlen d = io_bs -> zlen (restored j flags d) = io_bs.
Proof.
  intros Hd. unfold restored. destruct (has_flag _ _); [|done].
  pose proof (g_bs_range _ Hg). rewrite zlen_splice, zlen_be_bytes by lia. lia.
Qed.

Lemma restore_block_ok w fs lg flags b d t f :
  view w fs lg -> target b -> zlen d = io_bs ->
  exists w', restore_block (jv t f) flags b d w = Done (tt, w') /\
             view w' (fs_upd b (restored j flags d) fs) lg.
Proof.
  intros (c & Hok & Hfs & Hlg) [Hv Hal] Hd.
  destruct (io_write_law w c K_DEV_FS b (restored j flags d) Hok Hv) as (w' & Hw & Hok').
  { by apply zlen_restored. }
  exists w'. split.
  - unfold restore_block. change (j_blocksize (jv t f)) with (j_blocksize j).
    rewrite (take_zlen d) by (rewrite (g_bs _ Hg); lia).
    fold (restored j flags d). unfold brelse, getblk, ll_rw_block, lift, mbind, J_bind. cbn. by rewrite Hw.
  - eexists. split; [exact Hok'|]. split.
    + intros b'. cbn. unfold fs_upd. destruct (decide (b' = b)) as [->|Hne].
      * rewrite decide_True; [done|]. split; [by left|done].
      * rewrite decide_False; [apply Hfs|]. by intros [_ ?].
    + intros o Ho. cbn. rewrite decide_False; [by apply Hlg|].
      intros [[?|Hs] Hb]; [done|]. by apply (Hal Hs o Ho).
Qed.

(** * The loop *)

(** The pass ends, with enough fuel, in the result [r]. *)
Definition runs (pass : passtype) (s : pstate) (w : W) (r : Z * pstate) (w' : W) : Prop :=
  exists n, forall fuel, (n <= fuel)%nat -> pass_loop fuel pass s w = Done (r, w').

Lemma runs_continue pass s w s1 w1 r w' :
  pass_body pass s w = Done (Continue s1, w1) -> runs pass s1 w1 r w' -> runs pass s w r w'.
Proof.
  intros Hb [n Hn]. exists (S n). intros [|fuel] Hf; [lia|]. cbn [pass_loop].
  rewrite (J_bind_done _ _ _ _ _ Hb). apply Hn. lia.
Qed.

Lemma runs_break pass s w s1 w1 :
  pass_body pass s w = Done (Break s1, w1) -> runs pass s w (pass_done pass s1) w1.
Proof.
  intros Hb. exists 1%nat. intros [|fuel] Hf; [lia|]. cbn [pass_loop].
  by rewrite (J_bind_done _ _ _ _ _ Hb).
Qed.

Lemma runs_failed pass s w err s1 w1 :
  pass_body pass s w = Done (Failed err s1, w1) -> runs pass s w (err, s1) w1.
Proof.
  intros Hb. exists 1%nat. intros [|fuel] Hf; [lia|]. cbn [pass_loop].
  by rewrite (J_bind_done _ _ _ _ _ Hb).
Qed.

(** A pass that has not reached its end reads the block at the current position. *)
Lemma body_read pass t f info id pos crc w fs lg :
  view w fs lg -> in_log pos ->
  (pass = PASS_SCAN \/ tid_geq id (end_transaction info) = false) ->
  exists w1, view w1 fs lg /\
    pass_body pass (mkP (jv t f) info id pos crc 0 false) w =
    (let s := mkP (jv t f) info id (next_pos j pos) crc 0 false in
     if decide (be32_at off_h_magic (lg pos) <> JFS_MAGIC_NUMBER) then Done (Break s, w1)
     else if decide (be32_at off_h_sequence (lg pos) <> id) then Done (Break s, w1)
     else
       let blocktype := be32_at off_h_blocktype (lg pos) in
       if decide (blocktype = JFS_DESCRIPTOR_BLOCK) then descriptor_case pass s (log_bh lg pos) w1
       else if decide (blocktype = JFS_COMMIT_BLOCK) then commit_case pass s (log_bh lg pos) w1
       else if decide (blocktype = JFS_REVOKE_BLOCK) then revoke_case pass s (log_bh lg pos) w1
       else Done (Break s, w1)).
Proof.
  intros Hv Hp Hend. destruct (jread_ok w fs lg pos t f Hv Hp) as (w1 & Hr & Hv1).
  exists w1. split; [done|]. unfold pass_body. cbn [p_journal p_info next_commit_ID next_log_block].
  rewrite decide_False by (intros [? Ht]; destruct Hend; congruence).
  rewrite (J_bind_done _ _ _ _ _ Hr). cbn [b_data log_bh].
  change (wrap (jv t f)) with (wrap j). rewrite wrap_next by done.
  unfold p_set_blk. cbn [p_journal p_info next_commit_ID next_log_block crc32_sum success block_error].
  repeat (case_decide; [done|]). done.
Qed.

Lemma body_stop pass t f info id pos crc w fs lg :
  view w fs lg -> in_log pos -> stops lg id pos ->
  (pass = PASS_SCAN \/ tid_geq id (end_transaction info) = false) ->
  exists w1, view w1 fs lg /\
    pass_body pass (mkP (jv t f) info id pos crc 0 false) w
    = Done (Break (mkP (jv t f) info id (next_pos j pos) crc 0 false), w1).
Proof.
  intros Hv Hp Hs Hend. destruct (body_read pass t f info id pos crc w fs lg Hv Hp Hend) as (w1 & Hv1 & ->).
  exists w1. split; [done|]. cbv zeta. case_decide as H1; [done|]. case_decide as H2; [done|].
  destruct Hs as [Hs|[Hs|(Ha & Hb & Hc)]]; [done|done|]. by rewrite !decide_False.
Qed.

Lemma body_block pass t f info id pos crc w fs lg type :
  view w fs lg -> in_log pos -> is_block lg id pos type ->
  (pass = PASS_SCAN \/ tid_geq id (end_transaction info) = false) ->
  exists w1, view w1 fs lg /\
    pass_body pass (mkP (jv t f) info id pos crc 0 false) w =
    (let s := mkP (jv t f) info id (next_pos j pos) crc 0 false in
     if decide (type = JFS_DESCRIPTOR_BLOCK) then descriptor_case pass s (log_bh lg pos) w1
     else if decide (type = JFS_COMMIT_BLOCK) then commit_case pass s (log_bh lg pos) w1
     else if decide (type = JFS_REVOKE_BLOCK) then revoke_case pass s (log_bh lg pos) w1
     else Done (Break s, w1)).
Proof.
  intros Hv Hp (Hm & Hq & Ht) Hend.
  destruct (body_read pass t f info id pos crc w fs lg Hv Hp Hend) as (w1 & Hv1 & ->).
  exists w1. split; [done|]. cbv zeta. rewrite decide_False by congruence.
  rewrite decide_False by congruence. by rewrite Ht.
Qed.

(** * The scan *)

Lemma calc_loop_ok n t f pos crc w fs lg :
  view w fs lg -> in_log pos ->
  exists w', calc_loop n (jv t f) pos crc w
             = Done ((false, skip_pos j n pos, crc_blocks j lg n pos crc), w') /\ view w' fs lg.
Proof.
  revert pos crc w. induction n as [|n IH]; intros pos crc w Hv Hp; cbn [calc_loop skip_pos crc_blocks].
  { by exists w. }
  destruct (jread_ok w fs lg pos t f Hv Hp) as (w1 & Hr & Hv1).
  rewrite (J_bind_done _ _ _ _ _ Hr). rewrite brelse_log.
  change (wrap (jv t f)) with (wrap j). rewrite wrap_next by done.
  apply IH; [done|]. by apply next_pos_in.
Qed.

(** The checksum as far as the scan keeps it. *)
Definition crc_rel (crc crc' : Z) : Prop := jfs_has_feature_checksum j = true -> crc = crc'.

Lemma scan_descr t f info id pos crc crc' w fs lg :
  view w fs lg -> in_log pos -> descr_ok j lg id pos -> end_transaction info = 0 -> crc_rel crc' crc ->
  exists w1 crc1, view w1 fs lg /\ crc_rel crc1 (crc_descr j lg pos crc) /\
    pass_body PASS_SCAN (mkP (jv t f) info id pos crc' 0 false) w
    = Done (Continue (mkP (jv t f) info id (after_descr j lg pos) crc1 0 false), w1).
Proof.
  intros Hv Hp (Hb & Hc & Hn) He Hcrc.
  destruct (body_block PASS_SCAN t f info id pos crc' w fs lg _ Hv Hp Hb ltac:(by left)) as (w1 & Hv1 & ->).
  rewrite decide_True by done. unfold descriptor_case. cbn [p_journal p_info b_data log_bh].
  change (jbd2_descr_block_csum_verify (jv t f)) with (jbd2_descr_block_csum_verify j). rewrite Hc. cbn [negb].
  change (jfs_has_feature_checksum (jv t f)) with (jfs_has_feature_checksum j).
  change (wrap (jv t f)) with (wrap j).
  destruct (jfs_has_feature_checksum j) eqn:Hf.
  - rewrite decide_True by done. unfold calc_chksums. cbn [b_data log_bh next_log_block crc32_sum].
    rewrite count_tags_jv, Nat2Z.id.
    destruct (calc_loop_ok (length (tag_list j (lg pos))) t f (next_pos j pos)
                (ext2fs_crc32_be 0 crc' (lg pos)) w1 fs lg Hv1 (next_pos_in _ Hp)) as (w2 & Hr & Hv2).
    rewrite (J_bind_done _ _ _ _ _ Hr). exists w2. eexists. split; [done|]. split; [|reflexivity].
    intros _. unfold crc_descr. by rewrite (Hcrc Hf).
  - rewrite decide_False by (intros (_ & ? & _); congruence).
    exists w1, crc'. split; [done|]. split; [by intros Hf'; rewrite Hf in Hf'|].
    rewrite brelse_log. cbn [next_log_block].
    rewrite count_tags_jv, wrap_skip; [done|by apply next_pos_in|done].
Qed.

Lemma scan_revoke t f info id pos crc w fs lg :
  view w fs lg -> in_log pos -> is_block lg id pos JFS_REVOKE_BLOCK ->
  exists w1, view w1 fs lg /\
    pass_body PASS_SCAN (mkP (jv t f) info id pos crc 0 false) w
    = Done (Continue (mkP (jv t f) info id (next_pos j pos) crc 0 false), w1).
Proof.
  intros Hv Hp Hb.
  destruct (body_block PASS_SCAN t f info id pos crc w fs lg _ Hv Hp Hb ltac:(by left)) as (w1 & Hv1 & ->).
  exists w1. split; [done|]. rewrite decide_False, decide_False, decide_True by done.
  unfold revoke_case. by rewrite decide_False.
Qed.

Lemma scan_commit t f info id pos crc crc' w fs lg :
  view w fs lg -> in_log pos -> is_block lg id pos JFS_COMMIT_BLOCK ->
  commit_ok j crc (lg pos) = true -> end_transaction info = 0 -> crc_rel crc' crc ->
  exists w1 crc1, view w1 fs lg /\ crc_rel crc1 crc_start /\
    pass_body PASS_SCAN (mkP (jv t f) info id pos crc' 0 false) w
    = Done (Continue (mkP (jv t f) info (u32 (id + 1)) (next_pos j pos) crc1 0 false), w1).
Proof.
  intros Hv Hp Hb Hok He Hcrc.
  destruct (body_block PASS_SCAN t f info id pos crc' w fs lg _ Hv Hp Hb ltac:(by left)) as (w1 & Hv1 & ->).
  exists w1. rewrite decide_False, decide_True by done. unfold commit_case. cbn [p_journal b_data log_bh].
  change (jfs_has_feature_checksum (jv t f)) with (jfs_has_feature_checksum j).
  unfold commit_ok in Hok. apply andb_true_iff in Hok as [Hck Hcb].
  destruct (jfs_has_feature_checksum j) eqn:Hf.
  - cbn [negb orb] in Hck. exists crc_start. split; [done|]. split; [done|]. rewrite decide_True by done.
    unfold commit_checksum. cbn [p_journal p_info crc32_sum]. rewrite decide_False by lia.
    rewrite (Hcrc Hf). destruct (bool_decide (crc = _) && _ && _) eqn:Hseen.
    + cbn [negb andb]. rewrite decide_True by done. unfold commit_block_check.
      cbn [p_set_crc p_journal]. change (jbd2_commit_block_csum_verify (jv t f)) with (jbd2_commit_block_csum_verify j).
      by rewrite Hcb.
    + cbn [orb] in Hck. rewrite Hck. cbn [negb andb]. rewrite decide_True by done.
      unfold commit_block_check. cbn [p_set_crc p_journal].
      change (jbd2_commit_block_csum_verify (jv t f)) with (jbd2_commit_block_csum_verify j).
      by rewrite Hcb.
  - exists crc'. split; [done|]. split; [by intros Hf'; rewrite Hf in Hf'|].
    rewrite decide_False by (intros [_ ?]; congruence). rewrite decide_True by done.
    unfold commit_block_check. cbn [p_journal].
    change (jbd2_commit_block_csum_verify (jv t f)) with (jbd2_commit_block_csum_verify j). by rewrite Hcb.
Qed.

Lemma scan_bad_commit t f info id pos crc crc' w fs lg :
  view w fs lg -> in_log pos -> is_block lg id pos JFS_COMMIT_BLOCK ->
  commit_ok j crc (lg pos) = false -> jfs_has_feature_async_commit j = false ->
  end_transaction info = 0 -> crc_rel crc' crc ->
  exists w1 crc1, view w1 fs lg /\
    pass_body PASS_SCAN (mkP (jv t f) info id pos crc' 0 false) w
    = Done (Continue (mkP (jv t id) (set_end id info) id (next_pos j pos) crc1 0 false), w1).
Proof.
  intros Hv Hp Hb Hok Has He Hcrc.
  destruct (body_block PASS_SCAN t f info id pos crc' w fs lg _ Hv Hp Hb ltac:(by left)) as (w1 & Hv1 & ->).
  exists w1. rewrite decide_False, decide_True by done. unfold commit_case. cbn [p_journal b_data log_bh].
  change (jfs_has_feature_checksum (jv t f)) with (jfs_has_feature_checksum j).
  unfold commit_ok in Hok.
  assert (Hblk : forall s, p_journal s = jv t f -> p_info s = info -> next_commit_ID s = id ->
    jbd2_commit_block_csum_verify j (lg pos) = false ->
    commit_block_check s (lg pos) = inl (mkP (jv t id) (set_end id info) id (next_log_block s) (crc32_sum s)
                                             (success s) (block_error s))).
  { intros s Hj Hi Hid Hcb. unfold commit_block_check. rewrite Hj, Hi, Hid.
    change (jbd2_commit_block_csum_verify (jv t f)) with (jbd2_commit_block_csum_verify j). rewrite Hcb.
    change (jfs_has_feature_async_commit (jv t f)) with (jfs_has_feature_async_commit j). rewrite Has.
    unfold p_set_journal, p_set_info. cbn. by rewrite Hid. }
  destruct (jfs_has_feature_checksum j) eqn:Hf.
  - cbn [negb orb] in Hok. rewrite decide_True by done.
    unfold commit_checksum. cbn [p_journal p_info crc32_sum next_commit_ID]. rewrite decide_False by lia.
    change (jfs_has_feature_async_commit (jv t f)) with (jfs_has_feature_async_commit j). rewrite Has.
    rewrite (Hcrc Hf). destruct (bool_decide (crc = _) && _ && _) eqn:Hseen.
    + cbn [negb andb]. rewrite decide_True by done. cbn [orb andb] in Hok.
      eexists. split; [done|]. rewrite Hblk by done. done.
    + cbn [orb] in Hok. destruct (bool_decide (byte_at off_h_chksum_type _ = 0) && _ && _) eqn:Hz.
      * cbn [negb andb]. rewrite decide_True by done. cbn [andb] in Hok.
        eexists. split; [done|]. rewrite Hblk by done. done.
      * cbn [negb andb]. eexists. split; [done|]. done.
  - cbn [negb orb andb] in Hok. rewrite decide_False by (intros [_ ?]; congruence). rewrite decide_True by done.
    eexists. split; [done|]. rewrite Hblk by done. done.
Qed.

(** The state of a pass at a position. *)
Abbreviation at_pos t f info id pos crc := (mkP (jv t f) info id pos crc 0 false).

(** The scan ends at the identifier of the transaction that is not there. *)
Lemma scan_torn lg id pos crc failed :
  torn_at j lg id pos crc failed ->
  forall t info crc' w fs, view w fs lg -> in_log pos -> end_transaction info = 0 -> crc_rel crc' crc ->
  exists w' s', runs PASS_SCAN (at_pos t 0 info id pos crc') w (0, s') w' /\ view w' fs lg /\
    p_journal s' = jv t (if failed then id else 0) /\ p_info s' = set_end id info.
Proof.
  induction 1 as [pos crc Hs|pos crc failed Hd Htorn IH|pos crc failed Hb Htorn IH|pos crc Hb Hok Has Hs];
    intros t info crc' w fs Hv Hp He Hcrc.
  - destruct (body_stop PASS_SCAN t 0 info id pos crc' w fs lg Hv Hp Hs ltac:(by left)) as (w1 & Hv1 & Hbody).
    apply runs_break in Hbody. eexists w1, _. split; [|split; [done|]].
    + unfold pass_done in Hbody. cbn [p_info] in Hbody. rewrite (decide_True _ _ eq_refl), decide_True in Hbody by done.
      cbn in Hbody. exact Hbody.
    + done.
  - destruct (scan_descr t 0 info id pos crc crc' w fs lg Hv Hp Hd He Hcrc) as (w1 & crc1 & Hv1 & Hcrc1 & Hbody).
    destruct (IH t info crc1 w1 fs Hv1) as (w2 & s2 & Hrun & Hv2 & Hj & Hi); [|done|done|].
    { by apply skip_pos_in, next_pos_in. }
    exists w2, s2. split; [by eapply runs_continue|done].
  - destruct (scan_revoke t 0 info id pos crc' w fs lg Hv Hp Hb) as (w1 & Hv1 & Hbody).
    destruct (IH t info crc' w1 fs Hv1) as (w2 & s2 & Hrun & Hv2 & Hj & Hi); [by apply next_pos_in|done|done|].
    exists w2, s2. split; [by eapply runs_continue|done].
  - destruct (scan_bad_commit t 0 info id pos crc crc' w fs lg Hv Hp Hb Hok Has He Hcrc)
      as (w1 & crc1 & Hv1 & Hbody).
    destruct (body_stop PASS_SCAN t id (set_end id info) id (next_pos j pos) crc1 w1 fs lg Hv1
                (next_pos_in _ Hp) Hs ltac:(by left)) as (w2 & Hv2 & Hbody2).
    apply runs_break in Hbody2.
    eexists w2, _. split; [eapply runs_continue; [exact Hbody|]|split; [done|]].
    + unfold pass_done in Hbody2. cbn [p_info next_commit_ID] in Hbody2.
      rewrite (decide_True _ _ eq_refl) in Hbody2. cbn in Hbody2.
      assert (Heq : (if decide (id = 0) then p_set_info (set_end id (set_end id info))
                       (at_pos t id (set_end id info) id (next_pos j (next_pos j pos)) crc1)
                     else at_pos t id (set_end id info) id (next_pos j (next_pos j pos)) crc1)
                    = at_pos t id (set_end id info) id (next_pos j (next_pos j pos)) crc1)
        by (by case_decide).
      rewrite Heq in Hbody2. cbn in Hbody2. exact Hbody2.
    + done.
Qed.

Lemma scan_txn lg id pos crc tx pos' :
  txn_at j lg id pos crc tx pos' ->
  forall t info crc' w fs, view w fs lg -> in_log pos -> end_transaction info = 0 -> crc_rel crc' crc ->
  in_log pos' /\
  exists w1 crc1, view w1 fs lg /\ crc_rel crc1 crc_start /\
    forall r w', runs PASS_SCAN (at_pos t 0 info (u32 (id + 1)) pos' crc1) w1 r w' ->
                 runs PASS_SCAN (at_pos t 0 info id pos crc') w r w'.
Proof.
  induction 1 as [pos crc Hb Hok|pos crc tx pos' Hd Htags Htx IH|pos crc tx pos' [Hb _] Htx IH];
    intros t info crc' w fs Hv Hp He Hcrc.
  - destruct (scan_commit t 0 info id pos crc crc' w fs lg Hv Hp Hb Hok He Hcrc)
      as (w1 & crc1 & Hv1 & Hcrc1 & Hbody).
    split; [by apply next_pos_in|]. exists w1, crc1. split; [done|]. split; [done|].
    intros r w' Hrun. by eapply runs_continue.
  - destruct (scan_descr t 0 info id pos crc crc' w fs lg Hv Hp Hd He Hcrc) as (w1 & crc1 & Hv1 & Hcrc1 & Hbody).
    destruct (IH t info crc1 w1 fs Hv1) as (Hp' & w2 & crc2 & Hv2 & Hcrc2 & Hrun); [|done|done|].
    { by apply skip_pos_in, next_pos_in. }
    split; [done|]. exists w2, crc2. split; [done|]. split; [done|].
    intros r w' Hr. eapply runs_continue; [done|]. by apply Hrun.
  - destruct (scan_revoke t 0 info id pos crc' w fs lg Hv Hp Hb) as (w1 & Hv1 & Hbody).
    destruct (IH t info crc' w1 fs Hv1) as (Hp' & w2 & crc2 & Hv2 & Hcrc2 & Hrun);
      [by apply next_pos_in|done|done|].
    split; [done|]. exists w2, crc2. split; [done|]. split; [done|].
    intros r w' Hr. eapply runs_continue; [done|]. by apply Hrun.
Qed.

(** The identifier after [n] transactions. *)
Definition id_after (id : Z) (n : nat) : Z := u32 (id + Z.of_nat n).

Lemma id_after_0 id : in_u 32 id -> id_after id 0 = id.
Proof. intros. unfold id_after. rewrite Z.add_0_r. by apply u32_small. Qed.

Lemma id_after_S id n : id_after (u32 (id + 1)) n = id_after id (S n).
Proof. unfold id_after. mlia. Qed.

Lemma scan_log lg id pos ts failed :
  log_at j lg id pos ts failed -> in_u 32 id ->
  forall t info crc w fs, view w fs lg -> in_log pos -> end_transaction info = 0 -> crc_rel crc crc_start ->
  exists w' s', runs PASS_SCAN (at_pos t 0 info id pos crc) w (0, s') w' /\ view w' fs lg /\
    p_journal s' = jv t (if failed then id_after id (length ts) else 0) /\
    p_info s' = set_end (id_after id (length ts)) info.
Proof.
  induction 1 as [id pos failed Htorn|id pos tx pos' ts failed Htx Hlog IH]; intros Hid t info crc w fs Hv Hp He Hcrc.
  - cbn [length]. rewrite id_after_0 by done. by apply (scan_torn lg id pos crc_start failed Htorn).
  - destruct (scan_txn lg id pos crc_start tx pos' Htx t info crc w fs Hv Hp He Hcrc)
      as (Hp' & w1 & crc1 & Hv1 & Hcrc1 & Hrun).
    destruct (IH ltac:(apply u32_range) t info crc1 w1 fs Hv1 Hp' He Hcrc1) as (w2 & s2 & Hr & Hv2 & Hj & Hi).
    rewrite id_after_S in Hj, Hi. exists w2, s2. split; [by apply Hrun|done].
Qed.

(** * The revoke pass *)

Lemma skip_descr pass t f info id pos crc w fs lg :
  pass = PASS_REVOKE -> tid_geq id (end_transaction info) = false ->
  view w fs lg -> in_log pos -> descr_ok j lg id pos ->
  exists w1, view w1 fs lg /\
    pass_body pass (at_pos t f info id pos crc) w
    = Done (Continue (at_pos t f info id (after_descr j lg pos) crc), w1).
Proof.
  intros -> He Hv Hp (Hb & Hc & Hn).
  destruct (body_block PASS_REVOKE t f info id pos crc w fs lg _ Hv Hp Hb ltac:(by right)) as (w1 & Hv1 & ->).
  exists w1. split; [done|]. rewrite decide_True by done. unfold descriptor_case. cbn [p_journal p_info b_data log_bh].
  change (jbd2_descr_block_csum_verify (jv t f)) with (jbd2_descr_block_csum_verify j). rewrite Hc. cbn [negb].
  rewrite decide_False by (by intros [? _]). rewrite brelse_log. cbn [next_log_block].
  change (wrap (jv t f)) with (wrap j).
  rewrite count_tags_jv, wrap_skip; [done|by apply next_pos_in|done].
Qed.

Lemma commit_next pass t f info id pos crc w fs lg :
  pass <> PASS_SCAN -> tid_geq id (end_transaction info) = false ->
  view w fs lg -> in_log pos -> is_block lg id pos JFS_COMMIT_BLOCK ->
  exists w1, view w1 fs lg /\
    pass_body pass (at_pos t f info id pos crc) w
    = Done (Continue (at_pos t f info (u32 (id + 1)) (next_pos j pos) crc), w1).
Proof.
  intros Hpass He Hv Hp Hb.
  destruct (body_block pass t f info id pos crc w fs lg _ Hv Hp Hb ltac:(by right)) as (w1 & Hv1 & ->).
  exists w1. split; [done|]. rewrite decide_False, decide_True by done. unfold commit_case.
  rewrite decide_False by (by intros [? _]). by rewrite decide_False.
Qed.

(** A pass other than the scan ends before a transaction that is not to be looked at. *)
Lemma pass_ends pass t f info id pos crc w :
  pass <> PASS_SCAN -> end_transaction info = id -> in_u 32 id ->
  runs pass (at_pos t f info id pos crc) w (0, at_pos t f info id pos crc) w.
Proof.
  intros Hpass He Hid.
  assert (Hb : pass_body pass (at_pos t f info id pos crc) w = Done (Break (at_pos t f info id pos crc), w)).
  { unfold pass_body. cbn [p_info next_commit_ID]. rewrite decide_True; [done|]. split; [done|].
    rewrite He. unfold tid_geq. rewrite Z.sub_diag. done. }
  apply runs_break in Hb. unfold pass_done in Hb. cbn [p_info next_commit_ID] in Hb.
  rewrite decide_False, decide_False in Hb by lia || done. exact Hb.
Qed.

Lemma revoke_loop_ok fuel buf offset max rl id t info :
  exists info',
    revoke_loop fuel buf offset max rl id t info
    = (set_revokes ((., id) <$> revoke_list fuel buf offset max rl) t, info') /\
    end_transaction info' = end_transaction info.
Proof.
  revert offset t info. induction fuel as [|fuel IH]; intros offset t info; cbn [revoke_loop revoke_list].
  { by exists info. }
  destruct (decide (offset + rl <= max)); [|by exists info].
  destruct (IH (offset + rl) (journal_set_revoke t (if decide (rl = 4) then be32_at offset buf else be64_at offset buf) id)
              (inc_revokes info)) as (info' & -> & He).
  by exists info'.
Qed.

Lemma revoke_rev t f info id pos crc w fs lg :
  tid_geq id (end_transaction info) = false ->
  view w fs lg -> in_log pos -> revoke_ok j lg id pos ->
  exists w1 info1, view w1 fs lg /\ end_transaction info1 = end_transaction info /\
    pass_body PASS_REVOKE (at_pos (Some t) f info id pos crc) w
    = Done (Continue (at_pos (Some (set_revokes ((., id) <$> revokes_of j (lg pos)) t)) f info1 id
                             (next_pos j pos) crc), w1).
Proof.
  intros He Hv Hp (Hb & Hc & Hn).
  destruct (body_block PASS_REVOKE (Some t) f info id pos crc w fs lg _ Hv Hp Hb ltac:(by right)) as (w1 & Hv1 & ->).
  exists w1. rewrite decide_False, decide_False, decide_True by done. unfold revoke_case.
  rewrite decide_True by done. cbn [p_journal b_data log_bh next_commit_ID p_info]. unfold scan_revoke_records.
  change (jbd2_revoke_block_csum_verify (jv (Some t) f)) with (jbd2_revoke_block_csum_verify j). rewrite Hc. cbn [negb].
  change (journal_has_csum_v2or3 (jv (Some t) f)) with (journal_has_csum_v2or3 j).
  change (jfs_has_feature_64bit (jv (Some t) f)) with (jfs_has_feature_64bit j).
  change (j_blocksize (jv (Some t) f)) with (j_blocksize j).
  change (if journal_has_csum_v2or3 j then sizeof_journal_revoke_tail else 0) with (descr_csum_size j).
  pose proof (g_bs _ Hg). pose proof (g_bs_range _ Hg) as Hbs.
  pose proof (be32_at_range off_r_count (lg pos)) as [Hr0 _].
  assert (Hcs : 0 <= descr_csum_size j <= 4)
    by (unfold descr_csum_size, sizeof_journal_block_tail; destruct (journal_has_csum_v2or3 j); lia).
  rewrite u32_small by (unfold in_u; pow2_norm; lia). rewrite decide_False by lia.
  change (j_revoke (jv (Some t) f)) with (Some t). cbn [mbind option_bind].
  rewrite s32_small by lia.
  destruct (revoke_loop_ok (Z.to_nat (be32_at off_r_count (lg pos))) (lg pos) sizeof_journal_revoke_header
              (be32_at off_r_count (lg pos)) (if jfs_has_feature_64bit j then 8 else 4) id t info) as (info1 & -> & He1).
  exists info1. split; [done|]. split; [done|]. done.
Qed.

Lemma set_revokes_app l1 l2 t : set_revokes (l1 ++ l2) t = set_revokes l2 (set_revokes l1 t).
Proof. unfold set_revokes. apply foldl_app. Qed.

Lemma revoke_txn lg id pos crc0 tx pos' :
  txn_at j lg id pos crc0 tx pos' ->
  forall t f info crc w fs, view w fs lg -> in_log pos -> tid_geq id (end_transaction info) = false ->
  in_log pos' /\
  exists w1 info1, view w1 fs lg /\ end_transaction info1 = end_transaction info /\
    forall r w',
      runs PASS_REVOKE (at_pos (Some (set_revokes ((., id) <$> t_revokes tx) t)) f info1 (u32 (id + 1)) pos' crc) w1 r w' ->
      runs PASS_REVOKE (at_pos (Some t) f info id pos crc) w r w'.
Proof.
  induction 1 as [pos crc0 Hb Hok|pos crc0 tx pos' Hd Htags Htx IH|pos crc0 tx pos' Hrev Htx IH];
    intros t f info crc w fs Hv Hp He.
  - destruct (commit_next PASS_REVOKE (Some t) f info id pos crc w fs lg ltac:(done) He Hv Hp Hb) as (w1 & Hv1 & Hbody).
    split; [by apply next_pos_in|]. exists w1, info. split; [done|]. split; [done|].
    intros r w' Hrun. by eapply runs_continue.
  - destruct (skip_descr PASS_REVOKE (Some t) f info id pos crc w fs lg eq_refl He Hv Hp Hd) as (w1 & Hv1 & Hbody).
    destruct (IH t f info crc w1 fs Hv1) as (Hp' & w2 & info2 & Hv2 & He2 & Hrun); [|done|].
    { by apply skip_pos_in, next_pos_in. }
    split; [done|]. exists w2, info2. split; [done|]. split; [done|].
    intros r w' Hr. eapply runs_continue; [done|]. by apply Hrun.
  - destruct (revoke_rev t f info id pos crc w fs lg He Hv Hp Hrev) as (w1 & info1 & Hv1 & He1 & Hbody).
    destruct (IH (set_revokes ((., id) <$> revokes_of j (lg pos)) t) f info1 crc w1 fs Hv1)
      as (Hp' & w2 & info2 & Hv2 & He2 & Hrun); [by apply next_pos_in|by rewrite He1|].
    split; [done|]. exists w2, info2. split; [done|]. split; [by rewrite He2|].
    intros r w' Hr. eapply runs_continue; [done|]. apply Hrun.
    cbn [t_revokes] in Hr. by rewrite fmap_app, set_revokes_app in Hr.
Qed.

(** The revokes of a list of transactions with their numbers, from [k] on. *)
Fixpoint revokes_from (k : Z) (ts : list txn) : list (Z * Z) :=
  match ts with
  | [] => []
  | t :: ts' => ((., k) <$> t_revokes t) ++ revokes_from (k + 1) ts'
  end.

Lemma revokes_from_elem b k' k ts :
  (b, k') ∈ revokes_from k ts <-> exists i t, ts !! i = Some t /\ b ∈ t_revokes t /\ k' = k + Z.of_nat i.
Proof.
  revert k. induction ts as [|t ts IH]; intros k; cbn [revokes_from].
  { split; [by intros ?%not_elem_of_nil|]. by intros (i & t & ? & _). }
  rewrite elem_of_app, IH, list_elem_of_fmap. split.
  - intros [(b' & [= <- ->] & Hb)|(i & t' & Hi & Hb & ->)].
    + exists 0%nat, t. split_and!; [done|done|lia].
    + exists (S i), t'. split_and!; [done|done|lia].
  - intros ([|i] & t' & Hi & Hb & ->).
    + injection Hi as ->. left. exists b. split; [f_equal; lia|done].
    + right. exists i, t'. split_and!; [done|done|lia].
Qed.

Lemma revokes_from_range k ts :
  0 <= k -> k + Z.of_nat (length ts) < 2 ^ 31 -> Forall (fun p => 0 <= p.2 < 2 ^ 31) (revokes_from k ts).
Proof.
  intros Hk Hl. apply Forall_forall. intros [b k'] (i & t & Hi & _ & ->)%revokes_from_elem.
  apply lookup_lt_Some in Hi. cbn [snd]. lia.
Qed.

(** The sequence numbers the code gives them. *)
Definition numbered (id : Z) (l : list (Z * Z)) : list (Z * Z) := prod_map (fun b => b) (fun k => u32 (id + k)) <$> l.

Lemma tid_before id k n : 0 <= k < Z.of_nat n -> Z.of_nat n < 2 ^ 31 -> tid_geq (u32 (id + k)) (id_after id n) = false.
Proof.
  intros Hk Hn. unfold id_after. rewrite tid_geq_window by lia. apply bool_decide_eq_false. lia.
Qed.

Lemma revoke_log lg id pos ts failed id0 k n :
  log_at j lg id pos ts failed -> id = u32 (id0 + k) -> 0 <= k -> k + Z.of_nat (length ts) = Z.of_nat n ->
  Z.of_nat n < 2 ^ 31 ->
  forall t f info crc w fs, view w fs lg -> in_log pos -> end_transaction info = id_after id0 n ->
  exists w' s', runs PASS_REVOKE (at_pos (Some t) f info id pos crc) w (0, s') w' /\ view w' fs lg /\
    p_journal s' = jv (Some (set_revokes (numbered id0 (revokes_from k ts)) t)) f /\
    end_transaction (p_info s') = id_after id0 n.
Proof.
  intros Hlog. revert k. induction Hlog as [id pos failed Htorn|id pos tx pos' ts failed Htx Hlog IH];
    intros k -> Hk Hlen Hn t f info crc w fs Hv Hp He; cbn [length] in Hlen.
  - exists w, (at_pos (Some t) f info (u32 (id0 + k)) pos crc). split; [|done].
    apply pass_ends; [done| |apply u32_range]. rewrite He. unfold id_after. do 2 f_equal. lia.
  - assert (Htid : tid_geq (u32 (id0 + k)) (end_transaction info) = false) by (rewrite He; apply tid_before; lia).
    destruct (revoke_txn lg _ pos crc_start tx pos' Htx t f info crc w fs Hv Hp Htid)
      as (Hp' & w1 & info1 & Hv1 & He1 & Hrun).
    destruct (IH (k + 1) ltac:(mlia) ltac:(lia) ltac:(lia) Hn
                (set_revokes ((., u32 (id0 + k)) <$> t_revokes tx) t) f info1 crc w1 fs Hv1 Hp' ltac:(congruence))
      as (w2 & s2 & Hr & Hv2 & Hj & Hi).
    exists w2, s2. split; [by apply Hrun|]. split; [done|]. split; [|done]. rewrite Hj. do 2 f_equal.
    cbn [revokes_from]. unfold numbered. rewrite fmap_app, set_revokes_app. do 2 f_equal.
    rewrite <- list_fmap_compose. done.
Qed.

(** * The replay pass *)

Lemma replay_tag_ok T f info id pos crc dbuf tagp w fs lg :
  view w fs lg -> in_log pos ->
  jbd2_block_tag_csum_verify j dbuf tagp (lg pos) (be32_at off_h_sequence dbuf) = true ->
  (journal_test_revoke T (read_tag_block j dbuf tagp) id = false -> target (read_tag_block j dbuf tagp)) ->
  exists w' info', end_transaction info' = end_transaction info /\
    replay_tag (at_pos (Some T) f info id pos crc) dbuf tagp w
    = Done (at_pos (Some T) f info' id (next_pos j pos) crc, w') /\
    view w' (if journal_test_revoke T (read_tag_block j dbuf tagp) id then fs
             else fs_upd (read_tag_block j dbuf tagp) (restored j (tag_flags dbuf tagp) (lg pos)) fs) lg.
Proof.
  intros Hv Hp Hc Ht. destruct (jread_ok w fs lg pos (Some T) f Hv Hp) as (w1 & Hr & Hv1).
  unfold replay_tag. cbn [p_journal next_log_block]. rewrite (J_bind_done _ _ _ _ _ Hr).
  change (j_revoke (jv (Some T) f)) with (Some T). cbn [next_commit_ID p_set_blk p_info].
  change (read_tag_block (jv (Some T) f)) with (read_tag_block j).
  change (jbd2_block_tag_csum_verify (jv (Some T) f)) with (jbd2_block_tag_csum_verify j).
  change (wrap (jv (Some T) f)) with (wrap j). cbn [b_data log_bh]. rewrite wrap_next, Hc by done. cbn [negb].
  destruct (journal_test_revoke T (read_tag_block j dbuf tagp) id) eqn:Hrev.
  - exists w1, (inc_hits info). done.
  - destruct (restore_block_ok w1 fs lg (tag_flags dbuf tagp) (read_tag_block j dbuf tagp) (lg pos) (Some T) f
                Hv1 (Ht eq_refl)) as (w2 & Hw & Hv2); [by eapply log_block_size|].
    rewrite (J_bind_done _ _ _ _ _ Hw), brelse_log. exists w2, (inc_replays info). done.
Qed.

Lemma replay_tags_ok fuel T f id crc dbuf lg :
  forall tagp pos info w fs,
  view w fs lg -> in_log pos ->
  tags_csum_ok j lg dbuf pos (tag_loop fuel j dbuf tagp) ->
  Forall (fun x => journal_test_revoke T x.1 id = false -> target x.1)
         (described j lg dbuf pos (tag_loop fuel j dbuf tagp)) ->
  exists w' info', end_transaction info' = end_transaction info /\
    replay_tags fuel (at_pos (Some T) f info id pos crc) dbuf tagp w
    = Done (at_pos (Some T) f info' id (skip_pos j (length (tag_loop fuel j dbuf tagp)) pos) crc, w') /\
    view w' (apply_writes (fun b => journal_test_revoke T b id)
               (described j lg dbuf pos (tag_loop fuel j dbuf tagp)) fs) lg.
Proof.
  induction fuel as [|fuel IH]; intros tagp pos info w fs Hv Hp Hc Ht; cbn [replay_tags tag_loop] in *.
  { by exists w, info. }
  cbn [p_journal]. change (journal_tag_bytes (jv (Some T) f)) with (journal_tag_bytes j).
  change (j_blocksize (jv (Some T) f)) with (j_blocksize j).
  change (descr_csum_size (jv (Some T) f)) with (descr_csum_size j).
  change (next_tag (jv (Some T) f)) with (next_tag j).
  destruct (decide (tagp + journal_tag_bytes j <= j_blocksize j - descr_csum_size j)); [|by exists w, info].
  cbv zeta in *.
  assert (Hone : exists w1 info1, end_transaction info1 = end_transaction info /\
    replay_tag (at_pos (Some T) f info id pos crc) dbuf tagp w
    = Done (at_pos (Some T) f info1 id (next_pos j pos) crc, w1) /\
    view w1 (if journal_test_revoke T (read_tag_block j dbuf tagp) id then fs
             else fs_upd (read_tag_block j dbuf tagp) (restored j (tag_flags dbuf tagp) (lg pos)) fs) lg).
  { destruct (has_flag _ _); cbn [tags_csum_ok described] in Hc, Ht; apply Forall_cons in Ht as [Ht _];
      destruct Hc as [Hc _]; by apply replay_tag_ok. }
  destruct Hone as (w1 & info1 & He1 & Hr & Hv1). rewrite (J_bind_done _ _ _ _ _ Hr).
  destruct (has_flag _ _).
  - exists w1, info1. done.
  - cbn [tags_csum_ok described] in Hc, Ht. destruct Hc as [_ Hc]. apply Forall_cons in Ht as [_ Ht].
    destruct (IH (next_tag j (tag_flags dbuf tagp) tagp) (next_pos j pos) info1 w1 _ Hv1 (next_pos_in _ Hp) Hc Ht)
      as (w2 & info2 & He2 & Hr2 & Hv2).
    exists w2, info2. split; [congruence|]. split; [exact Hr2|]. exact Hv2.
Qed.

Lemma view_ext w fs fs' lg : (forall b, fs b = fs' b) -> view w fs lg -> view w fs' lg.
Proof. intros He (c & Hok & Hfs & Hlg). exists c. split; [done|]. split; [|done]. intros b. by rewrite Hfs. Qed.

Lemma apply_writes_app skip ws1 ws2 fs :
  apply_writes skip (ws1 ++ ws2) fs = apply_writes skip ws2 (apply_writes skip ws1 fs).
Proof. unfold apply_writes. apply foldl_app. Qed.

Lemma replay_txn lg id pos crc0 tx pos' :
  txn_at j lg id pos crc0 tx pos' ->
  forall T f info crc w fs, view w fs lg -> in_log pos -> tid_geq id (end_transaction info) = false ->
  Forall (fun x => journal_test_revoke T x.1 id = false -> target x.1) (t_writes tx) ->
  in_log pos' /\
  exists w1 info1, end_transaction info1 = end_transaction info /\
    view w1 (apply_writes (fun b => journal_test_revoke T b id) (t_writes tx) fs) lg /\
    forall r w', runs PASS_REPLAY (at_pos (Some T) f info1 (u32 (id + 1)) pos' crc) w1 r w' ->
                 runs PASS_REPLAY (at_pos (Some T) f info id pos crc) w r w'.
Proof.
  induction 1 as [pos crc0 Hb Hok|pos crc0 tx pos' (Hb & Hc & Hn) Htags Htx IH|pos crc0 tx pos' [Hb _] Htx IH];
    intros T f info crc w fs Hv Hp He Hw.
  - destruct (commit_next PASS_REPLAY (Some T) f info id pos crc w fs lg ltac:(done) He Hv Hp Hb) as (w1 & Hv1 & Hbody).
    split; [by apply next_pos_in|]. exists w1, info. split; [done|]. split; [done|].
    intros r w' Hrun. by eapply runs_continue.
  - cbn [t_writes] in Hw. apply Forall_app in Hw as [Hw1 Hw2].
    destruct (body_block PASS_REPLAY (Some T) f info id pos crc w fs lg _ Hv Hp Hb ltac:(by right)) as (w1 & Hv1 & Hbody).
    destruct (replay_tags_ok (Z.to_nat (j_blocksize j)) T f id crc (lg pos) lg sizeof_journal_header
                (next_pos j pos) info w1 fs Hv1 (next_pos_in _ Hp) Htags Hw1) as (w2 & info2 & He2 & Hr2 & Hv2).
    destruct (IH T f info2 crc w2 _ Hv2) as (Hp' & w3 & info3 & He3 & Hv3 & Hrun);
      [by apply skip_pos_in, next_pos_in|by rewrite He2|done|].
    split; [done|]. exists w3, info3. split; [congruence|]. split.
    + cbn [t_writes]. by rewrite apply_writes_app.
    + intros r w' Hr. eapply runs_continue; [|by apply Hrun]. rewrite Hbody. cbv zeta.
      rewrite decide_True by done. unfold descriptor_case. cbn [p_journal b_data log_bh].
      change (jbd2_descr_block_csum_verify (jv (Some T) f)) with (jbd2_descr_block_csum_verify j). rewrite Hc. cbn [negb].
      change (j_blocksize (jv (Some T) f)) with (j_blocksize j).
      rewrite (J_bind_done _ _ _ _ _ Hr2). done.
  - destruct (body_block PASS_REPLAY (Some T) f info id pos crc w fs lg _ Hv Hp Hb ltac:(by right)) as (w1 & Hv1 & Hbody).
    destruct (IH T f info crc w1 fs Hv1) as (Hp' & w2 & info2 & He2 & Hv2 & Hrun); [by apply next_pos_in|done|done|].
    split; [done|]. exists w2, info2. split; [done|]. split; [done|].
    intros r w' Hr. eapply runs_continue; [|by apply Hrun]. rewrite Hbody. cbv zeta.
    rewrite decide_False, decide_False, decide_True by done. unfold revoke_case. by rewrite decide_False.
Qed.

(** Every block that recovery has to write is one it may write. *)
Fixpoint writes_ok (ts : list txn) : Prop :=
  match ts with
  | [] => True
  | t :: ts' => Forall (fun x => revoked_in ts x.1 = false -> target x.1) (t_writes t) /\ writes_ok ts'
  end.

Lemma revoked_in_spec ts b : revoked_in ts b = true <-> exists i t, ts !! i = Some t /\ b ∈ t_revokes t.
Proof.
  unfold revoked_in. rewrite existsb_exists. split.
  - intros (t & Ht%list_elem_of_In & Hb%bool_decide_eq_true). apply list_elem_of_lookup in Ht as [i Hi]. by exists i, t.
  - intros (i & t & Hi & Hb). exists t. split; [by apply list_elem_of_In, list_elem_of_lookup_2 with i|].
    by apply bool_decide_eq_true.
Qed.

(** With the table of the whole log, the test asks for this and the later transactions. *)
Lemma test_revoked_in id0 t0 ts1 ts2 b :
  table_ok t0 -> (forall b, revoked_at t0 b = None) -> Z.of_nat (length (ts1 ++ ts2)) < 2 ^ 31 ->
  ts2 <> [] ->
  journal_test_revoke (set_revokes (numbered id0 (revokes_from 0 (ts1 ++ ts2))) t0) b
    (u32 (id0 + Z.of_nat (length ts1))) = revoked_in ts2 b.
Proof.
  intros Hok Hn Hl Hne. apply eq_bool_prop_intro. rewrite !Is_true_true. unfold numbered.
  rewrite length_app in Hl. assert (length ts2 <> 0%nat) by (by destruct ts2).
  rewrite test_set_revokes; [|done|done|apply revokes_from_range; rewrite ?length_app; lia|lia].
  rewrite revoked_in_spec. split.
  - intros (k' & Hk & (i & t & Hi & Hb & ->)%revokes_from_elem).
    exists (i - length ts1)%nat, t. split; [|done]. rewrite lookup_app_r in Hi by lia. done.
  - intros (i & t & Hi & Hb). exists (Z.of_nat (length ts1 + i)). split; [lia|].
    apply revokes_from_elem. exists (length ts1 + i)%nat, t. split_and!; [|done|lia].
    rewrite lookup_app_r by lia. rewrite <- Hi. f_equal. lia.
Qed.

Lemma replay_log lg id pos ts failed id0 t0 ts1 :
  log_at j lg id pos ts failed -> id = u32 (id0 + Z.of_nat (length ts1)) ->
  table_ok t0 -> (forall b, revoked_at t0 b = None) -> Z.of_nat (length (ts1 ++ ts)) < 2 ^ 31 ->
  forall f info crc w fs, view w fs lg -> in_log pos -> writes_ok ts ->
  end_transaction info = id_after id0 (length (ts1 ++ ts)) ->
  let T := set_revokes (numbered id0 (revokes_from 0 (ts1 ++ ts))) t0 in
  exists w' s', runs PASS_REPLAY (at_pos (Some T) f info id pos crc) w (0, s') w' /\
    view w' (spec_replay ts fs) lg /\ p_journal s' = jv (Some T) f /\
    end_transaction (p_info s') = end_transaction info.
Proof.
  intros Hlog. revert ts1. induction Hlog as [id pos failed Htorn|id pos tx pos' ts failed Htx Hlog IH];
    intros ts1 -> Hok Hn Hl f info crc w fs Hv Hp Hw He T.
  - exists w, (at_pos (Some T) f info (u32 (id0 + Z.of_nat (length ts1))) pos crc). split; [|done].
    apply pass_ends; [done| |apply u32_range]. rewrite He. unfold id_after. by rewrite app_nil_r.
  - destruct Hw as [Hw1 Hw2].
    assert (Htest : forall b, journal_test_revoke T b (u32 (id0 + Z.of_nat (length ts1))) = revoked_in (tx :: ts) b).
    { intros b. by apply test_revoked_in. }
    assert (Htid : tid_geq (u32 (id0 + Z.of_nat (length ts1))) (end_transaction info) = false).
    { rewrite He. apply tid_before; rewrite length_app in *; cbn [length] in *; lia. }
    destruct (replay_txn lg _ pos crc_start tx pos' Htx T f info crc w fs Hv Hp Htid)
      as (Hp' & w1 & info1 & He1 & Hv1 & Hrun).
    { eapply Forall_impl; [exact Hw1|]. intros x Hx. cbn. by rewrite Htest. }
    destruct (IH (ts1 ++ [tx])) with (f := f) (info := info1) (crc := crc) (w := w1)
      (fs := apply_writes (revoked_in (tx :: ts)) (t_writes tx) fs) as (w2 & s2 & Hr & Hv2 & Hj & Hi);
      try done.
    { rewrite length_app. cbn [length]. mlia. }
    { by rewrite <- app_assoc. }
    { eapply view_ext; [|exact Hv1]. apply apply_writes_ext; [exact Htest|done]. }
    { by rewrite <- app_assoc, He1. }
    rewrite <- app_assoc in Hr, Hj. cbn [app] in Hr, Hj.
    exists w2, s2. split; [by apply Hrun|]. split; [done|]. split; [done|]. congruence.
Qed.

(** * Recovery *)

Lemma runs_pass pass j1 info w r w' :
  runs pass (pass_start j1 info pass) w r w' ->
  exists n, forall fuel, (n <= fuel)%nat ->
    do_one_pass fuel j1 info pass w = Done ((r.1, p_journal r.2, p_info r.2), w').
Proof.
  intros [n Hn]. exists n. intros fuel Hf. unfold do_one_pass.
  by rewrite (J_bind_done _ _ _ _ _ (Hn fuel Hf)).
Qed.

Lemma jv_self : jv (j_revoke j) (j_failed_commit j) = j.
Proof. clear Hg. unfold jv. by destruct j as [[]]. Qed.

(** What recovery of a log with the committed transactions [ts] does. *)
Lemma journal_recover_log lg ts failed t w fs :
  view w fs lg -> table_ok t -> (forall b, revoked_at t b = None) ->
  j_revoke j = Some t -> j_failed_commit j = 0 ->
  let sb := j_superblock j in
  let id := be32_at off_s_sequence sb in
  let pos := be32_at off_s_start sb in
  pos <> 0 -> in_log pos -> log_at j lg id pos ts failed -> Z.of_nat (length ts) < 2 ^ 31 -> writes_ok ts ->
  exists n w' t', (forall fuel, (n <= fuel)%nat -> journal_recover fuel j w =
      Done ((0, j_set_transaction_sequence (u32 (id + Z.of_nat (length ts) + 1))
                  (j_set_failed_commit (if failed then id_after id (length ts) else 0) (j_set_revoke (Some t') j))), w')) /\
    view w' (spec_replay ts fs) lg /\ io_durable w' /\ journal_destroy_revoke_table t' = true.
Proof.
  intros Hv Hok Hn Ht Hf0 sb id pos Hpos Hp Hlog Hl Hw.
  assert (Hid : in_u 32 id) by apply be32_at_range.
  assert (Hjv : j = jv (Some t) 0) by (by rewrite <- Ht, <- Hf0, jv_self).
  destruct (scan_log lg id pos ts failed Hlog Hid (Some t) (set_start id info_zero) crc_start w fs Hv Hp)
    as (w1 & s1 & Hr1 & Hv1 & Hj1 & Hi1); [done|done|].
  set (F := if failed then id_after id (length ts) else 0) in *.
  set (i1 := p_info s1) in *.
  destruct (revoke_log lg id pos ts failed id 0 (length ts) Hlog) with (t := t) (f := F) (info := i1)
    (crc := crc_start) (w := w1) (fs := fs) as (w2 & s2 & Hr2 & Hv2 & Hj2 & Hi2); try done.
  { rewrite Z.add_0_r. by rewrite u32_small. }
  { by rewrite Hi1. }
  set (T := set_revokes (numbered id (revokes_from 0 ts)) t) in *.
  destruct (replay_log lg id pos ts failed id t [] Hlog) with (f := F) (info := p_info s2) (crc := crc_start)
    (w := w2) (fs := fs) as (w3 & s3 & Hr3 & Hv3 & Hj3 & Hi3); try done.
  { cbn [length]. rewrite Z.add_0_r. by rewrite u32_small. }
  change ([] ++ ts) with ts in Hr3, Hj3. fold T in Hr3, Hj3.
  assert (HokT : table_ok T) by by apply set_revokes_ok.
  destruct Hv3 as (c & Hc & Hfs & Hlg3).
  destruct (io_flush_law w3 c K_DEV_FS Hc) as (w4 & Hfl & Hc4 & Hdur).
  destruct (runs_pass PASS_SCAN j info_zero w (0, s1) w1) as (n1 & Hn1).
  { rewrite Hjv. exact Hr1. }
  destruct (runs_pass PASS_REVOKE (jv (Some t) F) i1 w1 (0, s2) w2) as (n2 & Hn2); [exact Hr2|].
  destruct (runs_pass PASS_REPLAY (jv (Some T) F) (p_info s2) w2 (0, s3) w3) as (n3 & Hn3); [exact Hr3|].
  exists (n1 + n2 + n3)%nat, w4, (journal_clear_revoke T). split.
  { intros fuel Hfuel. unfold journal_recover. fold sb. fold pos. rewrite decide_False by done.
    rewrite (J_bind_done _ _ _ _ _ (Hn1 fuel ltac:(lia))). cbn [fst snd]. rewrite Hj1. fold F i1.
    rewrite decide_True by done.
    rewrite (J_bind_done _ _ _ _ _ (Hn2 fuel ltac:(lia))). cbn [fst snd]. rewrite Hj2.
    rewrite decide_True by done.
    rewrite (J_bind_done _ _ _ _ _ (Hn3 fuel ltac:(lia))). cbn [fst snd]. rewrite Hj3.
    change (j_revoke (j_set_transaction_sequence _ (jv (Some T) F))) with (Some T). cbv beta iota zeta.
    unfold sync_blockdev, lift, mbind, J_bind. rewrite Hfl.
    replace (u32 (end_transaction (p_info s3) + 1)) with (u32 (id + Z.of_nat (length ts) + 1))
      by (rewrite Hi3, Hi2; unfold id_after; mlia).
    reflexivity. }
  split; [by exists c|]. split; [apply Hdur; by left|]. by apply clear_revoke_destroy.
Qed.

End proofs.
