(* ===== verification/Journal.v ===== *)
(** The journal of the file system being checked: [rfsck-ext/e2fsck/journal.c].

    The checker's context, the file system and its superblock are the record [ectx], with the
    I/O channel inside it; the channel of the context is again an [IoChannel], so recovery
    runs in it.  Arguments stand for the code beside this file that it calls: [answer] for
    [fix_problem] (which may depend on the questions asked before), [bmap2], [read_inode],
    [write_inode], [inode_blocks] for the inode library, [open_ext_journal] for the
    superblock of an external journal, [uuid_seq] for [uuid_generate], [reopen] for
    [ext2fs_free] and [ext2fs_open]. *)
From Stdlib Require Import ZArith Lia.
From stdpp Require Import base tactics numbers list gmap.
From S2P Require Import Prelude Crc32c ExtErr Jbd Revoke Crc32Be Buffer Recovery.

(** * Constants *)

Definition EXT3_FEATURE_COMPAT_HAS_JOURNAL : Z := 0x4.
Definition EXT3_FEATURE_INCOMPAT_RECOVER : Z := 0x4.
Definition EXT2_VALID_FS : Z := 1.
Definition EXT2_ERROR_FS : Z := 2.
Definition EXT3_JNL_BACKUP_BLOCKS : Z := 1.
Definition E2F_OPT_READONLY : Z := 0x1.
Definition E2F_OPT_FORCE : Z := 0x100.
Definition E2F_FLAG_JOURNAL_INODE : Z := 0x80.
Definition E2F_FLAG_PROBLEMS_FIXED : Z := 0x4000.
Definition EXT2_FLAG_CHANGED : Z := 0x2.
Definition EXT2_FLAG_DIRTY : Z := 0x4.
Definition EXT2_FLAG_MASTER_SB_ONLY : Z := 0x200.
Definition LINUX_S_IFMT : Z := 0xf000.
Definition LINUX_S_IFREG : Z := 0x8000.
Definition V1_SB_SIZE : Z := 0x24.

Definition PR_0_JOURNAL_BAD_INODE : Z := 0xF.
Definition PR_0_JOURNAL_UNSUPP_MULTIFS : Z := 0x10.
Definition PR_0_JOURNAL_BAD_SUPER : Z := 0x15.
Definition PR_0_JOURNAL_HAS_JOURNAL : Z := 0x16.
Definition PR_0_JOURNAL_RECOVER_SET : Z := 0x17.
Definition PR_0_JOURNAL_RECOVERY_CLEAR : Z := 0x18.
Definition PR_0_JOURNAL_RESET_JOURNAL : Z := 0x19.
Definition PR_0_JOURNAL_UNSUPP_ROCOMPAT : Z := 0x25.
Definition PR_0_JOURNAL_UNSUPP_INCOMPAT : Z := 0x26.
Definition PR_0_JOURNAL_UNSUPP_VERSION : Z := 0x27.
Definition PR_0_CLEAR_V2_JOURNAL : Z := 0x2A.
Definition PR_0_JOURNAL_RUN : Z := 0x2B.
Definition PR_0_JOURNAL_RUN_DEFAULT : Z := 0x2C.
Definition PR_0_JNL_TXN_CORRUPT : Z := 0x3A.

(** * The context *)

(** The fields of [struct ext2_super_block] that this code uses. *)
Record super := mkSuper {
  s_state : Z;
  s_feature_compat : Z;
  s_feature_incompat : Z;
  s_journal_inum : Z;
  s_journal_dev : Z;
  s_journal_uuid : list Z;
  s_jnl_backup_type : Z;
  s_jnl_blocks : list Z;
  s_first_data_block : Z;
  s_blocks_count : Z;
  s_first_ino : Z
}.

Definition sb_set_state (v : Z) (s : super) : super :=
  mkSuper v (s_feature_compat s) (s_feature_incompat s) (s_journal_inum s) (s_journal_dev s) (s_journal_uuid s)
    (s_jnl_backup_type s) (s_jnl_blocks s) (s_first_data_block s) (s_blocks_count s) (s_first_ino s).
Definition sb_set_features (c i : Z) (s : super) : super :=
  mkSuper (s_state s) c i (s_journal_inum s) (s_journal_dev s) (s_journal_uuid s)
    (s_jnl_backup_type s) (s_jnl_blocks s) (s_first_data_block s) (s_blocks_count s) (s_first_ino s).
Definition sb_set_journal (inum dev : Z) (uuid blocks : list Z) (s : super) : super :=
  mkSuper (s_state s) (s_feature_compat s) (s_feature_incompat s) inum dev uuid
    (s_jnl_backup_type s) blocks (s_first_data_block s) (s_blocks_count s) (s_first_ino s).

Definition ext2fs_has_feature_journal (s : super) : bool :=
  negb (bool_decide (Z.land (s_feature_compat s) EXT3_FEATURE_COMPAT_HAS_JOURNAL = 0)).
Definition ext2fs_has_feature_journal_needs_recovery (s : super) : bool :=
  negb (bool_decide (Z.land (s_feature_incompat s) EXT3_FEATURE_INCOMPAT_RECOVER = 0)).
Definition ext2fs_set_feature_journal (s : super) : super :=
  sb_set_features (Z.lor (s_feature_compat s) EXT3_FEATURE_COMPAT_HAS_JOURNAL) (s_feature_incompat s) s.
Definition ext2fs_clear_feature_journal (s : super) : super :=
  sb_set_features (Z.land (s_feature_compat s) (Z.lnot EXT3_FEATURE_COMPAT_HAS_JOURNAL)) (s_feature_incompat s) s.
Definition ext2fs_set_feature_journal_needs_recovery (s : super) : super :=
  sb_set_features (s_feature_compat s) (Z.lor (s_feature_incompat s) EXT3_FEATURE_INCOMPAT_RECOVER) s.
Definition ext2fs_clear_feature_journal_needs_recovery (s : super) : super :=
  sb_set_features (s_feature_compat s) (Z.land (s_feature_incompat s) (Z.lnot EXT3_FEATURE_INCOMPAT_RECOVER)) s.

Definition uuid_is_null (u : list Z) : bool := forallb (fun b => bool_decide (b = 0)) u.

(** [e2fsck_t] with [ctx->fs]: [x_asked] are the problems put to [fix_problem] so far, latest
    first. *)
Record ectx (W : Type) := mkCtx {
  x_io : W;
  x_blocksize : Z;
  x_options : Z;
  x_flags : Z;
  x_fs_flags : Z;
  x_super : super;
  x_superblock : Z;              (* ctx->superblock, the -b option *)
  x_asked : list Z
}.
Arguments mkCtx {W}.
Arguments x_io {W}.
Arguments x_blocksize {W}.
Arguments x_options {W}.
Arguments x_flags {W}.
Arguments x_fs_flags {W}.
Arguments x_super {W}.
Arguments x_superblock {W}.
Arguments x_asked {W}.

Section journal.
Context {W : Type} `{IoChannel W}.

Definition x_set_io (w : W) (x : ectx W) : ectx W :=
  mkCtx w (x_blocksize x) (x_options x) (x_flags x) (x_fs_flags x) (x_super x) (x_superblock x) (x_asked x).
Definition x_set_options (o : Z) (x : ectx W) : ectx W :=
  mkCtx (x_io x) (x_blocksize x) o (x_flags x) (x_fs_flags x) (x_super x) (x_superblock x) (x_asked x).
Definition x_set_flags (f : Z) (x : ectx W) : ectx W :=
  mkCtx (x_io x) (x_blocksize x) (x_options x) f (x_fs_flags x) (x_super x) (x_superblock x) (x_asked x).
Definition x_set_fs_flags (f : Z) (x : ectx W) : ectx W :=
  mkCtx (x_io x) (x_blocksize x) (x_options x) (x_flags x) f (x_super x) (x_superblock x) (x_asked x).
Definition x_set_super (s : super) (x : ectx W) : ectx W :=
  mkCtx (x_io x) (x_blocksize x) (x_options x) (x_flags x) (x_fs_flags x) s (x_superblock x) (x_asked x).
Definition x_ask (p : Z) (x : ectx W) : ectx W :=
  mkCtx (x_io x) (x_blocksize x) (x_options x) (x_flags x) (x_fs_flags x) (x_super x) (x_superblock x)
        (p :: x_asked x).

#[global] Instance ctx_channel : IoChannel (ectx W) := {
  io_channel_read_blk64 k b x :=
    r ← io_channel_read_blk64 k b (x_io x); Some (r.1.1, r.1.2, x_set_io r.2 x);
  io_channel_write_blk64 k b d x :=
    r ← io_channel_write_blk64 k b d (x_io x); Some (r.1, x_set_io r.2 x);
  io_channel_flush k x :=
    r ← io_channel_flush k (x_io x); Some (r.1, x_set_io r.2 x)
}.

(** A journal inode, as [ext2fs_read_inode] delivers it; [i_size] is the 64-bit size. *)
Record jinode := mkInode { i_links_count : Z; i_mode : Z; i_size : Z; i_block : list Z }.

Variable answer : list Z -> Z -> bool.
Variable bmap2 : jinode -> Z -> Z * Z.
Variable read_inode : Z -> ectx W -> Z * jinode.
Variable write_inode : Z -> jinode -> J (ectx W) Z.
Variable inode_blocks : jinode -> list (Z * Z).
Variable open_ext_journal : J (ectx W) (Z + Z * Z).
Variable uuid_seq : Z.
Variable reopen : J (ectx W) Z.
Variable ext2fs_flush : J (ectx W) Z.

(** * Small helpers *)

Definition get : J (ectx W) (ectx W) := fun x => Done (x, x).
Definition modify (f : ectx W -> ectx W) : J (ectx W) unit := fun x => Done (tt, f x).

Definition fix_problem (code : Z) : J (ectx W) bool := fun x =>
  Done (answer (x_asked x) code, x_ask code x).

Definition mod_super (f : super -> super) : J (ectx W) unit := modify (fun x => x_set_super (f (x_super x)) x).
Definition ext2fs_mark_super_dirty : J (ectx W) unit :=
  modify (fun x => x_set_fs_flags (Z.lor (x_fs_flags x) (Z.lor EXT2_FLAG_DIRTY EXT2_FLAG_CHANGED)) x).
Definition clear_master_sb_only : J (ectx W) unit :=
  modify (fun x => x_set_fs_flags (Z.land (x_fs_flags x) (Z.lnot EXT2_FLAG_MASTER_SB_ONLY)) x).

(** * Checksums of the journal superblock *)

Definition e2fsck_journal_verify_csum_type (j : journal) : bool :=
  if journal_has_csum_v2or3 j
  then bool_decide (byte_at off_s_checksum_type (j_superblock j) = JBD2_CRC32C_CHKSUM) else true.

Definition e2fsck_journal_sb_csum (jsb : list Z) : Z :=
  ext2fs_crc32c_le 0 (2 ^ 32 - 1)
    (take (Z.to_nat sizeof_journal_superblock) (set_be32 off_s_checksum 0 jsb)).

Definition e2fsck_journal_sb_csum_verify (j : journal) : bool :=
  if journal_has_csum_v2or3 j
  then bool_decide (be32_at off_s_checksum (j_superblock j) = e2fsck_journal_sb_csum (j_superblock j)) else true.

Definition e2fsck_journal_sb_csum_set (j : journal) : journal :=
  if journal_has_csum_v2or3 j
  then j_set_superblock (set_be32 off_s_checksum (e2fsck_journal_sb_csum (j_superblock j)) (j_superblock j)) j
  else j.

Definition j_mark_dirty (j : journal) : journal := j_set_sb_buffer (mark_buffer_dirty (j_sb_buffer j)) j.

(** [e2fsck_clear_recover] *)
Definition e2fsck_clear_recover (error : bool) : J (ectx W) unit :=
  _ ← mod_super ext2fs_clear_feature_journal_needs_recovery;
  _ ← (if error then mod_super (fun s => sb_set_state (Z.land (s_state s) (Z.lnot EXT2_VALID_FS)) s) else mret tt);
  ext2fs_mark_super_dirty.

(** * Finding the journal *)

(** [process_journal_block] over the blocks of the inode: the last block number, when no
    block is out of range. *)
Fixpoint process_journal_blocks (s : super) (bs : list (Z * Z)) (last_block : Z) : Z :=
  match bs with
  | [] => last_block
  | (blockcnt, blk) :: bs' =>
      if decide (blk = 0 \/ blk < s_first_data_block s \/ s_blocks_count s <= blk) then last_block
      else process_journal_blocks s bs' (if decide (0 <= blockcnt) then blockcnt else last_block)
  end.

(** The inode made from the copy in the superblock. *)
Definition backup_inode (s : super) : jinode :=
  mkInode 1 (Z.lor LINUX_S_IFREG 0x180)
    (Z.lor (default 0 (s_jnl_blocks s !! 16%nat)) (Z.shiftl (default 0 (s_jnl_blocks s !! 15%nat)) 32))
    (take 15 (s_jnl_blocks s)).

(** The checks on the inode; 0 or the error to try the backup with. *)
Definition check_journal_inode (x : ectx W) (ino : jinode) : Z :=
  if decide (i_links_count ino = 0 \/ Z.land (i_mode ino) LINUX_S_IFMT <> LINUX_S_IFREG) then EXT2_ET_NO_JOURNAL
  else if decide (i_size ino / x_blocksize x < JFS_MIN_JOURNAL_BLOCKS) then EXT2_ET_JOURNAL_TOO_SMALL
  else if decide ((process_journal_blocks (x_super x) (inode_blocks ino) (-1) + 1) * x_blocksize x < s32 (i_size ino))
       then EXT2_ET_JOURNAL_TOO_SMALL
  else 0.

(** The journal on an inode: the checks, with the backup in the superblock as the second
    choice. *)
Definition find_journal_inode (x : ectx W) : Z + (jinode * bool) :=
  let s := x_super x in
  let '(err, ino) := read_inode (s_journal_inum s) x in
  let retval := if decide (err <> 0) then err else check_journal_inode x ino in
  if decide (retval = 0) then inr (ino, false)
  else if decide (s_jnl_backup_type s <> EXT3_JNL_BACKUP_BLOCKS) then inl retval
  else
    let ino := backup_inode s in
    let retval := check_journal_inode x ino in
    if decide (retval = 0) then inr (ino, true) else inl retval.

Definition new_journal (x : ectx W) (start maxlen : Z) (bm : option (Z -> Z * Z)) : journal :=
  mkJournal (getblk K_DEV_JOURNAL start (x_blocksize x)) 0 0 0 0 (x_blocksize x) maxlen bm 0 0 None 0 0.

(** [e2fsck_get_journal] *)
Definition e2fsck_get_journal : J (ectx W) (Z + journal) :=
  x ← get;
  let s := x_super x in
  if uuid_is_null (s_journal_uuid s) then
    if decide (s_journal_inum s = 0) then mret (inl EXT2_ET_BAD_INODE_NUM)
    else
      match find_journal_inode x with
      | inl retval => mret (inl retval)
      | inr (ino, tried_backup) =>
          retval ← (if tried_backup && bool_decide (Z.land (x_options x) E2F_OPT_READONLY = 0)
                    then write_inode (s_journal_inum s) ino else mret 0);
          if decide (retval <> 0) then mret (inl retval)
          else
            let '(retval, start) := bmap2 ino 0 in
            if decide (retval <> 0) then mret (inl retval)
            else mret (inr (new_journal x start (u32 (i_size ino / x_blocksize x)) (Some (bmap2 ino))))
      end
  else
    r ← open_ext_journal;
    match r with
    | inl retval => mret (inl retval)
    | inr (maxlen, start) =>
        mret (inr (new_journal x start (if decide (maxlen < 2 ^ 32) then maxlen else 2 ^ 32 - 1) None))
    end.

(** [e2fsck_journal_fix_bad_inode] *)
Definition e2fsck_journal_fix_bad_inode : J (ectx W) Z :=
  x ← get;
  let s := x_super x in
  let recover := ext2fs_has_feature_journal_needs_recovery s in
  let has_journal := ext2fs_has_feature_journal s in
  if has_journal || negb (bool_decide (s_journal_inum s = 0)) then
    a ← fix_problem PR_0_JOURNAL_BAD_INODE;
    if a : bool then
      _ ← mod_super (fun s => sb_set_journal 0 (s_journal_dev s) (s_journal_uuid s) (replicate 17 0)
                                (ext2fs_clear_feature_journal s));
      _ ← modify (fun x => x_set_flags (Z.lor (x_flags x) E2F_FLAG_JOURNAL_INODE) x);
      _ ← clear_master_sb_only;
      _ ← e2fsck_clear_recover true;
      mret 0
    else mret EXT2_ET_CORRUPT_JOURNAL_SB
  else if recover then
    a ← fix_problem PR_0_JOURNAL_RECOVER_SET;
    if a : bool then _ ← e2fsck_clear_recover true; mret 0 else mret EXT2_ET_UNSUPP_FEATURE
  else mret 0.

(** [clear_v2_journal_fields] *)
Definition clear_v2_journal_fields (j : journal) : J (ectx W) journal :=
  a ← fix_problem PR_0_CLEAR_V2_JOURNAL;
  if a : bool then
    x ← get;
    _ ← modify (fun x => x_set_flags (Z.lor (x_flags x) E2F_FLAG_PROBLEMS_FIXED) x);
    mret (j_mark_dirty (j_set_superblock
            (zsplice V1_SB_SIZE (replicate (Z.to_nat (x_blocksize x - V1_SB_SIZE)) 0) (j_superblock j)) j))
  else mret j.

(** [JFS_KNOWN_INCOMPAT_FEATURES] and the like are negated as 32-bit values. *)
Definition not32 (m : Z) : Z := u32 (Z.lnot m).

(** The last part of [e2fsck_journal_load], from the checks of the features on. *)
Definition load_checks (j : journal) : Z * journal :=
  let jsb := j_superblock j in
  if JFS_HAS_INCOMPAT_FEATURE j (not32 JFS_KNOWN_INCOMPAT_FEATURES) then (EXT2_ET_UNSUPP_FEATURE, j)
  else if JFS_HAS_RO_COMPAT_FEATURE j (not32 JFS_KNOWN_ROCOMPAT_FEATURES) then (EXT2_ET_RO_UNSUPP_FEATURE, j)
  else if jfs_has_feature_csum2 j && jfs_has_feature_csum3 j then (EXT2_ET_CORRUPT_JOURNAL_SB, j)
  else if journal_has_csum_v2or3 j && jfs_has_feature_checksum j then (EXT2_ET_CORRUPT_JOURNAL_SB, j)
  else if negb (e2fsck_journal_verify_csum_type j) || negb (e2fsck_journal_sb_csum_verify j)
       then (EXT2_ET_CORRUPT_JOURNAL_SB, j)
  else
    let j := if journal_has_csum_v2or3 j
             then j_set_csum_seed (jbd2_chksum (2 ^ 32 - 1) (zslice off_s_uuid 16 jsb)) j else j in
    if decide (be32_at off_s_blocksize jsb <> j_blocksize j) then (EXT2_ET_CORRUPT_JOURNAL_SB, j)
    else
      let s_maxlen := be32_at off_s_maxlen jsb in
      if decide (j_maxlen j < s_maxlen) then (EXT2_ET_CORRUPT_JOURNAL_SB, j)
      else
        let j := if decide (s_maxlen < j_maxlen j) then j_set_maxlen s_maxlen j else j in
        let seq := be32_at off_s_sequence jsb in
        (0, j_set_log (be32_at off_s_start jsb) (be32_at off_s_first jsb) s_maxlen
              (j_set_transaction_sequence seq (j_set_tail_sequence seq j))).

(** [e2fsck_journal_load] *)
Definition e2fsck_journal_load (j : journal) : J (ectx W) (Z * journal) :=
  jbh ← ll_rw_block READ (j_sb_buffer j);
  let j := j_set_sb_buffer jbh j in
  if decide (b_err jbh <> 0) then mret (b_err jbh, j)
  else
    let jsb := j_superblock j in
    if decide (be32_at off_h_magic jsb <> JFS_MAGIC_NUMBER) then
      r ← e2fsck_journal_fix_bad_inode; mret (r, j)
    else
      let type := be32_at off_h_blocktype jsb in
      if decide (type = JFS_SUPERBLOCK_V1) then
        let j := j_set_format_version 1 j in
        j ← (if decide (be32_at off_s_feature_compat jsb <> 0 \/ be32_at off_s_feature_incompat jsb <> 0 \/
                        be32_at off_s_feature_ro_compat jsb <> 0 \/ be32_at off_s_nr_users jsb <> 0)
             then clear_v2_journal_fields j else mret j);
        mret (load_checks j)
      else if decide (type = JFS_SUPERBLOCK_V2) then
        let j := j_set_format_version 2 j in
        x ← get;
        j ← (if decide (1 < be32_at off_s_nr_users jsb) then
               (if uuid_is_null (s_journal_uuid (x_super x)) then clear_v2_journal_fields j else mret j)
             else mret j);
        if decide (1 < be32_at off_s_nr_users (j_superblock j)) then
          _ ← fix_problem PR_0_JOURNAL_UNSUPP_MULTIFS; mret (EXT2_ET_JOURNAL_UNSUPP_VERSION, j)
        else mret (load_checks j)
      else if decide (type = JFS_DESCRIPTOR_BLOCK \/ type = JFS_COMMIT_BLOCK \/ type = JFS_REVOKE_BLOCK)
           then mret (EXT2_ET_CORRUPT_JOURNAL_SB, j)
      else mret (EXT2_ET_JOURNAL_UNSUPP_VERSION, j).

(** [e2fsck_journal_reset_super] *)
Definition e2fsck_journal_reset_super (j : journal) : J (ectx W) journal :=
  x ← get;
  let jsb := j_superblock j in
  let jsb :=
    if decide (be32_at off_h_magic jsb <> JFS_MAGIC_NUMBER \/ be32_at off_h_blocktype jsb <> JFS_SUPERBLOCK_V1)
    then set_be32 off_h_blocktype JFS_SUPERBLOCK_V2 (set_be32 off_h_magic JFS_MAGIC_NUMBER jsb) else jsb in
  let jsb := zsplice sizeof_journal_header
               (replicate (Z.to_nat (x_blocksize x - sizeof_journal_header)) 0) jsb in
  let jsb := set_be32 off_s_blocksize (x_blocksize x) jsb in
  let jsb := set_be32 off_s_maxlen (j_maxlen j) jsb in
  let jsb := set_be32 off_s_first 1 jsb in
  let jsb := set_be32 off_s_sequence uuid_seq jsb in
  let j := e2fsck_journal_sb_csum_set (j_set_superblock jsb j) in
  let j := j_mark_dirty j in
  jbh ← ll_rw_block WRITE (j_sb_buffer j);
  mret (j_set_sb_buffer jbh j).

(** [e2fsck_journal_fix_corrupt_super] *)
Definition e2fsck_journal_fix_corrupt_super (j : journal) : J (ectx W) (Z * journal) :=
  x ← get;
  let recover := ext2fs_has_feature_journal_needs_recovery (x_super x) in
  if ext2fs_has_feature_journal (x_super x) then
    a ← fix_problem PR_0_JOURNAL_BAD_SUPER;
    if a : bool then
      j ← e2fsck_journal_reset_super j;
      _ ← e2fsck_clear_recover recover;
      mret (0, j_set_transaction_sequence 1 j)
    else mret (EXT2_ET_CORRUPT_JOURNAL_SB, j)
  else
    r ← e2fsck_journal_fix_bad_inode;
    mret (if decide (r <> 0) then EXT2_ET_CORRUPT_JOURNAL_SB else 0, j).

(** [e2fsck_journal_release] *)
Definition e2fsck_journal_release (j : journal) (reset drop : bool) : J (ectx W) unit :=
  x ← get;
  let j :=
    if drop then j_set_sb_buffer (mark_buffer_clean (j_sb_buffer j)) j
    else if decide (Z.land (x_options x) E2F_OPT_READONLY = 0) then
      let jsb := set_be32 off_s_sequence (j_tail_sequence j) (j_superblock j) in
      let jsb := if reset then set_be32 off_s_start 0 jsb else jsb in
      j_mark_dirty (e2fsck_journal_sb_csum_set (j_set_superblock jsb j))
    else j in
  brelse (j_sb_buffer j).

(** The loop at [no_has_journal], in which the user may be asked again: with as many
    questions as [fuel]. *)
Fixpoint no_has_journal (fuel : nat) : J (ectx W) unit :=
  match fuel with
  | O => fun _ => OutOfFuel
  | S fuel' =>
      x ← get;
      let s := x_super x in
      if ext2fs_has_feature_journal s then mret tt
      else
        let recover := ext2fs_has_feature_journal_needs_recovery s in
        a ← fix_problem PR_0_JOURNAL_HAS_JOURNAL;
        if a : bool then
          again ← (if recover then b ← fix_problem PR_0_JOURNAL_RECOVER_SET; mret (negb b) else mret false);
          if again : bool then no_has_journal fuel'
          else
            let force_fsck := recover || bool_decide (s_journal_inum s < s_first_ino s) in
            _ ← mod_super (fun s => sb_set_journal 0 0 (replicate 16 0) (s_jnl_blocks s) s);
            e2fsck_clear_recover force_fsck
        else if decide (Z.land (x_options x) E2F_OPT_READONLY = 0) then
          _ ← mod_super ext2fs_set_feature_journal;
          _ ← clear_master_sb_only;
          ext2fs_mark_super_dirty
        else mret tt
  end.

(** The journal has data but the file system does not ask for recovery: whether to reset it. *)
Definition check_journal_data (j : journal) : J (ectx W) bool :=
  x ← get;
  let s := x_super x in
  if ext2fs_has_feature_journal s && negb (ext2fs_has_feature_journal_needs_recovery s) &&
     negb (bool_decide (be32_at off_s_start (j_superblock j) = 0)) then
    _ ← fix_problem PR_0_JOURNAL_RECOVERY_CLEAR;
    a ← fix_problem (if decide (x_superblock x <> 0) then PR_0_JOURNAL_RUN_DEFAULT else PR_0_JOURNAL_RUN);
    if a : bool then
      _ ← modify (fun x => x_set_options (Z.lor (x_options x) E2F_OPT_FORCE) x);
      _ ← mod_super ext2fs_set_feature_journal_needs_recovery;
      _ ← ext2fs_mark_super_dirty;
      mret false
    else
      b ← fix_problem PR_0_JOURNAL_RESET_JOURNAL;
      if b : bool then
        _ ← mod_super (fun s => sb_set_state (Z.land (s_state s) (Z.lnot EXT2_VALID_FS)) s);
        _ ← ext2fs_mark_super_dirty;
        mret true
      else mret false
  else mret false.

(** The error recorded in the journal goes to the superblock. *)
Definition check_journal_errno (j : journal) : J (ectx W) journal :=
  x ← get;
  if negb (ext2fs_has_feature_journal_needs_recovery (x_super x)) &&
     negb (bool_decide (be32_at off_s_errno (j_superblock j) = 0)) then
    _ ← mod_super (fun s => sb_set_state (Z.lor (s_state s) EXT2_ERROR_FS) s);
    _ ← ext2fs_mark_super_dirty;
    mret (j_mark_dirty (e2fsck_journal_sb_csum_set (j_set_superblock (set_be32 off_s_errno 0 (j_superblock j)) j)))
  else mret j.

(** [(retval == code) && !fix_problem(...)]: the question is asked when the error is the one. *)
Definition declined (retval code problem : Z) : J (ectx W) bool :=
  if decide (retval = code) then a ← fix_problem problem; mret (negb a) else mret false.

(** [e2fsck_check_ext3_journal] *)
Definition e2fsck_check_ext3_journal (fuel : nat) : J (ectx W) Z :=
  x ← get;
  let s := x_super x in
  if negb (ext2fs_has_feature_journal s) && negb (ext2fs_has_feature_journal_needs_recovery s) &&
     bool_decide (s_journal_inum s = 0) && bool_decide (s_journal_dev s = 0) && uuid_is_null (s_journal_uuid s)
  then mret 0
  else
    r ← e2fsck_get_journal;
    match r with
    | inl retval =>
        if decide (retval = EXT2_ET_BAD_INODE_NUM \/ retval = EXT2_ET_BAD_BLOCK_NUM \/
                   retval = EXT2_ET_JOURNAL_TOO_SMALL \/ retval = EXT2_ET_NO_JOURNAL)
        then e2fsck_journal_fix_bad_inode else mret retval
    | inr j =>
        r ← e2fsck_journal_load j;
        let '(retval, j) := r in
        if decide (retval <> 0) then
          c1 ← declined retval EXT2_ET_UNSUPP_FEATURE PR_0_JOURNAL_UNSUPP_INCOMPAT;
          c2 ← declined retval EXT2_ET_RO_UNSUPP_FEATURE PR_0_JOURNAL_UNSUPP_ROCOMPAT;
          c3 ← declined retval EXT2_ET_JOURNAL_UNSUPP_VERSION PR_0_JOURNAL_UNSUPP_VERSION;
          r ← (if bool_decide (retval = EXT2_ET_CORRUPT_JOURNAL_SB) || c1 || c2 || c3
               then e2fsck_journal_fix_corrupt_super j else mret (retval, j));
          let '(retval, j) := r in
          _ ← e2fsck_journal_release j false true;
          mret retval
        else
          _ ← no_has_journal fuel;
          reset ← check_journal_data j;
          j ← check_journal_errno j;
          _ ← e2fsck_journal_release j reset false;
          mret retval
    end.

(** [recover_ext3_journal]; [mem] has the outcomes of the allocations of the revoke tables.
    [s_errno] is stored in the byte order of the machine. *)
Definition recover_ext3_journal (fuel : nat) (mem : bool * bool * (bool * bool)) : J (ectx W) Z :=
  r ← e2fsck_get_journal;
  match r with
  | inl retval => mret retval
  | inr j =>
      let errout (retval : Z) (j : journal) : J (ectx W) Z :=
        (* journal_destroy_revoke: the tables must be empty *)
        if match j_revoke j with Some t => journal_destroy_revoke_table t | None => true end
        then _ ← e2fsck_journal_release j true false; mret retval
        else undef in
      r ← e2fsck_journal_load j;
      let '(retval, j) := r in
      if decide (retval <> 0) then errout retval j
      else
        match journal_init_revoke j 1024 mem with
        | None => undef
        | Some (retval, j) =>
            if decide (retval <> 0) then errout retval j
            else
              r ← journal_recover fuel j;
              let '(err, j) := r in
              let retval := - err in
              if decide (retval <> 0) then errout retval j
              else
                j ← (if decide (j_failed_commit j <> 0) then
                       _ ← fix_problem PR_0_JNL_TXN_CORRUPT;
                       mret (j_mark_dirty (j_set_superblock
                               (zsplice off_s_errno (le_bytes 4 (- EINVAL)) (j_superblock j)) j))
                     else mret j);
                errout 0 (j_set_tail_sequence (j_transaction_sequence j) j)
        end
  end.

(** [e2fsck_run_ext3_journal]; a failed [ext2fs_open] does not return. *)
Definition e2fsck_run_ext3_journal (fuel : nat) (mem : bool * bool * (bool * bool)) : J (ectx W) Z :=
  x ← get;
  if decide (Z.land (x_options x) E2F_OPT_READONLY <> 0) then mret EXT2_ET_FILE_RO
  else
    _ ← (if decide (Z.land (x_fs_flags x) EXT2_FLAG_DIRTY <> 0) then ext2fs_flush else mret 0);
    recover_retval ← recover_ext3_journal fuel mem;
    retval ← reopen;
    if decide (retval <> 0) then undef
    else
      _ ← modify (fun x => x_set_fs_flags (Z.lor (x_fs_flags x) EXT2_FLAG_MASTER_SB_ONLY) x);
      _ ← e2fsck_clear_recover (negb (bool_decide (recover_retval = 0)));
      retval ← e2fsck_check_ext3_journal fuel;
      mret (if decide (retval <> 0) then retval else recover_retval).

End journal.
