(* ===== verification/JournalProofs.v ===== *)
(** Properties of the journal: crashes during recovery, logs that never end, and the whole of
    [recover_ext3_journal]; the channel in memory keeps the laws. *)
From Stdlib Require Import ZArith Lia.
From stdpp Require Import base tactics numbers list gmap.
From S2P Require Import Prelude Crc32c ExtErr Jbd Revoke Crc32Be Buffer Recovery RecoverySpec RecoveryProofs Journal.

(** * A crash during recovery *)

Lemma last_write_elem b d ws : (b, d) ∈ ws -> is_Some (last_write b ws).
Proof.
  induction ws as [|w ws IH]; [by intros ?%not_elem_of_nil|]. cbn.
  intros [<-|Hin]%elem_of_cons.
  - destruct (last_write b ws); [done|]. cbn. by rewrite decide_True.
  - by destruct (IH Hin) as [d' ->].
Qed.

Lemma last_write_in b d ws : last_write b ws = Some d -> (b, d) ∈ ws.
Proof.
  induction ws as [|[b' d'] ws IH]; cbn; [done|].
  destruct (last_write b ws); [intros [= <-]; right; by apply IH|].
  case_decide as Hb; [|done]. intros [= <-]. subst b. left.
Qed.

(** A write as the channel sees it, and the contents of the devices after some of them. *)
Definition io_write : Type := kdev * Z * list Z.

Section traced.
Context {W : Type} `{IoLaws W}.

Definition upd1 (c : kdev -> Z -> list Z) (x : io_write) : kdev -> Z -> list Z := fun k b =>
  if decide ((k = x.1.1 \/ io_same = true) /\ b = x.1.2) then x.2 else c k b.
Definition updated (tr : list io_write) (c : kdev -> Z -> list Z) : kdev -> Z -> list Z := foldl upd1 c tr.

(** The channel with a record of the writes that went through it. *)
Definition traced : Type := W * list io_write.

#[local] Instance TracedChannel : IoChannel traced := {
  io_channel_read_blk64 k b w :=
    match io_channel_read_blk64 k b w.1 with Some (r, d, w') => Some (r, d, (w', w.2)) | None => None end;
  io_channel_write_blk64 k b d w :=
    match io_channel_write_blk64 k b d w.1 with
    | Some (r, w') => Some (r, (w', w.2 ++ [(k, b, d)])) | None => None end;
  io_channel_flush k w :=
    match io_channel_flush k w.1 with Some (r, w') => Some (r, (w', w.2)) | None => None end
}.

(** It keeps the laws, with writing allowed only to the blocks [ok] of the file system: all
    the writes of a program proved with these laws are there, and are the whole change. *)
Variable ok : Z -> Prop.
Variable c0 : kdev -> Z -> list Z.

Definition traced_ok (w : traced) (c : kdev -> Z -> list Z) : Prop :=
  io_ok w.1 c /\ (forall k b, c k b = updated w.2 c0 k b) /\
  Forall (fun x : io_write => x.1.1 = K_DEV_FS /\ ok x.1.2) w.2.

Definition TracedLaws : IoLaws traced.
Proof.
  refine {| io_same := io_same; io_bs := io_bs; io_valid := io_valid;
            io_writable := fun k b => io_writable k b /\ k = K_DEV_FS /\ ok b;
            io_ok := traced_ok; io_durable := fun w => io_durable w.1 |}.
  - intros w c k b (Hok & _) Hv. by eapply io_block_size.
  - intros w c k b (Hok & Htr) Hv. destruct (io_read_law _ _ _ _ Hok Hv) as (w' & Hr & Hok').
    exists (w', w.2). cbn. rewrite Hr. split; [done|]. by split.
  - intros w c k b d (Hok & Hc & Htr) (Hv & Hk & Hb) Hd.
    destruct (io_write_law _ _ _ _ _ Hok Hv Hd) as (w' & Hr & Hok').
    exists (w', w.2 ++ [(k, b, d)]). cbn. rewrite Hr. split; [done|]. split; [done|]. cbn. split.
    + intros k' b'. unfold updated. rewrite foldl_app. cbn [foldl]. unfold upd1 at 1. cbn [fst snd].
      destruct (decide _); [done|apply Hc].
    + apply Forall_app. split; [done|]. apply Forall_singleton. done.
  - intros w c k (Hok & Htr). destruct (io_flush_law _ _ k Hok) as (w' & Hr & Hok' & Hd).
    exists (w', w.2). cbn. rewrite Hr. split; [done|]. split; [by split|done].
Defined.
End traced.

Section crash.
Context {W : Type} `{IoLaws W}.
Variable j : journal.

(** A block that is not among the writes keeps its contents. *)
Lemma updated_other ws c k b :
  Forall (fun x : io_write => (k = x.1.1 \/ io_same = true) -> x.1.2 <> b) ws -> updated ws c k b = c k b.
Proof.
  revert c. induction ws as [|x ws IH]; intros c; [done|]. intros [Hx Hws]%Forall_cons.
  change (updated ws (upd1 c x) k b = c k b). rewrite IH by done. unfold upd1. rewrite decide_False; [done|]. intros [Hk ->]. by apply Hx.
Qed.

Lemma survivor_target b ts : writes_ok j ts -> is_Some (survivor b ts) -> target j b.
Proof.
  induction ts as [|t ts IH]; [by intros _ []|]. intros [Ht Hts]. cbn [survivor].
  destruct (survivor b ts) as [d|]; [intros _; apply IH; by eauto|].
  destruct (revoked_in (t :: ts) b) eqn:Hr; [by intros []|]. intros [d Hd%last_write_in].
  rewrite Forall_forall in Ht. by apply (Ht (b, d)).
Qed.

(** Every write that recovery has to make survives. *)
Lemma writes_ok_traced (ok : Z -> Prop) c0 ts :
  (forall b, is_Some (survivor b ts) -> ok b) -> writes_ok j ts ->
  writes_ok (H0 := TracedLaws ok c0) j ts.
Proof.
  induction ts as [|t ts IH]; [done|]. intros Hok [Ht Hts]. split.
  - apply Forall_forall. intros [b d] Hin Hr. rewrite Forall_forall in Ht. cbn [fst] in *.
    destruct (Ht _ Hin Hr) as [Hw Hl]. split; [|exact Hl]. split; [done|]. split; [done|].
    apply Hok. cbn [survivor]. destruct (survivor b ts); [done|]. rewrite Hr. by eapply last_write_elem.
  - apply IH; [|done]. intros b Hb. apply Hok. cbn [survivor]. destruct (survivor b ts); [done|by destruct Hb].
Qed.

(** C5: journal recovery may be interrupted anywhere and run again.  [journal_recover] is run on a
    channel that records the writes it makes, over a log with the committed transactions [ts] and
    without I/O errors: it ends with 0 and the record [tr] is the whole change of the devices.
    Whatever selection [ws] of those writes, in whatever order, a crash leaves on the devices,
    [journal_recover] started again from there ends with 0, durably, with every block of the
    file system as the uninterrupted recovery leaves it.  (The journal superblock is changed only
    after recovery, so the second run reads the same one.) *)
Theorem interrupted_recovery lg ts failed t w c :
  geom j -> io_ok w c -> (forall o, in_log j o -> c K_DEV_JOURNAL (journal_bmap j o).2 = lg o) ->
  table_ok t -> (forall b, revoked_at t b = None) -> j_revoke j = Some t -> j_failed_commit j = 0 ->
  let id := be32_at off_s_sequence (j_superblock j) in
  let pos := be32_at off_s_start (j_superblock j) in
  pos <> 0 -> in_log j pos -> log_at j lg id pos ts failed -> Z.of_nat (length ts) < 2 ^ 31 -> writes_ok j ts ->
  exists n w' tr j' c',
    (forall fuel, (n <= fuel)%nat ->
       journal_recover (H := TracedChannel) fuel j (w, []) = Done ((0, j'), (w', tr))) /\
    io_ok w' c' /\ (forall k b, c' k b = updated tr c k b) /\
    forall ws w1 c1, (forall x, x ∈ ws -> x ∈ tr) -> io_ok w1 c1 -> (forall k b, c1 k b = updated ws c k b) ->
      exists n1 w2 j2 c2,
        (forall fuel, (n1 <= fuel)%nat -> journal_recover fuel j w1 = Done ((0, j2), w2)) /\
        io_ok w2 c2 /\ io_durable w2 /\ forall b, c2 K_DEV_FS b = c' K_DEV_FS b.
Proof.
  intros Hg Hok Hlg Ht Hn Hr Hf id pos Hpos Hp Hlog Hl Hw.
  set (sv := fun b => is_Some (survivor b ts)).
  destruct (journal_recover_log (H0 := TracedLaws sv c) j) with (lg := lg) (ts := ts) (failed := failed)
    (t := t) (w := (w, []) : traced) (fs := c K_DEV_FS)
    as (n & [w' tr] & t' & Hrec & (c' & (Hok' & Hc' & Htr) & Hfs & _) & _); try done.
  { by destruct Hg; split. }
  { exists c. split; [|done]. split; [done|]. by split. }
  { by apply writes_ok_traced. }
  exists n, w', tr. eexists. exists c'. split; [exact Hrec|]. split_and!; [done..|].
  intros ws w1 c1 Hsub Hok1 Hc1. cbn [snd] in Htr. rewrite Forall_forall in Htr.
  assert (Hws : Forall (fun x : io_write => x.1.1 = K_DEV_FS /\ sv x.1.2) ws)
    by (apply Forall_forall; auto).
  destruct (journal_recover_log j Hg lg ts failed t w1 (c1 K_DEV_FS))
    as (n1 & w2 & t2 & Hrec2 & (c2 & Hok2 & Hfs2 & _) & Hdur & _); try done.
  { exists c1. split; [done|]. split; [done|]. intros o Ho. rewrite Hc1, updated_other; [by apply Hlg|].
    eapply Forall_impl; [exact Hws|]. intros x [Hk Hs] [Hx|Hx].
    - rewrite Hk in Hx. discriminate.
    - intros Heq. destruct (survivor_target _ _ Hw Hs) as [_ Hno]. by apply (Hno Hx o Ho). }
  exists n1, w2. eexists. exists c2. split; [exact Hrec2|]. split_and!; [done..|].
  intros b. rewrite Hfs2, Hfs, !spec_replay_lookup. destruct (survivor b ts) as [d|] eqn:Hs; [done|].
  cbn. rewrite Hc1. apply updated_other. eapply Forall_impl; [exact Hws|].
  intros x [_ Hx] _ <-. unfold sv in Hx. rewrite Hs in Hx. by destruct Hx.
Qed.
End crash.

(** * A log that never ends *)

Section endless.
Context {W : Type} `{IoLaws W}.

(** The scan has no defence against a log whose blocks all carry the sequence number it
    expects and none of which is a commit block: when the log area holds nothing but revoke blocks
    of transaction [id], the first pass goes round it forever. *)
Theorem scan_never_ends j lg info w fs :
  geom j -> view j w fs lg ->
  in_log j (be32_at off_s_start (j_superblock j)) ->
  (forall o, in_log j o -> is_block lg (be32_at off_s_sequence (j_superblock j)) o JFS_REVOKE_BLOCK) ->
  forall fuel, do_one_pass fuel j info PASS_SCAN w = OutOfFuel.
Proof.
  intros Hg Hv Hp Hall fuel. unfold do_one_pass, pass_start. rewrite decide_True by done.
  rewrite <- (jv_self j) at 1. generalize (set_start (be32_at off_s_sequence (j_superblock j)) info) as i.
  intros i. assert (Hloop : forall fuel pos w, view j w fs lg -> in_log j pos ->
    pass_loop fuel PASS_SCAN (mkP (jv j (j_revoke j) (j_failed_commit j)) i
      (be32_at off_s_sequence (j_superblock j)) pos (2 ^ 32 - 1) 0 false) w = OutOfFuel).
  { clear fuel w Hv Hp. intros fuel. induction fuel as [|fuel IH]; intros pos w Hv Hp; [done|].
    cbn [pass_loop].
    destruct (scan_revoke j Hg (j_revoke j) (j_failed_commit j) i _ pos (2 ^ 32 - 1) w fs lg Hv Hp (Hall pos Hp))
      as (w1 & Hv1 & Hb).
    rewrite (J_bind_done _ _ _ _ _ Hb). apply IH; [done|]. by apply next_pos_in. }
  unfold mbind, J_bind. by rewrite Hloop.
Qed.
End endless.

(** * The channel in memory keeps the laws *)

Record mem_ok (same : bool) (bs : Z) (w : mem) (c : kdev -> Z -> list Z) : Prop := {
  mo_same : m_same w = same;
  mo_bs : m_bs w = bs;
  mo_read : m_bad_read w = [];
  mo_write : m_bad_write w = [];
  mo_flush : m_flush_fails w = false;
  mo_size k b d : m_store w k !! b = Some d -> zlen d = bs;
  mo_block k b : c k b = m_block w k b
}.

Lemma m_write_store same k b d w k' :
  m_same w = same ->
  m_store (m_write k b d w) k'
  = if decide (k' = k \/ same = true) then <[b := d]> (m_store w k') else m_store w k'.
Proof.
  intros <-. unfold m_write, m_store. destruct (m_same w) eqn:Hs, k, k'; cbn; rewrite ?Hs; try done;
    case_decide; naive_solver.
Qed.

Lemma m_write_same k b d w :
  m_same (m_write k b d w) = m_same w /\ m_bs (m_write k b d w) = m_bs w /\
  m_bad_read (m_write k b d w) = m_bad_read w /\ m_bad_write (m_write k b d w) = m_bad_write w /\
  m_flush_fails (m_write k b d w) = m_flush_fails w.
Proof. unfold m_write. destruct (m_same w) eqn:Hs, k; cbn; by rewrite ?Hs. Qed.

Definition MemLaws (same : bool) (bs : Z) (Hbs : 0 <= bs) : IoLaws mem.
Proof.
  refine {| io_same := same; io_bs := bs; io_valid := fun _ _ => True; io_writable := fun _ _ => True; io_ok := mem_ok same bs;
            io_durable := fun _ => True |}.
  - intros w c k b [] _. rewrite mo_block0. unfold m_block. destruct (m_store w k !! b) as [d|] eqn:Hd; cbn.
    + by eapply mo_size0.
    + unfold zlen. rewrite length_replicate. lia.
  - intros w c k b Hok _. exists w. split; [|done]. cbn. rewrite decide_False.
    + by rewrite (mo_block _ _ _ _ Hok).
    + rewrite (mo_read _ _ _ _ Hok). apply not_elem_of_nil.
  - intros w c k b d Hok _ Hd. exists (m_write k b d w). split.
    + cbn. rewrite decide_False; [done|]. rewrite (mo_write _ _ _ _ Hok). apply not_elem_of_nil.
    + destruct (m_write_same k b d w) as (H1 & H2 & H3 & H4 & H5). destruct Hok. split; try congruence.
      * intros k' b' d'. rewrite (m_write_store same) by done. case_decide; [|apply mo_size0].
        destruct (decide (b' = b)) as [->|Hne].
        { rewrite lookup_insert_eq. by intros [= <-]. }
        { rewrite lookup_insert_ne by done. apply mo_size0. }
      * intros k' b'. unfold m_block. rewrite (m_write_store same) by done. rewrite H2.
        destruct (decide (k' = k \/ same = true)) as [Hk|Hk].
        { destruct (decide (b' = b)) as [->|Hne].
          - rewrite decide_True by done. by rewrite lookup_insert_eq.
          - rewrite decide_False by naive_solver. rewrite lookup_insert_ne by done. apply mo_block0. }
        { rewrite decide_False by naive_solver. apply mo_block0. }
  - intros w c k Hok. exists w. cbn. rewrite (mo_flush _ _ _ _ Hok). done.
Defined.

(** * The channel inside the context *)

Section ctx_laws.
Context {W : Type} `{IoLaws W}.
Variable x0 : ectx W.

(** The channel of a context that agrees with [x0] in all but the channel. *)
Definition ctx_ok (x : ectx W) (c : kdev -> Z -> list Z) : Prop :=
  io_ok (x_io x) c /\ x = x_set_io (x_io x) x0.

Definition CtxLaws : IoLaws (ectx W).
Proof.
  refine {| io_same := io_same; io_bs := io_bs; io_valid := io_valid; io_writable := io_writable;
            io_ok := ctx_ok; io_durable := fun x => io_durable (x_io x) |}.
  - intros x c k b [Hok _] Hv. by eapply io_block_size.
  - intros x c k b [Hok Hx] Hv. destruct (io_read_law _ _ _ _ Hok Hv) as (w & Hr & Hok').
    exists (x_set_io w x). cbn. rewrite Hr. split; [done|]. split; [done|]. by rewrite Hx.
  - intros x c k b d [Hok Hx] Hv Hd. destruct (io_write_law _ _ _ _ _ Hok Hv Hd) as (w & Hr & Hok').
    exists (x_set_io w x). cbn. rewrite Hr. split; [done|]. split; [done|]. by rewrite Hx.
  - intros x c k [Hok Hx]. destruct (io_flush_law _ _ k Hok) as (w & Hr & Hok' & Hd).
    exists (x_set_io w x). cbn. rewrite Hr. split; [done|]. split; [|done]. split; [done|]. by rewrite Hx.
Defined.
End ctx_laws.

(** * Loading the journal *)

(** The checks of [load_checks], as what they establish. *)
Lemma load_checks_inv j j' :
  load_checks j = (0, j') ->
  journal_has_csum_v2or3 j && jfs_has_feature_checksum j = false /\
  e2fsck_journal_sb_csum_verify j = true /\
  be32_at off_s_blocksize (j_superblock j) = j_blocksize j /\
  j' = mkJournal (j_sb_buffer j) (j_format_version j) (be32_at off_s_start (j_superblock j))
         (be32_at off_s_first (j_superblock j)) (be32_at off_s_maxlen (j_superblock j)) (j_blocksize j)
         (be32_at off_s_maxlen (j_superblock j)) (j_bmap j) (be32_at off_s_sequence (j_superblock j))
         (be32_at off_s_sequence (j_superblock j)) (j_revoke j) (j_failed_commit j) (j_csum_seed j') /\
  be32_at off_s_maxlen (j_superblock j) <= j_maxlen j.
Proof.
  unfold load_checks. destruct (JFS_HAS_INCOMPAT_FEATURE _ _); [done|].
  destruct (JFS_HAS_RO_COMPAT_FEATURE _ _); [done|].
  destruct (jfs_has_feature_csum2 j && jfs_has_feature_csum3 j); [done|].
  destruct (journal_has_csum_v2or3 j && jfs_has_feature_checksum j); [done|].
  destruct (negb (e2fsck_journal_verify_csum_type j) || negb (e2fsck_journal_sb_csum_verify j)) eqn:Hc; [done|].
  apply orb_false_iff in Hc as [_ Hc%negb_false_iff]. cbv zeta.
  set (j1 := if journal_has_csum_v2or3 j then _ else j).
  assert (Hj1 : exists s, j1 = j_set_csum_seed s j).
  { unfold j1. destruct (journal_has_csum_v2or3 j); [by eexists|]. exists (j_csum_seed j). by destruct j. }
  clearbody j1. destruct Hj1 as [s ->]. cbn [j_blocksize j_maxlen j_set_csum_seed].
  case_decide as Hbs; [done|]. case_decide as Hml; [done|].
  intros [= <-]. split_and!; [done|done|lia| |lia].
  destruct (decide (be32_at off_s_maxlen (j_superblock j) < j_maxlen j)) as [Hlt|Hge].
  - done.
  - assert (Heq : j_maxlen j = be32_at off_s_maxlen (j_superblock j)) by lia.
    unfold j_set_log, j_set_transaction_sequence, j_set_tail_sequence, j_set_csum_seed. cbn. by rewrite <- Heq.
Qed.

(** * Recovery as the checker runs it *)

Section recover_ext3.
Context {W : Type} `{IoLaws W}.
Variable answer : list Z -> Z -> bool.
Variable bmap2 : jinode -> Z -> Z * Z.
Variable read_inode : Z -> ectx W -> Z * jinode.
Variable write_inode : Z -> jinode -> J (ectx W) Z.
Variable inode_blocks : jinode -> list (Z * Z).
Variable open_ext_journal : J (ectx W) (Z + Z * Z).

(** The journal found by [e2fsck_get_journal], with the superblock block at [sbb]. *)
Definition found (x : ectx W) (sbb maxlen : Z) (bm : option (Z -> Z * Z)) : Prop :=
  e2fsck_get_journal bmap2 read_inode write_inode inode_blocks open_ext_journal x
  = Done (inr (new_journal x sbb maxlen bm), x).

(** The journal in memory once its superblock [sb], of version 2, has been read. *)
Definition read_journal (x : ectx W) (sbb maxlen : Z) (bm : option (Z -> Z * Z)) (sb : list Z) : journal :=
  mkJournal (mkBh K_DEV_JOURNAL (x_blocksize x) 0 false true sbb sb) 2 0 0 0 (x_blocksize x) maxlen bm 0 0 None 0 0.

Definition sb_v2 (sb : list Z) : Prop :=
  be32_at off_h_magic sb = JFS_MAGIC_NUMBER /\ be32_at off_h_blocktype sb = JFS_SUPERBLOCK_V2 /\
  be32_at off_s_nr_users sb <= 1.

Lemma load_v2 x c sbb maxlen bm j :
  io_ok (x_io x) c -> io_valid K_DEV_JOURNAL sbb -> sb_v2 (c K_DEV_JOURNAL sbb) ->
  load_checks (read_journal x sbb maxlen bm (c K_DEV_JOURNAL sbb)) = (0, j) ->
  exists w, e2fsck_journal_load answer (new_journal x sbb maxlen bm) x = Done ((0, j), x_set_io w x) /\ io_ok w c.
Proof.
  intros Hok Hv (Hm & Ht & Hu) Hl. destruct (io_read_law _ _ _ _ Hok Hv) as (w & Hr & Hok').
  exists w. split; [|done].
  assert (Hbh : ll_rw_block READ (getblk K_DEV_JOURNAL sbb (x_blocksize x)) x
                = Done (mkBh K_DEV_JOURNAL (x_blocksize x) 0 false true sbb (c K_DEV_JOURNAL sbb), x_set_io w x)).
  { unfold ll_rw_block, lift, mbind, J_bind. cbn. by rewrite Hr. }
  unfold e2fsck_journal_load. change (j_sb_buffer (new_journal x sbb maxlen bm))
    with (getblk K_DEV_JOURNAL sbb (x_blocksize x)).
  rewrite (J_bind_done _ _ _ _ _ Hbh). unfold j_superblock. cbn [b_err b_data j_set_sb_buffer j_sb_buffer].
  rewrite decide_False by lia. rewrite decide_False by congruence.
  rewrite Ht. rewrite decide_False, decide_True by done. unfold get. rewrite (J_bind_done _ _ _ _ _ eq_refl).
  rewrite decide_False by lia. rewrite J_ret_bind. rewrite decide_False by (cbn; lia).
  unfold mret, J_ret. by rewrite <- Hl.
Qed.

(** The empty table that [journal_init_revoke] makes. *)
Definition revoke_table0 : jbd2_revoke_table := mkTable 1024 10 (replicate 1024 []).

Lemma init_revoke_ok j :
  journal_init_revoke j 1024 (true, true, (true, true)) = Some (0, j_set_revoke (Some revoke_table0) j).
Proof. done. Qed.

Lemma revoke_table0_ok : table_ok revoke_table0 /\ forall b, revoked_at revoke_table0 b = None.
Proof. apply (init_table_ok 10); [lia|]. vm_compute. reflexivity. Qed.

(** The superblock as [e2fsck_journal_release] leaves it when it resets the journal. *)
Definition reset_sb (j : journal) : list Z :=
  j_superblock (e2fsck_journal_sb_csum_set (j_set_superblock
    (set_be32 off_s_start 0 (set_be32 off_s_sequence (j_tail_sequence j) (j_superblock j))) j)).

Lemma csum_set_sb j :
  exists v, j_superblock (e2fsck_journal_sb_csum_set j) = j_superblock j \/
            j_superblock (e2fsck_journal_sb_csum_set j) = set_be32 off_s_checksum v (j_superblock j).
Proof.
  unfold e2fsck_journal_sb_csum_set. destruct (journal_has_csum_v2or3 j); eexists; [by right|by left].
  Unshelve. exact 0.
Qed.

Lemma reset_sb_spec j :
  1024 <= zlen (j_superblock j) ->
  be32_at off_s_start (reset_sb j) = 0 /\ be32_at off_s_sequence (reset_sb j) = u32 (j_tail_sequence j) /\
  zlen (reset_sb j) = zlen (j_superblock j).
Proof.
  intros Hl. unfold reset_sb.
  set (sb1 := set_be32 off_s_start 0 (set_be32 off_s_sequence (j_tail_sequence j) (j_superblock j))).
  assert (Hl1 : zlen sb1 = zlen (j_superblock j)).
  { unfold sb1. rewrite !zlen_set_be32; rewrite ?zlen_set_be32; unfold off_s_start, off_s_sequence; lia. }
  assert (H1 : be32_at off_s_start sb1 = 0) by (unfold sb1; by rewrite be32_set_eq).
  assert (H2 : be32_at off_s_sequence sb1 = u32 (j_tail_sequence j)).
  { unfold sb1. rewrite be32_set_ne, be32_set_eq; rewrite ?zlen_set_be32; unfold off_s_start, off_s_sequence; lia. }
  destruct (csum_set_sb (j_set_superblock sb1 j)) as [v [Heq|Heq]]; rewrite Heq; unfold j_superblock; cbn; [done|].
  rewrite !be32_set_ne, zlen_set_be32; unfold off_s_start, off_s_sequence, off_s_checksum in *; try done; lia.
Qed.

Lemma release_reset x c j bh :
  io_ok (x_io x) c -> io_writable K_DEV_JOURNAL (b_blocknr bh) -> j_sb_buffer j = bh -> b_dev bh = K_DEV_JOURNAL ->
  zlen (b_data bh) = io_bs -> 1024 <= io_bs -> Z.land (x_options x) E2F_OPT_READONLY = 0 ->
  exists w c', e2fsck_journal_release j true false x = Done (tt, x_set_io w x) /\ io_ok w c' /\
    c' = (fun k' b' => if decide ((k' = K_DEV_JOURNAL \/ io_same = true) /\ b' = b_blocknr bh) then reset_sb j else c k' b').
Proof.
  intros Hok Hv Hbh Hdev Hl Hbs Hro.
  assert (Hz : zlen (reset_sb j) = io_bs).
  { destruct (reset_sb_spec j) as (_ & _ & ->); unfold j_superblock; rewrite Hbh; lia. }
  destruct (io_write_law (x_io x) c K_DEV_JOURNAL (b_blocknr bh) (reset_sb j) Hok Hv Hz) as (w & Hw & Hok').
  exists w. eexists. split; [|split; [exact Hok'|done]].
  unfold e2fsck_journal_release, get. rewrite (J_bind_done _ _ _ _ _ eq_refl). rewrite decide_True by done.
  set (j1 := e2fsck_journal_sb_csum_set _).
  assert (Hj1 : j_sb_buffer j1 = bh_set_data (reset_sb j) bh).
  { unfold reset_sb. fold j1. unfold j1, e2fsck_journal_sb_csum_set.
    destruct (journal_has_csum_v2or3 _); unfold j_superblock; cbn; by rewrite Hbh. }
  unfold brelse, j_mark_dirty. cbn [j_sb_buffer j_set_sb_buffer]. rewrite Hj1.
  unfold ll_rw_block, lift, mbind, J_bind. cbn. rewrite Hdev, Hw. done.
Qed.

(** The error of a failed commit, when there is one, is recorded in the superblock. *)
Lemma record_failure x2 c2 j2 sbb bsz sb :
  io_ok (x_io x2) c2 -> Z.land (x_options x2) E2F_OPT_READONLY = 0 -> j_sb_buffer j2 = mkBh K_DEV_JOURNAL bsz 0 false true sbb sb ->
  zlen sb = io_bs -> 1024 <= io_bs ->
  exists x3 j3, io_ok (x_io x3) c2 /\ Z.land (x_options x3) E2F_OPT_READONLY = 0 /\
    (if decide (j_failed_commit j2 <> 0) then
       _ ← fix_problem answer PR_0_JNL_TXN_CORRUPT;
       mret (j_mark_dirty (j_set_superblock (zsplice off_s_errno (le_bytes 4 (- EINVAL)) (j_superblock j2)) j2))
     else mret j2) x2 = Done (j3, x3) /\
    j_transaction_sequence j3 = j_transaction_sequence j2 /\ j_revoke j3 = j_revoke j2 /\ zlen (j_superblock j3) = io_bs /\
    b_dev (j_sb_buffer j3) = K_DEV_JOURNAL /\ b_blocknr (j_sb_buffer j3) = sbb.
Proof.
  intros Hok2 Hro2 Hb2 Hzsb Hbs. destruct (decide (j_failed_commit j2 <> 0)).
  - eexists (x_ask PR_0_JNL_TXN_CORRUPT x2), _. split; [done|]. split; [done|]. split; [reflexivity|].
    split; [done|]. split; [done|].
    change (zlen (zsplice off_s_errno (le_bytes 4 (- EINVAL)) (b_data (j_sb_buffer j2))) = io_bs /\
            b_dev (j_sb_buffer j2) = K_DEV_JOURNAL /\ b_blocknr (j_sb_buffer j2) = sbb).
    rewrite Hb2. split; [|done]. cbn [b_data]. rewrite zlen_splice by (unfold off_s_errno; lia).
    unfold zlen at 2. rewrite length_le_bytes. unfold off_s_errno. lia.
  - exists x2, j2. unfold j_superblock. rewrite Hb2. done.
Qed.

(** C12: recovery as the checker runs it ([recover_ext3_journal]), on a version 2 journal
    superblock that passes the checks, not in read-only mode, with allocations that succeed and a
    channel without I/O errors: it ends with 0; read through the channel, the file system holds what
    the committed transactions make of it, and the journal superblock is that of an empty log that
    starts after them.  (The superblock is written when its buffer is released and is not
    flushed here: the statement is about the contents the channel shows, not about what a crash
    would leave.) *)
Theorem recover_ext3_journal_correct x c sbb maxlen bm j ts lg failed :
  found x sbb maxlen bm -> io_ok (x_io x) c -> io_valid K_DEV_JOURNAL sbb -> io_writable K_DEV_JOURNAL sbb ->
  let sb := c K_DEV_JOURNAL sbb in
  sb_v2 sb -> 1024 <= io_bs -> Z.land (x_options x) E2F_OPT_READONLY = 0 ->
  load_checks (read_journal x sbb maxlen bm sb) = (0, j) ->
  let j1 := j_set_revoke (Some revoke_table0) j in
  geom j1 -> (forall o, in_log j1 o -> c K_DEV_JOURNAL (journal_bmap j1 o).2 = lg o) ->
  be32_at off_s_start sb <> 0 -> in_log j1 (be32_at off_s_start sb) ->
  log_at j1 lg (be32_at off_s_sequence sb) (be32_at off_s_start sb) ts failed ->
  Z.of_nat (length ts) < 2 ^ 31 -> writes_ok j1 ts ->
  exists n x' c', (forall fuel, (n <= fuel)%nat ->
      recover_ext3_journal answer bmap2 read_inode write_inode inode_blocks open_ext_journal
        fuel (true, true, (true, true)) x = Done (0, x')) /\
    io_ok (x_io x') c' /\
    (forall b, (io_same = true -> b <> sbb) -> c' K_DEV_FS b = spec_replay ts (c K_DEV_FS) b) /\
    be32_at off_s_start (c' K_DEV_JOURNAL sbb) = 0 /\
    be32_at off_s_sequence (c' K_DEV_JOURNAL sbb) = u32 (be32_at off_s_sequence sb + Z.of_nat (length ts) + 1).
Proof.
  intros Hfound Hok Hv Hwr sb Hsb Hbs Hro Hl j1 Hg Hlg Hst Hp Hlog Hlen Hw.
  destruct (load_v2 x c sbb maxlen bm j Hok Hv Hsb Hl) as (w1 & Hload & Hok1).
  apply load_checks_inv in Hl as (_ & _ & _ & Hj & _).
  set (x1 := x_set_io w1 x) in *.
  assert (Hsbj : j_superblock j1 = sb) by (unfold j1; rewrite Hj; done).
  assert (Hzsb : zlen sb = io_bs) by (eapply io_block_size; done).
  destruct revoke_table0_ok as [Ht0 Hn0].
  assert (Hg1 : @geom _ _ (CtxLaws x1) j1) by (destruct Hg; by split).
  destruct (journal_recover_log (H0 := CtxLaws x1) j1 Hg1 lg ts failed revoke_table0 x1 (c K_DEV_FS))
    as (n & x2 & t' & Hrec & (c2 & [Hok2 Hx2] & Hfs2 & Hlg2) & _ & Hdes); try done.
  { exists c. split; [by split|]. done. }
  { unfold j1. rewrite Hj. done. }
  { by rewrite Hsbj. }
  { by rewrite Hsbj. }
  { by rewrite Hsbj. }
  rewrite Hsbj in Hrec. set (S0 := u32 _) in Hrec. set (F := if failed then _ else 0) in Hrec.
  set (j2 := j_set_transaction_sequence S0 (j_set_failed_commit F (j_set_revoke (Some t') j1))) in Hrec.
  assert (Hb2 : j_sb_buffer j2 = mkBh K_DEV_JOURNAL (x_blocksize x) 0 false true sbb sb) by (unfold j2, j1; rewrite Hj; done).
  destruct (record_failure x2 c2 j2 sbb (x_blocksize x) sb Hok2 ltac:(by rewrite Hx2) Hb2 Hzsb Hbs)
    as (x3 & j3 & Hok3 & Hro3 & Hmid & Hseq3 & Hrv3 & Hz3 & Hdev3 & Hblk3).
  change (j_revoke j2) with (Some t') in Hrv3. change (j_transaction_sequence j2) with S0 in Hseq3.
  destruct (release_reset x3 c2 (j_set_tail_sequence (j_transaction_sequence j3) j3) (j_sb_buffer j3))
    as (w4 & c4 & Hrel & Hok4 & Hc4); try done.
  { by rewrite Hblk3. }
  exists n, (x_set_io w4 x3), c4. split.
  { intros fuel Hf. unfold recover_ext3_journal.
    rewrite (J_bind_done _ _ _ _ _ Hfound), (J_bind_done _ _ _ _ _ Hload).
    rewrite decide_False by lia. rewrite init_revoke_ok. rewrite decide_False by lia.
    rewrite (J_bind_done _ _ _ _ _ (Hrec fuel Hf)). rewrite decide_False by lia.
    rewrite (J_bind_done _ _ _ _ _ Hmid). cbn [j_revoke j_set_tail_sequence]. rewrite Hrv3, Hdes.
    rewrite (J_bind_done _ _ _ _ _ Hrel). done. }
  split; [done|]. subst c4. rewrite Hblk3.
  destruct (reset_sb_spec (j_set_tail_sequence (j_transaction_sequence j3) j3)) as (Hs1 & Hs2 & _).
  { change (j_superblock (j_set_tail_sequence _ j3)) with (j_superblock j3). lia. }
  split_and!.
  - intros b Hb. rewrite decide_False; [by apply Hfs2|]. intros [[?|Hs] ->]; [done|]. by apply Hb.
  - by rewrite decide_True by (split; [by left|done]).
  - rewrite decide_True by (split; [by left|done]). rewrite Hs2. cbn [j_tail_sequence j_set_tail_sequence].
    rewrite Hseq3. unfold S0. mlia.
Qed.

End recover_ext3.
