(* ===== verification/JournalTheorems.v ===== *)
(** The properties of the journal: what recovery does, and where it does not do what it means
    to; with a small file system whose journal wraps around, revokes and ends in a torn
    transaction. *)
From Stdlib Require Import ZArith Lia.
From stdpp Require Import base tactics numbers list gmap.
From S2P Require Import Prelude Crc32c ExtErr Jbd Revoke Crc32Be Buffer Recovery RecoverySpec RecoveryProofs.
From S2P Require Import Journal JournalProofs.

(** * A file system *)

Module Ex.

Definition bs : Z := 1024.

(** A block of zeroes with pieces of data in it. *)
Definition blk (l : list (Z * list Z)) : list Z :=
  foldl (fun b p => zsplice p.1 p.2 b) (replicate 1024 0) l.
Definition fill (v : Z) : list Z := replicate 1024 v.

Definition header (type seq : Z) : list Z :=
  be_bytes 4 JFS_MAGIC_NUMBER ++ be_bytes 4 type ++ be_bytes 4 seq.
Definition tag (blocknr flags : Z) : list Z := be_bytes 4 blocknr ++ [0; 0] ++ be_bytes 2 flags.

Definition sb_block : list Z :=
  blk [(0, header JFS_SUPERBLOCK_V2 0); (off_s_blocksize, be_bytes 4 bs); (off_s_maxlen, be_bytes 4 12);
       (off_s_first, be_bytes 4 1); (off_s_sequence, be_bytes 4 5); (off_s_start, be_bytes 4 9)].

(** The journal is at blocks 100 to 111 of the device. *)
Definition at_block (o : Z) : Z := 100 + o.

Definition log_blocks : list (Z * list Z) :=
  [ (at_block 0, sb_block);
    (* transaction 5: blocks 20 and 21 (escaped) *)
    (at_block 9, blk [(0, header JFS_DESCRIPTOR_BLOCK 5); (12, tag 20 2); (20, tag 21 11)]);
    (at_block 10, fill 7);
    (at_block 11, blk [(4, replicate 20 9)]);
    (at_block 1, blk [(0, header JFS_COMMIT_BLOCK 5)]);
    (* transaction 6: revokes block 21, writes block 22 *)
    (at_block 2, blk [(0, header JFS_REVOKE_BLOCK 6); (off_r_count, be_bytes 4 20); (16, be_bytes 4 21)]);
    (at_block 3, blk [(0, header JFS_DESCRIPTOR_BLOCK 6); (12, tag 22 8)]);
    (at_block 4, fill 5);
    (at_block 5, blk [(0, header JFS_COMMIT_BLOCK 6)]);
    (* transaction 7: not committed *)
    (at_block 6, blk [(0, header JFS_DESCRIPTOR_BLOCK 7); (12, tag 20 10)]);
    (at_block 7, fill 1) ].

Definition disk : mem := mkMem bs (list_to_map log_blocks) ∅ true [] [] false.

(** The journal of that file system as [journal_recover] gets it. *)
Definition jr : journal :=
  mkJournal (mkBh K_DEV_JOURNAL bs 0 false true (at_block 0) sb_block) 2 9 1 12 bs 12
    (Some (fun o => (0, at_block o))) 5 5 (Some revoke_table0) 0 0.

Definition lg (o : Z) : list Z := m_block disk K_DEV_JOURNAL (at_block o).
Definition fs0 (b : Z) : list Z := m_block disk K_DEV_FS b.

Definition ts : list txn :=
  [ mkTxn [(20, fill 7); (21, blk [(0, be_bytes 4 JFS_MAGIC_NUMBER); (4, replicate 20 9)])] [];
    mkTxn [(22, fill 5)] [21] ].

Definition laws : IoLaws mem := MemLaws true 1024 ltac:(lia).
#[export] Existing Instance laws.

Lemma geom_jr : geom jr.
Proof. by split. Qed.

Lemma disk_ok : mem_ok true 1024 disk (m_block disk).
Proof.
  split; try done. intros k b d Hd.
  assert (Hall : map_Forall (fun _ d => bool_decide (zlen d = 1024) = true) (m_fs disk)).
  { apply (bool_decide_eq_true_1 _). vm_compute. reflexivity. }
  assert (Hm : m_fs disk !! b = Some d) by (unfold m_store in Hd; exact Hd).
  apply Hall in Hm. by apply bool_decide_eq_true in Hm.
Qed.

Lemma view_disk : view jr disk fs0 lg.
Proof. exists (m_block disk). split; [apply disk_ok|]. done. Qed.

Ltac is_blk := split; [|split]; vm_compute; reflexivity.

Lemma log_jr : log_at jr lg 5 9 ts false.
Proof.
  assert (Hlog : exists t1 t2, log_at jr lg 5 9 [t1; t2] false /\ [t1; t2] = ts).
  { eexists _, _. split; [eapply log_txn|].
    - eapply txn_descr; [|vm_compute; done|].
      { split; [is_blk|]. split; vm_compute; done. }
      eapply txn_commit; [is_blk|]. vm_compute. reflexivity.
    - eapply log_txn.
      + eapply txn_revoke; [split; [is_blk|split; vm_compute; done]|].
        eapply txn_descr; [split; [is_blk|split; vm_compute; done]|vm_compute; done|].
        eapply txn_commit; [is_blk|]. vm_compute. reflexivity.
      + apply log_end. eapply torn_descr; [split; [is_blk|split; vm_compute; done]|].
        apply torn_end. left. vm_compute. done.
    - vm_compute. reflexivity. }
  destruct Hlog as (t1 & t2 & Hlog & <-). exact Hlog.
Qed.

Lemma writes_jr : writes_ok jr ts.
Proof.
  assert (Ht : forall b, b < 100 -> target jr b).
  { intros b Hb. split; [done|]. intros _ o Ho. unfold in_log in Ho. cbn in *. unfold at_block. lia. }
  split; [|split; [|done]]; repeat apply Forall_cons_2; try apply Forall_nil_2; intros _; by apply Ht.
Qed.

End Ex.
Import Ex.

(** * Recovery *)

(** C4: journal recovery, over any channel that keeps its laws and for every format of
    checksums: on a log with the committed transactions [ts], whatever uncommitted or damaged
    transaction follows them, [journal_recover] ends, returns 0, leaves the file system as the
    specification says (each committed block that is not revoked by its own or a later
    transaction, in order, and nothing of the unfinished one), durably, moves the sequence number past the
    log, reports a commit block that failed its checks and leaves an empty revoke table. *)
Theorem journal_recover_correct {W} `{IoLaws W} j lg ts failed t (w : W) fs :
  geom j -> view j w fs lg -> table_ok t -> (forall b, revoked_at t b = None) ->
  j_revoke j = Some t -> j_failed_commit j = 0 ->
  let id := be32_at off_s_sequence (j_superblock j) in
  let pos := be32_at off_s_start (j_superblock j) in
  pos <> 0 -> in_log j pos -> log_at j lg id pos ts failed -> Z.of_nat (length ts) < 2 ^ 31 -> writes_ok j ts ->
  exists n w' j', (forall fuel, (n <= fuel)%nat -> journal_recover fuel j w = Done ((0, j'), w')) /\
    view j w' (fun b => default (fs b) (survivor b ts)) lg /\ io_durable w' /\
    j_transaction_sequence j' = u32 (id + Z.of_nat (length ts) + 1) /\
    j_failed_commit j' = (if failed then u32 (id + Z.of_nat (length ts)) else 0) /\
    exists t', j_revoke j' = Some t' /\ journal_destroy_revoke_table t' = true.
Proof.
  intros Hg Hv Ht Hn Hr Hf id pos Hpos Hp Hlog Hl Hw.
  destruct (journal_recover_log j Hg lg ts failed t w fs) as (n & w' & t' & Hrec & Hview & Hdur & Hdes); try done.
  exists n, w'. eexists. split; [exact Hrec|]. split.
  { eapply view_ext; [|exact Hview]. intros b. apply spec_replay_lookup. }
  split; [done|]. split; [done|]. split; [done|]. by exists t'.
Qed.

Lemma journal_recover_correct_witness :
  exists n w' j', (forall fuel, (n <= fuel)%nat -> journal_recover fuel jr disk = Done ((0, j'), w')) /\
    view jr w' (fun b => default (fs0 b) (survivor b ts)) lg /\ io_durable w' /\
    j_transaction_sequence j' = 8 /\ j_failed_commit j' = 0 /\
    exists t', j_revoke j' = Some t' /\ journal_destroy_revoke_table t' = true.
Proof.
  destruct revoke_table0_ok as [Ht Hn].
  exact (journal_recover_correct jr lg ts false revoke_table0 disk fs0 geom_jr view_disk Ht Hn eq_refl eq_refl
           ltac:(vm_compute; done) ltac:(vm_compute; done) log_jr ltac:(vm_compute; done) writes_jr).
Defined.

(** The same, run: block 20 is restored, block 21 stays as it was, block 22 is restored. *)
Example recover_run :
  match journal_recover 20 jr disk with
  | Done ((err, j'), w') =>
      err = 0 /\ m_block w' K_DEV_FS 20 = fill 7 /\ m_block w' K_DEV_FS 21 = fill 0 /\
      m_block w' K_DEV_FS 22 = fill 5 /\ j_transaction_sequence j' = 8
  | _ => False
  end.
Proof. vm_compute. split_and!; reflexivity. Qed.

(** The record of the writes of this run, and recovery run again after a crash that left only
    one of them. *)
Lemma interrupted_recovery_witness :
  exists n w' tr j' c',
    (forall fuel, (n <= fuel)%nat ->
       journal_recover (H := TracedChannel) fuel jr (disk, []) = Done ((0, j'), (w', tr))) /\
    io_ok w' c' /\ (forall k b, c' k b = updated tr (m_block disk) k b) /\
    forall ws w1 c1, (forall x, x ∈ ws -> x ∈ tr) -> io_ok w1 c1 ->
      (forall k b, c1 k b = updated ws (m_block disk) k b) ->
      exists n1 w2 j2 c2,
        (forall fuel, (n1 <= fuel)%nat -> journal_recover fuel jr w1 = Done ((0, j2), w2)) /\
        io_ok w2 c2 /\ io_durable w2 /\ forall b, c2 K_DEV_FS b = c' K_DEV_FS b.
Proof.
  destruct revoke_table0_ok as [Ht Hn].
  exact (interrupted_recovery jr lg ts false revoke_table0 disk (m_block disk) geom_jr disk_ok
           ltac:(done) Ht Hn eq_refl eq_refl ltac:(vm_compute; done) ltac:(vm_compute; done) log_jr
           ltac:(vm_compute; done) writes_jr).
Defined.

Example crash_run :
  match journal_recover (H := TracedChannel) 20 jr (disk, []) with
  | Done ((err, _), (_, tr)) => err = 0 /\ map (fun x => x.1.2) tr = [20; 22]
  | _ => False
  end.
Proof. vm_compute. split; reflexivity. Qed.

(** * The revoke table *)

(** C13: the hash table of revoke records is a map to the last revoking transaction: after
    recording any revokes, each with its transaction counted from [id], a block of transaction
    [k] is to be skipped exactly if it was revoked in that transaction or a later one (also when the identifiers wrap
    around), and clearing the table forgets all of them. *)
Theorem revoke_table_spec id l t b k :
  table_ok t -> (forall b, revoked_at t b = None) -> Forall (fun p => 0 <= p.2 < 2 ^ 31) l -> 0 <= k < 2 ^ 31 ->
  let T := set_revokes (prod_map (fun b => b) (fun k => u32 (id + k)) <$> l) t in
  (journal_test_revoke T b (u32 (id + k)) = true <-> exists k', k <= k' /\ (b, k') ∈ l) /\
  journal_test_revoke (journal_clear_revoke T) b (u32 (id + k)) = false /\
  journal_destroy_revoke_table (journal_clear_revoke T) = true.
Proof.
  intros Hok Hn Hl Hk T. assert (HT : table_ok T) by by apply set_revokes_ok.
  split; [by apply test_set_revokes|]. split; [|by apply clear_revoke_destroy].
  rewrite test_revoke_spec by by apply clear_revoke_ok. by rewrite clear_revoke_spec.
Qed.

Lemma revoke_table_spec_witness :
  let T := set_revokes (prod_map (fun b => b) (fun k => u32 (4294967295 + k)) <$> [(21, 0); (21, 3)]) revoke_table0 in
  (journal_test_revoke T 21 (u32 (4294967295 + 2)) = true <-> exists k', 2 <= k' /\ (21, k') ∈ [(21, 0); (21, 3)]) /\
  journal_test_revoke (journal_clear_revoke T) 21 (u32 (4294967295 + 2)) = false /\
  journal_destroy_revoke_table (journal_clear_revoke T) = true.
Proof.
  destruct revoke_table0_ok as [Ht Hn].
  exact (revoke_table_spec 4294967295 [(21, 0); (21, 3)] revoke_table0 21 2 Ht Hn
           ltac:(repeat constructor; vm_compute; done) ltac:(vm_compute; done)).
Defined.
