(* ===== verification/JournalUnix.v ===== *)
(** Journal recovery over the block cache: the channel of [UnixIo] is an [IoChannel], and
    without the redo log it keeps the laws, so the theorems of recovery hold of the bytes of
    the device. *)
From Stdlib Require Import ZArith Lia.
From stdpp Require Import base tactics numbers list gmap strings.
From S2P Require Import Prelude Crc32c Os RedoLog RedoLayout RedoWriter RedoOps ExtErr UnixIo UnixIoProofs.
From S2P Require Import Jbd Revoke Crc32Be Buffer Recovery RecoverySpec RecoveryProofs.

(** The channel with the state of the system under it.  The journal is on the file system, so
    both devices are this channel. *)
Abbreviation uworld := (uio * st)%type.

Section unix_channel.
Context `{Checksum}.
Variable redo : bool.
Variable rerr : option (Z -> Z -> list Z -> Z -> Z -> Z -> M (Z * list Z)).
Variable werr : option (Z -> Z -> list Z -> Z -> Z -> Z -> M Z).

Definition UnixChannel : IoChannel uworld := {|
  io_channel_read_blk64 _ b w :=
    match unix_read_blk64 redo rerr werr b 1 w.1 w.2 with
    | Some ((retval, data, u), s) => Some (retval, data, (u, s))
    | None => None
    end;
  io_channel_write_blk64 _ b d w :=
    match unix_write_blk64 redo werr b 1 d w.1 w.2 with
    | Some ((retval, u), s) => Some (retval, (u, s))
    | None => None
    end;
  io_channel_flush _ w :=
    match unix_flush redo werr w.1 w.2 with
    | Some ((retval, u), s) => Some (retval, (u, s))
    | None => None
    end
|}.
End unix_channel.

Section unix_laws.
Context `{Checksum}.
Variable rerr : option (Z -> Z -> list Z -> Z -> Z -> Z -> M (Z * list Z)).
Variable werr : option (Z -> Z -> list Z -> Z -> Z -> Z -> M Z).
Variables bs off nb di : Z.
Hypothesis Hbs : 0 < bs < 2 ^ 16.
Hypothesis Hoff : 0 <= off.
Hypothesis Hnb : 0 < nb.
Hypothesis Hmax : nb * bs + off < 2 ^ 63.

#[local] Instance unix_chan_inst : IoChannel uworld := UnixChannel false rerr werr.

Definition dev_block (D : list Z) (b : Z) : list Z := zslice (loc bs off b) bs D.

(** The logical device [D] behind the cache shows [c]. *)
Definition unix_ok (w : uworld) (c : kdev -> Z -> list Z) : Prop :=
  exists df D, chan bs off nb w.2 w.1 di df D /\ forall k b, 0 <= b < nb -> c k b = dev_block D b.

(** The device itself holds, durably, what the channel shows. *)
Definition unix_durable (w : uworld) : Prop :=
  exists df D, chan bs off nb w.2 w.1 di df D /\ f_synced df = D /\ f_pending df = [].

Lemma block_in b : 0 <= b < nb -> 0 <= loc bs off b /\ loc bs off b + bs <= nb * bs + off.
Proof. unfold loc. nia. Qed.

Lemma chan_size s u df D : chan bs off nb s u di df D -> nb * bs + off <= zlen D.
Proof. intros [_ []]. lia. Qed.

Definition UnixLaws : IoLaws uworld.
Proof.
  refine (Build_IoLaws uworld _ true bs (fun _ b => 0 <= b < nb) (fun _ b => 0 <= b < nb)
            unix_ok unix_durable _ _ _ _).
  - intros w c k b (df & D & Hch & Hc) Hb. rewrite Hc by done. unfold dev_block.
    pose proof (chan_size _ _ _ _ Hch).
    destruct (block_in b Hb). apply zlen_zslice; lia.
  - intros [u s] c k b (df & D & Hch & Hc) Hb. cbn [fst snd] in Hch.
    destruct (unix_read_ok rerr werr bs off nb Hbs Hoff ltac:(lia) Hmax s u di df D b 1 Hch)
      as (s' & u' & df' & Hr & Hch'); [lia..|].
    exists (u', s'). cbn. rewrite Hr. split.
    + rewrite Hc by done. unfold dev_block. by rewrite Z.mul_1_l.
    + by exists df', D.
  - intros [u s] c k b d (df & D & Hch & Hc) Hb Hd. cbn [fst snd] in Hch.
    destruct (unix_write_ok werr bs off nb Hbs Hoff ltac:(lia) Hmax s u di df D b 1 d Hch)
      as (s' & u' & df' & Hr & Hch'); [lia..|].
    exists (u', s'). cbn. rewrite Hr. split; [done|]. exists df'. eexists. split; [exact Hch'|].
    pose proof (chan_size _ _ _ _ Hch) as Hsz.
    destruct (block_in b Hb).
    intros k' b' Hb'. cbn. unfold dev_block.
    destruct (decide (b' = b)) as [->|Hne].
    + rewrite decide_True by (split; [by right|done]). by rewrite zslice_zsplice_eq.
    + rewrite decide_False by (by intros [_ ?]). rewrite Hc by done.
      destruct (block_in b' Hb').
      rewrite zslice_zsplice_disjoint; [done|lia|lia|lia|].
      rewrite Hd. unfold loc. nia.
  - intros [u s] c k (df & D & Hch & Hc). cbn [fst snd] in Hch.
    destruct (unix_flush_ok werr bs off nb Hbs Hoff ltac:(lia) Hmax s u di df D Hch)
      as (s' & u' & df' & Hr & Hch' & Hsy & Hpe).
    exists (u', s'). cbn [io_channel_flush unix_chan_inst UnixChannel fst snd]. rewrite Hr. split; [done|]. split; [by exists df', D|]. intros _. by exists df', D.
Defined.

(** * Recovery on the device *)

(** The channel determines the file and the logical device. *)
Lemma chan_unique s u df1 D1 df2 D2 :
  chan bs off nb s u di df1 D1 -> chan bs off nb s u di df2 D2 -> df1 = df2 /\ D1 = D2.
Proof.
  intros [Hi1 Hc1] [Hi2 Hc2].
  assert (df1 = df2) as <-.
  { pose proof (io_file _ _ _ _ _ _ Hi1). pose proof (io_file _ _ _ _ _ _ Hi2). congruence. }
  split; [done|]. apply list_eq. intros x.
  set (covers := fun k : unix_cache => c_in_use k = true /\
    loc bs off (c_block k) <= Z.of_nat x < loc bs off (c_block k) + bs).
  destruct (decide (Exists covers (u_cache u))) as [He|He].
  - apply Exists_exists in He as (k & Hk & Hu & Hx). apply list_elem_of_lookup in Hk as [i Hk].
    destruct (ck_used _ _ _ _ _ _ Hc1 i k Hk Hu) as (Hb & HD1 & _).
    destruct (ck_used _ _ _ _ _ _ Hc2 i k Hk Hu) as (_ & HD2 & _).
    destruct (block_in _ Hb). apply (zslice_agree (loc bs off (c_block k)) bs); [done|congruence|done].
  - assert (Hno : forall i k, u_cache u !! i = Some k -> c_in_use k = true ->
      ~ (loc bs off (c_block k) <= Z.of_nat x < loc bs off (c_block k) + bs)).
    { intros i k Hk Hu Hx. apply He. apply Exists_exists. exists k. split; [|done]. by eapply list_elem_of_lookup_2. }
    by rewrite (ck_rest _ _ _ _ _ _ Hc1 x Hno), (ck_rest _ _ _ _ _ _ Hc2 x Hno).
Qed.

#[local] Instance unix_laws_inst : IoLaws uworld := UnixLaws.

(** C6: composition of recovery with the block cache of [unix_io.c], with redo mode off, no I/O
    fault, no alignment requirement, no bounce buffer and no write-through ([chan]), the journal
    on the same device: on a log with the committed transactions [ts] on the device, recovery
    through the write-back cache returns 0 and leaves, durably on the device itself, every block as
    the last committed and unrevoked write to it, and all other blocks as they were.  (In redo
    mode the recovered blocks are not kept: [JournalLimits.redo_recovery_undone].) *)
Theorem journal_recover_device j lg ts failed t s u df D :
  chan bs off nb s u di df D -> geom (W := uworld) j ->
  (forall o, in_log j o -> dev_block D (journal_bmap j o).2 = lg o) ->
  table_ok t -> (forall b, revoked_at t b = None) -> j_revoke j = Some t -> j_failed_commit j = 0 ->
  be32_at off_s_start (j_superblock j) <> 0 -> in_log j (be32_at off_s_start (j_superblock j)) ->
  log_at j lg (be32_at off_s_sequence (j_superblock j)) (be32_at off_s_start (j_superblock j)) ts failed ->
  Z.of_nat (length ts) < 2 ^ 31 -> writes_ok (W := uworld) j ts ->
  exists n s' u' df' j', (forall fuel, (n <= fuel)%nat -> journal_recover fuel j (u, s) = Done ((0, j'), (u', s'))) /\
    chan bs off nb s' u' di df' (f_synced df') /\ f_pending df' = [] /\
    forall b, 0 <= b < nb -> dev_block (f_synced df') b = default (dev_block D b) (survivor b ts).
Proof.
  intros Hch Hg Hlg Ht Hn Hr Hf Hpos Hp Hlog Hl Hw.
  set (c := fun (_ : kdev) b => dev_block D b).
  destruct (journal_recover_log j Hg lg ts failed t (u, s) (c K_DEV_FS))
    as (n & [u' s'] & t' & Hrec & (c' & (df1 & D1 & Hch1 & Hc1) & Hfs & _) & (df2 & D2 & Hch2 & Hsy & Hpe) & _); try done.
  { exists c. split; [|done]. exists df, D. done. }
  destruct (chan_unique _ _ _ _ _ _ Hch1 Hch2) as [<- <-].
  exists n, s', u', df1. eexists. split; [exact Hrec|]. split; [by rewrite Hsy|]. split; [done|].
  intros b Hb. rewrite Hsy. specialize (Hfs b). rewrite (Hc1 K_DEV_FS b Hb) in Hfs.
  rewrite Hfs. apply spec_replay_lookup.
Qed.
End unix_laws.
