(* ===== verification/JournalLimits.v ===== *)
(** Where journal recovery does not do what it means to: lost errors, blocks overwritten on
    error paths, a log that never ends, and recovery under the redo log; and the witnesses of
    the theorems on the journal at a small file system. *)
From Stdlib Require Import ZArith Lia.
From stdpp Require Import base tactics numbers list gmap strings.
From S2P Require Import Prelude Crc32c Os RedoLog RedoLayout RedoWriter RedoOps ExtErr UnixIo UnixIoProofs.
From S2P Require Import RedoReplay RedoSession RedoCrash E2fsck RedoTheorems UnixIoLimits.
From S2P Require Import Jbd Revoke Crc32Be Buffer Recovery RecoverySpec RecoveryProofs.
From S2P Require Import Journal JournalProofs JournalTheorems JournalUnix.
Import Ex.

#[local] Existing Instance ext2fs_checksum.

(** * The checker on the file system of [Ex] *)

Definition ex_super : super :=
  mkSuper 1 EXT3_FEATURE_COMPAT_HAS_JOURNAL EXT3_FEATURE_INCOMPAT_RECOVER 8 0 (replicate 16 0) 0
    (replicate 17 0) 1 4096 11.
Definition ex_ctx {W} (bsz : Z) (w : W) : ectx W := mkCtx w bsz 0 0 0 ex_super 0 [].

Definition yes (_ : list Z) (_ : Z) : bool := true.
Definition ex_bmap2 (_ : jinode) (o : Z) : Z * Z := (0, at_block o).
Definition ex_inode (bsz : Z) : jinode := mkInode 1 (Z.lor LINUX_S_IFREG 0x180) (1024 * bsz) [].
Definition ex_read_inode {W} (_ : Z) (x : ectx W) : Z * jinode := (0, ex_inode (x_blocksize x)).
Definition ex_write_inode {W} (_ : Z) (_ : jinode) : J (ectx W) Z := mret 0.
Definition ex_inode_blocks (_ : jinode) : list (Z * Z) := (fun o => (o, at_block o)) <$> seqZ 0 1024.
Definition ex_no_ext {W} : J (ectx W) (Z + Z * Z) := mret (inl 0).

Definition ex_recover {W} `{IoChannel W} (x : ectx W) : out (Z * ectx W) :=
  recover_ext3_journal yes ex_bmap2 ex_read_inode ex_write_inode ex_inode_blocks ex_no_ext
    30 (true, true, (true, true)) x.

Definition ex_check {W} `{IoChannel W} (x : ectx W) : out (Z * ectx W) :=
  e2fsck_check_ext3_journal yes ex_bmap2 ex_read_inode ex_write_inode ex_inode_blocks ex_no_ext 77 5 x.

(** The journal after [e2fsck_journal_load]. *)
Definition jl : journal := j_set_revoke None jr.

(** [jr] is [jl] with the empty revoke table. *)
Lemma jr_jl : j_set_revoke (Some revoke_table0) jl = jr.
Proof. reflexivity. Qed.

Lemma recover_ext3_journal_correct_witness :
  exists n x' c', (forall fuel, (n <= fuel)%nat ->
      recover_ext3_journal yes ex_bmap2 ex_read_inode ex_write_inode ex_inode_blocks ex_no_ext
        fuel (true, true, (true, true)) (ex_ctx 1024 disk) = Done (0, x')) /\
    io_ok (x_io x') c' /\
    (forall b, (io_same = true -> b <> 100) -> c' K_DEV_FS b = spec_replay ts fs0 b) /\
    be32_at off_s_start (c' K_DEV_JOURNAL 100) = 0 /\
    be32_at off_s_sequence (c' K_DEV_JOURNAL 100) = 8.
Proof.
  apply (recover_ext3_journal_correct yes ex_bmap2 ex_read_inode ex_write_inode ex_inode_blocks ex_no_ext
    (ex_ctx 1024 disk) (m_block disk) 100 1024 (Some (ex_bmap2 (ex_inode 1024))) jl ts lg false).
  - vm_compute. reflexivity.
  - exact disk_ok.
  - exact I.
  - exact I.
  - split; [|split]; vm_compute; done.
  - vm_compute. done.
  - reflexivity.
  - vm_compute. reflexivity.
  - rewrite jr_jl. exact geom_jr.
  - done.
  - vm_compute. done.
  - rewrite jr_jl. vm_compute. done.
  - rewrite jr_jl. exact log_jr.
  - vm_compute. done.
  - rewrite jr_jl. exact writes_jr.
Defined.

(** * An endless log *)

(** The journal of [Ex] with every block of the log a revoke block of transaction 5. *)
Definition loop_disk : mem :=
  mkMem 1024 (list_to_map ((at_block 0, sb_block) ::
    ((fun o => (at_block o, blk [(0, header JFS_REVOKE_BLOCK 5); (off_r_count, be_bytes 4 16)])) <$> seqZ 1 11)))
    ∅ true [] [] false.
Definition loop_lg (o : Z) : list Z := m_block loop_disk K_DEV_JOURNAL (at_block o).

Lemma loop_disk_ok : mem_ok true 1024 loop_disk (m_block loop_disk).
Proof.
  split; try done. intros k b d Hd.
  assert (Hall : map_Forall (fun _ d => bool_decide (zlen d = 1024) = true) (m_fs loop_disk)).
  { apply (bool_decide_eq_true_1 _). vm_compute. reflexivity. }
  apply Hall in Hd. by apply bool_decide_eq_true in Hd.
Qed.

Lemma loop_blocks o : in_log jr o -> is_block loop_lg 5 o JFS_REVOKE_BLOCK.
Proof.
  intros Ho. assert (Hin : o ∈ seqZ 1 11) by (apply elem_of_seqZ; unfold in_log in Ho; cbn in Ho; lia).
  change (seqZ 1 11) with [1; 2; 3; 4; 5; 6; 7; 8; 9; 10; 11] in Hin.
  rewrite !elem_of_cons, elem_of_nil in Hin.
  repeat (destruct Hin as [->|Hin]; [split; [|split]; vm_compute; reflexivity|]). done.
Qed.

Lemma scan_never_ends_witness :
  is_block loop_lg 5 9 JFS_REVOKE_BLOCK /\
  forall fuel, do_one_pass fuel jr info_zero PASS_SCAN loop_disk = OutOfFuel.
Proof.
  split; [apply loop_blocks; cbv; split; done|].
  apply (scan_never_ends jr loop_lg info_zero loop_disk (m_block loop_disk K_DEV_FS)).
  - exact geom_jr.
  - exists (m_block loop_disk). split; [exact loop_disk_ok|]. done.
  - vm_compute. done.
  - intros o Ho. change (be32_at off_s_sequence (j_superblock jr)) with (be32_at off_s_sequence sb_block).
    replace (be32_at off_s_sequence sb_block) with 5 by (vm_compute; reflexivity). by apply loop_blocks.
Defined.

(** * Errors *)

(** The device of [Ex] with blocks that cannot be read or written. *)
Definition bad_disk (bad_read bad_write : list (kdev * Z)) : mem :=
  mkMem 1024 (m_fs disk) ∅ true bad_read bad_write false.

(** On a channel that reports write errors at once, a write that fails during replay is not noticed: [brelse] drops the error with the
    buffer.  Recovery reports success, the committed block is not on the device, and the journal that held it is
    marked empty. *)
Theorem replay_write_error_lost :
  match ex_recover (ex_ctx 1024 (bad_disk [] [(K_DEV_FS, 20)])) with
  | Done (retval, x') =>
      retval = 0 /\ m_block (x_io x') K_DEV_FS 20 = fill 0 /\ survivor 20 ts = Some (fill 7) /\
      be32_at off_s_start (m_block (x_io x') K_DEV_JOURNAL 100) = 0
  | _ => False
  end.
Proof. vm_compute. split_and!; reflexivity. Qed.

(** When the journal superblock cannot be read, [recover_ext3_journal] still releases the
    journal as if it had been loaded: the buffer, which is all zeroes, is written over the journal superblock. *)
Theorem read_error_erases_superblock :
  match ex_recover (ex_ctx 1024 (bad_disk [(K_DEV_JOURNAL, 100)] [])) with
  | Done (retval, x') =>
      retval = EIO /\ m_block (x_io x') K_DEV_JOURNAL 100 = fill 0 /\
      be32_at off_h_magic (m_block disk K_DEV_JOURNAL 100) = JFS_MAGIC_NUMBER
  | _ => False
  end.
Proof. vm_compute. split_and!; reflexivity. Qed.

(** A journal inode whose first block is not a journal superblock ("we probably have a
    wrong inode") is dropped, and yet its first block is changed and written back: what would be the sequence and
    error fields of a journal superblock is overwritten in a block that belongs to something else. *)
Theorem wrong_inode_block_overwritten :
  match ex_check (ex_ctx 1024 (mkMem 1024 {[100 := fill 9]} ∅ true [] [] false)) with
  | Done (retval, x') =>
      retval = 0 /\ ext2fs_has_feature_journal (x_super x') = false /\
      m_block (x_io x') K_DEV_FS 100 = 
        zsplice off_s_errno [0; 0; 0; 0] (zsplice off_s_sequence [0; 0; 0; 0] (fill 9))
  | _ => False
  end.
Proof. vm_compute. split_and!; reflexivity. Qed.

(** * Recovery on a device behind the cache *)

Module Dev.

(** The device of [Ex] in blocks of 128 bytes, as a file. *)
Definition nb : Z := 112.
Definition block (b : Z) : list Z :=
  if decide (b = 100) then take 128 (set_be32 off_s_blocksize 128 sb_block)
  else take 128 (m_block disk K_DEV_FS b).
Definition bytes : list Z := Eval vm_compute in concat (map block (seqZ 0 112)).
Definition dev : file := mkFile bytes [].

Definition system : st :=
  mkSt (mkOs (<["redo" := 1]> ∅) (<[0 := dev]> (<[1 := demo_log]> ∅)) (<[3 := 0]> (<[4 := 1]> ∅)) [] [] ∅)
       (Some demo_rd).
Definition channel : uio := alloc_cache (mkUio 128 0 false 3 false 0 0 [] 0 0).

Lemma channel_ok : chan 128 0 nb system channel 0 dev bytes.
Proof.
  assert (Hslot : forall i k, u_cache channel !! i = Some k -> k = fresh_slot 128).
  { intros i k Hk. change (u_cache channel) with (replicate 8 (fresh_slot 128)) in Hk.
    by apply lookup_replicate in Hk as [-> _]. }
  split; [by split|]. split.
  - done.
  - done.
  - vm_compute. done.
  - intros i k ->%Hslot. done.
  - intros i k ->%Hslot. done.
  - intros i j k k' ->%Hslot. done.
  - done.
Qed.

Definition jd : journal :=
  mkJournal (mkBh K_DEV_JOURNAL 128 0 false true (at_block 0) (block 100)) 2 9 1 12 128 12
    (Some (fun o => (0, at_block o))) 5 5 (Some revoke_table0) 0 0.
Definition lgd (o : Z) : list Z := dev_block 128 0 bytes (at_block o).
Definition tsd : list txn :=
  [ mkTxn [(20, replicate 128 7); (21, take 128 (blk [(0, be_bytes 4 JFS_MAGIC_NUMBER); (4, replicate 20 9)]))] [];
    mkTxn [(22, replicate 128 5)] [21] ].

Lemma log_jd : log_at jd lgd 5 9 tsd false.
Proof.
  assert (Hlog : exists t1 t2, log_at jd lgd 5 9 [t1; t2] false /\ [t1; t2] = tsd).
  { eexists _, _. split; [eapply log_txn|].
    - eapply txn_descr; [|vm_compute; done|].
      { split; [is_blk|]. split; vm_compute; done. }
      eapply txn_commit; [is_blk|]. vm_compute. reflexivity.
    - eapply log_txn.
      + eapply txn_revoke; [split; [is_blk|split; vm_compute; done]|].
        eapply txn_descr; [split; [is_blk|split; vm_compute; done]|vm_compute; done|].
        eapply txn_commit; [is_blk|]. vm_compute. reflexivity.
      + apply log_end. eapply torn_descr; [split; [is_blk|split; vm_compute; done]|].
        apply torn_end. left. vm_compute. done.
    - vm_compute. reflexivity. }
  destruct Hlog as (t1 & t2 & Hlog & <-). exact Hlog.
Qed.

End Dev.
Import Dev.

Lemma journal_recover_device_witness :
  exists n s' u' df' j', (forall fuel, (n <= fuel)%nat ->
      @journal_recover _ (UnixChannel false no_rerr no_werr) fuel jd (channel, system) = Done ((0, j'), (u', s'))) /\
    chan 128 0 nb s' u' 0 df' (f_synced df') /\ f_pending df' = [] /\
    forall b, 0 <= b < nb -> dev_block 128 0 (f_synced df') b = default (dev_block 128 0 bytes b) (survivor b tsd).
Proof.
  destruct revoke_table0_ok as [Ht Hn].
  assert (Hin : forall o, in_log jd o -> 0 <= at_block o < nb).
  { intros o Ho. unfold in_log in Ho. unfold at_block, nb. cbn in Ho. lia. }
  eapply (journal_recover_device no_rerr no_werr 128 0 nb 0 ltac:(lia) ltac:(lia) ltac:(done) ltac:(done)
            jd lgd tsd false revoke_table0 system channel dev bytes channel_ok); try done.
  - split; try done. intros o Ho. split; [done|]. by apply Hin.
  - exact log_jd.
  - assert (Htg : forall b, 0 <= b < 100 -> @target uworld _ (UnixLaws no_rerr no_werr 128 0 nb 0 ltac:(lia) ltac:(lia) ltac:(done) ltac:(done)) jd b).
    { intros b Hb. split; [unfold io_writable; cbn; unfold nb; lia|]. intros _ o Ho. unfold in_log in Ho. cbn in *. unfold at_block. lia. }
    split; [|split; [|done]]; repeat apply Forall_cons_2; try apply Forall_nil_2; intros _; apply Htg; cbn; lia.
Defined.

(** * Recovery under the redo log *)

(** [ext2fs_free] and [ext2fs_open]: the cached blocks are written out, and a new channel reads
    the superblock that is on the device. *)
Definition ex_reopen (redo : bool) : J (ectx uworld) Z := fun x =>
  match flush_cached_blocks redo no_werr false (x_io x).1 (x_io x).2 with
  | Some ((_, u), s) => Done (0, x_set_super ex_super (x_set_io (alloc_cache u, s) x))
  | None => Undef
  end.

(** The part of [main] around [e2fsck_run_ext3_journal]: whether the file system still asks for
    recovery when it is over. *)
Definition run_journal (redo : bool) : option (Z * bool) :=
  match rfsck_txn_begin system with
  | Some (_, s) =>
      match @e2fsck_run_ext3_journal _ (UnixChannel redo no_rerr no_werr) yes ex_bmap2 ex_read_inode ex_write_inode
              ex_inode_blocks ex_no_ext 77 (ex_reopen redo) (mret 0) 30 (true, true, (true, true))
              (ex_ctx 128 (channel, s)) with
      | Done (retval, x) => Some (retval, ext2fs_has_feature_journal_needs_recovery (x_super x))
      | _ => None
      end
  | None => None
  end.

(** Without the redo log, recovery leaves a file system that does not ask for it any more. *)
Theorem plain_recovery_done : run_journal false = Some (0, false).
Proof. vm_compute. reflexivity. Qed.

(** Under the redo log, recovery of the journal never takes: its writes go to the log, the
    check that follows it reads the old journal superblock from the device, finds data in the journal and sets the flag
    that asks for recovery again (after the restart, [main] gives up with "unable to set superblock flags"). *)
Theorem redo_recovery_undone : run_journal true = Some (0, true).
Proof. vm_compute. reflexivity. Qed.
