(* ===== verification/JournalCheck.v ===== *)
(** The checks of [e2fsck/journal.c] on the flags of the superblock and on the journal
    superblock: when the questions at [no_has_journal] end, and what a journal that was loaded promises. *)
From Stdlib Require Import ZArith Lia.
From stdpp Require Import base tactics numbers list gmap strings.
From S2P Require Import Prelude Crc32c Os RedoLog ExtErr.
From S2P Require Import Jbd Revoke Crc32Be Buffer Recovery RecoverySpec RecoveryProofs.
From S2P Require Import Journal JournalProofs JournalTheorems JournalLimits.

#[local] Existing Instance ext2fs_checksum.

(** * Feature flags *)

Lemma flag_set c f : f <> 0 -> Z.land (Z.lor c f) f <> 0.
Proof. intros Hf. rewrite Z.land_lor_distr_l, Z.land_diag, Z.lor_eq_0_iff. tauto. Qed.

Lemma flag_clear c f : Z.land (Z.land c (Z.lnot f)) f = 0.
Proof. rewrite <- Z.land_assoc, (Z.land_comm (Z.lnot f)), Z.land_lnot_diag. apply Z.land_0_r. Qed.

Lemma has_set_journal s : ext2fs_has_feature_journal (ext2fs_set_feature_journal s) = true.
Proof. unfold ext2fs_has_feature_journal. apply negb_true_iff, bool_decide_eq_false_2, flag_set. done. Qed.

Lemma has_clear_journal s : ext2fs_has_feature_journal (ext2fs_clear_feature_journal s) = false.
Proof. unfold ext2fs_has_feature_journal. apply negb_false_iff, bool_decide_eq_true_2, flag_clear. Qed.

Lemma needs_clear_recovery s :
  ext2fs_has_feature_journal_needs_recovery (ext2fs_clear_feature_journal_needs_recovery s) = false.
Proof.
  unfold ext2fs_has_feature_journal_needs_recovery.
  apply negb_false_iff, bool_decide_eq_true_2, flag_clear.
Qed.

#[export] Hint Resolve has_set_journal has_clear_journal needs_clear_recovery : core.

Section check.
Context {W : Type}.
Variable answer : list Z -> Z -> bool.

Abbreviation has x := (ext2fs_has_feature_journal (x_super x)).
Abbreviation needs x := (ext2fs_has_feature_journal_needs_recovery (x_super x)).

(** [e2fsck_clear_recover] in one step. *)
Lemma clear_recover_run (e : bool) (x : ectx W) :
  exists x', e2fsck_clear_recover e x = Done (tt, x') /\ needs x' = false /\ x_io x' = x_io x /\
    x_options x' = x_options x /\ has x' = has x /\ s_journal_inum (x_super x') = s_journal_inum (x_super x).
Proof.
  destruct e; eexists; (split; [reflexivity|]); split_and!; try done; apply needs_clear_recovery.
Qed.

(** * The questions at [no_has_journal] *)

(** The questions asked when the user has said yes to the first and no to the second [k] times. *)
Fixpoint undecided (k : nat) (asked : list Z) : list Z :=
  match k with
  | O => asked
  | S k' => undecided k' (PR_0_JOURNAL_RECOVER_SET :: PR_0_JOURNAL_HAS_JOURNAL :: asked)
  end.

(** The user who clears the journal but not the flag, from the history [asked] on. *)
Definition torn_user (asked : list Z) : Prop :=
  forall k, answer (undecided k asked) PR_0_JOURNAL_HAS_JOURNAL = true /\
            answer (PR_0_JOURNAL_HAS_JOURNAL :: undecided k asked) PR_0_JOURNAL_RECOVER_SET = false.

(** The context in which the questions are asked again. *)
Definition ask_again (x : ectx W) : ectx W := x_ask PR_0_JOURNAL_RECOVER_SET (x_ask PR_0_JOURNAL_HAS_JOURNAL x).

(** One turn: the loop ends with consistent flags, or goes on. *)
Lemma no_has_journal_turn fuel (x : ectx W) :
  (exists x', no_has_journal answer (S fuel) x = Done (tt, x') /\
     (Z.land (x_options x) E2F_OPT_READONLY = 0 -> has x' = true \/ needs x' = false) /\ x_io x' = x_io x /\
     (has x = true \/ needs x = false \/ answer (x_asked x) PR_0_JOURNAL_HAS_JOURNAL = false \/
      answer (PR_0_JOURNAL_HAS_JOURNAL :: x_asked x) PR_0_JOURNAL_RECOVER_SET = true)) \/
  (no_has_journal answer (S fuel) x = no_has_journal answer fuel (ask_again x) /\
   has x = false /\ needs x = true /\ answer (x_asked x) PR_0_JOURNAL_HAS_JOURNAL = true /\
   answer (PR_0_JOURNAL_HAS_JOURNAL :: x_asked x) PR_0_JOURNAL_RECOVER_SET = false).
Proof.
  cbn [no_has_journal]. unfold mbind, J_bind, get, fix_problem, mret, J_ret.
  destruct (has x) eqn:Hh; [left; exists x; auto|].
  destruct (answer (x_asked x) PR_0_JOURNAL_HAS_JOURNAL) eqn:Ha.
  - destruct (needs x) eqn:Hn.
    + change (x_asked (x_ask PR_0_JOURNAL_HAS_JOURNAL x)) with (PR_0_JOURNAL_HAS_JOURNAL :: x_asked x).
      destruct (answer (PR_0_JOURNAL_HAS_JOURNAL :: x_asked x) PR_0_JOURNAL_RECOVER_SET) eqn:Hb; [left|by right].
      cbn [negb]. edestruct clear_recover_run as (x' & Hc & Hn' & Hio & _).
      exists x'. split; [exact Hc|]. split_and!; auto 6.
    + left. edestruct clear_recover_run as (x' & Hc & Hn' & Hio & _).
      exists x'. split; [exact Hc|]. split_and!; auto 6.
  - left. change (x_options x) with (x_options (x_ask PR_0_JOURNAL_HAS_JOURNAL x)).
    case_decide; eexists; (split; [reflexivity|]); split_and!; auto; try done.
    intros _. left. apply has_set_journal.
Qed.

(** The questions about a journal that the superblock does not admit to are asked without
    end exactly when the superblock asks for recovery and the user for ever agrees to drop the journal and refuses
    to clear that flag; with any other answers (-y, -n and -p among them) the loop ends, and then, unless the check
    is read-only, needs_recovery is not set without has_journal. *)
Theorem no_has_journal_ends (x : ectx W) :
  ((forall fuel, no_has_journal answer fuel x = OutOfFuel) <->
   has x = false /\ needs x = true /\ torn_user (x_asked x)) /\
  (forall fuel u x', no_has_journal answer fuel x = Done (u, x') ->
     Z.land (x_options x) E2F_OPT_READONLY = 0 -> has x' = true \/ needs x' = false).
Proof.
  split.
  - split.
    + intros Hend.
      assert (Hk : forall k (y : ectx W), (forall fuel, no_has_journal answer fuel y = OutOfFuel) ->
        has y = false /\ needs y = true /\
        answer (undecided k (x_asked y)) PR_0_JOURNAL_HAS_JOURNAL = true /\
        answer (PR_0_JOURNAL_HAS_JOURNAL :: undecided k (x_asked y)) PR_0_JOURNAL_RECOVER_SET = false).
      { induction k as [|k IH]; intros y Hy.
        - destruct (no_has_journal_turn 0 y) as [(x' & Hr & _)|(_ & ? & ? & ? & ?)]; [|done].
          by rewrite Hy in Hr.
        - destruct (no_has_journal_turn 0 y) as [(x' & Hr & _)|(_ & Hh & Hn & _)]; [by rewrite Hy in Hr|].
          destruct (IH (ask_again y)) as (_ & _ & Ha); [|exact (conj Hh (conj Hn Ha))].
          intros fuel. destruct (no_has_journal_turn fuel y) as [(x' & Hr & _)|(Hr & _)].
          + by rewrite Hy in Hr.
          + by rewrite <- Hr, Hy. }
      destruct (Hk 0%nat x Hend) as (Hh & Hn & _). split_and!; [done|done|].
      intros k. by destruct (Hk k x Hend) as (_ & _ & ?).
    + intros (Hh & Hn & Ht) fuel. revert x Hh Hn Ht.
      induction fuel as [|fuel IH]; [done|]. intros x Hh Hn Ht.
      destruct (no_has_journal_turn fuel x) as [(x' & _ & _ & _ & Hor)|(-> & _)].
      * destruct (Ht 0%nat) as [H1 H2]. cbn in H1, H2. naive_solver congruence.
      * apply IH; [done|done|]. intros k. exact (Ht (S k)).
  - intros fuel. revert x. induction fuel as [|fuel IH]; [done|]. intros x u x' Hr Hro.
    destruct (no_has_journal_turn fuel x) as [(x2 & Hr2 & Hf & _)|(Hr2 & _)]; rewrite Hr2 in Hr.
    + injection Hr as _ <-. auto.
    + by apply (IH (ask_again x) u).
Qed.

End check.

(** * A journal that was loaded *)

(** What the rest of the checker may rely on: a known format, features that are understood and
    do not contradict each other, a superblock that passes its checksum, and a log that ends inside
    the journal; where the log begins ([j_first], [j_tail]) is taken from the superblock
    unchecked. *)
Record journal_wf (maxlen : Z) (j : journal) : Prop := {
  wf_version : j_format_version j = 1 \/ j_format_version j = 2;
  wf_incompat : JFS_HAS_INCOMPAT_FEATURE j (not32 JFS_KNOWN_INCOMPAT_FEATURES) = false;
  wf_ro_compat : JFS_HAS_RO_COMPAT_FEATURE j (not32 JFS_KNOWN_ROCOMPAT_FEATURES) = false;
  wf_users : j_format_version j = 2 -> be32_at off_s_nr_users (j_superblock j) <= 1;
  wf_one_csum : jfs_has_feature_csum2 j && jfs_has_feature_csum3 j = false;
  wf_csum : journal_has_csum_v2or3 j = true ->
    jfs_has_feature_checksum j = false /\ byte_at off_s_checksum_type (j_superblock j) = JBD2_CRC32C_CHKSUM /\
    be32_at off_s_checksum (j_superblock j) = e2fsck_journal_sb_csum (j_superblock j) /\
    j_csum_seed j = jbd2_chksum (2 ^ 32 - 1) (zslice off_s_uuid 16 (j_superblock j));
  wf_blocksize : j_blocksize j = be32_at off_s_blocksize (j_superblock j);
  wf_maxlen : j_maxlen j = be32_at off_s_maxlen (j_superblock j) /\ j_maxlen j <= maxlen;
  wf_log : j_last j = j_maxlen j /\ j_first j = be32_at off_s_first (j_superblock j) /\
    j_tail j = be32_at off_s_start (j_superblock j);
  wf_sequence : j_tail_sequence j = be32_at off_s_sequence (j_superblock j) /\
    j_transaction_sequence j = be32_at off_s_sequence (j_superblock j)
}.

Lemma load_checks_wf j j' :
  load_checks j = (0, j') -> j_format_version j = 1 \/ j_format_version j = 2 ->
  (j_format_version j = 2 -> be32_at off_s_nr_users (j_superblock j) <= 1) -> journal_wf (j_maxlen j) j'.
Proof.
  intros Hl Hv Hu. pose proof (load_checks_inv _ _ Hl) as (_ & _ & Hbs & Hj' & Hml).
  revert Hl. unfold load_checks.
  destruct (JFS_HAS_INCOMPAT_FEATURE _ _) eqn:Hi; [done|].
  destruct (JFS_HAS_RO_COMPAT_FEATURE _ _) eqn:Hr; [done|].
  destruct (jfs_has_feature_csum2 j && jfs_has_feature_csum3 j) eqn:H23; [done|].
  destruct (journal_has_csum_v2or3 j && jfs_has_feature_checksum j) eqn:H1; [done|].
  destruct (negb (e2fsck_journal_verify_csum_type j) || negb (e2fsck_journal_sb_csum_verify j)) eqn:Hc; [done|].
  cbv zeta. case_decide; [done|]. case_decide; [done|].
  intros [= Hseed%(f_equal j_csum_seed)].
  rewrite Hj'. split; try done.
  - intros Hcs. change (journal_has_csum_v2or3 j = true) in Hcs.
    unfold e2fsck_journal_verify_csum_type, e2fsck_journal_sb_csum_verify in Hc.
    rewrite Hcs in *. cbn [andb negb] in *. apply orb_false_iff in Hc as [Ht%negb_false_iff Hs%negb_false_iff].
    split_and!; [done|by apply bool_decide_eq_true in Ht|by apply bool_decide_eq_true in Hs|].
    etransitivity; [symmetry; exact Hseed|]. by destruct (decide _).
Qed.

Section load.
Context {W : Type} `{IoChannel W}.
Variable answer : list Z -> Z -> bool.

Ltac run_clear x2 Hn Hh Hi :=
  match goal with
  | |- context [e2fsck_clear_recover ?e ?y] => destruct (clear_recover_run e y) as (x2 & -> & Hn & _ & _ & Hh & Hi)
  end.

Lemma fix_bad_inode_0 (x x' : ectx W) :
  e2fsck_journal_fix_bad_inode answer x = Done (0, x') ->
  ext2fs_has_feature_journal (x_super x') = false /\ s_journal_inum (x_super x') = 0 /\
  ext2fs_has_feature_journal_needs_recovery (x_super x') = false.
Proof.
  unfold e2fsck_journal_fix_bad_inode, mbind, J_bind, get, fix_problem, mret, J_ret.
  destruct (_ || _) eqn:Hb.
  - destruct (answer _ _); [|done]. cbn [modify mod_super clear_master_sb_only].
    run_clear x2 Hn Hh' Hi'. intros [= <-].
    split_and!; [rewrite Hh'; apply has_clear_journal|by rewrite Hi'|done].
  - apply orb_false_iff in Hb as [Hh Hi%negb_false_iff%bool_decide_eq_true].
    destruct (ext2fs_has_feature_journal_needs_recovery (x_super x)) eqn:Hr; [|by intros [= <-]].
    destruct (answer _ _); [|done].
    run_clear x2 Hn Hh' Hi'. intros [= <-].
    split_and!; [by rewrite Hh'|by rewrite Hi'|done].
Qed.

Lemma clear_v2_run j (x : ectx W) :
  exists j' x', clear_v2_journal_fields answer j x = Done (j', x') /\
    j_format_version j' = j_format_version j /\ j_maxlen j' = j_maxlen j.
Proof.
  unfold clear_v2_journal_fields, mbind, J_bind, fix_problem, get, modify, mret, J_ret.
  destruct (answer _ _); by do 2 eexists.
Qed.


End load.


(** [e2fsck_journal_load] does not check where the log begins: a superblock whose log starts far
    past the end of the journal is accepted. *)
Definition bad_start_disk : mem :=
  mkMem 1024 (<[100 := set_be32 off_s_start 5000 (set_be32 off_s_first 4000 Ex.sb_block)]> (m_fs Ex.disk))
        ∅ true [] [] false.

Theorem load_accepts_bad_start :
  match e2fsck_journal_load yes (new_journal (ex_ctx 1024 bad_start_disk) 100 1024 (j_bmap jl))
          (ex_ctx 1024 bad_start_disk) with
  | Done ((err, j), _) => err = 0 /\ j_maxlen j = 12 /\ j_last j = 12 /\ j_first j = 4000 /\ j_tail j = 5000
  | _ => False
  end.
Proof. vm_compute. split_and!; reflexivity. Qed.
